(* ===== verification/_CoqProject ===== *)
-Q . S2P
Prelude.v
Text.v
Identity.v
Ledger.v
Journal.v
Mailbox.v
Notification.v
Doorbell.v
Facts.v
Projection.v
Attempt.v
Prepared.v
MailboxInv.v
NotificationInv.v
Invariant.v
Replay.v
Entries.v
Guarantees.v
Store.v
Views.v
ViewProps.v
Directory.v
StoreInv.v
StoreOps.v
Scheduler.v
Recovery.v
Idempotency.v
Service.v
ServiceProps.v
AttentionRegister.v
AttentionProps.v
Detection.v
Utf8.v
Manifests.v
ManifestProps.v
TmuxText.v
TmuxTextProps.v
Registry.v
RegistryProps.v
NotificationAdapter.v
DeliveryGate.v
GateProps.v
Callers.v
Receipt.v
ReceiptProps.v
TurnKeys.v
Composer.v
ComposerProps.v
Fusion.v
FusionProps.v
HookLifecycle.v
Reconcile.v
HookLiveness.v
DeliveryPayload.v
DeliveryAttempt.v
DeliveryProps.v
HookAck.v
Reports.v
ReportProps.v
Roster.v
RosterProps.v
Worker.v
ControlStream.v
ControlQueue.v
ControlPipe.v
ControlCommands.v
Watcher.v
WatcherProps.v
ComposerProjection.v
Scheduling.v
SchedulingProps.v
Messaging.v
MessagingProps.v
Codec.v
Demo.v
Witnesses.v
DeliveryWitnesses.v
DaemonWitnesses.v
