(* ===== verification/Prelude.v ===== *)
(** * Cyclops: durable mailboxes, wake attempts and their delivery

    Cyclops lets agents that run in tmux panes send each other messages.  A
    daemon keeps one workspace journal, an append-only NDJSON file; everything
    it knows about messages, mailboxes and the wakes ("notifications") that
    tell a pane about a message is a projection of that journal.  A delivery
    worker per recipient takes a wake to the pane: it waits at a gate until the
    pane may be written, records the write, pastes a doorbell, presses Enter and
    waits for a receipt.  Clients show what needs a human on an attention
    register.  This development models that core and proves what makes it
    trustworthy.  Source paths below are relative to the repository's [src/]
    directory.

    ** The program and its model

    - [cyclops-proto/src/identity.rs]: workspace, session, agent and process
      ids and the recipient key that names a mailbox.  [Identity.v].
    - [cyclops-proto/src/ledger.rs]: journal rows.  [Ledger.v].
    - [cyclops-ledger/src/lib.rs]: the writer of the journal: opening with tail
      recovery and replay, appending, sealing.  The file is a list of bytes and
      every write may stop anywhere or fail to sync.  [Journal.v].
    - [cyclops-proto/src/mailbox.rs], [notification.rs]: message ids, request
      digests, entries; the states, causes and transition table of one wake
      attempt; the facts the journal stores; the doorbell texts a wake pastes.
      [Mailbox.v], [Notification.v], [Facts.v], [Doorbell.v].
    - [cyclopsd/src/mailbox/projection.rs]: [MailboxProjection].  Applying a row
      validates it against the state ([prepare_line], one [prepare_*] per fact,
      each guard and error in source order) and then commits it ([commit_line]).
      [Facts.v], [Projection.v]; the labels of [directory.rs] are there
      too.  Its read side (lists, attention rows, snapshots, following, body
      access) is [Views.v], with the result types of [wire.rs].
    - [cyclopsd/src/mailbox/store.rs]: [MessageStore], the journal writer and the
      projection together; every operation builds a row, validates, appends and
      commits.  [Store.v].
    - [cyclopsd/src/mailbox/directory.rs]: [MailboxDirectory], from the agents of a
      workspace to addresses and recipient keys.  [Directory.v].
    - [cyclopsd/src/mailbox/service.rs]: the mailbox half of scheduling
      ([Scheduler.v]), and [MailboxService], the one door to a workspace's mailbox,
      with its lock and the changes it publishes ([Service.v]).
    - [cyclopsd/src/notification_adapter.rs]: [NotificationContext], the durable
      steps of one delivery run; each is one step on the store.
      [NotificationAdapter.v].
    - [cyclopsd/src/delivery/gate.rs]: admission and the gate's loop of holds and
      wakes, with the classification of failures ([DeliveryGate.v]); the attempt
      from the gate to the receipt, with [inject.rs] and the loop of [worker.rs]
      ([DeliveryAttempt.v]); the wait for the receipt and its clock
      ([Receipt.v]); the payload and its reconstruction, with [terminal.rs]
      ([DeliveryPayload.v]); the handles hooks can match and the resolution of
      their reports ([HookAck.v]).
    - [cyclopsd/src/delivery/worker.rs], [delivery/mod.rs]: the queue of one
      worker, the registry of workers and runs, recovery after a failure, with
      the pre-write transition of [messaging.rs].  [Worker.v].
    - [cyclopsd/src/turnkey.rs]: the turn a hook names, and the bounded store of
      turn ends.  [TurnKeys.v].
    - [cyclops-proto/src/state.rs]: sensor readings, detections with their
      write-readiness verdict and the composer hold.  [Detection.v].
    - [cyclops-manifest/src/lib.rs]: the manifest of an agent: its hooks table and
      rules, their validation, escapes, and the evaluation of a screen.
      [Manifests.v].
    - [cyclopsd/src/fusion.rs]: the cached entry of a pane with its composer
      barrier and the transaction of an observation ([Composer.v]); hook readings,
      the title and screen tiers and their fusion into a verdict ([Fusion.v]);
      candidate turns confirmed by later frames ([Reconcile.v]), over the store of
      [hook_lifecycle.rs] ([HookLifecycle.v]).
    - [cyclopsd/src/selftest.rs]: which processes of a pane have reported, and the
      lifetime of a route.  [HookLiveness.v].
    - [cyclopsd/src/ack.rs]: a hook's report, from its refusals and its dedupe
      windows to readings, candidates, ends, admission and receipts.  [Reports.v].
    - [cyclopsd/src/registry.rs]: which pane and which headless agent wears which
      label, with the tmux chrome to give back, in memory and in [registry.json].
      [Registry.v].
    - [cyclopsd/src/identity.rs]: the walks up the process tree by which a socket
      peer, a headless registration and a hook's helper are identified.
      [Callers.v].
    - [cyclopsd/src/lib.rs], [headless.rs], [server.rs]: seating recipients at the
      panes of the sessions, publishing the directory, naming and clearing panes,
      headless registration and retirement, and the resolution of a caller.
      [Roster.v].
    - [cyclops-tmux/src/control.rs]: the control client.  Reading lines and routing
      them ([ControlStream.v]), the bounded queue of notifications
      ([ControlQueue.v]), commands and their replies on one pipe ([ControlPipe.v]), and
      the command lines of its operations ([ControlCommands.v]).
    - [cyclops-tmux/src/watcher.rs]: the pane table of a session, its events and its
      loop.  [Watcher.v].
    - [cyclopsd/src/messaging_runtime.rs], [messaging.rs]: who owns what a composer
      shows, with [inject.rs] ([ComposerProjection.v]); the passes that take a wake to a
      worker, park it, reopen it or settle its delivery on a claim ([Scheduling.v]); and
      sending, replying, claiming, requeueing and withdrawing ([Messaging.v]).
    - [cyclops-proto/src/attention.rs]: the attention register and the eye.
      [AttentionRegister.v].
    - [cyclops-tmux/src/quote.rs], [version.rs], [notify.rs] and
      [cyclops-proto/src/label.rs]: command quoting, version gates, control-mode
      notifications and labels, over bytes ([Utf8.v]).  [TmuxText.v].

    The store's operations and the adapter's methods are functions on a state.
    The delivery attempt is a program in a free monad over the operations it asks
    of tmux, the pane table, the composer barrier, the store and the shared
    handle: other actors run between any two of them, so its theorems quantify
    over every answer.  The process table changes while it is walked: every
    reading of it has a number, and two readings of one process may differ.  The
    reconciliation of candidate turns and the passes of scheduling and messaging take one
    lock at a time; what others do between two of them is an argument.  The tasks on the
    pipe of the control client are a step relation, one step per stretch between two
    awaits.  The gate, the receipt wait and hook resolution are loops over the events that
    wake them, one turn per event.  Shared handles live in a heap and are compared by
    reference, as [Arc::ptr_eq] does.

    Rust's [Result] is [result], with [let?] for the question mark and [bail]
    for an early return; a state-changing method returns the new state; a
    failing [expect] is a value ([None], [AppliedPanic], [Panicked]), so that
    its absence is a theorem.  Maps are [gmap], sets [gset]; a [BTreeMap] is
    read through [btree_values]; a [HashMap] is read through [map_to_list],
    whose order stands for an arbitrary one.  Unsigned integers are [N] with
    the checked, saturating and masking operations written out; text is the
    list of its scalar values ([Text.v]).

    Code that is not in the repository is a class of operations with a class of
    laws stating its documented behaviour: [serde_json] on facts and metadata
    ([Serde], [SerdeLaws]) and on rows ([LineCodec], [LineCodecLaws],
    [StorableLaws]), the [uuid] crate ([Uuids], [UuidLaws]), and SHA-256 with
    the JSON of the digest payload ([Digests], [DigestLaws]).  [Codec.v] gives
    concrete instances of all of them, so the laws hold together, and
    [Demo.v] runs a workspace on those instances; [Witnesses.v] and
    [DeliveryWitnesses.v] apply the theorems that have hypotheses to states of
    that workspace and to runs against a concrete pane, and so does
    [DaemonWitnesses.v] for hook reports, the service, the roster, the control client,
    scheduling and messaging.  The JSON of [registry.json] is the class
    [RegistryJson] with [RegistryJsonLaws], and the kernel's process table the record
    [Kernel], of which the theorems assume nothing; [DaemonWitnesses.v] has an
    instance of each.
    tmux's command lexer is a
    class too ([TmuxLexer], [TmuxLexerLaws]), and so is the [regex] crate
    ([Regexes], of which the theorems use no law); both have an instance in
    [DeliveryWitnesses.v].

    ** What is proved

    - The projection.  [Prepared.v] states once what each validation has checked;
      [MailboxInv.v], [NotificationInv.v] and [Invariant.v] define the invariant
      [wf] and show that every validated mutation commits and keeps it;
      [Replay.v] lifts this to journals.  [Guarantees.v] has the contract: no
      journal panics the projection, every state is well-formed and numbered
      without a gap, a live journal replays to the same state, messages append
      to mailboxes, entries settle once, claims are exact, client keys and
      attempt ids are unique, threads are flat, one attempt holds a recipient's
      terminal, resolutions need evidence and are final.  [Entries.v] holds the
      life of a mailbox entry.
    - Wake attempts.  [Attempt.v] is the abstract machine [attempt_step]: the
      write boundary is one-way and crossed only with a binding, terminal states
      are terminal but for listed exceptions, an attempt takes at most 52 live
      steps, epochs are bounded.  [Guarantees.attempts_refine_machine] shows that
      the projection refines it.
    - The journal and the store.  Acknowledged rows survive any disk behaviour
      ([Journal.v]); every store operation keeps the projection equal to the
      replay of the file and never panics, and reopening rebuilds it
      ([StoreInv.v], [StoreOps.v]); accepting and claiming are idempotent
      ([Idempotency.v]); restart recovery always gets past the projection's
      checks and leaves no attempt in flight ([Recovery.v]).
    - Reading and scheduling.  Lists and snapshots never fail, following covers
      every message once, bodies are read only by those entitled to them, FIFO
      positions and attention rows are exact ([ViewProps.v]); a wake is prepared
      once, the head of the queue is the one a snapshot shows, and a blocked wake
      reopens at most once ([Scheduler.v]).
    - Text forms.  Recipient selectors, doorbells and claim locators round trip
      and are canonical ([Identity.v], [Doorbell.v]); quoted arguments are one
      word, labels are refused exactly for the stated reasons, and pane output
      parses back to its bytes ([TmuxTextProps.v]).
    - Writing to a pane.  [DeliveryProps.v] states the protocol of a write as an
      automaton over the attempt's interactions and shows that every run follows
      it: a pane is written at most once, and every keystroke follows admission,
      an unchanged occupant and the durable record.  A doorbell is admitted only
      on proof, holds are bounded, and a written failure is never retried
      ([GateProps.v]).  The durable steps keep the store in order, fence off stale
      runs and record the write boundary only where it may be crossed
      ([NotificationAdapter.v]); what was pasted the journal rebuilds
      ([DeliveryPayload.v]).
    - Receipts.  A timeout is earned by five observed seconds and screen evidence
      is the submitted agent's own; the wait is bounded and does not panic unless
      the event stream lags ([ReceiptProps.v]).  Hook reports only verify, and an
      early receipt is not lost ([HookAck.v]).  Turn keys are injective and the
      bounded store of ends refines the unbounded one ([TurnKeys.v]).
    - The composer barrier.  Whatever deliveries, receipts and observations do, a
      composer has one owner, a pane that reads as ready is free, and an
      observation that cannot prove who is in the pane changes nothing
      ([ComposerProps.v]).
    - Manifests.  The hooks table is accepted exactly under the stated conditions,
      an accepted one is unambiguous, the deciding rule is the best one, and the
      rows of styled and plain captures align ([ManifestProps.v]).
    - Fusion.  The tiers read apart agree with the manifest's own evaluation; a
      pane is ready only on a composer that was seen; a running turn is not ended
      by sampling, and a refuted transient reading expires ([FusionProps.v]).
    - Candidate turns.  An end settles only on a frame drawn after it
      ([HookLifecycle.v]), and a start is confirmed only by the screen, whatever
      others do between the locks ([Reconcile.v]).
    - Hook reports.  A refused report leaves nothing, a report counts once, a running
      turn survives reports that are not its end, admission follows its start, and
      no report panics ([ReportProps.v]); a pane opened again inherits nothing from
      its lost lifetime ([HookLiveness.v]).
    - The service.  The changes sent to subscribers are the appended rows, in order,
      and name what the rows touched; clearing alarms is all or nothing; a message
      reaches exactly whom its addresses name ([ServiceProps.v]).
    - The registry.  Every operation is one transition of the registry and one write;
      a restart finds what was acknowledged, up to the order of legacy rows, and a
      window's own border is taken once and kept while an adopted pane is in it
      ([RegistryProps.v]).
    - Callers.  An identity rests on a chain of processes read twice, and in a table
      that holds still the walk is exact; the agent of a hook's helper is the nearest
      one, and its absence is proven ([Callers.v]).
    - The roster.  A recipient is seated where the best rows agree; names stay unique
      through every operation, so publication never fails and names exactly who is
      there ([RosterProps.v]); nobody is taken for somebody else, and a named agent
      reaches its own mailbox ([RosterProps.v]).
    - The control client.  How the bytes were cut does not show in the lines, and a
      reply is whole or refused ([ControlStream.v]); the queue loses nothing it does not
      tell of ([ControlQueue.v]); on the pipe a reply goes to the command it
      answers, however tasks interleave or are dropped ([ControlPipe.v]); keys are sent
      in order and no text becomes a second command ([ControlCommands.v]).
    - The watcher.  Replaying the events gives the table, and a loop that lives has
      closed every gap it was told of ([WatcherProps.v]).
    - Scheduling.  Whatever others do between the sections of a pass, what it answers is
      true when it answers, a blocked wake reopens only on complete evidence, an attempt
      runs once, and a claim settles its delivery without calling it verified
      ([SchedulingProps.v]).  A composer is called owned exactly on the evidence
      ([ComposerProjection.v]).
    - Messaging.  A message that is in the journal is answered, with a receipt per
      recipient, whatever scheduling refuses ([MessagingProps.v]).
    - Workers.  A worker is a FIFO that owns each job once, and recovery never
      runs a written job again ([Worker.v]).
    - The register.  It shows exactly what needs a human, twins are one item, and
      it agrees with the mailbox's own alarms ([AttentionProps.v]).
    - Findings.  [Worker.unverified_submission_is_abandoned],
      [ReceiptProps.lagged_wait_panics],
      [ComposerProps.mode_hands_hold_to_newcomer],
      [ComposerProps.changed_capture_still_writes],
      [ManifestProps.blank_role_is_a_start],
      [ManifestProps.paired_styles_are_overlooked],
      [ServiceProps.superseding_retry_is_refused],
      [RegistryProps.unsynced_adoption_returns],
      [RosterProps.unpublished_names_race],
      [ControlPipe.cancelled_write_shifts_replies] and
      [DeliveryWitnesses.raw_submit_is_outside_the_table] show behaviours the code
      has and does not mean to have.

    ** Fuel and bounds

    Recursion is structural.  [dec_go] (decimal digits) has the bit length as
    fuel, at least the number of digits, and [dec_string_value] shows it is
    enough; [mint_message_id] takes the list of random draws of its retry loop
    and returns nothing when the list runs out.  [process] takes the number of
    passes its loop may run, [None] being a loop that still goes on, and its
    theorems hold for every number; [evict] has the length of its list as fuel
    and removes one element per step; [drain] has the 128 rounds the code allows
    itself, and the process walks the 32 hops of [MAX_ANCESTRY_DEPTH], a longer
    ancestry being doubt in the code too; the gate and the receipt wait take the list
    of turns that happen, and the wait for first dispositions the changes that come before
    its deadline.  [control_lines] has one more than the number of bytes left as fuel and
    takes a byte per line; the grouping of keys has the number of keys.  Times and sequence numbers are
    bounded by [u64_max] where the code's types bound them; the last sequence
    number is refused, as in the code, and not wrapped.

    ** Not modelled

    Locks other than as the atomic steps they make of operations (the poisoning of
    the mailbox lock is modelled), the argv by which a process is classified as an
    agent (an input of the walks), reading TOML, task spawning and supervision, the
    daemon's request loop and session attachment, the spawning of tmux, its handshake and
    the spool files of long pastes, layouts (their ratios are floating-point numbers), the
    state root's file-system checks, the command line and the user interfaces.  The verdict
    that fusion gives is an input of the composer's and the gate's models, and what the
    attempt does to its pane an input of scheduling's.  Of the mailbox itself:
    [blocked_notification_snapshot] and the history queries of the wire.  Of messaging: the
    joins of [status_snapshot] other than the composer's.  Of delivery: [agent.wait], the
    list of open handles, and the pauses and failures that only tests inject.

    ** Order and extensions

    The files go from the data outwards: the projection and its invariant, the store, the
    service, the delivery to a pane, the sensors, the roster, the control client, and last
    the passes that join them.  What would extend them furthest are process discovery, the
    request loop of the daemon and the layout arithmetic of [cyclops-tmux].

    This file holds what all others share: results and their notations, machine
    integers, ordered maps, automation and generic lemmas. *)
From Stdlib Require Import Lia.
From stdpp Require Export base tactics option sorting gmap strings numbers.
From stdpp Require Export list.

(** ** Results

    Rust's [Result<A, E>]: every fallible operation of the program is a
    function into [result E A]. *)
Inductive result (E A : Type) : Type :=
| Ok (a : A)
| Err (e : E).
Arguments Ok {E A} a.
Arguments Err {E A} e.

Declare Scope rust_scope.
Delimit Scope rust_scope with rust.

(** [let? x := e in k] is Rust's [let x = e?; k]. *)
Notation "'let?' x := e 'in' k" :=
  (match e with Ok x => k | Err err => Err err end)
  (at level 10, x name, e at level 200, k at level 200) : rust_scope.
Notation "'let?' ' p := e 'in' k" :=
  (match e with Ok p => k | Err err => Err err end)
  (at level 10, p pattern, e at level 200, k at level 200) : rust_scope.

(** [bail e when c ;; k] is Rust's [if c { return Err(e) } k]. *)
Notation "'bail' e 'when' c ;; k" :=
  (if c then Err e else k)
  (at level 10, e at level 99, c at level 99, k at level 200) : rust_scope.

(** [Option::ok_or]. *)
Definition ok_or {E A} (o : option A) (e : E) : result E A :=
  match o with Some a => Ok a | None => Err e end.

(** [Result::ok]. *)
Definition result_ok {E A} (r : result E A) : option A :=
  match r with Ok a => Some a | Err _ => None end.

(** [Option::transpose] of a fallible map, as [o.map(f).transpose()]. *)
Definition transpose_map {E A B} (f : A → result E B) (o : option A) : result E (option B) :=
  match o with
  | None => Ok None
  | Some a => match f a with Ok b => Ok (Some b) | Err e => Err e end
  end.

Definition result_map_err {E F A} (f : E → F) (r : result E A) : result F A :=
  match r with Ok a => Ok a | Err e => Err (f e) end.

(** ** Machine integers

    Unsigned integers are [N] with the width written at each operation. *)
Definition u8_max : N := 255.
Definition u32_max : N := 4294967295.
Definition u64_max : N := 18446744073709551615.

(** [u64::checked_add]. *)
Definition checked_add_u64 (a b : N) : option N :=
  if (a + b <=? u64_max)%N then Some (a + b)%N else None.

(** [u8::saturating_add] and [u8::saturating_mul]. *)
Definition saturating_add_u8 (a b : N) : N := N.min u8_max (a + b).
Definition saturating_mul_u8 (a b : N) : N := N.min u8_max (a * b).

(** ** Ordered iteration

    A [BTreeMap<u64, A>] is a [gmap N A] whose values are visited in
    ascending key order. *)
Definition key_le {A} (x y : N * A) : Prop := (x.1 ≤ y.1)%N.
#[export] Instance key_le_dec {A} : RelDecision (@key_le A).
Proof. intros x y. unfold key_le. apply _. Defined.
#[export] Instance key_le_total {A} : Total (@key_le A).
Proof. intros x y. unfold key_le. lia. Qed.
#[export] Instance key_le_trans {A} : Transitive (@key_le A).
Proof. intros x y z. unfold key_le. lia. Qed.

Definition btree_list {A} (m : gmap N A) : list (N * A) :=
  merge_sort key_le (map_to_list m).
Definition btree_values {A} (m : gmap N A) : list A := (btree_list m).*2.

(** Stable [slice::sort_by_key] on a numeric key. *)
Definition by_key {A} (f : A → N) (x y : A) : Prop := (f x ≤ f y)%N.
#[export] Instance by_key_dec {A} (f : A → N) : RelDecision (by_key f).
Proof. intros x y. unfold by_key. apply _. Defined.
#[export] Instance by_key_total {A} (f : A → N) : Total (by_key f).
Proof. intros x y. unfold by_key. lia. Qed.
#[export] Instance by_key_trans {A} (f : A → N) : Transitive (by_key f).
Proof. intros x y z. unfold by_key. lia. Qed.
Definition sort_by_key {A} (f : A → N) (l : list A) : list A := merge_sort (by_key f) l.

(** ** Automation *)

(** Turns a decided boolean test into the proposition it decides. *)
Ltac bool_facts :=
  repeat match goal with
  | H : bool_decide _ = true |- _ => apply bool_decide_eq_true in H
  | H : bool_decide _ = false |- _ => apply bool_decide_eq_false in H
  | H : negb _ = true |- _ => apply negb_true_iff in H
  | H : negb _ = false |- _ => apply negb_false_iff in H
  | H : _ || _ = false |- _ => apply orb_false_iff in H; destruct H
  | H : _ && _ = true |- _ => apply andb_true_iff in H; destruct H
  | H : ¬ (?x ≠ ?y) |- _ => apply dec_stable in H
  end.

(** Walks down a chain of early returns: from a successful run of a
    fallible definition, every guard on the way held. *)
Ltac ok_step :=
  match goal with
  | H : Err _ = Ok _ |- _ => discriminate H
  | H : Ok _ = Err _ |- _ => discriminate H
  | H : Ok _ = Ok _ |- _ => injection H as H; subst
  | H : (if ?c then Err _ else _) = Ok _ |- _ =>
      destruct c eqn:?; [discriminate H|]
  | H : match ?e with Ok _ => _ | Err _ => Err _ end = Ok _ |- _ =>
      destruct e eqn:?; [|discriminate H]
  | H : ok_or ?o _ = Ok _ |- _ =>
      destruct o eqn:?; cbn [ok_or] in H; [injection H as H; subst|discriminate H]
  | H : result_map_err _ ?r = Ok _ |- _ =>
      destruct r eqn:?; cbn [result_map_err] in H; [injection H as H; subst|discriminate H]
  | H : (let '(_, _) := ?x in _) = Ok _ |- _ => destruct x eqn:?
  end.
Ltac ok_inv := repeat ok_step; bool_facts.

Create HintDb cyclops discriminated.
#[export] Hint Constants Opaque : cyclops.
#[export] Hint Variables Opaque : cyclops.

(** ** Shared lemmas *)

Lemma checked_add_u64_Some a b c :
  checked_add_u64 a b = Some c ↔ (c = a + b ∧ a + b ≤ u64_max)%N.
Proof.
  unfold checked_add_u64. destruct (N.leb_spec (a + b) u64_max) as [Hle|Hgt].
  - split; [intros [= <-]|intros [-> _]]; done.
  - split; [done|]. intros [_ Hle]. lia.
Qed.

Lemma btree_list_perm {A} (m : gmap N A) : btree_list m ≡ₚ map_to_list m.
Proof. apply merge_sort_Permutation. Qed.

Lemma btree_list_sorted {A} (m : gmap N A) : StronglySorted key_le (btree_list m).
Proof. apply StronglySorted_merge_sort; apply _. Qed.

Lemma elem_of_btree_list {A} (m : gmap N A) k x :
  (k, x) ∈ btree_list m ↔ m !! k = Some x.
Proof. by rewrite btree_list_perm, elem_of_map_to_list. Qed.

Lemma elem_of_btree_values {A} (m : gmap N A) x :
  x ∈ btree_values m ↔ ∃ k, m !! k = Some x.
Proof.
  unfold btree_values. rewrite list_elem_of_fmap. split.
  - intros ([k y] & -> & H). exists k. by apply elem_of_btree_list.
  - intros [k H]. exists (k, x). split; [done|]. by apply elem_of_btree_list.
Qed.

Lemma btree_list_insert_max {A} (m : gmap N A) k x :
  (∀ j y, m !! j = Some y → (j < k)%N) →
  btree_list (<[k := x]> m) = btree_list m ++ [(k, x)].
Proof.
  intros Hmax.
  assert (m !! k = None) as Hnone.
  { destruct (m !! k) eqn:E; [|done]. apply Hmax in E. lia. }
  apply (StronglySorted_unique_strong key_le).
  - intros [i a] [j b] Hi Hj Hij Hji. unfold key_le in *; simpl in *.
    assert (i = j) as -> by lia. f_equal.
    apply elem_of_btree_list in Hi.
    apply elem_of_app in Hj as [Hj%elem_of_btree_list|Hj%list_elem_of_singleton]; simplify_eq.
    + destruct (decide (j = k)) as [->|]; simplify_map_eq. done.
    + by simplify_map_eq.
  - apply btree_list_sorted.
  - apply StronglySorted_app_2; [|apply btree_list_sorted|repeat constructor].
    intros [i a] y Hi%elem_of_btree_list ->%list_elem_of_singleton.
    apply Hmax in Hi. unfold key_le; simpl. lia.
  - rewrite !btree_list_perm, map_to_list_insert by done.
    by rewrite Permutation_app_comm.
Qed.

Lemma btree_values_insert_max {A} (m : gmap N A) k x :
  (∀ j y, m !! j = Some y → (j < k)%N) →
  btree_values (<[k := x]> m) = btree_values m ++ [x].
Proof.
  intros Hmax. unfold btree_values.
  by rewrite btree_list_insert_max, fmap_app by done.
Qed.

Lemma btree_list_update {A} (m : gmap N A) k x y :
  m !! k = Some y →
  btree_list (<[k := x]> m) = (λ kv, if decide (kv.1 = k) then (k, x) else kv) <$> btree_list m.
Proof.
  intros Hk. set (f := λ kv : N * A, _).
  assert (∀ kv, (f kv).1 = kv.1) as Hf.
  { intros [j a]. unfold f; cbn. by destruct (decide (j = k)) as [->|]. }
  assert (∀ j a, (j, a) ∈ f <$> btree_list m → <[k := x]> m !! j = Some a) as Hin.
  { intros j a ([i b] & Heq & Hib%elem_of_btree_list)%list_elem_of_fmap.
    unfold f in Heq. cbn in Heq. destruct (decide (i = k)); simplify_map_eq; done. }
  apply (StronglySorted_unique_strong key_le).
  - intros [i a] [j b] Hi%elem_of_btree_list Hj%Hin H1 H2. unfold key_le in *; cbn in *.
    assert (i = j) as -> by lia. congruence.
  - apply btree_list_sorted.
  - assert (StronglySorted key_le (btree_list m)) as Hs by apply btree_list_sorted.
    clear Hin. induction Hs as [|kv l Hs IH Hall]; [constructor|]. cbn. constructor; [done|].
    apply Forall_fmap. eapply Forall_impl; [exact Hall|]. intros kv' Hle. unfold key_le in *.
    cbn. by rewrite !Hf.
  - transitivity (f <$> map_to_list m);
      [|apply fmap_Permutation; symmetry; apply btree_list_perm].
    etransitivity; [apply btree_list_perm|].
    rewrite <-insert_delete_eq, map_to_list_insert by apply lookup_delete_eq.
    rewrite <-(insert_delete_id m k y Hk) at 2.
    rewrite map_to_list_insert by apply lookup_delete_eq.
    cbn. unfold f at 1. cbn. rewrite decide_True by done. constructor.
    assert (f <$> map_to_list (delete k m) = map_to_list (delete k m)) as ->; [|done].
    rewrite <-(list_fmap_id (map_to_list (delete k m))) at 2.
    apply list_fmap_ext. intros i [j a] Hj. unfold f; cbn. rewrite decide_False; [done|].
    intros ->. apply list_elem_of_lookup_2, elem_of_map_to_list in Hj. by simplify_map_eq.
Qed.

(** [HashMap::values]. *)
Definition map_values {K A} `{Countable K} (m : gmap K A) : list A := (map_to_list m).*2.
Lemma elem_of_values {K A} `{Countable K} (m : gmap K A) a : a ∈ map_values m ↔ ∃ k, m !! k = Some a.
Proof.
  unfold map_values. rewrite list_elem_of_fmap. split.
  - intros ([k x] & -> & Hin). exists k. by apply elem_of_map_to_list.
  - intros [k Hk]. exists (k, a). split; [done|]. by apply elem_of_map_to_list.
Qed.

Lemma Forall_elem {A} (P : A → Prop) l x : Forall P l → x ∈ l → P x.
Proof. rewrite Forall_forall. auto. Qed.
