(* ===== verification/Text.v ===== *)
(** * Rust text

    A Rust [String] or [&str] is the sequence of its Unicode scalar values
    ([rstr], a [list N]).  This file holds the standard-library operations on
    text that the modelled code calls ([strip_prefix], [split_once], [split],
    [lines], [trim], [split_whitespace], [join], the [char] predicates,
    [u64::to_string]) and the lemmas the other files share about them. *)
From S2P Require Import Prelude.
Local Open Scope N_scope.

Abbreviation rchar := N (only parsing).
Abbreviation rstr := (list N).

(** ASCII literals. *)
Definition str (s : string) : rstr :=
  (λ a, Ascii.N_of_ascii a) <$> String.list_ascii_of_string s.
Arguments str s%_string.

(** ** [char] predicates *)
Definition in_range (lo hi c : rchar) : bool := (lo <=? c) && (c <=? hi).

(** General category Cc. *)
Definition is_control (c : rchar) : bool := (c <=? 31) || in_range 127 159 c.
(** The White_Space property. *)
Definition is_whitespace (c : rchar) : bool :=
  in_range 9 13 c || (c =? 32) || (c =? 133) || (c =? 160) || (c =? 5760) ||
  in_range 8192 8202 c || (c =? 8232) || (c =? 8233) || (c =? 8239) ||
  (c =? 8287) || (c =? 12288).
Definition is_ascii_digit (c : rchar) : bool := in_range 48 57 c.
Definition is_ascii_lowercase (c : rchar) : bool := in_range 97 122 c.
Definition is_ascii_uppercase (c : rchar) : bool := in_range 65 90 c.
Definition is_ascii_alphanumeric (c : rchar) : bool :=
  is_ascii_digit c || is_ascii_lowercase c || is_ascii_uppercase c.
Definition is_ascii_graphic (c : rchar) : bool := in_range 33 126 c.
Definition is_ascii_hexdigit (c : rchar) : bool :=
  is_ascii_digit c || in_range 97 102 c || in_range 65 70 c.

(** [str::len] counts UTF-8 bytes. *)
Definition utf8_width (c : rchar) : N :=
  if c <? 128 then 1 else if c <? 2048 then 2 else if c <? 65536 then 3 else 4.
Definition str_len (s : rstr) : N := foldr (λ c n, utf8_width c + n) 0 s.

(** ** Prefixes, suffixes and splitting *)
Fixpoint strip_prefix (p s : rstr) : option rstr :=
  match p, s with
  | [], _ => Some s
  | a :: p', b :: s' => if a =? b then strip_prefix p' s' else None
  | _ :: _, [] => None
  end.
Definition starts_with (p s : rstr) : bool := bool_decide (is_Some (strip_prefix p s)).
Definition strip_suffix (p s : rstr) : option rstr :=
  reverse <$> strip_prefix (reverse p) (reverse s).

(** [str::split_once] on a non-empty pattern: the first match. *)
Fixpoint split_once (pat s : rstr) : option (rstr * rstr) :=
  match strip_prefix pat s with
  | Some rest => Some ([], rest)
  | None =>
      match s with
      | [] => None
      | c :: s' => prod_map (cons c) id <$> split_once pat s'
      end
  end.

(** [str::split] on one character: always at least one piece. *)
Fixpoint split_char (c : rchar) (s : rstr) : list rstr :=
  match s with
  | [] => [[]]
  | a :: s' =>
      if a =? c then [] :: split_char c s'
      else match split_char c s' with
           | piece :: rest => (a :: piece) :: rest
           | [] => [[a]]
           end
  end.

(** [str::lines]: split after every newline, drop the newline and one
    carriage return before it; a final empty piece is not a line. *)
Definition strip_cr (s : rstr) : rstr := default s (strip_suffix [13] s).
Fixpoint lines_of_pieces (pieces : list rstr) : list rstr :=
  match pieces with
  | [] => []
  | [last] => if bool_decide (last = []) then [] else [last]
  | piece :: rest => strip_cr piece :: lines_of_pieces rest
  end.
Definition str_lines (s : rstr) : list rstr := lines_of_pieces (split_char 10 s).

(** ** Whitespace *)
Fixpoint trim_start (s : rstr) : rstr :=
  match s with
  | [] => []
  | c :: s' => if is_whitespace c then trim_start s' else s
  end.
Definition trim_end (s : rstr) : rstr := reverse (trim_start (reverse s)).
Definition trim (s : rstr) : rstr := trim_end (trim_start s).

(** Words: maximal runs of non-whitespace. *)
Fixpoint split_whitespace_go (cur : rstr) (s : rstr) : list rstr :=
  match s with
  | [] => if bool_decide (cur = []) then [] else [reverse cur]
  | c :: s' =>
      if is_whitespace c then
        (if bool_decide (cur = []) then [] else [reverse cur]) ++ split_whitespace_go [] s'
      else split_whitespace_go (c :: cur) s'
  end.
Definition split_whitespace (s : rstr) : list rstr := split_whitespace_go [] s.

(** [[T]::join]. *)
Fixpoint join (sep : rstr) (l : list rstr) : rstr :=
  match l with
  | [] => []
  | [x] => x
  | x :: l' => x ++ sep ++ join sep l'
  end.

(** [u64::to_string]: the fuel is the bit length, at least the number of
    decimal digits. *)
Fixpoint dec_go (fuel : nat) (n : N) (acc : rstr) : rstr :=
  match fuel with
  | O => acc
  | S fuel =>
      if n <? 10 then (48 + n) :: acc
      else dec_go fuel (n / 10) ((48 + n mod 10) :: acc)
  end.
Definition dec_string (n : N) : rstr := dec_go (S (N.to_nat (N.log2 n))) n [].

(** [str::parse::<u64>] on text already known to be ASCII digits. *)
Definition dec_step (acc c : N) : N := acc * 10 + (c - 48).
Definition parse_u64_digits (s : rstr) : option N :=
  let n := foldl dec_step 0 s in
  if bool_decide (s = []) then None else if n <=? u64_max then Some n else None.

(** [format!("{byte:02x}")]. *)
Definition hex_digit (d : N) : rchar := if d <? 10 then 48 + d else 87 + d.
Definition hex_byte (b : N) : rstr := [hex_digit (b / 16); hex_digit (b mod 16)].

(** UTF-8: [str::as_bytes] and the check of [String::from_utf8], which refuses
    overlong forms, surrogates and values beyond U+10FFFF. *)
Definition utf8_char (c : rchar) : list N :=
  if c <? 128 then [c]
  else if c <? 2048 then [192 + c / 64; 128 + c mod 64]
  else if c <? 65536 then [224 + c / 4096; 128 + (c / 64) mod 64; 128 + c mod 64]
  else [240 + c / 262144; 128 + (c / 4096) mod 64; 128 + (c / 64) mod 64; 128 + c mod 64].
Definition utf8_bytes (s : rstr) : list N := mjoin (utf8_char <$> s).

Definition is_continuation (b : N) : bool := in_range 128 191 b.
Definition is_scalar (c : N) : bool := (c <? 55296) || in_range 57344 1114111 c.
Fixpoint utf8_decode (bytes : list N) : option rstr :=
  match bytes with
  | [] => Some []
  | a :: rest =>
      if a <? 128 then cons a <$> utf8_decode rest
      else match rest with
      | [] => None
      | b :: rest =>
          if negb (is_continuation b) then None
          else if in_range 194 223 a then cons ((a - 192) * 64 + (b - 128)) <$> utf8_decode rest
          else match rest with
          | [] => None
          | c :: rest =>
              if negb (is_continuation c) then None
              else if in_range 224 239 a then
                let n := (a - 224) * 4096 + (b - 128) * 64 + (c - 128) in
                if (n <? 2048) || negb (is_scalar n) then None else cons n <$> utf8_decode rest
              else match rest with
              | [] => None
              | d :: rest =>
                  let n := (a - 240) * 262144 + (b - 128) * 4096 + (c - 128) * 64 + (d - 128) in
                  if negb (is_continuation d && in_range 240 244 a) || (n <? 65536) ||
                     negb (is_scalar n) then None
                  else cons n <$> utf8_decode rest
              end
          end
      end
  end.

(** Lexicographic order on text.  UTF-8 preserves it, so it is the order of
    [String] as [Ord]. *)
Fixpoint rstr_leb (a b : rstr) : bool :=
  match a, b with
  | [], _ => true
  | _ :: _, [] => false
  | x :: a', y :: b' => if x =? y then rstr_leb a' b' else x <? y
  end.
Definition rstr_le (a b : rstr) : Prop := rstr_leb a b = true.
#[export] Instance rstr_le_dec : RelDecision rstr_le.
Proof. intros a b. unfold rstr_le. apply _. Defined.

(** [BTreeSet<String>] built by insertion and read back in order. *)
Definition btree_set_rstr (l : list rstr) : list rstr := merge_sort rstr_le (remove_dups l).

(** ** Lemmas *)
Lemma strip_prefix_Some p s r : strip_prefix p s = Some r ↔ s = p ++ r.
Proof.
  revert s. induction p as [|a p IH]; intros s; simpl.
  - split; [by intros [= ->]|by intros ->].
  - destruct s as [|b s]; [done|].
    destruct (N.eqb_spec a b) as [->|Hne].
    + rewrite IH. split; [by intros ->|by intros [= ->]].
    + split; [done|]. intros [= -> ?]. done.
Qed.

Lemma strip_prefix_app p s : strip_prefix p (p ++ s) = Some s.
Proof. by apply strip_prefix_Some. Qed.

Lemma strip_prefix_head_ne a p b s : a ≠ b → strip_prefix (a :: p) (b :: s) = None.
Proof. intros H. simpl. by destruct (N.eqb_spec a b). Qed.

Lemma strip_suffix_Some p s r : strip_suffix p s = Some r ↔ s = r ++ p.
Proof.
  unfold strip_suffix. rewrite fmap_Some. split.
  - intros (x & H%strip_prefix_Some & ->).
    rewrite <- (reverse_involutive s), H, reverse_app, !reverse_involutive. done.
  - intros ->. exists (reverse r). rewrite reverse_involutive. split; [|done].
    apply strip_prefix_Some. by rewrite reverse_app.
Qed.

Lemma strip_suffix_notin c s : c ∉ s → strip_suffix [c] s = None.
Proof.
  intros H. destruct (strip_suffix [c] s) as [r|] eqn:E; [|done].
  apply strip_suffix_Some in E as ->. set_solver.
Qed.

Lemma split_once_char c a b : c ∉ a → split_once [c] (a ++ c :: b) = Some (a, b).
Proof.
  induction a as [|x a IH]; intros Hn; simpl.
  - by rewrite N.eqb_refl.
  - destruct (N.eqb_spec c x) as [->|]; [set_solver|].
    rewrite IH by set_solver. done.
Qed.

(** A pattern is found at its first occurrence: here its first character
    does not occur in the text before it. *)
Lemma split_once_first x pat a b :
  x ∉ a → split_once (x :: pat) (a ++ (x :: pat) ++ b) = Some (a, b).
Proof.
  induction a as [|y a IH]; intros Hn.
  - cbn [app]. pose proof (strip_prefix_app (x :: pat) b) as E. cbn [app] in E.
    cbn [split_once]. by rewrite E.
  - assert (x ≠ y) by set_solver. rewrite <- app_comm_cons. cbn [split_once].
    rewrite strip_prefix_head_ne by done. rewrite IH by set_solver. done.
Qed.

Lemma split_once_Some pat s a b :
  split_once pat s = Some (a, b) → s = a ++ pat ++ b.
Proof.
  revert a b. induction s as [|c s IH]; intros a b H; cbn [split_once] in H.
  - destruct (strip_prefix pat []) eqn:E; [|done].
    apply strip_prefix_Some in E. by simplify_eq/=.
  - destruct (strip_prefix pat (c :: s)) eqn:E.
    + apply strip_prefix_Some in E. by simplify_eq/=.
    + apply fmap_Some in H as ([a' b'] & H & [= -> ->]). by rewrite (IH _ _ H).
Qed.

Lemma split_char_notin c s : c ∉ s → split_char c s = [s].
Proof.
  induction s as [|a s IH]; intros H; simpl; [done|].
  destruct (N.eqb_spec a c) as [->|]; [set_solver|]. by rewrite IH by set_solver.
Qed.

Lemma split_char_app c a b : c ∉ a → split_char c (a ++ c :: b) = a :: split_char c b.
Proof.
  induction a as [|x a IH]; intros H; simpl.
  - by rewrite N.eqb_refl.
  - destruct (N.eqb_spec x c) as [->|]; [set_solver|]. by rewrite IH by set_solver.
Qed.

Lemma split_char_join c s : join [c] (split_char c s) = s.
Proof.
  induction s as [|a s IH]; [done|]. cbn [split_char].
  assert (split_char c s ≠ []) as Hne.
  { clear. destruct s as [|b s]; simpl; [done|].
    destruct (b =? c); [done|]. by destruct (split_char c s). }
  destruct (N.eqb_spec a c) as [->|].
  - destruct (split_char c s); [done|]. cbn. by rewrite <- IH.
  - destruct (split_char c s) as [|p [|q l]]; [done|..]; cbn in *; by rewrite <- IH.
Qed.

Lemma str_len_ascii s : Forall (λ c, c < 128) s → str_len s = N.of_nat (length s).
Proof.
  induction 1 as [|c s Hc _ IH]; [done|]. cbn [str_len foldr length].
  change (foldr _ 0 s) with (str_len s). rewrite IH. unfold utf8_width.
  destruct (N.ltb_spec c 128); lia.
Qed.

Lemma forallb_elem {A} (f : A → bool) (l : list A) x : forallb f l = true → x ∈ l → f x = true.
Proof.
  intros H Hx. rewrite forallb_forall in H. apply H. by apply list_elem_of_In.
Qed.

Lemma trim_start_fix s :
  (∀ c s', s = c :: s' → is_whitespace c = false) → trim_start s = s.
Proof. destruct s as [|c s]; [done|]. intros H. simpl. by rewrite (H c s). Qed.

Lemma trim_start_head s c s' : trim_start s = c :: s' → is_whitespace c = false.
Proof.
  induction s as [|a s IH]; simpl; [done|].
  destruct (is_whitespace a) eqn:E; [done|]. by intros [= -> ->].
Qed.

Lemma trim_start_suffix s : ∃ p, s = p ++ trim_start s.
Proof.
  induction s as [|c s [p IH]]; [by exists []|]. simpl.
  destruct (is_whitespace c); [|by exists []]. exists (c :: p). simpl. by f_equal.
Qed.

Lemma trim_end_prefix s : ∃ p, s = trim_end s ++ p.
Proof.
  destruct (trim_start_suffix (reverse s)) as [p Hp]. exists (reverse p). unfold trim_end.
  by rewrite <- reverse_app, <- Hp, reverse_involutive.
Qed.

Lemma trim_end_last s : ∀ l c, trim_end s = l ++ [c] → is_whitespace c = false.
Proof.
  unfold trim_end. intros l c H. apply (f_equal reverse) in H.
  rewrite reverse_involutive, reverse_app in H. eapply trim_start_head. exact H.
Qed.

(** A text that neither starts nor ends with whitespace is its own trim. *)
Lemma trim_fix s :
  (∀ c s', s = c :: s' → is_whitespace c = false) →
  (∀ l c, s = l ++ [c] → is_whitespace c = false) → trim s = s.
Proof.
  intros H1 H2. unfold trim. rewrite trim_start_fix by done.
  unfold trim_end. rewrite trim_start_fix; [by rewrite reverse_involutive|].
  intros c s' H. apply (f_equal reverse) in H. rewrite reverse_involutive in H.
  rewrite reverse_cons in H. eauto.
Qed.

Lemma dec_go_value fuel n acc :
  n < 2 ^ N.of_nat fuel → foldl dec_step 0 (dec_go fuel n acc) = foldl dec_step n acc.
Proof.
  revert n acc. induction fuel as [|fuel IH]; intros n acc Hn.
  - simpl in *. by assert (n = 0) as -> by lia.
  - cbn [dec_go]. destruct (N.ltb_spec n 10) as [Hlt|Hge].
    + cbn [foldl]. f_equal. unfold dec_step. lia.
    + rewrite Nat2N.inj_succ, N.pow_succ_r' in Hn. rewrite IH.
      * cbn [foldl]. f_equal. unfold dec_step.
        pose proof (N.div_mod' n 10) as E. revert E.
        generalize (n / 10), (n mod 10). lia.
      * apply N.Div0.div_lt_upper_bound. lia.
Qed.

Lemma dec_go_digits fuel n acc :
  Forall (λ c, is_ascii_digit c = true) acc →
  Forall (λ c, is_ascii_digit c = true) (dec_go fuel n acc).
Proof.
  revert n acc. induction fuel as [|fuel IH]; intros n acc H; [done|]. cbn [dec_go].
  destruct (N.ltb_spec n 10) as [Hlt|Hge].
  - constructor; [|done]. apply andb_true_iff. split; apply N.leb_le; lia.
  - apply IH. constructor; [|done].
    assert (n mod 10 < 10) as E by (apply N.mod_lt; lia). revert E.
    generalize (n mod 10); intros r Hr. apply andb_true_iff. split; apply N.leb_le; lia.
Qed.

Lemma dec_string_digits n : Forall (λ c, is_ascii_digit c = true) (dec_string n).
Proof. apply dec_go_digits. constructor. Qed.

Lemma dec_go_nonempty fuel n acc : acc ≠ [] ∨ fuel ≠ O → dec_go fuel n acc ≠ [].
Proof.
  revert n acc. induction fuel as [|fuel IH]; intros n acc H; cbn [dec_go]; [naive_solver|].
  destruct (n <? 10); [done|]. apply IH. by left.
Qed.

Lemma dec_string_nonempty n : dec_string n ≠ [].
Proof. apply dec_go_nonempty. by right. Qed.

Lemma dec_string_value n : foldl dec_step 0 (dec_string n) = n.
Proof.
  unfold dec_string. rewrite dec_go_value; [done|].
  rewrite Nat2N.inj_succ, N2Nat.id. destruct (decide (n = 0)) as [->|]; [done|].
  apply N.log2_spec. lia.
Qed.

Lemma parse_dec_string n : n ≤ u64_max → parse_u64_digits (dec_string n) = Some n.
Proof.
  intros H. unfold parse_u64_digits.
  rewrite bool_decide_eq_false_2 by apply dec_string_nonempty. rewrite dec_string_value.
  by destruct (N.leb_spec n u64_max); [|lia].
Qed.

(** The order on text is total, which makes sorting canonical. *)
#[export] Instance rstr_le_total : Total rstr_le.
Proof.
  intros a. induction a as [|x a IH]; intros [|y b]; unfold rstr_le in *; simpl; auto.
  destruct (N.eqb_spec x y) as [->|Hne].
  - rewrite N.eqb_refl. apply IH.
  - destruct (N.eqb_spec y x); [done|]. rewrite !N.ltb_lt. lia.
Qed.

#[export] Instance rstr_le_trans : Transitive rstr_le.
Proof.
  intros a. induction a as [|x a IH]; intros [|y b] [|z c]; unfold rstr_le in *; simpl; auto;
    [done|].
  destruct (N.eqb_spec x y) as [->|H1], (N.eqb_spec y z) as [->|H2];
    rewrite ?N.eqb_refl, ?N.ltb_lt.
  - apply IH.
  - done.
  - by destruct (N.eqb_spec x z); rewrite ?N.ltb_lt; intros; lia.
  - intros. destruct (N.eqb_spec x z); rewrite ?N.ltb_lt; lia.
Qed.

#[export] Instance rstr_le_antisym : AntiSymm (=) rstr_le.
Proof.
  intros a. induction a as [|x a IH]; intros [|y b]; unfold rstr_le in *; simpl; try done.
  destruct (N.eqb_spec x y) as [->|H1].
  - rewrite N.eqb_refl. intros ??. f_equal. by apply IH.
  - destruct (N.eqb_spec y x); [done|]. rewrite !N.ltb_lt. lia.
Qed.
