(* ===== verification/Identity.v ===== *)
(** * Durable identities

    [src/cyclops-proto/src/identity.rs]: UUID-based workspace, session and
    agent-instance ids, process instances, tmux pane ids, and the recipient
    key that names one mailbox, with its canonical text form.

    The [uuid] crate is a parameter ([Uuids], laws in [UuidLaws]). *)
From S2P Require Import Prelude Text.
Local Open Scope N_scope.
Local Open Scope rust_scope.

(** ** Values a private constructor restricts

    A Rust newtype whose constructors all check the same boolean test is the
    subset of values passing it; equality ignores the proof. *)
Record bsub {A : Type} (P : A → bool) := BSub { bval : A; bok : P bval = true }.
Arguments BSub {A P} _ _.
Arguments bval {A P} _.
Arguments bok {A P} _.

Lemma bsub_eq {A} {P : A → bool} (x y : bsub P) : bval x = bval y → x = y.
Proof. destruct x as [x Hx], y as [y Hy]; simpl; intros ->. f_equal. apply proof_irrel. Qed.

Definition to_bsub {A} (P : A → bool) (a : A) : option (bsub P) :=
  match decide (P a = true) with
  | left H => Some (BSub a H)
  | right _ => None
  end.

Lemma to_bsub_bval {A} {P : A → bool} (x : bsub P) : to_bsub P (bval x) = Some x.
Proof.
  unfold to_bsub. destruct (decide _) as [H|H]; [|destruct (H (bok x))].
  f_equal. by apply bsub_eq.
Qed.

Lemma to_bsub_Some {A} {P : A → bool} a (x : bsub P) : to_bsub P a = Some x → bval x = a.
Proof. unfold to_bsub. destruct (decide _); [by intros [= <-]|done]. Qed.

#[export] Instance bsub_eq_dec {A} `{!EqDecision A} (P : A → bool) : EqDecision (bsub P).
Proof.
  intros x y. destruct (decide (bval x = bval y)) as [H|H].
  - left. by apply bsub_eq.
  - right. by intros ->.
Defined.
#[export] Instance bsub_countable {A} `{Countable A} (P : A → bool) : Countable (bsub P).
Proof. apply (inj_countable bval (to_bsub P)). apply to_bsub_bval. Defined.

(** ** UUIDs *)

(** A 128-bit value; its bytes are big-endian, as [Uuid::as_bytes]. *)
Definition Uuid := bsub (λ n, n <? 2 ^ 128).
#[export] Instance Uuid_eq_dec : EqDecision Uuid := _.
#[export] Instance Uuid_countable : Countable Uuid := _.
Definition uuid_is_nil (u : Uuid) : bool := bval u =? 0.

(** What the code uses of the [uuid] crate. *)
Class Uuids := {
  uuid_parse_str : rstr → option Uuid;
  uuid_hyphenated : Uuid → rstr;
}.

(** Its documented behaviour: the hyphenated form is made of lower-case hex
    digits and hyphens, and parsing reads it back. *)
Definition uuid_text_char (c : rchar) : bool := is_ascii_digit c || in_range 97 102 c || (c =? 45).
Class UuidLaws `{!Uuids} := {
  uuid_parse_hyphenated u : uuid_parse_str (uuid_hyphenated u) = Some u;
  uuid_hyphenated_chars u : Forall (λ c, uuid_text_char c = true) (uuid_hyphenated u);
}.

(** ** Durable ids *)

Inductive IdentityError :=
| InvalidUuid (kind : rstr)
| InvalidProcessId
| InvalidProcessBirth
| InvalidTmuxId (kind : rstr) (sigil : rchar)
| InvalidRecipientKey.

(** Every constructor of [DurableId] refuses the nil UUID. *)
Definition DurableId := bsub (λ u, negb (uuid_is_nil u)).
#[export] Instance DurableId_eq_dec : EqDecision DurableId := _.
#[export] Instance DurableId_countable : Countable DurableId := _.

Record WorkspaceId := MkWorkspaceId { workspace_durable : DurableId }.
Record SessionInstanceId := MkSessionInstanceId { session_durable : DurableId }.
Record AgentInstanceId := MkAgentInstanceId { agent_durable : DurableId }.
#[export] Instance WorkspaceId_eq_dec : EqDecision WorkspaceId.
Proof. solve_decision. Defined.
#[export] Instance SessionInstanceId_eq_dec : EqDecision SessionInstanceId.
Proof. solve_decision. Defined.
#[export] Instance AgentInstanceId_eq_dec : EqDecision AgentInstanceId.
Proof. solve_decision. Defined.
#[export] Instance WorkspaceId_countable : Countable WorkspaceId.
Proof. by apply (inj_countable' workspace_durable MkWorkspaceId); intros []. Defined.
#[export] Instance SessionInstanceId_countable : Countable SessionInstanceId.
Proof. by apply (inj_countable' session_durable MkSessionInstanceId); intros []. Defined.
#[export] Instance AgentInstanceId_countable : Countable AgentInstanceId.
Proof. by apply (inj_countable' agent_durable MkAgentInstanceId); intros []. Defined.

(** [ProcessInstanceId::new] admits positive pids and births only. *)
Record ProcessInstance := MkProcessInstance { process_pid : Z; process_birth : N }.
#[export] Instance ProcessInstance_eq_dec : EqDecision ProcessInstance.
Proof. solve_decision. Defined.
Definition process_instance_ok (p : ProcessInstance) : bool :=
  (0 <? process_pid p)%Z && (process_pid p <? 2 ^ 31)%Z &&
  (0 <? process_birth p) && (process_birth p <=? u64_max).
Definition ProcessInstanceId := bsub process_instance_ok.
#[export] Instance ProcessInstanceId_eq_dec : EqDecision ProcessInstanceId := _.

Definition process_instance_new (pid : Z) (birth : N) : result IdentityError ProcessInstance :=
  bail InvalidProcessId when (pid <=? 0)%Z ;;
  bail InvalidProcessBirth when birth =? 0 ;;
  Ok (MkProcessInstance pid birth).

(** A canonical tmux pane id [%<decimal>]: one [u64]. *)
Definition TmuxPaneId := bsub (λ n, n <=? u64_max).
#[export] Instance TmuxPaneId_eq_dec : EqDecision TmuxPaneId := _.
#[export] Instance TmuxPaneId_countable : Countable TmuxPaneId := _.

Definition parse_tmux_id (value : rstr) (sigil : rchar) (kind : rstr) : result IdentityError N :=
  let invalid := InvalidTmuxId kind sigil in
  let? digits := ok_or (strip_prefix [sigil] value) invalid in
  bail invalid when bool_decide (digits = []) || negb (forallb is_ascii_digit digits) ;;
  let? number := ok_or (parse_u64_digits digits) invalid in
  bail invalid when bool_decide (sigil :: dec_string number ≠ value) ;;
  Ok number.

(** ** Recipient keys *)
Inductive Recipient :=
| RAdmin
| RAgent (session_instance_id : SessionInstanceId) (pane_id : TmuxPaneId)
| RHeadless (agent_instance_id : AgentInstanceId).
#[export] Instance Recipient_eq_dec : EqDecision Recipient.
Proof. solve_decision. Defined.
#[export] Instance Recipient_countable : Countable Recipient.
Proof.
  refine (inj_countable'
    (λ r, match r with
          | RAdmin => inl ()
          | RAgent s p => inr (inl (s, p))
          | RHeadless a => inr (inr a)
          end)
    (λ x, match x with
          | inl () => RAdmin
          | inr (inl (s, p)) => RAgent s p
          | inr (inr a) => RHeadless a
          end) _).
  by intros [].
Defined.

Record RecipientKey := MkRecipientKey {
  rk_workspace_id : WorkspaceId;
  rk_recipient : Recipient;
}.
#[export] Instance RecipientKey_eq_dec : EqDecision RecipientKey.
Proof. solve_decision. Defined.
#[export] Instance RecipientKey_countable : Countable RecipientKey.
Proof.
  by apply (inj_countable' (λ k, (rk_workspace_id k, rk_recipient k))
    (λ x, MkRecipientKey x.1 x.2)); intros [].
Defined.

Definition recipient_admin (ws : WorkspaceId) : RecipientKey := MkRecipientKey ws RAdmin.
Definition recipient_agent ws s p : RecipientKey := MkRecipientKey ws (RAgent s p).
Definition recipient_headless ws a : RecipientKey := MkRecipientKey ws (RHeadless a).
Definition recipient_pane_id (k : RecipientKey) : option TmuxPaneId :=
  match rk_recipient k with
  | RAdmin | RHeadless _ => None
  | RAgent _ pane => Some pane
  end.
Definition is_admin (k : RecipientKey) : bool :=
  match rk_recipient k with RAdmin => true | _ => false end.
Definition is_headless (k : RecipientKey) : bool :=
  match rk_recipient k with RHeadless _ => true | _ => false end.

(** The derived [Ord]: workspace, then the variant, then its fields. *)
Definition durable_rank (d : DurableId) : N := bval (bval d).
Definition recipient_key_rank (k : RecipientKey) : rstr :=
  durable_rank (workspace_durable (rk_workspace_id k)) ::
  match rk_recipient k with
  | RAdmin => [0]
  | RAgent s p => [1; durable_rank (session_durable s); bval p]
  | RHeadless a => [2; durable_rank (agent_durable a)]
  end.
Definition recipient_key_le (a b : RecipientKey) : Prop :=
  rstr_le (recipient_key_rank a) (recipient_key_rank b).
#[export] Instance recipient_key_le_dec : RelDecision recipient_key_le.
Proof. intros a b. unfold recipient_key_le. apply _. Defined.

Lemma durable_rank_inj a b : durable_rank a = durable_rank b → a = b.
Proof. intros H. by apply bsub_eq, bsub_eq. Qed.

#[export] Instance recipient_key_rank_inj : Inj (=) (=) recipient_key_rank.
Proof.
  intros [[w1] r1] [[w2] r2]. unfold recipient_key_rank; cbn.
  destruct r1 as [|[s1] p1|[a1]], r2 as [|[s2] p2|[a2]]; intros; simplify_eq/=;
    repeat match goal with
    | H : durable_rank _ = durable_rank _ |- _ => apply durable_rank_inj in H; subst
    | H : bval _ = bval _ |- _ => apply bsub_eq in H; subst
    end; done.
Qed.

#[export] Instance recipient_key_le_total : Total recipient_key_le.
Proof. intros a b. unfold recipient_key_le. apply rstr_le_total. Qed.
#[export] Instance recipient_key_le_trans : Transitive recipient_key_le.
Proof. intros a b c. unfold recipient_key_le. apply rstr_le_trans. Qed.
#[export] Instance recipient_key_le_antisym : AntiSymm (=) recipient_key_le.
Proof.
  intros a b H1 H2. apply recipient_key_rank_inj. by apply rstr_le_antisym.
Qed.

(** ** Text form *)
Section text_form.
Context {uuids : Uuids}.

Definition durable_display (d : DurableId) : rstr := uuid_hyphenated (bval d).
Definition pane_display (p : TmuxPaneId) : rstr := 37 :: dec_string (bval p).

Definition durable_parse (value kind : rstr) : result IdentityError DurableId :=
  let? parsed := ok_or (uuid_parse_str value) (InvalidUuid kind) in
  bail (InvalidUuid kind) when
    uuid_is_nil parsed || bool_decide (uuid_hyphenated parsed ≠ value) ;;
  ok_or (to_bsub (λ u, negb (uuid_is_nil u)) parsed) (InvalidUuid kind).

Definition pane_parse (value : rstr) : result IdentityError TmuxPaneId :=
  let? n := parse_tmux_id value 37 (str "tmux pane id") in
  ok_or (to_bsub (λ n, n <=? u64_max) n) (InvalidTmuxId (str "tmux pane id") 37).

Definition workspace_parse (value : rstr) : result IdentityError WorkspaceId :=
  let? d := durable_parse value (str "workspace id") in Ok (MkWorkspaceId d).
Definition session_parse (value : rstr) : result IdentityError SessionInstanceId :=
  let? d := durable_parse value (str "session instance id") in Ok (MkSessionInstanceId d).
Definition agent_parse (value : rstr) : result IdentityError AgentInstanceId :=
  let? d := durable_parse value (str "agent instance id") in Ok (MkAgentInstanceId d).

(** [impl Display for RecipientKey]. *)
Definition recipient_display (k : RecipientKey) : rstr :=
  let ws := durable_display (workspace_durable (rk_workspace_id k)) in
  match rk_recipient k with
  | RAdmin => str "admin:" ++ ws
  | RAgent s p =>
      str "agent:" ++ ws ++ str "/" ++ durable_display (session_durable s) ++
      str "/" ++ pane_display p
  | RHeadless a => str "headless:" ++ ws ++ str "/" ++ durable_display (agent_durable a)
  end.

(** [impl FromStr for RecipientKey]. *)
Definition recipient_from_str (value : rstr) : result IdentityError RecipientKey :=
  let invalid := λ _ : IdentityError, InvalidRecipientKey in
  match strip_prefix (str "admin:") value with
  | Some workspace =>
      let? ws := result_map_err invalid (workspace_parse workspace) in
      Ok (recipient_admin ws)
  | None =>
  match strip_prefix (str "headless:") value with
  | Some parts =>
      match split_char 47 parts with
      | [workspace; instance] =>
          let? ws := result_map_err invalid (workspace_parse workspace) in
          let? a := result_map_err invalid (agent_parse instance) in
          Ok (recipient_headless ws a)
      | _ => Err InvalidRecipientKey
      end
  | None =>
  match strip_prefix (str "agent:") value with
  | None => Err InvalidRecipientKey
  | Some parts =>
      match split_char 47 parts with
      | [workspace; session; pane] =>
          let? ws := result_map_err invalid (workspace_parse workspace) in
          let? s := result_map_err invalid (session_parse session) in
          let? p := result_map_err invalid (pane_parse pane) in
          Ok (recipient_agent ws s p)
      | _ => Err InvalidRecipientKey
      end
  end end end.

(** ** Round trips *)
Context {uuid_laws : UuidLaws}.

Lemma durable_parse_display d kind : durable_parse (durable_display d) kind = Ok d.
Proof.
  unfold durable_parse, durable_display. rewrite uuid_parse_hyphenated. cbn [ok_or].
  pose proof (bok d) as Hd. simpl in Hd. apply negb_true_iff in Hd.
  rewrite Hd, bool_decide_eq_false_2 by naive_solver. cbn [orb].
  by rewrite to_bsub_bval.
Qed.

Lemma durable_display_no_slash d : 47 ∉ durable_display d.
Proof.
  intros Hin. by pose proof (Forall_elem _ _ _ (uuid_hyphenated_chars (bval d)) Hin).
Qed.

Lemma parse_tmux_id_display n sigil kind :
  n ≤ u64_max → parse_tmux_id (sigil :: dec_string n) sigil kind = Ok n.
Proof.
  intros Hn. unfold parse_tmux_id.
  change (sigil :: dec_string n) with ([sigil] ++ dec_string n) at 1.
  rewrite strip_prefix_app. cbn [ok_or].
  rewrite bool_decide_eq_false_2 by apply dec_string_nonempty.
  assert (forallb is_ascii_digit (dec_string n) = true) as ->.
  { apply forallb_forall. intros c Hc%list_elem_of_In.
    exact (Forall_elem _ _ _ (dec_string_digits n) Hc). }
  rewrite parse_dec_string by done. cbn [orb negb ok_or].
  by rewrite bool_decide_eq_false_2 by naive_solver.
Qed.

Lemma pane_parse_display p : pane_parse (pane_display p) = Ok p.
Proof.
  unfold pane_parse, pane_display.
  rewrite parse_tmux_id_display by (apply N.leb_le, (bok p)).
  by rewrite to_bsub_bval.
Qed.

Lemma pane_display_no_slash p : 47 ∉ pane_display p.
Proof.
  unfold pane_display. intros [Heq|Hin]%elem_of_cons; [done|].
  by pose proof (Forall_elem _ _ _ (dec_string_digits (bval p)) Hin).
Qed.

Lemma str_slash x : str "/" ++ x = 47 :: x.
Proof. done. Qed.

(** The text form of a recipient key reads back as that key. *)
Lemma recipient_round_trip k : recipient_from_str (recipient_display k) = Ok k.
Proof.
  destruct k as [[ws] [|[s] p|[a]]]; unfold recipient_display, recipient_from_str;
    cbn [rk_workspace_id rk_recipient workspace_durable session_durable agent_durable].
  - rewrite strip_prefix_app. unfold workspace_parse. by rewrite durable_parse_display.
  - set (rest := durable_display ws ++ _). cbn [str].
    replace (strip_prefix (str "admin:") (str "agent:" ++ rest)) with (@None rstr) by done.
    replace (strip_prefix (str "headless:") (str "agent:" ++ rest)) with (@None rstr) by done.
    rewrite strip_prefix_app. unfold rest. rewrite !str_slash.
    rewrite split_char_app by apply durable_display_no_slash.
    rewrite split_char_app by apply durable_display_no_slash.
    rewrite split_char_notin by apply pane_display_no_slash.
    unfold workspace_parse, session_parse. by rewrite !durable_parse_display, pane_parse_display.
  - set (rest := durable_display ws ++ _).
    replace (strip_prefix (str "admin:") (str "headless:" ++ rest)) with (@None rstr) by done.
    rewrite strip_prefix_app. unfold rest. rewrite !str_slash.
    rewrite split_char_app by apply durable_display_no_slash.
    rewrite split_char_notin by apply durable_display_no_slash.
    unfold workspace_parse, agent_parse. by rewrite !durable_parse_display.
Qed.

#[export] Instance recipient_display_inj : Inj (=) (=) recipient_display.
Proof.
  intros k1 k2 Heq. apply (f_equal recipient_from_str) in Heq.
  rewrite !recipient_round_trip in Heq. by simplify_eq.
Qed.

(** Parsing accepts nothing but the printed form. *)
Lemma durable_parse_inv value kind d : durable_parse value kind = Ok d → durable_display d = value.
Proof.
  unfold durable_parse, durable_display. destruct (uuid_parse_str value) as [u|]; cbn [ok_or]; [|done].
  destruct (_ || _) eqn:Hg; [done|]. bool_facts. intros Hb. ok_inv.
  match goal with H : to_bsub _ _ = Some _ |- _ => by rewrite (to_bsub_Some _ _ H) end.
Qed.
Lemma pane_parse_inv value p : pane_parse value = Ok p → pane_display p = value.
Proof.
  unfold pane_parse, pane_display. destruct (parse_tmux_id _ _ _) as [n|] eqn:Hn; [|done].
  intros H. ok_inv. match goal with H : to_bsub _ _ = Some _ |- _ => rewrite (to_bsub_Some _ _ H) end.
  revert Hn. unfold parse_tmux_id. intros Hn. ok_inv. done.
Qed.
Lemma recipient_from_str_inv value k : recipient_from_str value = Ok k → recipient_display k = value.
Proof.
  unfold recipient_from_str, workspace_parse, session_parse, agent_parse, recipient_display. intros H.
  destruct (strip_prefix (str "admin:") value) as [w|] eqn:Ha.
  { apply strip_prefix_Some in Ha as ->. ok_inv.
    cbn [rk_workspace_id rk_recipient recipient_admin workspace_durable]. f_equal. by eapply durable_parse_inv. }
  destruct (strip_prefix (str "headless:") value) as [parts|] eqn:Hh.
  { apply strip_prefix_Some in Hh as ->. rewrite <-(split_char_join 47 parts).
    destruct (split_char 47 parts) as [|w [|x []]]; try done. ok_inv.
    cbn [rk_workspace_id rk_recipient recipient_headless recipient_agent workspace_durable session_durable
      agent_durable join].
    repeat match goal with H : durable_parse _ _ = Ok _ |- _ => apply durable_parse_inv in H end.
    by subst. }
  destruct (strip_prefix (str "agent:") value) as [parts|] eqn:Hg; [|done].
  apply strip_prefix_Some in Hg as ->. rewrite <-(split_char_join 47 parts).
  destruct (split_char 47 parts) as [|w [|x [|y []]]]; try done. ok_inv.
    cbn [rk_workspace_id rk_recipient recipient_headless recipient_agent workspace_durable session_durable
      agent_durable join].
  repeat match goal with H : durable_parse _ _ = Ok _ |- _ => apply durable_parse_inv in H end.
  repeat match goal with H : pane_parse _ = Ok _ |- _ => apply pane_parse_inv in H end.
  by subst.
Qed.

(** A recipient key has exactly one text form: parsing a selector gives a
    key exactly when the selector is what that key prints.  So a journal or
    command line that names a recipient in any other spelling is refused, and
    two recipients never share a selector. *)
Theorem recipient_selectors_canonical value k :
  recipient_from_str value = Ok k ↔ recipient_display k = value.
Proof. split; [apply recipient_from_str_inv|]. intros <-. apply recipient_round_trip. Qed.
End text_form.
