(* ===== verification/Ledger.v ===== *)
(** * Ledger schema

    [src/cyclops-proto/src/ledger.rs]: one NDJSON row of a journal, its kind,
    and the per-recipient delivery state machine of session records.  The
    structured [data] of a row is a JSON value; its type [V] is a parameter
    (see [Facts.v]). *)
From S2P Require Import Prelude Text.

Inductive Kind := KMsg | KFyi | KSystem | KState | KGate.
#[export] Instance Kind_eq_dec : EqDecision Kind.
Proof. solve_decision. Defined.

Inductive VerifiedBy := VerifiedHook | VerifiedScreen.
#[export] Instance VerifiedBy_eq_dec : EqDecision VerifiedBy.
Proof. solve_decision. Defined.

(** ** Delivery states *)
Inductive DeliveryState :=
| DQueued
| DGating
| DPasting
| DStaged
| DSubmitted
| DDeliveredVerified
| DDeliveredUnverified
| DRetryQueued
| DAttentionRequired
| DParkedBlockedQuota.
#[export] Instance DeliveryState_eq_dec : EqDecision DeliveryState.
Proof. solve_decision. Defined.

Definition delivery_can_transition_to (self next : DeliveryState) : bool :=
  match self with
  | DQueued =>
      match next with DGating | DAttentionRequired | DParkedBlockedQuota => true | _ => false end
  | DGating =>
      match next with
      | DPasting | DRetryQueued | DAttentionRequired | DParkedBlockedQuota => true
      | _ => false
      end
  | DPasting => match next with DStaged | DRetryQueued | DAttentionRequired => true | _ => false end
  | DStaged => match next with DSubmitted | DRetryQueued | DAttentionRequired => true | _ => false end
  | DSubmitted =>
      match next with
      | DDeliveredVerified | DDeliveredUnverified | DRetryQueued | DAttentionRequired => true
      | _ => false
      end
  | DDeliveredUnverified => match next with DDeliveredVerified => true | _ => false end
  | DDeliveredVerified => false
  | DRetryQueued =>
      match next with DGating | DAttentionRequired | DParkedBlockedQuota => true | _ => false end
  | DAttentionRequired => match next with DQueued => true | _ => false end
  | DParkedBlockedQuota => match next with DQueued => true | _ => false end
  end.

Definition delivery_is_terminal (self : DeliveryState) : bool :=
  match self with
  | DDeliveredVerified | DAttentionRequired | DParkedBlockedQuota => true
  | _ => false
  end.

Record Delivery := MkDelivery {
  dl_to : rstr;
  dl_state : DeliveryState;
  dl_verified_by : option VerifiedBy;
  dl_attempts : N;
  dl_ts : N;
  dl_cause : option rstr;
}.

(** ** Rows *)
Record LedgerLine {V : Type} := MkLedgerLine {
  ll_seq : N;
  ll_boot_id : rstr;
  ll_id : rstr;
  ll_ts : N;
  ll_kind : Kind;
  ll_from : rstr;
  ll_to : list rstr;
  ll_subject : option rstr;
  ll_body : option rstr;
  ll_reply_to : option rstr;
  ll_deliveries : list Delivery;
  ll_data : option V;
}.
Arguments LedgerLine : clear implicits.
Arguments MkLedgerLine {V} _ _ _ _ _ _ _ _ _ _ _ _.

(** [format!("{:?}", kind)]. *)
Definition kind_debug (k : Kind) : rstr :=
  match k with
  | KMsg => str "Msg"
  | KFyi => str "Fyi"
  | KSystem => str "System"
  | KState => str "State"
  | KGate => str "Gate"
  end.
