(* ===== verification/Journal.v ===== *)
(** * The append-only journal

    [src/cyclops-ledger/src/lib.rs]: the writer of one NDJSON file.  The file
    is its bytes; every write may stop after any number of bytes or fail to
    sync, as [IoOutcome] says.  The JSON text of a row is a parameter
    ([LineCodec]).  Paths are left out of the errors, and read failures of the
    descriptor are not modelled. *)
From S2P Require Import Prelude Text Ledger.
Local Open Scope N_scope.
Local Open Scope rust_scope.

Inductive LedgerError :=
| LedgerIo (text : rstr)
| LedgerSerialize (text : rstr)
| CorruptLine (line : N) (reason : rstr)
| SequenceGap (line expected found : N)
| SequenceExhausted
| WriteStateUnknown
| WriterInUse
| WriterSealed.

(** ** The codec of rows *)
Class LineCodec (V : Type) := {
  line_to_vec : LedgerLine V → result rstr (list N);
  line_from_str : rstr → result rstr (LedgerLine V);
  value_storable : V → bool;
}.

(** A row of integers in range whose data is a JSON value other than null. *)
Definition line_storable `{!LineCodec V} (line : LedgerLine V) : Prop :=
  ll_seq line ≤ u64_max ∧ ll_ts line ≤ u64_max ∧
  ∀ v, ll_data line = Some v → value_storable v = true.

(** [serde_json] writes one row on one line of UTF-8, an object, and reads it
    back. *)
Class LineCodecLaws (V : Type) `{!LineCodec V} := {
  line_codec_round_trip line bytes :
    line_storable line → line_to_vec line = Ok bytes →
    ∃ text, utf8_decode bytes = Some text ∧ trim text ≠ [] ∧ line_from_str text = Ok line;
  line_codec_one_line line bytes :
    line_to_vec line = Ok bytes → (10 ∉ bytes) ∧ last bytes = Some 125;
}.

Section journal.
Context {V : Type} {codec : LineCodec V}.
Implicit Types (line : LedgerLine V) (bytes : list N).

(** ** State *)
Record LedgerWriter := MkWriter {
  lw_file : list N;
  lw_next_seq : N;
  lw_strict_replay : bool;
  lw_write_state_unknown : bool;
  lw_sealed : bool;
  lw_locked : bool;
  lw_boot_id : rstr;
}.

(** What [write_all] and [sync_data] do. *)
Record IoOutcome := MkIo {
  io_written : option nat; (* [None]: every byte; [Some n]: an error after [n] bytes *)
  io_synced : bool;
}.
Definition io_ok : IoOutcome := MkIo None true.

(** ** Reading *)

(** [BufRead::lines]. *)
Definition buf_lines (bytes : list N) : list (list N) := lines_of_pieces (split_char 10 bytes).
Definition raw_text (raw : list N) : result LedgerError rstr :=
  ok_or (utf8_decode raw) (LedgerIo (str "stream did not contain valid UTF-8")).

Fixpoint read_strict_go (index expected cursor : N) (raws : list (list N))
    : result LedgerError (list (LedgerLine V)) :=
  match raws with
  | [] => Ok []
  | raw :: rest =>
      let physical_line := index + 1 in
      let? text := raw_text raw in
      bail (CorruptLine physical_line (str "empty record")) when bool_decide (trim text = []) ;;
      let? line := result_map_err (CorruptLine physical_line) (line_from_str text) in
      bail (SequenceGap physical_line expected (ll_seq line)) when
        negb (ll_seq line =? expected) ;;
      let? expected := ok_or (checked_add_u64 expected 1) SequenceExhausted in
      let? lines := read_strict_go (index + 1) expected cursor rest in
      Ok (if cursor <? ll_seq line then line :: lines else lines)
  end.
Definition read_from_strict bytes (cursor : N) : result LedgerError (list (LedgerLine V)) :=
  read_strict_go 0 1 cursor (buf_lines bytes).

Fixpoint read_lenient_go (cursor : N) (raws : list (list N))
    : result LedgerError (list (LedgerLine V)) :=
  match raws with
  | [] => Ok []
  | raw :: rest =>
      let? text := raw_text raw in
      let? lines := read_lenient_go cursor rest in
      if bool_decide (trim text = []) then Ok lines
      else match line_from_str text with
           | Ok line => Ok (if cursor <? ll_seq line then line :: lines else lines)
           | Err _ => Ok lines
           end
  end.
Definition read_from bytes (cursor : N) : result LedgerError (list (LedgerLine V)) :=
  read_lenient_go cursor (buf_lines bytes).

(** ** Opening *)

(** The length kept by [rposition] of the last newline. *)
Definition complete_records bytes : list N :=
  take (match list_find (λ b, b = 10) (reverse bytes) with
        | Some (i, _) => length bytes - i
        | None => 0%nat
        end) bytes.
Definition recover_tail (strict_replay : bool) bytes : list N :=
  match last bytes with
  | None => bytes
  | Some b =>
      if b =? 10 then bytes
      else if strict_replay then complete_records bytes else bytes ++ [10]
  end.

Definition open_with_replay bytes (lock_free : bool) (boot_id : rstr) (strict_replay : bool)
    : result LedgerError (LedgerWriter * list (LedgerLine V)) :=
  bail WriterInUse when negb lock_free ;;
  let file := recover_tail strict_replay bytes in
  let? lines := (if strict_replay then read_from_strict file 0 else read_from file 0) in
  let? next_seq := match last lines with
                   | Some line => ok_or (checked_add_u64 (ll_seq line) 1) SequenceExhausted
                   | None => Ok 1
                   end in
  Ok (MkWriter file next_seq strict_replay false false true boot_id, lines).

(** ** Appending and sealing *)
Definition stamp (w : LedgerWriter) (now : N) line : LedgerLine V :=
  MkLedgerLine (lw_next_seq w) (lw_boot_id w) (ll_id line)
    (if ll_ts line =? 0 then now else ll_ts line) (ll_kind line) (ll_from line) (ll_to line)
    (ll_subject line) (ll_body line) (ll_reply_to line) (ll_deliveries line) (ll_data line).

Definition set_file (file : list N) (unknown : bool) (next_seq : N) (w : LedgerWriter)
    : LedgerWriter :=
  MkWriter file next_seq (lw_strict_replay w) unknown (lw_sealed w) (lw_locked w) (lw_boot_id w).

Definition append (w : LedgerWriter) (io : IoOutcome) (now : N) line
    : LedgerWriter * result LedgerError (LedgerLine V) :=
  if lw_sealed w then (w, Err WriterSealed)
  else if lw_write_state_unknown w then (w, Err WriteStateUnknown)
  else match checked_add_u64 (lw_next_seq w) 1 with
  | None => (w, Err SequenceExhausted)
  | Some following_seq =>
      let line := stamp w now line in
      match line_to_vec line with
      | Err e => (w, Err (LedgerSerialize e))
      | Ok json =>
          let buffer := json ++ [10] in
          match io_written io with
          | Some n =>
              (set_file (lw_file w ++ take n buffer) true (lw_next_seq w) w,
               Err (LedgerIo (str "write failed")))
          | None =>
              if io_synced io
              then (set_file (lw_file w ++ buffer) false following_seq w, Ok line)
              else (set_file (lw_file w ++ buffer) true (lw_next_seq w) w,
                    Err (LedgerIo (str "sync failed")))
          end
      end
  end.

Definition seal (w : LedgerWriter) : LedgerWriter :=
  MkWriter (lw_file w) (lw_next_seq w) (lw_strict_replay w) (lw_write_state_unknown w) true false
    (lw_boot_id w).

Definition read_after (w : LedgerWriter) (cursor : N) : result LedgerError (list (LedgerLine V)) :=
  if lw_strict_replay w then read_from_strict (lw_file w) cursor else read_from (lw_file w) cursor.

Definition last_valid_seq bytes : result LedgerError (option N) :=
  let? lines := read_from bytes 0 in Ok (ll_seq <$> last lines).

(** ** What a file of complete rows reads back as *)

(** The bytes of a list of rows, each on its own line. *)
Fixpoint encode_rows (rows : list (LedgerLine V)) : result rstr (list N) :=
  match rows with
  | [] => Ok []
  | line :: rest =>
      let? json := line_to_vec line in
      let? bytes := encode_rows rest in
      Ok (json ++ 10 :: bytes)
  end.

(** Rows numbered consecutively from [s]. *)
Fixpoint contiguous (s : N) (rows : list (LedgerLine V)) : Prop :=
  match rows with [] => True | line :: rest => ll_seq line = s ∧ contiguous (s + 1) rest end.

Context {codec_laws : LineCodecLaws V}.

Lemma split_char_nonempty c s : split_char c s ≠ [].
Proof.
  destruct s as [|a s]; cbn; [done|]. destruct (a =? c); [done|]. by destruct (split_char c s).
Qed.

Lemma strip_cr_row json : last json = Some 125 → strip_cr json = json.
Proof.
  intros Hl. unfold strip_cr. destruct (strip_suffix [13] json) as [r|] eqn:Hs; [|done].
  apply strip_suffix_Some in Hs as ->. by rewrite last_snoc in Hl.
Qed.

Lemma buf_lines_row json rest :
  10 ∉ json → last json = Some 125 → buf_lines (json ++ 10 :: rest) = json :: buf_lines rest.
Proof.
  intros Hj Hl. unfold buf_lines. rewrite split_char_app by done.
  destruct (split_char 10 rest) as [|x l] eqn:Hs; [by destruct (split_char_nonempty 10 rest)|].
  cbn [lines_of_pieces]. by rewrite strip_cr_row.
Qed.

Lemma contiguous_app s rows line :
  contiguous s (rows ++ [line]) ↔ contiguous s rows ∧ ll_seq line = s + N.of_nat (length rows).
Proof.
  revert s. induction rows as [|l rows IH]; intros s; cbn [app contiguous length].
  - rewrite N.add_0_r. tauto.
  - rewrite IH. replace (s + 1 + N.of_nat (length rows)) with (s + N.of_nat (S (length rows))) by lia.
    tauto.
Qed.

Lemma encode_rows_app rows line bytes json :
  encode_rows rows = Ok bytes → line_to_vec line = Ok json →
  encode_rows (rows ++ [line]) = Ok (bytes ++ json ++ [10]).
Proof.
  revert bytes. induction rows as [|l rows IH]; intros bytes Hb Hj; cbn in Hb |- *.
  - ok_inv. by rewrite Hj.
  - ok_inv. rewrite (IH _ eq_refl Hj). cbn. f_equal. by rewrite <-!app_assoc.
Qed.

Lemma encode_rows_end rows bytes :
  encode_rows rows = Ok bytes → bytes = [] ∨ last bytes = Some 10.
Proof.
  revert bytes. induction rows as [|l rows IH]; intros bytes Hb; cbn in Hb; ok_inv; [by left|].
  right. destruct (IH _ eq_refl) as [->|Hl]; [apply last_snoc|].
  match goal with |- last (?a ++ 10 :: ?b) = _ => change (10 :: b) with ([10] ++ b);
    by rewrite (app_assoc a [10] b), last_app, Hl end.
Qed.

Lemma read_strict_rows rows bytes index expected :
  encode_rows rows = Ok bytes → Forall line_storable rows → contiguous expected rows →
  1 ≤ expected → expected + N.of_nat (length rows) ≤ u64_max →
  read_strict_go index expected 0 (buf_lines bytes) = Ok rows.
Proof.
  revert bytes index expected. induction rows as [|line rows IH];
    intros bytes index expected Hb Hs Hc H1 Hm; cbn in Hb; ok_inv; [done|].
  apply Forall_cons in Hs as [Hst Hs]. destruct Hc as [Hseq Hc].
  match goal with H : line_to_vec line = Ok _ |- _ => rename H into Hj end.
  destruct (line_codec_one_line _ _ Hj) as [Hn Hl].
  destruct (line_codec_round_trip _ _ Hst Hj) as (text & Hdec & Htrim & Hparse).
  rewrite buf_lines_row by done. cbn [read_strict_go]. unfold raw_text. rewrite Hdec. cbn [ok_or].
  rewrite bool_decide_eq_false_2 by done. rewrite Hparse. cbn [result_map_err].
  rewrite Hseq, N.eqb_refl. cbn [negb].
  cbn [length] in Hm. unfold checked_add_u64.
  rewrite (proj2 (N.leb_le (expected + 1) u64_max)) by lia. cbn [ok_or].
  rewrite (IH _ (index + 1) (expected + 1)) by (done || lia).
  by rewrite (proj2 (N.ltb_lt 0 expected)) by lia.
Qed.

Lemma complete_records_torn bytes torn :
  bytes = [] ∨ last bytes = Some 10 → 10 ∉ torn → complete_records (bytes ++ torn) = bytes.
Proof.
  intros Hb Ht. unfold complete_records. rewrite reverse_app.
  assert (Forall (λ b, b ≠ 10) (reverse torn)) as Hf.
  { apply Forall_forall. intros x Hx%elem_of_reverse ->. apply Ht. by rewrite <-(reverse_involutive torn). }
  assert (list_find (λ b : N, b = 10) (reverse torn) = None) as Hnone by by apply list_find_None.
  destruct Hb as [->|Hb].
  - rewrite app_nil_r. cbn [app]. by rewrite Hnone.
  - apply last_Some in Hb as [l ->]. rewrite reverse_app. cbn [reverse app].
    rewrite (list_find_app_r _ (reverse torn)) by done. cbn.
    rewrite decide_True by done. cbn. rewrite length_reverse, !length_app. cbn.
    rewrite take_app_length'; [done|]. rewrite length_app. cbn. lia.
Qed.

Lemma recover_tail_torn bytes torn :
  bytes = [] ∨ last bytes = Some 10 → 10 ∉ torn → recover_tail true (bytes ++ torn) = bytes.
Proof.
  intros Hb Ht. unfold recover_tail. destruct (last (bytes ++ torn)) as [b|] eqn:Hl.
  - destruct (N.eqb_spec b 10) as [->|Hne]; [|by apply complete_records_torn].
    destruct torn as [|x torn] using rev_ind; [by rewrite app_nil_r|].
    rewrite app_assoc, last_snoc in Hl. simplify_eq. set_solver.
  - apply last_None in Hl. by apply app_nil in Hl as [-> ->].
Qed.

(** Opening a file of complete rows with an unterminated tail. *)
Lemma open_strict_rows rows bytes torn boot_id :
  encode_rows rows = Ok bytes → Forall line_storable rows → contiguous 1 rows →
  1 + N.of_nat (length rows) ≤ u64_max → 10 ∉ torn →
  open_with_replay (bytes ++ torn) true boot_id true =
    Ok (MkWriter bytes (1 + N.of_nat (length rows)) true false false true boot_id, rows).
Proof.
  intros Hb Hs Hc Hm Ht. unfold open_with_replay. cbn [negb].
  rewrite recover_tail_torn by (done || by eapply encode_rows_end).
  unfold read_from_strict. rewrite (read_strict_rows rows) by (done || lia).
  destruct rows as [|line rows _] using rev_ind; [done|].
  rewrite last_snoc. apply contiguous_app in Hc as [_ ->].
  rewrite length_app in Hm |- *. cbn [length] in Hm |- *. unfold checked_add_u64.
  rewrite (proj2 (N.leb_le _ _)) by lia. cbn [ok_or].
  replace (1 + N.of_nat (length rows) + 1) with (1 + N.of_nat (length rows + 1)) by lia. done.
Qed.

(** ** Appending over time *)

(** A run of appends, with the rows that were acknowledged. *)
Fixpoint append_all (w : LedgerWriter) (ops : list (IoOutcome * N * LedgerLine V))
    : LedgerWriter * list (LedgerLine V) :=
  match ops with
  | [] => (w, [])
  | (io, now, line) :: rest =>
      let '(w, outcome) := append w io now line in
      let '(w', acknowledged) := append_all w rest in
      (w', match outcome with Ok line => line :: acknowledged | Err _ => acknowledged end)
  end.

Definition appendable (op : IoOutcome * N * LedgerLine V) : Prop :=
  op.1.2 ≤ u64_max ∧ ll_ts op.2 ≤ u64_max ∧
  ∀ v, ll_data op.2 = Some v → value_storable v = true.

(** The writer's file is exactly [rows]. *)
Record writer_holds (w : LedgerWriter) (rows : list (LedgerLine V)) : Prop := {
  wh_bytes : encode_rows rows = Ok (lw_file w);
  wh_storable : Forall line_storable rows;
  wh_contiguous : contiguous 1 rows;
  wh_next : lw_next_seq w = 1 + N.of_nat (length rows);
  wh_max : lw_next_seq w ≤ u64_max;
}.

Lemma append_unknown w io now line w' r :
  lw_write_state_unknown w = true → append w io now line = (w', r) → w' = w ∧ ∃ e, r = Err e.
Proof.
  unfold append. intros ->. destruct (lw_sealed w); intros [= <- <-]; by eauto.
Qed.

Lemma append_all_unknown w ops :
  lw_write_state_unknown w = true → append_all w ops = (w, []).
Proof.
  intros Hu. induction ops as [|[[io now] line] ops IH]; [done|]. cbn [append_all].
  destruct (append w io now line) as [w1 r] eqn:Ha.
  apply append_unknown in Ha as [-> [e ->]]; [|done]. by rewrite IH.
Qed.

(** One append: nothing happened, the row is stored and acknowledged, or the
    file ends in part of the row and the writer refuses to go on. *)
Lemma append_cases w rows io now line w' r :
  writer_holds w rows → lw_write_state_unknown w = false → appendable (io, now, line) →
  append w io now line = (w', r) →
  (w' = w ∧ ∃ e, r = Err e) ∨
  (r = Ok (stamp w now line) ∧ writer_holds w' (rows ++ [stamp w now line]) ∧
     lw_write_state_unknown w' = false) ∨
  (∃ json n e, r = Err e ∧ lw_write_state_unknown w' = true ∧
     line_to_vec (stamp w now line) = Ok json ∧ lw_next_seq w + 1 ≤ u64_max ∧
     lw_file w' = lw_file w ++ take n (json ++ [10])).
Proof.
  intros Hh Hu (Hnow & Hts & Hdata). cbn in Hnow, Hts, Hdata. unfold append. rewrite Hu.
  destruct (lw_sealed w); [intros [= <- <-]; left; by eauto|].
  destruct (checked_add_u64 (lw_next_seq w) 1) as [following|] eqn:Hf;
    [|intros [= <- <-]; left; by eauto].
  apply checked_add_u64_Some in Hf as [-> Hmax].
  destruct (line_to_vec (stamp w now line)) as [json|e] eqn:Hj;
    [|intros [= <- <-]; left; by eauto].
  destruct (io_written io) as [n|].
  { intros [= <- <-]. right; right. eexists json, n, _. by split_and!. }
  destruct (io_synced io); intros [= <- <-].
  - right; left. destruct Hh as [Hb Hs Hc Hn Hm]. split_and!; [done| |done].
    split; cbn [set_file lw_file lw_next_seq].
    + by apply encode_rows_app.
    + apply Forall_app. split; [done|]. repeat constructor; cbn; [lia| |done].
      by destruct (ll_ts line =? 0).
    + apply contiguous_app. split; [done|]. cbn. by rewrite Hn.
    + rewrite Hn, length_app. cbn. lia.
    + done.
  - right; right. eexists json, (length (json ++ [10])), _. split_and!; try done.
    cbn. by rewrite firstn_all.
Qed.

Lemma open_holds w rows boot_id :
  writer_holds w rows →
  open_with_replay (lw_file w) true boot_id true =
    Ok (MkWriter (lw_file w) (lw_next_seq w) true false false true boot_id, rows).
Proof.
  intros [Hb Hs Hc Hn Hm]. rewrite <-(app_nil_r (lw_file w)) at 1.
  rewrite (open_strict_rows rows) by (done || lia || set_solver). by rewrite Hn.
Qed.

(** The torn row of a failed append is dropped, unless all of it was written. *)
Lemma open_torn w rows line json n boot_id :
  writer_holds w rows → line_to_vec line = Ok json → ll_seq line = lw_next_seq w →
  line_storable line → lw_next_seq w + 1 ≤ u64_max →
  ∃ w2 extra, (length extra ≤ 1)%nat ∧
    open_with_replay (lw_file w ++ take n (json ++ [10])) true boot_id true = Ok (w2, rows ++ extra).
Proof.
  intros Hh Hj Hseq Hst Hmax. destruct (decide (n ≤ length json)%nat) as [Hle|Hgt].
  - rewrite take_app_le by done. destruct Hh as [Hb Hs Hc Hn Hm].
    eexists _, []. rewrite app_nil_r. split; [cbn; lia|].
    apply open_strict_rows; [done..|lia|].
    intros Hin. apply (proj1 (line_codec_one_line _ _ Hj)). apply elem_of_take in Hin as (i & Hi & _). by eapply list_elem_of_lookup_2.
  - rewrite take_ge by (rewrite length_app; cbn; lia).
    assert (writer_holds (set_file (lw_file w ++ json ++ [10]) false (lw_next_seq w + 1) w)
      (rows ++ [line])) as Hh'.
    { destruct Hh as [Hb Hs Hc Hn Hm]. split; cbn [set_file lw_file lw_next_seq].
      - by apply encode_rows_app.
      - apply Forall_app. split; [done|]. by apply Forall_singleton.
      - apply contiguous_app. split; [done|]. by rewrite Hseq, Hn.
      - rewrite Hn, length_app. cbn. lia.
      - done. }
    eexists _, [line]. split; [cbn; lia|]. apply (open_holds _ _ boot_id Hh').
Qed.

Lemma stamp_storable w now line :
  lw_next_seq w ≤ u64_max → now ≤ u64_max → ll_ts line ≤ u64_max →
  (∀ v, ll_data line = Some v → value_storable v = true) → line_storable (stamp w now line).
Proof. intros ????. split_and!; cbn; [done|by destruct (ll_ts line =? 0)|done]. Qed.

(** [C11.] Crash safety of the strict journal: whatever the disk does to each
    append, reopening the file yields every row acknowledged so far, in order,
    followed by at most one row that was never acknowledged. *)
Theorem acknowledged_rows_survive w rows ops w' acknowledged boot_id :
  writer_holds w rows → lw_write_state_unknown w = false → Forall appendable ops →
  append_all w ops = (w', acknowledged) →
  ∃ w2 extra, (length extra ≤ 1)%nat ∧
    open_with_replay (lw_file w') true boot_id true = Ok (w2, rows ++ acknowledged ++ extra).
Proof.
  revert w rows acknowledged. induction ops as [|[[io now] line] ops IH];
    intros w rows acknowledged Hh Hu Hops Hall; cbn [append_all] in Hall.
  - injection Hall as <- <-. eexists _, []. split; [cbn; lia|]. rewrite !app_nil_r. by apply open_holds.
  - apply Forall_cons in Hops as [Hop Hops].
    destruct (append w io now line) as [w1 r] eqn:Ha.
    destruct (append_all w1 ops) as [w2 acks] eqn:Hrest. injection Hall as -> Hacks.
    destruct (append_cases _ _ _ _ _ _ _ Hh Hu Hop Ha)
      as [(-> & e & ->)|[(-> & Hh1 & Hu1)|(json & n & e & -> & Hu1 & Hj & Hmax & Hfile)]].
    + subst. by eapply IH.
    + subst acknowledged. destruct (IH _ _ _ Hh1 Hu1 Hops Hrest) as (w3 & extra & Hx & Hopen).
      exists w3, extra. split; [done|]. by rewrite Hopen, <-!app_assoc.
    + rewrite append_all_unknown in Hrest by done. injection Hrest as <- <-. subst acknowledged.
      rewrite Hfile. cbn [app]. destruct Hop as (? & ? & ?).
      eapply open_torn; [done|exact Hj|done| |done]. apply stamp_storable; try done. apply Hh.
Qed.

(** An acknowledged append carries the next sequence number and the
    writer's boot id, and the following append carries the next one; after a
    failed write or a seal every append is refused and the file is unchanged. *)
Theorem append_numbers_rows w io now line w' r :
  append w io now line = (w', r) →
  match r with
  | Ok row => ll_seq row = lw_next_seq w ∧ ll_boot_id row = lw_boot_id w ∧
      lw_next_seq w' = lw_next_seq w + 1 ∧ lw_sealed w = false ∧ lw_write_state_unknown w = false ∧
      ∃ json, line_to_vec row = Ok json ∧ lw_file w' = lw_file w ++ json ++ [10]
  | Err _ => lw_next_seq w' = lw_next_seq w ∧
      (lw_sealed w = true ∨ lw_write_state_unknown w = true → w' = w)
  end.
Proof.
  unfold append. destruct (lw_sealed w) eqn:Hs; [by intros [= <- <-]|].
  destruct (lw_write_state_unknown w) eqn:Hu; [by intros [= <- <-]|].
  destruct (checked_add_u64 (lw_next_seq w) 1) as [following|] eqn:Hf; [|by intros [= <- <-]].
  apply checked_add_u64_Some in Hf as [-> _].
  destruct (line_to_vec (stamp w now line)) as [json|] eqn:Hj; [|by intros [= <- <-]].
  destruct (io_written io); [intros [= <- <-]; split; [done|by intros [?|?]]|].
  destruct (io_synced io); intros [= <- <-]; [|split; [done|by intros [?|?]]].
  cbn [stamp ll_seq ll_boot_id set_file lw_next_seq lw_file]. split_and!; try done. by eauto.
Qed.
End journal.
