(* ===== verification/Mailbox.v ===== *)
(** * Mailbox data

    [src/cyclops-proto/src/mailbox.rs]: message ids, the message summary, the
    semantic request digest, message metadata and per-recipient entries.
    SHA-256, the JSON encoding of the digest payload and the random UUIDs
    message ids are minted from are parameters. *)
From S2P Require Import Prelude Text Identity Ledger.
Local Open Scope N_scope.
Local Open Scope rust_scope.

Definition CANONICAL_RECORD_VERSION : N := 1.

(** ** Message ids *)
Record MessageId := MkMessageId { mid_text : rstr }.
#[export] Instance MessageId_eq_dec : EqDecision MessageId.
Proof. solve_decision. Defined.
#[export] Instance MessageId_countable : Countable MessageId.
Proof. by apply (inj_countable' mid_text MkMessageId); intros []. Defined.

Inductive MailboxTypeError :=
| InvalidMessageId (value : rstr)
| InvalidRequestDigest (value : rstr)
| SerializationError (text : rstr)
| InvalidMessageSummary.

Definition MESSAGE_ID_PREFIX : rstr := str "cyc-".
Definition MESSAGE_ID_PART_LEN : nat := 8.

Definition is_lower_hex (c : rchar) : bool := is_ascii_digit c || in_range 97 102 c.
Definition is_id_part (part : rstr) : bool :=
  (str_len part =? N.of_nat MESSAGE_ID_PART_LEN) && forallb is_lower_hex part.

Definition message_id_new (value : rstr) : result MailboxTypeError MessageId :=
  match strip_prefix MESSAGE_ID_PREFIX value with
  | Some parts =>
      let valid :=
        match split_once [45] parts with
        | Some (thread, message) => is_id_part thread && is_id_part message
        | None => false
        end in
      bail (InvalidMessageId value) when negb valid ;;
      Ok (MkMessageId value)
  | None =>
      let? suffix := ok_or (strip_prefix (str "m-") value) (InvalidMessageId value) in
      bail (InvalidMessageId value) when
        bool_decide (suffix = []) ||
        negb (forallb (λ c, is_ascii_alphanumeric c || (c =? 95) || (c =? 45)) suffix) ;;
      Ok (MkMessageId value)
  end.

(** The [<thread>] and [<message>] runs of a [cyc-] id. *)
Definition message_id_parts (id : MessageId) : option (rstr * rstr) :=
  parts ← strip_prefix MESSAGE_ID_PREFIX (mid_text id); split_once [45] parts.
Definition thread_part (id : MessageId) : option rstr := fst <$> message_id_parts id.
Definition message_part (id : MessageId) : option rstr := snd <$> message_id_parts id.

(** [MessageId::mint_root]: [random] is the 32-digit text of a fresh UUID. *)
Definition mint_root (random : rstr) : MessageId :=
  MkMessageId (MESSAGE_ID_PREFIX ++ take MESSAGE_ID_PART_LEN random ++ str "-" ++
               drop (length random - MESSAGE_ID_PART_LEN) random).

(** What the code uses of the [sha2] and [serde_json] crates for ids and
    digests: the hash of a byte string, and the canonical payload as bytes. *)
Record CanonicalSemanticPayload := MkPayload {
  pl_kind : Kind;
  pl_sender : RecipientKey;
  pl_recipients : list RecipientKey;
  pl_subject : option rstr;
  pl_summary : option rstr;
  pl_body : option rstr;
  pl_reply_to : option MessageId;
  pl_supersedes : option MessageId;
}.
Class Digests := {
  sha256 : list N → list N;
  payload_to_vec : CanonicalSemanticPayload → result rstr (list N);
}.
(** SHA-256 yields 32 bytes. *)
Class DigestLaws `{!Digests} := {
  sha256_length bytes : length (sha256 bytes) = 32%nat;
  sha256_bytes bytes : Forall (λ b, b < 256) (sha256 bytes);
}.

Section digests.
Context {digests : Digests}.

Definition thread_key (id : MessageId) : rstr :=
  match thread_part id with
  | Some thread => thread
  | None =>
      mjoin (hex_byte <$> take (MESSAGE_ID_PART_LEN / 2) (sha256 (utf8_bytes (mid_text id))))
  end.

Definition mint_in_thread (thread_root : MessageId) (random : rstr) : MessageId :=
  MkMessageId (MESSAGE_ID_PREFIX ++ thread_key thread_root ++ str "-" ++
               take MESSAGE_ID_PART_LEN random).
End digests.

(** ** Message summaries *)
Definition validate_message_summary (summary : rstr) : result MailboxTypeError unit :=
  bail InvalidMessageSummary when
    bool_decide (summary = []) || bool_decide (trim summary ≠ summary) ||
    existsb is_control summary ;;
  Ok ().

Definition DERIVED_SUMMARY_MAX_CHARS : nat := 200.
Definition summary_from (source : rstr) : option rstr :=
  line ← List.find (λ l, bool_decide (l ≠ [])) (trim <$> str_lines source);
  let line := join [32] (split_whitespace line) in
  let summary := trim_end (take DERIVED_SUMMARY_MAX_CHARS line) in
  match validate_message_summary summary with Ok _ => Some summary | Err _ => None end.
Definition derive_message_summary (body subject : rstr) : option rstr :=
  match summary_from subject with
  | Some summary => Some summary
  | None => summary_from body
  end.

(** ** Request digests *)
Record RequestDigest := MkRequestDigest { digest_text : rstr }.
#[export] Instance RequestDigest_eq_dec : EqDecision RequestDigest.
Proof. solve_decision. Defined.

Record RequestContent := MkRequestContent {
  rc_subject : option rstr;
  rc_summary : option rstr;
  rc_body : option rstr;
}.

Definition request_digest_parse (value : rstr) : result MailboxTypeError RequestDigest :=
  let? hex_part := ok_or (strip_prefix (str "v1:") value) (InvalidRequestDigest value) in
  bail (InvalidRequestDigest value) when
    negb (str_len hex_part =? 64) ||
    negb (forallb (λ c, is_ascii_hexdigit c && negb (is_ascii_uppercase c)) hex_part) ;;
  Ok (MkRequestDigest value).

Definition request_digest_compute `{!Digests} (kind : Kind) (sender : RecipientKey)
    (recipients : list RecipientKey) (content : RequestContent)
    (reply_to supersedes : option MessageId) : result MailboxTypeError RequestDigest :=
  let sorted_recipients := merge_sort recipient_key_le recipients in
  let payload := MkPayload kind sender sorted_recipients (rc_subject content)
    (rc_summary content) (rc_body content) reply_to supersedes in
  let? bytes := result_map_err SerializationError (payload_to_vec payload) in
  Ok (MkRequestDigest (str "v1:" ++ mjoin (hex_byte <$> sha256 bytes))).

(** ** Metadata and presentation *)
Record RecipientPresentation := MkRecipientPresentation {
  rp_recipient : RecipientKey;
  rp_label : rstr;
}.
Record MessagePresentation := MkMessagePresentation {
  mp_sender_label : rstr;
  mp_recipient_labels : list RecipientPresentation;
}.
Record MessageMetadata := MkMessageMetadata {
  md_record_version : N;
  md_workspace_id : WorkspaceId;
  md_sender : RecipientKey;
  md_recipients : list RecipientKey;
  md_presentation : MessagePresentation;
  md_summary : option rstr;
  md_thread_root : MessageId;
  md_client_key : option rstr;
  md_request_digest : RequestDigest;
  md_supersedes : option MessageId;
  md_raw : bool;
  md_broadcast : bool;
}.

(** ** Lemmas *)
Lemma is_lower_hex_range c : is_lower_hex c = true → 48 ≤ c ≤ 102.
Proof.
  unfold is_lower_hex, is_ascii_digit, in_range.
  intros [H|H]%orb_true_iff; apply andb_true_iff in H as [H1%N.leb_le H2%N.leb_le]; lia.
Qed.

Lemma lower_hex_ascii s : Forall (λ c, is_lower_hex c = true) s → Forall (λ c, c < 128) s.
Proof.
  intros H. eapply Forall_impl; [exact H|]. intros c Hc%is_lower_hex_range. lia.
Qed.

Lemma is_id_part_intro s :
  length s = MESSAGE_ID_PART_LEN → Forall (λ c, is_lower_hex c = true) s → is_id_part s = true.
Proof.
  intros Hl Hs. unfold is_id_part. rewrite str_len_ascii by by apply lower_hex_ascii.
  rewrite Hl, N.eqb_refl. apply forallb_forall. intros c Hc%list_elem_of_In.
  exact (Forall_elem _ _ _ Hs Hc).
Qed.

Lemma is_id_part_chars s : is_id_part s = true → Forall (λ c, is_lower_hex c = true) s.
Proof.
  intros [_ H]%andb_true_iff. apply List.Forall_forall. by apply forallb_forall.
Qed.

Lemma lower_hex_no_hyphen s : Forall (λ c, is_lower_hex c = true) s → 45 ∉ s.
Proof. intros H Hin. by pose proof (Forall_elem _ _ _ H Hin). Qed.

Lemma hex_byte_lower b : b < 256 → Forall (λ c, is_lower_hex c = true) (hex_byte b).
Proof.
  intros Hb. assert (∀ d, d < 16 → is_lower_hex (hex_digit d) = true) as Hd.
  { intros d Hlt. unfold hex_digit, is_lower_hex, is_ascii_digit, in_range.
    destruct (N.ltb_spec d 10); apply orb_true_iff; [left|right]; apply andb_true_iff;
      split; apply N.leb_le; lia. }
  unfold hex_byte. repeat constructor; apply Hd.
  - apply N.Div0.div_lt_upper_bound. lia.
  - apply N.mod_lt. lia.
Qed.

Lemma message_id_new_text s id : message_id_new s = Ok id → id = MkMessageId s.
Proof.
  unfold message_id_new. intros H. destruct (strip_prefix MESSAGE_ID_PREFIX s); by ok_inv.
Qed.

(** A [cyc-] id assembled from two hex runs is valid and has these parts. *)
Lemma cyc_id_valid thread message :
  is_id_part thread = true → is_id_part message = true →
  let id := MkMessageId (MESSAGE_ID_PREFIX ++ thread ++ str "-" ++ message) in
  message_id_new (mid_text id) = Ok id ∧ message_id_parts id = Some (thread, message).
Proof.
  intros Ht Hm. cbn zeta. cbn [mid_text]. unfold message_id_new, message_id_parts. cbn [mid_text].
  rewrite strip_prefix_app. cbn [mbind option_bind].
  change (str "-" ++ message) with (45 :: message).
  rewrite split_once_char by by apply lower_hex_no_hyphen, is_id_part_chars.
  rewrite Ht, Hm. done.
Qed.

Lemma is_id_part_take random :
  Forall (λ c, is_lower_hex c = true) random → (MESSAGE_ID_PART_LEN ≤ length random)%nat →
  is_id_part (take MESSAGE_ID_PART_LEN random) = true.
Proof.
  intros Hr Hl. apply is_id_part_intro; [rewrite length_take; lia|by apply Forall_take].
Qed.

Section digest_lemmas.
Context {digests : Digests} {digest_laws : DigestLaws}.

Lemma thread_key_valid id s :
  message_id_new s = Ok id → is_id_part (thread_key id) = true.
Proof.
  intros H. unfold thread_key, thread_part, message_id_parts.
  pose proof (message_id_new_text _ _ H) as ->.
  unfold message_id_new in H. cbn [mid_text] in *.
  destruct (strip_prefix MESSAGE_ID_PREFIX s) as [parts|]; cbn [mbind option_bind].
  - destruct (split_once [45] parts) as [[t m]|]; ok_inv; done.
  - cbn [fmap option_fmap option_map].
    set (h := sha256 _). pose proof (sha256_length (utf8_bytes s)) as Hl. fold h in Hl.
    pose proof (sha256_bytes (utf8_bytes s)) as Hb. fold h in Hb.
    apply is_id_part_intro.
    + by destruct h as [|a [|b [|c [|d h]]]].
    + apply Forall_join, Forall_fmap. eapply Forall_impl; [by apply Forall_take|].
      intros b. apply hex_byte_lower.
Qed.

Lemma length_hex_bytes l : length (mjoin (hex_byte <$> l)) = (2 * length l)%nat.
Proof.
  induction l as [|x l IH]; [done|].
  change (mjoin (hex_byte <$> (x :: l))) with (hex_byte x ++ mjoin (hex_byte <$> l)).
  rewrite length_app, IH. cbn. lia.
Qed.

(** A computed digest has the canonical text form. *)
Lemma request_digest_compute_valid kind sender recipients content reply_to supersedes d :
  request_digest_compute kind sender recipients content reply_to supersedes = Ok d →
  request_digest_parse (digest_text d) = Ok d.
Proof.
  unfold request_digest_compute. intros H.
  destruct (result_map_err _ _) as [bytes|]; [|done].
  assert (d = MkRequestDigest (str "v1:" ++ mjoin (hex_byte <$> sha256 bytes))) as -> by congruence.
  clear H. cbn [digest_text]. unfold request_digest_parse.
  rewrite strip_prefix_app. cbn [ok_or].
  pose proof (sha256_length bytes) as Hl. pose proof (sha256_bytes bytes) as Hb.
  set (h := sha256 bytes) in *. set (hex := mjoin (hex_byte <$> h)).
  assert (Forall (λ c, is_lower_hex c = true) hex) as Hhex.
  { apply Forall_join, Forall_fmap. eapply Forall_impl; [exact Hb|]. intros c. apply hex_byte_lower. }
  assert (length hex = 64%nat) as Hlen.
  { unfold hex. by rewrite length_hex_bytes, Hl. }
  rewrite str_len_ascii, Hlen by by apply lower_hex_ascii. cbn [negb N.eqb orb].
  assert (forallb (λ c, is_ascii_hexdigit c && negb (is_ascii_uppercase c)) hex = true) as ->; [|done].
  apply forallb_forall. intros c Hc%list_elem_of_In.
  pose proof (Forall_elem _ _ _ Hhex Hc) as Hx. cbn in Hx.
  unfold is_lower_hex, is_ascii_hexdigit, is_ascii_uppercase, is_ascii_digit, in_range in *.
  apply andb_true_iff. split.
  - apply orb_true_iff in Hx as [->|Hx]; [done|]. rewrite Hx. by rewrite ?orb_true_r.
  - apply negb_true_iff, andb_false_iff.
    apply orb_true_iff in Hx as [Hx|Hx]; apply andb_true_iff in Hx as [H1%N.leb_le H2%N.leb_le];
      [left; apply N.leb_gt; lia|right; apply N.leb_gt; lia].
Qed.

(** Recipients are sorted before hashing, so their order is irrelevant. *)
Lemma merge_sort_recipients_perm l1 l2 :
  l1 ≡ₚ l2 → merge_sort recipient_key_le l1 = merge_sort recipient_key_le l2.
Proof.
  intros HP. apply (StronglySorted_unique recipient_key_le).
  - apply StronglySorted_merge_sort; apply _.
  - apply StronglySorted_merge_sort; apply _.
  - by rewrite !merge_sort_Permutation.
Qed.
End digest_lemmas.
