(* ===== verification/Notification.v ===== *)
(** * Notification data and the attempt state machine

    [src/cyclops-proto/src/notification.rs]: the states of one wake attempt,
    the closed causes, the write-boundary binding, the projected record and
    the facts the journal stores.  [ComposerState] and [MessageWakeBlock] come
    from [state.rs] and [wire.rs] of the same crate. *)
From S2P Require Import Prelude Text Identity Ledger Mailbox.
Local Open Scope N_scope.

(** ** Attempt ids *)

(** [generate], [parse] and the token decoder never yield the nil UUID. *)
Definition NotificationAttemptId := bsub (λ u, negb (uuid_is_nil u)).
#[export] Instance NotificationAttemptId_eq_dec : EqDecision NotificationAttemptId := _.
#[export] Instance NotificationAttemptId_countable : Countable NotificationAttemptId := _.
(** The derived [Ord]: byte order, which is the order of the 128-bit value. *)
Definition attempt_rank (a : NotificationAttemptId) : N := bval (bval a).

Record NotificationManifestId := MkManifestId { manifest_text : rstr }.
#[export] Instance NotificationManifestId_eq_dec : EqDecision NotificationManifestId.
Proof. solve_decision. Defined.

Inductive NotificationTypeError := InvalidAttemptId | InvalidManifestId.
Definition manifest_id_new (value : rstr) : result NotificationTypeError NotificationManifestId :=
  if bool_decide (value = []) || negb (forallb is_ascii_graphic value)
  then Err InvalidManifestId else Ok (MkManifestId value).

Section attempt_text.
Context {uuids : Uuids}.
Definition attempt_display (a : NotificationAttemptId) : rstr :=
  str "att-" ++ uuid_hyphenated (bval a).
Definition attempt_parse (value : rstr) : result NotificationTypeError NotificationAttemptId :=
  match strip_prefix (str "att-") value with
  | None => Err InvalidAttemptId
  | Some suffix =>
      match uuid_parse_str suffix with
      | None => Err InvalidAttemptId
      | Some uuid =>
          if uuid_is_nil uuid || bool_decide (uuid_hyphenated uuid ≠ suffix)
          then Err InvalidAttemptId
          else ok_or (to_bsub (λ u, negb (uuid_is_nil u)) uuid) InvalidAttemptId
      end
  end.
End attempt_text.

(** ** Attempt states *)
Inductive NotificationState :=
| Queued
| Gating
| BlockedPreWrite
| QuotaHeld
| QuotaResetObserved
| Writing
| Staged
| Submitting
| Submitted
| SubmittedUnverified
| Notified
| AttentionRequired
| Withdrawn
| WithdrawnAfterStaging
| WithdrawnByOperator
| Superseded.
#[export] Instance NotificationState_eq_dec : EqDecision NotificationState.
Proof. solve_decision. Defined.

Inductive NotificationTransport := Doorbell | DirectPayload | Raw | MailboxOnly.
#[export] Instance NotificationTransport_eq_dec : EqDecision NotificationTransport.
Proof. solve_decision. Defined.
(** [#[default]]. *)
Definition default_transport : NotificationTransport := Doorbell.

Definition can_transition_to (self next : NotificationState) : bool :=
  match self with
  | Queued => match next with Gating | WithdrawnByOperator | Notified => true | _ => false end
  | Gating =>
      match next with
      | BlockedPreWrite | Writing | QuotaHeld | WithdrawnByOperator => true
      | _ => false
      end
  | BlockedPreWrite =>
      match next with Gating | Withdrawn | WithdrawnByOperator => true | _ => false end
  | QuotaHeld => match next with QuotaResetObserved => true | _ => false end
  | QuotaResetObserved => false
  | Writing =>
      match next with
      | Staged | Submitted | SubmittedUnverified | Notified | AttentionRequired => true
      | _ => false
      end
  | Staged => match next with Submitting | AttentionRequired => true | _ => false end
  | Submitting =>
      match next with Submitted | SubmittedUnverified | AttentionRequired => true | _ => false end
  | Submitted => match next with Notified | AttentionRequired => true | _ => false end
  | SubmittedUnverified => match next with Notified | AttentionRequired => true | _ => false end
  | Notified | AttentionRequired | Withdrawn | WithdrawnAfterStaging
  | WithdrawnByOperator | Superseded => false
  end.

Definition can_withdraw_before_write (self : NotificationState) : bool :=
  match self with Queued | Gating | BlockedPreWrite => true | _ => false end.

Definition settled_by_claim (self : NotificationState) (transport : NotificationTransport)
    : NotificationState :=
  match self, transport with
  | (Queued | Gating | BlockedPreWrite | QuotaHeld | QuotaResetObserved), DirectPayload =>
      Withdrawn
  | (Queued | Gating | BlockedPreWrite), Doorbell => Withdrawn
  | (Submitted | SubmittedUnverified), Doorbell => Notified
  | _, _ => self
  end.

Definition is_terminal (self : NotificationState) : bool :=
  match self with
  | QuotaHeld | QuotaResetObserved | Notified | AttentionRequired | Withdrawn
  | WithdrawnAfterStaging | WithdrawnByOperator | Superseded => true
  | _ => false
  end.

(** ** Closed causes *)
Inductive NotificationPreWriteCause :=
| HeldForExistingDraft
| SessionUnavailable
| ManifestUnavailable
| PayloadUnavailable
| WriteReadinessChanged
| SpoolFailed
| PasteCommandUnwritten
| BindingUnprovable
| ComposerSemanticMissing
| ComposerOwnershipUnproven
| WorkerFailed
| ClaimedBeforeWrite.
#[export] Instance NotificationPreWriteCause_eq_dec : EqDecision NotificationPreWriteCause.
Proof. solve_decision. Defined.

(** The stable protocol spelling of a pre-write cause. *)
Definition pre_write_wire_name (c : NotificationPreWriteCause) : rstr :=
  match c with
  | HeldForExistingDraft => str "held_for_existing_draft"
  | SessionUnavailable => str "session_unavailable"
  | ManifestUnavailable => str "manifest_unavailable"
  | PayloadUnavailable => str "payload_unavailable"
  | WriteReadinessChanged => str "write_readiness_changed"
  | SpoolFailed => str "spool_failed"
  | PasteCommandUnwritten => str "paste_command_unwritten"
  | BindingUnprovable => str "binding_unprovable"
  | ComposerSemanticMissing => str "composer_semantic_missing"
  | ComposerOwnershipUnproven => str "composer_ownership_unproven"
  | WorkerFailed => str "worker_failed"
  | ClaimedBeforeWrite => str "claimed_before_write"
  end.

Inductive MessageWakeBlock :=
| DaemonStopping
| RouteUnavailable
| AttentionResolutionPending
| WorkerFaulted
| WorkerSupervisorExited
| EnqueueRefused
| WakeComposerOwnershipUnproven
| SchedulerStateUnavailable.
#[export] Instance MessageWakeBlock_eq_dec : EqDecision MessageWakeBlock.
Proof. solve_decision. Defined.

Inductive ComposerState :=
| ComposerClean
| HumanDraft
| VendorGhostSuggestion
| CyclopsNotificationStaged
| CyclopsNotificationSubmitted
| ComposerAmbiguous.
#[export] Instance ComposerState_eq_dec : EqDecision ComposerState.
Proof. solve_decision. Defined.

Inductive NotificationAttentionCause :=
| PasteFailed
| VerifyFailed
| PaneReboundAfterPaste
| SubmitFailed
| ReceiptOccupantChanged
| AckTimeout
| DaemonRestart
| TransportOutcomeUnknown.
#[export] Instance NotificationAttentionCause_eq_dec : EqDecision NotificationAttentionCause.
Proof. solve_decision. Defined.

Definition cause_valid_after (self : NotificationAttentionCause) (state : NotificationState) : bool :=
  match state with
  | Writing =>
      match self with
      | PasteFailed | VerifyFailed | PaneReboundAfterPaste | SubmitFailed | DaemonRestart
      | TransportOutcomeUnknown => true
      | _ => false
      end
  | Staged =>
      match self with
      | VerifyFailed | PaneReboundAfterPaste | SubmitFailed | DaemonRestart
      | TransportOutcomeUnknown => true
      | _ => false
      end
  | Submitting =>
      match self with
      | VerifyFailed | PaneReboundAfterPaste | SubmitFailed | DaemonRestart
      | TransportOutcomeUnknown => true
      | _ => false
      end
  | Submitted | SubmittedUnverified =>
      match self with
      | ReceiptOccupantChanged | AckTimeout | DaemonRestart | TransportOutcomeUnknown => true
      | _ => false
      end
  | Queued | Gating | BlockedPreWrite | QuotaHeld | QuotaResetObserved | Notified
  | AttentionRequired | Withdrawn | WithdrawnAfterStaging | WithdrawnByOperator
  | Superseded => false
  end.

Inductive NotificationVerifyFailureKind :=
| VerifyMismatch | VerifyTimeout | VerifyOwnerMissing | VerifyAmbiguous.
#[export] Instance NotificationVerifyFailureKind_eq_dec : EqDecision NotificationVerifyFailureKind.
Proof. solve_decision. Defined.

Record NotificationVerifyOutcome := MkVerifyOutcome {
  vo_kind : NotificationVerifyFailureKind;
  vo_observed_composer : ComposerState;
}.
#[export] Instance NotificationVerifyOutcome_eq_dec : EqDecision NotificationVerifyOutcome.
Proof. solve_decision. Defined.
Definition verify_outcome_ambiguous : NotificationVerifyOutcome :=
  MkVerifyOutcome VerifyAmbiguous ComposerAmbiguous.

Inductive NotificationResolution := Complete | Discard.
#[export] Instance NotificationResolution_eq_dec : EqDecision NotificationResolution.
Proof. solve_decision. Defined.

Inductive NotificationResolutionConsumptionEvidence :=
| ExactHookPrompt | AuthenticatedClaim | WorkingEdge.
#[export] Instance NotificationResolutionConsumptionEvidence_eq_dec :
  EqDecision NotificationResolutionConsumptionEvidence.
Proof. solve_decision. Defined.
Definition proves_exact_consumption (e : NotificationResolutionConsumptionEvidence) : bool :=
  match e with ExactHookPrompt | AuthenticatedClaim => true | WorkingEdge => false end.

Record NotificationResolutionConsumptionObservation := MkConsumption {
  co_evidence : NotificationResolutionConsumptionEvidence;
  co_observed_at_ms : N;
}.
#[export] Instance NotificationResolutionConsumptionObservation_eq_dec :
  EqDecision NotificationResolutionConsumptionObservation.
Proof. solve_decision. Defined.

Inductive NotificationBarrierRetirementCause :=
| LifecycleReconciled
| ComposerObservedClear
| RecipientClaimedComposerClear
| OccupantReplaced
| PaneGone.

(** ** Doorbell formats *)
Definition DOORBELL_FORMAT_COMPACT_CLAIM : N := 1.
Definition DOORBELL_FORMAT_ATTEMPT_CLAIM : N := 2.
Definition DOORBELL_FORMAT_ATTEMPT_ONLY_CLAIM : N := 3.
Definition DOORBELL_FORMAT_SUMMARY_CLAIM : N := 4.
Definition NOTIFICATION_RESOLUTION_PROOF_VERSION : N := 1.

Definition doorbell_format_names_exact_attempt (format : option N) : bool :=
  match format with
  | Some f =>
      (f =? DOORBELL_FORMAT_ATTEMPT_CLAIM) || (f =? DOORBELL_FORMAT_ATTEMPT_ONLY_CLAIM) ||
      (f =? DOORBELL_FORMAT_SUMMARY_CLAIM)
  | None => false
  end.

(** ** Records *)
Record NotificationRouteEvidenceId := MkRouteEvidence {
  re_boot_id : rstr;
  re_generation : N;
}.
#[export] Instance NotificationRouteEvidenceId_eq_dec : EqDecision NotificationRouteEvidenceId.
Proof. solve_decision. Defined.

Record NotificationBinding := MkBinding {
  nb_recipient : RecipientKey;
  nb_pane_root : option ProcessInstanceId;
  nb_leader : option ProcessInstanceId;
  nb_agent : ProcessInstanceId;
  nb_manifest : NotificationManifestId;
}.
#[export] Instance NotificationBinding_eq_dec : EqDecision NotificationBinding.
Proof. solve_decision. Defined.

Record NotificationPreWriteObservation := MkPreWriteObservation {
  po_write_block : option rstr;
  po_pane_root : option ProcessInstanceId;
  po_selected_manifest : option NotificationManifestId;
  po_binding : option NotificationBinding;
  po_route_evidence : option NotificationRouteEvidenceId;
  po_pane_width : option N;
  po_required_pane_width : option N;
}.
#[export] Instance NotificationPreWriteObservation_eq_dec :
  EqDecision NotificationPreWriteObservation.
Proof. solve_decision. Defined.

Record NotificationRecord := MkRecord {
  nr_attempt_id : NotificationAttemptId;
  nr_message_id : MessageId;
  nr_recipient : RecipientKey;
  nr_state : NotificationState;
  nr_binding : option NotificationBinding;
  nr_transport : NotificationTransport;
  nr_doorbell_format : option N;
  nr_cause : option NotificationAttentionCause;
  nr_verified_by : option VerifiedBy;
  nr_verify_outcome : option NotificationVerifyOutcome;
  nr_pre_write_cause : option NotificationPreWriteCause;
  nr_wake_block : option MessageWakeBlock;
  nr_pre_write_observation : option NotificationPreWriteObservation;
  nr_pre_write_reopen_count : N;
  nr_unclaimed_reminder_count : N;
  nr_started_seq : N;
  nr_updated_seq : N;
  nr_updated_at : N;
}.
#[export] Instance NotificationRecord_eq_dec : EqDecision NotificationRecord.
Proof. solve_decision. Defined.

Definition execution_epoch (r : NotificationRecord) : N :=
  saturating_add_u8 (saturating_mul_u8 (nr_pre_write_reopen_count r) 2)
    (nr_unclaimed_reminder_count r).

(** The binding was complete at the write boundary. *)
Definition binding_complete_for (recipient : RecipientKey) (b : option NotificationBinding) : bool :=
  match b with
  | Some binding =>
      bool_decide (nb_recipient binding = recipient) &&
      bool_decide (is_Some (nb_pane_root binding)) && bool_decide (is_Some (nb_leader binding))
  | None => false
  end.

Definition needs_exact_owned_reconciliation (r : NotificationRecord) : bool :=
  bool_decide (nr_state r = AttentionRequired) &&
  bool_decide (nr_cause r = Some VerifyFailed) &&
  bool_decide (nr_transport r = Doorbell) &&
  doorbell_format_names_exact_attempt (nr_doorbell_format r) &&
  binding_complete_for (nr_recipient r) (nr_binding r).

Definition needs_claimed_ack_timeout_reconciliation (r : NotificationRecord) : bool :=
  bool_decide (nr_state r = AttentionRequired) &&
  bool_decide (nr_cause r = Some AckTimeout) &&
  bool_decide (nr_transport r = Doorbell) &&
  doorbell_format_names_exact_attempt (nr_doorbell_format r) &&
  binding_complete_for (nr_recipient r) (nr_binding r).

Record NotificationRequeue := MkRequeue {
  rq_prior_attempt_id : NotificationAttemptId;
  rq_attempt_id : NotificationAttemptId;
  rq_recipient : RecipientKey;
}.
