(* ===== verification/Doorbell.v ===== *)
(** * Doorbells and attempt tokens

    The text a wake writes into a pane and reads back, from
    [src/cyclops-proto/src/notification.rs]: the 22-character token of an
    attempt id, the reserved claim locator, and the doorbell formats. *)
From S2P Require Import Prelude Text Identity Ledger Mailbox Notification.
Local Open Scope N_scope.

(** ** Bytes of a UUID *)

(** [Uuid::as_bytes]: 16 bytes, most significant first. *)
Fixpoint be_bytes (count : nat) (n : N) (acc : list N) : list N :=
  match count with
  | O => acc
  | S count => be_bytes count (N.shiftr n 8) (N.land n 255 :: acc)
  end.
Definition uuid_as_bytes (u : Uuid) : list N := be_bytes 16 (bval u) [].
Definition be_value (bytes : list N) : N := foldl (λ acc b, N.lor (N.shiftl acc 8) b) 0 bytes.
Definition uuid_from_bytes (bytes : list N) : option Uuid :=
  to_bsub (λ n, n <? 2 ^ 128) (be_value bytes).

(** ** Tokens *)
Definition ALPHABET : rstr :=
  str "ABCDEFGHIJKLMNOPQRSTUVWXYZabcdefghijklmnopqrstuvwxyz0123456789-_".
(** [ALPHABET[i] as char]; every index the encoder uses is below 64. *)
Definition alphabet_char (i : N) : rchar := default 0 (ALPHABET !! N.to_nat i).

(** [as_chunks::<3>().0] and [as_chunks::<4>().0]: the complete chunks. *)
Fixpoint chunks3 (bytes : list N) : list (N * N * N) :=
  match bytes with a :: b :: c :: rest => (a, b, c) :: chunks3 rest | _ => [] end.
Fixpoint chunks4 (values : list N) : list (N * N * N * N) :=
  match values with a :: b :: c :: d :: rest => (a, b, c, d) :: chunks4 rest | _ => [] end.

Definition encode_chunk (chunk : N * N * N) : rstr :=
  let '(c0, c1, c2) := chunk in
  [alphabet_char (N.shiftr c0 2);
   alphabet_char (N.lor (N.shiftl (N.land c0 3) 4) (N.shiftr c1 4));
   alphabet_char (N.lor (N.shiftl (N.land c1 15) 2) (N.shiftr c2 6));
   alphabet_char (N.land c2 63)].
Definition notification_attempt_token (attempt_id : NotificationAttemptId) : rstr :=
  let bytes := uuid_as_bytes (bval attempt_id) in
  let last := default 0 (bytes !! 15%nat) in
  mjoin (encode_chunk <$> chunks3 (take 15 bytes)) ++
  [alphabet_char (N.shiftr last 2); alphabet_char (N.shiftl (N.land last 3) 4)].

Definition decode_attempt_character (character : N) : option N :=
  if in_range 65 90 character then Some (character - 65)
  else if in_range 97 122 character then Some (character - 97 + 26)
  else if in_range 48 57 character then Some (character - 48 + 52)
  else if character =? 45 then Some 62
  else if character =? 95 then Some 63
  else None.

(** [u8 << k] drops the bits shifted out. *)
Definition u8_shl (x k : N) : N := N.land (N.shiftl x k) 255.
Definition decode_chunk (values : N * N * N * N) : list N :=
  let '(v0, v1, v2, v3) := values in
  [N.lor (u8_shl v0 2) (N.shiftr v1 4);
   N.lor (u8_shl v1 4) (N.shiftr v2 2);
   N.lor (u8_shl v2 6) v3].
Definition parse_notification_attempt_token (encoded : rstr) : option NotificationAttemptId :=
  if negb (str_len encoded =? 22) || negb (forallb (λ c, c <? 128) encoded) then None
  else
    values ← mapM decode_attempt_character encoded;
    v20 ← values !! 20%nat;
    v21 ← values !! 21%nat;
    if negb (N.land v21 15 =? 0) then None
    else
      let bytes := mjoin (decode_chunk <$> chunks4 (take 20 values)) ++
                   [N.lor (u8_shl v20 2) (N.shiftr v21 4)] in
      uuid ← uuid_from_bytes bytes;
      attempt_id ← to_bsub (λ u, negb (uuid_is_nil u)) uuid;
      if bool_decide (notification_attempt_token attempt_id = encoded) then Some attempt_id else None.

(** ** Claim locators *)
Definition NOTIFICATION_ATTEMPT_CLAIM_LOCATOR_PREFIX : rstr := str "m-att_".
(** [None] is the failed [expect]. *)
Definition notification_attempt_claim_locator (attempt_id : NotificationAttemptId)
    : option MessageId :=
  result_ok (message_id_new
    (NOTIFICATION_ATTEMPT_CLAIM_LOCATOR_PREFIX ++ notification_attempt_token attempt_id)).
Definition parse_notification_attempt_claim_locator (message_id : MessageId)
    : option NotificationAttemptId :=
  token ← strip_prefix NOTIFICATION_ATTEMPT_CLAIM_LOCATOR_PREFIX (mid_text message_id);
  attempt_id ← parse_notification_attempt_token token;
  locator ← notification_attempt_claim_locator attempt_id;
  if bool_decide (mid_text locator = mid_text message_id) then Some attempt_id else None.

(** ** Doorbell formats *)
Definition CLAIM_COMMAND : rstr := str "cyclops inbox claim ".
Definition render_doorbell_v1 (oldest_msg_id : MessageId) : rstr :=
  CLAIM_COMMAND ++ mid_text oldest_msg_id.
Definition render_doorbell_v2 (oldest_msg_id : MessageId) (attempt_id : NotificationAttemptId) : rstr :=
  CLAIM_COMMAND ++ mid_text oldest_msg_id ++ str " #c:" ++ notification_attempt_token attempt_id.
Definition render_doorbell_v3 (attempt_id : NotificationAttemptId) : option rstr :=
  locator ← notification_attempt_claim_locator attempt_id; Some (CLAIM_COMMAND ++ mid_text locator).
Definition render_doorbell_v4 (sender_label recipients summary : rstr)
    (attempt_id : NotificationAttemptId) : option rstr :=
  command ← render_doorbell_v3 attempt_id;
  Some (str "[cyclops from " ++ sender_label ++ str " to " ++ recipients ++ str "] " ++ summary ++
        str " | " ++ command).
Definition render_recipient_list (labels : list rstr) (broadcast : bool) : rstr :=
  if broadcast then str "all"
  else match labels with
       | [] => str "nobody"
       | first :: second :: ((_ :: _ :: _) as rest) =>
           first ++ str ", " ++ second ++ str ", +" ++ dec_string (N.of_nat (length rest))
       | named => join (str ", ") named
       end.

Definition strip_newline (payload : rstr) : rstr := default payload (strip_suffix [10] payload).
Definition parse_doorbell_v2 (payload : rstr) : option (MessageId * NotificationAttemptId) :=
  rest ← strip_prefix CLAIM_COMMAND (strip_newline payload);
  '(message_id, token) ← split_once (str " #c:") rest;
  if existsb is_whitespace token then None
  else
    message_id ← result_ok (message_id_new message_id);
    attempt_id ← parse_notification_attempt_token token;
    Some (message_id, attempt_id).
Definition parse_doorbell_v3 (payload : rstr) : option NotificationAttemptId :=
  locator ← strip_prefix CLAIM_COMMAND (strip_newline payload);
  let locator := default locator (strip_suffix (str " --json") locator) in
  message_id ← result_ok (message_id_new locator);
  parse_notification_attempt_claim_locator message_id.

(** ** Bit arithmetic *)
Lemma lor_shiftl_add a b k : b < 2 ^ k → N.lor (N.shiftl a k) b = a * 2 ^ k + b.
Proof.
  intros Hb. rewrite <-N.shiftl_mul_pow2, N.add_nocarry_lxor, N.lxor_lor; try done;
    apply N.bits_inj; intros i; rewrite N.land_spec, N.bits_0;
    (destruct (N.lt_ge_cases i k) as [Hi|Hi];
      [by rewrite N.shiftl_spec_low|]);
    rewrite (N.testbit_eqb b), N.div_small by (eapply N.lt_le_trans; [exact Hb|by apply N.pow_le_mono_r]);
    by rewrite andb_false_r.
Qed.
Lemma land_mod n k m : m = N.ones k → N.land n m = n mod 2 ^ k.
Proof. intros ->. apply N.land_ones. Qed.

Lemma u8_shl_lor x k b : k ≤ 8 → b < 2 ^ k → N.lor (u8_shl x k) b = x mod 2 ^ (8 - k) * 2 ^ k + b.
Proof.
  intros Hk Hb. unfold u8_shl. rewrite (land_mod _ 8) by done.
  assert (N.shiftl x k mod 2 ^ 8 = N.shiftl (x mod 2 ^ (8 - k)) k) as ->; [|by apply lor_shiftl_add].
  rewrite !N.shiftl_mul_pow2. replace (2 ^ 8) with (2 ^ (8 - k) * 2 ^ k).
  - apply N.Div0.mul_mod_distr_r.
  - rewrite <-N.pow_add_r. f_equal. lia.
Qed.

Ltac bits_to_arith :=
  rewrite ?(land_mod _ 8 255), ?(land_mod _ 2 3), ?(land_mod _ 4 15), ?(land_mod _ 6 63)
    by reflexivity;
  rewrite ?N.shiftr_div_pow2.

(** ** Byte strings *)
Lemma be_bytes_spec count n acc :
  n < 2 ^ (8 * N.of_nat count) → Forall (λ b, b < 256) acc →
  Forall (λ b, b < 256) (be_bytes count n acc) ∧
  length (be_bytes count n acc) = (count + length acc)%nat ∧
  foldl (λ a b, N.lor (N.shiftl a 8) b) 0 (be_bytes count n acc) =
    foldl (λ a b, N.lor (N.shiftl a 8) b) n acc.
Proof.
  revert n acc. induction count as [|count IH]; intros n acc Hn Ha; cbn [be_bytes].
  - cbn in Hn. by assert (n = 0) as -> by lia.
  - assert (N.land n 255 = n mod 256) as Hl by (by rewrite (land_mod _ 8)).
    assert (n mod 256 < 256) as Hm by (by apply N.mod_lt).
    destruct (IH (N.shiftr n 8) (N.land n 255 :: acc)) as (H1 & H2 & H3).
    + rewrite N.shiftr_div_pow2. apply N.Div0.div_lt_upper_bound. rewrite <-N.pow_add_r.
      by replace (8 + 8 * N.of_nat count) with (8 * N.of_nat (S count)) by lia.
    + constructor; [by rewrite Hl|done].
    + split_and!; [done|rewrite H2; cbn; lia|]. rewrite H3. cbn [foldl]. f_equal.
      rewrite Hl, lor_shiftl_add by done. rewrite N.shiftr_div_pow2.
      rewrite (N.div_mod' n 256) at 3. change (2 ^ 8) with 256. lia.
Qed.

Lemma uuid_bytes_round_trip u : uuid_from_bytes (uuid_as_bytes u) = Some u.
Proof.
  unfold uuid_from_bytes, uuid_as_bytes, be_value.
  destruct (be_bytes_spec 16 (bval u) []) as (_ & _ & ->); [|done|apply to_bsub_bval].
  apply N.ltb_lt. exact (bok u).
Qed.

(** ** The alphabet *)
Definition token_char (c : rchar) : bool := is_ascii_alphanumeric c || (c =? 95) || (c =? 45).
Lemma alphabet_spec i :
  i < 64 → decode_attempt_character (alphabet_char i) = Some i ∧ token_char (alphabet_char i) = true.
Proof.
  intros Hi.
  assert (forallb (λ n, let i := N.of_nat n in
    bool_decide (decode_attempt_character (alphabet_char i) = Some i) &&
    token_char (alphabet_char i)) (seq 0 64) = true) as H by (vm_compute; reflexivity).
  rewrite forallb_forall in H. specialize (H (N.to_nat i)).
  rewrite N2Nat.id in H. cbn zeta in H. apply andb_true_iff in H as [H1%bool_decide_eq_true H2].
  - done.
  - apply in_seq. lia.
Qed.

Lemma decode_alphabet l :
  Forall (λ i, i < 64) l → mapM decode_attempt_character (alphabet_char <$> l) = Some l.
Proof.
  intros H. apply mapM_Some, Forall2_fmap_l.
  induction H as [|i l Hlt _ IH]; constructor; [by apply alphabet_spec|done].
Qed.

Definition chunk_indices (chunk : N * N * N) : list N :=
  let '(c0, c1, c2) := chunk in
  [N.shiftr c0 2; N.lor (N.shiftl (N.land c0 3) 4) (N.shiftr c1 4);
   N.lor (N.shiftl (N.land c1 15) 2) (N.shiftr c2 6); N.land c2 63].

(** Four indices below 64 hold three bytes. *)
Lemma chunk_indices_spec c0 c1 c2 :
  c0 < 256 → c1 < 256 → c2 < 256 →
  ∃ i0 i1 i2 i3, chunk_indices (c0, c1, c2) = [i0; i1; i2; i3] ∧
    i0 < 64 ∧ i1 < 64 ∧ i2 < 64 ∧ i3 < 64 ∧ decode_chunk (i0, i1, i2, i3) = [c0; c1; c2].
Proof.
  intros H0 H1 H2. unfold chunk_indices. do 4 eexists. split; [reflexivity|].
  bits_to_arith. change (2 ^ 2) with 4. change (2 ^ 4) with 16. change (2 ^ 6) with 64.
  pose proof (N.div_mod' c0 4) as E0. pose proof (N.mod_lt c0 4 ltac:(done)).
  pose proof (N.div_mod' c1 16) as E1. pose proof (N.mod_lt c1 16 ltac:(done)).
  pose proof (N.div_mod' c2 64) as E2. pose proof (N.mod_lt c2 64 ltac:(done)).
  set (q0 := c0 / 4) in *. set (r0 := c0 mod 4) in *. set (q1 := c1 / 16) in *.
  set (r1 := c1 mod 16) in *. set (q2 := c2 / 64) in *. set (r2 := c2 mod 64) in *.
  assert (q0 < 64) by lia. assert (q1 < 16) by lia. assert (q2 < 4) by lia.
  assert (N.lor (N.shiftl r0 4) q1 = r0 * 16 + q1) as -> by by apply (lor_shiftl_add _ _ 4).
  assert (N.lor (N.shiftl r1 2) q2 = r1 * 4 + q2) as -> by by apply (lor_shiftl_add _ _ 2).
  split_and!; try lia. unfold decode_chunk. rewrite !N.shiftr_div_pow2.
  change (2 ^ 2) with 4. change (2 ^ 4) with 16.
  assert ((r0 * 16 + q1) / 16 = r0) as -> by (rewrite N.div_add_l, (N.div_small q1) by lia; lia).
  assert ((r1 * 4 + q2) / 4 = r1) as -> by (rewrite N.div_add_l, (N.div_small q2) by lia; lia).
  rewrite !u8_shl_lor by (lia || (change (2 ^ 2) with 4; change (2 ^ 4) with 16;
    change (2 ^ 6) with 64; lia)).
  rewrite (N.mod_small q0) by (change (2 ^ (8 - 2)) with 64; lia).
  assert ((r0 * 16 + q1) mod 2 ^ (8 - 4) = q1) as ->.
  { change (2 ^ (8 - 4)) with 16. rewrite N.add_comm, N.Div0.mod_add. by apply N.mod_small. }
  assert ((r1 * 4 + q2) mod 2 ^ (8 - 6) = q2) as ->.
  { change (2 ^ (8 - 6)) with 4. rewrite N.add_comm, N.Div0.mod_add. by apply N.mod_small. }
  change (2 ^ 2) with 4. change (2 ^ 4) with 16. change (2 ^ 6) with 64.
  f_equal; [lia|f_equal; [lia|f_equal; lia]].
Qed.

(** The last byte takes two characters, the second with four zero bits. *)
Lemma last_indices_spec b :
  b < 256 → N.shiftr b 2 < 64 ∧ N.shiftl (N.land b 3) 4 < 64 ∧
    N.land (N.shiftl (N.land b 3) 4) 15 = 0 ∧
    N.lor (u8_shl (N.shiftr b 2) 2) (N.shiftr (N.shiftl (N.land b 3) 4) 4) = b.
Proof.
  intros Hb. rewrite (land_mod _ 2 3), (land_mod _ 4 15) by done.
  rewrite !N.shiftr_div_pow2, !N.shiftl_mul_pow2. change (2 ^ 2) with 4. change (2 ^ 4) with 16.
  pose proof (N.div_mod' b 4) as E. pose proof (N.mod_lt b 4 ltac:(done)) as Hr.
  set (q := b / 4) in *. set (r := b mod 4) in *. assert (q < 64) by lia.
  rewrite N.Div0.mod_mul, N.div_mul by done. split_and!; try lia.
  rewrite u8_shl_lor by (lia || (change (2 ^ 2) with 4; lia)).
  rewrite (N.mod_small q) by (change (2 ^ (8 - 2)) with 64; lia). change (2 ^ 2) with 4. lia.
Qed.

(** ** Tokens read back *)
Definition token_indices (bytes : list N) : list N :=
  let last := default 0 (bytes !! 15%nat) in
  mjoin (chunk_indices <$> chunks3 (take 15 bytes)) ++
  [N.shiftr last 2; N.shiftl (N.land last 3) 4].

Lemma token_text_indices a :
  notification_attempt_token a = alphabet_char <$> token_indices (uuid_as_bytes (bval a)).
Proof.
  reflexivity.
Qed.

(** The indices of 16 bytes: 22 of them, all below 64, holding the bytes. *)
Lemma token_indices_spec bytes :
  length bytes = 16%nat → Forall (λ b, b < 256) bytes →
  ∃ v20 v21, let values := token_indices bytes in
    length values = 22%nat ∧ Forall (λ i, i < 64) values ∧
    values !! 20%nat = Some v20 ∧ values !! 21%nat = Some v21 ∧ N.land v21 15 = 0 ∧
    mjoin (decode_chunk <$> chunks4 (take 20 values)) ++
      [N.lor (u8_shl v20 2) (N.shiftr v21 4)] = bytes.
Proof.
  intros Hl Hb. do 16 (destruct bytes as [|? bytes]; [done|]). destruct bytes; [|done]. clear Hl.
  repeat match goal with H : Forall _ (_ :: _) |- _ => apply Forall_cons in H as [? H] end.
  unfold token_indices. cbn [take chunks3 fmap list_fmap mjoin list_join lookup list_lookup default].
  repeat match goal with |- context [chunk_indices (?a, ?b, ?c)] =>
    let Hc := fresh in let Hd := fresh in
    destruct (chunk_indices_spec a b c) as (? & ? & ? & ? & Hc & ? & ? & ? & ? & Hd); [done..|];
    rewrite Hc; clear Hc
  end.
  destruct (last_indices_spec n14 ltac:(done)) as (? & ? & ? & Hlast).
  eexists _, _. cbn zeta.
  cbn [take chunks4 fmap list_fmap mjoin list_join lookup list_lookup default app length].
  split_and!; try done.
  - repeat (apply Forall_cons; split; [done|]). done.
  - repeat match goal with H : decode_chunk _ = _ |- _ => rewrite H; clear H end.
    unfold id. by rewrite Hlast.
Qed.

Lemma uuid_as_bytes_spec u :
  length (uuid_as_bytes u) = 16%nat ∧ Forall (λ b, b < 256) (uuid_as_bytes u).
Proof.
  destruct (be_bytes_spec 16 (bval u) []) as (H1 & H2 & _); [|done|done].
  apply N.ltb_lt. exact (bok u).
Qed.

Lemma token_chars a : Forall (λ c, token_char c = true) (notification_attempt_token a).
Proof.
  rewrite token_text_indices.
  destruct (uuid_as_bytes_spec (bval a)) as [Hl Hb].
  destruct (token_indices_spec _ Hl Hb) as (? & ? & _ & Hi & _).
  apply Forall_fmap. eapply Forall_impl; [exact Hi|]. intros i Hlt. by apply alphabet_spec.
Qed.
Lemma token_char_ascii c : token_char c = true → c < 128.
Proof.
  unfold token_char, is_ascii_alphanumeric, is_ascii_digit, is_ascii_lowercase, is_ascii_uppercase,
    in_range. rewrite !orb_true_iff, !andb_true_iff, !N.leb_le, !N.eqb_eq. lia.
Qed.
Lemma token_length a : length (notification_attempt_token a) = 22%nat.
Proof. reflexivity. Qed.

(** Decoding a token gives the attempt it encodes. *)
Lemma token_round_trip a : parse_notification_attempt_token (notification_attempt_token a) = Some a.
Proof.
  unfold parse_notification_attempt_token.
  assert (Forall (λ c, c < 128) (notification_attempt_token a)) as Hascii.
  { eapply Forall_impl; [apply token_chars|]. apply token_char_ascii. }
  rewrite str_len_ascii, token_length by done.
  assert (forallb (λ c, c <? 128) (notification_attempt_token a) = true) as ->.
  { apply forallb_forall. intros c Hc%list_elem_of_In. apply N.ltb_lt.
    exact (Forall_elem _ _ _ Hascii Hc). }
  cbn [negb orb N.of_nat N.eqb Pos.eqb Pos.of_succ_nat].
  destruct (uuid_as_bytes_spec (bval a)) as [Hl Hb].
  destruct (token_indices_spec _ Hl Hb) as (v20 & v21 & _ & Hi & H20 & H21 & Hz & Hbytes).
  assert (mapM decode_attempt_character (notification_attempt_token a)
          = Some (token_indices (uuid_as_bytes (bval a)))) as ->.
  { rewrite token_text_indices. by apply decode_alphabet. }
  cbn [mbind option_bind]. rewrite H20, H21. cbn [mbind option_bind]. rewrite Hz, Hbytes.
  cbn [negb N.eqb]. rewrite uuid_bytes_round_trip. cbn [mbind option_bind].
  rewrite to_bsub_bval. cbn [mbind option_bind]. by rewrite bool_decide_eq_true_2.
Qed.

(** Only the canonical spelling of a token is accepted. *)
Lemma token_canonical s a :
  parse_notification_attempt_token s = Some a → notification_attempt_token a = s.
Proof.
  unfold parse_notification_attempt_token. destruct (_ || _); [done|].
  destruct (mapM _ _) as [values|]; [|done]. cbn [mbind option_bind].
  destruct (values !! 20%nat) as [v20|]; [|done]. cbn [mbind option_bind].
  destruct (values !! 21%nat) as [v21|]; [|done]. cbn [mbind option_bind].
  destruct (negb _); [done|]. destruct (uuid_from_bytes _) as [u|]; [|done]. cbn [mbind option_bind].
  destruct (to_bsub _ u) as [a'|]; [|done]. cbn [mbind option_bind].
  case_bool_decide; [|done]. by intros [= <-].
Qed.

(** ** Locators *)
Lemma locator_total a :
  notification_attempt_claim_locator a =
    Some (MkMessageId (NOTIFICATION_ATTEMPT_CLAIM_LOCATOR_PREFIX ++ notification_attempt_token a)).
Proof.
  unfold notification_attempt_claim_locator, message_id_new.
  change (strip_prefix MESSAGE_ID_PREFIX
    (NOTIFICATION_ATTEMPT_CLAIM_LOCATOR_PREFIX ++ notification_attempt_token a)) with (@None rstr).
  change (NOTIFICATION_ATTEMPT_CLAIM_LOCATOR_PREFIX ++ notification_attempt_token a)
    with (str "m-" ++ (str "att_" ++ notification_attempt_token a)).
  rewrite strip_prefix_app. cbn [ok_or].
  assert (forallb token_char (str "att_" ++ notification_attempt_token a) = true) as E.
  { rewrite forallb_app. apply andb_true_iff. split; [reflexivity|].
    apply forallb_forall. intros c Hc%list_elem_of_In. exact (Forall_elem _ _ _ (token_chars a) Hc). }
  unfold token_char in E. rewrite E. rewrite bool_decide_eq_false_2 by done. done.
Qed.

Lemma locator_round_trip a id :
  notification_attempt_claim_locator a = Some id →
  parse_notification_attempt_claim_locator id = Some a.
Proof.
  rewrite locator_total. intros H. assert (id = MkMessageId
    (NOTIFICATION_ATTEMPT_CLAIM_LOCATOR_PREFIX ++ notification_attempt_token a)) as -> by congruence.
  unfold parse_notification_attempt_claim_locator.
  cbn [mid_text]. rewrite strip_prefix_app. cbn [mbind option_bind].
  rewrite token_round_trip. cbn [mbind option_bind]. rewrite locator_total. cbn [mbind option_bind].
  by rewrite bool_decide_eq_true_2.
Qed.
Lemma locator_canonical id a :
  parse_notification_attempt_claim_locator id = Some a → notification_attempt_claim_locator a = Some id.
Proof.
  unfold parse_notification_attempt_claim_locator. destruct (strip_prefix _ _); [|done].
  cbn [mbind option_bind]. destruct (parse_notification_attempt_token _) as [b|]; [|done].
  cbn [mbind option_bind]. rewrite locator_total. cbn [mbind option_bind].
  case_bool_decide as E; [|done]. intros [= <-]. rewrite locator_total. f_equal.
  destruct id as [text]. cbn [mid_text] in E. by rewrite E.
Qed.

(** ** Doorbells *)
Definition render_legacy_doorbell (oldest_msg_id : MessageId) : rstr :=
  str "[cyclops] pending message " ++ mid_text oldest_msg_id ++
  str ": claim with 'cyclops inbox claim " ++ mid_text oldest_msg_id ++ str "'".

Lemma token_char_plain c : token_char c = true → c ≠ 10 ∧ c ≠ 32 ∧ is_whitespace c = false.
Proof.
  unfold token_char, is_ascii_alphanumeric, is_ascii_digit, is_ascii_lowercase, is_ascii_uppercase,
    in_range. rewrite !orb_true_iff, !andb_true_iff, !N.leb_le, !N.eqb_eq. intros H.
  split_and!; [lia..|]. unfold is_whitespace, in_range.
  rewrite !orb_false_iff, !andb_false_iff, !N.leb_gt, !N.eqb_neq. lia.
Qed.
Lemma lower_hex_token_char c : is_lower_hex c = true → token_char c = true.
Proof.
  unfold is_lower_hex, token_char, is_ascii_alphanumeric, is_ascii_digit, is_ascii_lowercase,
    is_ascii_uppercase, in_range. rewrite !orb_true_iff, !andb_true_iff, !N.leb_le, !N.eqb_eq. lia.
Qed.

(** A message id has neither spaces nor line breaks. *)
Lemma message_id_chars s id : message_id_new s = Ok id → Forall (λ c, token_char c = true) s.
Proof.
  unfold message_id_new. intros H. destruct (strip_prefix MESSAGE_ID_PREFIX s) as [parts|] eqn:Hp.
  - apply strip_prefix_Some in Hp as ->. apply Forall_app. split; [by repeat constructor|].
    destruct (split_once [45] parts) as [[t m]|] eqn:Hs; [|done].
    apply split_once_Some in Hs as ->.
    destruct (is_id_part t) eqn:Ht; [|done]. destruct (is_id_part m) eqn:Hm; [|done].
    repeat (apply Forall_app; split); [|by repeat constructor|];
      (eapply Forall_impl; [by apply is_id_part_chars|apply lower_hex_token_char]).
  - destruct (strip_prefix (str "m-") s) as [suffix|] eqn:Hm; [|done].
    apply strip_prefix_Some in Hm as ->. apply Forall_app. split; [by repeat constructor|].
    cbn [ok_or] in H. destruct (bool_decide _); [done|]. cbn [orb] in H.
    destruct (forallb _ suffix) eqn:Hf; [|done]. apply List.Forall_forall. by apply forallb_forall.
Qed.

Lemma strip_newline_spec s : 10 ∉ s → strip_newline s = s ∧ strip_newline (s ++ [10]) = s.
Proof.
  intros H. unfold strip_newline. split.
  - by rewrite strip_suffix_notin.
  - by rewrite (proj2 (strip_suffix_Some [10] (s ++ [10]) s)).
Qed.
Lemma plain_no_newline s : Forall (λ c, token_char c = true) s → 10 ∉ s.
Proof. intros H Hin. by destruct (token_char_plain _ (Forall_elem _ _ _ H Hin)). Qed.

(** A format 2 doorbell names exactly one message and one attempt: with
    or without the trailing newline the hook sees, it parses back to the
    message and the attempt it was rendered for. *)
Theorem doorbell_v2_round_trip id a :
  message_id_new (mid_text id) = Ok id →
  parse_doorbell_v2 (render_doorbell_v2 id a) = Some (id, a) ∧
  parse_doorbell_v2 (render_doorbell_v2 id a ++ [10]) = Some (id, a).
Proof.
  intros Hid. pose proof (message_id_chars _ _ Hid) as Hc. pose proof (token_chars a) as Ht.
  assert (10 ∉ render_doorbell_v2 id a) as Hn.
  { unfold render_doorbell_v2. rewrite !not_elem_of_app. split_and!;
      [by vm_compute; set_solver|by apply plain_no_newline|by vm_compute; set_solver
      |by apply plain_no_newline]. }
  destruct (strip_newline_spec _ Hn) as [E1 E2].
  unfold parse_doorbell_v2. rewrite E1, E2. unfold render_doorbell_v2.
  rewrite strip_prefix_app. cbn [mbind option_bind].
  assert (split_once (str " #c:") (mid_text id ++ str " #c:" ++ notification_attempt_token a)
          = Some (mid_text id, notification_attempt_token a)) as ->.
  { apply (split_once_first 32 (str "#c:")). intros Hin.
    by destruct (token_char_plain _ (Forall_elem _ _ _ Hc Hin)) as (_ & ? & _). }
  cbn [mbind option_bind].
  assert (existsb is_whitespace (notification_attempt_token a) = false) as ->.
  { apply not_true_iff_false. rewrite existsb_exists. intros (c & Hin%list_elem_of_In & Hw).
    destruct (token_char_plain _ (Forall_elem _ _ _ Ht Hin)) as (_ & _ & ?). congruence. }
  rewrite Hid, token_round_trip. done.
Qed.

Lemma locator_text_chars a :
  Forall (λ c, token_char c = true)
    (NOTIFICATION_ATTEMPT_CLAIM_LOCATOR_PREFIX ++ notification_attempt_token a).
Proof. apply Forall_app. split; [by repeat constructor|apply token_chars]. Qed.

Lemma parse_v3_command a text :
  strip_newline text = CLAIM_COMMAND ++ NOTIFICATION_ATTEMPT_CLAIM_LOCATOR_PREFIX ++
                       notification_attempt_token a ∨
  strip_newline text = CLAIM_COMMAND ++ (NOTIFICATION_ATTEMPT_CLAIM_LOCATOR_PREFIX ++
                       notification_attempt_token a) ++ str " --json" →
  parse_doorbell_v3 text = Some a.
Proof.
  set (locator := NOTIFICATION_ATTEMPT_CLAIM_LOCATOR_PREFIX ++ notification_attempt_token a).
  intros H. unfold parse_doorbell_v3.
  assert (∃ rest, strip_prefix CLAIM_COMMAND (strip_newline text) = Some rest ∧
    default rest (strip_suffix (str " --json") rest) = locator) as (rest & -> & Hrest).
  { destruct H as [-> | ->]; rewrite strip_prefix_app; eexists; (split; [reflexivity|]).
    - destruct (strip_suffix (str " --json") locator) as [r|] eqn:E; [|done].
      apply strip_suffix_Some in E. exfalso.
      assert (32 ∈ locator) as Hin by (rewrite E; apply elem_of_app; right; by left).
      by destruct (token_char_plain _ (Forall_elem _ _ _ (locator_text_chars a) Hin)) as (_ & ? & _).
    - by rewrite (proj2 (strip_suffix_Some (str " --json") _ locator)). }
  cbn [mbind option_bind]. rewrite Hrest.
  pose proof (locator_total a) as Ht. unfold notification_attempt_claim_locator in Ht. fold locator in Ht.
  rewrite Ht. cbn [mbind option_bind]. apply locator_round_trip. unfold locator. apply locator_total.
Qed.

(** Every attempt has a format 3 command and it names that attempt: it
    parses back with or without [--json] and the trailing newline; and a format
    4 doorbell ends, after its header and summary, in exactly that command. *)
Theorem doorbell_v3_round_trip a :
  ∃ command, render_doorbell_v3 a = Some command ∧
    (∀ tail, tail ∈ [[]; [10]; str " --json"; str " --json" ++ [10]] →
       parse_doorbell_v3 (command ++ tail) = Some a) ∧
    ∀ sender recipients summary, ∃ header,
      render_doorbell_v4 sender recipients summary a = Some (header ++ str " | " ++ command).
Proof.
  set (locator := NOTIFICATION_ATTEMPT_CLAIM_LOCATOR_PREFIX ++ notification_attempt_token a).
  exists (CLAIM_COMMAND ++ locator).
  assert (render_doorbell_v3 a = Some (CLAIM_COMMAND ++ locator)) as Hr.
  { unfold render_doorbell_v3. by rewrite locator_total. }
  assert (10 ∉ CLAIM_COMMAND ++ locator) as Hn.
  { rewrite not_elem_of_app. split; [by vm_compute; set_solver|].
    apply plain_no_newline, locator_text_chars. }
  assert (10 ∉ CLAIM_COMMAND ++ locator ++ str " --json") as Hj.
  { rewrite app_assoc, not_elem_of_app. split; [done|by vm_compute; set_solver]. }
  destruct (strip_newline_spec _ Hn) as [E1 E2]. destruct (strip_newline_spec _ Hj) as [E3 E4].
  split_and!; [done| |].
  - intros tail Ht. apply parse_v3_command. fold locator.
    repeat (apply elem_of_cons in Ht as [-> |Ht]); [left|left|right|right|by apply not_elem_of_nil in Ht].
    + by rewrite app_nil_r.
    + done.
    + by rewrite <-app_assoc.
    + by rewrite <-!app_assoc, !app_assoc, <-(app_assoc CLAIM_COMMAND).
  - intros sender recipients summary. unfold render_doorbell_v4. rewrite Hr. cbn [mbind option_bind].
    exists (str "[cyclops from " ++ sender ++ str " to " ++ recipients ++ str "] " ++ summary).
    by rewrite <-!app_assoc.
Qed.

(** Claim locators: every attempt has one, it is a valid message id, it
    decodes to that attempt and to no other, and no minted [cyc-] id and no
    legacy hexadecimal [m-] id is one. *)
Theorem claim_locators_exact :
  (∀ a, ∃ id, notification_attempt_claim_locator a = Some id ∧ message_id_new (mid_text id) = Ok id) ∧
  (∀ id a, parse_notification_attempt_claim_locator id = Some a ↔
           notification_attempt_claim_locator a = Some id) ∧
  (∀ id parts, message_id_parts id = Some parts →
     parse_notification_attempt_claim_locator id = None) ∧
  (∀ hex, Forall (λ c, is_lower_hex c = true) hex →
     parse_notification_attempt_claim_locator (MkMessageId (str "m-" ++ hex)) = None).
Proof.
  split_and!.
  - intros a. eexists. split; [apply locator_total|]. cbn [mid_text].
    pose proof (locator_total a) as H. unfold notification_attempt_claim_locator in H.
    destruct (message_id_new _) as [id|] eqn:E; [|done]. cbn [result_ok] in H.
    assert (id = MkMessageId (NOTIFICATION_ATTEMPT_CLAIM_LOCATOR_PREFIX ++ notification_attempt_token a))
      as -> by congruence. done.
  - intros id a. split; [apply locator_canonical|apply locator_round_trip].
  - intros [text] parts. unfold message_id_parts, parse_notification_attempt_claim_locator.
    cbn [mid_text]. destruct (strip_prefix MESSAGE_ID_PREFIX text) as [r|] eqn:E; [|done].
    apply strip_prefix_Some in E as ->. done.
  - intros hex Hh. unfold parse_notification_attempt_claim_locator. cbn [mid_text].
    destruct (strip_prefix _ (str "m-" ++ hex)) as [r|] eqn:E; [|done].
    apply strip_prefix_Some in E.
    change (str "m-" ++ hex = str "m-" ++ (str "att_" ++ r)) in E. apply app_inj_1 in E as [_ ->]; [|done].
    apply Forall_app in Hh as [Hh _]. apply Forall_cons in Hh as [_ Hh].
    by apply Forall_cons in Hh as [? _].
Qed.
