(* ===== verification/Facts.v ===== *)
(** * Journal facts

    The mailbox entry of [src/cyclops-proto/src/mailbox.rs] and the facts the
    workspace journal stores about mailboxes and notifications
    ([mailbox.rs], [notification.rs]), with the interface to [serde_json]
    that turns a row's [data] into them and back. *)
From S2P Require Import Prelude Text Identity Ledger Mailbox Notification.
Local Open Scope N_scope.

(** ** Mailbox entries *)
Inductive MailboxEntryState :=
| Pending
| Claimed (claimant : RecipientKey) (claimed_at : N)
| DeliveredDirect (attempt_id : NotificationAttemptId) (delivered_at : N)
| EntrySuperseded (by_id : MessageId) (superseded_at : N).
#[export] Instance MailboxEntryState_eq_dec : EqDecision MailboxEntryState.
Proof. solve_decision. Defined.

Definition is_pending (s : MailboxEntryState) : bool :=
  match s with Pending => true | _ => false end.
Definition is_claimed (s : MailboxEntryState) : bool :=
  match s with Claimed _ _ => true | _ => false end.
Definition entry_claimant (s : MailboxEntryState) : option RecipientKey :=
  match s with
  | Pending | DeliveredDirect _ _ | EntrySuperseded _ _ => None
  | Claimed claimant _ => Some claimant
  end.

Record MailboxEntry := MkEntry {
  me_message_id : MessageId;
  me_recipient : RecipientKey;
  me_state : MailboxEntryState;
  me_seq : N;
  me_created_at : N;
}.
#[export] Instance MailboxEntry_eq_dec : EqDecision MailboxEntry.
Proof. solve_decision. Defined.
Definition set_entry_state (s : MailboxEntryState) (e : MailboxEntry) : MailboxEntry :=
  MkEntry (me_message_id e) (me_recipient e) s (me_seq e) (me_created_at e).

(** ** Facts *)
Inductive MailboxFact :=
| MessageClaimed (record_version : N) (message_id : MessageId)
    (recipient claimant : RecipientKey)
| MessageDeliveredDirect (record_version : N) (message_id : MessageId)
    (recipient : RecipientKey) (attempt_id : NotificationAttemptId).

(** The fields of a [notification_transition] fact. *)
Record NotificationTransitionFact := MkTransition {
  tf_record_version : N;
  tf_attempt_id : NotificationAttemptId;
  tf_message_id : MessageId;
  tf_recipient : RecipientKey;
  tf_state : NotificationState;
  tf_binding : option NotificationBinding;
  tf_transport : option NotificationTransport;
  tf_doorbell_format : option N;
  tf_cause : option NotificationAttentionCause;
  tf_verified_by : option VerifiedBy;
  tf_verify_outcome : option NotificationVerifyOutcome;
  tf_pre_write_cause : option NotificationPreWriteCause;
  tf_wake_block : option MessageWakeBlock;
  tf_pre_write_observation : option NotificationPreWriteObservation;
}.

(** Most other facts name one attempt of one recipient's message. *)
Record AttemptRef := MkAttemptRef {
  ar_record_version : N;
  ar_attempt_id : NotificationAttemptId;
  ar_message_id : MessageId;
  ar_recipient : RecipientKey;
}.

Inductive NotificationFact :=
| NotificationTransition (t : NotificationTransitionFact)
| NotificationUnclaimedReminderQueued (a : AttemptRef)
| NotificationRequeued (prior_attempt_id : NotificationAttemptId) (a : AttemptRef)
| NotificationsRequeued (record_version : N) (message_id : MessageId)
    (requeues : list NotificationRequeue)
| NotificationCleared (a : AttemptRef)
| NotificationsCleared (record_version : N) (batch_id : rstr)
    (attempt_ids : list NotificationAttemptId) (operator : RecipientKey) (cutoff_ms : option N)
| NotificationWithdrawnBeforeWrite (a : AttemptRef) (operator : RecipientKey)
| NotificationResolutionIntent (a : AttemptRef) (resolution : NotificationResolution)
    (forced : bool)
| NotificationResolutionActionReserved (a : AttemptRef) (resolution : NotificationResolution)
| NotificationResolutionActionAccepted (a : AttemptRef) (resolution : NotificationResolution)
| NotificationResolutionConsumptionObserved (a : AttemptRef)
    (evidence : NotificationResolutionConsumptionEvidence) (observed_at_ms : N)
| NotificationResolutionIntentWithdrawn (a : AttemptRef) (resolution : NotificationResolution)
| NotificationResolvedWithoutTerminalAction (a : AttemptRef)
    (resolution : NotificationResolution)
| NotificationResolved (proof_version : N) (a : AttemptRef) (resolution : NotificationResolution)
| NotificationClaimedStagedCleared (a : AttemptRef)
| NotificationClaimedAckTimeoutReconciled (a : AttemptRef)
| NotificationBarrierRetired (a : AttemptRef) (cause : NotificationBarrierRetirementCause)
    (replacement : option NotificationBinding).

(** The serde tags: [#[serde(tag = "type", rename_all = "snake_case")]]. *)
Definition mailbox_fact_tag (f : MailboxFact) : rstr :=
  match f with
  | MessageClaimed _ _ _ _ => str "message_claimed"
  | MessageDeliveredDirect _ _ _ _ => str "message_delivered_direct"
  end.
Definition notification_fact_tag (f : NotificationFact) : rstr :=
  match f with
  | NotificationTransition _ => str "notification_transition"
  | NotificationUnclaimedReminderQueued _ => str "notification_unclaimed_reminder_queued"
  | NotificationRequeued _ _ => str "notification_requeued"
  | NotificationsRequeued _ _ _ => str "notifications_requeued"
  | NotificationCleared _ => str "notification_cleared"
  | NotificationsCleared _ _ _ _ _ => str "notifications_cleared"
  | NotificationWithdrawnBeforeWrite _ _ => str "notification_withdrawn_before_write"
  | NotificationResolutionIntent _ _ _ => str "notification_resolution_intent"
  | NotificationResolutionActionReserved _ _ => str "notification_resolution_action_reserved"
  | NotificationResolutionActionAccepted _ _ => str "notification_resolution_action_accepted"
  | NotificationResolutionConsumptionObserved _ _ _ =>
      str "notification_resolution_consumption_observed"
  | NotificationResolutionIntentWithdrawn _ _ => str "notification_resolution_intent_withdrawn"
  | NotificationResolvedWithoutTerminalAction _ _ =>
      str "notification_resolved_without_terminal_action"
  | NotificationResolved _ _ _ => str "notification_resolved"
  | NotificationClaimedStagedCleared _ => str "notification_claimed_staged_cleared"
  | NotificationClaimedAckTimeoutReconciled _ => str "notification_claimed_ack_timeout_reconciled"
  | NotificationBarrierRetired _ _ _ => str "notification_barrier_retired"
  end.

(** ** JSON

    What the code uses of [serde_json]: a string member of an object
    ([value.get(key).and_then(Value::as_str)]), and the conversions of the
    three payload types.  An error is its text. *)
Class Serde (V : Type) := {
  value_str : V → rstr → option rstr;
  metadata_from_value : V → result rstr MessageMetadata;
  metadata_to_value : MessageMetadata → result rstr V;
  mailbox_fact_from_value : V → result rstr MailboxFact;
  mailbox_fact_to_value : MailboxFact → result rstr V;
  notification_fact_from_value : V → result rstr NotificationFact;
  notification_fact_to_value : NotificationFact → result rstr V;
}.

Definition value_type `{!Serde V} (v : V) : option rstr := value_str v (str "type").

(** Deserialising what the derive macros serialised gives the value back, and
    an internally tagged enum stores its variant's name under [type].  The
    laws are for valid message ids, which decoding checks again. *)
Definition message_id_valid (id : MessageId) : Prop := message_id_new (mid_text id) = Ok id.
Definition mailbox_fact_message (f : MailboxFact) : MessageId :=
  match f with MessageClaimed _ id _ _ | MessageDeliveredDirect _ id _ _ => id end.
Definition notification_fact_message (f : NotificationFact) : option MessageId :=
  match f with
  | NotificationTransition t => Some (tf_message_id t)
  | NotificationsRequeued _ id _ => Some id
  | NotificationsCleared _ _ _ _ _ => None
  | NotificationUnclaimedReminderQueued a | NotificationRequeued _ a | NotificationCleared a
  | NotificationWithdrawnBeforeWrite a _ | NotificationResolutionIntent a _ _
  | NotificationResolutionActionReserved a _ | NotificationResolutionActionAccepted a _
  | NotificationResolutionConsumptionObserved a _ _ | NotificationResolutionIntentWithdrawn a _
  | NotificationResolvedWithoutTerminalAction a _ | NotificationResolved _ a _
  | NotificationClaimedStagedCleared a | NotificationClaimedAckTimeoutReconciled a
  | NotificationBarrierRetired a _ _ => Some (ar_message_id a)
  end.
Definition metadata_ids_valid (m : MessageMetadata) : Prop :=
  message_id_new (mid_text (md_thread_root m)) = Ok (md_thread_root m) ∧
  (∀ s, md_supersedes m = Some s → message_id_new (mid_text s) = Ok s) ∧
  request_digest_parse (digest_text (md_request_digest m)) = Ok (md_request_digest m).
Class SerdeLaws (V : Type) {serde : Serde V} := {
  metadata_to_from m v : metadata_ids_valid m → metadata_to_value m = Ok v →
    metadata_from_value v = Ok m;
  mailbox_to_from f v : message_id_valid (mailbox_fact_message f) → mailbox_fact_to_value f = Ok v →
    mailbox_fact_from_value v = Ok f;
  notification_to_from f v :
    (∀ id, notification_fact_message f = Some id → message_id_valid id) →
    notification_fact_to_value f = Ok v → notification_fact_from_value v = Ok f;
  mailbox_to_tag f v : mailbox_fact_to_value f = Ok v → value_type v = Some (mailbox_fact_tag f);
  notification_to_tag f v : notification_fact_to_value f = Ok v →
    value_type v = Some (notification_fact_tag f);
}.

(** * Mailbox errors

    [MailboxError] of [src/cyclopsd/src/mailbox/projection.rs].  Payloads the
    code renders with [Debug] into display text are kept unrendered. *)

Inductive PresentationValue := PText (t : rstr) | PList (l : list rstr).

Inductive MailboxError :=
| MessageNotFound (id : MessageId)
| ReplyNotVisible (reply_to : MessageId) (sender : RecipientKey)
| ReplyRecipientMismatch (message_id : MessageId) (expected : RecipientKey)
| ReplySubjectMismatch (message_id : MessageId)
| ReplyKindMismatch (message_id : MessageId)
| ThreadRootMismatch (message_id expected found : MessageId)
| EntryNotFound (message_id : MessageId) (recipient : RecipientKey)
| AlreadyClaimed (message_id : MessageId) (recipient existing_claimant : RecipientKey)
| ClaimantMismatch (message_id : MessageId) (recipient claimant : RecipientKey)
| EnvelopeMismatch (envelope_id : rstr) (fact_id : MessageId)
| DuplicateMessageId (id : MessageId)
| NonContiguousSequence (expected found : N)
| DuplicateIdempotencyKey (sender : RecipientKey) (key : rstr) (existing_id : MessageId)
| DraftEmptyRecipients
| DraftDuplicateRecipient (recipient : RecipientKey)
| EmptyRecipients (message_id : MessageId)
| DuplicateRecipient (message_id : MessageId) (recipient : RecipientKey)
| EmptyClientKey
| SupersessionRequiresSingleRecipient
| SupersessionNotPending (id : MessageId)
| SupersessionNotificationStarted (id : MessageId)
| MessageNotPending (id : MessageId)
| SupersessionIdentityMismatch (id : MessageId)
| ReplySupersessionConflict
| InvalidPresentation (text : rstr)
| InvalidKind (kind : Kind)
| WorkspaceMismatch (expected found : WorkspaceId)
| InvalidCursor (cursor head : N)
| InvalidRecordVersion (expected found : N)
| UncanonicalRow (text : rstr)
| PresentationMismatch (field : rstr) (presentation authoritative : PresentationValue)
| DigestMismatch (stored computed : RequestDigest)
| MissingMetadata (id : rstr)
| InvalidFact (text : rstr)
| NotificationNotFound (message_id : MessageId) (recipient : RecipientKey)
| NotificationMessageNotPending (message_id : MessageId) (recipient : RecipientKey)
| DirectDeliveryNotProven (attempt_id : NotificationAttemptId)
| NotificationAttemptReused (attempt_id : NotificationAttemptId)
| NotificationAttemptMismatch (expected found : NotificationAttemptId)
| InvalidNotificationTransition (from to : NotificationState)
| NotificationBindingRequired
| NotificationBindingForbidden
| NotificationVerifiedByForbidden
| NotificationBindingMismatch
| NotificationTransportForbidden
| NotificationDoorbellFormatForbidden
| UnsupportedNotificationDoorbellFormat (format : N)
| NotificationCauseRequired
| NotificationCauseForbidden
| NotificationVerifyOutcomeRequired
| NotificationVerifyOutcomeForbidden
| NotificationPreWriteCauseRequired
| NotificationPreWriteObservationRequired
| NotificationPaneWidthNotNarrow (observed required : N)
| NotificationPreWriteReopenExhausted
| NotificationPreWriteCauseForbidden
| InvalidNotificationCause (cause : NotificationAttentionCause) (state : NotificationState)
| NotificationRecipientNotAgent
| NotificationRequeueRequiresAttention
| NotificationClearRequiresAttention
| NotificationNewerThanClearCutoff (attempt_id : NotificationAttemptId) (updated_at cutoff_ms : N)
| NotificationClearOperatorInvalid
| NotificationWithdrawalRequiresPreWrite
| NotificationWithdrawalOperatorInvalid
| NotificationWithdrawalRecipientMismatch (expected found : RecipientKey)
| NotificationAttemptUnknown (attempt_id : NotificationAttemptId)
| NotificationAttemptClaimLocatorConflict (locator : MessageId)
| NotificationAlreadyResolved (attempt_id : NotificationAttemptId)
| NotificationResolutionAmbiguous (attempt_id : NotificationAttemptId)
| NotificationBarrierNotActive (attempt_id : NotificationAttemptId)
| NotificationBarrierReplacementRequired
| NotificationBarrierReplacementForbidden
| NotificationBarrierReplacementUnchanged
| NotificationBarrierRetirementState (cause : NotificationBarrierRetirementCause)
    (state : NotificationState)
| InvalidNotificationFact (text : rstr)
| TypeError (error : MailboxTypeError).
