(* ===== verification/Projection.v ===== *)
(** * The mailbox projection

    [MailboxProjection] of [src/cyclopsd/src/mailbox/projection.rs]: the
    in-memory state rebuilt from the workspace journal.  One row is validated
    against the current state by a [prepare_*] function, which yields a
    [PreparedMutation] or an error and changes nothing; [commit_line] then
    applies the mutation.  [commit_line] returns [None] where the code would
    panic ([expect], an index out of range); [Invariant.v] shows that it does
    not.  A [HashMap] is a [gmap], a [HashSet] a [gset], a [BTreeMap<u64, _>]
    a [gmap N _] read in key order. *)
From S2P Require Import Prelude Text Identity Ledger Mailbox Notification Facts.
Local Open Scope N_scope.
Local Open Scope rust_scope.

(** ** State *)
Record MailboxProjection {V : Type} := MkProjection {
  workspace_id : WorkspaceId;
  last_workspace_seq : option N;
  messages : gmap MessageId (LedgerLine V);
  idempotency_index : gmap (RecipientKey * rstr) (MessageId * RequestDigest);
  mailboxes : gmap RecipientKey (gmap N MailboxEntry);
  mailbox_index : gmap (RecipientKey * MessageId) N;
  notifications : gmap (RecipientKey * MessageId) NotificationRecord;
  active_notification_barriers : gmap NotificationAttemptId NotificationRecord;
  claimed_ack_timeout_reconciliations : gset NotificationAttemptId;
  notification_attempts : gset NotificationAttemptId;
  cleared_attempts : gset NotificationAttemptId;
  clearance_batches : gset rstr;
  resolved_attempts : gmap NotificationAttemptId NotificationResolution;
  resolution_intents : gmap NotificationAttemptId NotificationResolution;
  forced_resolution_intents : gset NotificationAttemptId;
  resolution_action_reservations : gmap NotificationAttemptId NotificationResolution;
  resolution_action_reservation_sequences : gmap NotificationAttemptId N;
  resolution_actions_accepted : gmap NotificationAttemptId NotificationResolution;
  resolution_action_sequences : gmap NotificationAttemptId N;
  claim_sequences : gmap (RecipientKey * MessageId) N;
  notification_write_sequences : gmap NotificationAttemptId N;
  resolution_consumptions : gmap NotificationAttemptId NotificationResolutionConsumptionObservation;
}.
Arguments MailboxProjection : clear implicits.
Arguments MkProjection {V}.

(** Field assignment. *)
Definition set_last_workspace_seq {V : Type} (x : option N) (p : MailboxProjection V) : MailboxProjection V :=
  MkProjection (workspace_id p) x (messages p) (idempotency_index p) (mailboxes p)
    (mailbox_index p) (notifications p) (active_notification_barriers p)
    (claimed_ack_timeout_reconciliations p) (notification_attempts p) (cleared_attempts p)
    (clearance_batches p) (resolved_attempts p) (resolution_intents p)
    (forced_resolution_intents p) (resolution_action_reservations p)
    (resolution_action_reservation_sequences p) (resolution_actions_accepted p)
    (resolution_action_sequences p) (claim_sequences p) (notification_write_sequences p)
    (resolution_consumptions p).
Definition set_messages {V : Type} (x : gmap MessageId (LedgerLine V)) (p : MailboxProjection V) : MailboxProjection V :=
  MkProjection (workspace_id p) (last_workspace_seq p) x (idempotency_index p) (mailboxes p)
    (mailbox_index p) (notifications p) (active_notification_barriers p)
    (claimed_ack_timeout_reconciliations p) (notification_attempts p) (cleared_attempts p)
    (clearance_batches p) (resolved_attempts p) (resolution_intents p)
    (forced_resolution_intents p) (resolution_action_reservations p)
    (resolution_action_reservation_sequences p) (resolution_actions_accepted p)
    (resolution_action_sequences p) (claim_sequences p) (notification_write_sequences p)
    (resolution_consumptions p).
Definition set_idempotency_index {V : Type} (x : gmap (RecipientKey * rstr) (MessageId * RequestDigest)) (p : MailboxProjection V) : MailboxProjection V :=
  MkProjection (workspace_id p) (last_workspace_seq p) (messages p) x (mailboxes p)
    (mailbox_index p) (notifications p) (active_notification_barriers p)
    (claimed_ack_timeout_reconciliations p) (notification_attempts p) (cleared_attempts p)
    (clearance_batches p) (resolved_attempts p) (resolution_intents p)
    (forced_resolution_intents p) (resolution_action_reservations p)
    (resolution_action_reservation_sequences p) (resolution_actions_accepted p)
    (resolution_action_sequences p) (claim_sequences p) (notification_write_sequences p)
    (resolution_consumptions p).
Definition set_mailboxes {V : Type} (x : gmap RecipientKey (gmap N MailboxEntry)) (p : MailboxProjection V) : MailboxProjection V :=
  MkProjection (workspace_id p) (last_workspace_seq p) (messages p) (idempotency_index p) x
    (mailbox_index p) (notifications p) (active_notification_barriers p)
    (claimed_ack_timeout_reconciliations p) (notification_attempts p) (cleared_attempts p)
    (clearance_batches p) (resolved_attempts p) (resolution_intents p)
    (forced_resolution_intents p) (resolution_action_reservations p)
    (resolution_action_reservation_sequences p) (resolution_actions_accepted p)
    (resolution_action_sequences p) (claim_sequences p) (notification_write_sequences p)
    (resolution_consumptions p).
Definition set_mailbox_index {V : Type} (x : gmap (RecipientKey * MessageId) N) (p : MailboxProjection V) : MailboxProjection V :=
  MkProjection (workspace_id p) (last_workspace_seq p) (messages p) (idempotency_index p)
    (mailboxes p) x (notifications p) (active_notification_barriers p)
    (claimed_ack_timeout_reconciliations p) (notification_attempts p) (cleared_attempts p)
    (clearance_batches p) (resolved_attempts p) (resolution_intents p)
    (forced_resolution_intents p) (resolution_action_reservations p)
    (resolution_action_reservation_sequences p) (resolution_actions_accepted p)
    (resolution_action_sequences p) (claim_sequences p) (notification_write_sequences p)
    (resolution_consumptions p).
Definition set_notifications {V : Type} (x : gmap (RecipientKey * MessageId) NotificationRecord) (p : MailboxProjection V) : MailboxProjection V :=
  MkProjection (workspace_id p) (last_workspace_seq p) (messages p) (idempotency_index p)
    (mailboxes p) (mailbox_index p) x (active_notification_barriers p)
    (claimed_ack_timeout_reconciliations p) (notification_attempts p) (cleared_attempts p)
    (clearance_batches p) (resolved_attempts p) (resolution_intents p)
    (forced_resolution_intents p) (resolution_action_reservations p)
    (resolution_action_reservation_sequences p) (resolution_actions_accepted p)
    (resolution_action_sequences p) (claim_sequences p) (notification_write_sequences p)
    (resolution_consumptions p).
Definition set_active_notification_barriers {V : Type} (x : gmap NotificationAttemptId NotificationRecord) (p : MailboxProjection V) : MailboxProjection V :=
  MkProjection (workspace_id p) (last_workspace_seq p) (messages p) (idempotency_index p)
    (mailboxes p) (mailbox_index p) (notifications p) x (claimed_ack_timeout_reconciliations p)
    (notification_attempts p) (cleared_attempts p) (clearance_batches p) (resolved_attempts p)
    (resolution_intents p) (forced_resolution_intents p) (resolution_action_reservations p)
    (resolution_action_reservation_sequences p) (resolution_actions_accepted p)
    (resolution_action_sequences p) (claim_sequences p) (notification_write_sequences p)
    (resolution_consumptions p).
Definition set_claimed_ack_timeout_reconciliations {V : Type} (x : gset NotificationAttemptId) (p : MailboxProjection V) : MailboxProjection V :=
  MkProjection (workspace_id p) (last_workspace_seq p) (messages p) (idempotency_index p)
    (mailboxes p) (mailbox_index p) (notifications p) (active_notification_barriers p) x
    (notification_attempts p) (cleared_attempts p) (clearance_batches p) (resolved_attempts p)
    (resolution_intents p) (forced_resolution_intents p) (resolution_action_reservations p)
    (resolution_action_reservation_sequences p) (resolution_actions_accepted p)
    (resolution_action_sequences p) (claim_sequences p) (notification_write_sequences p)
    (resolution_consumptions p).
Definition set_notification_attempts {V : Type} (x : gset NotificationAttemptId) (p : MailboxProjection V) : MailboxProjection V :=
  MkProjection (workspace_id p) (last_workspace_seq p) (messages p) (idempotency_index p)
    (mailboxes p) (mailbox_index p) (notifications p) (active_notification_barriers p)
    (claimed_ack_timeout_reconciliations p) x (cleared_attempts p) (clearance_batches p)
    (resolved_attempts p) (resolution_intents p) (forced_resolution_intents p)
    (resolution_action_reservations p) (resolution_action_reservation_sequences p)
    (resolution_actions_accepted p) (resolution_action_sequences p) (claim_sequences p)
    (notification_write_sequences p) (resolution_consumptions p).
Definition set_cleared_attempts {V : Type} (x : gset NotificationAttemptId) (p : MailboxProjection V) : MailboxProjection V :=
  MkProjection (workspace_id p) (last_workspace_seq p) (messages p) (idempotency_index p)
    (mailboxes p) (mailbox_index p) (notifications p) (active_notification_barriers p)
    (claimed_ack_timeout_reconciliations p) (notification_attempts p) x (clearance_batches p)
    (resolved_attempts p) (resolution_intents p) (forced_resolution_intents p)
    (resolution_action_reservations p) (resolution_action_reservation_sequences p)
    (resolution_actions_accepted p) (resolution_action_sequences p) (claim_sequences p)
    (notification_write_sequences p) (resolution_consumptions p).
Definition set_clearance_batches {V : Type} (x : gset rstr) (p : MailboxProjection V) : MailboxProjection V :=
  MkProjection (workspace_id p) (last_workspace_seq p) (messages p) (idempotency_index p)
    (mailboxes p) (mailbox_index p) (notifications p) (active_notification_barriers p)
    (claimed_ack_timeout_reconciliations p) (notification_attempts p) (cleared_attempts p) x
    (resolved_attempts p) (resolution_intents p) (forced_resolution_intents p)
    (resolution_action_reservations p) (resolution_action_reservation_sequences p)
    (resolution_actions_accepted p) (resolution_action_sequences p) (claim_sequences p)
    (notification_write_sequences p) (resolution_consumptions p).
Definition set_resolved_attempts {V : Type} (x : gmap NotificationAttemptId NotificationResolution) (p : MailboxProjection V) : MailboxProjection V :=
  MkProjection (workspace_id p) (last_workspace_seq p) (messages p) (idempotency_index p)
    (mailboxes p) (mailbox_index p) (notifications p) (active_notification_barriers p)
    (claimed_ack_timeout_reconciliations p) (notification_attempts p) (cleared_attempts p)
    (clearance_batches p) x (resolution_intents p) (forced_resolution_intents p)
    (resolution_action_reservations p) (resolution_action_reservation_sequences p)
    (resolution_actions_accepted p) (resolution_action_sequences p) (claim_sequences p)
    (notification_write_sequences p) (resolution_consumptions p).
Definition set_resolution_intents {V : Type} (x : gmap NotificationAttemptId NotificationResolution) (p : MailboxProjection V) : MailboxProjection V :=
  MkProjection (workspace_id p) (last_workspace_seq p) (messages p) (idempotency_index p)
    (mailboxes p) (mailbox_index p) (notifications p) (active_notification_barriers p)
    (claimed_ack_timeout_reconciliations p) (notification_attempts p) (cleared_attempts p)
    (clearance_batches p) (resolved_attempts p) x (forced_resolution_intents p)
    (resolution_action_reservations p) (resolution_action_reservation_sequences p)
    (resolution_actions_accepted p) (resolution_action_sequences p) (claim_sequences p)
    (notification_write_sequences p) (resolution_consumptions p).
Definition set_forced_resolution_intents {V : Type} (x : gset NotificationAttemptId) (p : MailboxProjection V) : MailboxProjection V :=
  MkProjection (workspace_id p) (last_workspace_seq p) (messages p) (idempotency_index p)
    (mailboxes p) (mailbox_index p) (notifications p) (active_notification_barriers p)
    (claimed_ack_timeout_reconciliations p) (notification_attempts p) (cleared_attempts p)
    (clearance_batches p) (resolved_attempts p) (resolution_intents p) x
    (resolution_action_reservations p) (resolution_action_reservation_sequences p)
    (resolution_actions_accepted p) (resolution_action_sequences p) (claim_sequences p)
    (notification_write_sequences p) (resolution_consumptions p).
Definition set_resolution_action_reservations {V : Type} (x : gmap NotificationAttemptId NotificationResolution) (p : MailboxProjection V) : MailboxProjection V :=
  MkProjection (workspace_id p) (last_workspace_seq p) (messages p) (idempotency_index p)
    (mailboxes p) (mailbox_index p) (notifications p) (active_notification_barriers p)
    (claimed_ack_timeout_reconciliations p) (notification_attempts p) (cleared_attempts p)
    (clearance_batches p) (resolved_attempts p) (resolution_intents p)
    (forced_resolution_intents p) x (resolution_action_reservation_sequences p)
    (resolution_actions_accepted p) (resolution_action_sequences p) (claim_sequences p)
    (notification_write_sequences p) (resolution_consumptions p).
Definition set_resolution_action_reservation_sequences {V : Type} (x : gmap NotificationAttemptId N) (p : MailboxProjection V) : MailboxProjection V :=
  MkProjection (workspace_id p) (last_workspace_seq p) (messages p) (idempotency_index p)
    (mailboxes p) (mailbox_index p) (notifications p) (active_notification_barriers p)
    (claimed_ack_timeout_reconciliations p) (notification_attempts p) (cleared_attempts p)
    (clearance_batches p) (resolved_attempts p) (resolution_intents p)
    (forced_resolution_intents p) (resolution_action_reservations p) x
    (resolution_actions_accepted p) (resolution_action_sequences p) (claim_sequences p)
    (notification_write_sequences p) (resolution_consumptions p).
Definition set_resolution_actions_accepted {V : Type} (x : gmap NotificationAttemptId NotificationResolution) (p : MailboxProjection V) : MailboxProjection V :=
  MkProjection (workspace_id p) (last_workspace_seq p) (messages p) (idempotency_index p)
    (mailboxes p) (mailbox_index p) (notifications p) (active_notification_barriers p)
    (claimed_ack_timeout_reconciliations p) (notification_attempts p) (cleared_attempts p)
    (clearance_batches p) (resolved_attempts p) (resolution_intents p)
    (forced_resolution_intents p) (resolution_action_reservations p)
    (resolution_action_reservation_sequences p) x (resolution_action_sequences p)
    (claim_sequences p) (notification_write_sequences p) (resolution_consumptions p).
Definition set_resolution_action_sequences {V : Type} (x : gmap NotificationAttemptId N) (p : MailboxProjection V) : MailboxProjection V :=
  MkProjection (workspace_id p) (last_workspace_seq p) (messages p) (idempotency_index p)
    (mailboxes p) (mailbox_index p) (notifications p) (active_notification_barriers p)
    (claimed_ack_timeout_reconciliations p) (notification_attempts p) (cleared_attempts p)
    (clearance_batches p) (resolved_attempts p) (resolution_intents p)
    (forced_resolution_intents p) (resolution_action_reservations p)
    (resolution_action_reservation_sequences p) (resolution_actions_accepted p) x
    (claim_sequences p) (notification_write_sequences p) (resolution_consumptions p).
Definition set_claim_sequences {V : Type} (x : gmap (RecipientKey * MessageId) N) (p : MailboxProjection V) : MailboxProjection V :=
  MkProjection (workspace_id p) (last_workspace_seq p) (messages p) (idempotency_index p)
    (mailboxes p) (mailbox_index p) (notifications p) (active_notification_barriers p)
    (claimed_ack_timeout_reconciliations p) (notification_attempts p) (cleared_attempts p)
    (clearance_batches p) (resolved_attempts p) (resolution_intents p)
    (forced_resolution_intents p) (resolution_action_reservations p)
    (resolution_action_reservation_sequences p) (resolution_actions_accepted p)
    (resolution_action_sequences p) x (notification_write_sequences p) (resolution_consumptions p).
Definition set_notification_write_sequences {V : Type} (x : gmap NotificationAttemptId N) (p : MailboxProjection V) : MailboxProjection V :=
  MkProjection (workspace_id p) (last_workspace_seq p) (messages p) (idempotency_index p)
    (mailboxes p) (mailbox_index p) (notifications p) (active_notification_barriers p)
    (claimed_ack_timeout_reconciliations p) (notification_attempts p) (cleared_attempts p)
    (clearance_batches p) (resolved_attempts p) (resolution_intents p)
    (forced_resolution_intents p) (resolution_action_reservations p)
    (resolution_action_reservation_sequences p) (resolution_actions_accepted p)
    (resolution_action_sequences p) (claim_sequences p) x (resolution_consumptions p).
Definition set_resolution_consumptions {V : Type} (x : gmap NotificationAttemptId NotificationResolutionConsumptionObservation) (p : MailboxProjection V) : MailboxProjection V :=
  MkProjection (workspace_id p) (last_workspace_seq p) (messages p) (idempotency_index p)
    (mailboxes p) (mailbox_index p) (notifications p) (active_notification_barriers p)
    (claimed_ack_timeout_reconciliations p) (notification_attempts p) (cleared_attempts p)
    (clearance_batches p) (resolved_attempts p) (resolution_intents p)
    (forced_resolution_intents p) (resolution_action_reservations p)
    (resolution_action_reservation_sequences p) (resolution_actions_accepted p)
    (resolution_action_sequences p) (claim_sequences p) (notification_write_sequences p) x.

Definition projection_new {V : Type} (ws : WorkspaceId) : MailboxProjection V :=
  MkProjection ws None ∅ ∅ ∅ ∅ ∅ ∅ ∅ ∅ ∅ ∅ ∅ ∅ ∅ ∅ ∅ ∅ ∅ ∅ ∅ ∅.

Record NotificationProjectionUpdate := MkUpdate {
  up_key : RecipientKey * MessageId;
  up_record : NotificationRecord;
}.

Inductive PreparedMutation :=
| PMMessage (message_id : MessageId) (metadata : MessageMetadata)
    (superseded_notification : option NotificationProjectionUpdate)
| PMClaim (message_id : MessageId) (recipient claimant : RecipientKey)
    (notification_update : option NotificationProjectionUpdate)
| PMDeliveredDirect (message_id : MessageId) (recipient : RecipientKey)
    (attempt_id : NotificationAttemptId)
| PMNotification (key : RecipientKey * MessageId) (record : NotificationRecord)
    (new_attempt : bool)
| PMNotificationRequeues (records : list ((RecipientKey * MessageId) * NotificationRecord))
| PMNotificationCleared (attempt_id : NotificationAttemptId)
| PMNotificationsCleared (batch_id : rstr) (attempt_ids : list NotificationAttemptId)
| PMNotificationWithdrawnBeforeWrite (key : RecipientKey * MessageId) (record : NotificationRecord)
| PMResolutionIntent (attempt_id : NotificationAttemptId) (resolution : NotificationResolution)
    (forced : bool)
| PMResolutionActionReserved (attempt_id : NotificationAttemptId)
    (resolution : NotificationResolution)
| PMResolutionActionAccepted (attempt_id : NotificationAttemptId)
    (resolution : NotificationResolution)
| PMResolutionConsumptionObserved (attempt_id : NotificationAttemptId)
    (observation : NotificationResolutionConsumptionObservation)
| PMResolutionIntentWithdrawn (attempt_id : NotificationAttemptId)
| PMResolvedWithoutTerminalAction (attempt_id : NotificationAttemptId)
    (resolution : NotificationResolution)
| PMResolved (attempt_id : NotificationAttemptId) (resolution : NotificationResolution)
| PMClaimedStagedCleared (key : RecipientKey * MessageId) (record : NotificationRecord)
    (attempt_id : NotificationAttemptId)
| PMClaimedAckTimeoutReconciled (key : RecipientKey * MessageId) (record : NotificationRecord)
    (attempt_id : NotificationAttemptId)
| PMBarrierRetired (attempt_id : NotificationAttemptId).

(** ** Record predicates *)
Definition legacy_doorbell_format (format : option N) : bool :=
  match format with None => true | Some f => f =? DOORBELL_FORMAT_COMPACT_CLAIM end.
Definition binding_lacks_pane_root (b : option NotificationBinding) : bool :=
  match b with Some binding => bool_decide (nb_pane_root binding = None) | None => false end.

Definition uses_legacy_notification_write_contract (r : NotificationRecord) : bool :=
  match nr_transport r with
  | Doorbell => legacy_doorbell_format (nr_doorbell_format r)
  | DirectPayload => bool_decide (nr_doorbell_format r = None)
  | Raw | MailboxOnly => false
  end && binding_lacks_pane_root (nr_binding r).

Definition uses_incomplete_legacy_doorbell_contract (r : NotificationRecord) : bool :=
  bool_decide (nr_transport r = Doorbell) && legacy_doorbell_format (nr_doorbell_format r) &&
  binding_lacks_pane_root (nr_binding r).

Definition withdrawn_by_claim_before_write (r : NotificationRecord) : bool :=
  bool_decide (nr_state r = Withdrawn) &&
  bool_decide (nr_pre_write_cause r = Some ClaimedBeforeWrite).

Definition notification_transition_allowed (r : NotificationRecord) (next : NotificationState)
    (pre_write_cause : option NotificationPreWriteCause) (replaying : bool) : bool :=
  can_transition_to (nr_state r) next ||
  (bool_decide (nr_state r = Writing) && bool_decide (next = BlockedPreWrite) &&
   bool_decide (pre_write_cause = Some PasteCommandUnwritten)) ||
  (replaying && bool_decide (nr_state r = Staged) && bool_decide (next = Submitted) &&
   uses_legacy_notification_write_contract r) ||
  (replaying && withdrawn_by_claim_before_write r &&
   match next with Gating | BlockedPreWrite | Writing => true | _ => false end).

Definition notification_pre_write_width_block (r : NotificationRecord) : option (N * N) :=
  if bool_decide (nr_state r ≠ BlockedPreWrite) ||
     bool_decide (nr_pre_write_cause r ≠ Some WriteReadinessChanged)
  then None
  else
    obs ← nr_pre_write_observation r;
    observed ← po_pane_width obs;
    required ← po_required_pane_width obs;
    if observed <? required then Some (observed, required) else None.

Definition notification_wake_block (r : NotificationRecord) (attention_resolution_pending : bool)
    : option MessageWakeBlock :=
  match nr_wake_block r with
  | Some b => Some b
  | None => if attention_resolution_pending then Some AttentionResolutionPending else None
  end.

Definition route_evidence_is_later (prior current : NotificationRouteEvidenceId) : bool :=
  bool_decide (re_boot_id prior ≠ re_boot_id current) ||
  (re_generation prior <? re_generation current).

(** ** Labels ([directory.rs]) *)
Definition validate_display_label (kind label : rstr) : result MailboxError unit :=
  bail (InvalidPresentation (kind ++ str " label must be non-empty and contain no control characters"))
    when bool_decide (label = []) || existsb is_control label ;;
  Ok ().

Definition reply_subject (parent : option rstr) : option rstr :=
  (λ subject, if starts_with (str "Re: ") subject then subject else str "Re: " ++ subject)
    <$> parent.

Section projection.
Context {V : Type} {serde : Serde V} {uuids : Uuids} {digests : Digests}.
Implicit Types (p : MailboxProjection V) (line : LedgerLine V).

Fixpoint presentation_labels_go (index : N) (pairs : list (RecipientKey * RecipientPresentation))
    : result MailboxError (list rstr) :=
  match pairs with
  | [] => Ok []
  | (expected, snapshot) :: rest =>
      bail (InvalidPresentation (str "recipient label " ++ dec_string index ++
              str " is bound to '" ++ recipient_display (rp_recipient snapshot) ++
              str "', expected '" ++ recipient_display expected ++ str "'"))
        when bool_decide (rp_recipient snapshot ≠ expected) ;;
      let? _ := validate_display_label (str "recipient") (rp_label snapshot) in
      let? labels := presentation_labels_go (index + 1) rest in
      Ok (rp_label snapshot :: labels)
  end.
Definition presentation_labels (recipients : list RecipientKey)
    (presentation : MessagePresentation) : result MailboxError (rstr * list rstr) :=
  let? _ := validate_display_label (str "sender") (mp_sender_label presentation) in
  bail (InvalidPresentation (str "expected " ++ dec_string (N.of_nat (length recipients)) ++
          str " recipient labels, found " ++
          dec_string (N.of_nat (length (mp_recipient_labels presentation)))))
    when bool_decide (length (mp_recipient_labels presentation) ≠ length recipients) ;;
  let? labels := presentation_labels_go 0 (zip recipients (mp_recipient_labels presentation)) in
  Ok (mp_sender_label presentation, labels).

(** ** Reads *)
Definition get_message p (id : MessageId) : option (LedgerLine V) := messages p !! id.
Definition get_entry p (recipient : RecipientKey) (id : MessageId) : option MailboxEntry :=
  seq ← mailbox_index p !! (recipient, id);
  entries ← mailboxes p !! recipient;
  (entries : gmap N MailboxEntry) !! seq.
Definition entry_is_pending p (recipient : RecipientKey) (id : MessageId) : bool :=
  match get_entry p recipient id with Some e => is_pending (me_state e) | None => false end.
Definition get_mailbox p (recipient : RecipientKey) : list MailboxEntry :=
  match mailboxes p !! recipient with Some m => btree_values m | None => [] end.
Definition get_pending p (recipient : RecipientKey) : list MailboxEntry :=
  List.filter (λ e, is_pending (me_state e)) (get_mailbox p recipient).
Definition pending_count p (recipient : RecipientKey) : nat :=
  length (get_pending p recipient).
Definition notification p (recipient : RecipientKey) (id : MessageId) : option NotificationRecord :=
  notifications p !! (recipient, id).
Definition notification_withdrawn_by_operator p (recipient : RecipientKey) (id : MessageId) : bool :=
  match notification p recipient id with
  | Some r => bool_decide (nr_state r = WithdrawnByOperator)
  | None => false
  end.

(** [HashMap::values]. *)
Definition notification_values p : list NotificationRecord := (map_to_list (notifications p)).*2.
Definition notification_by_attempt p (attempt_id : NotificationAttemptId)
    : option NotificationRecord :=
  List.find (λ r, bool_decide (nr_attempt_id r = attempt_id)) (notification_values p).
Definition alarm_cleared p (attempt_id : NotificationAttemptId) : bool :=
  bool_decide (attempt_id ∈ cleared_attempts p).
Definition attention_resolution_pending p (attempt_id : NotificationAttemptId) : bool :=
  bool_decide (is_Some (resolution_intents p !! attempt_id)) &&
  bool_decide (resolved_attempts p !! attempt_id = None).

(** The entry was claimed by exactly this recipient. *)
Definition claimed_by p (recipient : RecipientKey) (id : MessageId) : bool :=
  match get_entry p recipient id with
  | Some e =>
      match me_state e with
      | Claimed claimant _ => bool_decide (claimant = recipient)
      | _ => false
      end
  | None => false
  end.
Definition exact_recipient_claimed_after_write p (r : NotificationRecord) : bool :=
  match notification_write_sequences p !! nr_attempt_id r with
  | None => false
  | Some write_seq =>
      match claim_sequences p !! (nr_recipient r, nr_message_id r) with
      | None => false
      | Some claim_seq =>
          (write_seq <? claim_seq) && claimed_by p (nr_recipient r) (nr_message_id r)
      end
  end.

Definition extract_message_metadata line : result MailboxError MessageMetadata :=
  ok_or (v ← ll_data line; result_ok (metadata_from_value v)) (MissingMetadata (ll_id line)).

(** ** Replies and supersession *)
Record ReplyDerivation := MkReplyDerivation {
  rd_recipient : RecipientKey;
  rd_thread_root : MessageId;
  rd_subject : option rstr;
}.
Definition derive_reply p (sender : RecipientKey) (reference : MessageId)
    : result MailboxError ReplyDerivation :=
  let? parent := ok_or (messages p !! reference) (MessageNotFound reference) in
  let? parent_metadata := extract_message_metadata parent in
  let visible := bool_decide (md_sender parent_metadata = sender) ||
                 bool_decide (sender ∈ md_recipients parent_metadata) in
  bail (ReplyNotVisible reference sender) when negb visible ;;
  Ok (MkReplyDerivation (md_sender parent_metadata) (md_thread_root parent_metadata)
        (reply_subject (ll_subject parent))).

Definition supersession_notification_is_pre_write p (recipient : RecipientKey) (id : MessageId)
    : bool :=
  match notifications p !! (recipient, id) with
  | None => true
  | Some r =>
      match nr_state r with
      | Queued | Gating | BlockedPreWrite | QuotaHeld | QuotaResetObserved
      | WithdrawnByOperator => true
      | _ => false
      end
  end.

Definition supersession_thread_root p (sender : RecipientKey) (recipients : list RecipientKey)
    (supersedes : option MessageId) : result MailboxError (option MessageId) :=
  match supersedes with
  | None => Ok None
  | Some target =>
      match recipients with
      | [recipient] =>
          let? message := ok_or (messages p !! target) (MessageNotFound target) in
          let? metadata := extract_message_metadata message in
          bail (SupersessionIdentityMismatch target) when
            bool_decide (md_sender metadata ≠ sender) ||
            bool_decide (md_recipients metadata ≠ recipients) ;;
          let? entry := ok_or (get_entry p recipient target) (EntryNotFound target recipient) in
          bail (SupersessionNotPending target) when negb (is_pending (me_state entry)) ;;
          bail (SupersessionNotificationStarted target) when
            negb (supersession_notification_is_pre_write p recipient target) ;;
          Ok (Some (md_thread_root metadata))
      | _ => Err SupersessionRequiresSingleRecipient
      end
  end.

(** ** Validating one message row *)
Definition check_version (found : N) : result MailboxError unit :=
  bail (InvalidRecordVersion CANONICAL_RECORD_VERSION found) when
    negb (found =? CANONICAL_RECORD_VERSION) ;;
  Ok ().
Definition check_workspace p (found : WorkspaceId) : result MailboxError unit :=
  bail (WorkspaceMismatch (workspace_id p) found) when bool_decide (found ≠ workspace_id p) ;;
  Ok ().

(** The loop that refuses a foreign or repeated recipient. *)
Fixpoint check_recipients p (duplicate : RecipientKey → MailboxError)
    (seen : gset RecipientKey) (recipients : list RecipientKey) : result MailboxError unit :=
  match recipients with
  | [] => Ok ()
  | r :: rest =>
      let? _ := check_workspace p (rk_workspace_id r) in
      bail (duplicate r) when bool_decide (r ∈ seen) ;;
      check_recipients p duplicate ({[r]} ∪ seen) rest
  end.

(** The record a replaced, claimed or withdrawn attempt moves to: everything
    the write boundary attached is dropped except what the caller keeps. *)
Definition settled_record (current : NotificationRecord) (state : NotificationState)
    (binding : option NotificationBinding) (cause : option NotificationPreWriteCause) line
    : NotificationRecord :=
  MkRecord (nr_attempt_id current) (nr_message_id current) (nr_recipient current) state binding
    (nr_transport current) (nr_doorbell_format current) None None None cause None None
    (nr_pre_write_reopen_count current) (nr_unclaimed_reminder_count current)
    (nr_started_seq current) (ll_seq line) (ll_ts line).

(** The thread a message row must declare. *)
Definition expected_thread_root p line (message_id : MessageId) (metadata : MessageMetadata)
    (reply_to : option MessageId) : result MailboxError MessageId :=
  match reply_to with
  | Some reference =>
      bail (ReplyKindMismatch message_id) when bool_decide (ll_kind line ≠ KMsg) ;;
      let? derived := derive_reply p (md_sender metadata) reference in
      bail (ReplyRecipientMismatch message_id (rd_recipient derived)) when
        bool_decide (md_recipients metadata ≠ [rd_recipient derived]) ;;
      bail (ReplySubjectMismatch message_id) when
        bool_decide (ll_subject line ≠ rd_subject derived) ;;
      Ok (rd_thread_root derived)
  | None =>
      let? root := supersession_thread_root p (md_sender metadata) (md_recipients metadata)
                     (md_supersedes metadata) in
      Ok (default message_id root)
  end.

(** A superseded message's attempt leaves the queue with it. *)
Definition superseded_update p line (metadata : MessageMetadata)
    : option NotificationProjectionUpdate :=
  superseded ← md_supersedes metadata;
  match md_recipients metadata with
  | [] => None
  | recipient :: _ =>
      current ← notifications p !! (recipient, superseded);
      Some (MkUpdate (recipient, superseded) (settled_record current Superseded None None line))
  end.

Definition type_error {A} (r : result MailboxTypeError A) : result MailboxError A :=
  result_map_err TypeError r.

Definition prepare_message p line : result MailboxError PreparedMutation :=
  let? message_id := type_error (message_id_new (ll_id line)) in
  bail (DuplicateMessageId message_id) when bool_decide (is_Some (messages p !! message_id)) ;;
  let? metadata := extract_message_metadata line in
  let? _ := check_version (md_record_version metadata) in
  let? _ := check_workspace p (md_workspace_id metadata) in
  let? _ := check_workspace p (rk_workspace_id (md_sender metadata)) in
  bail (EmptyRecipients message_id) when bool_decide (md_recipients metadata = []) ;;
  let? '(sender_label, recipient_labels) :=
    presentation_labels (md_recipients metadata) (md_presentation metadata) in
  bail (PresentationMismatch (str "from") (PText (ll_from line)) (PText sender_label))
    when bool_decide (ll_from line ≠ sender_label) ;;
  bail (PresentationMismatch (str "to") (PList (ll_to line)) (PList recipient_labels))
    when bool_decide (ll_to line ≠ recipient_labels) ;;
  let? _ := check_recipients p (DuplicateRecipient message_id) ∅ (md_recipients metadata) in
  let? reply_to := type_error (transpose_map message_id_new (ll_reply_to line)) in
  bail ReplySupersessionConflict when
    bool_decide (is_Some reply_to) && bool_decide (is_Some (md_supersedes metadata)) ;;
  let? expected := expected_thread_root p line message_id metadata reply_to in
  bail (ThreadRootMismatch message_id expected (md_thread_root metadata))
    when bool_decide (md_thread_root metadata ≠ expected) ;;
  let? computed := type_error (request_digest_compute (ll_kind line) (md_sender metadata)
    (md_recipients metadata)
    (MkRequestContent (ll_subject line) (md_summary metadata) (ll_body line))
    reply_to (md_supersedes metadata)) in
  bail (DigestMismatch (md_request_digest metadata) computed)
    when bool_decide (md_request_digest metadata ≠ computed) ;;
  match client_key ← md_client_key metadata;
        existing ← idempotency_index p !! (md_sender metadata, client_key);
        Some (client_key, existing.1) with
  | Some (key, existing_id) => Err (DuplicateIdempotencyKey (md_sender metadata) key existing_id)
  | None => Ok (PMMessage message_id metadata (superseded_update p line metadata))
  end.

(** ** Validating one claim row *)
Definition uncanonical_state_row line : MailboxError :=
  UncanonicalRow (str "unknown or uncanonical state row seq " ++ dec_string (ll_seq line)).
Definition has_message_fields line : bool :=
  bool_decide (is_Some (ll_subject line)) || bool_decide (is_Some (ll_body line)) ||
  bool_decide (is_Some (ll_reply_to line)) || bool_decide (length (ll_deliveries line) ≠ 0%nat).
Definition CYCLOPSD : rstr := str "cyclopsd".

Definition mailbox_fact line (tag : rstr) : result MailboxError MailboxFact :=
  let? data := ok_or (ll_data line) (uncanonical_state_row line) in
  result_map_err (λ error, InvalidFact (str "malformed " ++ tag ++ str ": " ++ error))
    (mailbox_fact_from_value data).

(** What a claim does to the message's wake attempt. *)
Definition claim_record (current : NotificationRecord) line : NotificationRecord :=
  let state := settled_by_claim (nr_state current) (nr_transport current) in
  let pre_write_cause :=
    if bool_decide (state = Withdrawn) && bool_decide (nr_transport current ≠ DirectPayload)
    then Some ClaimedBeforeWrite else None in
  let binding := if bool_decide (state = Notified) then nr_binding current else None in
  settled_record current state binding pre_write_cause line.
Definition claim_update p line (recipient : RecipientKey) (message_id : MessageId)
    : option NotificationProjectionUpdate :=
  current ← notifications p !! (recipient, message_id);
  if bool_decide (settled_by_claim (nr_state current) (nr_transport current) = nr_state current)
  then None
  else Some (MkUpdate (recipient, message_id) (claim_record current line)).

Definition prepare_claim p line : result MailboxError PreparedMutation :=
  let? fact := mailbox_fact line (str "message_claimed") in
  match fact with
  | MessageDeliveredDirect _ _ _ _ => Err (InvalidFact (str "expected message_claimed"))
  | MessageClaimed record_version message_id recipient claimant =>
      let? _ := check_version record_version in
      bail (EnvelopeMismatch (ll_id line) message_id) when
        bool_decide (ll_id line ≠ mid_text message_id) ;;
      bail (PresentationMismatch (str "from") (PText (ll_from line))
              (PText (recipient_display claimant)))
        when bool_decide (ll_from line ≠ recipient_display claimant) ;;
      bail (PresentationMismatch (str "to") (PList (ll_to line)) (PList [])) when
        bool_decide (ll_to line ≠ []) ;;
      bail (UncanonicalRow (str "claim row seq " ++ dec_string (ll_seq line) ++
              str " contains non-empty message fields")) when has_message_fields line ;;
      let? _ := check_workspace p (rk_workspace_id recipient) in
      let? _ := check_workspace p (rk_workspace_id claimant) in
      bail (ClaimantMismatch message_id recipient claimant) when
        bool_decide (claimant ≠ recipient) ;;
      let? entry := ok_or (get_entry p recipient message_id)
                      (EntryNotFound message_id recipient) in
      match me_state entry with
      | Pending =>
          Ok (PMClaim message_id recipient claimant (claim_update p line recipient message_id))
      | Claimed existing _ => Err (AlreadyClaimed message_id recipient existing)
      | EntrySuperseded _ _ => Err (MessageNotPending message_id)
      | DeliveredDirect _ _ => Err (MessageNotPending message_id)
      end
  end.

Definition require_pending_entry p (recipient : RecipientKey) (message_id : MessageId)
    : result MailboxError unit :=
  let? entry := ok_or (get_entry p recipient message_id) (EntryNotFound message_id recipient) in
  bail (NotificationMessageNotPending message_id recipient) when
    negb (is_pending (me_state entry)) ;;
  Ok ().

Definition prepare_delivered_direct p line : result MailboxError PreparedMutation :=
  let? fact := mailbox_fact line (str "message_delivered_direct") in
  match fact with
  | MessageClaimed _ _ _ _ => Err (InvalidFact (str "expected message_delivered_direct"))
  | MessageDeliveredDirect record_version message_id recipient attempt_id =>
      let? _ := check_version record_version in
      bail (EnvelopeMismatch (ll_id line) message_id) when
        bool_decide (ll_id line ≠ mid_text message_id) ;;
      bail (PresentationMismatch (str "from") (PText (ll_from line)) (PText CYCLOPSD))
        when bool_decide (ll_from line ≠ CYCLOPSD) ;;
      bail (UncanonicalRow (str "direct delivery row seq " ++ dec_string (ll_seq line) ++
              str " contains message fields"))
        when bool_decide (ll_to line ≠ []) || has_message_fields line ;;
      let? _ := require_pending_entry p recipient message_id in
      let? current := ok_or (notification p recipient message_id)
                        (NotificationNotFound message_id recipient) in
      bail (NotificationAttemptMismatch (nr_attempt_id current) attempt_id) when
        bool_decide (nr_attempt_id current ≠ attempt_id) ;;
      bail (DirectDeliveryNotProven attempt_id) when
        bool_decide (nr_state current ≠ Notified) ||
        bool_decide (nr_transport current ≠ DirectPayload) ;;
      Ok (PMDeliveredDirect message_id recipient attempt_id)
  end.

(** ** Validating notification rows *)
Definition notification_fact line : result MailboxError NotificationFact :=
  let? data := ok_or (ll_data line) (InvalidNotificationFact (str "missing data")) in
  result_map_err InvalidNotificationFact (notification_fact_from_value data).
Definition expected_fact {A} (tag : rstr) : result MailboxError A :=
  Err (InvalidNotificationFact (str "expected " ++ tag)).

Definition validate_notification_envelope p line (record_version : N) (message_id : MessageId)
    (recipient : RecipientKey) : result MailboxError unit :=
  let? _ := check_version record_version in
  let? _ := check_workspace p (rk_workspace_id recipient) in
  bail NotificationRecipientNotAgent when is_admin recipient ;;
  bail (EnvelopeMismatch (ll_id line) message_id) when
    bool_decide (ll_id line ≠ mid_text message_id) ;;
  bail (PresentationMismatch (str "from") (PText (ll_from line)) (PText CYCLOPSD))
    when bool_decide (ll_from line ≠ CYCLOPSD) ;;
  bail (PresentationMismatch (str "to") (PList (ll_to line)) (PList [recipient_display recipient]))
    when bool_decide (ll_to line ≠ [recipient_display recipient]) ;;
  bail (UncanonicalRow (str "notification row seq " ++ dec_string (ll_seq line) ++
          str " contains message or delivery fields")) when has_message_fields line ;;
  bail (MessageNotFound message_id) when bool_decide (messages p !! message_id = None) ;;
  bail (EntryNotFound message_id recipient) when
    bool_decide (get_entry p recipient message_id = None) ;;
  Ok ().
Definition validate_attempt_envelope p line (a : AttemptRef) : result MailboxError unit :=
  validate_notification_envelope p line (ar_record_version a) (ar_message_id a) (ar_recipient a).

(** *** Transitions *)

(** The guards on the attempt the fact names. *)
Definition transition_from_current (t : NotificationTransitionFact)
    (current : option NotificationRecord) (replaying : bool) : result MailboxError unit :=
  match current with
  | None =>
      bail (NotificationNotFound (tf_message_id t) (tf_recipient t)) when
        bool_decide (tf_state t ≠ Queued) ;;
      Ok ()
  | Some current =>
      let invalid := InvalidNotificationTransition (nr_state current) (tf_state t) in
      bail (NotificationAttemptMismatch (nr_attempt_id current) (tf_attempt_id t)) when
        bool_decide (nr_attempt_id current ≠ tf_attempt_id t) ;;
      bail NotificationPreWriteReopenExhausted when
        bool_decide (nr_state current = BlockedPreWrite) && bool_decide (tf_state t = Gating) &&
        (1 <=? nr_pre_write_reopen_count current) ;;
      bail invalid when
        bool_decide (tf_pre_write_cause t = Some PasteCommandUnwritten) &&
        negb (bool_decide (nr_state current = Writing) &&
              bool_decide (tf_state t = BlockedPreWrite)) ;;
      bail invalid when
        negb (notification_transition_allowed current (tf_state t) (tf_pre_write_cause t)
                replaying) ;;
      bail invalid when
        bool_decide (nr_state current = Queued) && bool_decide (tf_state t = Notified) &&
        bool_decide (tf_transport t ≠ Some MailboxOnly) ;;
      Ok ()
  end.

Definition mailbox_close (t : NotificationTransitionFact) : bool :=
  bool_decide (tf_state t = Notified) && bool_decide (tf_transport t = Some MailboxOnly).

(** The fields only the write boundary may carry. *)
Definition transition_write_fields (t : NotificationTransitionFact)
    (current : option NotificationRecord) : result MailboxError unit :=
  bail NotificationTransportForbidden when
    mailbox_close t &&
    match current with Some c => bool_decide (nr_state c ≠ Queued) | None => false end ;;
  let? _ :=
    (if bool_decide (tf_state t = Writing) && bool_decide (tf_transport t ≠ Some Raw) then
       match tf_binding t with
       | None => Err NotificationBindingRequired
       | Some binding =>
           bail NotificationBindingMismatch when
             bool_decide (nb_recipient binding ≠ tf_recipient t) ;;
           Ok ()
       end
     else
       bail NotificationBindingForbidden when bool_decide (is_Some (tf_binding t)) ;;
       Ok ()) in
  bail NotificationVerifiedByForbidden when
    bool_decide (is_Some (tf_verified_by t)) && bool_decide (tf_state t ≠ Notified) ;;
  bail NotificationVerifiedByForbidden when
    mailbox_close t && bool_decide (is_Some (tf_verified_by t)) ;;
  bail NotificationTransportForbidden when
    bool_decide (tf_state t ≠ Writing) && bool_decide (is_Some (tf_transport t)) &&
    negb (mailbox_close t) ;;
  bail NotificationDoorbellFormatForbidden when
    bool_decide (tf_state t ≠ Writing) && bool_decide (is_Some (tf_doorbell_format t)) ;;
  bail NotificationDoorbellFormatForbidden when
    bool_decide (is_Some (tf_doorbell_format t)) &&
    bool_decide (default default_transport (tf_transport t) ≠ Doorbell) ;;
  Ok ().

(** The attention cause must be possible after the recorded state. *)
Definition transition_attention (t : NotificationTransitionFact)
    (current : option NotificationRecord) (replaying : bool) : result MailboxError unit :=
  if bool_decide (tf_state t = AttentionRequired) then
    match tf_cause t with
    | None => Err NotificationCauseRequired
    | Some attention_cause =>
        let? prior := ok_or current (NotificationNotFound (tf_message_id t) (tf_recipient t)) in
        bail (InvalidNotificationCause attention_cause (nr_state prior)) when
          negb (cause_valid_after attention_cause (nr_state prior)) ;;
        match attention_cause, tf_verify_outcome t with
        | VerifyFailed, None =>
            bail NotificationVerifyOutcomeRequired when negb replaying ;; Ok ()
        | VerifyFailed, _ | _, None => Ok ()
        | _, Some _ => Err NotificationVerifyOutcomeForbidden
        end
    end
  else
    bail NotificationCauseForbidden when bool_decide (is_Some (tf_cause t)) ;;
    bail NotificationVerifyOutcomeForbidden when bool_decide (is_Some (tf_verify_outcome t)) ;;
    Ok ().

(** The evidence a pre-write block must carry. *)
Definition width_observation (o : option NotificationPreWriteObservation) : option (N * N) :=
  observation ← o;
  observed ← po_pane_width observation;
  required ← po_required_pane_width observation;
  Some (observed, required).
Definition has_partial_width_observation (o : option NotificationPreWriteObservation) : bool :=
  match o with
  | Some observation =>
      xorb (bool_decide (is_Some (po_pane_width observation)))
           (bool_decide (is_Some (po_required_pane_width observation)))
  | None => false
  end.
Definition transition_pre_write (t : NotificationTransitionFact) : result MailboxError unit :=
  let cause := tf_pre_write_cause t in
  let observation := tf_pre_write_observation t in
  if bool_decide (tf_state t = BlockedPreWrite) then
    bail NotificationPreWriteCauseRequired when bool_decide (cause = None) ;;
    let width := width_observation observation in
    bail NotificationPreWriteObservationRequired when
      (match cause with
       | Some (BindingUnprovable | ComposerSemanticMissing) => true
       | _ => false
       end ||
       (bool_decide (is_Some width) && bool_decide (cause = Some WriteReadinessChanged))) &&
      bool_decide ((o ← observation; po_selected_manifest o) = None) ;;
    bail NotificationPreWriteObservationRequired when
      has_partial_width_observation observation ;;
    match width with
    | Some (observed, required) =>
        bail NotificationPreWriteObservationRequired when
          bool_decide (cause ≠ Some WriteReadinessChanged) ;;
        bail (NotificationPaneWidthNotNarrow observed required) when
          (required <=? observed) || (required =? 0) ;;
        Ok ()
    | None => Ok ()
    end
  else
    bail NotificationPreWriteCauseForbidden when
      bool_decide (is_Some cause) || bool_decide (is_Some (tf_wake_block t)) ||
      bool_decide (is_Some observation) ;;
    Ok ().

(** A fresh attempt. *)
Definition queued_record (attempt_id : NotificationAttemptId) (message_id : MessageId)
    (recipient : RecipientKey) line : NotificationRecord :=
  MkRecord attempt_id message_id recipient Queued None Doorbell None None None None None None None
    0 0 (ll_seq line) (ll_seq line) (ll_ts line).

(** The fact corrects [Writing] because no command byte was accepted. *)
Definition proven_unwritten_fact (t : NotificationTransitionFact) : bool :=
  bool_decide (tf_state t = BlockedPreWrite) &&
  bool_decide (tf_pre_write_cause t = Some PasteCommandUnwritten).

Definition transition_record (t : NotificationTransitionFact) (current : NotificationRecord) line
    : NotificationRecord :=
  MkRecord (tf_attempt_id t) (tf_message_id t) (tf_recipient t) (tf_state t)
    (if bool_decide (tf_state t = Writing) then tf_binding t
     else if proven_unwritten_fact t then None else nr_binding current)
    (if bool_decide (tf_state t = Writing) || mailbox_close t
     then default default_transport (tf_transport t) else nr_transport current)
    (if bool_decide (tf_state t = Writing) then tf_doorbell_format t
     else if proven_unwritten_fact t then None else nr_doorbell_format current)
    (tf_cause t) (tf_verified_by t) (tf_verify_outcome t) (tf_pre_write_cause t)
    (tf_wake_block t) (tf_pre_write_observation t)
    (if bool_decide (nr_state current = BlockedPreWrite) && bool_decide (tf_state t = Gating)
     then saturating_add_u8 (nr_pre_write_reopen_count current) 1
     else nr_pre_write_reopen_count current)
    (nr_unclaimed_reminder_count current) (nr_started_seq current) (ll_seq line) (ll_ts line).

Definition prepare_transition_record p line (t : NotificationTransitionFact)
    (current : option NotificationRecord) : result MailboxError (NotificationRecord * bool) :=
  match current with
  | None =>
      bail (NotificationNotFound (tf_message_id t) (tf_recipient t)) when
        bool_decide (tf_state t ≠ Queued) ;;
      let? _ := require_pending_entry p (tf_recipient t) (tf_message_id t) in
      bail (NotificationAttemptReused (tf_attempt_id t)) when
        bool_decide (tf_attempt_id t ∈ notification_attempts p) ;;
      Ok (queued_record (tf_attempt_id t) (tf_message_id t) (tf_recipient t) line, true)
  | Some current => Ok (transition_record t current line, false)
  end.

Definition prepare_notification_transition p line (replaying : bool)
    : result MailboxError PreparedMutation :=
  let? fact := notification_fact line in
  match fact with
  | NotificationTransition t =>
      let? _ := validate_notification_envelope p line (tf_record_version t) (tf_message_id t)
                  (tf_recipient t) in
      let key := (tf_recipient t, tf_message_id t) in
      let current := notifications p !! key in
      let? _ := transition_from_current t current replaying in
      let? _ := transition_write_fields t current in
      let? _ := transition_attention t current replaying in
      let? _ := transition_pre_write t in
      let? '(record, new_attempt) := prepare_transition_record p line t current in
      Ok (PMNotification key record new_attempt)
  | _ => expected_fact (str "notification_transition")
  end.

(** *** Reminders and requeues *)
Definition current_attempt p (a : AttemptRef) (missing : MailboxError)
    : result MailboxError NotificationRecord :=
  let? current := ok_or (notifications p !! (ar_recipient a, ar_message_id a)) missing in
  bail (NotificationAttemptMismatch (nr_attempt_id current) (ar_attempt_id a)) when
    bool_decide (nr_attempt_id current ≠ ar_attempt_id a) ;;
  Ok current.

Definition reminder_record (r : NotificationRecord) line : NotificationRecord :=
  MkRecord (nr_attempt_id r) (nr_message_id r) (nr_recipient r) Gating (nr_binding r)
    (nr_transport r) (nr_doorbell_format r) None None None None None None
    (nr_pre_write_reopen_count r) 1 (nr_started_seq r) (ll_seq line) (ll_ts line).

Definition prepare_unclaimed_reminder_queued p line : result MailboxError PreparedMutation :=
  let? fact := notification_fact line in
  match fact with
  | NotificationUnclaimedReminderQueued a =>
      let? _ := validate_attempt_envelope p line a in
      let? _ := require_pending_entry p (ar_recipient a) (ar_message_id a) in
      let? current := current_attempt p a
                        (NotificationNotFound (ar_message_id a) (ar_recipient a)) in
      bail (InvalidNotificationFact (str "unclaimed reminder requires one pending, notified doorbell with a retired prior barrier and unused allowance"))
        when bool_decide (nr_state current ≠ Notified) ||
             bool_decide (nr_transport current ≠ Doorbell) ||
             negb (nr_unclaimed_reminder_count current =? 0) ||
             bool_decide (is_Some (active_notification_barriers p !! ar_attempt_id a)) ;;
      Ok (PMNotification (ar_recipient a, ar_message_id a) (reminder_record current line) false)
  | _ => expected_fact (str "notification_unclaimed_reminder_queued")
  end.

Definition prepare_notification_requeue_record p line (message_id : MessageId)
    (recipient : RecipientKey) (prior_attempt_id attempt_id : NotificationAttemptId)
    : result MailboxError ((RecipientKey * MessageId) * NotificationRecord) :=
  let? _ := require_pending_entry p recipient message_id in
  let? current := ok_or (notifications p !! (recipient, message_id))
                    (NotificationNotFound message_id recipient) in
  bail (NotificationAttemptMismatch (nr_attempt_id current) prior_attempt_id) when
    bool_decide (nr_attempt_id current ≠ prior_attempt_id) ;;
  bail NotificationRequeueRequiresAttention when
    bool_decide (nr_state current ≠ AttentionRequired) &&
    bool_decide (nr_state current ≠ QuotaResetObserved) ;;
  bail (NotificationResolutionAmbiguous prior_attempt_id) when
    bool_decide (is_Some (resolution_intents p !! prior_attempt_id)) ;;
  bail (NotificationAttemptReused attempt_id) when
    bool_decide (attempt_id ∈ notification_attempts p) ;;
  Ok ((recipient, message_id), queued_record attempt_id message_id recipient line).

Definition prepare_notification_requeue p line : result MailboxError PreparedMutation :=
  let? fact := notification_fact line in
  match fact with
  | NotificationRequeued prior_attempt_id a =>
      let? _ := validate_attempt_envelope p line a in
      let? '(key, record) := prepare_notification_requeue_record p line (ar_message_id a)
                               (ar_recipient a) prior_attempt_id (ar_attempt_id a) in
      Ok (PMNotification key record true)
  | _ => expected_fact (str "notification_requeued")
  end.

(** The loop over a batch requeue's recipients. *)
Fixpoint check_requeue_recipients p (seen : gset RecipientKey)
    (requeues : list NotificationRequeue) : result MailboxError unit :=
  match requeues with
  | [] => Ok ()
  | rq :: rest =>
      let? _ := check_workspace p (rk_workspace_id (rq_recipient rq)) in
      bail NotificationRecipientNotAgent when is_admin (rq_recipient rq) ;;
      bail (InvalidNotificationFact (str "notifications_requeued contains a duplicate recipient"))
        when bool_decide (rq_recipient rq ∈ seen) ;;
      check_requeue_recipients p ({[rq_recipient rq]} ∪ seen) rest
  end.
(** The code walks a [HashSet] here; which missing entry is named is not
    specified. *)
Fixpoint check_requeue_entries p (message_id : MessageId) (requeues : list NotificationRequeue)
    : result MailboxError unit :=
  match requeues with
  | [] => Ok ()
  | rq :: rest =>
      bail (EntryNotFound message_id (rq_recipient rq)) when
        bool_decide (get_entry p (rq_recipient rq) message_id = None) ;;
      check_requeue_entries p message_id rest
  end.

Definition validate_notification_requeues_envelope p line (record_version : N)
    (message_id : MessageId) (requeues : list NotificationRequeue) : result MailboxError unit :=
  bail (InvalidNotificationFact (str "notifications_requeued requires at least two recipients"))
    when bool_decide (length requeues < 2)%nat ;;
  let? _ := check_version record_version in
  let? _ := check_requeue_recipients p ∅ requeues in
  bail (EnvelopeMismatch (ll_id line) message_id) when
    bool_decide (ll_id line ≠ mid_text message_id) ;;
  bail (PresentationMismatch (str "from") (PText (ll_from line)) (PText CYCLOPSD))
    when bool_decide (ll_from line ≠ CYCLOPSD) ;;
  let expected_to := (λ rq, recipient_display (rq_recipient rq)) <$> requeues in
  bail (PresentationMismatch (str "to") (PList (ll_to line)) (PList expected_to))
    when bool_decide (ll_to line ≠ expected_to) ;;
  bail (UncanonicalRow (str "notification row seq " ++ dec_string (ll_seq line) ++
          str " contains message or delivery fields")) when has_message_fields line ;;
  bail (MessageNotFound message_id) when bool_decide (messages p !! message_id = None) ;;
  check_requeue_entries p message_id requeues.

Fixpoint prepare_requeue_records p line (message_id : MessageId)
    (attempts : gset NotificationAttemptId) (requeues : list NotificationRequeue)
    : result MailboxError (list ((RecipientKey * MessageId) * NotificationRecord)) :=
  match requeues with
  | [] => Ok []
  | rq :: rest =>
      bail (NotificationAttemptReused (rq_attempt_id rq)) when
        bool_decide (rq_attempt_id rq ∈ attempts) ;;
      let? record := prepare_notification_requeue_record p line message_id (rq_recipient rq)
                       (rq_prior_attempt_id rq) (rq_attempt_id rq) in
      let? records := prepare_requeue_records p line message_id
                        ({[rq_attempt_id rq]} ∪ attempts) rest in
      Ok (record :: records)
  end.

Definition prepare_notification_requeues p line : result MailboxError PreparedMutation :=
  let? fact := notification_fact line in
  match fact with
  | NotificationsRequeued record_version message_id requeues =>
      let? _ := validate_notification_requeues_envelope p line record_version message_id requeues in
      let? records := prepare_requeue_records p line message_id ∅ requeues in
      Ok (PMNotificationRequeues records)
  | _ => expected_fact (str "notifications_requeued")
  end.

(** *** Clearances *)
Definition prepare_notification_clear p line : result MailboxError PreparedMutation :=
  let? fact := notification_fact line in
  match fact with
  | NotificationCleared a =>
      let? _ := validate_attempt_envelope p line a in
      let? current := current_attempt p a
                        (NotificationNotFound (ar_message_id a) (ar_recipient a)) in
      bail NotificationClearRequiresAttention when
        bool_decide (nr_state current ≠ AttentionRequired) ;;
      Ok (PMNotificationCleared (ar_attempt_id a))
  | _ => expected_fact (str "notification_cleared")
  end.

(** [BTreeSet<NotificationAttemptId>] collected and read back. *)
Definition btree_set_attempts (l : list NotificationAttemptId) : list NotificationAttemptId :=
  sort_by_key attempt_rank (remove_dups l).

(** The loop over a batch clearance; it returns the recipients' names. *)
Fixpoint check_clears p (cutoff_ms : option N) (attempt_ids : list NotificationAttemptId)
    : result MailboxError (list rstr) :=
  match attempt_ids with
  | [] => Ok []
  | attempt_id :: rest =>
      bail (InvalidNotificationFact (str "notification attempt '" ++ attempt_display attempt_id ++
              str "' was already cleared")) when alarm_cleared p attempt_id ;;
      let? record := ok_or (notification_by_attempt p attempt_id)
                       (NotificationAttemptUnknown attempt_id) in
      bail NotificationClearRequiresAttention when
        bool_decide (nr_state record ≠ AttentionRequired) ;;
      bail (InvalidNotificationFact (str "notification attempt '" ++ attempt_display attempt_id ++
              str "' is newer than the confirmed cutoff"))
        when match cutoff_ms with Some cutoff => cutoff <? nr_updated_at record | None => false end ;;
      let? recipients := check_clears p cutoff_ms rest in
      Ok (recipient_display (nr_recipient record) :: recipients)
  end.

Definition prepare_notification_clears p line : result MailboxError PreparedMutation :=
  let? fact := notification_fact line in
  match fact with
  | NotificationsCleared record_version batch_id attempt_ids operator cutoff_ms =>
      let? _ := check_version record_version in
      bail (InvalidNotificationFact (str "notification clearance operator is not the workspace administrator"))
        when bool_decide (operator ≠ recipient_admin (workspace_id p)) ;;
      bail (InvalidNotificationFact (str "notification clearance batch id does not match its ledger row"))
        when bool_decide (batch_id = []) || bool_decide (ll_id line ≠ batch_id) ;;
      bail (InvalidNotificationFact (str "duplicate notification clearance batch '" ++ batch_id ++
              str "'")) when bool_decide (batch_id ∈ clearance_batches p) ;;
      bail (InvalidNotificationFact (str "notification clearance batch has an invalid content envelope"))
        when bool_decide (ll_from line ≠ recipient_display operator) || has_message_fields line ;;
      bail (InvalidNotificationFact (str "notification clearance batch is empty"))
        when bool_decide (attempt_ids = []) ;;
      bail (InvalidNotificationFact (str "notification clearance attempts are not sorted and unique"))
        when bool_decide (btree_set_attempts attempt_ids ≠ attempt_ids) ;;
      let? recipients := check_clears p cutoff_ms attempt_ids in
      bail (InvalidNotificationFact (str "notification clearance recipients do not match its attempts"))
        when bool_decide (ll_to line ≠ btree_set_rstr recipients) ;;
      Ok (PMNotificationsCleared batch_id attempt_ids)
  | _ => expected_fact (str "notifications_cleared")
  end.

(** *** Operator withdrawal *)
Definition prepare_notification_withdrawal p line (replaying : bool)
    : result MailboxError PreparedMutation :=
  let? fact := notification_fact line in
  match fact with
  | NotificationWithdrawnBeforeWrite a operator =>
      let? _ := check_version (ar_record_version a) in
      bail (EnvelopeMismatch (ll_id line) (ar_message_id a)) when
        bool_decide (ll_id line ≠ mid_text (ar_message_id a)) ;;
      bail NotificationWithdrawalOperatorInvalid when
        bool_decide (operator ≠ recipient_admin (workspace_id p)) ;;
      bail (PresentationMismatch (str "from") (PText (ll_from line))
              (PText (recipient_display operator)))
        when bool_decide (ll_from line ≠ recipient_display operator) ;;
      let authoritative_to := [recipient_display (ar_recipient a)] in
      bail (PresentationMismatch (str "to") (PText (join (str ",") (ll_to line)))
              (PText (join (str ",") authoritative_to)))
        when bool_decide (ll_to line ≠ authoritative_to) ;;
      bail (UncanonicalRow (str "notification withdrawal row seq " ++ dec_string (ll_seq line) ++
              str " contains message fields")) when has_message_fields line ;;
      let? entry := ok_or (get_entry p (ar_recipient a) (ar_message_id a))
                      (EntryNotFound (ar_message_id a) (ar_recipient a)) in
      bail (NotificationMessageNotPending (ar_message_id a) (ar_recipient a)) when
        negb (is_pending (me_state entry)) && negb (is_claimed (me_state entry)) ;;
      let? current := current_attempt p a
                        (NotificationNotFound (ar_message_id a) (ar_recipient a)) in
      bail NotificationWithdrawalRequiresPreWrite when
        negb (can_withdraw_before_write (nr_state current)) &&
        negb (replaying && withdrawn_by_claim_before_write current) ;;
      Ok (PMNotificationWithdrawnBeforeWrite (ar_recipient a, ar_message_id a)
            (MkRecord (ar_attempt_id a) (ar_message_id a) (ar_recipient a) WithdrawnByOperator None
               (nr_transport current) (nr_doorbell_format current) None None None None None None
               (nr_pre_write_reopen_count current) (nr_unclaimed_reminder_count current)
               (nr_started_seq current) (ll_seq line) (ll_ts line)))
  | _ => expected_fact (str "notification_withdrawn_before_write")
  end.

(** *** Operator resolution of attention *)

(** The attempt needs attention and has a binding to act through. *)
Definition attention_attempt p (a : AttemptRef) : result MailboxError NotificationRecord :=
  let? current := current_attempt p a (NotificationAttemptUnknown (ar_attempt_id a)) in
  bail NotificationClearRequiresAttention when
    bool_decide (nr_state current ≠ AttentionRequired) || bool_decide (nr_binding current = None) ;;
  bail (NotificationAlreadyResolved (ar_attempt_id a)) when
    bool_decide (is_Some (resolved_attempts p !! ar_attempt_id a)) ;;
  Ok current.

Definition prepare_notification_resolution p line : result MailboxError PreparedMutation :=
  let? fact := notification_fact line in
  match fact with
  | NotificationResolved proof_version a resolution =>
      let attempt_id := ar_attempt_id a in
      let? _ := validate_attempt_envelope p line a in
      let? current := attention_attempt p a in
      let ambiguous := NotificationResolutionAmbiguous attempt_id in
      if proof_version =? 0 then
        bail ambiguous when
          negb (uses_legacy_notification_write_contract current) ||
          bool_decide (is_Some (resolution_actions_accepted p !! attempt_id)) ||
          bool_decide (is_Some (resolution_consumptions p !! attempt_id)) ||
          match resolution_intents p !! attempt_id with
          | Some recorded => bool_decide (recorded ≠ resolution)
          | None => false
          end ;;
        Ok (PMResolved attempt_id resolution)
      else if proof_version =? NOTIFICATION_RESOLUTION_PROOF_VERSION then
        bail ambiguous when
          bool_decide (resolution_intents p !! attempt_id ≠ Some resolution) ;;
        match resolution, resolution_actions_accepted p !! attempt_id,
              resolution_consumptions p !! attempt_id with
        | Complete, Some Complete, Some observation =>
            bail ambiguous when negb (proves_exact_consumption (co_evidence observation)) ;;
            Ok (PMResolved attempt_id resolution)
        | Discard, Some Discard, None => Ok (PMResolved attempt_id resolution)
        | _, _, _ => Err ambiguous
        end
      else
        Err (InvalidNotificationFact
               (str "unsupported notification resolution proof version " ++ dec_string proof_version))
  | _ => expected_fact (str "notification_resolved")
  end.

Definition prepare_notification_resolution_without_terminal_action p line
    : result MailboxError PreparedMutation :=
  let? fact := notification_fact line in
  match fact with
  | NotificationResolvedWithoutTerminalAction a resolution =>
      let attempt_id := ar_attempt_id a in
      let? _ := validate_attempt_envelope p line a in
      let? _ := attention_attempt p a in
      bail (NotificationResolutionAmbiguous attempt_id) when
        bool_decide (resolution ≠ Discard) ||
        bool_decide (is_Some (resolution_actions_accepted p !! attempt_id)) ||
        bool_decide (is_Some (resolution_consumptions p !! attempt_id)) ||
        match resolution_intents p !! attempt_id with
        | Some recorded => bool_decide (recorded ≠ Discard)
        | None => false
        end ;;
      Ok (PMResolvedWithoutTerminalAction attempt_id resolution)
  | _ => expected_fact (str "notification_resolved_without_terminal_action")
  end.

Definition prepare_notification_resolution_intent p line : result MailboxError PreparedMutation :=
  let? fact := notification_fact line in
  match fact with
  | NotificationResolutionIntent a resolution forced =>
      let attempt_id := ar_attempt_id a in
      let? _ := validate_attempt_envelope p line a in
      let? _ := attention_attempt p a in
      bail (NotificationResolutionAmbiguous attempt_id) when
        bool_decide (is_Some (resolution_intents p !! attempt_id)) ;;
      bail (NotificationResolutionAmbiguous attempt_id) when
        forced && bool_decide (resolution ≠ Complete) ;;
      Ok (PMResolutionIntent attempt_id resolution forced)
  | _ => expected_fact (str "notification_resolution_intent")
  end.

(** Final reservation of a forced Complete key. *)
Definition validate_forced_notification_resolution_action_reservation p (a : AttemptRef)
    (resolution : NotificationResolution) : result MailboxError bool :=
  let attempt_id := ar_attempt_id a in
  let? current := current_attempt p a (NotificationAttemptUnknown attempt_id) in
  bail NotificationClearRequiresAttention when
    negb (needs_exact_owned_reconciliation current) ||
    bool_decide (notification p (ar_recipient a) (ar_message_id a) ≠ Some current) ||
    bool_decide (active_notification_barriers p !! attempt_id ≠ Some current) ;;
  bail (NotificationMessageNotPending (ar_message_id a) (ar_recipient a)) when
    negb (entry_is_pending p (ar_recipient a) (ar_message_id a)) ;;
  bail (NotificationResolutionAmbiguous attempt_id) when
    bool_decide (resolution ≠ Complete) ||
    bool_decide (is_Some (resolved_attempts p !! attempt_id)) ||
    bool_decide (is_Some (resolution_actions_accepted p !! attempt_id)) ||
    bool_decide (is_Some (resolution_consumptions p !! attempt_id)) ||
    bool_decide (resolution_intents p !! attempt_id ≠ Some resolution) ||
    negb (bool_decide (attempt_id ∈ forced_resolution_intents p)) ;;
  match resolution_action_reservations p !! attempt_id with
  | Some recorded =>
      if bool_decide (recorded = resolution) then Ok true
      else Err (NotificationResolutionAmbiguous attempt_id)
  | None => Ok false
  end.
Definition prepare_notification_resolution_action_reserved p line
    : result MailboxError PreparedMutation :=
  let? fact := notification_fact line in
  match fact with
  | NotificationResolutionActionReserved a resolution =>
      let? _ := validate_attempt_envelope p line a in
      let? _ := validate_forced_notification_resolution_action_reservation p a resolution in
      Ok (PMResolutionActionReserved (ar_attempt_id a) resolution)
  | _ => expected_fact (str "notification_resolution_action_reserved")
  end.

Definition validate_notification_resolution_action_accepted p (a : AttemptRef)
    (resolution : NotificationResolution) : result MailboxError bool :=
  let attempt_id := ar_attempt_id a in
  let? _ := attention_attempt p a in
  bail (NotificationResolutionAmbiguous attempt_id) when
    bool_decide (resolution_intents p !! attempt_id ≠ Some resolution) ;;
  match resolution_actions_accepted p !! attempt_id with
  | Some recorded =>
      if bool_decide (recorded = resolution) then Ok true
      else Err (NotificationResolutionAmbiguous attempt_id)
  | None => Ok false
  end.
Definition prepare_notification_resolution_action_accepted p line
    : result MailboxError PreparedMutation :=
  let? fact := notification_fact line in
  match fact with
  | NotificationResolutionActionAccepted a resolution =>
      let? _ := validate_attempt_envelope p line a in
      let? _ := validate_notification_resolution_action_accepted p a resolution in
      Ok (PMResolutionActionAccepted (ar_attempt_id a) resolution)
  | _ => expected_fact (str "notification_resolution_action_accepted")
  end.

Definition validate_notification_resolution_consumption_observed p (a : AttemptRef)
    (observation : NotificationResolutionConsumptionObservation) : result MailboxError bool :=
  let attempt_id := ar_attempt_id a in
  bail (InvalidNotificationFact (str "resolution consumption observation requires a positive timestamp"))
    when co_observed_at_ms observation =? 0 ;;
  let? _ := attention_attempt p a in
  bail (NotificationResolutionAmbiguous attempt_id) when
    bool_decide (resolution_intents p !! attempt_id ≠ Some Complete) ||
    bool_decide (resolution_actions_accepted p !! attempt_id ≠ Some Complete) ;;
  match resolution_consumptions p !! attempt_id with
  | Some recorded =>
      if bool_decide (recorded = observation) then Ok true
      else Err (NotificationResolutionAmbiguous attempt_id)
  | None => Ok false
  end.
Definition prepare_notification_resolution_consumption_observed p line
    : result MailboxError PreparedMutation :=
  let? fact := notification_fact line in
  match fact with
  | NotificationResolutionConsumptionObserved a evidence observed_at_ms =>
      let observation := MkConsumption evidence observed_at_ms in
      let? _ := validate_attempt_envelope p line a in
      let? _ := validate_notification_resolution_consumption_observed p a observation in
      Ok (PMResolutionConsumptionObserved (ar_attempt_id a) observation)
  | _ => expected_fact (str "notification_resolution_consumption_observed")
  end.

Definition prepare_notification_resolution_intent_withdrawn p line
    : result MailboxError PreparedMutation :=
  let? fact := notification_fact line in
  match fact with
  | NotificationResolutionIntentWithdrawn a resolution =>
      let attempt_id := ar_attempt_id a in
      let? _ := validate_attempt_envelope p line a in
      let? _ := current_attempt p a (NotificationAttemptUnknown attempt_id) in
      bail (NotificationResolutionAmbiguous attempt_id) when
        bool_decide (resolution_intents p !! attempt_id ≠ Some resolution) ||
        bool_decide (is_Some (resolved_attempts p !! attempt_id)) ||
        bool_decide (is_Some (resolution_action_reservations p !! attempt_id)) ||
        bool_decide (is_Some (resolution_actions_accepted p !! attempt_id)) ||
        bool_decide (is_Some (resolution_consumptions p !! attempt_id)) ;;
      Ok (PMResolutionIntentWithdrawn attempt_id)
  | _ => expected_fact (str "notification_resolution_intent_withdrawn")
  end.

(** *** Claims that settle a written doorbell *)
Definition set_record_settled (r : NotificationRecord) (state : NotificationState) line
    : NotificationRecord :=
  MkRecord (nr_attempt_id r) (nr_message_id r) (nr_recipient r) state (nr_binding r)
    (nr_transport r) (nr_doorbell_format r) None (nr_verified_by r) (nr_verify_outcome r) None
    (nr_wake_block r) None (nr_pre_write_reopen_count r) (nr_unclaimed_reminder_count r)
    (nr_started_seq r) (ll_seq line) (ll_ts line).

Definition prepare_notification_claimed_staged_clear p line
    : result MailboxError PreparedMutation :=
  let? fact := notification_fact line in
  match fact with
  | NotificationClaimedStagedCleared a =>
      let attempt_id := ar_attempt_id a in
      let? _ := validate_attempt_envelope p line a in
      let? current := current_attempt p a
                        (NotificationNotFound (ar_message_id a) (ar_recipient a)) in
      bail (InvalidNotificationTransition (nr_state current) WithdrawnAfterStaging) when
        bool_decide (nr_state current ≠ Staged) || bool_decide (nr_transport current ≠ Doorbell) ;;
      bail (InvalidNotificationFact (str "claimed staged clear requires the exact recipient claim"))
        when negb (claimed_by p (ar_recipient a) (ar_message_id a)) ;;
      let? active := ok_or (active_notification_barriers p !! attempt_id)
                       (NotificationBarrierNotActive attempt_id) in
      bail (NotificationAttemptMismatch (nr_attempt_id active) attempt_id) when
        bool_decide (nr_message_id active ≠ ar_message_id a) ||
        bool_decide (nr_recipient active ≠ ar_recipient a) ;;
      bail (InvalidNotificationFact (str "claimed staged clear does not match the exact active barrier"))
        when bool_decide (nr_state active ≠ Staged) ||
             bool_decide (nr_binding active ≠ nr_binding current) ||
             bool_decide (nr_transport active ≠ nr_transport current) ||
             bool_decide (nr_doorbell_format active ≠ nr_doorbell_format current) ;;
      Ok (PMClaimedStagedCleared (ar_recipient a, ar_message_id a)
            (set_record_settled current WithdrawnAfterStaging line) attempt_id)
  | _ => expected_fact (str "notification_claimed_staged_cleared")
  end.

Definition prepare_notification_claimed_ack_timeout_reconciliation p line
    : result MailboxError PreparedMutation :=
  let? fact := notification_fact line in
  match fact with
  | NotificationClaimedAckTimeoutReconciled a =>
      let attempt_id := ar_attempt_id a in
      let? _ := validate_attempt_envelope p line a in
      let? current := current_attempt p a
                        (NotificationNotFound (ar_message_id a) (ar_recipient a)) in
      bail (InvalidNotificationTransition (nr_state current) Notified) when
        negb (needs_claimed_ack_timeout_reconciliation current) ;;
      bail (InvalidNotificationFact (str "ACK-timeout reconciliation requires an exact recipient claim after write"))
        when negb (exact_recipient_claimed_after_write p current) ;;
      let? active := ok_or (active_notification_barriers p !! attempt_id)
                       (NotificationBarrierNotActive attempt_id) in
      bail (InvalidNotificationFact (str "ACK-timeout reconciliation does not match the exact active barrier"))
        when bool_decide (active ≠ current) ;;
      Ok (PMClaimedAckTimeoutReconciled (ar_recipient a, ar_message_id a)
            (set_record_settled current Notified line) attempt_id)
  | _ => expected_fact (str "notification_claimed_ack_timeout_reconciled")
  end.

(** *** Barrier retirement *)
Definition barrier_retirement_allowed p (a : AttemptRef) (active : NotificationRecord)
    (cause : NotificationBarrierRetirementCause) (replacement : option NotificationBinding)
    : result MailboxError unit :=
  match cause with
  | OccupantReplaced =>
      match replacement with
      | Some binding =>
          bail NotificationBarrierReplacementRequired when bool_decide (nb_leader binding = None) ;;
          bail NotificationBindingMismatch when bool_decide (nb_recipient binding ≠ ar_recipient a) ;;
          bail NotificationBarrierReplacementUnchanged when
            match nr_binding active with
            | Some held =>
                bool_decide (nb_agent held = nb_agent binding) &&
                bool_decide (nb_manifest held = nb_manifest binding)
            | None => false
            end ;;
          Ok ()
      | None => Err NotificationBarrierReplacementRequired
      end
  | ComposerObservedClear =>
      bail NotificationBarrierReplacementForbidden when bool_decide (is_Some replacement) ;;
      bail (NotificationBarrierRetirementState cause (nr_state active)) when
        bool_decide (nr_state active ≠ Notified) &&
        bool_decide (nr_state active ≠ WithdrawnAfterStaging) ;;
      Ok ()
  | RecipientClaimedComposerClear =>
      bail NotificationBarrierReplacementForbidden when bool_decide (is_Some replacement) ;;
      bail (NotificationBarrierRetirementState cause (nr_state active)) when
        (bool_decide (nr_state active ≠ AttentionRequired) &&
         bool_decide (nr_state active ≠ Notified)) ||
        negb (uses_incomplete_legacy_doorbell_contract active) ||
        negb (exact_recipient_claimed_after_write p active) ;;
      Ok ()
  | LifecycleReconciled =>
      bail NotificationBarrierReplacementForbidden when bool_decide (is_Some replacement) ;;
      bail (NotificationBarrierRetirementState cause (nr_state active)) when
        needs_claimed_ack_timeout_reconciliation active &&
        exact_recipient_claimed_after_write p active ;;
      Ok ()
  | PaneGone =>
      bail NotificationBarrierReplacementForbidden when bool_decide (is_Some replacement) ;;
      Ok ()
  end.

Definition prepare_notification_barrier_retirement p line : result MailboxError PreparedMutation :=
  let? fact := notification_fact line in
  match fact with
  | NotificationBarrierRetired a cause replacement =>
      let attempt_id := ar_attempt_id a in
      let? _ := validate_attempt_envelope p line a in
      let? active := ok_or (active_notification_barriers p !! attempt_id)
                       (NotificationBarrierNotActive attempt_id) in
      bail (NotificationAttemptMismatch (nr_attempt_id active) attempt_id) when
        bool_decide (nr_message_id active ≠ ar_message_id a) ||
        bool_decide (nr_recipient active ≠ ar_recipient a) ;;
      let? _ := barrier_retirement_allowed p a active cause replacement in
      Ok (PMBarrierRetired attempt_id)
  | _ => expected_fact (str "notification_barrier_retired")
  end.

(** ** Dispatch *)
Definition prepare_state p line (replaying : bool) : result MailboxError PreparedMutation :=
  let tagged tag fact_type := bool_decide (fact_type = str tag) in
  match v ← ll_data line; value_type v with
  | Some t =>
      if tagged "message_claimed"%string t then prepare_claim p line
      else if tagged "message_delivered_direct"%string t then prepare_delivered_direct p line
      else if tagged "notification_transition"%string t
        then prepare_notification_transition p line replaying
      else if tagged "notification_unclaimed_reminder_queued"%string t
        then prepare_unclaimed_reminder_queued p line
      else if tagged "notification_requeued"%string t then prepare_notification_requeue p line
      else if tagged "notifications_requeued"%string t then prepare_notification_requeues p line
      else if tagged "notification_cleared"%string t then prepare_notification_clear p line
      else if tagged "notifications_cleared"%string t then prepare_notification_clears p line
      else if tagged "notification_withdrawn_before_write"%string t
        then prepare_notification_withdrawal p line replaying
      else if tagged "notification_resolution_intent"%string t
        then prepare_notification_resolution_intent p line
      else if tagged "notification_resolution_action_reserved"%string t
        then prepare_notification_resolution_action_reserved p line
      else if tagged "notification_resolution_action_accepted"%string t
        then prepare_notification_resolution_action_accepted p line
      else if tagged "notification_resolution_consumption_observed"%string t
        then prepare_notification_resolution_consumption_observed p line
      else if tagged "notification_resolution_intent_withdrawn"%string t
        then prepare_notification_resolution_intent_withdrawn p line
      else if tagged "notification_resolved_without_terminal_action"%string t
        then prepare_notification_resolution_without_terminal_action p line
      else if tagged "notification_resolved"%string t then prepare_notification_resolution p line
      else if tagged "notification_claimed_staged_cleared"%string t
        then prepare_notification_claimed_staged_clear p line
      else if tagged "notification_claimed_ack_timeout_reconciled"%string t
        then prepare_notification_claimed_ack_timeout_reconciliation p line
      else if tagged "notification_barrier_retired"%string t
        then prepare_notification_barrier_retirement p line
      else Err (uncanonical_state_row line)
  | None => Err (uncanonical_state_row line)
  end.

Definition prepare_line_inner p line (replaying : bool) : result MailboxError PreparedMutation :=
  let previous := default 0 (last_workspace_seq p) in
  let? expected := ok_or (checked_add_u64 previous 1)
                     (NonContiguousSequence previous (ll_seq line)) in
  bail (NonContiguousSequence expected (ll_seq line)) when negb (ll_seq line =? expected) ;;
  match ll_kind line with
  | KMsg | KFyi => prepare_message p line
  | KState => prepare_state p line replaying
  | KSystem | KGate =>
      Err (UncanonicalRow (str "unsupported workspace row kind " ++ kind_debug (ll_kind line) ++
             str " seq " ++ dec_string (ll_seq line)))
  end.
Definition prepare_line p line : result MailboxError PreparedMutation :=
  prepare_line_inner p line false.

(** ** Committing *)

(** Assigns the state of an entry through [get_entry_mut]. *)
Definition set_entry p (recipient : RecipientKey) (id : MessageId) (s : MailboxEntryState)
    : option (MailboxProjection V) :=
  seq ← mailbox_index p !! (recipient, id);
  entries ← mailboxes p !! recipient;
  entry ← (entries : gmap N MailboxEntry) !! seq;
  Some (set_mailboxes
          (<[recipient := <[seq := set_entry_state s entry]> (entries : gmap N MailboxEntry)]>
             (mailboxes p)) p).

(** Appends one pending entry per recipient. *)
Definition insert_entry line (message_id : MessageId) p (recipient : RecipientKey)
    : MailboxProjection V :=
  let entry := MkEntry message_id recipient Pending (ll_seq line) (ll_ts line) in
  let entries : gmap N MailboxEntry := default ∅ (mailboxes p !! recipient) in
  set_mailbox_index (<[(recipient, message_id) := ll_seq line]> (mailbox_index p))
    (set_mailboxes (<[recipient := <[ll_seq line := entry]> entries]> (mailboxes p)) p).

Definition commit_message p line (message_id : MessageId) (metadata : MessageMetadata)
    (superseded_notification : option NotificationProjectionUpdate)
    : option (MailboxProjection V) :=
  p ← match md_supersedes metadata with
      | Some superseded =>
          recipient ← md_recipients metadata !! 0%nat;
          set_entry p recipient superseded (EntrySuperseded message_id (ll_ts line))
      | None => Some p
      end;
  let p := match md_client_key metadata with
           | Some client_key =>
               set_idempotency_index
                 (<[(md_sender metadata, client_key) := (message_id, md_request_digest metadata)]>
                    (idempotency_index p)) p
           | None => p
           end in
  let p := foldl (insert_entry line message_id) p (md_recipients metadata) in
  let p := match superseded_notification with
           | Some u => set_notifications (<[up_key u := up_record u]> (notifications p)) p
           | None => p
           end in
  Some (set_messages (<[message_id := line]> (messages p)) p).

Definition commit_claim p line (message_id : MessageId) (recipient claimant : RecipientKey)
    (notification_update : option NotificationProjectionUpdate) : option (MailboxProjection V) :=
  let p := set_claim_sequences (<[(recipient, message_id) := ll_seq line]> (claim_sequences p)) p in
  p ← set_entry p recipient message_id (Claimed claimant (ll_ts line));
  Some (match notification_update with
        | Some u =>
            let attempt_id := nr_attempt_id (up_record u) in
            let p :=
              if bool_decide (is_Some (active_notification_barriers p !! attempt_id))
              then set_active_notification_barriers
                     (<[attempt_id := up_record u]> (active_notification_barriers p)) p
              else p in
            set_notifications (<[up_key u := up_record u]> (notifications p)) p
        | None => p
        end).

(** The record crosses the terminal write boundary with a binding. *)
Definition bound_write (r : NotificationRecord) : bool :=
  bool_decide (nr_state r = Writing) && bool_decide (is_Some (nr_binding r)).
Definition proven_unwritten (r : NotificationRecord) : bool :=
  bool_decide (nr_state r = BlockedPreWrite) &&
  bool_decide (nr_pre_write_cause r = Some PasteCommandUnwritten).

(** [HashMap::retain] on the barriers: a later admitted write releases every
    other barrier of the same recipient. *)
Definition release_barriers (r : NotificationRecord)
    (barriers : gmap NotificationAttemptId NotificationRecord)
    : gmap NotificationAttemptId NotificationRecord :=
  filter (λ kv, kv.1 = nr_attempt_id r ∨ nr_recipient kv.2 ≠ nr_recipient r) barriers.

Definition commit_notification p line (key : RecipientKey * MessageId) (r : NotificationRecord)
    (new_attempt : bool) : MailboxProjection V :=
  let p := if new_attempt
           then set_notification_attempts ({[nr_attempt_id r]} ∪ notification_attempts p) p
           else p in
  let p := if bound_write r then
             set_active_notification_barriers
               (release_barriers r (active_notification_barriers p))
               (set_notification_write_sequences
                  (<[nr_attempt_id r := ll_seq line]> (notification_write_sequences p)) p)
           else p in
  let p := if proven_unwritten r then
             set_notification_write_sequences
               (delete (nr_attempt_id r) (notification_write_sequences p))
               (set_active_notification_barriers
                  (delete (nr_attempt_id r) (active_notification_barriers p)) p)
           else if bound_write r ||
                   bool_decide (is_Some (active_notification_barriers p !! nr_attempt_id r)) then
             set_active_notification_barriers
               (<[nr_attempt_id r := r]> (active_notification_barriers p)) p
           else p in
  set_notifications (<[key := r]> (notifications p)) p.

Definition commit_requeue p (kr : (RecipientKey * MessageId) * NotificationRecord)
    : MailboxProjection V :=
  set_notifications (<[kr.1 := kr.2]> (notifications p))
    (set_notification_attempts ({[nr_attempt_id kr.2]} ∪ notification_attempts p) p).

Definition retire_barrier (attempt_id : NotificationAttemptId) p : MailboxProjection V :=
  set_active_notification_barriers (delete attempt_id (active_notification_barriers p)) p.
Definition commit_resolved p (attempt_id : NotificationAttemptId)
    (resolution : NotificationResolution) : MailboxProjection V :=
  retire_barrier attempt_id
    (set_forced_resolution_intents (forced_resolution_intents p ∖ {[attempt_id]})
       (set_resolved_attempts (<[attempt_id := resolution]> (resolved_attempts p)) p)).

Definition commit_line p line (prepared : PreparedMutation) : option (MailboxProjection V) :=
  let p := set_last_workspace_seq (Some (ll_seq line)) p in
  match prepared with
  | PMMessage message_id metadata update => commit_message p line message_id metadata update
  | PMClaim message_id recipient claimant update =>
      commit_claim p line message_id recipient claimant update
  | PMDeliveredDirect message_id recipient attempt_id =>
      set_entry p recipient message_id (DeliveredDirect attempt_id (ll_ts line))
  | PMNotification key r new_attempt => Some (commit_notification p line key r new_attempt)
  | PMNotificationRequeues records => Some (foldl commit_requeue p records)
  | PMNotificationCleared attempt_id =>
      Some (set_cleared_attempts ({[attempt_id]} ∪ cleared_attempts p) p)
  | PMNotificationsCleared batch_id attempt_ids =>
      Some (set_cleared_attempts (list_to_set attempt_ids ∪ cleared_attempts p)
              (set_clearance_batches ({[batch_id]} ∪ clearance_batches p) p))
  | PMNotificationWithdrawnBeforeWrite key r =>
      Some (set_notifications (<[key := r]> (notifications p)) p)
  | PMResolutionIntent attempt_id resolution forced =>
      let p := set_resolution_intents (<[attempt_id := resolution]> (resolution_intents p)) p in
      Some (if forced : bool
            then set_forced_resolution_intents ({[attempt_id]} ∪ forced_resolution_intents p) p
            else p)
  | PMResolutionActionReserved attempt_id resolution =>
      Some (set_resolution_action_reservation_sequences
              (<[attempt_id := ll_seq line]> (resolution_action_reservation_sequences p))
              (set_resolution_action_reservations
                 (<[attempt_id := resolution]> (resolution_action_reservations p)) p))
  | PMResolutionActionAccepted attempt_id resolution =>
      Some (set_resolution_action_sequences
              (<[attempt_id := ll_seq line]> (resolution_action_sequences p))
              (set_resolution_actions_accepted
                 (<[attempt_id := resolution]> (resolution_actions_accepted p)) p))
  | PMResolutionConsumptionObserved attempt_id observation =>
      Some (set_resolution_consumptions
              (<[attempt_id := observation]> (resolution_consumptions p)) p)
  | PMResolutionIntentWithdrawn attempt_id =>
      Some (set_forced_resolution_intents (forced_resolution_intents p ∖ {[attempt_id]})
              (set_resolution_intents (delete attempt_id (resolution_intents p)) p))
  | PMResolvedWithoutTerminalAction attempt_id resolution
  | PMResolved attempt_id resolution => Some (commit_resolved p attempt_id resolution)
  | PMClaimedStagedCleared key r attempt_id =>
      Some (retire_barrier attempt_id (set_notifications (<[key := r]> (notifications p)) p))
  | PMClaimedAckTimeoutReconciled key r attempt_id =>
      let p := retire_barrier attempt_id (set_notifications (<[key := r]> (notifications p)) p) in
      Some (set_claimed_ack_timeout_reconciliations
              ({[attempt_id]} ∪ claimed_ack_timeout_reconciliations p) p)
  | PMBarrierRetired attempt_id => Some (retire_barrier attempt_id p)
  end.

(** ** Applying one row *)
Inductive Applied :=
| AppliedOk (p : MailboxProjection V)
| AppliedErr (e : MailboxError)
| AppliedPanic.
Definition apply_inner p line (replaying : bool) : Applied :=
  match prepare_line_inner p line replaying with
  | Err e => AppliedErr e
  | Ok prepared =>
      match commit_line p line prepared with
      | Some p' => AppliedOk p'
      | None => AppliedPanic
      end
  end.
Definition apply_owned p line : Applied := apply_inner p line false.
Definition apply_replayed_owned p line : Applied := apply_inner p line true.
End projection.
