(* ===== verification/Attempt.v ===== *)
(** * One attempt through its life

    The abstract machine a notification attempt follows: [attempt_step] has
    one rule per way the projection may rewrite the record of an attempt it
    already holds.  The theorems here are about that machine alone: the write
    boundary is crossed one way, counters are bounded, and an attempt accepts
    finitely many facts.  [Invariant.v] shows that the projection only ever
    takes these steps. *)
From S2P Require Import Prelude Text Identity Ledger Mailbox Notification Facts.
From S2P Require Import Projection.
Local Open Scope N_scope.

(** The attempt may have put bytes into the pane. *)
Definition post_write (s : NotificationState) : bool :=
  match s with
  | Writing | Staged | Submitting | Submitted | SubmittedUnverified | Notified
  | AttentionRequired => true
  | _ => false
  end.

(** States in which the daemon still owes the attempt a step. *)
Definition in_flight (s : NotificationState) : bool :=
  match s with
  | Writing | Staged | Submitting | Submitted | SubmittedUnverified => true
  | _ => false
  end.

Section attempt.
Context {V : Type}.
Implicit Types (line : LedgerLine V) (r c : NotificationRecord).

Inductive attempt_step (replaying : bool) : NotificationRecord → NotificationRecord → Prop :=
| step_transition t c line :
    transition_from_current t (Some c) replaying = Ok () →
    transition_write_fields t (Some c) = Ok () →
    transition_attention t (Some c) replaying = Ok () →
    transition_pre_write t = Ok () →
    attempt_step replaying c (transition_record t c line)
| step_reminder c line :
    nr_state c = Notified → nr_transport c = Doorbell → nr_unclaimed_reminder_count c = 0 →
    attempt_step replaying c (reminder_record c line)
| step_superseded c line :
    match nr_state c with
    | Queued | Gating | BlockedPreWrite | QuotaHeld | QuotaResetObserved
    | WithdrawnByOperator => True
    | _ => False
    end →
    attempt_step replaying c (settled_record c Superseded None None line)
| step_claimed c line :
    settled_by_claim (nr_state c) (nr_transport c) ≠ nr_state c →
    attempt_step replaying c (claim_record c line)
| step_withdrawn c line :
    can_withdraw_before_write (nr_state c) = true ∨
      (replaying = true ∧ withdrawn_by_claim_before_write c = true) →
    attempt_step replaying c (settled_record c WithdrawnByOperator None None line)
| step_staged_cleared c line :
    nr_state c = Staged → nr_transport c = Doorbell →
    attempt_step replaying c (set_record_settled c WithdrawnAfterStaging line)
| step_ack_reconciled c line :
    needs_claimed_ack_timeout_reconciliation c = true →
    attempt_step replaying c (set_record_settled c Notified line).

(** ** State edges *)

(** What the guards of a transition fact leave open. *)
Lemma transition_from_current_Some t c replaying :
  transition_from_current t (Some c) replaying = Ok () →
  nr_attempt_id c = tf_attempt_id t ∧
  (nr_state c = BlockedPreWrite → tf_state t = Gating → nr_pre_write_reopen_count c = 0) ∧
  (tf_pre_write_cause t = Some PasteCommandUnwritten →
     nr_state c = Writing ∧ tf_state t = BlockedPreWrite) ∧
  notification_transition_allowed c (tf_state t) (tf_pre_write_cause t) replaying = true ∧
  (nr_state c = Queued → tf_state t = Notified → tf_transport t = Some MailboxOnly).
Proof.
  unfold transition_from_current. intros H. ok_inv.
  repeat match goal with
  | H : _ && _ = false |- _ => apply andb_false_iff in H
  | H : negb _ = false |- _ => apply negb_false_iff in H
  end.
  split_and!; [done|..].
  - intros Hc Ht. rewrite Hc, Ht in *.
    repeat match goal with H : (_ ∨ _) |- _ => destruct H end; bool_facts; try done;
      match goal with H : (1 <=? _) = false |- _ => apply N.leb_gt in H; lia end.
  - intros Hc. rewrite Hc in *.
    repeat match goal with H : (_ ∨ _) |- _ => destruct H end; bool_facts; done.
  - done.
  - intros Hc Ht. rewrite Hc, Ht in *.
    repeat match goal with H : (_ ∨ _) |- _ => destruct H end; bool_facts; done.
Qed.

(** The live edges: the published table and the one cause-gated correction. *)
Lemma transition_allowed_live c next cause :
  notification_transition_allowed c next cause false = true →
  can_transition_to (nr_state c) next = true ∨
  (nr_state c = Writing ∧ next = BlockedPreWrite ∧ cause = Some PasteCommandUnwritten).
Proof.
  unfold notification_transition_allowed. cbn [andb]. rewrite !orb_false_r.
  intros [H|H]%orb_true_iff; [by left|right]. bool_facts. done.
Qed.

(** Every terminal write but a raw one names the pane it writes to. *)
Lemma transition_write_fields_binding t oc :
  transition_write_fields t oc = Ok () → tf_state t = Writing → tf_transport t ≠ Some Raw →
  ∃ b, tf_binding t = Some b ∧ nb_recipient b = tf_recipient t.
Proof.
  unfold transition_write_fields. intros Hwf Hw Hraw. rewrite Hw in Hwf.
  rewrite (bool_decide_eq_true_2 (Writing = Writing)),
    (bool_decide_eq_true_2 (tf_transport t ≠ Some Raw)) in Hwf by done.
  cbn [andb] in Hwf. destruct (tf_binding t) as [b|]; ok_inv. by eauto.
Qed.

(** ** Termination *)

(** Every live step spends from this budget: the two bounded allowances
    (the automatic reopen and the reminder) pay for the only backward edges. *)
Definition state_rank (s : NotificationState) : N :=
  match s with
  | Queued => 12 | Gating => 11 | Writing => 10 | Staged => 9 | Submitting => 8
  | Submitted => 7 | SubmittedUnverified => 7 | AttentionRequired => 6 | Notified => 5
  | BlockedPreWrite => 4 | QuotaHeld => 4 | QuotaResetObserved => 3
  | WithdrawnByOperator => 2 | Withdrawn => 1 | WithdrawnAfterStaging => 1 | Superseded => 0
  end.
Definition attempt_budget (r : NotificationRecord) : N :=
  20 * (1 - nr_pre_write_reopen_count r) + 20 * (1 - nr_unclaimed_reminder_count r) +
  state_rank (nr_state r).

Lemma can_transition_to_rank s next :
  can_transition_to s next = true →
  state_rank next < state_rank s ∨ (s = BlockedPreWrite ∧ next = Gating).
Proof. destruct s, next; intros; simplify_eq/=; auto; left; done. Qed.

Lemma settled_by_claim_rank s tr :
  settled_by_claim s tr ≠ s → state_rank (settled_by_claim s tr) < state_rank s.
Proof. destruct s, tr; cbn; done. Qed.

Lemma reopen_count_step t c line :
  nr_state c = BlockedPreWrite → tf_state t = Gating → nr_pre_write_reopen_count c = 0 →
  nr_pre_write_reopen_count (transition_record t c line) = 1.
Proof. intros Hc Ht H0. cbn. by rewrite Hc, Ht, H0. Qed.

Lemma reopen_count_keep t c line :
  ¬ (nr_state c = BlockedPreWrite ∧ tf_state t = Gating) →
  nr_pre_write_reopen_count (transition_record t c line) = nr_pre_write_reopen_count c.
Proof.
  intros H. cbn. destruct (bool_decide (nr_state c = BlockedPreWrite)) eqn:E1;
    destruct (bool_decide (tf_state t = Gating)) eqn:E2; bool_facts; naive_solver.
Qed.

Lemma attempt_step_budget c r : attempt_step false c r → attempt_budget r < attempt_budget c.
Proof.
  destruct 1 as [t c line Hcur _ _ _|c line Hs _ H0|c line Hs|c line Hne
    |c line Hw|c line Hs _|c line Hn]; unfold attempt_budget.
  - apply transition_from_current_Some in Hcur as (_ & Hreopen & _ & Hallow & _).
    assert (nr_unclaimed_reminder_count (transition_record t c line) =
            nr_unclaimed_reminder_count c) as -> by done.
    assert (nr_state (transition_record t c line) = tf_state t) as -> by done.
    apply transition_allowed_live in Hallow as [Hcan|(Hw & Hb & _)].
    + destruct (decide (nr_state c = BlockedPreWrite ∧ tf_state t = Gating)) as [[Hc Ht]|Hno].
      * rewrite reopen_count_step by auto. rewrite (Hreopen Hc Ht), Hc, Ht. cbn [state_rank]. lia.
      * rewrite reopen_count_keep by done.
        apply can_transition_to_rank in Hcan as [Hlt|[??]]; [lia|by destruct Hno].
    + rewrite reopen_count_keep by (intros [??]; congruence). rewrite Hw, Hb. cbn [state_rank]. lia.
  - cbn [reminder_record nr_state nr_pre_write_reopen_count nr_unclaimed_reminder_count].
    rewrite Hs, H0. cbn [state_rank]. lia.
  - cbn. destruct (nr_state c); try done; cbn [state_rank]; lia.
  - cbn. apply settled_by_claim_rank in Hne. lia.
  - cbn. destruct Hw as [Hw|[? _]]; [|done].
    destruct (nr_state c); try done; cbn [state_rank]; lia.
  - cbn. rewrite Hs. cbn [state_rank]. lia.
  - cbn. unfold needs_claimed_ack_timeout_reconciliation in Hn. bool_facts.
    match goal with H : nr_state c = _ |- _ => rewrite H end. cbn [state_rank]. lia.
Qed.

(** ** Bounded counters *)
Definition counters_bounded (r : NotificationRecord) : Prop :=
  nr_pre_write_reopen_count r ≤ 1 ∧ nr_unclaimed_reminder_count r ≤ 1.

Lemma attempt_step_counters replaying c r :
  attempt_step replaying c r → counters_bounded c →
  counters_bounded r ∧
  nr_pre_write_reopen_count c ≤ nr_pre_write_reopen_count r ∧
  nr_unclaimed_reminder_count c ≤ nr_unclaimed_reminder_count r.
Proof.
  intros Hstep [Hr Hu].
  destruct Hstep as [t c line Hcur _ _ _|c line Hs _ H0|c line Hs|c line Hne
    |c line Hw|c line Hs _|c line Hn]; unfold counters_bounded;
    try (cbn [nr_pre_write_reopen_count nr_unclaimed_reminder_count reminder_record
              settled_record claim_record set_record_settled]; lia).
  apply transition_from_current_Some in Hcur as (_ & Hreopen & _).
  assert (nr_unclaimed_reminder_count (transition_record t c line) =
          nr_unclaimed_reminder_count c) as -> by done.
  destruct (decide (nr_state c = BlockedPreWrite ∧ tf_state t = Gating)) as [[Hc Ht]|Hno].
  - rewrite reopen_count_step by auto. rewrite (Hreopen Hc Ht). lia.
  - rewrite reopen_count_keep by done. lia.
Qed.

Lemma attempt_step_identity replaying c r :
  attempt_step replaying c r → nr_attempt_id r = nr_attempt_id c ∧ nr_started_seq r = nr_started_seq c.
Proof.
  destruct 1 as [t c line Hcur _ _ _|c line Hs _ H0|c line Hs|c line Hne
    |c line Hw|c line Hs _|c line Hn]; try done.
  apply transition_from_current_Some in Hcur as (Heq & _). by split.
Qed.

(** ** The write boundary *)

(** Leaving the states behind the write boundary. *)
Lemma write_boundary_cases replaying c r :
  attempt_step replaying c r →
  post_write (nr_state c) = true → post_write (nr_state r) = false →
  (nr_state c = Writing ∧ nr_state r = BlockedPreWrite ∧
     nr_pre_write_cause r = Some PasteCommandUnwritten ∧ nr_binding r = None) ∨
  (nr_state c = Notified ∧ nr_state r = Gating ∧ nr_transport c = Doorbell ∧
     nr_unclaimed_reminder_count c = 0 ∧ nr_unclaimed_reminder_count r = 1) ∨
  (nr_state c = Staged ∧ nr_state r = WithdrawnAfterStaging ∧ nr_transport c = Doorbell).
Proof.
  destruct 1 as [t c line Hcur _ _ _|c line Hs Htr H0|c line Hs|c line Hne
    |c line Hw|c line Hs Htr|c line Hn]; intros Hpost Hpre.
  - left. apply transition_from_current_Some in Hcur as (_ & _ & _ & Hallow & _).
    unfold notification_transition_allowed, withdrawn_by_claim_before_write in Hallow.
    cbn in Hpre |- *.
    repeat (apply orb_true_iff in Hallow as [Hallow|Hallow]; bool_facts).
    + by destruct (nr_state c), (tf_state t).
    + unfold proven_unwritten_fact.
      repeat match goal with H : _ = _ |- _ => rewrite H in *; clear H end. done.
    + by destruct (tf_state t).
    + by destruct (nr_state c).
  - right; left. by cbn.
  - by destruct (nr_state c).
  - cbn in Hpre. by destruct (nr_state c), (nr_transport c).
  - unfold withdrawn_by_claim_before_write in Hw.
    destruct Hw as [Hw|[_ Hw]]; [|bool_facts]; destruct (nr_state c); done.
  - right; right. by cbn.
  - by cbn in Hpre.
Qed.

(** [C26.] No step takes an attempt that may have written bytes back in front of
    the write boundary, except the three recorded ways: the correction that
    proves no command byte was accepted, the one reminder of a notified
    doorbell, and clearing a staged doorbell its recipient has claimed. *)
Theorem write_boundary_one_way replaying c r :
  attempt_step replaying c r →
  post_write (nr_state c) = true → post_write (nr_state r) = false →
  (nr_state c = Writing ∧ nr_state r = BlockedPreWrite ∧
     nr_pre_write_cause r = Some PasteCommandUnwritten ∧ nr_binding r = None) ∨
  (nr_state c = Notified ∧ nr_state r = Gating ∧ nr_transport c = Doorbell ∧
     nr_unclaimed_reminder_count c = 0 ∧ nr_unclaimed_reminder_count r = 1) ∨
  (nr_state c = Staged ∧ nr_state r = WithdrawnAfterStaging ∧ nr_transport c = Doorbell).
Proof. apply write_boundary_cases. Qed.

(** An attempt crosses the write boundary only from [Gating] (in a
    replayed journal also from a claim's withdrawal), into [Writing], and with
    a binding to its own recipient unless it writes raw; a message nobody
    needs to be told of goes straight from [Queued] to [Notified] with the
    mailbox-only transport. *)
Theorem write_boundary_crossed_bound replaying c r :
  attempt_step replaying c r →
  post_write (nr_state c) = false → post_write (nr_state r) = true →
  (nr_state r = Writing ∧
     (nr_state c = Gating ∨ (replaying = true ∧ withdrawn_by_claim_before_write c = true)) ∧
     (nr_transport r = Raw ∨
        ∃ b, nr_binding r = Some b ∧ nb_recipient b = nr_recipient r)) ∨
  (nr_state c = Queued ∧ nr_state r = Notified ∧ nr_transport r = MailboxOnly).
Proof.
  destruct 1 as [t c line Hcur Hwf _ _|c line Hs Htr H0|c line Hs|c line Hne
    |c line Hw|c line Hs Htr|c line Hn]; intros Hpre Hpost; try done.
  - apply transition_from_current_Some in Hcur as (_ & _ & _ & Hallow & Hqn).
    cbn in Hpost |- *.
    destruct (decide (tf_state t = Writing)) as [Hwr|Hnw].
    + left. rewrite Hwr in *. cbn in Hallow |- *. split; [done|]. split.
      { unfold notification_transition_allowed in Hallow.
        repeat (apply orb_true_iff in Hallow as [Hallow|Hallow]; bool_facts); try done; auto.
        by destruct (nr_state c); auto. }
      destruct (decide (tf_transport t = Some Raw)) as [->|Hraw]; [by left|right].
      apply transition_write_fields_binding in Hwf as (b & -> & Hb); by eauto.
    + right.
      assert (nr_state c = Queued ∧ tf_state t = Notified) as [Hq Hnot].
      { unfold notification_transition_allowed, withdrawn_by_claim_before_write in Hallow.
        repeat (apply orb_true_iff in Hallow as [Hallow|Hallow]; bool_facts);
          destruct (nr_state c), (tf_state t); done. }
      rewrite Hq, Hnot. unfold mailbox_close. rewrite Hnot, (Hqn Hq Hnot). done.
  - unfold claim_record in Hpost. cbn in Hpost. by destruct (nr_state c), (nr_transport c).
  - unfold needs_claimed_ack_timeout_reconciliation in Hn. bool_facts.
    by replace (nr_state c) with AttentionRequired in Hpre.
Qed.

(** Between two states behind the write boundary the binding never changes. *)
Lemma attempt_step_binding replaying c r :
  attempt_step replaying c r → post_write (nr_state c) = true → post_write (nr_state r) = true →
  nr_binding r = nr_binding c.
Proof.
  destruct 1 as [t c line Hcur _ _ _|c line Hs Htr H0|c line Hs|c line Hne
    |c line Hw|c line Hs Htr|c line Hn]; intros Hpre Hpost; try done.
  - apply transition_from_current_Some in Hcur as (_ & _ & _ & Hallow & _).
    cbn in Hpost |- *. rewrite bool_decide_eq_false_2.
    + unfold proven_unwritten_fact. by destruct (tf_state t).
    + intros Hw. rewrite Hw in Hallow.
      unfold notification_transition_allowed, withdrawn_by_claim_before_write in Hallow.
      repeat (apply orb_true_iff in Hallow as [Hallow|Hallow]; bool_facts); try done;
        by destruct (nr_state c).
  - cbn in Hpost |- *. by destruct (nr_state c), (nr_transport c).
Qed.

(** ** Ends *)

(** What can still happen, live, to an attempt in a state the protocol
    calls terminal: a quota hold ends, a claim, replacement or the one
    reminder or reconciliation applies; nothing else does, and [Withdrawn],
    [WithdrawnAfterStaging] and [Superseded] are final. *)
Theorem terminal_states_live c r :
  attempt_step false c r → is_terminal (nr_state c) = true →
  match nr_state c, nr_state r with
  | QuotaHeld, QuotaResetObserved => True
  | QuotaHeld, Withdrawn | QuotaResetObserved, Withdrawn => nr_transport c = DirectPayload
  | (QuotaHeld | QuotaResetObserved | WithdrawnByOperator), Superseded => True
  | Notified, Gating => nr_transport c = Doorbell ∧ nr_unclaimed_reminder_count c = 0
  | AttentionRequired, Notified => needs_claimed_ack_timeout_reconciliation c = true
  | _, _ => False
  end.
Proof.
  destruct 1 as [t c line Hcur _ _ _|c line Hs Htr H0|c line Hs|c line Hne
    |c line Hw|c line Hs Htr|c line Hn]; intros Hterm.
  - apply transition_from_current_Some in Hcur as (_ & _ & _ & Hallow & _).
    apply transition_allowed_live in Hallow as [Hcan|(Hw & _)]; [|by rewrite Hw in Hterm].
    cbn. by destruct (nr_state c), (tf_state t).
  - cbn. by rewrite Hs.
  - cbn. by destruct (nr_state c).
  - cbn. by destruct (nr_state c), (nr_transport c).
  - cbn. destruct Hw as [Hw|[? _]]; [|done]. by destruct (nr_state c).
  - by rewrite Hs in Hterm.
  - cbn. unfold needs_claimed_ack_timeout_reconciliation in *.
    destruct (nr_state c) eqn:E; try done.
Qed.

(** A live attempt takes finitely many steps: the attempt budget bounds
    every chain, and no record has more than 52 steps ahead of it. *)
Theorem attempt_steps_bounded n c r :
  nsteps (attempt_step false) n c r → N.of_nat n ≤ attempt_budget c ∧ attempt_budget c ≤ 52.
Proof.
  intros Hn. split.
  - induction Hn as [c|n c c' r Hstep _ IH]; [lia|].
    apply attempt_step_budget in Hstep. lia.
  - unfold attempt_budget. assert (state_rank (nr_state c) ≤ 12) by by destruct (nr_state c). lia.
Qed.

(** Counters stay at most one along any chain, live or replayed, so the
    execution epoch of an attempt never exceeds 3 and never goes down: a worker
    outcome carrying an older epoch is recognised as stale. *)
Theorem execution_epoch_bounded replaying c r :
  counters_bounded c → rtc (attempt_step replaying) c r →
  execution_epoch c ≤ execution_epoch r ∧ execution_epoch r ≤ 3.
Proof.
  intros Hc Hrtc.
  assert (counters_bounded r ∧ nr_pre_write_reopen_count c ≤ nr_pre_write_reopen_count r ∧
    nr_unclaimed_reminder_count c ≤ nr_unclaimed_reminder_count r) as ([Hr Hu] & H1 & H2).
  { induction Hrtc as [c|c c' r Hstep _ IH]; [split; [done|lia]|].
    apply attempt_step_counters in Hstep as (Hc' & ? & ?); [|done].
    destruct (IH Hc') as (? & ? & ?). split; [done|lia]. }
  destruct Hc as [Hc1 Hc2]. unfold execution_epoch, saturating_add_u8, saturating_mul_u8, u8_max.
  lia.
Qed.
End attempt.
