(* ===== verification/Prepared.v ===== *)
(** * What validation establishes

    [prepared_ok p line replaying m] lists, per mutation, the facts about the
    current state that a successful [prepare_*] has checked; [prepare_line_ok]
    derives them from the code's guards once, so that the preservation proofs
    of [Invariant.v] never look at a guard again. *)
From S2P Require Import Prelude Text Identity Ledger Mailbox Notification Facts.
From S2P Require Import Projection Attempt.
Local Open Scope N_scope.
Local Open Scope rust_scope.

Section prepared.
Context {V : Type} {serde : Serde V} {uuids : Uuids} {digests : Digests}.
Implicit Types (p : MailboxProjection V) (line : LedgerLine V).

Definition last_seq p : N := default 0 (last_workspace_seq p).

(** The row's id is the text of the message it is about. *)
Definition names_message line (id : MessageId) : Prop := ll_id line = mid_text id.

(** The thread a new message joins: its own, or that of a stored message. *)
Definition thread_ok p (id : MessageId) (md : MessageMetadata) : Prop :=
  md_thread_root md = id ∨
  ∃ parent_id parent pmd, messages p !! parent_id = Some parent ∧
    extract_message_metadata parent = Ok pmd ∧ md_thread_root md = md_thread_root pmd.

(** A replaced message was pending and had not been written to a pane. *)
Definition supersession_ok p (md : MessageMetadata) : Prop :=
  ∀ target, md_supersedes md = Some target →
    ∃ recipient entry target_line target_md,
      md_recipients md = [recipient] ∧
      messages p !! target = Some target_line ∧
      extract_message_metadata target_line = Ok target_md ∧
      md_sender target_md = md_sender md ∧ md_recipients target_md = [recipient] ∧
      get_entry p recipient target = Some entry ∧ me_state entry = Pending ∧
      supersession_notification_is_pre_write p recipient target = true.

Record message_ok p line (id : MessageId) (md : MessageMetadata)
    (update : option NotificationProjectionUpdate) : Prop := {
  mok_id : names_message line id;
  mok_valid : message_id_new (ll_id line) = Ok id;
  mok_kind : ll_kind line = KMsg ∨ ll_kind line = KFyi;
  mok_fresh : messages p !! id = None;
  mok_metadata : extract_message_metadata line = Ok md;
  mok_workspace : md_workspace_id md = workspace_id p;
  mok_sender : rk_workspace_id (md_sender md) = workspace_id p;
  mok_nonempty : md_recipients md ≠ [];
  mok_nodup : NoDup (md_recipients md);
  mok_recipients : Forall (λ r, rk_workspace_id r = workspace_id p) (md_recipients md);
  mok_thread : thread_ok p id md;
  mok_supersedes : supersession_ok p md;
  mok_key : ∀ key, md_client_key md = Some key → idempotency_index p !! (md_sender md, key) = None;
  mok_digest : ∃ reply_to,
    request_digest_compute (ll_kind line) (md_sender md) (md_recipients md)
      (MkRequestContent (ll_subject line) (md_summary md) (ll_body line)) reply_to
      (md_supersedes md) = Ok (md_request_digest md);
  mok_update : update = superseded_update p line md;
  mok_labels : presentation_labels (md_recipients md) (md_presentation md) = Ok (ll_from line, ll_to line);
  mok_reply : ∃ reply_to, transpose_map message_id_new (ll_reply_to line) = Ok reply_to;
}.

(** An attempt row: its message is stored, its recipient has an entry and is
    not the administrator. *)
Record attempt_ok p (a : AttemptRef) (current : NotificationRecord) : Prop := {
  aok_message : is_Some (messages p !! ar_message_id a);
  aok_entry : is_Some (get_entry p (ar_recipient a) (ar_message_id a));
  aok_current : notifications p !! (ar_recipient a, ar_message_id a) = Some current;
  aok_attempt : nr_attempt_id current = ar_attempt_id a;
}.

Record requeue_ok p (line : LedgerLine V) (key : RecipientKey * MessageId)
    (r : NotificationRecord) : Prop := {
  rok_entry : ∃ e, get_entry p key.1 key.2 = Some e ∧ me_state e = Pending;
  rok_agent : is_admin key.1 = false;
  rok_current : ∃ current, notifications p !! key = Some current ∧
    (nr_state current = AttentionRequired ∨ nr_state current = QuotaResetObserved) ∧
    resolution_intents p !! nr_attempt_id current = None;
  rok_fresh : nr_attempt_id r ∉ notification_attempts p;
  rok_record : r = queued_record (nr_attempt_id r) key.2 key.1 line;
}.

(** A resolution acts on an attempt that needs attention, has a binding and
    is not resolved. *)
Record attention_ok p (attempt_id : NotificationAttemptId) : Prop := {
  tok_current : ∃ key current, notifications p !! key = Some current ∧
    nr_attempt_id current = attempt_id ∧ nr_state current = AttentionRequired ∧
    is_Some (nr_binding current);
  tok_unresolved : resolved_attempts p !! attempt_id = None;
}.

Definition prepared_ok p line (replaying : bool) (m : PreparedMutation) : Prop :=
  match m with
  | PMMessage id md update => message_ok p line id md update
  | PMClaim id recipient claimant update =>
      claimant = recipient ∧ names_message line id ∧
      (∃ e, get_entry p recipient id = Some e ∧ me_state e = Pending) ∧
      update = claim_update p line recipient id
  | PMDeliveredDirect id recipient attempt_id =>
      names_message line id ∧
      (∃ e, get_entry p recipient id = Some e ∧ me_state e = Pending) ∧
      ∃ current, notifications p !! (recipient, id) = Some current ∧
        nr_attempt_id current = attempt_id ∧ nr_state current = Notified ∧
        nr_transport current = DirectPayload
  | PMNotification key r new_attempt =>
      is_admin key.1 = false ∧ is_Some (get_entry p key.1 key.2) ∧
      if new_attempt : bool then
        (notifications p !! key = None ∧ (∃ e, get_entry p key.1 key.2 = Some e ∧
           me_state e = Pending) ∧ (nr_attempt_id r ∉ notification_attempts p) ∧
         r = queued_record (nr_attempt_id r) key.2 key.1 line) ∨ requeue_ok p line key r
      else
        ∃ current, notifications p !! key = Some current ∧ attempt_step (V:=V) replaying current r ∧
          nr_updated_seq r = ll_seq line ∧
          (nr_recipient current = key.1 → nr_recipient r = key.1) ∧
          (nr_message_id current = key.2 → nr_message_id r = key.2) ∧
          (nr_state current = Notified →
             active_notification_barriers p !! nr_attempt_id current = None) ∧
          nr_state current ≠ AttentionRequired ∧ nr_state r ≠ WithdrawnAfterStaging
  | PMNotificationRequeues records =>
      Forall (λ kr, requeue_ok p line kr.1 kr.2) records ∧
      NoDup records.*1 ∧ NoDup ((λ kr, nr_attempt_id kr.2) <$> records)
  | PMNotificationCleared attempt_id =>
      ∃ key current, notifications p !! key = Some current ∧
        nr_attempt_id current = attempt_id ∧ nr_state current = AttentionRequired
  | PMNotificationsCleared batch_id attempt_ids =>
      attempt_ids ≠ [] ∧ NoDup attempt_ids ∧ (batch_id ∉ clearance_batches p) ∧
      Forall (λ a, (a ∉ cleared_attempts p) ∧ ∃ key current, notifications p !! key = Some current ∧
        nr_attempt_id current = a ∧ nr_state current = AttentionRequired) attempt_ids
  | PMNotificationWithdrawnBeforeWrite key r =>
      ∃ current, notifications p !! key = Some current ∧
        (can_withdraw_before_write (nr_state current) = true ∨
           replaying = true ∧ withdrawn_by_claim_before_write current = true) ∧
        r = MkRecord (nr_attempt_id current) key.2 key.1 WithdrawnByOperator None
              (nr_transport current) (nr_doorbell_format current) None None None None None None
              (nr_pre_write_reopen_count current) (nr_unclaimed_reminder_count current)
              (nr_started_seq current) (ll_seq line) (ll_ts line)
  | PMResolutionIntent attempt_id resolution forced =>
      attention_ok p attempt_id ∧ resolution_intents p !! attempt_id = None ∧
      (forced = true → resolution = Complete)
  | PMResolutionActionReserved attempt_id resolution =>
      resolution = Complete ∧ resolution_intents p !! attempt_id = Some Complete ∧
      attempt_id ∈ forced_resolution_intents p ∧ resolved_attempts p !! attempt_id = None ∧
      resolution_actions_accepted p !! attempt_id = None ∧
      ∃ current, active_notification_barriers p !! attempt_id = Some current ∧
        needs_exact_owned_reconciliation current = true
  | PMResolutionActionAccepted attempt_id resolution =>
      attention_ok p attempt_id ∧ resolution_intents p !! attempt_id = Some resolution ∧
      (∀ recorded, resolution_actions_accepted p !! attempt_id = Some recorded →
         recorded = resolution)
  | PMResolutionConsumptionObserved attempt_id observation =>
      attention_ok p attempt_id ∧ 0 < co_observed_at_ms observation ∧
      resolution_intents p !! attempt_id = Some Complete ∧
      resolution_actions_accepted p !! attempt_id = Some Complete ∧
      (∀ recorded, resolution_consumptions p !! attempt_id = Some recorded →
         recorded = observation)
  | PMResolutionIntentWithdrawn attempt_id =>
      is_Some (resolution_intents p !! attempt_id) ∧
      resolved_attempts p !! attempt_id = None ∧
      resolution_action_reservations p !! attempt_id = None ∧
      resolution_actions_accepted p !! attempt_id = None ∧
      resolution_consumptions p !! attempt_id = None
  | PMResolvedWithoutTerminalAction attempt_id resolution =>
      attention_ok p attempt_id ∧ resolution = Discard ∧
      resolution_actions_accepted p !! attempt_id = None
  | PMResolved attempt_id resolution =>
      attention_ok p attempt_id ∧
      ((∃ key current, notifications p !! key = Some current ∧
          nr_attempt_id current = attempt_id ∧
          uses_legacy_notification_write_contract current = true ∧
          resolution_actions_accepted p !! attempt_id = None ∧
          resolution_consumptions p !! attempt_id = None) ∨
       (resolution_intents p !! attempt_id = Some resolution ∧
        resolution_actions_accepted p !! attempt_id = Some resolution ∧
        match resolution with
        | Complete => ∃ o, resolution_consumptions p !! attempt_id = Some o ∧
            proves_exact_consumption (co_evidence o) = true
        | Discard => resolution_consumptions p !! attempt_id = None
        end))
  | PMClaimedStagedCleared key r attempt_id =>
      claimed_by p key.1 key.2 = true ∧
      is_Some (active_notification_barriers p !! attempt_id) ∧
      ∃ current, notifications p !! key = Some current ∧ nr_attempt_id current = attempt_id ∧
        nr_state current = Staged ∧ nr_transport current = Doorbell ∧
        r = set_record_settled current WithdrawnAfterStaging line
  | PMClaimedAckTimeoutReconciled key r attempt_id =>
      ∃ current, notifications p !! key = Some current ∧ nr_attempt_id current = attempt_id ∧
        active_notification_barriers p !! attempt_id = Some current ∧
        needs_claimed_ack_timeout_reconciliation current = true ∧
        exact_recipient_claimed_after_write p current = true ∧
        r = set_record_settled current Notified line
  | PMBarrierRetired attempt_id => is_Some (active_notification_barriers p !! attempt_id)
  end.

(** ** Reading the guards back *)

Lemma check_version_ok v : check_version v = Ok () → v = CANONICAL_RECORD_VERSION.
Proof. unfold check_version. intros H. ok_inv. by apply N.eqb_eq. Qed.

Lemma check_workspace_ok p ws : check_workspace p ws = Ok () → ws = workspace_id p.
Proof. unfold check_workspace. intros H. by ok_inv. Qed.

Lemma check_recipients_ok p dup seen recipients :
  check_recipients p dup seen recipients = Ok () →
  NoDup recipients ∧ (∀ r, r ∈ recipients → r ∉ seen) ∧
  Forall (λ r, rk_workspace_id r = workspace_id p) recipients.
Proof.
  revert seen. induction recipients as [|r rest IH]; intros seen H; cbn in H.
  - split_and!; [constructor|set_solver|constructor].
  - ok_inv. apply IH in H as (Hnd & Hseen & Hws).
    match goal with H : check_workspace _ _ = Ok ?u |- _ => destruct u; apply check_workspace_ok in H end.
    split_and!; [constructor; [|done]|set_solver|by constructor].
    intros Hin. specialize (Hseen _ Hin). set_solver.
Qed.

Lemma require_pending_entry_ok p recipient id :
  require_pending_entry p recipient id = Ok () →
  ∃ e, get_entry p recipient id = Some e ∧ me_state e = Pending.
Proof.
  unfold require_pending_entry. intros H. ok_inv.
  match goal with H : is_pending (me_state ?e) = true |- _ =>
    exists e; split; [done|]; by destruct (me_state e) end.
Qed.

Lemma current_attempt_ok p a missing current :
  current_attempt p a missing = Ok current →
  notifications p !! (ar_recipient a, ar_message_id a) = Some current ∧
  nr_attempt_id current = ar_attempt_id a.
Proof. unfold current_attempt. intros H. ok_inv. by split. Qed.

Lemma attention_attempt_ok p a current :
  attention_attempt p a = Ok current →
  notifications p !! (ar_recipient a, ar_message_id a) = Some current ∧
  nr_attempt_id current = ar_attempt_id a ∧ attention_ok p (ar_attempt_id a).
Proof.
  unfold attention_attempt. intros H. ok_inv.
  match goal with H : current_attempt _ _ _ = Ok _ |- _ =>
    apply current_attempt_ok in H as [Hc Ha] end.
  split_and!; [done..|]. split.
  - eexists _, _. split_and!; [done..|]. by apply not_eq_None_Some.
  - by apply eq_None_not_Some.
Qed.

Lemma validate_notification_envelope_ok p line v id recipient :
  validate_notification_envelope p line v id recipient = Ok () →
  names_message line id ∧ is_admin recipient = false ∧ rk_workspace_id recipient = workspace_id p ∧
  is_Some (messages p !! id) ∧ is_Some (get_entry p recipient id).
Proof.
  unfold validate_notification_envelope. intros H. ok_inv.
  match goal with H : check_workspace _ _ = Ok ?u |- _ => destruct u; apply check_workspace_ok in H end.
  split_and!; [done..|by apply not_eq_None_Some|by apply not_eq_None_Some].
Qed.

(** Names the facts behind the helper calls that succeeded. *)
Ltac unit_results :=
  repeat match goal with u : () |- _ => destruct u end;
  repeat match goal with
  | H : check_version _ = Ok () |- _ => apply check_version_ok in H
  | H : check_workspace _ _ = Ok () |- _ => apply check_workspace_ok in H
  | H : validate_attempt_envelope _ _ _ = Ok () |- _ =>
      apply validate_notification_envelope_ok in H as (? & ? & ? & ? & ?)
  | H : validate_notification_envelope _ _ _ _ _ = Ok () |- _ =>
      apply validate_notification_envelope_ok in H as (? & ? & ? & ? & ?)
  | H : require_pending_entry _ _ _ = Ok () |- _ => apply require_pending_entry_ok in H
  | H : attention_attempt _ _ = Ok _ |- _ => apply attention_attempt_ok in H as (? & ? & ?)
  | H : current_attempt _ _ _ = Ok _ |- _ => apply current_attempt_ok in H as (? & ?)
  end.

(** Opens the fact of a notification row: every other variant is refused. *)
Ltac fact_case f :=
  let fact := fresh "fact" in
  destruct f as [fact|] eqn:?; [|discriminate]; destruct fact; try discriminate.

Lemma extract_metadata_data line md :
  extract_message_metadata line = Ok md → is_Some (ll_data line).
Proof. unfold extract_message_metadata. intros H. ok_inv. destruct (ll_data line); naive_solver. Qed.

Lemma derive_reply_ok p sender reference d :
  derive_reply p sender reference = Ok d →
  ∃ parent pmd, messages p !! reference = Some parent ∧
    extract_message_metadata parent = Ok pmd ∧
    (md_sender pmd = sender ∨ sender ∈ md_recipients pmd) ∧
    d = MkReplyDerivation (md_sender pmd) (md_thread_root pmd) (reply_subject (ll_subject parent)).
Proof.
  unfold derive_reply. intros H. ok_inv. eexists _, _. split_and!; [done..| |done].
  match goal with H : _ || _ = true |- _ => apply orb_true_iff in H as [H|H] end;
    bool_facts; auto.
Qed.

Lemma supersession_thread_root_ok p sender recipients supersedes root :
  supersession_thread_root p sender recipients supersedes = Ok root →
  ∀ target, supersedes = Some target →
    ∃ recipient entry target_line target_md,
      recipients = [recipient] ∧ messages p !! target = Some target_line ∧
      extract_message_metadata target_line = Ok target_md ∧ md_sender target_md = sender ∧
      md_recipients target_md = [recipient] ∧ get_entry p recipient target = Some entry ∧
      me_state entry = Pending ∧
      supersession_notification_is_pre_write p recipient target = true ∧
      root = Some (md_thread_root target_md).
Proof.
  intros H target ->. unfold supersession_thread_root in H.
  destruct recipients as [|recipient [|]]; try done. ok_inv.
  eexists _, _, _, _. split_and!; [done..| |done|done].
  by destruct (me_state _).
Qed.

(** A reply and a replacement join their target's thread; any other message
    starts its own. *)
Lemma expected_thread_root_ok p line id md reply_to root :
  expected_thread_root p line id md reply_to = Ok root → md_thread_root md = root →
  (is_Some reply_to → md_supersedes md = None) →
  thread_ok p id md ∧ supersession_ok p md.
Proof.
  unfold expected_thread_root, thread_ok, supersession_ok. intros H Hroot Hexcl.
  destruct reply_to as [reference|].
  - ok_inv. match goal with H : derive_reply _ _ _ = Ok _ |- _ =>
      apply derive_reply_ok in H as (parent & pmd & Hp & Hm & _ & ->) end.
    split; [right; by eauto 8|]. rewrite Hexcl by by eauto. done.
  - ok_inv. match goal with H : supersession_thread_root _ _ _ _ = Ok _ |- _ =>
      pose proof (supersession_thread_root_ok _ _ _ _ _ H) as Hsup;
      unfold supersession_thread_root in H end.
    destruct (md_supersedes md) as [target|]; [|ok_inv; split; [by left|done]].
    destruct (Hsup target eq_refl) as (r & e & l & m & ? & ? & ? & ? & ? & ? & ? & ? & ->).
    split; [right; by eauto 8|]. intros ? [= <-]. eexists _, _, _, _. by split_and!.
Qed.

Lemma prepare_message_ok p line m :
  ll_kind line = KMsg ∨ ll_kind line = KFyi → prepare_message p line = Ok m →
  ∃ id md update, m = PMMessage id md update ∧ message_ok p line id md update.
Proof.
  intros Hkind H. unfold prepare_message, type_error in H. ok_inv.
  destruct (_ ≫= _) as [[key existing]|] eqn:Hkey; ok_inv. unit_results.
  match goal with H : check_recipients _ _ _ _ = Ok _ |- _ =>
    apply check_recipients_ok in H as (Hnd & _ & Hws) end.
  match goal with H : expected_thread_root _ _ _ _ _ = Ok _ |- _ =>
    apply expected_thread_root_ok in H as [Hth Hsup]; [|done|] end.
  2: { intros Hreply. apply eq_None_not_Some. intros Hs.
       match goal with H : _ && _ = false |- _ => apply andb_false_iff in H as [H|H] end;
         by bool_facts. }
  eexists _, _, _. split; [done|]. split; try done.
  - match goal with H : message_id_new _ = Ok _ |- _ => by apply message_id_new_text in H as -> end.
  - by apply eq_None_not_Some.
  - intros key Hk. rewrite Hk in Hkey. cbn in Hkey.
    by destruct (idempotency_index p !! _).
  - eexists. etransitivity; [eassumption|]. by f_equal.
  - by eauto.
Qed.

Lemma prepare_claim_ok p line replaying m :
  prepare_claim p line = Ok m → prepared_ok p line replaying m.
Proof.
  intros H. unfold prepare_claim in H.
  destruct (mailbox_fact _ _) as [[]|]; try done. ok_inv. unit_results.
  destruct (me_state _) eqn:?; ok_inv. cbn. split_and!; eauto.
Qed.

Lemma prepare_delivered_direct_ok p line replaying m :
  prepare_delivered_direct p line = Ok m → prepared_ok p line replaying m.
Proof.
  intros H. unfold prepare_delivered_direct in H.
  destruct (mailbox_fact _ _) as [[]|]; try done. ok_inv. unit_results.
  cbn. split_and!; eauto 8.
Qed.

(** Opens a notification row and its helpers. *)
Ltac open_fact H :=
  match type of H with
  | match notification_fact ?l with _ => _ end = _ =>
      destruct (notification_fact l) as [[]|] eqn:?; try discriminate H; ok_inv; unit_results
  end.

Lemma prepare_notification_transition_ok p line replaying m :
  prepare_notification_transition p line replaying = Ok m → prepared_ok p line replaying m.
Proof.
  intros H. unfold prepare_notification_transition in H. open_fact H.
  unfold prepare_transition_record in *.
  destruct (notifications p !! _) as [current|] eqn:Hc; ok_inv; unit_results; cbn.
  - split_and!; [done..|]. eexists. split; [done|].
    split; [by constructor|]. split; [done|].
    match goal with H : transition_from_current _ _ _ = Ok _ |- _ =>
      apply transition_from_current_Some in H as (_ & _ & _ & Hallow & _) end.
    unfold notification_transition_allowed, withdrawn_by_claim_before_write in Hallow.
    split_and!; [done..| | |]; repeat (apply orb_true_iff in Hallow as [Hallow|Hallow]; bool_facts);
      intros Hn; first [by destruct (nr_state current)|by destruct (tf_state _), (nr_state current)].
  - split_and!; [done..|]. left. by split_and!.
Qed.

Lemma prepare_unclaimed_reminder_queued_ok p line replaying m :
  prepare_unclaimed_reminder_queued p line = Ok m → prepared_ok p line replaying m.
Proof.
  intros H. unfold prepare_unclaimed_reminder_queued in H. open_fact H.
  match goal with H : negb (_ =? 0) = false |- _ => apply negb_false_iff, N.eqb_eq in H
                | H : (_ =? 0) = true |- _ => apply N.eqb_eq in H end.
  cbn. split_and!; [done..|]. eexists. split; [done|]. split; [by apply step_reminder|].
  split_and!; [done..| |congruence|done]. intros _. apply eq_None_not_Some. congruence.
Qed.

Lemma prepare_requeue_record_ok p line id recipient prior attempt kr :
  prepare_notification_requeue_record p line id recipient prior attempt = Ok kr →
  is_admin recipient = false →
  requeue_ok p line kr.1 kr.2 ∧ kr.1 = (recipient, id) ∧ nr_attempt_id kr.2 = attempt.
Proof.
  unfold prepare_notification_requeue_record. intros H Hadmin. ok_inv. unit_results. cbn.
  match goal with H : _ && _ = false |- _ => apply andb_false_iff in H end.
  split_and!; [|done..]. split; cbn; try done.
  eexists. split; [done|]. split; [|apply eq_None_not_Some; congruence].
  match goal with H : _ ∨ _ |- _ => destruct H end; bool_facts; auto.
Qed.

Lemma prepare_notification_requeue_ok p line replaying m :
  prepare_notification_requeue p line = Ok m → prepared_ok p line replaying m.
Proof.
  intros H. unfold prepare_notification_requeue in H. open_fact H.
  match goal with H : prepare_notification_requeue_record _ _ _ _ _ _ = Ok _ |- _ =>
    apply prepare_requeue_record_ok in H as (Hrq & Hkey & _); [|done] end.
  cbn in *. rewrite Hkey in *. by split_and!; [..|right].
Qed.

Lemma check_requeue_recipients_ok p seen requeues :
  check_requeue_recipients p seen requeues = Ok () →
  NoDup (rq_recipient <$> requeues) ∧ (∀ rq, rq ∈ requeues → rq_recipient rq ∉ seen) ∧
  Forall (λ rq, is_admin (rq_recipient rq) = false) requeues.
Proof.
  revert seen. induction requeues as [|rq rest IH]; intros seen H; cbn in H |- *.
  - split_and!; [constructor|set_solver|constructor].
  - ok_inv. apply IH in H as (Hnd & Hseen & Hws).
    split_and!; [constructor; [|done]|set_solver|by constructor].
    intros (rq' & Heq & Hin)%list_elem_of_fmap. specialize (Hseen _ Hin). set_solver.
Qed.

Lemma prepare_requeue_records_ok p line id attempts requeues records :
  prepare_requeue_records p line id attempts requeues = Ok records →
  Forall (λ rq, is_admin (rq_recipient rq) = false) requeues →
  Forall (λ kr, requeue_ok p line kr.1 kr.2) records ∧
  records.*1 = (λ rq, (rq_recipient rq, id)) <$> requeues ∧
  NoDup ((λ kr, nr_attempt_id kr.2) <$> records) ∧
  (∀ kr, kr ∈ records → nr_attempt_id kr.2 ∉ attempts).
Proof.
  revert attempts records.
  induction requeues as [|rq rest IH]; intros attempts records H Hadmin; cbn in H.
  - ok_inv. split_and!; [constructor|done|constructor|set_solver].
  - ok_inv. apply Forall_cons in Hadmin as [Ha Hadmin].
    match goal with H : prepare_requeue_records _ _ _ _ _ = Ok _ |- _ =>
      apply IH in H as (Hok & Hk & Hnd & Hfresh); [|done] end.
    match goal with H : prepare_notification_requeue_record _ _ _ _ _ _ = Ok _ |- _ =>
      apply prepare_requeue_record_ok in H as (Hrq & Hkey & Hatt); [|done] end.
    split_and!.
    + by constructor.
    + cbn. by rewrite Hkey, Hk.
    + cbn. constructor; [|done]. rewrite Hatt.
      intros (kr & Heq & Hin)%list_elem_of_fmap. specialize (Hfresh _ Hin). set_solver.
    + intros kr [->|Hin]%elem_of_cons; [by rewrite Hatt|].
      specialize (Hfresh _ Hin). set_solver.
Qed.

Lemma prepare_notification_requeues_ok p line replaying m :
  prepare_notification_requeues p line = Ok m → prepared_ok p line replaying m.
Proof.
  intros H. unfold prepare_notification_requeues in H. open_fact H.
  unfold validate_notification_requeues_envelope in *. ok_inv. unit_results.
  match goal with H : check_requeue_recipients _ _ _ = Ok _ |- _ =>
    apply check_requeue_recipients_ok in H as (Hnd & _ & Hadmin) end.
  match goal with H : prepare_requeue_records _ _ _ _ _ = Ok _ |- _ =>
    apply prepare_requeue_records_ok in H as (Hok & Hk & Hnd' & _); [|done] end.
  cbn. split_and!; [done| |done]. rewrite Hk. apply (NoDup_fmap_1 fst).
  by rewrite <-list_fmap_compose.
Qed.

Lemma notification_by_attempt_Some p attempt_id r :
  notification_by_attempt p attempt_id = Some r →
  (∃ key, notifications p !! key = Some r) ∧ nr_attempt_id r = attempt_id.
Proof.
  unfold notification_by_attempt, notification_values. intros H.
  apply List.find_some in H as [Hin Hb]. bool_facts.
  apply list_elem_of_In, list_elem_of_fmap in Hin as ([key r'] & -> & Hin).
  apply elem_of_map_to_list in Hin. by eauto.
Qed.

Lemma check_clears_ok p cutoff attempt_ids names :
  check_clears p cutoff attempt_ids = Ok names →
  Forall (λ a, (a ∉ cleared_attempts p) ∧ ∃ key current, notifications p !! key = Some current ∧
    nr_attempt_id current = a ∧ nr_state current = AttentionRequired) attempt_ids.
Proof.
  revert names. induction attempt_ids as [|a rest IH]; intros names H; cbn in H; [constructor|].
  ok_inv. constructor; [|by eapply IH].
  match goal with H : notification_by_attempt _ _ = Some _ |- _ =>
    apply notification_by_attempt_Some in H as [[key Hk] Ha] end.
  unfold alarm_cleared in *. bool_facts. by eauto 8.
Qed.

Lemma prepare_notification_clear_ok p line replaying m :
  prepare_notification_clear p line = Ok m → prepared_ok p line replaying m.
Proof.
  intros H. unfold prepare_notification_clear in H. open_fact H. cbn. by eauto 8.
Qed.

Lemma prepare_notification_clears_ok p line replaying m :
  prepare_notification_clears p line = Ok m → prepared_ok p line replaying m.
Proof.
  intros H. unfold prepare_notification_clears in H. open_fact H.
  match goal with H : check_clears _ _ _ = Ok _ |- _ => apply check_clears_ok in H end.
  match goal with H : btree_set_attempts _ = _ |- _ => rename H into Hsorted end.
  cbn. split_and!; try done. rewrite <-Hsorted.
  unfold btree_set_attempts, sort_by_key. rewrite merge_sort_Permutation. apply NoDup_remove_dups.
Qed.

Lemma prepare_notification_withdrawal_ok p line replaying m :
  prepare_notification_withdrawal p line replaying = Ok m → prepared_ok p line replaying m.
Proof.
  intros H. unfold prepare_notification_withdrawal in H. open_fact H.
  match goal with H : nr_attempt_id ?c = ar_attempt_id _ |- _ => exists c; rewrite H end.
  split_and!; [done| |done].
  repeat match goal with H : _ && _ = false |- _ => apply andb_false_iff in H as [H|H] end;
    bool_facts; auto.
Qed.

Lemma prepare_notification_resolution_ok p line replaying m :
  prepare_notification_resolution p line = Ok m → prepared_ok p line replaying m.
Proof.
  intros H. unfold prepare_notification_resolution in H. open_fact H.
  destruct (proof_version =? 0); [ok_inv|destruct (_ =? _); [|done]; ok_inv].
  - split; [done|]. left. eexists _, _. split_and!; try done; by apply eq_None_not_Some.
  - destruct resolution, (resolution_actions_accepted p !! ar_attempt_id a) as [[]|] eqn:?,
      (resolution_consumptions p !! ar_attempt_id a) as [o|] eqn:?; ok_inv;
      (split; [done|]; right; split_and!; by eauto).
Qed.

Lemma prepare_notification_resolution_without_terminal_action_ok p line replaying m :
  prepare_notification_resolution_without_terminal_action p line = Ok m →
  prepared_ok p line replaying m.
Proof.
  intros H. unfold prepare_notification_resolution_without_terminal_action in H. open_fact H.
  cbn. split_and!; [done..|]. by apply eq_None_not_Some.
Qed.

Lemma prepare_notification_resolution_intent_ok p line replaying m :
  prepare_notification_resolution_intent p line = Ok m → prepared_ok p line replaying m.
Proof.
  intros H. unfold prepare_notification_resolution_intent in H. open_fact H.
  cbn. split_and!; [done|by apply eq_None_not_Some|]. intros ->. cbn in *. by bool_facts.
Qed.

Lemma validate_forced_reservation_ok p a resolution b :
  validate_forced_notification_resolution_action_reservation p a resolution = Ok b →
  resolution = Complete ∧ resolution_intents p !! ar_attempt_id a = Some Complete ∧
  ar_attempt_id a ∈ forced_resolution_intents p ∧
  resolved_attempts p !! ar_attempt_id a = None ∧
  resolution_actions_accepted p !! ar_attempt_id a = None ∧
  ∃ current, active_notification_barriers p !! ar_attempt_id a = Some current ∧
    needs_exact_owned_reconciliation current = true.
Proof.
  unfold validate_forced_notification_resolution_action_reservation. intros H. ok_inv.
  unit_results. subst.
  split_and!; [done..|by apply eq_None_not_Some|by apply eq_None_not_Some|]. by eauto.
Qed.

Lemma prepare_notification_resolution_action_reserved_ok p line replaying m :
  prepare_notification_resolution_action_reserved p line = Ok m → prepared_ok p line replaying m.
Proof.
  intros H. unfold prepare_notification_resolution_action_reserved in H. open_fact H.
  by eapply validate_forced_reservation_ok.
Qed.

Lemma validate_action_accepted_ok p a resolution b :
  validate_notification_resolution_action_accepted p a resolution = Ok b →
  attention_ok p (ar_attempt_id a) ∧
  resolution_intents p !! ar_attempt_id a = Some resolution ∧
  (∀ recorded, resolution_actions_accepted p !! ar_attempt_id a = Some recorded →
     recorded = resolution).
Proof.
  unfold validate_notification_resolution_action_accepted. intros H. ok_inv. unit_results.
  split_and!; [done..|]. intros recorded Hr. rewrite Hr in H.
  destruct (bool_decide _) eqn:?; by bool_facts.
Qed.

Lemma prepare_notification_resolution_action_accepted_ok p line replaying m :
  prepare_notification_resolution_action_accepted p line = Ok m → prepared_ok p line replaying m.
Proof.
  intros H. unfold prepare_notification_resolution_action_accepted in H. open_fact H.
  by eapply validate_action_accepted_ok.
Qed.

Lemma validate_consumption_ok p a observation b :
  validate_notification_resolution_consumption_observed p a observation = Ok b →
  attention_ok p (ar_attempt_id a) ∧ 0 < co_observed_at_ms observation ∧
  resolution_intents p !! ar_attempt_id a = Some Complete ∧
  resolution_actions_accepted p !! ar_attempt_id a = Some Complete ∧
  (∀ recorded, resolution_consumptions p !! ar_attempt_id a = Some recorded →
     recorded = observation).
Proof.
  unfold validate_notification_resolution_consumption_observed. intros H. ok_inv. unit_results.
  match goal with H : (_ =? 0) = false |- _ => apply N.eqb_neq in H end.
  split_and!; [done|lia|done..|]. intros recorded Hr. rewrite Hr in H.
  destruct (bool_decide _) eqn:?; by bool_facts.
Qed.

Lemma prepare_notification_resolution_consumption_observed_ok p line replaying m :
  prepare_notification_resolution_consumption_observed p line = Ok m →
  prepared_ok p line replaying m.
Proof.
  intros H. unfold prepare_notification_resolution_consumption_observed in H. open_fact H.
  by eapply validate_consumption_ok.
Qed.

Lemma prepare_notification_resolution_intent_withdrawn_ok p line replaying m :
  prepare_notification_resolution_intent_withdrawn p line = Ok m → prepared_ok p line replaying m.
Proof.
  intros H. unfold prepare_notification_resolution_intent_withdrawn in H. open_fact H.
  cbn. split_and!; [by eauto|by apply eq_None_not_Some..].
Qed.

Lemma prepare_notification_claimed_staged_clear_ok p line replaying m :
  prepare_notification_claimed_staged_clear p line = Ok m → prepared_ok p line replaying m.
Proof.
  intros H. unfold prepare_notification_claimed_staged_clear in H. open_fact H.
  cbn. split_and!; by eauto 8.
Qed.

Lemma prepare_notification_claimed_ack_timeout_reconciliation_ok p line replaying m :
  prepare_notification_claimed_ack_timeout_reconciliation p line = Ok m →
  prepared_ok p line replaying m.
Proof.
  intros H. unfold prepare_notification_claimed_ack_timeout_reconciliation in H. open_fact H.
  cbn. subst. eexists. by split_and!.
Qed.

Lemma prepare_notification_barrier_retirement_ok p line replaying m :
  prepare_notification_barrier_retirement p line = Ok m → prepared_ok p line replaying m.
Proof.
  intros H. unfold prepare_notification_barrier_retirement in H. open_fact H. cbn. by eauto.
Qed.

#[local] Hint Resolve prepare_claim_ok prepare_delivered_direct_ok
  prepare_notification_transition_ok prepare_unclaimed_reminder_queued_ok
  prepare_notification_requeue_ok prepare_notification_requeues_ok prepare_notification_clear_ok
  prepare_notification_clears_ok prepare_notification_withdrawal_ok
  prepare_notification_resolution_intent_ok prepare_notification_resolution_action_reserved_ok
  prepare_notification_resolution_action_accepted_ok
  prepare_notification_resolution_consumption_observed_ok
  prepare_notification_resolution_intent_withdrawn_ok
  prepare_notification_resolution_without_terminal_action_ok prepare_notification_resolution_ok
  prepare_notification_claimed_staged_clear_ok
  prepare_notification_claimed_ack_timeout_reconciliation_ok
  prepare_notification_barrier_retirement_ok : cyclops.

Lemma prepare_state_ok p line replaying m :
  prepare_state p line replaying = Ok m → prepared_ok p line replaying m.
Proof.
  unfold prepare_state. intros H. destruct (_ ≫= _) as [t|]; [|done].
  repeat match type of H with
  | (if ?c then _ else _) = _ => destruct c; [by eauto with cyclops|]
  end. done.
Qed.

(** A row that passes validation has the next sequence number, and its
    mutation is justified by the current state. *)
Lemma prepare_line_ok p line replaying m :
  prepare_line_inner p line replaying = Ok m →
  ll_seq line = last_seq p + 1 ∧ ll_seq line ≤ u64_max ∧ prepared_ok p line replaying m.
Proof.
  unfold prepare_line_inner, last_seq. intros H. ok_inv.
  match goal with H : (ll_seq _ =? _) = true |- _ => apply N.eqb_eq in H; rewrite H in * end.
  match goal with H : checked_add_u64 _ _ = Some _ |- _ => apply checked_add_u64_Some in H as [-> ?] end.
  split_and!; [done..|].
  destruct (ll_kind line) eqn:Hk; try done; [..|by apply prepare_state_ok].
  all: apply prepare_message_ok in H as (id & md & update & -> & Hok); by auto.
Qed.
End prepared.
