(* ===== verification/MailboxInv.v ===== *)
(** * Mailbox well-formedness

    The part of the projection's invariant about messages, mailboxes, claims
    and the idempotency index, and its preservation by the mailbox mutations
    ([commit_message], [commit_claim], [set_entry]). *)
From S2P Require Import Prelude Text Identity Ledger Mailbox Notification Facts.
From S2P Require Import Projection Attempt Prepared.
Local Open Scope N_scope.

Section mailbox_inv.
Context {V : Type} {serde : Serde V} {uuids : Uuids} {digests : Digests}.
Implicit Types (p : MailboxProjection V) (line : LedgerLine V).

(** The entry of recipient [r] stored under sequence number [s]. *)
Definition entry_at p (r : RecipientKey) (s : N) : option MailboxEntry :=
  entries ← mailboxes p !! r; (entries : gmap N MailboxEntry) !! s.

(** A stored message, its metadata and its place in the indexes. *)
Definition stored_message p (id : MessageId) line (md : MessageMetadata) : Prop :=
  messages p !! id = Some line ∧ extract_message_metadata line = Ok md.

Record stored_ok p (id : MessageId) line (md : MessageMetadata) : Prop := {
  so_names : names_message line id;
  so_valid : message_id_new (ll_id line) = Ok id;
  so_kind : ll_kind line = KMsg ∨ ll_kind line = KFyi;
  so_seq : 1 ≤ ll_seq line ≤ last_seq p;
  so_sender : rk_workspace_id (md_sender md) = workspace_id p;
  so_nonempty : md_recipients md ≠ [];
  so_nodup : NoDup (md_recipients md);
  so_indexed : ∀ r, r ∈ md_recipients md →
    rk_workspace_id r = workspace_id p ∧ mailbox_index p !! (r, id) = Some (ll_seq line);
  so_thread : ∃ root rmd, stored_message p (md_thread_root md) root rmd ∧
    md_thread_root rmd = md_thread_root md;
  so_key : ∀ key, md_client_key md = Some key →
    idempotency_index p !! (md_sender md, key) = Some (id, md_request_digest md);
  so_labels : presentation_labels (md_recipients md) (md_presentation md) = Ok (ll_from line, ll_to line);
  so_reply : ∃ reply_to, transpose_map message_id_new (ll_reply_to line) = Ok reply_to;
}.

Record mailbox_wf p : Prop := {
  mw_last : last_seq p ≤ u64_max;
  mw_entry : ∀ r s e, entry_at p r s = Some e →
    me_recipient e = r ∧ me_seq e = s ∧ mailbox_index p !! (r, me_message_id e) = Some s ∧
    ∃ line md, stored_message p (me_message_id e) line md ∧ r ∈ md_recipients md ∧
      ll_seq line = s ∧ ll_ts line = me_created_at e;
  mw_index : ∀ r id s, mailbox_index p !! (r, id) = Some s →
    ∃ e, entry_at p r s = Some e ∧ me_message_id e = id;
  mw_message : ∀ id line, messages p !! id = Some line →
    ∃ md, extract_message_metadata line = Ok md ∧ stored_ok p id line md;
  mw_idempotency : ∀ sender key id digest,
    idempotency_index p !! (sender, key) = Some (id, digest) →
    ∃ line md, stored_message p id line md ∧ md_sender md = sender ∧
      md_client_key md = Some key ∧ md_request_digest md = digest;
  mw_seq : ∀ id1 id2 line1 line2, messages p !! id1 = Some line1 → messages p !! id2 = Some line2 →
    ll_seq line1 = ll_seq line2 → id1 = id2;
}.

(** Claims: the claimant is the recipient, and the claim's sequence number is
    on record exactly for claimed entries. *)
Record claims_wf p : Prop := {
  cw_sequence : ∀ r id q, claim_sequences p !! (r, id) = Some q →
    q ≤ last_seq p ∧ ∃ s e at_ms, mailbox_index p !! (r, id) = Some s ∧ entry_at p r s = Some e ∧
      me_state e = Claimed r at_ms ∧ s < q;
  cw_claimed : ∀ r s e claimant at_ms, entry_at p r s = Some e →
    me_state e = Claimed claimant at_ms →
    claimant = r ∧ is_Some (claim_sequences p !! (r, me_message_id e));
}.

Lemma get_entry_at p r id : get_entry p r id = (s ← mailbox_index p !! (r, id); entry_at p r s).
Proof. done. Qed.

Lemma mailbox_wf_get_entry p r id e :
  mailbox_wf p → get_entry p r id = Some e →
  mailbox_index p !! (r, id) = Some (me_seq e) ∧ entry_at p r (me_seq e) = Some e ∧
  me_message_id e = id ∧ me_recipient e = r.
Proof.
  intros Hwf. rewrite get_entry_at.
  destruct (mailbox_index p !! (r, id)) as [s|] eqn:Hi; cbn; [|done]. intros He.
  destruct (mw_entry _ Hwf _ _ _ He) as (? & <- & Hi' & _).
  destruct (mw_index _ Hwf _ _ _ Hi) as (e' & He' & Hid). by simplify_eq.
Qed.

Lemma mailbox_wf_entry_seq p r s e : mailbox_wf p → entry_at p r s = Some e → 1 ≤ s ≤ last_seq p.
Proof.
  intros Hwf He. destruct (mw_entry _ Hwf _ _ _ He) as (_ & _ & _ & line & md & [Hm _] & _ & <- & _).
  destruct (mw_message _ Hwf _ _ Hm) as (md' & _ & Hso). apply (so_seq _ _ _ _ Hso).
Qed.

(** A stored message stays well-placed while the maps only grow. *)
Lemma stored_ok_mono p p' id line md :
  stored_ok p id line md → workspace_id p' = workspace_id p → last_seq p ≤ last_seq p' →
  messages p ⊆ messages p' → mailbox_index p ⊆ mailbox_index p' →
  idempotency_index p ⊆ idempotency_index p' → stored_ok p' id line md.
Proof.
  intros [? ? ? Hseq Hs ? ? Hix Hth Hkey ? ?] Hws Hl Hm Hi Hd. split; try done.
  - lia.
  - congruence.
  - intros r Hr. destruct (Hix r Hr) as [Hr1 Hr2]. split; [congruence|].
    by eapply lookup_weaken.
  - destruct Hth as (root & rmd & [Hroot Hrmd] & Hflat). exists root, rmd. split; [|done].
    split; [|done]. by eapply lookup_weaken.
  - intros key Hk. eapply lookup_weaken; [by apply Hkey|done].
Qed.

(** ** Empty state *)
Lemma mailbox_wf_new ws : mailbox_wf (projection_new ws).
Proof. by split. Qed.
Lemma claims_wf_new ws : claims_wf (projection_new ws).
Proof. by split. Qed.

(** ** Advancing the sequence *)
Lemma mailbox_wf_seq p n :
  mailbox_wf p → last_seq p ≤ n → n ≤ u64_max → mailbox_wf (set_last_workspace_seq (Some n) p).
Proof.
  intros [Hl He Hi Hm Hd Hq] Hle Hmax. split; try done.
  intros id line Hid. destruct (Hm _ _ Hid) as (md & Hmd & Hso). exists md. split; [done|].
  by eapply stored_ok_mono.
Qed.
Lemma claims_wf_seq p n :
  claims_wf p → last_seq p ≤ n → claims_wf (set_last_workspace_seq (Some n) p).
Proof.
  intros [Hs Hc] Hle. split; [|done].
  intros r id q Hq. destruct (Hs _ _ _ Hq) as [Hq' Hx]. split; [cbn; lia|done].
Qed.

(** ** Settling one entry *)
Lemma set_entry_Some p r id st p' :
  set_entry p r id st = Some p' →
  ∃ s e mb, mailbox_index p !! (r, id) = Some s ∧ entry_at p r s = Some e ∧
    p' = set_mailboxes mb p ∧
    ∀ r' s', entry_at p' r' s' =
      if decide (r' = r ∧ s' = s) then Some (set_entry_state st e) else entry_at p r' s'.
Proof.
  unfold set_entry. intros H.
  destruct (mailbox_index p !! (r, id)) as [s|] eqn:Hi; [|done].
  destruct (mailboxes p !! r) as [entries|] eqn:Hr; [|done]. cbn in H.
  destruct (entries !! s) as [e|] eqn:Hs; [|done]. cbn in H. injection H as <-.
  exists s, e. eexists. split_and!; [done| |done|].
  - unfold entry_at. by rewrite Hr.
  - intros r' s'. unfold entry_at. cbn [set_mailboxes mailboxes].
    destruct (decide (r' = r)) as [->|Hne].
    + rewrite lookup_insert_eq. cbn. rewrite Hr. cbn.
      destruct (decide (s' = s)) as [->|]; [by rewrite lookup_insert_eq, decide_True|].
      rewrite lookup_insert_ne, decide_False by naive_solver. done.
    + rewrite lookup_insert_ne, decide_False by naive_solver. done.
Qed.

Lemma set_entry_total p r id st :
  is_Some (get_entry p r id) → is_Some (set_entry p r id st).
Proof.
  unfold get_entry, set_entry. destruct (mailbox_index p !! (r, id)); cbn; [|by intros []].
  destruct (mailboxes p !! r); cbn; [|by intros []].
  destruct (_ !! _); cbn; [by eauto|by intros []].
Qed.

Lemma mailbox_wf_set_entry p r id st p' :
  mailbox_wf p → set_entry p r id st = Some p' → mailbox_wf p'.
Proof.
  intros Hwf H. destruct (set_entry_Some _ _ _ _ _ H) as (s & e & mb & Hi & He & Hp & Hat).
  destruct Hwf as [Hl Hent Hix Hm Hd Hq].
  split; [by subst| | | |by subst|by subst].
  - intros r' s' e'. rewrite Hat. destruct (decide _) as [[-> ->]|]; [|subst; apply Hent].
    intros [= <-]. subst. apply (Hent _ _ _ He).
  - intros r' id' s' Hi'. rewrite Hat. subst p'. cbn in Hi'.
    destruct (Hix _ _ _ Hi') as (e' & He' & <-).
    destruct (decide _) as [[-> ->]|]; [|by eauto]. simplify_eq. by eauto.
  - subst p'. intros id' line Hid. destruct (Hm _ _ Hid) as (md & Hmd & Hso). exists md.
    split; [done|]. by eapply stored_ok_mono.
Qed.

(** An entry leaves [Pending] for a state other than [Claimed]. *)
Lemma claims_wf_set_entry p r id st p' e :
  claims_wf p → set_entry p r id st = Some p' →
  get_entry p r id = Some e → me_state e = Pending → is_claimed st = false → claims_wf p'.
Proof.
  intros Hwf H Hget Hpend Hst.
  destruct (set_entry_Some _ _ _ _ _ H) as (s & e' & mb & Hi & He & -> & Hat).
  rewrite get_entry_at, Hi in Hget. cbn in Hget. simplify_eq. destruct Hwf as [Hs Hc]. split.
  - intros r' id' q Hq. destruct (Hs _ _ _ Hq) as (Hle & s' & e' & at_ms & Hi' & He' & Hst' & Hlt).
    split; [done|]. exists s', e', at_ms. split_and!; [done| |done..].
    rewrite Hat. destruct (decide _) as [[-> ->]|]; [|done]. simplify_eq. congruence.
  - intros r' s' e' c at_ms. rewrite Hat. destruct (decide _) as [[-> ->]|]; [|by apply Hc].
    intros [= <-] Hcl. cbn in Hcl. by rewrite Hcl in Hst.
Qed.

(** A pending entry is claimed by its recipient. *)
Lemma claims_wf_claim p r id p' e q at_ms :
  mailbox_wf p → claims_wf p →
  set_entry (set_claim_sequences (<[(r, id) := q]> (claim_sequences p)) p) r id (Claimed r at_ms)
    = Some p' →
  get_entry p r id = Some e → me_state e = Pending → q ≤ last_seq p → me_seq e < q → claims_wf p'.
Proof.
  intros Hm Hwf H Hget Hpend Hq Hlt.
  destruct (set_entry_Some _ _ _ _ _ H) as (s & e' & mb & Hi & He & -> & Hat).
  destruct (mailbox_wf_get_entry _ _ _ _ Hm Hget) as (Hi' & He' & <- & Hr).
  cbn in Hi. simplify_eq. change (entry_at p (me_recipient e) (me_seq e) = Some e') in He.
  simplify_eq. destruct Hwf as [Hs Hc]. split.
  - intros r' id' q'. cbn [claim_sequences set_mailboxes set_claim_sequences].
    destruct (decide ((r', id') = (me_recipient e, me_message_id e))) as [[= -> ->]|Hne].
    + rewrite lookup_insert_eq. intros [= <-]. split; [done|].
      eexists _, _, _. split_and!; [done|rewrite Hat, decide_True by done; done|done|done].
    + rewrite lookup_insert_ne by done. intros Hq'.
      destruct (Hs _ _ _ Hq') as (Hle & s' & e' & at' & Hi2 & He2 & Hst & Hlt').
      split; [done|]. exists s', e', at'. split_and!; [done| |done..].
      rewrite Hat. destruct (decide _) as [[-> ->]|]; [|done].
      change (entry_at p (me_recipient e) (me_seq e) = Some e') in He2. simplify_eq. congruence.
  - intros r' s' e' c at'. rewrite Hat.
    cbn [claim_sequences set_mailboxes set_claim_sequences].
    destruct (decide _) as [[-> ->]|Hne].
    + intros [= <-]. cbn. intros [= <- _]. split; [done|]. rewrite lookup_insert_eq. by eauto.
    + intros He2 Hst. destruct (Hc _ _ _ _ _ He2 Hst) as [-> Hsome]. split; [done|].
      destruct (decide ((me_recipient e, me_message_id e) = (r', me_message_id e'))) as [Heq|Hn].
      * rewrite Heq, lookup_insert_eq. by eauto.
      * by rewrite lookup_insert_ne.
Qed.

(** ** Accepting a message *)
Definition new_entry line (id : MessageId) (r : RecipientKey) : MailboxEntry :=
  MkEntry id r Pending (ll_seq line) (ll_ts line).
Definition insert_key (id : MessageId) (md : MessageMetadata)
    (index : gmap (RecipientKey * rstr) (MessageId * RequestDigest)) :=
  match md_client_key md with
  | Some key => <[(md_sender md, key) := (id, md_request_digest md)]> index
  | None => index
  end.

Lemma foldl_insert_entry line id l p :
  ∃ mb ix, foldl (insert_entry line id) p l = set_mailbox_index ix (set_mailboxes mb p) ∧
    (∀ r s, entry_at (foldl (insert_entry line id) p l) r s =
       if decide (r ∈ l ∧ s = ll_seq line) then Some (new_entry line id r) else entry_at p r s) ∧
    (∀ r id', ix !! (r, id') =
       if decide (r ∈ l ∧ id' = id) then Some (ll_seq line) else mailbox_index p !! (r, id')).
Proof.
  revert p. induction l as [|x l IH]; intros p; cbn [foldl].
  - exists (mailboxes p), (mailbox_index p). split; [by destruct p|].
    split; intros; rewrite decide_False; set_solver.
  - destruct (IH (insert_entry line id p x)) as (mb & ix & Heq & Hat & Hix).
    exists mb, ix. split; [rewrite Heq; by destruct p|]. split.
    + intros r s. rewrite Hat.
      destruct (decide (r ∈ l ∧ s = ll_seq line)) as [Hin|Hin];
        [rewrite decide_True by set_solver; done|].
      unfold entry_at, insert_entry. cbn. destruct (decide (r = x)) as [->|Hne].
      * rewrite lookup_insert_eq. cbn. destruct (decide (s = ll_seq line)) as [->|Hs].
        -- rewrite lookup_insert_eq, decide_True by set_solver. done.
        -- rewrite lookup_insert_ne, decide_False by set_solver.
           by destruct (mailboxes p !! x).
      * rewrite lookup_insert_ne, decide_False by set_solver. done.
    + intros r id'. rewrite Hix.
      destruct (decide (r ∈ l ∧ id' = id)) as [Hin|Hin];
        [rewrite decide_True by set_solver; done|]. cbn.
      destruct (decide ((x, id) = (r, id'))) as [Heq'|Hne].
      * rewrite Heq', lookup_insert_eq, decide_True by set_solver. done.
      * rewrite lookup_insert_ne, decide_False by set_solver. done.
Qed.

(** No entry of an unknown message is indexed. *)
Lemma mailbox_wf_unknown p r id :
  mailbox_wf p → messages p !! id = None → mailbox_index p !! (r, id) = None.
Proof.
  intros Hwf Hid. destruct (mailbox_index p !! (r, id)) as [s|] eqn:Hi; [|done].
  destruct (mw_index _ Hwf _ _ _ Hi) as (e & He & <-).
  destruct (mw_entry _ Hwf _ _ _ He) as (_ & _ & _ & line & md & [Hm _] & _). congruence.
Qed.

Lemma insert_key_subseteq p line id md update :
  message_ok p line id md update → idempotency_index p ⊆ insert_key id md (idempotency_index p).
Proof.
  intros Hok. unfold insert_key. destruct (md_client_key md) as [key|] eqn:Hk; [|done].
  apply insert_subseteq. by apply (mok_key _ _ _ _ _ Hok).
Qed.

(** The shape of the state after a message row. *)
Record message_committed p p' line (id : MessageId) (md : MessageMetadata) : Prop := {
  mc_workspace : workspace_id p' = workspace_id p;
  mc_last : last_seq p' = ll_seq line;
  mc_messages : messages p' = <[id := line]> (messages p);
  mc_idempotency : idempotency_index p' = insert_key id md (idempotency_index p);
  mc_index : ∀ r id', mailbox_index p' !! (r, id') =
    if decide (r ∈ md_recipients md ∧ id' = id) then Some (ll_seq line)
    else mailbox_index p !! (r, id');
  mc_entries : ∀ r s, s ≠ ll_seq line → entry_at p' r s = None ↔ entry_at p r s = None;
  mc_kept : ∀ r s e, s ≠ ll_seq line → entry_at p' r s = Some e →
    ∃ e' st, entry_at p r s = Some e' ∧ e = set_entry_state st e';
  mc_new : ∀ r, entry_at p' r (ll_seq line) =
    if decide (r ∈ md_recipients md) then Some (new_entry line id r) else None;
}.

Section message.
Context (p p' : MailboxProjection V) (line : LedgerLine V) (id : MessageId)
  (md : MessageMetadata) (update : option NotificationProjectionUpdate).
Hypothesis Hwf : mailbox_wf p.
Hypothesis Hok : message_ok p line id md update.
Hypothesis Hseq : ll_seq line = last_seq p + 1.
Hypothesis Hmax : ll_seq line ≤ u64_max.
Hypothesis Hmc : message_committed p p' line id md.

Lemma committed_messages_mono : messages p ⊆ messages p'.
Proof. rewrite (mc_messages _ _ _ _ _ Hmc). apply insert_subseteq, (mok_fresh _ _ _ _ _ Hok). Qed.
Lemma committed_index_mono : mailbox_index p ⊆ mailbox_index p'.
Proof.
  apply map_subseteq_spec. intros [r id'] s Hs. rewrite (mc_index _ _ _ _ _ Hmc).
  rewrite decide_False; [done|]. intros [_ ->].
  by rewrite (mailbox_wf_unknown _ _ _ Hwf (mok_fresh _ _ _ _ _ Hok)) in Hs.
Qed.
Lemma committed_stored id' line' md' :
  stored_message p id' line' md' → stored_message p' id' line' md'.
Proof. intros [Hm Hmd]. split; [|done]. eapply lookup_weaken; [done|apply committed_messages_mono]. Qed.
Lemma committed_stored_new : stored_message p' id line md.
Proof.
  split; [|apply (mok_metadata _ _ _ _ _ Hok)].
  by rewrite (mc_messages _ _ _ _ _ Hmc), lookup_insert_eq.
Qed.

(** The new message's thread root is stored and heads its own thread. *)
Lemma committed_thread :
  ∃ root rmd, stored_message p' (md_thread_root md) root rmd ∧
    md_thread_root rmd = md_thread_root md.
Proof.
  destruct (mok_thread _ _ _ _ _ Hok) as [Hroot|(pid & parent & pmd & Hp & Hpmd & Hroot)].
  - exists line, md. split; [|done]. rewrite Hroot. apply committed_stored_new.
  - destruct (mw_message _ Hwf _ _ Hp) as (pmd' & Hpmd' & Hso).
    rewrite Hpmd in Hpmd'. injection Hpmd' as <-.
    destruct (so_thread _ _ _ _ Hso) as (root & rmd & Hst & Hflat).
    exists root, rmd. rewrite Hroot. split; [by apply committed_stored|done].
Qed.

Lemma committed_stored_ok : stored_ok p' id line md.
Proof.
  destruct Hok. split; try done.
  - rewrite (mc_last _ _ _ _ _ Hmc). lia.
  - by rewrite (mc_workspace _ _ _ _ _ Hmc).
  - intros r Hr. rewrite (mc_workspace _ _ _ _ _ Hmc), (mc_index _ _ _ _ _ Hmc), decide_True by done.
    split; [|done]. by eapply (Forall_elem (λ r, rk_workspace_id r = _)).
  - apply committed_thread.
  - intros key Hk. rewrite (mc_idempotency _ _ _ _ _ Hmc). unfold insert_key. rewrite Hk.
    by rewrite lookup_insert_eq.
Qed.

Lemma mailbox_wf_message : mailbox_wf p'.
Proof.
  split.
  - by rewrite (mc_last _ _ _ _ _ Hmc).
  - intros r s e He. destruct (decide (s = ll_seq line)) as [->|Hs].
    + rewrite (mc_new _ _ _ _ _ Hmc) in He. destruct (decide _) as [Hr|]; [|done].
      injection He as <-. cbn. rewrite (mc_index _ _ _ _ _ Hmc), decide_True by done.
      split_and!; [done..|]. exists line, md. split_and!; [apply committed_stored_new|done..].
    + destruct (mc_kept _ _ _ _ _ Hmc _ _ _ Hs He) as (e' & st & He' & ->). cbn.
      destruct (mw_entry _ Hwf _ _ _ He') as (-> & -> & Hi & l & m & Hst & Hr & Hls & Hts).
      split_and!; [done..| |].
      * eapply lookup_weaken; [done|apply committed_index_mono].
      * exists l, m. split_and!; [by apply committed_stored|done..].
  - intros r id' s. rewrite (mc_index _ _ _ _ _ Hmc). destruct (decide _) as [[Hr ->]|Hn].
    + intros [= <-]. exists (new_entry line id r). split; [|done].
      by rewrite (mc_new _ _ _ _ _ Hmc), decide_True.
    + intros Hi. destruct (mw_index _ Hwf _ _ _ Hi) as (e & He & Hid).
      pose proof (mailbox_wf_entry_seq _ _ _ _ Hwf He).
      destruct (entry_at p' r s) as [e'|] eqn:He'.
      * destruct (mc_kept _ _ _ _ _ Hmc r s e') as (e2 & st & He2 & ->); [lia|done|].
        simplify_eq. by eauto.
      * apply (mc_entries _ _ _ _ _ Hmc) in He'; [congruence|lia].
  - intros id' line'. rewrite (mc_messages _ _ _ _ _ Hmc).
    destruct (decide (id = id')) as [<-|Hne].
    + rewrite lookup_insert_eq. intros [= <-]. exists md.
      split; [apply (mok_metadata _ _ _ _ _ Hok)|apply committed_stored_ok].
    + rewrite lookup_insert_ne by done. intros Hm.
      destruct (mw_message _ Hwf _ _ Hm) as (md' & Hmd' & Hso). exists md'. split; [done|].
      eapply stored_ok_mono; [done|apply (mc_workspace _ _ _ _ _ Hmc)| |apply committed_messages_mono
        |apply committed_index_mono|].
      * rewrite (mc_last _ _ _ _ _ Hmc). lia.
      * rewrite (mc_idempotency _ _ _ _ _ Hmc). by eapply insert_key_subseteq.
  - intros sender key id' digest. rewrite (mc_idempotency _ _ _ _ _ Hmc). unfold insert_key.
    destruct (md_client_key md) as [k|] eqn:Hk.
    + destruct (decide ((md_sender md, k) = (sender, key))) as [[= <- <-]|Hne].
      * rewrite lookup_insert_eq. intros [= <- <-]. exists line, md.
        split_and!; [apply committed_stored_new|done..].
      * rewrite lookup_insert_ne by done. intros Hi.
        destruct (mw_idempotency _ Hwf _ _ _ _ Hi) as (l & m & Hst & Hx).
        exists l, m. split; [by apply committed_stored|done].
    + intros Hi. destruct (mw_idempotency _ Hwf _ _ _ _ Hi) as (l & m & Hst & Hx).
      exists l, m. split; [by apply committed_stored|done].
  - assert (∀ id' line', messages p !! id' = Some line' → ll_seq line' ≠ ll_seq line) as Hold.
    { intros id' line' Hl. destruct (mw_message _ Hwf _ _ Hl) as (md' & _ & Hso).
      pose proof (so_seq _ _ _ _ Hso). lia. }
    intros id1 id2 l1 l2. rewrite (mc_messages _ _ _ _ _ Hmc).
    intros [[<- <-]|[_ H1]]%lookup_insert_Some [[<- <-]|[_ H2]]%lookup_insert_Some E; try done.
    + by destruct (Hold _ _ H2).
    + by destruct (Hold _ _ H1).
    + by eapply (mw_seq _ Hwf).
Qed.
End message.

(** ** Frames *)

(** The fields about notification attempts other than the records. *)
Definition same_attempts p p' : Prop :=
  active_notification_barriers p' = active_notification_barriers p ∧
  notification_attempts p' = notification_attempts p ∧
  notification_write_sequences p' = notification_write_sequences p.
(** The fields about operator decisions. *)
Definition same_decisions p p' : Prop :=
  cleared_attempts p' = cleared_attempts p ∧
  resolved_attempts p' = resolved_attempts p ∧ resolution_intents p' = resolution_intents p ∧
  forced_resolution_intents p' = forced_resolution_intents p ∧
  resolution_action_reservations p' = resolution_action_reservations p ∧
  resolution_actions_accepted p' = resolution_actions_accepted p ∧
  resolution_consumptions p' = resolution_consumptions p.
(** The fields about messages and mailboxes. *)
Definition same_mailboxes p p' : Prop :=
  workspace_id p' = workspace_id p ∧ messages p' = messages p ∧
  idempotency_index p' = idempotency_index p ∧ mailboxes p' = mailboxes p ∧
  mailbox_index p' = mailbox_index p ∧ claim_sequences p' = claim_sequences p.

Definition apply_update (update : option NotificationProjectionUpdate)
    (records : gmap (RecipientKey * MessageId) NotificationRecord) :=
  match update with Some u => <[up_key u := up_record u]> records | None => records end.

Lemma mailbox_wf_same p p' :
  same_mailboxes p p' → last_seq p ≤ last_seq p' → last_seq p' ≤ u64_max →
  mailbox_wf p → mailbox_wf p'.
Proof.
  intros (Hw & Hm & Hd & Hb & Hi & _) Hle Hmax Hwf.
  assert (∀ r s, entry_at p' r s = entry_at p r s) as Hat.
  { intros r s. unfold entry_at. by rewrite Hb. }
  destruct Hwf as [_ He Hix Hms Hid Hq]. unfold stored_message in *.
  split; rewrite ?Hm, ?Hd, ?Hi; try done.
  - intros r s e. rewrite Hat. unfold stored_message. rewrite Hm. apply He.
  - intros r id s. rewrite Hat. apply Hix.
  - intros id line Hl. destruct (Hms _ _ Hl) as (md & Hmd & Hso). exists md. split; [done|].
    eapply stored_ok_mono; [done|done|done|by rewrite Hm|by rewrite Hi|by rewrite Hd].
  - intros. unfold stored_message. rewrite Hm. by apply Hid.
Qed.

Lemma mailbox_wf_claims p q : mailbox_wf p → mailbox_wf (set_claim_sequences q p).
Proof.
  intros [? ? ? Hm ? ?]. split; try done.
  intros id line Hl. destruct (Hm _ _ Hl) as (md & Hmd & Hso). exists md. split; [done|].
  by eapply stored_ok_mono.
Qed.

Lemma claims_wf_same p p' :
  same_mailboxes p p' → last_seq p ≤ last_seq p' → claims_wf p → claims_wf p'.
Proof.
  intros (_ & _ & _ & Hb & Hi & Hc) Hle [Hs Hcl]. unfold entry_at in *.
  split; unfold entry_at; rewrite Hb, ?Hi, Hc; [|done].
  intros r id q Hq. destruct (Hs _ _ _ Hq). split; [lia|done].
Qed.

(** Inserting entries under a fresh sequence number leaves claims alone. *)
Lemma claims_wf_insert p p' (l : list RecipientKey) line id :
  claims_wf p → last_seq p ≤ last_seq p' → claim_sequences p' = claim_sequences p →
  mailbox_index p ⊆ mailbox_index p' → (∀ r e, entry_at p r (ll_seq line) ≠ Some e) →
  (∀ r s, entry_at p' r s =
     if decide (r ∈ l ∧ s = ll_seq line) then Some (new_entry line id r) else entry_at p r s) →
  claims_wf p'.
Proof.
  intros [Hs Hc] Hle Hcs Hix Hfresh Hat. split.
  - intros r id' q. rewrite Hcs. intros Hq.
    destruct (Hs _ _ _ Hq) as (Hq' & s & e & at_ms & Hi & He & Hst & Hlt).
    split; [lia|]. exists s, e, at_ms. split_and!; [by eapply lookup_weaken| |done..].
    rewrite Hat, decide_False; [done|]. intros [_ ->]. by eapply Hfresh.
  - intros r s e c at_ms. rewrite Hat, Hcs. destruct (decide _); [|by apply Hc].
    by intros [= <-].
Qed.

Section commit_message.
Context (p : MailboxProjection V) (line : LedgerLine V) (id : MessageId)
  (md : MessageMetadata) (update : option NotificationProjectionUpdate).
Hypothesis Hwf : mailbox_wf p.
Hypothesis Hclaims : claims_wf p.
Hypothesis Hok : message_ok p line id md update.
Hypothesis Hseq : ll_seq line = last_seq p + 1.
Hypothesis Hmax : ll_seq line ≤ u64_max.
Let pl := set_last_workspace_seq (Some (ll_seq line)) p.

(** Retiring the replaced message's entry. *)
Definition superseded_step (p1 : MailboxProjection V) : Prop :=
  match md_supersedes md with
  | None => p1 = pl
  | Some target =>
      ∃ recipient e, md_recipients md = [recipient] ∧ get_entry p recipient target = Some e ∧
        me_state e = Pending ∧
        set_entry pl recipient target (EntrySuperseded id (ll_ts line)) = Some p1
  end.

Lemma superseded_step_total : ∃ p1, superseded_step p1.
Proof.
  unfold superseded_step. destruct (md_supersedes md) as [target|] eqn:Hs; [|by eauto].
  destruct (mok_supersedes _ _ _ _ _ Hok target Hs)
    as (recipient & e & tl & tmd & Hr & _ & _ & _ & _ & He & Hp & _).
  destruct (set_entry_total pl recipient target (EntrySuperseded id (ll_ts line))) as [p1 Hp1];
    [by eexists|]. by eauto 8.
Qed.

Lemma superseded_step_spec p1 :
  superseded_step p1 →
  (∃ mb, p1 = set_mailboxes mb pl) ∧ mailbox_wf p1 ∧ claims_wf p1 ∧
  (∀ r s, entry_at p1 r s = None ↔ entry_at p r s = None) ∧
  (∀ r s e, entry_at p1 r s = Some e →
     ∃ e' st, entry_at p r s = Some e' ∧ e = set_entry_state st e').
Proof.
  assert (mailbox_wf pl) as Hpl by (apply mailbox_wf_seq; [done|lia|done]).
  assert (claims_wf pl) as Hcl by (apply claims_wf_seq; [done|lia]).
  unfold superseded_step. destruct (md_supersedes md) as [target|].
  - intros (recipient & e & _ & He & Hp & Hset).
    destruct (set_entry_Some _ _ _ _ _ Hset) as (s & e' & mb & Hi & Hat & -> & Hspec).
    change (entry_at p recipient s = Some e') in Hat.
    split_and!; [by eauto|by eapply mailbox_wf_set_entry|by eapply claims_wf_set_entry|..];
      intros r' s'; rewrite Hspec; destruct (decide _) as [[-> ->]|].
    + rewrite Hat. done.
    + done.
    + intros e2 [= <-]. by eauto.
    + intros e2 He2. exists e2, (me_state e2). split; [done|]. by destruct e2.
  - intros ->. split_and!; [|done..|].
    + exists (mailboxes p). by destruct p.
    + intros r s e He. exists e, (me_state e). split; [done|]. by destruct e.
Qed.

Lemma commit_message_unfold p1 :
  superseded_step p1 →
  ∃ p', commit_message pl line id md update = Some p' ∧
    p' = set_messages (<[id := line]> (messages p1))
           (set_notifications (apply_update update (notifications p1))
              (foldl (insert_entry line id)
                 (set_idempotency_index (insert_key id md (idempotency_index p1)) p1)
                 (md_recipients md))).
Proof.
  intros Hstep. unfold commit_message.
  assert (∀ p2 : MailboxProjection V, match update with
     | Some u => set_notifications (<[up_key u := up_record u]> (notifications p2)) p2
     | None => p2
     end = set_notifications (apply_update update (notifications p2)) p2) as Hup.
  { intros p2. by destruct update, p2. }
  assert (∀ p2 : MailboxProjection V, match md_client_key md with
     | Some key => set_idempotency_index
         (<[(md_sender md, key) := (id, md_request_digest md)]> (idempotency_index p2)) p2
     | None => p2
     end = set_idempotency_index (insert_key id md (idempotency_index p2)) p2) as Hkey.
  { intros p2. unfold insert_key. by destruct (md_client_key md), p2. }
  eexists. split; [|reflexivity].
  assert ((match md_supersedes md with
     | Some superseded => recipient ← md_recipients md !! 0%nat;
         set_entry pl recipient superseded (EntrySuperseded id (ll_ts line))
     | None => Some pl end) = Some p1) as ->.
  { unfold superseded_step in Hstep. destruct (md_supersedes md); [|by subst].
    destruct Hstep as (r & e & -> & _ & _ & Hset). done. }
  cbn [mbind option_bind]. rewrite Hkey, Hup.
  destruct (foldl_insert_entry line id (md_recipients md)
    (set_idempotency_index (insert_key id md (idempotency_index p1)) p1)) as (mb & ix & -> & _).
  by destruct p1.
Qed.

Lemma commit_message_ok :
  ∃ p', commit_message pl line id md update = Some p' ∧
    message_committed p p' line id md ∧ mailbox_wf p' ∧ claims_wf p' ∧
    notifications p' = apply_update update (notifications p) ∧
    same_attempts p p' ∧ same_decisions p p'.
Proof.
  destruct superseded_step_total as [p1 Hstep].
  destruct (commit_message_unfold _ Hstep) as (p' & Hc & Hp').
  destruct (superseded_step_spec _ Hstep) as ([mb1 Hp1] & Hwf1 & Hcl1 & Hnone & Hkept).
  set (pi := set_idempotency_index (insert_key id md (idempotency_index p1)) p1) in Hp'.
  destruct (foldl_insert_entry line id (md_recipients md) pi) as (mb & ix & Hfold & Hat & Hix).
  assert (∀ r s, entry_at p' r s = if decide (r ∈ md_recipients md ∧ s = ll_seq line)
    then Some (new_entry line id r) else entry_at p1 r s) as Hat'.
  { intros r s. rewrite Hp'. apply Hat. }
  assert (∀ r e, entry_at p1 r (ll_seq line) ≠ Some e) as Hfresh.
  { intros r e He. destruct (Hkept _ _ _ He) as (e' & _ & He' & _).
    pose proof (mailbox_wf_entry_seq _ _ _ _ Hwf He'). lia. }
  assert (message_committed p p' line id md) as Hmc.
  { split; try (rewrite Hp', Hfold; unfold pi; rewrite Hp1; done).
    - intros r id'. rewrite Hp', Hfold. cbn. rewrite Hix. unfold pi. rewrite Hp1. done.
    - intros r s Hs. rewrite Hat', decide_False by naive_solver. apply Hnone.
    - intros r s e Hs. rewrite Hat', decide_False by naive_solver. apply Hkept.
    - intros r. rewrite Hat'. destruct (decide (r ∈ md_recipients md)).
      + by rewrite decide_True.
      + rewrite decide_False by naive_solver.
        destruct (entry_at p1 r (ll_seq line)) as [e|] eqn:He; [|done]. by destruct (Hfresh r e). }
  exists p'. split_and!; [done|done| | | |..].
  - by apply (mailbox_wf_message p p' line id md update).
  - eapply (claims_wf_insert p1 p'); [done| | | |done|done].
    + rewrite (mc_last _ _ _ _ _ Hmc). subst p1. done.
    + rewrite Hp', Hfold. done.
    + assert (mailbox_index p1 = mailbox_index p) as -> by by subst p1.
      by eapply committed_index_mono.
  - rewrite Hp', Hfold. cbn. by rewrite Hp1.
  - rewrite Hp', Hfold. unfold pi. by rewrite Hp1.
  - rewrite Hp', Hfold. unfold pi. by rewrite Hp1.
Qed.
End commit_message.
End mailbox_inv.
