(* ===== verification/NotificationInv.v ===== *)
(** * Notification well-formedness

    The part of the projection's invariant about wake attempts: the records
    and the active barriers ([notif_wf]), and the operator decisions about
    attempts that need attention ([decisions_wf]); with the lemmas that
    preserve them when one record, or a batch of fresh ones, is written. *)
From S2P Require Import Prelude Text Identity Ledger Mailbox Notification Facts.
From S2P Require Import Projection Attempt Prepared MailboxInv.
Local Open Scope N_scope.

Section notification_inv.
Context {V : Type} {serde : Serde V} {uuids : Uuids} {digests : Digests}.
Implicit Types (p : MailboxProjection V) (line : LedgerLine V)
  (k : RecipientKey * MessageId) (n b c : NotificationRecord) (a : NotificationAttemptId).

Record record_ok p k n : Prop := {
  ro_recipient : nr_recipient n = k.1;
  ro_message : nr_message_id n = k.2;
  ro_indexed : is_Some (mailbox_index p !! k);
  ro_agent : is_admin k.1 = false;
  ro_attempt : nr_attempt_id n ∈ notification_attempts p;
  ro_counters : counters_bounded n;
  ro_seq : 1 ≤ nr_started_seq n ∧ nr_started_seq n ≤ nr_updated_seq n ∧
           nr_updated_seq n ≤ last_seq p;
}.

(** The states a requeue replaces. *)
Definition replaceable (st : NotificationState) : bool :=
  match st with AttentionRequired | QuotaResetObserved => true | _ => false end.

(** A barrier is the current record of its message, or the last record of an
    attempt that was requeued since; it holds a written, bound pane. *)
Record barrier_ok p a b : Prop := {
  bo_attempt : nr_attempt_id b = a;
  bo_known : a ∈ notification_attempts p;
  bo_post_write : post_write (nr_state b) = true;
  bo_bound : is_Some (nr_binding b);
  bo_written : is_Some (notification_write_sequences p !! a);
  bo_indexed : is_Some (mailbox_index p !! (nr_recipient b, nr_message_id b));
  bo_current : ∀ k n, notifications p !! k = Some n → nr_attempt_id n = a → n = b;
  bo_replaced : ∃ n, notifications p !! (nr_recipient b, nr_message_id b) = Some n ∧
    (n = b ∨ nr_attempt_id n ≠ a ∧ replaceable (nr_state b) = true);
}.

Record notif_wf p : Prop := {
  nw_record : ∀ k n, notifications p !! k = Some n → record_ok p k n;
  nw_unique : ∀ k1 k2 n1 n2, notifications p !! k1 = Some n1 → notifications p !! k2 = Some n2 →
    nr_attempt_id n1 = nr_attempt_id n2 → k1 = k2;
  nw_barrier : ∀ a b, active_notification_barriers p !! a = Some b → barrier_ok p a b;
  nw_one_barrier : ∀ a1 a2 b1 b2, active_notification_barriers p !! a1 = Some b1 →
    active_notification_barriers p !! a2 = Some b2 → nr_recipient b1 = nr_recipient b2 → a1 = a2;
  nw_written : ∀ a q, notification_write_sequences p !! a = Some q →
    a ∈ notification_attempts p ∧ q ≤ last_seq p;
}.

Record decisions_wf p : Prop := {
  dw_intent : ∀ a x, resolution_intents p !! a = Some x → a ∈ notification_attempts p;
  dw_forced : ∀ a, a ∈ forced_resolution_intents p → resolution_intents p !! a = Some Complete;
  dw_reserved : ∀ a x, resolution_action_reservations p !! a = Some x →
    x = Complete ∧ resolution_intents p !! a = Some Complete;
  dw_accepted : ∀ a x, resolution_actions_accepted p !! a = Some x →
    resolution_intents p !! a = Some x;
  dw_consumed : ∀ a o, resolution_consumptions p !! a = Some o →
    resolution_actions_accepted p !! a = Some Complete ∧ 0 < co_observed_at_ms o;
  dw_cleared : cleared_attempts p ⊆ notification_attempts p;
  dw_resolved : ∀ a x, resolved_attempts p !! a = Some x →
    a ∈ notification_attempts p ∧ active_notification_barriers p !! a = None ∧
    (a ∉ forced_resolution_intents p) ∧
    ∀ k n, notifications p !! k = Some n → nr_attempt_id n = a → nr_state n = AttentionRequired;
}.

Lemma notif_wf_new ws : notif_wf (projection_new ws).
Proof. by split. Qed.
Lemma decisions_wf_new ws : decisions_wf (projection_new ws).
Proof. by split. Qed.

(** ** Frames *)
Lemma record_ok_mono p p' k n :
  record_ok p k n → mailbox_index p ⊆ mailbox_index p' →
  notification_attempts p ⊆ notification_attempts p' → last_seq p ≤ last_seq p' →
  record_ok p' k n.
Proof.
  intros [] Hi Ha Hl. split; try done; [by eapply lookup_weaken_is_Some|set_solver|lia].
Qed.

Lemma notif_wf_frame p p' :
  notif_wf p → notifications p' = notifications p → same_attempts p p' →
  mailbox_index p ⊆ mailbox_index p' → last_seq p ≤ last_seq p' → notif_wf p'.
Proof.
  intros [Hr Hu Hb Ho Hw] Hn (Hba & Hat & Hws) Hi Hl. split; rewrite ?Hn, ?Hba, ?Hws, ?Hat; try done.
  - intros k n Hk. eapply record_ok_mono; [by apply Hr|done|by rewrite Hat|done].
  - intros a b Hab. destruct (Hb _ _ Hab). split; rewrite ?Hat, ?Hws, ?Hn; try done.
    by eapply lookup_weaken_is_Some.
  - intros a q Hq. destruct (Hw _ _ Hq). split; [done|lia].
Qed.

Lemma decisions_wf_frame p p' :
  decisions_wf p → notifications p' = notifications p → same_attempts p p' →
  same_decisions p p' → decisions_wf p'.
Proof.
  intros [] Hn (Hba & Hat & _) (Hc & Hr & Hi & Hf & Hrs & Hac & Hco).
  split; rewrite ?Hn, ?Hba, ?Hat, ?Hc, ?Hr, ?Hi, ?Hf, ?Hrs, ?Hac, ?Hco; done.
Qed.

(** ** Writing one record *)
Record write_ok p p' k n : Prop := {
  wo_records : notifications p' = <[k := n]> (notifications p);
  wo_index : mailbox_index p ⊆ mailbox_index p';
  wo_attempts : notification_attempts p ⊆ notification_attempts p';
  wo_last : last_seq p ≤ last_seq p';
  wo_record : record_ok p' k n;
  wo_replaces : ∀ c, notifications p !! k = Some c →
    nr_attempt_id c = nr_attempt_id n ∨ replaceable (nr_state c) = true;
  wo_unique : ∀ k2 n2, notifications p !! k2 = Some n2 → nr_attempt_id n2 = nr_attempt_id n → k2 = k;
  wo_barrier : ∀ a b, active_notification_barriers p' !! a = Some b →
    is_Some (notification_write_sequences p' !! a) ∧
    ((a = nr_attempt_id n ∧ b = n ∧ post_write (nr_state n) = true ∧ is_Some (nr_binding n)) ∨
     (a ≠ nr_attempt_id n ∧ active_notification_barriers p !! a = Some b));
  wo_one : ∀ a b, active_notification_barriers p' !! a = Some b → a ≠ nr_attempt_id n →
    active_notification_barriers p' !! nr_attempt_id n = Some n → nr_recipient b ≠ nr_recipient n;
  wo_written : ∀ a q, notification_write_sequences p' !! a = Some q →
    a ∈ notification_attempts p' ∧ q ≤ last_seq p';
}.

Lemma notif_wf_write p p' k n : notif_wf p → write_ok p p' k n → notif_wf p'.
Proof.
  intros Hwf Hw. split.
  - intros k' n'. rewrite (wo_records _ _ _ _ Hw). intros [[<- <-]|[Hne Hk]]%lookup_insert_Some.
    + apply (wo_record _ _ _ _ Hw).
    + eapply record_ok_mono; [by apply (nw_record _ Hwf)|apply Hw..].
  - intros k1 k2 n1 n2. rewrite (wo_records _ _ _ _ Hw).
    intros [[<- <-]|[Hne1 Hk1]]%lookup_insert_Some [[<- <-]|[Hne2 Hk2]]%lookup_insert_Some Heq.
    + done.
    + symmetry. by eapply (wo_unique _ _ _ _ Hw).
    + by eapply (wo_unique _ _ _ _ Hw).
    + by eapply (nw_unique _ Hwf).
  - intros a b Hab. destruct (wo_barrier _ _ _ _ Hw _ _ Hab) as [Hws [(-> & -> & Hp & Hb)|[Hne Hb]]].
    + destruct (wo_record _ _ _ _ Hw) as [Hr Hm Hi ? Ha ? ?]. split; try done.
      * rewrite Hr, Hm. by destruct k.
      * intros k' n'. rewrite (wo_records _ _ _ _ Hw).
        intros [[<- <-]|[Hne Hk]]%lookup_insert_Some Heq; [done|].
        by destruct Hne; symmetry; eapply (wo_unique _ _ _ _ Hw).
      * exists n. rewrite (wo_records _ _ _ _ Hw), Hr, Hm, <-surjective_pairing, lookup_insert_eq. by split; [|left].
    + destruct (nw_barrier _ Hwf _ _ Hb) as [Ha Hk Hp Hbo Hws' Hi Hcur Hrep]. split; try done.
      * pose proof (wo_attempts _ _ _ _ Hw). set_solver.
      * eapply lookup_weaken_is_Some; [done|apply Hw].
      * intros k' n'. rewrite (wo_records _ _ _ _ Hw).
        intros [[<- <-]|[? Hk']]%lookup_insert_Some Heq; [by destruct Hne|by eapply Hcur].
      * rewrite (wo_records _ _ _ _ Hw). destruct Hrep as (m & Hm & Hrep).
        destruct (decide (k = (nr_recipient b, nr_message_id b))) as [->|Hnk];
          [|exists m; by rewrite lookup_insert_ne].
        exists n. rewrite lookup_insert_eq. split; [done|]. right. split; [congruence|].
        destruct Hrep as [->|[_ ?]]; [|done].
        destruct (wo_replaces _ _ _ _ Hw _ Hm) as [?|?]; [congruence|done].
  - assert (∀ a b, active_notification_barriers p' !! a = Some b → a ≠ nr_attempt_id n →
      active_notification_barriers p !! a = Some b) as Hold.
    { intros a b Hab Hne. by destruct (wo_barrier _ _ _ _ Hw _ _ Hab) as [_ [[]|[]]]. }
    assert (∀ b, active_notification_barriers p' !! nr_attempt_id n = Some b → b = n) as Hnew.
    { intros b Hb. by destruct (wo_barrier _ _ _ _ Hw _ _ Hb) as [_ [(_ & -> & _)|[]]]. }
    intros a1 a2 b1 b2 H1 H2 Heq.
    destruct (decide (a1 = nr_attempt_id n)) as [->|Hn1];
      destruct (decide (a2 = nr_attempt_id n)) as [->|Hn2]; [done|..].
    + pose proof (Hnew _ H1) as ->. by destruct (wo_one _ _ _ _ Hw _ _ H2 Hn2 H1).
    + pose proof (Hnew _ H2) as ->. by destruct (wo_one _ _ _ _ Hw _ _ H1 Hn1 H2).
    + by eapply (nw_one_barrier _ Hwf); [apply Hold..|].
  - apply Hw.
Qed.

(** The barriers do not mention the written attempt and are unchanged. *)
Lemma write_ok_aside p p' k n :
  notif_wf p → notifications p' = <[k := n]> (notifications p) →
  active_notification_barriers p' = active_notification_barriers p →
  notification_write_sequences p' = notification_write_sequences p →
  notification_attempts p ⊆ notification_attempts p' →
  mailbox_index p ⊆ mailbox_index p' → last_seq p ≤ last_seq p' → record_ok p' k n →
  (∀ k2 n2, notifications p !! k2 = Some n2 → nr_attempt_id n2 = nr_attempt_id n → k2 = k) →
  (∀ c, notifications p !! k = Some c →
     nr_attempt_id c = nr_attempt_id n ∨ replaceable (nr_state c) = true) →
  active_notification_barriers p !! nr_attempt_id n = None → write_ok p p' k n.
Proof.
  intros Hwf Hn Hb Hw Ha Hi Hl Hr Hu Hrep Hnone. split; try done; rewrite ?Hb, ?Hw.
  - intros a b Hab. split; [apply (bo_written _ _ _ (nw_barrier _ Hwf _ _ Hab))|].
    right. split; [congruence|done].
  - congruence.
  - intros a q Hq. destruct (nw_written _ Hwf _ _ Hq). split; [set_solver|lia].
Qed.

(** The attempt holds the barrier, and its barrier follows the record. *)
Lemma write_ok_follow p p' k c n :
  notif_wf p → notifications p !! k = Some c → nr_attempt_id n = nr_attempt_id c →
  notifications p' = <[k := n]> (notifications p) →
  active_notification_barriers p !! nr_attempt_id n = Some c →
  active_notification_barriers p' = <[nr_attempt_id n := n]> (active_notification_barriers p) →
  notification_write_sequences p' = notification_write_sequences p →
  notification_attempts p' = notification_attempts p →
  mailbox_index p' = mailbox_index p → last_seq p ≤ last_seq p' → record_ok p' k n →
  post_write (nr_state n) = true → is_Some (nr_binding n) → write_ok p p' k n.
Proof.
  intros Hwf Hc Hid Hn Hbar Hb Hw Ha Hi Hl Hr Hp Hbind.
  split; try done; rewrite ?Hb, ?Hw, ?Ha, ?Hi; try done.
  - intros c' Hc'. left. congruence.
  - intros k2 n2 H2 Heq. eapply (nw_unique _ Hwf); [done..|congruence].
  - intros a b [[<- <-]|[Hne Hab]]%lookup_insert_Some.
    + split; [apply (bo_written _ _ _ (nw_barrier _ Hwf _ _ Hbar))|by left].
    + split; [apply (bo_written _ _ _ (nw_barrier _ Hwf _ _ Hab))|by right].
  - intros a b [[<- <-]|[Hne Hab]]%lookup_insert_Some Hne' _ Heq; [done|].
    destruct Hne. eapply (nw_one_barrier _ Hwf); [done..|].
    destruct (nw_record _ Hwf _ _ Hc) as [Hcr _ _ _ _ _ _], Hr as [Hnr _ _ _ _ _ _]. congruence.
  - intros a q Hq. destruct (nw_written _ Hwf _ _ Hq). split; [done|lia].
Qed.

(** The attempt's barrier, if any, is dropped with the write. *)
Lemma write_ok_drop p p' k c n :
  notif_wf p → notifications p !! k = Some c → nr_attempt_id n = nr_attempt_id c →
  notifications p' = <[k := n]> (notifications p) →
  active_notification_barriers p' = delete (nr_attempt_id n) (active_notification_barriers p) →
  (∀ a, a ≠ nr_attempt_id n →
     notification_write_sequences p' !! a = notification_write_sequences p !! a) →
  (∀ q, notification_write_sequences p' !! nr_attempt_id n = Some q →
     notification_write_sequences p !! nr_attempt_id n = Some q) →
  notification_attempts p' = notification_attempts p →
  mailbox_index p' = mailbox_index p → last_seq p ≤ last_seq p' → record_ok p' k n →
  write_ok p p' k n.
Proof.
  intros Hwf Hc Hid Hn Hb Hw Hw' Ha Hi Hl Hr.
  split; try done; rewrite ?Hb, ?Ha, ?Hi; try done.
  - intros c' Hc'. left. congruence.
  - intros k2 n2 H2 Heq. eapply (nw_unique _ Hwf); [done..|congruence].
  - intros a b [Hne Hab]%lookup_delete_Some. rewrite Hw by done.
    split; [apply (bo_written _ _ _ (nw_barrier _ Hwf _ _ Hab))|by right].
  - intros a b _ _. by rewrite lookup_delete_eq.
  - intros a q Hq. destruct (nw_written _ Hwf a q) as [? ?]; [|split; [done|lia]].
    destruct (decide (a = nr_attempt_id n)) as [->|]; [by apply Hw'|by rewrite <-Hw].
Qed.

(** A bound write takes the recipient's barrier. *)
Lemma write_ok_bound p p' k c n q :
  notif_wf p → notifications p !! k = Some c → nr_attempt_id n = nr_attempt_id c →
  notifications p' = <[k := n]> (notifications p) →
  active_notification_barriers p' =
    <[nr_attempt_id n := n]> (release_barriers n (active_notification_barriers p)) →
  notification_write_sequences p' = <[nr_attempt_id n := q]> (notification_write_sequences p) →
  notification_attempts p' = notification_attempts p →
  mailbox_index p' = mailbox_index p → last_seq p ≤ last_seq p' → q ≤ last_seq p' →
  record_ok p' k n → post_write (nr_state n) = true → is_Some (nr_binding n) → write_ok p p' k n.
Proof.
  intros Hwf Hc Hid Hn Hb Hw Ha Hi Hl Hq Hr Hp Hbind.
  split; try done; rewrite ?Hb, ?Hw, ?Ha, ?Hi; try done.
  - intros c' Hc'. left. congruence.
  - intros k2 n2 H2 Heq. eapply (nw_unique _ Hwf); [done..|congruence].
  - intros a b [[<- <-]|[Hne Hab]]%lookup_insert_Some.
    + rewrite lookup_insert_eq. by eauto 8.
    + rewrite lookup_insert_ne by done. apply map_lookup_filter_Some in Hab as [Hab _].
      split; [apply (bo_written _ _ _ (nw_barrier _ Hwf _ _ Hab))|by right].
  - intros a b [[<- <-]|[Hne Hab]]%lookup_insert_Some Hne' _; [done|].
    apply map_lookup_filter_Some in Hab as [_ [?|?]]; done.
  - intros a q' [[<- <-]|[Hne Hq']]%lookup_insert_Some.
    + split; [|done]. rewrite Hid. apply (ro_attempt _ _ _ (nw_record _ Hwf _ _ Hc)).
    + destruct (nw_written _ Hwf _ _ Hq'). split; [done|lia].
Qed.

(** ** Facts about current records *)
Lemma barrier_is_current p k c b :
  notif_wf p → notifications p !! k = Some c →
  active_notification_barriers p !! nr_attempt_id c = Some b → b = c.
Proof. intros Hwf Hc Hb. symmetry. by eapply (bo_current _ _ _ (nw_barrier _ Hwf _ _ Hb)). Qed.

Lemma barrier_none_pre_write p k c :
  notif_wf p → notifications p !! k = Some c → post_write (nr_state c) = false →
  active_notification_barriers p !! nr_attempt_id c = None.
Proof.
  intros Hwf Hc Hp. destruct (active_notification_barriers p !! _) as [b|] eqn:Hb; [|done].
  pose proof (barrier_is_current _ _ _ _ Hwf Hc Hb) as ->.
  pose proof (bo_post_write _ _ _ (nw_barrier _ Hwf _ _ Hb)). congruence.
Qed.

Lemma attempt_key_unique p k c n :
  notif_wf p → notifications p !! k = Some c → nr_attempt_id n = nr_attempt_id c →
  ∀ k2 n2, notifications p !! k2 = Some n2 → nr_attempt_id n2 = nr_attempt_id n → k2 = k.
Proof. intros Hwf Hc Hid k2 n2 H2 Heq. eapply (nw_unique _ Hwf); [done..|congruence]. Qed.

(** A step of a stored attempt yields a well-formed record. *)
Lemma record_ok_step p p' k c n replaying :
  record_ok p k c → attempt_step (V:=V) replaying c n →
  nr_recipient n = k.1 → nr_message_id n = k.2 →
  nr_updated_seq n = last_seq p' → last_seq p ≤ last_seq p' →
  mailbox_index p ⊆ mailbox_index p' → notification_attempts p ⊆ notification_attempts p' →
  record_ok p' k n.
Proof.
  intros [] Hstep Hr Hm Hu Hl Hi Ha.
  destruct (attempt_step_counters _ _ _ Hstep) as [Hc _]; [done|].
  destruct (attempt_step_identity _ _ _ Hstep) as [Hid Hst].
  split; try done; [by eapply lookup_weaken_is_Some|rewrite Hid; set_solver|].
  rewrite Hst, Hu. lia.
Qed.

(** ** Writing fresh attempts *)
Lemma write_ok_fresh p p' k n :
  notif_wf p → notifications p' = <[k := n]> (notifications p) →
  active_notification_barriers p' = active_notification_barriers p →
  notification_write_sequences p' = notification_write_sequences p →
  notification_attempts p' = {[nr_attempt_id n]} ∪ notification_attempts p →
  mailbox_index p ⊆ mailbox_index p' → last_seq p ≤ last_seq p' → record_ok p' k n →
  nr_attempt_id n ∉ notification_attempts p →
  (∀ c, notifications p !! k = Some c → replaceable (nr_state c) = true) → write_ok p p' k n.
Proof.
  intros Hwf Hn Hb Hw Ha Hi Hl Hr Hf Hrep. apply write_ok_aside; try done; [| |by eauto|].
  - rewrite Ha. set_solver.
  - intros k2 n2 H2 Heq. destruct Hf. rewrite <-Heq. apply (nw_record _ Hwf _ _ H2).
  - destruct (active_notification_barriers p !! _) as [b|] eqn:Hb'; [|done].
    destruct Hf. apply (nw_barrier _ Hwf _ _ Hb').
Qed.

(** ** Decisions while a record is written *)
Lemma decisions_wf_write p p' k n :
  decisions_wf p → notifications p' = <[k := n]> (notifications p) →
  notification_attempts p ⊆ notification_attempts p' → same_decisions p p' →
  (∀ a b, active_notification_barriers p' !! a = Some b →
     a = nr_attempt_id n ∨ is_Some (active_notification_barriers p !! a)) →
  resolved_attempts p !! nr_attempt_id n = None → decisions_wf p'.
Proof.
  intros [Hi Hf Hr Ha Hc Hcl Hres] Hn Hat Hs Hb Hnone.
  destruct Hs as (Ecl & Er & Ei & Ef & Ers & Eac & Eco).
  split; rewrite ?Ecl, ?Er, ?Ei, ?Ef, ?Ers, ?Eac, ?Eco; try done.
  - intros a x Hx. apply Hi in Hx. set_solver.
  - set_solver.
  - intros a x Hx. destruct (Hres _ _ Hx) as (Hk & Hba & Hfo & Hst). split_and!; [set_solver| |done|].
    + destruct (active_notification_barriers p' !! a) as [b|] eqn:Hb'; [|done].
      destruct (Hb _ _ Hb') as [->|Hs]; [congruence|]. rewrite Hba in Hs. by destruct Hs.
    + intros k' n'. rewrite Hn. intros [[<- <-]|[_ Hk']]%lookup_insert_Some Heq; [|by eapply Hst].
      rewrite Heq in Hnone. congruence.
Qed.

(** An unsettled attempt is not resolved. *)
Lemma unresolved_attempt p k c :
  decisions_wf p → notifications p !! k = Some c → nr_state c ≠ AttentionRequired →
  resolved_attempts p !! nr_attempt_id c = None.
Proof.
  intros Hd Hc Hs. destruct (resolved_attempts p !! _) as [x|] eqn:Hx; [|done].
  destruct (dw_resolved _ Hd _ _ Hx) as (_ & _ & _ & Hst). by destruct Hs; eapply Hst.
Qed.
(** Nor is one that still holds its barrier. *)
Lemma unresolved_barrier p a :
  decisions_wf p → is_Some (active_notification_barriers p !! a) → resolved_attempts p !! a = None.
Proof.
  intros Hd [b Hb]. destruct (resolved_attempts p !! _) as [x|] eqn:Hx; [|done].
  destruct (dw_resolved _ Hd _ _ Hx) as (_ & Hn & _). congruence.
Qed.
Lemma unresolved_fresh p a :
  decisions_wf p → a ∉ notification_attempts p → resolved_attempts p !! a = None.
Proof.
  intros Hd Ha. destruct (resolved_attempts p !! _) as [x|] eqn:Hx; [|done].
  by destruct Ha; apply (dw_resolved _ Hd _ _ Hx).
Qed.
End notification_inv.
