(* ===== verification/Invariant.v ===== *)
(** * The projection invariant

    [wf] collects the mailbox, claim, notification and decision invariants.
    [commit_ok] shows that a validated mutation always commits (the [expect]s
    and indexing of [commit_line] cannot fail) and preserves [wf], and
    [apply_inner_wf] says so of one applied row. *)
From S2P Require Import Prelude Text Identity Ledger Mailbox Notification Facts.
From S2P Require Import Projection Attempt Prepared MailboxInv NotificationInv.
Local Open Scope N_scope.

Section invariant.
Context {V : Type} {serde : Serde V} {uuids : Uuids} {digests : Digests}.
Implicit Types (p : MailboxProjection V) (line : LedgerLine V).

Record wf p : Prop := {
  wf_mailbox : mailbox_wf p;
  wf_claims : claims_wf p;
  wf_notif : notif_wf p;
  wf_decisions : decisions_wf p;
}.

Lemma wf_new ws : wf (projection_new ws).
Proof.
  split; [apply mailbox_wf_new|apply claims_wf_new|apply notif_wf_new|apply decisions_wf_new].
Qed.

Section commit.
Context (p : MailboxProjection V) (line : LedgerLine V).
Hypothesis Hwf : wf p.
Hypothesis Hseq : ll_seq line = last_seq p + 1.
Hypothesis Hmax : ll_seq line ≤ u64_max.
Let pl := set_last_workspace_seq (Some (ll_seq line)) p.

(** The outcome of a commit. *)
Definition committed (r : option (MailboxProjection V)) : Prop :=
  ∃ p', r = Some p' ∧ wf p' ∧ last_seq p' = ll_seq line.

Lemma pl_mailbox : mailbox_wf pl.
Proof. apply mailbox_wf_seq; [apply Hwf|lia|done]. Qed.
Lemma pl_claims : claims_wf pl.
Proof. apply claims_wf_seq; [apply Hwf|lia]. Qed.
Lemma pl_notif : notif_wf pl.
Proof. eapply notif_wf_frame; [apply Hwf|done..|]. cbn. lia. Qed.
Lemma pl_decisions : decisions_wf pl.
Proof. by eapply decisions_wf_frame; [apply Hwf|..]. Qed.
Lemma pl_last : last_seq pl = ll_seq line.
Proof. done. Qed.

(** Mutations that leave messages and mailboxes alone. *)
Lemma committed_outside p' :
  same_mailboxes pl p' → last_seq p' = ll_seq line → notif_wf p' → decisions_wf p' →
  committed (Some p').
Proof.
  intros Hs Hl Hn Hd. exists p'. split; [done|]. split; [|done]. split; [..|done|done].
  - eapply mailbox_wf_same; [done| |by rewrite Hl|apply pl_mailbox]. by rewrite Hl.
  - eapply claims_wf_same; [done| |apply pl_claims]. by rewrite Hl.
Qed.

(** A stored attempt takes a step that its barrier does not follow. *)
Lemma aside_step p' k c n replaying :
  notifications p !! k = Some c → attempt_step (V:=V) replaying c n →
  nr_recipient n = nr_recipient c → nr_message_id n = nr_message_id c →
  nr_updated_seq n = ll_seq line → last_seq p' = ll_seq line →
  active_notification_barriers p !! nr_attempt_id c = None → nr_state c ≠ AttentionRequired →
  notifications p' = <[k := n]> (notifications p) → same_attempts p p' → same_decisions p p' →
  mailbox_index p ⊆ mailbox_index p' → notif_wf p' ∧ decisions_wf p'.
Proof.
  intros Hc Hstep Hr Hm Hu Hl Hpre Hatt Hn (Hb & Ha & Hw) Hd Hi.
  pose proof (ro_recipient _ _ _ (nw_record _ (wf_notif _ Hwf) _ _ Hc)) as Hcr.
  pose proof (ro_message _ _ _ (nw_record _ (wf_notif _ Hwf) _ _ Hc)) as Hcm.
  destruct (attempt_step_identity _ _ _ Hstep) as [Hid _]. split.
  - eapply notif_wf_write; [apply Hwf|]. apply write_ok_aside; try done.
    + apply Hwf.
    + by rewrite Ha.
    + rewrite Hl. lia.
    + eapply record_ok_step; [by apply (nw_record _ (wf_notif _ Hwf))|done|congruence|congruence
        |congruence|rewrite Hl; lia|done|by rewrite Ha].
    + by eapply attempt_key_unique; [apply Hwf|..].
    + intros c' Hc'. left. congruence.
    + by rewrite Hid.
  - eapply decisions_wf_write; [apply Hwf|done|by rewrite Ha|done| |].
    + intros a b. rewrite Hb. by eauto.
    + rewrite Hid. by eapply unresolved_attempt; [apply Hwf|..].
Qed.

(** A stored attempt takes a step behind the write boundary, and the barrier
    it holds follows. *)
Lemma follow_step p' k c n replaying :
  notifications p !! k = Some c → attempt_step (V:=V) replaying c n →
  nr_recipient n = k.1 → nr_message_id n = k.2 →
  nr_updated_seq n = ll_seq line → last_seq p' = ll_seq line →
  active_notification_barriers p !! nr_attempt_id c = Some c → post_write (nr_state n) = true →
  notifications p' = <[k := n]> (notifications p) →
  active_notification_barriers p' = <[nr_attempt_id n := n]> (active_notification_barriers p) →
  notification_write_sequences p' = notification_write_sequences p →
  notification_attempts p' = notification_attempts p →
  same_decisions p p' → mailbox_index p' = mailbox_index p → notif_wf p' ∧ decisions_wf p'.
Proof.
  intros Hc Hstep Hr Hm Hu Hl Hbar Hpost Hn Hb Hw Ha Hd Hi.
  pose proof (nw_record _ (wf_notif _ Hwf) _ _ Hc) as Hro.
  destruct (attempt_step_identity _ _ _ Hstep) as [Hid _].
  pose proof (nw_barrier _ (wf_notif _ Hwf) _ _ Hbar) as Hbo. split.
  - eapply notif_wf_write; [apply Hwf|].
    eapply write_ok_follow; try done; [apply Hwf|by rewrite Hid|rewrite Hl; lia| |].
    + eapply record_ok_step; [done|done|congruence|congruence|congruence|rewrite Hl; lia
        |by rewrite Hi|by rewrite Ha].
    + erewrite (attempt_step_binding _ c n); [apply Hbo|done|apply Hbo|done].
  - eapply decisions_wf_write; [apply Hwf|done|by rewrite Ha|done| |].
    + intros a b. rewrite Hb. intros [[<- _]|[_ ?]]%lookup_insert_Some; by eauto.
    + rewrite Hid. eapply unresolved_barrier; [apply Hwf|by eauto].
Qed.

(** *** Messages *)
Lemma commit_message_wf id md update :
  message_ok p line id md update → committed (commit_message pl line id md update).
Proof.
  intros Hok.
  destruct (commit_message_ok p line id md update) as (p' & Hc & Hmc & Hm & Hcl & Hn & Hsa & Hsd);
    [apply Hwf|apply Hwf|done..|].
  exists p'. split; [done|]. split; [|apply (mc_last _ _ _ _ _ Hmc)].
  assert (mailbox_index p ⊆ mailbox_index p') as Hi.
  { by eapply committed_index_mono; [apply Hwf|..]. }
  assert (last_seq p ≤ last_seq p') as Hl by (rewrite (mc_last _ _ _ _ _ Hmc); lia).
  enough (notif_wf p' ∧ decisions_wf p') as [? ?] by by split.
  rewrite (mok_update _ _ _ _ _ Hok) in Hn. unfold superseded_update in Hn.
  destruct (md_supersedes md) as [target|] eqn:Hs; cbn in Hn.
  2: { split; [eapply notif_wf_frame|eapply decisions_wf_frame]; try done; apply Hwf. }
  destruct (mok_supersedes _ _ _ _ _ Hok target Hs)
    as (r & e & tl & tmd & Hr & _ & _ & _ & _ & _ & _ & Hpre).
  rewrite Hr in Hn. cbn in Hn.
  unfold supersession_notification_is_pre_write in Hpre.
  destruct (notifications p !! (r, target)) as [c|] eqn:Hcur; cbn in Hn.
  2: { split; [eapply notif_wf_frame|eapply decisions_wf_frame]; try done; apply Hwf. }
  apply (aside_step p' (r, target) c (settled_record c Superseded None None line) false); try done.
  - apply step_superseded. by destruct (nr_state c).
  - apply (mc_last _ _ _ _ _ Hmc).
  - eapply barrier_none_pre_write; [apply Hwf|done|by destruct (nr_state c)].
  - by destruct (nr_state c).
Qed.

(** *** Claims *)
Lemma commit_claim_wf id recipient update e :
  get_entry p recipient id = Some e → me_state e = Pending →
  update = claim_update p line recipient id →
  committed (commit_claim pl line id recipient recipient update).
Proof.
  intros He Hpend Hup. unfold commit_claim.
  set (pc := set_claim_sequences _ pl).
  destruct (set_entry_total pc recipient id (Claimed recipient (ll_ts line))) as [p1 Hp1];
    [by eexists|]. rewrite Hp1. cbn [mbind option_bind].
  destruct (set_entry_Some _ _ _ _ _ Hp1) as (s & e' & mb & _ & _ & Hp1' & _).
  assert (mailbox_wf p1) as Hm1.
  { eapply mailbox_wf_set_entry; [|exact Hp1].
    apply mailbox_wf_claims, pl_mailbox. }
  assert (claims_wf p1) as Hc1.
  { eapply (claims_wf_claim pl); [apply pl_mailbox|apply pl_claims|exact Hp1|exact He|done|done|].
    destruct (mailbox_wf_get_entry _ _ _ _ (wf_mailbox _ Hwf) He) as (_ & Hat & _).
    pose proof (mailbox_wf_entry_seq _ _ _ _ (wf_mailbox _ Hwf) Hat). lia. }
  assert (∀ p2, same_mailboxes p1 p2 → last_seq p2 = ll_seq line → notif_wf p2 ∧ decisions_wf p2 →
    committed (Some p2)) as Hdone.
  { intros p2 Hs Hl [Hn Hd]. exists p2. split; [done|]. split; [|done]. split; [..|done|done].
    - eapply mailbox_wf_same; [done| |by rewrite Hl|done]. by rewrite Hl, Hp1'.
    - eapply claims_wf_same; [done| |done]. by rewrite Hl, Hp1'. }
  assert (notif_wf p1 ∧ decisions_wf p1) as Hnone.
  { rewrite Hp1'. split; [eapply notif_wf_frame; [apply Hwf|done..|cbn; lia]
      |by eapply decisions_wf_frame; [apply Hwf|..]]. }
  subst update. unfold claim_update.
  destruct (notifications p !! (recipient, id)) as [c|] eqn:Hcur; cbn [mbind option_bind];
    [|by apply Hdone; [..|rewrite Hp1'|]].
  destruct (bool_decide _) eqn:Hst; [by apply Hdone; [..|rewrite Hp1'|]|]. bool_facts.
  cbn [up_key up_record].
  assert (attempt_step (V:=V) false c (claim_record c line)) as Hstep by by apply step_claimed.
  pose proof (nw_record _ (wf_notif _ Hwf) _ _ Hcur) as Hro.
  assert (active_notification_barriers p1 = active_notification_barriers p) as Hb by by rewrite Hp1'.
  rewrite Hb. change (nr_attempt_id (claim_record c line)) with (nr_attempt_id c).
  destruct (bool_decide (is_Some _)) eqn:Hbar; bool_facts.
  - destruct Hbar as [b Hbar].
    pose proof (barrier_is_current _ _ _ _ (wf_notif _ Hwf) Hcur Hbar) as ->.
    pose proof (bo_post_write _ _ _ (nw_barrier _ (wf_notif _ Hwf) _ _ Hbar)) as Hpost.
    apply Hdone; [by destruct p1|by rewrite Hp1'|].
    eapply (follow_step _ (recipient, id) c (claim_record c line)); try done; try by rewrite Hp1'.
    + apply (ro_recipient _ _ _ Hro).
    + apply (ro_message _ _ _ Hro).
    + cbn. by destruct (nr_state c), (nr_transport c).
  - apply eq_None_not_Some in Hbar. apply Hdone; [by destruct p1|by rewrite Hp1'|].
    eapply (aside_step _ (recipient, id) c (claim_record c line)); try done; try by rewrite Hp1'.
    by destruct (nr_state c), (nr_transport c).
Qed.

Lemma commit_delivered_direct_wf id recipient attempt_id e :
  get_entry p recipient id = Some e → me_state e = Pending →
  committed (set_entry pl recipient id (DeliveredDirect attempt_id (ll_ts line))).
Proof.
  intros He Hpend.
  destruct (set_entry_total pl recipient id (DeliveredDirect attempt_id (ll_ts line))) as [p1 Hp1];
    [by eexists|].
  destruct (set_entry_Some _ _ _ _ _ Hp1) as (s & e' & mb & _ & _ & Hp1' & _).
  exists p1. split; [done|]. split; [|by rewrite Hp1']. split.
  - eapply mailbox_wf_set_entry; [apply pl_mailbox|done].
  - eapply claims_wf_set_entry; [apply pl_claims|done|exact He|done|done].
  - rewrite Hp1'. eapply notif_wf_frame; [apply pl_notif|done..].
  - rewrite Hp1'. by eapply decisions_wf_frame; [apply pl_decisions|..].
Qed.

(** *** Attempt rows *)

(** A fresh queued attempt. *)
Lemma record_ok_queued p' k a :
  is_Some (mailbox_index p' !! k) → is_admin k.1 = false → a ∈ notification_attempts p' →
  last_seq p' = ll_seq line → record_ok p' k (queued_record a k.2 k.1 line).
Proof.
  intros Hi Ha Hat Hl. split; try done. cbn. rewrite Hl. lia.
Qed.

Lemma get_entry_indexed k : is_Some (get_entry p k.1 k.2) → is_Some (mailbox_index p !! k).
Proof. destruct k as [r id]. unfold get_entry. cbn. destruct (mailbox_index p !! _); naive_solver. Qed.

Lemma bound_write_queued a id r : bound_write (queued_record a id r line) = false.
Proof. done. Qed.
Lemma proven_unwritten_queued a id r : proven_unwritten (queued_record a id r line) = false.
Proof. done. Qed.

Lemma commit_notification_new_wf k n :
  is_admin k.1 = false → is_Some (get_entry p k.1 k.2) →
  nr_attempt_id n ∉ notification_attempts p → n = queued_record (nr_attempt_id n) k.2 k.1 line →
  (∀ c, notifications p !! k = Some c → replaceable (nr_state c) = true) →
  committed (Some (commit_notification pl line k n true)).
Proof.
  intros Hadm He Hf Hn Hrep. unfold commit_notification.
  assert (bound_write n = false) as -> by (rewrite Hn; apply bound_write_queued).
  assert (proven_unwritten n = false) as -> by (rewrite Hn; apply proven_unwritten_queued).
  cbn [orb]. rewrite (bool_decide_eq_false_2 (is_Some _)).
  2: { cbn. intros [b Hb]. destruct Hf. apply (nw_barrier _ (wf_notif _ Hwf) _ _ Hb). }
  apply committed_outside; try done.
  - eapply notif_wf_write; [apply Hwf|]. apply write_ok_fresh; try done; [apply Hwf|cbn; lia|].
    rewrite Hn. apply record_ok_queued; try done; [by apply get_entry_indexed|]. cbn. set_solver.
  - eapply decisions_wf_write; [apply Hwf|done| |done|by eauto|].
    + cbn. set_solver.
    + by apply unresolved_fresh; [apply Hwf|].
Qed.

Lemma bound_write_true n : bound_write n = true → nr_state n = Writing ∧ is_Some (nr_binding n).
Proof. unfold bound_write. intros H. by bool_facts. Qed.

Lemma commit_notification_step_wf k c n replaying :
  notifications p !! k = Some c → attempt_step (V:=V) replaying c n →
  nr_recipient n = k.1 → nr_message_id n = k.2 → nr_updated_seq n = ll_seq line →
  (nr_state c = Notified → active_notification_barriers p !! nr_attempt_id c = None) →
  nr_state c ≠ AttentionRequired → nr_state n ≠ WithdrawnAfterStaging →
  committed (Some (commit_notification pl line k n false)).
Proof.
  intros Hc Hstep Hr Hm Hu Hnot Hatt Hws.
  pose proof (nw_record _ (wf_notif _ Hwf) _ _ Hc) as Hro.
  destruct (attempt_step_identity _ _ _ Hstep) as [Hid _].
  pose proof (unresolved_attempt _ _ _ (wf_decisions _ Hwf) Hc Hatt) as Hres.
  assert (∀ p', mailbox_index p' = mailbox_index p → notification_attempts p' = notification_attempts p
    → last_seq p' = ll_seq line → record_ok p' k n) as Hrec.
  { intros p' Hi Ha Hl. eapply record_ok_step; [done|done|done|done|congruence|rewrite Hl; lia
      |by rewrite Hi|by rewrite Ha]. }
  unfold commit_notification. destruct (bound_write n) eqn:Hbw; cbn [orb].
  - destruct (bound_write_true _ Hbw) as [Hwr Hbind].
    assert (proven_unwritten n = false) as -> by by unfold proven_unwritten; rewrite Hwr.
    apply committed_outside; try done.
    + eapply notif_wf_write; [apply Hwf|].
      eapply write_ok_bound; try done; [apply Hwf|cbn; lia|by apply Hrec|by rewrite Hwr].
    + eapply decisions_wf_write; [apply Hwf|done..| |by rewrite Hid].
      cbn. intros a b [[<- _]|[_ Hab]]%lookup_insert_Some; [by left|right].
      apply map_lookup_filter_Some in Hab as [Hab _]. by eauto.
  - destruct (proven_unwritten n) eqn:Hpu.
    + apply committed_outside; try done.
      * eapply notif_wf_write; [apply Hwf|].
        eapply write_ok_drop; try done; [apply Hwf| | |cbn; lia|by apply Hrec]; cbn.
        -- intros a Hne. by rewrite lookup_delete_ne.
        -- intros q. by rewrite lookup_delete_eq.
      * eapply decisions_wf_write; [apply Hwf|done..| |by rewrite Hid].
        cbn. intros a b [_ Hab]%lookup_delete_Some. by eauto.
    + cbn [active_notification_barriers set_last_workspace_seq pl].
      destruct (bool_decide (is_Some _)) eqn:Hbar; bool_facts.
      * destruct Hbar as [b Hbar]. rewrite Hid in Hbar.
        pose proof (barrier_is_current _ _ _ _ (wf_notif _ Hwf) Hc Hbar) as ->.
        pose proof (bo_post_write _ _ _ (nw_barrier _ (wf_notif _ Hwf) _ _ Hbar)) as Hpost.
        destruct (follow_step
          (set_notifications (<[k := n]> (notifications p))
             (set_active_notification_barriers
                (<[nr_attempt_id n := n]> (active_notification_barriers p)) pl)) k c n replaying)
          as [? ?]; try done; [|by apply committed_outside].
        destruct (post_write (nr_state n)) eqn:Hpn; [done|].
        destruct (write_boundary_cases _ _ _ Hstep Hpost Hpn) as [(_ & Hb & Hcause & _)|[(Hs & _)|(_ & Hs & _)]];
          [|by rewrite (Hnot Hs) in Hbar|done].
        unfold proven_unwritten in Hpu. by rewrite Hb, Hcause in Hpu.
      * apply eq_None_not_Some in Hbar. rewrite Hid in Hbar.
        pose proof (ro_recipient _ _ _ Hro). pose proof (ro_message _ _ _ Hro).
        destruct (aside_step (set_notifications (<[k := n]> (notifications p)) pl) k c n replaying)
          as [? ?]; try done; [congruence|congruence|by apply committed_outside].
Qed.

(** A requeue replaces an attempt that is through with its terminal. *)
Lemma requeue_replaces q l k n c :
  requeue_ok (V:=V) q l k n → notifications q !! k = Some c → replaceable (nr_state c) = true.
Proof.
  intros [_ _ (c' & Hc' & Hst & _) _ _] Hc. assert (c' = c) as -> by congruence. by destruct Hst as [->| ->].
Qed.

(** A batch of fresh queued attempts for messages already indexed. *)
Definition requeueable_record (q : MailboxProjection V)
    (kr : (RecipientKey * MessageId) * NotificationRecord) : Prop :=
  is_Some (mailbox_index q !! kr.1) ∧ is_admin kr.1.1 = false ∧
  (nr_attempt_id kr.2 ∉ notification_attempts q) ∧
  kr.2 = queued_record (nr_attempt_id kr.2) kr.1.2 kr.1.1 line ∧
  (∀ c, notifications q !! kr.1 = Some c → replaceable (nr_state c) = true).

Lemma commit_requeues_wf records q :
  Forall (requeueable_record q) records → NoDup records.*1 →
  NoDup ((λ kr, nr_attempt_id kr.2) <$> records) →
  notif_wf q → decisions_wf q → last_seq q = ll_seq line → same_mailboxes pl q →
  committed (Some (foldl commit_requeue q records)).
Proof.
  revert q. induction records as [|[k n] records IH]; intros q Hall Hkeys Hnd Hn Hd Hl Hs.
  - by apply committed_outside.
  - apply Forall_cons in Hall as [(Hi & Hadm & Hf & Hq & Hrep) Hall]. cbn in Hi, Hadm, Hf, Hq, Hrep.
    cbn in Hkeys. apply NoDup_cons in Hkeys as [Hkey Hkeys]. cbn in Hnd. apply NoDup_cons in Hnd as [Hnotin Hnd].
    cbn [foldl]. set (q' := commit_requeue q (k, n)).
    assert (last_seq q' = ll_seq line) as Hl' by done.
    assert (record_ok q' k n) as Hrec.
    { rewrite Hq. apply record_ok_queued; try done. cbn. set_solver. }
    apply IH; try done.
    + rewrite Forall_forall in Hall |- *. intros kr Hin.
      destruct (Hall _ Hin) as (? & ? & Hf' & ? & Hrep'). split_and!; try done; cycle 1.
      { cbn. intros c. rewrite lookup_insert_ne; [by apply Hrep'|]. intros ->.
        destruct Hkey. apply list_elem_of_fmap. by eauto. }
      cbn. apply not_elem_of_union. split; [|done]. apply not_elem_of_singleton. intros Heq.
      destruct Hnotin. rewrite <-Heq. apply list_elem_of_fmap. by eauto.
    + eapply notif_wf_write; [exact Hn|]. by apply write_ok_fresh.
    + eapply decisions_wf_write; [exact Hd|done| |done|by eauto|by apply unresolved_fresh].
      cbn. set_solver.
Qed.

(** A settled record whose barrier goes with it. *)
Lemma drop_step_wf (p' : MailboxProjection V) k c n replaying :
  notifications p !! k = Some c → attempt_step (V:=V) replaying c n →
  nr_recipient n = nr_recipient c → nr_message_id n = nr_message_id c →
  nr_updated_seq n = ll_seq line → last_seq p' = ll_seq line →
  is_Some (active_notification_barriers p !! nr_attempt_id c) →
  notifications p' = <[k := n]> (notifications p) →
  active_notification_barriers p' = delete (nr_attempt_id c) (active_notification_barriers p) →
  notification_write_sequences p' = notification_write_sequences p →
  notification_attempts p' = notification_attempts p →
  mailbox_index p' = mailbox_index p → notif_wf p'.
Proof.
  intros Hc Hstep Hr Hm Hu Hl Hbar Hn Hb Hw Ha Hi.
  pose proof (nw_record _ (wf_notif _ Hwf) _ _ Hc) as Hro.
  destruct (attempt_step_identity _ _ _ Hstep) as [Hid _].
  pose proof (ro_recipient _ _ _ Hro). pose proof (ro_message _ _ _ Hro).
  eapply notif_wf_write; [apply Hwf|].
  eapply write_ok_drop; try done; [apply Hwf|by rewrite Hid|by rewrite Hw|by rewrite Hw
    |rewrite Hl; lia|].
  eapply record_ok_step; [done|done|congruence|congruence|congruence|rewrite Hl; lia
    |by rewrite Hi|by rewrite Ha].
Qed.

(** Retiring a barrier outright. *)
Lemma notif_wf_retire a (q : MailboxProjection V) :
  notif_wf q → notif_wf (retire_barrier a q).
Proof.
  intros Hq. split; try apply Hq.
  - intros k n Hk. eapply record_ok_mono; [by apply (nw_record _ Hq)|done..].
  - cbn. intros a' b [_ Hb]%lookup_delete_Some. destruct (nw_barrier _ Hq _ _ Hb). by split.
  - cbn. intros a1 a2 b1 b2 [_ H1]%lookup_delete_Some [_ H2]%lookup_delete_Some.
    by apply (nw_one_barrier _ Hq).
Qed.

Lemma decisions_wf_retire a (q : MailboxProjection V) :
  decisions_wf q → decisions_wf (retire_barrier a q).
Proof.
  intros [Hi Hf Hr Ha Hc Hcl Hres]. split; try done.
  intros a' x Hx. destruct (Hres _ _ Hx) as (Hk & Hb & Hfo & Hst). split_and!; try done.
  cbn. rewrite lookup_delete_None. by right.
Qed.

(** *** Decisions *)

(** Replaces the decision fields only. *)
Lemma committed_decisions p' :
  same_mailboxes pl p' → same_attempts pl p' → notifications p' = notifications p →
  last_seq p' = ll_seq line → decisions_wf p' → committed (Some p').
Proof.
  intros Hm Ha Hn Hl Hd. apply committed_outside; try done.
  eapply notif_wf_frame; [apply pl_notif|done..| |by rewrite Hl].
  destruct Hm as (_ & _ & _ & _ & -> & _). done.
Qed.

Lemma attention_known a : attention_ok p a → a ∈ notification_attempts p.
Proof.
  intros [(k & c & Hc & <- & _) _]. apply (nw_record _ (wf_notif _ Hwf) _ _ Hc).
Qed.

Lemma commit_intent_wf a x (forced : bool) :
  attention_ok p a → resolution_intents p !! a = None → (forced = true → x = Complete) →
  committed (commit_line p line (PMResolutionIntent a x forced)).
Proof.
  intros Hatt Hnone Hforced. destruct (wf_decisions _ Hwf) as [Hi Hf Hr Hac Hc Hcl Hres].
  assert (∀ y a', (resolution_intents p !! a' = Some y →
    <[a := x]> (resolution_intents p) !! a' = Some y)) as Hkeep.
  { intros y a' Hy. rewrite lookup_insert_ne; [done|congruence]. }
  cbn [commit_line]. fold pl. destruct forced; apply committed_decisions; try done; split; try done; cbn.
  all: try (intros a' y [[<- _]|[_ Hy]]%lookup_insert_Some; [by apply attention_known|by eapply Hi]).
  all: try (intros a' y Hy; destruct (Hr _ _ Hy); by auto).
  all: try (intros a' y Hy; by apply Hkeep, Hac).
  - intros a' [->%elem_of_singleton|Hin]%elem_of_union; [|by apply Hkeep, Hf].
    rewrite lookup_insert_eq. by rewrite Hforced.
  - intros a' y Hy. destruct (Hres _ _ Hy) as (? & ? & ? & ?). split_and!; try done.
    apply not_elem_of_union. split; [|done]. apply not_elem_of_singleton. intros ->.
    by rewrite (tok_unresolved _ _ Hatt) in Hy.
  - intros a' Hin. by apply Hkeep, Hf.
Qed.

Lemma commit_reserved_wf a :
  resolution_intents p !! a = Some Complete →
  committed (commit_line p line (PMResolutionActionReserved a Complete)).
Proof.
  intros Hint. destruct (wf_decisions _ Hwf) as [Hi Hf Hr Hac Hc Hcl Hres].
  apply committed_decisions; try done. split; try done. cbn.
  intros a' y [[<- <-]|[_ Hy]]%lookup_insert_Some; [done|by apply Hr].
Qed.

Lemma commit_accepted_wf a x :
  resolution_intents p !! a = Some x →
  (∀ y, resolution_actions_accepted p !! a = Some y → y = x) →
  committed (commit_line p line (PMResolutionActionAccepted a x)).
Proof.
  intros Hint Hsame. destruct (wf_decisions _ Hwf) as [Hi Hf Hr Hac Hc Hcl Hres].
  apply committed_decisions; try done. split; try done; cbn.
  - intros a' y [[<- <-]|[_ Hy]]%lookup_insert_Some; [done|by apply Hac].
  - intros a' o Ho. destruct (Hc _ _ Ho) as [Ha Hpos]. split; [|done].
    destruct (decide (a = a')) as [<-|]; [|by rewrite lookup_insert_ne].
    rewrite lookup_insert_eq. by rewrite (Hsame _ Ha).
Qed.

Lemma commit_consumed_wf a o :
  resolution_actions_accepted p !! a = Some Complete → 0 < co_observed_at_ms o →
  committed (commit_line p line (PMResolutionConsumptionObserved a o)).
Proof.
  intros Hacc Hpos. destruct (wf_decisions _ Hwf) as [Hi Hf Hr Hac Hc Hcl Hres].
  apply committed_decisions; try done. split; try done; cbn.
  intros a' y [[<- <-]|[_ Hy]]%lookup_insert_Some; [done|by apply Hc].
Qed.

Lemma commit_intent_withdrawn_wf a :
  resolution_action_reservations p !! a = None → resolution_actions_accepted p !! a = None →
  committed (commit_line p line (PMResolutionIntentWithdrawn a)).
Proof.
  intros Hnr Hna. destruct (wf_decisions _ Hwf) as [Hi Hf Hr Hac Hc Hcl Hres].
  apply committed_decisions; try done. split; try done; cbn.
  - intros a' y [_ Hy]%lookup_delete_Some. by eapply Hi.
  - intros a' [Hin Hne]%elem_of_difference. rewrite lookup_delete_ne; [by apply Hf|set_solver].
  - intros a' y Hy. destruct (Hr _ _ Hy). split; [done|]. rewrite lookup_delete_ne; [done|congruence].
  - intros a' y Hy. rewrite lookup_delete_ne; [by apply Hac|congruence].
  - intros a' y Hy. destruct (Hres _ _ Hy) as (? & ? & ? & ?). split_and!; try done. set_solver.
Qed.

Lemma commit_cleared_wf (cleared : gset NotificationAttemptId) p' :
  cleared ⊆ notification_attempts p → same_mailboxes pl p' → same_attempts pl p' →
  notifications p' = notifications p → last_seq p' = ll_seq line →
  p' = set_cleared_attempts (cleared ∪ cleared_attempts p) p' →
  same_decisions p (set_cleared_attempts (cleared_attempts p) p') → committed (Some p').
Proof.
  intros Hsub Hm Ha Hn Hl Hc Hd. apply committed_decisions; try done.
  destruct (wf_decisions _ Hwf) as [Hi Hf Hr Hac Hco Hcl Hres].
  destruct Hd as (_ & Er & Ei & Ef & Ers & Eac & Eco). cbn in *.
  destruct Ha as (Eb & Ea & _).
  split; rewrite ?Er, ?Ei, ?Ef, ?Ers, ?Eac, ?Eco, ?Ea, ?Eb, ?Hn; try done.
  rewrite Hc. cbn. set_solver.
Qed.

Lemma commit_resolved_wf a x :
  attention_ok p a → committed (Some (commit_resolved pl a x)).
Proof.
  intros Hatt. pose proof (attention_known _ Hatt) as Hknown.
  destruct Hatt as [(k & c & Hc & Hid & Hst & _) Hnone].
  destruct (wf_decisions _ Hwf) as [Hi Hf Hr Hac Hco Hcl Hres].
  apply committed_outside; try done.
  - unfold commit_resolved. apply notif_wf_retire.
    eapply notif_wf_frame; [apply pl_notif|done..].
  - split; try done; cbn.
    + set_solver.
    + intros a' y [[<- <-]|[Hne Hy]]%lookup_insert_Some.
      * split_and!; [done|by rewrite lookup_delete_eq|set_solver|]. intros k' n' Hk' Hid'.
        assert (k = k') as <- by (eapply (nw_unique _ (wf_notif _ Hwf)); [done..|congruence]).
        congruence.
      * destruct (Hres _ _ Hy) as (? & ? & ? & ?). split_and!; try done; [|set_solver].
        rewrite lookup_delete_None. by right.
Qed.

(** *** Settled doorbells *)
Lemma commit_withdrawn_wf k c n replaying :
  notifications p !! k = Some c →
  can_withdraw_before_write (nr_state c) = true ∨
    (replaying = true ∧ withdrawn_by_claim_before_write c = true) →
  n = MkRecord (nr_attempt_id c) k.2 k.1 WithdrawnByOperator None (nr_transport c)
        (nr_doorbell_format c) None None None None None None (nr_pre_write_reopen_count c)
        (nr_unclaimed_reminder_count c) (nr_started_seq c) (ll_seq line) (ll_ts line) →
  committed (Some (set_notifications (<[k := n]> (notifications pl)) pl)).
Proof.
  intros Hc Hcan Hn. pose proof (nw_record _ (wf_notif _ Hwf) _ _ Hc) as Hro.
  assert (n = settled_record c WithdrawnByOperator None None line) as Hn'.
  { rewrite Hn. unfold settled_record. by rewrite (ro_recipient _ _ _ Hro), (ro_message _ _ _ Hro). }
  assert (post_write (nr_state c) = false ∧ nr_state c ≠ AttentionRequired) as [Hpre Hatt].
  { unfold withdrawn_by_claim_before_write in Hcan.
    destruct Hcan as [?|[_ ?]]; bool_facts; by destruct (nr_state c). }
  destruct (aside_step (set_notifications (<[k := n]> (notifications pl)) pl) k c n replaying)
    as [? ?]; try (rewrite Hn'; done); try done.
  - rewrite Hn'. by apply step_withdrawn.
  - eapply barrier_none_pre_write; [apply Hwf|done..].
  - by apply committed_outside.
Qed.

Lemma commit_staged_cleared_wf k c :
  notifications p !! k = Some c → nr_state c = Staged → nr_transport c = Doorbell →
  is_Some (active_notification_barriers p !! nr_attempt_id c) →
  committed (commit_line p line
    (PMClaimedStagedCleared k (set_record_settled c WithdrawnAfterStaging line) (nr_attempt_id c))).
Proof.
  intros Hc Hst Htr Hbar. set (n := set_record_settled c WithdrawnAfterStaging line).
  apply committed_outside; try done.
  - eapply (drop_step_wf _ k c n false); try done. by apply step_staged_cleared.
  - apply (decisions_wf_retire _ (set_notifications (<[k := n]> (notifications pl)) pl)).
    eapply (decisions_wf_write p _ k n); [apply Hwf|done..|by eauto|].
    apply (unresolved_attempt p k c); [apply Hwf|exact Hc|congruence].
Qed.

Lemma commit_ack_reconciled_wf k c :
  notifications p !! k = Some c → needs_claimed_ack_timeout_reconciliation c = true →
  active_notification_barriers p !! nr_attempt_id c = Some c →
  committed (commit_line p line
    (PMClaimedAckTimeoutReconciled k (set_record_settled c Notified line) (nr_attempt_id c))).
Proof.
  intros Hc Hneeds Hbar. set (n := set_record_settled c Notified line).
  apply committed_outside; try done.
  - eapply (drop_step_wf _ k c n false); try done. by apply step_ack_reconciled.
  - eapply (decisions_wf_write p _ k n); [apply Hwf|done..| |].
    + cbn. intros a b [_ Hab]%lookup_delete_Some. by eauto.
    + apply (unresolved_barrier p (nr_attempt_id c)); [apply Hwf|by eauto].
Qed.

(** A validated mutation commits and preserves the invariant. *)
Lemma commit_ok replaying m : prepared_ok p line replaying m → committed (commit_line p line m).
Proof.
  destruct m; cbn [prepared_ok]; intros Hok.
  - by apply commit_message_wf.
  - destruct Hok as (-> & _ & (e & He & Hp) & ->). by eapply commit_claim_wf.
  - destruct Hok as (_ & (e & He & Hp) & _). by eapply commit_delivered_direct_wf.
  - destruct Hok as (Hadm & He & Hrest). destruct new_attempt.
    + destruct Hrest as [(Hnone & _ & Hf & Hr)|Hrq].
      * apply commit_notification_new_wf; try done. congruence.
      * apply commit_notification_new_wf; try apply Hrq; [done..|]. intros c Hc. by eapply requeue_replaces.
    + destruct Hrest as (c & Hc & Hstep & Hu & Hr & Hm & Hnot & Hatt & Hws).
      pose proof (nw_record _ (wf_notif _ Hwf) _ _ Hc) as [Hr' Hm' _ _ _ _ _].
      eapply commit_notification_step_wf; by eauto.
  - destruct Hok as (Hall & Hkeys & Hnd). eapply commit_requeues_wf; try done.
    + eapply Forall_impl; [exact Hall|]. intros kr Hrq. pose proof (λ c, requeue_replaces _ _ _ _ c Hrq) as Hrep.
      destruct Hrq as [(e & He & _) Hadm _ Hf Hr].
      split_and!; try done. apply get_entry_indexed. by eauto.
    + apply pl_notif.
    + apply pl_decisions.
  - destruct Hok as (k & c & Hc & <- & _).
    apply (commit_cleared_wf {[nr_attempt_id c]}); try done.
    intros a ->%elem_of_singleton. apply (nw_record _ (wf_notif _ Hwf) _ _ Hc).
  - destruct Hok as (_ & _ & _ & Hall). apply (commit_cleared_wf (list_to_set attempt_ids)); try done.
    intros a Ha%elem_of_list_to_set. rewrite Forall_forall in Hall.
    destruct (Hall _ Ha) as (_ & k & c & Hc & <- & _). apply (nw_record _ (wf_notif _ Hwf) _ _ Hc).
  - destruct Hok as (c & Hc & Hcan & Hr). by eapply commit_withdrawn_wf.
  - destruct Hok as (? & ? & ?). by apply commit_intent_wf.
  - destruct Hok as (-> & ? & _). by apply commit_reserved_wf.
  - destruct Hok as (_ & ? & ?). by apply commit_accepted_wf.
  - destruct Hok as (_ & ? & _ & ? & _). by apply commit_consumed_wf.
  - destruct Hok as (_ & _ & ? & ? & _). by apply commit_intent_withdrawn_wf.
  - destruct Hok as (? & _). by apply commit_resolved_wf.
  - destruct Hok as (? & _). by apply commit_resolved_wf.
  - destruct Hok as (_ & Hbar & c & Hc & <- & Hst & Htr & ->). by apply commit_staged_cleared_wf.
  - destruct Hok as (c & Hc & <- & Hbar & Hneeds & _ & ->). by apply commit_ack_reconciled_wf.
  - apply committed_outside; try done.
    + apply (notif_wf_retire attempt_id pl), pl_notif.
    + apply (decisions_wf_retire attempt_id pl), pl_decisions.
Qed.
End commit.

(** ** Applying rows *)

Lemma apply_inner_wf p line replaying :
  wf p →
  match apply_inner p line replaying with
  | AppliedOk p' => wf p' ∧ last_seq p' = last_seq p + 1 ∧ ll_seq line = last_seq p + 1
  | AppliedErr e => prepare_line_inner p line replaying = Err e
  | AppliedPanic => False
  end.
Proof.
  intros Hwf. unfold apply_inner.
  destruct (prepare_line_inner p line replaying) as [m|e] eqn:Hp; [|done].
  apply prepare_line_ok in Hp as (Hs & Hmax & Hok).
  destruct (commit_ok p line Hwf Hs Hmax replaying m Hok) as (p' & -> & Hwf' & Hl).
  split_and!; [done|by rewrite Hl|done].
Qed.
End invariant.
