(* ===== verification/Replay.v ===== *)
(** * Journals

    What a sequence of rows makes of a projection: [replay] is the loop of
    [MessageStore::open], [run_live] the rows a running daemon appends.  The
    lemmas lift the invariant to journals, show that each row moves an attempt
    by [attempt_step] only ([prepared_change]), and that replaying a live journal
    rebuilds the live state ([run_live_replay]). *)
From S2P Require Import Prelude Text Identity Ledger Mailbox Notification Facts.
From S2P Require Import Projection Attempt Prepared MailboxInv NotificationInv Invariant.
Local Open Scope N_scope.

Section replay.
Context {V : Type} {serde : Serde V} {uuids : Uuids} {digests : Digests}.
Implicit Types (p : MailboxProjection V) (line : LedgerLine V) (lines : list (LedgerLine V)).

Fixpoint apply_all (replaying : bool) p lines : Applied :=
  match lines with
  | [] => AppliedOk p
  | line :: rest =>
      match apply_inner p line replaying with
      | AppliedOk p' => apply_all replaying p' rest
      | failed => failed
      end
  end.
(** The rebuild loop of [MessageStore::open]. *)
Definition replay : MailboxProjection V → list (LedgerLine V) → Applied := apply_all true.
Definition run_live : MailboxProjection V → list (LedgerLine V) → Applied := apply_all false.

(** Every state a journal leads to. *)
Definition reachable p : Prop := ∃ ws lines, replay (projection_new ws) lines = AppliedOk p.

Lemma apply_all_wf replaying p lines :
  wf p →
  match apply_all replaying p lines with
  | AppliedOk p' => wf p' ∧ last_seq p' = last_seq p + N.of_nat (length lines)
  | AppliedErr _ => True
  | AppliedPanic => False
  end.
Proof.
  revert p. induction lines as [|line lines IH]; intros p Hwf; cbn [apply_all].
  - split; [done|]. cbn. lia.
  - pose proof (apply_inner_wf p line replaying Hwf) as Hone.
    destruct (apply_inner p line replaying) as [p1|e|]; [|done|done].
    destruct Hone as (Hwf1 & Hl & _). specialize (IH p1 Hwf1).
    destruct (apply_all replaying p1 lines); [|done|done].
    destruct IH as [? Hl']. split; [done|]. rewrite Hl', Hl. cbn [length]. lia.
Qed.

(** Accepted rows are numbered without a gap. *)
Lemma apply_all_numbered replaying p lines p' :
  wf p → apply_all replaying p lines = AppliedOk p' →
  ∀ i line, lines !! i = Some line → ll_seq line = last_seq p + 1 + N.of_nat i.
Proof.
  revert p. induction lines as [|x lines IH]; intros p Hwf H i line Hi; [done|]. cbn [apply_all] in H.
  pose proof (apply_inner_wf p x replaying Hwf) as Hone.
  destruct (apply_inner p x replaying) as [p1|e|]; [|done|done].
  destruct Hone as (Hwf1 & Hl & Hx). destruct i as [|i].
  - injection Hi as <-. rewrite Hx. cbn. lia.
  - rewrite (IH p1 Hwf1 H i line Hi), Hl. lia.
Qed.

Lemma reachable_wf p : reachable p → wf p.
Proof.
  intros (ws & lines & H). pose proof (apply_all_wf true _ lines (wf_new ws)) as Hall.
  unfold replay in H. rewrite H in Hall. apply Hall.
Qed.

(** ** What a commit changes *)
Definition notifications_after (m : PreparedMutation)
    (records : gmap (RecipientKey * MessageId) NotificationRecord) :=
  match m with
  | PMMessage _ _ u | PMClaim _ _ _ u => apply_update u records
  | PMNotification k r _ | PMNotificationWithdrawnBeforeWrite k r
  | PMClaimedStagedCleared k r _ | PMClaimedAckTimeoutReconciled k r _ => <[k := r]> records
  | PMNotificationRequeues rs => foldl (λ n kr, <[kr.1 := kr.2]> n) records rs
  | _ => records
  end.

Lemma foldl_commit_requeue rs p :
  notifications (foldl commit_requeue p rs) =
    foldl (λ n kr, <[kr.1 := kr.2]> n) (notifications p) rs ∧
  messages (foldl commit_requeue p rs) = messages p ∧
  mailboxes (foldl commit_requeue p rs) = mailboxes p ∧
  mailbox_index (foldl commit_requeue p rs) = mailbox_index p ∧
  resolved_attempts (foldl commit_requeue p rs) = resolved_attempts p.
Proof.
  revert p. induction rs as [|kr rs IH]; intros p; [done|]. cbn [foldl].
  destruct (IH (commit_requeue p kr)) as (-> & -> & -> & -> & ->). done.
Qed.

Lemma set_entry_frame p r id st p' :
  set_entry p r id st = Some p' → ∃ mb, p' = set_mailboxes mb p.
Proof. intros H. destruct (set_entry_Some _ _ _ _ _ H) as (s & e & mb & _ & _ & -> & _). by eauto. Qed.

Lemma commit_notification_frame p line k r b :
  notifications (commit_notification p line k r b) = <[k := r]> (notifications p) ∧
  messages (commit_notification p line k r b) = messages p ∧
  mailboxes (commit_notification p line k r b) = mailboxes p ∧
  mailbox_index (commit_notification p line k r b) = mailbox_index p.
Proof.
  unfold commit_notification.
  destruct b, (bound_write r), (proven_unwritten r); cbn [orb]; try done;
    by destruct (bool_decide _).
Qed.

Lemma commit_line_notifications p line m p' :
  commit_line p line m = Some p' → notifications p' = notifications_after m (notifications p).
Proof.
  set (pl := set_last_workspace_seq (Some (ll_seq line)) p).
  destruct m; cbn [commit_line notifications_after]; intros H; try (injection H as <-; done).
  - unfold commit_message in H.
    assert (∀ p1 p2, (let q := match md_client_key metadata with
        | Some key => set_idempotency_index
            (<[(md_sender metadata, key) := (message_id, md_request_digest metadata)]>
               (idempotency_index p1)) p1
        | None => p1 end in
      let q := foldl (insert_entry line message_id) q (md_recipients metadata) in
      let q := match superseded_notification with
        | Some u => set_notifications (<[up_key u := up_record u]> (notifications q)) q
        | None => q end in
      Some (set_messages (<[message_id := line]> (messages q)) q)) = Some p2 →
      notifications p2 = apply_update superseded_notification (notifications p1)) as Htail.
    { cbn zeta. intros p1 p2 [= <-]. cbn [notifications set_messages].
      set (q := match md_client_key metadata with Some _ => _ | None => _ end).
      assert (notifications q = notifications p1) as <- by by unfold q; destruct (md_client_key metadata).
      destruct (foldl_insert_entry line message_id (md_recipients metadata) q) as (mb & ix & -> & _).
      by destruct superseded_notification. }
    destruct (md_supersedes metadata) as [target|]; [|by apply Htail in H].
    destruct (md_recipients metadata !! 0%nat) as [r|] eqn:Hr; [|done]. cbn [mbind option_bind] in H.
    destruct (set_entry _ _ _ _) as [p1|] eqn:Hs; [|done]. cbn [mbind option_bind] in H.
    apply Htail in H. rewrite H. apply set_entry_frame in Hs as [mb ->]. done.
  - unfold commit_claim in H. destruct (set_entry _ _ _ _) as [p1|] eqn:Hs; [|done].
    cbn [mbind option_bind] in H. injection H as <-. apply set_entry_frame in Hs as [mb ->].
    destruct notification_update; [|done]. by destruct (bool_decide _).
  - apply set_entry_frame in H as [mb ->]. done.
  - injection H as <-. apply (commit_notification_frame pl).
  - injection H as <-. apply (foldl_commit_requeue records pl).
  - injection H as <-. by destruct forced.
Qed.

(** How one record may change. *)
Inductive record_change (replaying : bool) p (k : RecipientKey * MessageId)
    : NotificationRecord → Prop :=
| change_kept n : notifications p !! k = Some n → record_change replaying p k n
| change_step c n :
    notifications p !! k = Some c → attempt_step (V:=V) replaying c n → record_change replaying p k n
| change_started n :
    notifications p !! k = None → nr_state n = Queued → nr_attempt_id n ∉ notification_attempts p →
    execution_epoch n = 0 → entry_is_pending p k.1 k.2 = true → record_change replaying p k n
| change_requeued c n :
    notifications p !! k = Some c → nr_state c = AttentionRequired ∨ nr_state c = QuotaResetObserved →
    resolution_intents p !! nr_attempt_id c = None → nr_state n = Queued →
    nr_attempt_id n ∉ notification_attempts p → execution_epoch n = 0 →
    entry_is_pending p k.1 k.2 = true → record_change replaying p k n.

Lemma pending_entry_is_pending p r id e :
  get_entry p r id = Some e → me_state e = Pending → entry_is_pending p r id = true.
Proof. unfold entry_is_pending. by intros -> ->. Qed.

Lemma requeue_ok_change replaying p line k n :
  requeue_ok p line k n → record_change replaying p k n.
Proof.
  intros [(e & He & Hp) Hadm (c & Hc & Hst & Hi) Hf Hn].
  eapply change_requeued; try done; [by rewrite Hn|by rewrite Hn|by eapply pending_entry_is_pending].
Qed.

Lemma update_change replaying p k0 u k n :
  (∀ x, u = Some x → up_key x = k0 ∧
     ∃ c, notifications p !! k0 = Some c ∧ attempt_step (V:=V) replaying c (up_record x)) →
  apply_update u (notifications p) !! k = Some n → record_change replaying p k n.
Proof.
  intros Hu. destruct u as [x|]; cbn; [|by apply change_kept].
  destruct (Hu x eq_refl) as (-> & c & Hc & Hstep).
  intros [[<- <-]|[_ Hn]]%lookup_insert_Some; [by eapply change_step|by apply change_kept].
Qed.

Lemma requeues_change replaying p line rs k n :
  Forall (λ kr, requeue_ok p line kr.1 kr.2) rs →
  foldl (λ n kr, <[kr.1 := kr.2]> n) (notifications p) rs !! k = Some n →
  record_change replaying p k n.
Proof.
  intros Hall. assert (∀ records : gmap (RecipientKey * MessageId) NotificationRecord,
    (∀ k n, records !! k = Some n → record_change replaying p k n) →
    foldl (λ n kr, <[kr.1 := kr.2]> n) records rs !! k = Some n → record_change replaying p k n)
    as Hgen.
  { induction rs as [|kr rs IH]; intros records Hrec; [apply Hrec|]. cbn [foldl].
    apply Forall_cons in Hall as [Hkr Hall]. apply IH; [done|].
    intros k' n' [[<- <-]|[_ Hn]]%lookup_insert_Some; [by eapply requeue_ok_change|by apply Hrec]. }
  apply Hgen. intros. by apply change_kept.
Qed.

Lemma prepared_change replaying p line m k n :
  wf p → prepared_ok p line replaying m →
  notifications_after m (notifications p) !! k = Some n → record_change replaying p k n.
Proof.
  intros Hwf. destruct m; cbn [prepared_ok notifications_after]; intros Hok; try by apply change_kept.
  - rewrite (mok_update _ _ _ _ _ Hok). unfold superseded_update.
    destruct (md_supersedes metadata) as [target|] eqn:Hs; [|by apply change_kept].
    destruct (mok_supersedes _ _ _ _ _ Hok _ Hs) as (r & e & tl & tmd & -> & _ & _ & _ & _ & _ & _ & Hpre).
    apply (update_change _ _ (r, target)). intros x Hx. cbn in Hx. unfold supersession_notification_is_pre_write in Hpre.
    destruct (notifications p !! (r, target)) as [c|] eqn:Hc; [|done]. injection Hx as <-.
    split; [done|]. exists c. split; [done|]. apply step_superseded. by destruct (nr_state c).
  - destruct Hok as (-> & _ & _ & ->). apply (update_change _ _ (recipient, message_id)). unfold claim_update. intros x Hx.
    destruct (notifications p !! _) as [c|] eqn:Hc; [|done]. cbn in Hx.
    destruct (bool_decide _) eqn:Hb; [done|]. bool_facts. injection Hx as <-.
    split; [done|]. exists c. split; [done|]. by apply step_claimed.
  - destruct Hok as (_ & _ & Hrest).
    intros [[<- <-]|[_ Hn]]%lookup_insert_Some; [|by apply change_kept]. destruct new_attempt.
    + destruct Hrest as [(Hnone & (e & He & Hp) & Hf & Hr)|Hrq]; [|by eapply requeue_ok_change].
      apply change_started; try done; [by rewrite Hr|by rewrite Hr|by eapply pending_entry_is_pending].
    + destruct Hrest as (c & Hc & Hstep & _). by eapply change_step.
  - destruct Hok as (Hall & _). by eapply requeues_change.
  - destruct Hok as (c & Hc & Hcan & ->).
    intros [[<- <-]|[_ Hn]]%lookup_insert_Some; [|by apply change_kept].
    eapply change_step; [done|].
    destruct (nw_record _ (wf_notif _ Hwf) _ _ Hc) as [Hr Hm _ _ _ _ _]. rewrite <-Hr, <-Hm.
    by apply (step_withdrawn (V:=V) replaying c line).
  - destruct Hok as (_ & _ & c & Hc & _ & Hst & Htr & ->).
    intros [[<- <-]|[_ Hn]]%lookup_insert_Some; [|by apply change_kept].
    eapply change_step; [done|]. by apply step_staged_cleared.
  - destruct Hok as (c & Hc & _ & _ & Hneeds & _ & ->).
    intros [[<- <-]|[_ Hn]]%lookup_insert_Some; [|by apply change_kept].
    eapply change_step; [done|]. by apply step_ack_reconciled.
Qed.

(** ** Replaying what was live

    Replay only widens what validation accepts, and prepares the same
    mutation. *)
Lemma transition_allowed_replay r next cause :
  notification_transition_allowed r next cause false = true →
  notification_transition_allowed r next cause true = true.
Proof.
  unfold notification_transition_allowed. cbn [andb]. rewrite !orb_false_r. by intros ->.
Qed.

Lemma transition_from_current_replay t c :
  transition_from_current t c false = Ok () → transition_from_current t c true = Ok ().
Proof.
  unfold transition_from_current. destruct c as [c|]; [|done]. cbn zeta. intros H.
  destruct (bool_decide _); [done|]. destruct (_ && _); [done|].
  destruct (bool_decide (tf_pre_write_cause t = _) && _); [done|].
  destruct (notification_transition_allowed _ _ _ false) eqn:Ha; [|done].
  by rewrite (transition_allowed_replay _ _ _ Ha).
Qed.

Lemma transition_attention_replay t c :
  transition_attention t c false = Ok () → transition_attention t c true = Ok ().
Proof.
  unfold transition_attention. destruct (bool_decide _); [|done].
  destruct (tf_cause t) as [cause|]; [|done]. intros H.
  destruct (ok_or c _); [|done]. destruct (negb (cause_valid_after _ _)); [done|].
  by destruct cause, (tf_verify_outcome t).
Qed.

Lemma prepare_transition_replay p line m :
  prepare_notification_transition p line false = Ok m →
  prepare_notification_transition p line true = Ok m.
Proof.
  unfold prepare_notification_transition. intros H.
  destruct (notification_fact line) as [[]|]; try done.
  destruct (validate_notification_envelope _ _ _ _ _); [|done].
  destruct (transition_from_current _ _ false) as [[]|] eqn:H1; [|done].
  rewrite (transition_from_current_replay _ _ H1).
  destruct (transition_write_fields _ _); [|done].
  destruct (transition_attention _ _ false) as [[]|] eqn:H2; [|done].
  by rewrite (transition_attention_replay _ _ H2).
Qed.

Lemma prepare_withdrawal_replay p line m :
  prepare_notification_withdrawal p line false = Ok m →
  prepare_notification_withdrawal p line true = Ok m.
Proof.
  unfold prepare_notification_withdrawal. intros H.
  destruct (notification_fact line) as [[]|]; try done.
  repeat match type of H with
  | (if ?c then Err _ else _) = _ => destruct c eqn:?; [done|]
  | match ?e with Ok _ => _ | Err _ => Err _ end = _ => destruct e; [|done]
  end.
  match goal with H : negb ?b && negb (false && _) = false |- _ =>
    cbn [andb negb] in H; rewrite andb_true_r in H; rewrite H end. done.
Qed.

Lemma prepare_line_replay p line m :
  prepare_line_inner p line false = Ok m → prepare_line_inner p line true = Ok m.
Proof.
  unfold prepare_line_inner. intros H.
  destruct (ok_or _ _) as [expected|]; [|done]. destruct (negb _); [done|].
  destruct (ll_kind line); try done. revert H. unfold prepare_state.
  destruct (_ ≫= _) as [t|]; [|done].
  destruct (bool_decide (t = str "message_claimed")); [done|].
  destruct (bool_decide (t = str "message_delivered_direct")); [done|].
  destruct (bool_decide (t = str "notification_transition"));
    [apply prepare_transition_replay|].
  destruct (bool_decide (t = str "notification_unclaimed_reminder_queued")); [done|].
  destruct (bool_decide (t = str "notification_requeued")); [done|].
  destruct (bool_decide (t = str "notifications_requeued")); [done|].
  destruct (bool_decide (t = str "notification_cleared")); [done|].
  destruct (bool_decide (t = str "notifications_cleared")); [done|].
  destruct (bool_decide (t = str "notification_withdrawn_before_write"));
    [apply prepare_withdrawal_replay|done].
Qed.

Lemma apply_live_replay p line p' :
  apply_inner p line false = AppliedOk p' → apply_inner p line true = AppliedOk p'.
Proof.
  unfold apply_inner. destruct (prepare_line_inner p line false) as [m|] eqn:Hm; [|done].
  by rewrite (prepare_line_replay _ _ _ Hm).
Qed.

Lemma run_live_replay p lines p' :
  run_live p lines = AppliedOk p' → replay p lines = AppliedOk p'.
Proof.
  revert p. unfold run_live, replay. induction lines as [|line lines IH]; intros p; [done|].
  cbn [apply_all]. destruct (apply_inner p line false) as [p1|e|] eqn:H1; [|done|done].
  rewrite (apply_live_replay _ _ _ H1). apply IH.
Qed.

Lemma apply_all_app replaying p l1 l2 p1 :
  apply_all replaying p l1 = AppliedOk p1 →
  apply_all replaying p (l1 ++ l2) = apply_all replaying p1 l2.
Proof.
  revert p. induction l1 as [|line l1 IH]; intros p; cbn [apply_all app]; [by intros [= ->]|].
  destruct (apply_inner p line replaying); [apply IH|done|done].
Qed.

Lemma notifications_after_mono (m : PreparedMutation)
    (records : gmap (RecipientKey * MessageId) NotificationRecord) (k : RecipientKey * MessageId) :
  is_Some (records !! k) → is_Some (notifications_after m records !! k).
Proof.
  assert (∀ (rs : gmap (RecipientKey * MessageId) NotificationRecord) k0 r,
    is_Some (rs !! k) → is_Some (<[k0 := r]> rs !! k)) as Hins.
  { intros rs k0 r Hs. apply lookup_insert_is_Some. destruct (decide (k0 = k)); by auto. }
  intros Hk. destruct m; cbn [notifications_after]; auto.
  - destruct superseded_notification; cbn; auto.
  - destruct notification_update; cbn; auto.
  - revert records Hk. induction records0 as [|kr rs IH]; intros records Hk; cbn [foldl]; auto.
Qed.
End replay.
