(* ===== verification/Entries.v ===== *)
(** * Mailbox entries over a journal

    The life of a mailbox entry: a message row appends one pending entry at
    the end of each recipient's mailbox, a claim or a replacement removes
    exactly one entry from the pending list, and a settled entry never
    changes again. *)
From S2P Require Import Prelude Text Identity Ledger Mailbox Notification Facts.
From S2P Require Import Projection Attempt Prepared MailboxInv NotificationInv Invariant Replay.
Local Open Scope N_scope.

Lemma filter_map_settle {A} (keep sel : A → bool) (f : A → A) (l : list A) :
  (∀ x, x ∈ l → sel x = true → keep (f x) = false) →
  List.filter keep ((λ x, if sel x then f x else x) <$> l) =
  List.filter (λ x, negb (sel x)) (List.filter keep l).
Proof.
  induction l as [|x l IH]; intros H; [done|].
  assert (List.filter keep ((λ x, if sel x then f x else x) <$> l) =
          List.filter (λ x, negb (sel x)) (List.filter keep l)) as IH' by (apply IH; intros; apply H; [by right|done]).
  cbn. destruct (sel x) eqn:Hs; cbn.
  - rewrite H by (done || by left). rewrite IH'. destruct (keep x); cbn; [by rewrite Hs|done].
  - destruct (keep x); cbn; [by rewrite Hs, IH'|done].
Qed.

Lemma filter_ext_elem {A} (f g : A → bool) (l : list A) :
  (∀ x, x ∈ l → f x = g x) → List.filter f l = List.filter g l.
Proof.
  intros H. apply List.filter_ext_in. intros x Hx%list_elem_of_In. by apply H.
Qed.

Lemma filter_all {A} (f : A → bool) (l : list A) :
  (∀ x, x ∈ l → f x = true) → List.filter f l = l.
Proof.
  intros H. apply List.forallb_filter_id, forallb_forall. intros x Hx%list_elem_of_In. by apply H.
Qed.

Section entries.
Context {V : Type} {serde : Serde V} {uuids : Uuids} {digests : Digests}.
Implicit Types (p : MailboxProjection V) (line : LedgerLine V) (r : RecipientKey).

Definition mailbox_map p r : gmap N MailboxEntry := default ∅ (mailboxes p !! r).

Lemma entry_at_map p r s : entry_at p r s = mailbox_map p r !! s.
Proof. unfold entry_at, mailbox_map. by destruct (mailboxes p !! r). Qed.
Lemma get_mailbox_map p r : get_mailbox p r = btree_values (mailbox_map p r).
Proof. unfold get_mailbox, mailbox_map. by destruct (mailboxes p !! r). Qed.
Lemma elem_of_get_mailbox p r e : e ∈ get_mailbox p r ↔ ∃ s, entry_at p r s = Some e.
Proof.
  rewrite get_mailbox_map, elem_of_btree_values. by setoid_rewrite entry_at_map.
Qed.

Lemma elem_of_get_pending p r e :
  e ∈ get_pending p r ↔ is_pending (me_state e) = true ∧ ∃ s, entry_at p r s = Some e.
Proof.
  unfold get_pending. rewrite <-elem_of_get_mailbox, !list_elem_of_In, List.filter_In. tauto.
Qed.

(** In a well-formed mailbox a message id names one entry. *)
Lemma mailbox_entry_of_id p r s e e' :
  mailbox_wf p → entry_at p r s = Some e → e' ∈ get_mailbox p r →
  me_message_id e' = me_message_id e ↔ me_seq e' = s.
Proof.
  intros Hwf He [s' He']%elem_of_get_mailbox.
  destruct (mw_entry _ Hwf _ _ _ He) as (_ & <- & Hi & _).
  destruct (mw_entry _ Hwf _ _ _ He') as (_ & <- & Hi' & _). split.
  - intros Hid. rewrite Hid in Hi'. congruence.
  - intros Hs. rewrite Hs in He'. congruence.
Qed.

Lemma get_pending_set_entry p r id st p' :
  mailbox_wf p → set_entry p r id st = Some p' → is_pending st = false →
  ∀ r', get_pending p' r' =
    if decide (r' = r)
    then List.filter (λ e, bool_decide (me_message_id e ≠ id)) (get_pending p r)
    else get_pending p r'.
Proof.
  intros Hwf Hset Hst r'.
  destruct (set_entry_Some _ _ _ _ _ Hset) as (s & e & mb & Hi & He & _ & Hat).
  destruct (mw_index _ Hwf _ _ _ Hi) as (e2 & He2 & Hid).
  assert (e2 = e) as -> by congruence. unfold get_pending. rewrite !get_mailbox_map.
  destruct (decide (r' = r)) as [->|Hne].
  - assert (mailbox_map p' r = <[s := set_entry_state st e]> (mailbox_map p r)) as ->.
    { apply map_eq. intros s'. rewrite <-!entry_at_map, Hat.
      destruct (decide (s' = s)) as [->|]; [by rewrite decide_True, lookup_insert_eq|].
      rewrite decide_False, lookup_insert_ne, entry_at_map by naive_solver. done. }
    rewrite entry_at_map in He. unfold btree_values.
    rewrite (btree_list_update _ _ _ _ He), <-!list_fmap_compose.
    assert ((snd ∘ (λ kv : N * MailboxEntry, if decide (kv.1 = s) then (s, set_entry_state st e) else kv))
      <$> btree_list (mailbox_map p r) =
      (λ x, if bool_decide (me_message_id x = id) then set_entry_state st x else x)
        <$> (btree_list (mailbox_map p r)).*2) as ->.
    { rewrite <-list_fmap_compose. apply list_fmap_ext. intros i [k x] Hx%list_elem_of_lookup_2.
      apply elem_of_btree_list in Hx. cbn.
      rewrite <-entry_at_map in Hx, He. destruct (mw_entry _ Hwf _ _ _ Hx) as (_ & Hk & _).
      destruct (mailbox_entry_of_id p r s e x Hwf He) as [H1 H2].
      { apply elem_of_get_mailbox. by eauto. }
      destruct (decide (k = s)) as [->|Hks]; cbn.
      - rewrite bool_decide_eq_true_2 by (rewrite <-Hid; apply H2; congruence). congruence.
      - rewrite bool_decide_eq_false_2; [done|]. intros Heq. apply Hks. rewrite <-Hk.
        apply H1. congruence. }
    rewrite filter_map_settle by done. apply filter_ext_elem. intros x _.
    by rewrite <-bool_decide_not.
  - assert (mailbox_map p' r' = mailbox_map p r') as ->; [|done].
    apply map_eq. intros s'. rewrite <-!entry_at_map, Hat, decide_False by naive_solver. done.
Qed.

Lemma get_pending_insert p p' line id (l : list RecipientKey) :
  (∀ r s e, entry_at p r s = Some e → s < ll_seq line) →
  (∀ r s, entry_at p' r s =
     if decide (r ∈ l ∧ s = ll_seq line) then Some (new_entry line id r) else entry_at p r s) →
  ∀ r, get_pending p' r = get_pending p r ++ (if decide (r ∈ l) then [new_entry line id r] else []).
Proof.
  intros Hlt Hat r. unfold get_pending. rewrite !get_mailbox_map.
  destruct (decide (r ∈ l)) as [Hr|Hr].
  - assert (mailbox_map p' r = <[ll_seq line := new_entry line id r]> (mailbox_map p r)) as ->.
    { apply map_eq. intros s. rewrite <-!entry_at_map, Hat.
      destruct (decide (s = ll_seq line)) as [->|]; [by rewrite decide_True, lookup_insert_eq|].
      rewrite decide_False, lookup_insert_ne, entry_at_map by naive_solver. done. }
    rewrite btree_values_insert_max; [by rewrite List.filter_app|].
    intros s e. rewrite <-entry_at_map. apply Hlt.
  - assert (mailbox_map p' r = mailbox_map p r) as ->; [|by rewrite app_nil_r].
    apply map_eq. intros s. rewrite <-!entry_at_map, Hat, decide_False by naive_solver. done.
Qed.

Lemma get_entry_set_entry p r id st p' :
  mailbox_wf p → set_entry p r id st = Some p' →
  ∀ r' id', get_entry p' r' id' =
    if decide (r' = r ∧ id' = id) then set_entry_state st <$> get_entry p r id
    else get_entry p r' id'.
Proof.
  intros Hwf Hset r' id'.
  destruct (set_entry_Some _ _ _ _ _ Hset) as (s & e & mb & Hi & He & -> & Hat).
  rewrite !get_entry_at. change (mailbox_index (set_mailboxes mb p)) with (mailbox_index p).
  destruct (decide (r' = r ∧ id' = id)) as [[-> ->]|Hne].
  - rewrite Hi. cbn. by rewrite Hat, decide_True, He.
  - destruct (mailbox_index p !! (r', id')) as [s'|] eqn:Hi'; cbn; [|done].
    rewrite Hat, decide_False; [done|]. intros [-> ->].
    destruct (mw_index _ Hwf _ _ _ Hi) as (e1 & He1 & <-).
    destruct (mw_index _ Hwf _ _ _ Hi') as (e2 & He2 & <-). naive_solver.
Qed.

(** The parts of a state a reader of mailboxes sees. *)
Definition same_entries p p' : Prop :=
  mailboxes p' = mailboxes p ∧ mailbox_index p' = mailbox_index p ∧ messages p' = messages p.
#[export] Instance same_entries_equivalence : Equivalence same_entries.
Proof. unfold same_entries. split; red; intros; intuition congruence. Qed.
Lemma same_entries_get_entry p p' r id :
  same_entries p p' → get_entry p' r id = get_entry p r id.
Proof. intros (Hm & Hi & _). unfold get_entry. by rewrite Hm, Hi. Qed.
Lemma same_entries_get_pending p p' r : same_entries p p' → get_pending p' r = get_pending p r.
Proof. intros (Hm & _). unfold get_pending, get_mailbox. by rewrite Hm. Qed.

(** Only message, claim and direct-delivery rows touch mailboxes. *)
Definition touches_entries (m : PreparedMutation) : bool :=
  match m with PMMessage _ _ _ | PMClaim _ _ _ _ | PMDeliveredDirect _ _ _ => true | _ => false end.
Lemma commit_line_same_entries p line m p' :
  commit_line p line m = Some p' → touches_entries m = false → same_entries p p'.
Proof.
  set (pl := set_last_workspace_seq (Some (ll_seq line)) p).
  destruct m; cbn [touches_entries commit_line]; intros H Ht; try done; injection H as <-; try done.
  - destruct (commit_notification_frame pl line key record new_attempt) as (_ & ? & ? & ?). done.
  - destruct (foldl_commit_requeue records pl) as (_ & ? & ? & ? & _). done.
  - by destruct forced.
Qed.

Lemma commit_claim_entries p line id r c u p' :
  commit_claim p line id r c u = Some p' →
  ∃ p1, set_entry p r id (Claimed c (ll_ts line)) = Some p1 ∧ same_entries p1 p'.
Proof.
  unfold commit_claim. intros H.
  set (pc := set_claim_sequences _ p) in H.
  destruct (set_entry pc r id (Claimed c (ll_ts line))) as [p2|] eqn:Hs; [|done].
  cbn [mbind option_bind] in H. injection H as <-.
  unfold set_entry in Hs |- *. unfold pc in Hs. cbn in Hs.
  destruct (mailbox_index p !! (r, id)) as [s|]; [|done]. cbn in Hs |- *.
  destruct (mailboxes p !! r) as [entries|]; [|done]. cbn in Hs |- *.
  destruct ((entries : gmap N MailboxEntry) !! s) as [e|]; [|done]. cbn in Hs |- *.
  injection Hs as <-. eexists. split; [done|].
  destruct u; [|done]. by destruct (bool_decide _).
Qed.

(** The state a message row leaves, entry by entry. *)
Lemma commit_message_entries p line id md u p' :
  wf p → message_ok p line id md u → ll_seq line = last_seq p + 1 → ll_seq line ≤ u64_max →
  commit_message (set_last_workspace_seq (Some (ll_seq line)) p) line id md u = Some p' →
  ∃ p1, superseded_step p line id md p1 ∧ mailbox_wf p1 ∧
    messages p' = <[id := line]> (messages p) ∧
    (∀ r s e, entry_at p1 r s = Some e → s < ll_seq line) ∧
    (∀ r s, entry_at p' r s = if decide (r ∈ md_recipients md ∧ s = ll_seq line)
       then Some (new_entry line id r) else entry_at p1 r s) ∧
    (∀ r id', mailbox_index p' !! (r, id') = if decide (r ∈ md_recipients md ∧ id' = id)
       then Some (ll_seq line) else mailbox_index p1 !! (r, id')).
Proof.
  intros Hwf Hok Hseq Hmax Hc.
  destruct (superseded_step_total p line id md u Hok) as [p1 Hstep].
  destruct (superseded_step_spec p line id md u) with (p1 := p1) as ([mb Hp1] & Hm1 & _ & Hn & Hk);
    [apply Hwf|apply Hwf|done..|].
  destruct (commit_message_unfold p line id md u Hok p1 Hstep) as (p2 & Hc' & Hp2).
  assert (p2 = p') as -> by congruence. exists p1.
  destruct (foldl_insert_entry line id (md_recipients md)
    (set_idempotency_index (insert_key id md (idempotency_index p1)) p1)) as (mb2 & ix & Hf & Hat & Hix).
  split_and!; try done.
  - rewrite Hp2. cbn. by rewrite Hp1.
  - intros r s e He. destruct (Hk _ _ _ He) as (e' & _ & He' & _).
    pose proof (mailbox_wf_entry_seq _ _ _ _ (wf_mailbox _ Hwf) He'). lia.
  - intros r s. rewrite Hp2. apply Hat.
  - intros r id'. rewrite Hp2, Hf. apply Hix.
Qed.

(** A replacement retires the replaced message's one entry. *)
Lemma superseded_step_pending p line id md p1 u :
  wf p → message_ok p line id md u → superseded_step p line id md p1 →
  ∀ r, get_pending p1 r =
    List.filter (λ e, bool_decide (md_supersedes md ≠ Some (me_message_id e))) (get_pending p r).
Proof.
  intros Hwf Hok Hstep r. unfold superseded_step in Hstep.
  destruct (md_supersedes md) as [target|] eqn:Hs.
  2: { subst p1. change (get_pending (set_last_workspace_seq (Some (ll_seq line)) p) r)
         with (get_pending p r). by rewrite filter_all. }
  destruct Hstep as (recipient & e & Hr & He & Hp & Hset).
  destruct (mok_supersedes _ _ _ _ _ Hok _ Hs)
    as (r2 & e2 & tl & tmd & Hr2 & Ht & Htmd & _ & Htr & _).
  rewrite Hr in Hr2. injection Hr2 as <-.
  assert (mailbox_wf (set_last_workspace_seq (Some (last_seq p)) p)) as Hpl.
  { apply mailbox_wf_seq; [apply Hwf|done|apply (mw_last _ (wf_mailbox _ Hwf))]. }
  assert (set_entry (set_last_workspace_seq (Some (last_seq p)) p) recipient target
    (EntrySuperseded id (ll_ts line)) = Some (set_last_workspace_seq (Some (last_seq p)) p1)) as Hset'.
  { unfold set_entry in *. cbn in *. destruct (mailbox_index p !! _); [|done]. cbn in *.
    destruct (mailboxes p !! recipient); [|done]. cbn in *. destruct (_ !! _); [|done]. cbn in *.
    by injection Hset as <-. }
  pose proof (get_pending_set_entry _ _ _ _ _ Hpl Hset' eq_refl r) as Hpend.
  change (get_pending p1 r = if decide (r = recipient)
    then List.filter (λ e, bool_decide (me_message_id e ≠ target)) (get_pending p recipient)
    else get_pending p r) in Hpend.
  rewrite Hpend. destruct (decide (r = recipient)) as [->|Hne].
  - apply filter_ext_elem. intros x _. apply bool_decide_ext. naive_solver.
  - symmetry. apply filter_all. intros x Hx. apply bool_decide_eq_true_2. intros [= ->].
    apply elem_of_get_pending in Hx as [_ [s Hx]].
    destruct (mw_entry _ (wf_mailbox _ Hwf) _ _ _ Hx) as (_ & _ & _ & l & m & [Hl Hm] & Hin & _).
    rewrite Ht in Hl. injection Hl as <-. rewrite Htmd in Hm. injection Hm as <-.
    rewrite Htr in Hin. by apply list_elem_of_singleton in Hin.
Qed.

Lemma message_row_pending p line id md u p' :
  wf p → message_ok p line id md u → ll_seq line = last_seq p + 1 → ll_seq line ≤ u64_max →
  commit_message (set_last_workspace_seq (Some (ll_seq line)) p) line id md u = Some p' →
  ∀ r, get_pending p' r =
    List.filter (λ e, bool_decide (md_supersedes md ≠ Some (me_message_id e))) (get_pending p r) ++
    (if decide (r ∈ md_recipients md) then [new_entry line id r] else []).
Proof.
  intros Hwf Hok Hseq Hmax Hc r.
  destruct (commit_message_entries p line id md u p') as (p1 & Hstep & _ & _ & Hlt & Hat & _); try done.
  rewrite (get_pending_insert p1 p' line id (md_recipients md)) by done.
  by erewrite superseded_step_pending.
Qed.

Lemma message_row_entries p line id md u p' r id' e :
  wf p → message_ok p line id md u → ll_seq line = last_seq p + 1 → ll_seq line ≤ u64_max →
  commit_message (set_last_workspace_seq (Some (ll_seq line)) p) line id md u = Some p' →
  get_entry p r id' = Some e →
  ∃ st, get_entry p' r id' = Some (set_entry_state st e) ∧
    (st = me_state e ∨ (me_state e = Pending ∧ st = EntrySuperseded id (ll_ts line))).
Proof.
  intros Hwf Hok Hseq Hmax Hc He.
  destruct (commit_message_entries p line id md u p') as (p1 & Hstep & Hm1 & _ & Hlt & Hat & Hix); try done.
  destruct (mailbox_wf_get_entry _ _ _ _ (wf_mailbox _ Hwf) He) as (Hi & Hae & Hid & Hr).
  assert (id' ≠ id) as Hne.
  { intros ->. by rewrite (mailbox_wf_unknown _ _ _ (wf_mailbox _ Hwf) (mok_fresh _ _ _ _ _ Hok)) in Hi. }
  assert (get_entry p' r id' = get_entry p1 r id') as ->.
  { rewrite !get_entry_at, Hix, decide_False by naive_solver.
    destruct (mailbox_index p1 !! (r, id')) as [s|] eqn:Hs; [|done]. cbn. rewrite Hat.
    destruct (mw_index _ Hm1 _ _ _ Hs) as (e1 & He1 & _). apply Hlt in He1.
    rewrite decide_False; [done|]. intros [_ ->]. lia. }
  unfold superseded_step in Hstep. destruct (md_supersedes md) as [target|].
  - destruct Hstep as (rc & e1 & _ & He1 & Hp1 & Hset).
    pose proof (get_entry_set_entry _ _ _ _ _
      (mailbox_wf_seq p (ll_seq line) (wf_mailbox _ Hwf) ltac:(lia) Hmax) Hset r id') as Hg.
    rewrite Hg. destruct (decide _) as [[-> ->]|].
    + change (get_entry (set_last_workspace_seq _ p) rc target) with (get_entry p rc target).
      rewrite He1. cbn. rewrite He1 in He. injection He as ->. by eauto.
    + exists (me_state e). change (get_entry (set_last_workspace_seq _ p) r id') with (get_entry p r id').
      rewrite He. split; [by destruct e|by left].
  - subst p1. exists (me_state e). split; [|by left].
    change (get_entry (set_last_workspace_seq _ p) r id') with (get_entry p r id').
    rewrite He. by destruct e.
Qed.
End entries.
