(* ===== verification/Guarantees.v ===== *)
(** * What the projection guarantees

    The contract the daemon relies on, for every state a journal can produce:
    no panic, invariants, refinement of the attempt machine, ordering of
    mailboxes, idempotency, and the evidence behind operator resolutions. *)
From S2P Require Import Prelude Text Identity Ledger Mailbox Notification Facts.
From S2P Require Import Projection Attempt Prepared MailboxInv NotificationInv Invariant Replay.
From S2P Require Import Entries.
Local Open Scope N_scope.

Section guarantees.
Context {V : Type} {serde : Serde V} {uuids : Uuids} {digests : Digests}.
Implicit Types (p : MailboxProjection V) (line : LedgerLine V) (r : RecipientKey).

(** A row that was applied: its mutation, the facts validation established,
    and the state it committed to. *)
Lemma applied_inv p line replaying p' :
  apply_inner p line replaying = AppliedOk p' →
  ∃ m, prepare_line_inner p line replaying = Ok m ∧ commit_line p line m = Some p' ∧
    ll_seq line = last_seq p + 1 ∧ ll_seq line ≤ u64_max ∧ prepared_ok p line replaying m.
Proof.
  unfold apply_inner. destruct (prepare_line_inner p line replaying) as [m|] eqn:Hm; [|done].
  destruct (commit_line p line m) as [q|] eqn:Hc; [|done]. intros [= <-].
  exists m. by destruct (prepare_line_ok _ _ _ _ Hm) as (? & ? & ?).
Qed.

(** No journal, live or replayed, can panic the projection: every
    [expect] and every indexing of [commit_line] succeeds on what validation
    let through. *)
Theorem journal_never_panics ws replaying (lines : list (LedgerLine V)) :
  apply_all replaying (projection_new ws) lines ≠ AppliedPanic.
Proof.
  intros H. pose proof (apply_all_wf replaying _ lines (wf_new ws)) as Hwf. by rewrite H in Hwf.
Qed.

(** [C9.] Every projection rebuilt from a journal is well-formed, and the journal
    has no gap: its rows are numbered from one, and the projection's last
    sequence number is the last row's. *)
Theorem journal_invariant ws lines p :
  replay (projection_new ws) lines = AppliedOk p →
  wf p ∧ last_seq p = N.of_nat (length lines) ∧
  ∀ i line, lines !! i = Some line → ll_seq line = 1 + N.of_nat i.
Proof.
  intros H. pose proof (apply_all_wf true _ lines (wf_new ws)) as Hwf. unfold replay in H.
  pose proof (apply_all_numbered _ _ _ _ (wf_new ws) H) as Hnum.
  rewrite H in Hwf. destruct Hwf as [? ->]. split_and!; [done|done|].
  intros i line Hi. rewrite (Hnum _ _ Hi). cbn. lia.
Qed.

(** [C4.] Refinement: whatever row is applied, each wake record is kept, takes
    one step of the attempt machine, or starts a fresh queued attempt under an
    id never used before; and no record disappears. *)
Theorem attempts_refine_machine p line replaying p' :
  reachable p → apply_inner p line replaying = AppliedOk p' →
  (∀ k n, notifications p' !! k = Some n → record_change replaying p k n) ∧
  (∀ k, is_Some (notifications p !! k) → is_Some (notifications p' !! k)).
Proof.
  intros Hr Ha. destruct (applied_inv _ _ _ _ Ha) as (m & _ & Hc & _ & _ & Hok).
  rewrite (commit_line_notifications _ _ _ _ Hc). split.
  - intros k n Hn. eapply prepared_change; [by apply reachable_wf|done..].
  - intros k. apply notifications_after_mono.
Qed.

(** [C10.] A journal written live is accepted by replay row for row and rebuilds
    exactly the state the daemon had. *)
Theorem live_journal_replays ws lines p :
  run_live (projection_new ws) lines = AppliedOk p →
  replay (projection_new ws) lines = AppliedOk p.
Proof. apply run_live_replay. Qed.

(** A message row stores the message under a new id and appends one
    pending entry at the end of each recipient's pending list; the only entry
    it removes is the pending entry of the message it replaces. *)
Theorem message_row_appends p line replaying p' :
  reachable p → apply_inner p line replaying = AppliedOk p' →
  ll_kind line = KMsg ∨ ll_kind line = KFyi →
  ∃ id md, message_id_new (ll_id line) = Ok id ∧ messages p !! id = None ∧
    messages p' = <[id := line]> (messages p) ∧ extract_message_metadata line = Ok md ∧
    ∀ r, get_pending p' r =
      List.filter (λ e, bool_decide (md_supersedes md ≠ Some (me_message_id e))) (get_pending p r) ++
      (if decide (r ∈ md_recipients md) then [new_entry line id r] else []).
Proof.
  intros Hr Ha Hk. destruct (applied_inv _ _ _ _ Ha) as (m & Hm & Hc & Hs & Hmax & _).
  assert (prepare_message p line = Ok m) as Hpm.
  { unfold prepare_line_inner in Hm. destruct (ok_or _ _); [|done]. destruct (negb _); [done|].
    by destruct Hk as [Hk|Hk]; rewrite Hk in Hm. }
  apply prepare_message_ok in Hpm as (id & md & u & -> & Hok); [|done].
  exists id, md. split_and!; [apply Hok..| |apply Hok|].
  - destruct (commit_message_entries p line id md u p') as (p1 & _ & _ & ? & _); try done.
    by apply reachable_wf.
  - eapply message_row_pending; try done. by apply reachable_wf.
Qed.

(** The life of one entry across a row. *)
Lemma entry_life p line replaying p' r id e :
  wf p → apply_inner p line replaying = AppliedOk p' → get_entry p r id = Some e →
  ∃ st, get_entry p' r id = Some (set_entry_state st e) ∧
    (is_pending (me_state e) = false → st = me_state e).
Proof.
  intros Hwf Ha He.
  destruct (applied_inv _ _ _ _ Ha) as (m & _ & Hc & Hs & Hmax & Hok).
  pose proof (mailbox_wf_seq p (ll_seq line) (wf_mailbox _ Hwf) ltac:(lia) Hmax) as Hpl.
  assert (∀ r0 id0 st p1 e0, get_entry p r0 id0 = Some e0 → me_state e0 = Pending →
    set_entry (set_last_workspace_seq (Some (ll_seq line)) p) r0 id0 st = Some p1 →
    same_entries p1 p' →
    ∃ st, get_entry p' r id = Some (set_entry_state st e) ∧
      (is_pending (me_state e) = false → st = me_state e)) as Hone.
  { intros r0 id0 st p1 e0 He0 Hp Hset Hse.
    rewrite (same_entries_get_entry _ _ _ _ Hse), (get_entry_set_entry _ _ _ _ _ Hpl Hset).
    destruct (decide _) as [[-> ->]|].
    - change (get_entry (set_last_workspace_seq _ p) r0 id0) with (get_entry p r0 id0).
      rewrite He. rewrite He in He0. injection He0 as ->. eexists. split; [done|]. by rewrite Hp.
    - change (get_entry (set_last_workspace_seq _ p) r id) with (get_entry p r id).
      exists (me_state e). rewrite He. split; [by destruct e|done]. }
  destruct m; try (exists (me_state e); split; [|done];
    rewrite (same_entries_get_entry _ _ _ _ (commit_line_same_entries _ _ _ _ Hc eq_refl)), He;
    by destruct e).
  - destruct (message_row_entries p line message_id metadata superseded_notification p' r id e)
      as (st & Hst & Hor); try done.
    exists st. split; [done|]. destruct Hor as [->|[Hp _]]; [done|]. by rewrite Hp.
  - destruct Hok as (_ & _ & (e0 & He0 & Hp0) & _).
    apply commit_claim_entries in Hc as (p1 & Hset & Hse). by eapply Hone.
  - destruct Hok as (_ & (e0 & He0 & Hp0) & _). by eapply Hone.
Qed.

(** A mailbox entry is never lost or moved, and it settles once: an entry
    that was claimed, delivered directly or replaced is the same in every
    later state. *)
Theorem entries_settle_once p line replaying p' r id e :
  reachable p → apply_inner p line replaying = AppliedOk p' → get_entry p r id = Some e →
  ∃ st, get_entry p' r id = Some (set_entry_state st e) ∧
    (is_pending (me_state e) = false → st = me_state e).
Proof. intros Hr. by apply entry_life, reachable_wf. Qed.

(** A claim row that is applied settles exactly one entry: the entry was
    pending, the claimant is its recipient, it becomes claimed at the row's
    time, and the pending lists lose that entry and nothing else. *)
Theorem claim_row_settles p line replaying p' version id recipient claimant :
  reachable p → ll_kind line = KState →
  (v ← ll_data line; value_type v) = Some (str "message_claimed") →
  mailbox_fact line (str "message_claimed") = Ok (MessageClaimed version id recipient claimant) →
  apply_inner p line replaying = AppliedOk p' →
  claimant = recipient ∧
  (∃ e, get_entry p recipient id = Some e ∧ me_state e = Pending ∧
     get_entry p' recipient id = Some (set_entry_state (Claimed recipient (ll_ts line)) e)) ∧
  ∀ r, get_pending p' r =
    if decide (r = recipient)
    then List.filter (λ e, bool_decide (me_message_id e ≠ id)) (get_pending p recipient)
    else get_pending p r.
Proof.
  intros Hr Hk Hty Hf Ha. pose proof (reachable_wf _ Hr) as Hwf.
  destruct (applied_inv _ _ _ _ Ha) as (m & Hm & Hc & Hs & Hmax & Hok).
  assert (prepare_claim p line = Ok m) as Hpc.
  { unfold prepare_line_inner in Hm. destruct (ok_or _ _); [|done]. destruct (negb _); [done|].
    rewrite Hk in Hm. unfold prepare_state in Hm. rewrite Hty in Hm. done. }
  assert (∃ u, m = PMClaim id recipient claimant u) as [u ->].
  { unfold prepare_claim in Hpc. rewrite Hf in Hpc. ok_inv.
    destruct (me_state _); ok_inv. by eauto. }
  destruct Hok as (-> & _ & (e & He & Hp) & _).
  apply commit_claim_entries in Hc as (p1 & Hset & Hse).
  pose proof (mailbox_wf_seq p (ll_seq line) (wf_mailbox _ Hwf) ltac:(lia) Hmax) as Hpl.
  split; [done|]. split.
  - exists e. split_and!; [done..|].
    rewrite (same_entries_get_entry _ _ _ _ Hse), (get_entry_set_entry _ _ _ _ _ Hpl Hset).
    rewrite decide_True by done.
    change (get_entry (set_last_workspace_seq _ p) recipient id) with (get_entry p recipient id).
    by rewrite He.
  - intros r. rewrite (same_entries_get_pending _ _ _ Hse).
    by rewrite (get_pending_set_entry _ _ _ _ _ Hpl Hset).
Qed.

(** In every state a claimed entry was claimed by its own recipient, in a
    row after the message, and the claim's sequence number is on record; no
    other entry has one. *)
Theorem claims_are_exact p r id :
  reachable p →
  (∀ e claimant at_ms, get_entry p r id = Some e → me_state e = Claimed claimant at_ms →
     claimant = r ∧ ∃ q, claim_sequences p !! (r, id) = Some q ∧ me_seq e < q ∧ q ≤ last_seq p) ∧
  (∀ q, claim_sequences p !! (r, id) = Some q → claimed_by p r id = true).
Proof.
  intros Hr. destruct (reachable_wf _ Hr) as [Hm Hc _ _]. split.
  - intros e c at_ms He Hst. destruct (mailbox_wf_get_entry _ _ _ _ Hm He) as (Hi & Hat & Hid & _).
    destruct (cw_claimed _ Hc _ _ _ _ _ Hat Hst) as [-> [q Hq]]. rewrite Hid in Hq.
    split; [done|]. exists q. split; [done|].
    destruct (cw_sequence _ Hc _ _ _ Hq) as (Hle & s & e' & ? & Hi' & _ & _ & Hlt).
    rewrite Hi in Hi'. injection Hi' as <-. done.
  - intros q Hq. destruct (cw_sequence _ Hc _ _ _ Hq) as (_ & s & e & at_ms & Hi & Hat & Hst & _).
    unfold claimed_by. rewrite get_entry_at, Hi. cbn. rewrite Hat, Hst. by apply bool_decide_eq_true_2.
Qed.

(** A client key of a sender names one message: two stored messages with
    the same sender and key are the same message, and the idempotency index
    points to it with its digest. *)
Theorem client_key_names_one_message p id1 id2 line1 line2 md1 md2 key :
  reachable p → stored_message p id1 line1 md1 → stored_message p id2 line2 md2 →
  md_sender md1 = md_sender md2 → md_client_key md1 = Some key → md_client_key md2 = Some key →
  id1 = id2 ∧ idempotency_index p !! (md_sender md1, key) = Some (id1, md_request_digest md1).
Proof.
  intros Hr [H1 Hm1] [H2 Hm2] Hs Hk1 Hk2. destruct (reachable_wf _ Hr) as [Hm _ _ _].
  destruct (mw_message _ Hm _ _ H1) as (md1' & E1 & Hso1). rewrite Hm1 in E1. injection E1 as <-.
  destruct (mw_message _ Hm _ _ H2) as (md2' & E2 & Hso2). rewrite Hm2 in E2. injection E2 as <-.
  pose proof (so_key _ _ _ _ Hso1 _ Hk1) as Hi1. pose proof (so_key _ _ _ _ Hso2 _ Hk2) as Hi2.
  rewrite Hs in Hi1. rewrite Hi1 in Hi2. injection Hi2 as -> Hd. split; [done|]. by rewrite Hs.
Qed.

(** Threads are flat: the thread root of every stored message is a stored
    message that is its own thread root; and every recipient of a stored
    message has an entry for it. *)
Theorem threads_are_flat p id line md :
  reachable p → stored_message p id line md →
  ∃ root rmd, stored_message p (md_thread_root md) root rmd ∧
    md_thread_root rmd = md_thread_root md ∧
    ∀ r, r ∈ md_recipients md → is_Some (get_entry p r id).
Proof.
  intros Hr [Hl Hmd]. destruct (reachable_wf _ Hr) as [Hm _ _ _].
  destruct (mw_message _ Hm _ _ Hl) as (md' & E & Hso). rewrite Hmd in E. injection E as <-.
  destruct (so_thread _ _ _ _ Hso) as (root & rmd & Hst & Hflat).
  exists root, rmd. split_and!; [done..|]. intros r Hin.
  destruct (so_indexed _ _ _ _ Hso r Hin) as [_ Hi].
  rewrite get_entry_at, Hi. cbn. destruct (mw_index _ Hm _ _ _ Hi) as (e & -> & _). by eauto.
Qed.

(** ** Wake attempts *)


(** An attempt id belongs to one recipient's message: two current
    records with one attempt id are the same record. *)
Theorem attempt_ids_are_unique p k1 k2 n1 n2 :
  reachable p → notifications p !! k1 = Some n1 → notifications p !! k2 = Some n2 →
  nr_attempt_id n1 = nr_attempt_id n2 →
  k1 = k2 ∧ n1 = n2 ∧ k1 = (nr_recipient n1, nr_message_id n1) ∧ is_admin k1.1 = false ∧
  is_Some (get_entry p k1.1 k1.2).
Proof.
  intros Hr H1 H2 Ha. destruct (reachable_wf _ Hr) as [Hm _ Hn _].
  pose proof (nw_unique _ Hn _ _ _ _ H1 H2 Ha) as ->. assert (n1 = n2) as -> by congruence.
  destruct (nw_record _ Hn _ _ H2) as [Hre Hme [s Hi] Had _ _ _]. destruct k2 as [r id]. cbn in *.
  split_and!; [done|done|congruence|done|]. rewrite get_entry_at, Hi. cbn.
  destruct (mw_index _ Hm _ _ _ Hi) as (e & -> & _). by eauto.
Qed.

(** ** Operator resolutions *)

(** The operator decisions a commit changes: none outside decision rows. *)
Lemma commit_line_resolved p line replaying m p' :
  wf p → ll_seq line = last_seq p + 1 → ll_seq line ≤ u64_max → prepared_ok p line replaying m →
  commit_line p line m = Some p' →
  resolved_attempts p' =
    match m with
    | PMResolved a x | PMResolvedWithoutTerminalAction a x => <[a := x]> (resolved_attempts p)
    | _ => resolved_attempts p
    end.
Proof.
  intros Hwf Hs Hmax Hok Hc. destruct m; cbn [commit_line prepared_ok] in *;
    try (injection Hc as <-; done).
  - destruct (commit_message_ok p line message_id metadata superseded_notification)
      as (q & Hq & _ & _ & _ & _ & _ & Hsd); [apply Hwf|apply Hwf|done..|].
    assert (q = p') as -> by congruence. apply Hsd.
  - unfold commit_claim in Hc. destruct (set_entry _ _ _ _) as [p1|] eqn:Hs1; [|done].
    apply set_entry_frame in Hs1 as [mb ->]. cbn [mbind option_bind] in Hc. injection Hc as <-.
    destruct notification_update; [|done]. by destruct (bool_decide _).
  - apply set_entry_frame in Hc as [mb ->]. done.
  - injection Hc as <-. unfold commit_notification.
    destruct new_attempt, (bound_write record), (proven_unwritten record); cbn [orb]; try done;
      by destruct (bool_decide _).
  - injection Hc as <-.
    by destruct (foldl_commit_requeue records (set_last_workspace_seq (Some (ll_seq line)) p))
      as (_ & _ & _ & _ & ->).
  - injection Hc as <-. by destruct forced.
Qed.

(** An attempt becomes resolved only on evidence: as [Complete] when the
    intended and accepted action is [Complete] and its exact consumption was
    observed, as [Discard] when the accepted action is [Discard] or none was
    accepted, or, for a record of the legacy write contract, when no action was
    accepted and nothing was consumed. *)
Theorem resolution_needs_evidence p line replaying p' a x :
  reachable p → apply_inner p line replaying = AppliedOk p' →
  resolved_attempts p !! a = None → resolved_attempts p' !! a = Some x →
  attention_ok p a ∧ active_notification_barriers p' !! a = None ∧
  ((x = Complete ∧ resolution_actions_accepted p !! a = Some Complete ∧
      ∃ o, resolution_consumptions p !! a = Some o ∧
        proves_exact_consumption (co_evidence o) = true) ∨
   (x = Discard ∧ resolution_actions_accepted p !! a ≠ Some Complete) ∨
   (∃ k c, notifications p !! k = Some c ∧ nr_attempt_id c = a ∧
      uses_legacy_notification_write_contract c = true ∧
      resolution_actions_accepted p !! a = None ∧ resolution_consumptions p !! a = None)).
Proof.
  intros Hr Ha Hn Hx. pose proof (reachable_wf _ Hr) as Hwf.
  pose proof (apply_inner_wf p line replaying Hwf) as Hwf'. rewrite Ha in Hwf'.
  destruct (dw_resolved _ (wf_decisions _ (proj1 Hwf')) _ _ Hx) as (_ & Hb & _).
  destruct (applied_inv _ _ _ _ Ha) as (m & _ & Hc & Hs & Hmax & Hok).
  rewrite (commit_line_resolved _ _ _ _ _ Hwf Hs Hmax Hok Hc) in Hx.
  destruct m; try congruence; apply lookup_insert_Some in Hx as [[<- <-]|[_ Hx]]; try congruence;
    cbn [prepared_ok] in Hok.
  - destruct Hok as (Hatt & -> & Hacc). split_and!; [done..|]. right; left. by rewrite Hacc.
  - destruct Hok as (Hatt & Hok). split_and!; [done..|].
    destruct Hok as [Hleg|(_ & Hacc & Hco)]; [by auto|]. destruct resolution; [by auto|].
    right; left. by rewrite Hacc.
Qed.

(** A resolved attempt is inert: it holds no barrier, its record stays in
    [AttentionRequired], and no row changes its resolution. *)
Theorem resolved_attempts_are_final p line replaying p' a x :
  reachable p → apply_inner p line replaying = AppliedOk p' → resolved_attempts p !! a = Some x →
  resolved_attempts p' !! a = Some x ∧ active_notification_barriers p' !! a = None ∧
  ∀ k n, notifications p' !! k = Some n → nr_attempt_id n = a → nr_state n = AttentionRequired.
Proof.
  intros Hr Ha Hx. pose proof (reachable_wf _ Hr) as Hwf.
  pose proof (apply_inner_wf p line replaying Hwf) as Hwf'. rewrite Ha in Hwf'.
  destruct (applied_inv _ _ _ _ Ha) as (m & _ & Hc & Hs & Hmax & Hok).
  assert (resolved_attempts p' !! a = Some x) as Hx'.
  { rewrite (commit_line_resolved _ _ _ _ _ Hwf Hs Hmax Hok Hc).
    destruct m; try done; cbn [prepared_ok] in Hok; destruct Hok as ([_ Hu] & _);
      rewrite lookup_insert_ne; congruence. }
  destruct (dw_resolved _ (wf_decisions _ (proj1 Hwf')) _ _ Hx') as (_ & Hb & _ & Hst).
  by split_and!.
Qed.
End guarantees.
