(* ===== verification/Store.v ===== *)
(** * The message store

    [MessageStore] of [src/cyclopsd/src/mailbox/store.rs]: one journal writer
    and the projection it feeds.  An operation builds one row from the current
    state, validates it, appends it and commits it.  The clock reading and
    what the disk does to the append are arguments ([Env]); [Panicked] is an
    [expect] that fails. *)
From S2P Require Import Prelude Text Identity Ledger Journal Mailbox Notification Facts.
From S2P Require Import Facts Projection Replay.
Local Open Scope N_scope.
Local Open Scope rust_scope.

(** ** Requests and answers ([projection.rs], [wire.rs]) *)
Record MessageDraft := MkDraft {
  dr_kind : Kind;
  dr_sender : RecipientKey;
  dr_recipients : list RecipientKey;
  dr_subject : option rstr;
  dr_summary : option rstr;
  dr_body : option rstr;
  dr_client_key : option rstr;
  dr_supersedes : option MessageId;
  dr_presentation : MessagePresentation;
  dr_raw : bool;
  dr_broadcast : bool;
}.
Record ReplyDraft := MkReplyDraft {
  rpl_sender : RecipientKey;
  rpl_reference : MessageId;
  rpl_summary : option rstr;
  rpl_body : option rstr;
  rpl_client_key : option rstr;
  rpl_sender_label : rstr;
  rpl_recipient_label : rstr;
  rpl_raw : bool;
}.
Record CanonicalDraft := MkCanonicalDraft {
  cd_kind : Kind;
  cd_sender : RecipientKey;
  cd_recipients : list RecipientKey;
  cd_subject : option rstr;
  cd_summary : option rstr;
  cd_body : option rstr;
  cd_reply_to : option MessageId;
  cd_client_key : option rstr;
  cd_supersedes : option MessageId;
  cd_presentation : MessagePresentation;
  cd_raw : bool;
  cd_broadcast : bool;
}.
Inductive AcceptanceOutcome :=
| AcceptNew (request_digest : RequestDigest)
| AcceptExisting (id : MessageId).
Record AcceptResult := MkAcceptResult {
  as_message_id : MessageId;
  as_thread_root : MessageId;
  as_inserted : bool;
  as_seq : N;
  as_recipients : list rstr;
  as_recipient_keys : list RecipientKey;
}.
Record InboxMessage := MkInboxMessage {
  im_message_id : MessageId;
  im_kind : Kind;
  im_recipient_label : option rstr;
  im_sender : option RecipientKey;
  im_sender_label : rstr;
  im_subject : option rstr;
  im_summary : option rstr;
  im_body : option rstr;
  im_reply_to : option MessageId;
  im_thread_root : MessageId;
}.
Inductive ClaimOutcome :=
| ClaimedOutcome (entry : MailboxEntry) (message : InboxMessage) (skipped_oldest : option MessageId)
    (withdrawn_attempt consumed_doorbell_attempt : option NotificationAttemptId)
| AlreadyClaimedOutcome (entry : MailboxEntry) (message : InboxMessage)
    (withdrawn_attempt consumed_doorbell_attempt : option NotificationAttemptId).

Inductive MessageStoreError :=
| StoreMailbox (e : MailboxError)
| StoreLedger (e : LedgerError)
| StoreSerialize (text : rstr).

(** The outcome of one operation. *)
Inductive outcome (A : Type) :=
| Done (a : A)
| Failed (e : MessageStoreError)
| Panicked.
Arguments Done {A} a.
Arguments Failed {A} e.
Arguments Panicked {A}.

(** The clock and the disk during one operation. *)
Record Env := MkEnv { env_io : IoOutcome; env_now : N }.

Section store.
Context {V : Type} {serde : Serde V} {codec : LineCodec V} {uuids : Uuids} {digests : Digests}.
Implicit Types (p : MailboxProjection V) (line : LedgerLine V).

Record MessageStore := MkStore {
  st_writer : LedgerWriter;
  st_projection : MailboxProjection V;
  st_fail_recovery : option NotificationAttemptId;
}.

(** ** Opening *)
Definition store_open (bytes : list N) (lock_free : bool) (ws : WorkspaceId) (boot_id : rstr)
    : outcome MessageStore :=
  match open_with_replay bytes lock_free boot_id true with
  | Err e => Failed (StoreLedger e)
  | Ok (writer, lines) =>
      match replay (projection_new ws) lines with
      | AppliedOk p => Done (MkStore writer p None)
      | AppliedErr e => Failed (StoreMailbox e)
      | AppliedPanic => Panicked
      end
  end.

(** ** Appending one row: validate, append, commit *)
Definition append_row (s : MessageStore) (env : Env) line : MessageStore * outcome (LedgerLine V) :=
  match prepare_line (st_projection s) line with
  | Err e => (s, Failed (StoreMailbox e))
  | Ok prepared =>
      match append (st_writer s) (env_io env) (env_now env) line with
      | (w, Err e) => (MkStore w (st_projection s) (st_fail_recovery s), Failed (StoreLedger e))
      | (w, Ok persisted) =>
          match commit_line (st_projection s) persisted prepared with
          | Some p => (MkStore w p (st_fail_recovery s), Done persisted)
          | None => (MkStore w (st_projection s) (st_fail_recovery s), Panicked)
          end
      end
  end.
Definition row_ts (env : Env) (ts : N) : N := if ts =? 0 then N.max (env_now env) 1 else ts.
(** A state row: no message fields. *)
Definition state_row (s : MessageStore) (env : Env) (id : rstr) (ts : N) (from : rstr)
    (to : list rstr) (data : V) : LedgerLine V :=
  MkLedgerLine (lw_next_seq (st_writer s)) (lw_boot_id (st_writer s)) id (row_ts env ts) KState from
    to None None None [] (Some data).

(** ** Accepting messages *)
Definition check_acceptance p (draft : CanonicalDraft) : result MailboxError AcceptanceOutcome :=
  bail (InvalidKind (cd_kind draft)) when
    bool_decide (cd_kind draft ≠ KMsg) && bool_decide (cd_kind draft ≠ KFyi) ;;
  let? _ := check_workspace p (rk_workspace_id (cd_sender draft)) in
  bail DraftEmptyRecipients when bool_decide (cd_recipients draft = []) ;;
  let? _ := check_recipients p DraftDuplicateRecipient ∅ (cd_recipients draft) in
  bail EmptyClientKey when bool_decide (cd_client_key draft = Some []) ;;
  let? _ := presentation_labels (cd_recipients draft) (cd_presentation draft) in
  let? _ := type_error (transpose_map validate_message_summary (cd_summary draft)) in
  let? digest := type_error (request_digest_compute (cd_kind draft) (cd_sender draft)
    (cd_recipients draft) (MkRequestContent (cd_subject draft) (cd_summary draft) (cd_body draft))
    (cd_reply_to draft) (cd_supersedes draft)) in
  match key ← cd_client_key draft;
        existing ← idempotency_index p !! (cd_sender draft, key);
        Some (key, existing) with
  | Some (key, (existing_id, existing_digest)) =>
      if bool_decide (existing_digest = digest) then Ok (AcceptExisting existing_id)
      else Err (DuplicateIdempotencyKey (cd_sender draft) key existing_id)
  | None =>
      let? _ := supersession_thread_root p (cd_sender draft) (cd_recipients draft)
                  (cd_supersedes draft) in
      Ok (AcceptNew digest)
  end.

(** The thread an accepted draft belongs to. *)
Definition draft_thread_root p (message_id : MessageId) (draft : CanonicalDraft)
    : result MailboxError MessageId :=
  match cd_reply_to draft with
  | Some reference =>
      let? derived := derive_reply p (cd_sender draft) reference in Ok (rd_thread_root derived)
  | None =>
      let? root := supersession_thread_root p (cd_sender draft) (cd_recipients draft)
                     (cd_supersedes draft) in
      Ok (default message_id root)
  end.
Definition draft_metadata p (draft : CanonicalDraft) (thread_root : MessageId)
    (digest : RequestDigest) : MessageMetadata :=
  MkMessageMetadata CANONICAL_RECORD_VERSION (workspace_id p) (cd_sender draft)
    (cd_recipients draft) (cd_presentation draft) (cd_summary draft) thread_root
    (cd_client_key draft) digest (cd_supersedes draft) (cd_raw draft) (cd_broadcast draft).
Definition draft_row (s : MessageStore) (env : Env) (message_id : MessageId)
    (draft : CanonicalDraft) (ts : N) (labels : list rstr) (data : V) : LedgerLine V :=
  MkLedgerLine (lw_next_seq (st_writer s)) (lw_boot_id (st_writer s)) (mid_text message_id)
    (row_ts env ts) (cd_kind draft) (mp_sender_label (cd_presentation draft)) labels
    (cd_subject draft) (cd_body draft) (mid_text <$> cd_reply_to draft) [] (Some data).

(** An exact retry answers with the stored message. *)
Definition accept_existing p (existing : MessageId) : outcome AcceptResult :=
  match get_message p existing with
  | None => Panicked
  | Some message =>
      match extract_message_metadata message with
      | Err e => Failed (StoreMailbox e)
      | Ok metadata =>
          Done (MkAcceptResult existing (md_thread_root metadata) false (ll_seq message)
                  (ll_to message) (md_recipients metadata))
      end
  end.

Definition accept_canonical_at (s : MessageStore) (env : Env) (message_id : MessageId)
    (draft : CanonicalDraft) (ts : N) : MessageStore * outcome AcceptResult :=
  let p := st_projection s in
  match check_acceptance p draft with
  | Err e => (s, Failed (StoreMailbox e))
  | Ok (AcceptExisting existing) => (s, accept_existing p existing)
  | Ok (AcceptNew request_digest) =>
      match draft_thread_root p message_id draft with
      | Err e => (s, Failed (StoreMailbox e))
      | Ok thread_root =>
          match presentation_labels (cd_recipients draft) (cd_presentation draft) with
          | Err e => (s, Failed (StoreMailbox e))
          | Ok (_, labels) =>
              match metadata_to_value (draft_metadata p draft thread_root request_digest) with
              | Err e => (s, Failed (StoreSerialize e))
              | Ok data =>
                  let line := draft_row s env message_id draft ts labels data in
                  match append_row s env line with
                  | (s, Done _) =>
                      (s, Done (MkAcceptResult message_id thread_root true (ll_seq line)
                                  (ll_to line) (cd_recipients draft)))
                  | (s, Failed e) => (s, Failed e)
                  | (s, Panicked) => (s, Panicked)
                  end
              end
          end
      end
  end.

Definition accept_at (s : MessageStore) (env : Env) (message_id : MessageId)
    (draft : MessageDraft) (ts : N) : MessageStore * outcome AcceptResult :=
  accept_canonical_at s env message_id
    (MkCanonicalDraft (dr_kind draft) (dr_sender draft) (dr_recipients draft) (dr_subject draft)
       (dr_summary draft) (dr_body draft) None (dr_client_key draft) (dr_supersedes draft)
       (dr_presentation draft) (dr_raw draft) (dr_broadcast draft)) ts.

Definition reply_at (s : MessageStore) (env : Env) (message_id : MessageId)
    (draft : ReplyDraft) (ts : N) : MessageStore * outcome AcceptResult :=
  match derive_reply (st_projection s) (rpl_sender draft) (rpl_reference draft) with
  | Err e => (s, Failed (StoreMailbox e))
  | Ok derived =>
      accept_canonical_at s env message_id
        (MkCanonicalDraft KMsg (rpl_sender draft) [rd_recipient derived] (rd_subject derived)
           (rpl_summary draft) (rpl_body draft) (Some (rpl_reference draft)) (rpl_client_key draft)
           None
           (MkMessagePresentation (rpl_sender_label draft)
              [MkRecipientPresentation (rd_recipient derived) (rpl_recipient_label draft)])
           (rpl_raw draft) false) ts
  end.

(** The minting loop over a stream of fresh random texts: it stops at the
    first id no stored message has. *)
Definition mint_candidate (thread_root : option MessageId) (random : rstr) : MessageId :=
  match thread_root with
  | Some root => mint_in_thread root random
  | None => mint_root random
  end.
Fixpoint mint_message_id (s : MessageStore) (thread_root : option MessageId)
    (random : list rstr) : option MessageId :=
  match random with
  | [] => None
  | r :: rest =>
      let candidate := mint_candidate thread_root r in
      if bool_decide (get_message (st_projection s) candidate = None) then Some candidate
      else mint_message_id s thread_root rest
  end.

(** ** Claiming *)
Definition inbox_message line (claimant : RecipientKey) : result MailboxError InboxMessage :=
  let? metadata := extract_message_metadata line in
  let recipient_label :=
    rp_label <$> List.find (λ pr, bool_decide (rp_recipient pr = claimant))
                   (mp_recipient_labels (md_presentation metadata)) in
  let? message_id := type_error (message_id_new (ll_id line)) in
  let? reply_to := type_error (transpose_map message_id_new (ll_reply_to line)) in
  Ok (MkInboxMessage message_id (ll_kind line) recipient_label (Some (md_sender metadata))
        (mp_sender_label (md_presentation metadata)) (ll_subject line) (md_summary metadata)
        (ll_body line) reply_to (md_thread_root metadata)).

Definition operator_message line : result MailboxError InboxMessage :=
  let? metadata := extract_message_metadata line in
  let recipient_label :=
    Some (join (str ", ") (rp_label <$> mp_recipient_labels (md_presentation metadata))) in
  let? message_id := type_error (message_id_new (ll_id line)) in
  let? reply_to := type_error (transpose_map message_id_new (ll_reply_to line)) in
  Ok (MkInboxMessage message_id (ll_kind line) recipient_label (Some (md_sender metadata))
        (mp_sender_label (md_presentation metadata)) (ll_subject line) (md_summary metadata)
        (ll_body line) reply_to (md_thread_root metadata)).

(** The doorbell this claim, or the earlier one it repeats, consumed. *)
Definition consumed_doorbell_attempt p (recipient : RecipientKey) (message_id : MessageId)
    : option NotificationAttemptId :=
  let prior_claim_seq := claim_sequences p !! (recipient, message_id) in
  record ← notification p recipient message_id;
  if bool_decide (nr_transport record = Doorbell) &&
     (bool_decide (nr_state record = Submitted) ||
      bool_decide (nr_state record = SubmittedUnverified) ||
      (bool_decide (nr_state record = Notified) &&
       bool_decide (prior_claim_seq = Some (nr_updated_seq record))))
  then Some (nr_attempt_id record) else None.
Definition withdrawn_attempt p (recipient : RecipientKey) (message_id : MessageId)
    : option NotificationAttemptId :=
  record ← notification p recipient message_id;
  if bool_decide (settled_by_claim (nr_state record) (nr_transport record) = Withdrawn)
  then Some (nr_attempt_id record) else None.
Definition skipped_oldest p (claimant : RecipientKey) (message_id : MessageId) : option MessageId :=
  oldest ← me_message_id <$> head (get_pending p claimant);
  if bool_decide (oldest ≠ message_id) then Some oldest else None.

Definition claim_at (s : MessageStore) (env : Env) (claimant : RecipientKey)
    (message_id : MessageId) (ts : N) : MessageStore * outcome ClaimOutcome :=
  let p := st_projection s in
  match get_entry p claimant message_id with
  | None => (s, Failed (StoreMailbox (EntryNotFound message_id claimant)))
  | Some entry =>
  match transpose_map (λ line, inbox_message line claimant) (get_message p message_id) with
  | Err e => (s, Failed (StoreMailbox e))
  | Ok None => (s, Failed (StoreMailbox (MessageNotFound message_id)))
  | Ok (Some message) =>
      let skipped := skipped_oldest p claimant message_id in
      let consumed := consumed_doorbell_attempt p (me_recipient entry) message_id in
      match me_state entry with
      | Claimed existing _ =>
          if bool_decide (existing = claimant)
          then (s, Done (AlreadyClaimedOutcome entry message None consumed))
          else (s, Failed (StoreMailbox (AlreadyClaimed message_id (me_recipient entry) existing)))
      | EntrySuperseded _ _ | DeliveredDirect _ _ =>
          (s, Failed (StoreMailbox (MessageNotPending message_id)))
      | Pending =>
          let withdrawn := withdrawn_attempt p (me_recipient entry) message_id in
          match mailbox_fact_to_value (MessageClaimed CANONICAL_RECORD_VERSION message_id
                  (me_recipient entry) claimant) with
          | Err e => (s, Failed (StoreSerialize e))
          | Ok data =>
              let line := state_row s env (mid_text message_id) ts (recipient_display claimant) []
                            data in
              match append_row s env line with
              | (s, Done _) =>
                  match get_entry (st_projection s) claimant message_id with
                  | Some updated =>
                      (s, Done (ClaimedOutcome updated message skipped withdrawn consumed))
                  | None => (s, Panicked)
                  end
              | (s, Failed e) => (s, Failed e)
              | (s, Panicked) => (s, Panicked)
              end
          end
      end
  end end.

(** A reserved locator names an issued attempt; any other locator is an
    ordinary message id. *)
Definition claim_notification_locator (s : MessageStore) (env : Env) (claimant : RecipientKey)
    (locator : MessageId) (attempt_id : NotificationAttemptId)
    : MessageStore * outcome (ClaimOutcome * bool) :=
  let p := st_projection s in
  let changes r := bool_decide (settled_by_claim (nr_state r) (nr_transport r) ≠ nr_state r) in
  let claim id changed :=
    match claim_at s env claimant id (env_now env) with
    | (s, Done c) => (s, Done (c, changed))
    | (s, Failed e) => (s, Failed e)
    | (s, Panicked) => (s, Panicked)
    end in
  if negb (bool_decide (attempt_id ∈ notification_attempts p)) then
    claim locator (match notification p claimant locator with Some r => changes r | None => false end)
  else
    match notification_by_attempt p attempt_id with
    | Some record =>
        if doorbell_format_names_exact_attempt (nr_doorbell_format record) &&
           bool_decide (nr_recipient record = claimant) then
          if bool_decide (is_Some (get_message p locator))
          then (s, Failed (StoreMailbox (NotificationAttemptClaimLocatorConflict locator)))
          else claim (nr_message_id record) (changes record)
        else (s, Failed (StoreMailbox (NotificationAttemptUnknown attempt_id)))
    | None => (s, Failed (StoreMailbox (NotificationAttemptUnknown attempt_id)))
    end.

(** ** Notification facts *)

(** The injected recovery failure fires on the row that names its attempt. *)
Definition injected_failure (s : MessageStore) line : bool :=
  match st_fail_recovery s with
  | None => false
  | Some target =>
      match data ← ll_data line; text ← value_str data (str "attempt_id");
            result_ok (attempt_parse text) with
      | Some attempt => bool_decide (attempt = target)
      | None => false
      end
  end.

Definition append_notification_fact_at (s : MessageStore) (env : Env) (message_id : MessageId)
    (recipient : RecipientKey) (fact : NotificationFact) (ts : N)
    : MessageStore * outcome NotificationRecord :=
  match notification_fact_to_value fact with
  | Err e => (s, Failed (StoreSerialize e))
  | Ok data =>
      let line := state_row s env (mid_text message_id) ts CYCLOPSD [recipient_display recipient]
                    data in
      match prepare_line (st_projection s) line with
      | Err e => (s, Failed (StoreMailbox e))
      | Ok _ =>
          if injected_failure s line
          then (MkStore (st_writer s) (st_projection s) None,
                Failed (StoreLedger
                  (LedgerIo (str "injected workspace journal recovery append failure"))))
          else
            match append_row s env line with
            | (s, Done _) =>
                match notification (st_projection s) recipient message_id with
                | Some record => (s, Done record)
                | None => (s, Panicked)
                end
            | (s, Failed e) => (s, Failed e)
            | (s, Panicked) => (s, Panicked)
            end
      end
  end.

Definition append_notification_transition_full_at (s : MessageStore) (env : Env)
    (t : NotificationTransitionFact) (ts : N) : MessageStore * outcome NotificationRecord :=
  append_notification_fact_at s env (tf_message_id t) (tf_recipient t) (NotificationTransition t) ts.

Definition append_notification_transition_with_transport_at (s : MessageStore) (env : Env)
    (message_id : MessageId) (recipient : RecipientKey) (attempt_id : NotificationAttemptId)
    (state : NotificationState) (binding : option NotificationBinding)
    (transport : option NotificationTransport) (doorbell_format : option N)
    (cause : option NotificationAttentionCause) (ts : N)
    : MessageStore * outcome NotificationRecord :=
  let verify_outcome :=
    if bool_decide (state = AttentionRequired) && bool_decide (cause = Some VerifyFailed)
    then Some verify_outcome_ambiguous else None in
  append_notification_transition_full_at s env
    (MkTransition CANONICAL_RECORD_VERSION attempt_id message_id recipient state binding transport
       doorbell_format cause None verify_outcome None None None) ts.

Definition append_notification_transition_at (s : MessageStore) (env : Env)
    (message_id : MessageId) (recipient : RecipientKey) (attempt_id : NotificationAttemptId)
    (state : NotificationState) (binding : option NotificationBinding)
    (cause : option NotificationAttentionCause) (ts : N)
    : MessageStore * outcome NotificationRecord :=
  append_notification_transition_with_transport_at s env message_id recipient attempt_id state
    binding None None cause ts.

Definition queue_notification (s : MessageStore) (env : Env) (message_id : MessageId)
    (recipient : RecipientKey) (attempt_id : NotificationAttemptId)
    : MessageStore * outcome NotificationRecord :=
  append_notification_transition_at s env message_id recipient attempt_id Queued None None
    (env_now env).

Definition advance_notification (s : MessageStore) (env : Env) (message_id : MessageId)
    (recipient : RecipientKey) (attempt_id : NotificationAttemptId) (state : NotificationState)
    (binding : option NotificationBinding) (cause : option NotificationAttentionCause)
    : MessageStore * outcome NotificationRecord :=
  append_notification_transition_at s env message_id recipient attempt_id state binding cause
    (env_now env).

Definition block_notification_before_write_with_wake_block (s : MessageStore) (env : Env)
    (message_id : MessageId) (recipient : RecipientKey) (attempt_id : NotificationAttemptId)
    (cause : NotificationPreWriteCause) (observation : option NotificationPreWriteObservation)
    (wake_block : option MessageWakeBlock) : MessageStore * outcome NotificationRecord :=
  append_notification_transition_full_at s env
    (MkTransition CANONICAL_RECORD_VERSION attempt_id message_id recipient BlockedPreWrite None None
       None None None None (Some cause) wake_block observation) (env_now env).

Definition block_notification_before_write (s : MessageStore) (env : Env) (message_id : MessageId)
    (recipient : RecipientKey) (attempt_id : NotificationAttemptId)
    (cause : NotificationPreWriteCause) (observation : option NotificationPreWriteObservation)
    : MessageStore * outcome NotificationRecord :=
  block_notification_before_write_with_wake_block s env message_id recipient attempt_id cause
    observation None.

Definition supported_doorbell_format (format : N) : bool :=
  (format =? DOORBELL_FORMAT_COMPACT_CLAIM) || (format =? DOORBELL_FORMAT_ATTEMPT_CLAIM) ||
  (format =? DOORBELL_FORMAT_ATTEMPT_ONLY_CLAIM) || (format =? DOORBELL_FORMAT_SUMMARY_CLAIM).

Definition advance_notification_with_transport (s : MessageStore) (env : Env)
    (message_id : MessageId) (recipient : RecipientKey) (attempt_id : NotificationAttemptId)
    (state : NotificationState) (binding : NotificationBinding) (transport : NotificationTransport)
    (doorbell_format : option N) : MessageStore * outcome NotificationRecord :=
  match doorbell_format with
  | Some format =>
      if supported_doorbell_format format then
        append_notification_transition_with_transport_at s env message_id recipient attempt_id state
          (Some binding) (Some transport) doorbell_format None (env_now env)
      else (s, Failed (StoreMailbox (UnsupportedNotificationDoorbellFormat format)))
  | None =>
      append_notification_transition_with_transport_at s env message_id recipient attempt_id state
        (Some binding) (Some transport) doorbell_format None (env_now env)
  end.

Definition advance_notification_raw_writing (s : MessageStore) (env : Env) (message_id : MessageId)
    (recipient : RecipientKey) (attempt_id : NotificationAttemptId)
    : MessageStore * outcome NotificationRecord :=
  append_notification_transition_with_transport_at s env message_id recipient attempt_id Writing
    None (Some Raw) None None (env_now env).

Definition advance_notification_notified (s : MessageStore) (env : Env) (message_id : MessageId)
    (recipient : RecipientKey) (attempt_id : NotificationAttemptId)
    (verified_by : option VerifiedBy) : MessageStore * outcome NotificationRecord :=
  append_notification_transition_full_at s env
    (MkTransition CANONICAL_RECORD_VERSION attempt_id message_id recipient Notified None None None
       None verified_by None None None None) (env_now env).

Definition advance_notification_mailbox_notified (s : MessageStore) (env : Env)
    (message_id : MessageId) (recipient : RecipientKey) (attempt_id : NotificationAttemptId)
    : MessageStore * outcome NotificationRecord :=
  append_notification_transition_with_transport_at s env message_id recipient attempt_id Notified
    None (Some MailboxOnly) None None (env_now env).

(** ** Requeues, clearances and withdrawals *)
Definition requeue_notification_at (s : MessageStore) (env : Env) (message_id : MessageId)
    (recipient : RecipientKey) (prior_attempt_id attempt_id : NotificationAttemptId) (ts : N)
    : MessageStore * outcome NotificationRecord :=
  append_notification_fact_at s env message_id recipient
    (NotificationRequeued prior_attempt_id
       (MkAttemptRef CANONICAL_RECORD_VERSION attempt_id message_id recipient)) ts.

Fixpoint requeued_records p (message_id : MessageId) (recipients : list RecipientKey)
    : option (list NotificationRecord) :=
  match recipients with
  | [] => Some []
  | r :: rest =>
      record ← notification p r message_id;
      records ← requeued_records p message_id rest;
      Some (record :: records)
  end.
Definition requeue_notifications_at (s : MessageStore) (env : Env) (message_id : MessageId)
    (requeues : list NotificationRequeue) (ts : N)
    : MessageStore * outcome (list NotificationRecord) :=
  let recipients := rq_recipient <$> requeues in
  match notification_fact_to_value
          (NotificationsRequeued CANONICAL_RECORD_VERSION message_id requeues) with
  | Err e => (s, Failed (StoreSerialize e))
  | Ok data =>
      match append_row s env (state_row s env (mid_text message_id) ts CYCLOPSD
                                (recipient_display <$> recipients) data) with
      | (s, Done _) =>
          match requeued_records (st_projection s) message_id recipients with
          | Some records => (s, Done records)
          | None => (s, Panicked)
          end
      | (s, Failed e) => (s, Failed e)
      | (s, Panicked) => (s, Panicked)
      end
  end.
Definition requeue_notifications (s : MessageStore) (env : Env) (message_id : MessageId)
    (requeues : list NotificationRequeue) : MessageStore * outcome (list NotificationRecord) :=
  match requeues with
  | [] => (s, Done [])
  | [rq] =>
      match requeue_notification_at s env message_id (rq_recipient rq) (rq_prior_attempt_id rq)
              (rq_attempt_id rq) (env_now env) with
      | (s, Done record) => (s, Done [record])
      | (s, Failed e) => (s, Failed e)
      | (s, Panicked) => (s, Panicked)
      end
  | _ => requeue_notifications_at s env message_id requeues (env_now env)
  end.

Definition clear_notification_at (s : MessageStore) (env : Env) (message_id : MessageId)
    (recipient : RecipientKey) (attempt_id : NotificationAttemptId) (ts : N)
    : MessageStore * outcome NotificationRecord :=
  let p := st_projection s in
  let append :=
    append_notification_fact_at s env message_id recipient
      (NotificationCleared (MkAttemptRef CANONICAL_RECORD_VERSION attempt_id message_id recipient))
      ts in
  if alarm_cleared p attempt_id then
    match notification p recipient message_id with
    | Some record =>
        if bool_decide (nr_attempt_id record = attempt_id) then (s, Done record) else append
    | None => append
    end
  else append.

Fixpoint attempt_recipients p (attempt_ids : list NotificationAttemptId)
    : result MailboxError (list rstr) :=
  match attempt_ids with
  | [] => Ok []
  | a :: rest =>
      let? record := ok_or (notification_by_attempt p a) (NotificationAttemptUnknown a) in
      let? recipients := attempt_recipients p rest in
      Ok (recipient_display (nr_recipient record) :: recipients)
  end.
(** [batch] is the text of the fresh UUID the batch id is made of. *)
Definition clear_notifications_at (s : MessageStore) (env : Env) (batch : rstr)
    (operator : RecipientKey) (attempt_ids : list NotificationAttemptId) (cutoff_ms : option N)
    (ts : N) : MessageStore * outcome unit :=
  let p := st_projection s in
  if bool_decide (operator ≠ recipient_admin (workspace_id p))
  then (s, Failed (StoreMailbox NotificationClearOperatorInvalid))
  else if bool_decide (attempt_ids = []) then (s, Done ())
  else match attempt_recipients p attempt_ids with
  | Err e => (s, Failed (StoreMailbox e))
  | Ok recipients =>
      let batch_id := str "clear-" ++ batch in
      match notification_fact_to_value
              (NotificationsCleared CANONICAL_RECORD_VERSION batch_id attempt_ids operator cutoff_ms) with
      | Err e => (s, Failed (StoreSerialize e))
      | Ok data =>
          match append_row s env (state_row s env batch_id ts (recipient_display operator)
                                    (btree_set_rstr recipients) data) with
          | (s, Done _) => (s, Done ())
          | (s, Failed e) => (s, Failed e)
          | (s, Panicked) => (s, Panicked)
          end
      end
  end.

Definition withdraw_notification_before_write (s : MessageStore) (env : Env)
    (operator recipient : RecipientKey) (attempt_id : NotificationAttemptId)
    : MessageStore * outcome NotificationRecord :=
  let p := st_projection s in
  if bool_decide (operator ≠ recipient_admin (workspace_id p))
  then (s, Failed (StoreMailbox NotificationWithdrawalOperatorInvalid))
  else match notification_by_attempt p attempt_id with
  | None => (s, Failed (StoreMailbox (NotificationAttemptUnknown attempt_id)))
  | Some current =>
      if bool_decide (nr_recipient current ≠ recipient)
      then (s, Failed (StoreMailbox
             (NotificationWithdrawalRecipientMismatch recipient (nr_recipient current))))
      else if bool_decide (nr_state current = WithdrawnByOperator) ||
              withdrawn_by_claim_before_write current then (s, Done current)
      else if negb (can_withdraw_before_write (nr_state current))
      then (s, Failed (StoreMailbox NotificationWithdrawalRequiresPreWrite))
      else match notification_fact_to_value
              (NotificationWithdrawnBeforeWrite
                 (MkAttemptRef CANONICAL_RECORD_VERSION attempt_id (nr_message_id current) recipient)
                 operator) with
      | Err e => (s, Failed (StoreSerialize e))
      | Ok data =>
          let line := state_row s env (mid_text (nr_message_id current)) 0
                        (recipient_display operator) [recipient_display recipient] data in
          match append_row s env line with
          | (s, Done _) =>
              match notification (st_projection s) recipient (nr_message_id current) with
              | Some record => (s, Done record)
              | None => (s, Panicked)
              end
          | (s, Failed e) => (s, Failed e)
          | (s, Panicked) => (s, Panicked)
          end
      end
  end.

(** ** Restart recovery *)

(** The attempts a restart left between the paste and its outcome. *)
Definition left_ambiguous (st : NotificationState) : bool :=
  match st with
  | Writing | Staged | Submitting | Submitted | SubmittedUnverified => true
  | _ => false
  end.
Definition unresolved_after_restart p : list NotificationRecord :=
  List.filter (λ r, left_ambiguous (nr_state r)) (notification_values p).
Definition claim_is_receipt p (record : NotificationRecord) : bool :=
  (bool_decide (nr_state record = Submitted) || bool_decide (nr_state record = SubmittedUnverified)) &&
  bool_decide (nr_transport record = Doorbell) &&
  match get_entry p (nr_recipient record) (nr_message_id record) with
  | Some e => is_claimed (me_state e)
  | None => false
  end.
(** One recovery fact: a claim after Enter is the receipt, anything else needs
    attention. *)
Definition recover_one (s : MessageStore) (env : Env) (record : NotificationRecord)
    : MessageStore * outcome NotificationRecord :=
  if claim_is_receipt (st_projection s) record then
    advance_notification_notified s env (nr_message_id record) (nr_recipient record)
      (nr_attempt_id record) None
  else
    advance_notification s env (nr_message_id record) (nr_recipient record) (nr_attempt_id record)
      AttentionRequired None (Some DaemonRestart).
(** [env i] is the environment of the [i]-th append. *)
Fixpoint recover_all (s : MessageStore) (env : nat → Env) (i : nat)
    (records : list NotificationRecord) : MessageStore * outcome (list NotificationRecord) :=
  match records with
  | [] => (s, Done [])
  | record :: rest =>
      match recover_one s (env i) record with
      | (s, Done r) =>
          match recover_all s env (S i) rest with
          | (s, Done rs) => (s, Done (r :: rs))
          | (s, Failed e) => (s, Failed e)
          | (s, Panicked) => (s, Panicked)
          end
      | (s, Failed e) => (s, Failed e)
      | (s, Panicked) => (s, Panicked)
      end
  end.
Definition recover_notifications_after_restart (s : MessageStore) (env : nat → Env)
    : MessageStore * outcome (list NotificationRecord) :=
  recover_all s env 0 (unresolved_after_restart (st_projection s)).
End store.
