(* ===== verification/Views.v ===== *)
(** * Read-side views

    What callers see of a workspace, from
    [src/cyclopsd/src/mailbox/projection.rs] with the result types of
    [src/cyclops-proto/src/wire.rs]: mailbox lists, alarms and attention rows,
    the message snapshot, the paged follow, and who may read a message body.
    Counters are [u64] in the code and never reach its width here. *)
From S2P Require Import Prelude Text Identity Ledger Mailbox Notification Facts.
From S2P Require Import Projection Store.
Local Open Scope N_scope.
Local Open Scope rust_scope.

(** ** Result types *)
Inductive MessageDirection := Inbound | Outbound | SelfAddressed | Workspace.
Inductive MessageNotificationState :=
| MNotStarted | MQueued | MGating | MWriting | MStaged | MSubmitted | MSubmittedUnverified
| MNotified | MAttentionRequired | MSuperseded.
#[export] Instance MessageNotificationState_eq_dec : EqDecision MessageNotificationState.
Proof. solve_decision. Defined.
Inductive MessageQuotaState := QuotaStateHeld | QuotaStateResetObserved.
Inductive MessageNotificationSettlement := WithdrawnByClaim.

Definition notification_state_from (s : NotificationState) : MessageNotificationState :=
  match s with
  | Queued => MQueued
  | Gating => MGating
  | BlockedPreWrite => MGating
  | QuotaHeld | QuotaResetObserved => MAttentionRequired
  | Writing => MWriting
  | Staged => MStaged
  | Submitting => MStaged
  | Submitted => MSubmitted
  | SubmittedUnverified => MSubmittedUnverified
  | Notified => MNotified
  | AttentionRequired => MAttentionRequired
  | Withdrawn => MNotStarted
  | WithdrawnByOperator => MNotStarted
  | WithdrawnAfterStaging => MStaged
  | Superseded => MSuperseded
  end.
Definition quota_state_from (s : NotificationState) : option MessageQuotaState :=
  match s with
  | QuotaHeld => Some QuotaStateHeld
  | QuotaResetObserved => Some QuotaStateResetObserved
  | _ => None
  end.
Definition settlement_from (s : NotificationState) : option MessageNotificationSettlement :=
  match s with Withdrawn | WithdrawnAfterStaging => Some WithdrawnByClaim | _ => None end.

Record MessageNotificationSummary := MkSummary {
  ms_state : MessageNotificationState;
  ms_wake_block : option MessageWakeBlock;
  ms_quota_state : option MessageQuotaState;
  ms_settlement : option MessageNotificationSettlement;
  ms_operator_withdrawn : option bool;
  ms_attempt_id : option NotificationAttemptId;
  ms_cause : option NotificationAttentionCause;
  ms_verified_by : option VerifiedBy;
  ms_verify_outcome : option NotificationVerifyOutcome;
  ms_pre_write_cause : option NotificationPreWriteCause;
  ms_pre_write_pane_width : option N;
  ms_pre_write_required_pane_width : option N;
  ms_pre_write_block : option rstr;
  ms_attention_cleared : option bool;
  ms_resolution : option NotificationResolution;
  ms_resolution_intent : option NotificationResolution;
  ms_resolution_action_accepted : option NotificationResolution;
  ms_resolution_consumption_observed : option NotificationResolutionConsumptionObservation;
  ms_updated_at : option N;
}.
Record MessageRecipientRoute := MkRoute { rt_label : rstr; rt_pane_id : option TmuxPaneId }.
Record MessageRecipientSummary := MkRecipientSummary {
  rs_recipient : RecipientKey;
  rs_label : rstr;
  rs_direction : MessageDirection;
  rs_needs_action : bool;
  rs_can_manage_attention : bool;
  rs_can_withdraw_notification : bool;
  rs_current_route : option MessageRecipientRoute;
  rs_available : bool;
  rs_mailbox : MailboxEntryState;
  rs_fifo_position : option N;
  rs_notification : MessageNotificationSummary;
}.
Record MessageSnapshotRow := MkSnapshotRow {
  sr_message_id : MessageId;
  sr_seq : N;
  sr_ts : N;
  sr_kind : Kind;
  sr_direction : MessageDirection;
  sr_sender : RecipientKey;
  sr_sender_label : rstr;
  sr_recipients : list MessageRecipientSummary;
  sr_subject : option rstr;
  sr_reply_to : option MessageId;
  sr_thread_root : MessageId;
  sr_thread_message_count : N;
  sr_active : bool;
  sr_needs_action : bool;
}.
Record MessagesSnapshotCounts := MkCounts {
  ct_visible_messages : N;
  ct_returned_messages : N;
  ct_inbox_messages : N;
  ct_outbound_messages : N;
  ct_work_messages : N;
  ct_active_messages : N;
  ct_settled_messages : N;
  ct_pending_entries : N;
  ct_claimed_entries : N;
  ct_open_attention_entries : N;
}.
Record OpenDelivery := MkOpenDelivery {
  od_id : rstr;
  od_to : rstr;
  od_recipient : option RecipientKey;
  od_state : DeliveryState;
  od_ts : N;
  od_cause : option rstr;
  od_attempt_id : option NotificationAttemptId;
}.
Record MessagesSnapshotResult := MkSnapshot {
  sn_workspace_id : WorkspaceId;
  sn_caller : option RecipientKey;
  sn_workspace_seq : N;
  sn_counts : MessagesSnapshotCounts;
  sn_rows : list MessageSnapshotRow;
  sn_mailbox_attention : list OpenDelivery;
}.
Record MessagesFollowResult := MkFollow {
  fl_workspace_id : WorkspaceId;
  fl_after_seq : N;
  fl_through_seq : N;
  fl_has_more : bool;
  fl_rows : list MessageSnapshotRow;
}.
Record MailboxListItem := MkListItem {
  li_entry : MailboxEntry;
  li_kind : Kind;
  li_sender : RecipientKey;
  li_sender_label : rstr;
  li_recipient_label : rstr;
  li_subject : option rstr;
  li_reply_to : option MessageId;
  li_thread_root : MessageId;
}.
Abbreviation Routes := (gmap RecipientKey MessageRecipientRoute) (only parsing).

(** The [serde] names of the attention causes. *)
Definition attention_cause_name (c : NotificationAttentionCause) : rstr :=
  match c with
  | PasteFailed => str "paste_failed"
  | VerifyFailed => str "verify_failed"
  | PaneReboundAfterPaste => str "pane_rebound_after_paste"
  | SubmitFailed => str "submit_failed"
  | ReceiptOccupantChanged => str "receipt_occupant_changed"
  | AckTimeout => str "ack_timeout"
  | DaemonRestart => str "daemon_restart"
  | TransportOutcomeUnknown => str "transport_outcome_unknown"
  end.
Definition wake_block_name (b : MessageWakeBlock) : rstr :=
  match b with
  | DaemonStopping => str "daemon_stopping"
  | RouteUnavailable => str "route_unavailable"
  | AttentionResolutionPending => str "attention_resolution_pending"
  | WorkerFaulted => str "worker_faulted"
  | WorkerSupervisorExited => str "worker_supervisor_exited"
  | EnqueueRefused => str "enqueue_refused"
  | WakeComposerOwnershipUnproven => str "composer_ownership_unproven"
  | SchedulerStateUnavailable => str "scheduler_state_unavailable"
  end.
Definition delivery_pre_write_cause (reason : rstr) : rstr := str "blocked_pre_write:" ++ reason.
Definition delivery_pre_write_reason (cause : rstr) : option rstr :=
  reason ← strip_prefix (str "blocked_pre_write:") cause;
  if bool_decide (reason = []) then None else Some reason.

Section views.
Context {V : Type} {serde : Serde V} {uuids : Uuids}.
Implicit Types (p : MailboxProjection V) (line : LedgerLine V) (r : NotificationRecord).

(** ** Records *)

(** [sort_by_key(|record| record.started_seq)]. *)
Definition started_le (a b : NotificationRecord) : Prop := nr_started_seq a ≤ nr_started_seq b.
#[local] Instance started_le_dec : RelDecision started_le.
Proof. intros a b. unfold started_le. apply _. Defined.
(** The order of alarms: by time, then by the text of the attempt id. *)
Definition alarm_le (a b : NotificationRecord) : Prop :=
  nr_updated_at a < nr_updated_at b ∨
  (nr_updated_at a = nr_updated_at b ∧
   rstr_le (attempt_display (nr_attempt_id a)) (attempt_display (nr_attempt_id b))).
#[local] Instance alarm_le_dec : RelDecision alarm_le.
Proof. intros a b. unfold alarm_le. apply _. Defined.

Definition is_open_alarm p r : bool :=
  bool_decide (nr_state r = AttentionRequired) &&
  bool_decide (resolved_attempts p !! nr_attempt_id r = None) &&
  negb (bool_decide (nr_attempt_id r ∈ cleared_attempts p)).
Definition open_alarms p : list NotificationRecord :=
  merge_sort alarm_le (List.filter (is_open_alarm p) (notification_values p)).
Definition open_alarms_for_message p (message_id : MessageId) : list NotificationRecord :=
  List.filter (λ r, bool_decide (nr_message_id r = message_id)) (open_alarms p).
Definition gating_notifications p : list NotificationRecord :=
  merge_sort started_le
    (List.filter (λ r, bool_decide (nr_state r = Gating)) (notification_values p)).
Definition barrier_records p : list NotificationRecord :=
  merge_sort started_le (map_to_list (active_notification_barriers p)).*2.
Definition notifications_for p (recipient : RecipientKey) : list NotificationRecord :=
  merge_sort started_le
    (List.filter (λ r, bool_decide (nr_recipient r = recipient)) (notification_values p)).
Definition requeueable_for_message p (message_id : MessageId) : list NotificationRecord :=
  merge_sort started_le
    (List.filter (λ r,
       bool_decide (nr_message_id r = message_id) &&
       (bool_decide (nr_state r = QuotaResetObserved) ||
        (bool_decide (nr_state r = AttentionRequired) &&
         negb (bool_decide (nr_attempt_id r ∈ cleared_attempts p)))) &&
       bool_decide (resolved_attempts p !! nr_attempt_id r = None)) (notification_values p)).

Definition attention_resolved p (a : NotificationAttemptId) : bool :=
  bool_decide (is_Some (resolved_attempts p !! a)).
Definition attention_resolution_intent p (a : NotificationAttemptId)
    : option NotificationResolution :=
  if attention_resolution_pending p a then resolution_intents p !! a else None.

Definition no_summary : MessageNotificationSummary :=
  MkSummary MNotStarted None None None None None None None None None None None None None None None
    None None None.
Definition notification_summary p (record : option NotificationRecord)
    : MessageNotificationSummary :=
  match record with
  | None => no_summary
  | Some r =>
      let a := nr_attempt_id r in
      let attention_cleared :=
        if bool_decide (nr_state r = AttentionRequired) then Some (alarm_cleared p a) else None in
      let resolution := resolved_attempts p !! a in
      let unresolved {A} (o : option A) : option A :=
        match resolution with None => o | Some _ => None end in
      let consumption :=
        o ← resolution_consumptions p !! a;
        if proves_exact_consumption (co_evidence o) then Some o else None in
      let width_block := notification_pre_write_width_block r in
      MkSummary (notification_state_from (nr_state r))
        (match nr_wake_block r with
         | Some b => Some b
         | None => if attention_resolution_pending p a then Some AttentionResolutionPending else None
         end)
        (quota_state_from (nr_state r)) (settlement_from (nr_state r))
        (if bool_decide (nr_state r = WithdrawnByOperator) then Some true else None)
        (Some a) (nr_cause r) (nr_verified_by r) (nr_verify_outcome r) (nr_pre_write_cause r)
        (fst <$> width_block) (snd <$> width_block)
        (o ← nr_pre_write_observation r; po_write_block o)
        attention_cleared resolution (unresolved (resolution_intents p !! a))
        (unresolved (resolution_actions_accepted p !! a)) (unresolved consumption)
        (Some (nr_updated_at r))
  end.

(** ** Attention rows *)
Definition attention_state_cause r : DeliveryState * option rstr :=
  match nr_state r with
  | QuotaHeld => (DParkedBlockedQuota, Some (str "quota_held"))
  | QuotaResetObserved => (DParkedBlockedQuota, Some (str "quota_reset_observed"))
  | BlockedPreWrite =>
      let why :=
        match o ← nr_pre_write_observation r; po_write_block o with
        | Some block => block
        | None =>
            match pre_write_wire_name <$> nr_pre_write_cause r with
            | Some name => name
            | None => default (str "unknown") (wake_block_name <$> nr_wake_block r)
            end
        end in
      (DAttentionRequired, Some (delivery_pre_write_cause why))
  | _ =>
      (DAttentionRequired,
       match attention_cause_name <$> nr_cause r with
       | Some name => Some name
       | None => wake_block_name <$> nr_wake_block r
       end)
  end.
Definition attention_row (labels : gmap RecipientKey rstr) r : OpenDelivery :=
  let '(state, cause) := attention_state_cause r in
  MkOpenDelivery (mid_text (nr_message_id r))
    (default (recipient_display (nr_recipient r)) (labels !! nr_recipient r))
    (Some (nr_recipient r)) state (nr_updated_at r) cause (Some (nr_attempt_id r)).

(** The rows so far, with the recipients' messages and the attempts seen. *)
Record AttentionRows := MkAttentionRows {
  atr_seen : gset (RecipientKey * MessageId);
  atr_attempts : gset NotificationAttemptId;
  atr_records : list NotificationRecord;
}.
Definition push_attention (acc : AttentionRows) r : AttentionRows :=
  if bool_decide (nr_attempt_id r ∈ atr_attempts acc) then acc
  else
    let attempts := {[nr_attempt_id r]} ∪ atr_attempts acc in
    let key := (nr_recipient r, nr_message_id r) in
    if bool_decide (key ∈ atr_seen acc)
    then MkAttentionRows (atr_seen acc) attempts (atr_records acc)
    else MkAttentionRows ({[key]} ∪ atr_seen acc) attempts (atr_records acc ++ [r]).
(** The held head of one recipient's pending queue. *)
Definition held_head p (recipient : RecipientKey) : option NotificationRecord :=
  entry ← head (get_pending p recipient);
  r ← notifications p !! (recipient, me_message_id entry);
  if bool_decide (is_Some (resolved_attempts p !! nr_attempt_id r)) then None
  else match nr_state r with
       | AttentionRequired | QuotaHeld | QuotaResetObserved | BlockedPreWrite => Some r
       | _ => None
       end.
(** [recipients] is the order in which the map of mailboxes is visited. *)
Definition attention_records p (recipients : list RecipientKey) : list NotificationRecord :=
  atr_records (foldl push_attention
    (foldl push_attention (MkAttentionRows ∅ ∅ []) (open_alarms p))
    (omap (held_head p) recipients)).
Definition mailbox_attention_rows p (recipients : list RecipientKey)
    (labels : gmap RecipientKey rstr) : list OpenDelivery :=
  attention_row labels <$> attention_records p recipients.

(** ** Mailbox lists *)
Fixpoint position_of (recipient : RecipientKey) (l : list RecipientKey) : option nat :=
  match l with
  | [] => None
  | k :: rest => if bool_decide (k = recipient) then Some 0%nat else S <$> position_of recipient rest
  end.
(** An indexing the code cannot get wrong: there is one label per recipient. *)
Definition label_at (labels : list rstr) (index : nat) : rstr := default [] (labels !! index).

Definition list_item p (recipient : RecipientKey) (entry : MailboxEntry)
    : result MailboxError MailboxListItem :=
  let? message := ok_or (messages p !! me_message_id entry) (MessageNotFound (me_message_id entry)) in
  let? metadata := extract_message_metadata message in
  let? '(sender_label, recipient_labels) :=
    presentation_labels (md_recipients metadata) (md_presentation metadata) in
  let? recipient_index := ok_or (position_of recipient (md_recipients metadata))
                            (EntryNotFound (me_message_id entry) recipient) in
  let? reply_to := type_error (transpose_map message_id_new (ll_reply_to message)) in
  Ok (MkListItem entry (ll_kind message) (md_sender metadata) sender_label
        (label_at recipient_labels recipient_index) (ll_subject message) reply_to
        (md_thread_root metadata)).
(** [collect] into a [Result]: the first error wins. *)
Fixpoint try_map {A B} (f : A → result MailboxError B) (l : list A) : result MailboxError (list B) :=
  match l with
  | [] => Ok []
  | a :: rest => let? b := f a in let? bs := try_map f rest in Ok (b :: bs)
  end.
Definition list_mailbox p (recipient : RecipientKey) : result MailboxError (list MailboxListItem) :=
  try_map (list_item p recipient) (get_pending p recipient).

(** ** The snapshot *)

(** One-based positions among the pending entries still due a notification. *)
Fixpoint fifo_walk p (recipient : RecipientKey) (entries : list MailboxEntry) (position : N)
    (m : gmap (RecipientKey * MessageId) N) : gmap (RecipientKey * MessageId) N :=
  match entries with
  | [] => m
  | entry :: rest =>
      if is_pending (me_state entry) &&
         negb (notification_withdrawn_by_operator p recipient (me_message_id entry))
      then fifo_walk p recipient rest (position + 1)
             (<[(recipient, me_message_id entry) := position + 1]> m)
      else fifo_walk p recipient rest position m
  end.
Definition fifo_positions p : gmap (RecipientKey * MessageId) N :=
  foldl (λ m '(recipient, entries), fifo_walk p recipient (btree_values entries) 0 m) ∅
    (map_to_list (mailboxes p)).

Definition visible_to (caller : RecipientKey) (metadata : MessageMetadata) : bool :=
  is_admin caller || bool_decide (md_sender metadata = caller) ||
  bool_decide (caller ∈ md_recipients metadata).
Definition line_seq_le (a b : LedgerLine V * MessageMetadata) : Prop := ll_seq a.1 ≤ ll_seq b.1.
#[local] Instance line_seq_le_dec : RelDecision line_seq_le.
Proof. intros a b. unfold line_seq_le. apply _. Defined.
Definition visible_messages p (caller : RecipientKey)
    : result MailboxError (list (LedgerLine V * MessageMetadata)) :=
  let? rows := try_map (λ line, let? metadata := extract_message_metadata line in
                                Ok (line, metadata)) (map_to_list (messages p)).*2 in
  Ok (merge_sort line_seq_le (List.filter (λ row, visible_to caller row.2) rows)).
Definition thread_counts (visible : list (LedgerLine V * MessageMetadata)) : gmap MessageId N :=
  foldl (λ m row, partial_alter (λ n, Some (default 0 n + 1)) (md_thread_root row.2) m) ∅ visible.

Definition direction_of (sent received : bool) : MessageDirection :=
  match sent, received with
  | true, true => SelfAddressed
  | true, false => Outbound
  | false, true => Inbound
  | false, false => Workspace
  end.

Record Tally := MkTally {
  tl_pending : N;
  tl_claimed : N;
  tl_attention : N;
  tl_inbox : N;
  tl_outbound : N;
  tl_work : N;
}.
Definition b2n (b : bool) : N := if b then 1 else 0.
Definition tally_entry (t : Tally) (pending claimed attention : bool) : Tally :=
  MkTally (tl_pending t + b2n pending) (tl_claimed t + b2n claimed)
    (tl_attention t + b2n attention) (tl_inbox t) (tl_outbound t) (tl_work t).
Definition tally_message (t : Tally) (inbox outbound work : bool) : Tally :=
  MkTally (tl_pending t) (tl_claimed t) (tl_attention t) (tl_inbox t + b2n inbox)
    (tl_outbound t + b2n outbound) (tl_work t + b2n work).

Definition attention_open (n : MessageNotificationSummary) : bool :=
  bool_decide (ms_attention_cleared n = Some false) && bool_decide (ms_resolution n = None).
(** One recipient's summary for the caller. *)
Definition recipient_summary p (caller : RecipientKey) (routes : Routes)
    (positions : gmap (RecipientKey * MessageId) N) (metadata : MessageMetadata)
    (message_id : MessageId) (label : rstr) (recipient : RecipientKey) (entry : MailboxEntry)
    : MessageRecipientSummary :=
  let record := notification p recipient message_id in
  let n := notification_summary p record in
  let recipient_attention_open :=
    bool_decide (ms_state n = MAttentionRequired) && attention_open n in
  let can_manage_attention :=
    is_admin caller && recipient_attention_open && bool_decide (ms_resolution_intent n = None) in
  let recipient_quota_open := bool_decide (is_Some (ms_quota_state n)) in
  let recipient_pre_write_blocked :=
    bool_decide (is_Some (ms_pre_write_cause n)) &&
    bool_decide (ms_operator_withdrawn n ≠ Some true) in
  let can_withdraw_notification :=
    is_admin caller && is_pending (me_state entry) &&
    match record with Some r => can_withdraw_before_write (nr_state r) | None => false end in
  let needs_action :=
    (bool_decide (recipient = caller) && is_pending (me_state entry)) ||
    (is_admin caller &&
     (recipient_attention_open || recipient_quota_open || recipient_pre_write_blocked)) in
  MkRecipientSummary recipient label
    (direction_of (bool_decide (md_sender metadata = caller)) (bool_decide (recipient = caller)))
    needs_action can_manage_attention can_withdraw_notification (routes !! recipient)
    (is_admin recipient || bool_decide (is_Some (routes !! recipient)))
    (me_state entry) (positions !! (recipient, message_id)) n.

(** Quota holds and uncleared alarms count as open attention. *)
Definition entry_attention p (record : option NotificationRecord) : bool :=
  match record with
  | Some r =>
      attention_open (notification_summary p record) ||
      match nr_state r with QuotaHeld | QuotaResetObserved => true | _ => false end
  | None => false
  end.
Definition entry_active p (entry : MailboxEntry) (record : option NotificationRecord) : bool :=
  is_pending (me_state entry) || entry_attention p record ||
  match record with Some r => negb (is_terminal (nr_state r)) | None => false end.

Fixpoint snapshot_recipients p (caller : RecipientKey) (routes : Routes)
    (positions : gmap (RecipientKey * MessageId) N) (metadata : MessageMetadata)
    (message_id : MessageId) (labels : list rstr) (index : nat) (recipients : list RecipientKey)
    (tally : Tally) (active caller_pending : bool)
    : result MailboxError (Tally * bool * bool * list MessageRecipientSummary) :=
  match recipients with
  | [] => Ok (tally, active, caller_pending, [])
  | recipient :: rest =>
      let? entry := ok_or (get_entry p recipient message_id) (EntryNotFound message_id recipient) in
      let pending := is_pending (me_state entry) in
      let record := notification p recipient message_id in
      let tally := tally_entry tally pending (negb pending && is_claimed (me_state entry))
                     (entry_attention p record) in
      let? '(tally, active, caller_pending, summaries) :=
        snapshot_recipients p caller routes positions metadata message_id labels (S index) rest tally
          (active || entry_active p entry record)
          (caller_pending || (pending && bool_decide (recipient = caller))) in
      Ok (tally, active, caller_pending,
          recipient_summary p caller routes positions metadata message_id (label_at labels index)
            recipient entry :: summaries)
  end.

Definition snapshot_row p (caller : RecipientKey) (routes : Routes)
    (positions : gmap (RecipientKey * MessageId) N) (threads : gmap MessageId N) line
    (metadata : MessageMetadata) (tally : Tally) : result MailboxError (Tally * MessageSnapshotRow) :=
  let? message_id := type_error (message_id_new (ll_id line)) in
  let? '(_, recipient_labels) :=
    presentation_labels (md_recipients metadata) (md_presentation metadata) in
  let? '(tally, active, caller_pending, recipients) :=
    snapshot_recipients p caller routes positions metadata message_id recipient_labels 0
      (md_recipients metadata) tally false false in
  let sent := bool_decide (md_sender metadata = caller) in
  let received := bool_decide (caller ∈ md_recipients metadata) in
  let row_has_admin_work :=
    existsb (λ r : MessageRecipientSummary, rs_can_manage_attention r ||
                  bool_decide (is_Some (ms_pre_write_cause (rs_notification r)))) recipients in
  let needs_action := caller_pending || (is_admin caller && row_has_admin_work) in
  let tally := tally_message tally received sent needs_action in
  let? reply_to := type_error (transpose_map message_id_new (ll_reply_to line)) in
  Ok (tally,
      MkSnapshotRow message_id (ll_seq line) (ll_ts line) (ll_kind line) (direction_of sent received)
        (md_sender metadata) (mp_sender_label (md_presentation metadata)) recipients (ll_subject line)
        reply_to (md_thread_root metadata) (default 0 (threads !! md_thread_root metadata)) active
        needs_action).

Fixpoint snapshot_rows p (caller : RecipientKey) (routes : Routes)
    (positions : gmap (RecipientKey * MessageId) N) (threads : gmap MessageId N)
    (visible : list (LedgerLine V * MessageMetadata)) (tally : Tally)
    : result MailboxError (Tally * list MessageSnapshotRow) :=
  match visible with
  | [] => Ok (tally, [])
  | (line, metadata) :: rest =>
      let? '(tally, row) := snapshot_row p caller routes positions threads line metadata tally in
      let? '(tally, rows) := snapshot_rows p caller routes positions threads rest tally in
      Ok (tally, row :: rows)
  end.

(** Active rows all stay; of the settled ones, those after the first [skip]. *)
Fixpoint trim_settled (skip seen : N) (rows : list MessageSnapshotRow) : list MessageSnapshotRow :=
  match rows with
  | [] => []
  | row :: rest =>
      if sr_active row then row :: trim_settled skip seen rest
      else if skip <=? seen then row :: trim_settled skip (seen + 1) rest
      else trim_settled skip (seen + 1) rest
  end.

Definition messages_snapshot p (caller : RecipientKey) (recent_settled : N) (routes : Routes)
    : result MailboxError MessagesSnapshotResult :=
  let? _ := check_workspace p (rk_workspace_id caller) in
  let positions := fifo_positions p in
  let? visible := visible_messages p caller in
  let threads := thread_counts visible in
  let? '(tally, projected) :=
    snapshot_rows p caller routes positions threads visible (MkTally 0 0 0 0 0 0) in
  let active_messages := N.of_nat (length (List.filter sr_active projected)) in
  let settled_messages := N.of_nat (length projected) - active_messages in
  let rows := trim_settled (settled_messages - recent_settled) 0 projected in
  let counts :=
    MkCounts (active_messages + settled_messages) (N.of_nat (length rows)) (tl_inbox tally)
      (tl_outbound tally) (tl_work tally) active_messages settled_messages (tl_pending tally)
      (tl_claimed tally) (tl_attention tally) in
  Ok (MkSnapshot (workspace_id p) (Some caller) (default 0 (last_workspace_seq p)) counts rows
        (mailbox_attention_rows p (map_to_list (mailboxes p)).*1 (rt_label <$> routes))).

Definition messages_follow p (caller : RecipientKey) (after_seq limit : N) (routes : Routes)
    : result MailboxError MessagesFollowResult :=
  let? snapshot := messages_snapshot p caller u64_max routes in
  bail (InvalidCursor after_seq (sn_workspace_seq snapshot)) when
    sn_workspace_seq snapshot <? after_seq ;;
  let rows := take (N.to_nat limit + 1)
                (List.filter (λ row, after_seq <? sr_seq row) (sn_rows snapshot)) in
  let has_more := bool_decide (N.to_nat limit < length rows)%nat in
  let rows := if has_more then take (length rows - 1) rows else rows in
  let through_seq :=
    if has_more then match last rows with Some row => sr_seq row | None => after_seq end
    else sn_workspace_seq snapshot in
  Ok (MkFollow (workspace_id p) after_seq through_seq has_more rows).

(** ** Bodies *)
Definition same_canonical_content (line message : LedgerLine V) : bool :=
  bool_decide (ll_kind line = ll_kind message) && bool_decide (ll_from line = ll_from message) &&
  bool_decide (ll_to line = ll_to message) && bool_decide (ll_subject line = ll_subject message) &&
  bool_decide (ll_body line = ll_body message) &&
  bool_decide (ll_reply_to line = ll_reply_to message) && bool_decide (ll_seq line = ll_seq message) &&
  bool_decide (ll_ts line = ll_ts message) && bool_decide (ll_boot_id line = ll_boot_id message).
Definition projection_allows_message_body p (reader : RecipientKey) line : bool :=
  match ll_kind line with
  | KMsg | KFyi =>
      match message_id ← result_ok (message_id_new (ll_id line));
            message ← get_message p message_id;
            if same_canonical_content line message
            then metadata ← result_ok (extract_message_metadata message); Some (message_id, metadata)
            else None with
      | Some (message_id, metadata) =>
          bool_decide (md_sender metadata = reader) ||
          match get_entry p reader message_id with
          | Some entry =>
              match me_state entry with
              | Claimed claimant _ => bool_decide (claimant = reader)
              | DeliveredDirect _ _ => true
              | Pending | EntrySuperseded _ _ => false
              end
          | None => false
          end
      | None => false
      end
  | _ => false
  end.
End views.
