(* ===== verification/ViewProps.v ===== *)
(** * Properties of the read side

    The snapshot and the mailbox list never fail on a state a journal can
    produce; the pages of a follow cover every visible message once; FIFO
    positions agree with the queue; attention rows are unique and unresolved;
    and a body is readable only by its sender or a recipient that received it. *)
From S2P Require Import Prelude Text Identity Ledger Mailbox Notification Facts.
From S2P Require Import Projection Attempt Prepared MailboxInv NotificationInv Invariant Replay.
From S2P Require Import Entries Guarantees Store Views.
Local Open Scope N_scope.

Section view_props.
Context {V : Type} {serde : Serde V} {uuids : Uuids} {digests : Digests}.
Implicit Types (p : MailboxProjection V) (line : LedgerLine V) (r : RecipientKey)
  (n : NotificationRecord).

(** ** Collecting results *)
Lemma try_map_total {A B} (f : A → result MailboxError B) l :
  (∀ a, a ∈ l → ∃ b, f a = Ok b) → ∃ bs, try_map f l = Ok bs ∧ Forall2 (λ a b, f a = Ok b) l bs.
Proof.
  induction l as [|a l IH]; intros H; [by exists []|]. cbn [try_map].
  destruct (H a) as [b Hb]; [by left|]. destruct IH as (bs & -> & Hbs); [intros x Hx; apply H; by right|].
  rewrite Hb. exists (b :: bs). split; [done|by constructor].
Qed.
Lemma try_map_Forall2 {A B} (f : A → result MailboxError B) l bs :
  try_map f l = Ok bs → Forall2 (λ a b, f a = Ok b) l bs.
Proof.
  revert bs. induction l as [|a l IH]; intros bs H; cbn [try_map] in H.
  - by injection H as <-.
  - destruct (f a) eqn:Ha; [|done]. destruct (try_map f l); [|done]. injection H as <-.
    constructor; [done|by apply IH].
Qed.

Lemma position_of_elem k l : k ∈ l → ∃ i, position_of k l = Some i ∧ l !! i = Some k.
Proof.
  induction l as [|x l IH]; intros H; [by apply not_elem_of_nil in H|]. cbn.
  case_bool_decide as E; [subst; by exists 0%nat|].
  apply elem_of_cons in H as [-> |H]; [done|]. destruct (IH H) as (i & -> & Hi). by exists (S i).
Qed.

(** Every stored row decodes, and its ids and labels are valid. *)
Lemma stored_values p line :
  wf p → line ∈ (map_to_list (messages p)).*2 →
  ∃ id md, messages p !! id = Some line ∧ extract_message_metadata line = Ok md ∧ stored_ok p id line md.
Proof.
  intros Hwf ([id l] & -> & Hin)%list_elem_of_fmap. apply elem_of_map_to_list in Hin.
  destruct (mw_message _ (wf_mailbox _ Hwf) _ _ Hin) as (md & Hmd & Hso). by exists id, md.
Qed.

(** ** Lists of one mailbox *)

(** Listing a mailbox never fails on a state a journal can produce, and
    lists exactly the pending entries in FIFO order, with the label the sender
    gave this recipient. *)
Theorem list_mailbox_total p recipient :
  reachable p →
  ∃ items, list_mailbox p recipient = Ok items ∧ li_entry <$> items = get_pending p recipient ∧
    Forall (λ i, ∃ line md index, stored_message p (me_message_id (li_entry i)) line md ∧
      md_recipients md !! index = Some recipient ∧ li_recipient_label i = label_at (ll_to line) index ∧
      li_thread_root i = md_thread_root md) items.
Proof.
  intros Hr. pose proof (reachable_wf _ Hr) as Hwf.
  assert (∀ e, e ∈ get_pending p recipient → ∃ i, list_item p recipient e = Ok i ∧ li_entry i = e ∧
    ∃ line md index, stored_message p (me_message_id e) line md ∧
      md_recipients md !! index = Some recipient ∧ li_recipient_label i = label_at (ll_to line) index ∧
      li_thread_root i = md_thread_root md) as Hone.
  { intros e He. apply elem_of_get_pending in He as [_ [s Hat]].
    destruct (mw_entry _ (wf_mailbox _ Hwf) _ _ _ Hat) as (_ & _ & _ & line & md & [Hl Hmd] & Hin & _).
    destruct (mw_message _ (wf_mailbox _ Hwf) _ _ Hl) as (md' & E & Hso). rewrite Hmd in E. injection E as <-.
    destruct (position_of_elem _ _ Hin) as (index & Hpos & Hidx).
    destruct (so_reply _ _ _ _ Hso) as [reply Hreply].
    unfold list_item. rewrite Hl. cbn [ok_or]. rewrite Hmd, (so_labels _ _ _ _ Hso), Hpos. cbn [ok_or].
    rewrite Hreply. cbn. eexists. split_and!; [done..|]. by exists line, md, index. }
  destruct (try_map_total (list_item p recipient) (get_pending p recipient)) as (items & Hok & Hall).
  { intros e He. destruct (Hone e He) as (i & Hi & _). by exists i. }
  exists items. split; [exact Hok|]. clear Hok. revert Hone.
  induction Hall as [|e i es items Hi _ IH]; intros Hone; [by split|].
  destruct (Hone e) as (i' & Hi' & He & Hx); [by left|]. rewrite Hi in Hi'. injection Hi' as <-.
  destruct IH as [IH1 IH2]; [intros e' He'; apply Hone; by right|].
  split; [by cbn; rewrite He, IH1|]. constructor; [by rewrite He|done].
Qed.

(** ** The snapshot *)

(** One row per visible message, in the order given. *)
Definition row_of (row : MessageSnapshotRow) (lm : LedgerLine V * MessageMetadata) : Prop :=
  message_id_new (ll_id lm.1) = Ok (sr_message_id row) ∧ sr_seq row = ll_seq lm.1 ∧
  sr_sender row = md_sender lm.2 ∧ rs_recipient <$> sr_recipients row = md_recipients lm.2 ∧
  sr_thread_root row = md_thread_root lm.2.

Lemma snapshot_recipients_total p caller routes positions md id labels index recipients tally active cp :
  (∀ r, r ∈ recipients → is_Some (get_entry p r id)) →
  ∃ tally' active' cp' rows,
    snapshot_recipients p caller routes positions md id labels index recipients tally active cp
      = Ok (tally', active', cp', rows) ∧ rs_recipient <$> rows = recipients.
Proof.
  revert index tally active cp. induction recipients as [|r rs IH]; intros index tally active cp H.
  - by eexists _, _, _, [].
  - cbn [snapshot_recipients]. destruct (H r) as [e ->]; [by left|]. cbn [ok_or].
    match goal with |- context [snapshot_recipients _ _ _ _ _ _ _ _ _ ?t ?a ?c] =>
      destruct (IH (S index) t a c) as (t' & a' & c' & rows & -> & E) end.
    { intros x Hx. apply H. by right. }
    eexists _, _, _, _. split; [reflexivity|]. cbn. by rewrite E.
Qed.

Lemma snapshot_row_total p caller routes positions threads id line md tally :
  wf p → messages p !! id = Some line → extract_message_metadata line = Ok md → stored_ok p id line md →
  ∃ tally' row, snapshot_row p caller routes positions threads line md tally = Ok (tally', row) ∧
    row_of row (line, md).
Proof.
  intros Hwf Hl Hmd Hso. unfold snapshot_row.
  rewrite (so_valid _ _ _ _ Hso), (so_labels _ _ _ _ Hso). cbn [type_error result_map_err].
  destruct (snapshot_recipients_total p caller routes positions md id (ll_to line) 0
    (md_recipients md) tally false false) as (t & a & c & rows & -> & E).
  { intros r Hr. destruct (so_indexed _ _ _ _ Hso r Hr) as [_ Hi].
    rewrite get_entry_at, Hi. cbn.
    destruct (mw_index _ (wf_mailbox _ Hwf) _ _ _ Hi) as (e & -> & _). by eauto. }
  destruct (so_reply _ _ _ _ Hso) as [reply ->].
  eexists _, _. split; [reflexivity|]. split_and!; cbn; try done. apply Hso.
Qed.

Lemma snapshot_rows_total p caller routes positions threads visible tally :
  wf p →
  (∀ lm, lm ∈ visible → ∃ id, messages p !! id = Some lm.1 ∧
     extract_message_metadata lm.1 = Ok lm.2 ∧ stored_ok p id lm.1 lm.2) →
  ∃ tally' rows, snapshot_rows p caller routes positions threads visible tally = Ok (tally', rows) ∧
    Forall2 (row_of) rows visible.
Proof.
  intros Hwf. revert tally. induction visible as [|[line md] visible IH]; intros tally H.
  - by eexists _, [].
  - cbn [snapshot_rows]. destruct (H (line, md)) as (id & Hl & Hmd & Hso); [by left|].
    destruct (snapshot_row_total p caller routes positions threads id line md tally Hwf Hl Hmd Hso)
      as (t & row & -> & Hrow).
    destruct (IH t) as (t' & rows & -> & Hrows); [intros lm Hlm; apply H; by right|].
    eexists _, _. split; [reflexivity|by constructor].
Qed.

(** The visible messages: all stored, visible, sorted, complete. *)
Record visible_ok p (caller : RecipientKey) (visible : list (LedgerLine V * MessageMetadata)) : Prop := {
  vo_stored : ∀ lm, lm ∈ visible → ∃ id, messages p !! id = Some lm.1 ∧
    extract_message_metadata lm.1 = Ok lm.2 ∧ stored_ok p id lm.1 lm.2;
  vo_visible : ∀ lm, lm ∈ visible → visible_to caller lm.2 = true;
  vo_complete : ∀ id line md, messages p !! id = Some line → extract_message_metadata line = Ok md →
    visible_to caller md = true → (line, md) ∈ visible;
  vo_sorted : StronglySorted (λ a b, ll_seq a.1 < ll_seq b.1) visible;
}.

Lemma NoDup_fmap_filter {A B} (f : A → B) (keep : A → bool) (l : list A) :
  NoDup (f <$> l) → NoDup (f <$> List.filter keep l).
Proof.
  induction l as [|a l IH]; [done|]. cbn. intros [Ha Hl]%NoDup_cons.
  destruct (keep a); cbn; [|by apply IH]. apply NoDup_cons. split; [|by apply IH].
  intros (x & Hx & Hin)%list_elem_of_fmap. apply Ha. apply list_elem_of_fmap. exists x.
  split; [done|]. apply list_elem_of_In, List.filter_In in Hin as [Hin _]. by apply list_elem_of_In.
Qed.
Lemma StronglySorted_strict {A} (key : A → N) (l : list A) :
  StronglySorted (λ a b, key a ≤ key b) l → NoDup (key <$> l) →
  StronglySorted (λ a b, key a < key b) l.
Proof.
  induction 1 as [|a l Hs IH Hall]; cbn; intros Hnd; constructor.
  - apply IH. by apply NoDup_cons in Hnd as [_ ?].
  - apply NoDup_cons in Hnd as [Hn _]. apply Forall_forall. intros x Hx.
    pose proof (Forall_elem _ _ _ Hall Hx) as Hle. cbn in Hle.
    assert (key a ≠ key x); [|lia]. intros E. apply Hn. rewrite E. by apply list_elem_of_fmap_2.
Qed.

Lemma messages_seq_nodup p : wf p → NoDup (ll_seq <$> (map_to_list (messages p)).*2).
Proof.
  intros Hwf. rewrite <-list_fmap_compose. apply NoDup_fmap_2_strong; [|apply NoDup_map_to_list].
  intros [id1 l1] [id2 l2] H1%elem_of_map_to_list H2%elem_of_map_to_list E. cbn in E.
  pose proof (mw_seq _ (wf_mailbox _ Hwf) _ _ _ _ H1 H2 E) as <-. congruence.
Qed.

#[local] Instance line_seq_le_total : Total (line_seq_le (V:=V)).
Proof. intros a b. unfold line_seq_le. lia. Qed.
#[local] Instance line_seq_le_trans : Transitive (line_seq_le (V:=V)).
Proof. intros a b c. unfold line_seq_le. lia. Qed.

Lemma visible_messages_ok p caller :
  wf p → ∃ visible, visible_messages p caller = Ok visible ∧ visible_ok p caller visible.
Proof.
  intros Hwf. unfold visible_messages.
  set (f := λ line, _). set (L := (map_to_list (messages p)).*2).
  destruct (try_map_total f L) as (rows & -> & Hrows).
  { intros line Hl. destruct (stored_values _ _ Hwf Hl) as (id & md & _ & Hmd & _).
    exists (line, md). unfold f. by rewrite Hmd. }
  assert (Forall2 (λ line lm, lm.1 = line ∧ extract_message_metadata line = Ok lm.2) L rows) as Hrows'.
  { eapply Forall2_impl; [exact Hrows|]. intros line lm. unfold f.
    destruct (extract_message_metadata line) as [md|]; [|done]. by intros [= <-]. }
  assert (∀ lm, lm ∈ rows → lm.1 ∈ L ∧ extract_message_metadata lm.1 = Ok lm.2) as Hin.
  { intros lm Hlm. apply list_elem_of_lookup in Hlm as [i Hi].
    destruct (Forall2_lookup_r _ _ _ _ _ Hrows' Hi) as (line & Hl & <- & Hmd).
    split; [by eapply list_elem_of_lookup_2|done]. }
  eexists. split; [reflexivity|].
  set (shown := List.filter _ rows).
  assert (∀ lm, lm ∈ merge_sort line_seq_le shown ↔ lm ∈ rows ∧ visible_to caller lm.2 = true) as Hmem.
  { intros lm. rewrite merge_sort_Permutation. unfold shown.
    by rewrite list_elem_of_In, List.filter_In, <-list_elem_of_In. }
  split.
  - intros lm [Hlm _]%Hmem. destruct (Hin _ Hlm) as [Hl Hmd].
    destruct (stored_values _ _ Hwf Hl) as (id & md & Hid & E & Hso).
    rewrite Hmd in E. injection E as <-. by exists id.
  - by intros lm [_ Hv]%Hmem.
  - intros id line md Hid Hmd Hv. apply Hmem. split; [|done].
    assert (line ∈ L) as Hl.
    { apply list_elem_of_fmap. exists (id, line). split; [done|]. by apply elem_of_map_to_list. }
    apply list_elem_of_lookup in Hl as [i Hi].
    destruct (Forall2_lookup_l _ _ _ _ _ Hrows' Hi) as ([l m] & Hlm & E1 & E2). cbn in *. subst l.
    rewrite Hmd in E2. injection E2 as <-. by eapply list_elem_of_lookup_2.
  - apply (StronglySorted_strict (λ lm : LedgerLine V * MessageMetadata, ll_seq lm.1)).
    + apply StronglySorted_merge_sort; apply _.
    + rewrite merge_sort_Permutation. apply NoDup_fmap_filter.
      assert ((λ lm : LedgerLine V * MessageMetadata, ll_seq lm.1) <$> rows = ll_seq <$> L) as ->.
      { clear Hrows Hin Hmem. induction Hrows' as [|line lm L' rows' [<- _] _ IH]; [done|].
        cbn. by rewrite IH. }
      by apply messages_seq_nodup.
Qed.

(** Trimming keeps every active row and drops the oldest settled ones. *)
Abbreviation settled := (λ row, negb (sr_active row)).
Lemma trim_settled_spec skip seen rows :
  List.filter sr_active (trim_settled skip seen rows) = List.filter sr_active rows ∧
  List.filter settled (trim_settled skip seen rows) =
    drop (N.to_nat (skip - seen)) (List.filter settled rows) ∧
  trim_settled skip seen rows `sublist_of` rows.
Proof.
  revert seen. induction rows as [|row rows IH]; intros seen; [cbn; by rewrite drop_nil|].
  cbn [trim_settled]. destruct (sr_active row) eqn:Ha.
  - destruct (IH seen) as (H1 & H2 & H3). cbn. rewrite Ha. cbn. rewrite H1, H2.
    split_and!; [done..|by apply sublist_skip].
  - destruct (IH (seen + 1)) as (H1 & H2 & H3).
    destruct (N.leb_spec skip seen) as [Hle|Hgt].
    + cbn. rewrite Ha. cbn. rewrite H1, H2.
      replace (N.to_nat (skip - (seen + 1))) with 0%nat by lia.
      replace (N.to_nat (skip - seen)) with 0%nat by lia. split_and!; [done..|by apply sublist_skip].
    + cbn. rewrite Ha. cbn. rewrite H1, H2.
      replace (N.to_nat (skip - seen)) with (S (N.to_nat (skip - (seen + 1)))) by lia.
      split_and!; [done..|by apply sublist_cons].
Qed.

Lemma trim_settled_zero seen rows : trim_settled 0 seen rows = rows.
Proof.
  revert seen. induction rows as [|row rows IH]; intros seen; [done|]. cbn [trim_settled].
  assert ((0 <=? seen) = true) as -> by (apply N.leb_le; lia).
  rewrite !IH. by destruct (sr_active row).
Qed.

Lemma filter_split_length {A} (f : A → bool) (l : list A) :
  (length (List.filter f l) + length (List.filter (λ x, negb (f x)) l) = length l)%nat.
Proof. induction l as [|a l IH]; [done|]. cbn. destruct (f a); cbn; lia. Qed.

(** What a snapshot holds. *)
Record snapshot_ok p (caller : RecipientKey) (recent : N) (s : MessagesSnapshotResult)
    (projected : list MessageSnapshotRow) (visible : list (LedgerLine V * MessageMetadata)) : Prop := {
  sno_visible : visible_ok p caller visible;
  sno_rows : Forall2 row_of projected visible;
  sno_sublist : sn_rows s `sublist_of` projected;
  sno_active : List.filter sr_active (sn_rows s) = List.filter sr_active projected;
  sno_settled : List.filter settled (sn_rows s) =
    drop (length (List.filter settled projected) - N.to_nat recent)%nat (List.filter settled projected);
  sno_all : N.of_nat (length projected) ≤ recent → sn_rows s = projected;
  sno_seq : sn_workspace_seq s = last_seq p;
  sno_count : ct_visible_messages (sn_counts s) = N.of_nat (length visible) ∧
    ct_returned_messages (sn_counts s) = N.of_nat (length (sn_rows s));
}.

Lemma snapshot_total p caller recent routes :
  wf p → rk_workspace_id caller = workspace_id p →
  ∃ s projected visible, messages_snapshot p caller recent routes = Ok s ∧
    snapshot_ok p caller recent s projected visible.
Proof.
  intros Hwf Hws. unfold messages_snapshot, check_workspace.
  rewrite bool_decide_eq_false_2 by naive_solver.
  destruct (visible_messages_ok p caller Hwf) as (visible & -> & Hvis).
  destruct (snapshot_rows_total p caller routes (fifo_positions p) (thread_counts visible) visible
    (MkTally 0 0 0 0 0 0) Hwf (vo_stored _ _ _ Hvis)) as (tally & projected & -> & Hrows).
  eexists _, projected, visible. split; [reflexivity|]. cbn zeta.
  pose proof (filter_split_length sr_active projected) as Hlen.
  match goal with |- context [trim_settled ?skip 0 projected] =>
    destruct (trim_settled_spec skip 0 projected) as (H1 & H2 & H3) end.
  split; cbn [sn_rows sn_counts sn_workspace_seq ct_visible_messages ct_returned_messages]; try done.
  - rewrite H2. f_equal. lia.
  - intros Hle. replace (_ - _ - recent) with 0 by lia. apply trim_settled_zero.
  - split; [|done]. rewrite <-(Forall2_length _ _ _ Hrows). lia.
Qed.

(** A snapshot never fails for a caller of the workspace on a state a
    journal can produce.  Its rows are visible messages, in journal order; it
    holds every active one and the most recent settled ones, and its totals
    count every visible message.  A caller of another workspace is refused. *)
Theorem snapshot_never_fails p caller recent routes :
  reachable p →
  (rk_workspace_id caller = workspace_id p →
   ∃ s projected visible, messages_snapshot p caller recent routes = Ok s ∧
     snapshot_ok p caller recent s projected visible) ∧
  (rk_workspace_id caller ≠ workspace_id p →
   messages_snapshot p caller recent routes =
     Err (WorkspaceMismatch (workspace_id p) (rk_workspace_id caller))).
Proof.
  intros Hr. split; [by apply snapshot_total, reachable_wf|]. intros H.
  unfold messages_snapshot, check_workspace. by rewrite bool_decide_eq_true_2.
Qed.

(** ** Following *)
Lemma sorted_length {A} (key : A → N) (l : list A) a hi :
  StronglySorted (λ x y, key x < key y) l → Forall (λ x, a ≤ key x ≤ hi) l → a ≤ hi + 1 →
  a + N.of_nat (length l) ≤ hi + 1.
Proof.
  intros Hs. revert a. induction Hs as [|x l Hs IH Hx]; intros a Hall Ha; [cbn; lia|].
  apply Forall_cons in Hall as [Hb Hall]. cbn [length].
  assert (key x + 1 + N.of_nat (length l) ≤ hi + 1); [|lia]. apply IH; [|lia].
  apply Forall_forall. intros y Hy. pose proof (Forall_elem _ _ _ Hx Hy) as H1.
  pose proof (Forall_elem _ _ _ Hall Hy) as H2. cbn in *. lia.
Qed.
Lemma StronglySorted_filter {A} (R : A → A → Prop) (f : A → bool) (l : list A) :
  StronglySorted R l → StronglySorted R (List.filter f l).
Proof.
  induction 1 as [|x l Hs IH Hx]; [constructor|]. cbn. destruct (f x); [|done]. constructor; [done|].
  apply Forall_forall. intros y Hy%list_elem_of_In. apply List.filter_In in Hy as [Hy _].
  apply (Forall_elem _ _ _ Hx). by apply list_elem_of_In.
Qed.
(** After the last row of a prefix come exactly the remaining rows. *)
Lemma sorted_after {A} (key : A → N) (l xs ys : list A) x :
  StronglySorted (λ a b, key a < key b) l → l = xs ++ x :: ys →
  List.filter (λ y, key x <? key y) l = ys.
Proof.
  intros Hs ->. induction xs as [|z xs IH]; cbn [app] in *.
  - apply StronglySorted_inv in Hs as [Hs Hx]. cbn. rewrite N.ltb_irrefl.
    apply filter_all. intros y Hy. apply N.ltb_lt. exact (Forall_elem _ _ _ Hx Hy).
  - apply StronglySorted_inv in Hs as [Hs Hz]. cbn.
    assert (key z < key x) as Hlt.
    { apply (Forall_elem _ _ _ Hz). apply elem_of_app. right. by left. }
    rewrite (proj2 (N.ltb_ge (key x) (key z))) by lia. by apply IH.
Qed.
Lemma filter_filter_lt {A} (key : A → N) (l : list A) a b :
  a ≤ b → List.filter (λ x, b <? key x) (List.filter (λ x, a <? key x) l) = List.filter (λ x, b <? key x) l.
Proof.
  intros H. induction l as [|x l IH]; [done|]. cbn.
  destruct (N.ltb_spec a (key x)) as [Ha|Ha]; cbn; rewrite IH; [done|].
  by rewrite (proj2 (N.ltb_ge b (key x))) by lia.
Qed.

(** The rows of a full snapshot: one per visible message, strictly sorted. *)
Lemma full_snapshot_rows p caller s projected visible :
  wf p → snapshot_ok p caller u64_max s projected visible →
  sn_rows s = projected ∧ StronglySorted (λ a b, sr_seq a < sr_seq b) (sn_rows s) ∧
  Forall (λ row, 1 ≤ sr_seq row ≤ last_seq p) (sn_rows s).
Proof.
  intros Hwf [Hvis Hrows _ _ _ Hall _ _].
  assert (StronglySorted (λ a b, sr_seq a < sr_seq b) projected ∧
          Forall (λ row, 1 ≤ sr_seq row ≤ last_seq p) projected) as [Hs Hb].
  { pose proof (vo_sorted _ _ _ Hvis) as Hsv. pose proof (vo_stored _ _ _ Hvis) as Hst. clear Hall Hvis.
    induction Hrows as [|row lm rows visible Hrow Hrest IH]; [by repeat constructor|].
    apply StronglySorted_inv in Hsv as [Hsv Hx].
    destruct IH as [IH1 IH2]; [done|intros x Hin; apply Hst; by right|].
    assert (sr_seq row = ll_seq lm.1) as Hseq by apply Hrow.
    split; constructor; [done| | |done].
    - apply Forall_forall. intros row' Hin. apply list_elem_of_lookup in Hin as [i Hi].
      destruct (Forall2_lookup_l _ _ _ _ _ Hrest Hi) as (lm' & Hlm' & (_ & -> & _)).
      rewrite Hseq. apply (Forall_elem _ _ _ Hx). by eapply list_elem_of_lookup_2.
    - rewrite Hseq. destruct (Hst lm) as (id & _ & _ & Hso); [by left|]. apply Hso. }
  rewrite Hall; [done|].
  pose proof (sorted_length sr_seq projected 1 (last_seq p) Hs Hb) as Hlen.
  pose proof (mw_last _ (wf_mailbox _ Hwf)). lia.
Qed.

(** One page: a prefix of the rows after the cursor, with the rest after the
    new cursor. *)
Lemma follow_page (rows : list MessageSnapshotRow) (after limit head : N) :
  StronglySorted (λ a b, sr_seq a < sr_seq b) rows → Forall (λ row, sr_seq row ≤ head) rows →
  1 ≤ limit → after ≤ head →
  let rest x := List.filter (λ row, x <? sr_seq row) rows in
  let taken := take (N.to_nat limit + 1) (rest after) in
  let has_more := bool_decide (N.to_nat limit < length taken)%nat in
  let page := if has_more then take (length taken - 1) taken else taken in
  let through := if has_more then match last page with Some row => sr_seq row | None => after end
                 else head in
  rest after = page ++ rest through ∧ N.of_nat (length page) ≤ limit ∧ after ≤ through ∧
  through ≤ head ∧ (has_more = true → after < through) ∧ (has_more = false → rest through = []).
Proof.
  intros Hs Hb Hl Ha rest taken. cbv zeta. case_bool_decide as Hmore.
  - assert (length taken = N.to_nat limit + 1)%nat as Hlen.
    { unfold taken in *. rewrite length_take in *. lia. }
    assert (take (length taken - 1) taken = take (N.to_nat limit) (rest after)) as ->.
    { unfold taken in *. rewrite Hlen, take_take. f_equal. lia. }
    assert (N.to_nat limit < length (rest after))%nat as Hlim.
    { unfold taken in *. rewrite length_take in Hmore. lia. }
    destruct (last (take (N.to_nat limit) (rest after))) as [row|] eqn:Hlast.
    2: { apply last_None in Hlast. apply (f_equal length) in Hlast. rewrite length_take in Hlast.
         cbn in Hlast. lia. }
    apply last_Some in Hlast as [xs Hxs].
    assert (rest after = xs ++ row :: drop (N.to_nat limit) (rest after)) as Hsplit.
    { rewrite <-(take_drop (N.to_nat limit) (rest after)) at 1. rewrite Hxs, <-app_assoc. done. }
    assert (row ∈ rest after) as Hin by (rewrite Hsplit; apply elem_of_app; right; by left).
    apply list_elem_of_In, List.filter_In in Hin as [Hin Hlt%N.ltb_lt].
    assert (rest (sr_seq row) = drop (N.to_nat limit) (rest after)) as ->.
    { unfold rest at 1. rewrite <-(filter_filter_lt sr_seq rows after (sr_seq row)) by lia.
      eapply sorted_after; [by apply StronglySorted_filter|exact Hsplit]. }
    pose proof (Forall_elem _ _ _ Hb (proj2 (list_elem_of_In _ _) Hin)) as Hle. cbn in Hle.
    split_and!; [by rewrite take_drop| |lia|done|done|done].
    rewrite length_take. lia.
  - assert (length (rest after) ≤ N.to_nat limit)%nat as Hshort.
    { unfold taken in Hmore. rewrite length_take in Hmore. lia. }
    assert (taken = rest after) as -> by (unfold taken; apply take_ge; lia).
    assert (rest head = []) as ->.
    { unfold rest. clear -Hb. induction Hb as [|row rows Hle _ IH]; [done|]. cbn.
      by rewrite (proj2 (N.ltb_ge _ _) Hle), IH. }
    split_and!; [by rewrite app_nil_r|lia|lia|done|done|done].
Qed.

(** Following is complete and makes progress: with a cursor up to the
    workspace head, a page is returned; its rows followed by the rows after its
    own cursor are exactly the rows after the given cursor, one for each visible
    message; a page with more to come moves the cursor forward, and the last page
    leaves nothing behind.  So the pages, concatenated, list every visible
    message after the first cursor exactly once, in order. *)
Theorem follow_pages_cover p caller after limit routes :
  reachable p → rk_workspace_id caller = workspace_id p → after ≤ last_seq p → 1 ≤ limit →
  ∃ page s projected visible, messages_follow p caller after limit routes = Ok page ∧
    messages_snapshot p caller u64_max routes = Ok s ∧
    snapshot_ok p caller u64_max s projected visible ∧ sn_rows s = projected ∧
    let rest x := List.filter (λ row, x <? sr_seq row) (sn_rows s) in
    rest after = fl_rows page ++ rest (fl_through_seq page) ∧
    N.of_nat (length (fl_rows page)) ≤ limit ∧ after ≤ fl_through_seq page ∧
    fl_through_seq page ≤ last_seq p ∧
    (fl_has_more page = true → after < fl_through_seq page) ∧
    (fl_has_more page = false → rest (fl_through_seq page) = []).
Proof.
  intros Hr Hws Hle Hlim. pose proof (reachable_wf _ Hr) as Hwf.
  destruct (snapshot_total p caller u64_max routes Hwf Hws) as (s & projected & visible & Hs & Hok).
  destruct (full_snapshot_rows _ _ _ _ _ Hwf Hok) as (Heq & Hsort & Hb).
  pose proof (sno_seq _ _ _ _ _ _ Hok) as Hseq. unfold messages_follow. rewrite Hs, Hseq.
  rewrite (proj2 (N.ltb_ge _ _) Hle). eexists _, s, projected, visible.
  split; [reflexivity|]. cbn [fl_rows fl_through_seq fl_has_more].
  split; [done|]. split; [done|]. split; [done|].
  apply (follow_page (sn_rows s) after limit (last_seq p)); try done.
  eapply Forall_impl; [exact Hb|]. cbn. lia.
Qed.

(** ** Bodies *)

(** Who may read a body: of a stored message, its sender, and a recipient
    that claimed it or was delivered it directly; pending and replaced entries
    do not qualify.  A row that differs from the stored message in any visible
    field is refused to everyone. *)
Theorem body_readers p reader id line md :
  reachable p → stored_message p id line md →
  (projection_allows_message_body p reader line = true ↔
     md_sender md = reader ∨
     ∃ e, get_entry p reader id = Some e ∧
       ((∃ at_ms, me_state e = Claimed reader at_ms) ∨ ∃ a at_ms, me_state e = DeliveredDirect a at_ms)) ∧
  ∀ other, ll_id other = ll_id line → projection_allows_message_body p reader other = true →
    ll_body other = ll_body line ∧ ll_subject other = ll_subject line ∧ ll_to other = ll_to line ∧
    ll_from other = ll_from line ∧ ll_seq other = ll_seq line ∧ ll_kind other = ll_kind line.
Proof.
  intros Hr [Hl Hmd]. pose proof (reachable_wf _ Hr) as Hwf.
  destruct (mw_message _ (wf_mailbox _ Hwf) _ _ Hl) as (md' & E & Hso). rewrite Hmd in E. injection E as <-.
  pose proof (so_valid _ _ _ _ Hso) as Hid. split.
  - unfold projection_allows_message_body. rewrite Hid. cbn [result_ok mbind option_bind].
    unfold get_message. rewrite Hl. cbn [mbind option_bind].
    assert (same_canonical_content line line = true) as ->.
    { unfold same_canonical_content. by rewrite !bool_decide_eq_true_2. }
    rewrite Hmd. cbn [result_ok mbind option_bind].
    assert (∀ b, (match ll_kind line with KMsg | KFyi => b | _ => false end) = b) as ->.
    { intros b. by destruct (so_kind _ _ _ _ Hso) as [-> | ->]. }
    rewrite orb_true_iff, bool_decide_eq_true. apply or_iff_compat_l.
    destruct (get_entry p reader id) as [e|].
    + destruct (me_state e) as [|c t|a t|b t] eqn:Hst.
      * split; [done|]. intros (? & [= <-] & [[? H]|(? & ? & H)]); congruence.
      * rewrite bool_decide_eq_true. split.
        -- intros ->. exists e. split; [done|]. left. by exists t.
        -- intros (? & [= <-] & [[? H]|(? & ? & H)]); congruence.
      * split; [|done]. intros _. exists e. split; [done|]. right. by exists a, t.
      * split; [done|]. intros (? & [= <-] & [[? H]|(? & ? & H)]); congruence.
    + split; [done|]. by intros (? & ? & _).
  - intros other Hoid H. unfold projection_allows_message_body in H. rewrite Hoid, Hid in H.
    cbn [result_ok mbind option_bind] in H. unfold get_message in H. rewrite Hl in H.
    cbn [mbind option_bind] in H.
    destruct (same_canonical_content other line) eqn:Hsame; [|by destruct (ll_kind other)].
    unfold same_canonical_content in Hsame. bool_facts. by split_and!.
Qed.

(** ** FIFO positions *)

(** The entries of a mailbox still due a notification. *)
Definition notifiable_entry p r (e : MailboxEntry) : bool :=
  is_pending (me_state e) && negb (notification_withdrawn_by_operator p r (me_message_id e)).
Definition notifiable p r : list MailboxEntry := List.filter (notifiable_entry p r) (get_mailbox p r).

Lemma fifo_walk_other p r entries pos m r' id :
  r' ≠ r → fifo_walk p r entries pos m !! (r', id) = m !! (r', id).
Proof.
  intros Hne. revert pos m. induction entries as [|e entries IH]; intros pos m; [done|].
  cbn [fifo_walk]. destruct (_ && _); rewrite IH; [|done]. apply lookup_insert_ne. congruence.
Qed.
Lemma fifo_walk_absent p r entries pos m id :
  id ∉ me_message_id <$> List.filter (notifiable_entry p r) entries →
  fifo_walk p r entries pos m !! (r, id) = m !! (r, id).
Proof.
  revert pos m. induction entries as [|e entries IH]; intros pos m Hn; [done|].
  cbn [fifo_walk]. cbn [List.filter] in Hn. fold (notifiable_entry p r e).
  destruct (notifiable_entry p r e); cbn in Hn; [|by apply IH].
  rewrite IH by set_solver. apply lookup_insert_ne. set_solver.
Qed.
Lemma fifo_walk_at p r entries pos m i e :
  NoDup (me_message_id <$> entries) → List.filter (notifiable_entry p r) entries !! i = Some e →
  fifo_walk p r entries pos m !! (r, me_message_id e) = Some (pos + 1 + N.of_nat i).
Proof.
  revert pos m i. induction entries as [|x entries IH]; intros pos m i Hnd Hi; [done|].
  cbn [fifo_walk]. fold (notifiable_entry p r x). cbn [List.filter] in Hi.
  apply NoDup_cons in Hnd as [Hx Hnd].
  destruct (notifiable_entry p r x); [|by apply IH].
  destruct i as [|i].
  - injection Hi as ->. rewrite fifo_walk_absent, lookup_insert_eq; [f_equal; lia|].
    intros (y & Hy & Hin)%list_elem_of_fmap. apply Hx. rewrite Hy. apply list_elem_of_fmap_2.
    apply list_elem_of_In, List.filter_In in Hin as [Hin _]. by apply list_elem_of_In.
  - cbn in Hi. rewrite (IH _ _ i) by done. f_equal. lia.
Qed.

Lemma mailbox_ids_nodup p r : wf p → NoDup (me_message_id <$> get_mailbox p r).
Proof.
  intros Hwf. rewrite get_mailbox_map. unfold btree_values. rewrite <-list_fmap_compose.
  apply NoDup_fmap_2_strong.
  - intros [s1 e1] [s2 e2] H1 H2 E. cbn in E.
    unfold btree_list in H1, H2. rewrite merge_sort_Permutation in H1, H2.
    apply elem_of_map_to_list in H1, H2. rewrite <-entry_at_map in H1, H2.
    destruct (mw_entry _ (wf_mailbox _ Hwf) _ _ _ H1) as (_ & _ & Hi1 & _).
    destruct (mw_entry _ (wf_mailbox _ Hwf) _ _ _ H2) as (_ & _ & Hi2 & _).
    rewrite E in Hi1. rewrite Hi1 in Hi2. injection Hi2 as ->. congruence.
  - unfold btree_list. rewrite merge_sort_Permutation. apply NoDup_map_to_list.
Qed.

Lemma fifo_fold p (L : list (RecipientKey * gmap N MailboxEntry)) m r :
  NoDup L.*1 →
  (r ∉ L.*1 → ∀ id, foldl (λ m '(recipient, entries), fifo_walk p recipient (btree_values entries) 0 m) m L
     !! (r, id) = m !! (r, id)) ∧
  (∀ entries, (r, entries) ∈ L → ∃ m', (∀ id, m' !! (r, id) = m !! (r, id)) ∧
     ∀ id, foldl (λ m '(recipient, entries), fifo_walk p recipient (btree_values entries) 0 m) m L
       !! (r, id) = fifo_walk p r (btree_values entries) 0 m' !! (r, id)).
Proof.
  revert m. induction L as [|[r0 es0] L IH]; intros m Hnd.
  - split; [done|]. intros entries H. by apply not_elem_of_nil in H.
  - cbn [fmap list_fmap fst] in Hnd. apply NoDup_cons in Hnd as [Hn Hnd]. cbn [foldl].
    destruct (IH (fifo_walk p r0 (btree_values es0) 0 m) Hnd) as [IH1 IH2]. split.
    + intros Hr id. rewrite IH1 by set_solver. apply fifo_walk_other. set_solver.
    + intros entries [[= <- <-]|Hin]%elem_of_cons.
      * exists m. split; [done|]. intros id. by rewrite IH1.
      * assert (r ≠ r0) as Hne.
        { intros ->. apply Hn. apply list_elem_of_fmap. by exists (r0, entries). }
        destruct (IH2 _ Hin) as (m' & Hm' & Hx). exists m'. split; [|done].
        intros id. rewrite Hm'. by apply fifo_walk_other.
Qed.

Lemma fifo_positions_spec p r id :
  wf p →
  (∀ i e, notifiable p r !! i = Some e →
     fifo_positions p !! (r, me_message_id e) = Some (1 + N.of_nat i)) ∧
  (id ∉ me_message_id <$> notifiable p r → fifo_positions p !! (r, id) = None).
Proof.
  intros Hwf.
  destruct (fifo_fold p (map_to_list (mailboxes p)) ∅ r (NoDup_fst_map_to_list _)) as [Habs Hpres].
  pose proof (mailbox_ids_nodup p r Hwf) as Hnd.
  unfold notifiable in *. rewrite get_mailbox_map in *. unfold mailbox_map in *.
  destruct (mailboxes p !! r) as [entries|] eqn:Hm; cbn [default] in *.
  - destruct (Hpres entries) as (m' & Hm' & Hx); [by apply elem_of_map_to_list|]. unfold fifo_positions.
    split.
    + intros i e Hi. rewrite Hx. by rewrite (fifo_walk_at p r _ 0 m' i e).
    + intros Hn. rewrite Hx, fifo_walk_absent by done. by rewrite Hm'.
  - unfold fifo_positions. assert (r ∉ (map_to_list (mailboxes p)).*1) as Hn.
    { intros ([r' es] & E & Hin)%list_elem_of_fmap. cbn in E. subst r'.
      apply elem_of_map_to_list in Hin. congruence. }
    split; [|by intros; rewrite Habs].
    intros i e Hi. exfalso. revert Hi. by cbn.
Qed.

(** The FIFO position a snapshot shows is the entry's one-based index among
    the recipient's pending entries that an operator has not withdrawn, in
    mailbox order; every other entry has none. *)
Theorem fifo_positions_exact p r id :
  reachable p →
  (∀ i e, notifiable p r !! i = Some e →
     fifo_positions p !! (r, me_message_id e) = Some (1 + N.of_nat i)) ∧
  (id ∉ me_message_id <$> notifiable p r → fifo_positions p !! (r, id) = None).
Proof. intros Hr. by apply fifo_positions_spec, reachable_wf. Qed.

(** ** Attention rows *)
Definition record_key n : RecipientKey * MessageId := (nr_recipient n, nr_message_id n).

Record attention_acc_ok (good : NotificationRecord → Prop) (acc : AttentionRows) : Prop := {
  ao_attempts : NoDup (nr_attempt_id <$> atr_records acc);
  ao_keys : NoDup (record_key <$> atr_records acc);
  ao_seen : ∀ k, k ∈ atr_seen acc ↔ k ∈ record_key <$> atr_records acc;
  ao_known : ∀ n, n ∈ atr_records acc → nr_attempt_id n ∈ atr_attempts acc;
  ao_good : ∀ n, n ∈ atr_records acc → good n;
}.

Lemma push_attention_ok good acc n :
  attention_acc_ok good acc → good n → attention_acc_ok good (push_attention acc n).
Proof.
  intros [H1 H2 H3 H4 H5] Hn. unfold push_attention.
  case_bool_decide as Ha; [done|]. case_bool_decide as Hk; split; cbn; try done.
  - intros x Hx. pose proof (H4 x Hx). set_solver.
  - rewrite fmap_app. apply NoDup_app. split_and!; [done| |apply NoDup_singleton].
    intros a Hin ->%list_elem_of_singleton. apply Ha.
    apply list_elem_of_fmap in Hin as (x & -> & Hx). by apply H4.
  - rewrite fmap_app. apply NoDup_app. split_and!; [done| |apply NoDup_singleton].
    intros k Hin ->%list_elem_of_singleton. by apply Hk, H3.
  - intros k. rewrite elem_of_union, elem_of_singleton, fmap_app, elem_of_app, H3.
    cbn. rewrite list_elem_of_singleton. tauto.
  - intros x [Hx| ->%list_elem_of_singleton]%elem_of_app; [pose proof (H4 x Hx); set_solver|set_solver].
  - intros x [Hx| ->%list_elem_of_singleton]%elem_of_app; [by apply H5|done].
Qed.
Lemma push_all_ok good ns acc :
  attention_acc_ok good acc → (∀ n, n ∈ ns → good n) → attention_acc_ok good (foldl push_attention acc ns).
Proof.
  revert acc. induction ns as [|n ns IH]; intros acc Hacc Hns; [done|]. cbn [foldl]. apply IH.
  - apply push_attention_ok; [done|]. apply Hns. by left.
  - intros x Hx. apply Hns. by right.
Qed.

(** What is pushed is there, when a key names one record. *)
Lemma push_attention_keeps acc n x : x ∈ atr_records acc → x ∈ atr_records (push_attention acc n).
Proof.
  unfold push_attention. intros H. case_bool_decide; [done|]. case_bool_decide; [done|]. cbn.
  apply elem_of_app. by left.
Qed.
Lemma push_all_keeps ns acc x : x ∈ atr_records acc → x ∈ atr_records (foldl push_attention acc ns).
Proof.
  revert acc. induction ns as [|n ns IH]; intros acc H; [done|]. cbn [foldl].
  by apply IH, push_attention_keeps.
Qed.
Lemma push_all_has (current : RecipientKey * MessageId → NotificationRecord → Prop) ns acc n :
  attention_acc_ok (λ x, current (record_key x) x) acc →
  (∀ x, x ∈ ns → current (record_key x) x) →
  (∀ k x y, current k x → current k y → x = y) →
  (∀ x y kx ky, current kx x → current ky y → nr_attempt_id x = nr_attempt_id y → x = y) →
  (∀ a, a ∈ atr_attempts acc → a ∈ nr_attempt_id <$> atr_records acc) →
  n ∈ ns → n ∈ atr_records (foldl push_attention acc ns).
Proof.
  intros Hacc Hns Hkey Hatt. revert acc Hacc.
  induction ns as [|x ns IH]; intros acc Hacc Hknown Hn; [by apply not_elem_of_nil in Hn|].
  cbn [foldl]. pose proof (Hns x ltac:(by left)) as Hx.
  assert (x ∈ atr_records (push_attention acc x) ∧
          ∀ a, a ∈ atr_attempts (push_attention acc x) →
               a ∈ nr_attempt_id <$> atr_records (push_attention acc x)) as [Hin Hknown'].
  { unfold push_attention. case_bool_decide as Ha.
    - split; [|done]. apply Hknown, list_elem_of_fmap in Ha as (y & E & Hy).
      rewrite (Hatt x y _ _ Hx (ao_good _ _ Hacc _ Hy) E). done.
    - case_bool_decide as Hk.
      + exfalso. apply (ao_seen _ _ Hacc), list_elem_of_fmap in Hk as (y & E & Hy).
        pose proof (ao_good _ _ Hacc _ Hy) as Hg. cbn in Hg. rewrite <-E in Hg.
        rewrite (Hkey _ _ _ Hg Hx) in Hy. by apply Ha, (ao_known _ _ Hacc).
      + cbn. split; [apply elem_of_app; right; by apply list_elem_of_singleton|].
        intros a [->%elem_of_singleton|Hold]%elem_of_union; rewrite fmap_app; apply elem_of_app.
        * right. cbn. by apply list_elem_of_singleton.
        * left. by apply Hknown. }
  apply elem_of_cons in Hn as [-> |Hn]; [by apply push_all_keeps|].
  apply IH; [by intros y Hy; apply Hns; right|by apply push_attention_ok|done|done].
Qed.

(** Alarms and held heads are current, unresolved records. *)
Definition current_unresolved p (k : RecipientKey * MessageId) n : Prop :=
  notifications p !! k = Some n ∧ resolved_attempts p !! nr_attempt_id n = None.
Lemma current_key p k n : wf p → notifications p !! k = Some n → record_key n = k.
Proof.
  intros Hwf H. destruct (nw_record _ (wf_notif _ Hwf) _ _ H) as [E1 E2 _ _ _ _ _].
  destruct k. unfold record_key. by rewrite E1, E2.
Qed.
Lemma elem_of_open_alarms p n :
  n ∈ open_alarms p ↔ (∃ k, notifications p !! k = Some n) ∧ is_open_alarm p n = true.
Proof.
  unfold open_alarms. rewrite merge_sort_Permutation, list_elem_of_In, List.filter_In, <-list_elem_of_In.
  apply and_iff_compat_r. unfold notification_values. rewrite list_elem_of_fmap. split.
  - intros ([k y] & -> & H%elem_of_map_to_list). by exists k.
  - intros [k H]. exists (k, n). split; [done|]. by apply elem_of_map_to_list.
Qed.
Lemma open_alarm_current p n : wf p → n ∈ open_alarms p → current_unresolved p (record_key n) n.
Proof.
  intros Hwf [[k Hk] Ho]%elem_of_open_alarms. rewrite (current_key _ _ _ Hwf Hk). split; [done|].
  unfold is_open_alarm in Ho. bool_facts. done.
Qed.
Lemma held_head_current p r n : wf p → held_head p r = Some n → current_unresolved p (record_key n) n.
Proof.
  unfold held_head. intros Hwf H. destruct (head _) as [e|]; [|done]. cbn [mbind option_bind] in H.
  destruct (notifications p !! _) as [c|] eqn:Hc; [|done]. cbn [mbind option_bind] in H.
  case_bool_decide as Hres; [done|].
  assert (n = c) as -> by (by destruct (nr_state c); congruence).
  rewrite (current_key _ _ _ Hwf Hc). split; [done|]. by apply eq_None_not_Some.
Qed.

Lemma attention_records_spec p recipients :
  wf p →
  ∃ acc, atr_records acc = attention_records p recipients ∧
    attention_acc_ok (λ n, current_unresolved p (record_key n) n) acc ∧
    ∀ n, n ∈ open_alarms p ∨ n ∈ omap (held_head p) recipients → n ∈ atr_records acc.
Proof.
  intros Hwf. set (good := λ n, current_unresolved p (record_key n) n).
  set (start := MkAttentionRows ∅ ∅ []).
  assert (attention_acc_ok good start) as H0 by (split; cbn; try constructor; set_solver).
  assert (∀ n, n ∈ open_alarms p ++ omap (held_head p) recipients → good n) as Hgood.
  { intros n [Hn|(r & _ & H)%list_elem_of_omap]%elem_of_app.
    - exact (open_alarm_current p n Hwf Hn).
    - exact (held_head_current p r n Hwf H). }
  exists (foldl push_attention start (open_alarms p ++ omap (held_head p) recipients)).
  split_and!; [unfold attention_records; by rewrite foldl_app|by apply push_all_ok|].
  intros n Hn. apply (push_all_has (current_unresolved p)); [done|done| | |by cbn; set_solver|by apply elem_of_app].
  - intros k x y [Hx _] [Hy _]. congruence.
  - intros x y kx ky [Hx _] [Hy _] E.
    pose proof (nw_unique _ (wf_notif _ Hwf) _ _ _ _ Hx Hy E) as ->. congruence.
Qed.
Lemma attention_row_ids labels n :
  od_attempt_id (attention_row labels n) = Some (nr_attempt_id n) ∧
  od_recipient (attention_row labels n) = Some (nr_recipient n) ∧
  od_id (attention_row labels n) = mid_text (nr_message_id n).
Proof. unfold attention_row. by destruct (attention_state_cause n). Qed.

(** No recipient's message has two rows. *)
Lemma attention_row_keys p labels acc :
  attention_acc_ok (λ n, current_unresolved p (record_key n) n) acc →
  NoDup ((λ row, (od_recipient row, od_id row)) <$> (attention_row labels <$> atr_records acc)).
Proof.
  intros H2. rewrite <-list_fmap_compose. apply (NoDup_fmap_2_strong _ (atr_records acc)).
  - intros x y Hx Hy Exy. cbn in Exy.
    destruct (attention_row_ids labels x) as (_ & Rx & Ix), (attention_row_ids labels y) as (_ & Ry & Iy).
    rewrite Rx, Ry, Ix, Iy in Exy. injection Exy as Er Ei.
    assert (record_key x = record_key y) as Ek.
    { unfold record_key. f_equal; [done|]. destruct (nr_message_id x), (nr_message_id y). by f_equal. }
    destruct (ao_good _ _ H2 _ Hx) as [Ex _], (ao_good _ _ H2 _ Hy) as [Ey _]. congruence.
  - by eapply NoDup_fmap_1, (ao_keys _ _ H2).
Qed.

(** Attention rows are exact: no attempt and no recipient's message has two
    rows, a resolved attempt has none, and every open alarm and every held head
    of a visited mailbox has one. *)
Theorem attention_rows_exact p recipients labels :
  reachable p →
  let rows := mailbox_attention_rows p recipients labels in
  NoDup (od_attempt_id <$> rows) ∧
  NoDup ((λ row, (od_recipient row, od_id row)) <$> rows) ∧
  (∀ row, row ∈ rows → ∃ n, row = attention_row labels n ∧ current_unresolved p (record_key n) n) ∧
  (∀ n, n ∈ open_alarms p → attention_row labels n ∈ rows) ∧
  (∀ r n, r ∈ recipients → held_head p r = Some n → attention_row labels n ∈ rows).
Proof.
  intros Hr rows. destruct (attention_records_spec p recipients (reachable_wf _ Hr)) as (acc & E & H2 & Hhas).
  assert (rows = attention_row labels <$> atr_records acc) as -> by (by rewrite E).
  split_and!.
  - rewrite <-list_fmap_compose.
    assert (od_attempt_id ∘ attention_row labels <$> atr_records acc
            = Some <$> (nr_attempt_id <$> atr_records acc)) as ->.
    { rewrite <-list_fmap_compose. apply list_fmap_ext. intros i n _. apply attention_row_ids. }
    apply NoDup_fmap_2; [apply _|apply H2].
  - exact (attention_row_keys p labels acc H2).
  - intros row (n & -> & Hn)%list_elem_of_fmap. exists n. split; [done|]. by apply (ao_good _ _ H2).
  - intros n Hn. apply list_elem_of_fmap_2, Hhas. by left.
  - intros r n Hin Hh. apply list_elem_of_fmap_2, Hhas. right. apply list_elem_of_omap. by exists r.
Qed.
End view_props.
