(* ===== verification/Directory.v ===== *)
(** * The mailbox directory

    [src/cyclopsd/src/mailbox/directory.rs]: [MailboxDirectory], which turns the
    names people and agents use into durable recipient keys.  Candidates of a pane
    are visited in the order of [map_to_list], which stands for the arbitrary order
    of a [HashMap]; the display labels of the same file are in [Projection.v].

    Theorem: an address names exactly one recipient. *)
From S2P Require Import Prelude Text Identity Ledger Mailbox Facts Projection Views.
Local Open Scope N_scope.
Local Open Scope rust_scope.

Record MailboxIdentity := MkIdentity { id_key : RecipientKey; id_label : rstr }.
#[export] Instance MailboxIdentity_eq_dec : EqDecision MailboxIdentity.
Proof. solve_decision. Defined.
Record MailboxDirectory := MkDirectory {
  dy_workspace_id : WorkspaceId;
  dy_by_address : gmap rstr MailboxIdentity;
  dy_by_pane : gmap TmuxPaneId MailboxIdentity;
  dy_by_recipient : gmap RecipientKey MailboxIdentity;
}.
Inductive MailboxDirectoryError :=
| ForeignWorkspace
| AdminEntry
| InvalidLabel
| DuplicateAddress (address : rstr)
| UnknownRecipient (address : rstr)
| MixedRecipientSelectors
| ReplyRecipientSelectors
| MixedBroadcast.
Fixpoint try_fold {E A B} (f : A → B → result E A) (a : A) (l : list B) : result E A :=
  match l with [] => Ok a | b :: l => let? a := f a b in try_fold f a l end.

Section directory.
Context `{Uuids}.
(** The address a label gives: none if it is the text of the agent's own pane. *)
Definition label_address (i : MailboxIdentity) : option rstr :=
  match recipient_pane_id (id_key i) with
  | Some pane => if bool_decide (id_label i = pane_display pane) then None else Some (id_label i)
  | None => Some (id_label i)
  end.
Definition add_agent (ws : WorkspaceId) (acc : MailboxDirectory * gmap TmuxPaneId (list MailboxIdentity)) (i : MailboxIdentity)
    : result MailboxDirectoryError (MailboxDirectory * gmap TmuxPaneId (list MailboxIdentity)) :=
  let '(d, panes) := acc in
  bail ForeignWorkspace when bool_decide (rk_workspace_id (id_key i) ≠ ws) ;;
  bail AdminEntry when is_admin (id_key i) ;;
  bail InvalidLabel when bool_decide (id_label i = []) || existsb is_control (id_label i) ;;
  let pane := recipient_pane_id (id_key i) in
  let? by_address :=
    match label_address i with
    | Some address =>
        bail (DuplicateAddress address) when bool_decide (is_Some (dy_by_address d !! address)) ;;
        Ok (<[address := i]> (dy_by_address d))
    | None => Ok (dy_by_address d)
    end in
  bail (DuplicateAddress (match pane with Some p => pane_display p | None => recipient_display (id_key i) end)) when
    bool_decide (is_Some (dy_by_recipient d !! id_key i)) ;;
  Ok (MkDirectory (dy_workspace_id d) by_address (dy_by_pane d) (<[id_key i := i]> (dy_by_recipient d)),
      match pane with
      | Some p => <[p := default [] (panes !! p) ++ [i]]> panes
      | None => panes
      end).
(** A pane that one agent alone has is an address too. *)
Definition add_pane (d : MailboxDirectory) (candidate : TmuxPaneId * list MailboxIdentity)
    : result MailboxDirectoryError MailboxDirectory :=
  let '(pane, candidates) := candidate in
  match candidates with
  | [i] =>
      let address := pane_display pane in
      bail (DuplicateAddress address) when bool_decide (is_Some (dy_by_address d !! address)) ;;
      Ok (MkDirectory (dy_workspace_id d) (<[address := i]> (dy_by_address d)) (<[pane := i]> (dy_by_pane d)) (dy_by_recipient d))
  | _ => Ok d
  end.
Definition directory_new (ws : WorkspaceId) (agents : list MailboxIdentity) : result MailboxDirectoryError MailboxDirectory :=
  let? x := try_fold (add_agent ws) (MkDirectory ws ∅ ∅ ∅, ∅) agents in
  try_fold add_pane x.1 (map_to_list x.2).
Definition directory_admin (d : MailboxDirectory) : MailboxIdentity :=
  MkIdentity (recipient_admin (dy_workspace_id d)) (str "admin").
Definition agent_for_pane (d : MailboxDirectory) (pane : TmuxPaneId) : option MailboxIdentity := dy_by_pane d !! pane.
Definition identity_for_recipient (d : MailboxDirectory) (k : RecipientKey) : option MailboxIdentity :=
  if bool_decide (k = id_key (directory_admin d)) then Some (directory_admin d) else dy_by_recipient d !! k.
Definition by_identity_key (a b : MailboxIdentity) : Prop := recipient_key_le (id_key a) (id_key b).
#[export] Instance by_identity_key_dec : RelDecision by_identity_key.
Proof. intros a b. unfold by_identity_key. apply _. Defined.
Definition identities (d : MailboxDirectory) : list MailboxIdentity := (map_to_list (dy_by_recipient d)).*2.
Definition routes (d : MailboxDirectory) : list MailboxIdentity :=
  merge_sort by_identity_key (directory_admin d :: identities d).
Definition current_routes (d : MailboxDirectory) : gmap RecipientKey MessageRecipientRoute :=
  map_imap (λ k i, Some (MkRoute (id_label i) (recipient_pane_id k))) (dy_by_recipient d).
(** The identities in order, each key once. *)
Definition push_new (acc : list MailboxIdentity) (i : MailboxIdentity) : list MailboxIdentity :=
  if bool_decide (id_key i ∈ id_key <$> acc) then acc else acc ++ [i].
Definition named (d : MailboxDirectory) (address : rstr) : result MailboxDirectoryError MailboxIdentity :=
  if bool_decide (address = str "admin") then Ok (directory_admin d)
  else ok_or (dy_by_address d !! address) (UnknownRecipient address).
Definition resolve_addresses (d : MailboxDirectory) (addresses : list rstr) : result MailboxDirectoryError (list MailboxIdentity) :=
  if bool_decide (addresses = [str "*"]) then Ok (merge_sort by_identity_key (identities d))
  else
    bail MixedBroadcast when bool_decide (str "*" ∈ addresses) ;;
    try_fold (λ acc address, let? i := named d address in Ok (push_new acc i)) [] addresses.
Definition resolve_recipient_keys (d : MailboxDirectory) (keys : list RecipientKey)
    : result MailboxDirectoryError (list MailboxIdentity) :=
  try_fold (λ acc k,
    bail ForeignWorkspace when bool_decide (rk_workspace_id k ≠ dy_workspace_id d) ;;
    let? i := ok_or (identity_for_recipient d k) (UnknownRecipient (recipient_display k)) in
    Ok (push_new acc i)) [] keys.

(** ** What the directory holds *)
Lemma try_fold_app {E A B} (f : A → B → result E A) a l l' :
  try_fold f a (l ++ l') = let? a := try_fold f a l in try_fold f a l'.
Proof. revert a. induction l as [|b l IH]; intros a; cbn; [done|]. destruct (f a b); cbn; [apply IH|done]. Qed.
Definition pane_of (i : MailboxIdentity) : option TmuxPaneId := recipient_pane_id (id_key i).
Definition holders (agents : list MailboxIdentity) (p : TmuxPaneId) : list MailboxIdentity :=
  filter (λ i, pane_of i = Some p) agents.
Record agents_filed (ws : WorkspaceId) (agents : list MailboxIdentity)
    (x : MailboxDirectory * gmap TmuxPaneId (list MailboxIdentity)) : Prop := {
  af_workspace : dy_workspace_id x.1 = ws;
  af_agents : Forall (λ i, rk_workspace_id (id_key i) = ws ∧ is_admin (id_key i) = false) agents;
  af_recipients : ∀ k i, dy_by_recipient x.1 !! k = Some i ↔ i ∈ agents ∧ id_key i = k;
  af_addresses : ∀ a i, dy_by_address x.1 !! a = Some i ↔ i ∈ agents ∧ label_address i = Some a;
  af_candidates : ∀ p, default [] (x.2 !! p) = holders agents p;
  af_panes : dy_by_pane x.1 = ∅;
  af_nodup : NoDup (id_key <$> agents);
}.
Lemma add_agent_filed ws agents x i y : agents_filed ws agents x → add_agent ws x i = Ok y → agents_filed ws (agents ++ [i]) y.
Proof.
  destruct x as [d c]. intros [H1 H2 H3 H4 H5 H6 H7]. cbn [fst snd] in *. unfold add_agent.
  destruct (bool_decide (rk_workspace_id _ ≠ _)) eqn:Ew; [done|]. apply bool_decide_eq_false, dec_stable in Ew.
  destruct (is_admin (id_key i)) eqn:Ea; [done|]. destruct (_ || _); [done|].
  destruct (match label_address i with Some _ => _ | None => _ end) as [by_address|] eqn:El; [|done].
  destruct (bool_decide (is_Some (dy_by_recipient d !! id_key i))) eqn:Er; [done|].
  apply bool_decide_eq_false, eq_None_not_Some in Er. intros [= <-].
  assert (∀ j, j ∈ agents → id_key j ≠ id_key i) as Hnew.
  { intros j Hj Hk. pose proof (proj2 (H3 (id_key i) j) (conj Hj Hk)). congruence. }
  split; cbn.
  - done.
  - apply Forall_app. split; [done|]. by constructor.
  - intros k j. rewrite elem_of_app, list_elem_of_singleton. destruct (decide (k = id_key i)) as [->|Hk].
    + rewrite lookup_insert_eq. split; [intros [= ->]; by auto|]. intros [[Hj|Hj] Hkj]; [by destruct (Hnew j Hj)|congruence].
    + rewrite lookup_insert_ne by done. rewrite H3. split; [tauto|]. intros [[Hj|Hj] Hkj]; [done|]. by subst.
  - intros a j. rewrite elem_of_app, list_elem_of_singleton. destruct (label_address i) as [address|] eqn:Eai.
    + destruct (bool_decide (is_Some (dy_by_address d !! address))) eqn:Ed; [done|].
      apply bool_decide_eq_false, eq_None_not_Some in Ed. injection El as <-. destruct (decide (a = address)) as [->|Hne].
      * rewrite lookup_insert_eq. split; [intros [= ->]; by auto|]. intros [[Hj|Hj] Hkj]; [|congruence].
        pose proof (proj2 (H4 address j) (conj Hj Hkj)). congruence.
      * rewrite lookup_insert_ne by done. rewrite H4. split; [tauto|]. intros [[Hj|Hj] Hkj]; [done|]. subst. congruence.
    + injection El as <-. rewrite H4. split; [tauto|]. intros [[Hj|Hj] Hkj]; [done|]. subst. congruence.
  - intros p. unfold holders. rewrite filter_app. cbn. unfold pane_of at 2. destruct (recipient_pane_id (id_key i)) as [q|] eqn:Eq.
    + destruct (decide (p = q)) as [->|Hne].
      * rewrite lookup_insert_eq. cbn. rewrite H5. unfold pane_of. rewrite Eq. by rewrite decide_True.
      * rewrite lookup_insert_ne by done. rewrite H5. unfold pane_of. rewrite Eq. rewrite decide_False by congruence.
        by rewrite app_nil_r.
    + rewrite H5. unfold pane_of. rewrite Eq. rewrite decide_False by done. by rewrite app_nil_r.
  - done.
  - rewrite fmap_app. apply NoDup_app. split_and!; [done| |apply NoDup_singleton].
    intros k (j & -> & Hj)%list_elem_of_fmap Hk%list_elem_of_singleton. by destruct (Hnew j Hj).
Qed.
Lemma add_agents_filed ws agents x :
  try_fold (add_agent ws) (MkDirectory ws ∅ ∅ ∅, ∅) agents = Ok x → agents_filed ws agents x.
Proof.
  revert x. induction agents as [|i agents IH] using rev_ind; intros x.
  - intros [= <-]. split; cbn; try done; [..|constructor]; intros; rewrite lookup_empty;
      (split; [done|intros [Hin _]; by apply elem_of_nil in Hin]).
  - rewrite try_fold_app. destruct (try_fold _ _ agents) as [y|]; [|done]. cbn.
    destruct (add_agent ws y i) as [z|] eqn:Ez; [|done]. intros [= <-]. eapply add_agent_filed; [|done]. by apply IH.
Qed.
Record panes_filed (d0 : MailboxDirectory) (l : list (TmuxPaneId * list MailboxIdentity)) (d : MailboxDirectory) : Prop := {
  pf_workspace : dy_workspace_id d = dy_workspace_id d0;
  pf_recipients : dy_by_recipient d = dy_by_recipient d0;
  pf_addresses : ∀ a i, dy_by_address d !! a = Some i ↔
    dy_by_address d0 !! a = Some i ∨ ∃ p, (p, [i]) ∈ l ∧ a = pane_display p;
  pf_panes : dy_by_pane d0 = ∅ → ∀ p i, dy_by_pane d !! p = Some i ↔ (p, [i]) ∈ l;
}.
Lemma add_pane_filed d0 l d p c d' :
  panes_filed d0 l d → p ∉ l.*1 → add_pane d (p, c) = Ok d' → panes_filed d0 (l ++ [(p, c)]) d'.
Proof.
  intros [H1 H2 H3 H4] Hp. assert (∀ q i, (q, [i]) ∈ l ++ [(p, c)] ↔ (q, [i]) ∈ l ∨ (q = p ∧ c = [i])) as Hin.
  { intros q i. rewrite elem_of_app, list_elem_of_singleton. split; (intros [?|Hq]; [by left|right]); [by simplify_eq|].
    by destruct Hq as [-> ->]. }
  assert (∀ i, (p, [i]) ∉ l) as Hno. { intros i Hi. apply Hp. apply list_elem_of_fmap. by exists (p, [i]). }
  unfold add_pane. destruct c as [|i [|]]; [intros [= <-]| |intros [= <-]].
  1,3: split; [done|done| |]; [intros a j; rewrite H3|intros He q j; rewrite (H4 He)]; setoid_rewrite Hin; naive_solver.
  destruct (bool_decide (is_Some (dy_by_address d !! pane_display p))) eqn:Ed; [done|].
  apply bool_decide_eq_false, eq_None_not_Some in Ed. intros [= <-]. split; cbn; [done|done| |].
  - intros a j. setoid_rewrite Hin. destruct (decide (a = pane_display p)) as [->|Hne].
    + rewrite lookup_insert_eq. split.
      * intros [= ->]. right. exists p. split; [by right|done].
      * intros [Hj|(q & [Hq|[-> [= ->]]] & Ha)]; [|exfalso|done].
        -- pose proof (proj2 (H3 (pane_display p) j) (or_introl Hj)). congruence.
        -- assert (dy_by_address d !! pane_display p = Some j) by (apply H3; right; by exists q). congruence.
    + rewrite lookup_insert_ne by done. rewrite H3. split; [naive_solver|].
      intros [Hj|(q & [Hq|[-> _]] & Ha)]; [by left|right; by exists q|done].
  - intros He q j. rewrite Hin. destruct (decide (q = p)) as [->|Hne].
    + rewrite lookup_insert_eq. split; [intros [= ->]; by right|]. intros [Hj|[_ [= ->]]]; [by destruct (Hno j)|done].
    + rewrite lookup_insert_ne by done. rewrite (H4 He). naive_solver.
Qed.
Lemma add_panes_filed d0 l d : NoDup l.*1 → try_fold add_pane d0 l = Ok d → panes_filed d0 l d.
Proof.
  revert d. induction l as [|[p c] l IH] using rev_ind; intros d Hnd.
  - intros [= <-]. split; [done|done| |].
    + intros a i. split; [by left|]. intros [?|(q & Hq & _)]; [done|by apply elem_of_nil in Hq].
    + intros He q i. rewrite He, lookup_empty. split; [done|]. intros Hq. by apply elem_of_nil in Hq.
  - rewrite fmap_app in Hnd. cbn in Hnd. apply NoDup_app in Hnd as (Hnd & Hdis & _).
    rewrite try_fold_app. destruct (try_fold add_pane d0 l) as [d1|] eqn:E1; [|done].
    cbn [try_fold]. destruct (add_pane d1 (p, c)) as [d2|] eqn:E2; [|done]. cbn. intros [= <-].
    eapply add_pane_filed; [by apply IH| |done]. intros Hin. apply (Hdis p Hin). set_solver.
Qed.
(** ** Addresses *)
(** The names of an agent: its label, unless that is its pane's text, and the pane's
    text if no other agent has a pane of that number. *)
Definition answers_to (agents : list MailboxIdentity) (i : MailboxIdentity) (a : rstr) : Prop :=
  label_address i = Some a ∨ ∃ p, holders agents p = [i] ∧ a = pane_display p.
Record directory_of (ws : WorkspaceId) (agents : list MailboxIdentity) (d : MailboxDirectory) : Prop := {
  do_workspace : dy_workspace_id d = ws;
  do_agents : Forall (λ i, rk_workspace_id (id_key i) = ws ∧ is_admin (id_key i) = false) agents;
  do_nodup : NoDup (id_key <$> agents);
  do_recipients : ∀ k i, dy_by_recipient d !! k = Some i ↔ i ∈ agents ∧ id_key i = k;
  do_addresses : ∀ a i, dy_by_address d !! a = Some i ↔ i ∈ agents ∧ answers_to agents i a;
  do_panes : ∀ p i, dy_by_pane d !! p = Some i ↔ holders agents p = [i];
}.
Lemma holders_elem agents p i : i ∈ holders agents p → i ∈ agents.
Proof. by intros [_ ?]%list_elem_of_filter. Qed.
Lemma directory_new_spec ws agents d : directory_new ws agents = Ok d → directory_of ws agents d.
Proof.
  unfold directory_new. destruct (try_fold (add_agent ws) _ agents) as [[d0 c]|] eqn:E; [|done]. cbn [fst snd].
  apply add_agents_filed in E as [H1 H2 H3 H4 H5 H6 H7]. cbn [fst snd] in *.
  intros [P1 P2 P3 P4]%add_panes_filed; [|apply NoDup_fst_map_to_list].
  assert (∀ p i, (p, [i]) ∈ map_to_list c ↔ holders agents p = [i]) as Hc.
  { intros p i. rewrite elem_of_map_to_list. rewrite <- H5. destruct (c !! p) as [l|]; cbn; [|done].
    split; [by intros [= ->]|by intros ->]. }
  split; [congruence|done|done|by rewrite P2| |by intros p i; rewrite (P4 H6), Hc].
  intros a i. rewrite P3, H4. unfold answers_to. setoid_rewrite Hc. split.
  - intros [[? ?]|(p & Hp & ->)]; [by auto|]. split; [|by eauto]. apply (holders_elem agents p). rewrite Hp. apply list_elem_of_here.
  - intros [Hi [Ha|(p & Hp & ->)]]; [by left|right; by eauto].
Qed.
(** Two agents never answer to one address. *)
Lemma address_names_one ws agents d a i j :
  directory_of ws agents d → i ∈ agents → j ∈ agents → answers_to agents i a → answers_to agents j a → i = j.
Proof.
  intros Hd Hi Hj Ai Aj. pose proof (proj2 (do_addresses _ _ _ Hd a i) (conj Hi Ai)) as E1.
  pose proof (proj2 (do_addresses _ _ _ Hd a j) (conj Hj Aj)) as E2. congruence.
Qed.
(** What a list of addresses asks for. *)
Definition addressed (ws : WorkspaceId) (agents : list MailboxIdentity) (addresses : list rstr) (i : MailboxIdentity) : Prop :=
  if bool_decide (addresses = [str "*"]) then i ∈ agents
  else ∃ a, a ∈ addresses ∧
    (a = str "admin" ∧ i = MkIdentity (recipient_admin ws) (str "admin") ∨ a ≠ str "admin" ∧ i ∈ agents ∧ answers_to agents i a).
Lemma push_new_keys acc i : NoDup (id_key <$> acc) → NoDup (id_key <$> push_new acc i).
Proof.
  unfold push_new. case_bool_decide as Hk; [done|]. intros Hn. rewrite fmap_app. apply NoDup_app. split_and!; [done| |apply NoDup_singleton].
  intros k Hin ->%list_elem_of_singleton. done.
Qed.
(** Identities taken from a set in which a key names one. *)
Lemma push_new_elem (P : MailboxIdentity → Prop) acc i :
  (∀ x y, P x → P y → id_key x = id_key y → x = y) → Forall P acc → P i → ∀ x, x ∈ push_new acc i ↔ x ∈ acc ∨ x = i.
Proof.
  intros Hinj Hacc Hi x. unfold push_new. case_bool_decide as Hk.
  - apply list_elem_of_fmap in Hk as (y & Hy & Hin). split; [by left|]. intros [?| ->]; [done|].
    assert (i = y) as -> by (apply Hinj; [done|by eapply Forall_elem|done]). done.
  - by rewrite elem_of_app, list_elem_of_singleton.
Qed.
Section resolution.
Context (ws : WorkspaceId) (agents : list MailboxIdentity) (d : MailboxDirectory) (Hd : directory_of ws agents d).
Definition listed (i : MailboxIdentity) : Prop := i = directory_admin d ∨ i ∈ agents.
Lemma listed_key x y : listed x → listed y → id_key x = id_key y → x = y.
Proof.
  assert (∀ i, i ∈ agents → id_key i ≠ id_key (directory_admin d)) as Hadm.
  { intros i Hi Hk. destruct (Forall_elem _ _ _ (do_agents _ _ _ Hd) Hi) as [_ Hn]. by rewrite Hk in Hn. }
  intros [->|Hx] [->|Hy] Hk; [done|by destruct (Hadm y)|by destruct (Hadm x)|].
  pose proof (proj2 (do_recipients _ _ _ Hd (id_key x) x) (conj Hx eq_refl)) as E1.
  pose proof (proj2 (do_recipients _ _ _ Hd (id_key x) y) (conj Hy (eq_sym Hk))) as E2. congruence.
Qed.
Lemma named_Ok a i :
  named d a = Ok i ↔
  a = str "admin" ∧ i = MkIdentity (recipient_admin ws) (str "admin") ∨ a ≠ str "admin" ∧ i ∈ agents ∧ answers_to agents i a.
Proof.
  unfold named. case_bool_decide as Ha.
  - unfold directory_admin. rewrite (do_workspace _ _ _ Hd). split; [intros [= <-]; by left|]. by intros [[_ ->]|[? _]].
  - rewrite <- (do_addresses _ _ _ Hd). destruct (dy_by_address d !! a) as [j|]; cbn; naive_solver.
Qed.
Lemma named_listed a i : named d a = Ok i → listed i.
Proof.
  intros [[_ ->]|(_ & Hi & _)]%named_Ok; [left|by right]. unfold directory_admin. by rewrite (do_workspace _ _ _ Hd).
Qed.
Lemma resolve_fold addresses acc :
  NoDup (id_key <$> acc) → Forall listed acc →
  (∃ l, try_fold (λ acc address, let? i := named d address in Ok (push_new acc i)) acc addresses = Ok l ∧
     NoDup (id_key <$> l) ∧ Forall listed l ∧ (∀ x, x ∈ l ↔ x ∈ acc ∨ ∃ a, a ∈ addresses ∧ named d a = Ok x) ∧
     ∀ a, a ∈ addresses → ∃ i, named d a = Ok i) ∨
  (∃ e a, try_fold (λ acc address, let? i := named d address in Ok (push_new acc i)) acc addresses = Err e ∧
     a ∈ addresses ∧ ∀ i, named d a ≠ Ok i).
Proof.
  revert acc. induction addresses as [|a addresses IH]; intros acc Hn Hl; cbn [try_fold].
  - left. exists acc. split_and!; try done; [|intros a Ha; by apply elem_of_nil in Ha].
    intros x. split; [by left|]. intros [?|(a & Ha & _)]; [done|by apply elem_of_nil in Ha].
  - destruct (named d a) as [i|e] eqn:Ea.
    2:{ right. exists e, a. split_and!; [done|apply list_elem_of_here|congruence]. }
    pose proof (named_listed a i Ea) as Hi. pose proof (push_new_elem listed acc i listed_key Hl Hi) as Hx.
    destruct (IH (push_new acc i)) as [(l & E & H1 & H2 & H3 & H4)|(e & b & E & Hb & H1)].
    + by apply push_new_keys.
    + apply Forall_forall. intros x [Hin| ->]%Hx; [by eapply Forall_elem|done].
    + left. exists l. split_and!; [done|done|done| |].
      * intros x. rewrite H3, Hx. setoid_rewrite elem_of_cons. split.
        -- intros [[?| ->]|(b & ? & ?)]; [by left|right; exists a; by auto|right; exists b; by auto].
        -- intros [?|(b & [->|?] & ?)]; [by auto|left; right; congruence|right; by eauto].
      * intros b [->|Hb]%elem_of_cons; [by eauto|by apply H4].
    + right. exists e, b. split_and!; [done|by apply list_elem_of_further|done].
Qed.
End resolution.
(** An address names one recipient.  A list of addresses resolves exactly if
    it is the broadcast alone, or each address is the admin's or answers to an
    agent; what it resolves to is each addressed recipient once and nobody else.
    An agent answers to its label, and to its pane's text if no other agent has a
    pane of that number; the broadcast reaches every agent and not the admin. *)
Lemma recipients_are_exact ws agents d addresses :
  directory_new ws agents = Ok d →
  ((∃ l, resolve_addresses d addresses = Ok l) ↔
   addresses = [str "*"] ∨ ((str "*" ∉ addresses) ∧ ∀ a, a ∈ addresses → ∃ i, addressed ws agents [a] i)) ∧
  ∀ l, resolve_addresses d addresses = Ok l →
    NoDup (id_key <$> l) ∧ ∀ i, i ∈ l ↔ addressed ws agents addresses i.
Proof.
  intros Hd%directory_new_spec. unfold resolve_addresses.
  destruct (decide (addresses = [str "*"])) as [Hb|Hb].
  { rewrite bool_decide_eq_true_2 by done. split; [split; [by left|by eexists]|]. intros l [= <-].
    assert (∀ i, i ∈ identities d ↔ i ∈ agents) as Hi.
    { intros i. unfold identities. rewrite list_elem_of_fmap. split.
      - intros ([k j] & -> & Hj). apply elem_of_map_to_list in Hj. by apply (do_recipients _ _ _ Hd) in Hj as [? _].
      - intros Hin. exists (id_key i, i). split; [done|]. apply elem_of_map_to_list. by apply (do_recipients _ _ _ Hd). }
    split.
    - rewrite (merge_sort_Permutation by_identity_key (identities d)). unfold identities.
      replace (id_key <$> (map_to_list (dy_by_recipient d)).*2) with (map_to_list (dy_by_recipient d)).*1; [apply NoDup_fst_map_to_list|].
      rewrite <- list_fmap_compose. apply list_fmap_ext. intros n [k i] Hx%list_elem_of_lookup_2. cbn.
      apply elem_of_map_to_list in Hx. by apply (do_recipients _ _ _ Hd) in Hx as [_ ?].
    - intros i. unfold addressed. rewrite bool_decide_eq_true_2 by done. by rewrite merge_sort_Permutation. }
  rewrite bool_decide_eq_false_2 by done. destruct (decide (str "*" ∈ addresses)) as [Hs|Hs].
  { rewrite bool_decide_eq_true_2 by done. split; [|done]. split; [by intros [l ?]|by intros [?|[? _]]]. }
  rewrite bool_decide_eq_false_2 by done.
  assert (∀ a i, a ∈ addresses → (addressed ws agents [a] i ↔ named d a = Ok i)) as Hone.
  { intros a i Ha. unfold addressed. rewrite bool_decide_eq_false_2 by (intros [= ->]; done).
    rewrite (named_Ok ws agents d Hd). setoid_rewrite list_elem_of_singleton. split; [intros (x & -> & Hx); exact Hx|eauto]. }
  destruct (resolve_fold ws agents d Hd addresses []) as [(l & E & H1 & _ & H3 & H4)|(e & b & E & Hin & H1)]; [constructor|constructor| |].
  - rewrite E. split.
    + split; [|by eauto]. intros _. right. split; [done|]. intros a Ha. destruct (H4 a Ha) as [i Hi]. exists i. by apply Hone.
    + intros l' [= <-]. split; [done|]. intros i. rewrite H3. unfold addressed. rewrite bool_decide_eq_false_2 by done.
      setoid_rewrite (named_Ok ws agents d Hd). split; [intros [Hn|?]; [by apply elem_of_nil in Hn|done]|by right].
  - rewrite E. split; [|done]. split; [by intros [l ?]|]. intros [?|[_ Hall]]; [done|].
    destruct (Hall b Hin) as [i Hi]. apply (Hone b i Hin) in Hi. by destruct (H1 i).
Qed.
End directory.
