(* ===== verification/StoreInv.v ===== *)
(** * Store invariants

    [store_ok]: the projection is what replaying the acknowledged rows gives,
    and the file holds those rows, followed at most by part of one row whose
    append failed.  Appending a row preserves it ([append_row_ok]), and reopening
    the file rebuilds the same projection. *)
From S2P Require Import Prelude Text Identity Ledger Journal Mailbox Notification Facts.
From S2P Require Import Facts Projection Attempt Prepared MailboxInv NotificationInv.
From S2P Require Import Invariant Replay Entries Guarantees Store.
Local Open Scope N_scope.

Section store_inv.
Context {V : Type} {serde : Serde V} {codec : LineCodec V} {uuids : Uuids} {digests : Digests}
  {codec_laws : LineCodecLaws V}.
Implicit Types (p : MailboxProjection V) (line : LedgerLine V) (s : MessageStore (V:=V)).

(** The bytes after the acknowledged rows: nothing, or the start of a row the
    projection had accepted. *)
Definition torn_tail s (tail : list N) : Prop :=
  tail = [] ∨
  ∃ row json n p', tail = take n (json ++ [10]) ∧ line_to_vec row = Ok json ∧ line_storable row ∧
    ll_seq row = lw_next_seq (st_writer s) ∧ lw_next_seq (st_writer s) + 1 ≤ u64_max ∧
    apply_owned (st_projection s) row = AppliedOk p'.

Record store_ok (ws : WorkspaceId) s (rows : list (LedgerLine V)) : Prop := {
  sk_replay : replay (projection_new ws) rows = AppliedOk (st_projection s);
  sk_storable : Forall line_storable rows;
  sk_contiguous : contiguous 1 rows;
  sk_next : lw_next_seq (st_writer s) = 1 + N.of_nat (length rows);
  sk_max : lw_next_seq (st_writer s) ≤ u64_max;
  sk_file : ∃ bytes tail, encode_rows rows = Ok bytes ∧ lw_file (st_writer s) = bytes ++ tail ∧
    torn_tail s tail ∧ (lw_write_state_unknown (st_writer s) = false → tail = []);
}.

Lemma store_ok_wf ws s rows : store_ok ws s rows → wf (st_projection s).
Proof. intros H. apply reachable_wf. exists ws, rows. apply H. Qed.
Lemma store_ok_reachable ws s rows : store_ok ws s rows → reachable (st_projection s).
Proof. intros H. exists ws, rows. apply H. Qed.

Lemma store_ok_seq ws s rows :
  store_ok ws s rows → last_seq (st_projection s) + 1 = lw_next_seq (st_writer s).
Proof.
  intros H. pose proof (apply_all_wf true _ rows (wf_new ws)) as Hwf.
  pose proof (sk_replay _ _ _ H) as Hr. unfold replay in Hr. rewrite Hr in Hwf.
  destruct Hwf as [_ ->]. rewrite (sk_next _ _ _ H). cbn. lia.
Qed.

(** A row made for the current writer is stored as it is. *)
Definition row_for s line : Prop :=
  ll_seq line = lw_next_seq (st_writer s) ∧ ll_boot_id line = lw_boot_id (st_writer s) ∧
  ll_ts line ≠ 0 ∧ line_storable line.

Lemma stamp_row s line now : row_for s line → stamp (st_writer s) now line = line.
Proof.
  intros (Hs & Hb & Ht & _). unfold stamp. rewrite <-Hs, <-Hb.
  rewrite (proj2 (N.eqb_neq _ _) Ht). by destruct line.
Qed.

(** ** One row *)
Lemma append_row_ok ws s rows env line s' o :
  store_ok ws s rows → row_for s line → append_row s env line = (s', o) →
  match o with
  | Done row => row = line ∧ store_ok ws s' (rows ++ [line]) ∧
      apply_owned (st_projection s) line = AppliedOk (st_projection s')
  | Failed _ => store_ok ws s' rows ∧ st_projection s' = st_projection s
  | Panicked => False
  end.
Proof.
  intros Hok Hrow. unfold append_row.
  destruct (prepare_line (st_projection s) line) as [m|e] eqn:Hp; [|intros [= <- <-]; done].
  pose proof (apply_inner_wf (st_projection s) line false (store_ok_wf _ _ _ Hok)) as Happ.
  unfold apply_inner in Happ. unfold prepare_line in Hp. rewrite Hp in Happ.
  destruct (commit_line (st_projection s) line m) as [p'|] eqn:Hc; [|done].
  destruct Happ as (_ & Hlast & _).
  assert (apply_owned (st_projection s) line = AppliedOk p') as Hao.
  { unfold apply_owned, apply_inner. by rewrite Hp, Hc. }
  destruct Hok as [Hr Hs Hcg Hn Hm (bytes & tail & Hb & Hf & Ht & Hu)].
  unfold append. rewrite (stamp_row _ _ _ Hrow).
  destruct (lw_sealed (st_writer s)) eqn:Hse.
  { intros [= <- <-]. split; [|done]. split; try done. exists bytes, tail. split_and!; try done; intros _; by apply Hu. }
  destruct (lw_write_state_unknown (st_writer s)) eqn:Hun.
  { intros [= <- <-]. split; [|done]. split; try done. cbn. exists bytes, tail.
    split_and!; try done. by rewrite Hun. }
  destruct (checked_add_u64 (lw_next_seq (st_writer s)) 1) as [following|] eqn:Hadd.
  2: { intros [= <- <-]. split; [|done]. split; try done. cbn. exists bytes, tail. split_and!; try done; intros _; by apply Hu. }
  apply checked_add_u64_Some in Hadd as [-> Hmax].
  destruct (line_to_vec line) as [json|e] eqn:Hj.
  2: { intros [= <- <-]. split; [|done]. split; try done. cbn. exists bytes, tail. split_and!; try done; intros _; by apply Hu. }
  rewrite (Hu eq_refl), app_nil_r in Hf. destruct Hrow as (Hseq & _ & _ & Hst).
  destruct (io_written (env_io env)) as [n|].
  { intros [= <- <-]. split; [|done]. split; try done. cbn. exists bytes, (take n (json ++ [10])).
    split_and!; try done; [by rewrite Hf|]. right. exists line, json, n, p'. by split_and!. }
  destruct (io_synced (env_io env)).
  - rewrite Hc. intros [= <- <-]. split; [done|]. split; [|done]. split; cbn.
    + unfold replay in *. erewrite apply_all_app by exact Hr. cbn [apply_all].
      by rewrite (apply_live_replay _ _ _ Hao).
    + apply Forall_app. split; [done|]. by apply Forall_singleton.
    + apply contiguous_app. split; [done|]. by rewrite Hseq, Hn.
    + rewrite Hn, length_app. cbn. lia.
    + done.
    + exists (bytes ++ json ++ [10]), []. rewrite app_nil_r, Hf.
      split_and!; [by apply encode_rows_app|done|by left|done].
  - intros [= <- <-]. split; [|done]. split; try done. cbn.
    exists bytes, (take (length (json ++ [10])) (json ++ [10])).
    split_and!; try done; [by rewrite Hf, firstn_all|]. right.
    exists line, json, (length (json ++ [10])), p'. by split_and!.
Qed.

(** ** Reopening *)
Lemma store_reopens ws s rows boot_id :
  store_ok ws s rows →
  ∃ s2 extra, store_open (lw_file (st_writer s)) true ws boot_id = Done s2 ∧
    (length extra ≤ 1)%nat ∧ store_ok ws s2 (rows ++ extra) ∧
    (lw_write_state_unknown (st_writer s) = false → extra = [] ∧ st_projection s2 = st_projection s).
Proof.
  intros Hok. destruct Hok as [Hr Hs Hcg Hn Hm (bytes & tail & Hb & Hf & Ht & Hu)].
  assert (∀ torn, 10 ∉ torn → ∃ s2,
    store_open (bytes ++ torn) true ws boot_id = Done s2 ∧ store_ok ws s2 rows ∧
    st_projection s2 = st_projection s) as Hsame.
  { intros torn Hnt. eexists. unfold store_open.
    rewrite (open_strict_rows rows bytes torn) by (done || by rewrite <-Hn). rewrite Hr.
    split_and!; [done| |done]. split; cbn; try done; [by rewrite <-Hn|].
    exists bytes, []. rewrite app_nil_r. split_and!; [done|done|by left|done]. }
  assert (∃ s2, store_open bytes true ws boot_id = Done s2 ∧ store_ok ws s2 rows ∧
    st_projection s2 = st_projection s) as Hclean.
  { destruct (Hsame [] ltac:(set_solver)) as (s2 & H2). rewrite app_nil_r in H2. by eauto. }
  rewrite Hf. destruct Ht as [->|(row & json & n & p' & -> & Hj & Hst & Hseq & Hmax & Happ)].
  - rewrite app_nil_r. destruct Hclean as (s2 & Ho & Hok2 & Hp2). exists s2, [].
    rewrite app_nil_r. split_and!; try done. cbn. lia.
  - destruct (decide (n ≤ length json)%nat) as [Hle|Hgt].
    + rewrite take_app_le by done. destruct (Hsame (take n json)) as (s2 & Ho & Hok2 & Hp2).
      { intros Hin. apply (proj1 (line_codec_one_line _ _ Hj)).
        apply elem_of_take in Hin as (i & Hi & _). by eapply list_elem_of_lookup_2. }
      exists s2, []. rewrite app_nil_r. split_and!; try done. cbn. lia.
    + rewrite take_ge by (rewrite length_app; cbn; lia).
      assert (encode_rows (rows ++ [row]) = Ok (bytes ++ json ++ [10])) as He by by apply encode_rows_app.
      assert (Forall line_storable (rows ++ [row])) as Hs'.
      { apply Forall_app. split; [done|]. by apply Forall_singleton. }
      assert (contiguous 1 (rows ++ [row])) as Hc'.
      { apply contiguous_app. split; [done|]. by rewrite Hseq, Hn. }
      assert (1 + N.of_nat (length (rows ++ [row])) ≤ u64_max) as Hl'.
      { rewrite length_app. cbn. rewrite Hn in Hmax. lia. }
      exists (MkStore (MkWriter (bytes ++ json ++ [10]) (1 + N.of_nat (length (rows ++ [row])))
                true false false true boot_id) p' None), [row].
      unfold store_open. rewrite <-(app_nil_r (bytes ++ json ++ [10])) at 1.
      rewrite (open_strict_rows (rows ++ [row])) by (done || set_solver).
      assert (replay (projection_new ws) (rows ++ [row]) = AppliedOk p') as Hr'.
      { unfold replay in *. erewrite apply_all_app by exact Hr. cbn [apply_all].
        by rewrite (apply_live_replay _ _ _ Happ). }
      rewrite Hr'. split_and!; [done|cbn; lia| |].
      * split; cbn; try done. exists (bytes ++ json ++ [10]), []. rewrite app_nil_r.
        split_and!; [done|done|by left|done].
      * intros Hun. apply Hu in Hun. exfalso. revert Hun.
        rewrite take_ge by (rewrite length_app; cbn; lia). by destruct json.
Qed.

(** [C2.] Durability of the store: after any history of operations, whatever
    the disk did, reopening the journal file succeeds; with no failed write it
    rebuilds exactly the projection the daemon had, and after one it adds at
    most the row whose append was not acknowledged. *)
Theorem reopening_rebuilds_the_store ws s rows boot_id :
  store_ok ws s rows →
  ∃ s2 extra, store_open (lw_file (st_writer s)) true ws boot_id = Done s2 ∧
    (length extra ≤ 1)%nat ∧ store_ok ws s2 (rows ++ extra) ∧
    (lw_write_state_unknown (st_writer s) = false → extra = [] ∧ st_projection s2 = st_projection s).
Proof. apply store_reopens. Qed.
End store_inv.
