(* ===== verification/StoreOps.v ===== *)
(** * Store operations preserve the store

    Every operation of the store, with any clock and any disk, keeps
    [store_ok] and never panics. *)
From S2P Require Import Prelude Text Identity Ledger Journal Mailbox Notification Facts.
From S2P Require Import Facts Projection Attempt Prepared MailboxInv NotificationInv.
From S2P Require Import Invariant Replay Entries Guarantees Store StoreInv.
Local Open Scope N_scope.

Section store_ops.
Context {V : Type} {serde : Serde V} {codec : LineCodec V} {uuids : Uuids} {digests : Digests}
  {codec_laws : LineCodecLaws V} {serde_laws : SerdeLaws V}.
Implicit Types (p : MailboxProjection V) (line : LedgerLine V) (s : MessageStore (V:=V)).

(** The payloads serialise to JSON objects, which the journal can store. *)
Class StorableLaws := {
  metadata_storable m v : metadata_to_value m = Ok v → value_storable v = true;
  mailbox_fact_storable f v : mailbox_fact_to_value f = Ok v → value_storable v = true;
  notification_fact_storable f v : notification_fact_to_value f = Ok v → value_storable v = true;
}.
Context {storable_laws : StorableLaws}.

(** The [prepare_*] function of a fact. *)
Definition prepare_fact (f : NotificationFact) p line (replaying : bool)
    : result MailboxError PreparedMutation :=
  match f with
  | NotificationTransition _ => prepare_notification_transition p line replaying
  | NotificationUnclaimedReminderQueued _ => prepare_unclaimed_reminder_queued p line
  | NotificationRequeued _ _ => prepare_notification_requeue p line
  | NotificationsRequeued _ _ _ => prepare_notification_requeues p line
  | NotificationCleared _ => prepare_notification_clear p line
  | NotificationsCleared _ _ _ _ _ => prepare_notification_clears p line
  | NotificationWithdrawnBeforeWrite _ _ => prepare_notification_withdrawal p line replaying
  | NotificationResolutionIntent _ _ _ => prepare_notification_resolution_intent p line
  | NotificationResolutionActionReserved _ _ => prepare_notification_resolution_action_reserved p line
  | NotificationResolutionActionAccepted _ _ => prepare_notification_resolution_action_accepted p line
  | NotificationResolutionConsumptionObserved _ _ _ =>
      prepare_notification_resolution_consumption_observed p line
  | NotificationResolutionIntentWithdrawn _ _ => prepare_notification_resolution_intent_withdrawn p line
  | NotificationResolvedWithoutTerminalAction _ _ =>
      prepare_notification_resolution_without_terminal_action p line
  | NotificationResolved _ _ _ => prepare_notification_resolution p line
  | NotificationClaimedStagedCleared _ => prepare_notification_claimed_staged_clear p line
  | NotificationClaimedAckTimeoutReconciled _ =>
      prepare_notification_claimed_ack_timeout_reconciliation p line
  | NotificationBarrierRetired _ _ _ => prepare_notification_barrier_retirement p line
  end.

Definition fact_ids_valid (f : NotificationFact) : Prop :=
  ∀ id, notification_fact_message f = Some id → message_id_valid id.

(** A serialised fact is dispatched to its own function and read back. *)
Lemma prepare_state_fact f v p line replaying :
  notification_fact_to_value f = Ok v → ll_data line = Some v →
  prepare_state p line replaying = prepare_fact f p line replaying.
Proof.
  intros Hv Hd. unfold prepare_state. rewrite Hd. cbn [mbind option_bind].
  rewrite (notification_to_tag _ _ Hv). by destruct f.
Qed.

Lemma notification_fact_of f v line :
  fact_ids_valid f → notification_fact_to_value f = Ok v → ll_data line = Some v →
  notification_fact line = Ok f.
Proof.
  intros Hid Hv Hd. unfold notification_fact. rewrite Hd. cbn [ok_or].
  by rewrite (notification_to_from _ _ Hid Hv).
Qed.

Lemma prepare_line_state p line m :
  prepare_line p line = Ok m → ll_kind line = KState → prepare_state p line false = Ok m.
Proof.
  unfold prepare_line, prepare_line_inner. intros H Hk. destruct (ok_or _ _); [|done].
  destruct (negb _); [done|]. by rewrite Hk in H.
Qed.

(** The recipient's record a fact leaves behind. *)
Definition fact_key (f : NotificationFact) : option (RecipientKey * MessageId) :=
  match f with
  | NotificationTransition t => Some (tf_recipient t, tf_message_id t)
  | NotificationRequeued _ a | NotificationCleared a => Some (ar_recipient a, ar_message_id a)
  | NotificationWithdrawnBeforeWrite a _ => Some (ar_recipient a, ar_message_id a)
  | _ => None
  end.

(** The facts that change a wake attempt; a cleared alarm keeps its record. *)
Definition moves_wake (f : NotificationFact) : Prop :=
  match f with
  | NotificationTransition _ | NotificationRequeued _ _ | NotificationsRequeued _ _ _
  | NotificationWithdrawnBeforeWrite _ _ => True
  | _ => False
  end.
(** The row a fact is stored in. *)
Definition row_of line (f : NotificationFact) : Prop :=
  fact_ids_valid f ∧ ll_kind line = KState ∧ ∃ v, notification_fact_to_value f = Ok v ∧ ll_data line = Some v.
Definition wake_row line : Prop := ∃ f, row_of line f ∧ moves_wake f.
Lemma fact_record_present f p line m k :
  notification_fact line = Ok f → prepare_fact f p line false = Ok m → fact_key f = Some k →
  ∃ r, notifications_after m (notifications p) !! k = Some r ∧ (moves_wake f → nr_updated_seq r = ll_seq line).
Proof.
  intros Hf Hm Hk. destruct f; try done; cbn [prepare_fact fact_key] in *; injection Hk as <-.
  - unfold prepare_notification_transition in Hm. rewrite Hf in Hm. ok_inv. cbn.
    rewrite lookup_insert_eq. eexists. split; [done|]. intros _. unfold prepare_transition_record in *.
    by destruct (notifications p !! _); ok_inv.
  - unfold prepare_notification_requeue in Hm. rewrite Hf in Hm. ok_inv.
    unfold prepare_notification_requeue_record in *. ok_inv. cbn. rewrite lookup_insert_eq. by eexists.
  - unfold prepare_notification_clear in Hm. rewrite Hf in Hm. ok_inv.
    unfold current_attempt in *. ok_inv. cbn. by eexists.
  - unfold prepare_notification_withdrawal in Hm. rewrite Hf in Hm. ok_inv. cbn.
    rewrite lookup_insert_eq. by eexists.
Qed.

(** ** Rows the operations build *)
Lemma state_row_for s env id ts from to v :
  lw_next_seq (st_writer s) ≤ u64_max → ts ≤ u64_max → env_now env ≤ u64_max →
  value_storable v = true → row_for s (state_row s env id ts from to v).
Proof.
  intros Hn Ht He Hv. unfold row_for, state_row, line_storable; cbn. unfold row_ts.
  split_and!; try done.
  - destruct (N.eqb_spec ts 0); lia.
  - destruct (N.eqb_spec ts 0); unfold u64_max in *; lia.
  - intros v' [= <-]. done.
Qed.

Lemma draft_row_for s env id draft ts labels v :
  lw_next_seq (st_writer s) ≤ u64_max → ts ≤ u64_max → env_now env ≤ u64_max →
  value_storable v = true → row_for s (draft_row s env id draft ts labels v).
Proof.
  intros Hn Ht He Hv. unfold row_for, draft_row, line_storable; cbn. unfold row_ts.
  split_and!; try done.
  - destruct (N.eqb_spec ts 0); lia.
  - destruct (N.eqb_spec ts 0); unfold u64_max in *; lia.
  - intros v' [= <-]. done.
Qed.

(** ** The outcome of one operation *)

(** The store is still in order, and its history was only extended. *)
Definition op_ok {A} (ws : WorkspaceId) (rows : list (LedgerLine V))
    (r : MessageStore (V:=V) * outcome A) : Prop :=
  (∃ extra, store_ok ws r.1 (rows ++ extra)) ∧
  match r.2 with Panicked => False | _ => True end.

Lemma op_ok_same {A} ws rows s (o : outcome A) :
  store_ok ws s rows → match o with Panicked => False | _ => True end → op_ok ws rows (s, o).
Proof. intros Hok Ho. split; [|done]. exists []. by rewrite app_nil_r. Qed.

(** What one row is enough for: the projection is as it was, or one row was
    appended and the operation answers.  [Q] is what the answer says of the row. *)
Definition op_one {A} (ws : WorkspaceId) (rows : list (LedgerLine V)) s
    (Q : option (LedgerLine V) → A → Prop) (r : MessageStore (V:=V) * outcome A) : Prop :=
  (store_ok ws r.1 rows ∧ st_projection r.1 = st_projection s ∧
   match r.2 with Done a => Q None a | Failed _ => True | Panicked => False end) ∨
  ∃ line a, r.2 = Done a ∧ store_ok ws r.1 (rows ++ [line]) ∧
    apply_owned (st_projection s) line = AppliedOk (st_projection r.1) ∧ Q (Some line) a.

Lemma op_one_ok {A} ws rows s Q (r : MessageStore (V:=V) * outcome A) : op_one ws rows s Q r → op_ok ws rows r.
Proof.
  intros [(Hok & _ & Ho)|(line & a & Ho & Hok & _)]; split.
  - exists []. by rewrite app_nil_r.
  - by destruct r.2.
  - by exists [line].
  - by rewrite Ho.
Qed.
Lemma op_one_same {A} ws rows s (Q : option (LedgerLine V) → A → Prop) (o : outcome A) :
  store_ok ws s rows → match o with Done a => Q None a | Failed _ => True | Panicked => False end →
  op_one ws rows s Q (s, o).
Proof. intros Hok Ho. by left. Qed.
Lemma op_one_weaken {A} ws rows s (Q R : option (LedgerLine V) → A → Prop) r :
  op_one ws rows s Q r → (∀ o a, Q o a → R o a) → op_one ws rows s R r.
Proof.
  intros [(H1 & H2 & H3)|(line & a & H1 & H2 & H3 & H4)] HQ; [left|right].
  - split_and!; [done..|]. destruct r.2; by auto.
  - exists line, a. by auto.
Qed.
Lemma op_one_map {A B} ws rows s Q R (f : A → B) (r : MessageStore (V:=V) * outcome A) :
  op_one ws rows s Q r → (∀ o a, Q o a → R o (f a)) →
  op_one ws rows s R
    (match r with
     | (s', Done a) => (s', Done (f a))
     | (s', Failed e) => (s', Failed e)
     | (s', Panicked) => (s', Panicked)
     end).
Proof.
  intros H HQ. destruct r as [s' [a|e|]]; cbn in H.
  - destruct H as [(H1 & H2 & H3)|(line & b & [= ->] & H1 & H2 & H3)]; [left|right]; cbn; [by auto|].
    exists line, (f b). by auto.
  - by destruct H as [(H1 & H2 & H3)|(line & b & ? & _)]; [left|].
  - by destruct H as [(H1 & H2 & H3)|(line & b & ? & _)].
Qed.
(** An operation that appends one row and then reads the new state. *)
Lemma op_one_append {A} ws rows s env line (Q : option (LedgerLine V) → A → Prop)
    (k : MessageStore (V:=V) → MessageStore (V:=V) * outcome A) :
  store_ok ws s rows → row_for s line →
  (∀ s', store_ok ws s' (rows ++ [line]) →
     apply_owned (st_projection s) line = AppliedOk (st_projection s') →
     ∃ a, k s' = (s', Done a) ∧ Q (Some line) a) →
  op_one ws rows s Q
    (match append_row s env line with
     | (s', Done _) => k s'
     | (s', Failed e) => (s', Failed e)
     | (s', Panicked) => (s', Panicked)
     end).
Proof.
  intros Hok Hrow Hk. destruct (append_row s env line) as [s' o] eqn:Ha.
  pose proof (append_row_ok _ _ _ _ _ _ _ Hok Hrow Ha) as Hres. destruct o as [row|e|]; [|..|done].
  - destruct Hres as (-> & Hok' & Happ). destruct (Hk _ Hok' Happ) as (a & -> & HQ).
    right. by exists line, a.
  - destruct Hres as [Hok' Hp]. by left.
Qed.

(** ** Accepting *)
Lemma accept_existing_ok p draft existing :
  wf p → check_acceptance p draft = Ok (AcceptExisting existing) →
  ∃ line md, stored_message p existing line md ∧
    accept_existing p existing =
      Done (MkAcceptResult existing (md_thread_root md) false (ll_seq line) (ll_to line)
              (md_recipients md)).
Proof.
  intros Hwf H. unfold check_acceptance in H. ok_inv.
  destruct (cd_client_key draft) as [key|]; cbn [mbind option_bind] in H; [|by ok_inv].
  destruct (idempotency_index p !! _) as [[id d]|] eqn:Hi; cbn [mbind option_bind] in H; [|by ok_inv].
  match type of H with (if ?b then _ else _) = _ => destruct b; [|done] end. injection H as ->.
  destruct (mw_idempotency _ (wf_mailbox _ Hwf) _ _ _ _ Hi) as (line & md & [Hl Hm] & _).
  exists line, md. split; [done|]. unfold accept_existing, get_message. by rewrite Hl, Hm.
Qed.

(** What an answer says of the row: a fresh message is the row's. *)
Definition accepted_row (o : option (LedgerLine V)) (a : AcceptResult) : Prop :=
  match o with
  | None => as_inserted a = false
  | Some line => as_inserted a = true ∧ as_seq a = ll_seq line
  end.
Lemma accept_canonical_op_one ws rows s env id draft ts :
  store_ok ws s rows → ts ≤ u64_max → env_now env ≤ u64_max →
  op_one ws rows s accepted_row (accept_canonical_at s env id draft ts).
Proof.
  intros Hok Hts Henv. unfold accept_canonical_at.
  destruct (check_acceptance (st_projection s) draft) as [[digest|existing]|e] eqn:Hc;
    [|..|by apply op_one_same].
  - destruct (draft_thread_root _ _ _) as [root|e]; [|by apply op_one_same].
    destruct (presentation_labels _ _) as [[l labels]|e]; [|by apply op_one_same].
    destruct (metadata_to_value _) as [v|e] eqn:Hv; [|by apply op_one_same].
    set (line := draft_row s env id draft ts labels v).
    apply (op_one_append ws rows s env line accepted_row (λ s', (s', Done (MkAcceptResult id root true
      (ll_seq line) (ll_to line) (cd_recipients draft))))); [done| |].
    + apply draft_row_for; [apply Hok|done..|by eapply metadata_storable].
    + intros s' _ _. by eexists.
  - destruct (accept_existing_ok _ _ _ (store_ok_wf _ _ _ Hok) Hc) as (l & md & _ & ->).
    by apply op_one_same.
Qed.
Lemma accept_canonical_op_ok ws rows s env id draft ts :
  store_ok ws s rows → ts ≤ u64_max → env_now env ≤ u64_max →
  op_ok ws rows (accept_canonical_at s env id draft ts).
Proof. intros. by eapply op_one_ok, accept_canonical_op_one. Qed.

Lemma reply_op_one ws rows s env id draft ts :
  store_ok ws s rows → ts ≤ u64_max → env_now env ≤ u64_max →
  op_one ws rows s accepted_row (reply_at s env id draft ts).
Proof.
  intros Hok Hts Henv. unfold reply_at. destruct (derive_reply _ _ _); [|by apply op_one_same].
  by apply accept_canonical_op_one.
Qed.
Lemma reply_op_ok ws rows s env id draft ts :
  store_ok ws s rows → ts ≤ u64_max → env_now env ≤ u64_max →
  op_ok ws rows (reply_at s env id draft ts).
Proof. intros. by eapply op_one_ok, reply_op_one. Qed.

(** ** Claiming *)
Definition claim_row (claimant : RecipientKey) (id : MessageId) line : Prop :=
  message_id_valid id ∧ ll_kind line = KState ∧ ∃ r v,
    mailbox_fact_to_value (MessageClaimed CANONICAL_RECORD_VERSION id r claimant) = Ok v ∧ ll_data line = Some v.
Definition claimed_row (claimant : RecipientKey) (id : MessageId) (o : option (LedgerLine V)) (c : ClaimOutcome) : Prop :=
  match c with
  | ClaimedOutcome _ _ _ _ _ => ∃ line, o = Some line ∧ claim_row claimant id line
  | AlreadyClaimedOutcome _ _ _ _ => o = None
  end.
(** Ids of stored messages are valid. *)
Lemma stored_id_valid p id line : wf p → messages p !! id = Some line → message_id_valid id.
Proof.
  intros Hwf Hl. destruct (mw_message _ (wf_mailbox _ Hwf) _ _ Hl) as (md & _ & Hso).
  unfold message_id_valid. rewrite <-(so_names _ _ _ _ Hso). apply (so_valid _ _ _ _ Hso).
Qed.
(** A claim of this recipient settles the message's wake attempt. *)
Definition claim_settles p (claimant : RecipientKey) (id : MessageId) : bool :=
  match notification p claimant id with
  | Some r => bool_decide (settled_by_claim (nr_state r) (nr_transport r) ≠ nr_state r)
  | None => false
  end.
Lemma claim_op_one ws rows s env claimant id ts :
  store_ok ws s rows → ts ≤ u64_max → env_now env ≤ u64_max →
  op_one ws rows s (claimed_row claimant id) (claim_at s env claimant id ts).
Proof.
  intros Hok Hts Henv. unfold claim_at.
  destruct (get_entry (st_projection s) claimant id) as [entry|] eqn:He; [|by apply op_one_same].
  destruct (get_message (st_projection s) id) as [row|] eqn:Hm; [|by apply op_one_same].
  destruct (transpose_map _ _) as [[message|]|e]; [|by apply op_one_same..].
  destruct (me_state entry); [|by destruct (bool_decide _); apply op_one_same|by apply op_one_same..].
  destruct (mailbox_fact_to_value _) as [v|e] eqn:Hv; [|by apply op_one_same].
  set (line := state_row s env (mid_text id) ts (recipient_display claimant) [] v).
  apply (op_one_append ws rows s env line (claimed_row claimant id) (λ s',
    match get_entry (st_projection s') claimant id with
    | Some updated => (s', Done (ClaimedOutcome updated message
        (skipped_oldest (st_projection s) claimant id)
        (withdrawn_attempt (st_projection s) (me_recipient entry) id)
        (consumed_doorbell_attempt (st_projection s) (me_recipient entry) id)))
    | None => (s', Panicked)
    end)); [done| |].
  - apply state_row_for; [apply Hok|done..|by eapply mailbox_fact_storable].
  - intros s' Hok' Happ.
    destruct (entry_life _ _ _ _ _ _ _ (store_ok_wf _ _ _ Hok) Happ He) as (st & -> & _).
    eexists. split; [done|]. exists line. split; [done|]. split_and!; [exact (stored_id_valid _ _ _ (store_ok_wf _ _ _ Hok) Hm)|done|by eauto].
Qed.
Lemma claim_op_ok ws rows s env claimant id ts :
  store_ok ws s rows → ts ≤ u64_max → env_now env ≤ u64_max →
  op_ok ws rows (claim_at s env claimant id ts).
Proof. intros. by eapply op_one_ok, claim_op_one. Qed.

Definition located_row p (claimant : RecipientKey) (o : option (LedgerLine V)) (x : ClaimOutcome * bool) : Prop :=
  ∃ id, x.2 = claim_settles p claimant id ∧ claimed_row claimant id o x.1.
Lemma claim_locator_op_one ws rows s env claimant locator attempt_id :
  store_ok ws s rows → env_now env ≤ u64_max →
  op_one ws rows s (located_row (st_projection s) claimant)
    (claim_notification_locator s env claimant locator attempt_id).
Proof.
  intros Hok Henv. unfold claim_notification_locator.
  assert (∀ id changed, changed = claim_settles (st_projection s) claimant id →
    op_one ws rows s (located_row (st_projection s) claimant)
    (match claim_at s env claimant id (env_now env) with
     | (s', Done c) => (s', Done (c, changed : bool))
     | (s', Failed e) => (s', Failed e)
     | (s', Panicked) => (s', Panicked)
     end)) as Hclaim.
  { intros id changed Hch. eapply (op_one_map _ _ _ _ _ (λ c, (c, changed))); [by apply claim_op_one|].
    intros o c Hc. by exists id. }
  destruct (negb _); [by apply Hclaim|].
  destruct (notification_by_attempt _ _) as [record|] eqn:Hn; [|by apply op_one_same].
  destruct (_ && _) eqn:Hb; [|by apply op_one_same]. apply andb_true_iff in Hb as [_ Hr%bool_decide_eq_true].
  destruct (bool_decide _); [by apply op_one_same|]. apply Hclaim.
  apply notification_by_attempt_Some in Hn as [[k Hk] _].
  destruct (nw_record _ (wf_notif _ (store_ok_wf _ _ _ Hok)) _ _ Hk) as [Hk1 Hk2 _ _ _ _ _].
  unfold claim_settles, notification. rewrite <- Hr, Hk1, Hk2, <- surjective_pairing, Hk. done.
Qed.
Lemma claim_locator_op_ok ws rows s env claimant locator attempt_id :
  store_ok ws s rows → env_now env ≤ u64_max →
  op_ok ws rows (claim_notification_locator s env claimant locator attempt_id).
Proof. intros. by eapply op_one_ok, claim_locator_op_one. Qed.

(** ** Notification facts *)
(** A record an operation answers with carries the sequence of the row it made. *)
Definition stamped_row (o : option (LedgerLine V)) (r : NotificationRecord) : Prop :=
  ∀ line, o = Some line → nr_updated_seq r = ll_seq line ∧ wake_row line.
Lemma fact_op_one ws rows s env id recipient f ts :
  store_ok ws s rows → ts ≤ u64_max → env_now env ≤ u64_max → fact_ids_valid f →
  fact_key f = Some (recipient, id) →
  op_one ws rows s (λ o r, is_Some o ∧ (moves_wake f → stamped_row o r)) (append_notification_fact_at s env id recipient f ts).
Proof.
  intros Hok Hts Henv Hids Hkey. unfold append_notification_fact_at.
  destruct (notification_fact_to_value f) as [v|e] eqn:Hv; [|by apply op_one_same].
  set (line := state_row s env (mid_text id) ts CYCLOPSD [recipient_display recipient] v).
  destruct (prepare_line (st_projection s) line) as [m|e] eqn:Hp; [|by apply op_one_same].
  destruct (injected_failure s line).
  { left. split_and!; [|done..].
    destruct Hok as [? ? ? ? ? (bytes & tail & ? & ? & ? & ?)]. split; try done.
    by exists bytes, tail. }
  apply (op_one_append ws rows s env line _ (λ s',
    match notification (st_projection s') recipient id with
    | Some record => (s', Done record)
    | None => (s', Panicked)
    end)); [done| |].
  - apply state_row_for; [apply Hok|done..|by eapply notification_fact_storable].
  - intros s' Hok' Happ.
    unfold apply_owned, apply_inner in Happ. unfold prepare_line in Hp. rewrite Hp in Happ.
    destruct (commit_line (st_projection s) line m) as [p'|] eqn:Hc; [|done]. injection Happ as <-.
    unfold notification. rewrite (commit_line_notifications _ _ _ _ Hc).
    apply prepare_line_state in Hp; [|done].
    rewrite (prepare_state_fact f v) in Hp by done.
    destruct (fact_record_present f (st_projection s) line m (recipient, id)) as (r & -> & Hr);
      [by apply (notification_fact_of f v)|done..|].
    exists r. split_and!; [done|by eauto|]. intros Hst l [= <-]. split; [by apply Hr|]. exists f. unfold row_of. by eauto 6.
Qed.
Lemma fact_op_ok ws rows s env id recipient f ts :
  store_ok ws s rows → ts ≤ u64_max → env_now env ≤ u64_max → fact_ids_valid f →
  fact_key f = Some (recipient, id) →
  op_ok ws rows (append_notification_fact_at s env id recipient f ts).
Proof. intros. by eapply op_one_ok, fact_op_one. Qed.

Lemma transition_op_one ws rows s env t ts :
  store_ok ws s rows → ts ≤ u64_max → env_now env ≤ u64_max → message_id_valid (tf_message_id t) →
  op_one ws rows s (λ o r, is_Some o ∧ stamped_row o r) (append_notification_transition_full_at s env t ts).
Proof.
  intros Hok Hts Henv Hid. eapply op_one_weaken; [apply fact_op_one; try done; by intros id [= <-]|].
  intros o a [Ho Ha]. split; [done|by apply Ha].
Qed.
Lemma transition_op_ok ws rows s env t ts :
  store_ok ws s rows → ts ≤ u64_max → env_now env ≤ u64_max → message_id_valid (tf_message_id t) →
  op_ok ws rows (append_notification_transition_full_at s env t ts).
Proof.
  intros Hok Hts Henv Hid. apply fact_op_ok; try done. by intros id [= <-].
Qed.

Lemma requeued_records_total p id recipients :
  (∀ r, r ∈ recipients → is_Some (notification p r id)) →
  ∃ ns, requeued_records p id recipients = Some ns ∧
    ∀ r rest, recipients = r :: rest → ∃ n ns', ns = n :: ns' ∧ notification p r id = Some n.
Proof.
  induction recipients as [|r rest IH]; intros H; [by eexists|]. cbn.
  destruct (H r ltac:(by left)) as [n Hn]. rewrite Hn. cbn.
  destruct IH as (ns & -> & _); [intros r' Hr'; apply H; by right|]. eexists. split; [done|].
  intros r' rest' [= <- <-]. by eauto.
Qed.
Lemma foldl_insert_all {K A} `{Countable K} (P : A → Prop) (rs : list (K * A)) (records : gmap K A) k :
  Forall (λ kr, P kr.2) rs → (k ∈ rs.*1 ∨ ∃ r, records !! k = Some r ∧ P r) →
  ∃ r, foldl (λ n kr, <[kr.1 := kr.2]> n) records rs !! k = Some r ∧ P r.
Proof.
  revert records. induction rs as [|[k1 r1] rs IH]; intros records Hall Hk; cbn [foldl].
  - destruct Hk as [Hk|?]; [by apply elem_of_nil in Hk|done].
  - apply Forall_cons in Hall as [H1 Hall]. cbn in H1. apply IH; [done|]. cbn.
    destruct (decide (k = k1)) as [->|Hne]; [right; exists r1; by rewrite lookup_insert_eq|].
    rewrite lookup_insert_ne by done. destruct Hk as [[?|?]%elem_of_cons|?]; by auto.
Qed.

(** Every recipient of a validated batch requeue gets a record of the row. *)
Lemma requeues_have_records p line version id requeues m :
  notification_fact line = Ok (NotificationsRequeued version id requeues) →
  prepare_notification_requeues p line = Ok m →
  ∀ rq, rq ∈ requeues → ∃ n, notifications_after m (notifications p) !! (rq_recipient rq, id) = Some n ∧
    nr_updated_seq n = ll_seq line.
Proof.
  intros Hf Hm rq Hin. unfold prepare_notification_requeues in Hm. rewrite Hf in Hm. ok_inv.
  unfold validate_notification_requeues_envelope in *. ok_inv.
  repeat match goal with u : () |- _ => destruct u end.
  match goal with H : check_requeue_recipients _ _ _ = Ok _ |- _ =>
    apply check_requeue_recipients_ok in H as (_ & _ & Hadmin) end.
  match goal with H : prepare_requeue_records _ _ _ _ _ = Ok _ |- _ =>
    apply prepare_requeue_records_ok in H as (Hok & Hk & _); [|done] end.
  apply foldl_insert_all; [|left; rewrite Hk; apply list_elem_of_fmap; by eauto].
  eapply Forall_impl; [exact Hok|]. intros kr [_ _ _ _ ->]. done.
Qed.

Definition requeued_row (o : option (LedgerLine V)) (ns : list NotificationRecord) : Prop :=
  match o with
  | None => ns = []
  | Some line => wake_row line ∧ ∃ n rest, ns = n :: rest ∧ nr_updated_seq n = ll_seq line
  end.
Lemma requeues_op_one ws rows s env id requeues :
  store_ok ws s rows → env_now env ≤ u64_max → message_id_valid id →
  op_one ws rows s requeued_row (requeue_notifications s env id requeues).
Proof.
  intros Hok Henv Hid. unfold requeue_notifications.
  destruct requeues as [|rq [|rq2 requeues]]; [by apply op_one_same|..].
  - eapply (op_one_map _ _ _ _ _ (λ r, [r])); [apply fact_op_one; try done; by intros ? [= <-]|].
    intros o r [[line ->] Hr]. destruct (Hr I line eq_refl) as [Hs Hw]. split; [done|]. by exists r, [].
  - unfold requeue_notifications_at. set (rqs := rq :: rq2 :: requeues).
    destruct (notification_fact_to_value _) as [v|e] eqn:Hv; [|by apply op_one_same].
    set (line := state_row _ _ _ _ _ _ _).
    apply (op_one_append ws rows s env line _ (λ s',
      match requeued_records (st_projection s') id (rq_recipient <$> rqs) with
      | Some records => (s', Done records)
      | None => (s', Panicked)
      end)); [done| |].
    + apply state_row_for; [apply Hok|done..|by eapply notification_fact_storable].
    + intros s' Hok' Happ. unfold apply_owned, apply_inner in Happ.
      destruct (prepare_line_inner (st_projection s) line false) as [m|] eqn:Hp; [|done].
      destruct (commit_line (st_projection s) line m) as [p'|] eqn:Hc; [|done]. injection Happ as <-.
      apply prepare_line_state in Hp; [|done]. rewrite (prepare_state_fact _ v _ _ _ Hv) in Hp by done.
      assert (∀ q, q ∈ rqs → ∃ n, notification p' (rq_recipient q) id = Some n ∧ nr_updated_seq n = ll_seq line) as Hq.
      { unfold notification. rewrite (commit_line_notifications _ _ _ _ Hc).
        eapply requeues_have_records; [|exact Hp]. eapply (notification_fact_of _ v); [|exact Hv|done]. by intros ? [= <-]. }
      destruct (requeued_records_total p' id (rq_recipient <$> rqs)) as (ns & -> & Hns).
      { intros r (q & -> & Hin)%list_elem_of_fmap. destruct (Hq q Hin) as (n & -> & _). by eauto. }
      exists ns. split; [done|]. destruct (Hns (rq_recipient rq) (rq_recipient <$> rq2 :: requeues)) as (n & ns' & -> & Hn); [done|].
      destruct (Hq rq) as (n' & Hn' & Hs); [by left|]. rewrite Hn in Hn'. injection Hn' as <-.
      split; [|by eauto]. eexists. split; [split_and!; [|done|by eexists]|done]. by intros ? [= <-].
Qed.
Lemma requeues_op_ok ws rows s env id requeues :
  store_ok ws s rows → env_now env ≤ u64_max → message_id_valid id →
  op_ok ws rows (requeue_notifications s env id requeues).
Proof. intros. by eapply op_one_ok, requeues_op_one. Qed.

Lemma clear_op_ok ws rows s env id recipient a ts :
  store_ok ws s rows → ts ≤ u64_max → env_now env ≤ u64_max → message_id_valid id →
  op_ok ws rows (clear_notification_at s env id recipient a ts).
Proof.
  intros Hok Hts Henv Hid. unfold clear_notification_at.
  pose proof (fact_op_ok ws rows s env id recipient (NotificationCleared
    (MkAttemptRef CANONICAL_RECORD_VERSION a id recipient)) ts Hok Hts Henv
    ltac:(by intros ? [= <-]) eq_refl) as H.
  destruct (alarm_cleared _ _); [|done]. destruct (notification _ _ _); [|done].
  destruct (bool_decide _); [by apply op_ok_same|done].
Qed.

Lemma clears_op_one ws rows s env batch operator ids cutoff ts :
  store_ok ws s rows → ts ≤ u64_max → env_now env ≤ u64_max →
  op_one ws rows s (λ o _, match o with
                            | None => ids = []
                            | Some line => row_of line (NotificationsCleared CANONICAL_RECORD_VERSION (str "clear-" ++ batch) ids operator cutoff)
                            end) (clear_notifications_at s env batch operator ids cutoff ts).
Proof.
  intros Hok Hts Henv. unfold clear_notifications_at.
  destruct (bool_decide (operator ≠ _)); [by apply op_one_same|].
  case_bool_decide; [by apply op_one_same|].
  destruct (attempt_recipients _ _) as [names|e]; [|by apply op_one_same].
  destruct (notification_fact_to_value _) as [v|e] eqn:Hv; [|by apply op_one_same].
  set (line := state_row _ _ _ _ _ _ _).
  apply (op_one_append ws rows s env line _ (λ s', (s', Done ()))); [done| |].
  - apply state_row_for; [apply Hok|done..|by eapply notification_fact_storable].
  - intros s' Hok' _. exists (). split; [done|]. split_and!; [by intros ? [=]|done|by eexists].
Qed.
Lemma clears_op_ok ws rows s env batch operator ids cutoff ts :
  store_ok ws s rows → ts ≤ u64_max → env_now env ≤ u64_max →
  op_ok ws rows (clear_notifications_at s env batch operator ids cutoff ts).
Proof. intros. by eapply op_one_ok, clears_op_one. Qed.

Lemma record_id_valid p k n : wf p → notifications p !! k = Some n → message_id_valid (nr_message_id n).
Proof.
  intros Hwf Hn. destruct (nw_record _ (wf_notif _ Hwf) _ _ Hn) as [_ Hm [s Hi] _ _ _ _].
  destruct k as [r id]. cbn in Hm. subst id.
  destruct (mw_index _ (wf_mailbox _ Hwf) _ _ _ Hi) as (e & He & Hid).
  destruct (mw_entry _ (wf_mailbox _ Hwf) _ _ _ He) as (_ & _ & _ & l & md & [Hl _] & _).
  rewrite Hid in Hl. by eapply stored_id_valid.
Qed.

Lemma withdraw_op_one ws rows s env operator recipient a :
  store_ok ws s rows → env_now env ≤ u64_max →
  op_one ws rows s stamped_row (withdraw_notification_before_write s env operator recipient a).
Proof.
  intros Hok Henv. unfold withdraw_notification_before_write.
  destruct (bool_decide (operator ≠ _)); [by apply op_one_same|].
  destruct (notification_by_attempt _ _) as [current|] eqn:Hn; [|by apply op_one_same].
  apply notification_by_attempt_Some in Hn as [[k Hk] _].
  destruct (bool_decide (nr_recipient current ≠ _)); [by apply op_one_same|].
  destruct (_ || _); [by apply op_one_same|]. destruct (negb _); [by apply op_one_same|].
  destruct (notification_fact_to_value _) as [v|e] eqn:Hv; [|by apply op_one_same].
  set (line := state_row _ _ _ _ _ _ _).
  apply (op_one_append ws rows s env line _ (λ s',
    match notification (st_projection s') recipient (nr_message_id current) with
    | Some record => (s', Done record)
    | None => (s', Panicked)
    end)); [done| |].
  - apply state_row_for; [apply Hok|unfold u64_max; lia|done|by eapply notification_fact_storable].
  - intros s' Hok' Happ. unfold apply_owned, apply_inner in Happ.
    destruct (prepare_line_inner (st_projection s) line false) as [m|] eqn:Hp; [|done].
    destruct (commit_line (st_projection s) line m) as [p'|] eqn:Hc; [|done]. injection Happ as <-.
    unfold notification. rewrite (commit_line_notifications _ _ _ _ Hc).
    apply prepare_line_state in Hp; [|done]. rewrite (prepare_state_fact _ v _ _ _ Hv) in Hp by done.
    assert (fact_ids_valid (NotificationWithdrawnBeforeWrite
      (MkAttemptRef CANONICAL_RECORD_VERSION a (nr_message_id current) recipient) operator)) as Hids.
    { intros ? [= <-]. by apply (record_id_valid _ k _ (store_ok_wf _ _ _ Hok)). }
    destruct (fact_record_present _ _ _ _ (recipient, nr_message_id current)
      (notification_fact_of _ v line Hids Hv eq_refl) Hp eq_refl) as (r & -> & Hr).
    exists r. split; [done|]. intros l [= <-]. split; [by apply Hr|]. eexists. split; [split_and!; [exact Hids|done|by eexists]|done].
Qed.
Lemma withdraw_op_ok ws rows s env operator recipient a :
  store_ok ws s rows → env_now env ≤ u64_max →
  op_ok ws rows (withdraw_notification_before_write s env operator recipient a).
Proof. intros. by eapply op_one_ok, withdraw_op_one. Qed.

(** ** Restart recovery *)
Lemma recover_one_op_ok ws rows s env record :
  store_ok ws s rows → env_now env ≤ u64_max → message_id_valid (nr_message_id record) →
  op_ok ws rows (recover_one s env record).
Proof.
  intros Hok Henv Hid. unfold recover_one. destruct (claim_is_receipt _ _);
    [unfold advance_notification_notified|unfold advance_notification, append_notification_transition_at,
      append_notification_transition_with_transport_at]; by apply transition_op_ok.
Qed.

Lemma recover_all_op_ok ws rows s (env : nat → Env) i records :
  store_ok ws s rows → (∀ j, env_now (env j) ≤ u64_max) →
  Forall (λ r, message_id_valid (nr_message_id r)) records →
  op_ok ws rows (recover_all s env i records).
Proof.
  revert rows s i. induction records as [|record rest IH]; intros rows s i Hok Henv Hids;
    cbn [recover_all]; [by apply op_ok_same|].
  apply Forall_cons in Hids as [Hid Hids].
  pose proof (recover_one_op_ok ws rows s (env i) record Hok (Henv i) Hid) as H1.
  destruct (recover_one s (env i) record) as [s1 [r|e|]]; [|exact H1|exact H1].
  destruct H1 as [[extra Hok1] _]. cbn in Hok1.
  pose proof (IH _ s1 (S i) Hok1 Henv Hids) as H2.
  destruct (recover_all s1 env (S i) rest) as [s2 [rs|e|]]; destruct H2 as [[extra2 Hok2] Ho2];
    (split; [exists (extra ++ extra2); by rewrite app_assoc|done]).
Qed.

Lemma recover_op_ok ws rows s env :
  store_ok ws s rows → (∀ j, env_now (env j) ≤ u64_max) →
  op_ok ws rows (recover_notifications_after_restart s env).
Proof.
  intros Hok Henv. apply recover_all_op_ok; [done..|]. apply Forall_forall.
  intros r Hr. unfold unresolved_after_restart in Hr.
  apply list_elem_of_In, List.filter_In in Hr as [Hr _].
  apply list_elem_of_In, list_elem_of_fmap in Hr as ([k n] & -> & Hk%elem_of_map_to_list).
  by apply (record_id_valid _ k _ (store_ok_wf _ _ _ Hok)).
Qed.

(** ** The store's interface *)
Inductive StoreOp :=
| OpAccept (id : MessageId) (draft : MessageDraft) (ts : N)
| OpReply (id : MessageId) (draft : ReplyDraft) (ts : N)
| OpClaim (claimant : RecipientKey) (id : MessageId) (ts : N)
| OpClaimLocator (claimant : RecipientKey) (locator : MessageId) (attempt : NotificationAttemptId)
| OpQueue (id : MessageId) (r : RecipientKey) (a : NotificationAttemptId)
| OpAdvance (id : MessageId) (r : RecipientKey) (a : NotificationAttemptId)
    (state : NotificationState) (binding : option NotificationBinding)
    (cause : option NotificationAttentionCause)
| OpBlock (id : MessageId) (r : RecipientKey) (a : NotificationAttemptId)
    (cause : NotificationPreWriteCause) (observation : option NotificationPreWriteObservation)
    (wake_block : option MessageWakeBlock)
| OpAdvanceWithTransport (id : MessageId) (r : RecipientKey) (a : NotificationAttemptId)
    (state : NotificationState) (binding : NotificationBinding)
    (transport : NotificationTransport) (format : option N)
| OpRawWriting (id : MessageId) (r : RecipientKey) (a : NotificationAttemptId)
| OpNotified (id : MessageId) (r : RecipientKey) (a : NotificationAttemptId)
    (verified_by : option VerifiedBy)
| OpMailboxNotified (id : MessageId) (r : RecipientKey) (a : NotificationAttemptId)
| OpRequeue (id : MessageId) (requeues : list NotificationRequeue)
| OpClear (id : MessageId) (r : RecipientKey) (a : NotificationAttemptId) (ts : N)
| OpClears (batch : rstr) (operator : RecipientKey) (attempts : list NotificationAttemptId)
    (cutoff : option N) (ts : N)
| OpWithdraw (operator r : RecipientKey) (a : NotificationAttemptId)
| OpRecover.

(** What the types of the arguments guarantee in the code: valid message ids
    and 64-bit times. *)
Definition op_valid (op : StoreOp) : Prop :=
  match op with
  | OpAccept _ _ ts | OpReply _ _ ts | OpClaim _ _ ts | OpClears _ _ _ _ ts => ts ≤ u64_max
  | OpClear id _ _ ts => message_id_valid id ∧ ts ≤ u64_max
  | OpQueue id _ _ | OpAdvance id _ _ _ _ _ | OpBlock id _ _ _ _ _
  | OpAdvanceWithTransport id _ _ _ _ _ _ | OpRawWriting id _ _ | OpNotified id _ _ _
  | OpMailboxNotified id _ _ | OpRequeue id _ => message_id_valid id
  | OpClaimLocator _ _ _ | OpWithdraw _ _ _ | OpRecover => True
  end.

Definition forget {A} (r : MessageStore (V:=V) * outcome A) : MessageStore (V:=V) * outcome unit :=
  (r.1, match r.2 with Done _ => Done () | Failed e => Failed e | Panicked => Panicked end).
Definition run_op s (env : nat → Env) (op : StoreOp) : MessageStore (V:=V) * outcome unit :=
  let e := env 0%nat in
  match op with
  | OpAccept id draft ts => forget (accept_at s e id draft ts)
  | OpReply id draft ts => forget (reply_at s e id draft ts)
  | OpClaim claimant id ts => forget (claim_at s e claimant id ts)
  | OpClaimLocator claimant locator a => forget (claim_notification_locator s e claimant locator a)
  | OpQueue id r a => forget (queue_notification s e id r a)
  | OpAdvance id r a st b c => forget (advance_notification s e id r a st b c)
  | OpBlock id r a c o w =>
      forget (block_notification_before_write_with_wake_block s e id r a c o w)
  | OpAdvanceWithTransport id r a st b t f =>
      forget (advance_notification_with_transport s e id r a st b t f)
  | OpRawWriting id r a => forget (advance_notification_raw_writing s e id r a)
  | OpNotified id r a v => forget (advance_notification_notified s e id r a v)
  | OpMailboxNotified id r a => forget (advance_notification_mailbox_notified s e id r a)
  | OpRequeue id requeues => forget (requeue_notifications s e id requeues)
  | OpClear id r a ts => forget (clear_notification_at s e id r a ts)
  | OpClears batch operator attempts cutoff ts =>
      forget (clear_notifications_at s e batch operator attempts cutoff ts)
  | OpWithdraw operator r a => forget (withdraw_notification_before_write s e operator r a)
  | OpRecover => forget (recover_notifications_after_restart s env)
  end.

Lemma op_ok_forget {A} ws rows (r : MessageStore (V:=V) * outcome A) :
  op_ok ws rows r → op_ok ws rows (forget r).
Proof. intros [H1 H2]. split; [done|]. cbn. by destruct r.2. Qed.

Lemma run_op_ok ws rows s env op :
  store_ok ws s rows → op_valid op → (∀ i, env_now (env i) ≤ u64_max) →
  op_ok ws rows (run_op s env op).
Proof.
  intros Hok Hop Henv. pose proof (Henv 0%nat) as He.
  destruct op; cbn [run_op op_valid] in *; apply op_ok_forget.
  - by apply accept_canonical_op_ok.
  - by apply reply_op_ok.
  - by apply claim_op_ok.
  - by apply claim_locator_op_ok.
  - by apply transition_op_ok.
  - by apply transition_op_ok.
  - by apply transition_op_ok.
  - unfold advance_notification_with_transport. destruct format as [f|];
      [destruct (supported_doorbell_format f); [|by apply op_ok_same]|]; by apply transition_op_ok.
  - by apply transition_op_ok.
  - by apply transition_op_ok.
  - by apply transition_op_ok.
  - by apply requeues_op_ok.
  - destruct Hop. by apply clear_op_ok.
  - by apply clears_op_ok.
  - by apply withdraw_op_ok.
  - by apply recover_op_ok.
Qed.

(** [C1.] No operation of the store panics or leaves it out of order, whatever
    the clock and the disk do: afterwards the projection is again the replay of
    the journal, and the journal was only extended. *)
Theorem store_operations_preserve ws rows s env op :
  store_ok ws s rows → op_valid op → (∀ i, env_now (env i) ≤ u64_max) →
  (∃ extra, store_ok ws (run_op s env op).1 (rows ++ extra)) ∧ (run_op s env op).2 ≠ Panicked.
Proof.
  intros Hok Hop Henv. destruct (run_op_ok _ _ _ _ _ Hok Hop Henv) as [Hext Hno].
  split; [done|]. by destruct (run_op s env op).2.
Qed.
End store_ops.
