(* ===== verification/Scheduler.v ===== *)
(** * Notification scheduling

    The mailbox half of the notification scheduler, from
    [src/cyclopsd/src/mailbox/service.rs]: which message of a recipient is due a
    wake, queueing its attempt, explaining a miss, and reopening a blocked
    attempt on new route evidence.  Publishing the change event is not
    modelled; the store lock makes each operation one step. *)
From S2P Require Import Prelude Text Identity Ledger Journal Mailbox Notification Facts.
From S2P Require Import Facts Projection Attempt Prepared MailboxInv NotificationInv.
From S2P Require Import Invariant Replay Entries Guarantees Store Views ViewProps StoreInv.
From S2P Require Import StoreOps.
Local Open Scope N_scope.

Record NotificationScheduleBlock := MkScheduleBlock {
  sb_message_id : MessageId;
  sb_attempt_id : NotificationAttemptId;
  sb_block : MessageWakeBlock;
}.

Section scheduler.
Context {V : Type} {serde : Serde V} {codec : LineCodec V} {uuids : Uuids} {digests : Digests}.
Implicit Types (p : MailboxProjection V) (s : MessageStore (V:=V)) (n : NotificationRecord).

(** ** Selection *)
Definition unsubmitted_state (st : NotificationState) : bool :=
  match st with
  | Queued | Gating | BlockedPreWrite | QuotaHeld | QuotaResetObserved | Writing | Staged
  | Submitting => true
  | _ => false
  end.
Definition is_claimed_operator p (recipient : RecipientKey) n : bool :=
  bool_decide (nr_recipient n = recipient) && bool_decide (nr_transport n = Doorbell) &&
  unsubmitted_state (nr_state n) &&
  match get_entry p recipient (nr_message_id n) with
  | Some entry => is_claimed (me_state entry)
  | None => false
  end.
(** [min_by_key]: the first of the least keys. *)
Definition min_started (best : option NotificationRecord) n : option NotificationRecord :=
  match best with
  | None => Some n
  | Some b => if nr_started_seq n <? nr_started_seq b then Some n else Some b
  end.
Definition claimed_operator_notification p (recipient : RecipientKey) : option NotificationRecord :=
  foldl min_started None (List.filter (is_claimed_operator p recipient) (notification_values p)).

Definition first_actionable_pending_message_id p (recipient : RecipientKey) : option MessageId :=
  me_message_id <$>
    List.find (λ e, negb (notification_withdrawn_by_operator p recipient (me_message_id e)))
      (get_pending p recipient).

(** The pane doorbell of a claimed message that is still under way. *)
Definition undelivered_state (st : NotificationState) : bool :=
  match st with
  | Queued | Gating | Writing | Staged | Submitting | Submitted | SubmittedUnverified => true
  | _ => false
  end.
Definition actionable_entry p (recipient : RecipientKey) (e : MailboxEntry) : bool :=
  if is_pending (me_state e)
  then negb (notification_withdrawn_by_operator p recipient (me_message_id e))
  else is_claimed (me_state e) &&
       match notification p recipient (me_message_id e) with
       | Some n => undelivered_state (nr_state n)
       | None => false
       end.
Definition first_actionable_notification_message_id p (recipient : RecipientKey)
    : option MessageId :=
  entries ← mailboxes p !! recipient;
  me_message_id <$> List.find (actionable_entry p recipient) (btree_values entries).

Definition pending_recipients p : list RecipientKey :=
  merge_sort recipient_key_le
    (List.filter (λ r, existsb (λ e, is_pending (me_state e)) (get_mailbox p r) ||
                       bool_decide (is_Some (claimed_operator_notification p r)))
       (map_to_list (mailboxes p)).*1).

(** ** Operations *)
Definition resumable (st : NotificationState) : bool :=
  match st with Queued | Gating => true | _ => false end.
(** [attempt] is the freshly generated attempt id. *)
Definition prepare_oldest_notification s (env : Env) (recipient : RecipientKey)
    (attempt : NotificationAttemptId) : MessageStore (V:=V) * outcome (option NotificationRecord) :=
  let p := st_projection s in
  if is_admin recipient then (s, Done None)
  else match claimed_operator_notification p recipient with
  | Some n => (s, Done (if resumable (nr_state n) then Some n else None))
  | None =>
  match first_actionable_notification_message_id p recipient with
  | None => (s, Done None)
  | Some message_id =>
      match notification p recipient message_id with
      | None =>
          match queue_notification s env message_id recipient attempt with
          | (s, Done n) => (s, Done (Some n))
          | (s, Failed e) => (s, Failed e)
          | (s, Panicked) => (s, Panicked)
          end
      | Some n => (s, Done (if resumable (nr_state n) then Some n else None))
      end
  end end.

Definition notification_schedule_block s (recipient : RecipientKey)
    : option NotificationScheduleBlock :=
  let p := st_projection s in
  if is_admin recipient then None
  else
    message_id ← first_actionable_pending_message_id p recipient;
    n ← notification p recipient message_id;
    block ← notification_wake_block n (attention_resolution_pending p (nr_attempt_id n));
    Some (MkScheduleBlock message_id (nr_attempt_id n) block).

Definition complete_binding (recipient : RecipientKey) (o : NotificationPreWriteObservation) : bool :=
  match po_binding o with
  | Some b =>
      bool_decide (is_Some (po_pane_root o)) && bool_decide (is_Some (nb_pane_root b)) &&
      bool_decide (is_Some (nb_leader b)) && bool_decide (po_pane_root o = nb_pane_root b) &&
      bool_decide (nb_recipient b = recipient) &&
      bool_decide (po_selected_manifest o = Some (nb_manifest b))
  | None => false
  end.
Definition cause_changed n (o : NotificationPreWriteObservation) (complete write_ready : bool) : bool :=
  match nr_pre_write_cause n with
  | Some (SessionUnavailable | WorkerFailed) => complete
  | Some BindingUnprovable =>
      match nr_pre_write_observation n with
      | None => true
      | Some prior =>
          match po_route_evidence prior, po_route_evidence o with
          | Some prior, Some current => route_evidence_is_later prior current
          | None, Some _ => true
          | Some _, None => false
          | None, None =>
              bool_decide (po_pane_root prior ≠ po_pane_root o) ||
              bool_decide (po_selected_manifest prior ≠ po_selected_manifest o) ||
              bool_decide (po_binding prior ≠ po_binding o)
          end
      end
  | Some WriteReadinessChanged =>
      write_ready &&
      match prior ← nr_pre_write_observation n; po_route_evidence prior, po_route_evidence o with
      | Some prior, Some current => route_evidence_is_later prior current
      | _, _ => false
      end
  | _ => false
  end.
Definition reopen_oldest_notification_after_route_evidence s (env : Env) (recipient : RecipientKey)
    (o : NotificationPreWriteObservation) (write_ready : bool)
    : MessageStore (V:=V) * outcome (option NotificationRecord) :=
  let p := st_projection s in
  if is_admin recipient then (s, Done None)
  else match first_actionable_pending_message_id p recipient with
  | None => (s, Done None)
  | Some message_id =>
  match notification p recipient message_id with
  | None => (s, Done None)
  | Some current =>
      let complete := complete_binding recipient o in
      if bool_decide (nr_state current ≠ BlockedPreWrite) || negb complete ||
         negb (cause_changed current o complete write_ready) ||
         (1 <=? nr_pre_write_reopen_count current)
      then (s, Done None)
      else match advance_notification s env message_id recipient (nr_attempt_id current) Gating None
                   None with
           | (s, Done n) => (s, Done (Some n))
           | (s, Failed e) => (s, Failed e)
           | (s, Panicked) => (s, Panicked)
           end
  end end.

(** ** Lemmas *)
Context {codec_laws : LineCodecLaws V} {serde_laws : SerdeLaws V} {storable_laws : StorableLaws}.

(** What an acknowledged transition leaves behind: mailboxes as they were, and
    the record of its attempt. *)
Lemma transition_appended ws rows s env t ts s1 n :
  store_ok ws s rows → ts ≤ u64_max → env_now env ≤ u64_max → message_id_valid (tf_message_id t) →
  append_notification_transition_full_at s env t ts = (s1, Done n) →
  let p := st_projection s in
  let p1 := st_projection s1 in
  let key := (tf_recipient t, tf_message_id t) in
  (∃ row, store_ok ws s1 (rows ++ [row])) ∧ same_entries p p1 ∧
  notifications p1 = <[key := n]> (notifications p) ∧
  ∃ line : LedgerLine V, (notifications p !! key = None ∧ tf_state t = Queued ∧
             n = queued_record (tf_attempt_id t) (tf_message_id t) (tf_recipient t) line) ∨
          (∃ c, notifications p !! key = Some c ∧ n = transition_record t c line).
Proof.
  intros Hok Hts Henv Hid H. unfold append_notification_transition_full_at,
    append_notification_fact_at in H.
  destruct (notification_fact_to_value (NotificationTransition t)) as [v|] eqn:Hv; [|done].
  set (line := state_row s env _ ts CYCLOPSD _ v) in H.
  destruct (prepare_line (st_projection s) line) as [m|] eqn:Hp; [|done].
  destruct (injected_failure s line); [done|].
  destruct (append_row s env line) as [s' o] eqn:Ha.
  assert (row_for s line) as Hrow.
  { apply state_row_for; [apply Hok|done..|by eapply notification_fact_storable]. }
  pose proof (append_row_ok _ _ _ _ _ _ _ Hok Hrow Ha) as Hres. destruct o as [row| |]; try done.
  destruct Hres as (-> & Hok1 & Happ).
  destruct (notification (st_projection s') (tf_recipient t) (tf_message_id t)) as [n'|] eqn:Hn; [|done].
  injection H as <- <-. cbn zeta. split; [by exists line|].
  unfold apply_owned, apply_inner in Happ. unfold prepare_line in Hp. rewrite Hp in Happ.
  destruct (commit_line (st_projection s) line m) as [p'|] eqn:Hc; [|done]. injection Happ as ->.
  apply prepare_line_state in Hp; [|done]. rewrite (prepare_state_fact _ v) in Hp by done.
  cbn [prepare_fact] in Hp. unfold prepare_notification_transition in Hp.
  assert (fact_ids_valid (NotificationTransition t)) as Hids by (by intros id [= <-]).
  rewrite (notification_fact_of _ v line Hids Hv eq_refl) in Hp. ok_inv.
  pose proof (commit_line_notifications _ _ _ _ Hc) as Hno. cbn [notifications_after] in Hno.
  unfold notification in Hn. rewrite Hno, lookup_insert_eq in Hn. injection Hn as <-.
  split; [exact (commit_line_same_entries _ _ _ _ Hc eq_refl)|]. split; [done|].
  exists line. unfold prepare_transition_record in *.
  destruct (notifications (st_projection s) !! (tf_recipient t, tf_message_id t)) as [c|]; ok_inv.
  - right. by exists c.
  - left. by split_and!.
Qed.

Lemma claimed_operator_None p r :
  claimed_operator_notification p r = None ↔
  ∀ k n, notifications p !! k = Some n → is_claimed_operator p r n = false.
Proof.
  unfold claimed_operator_notification.
  assert (∀ l b, foldl min_started (Some b) l ≠ None) as Hsome.
  { intros l. induction l as [|x l IH]; intros b; [done|]. cbn. destruct (_ <? _); apply IH. }
  split.
  - intros H k n Hn. destruct (is_claimed_operator p r n) eqn:E; [|done]. exfalso.
    assert (In n (List.filter (is_claimed_operator p r) (notification_values p))) as Hin.
    { apply List.filter_In. split; [|done]. apply list_elem_of_In. unfold notification_values.
      apply list_elem_of_fmap. exists (k, n). split; [done|]. by apply elem_of_map_to_list. }
    destruct (List.filter _ _) as [|x l]; [done|]. cbn in H. by apply Hsome in H.
  - intros H. destruct (List.filter _ _) as [|x l] eqn:E; [done|]. exfalso.
    assert (In x (List.filter (is_claimed_operator p r) (notification_values p))) as Hin
      by (rewrite E; by left).
    apply List.filter_In in Hin as [Hin Hx]. apply list_elem_of_In, list_elem_of_fmap in Hin
      as ([k y] & -> & Hy%elem_of_map_to_list). cbn [snd] in Hx. by rewrite (H _ _ Hy) in Hx.
Qed.
Lemma find_ext_elem {A} (f g : A → bool) (l : list A) :
  (∀ x, x ∈ l → f x = g x) → List.find f l = List.find g l.
Proof.
  induction l as [|x l IH]; intros H; [done|]. cbn. rewrite (H x) by by left.
  destruct (g x); [done|]. apply IH. intros y Hy. apply H. by right.
Qed.

(** The selected entry, and what precedes it in the mailbox. *)
Lemma first_actionable_spec p r id :
  first_actionable_notification_message_id p r = Some id ↔
  ∃ e, List.find (actionable_entry p r) (get_mailbox p r) = Some e ∧ me_message_id e = id.
Proof.
  unfold first_actionable_notification_message_id, get_mailbox.
  destruct (mailboxes p !! r) as [entries|]; cbn [mbind option_bind]; [|by split; [|intros (? & ? & _)]].
  rewrite fmap_Some. naive_solver.
Qed.
Lemma mailbox_entry_stored p r e :
  wf p → e ∈ get_mailbox p r → get_entry p r (me_message_id e) = Some e ∧
    message_id_valid (me_message_id e).
Proof.
  intros Hwf [sq Hat]%elem_of_get_mailbox.
  destruct (mw_entry _ (wf_mailbox _ Hwf) _ _ _ Hat) as (_ & _ & Hi & line & md & [Hl _] & _).
  rewrite get_entry_at, Hi. cbn. split; [done|]. by eapply stored_id_valid.
Qed.

Lemma queue_appended ws rows s env id r attempt s1 n :
  store_ok ws s rows → env_now env ≤ u64_max → message_id_valid id →
  notification (st_projection s) r id = None →
  queue_notification s env id r attempt = (s1, Done n) →
  same_entries (st_projection s) (st_projection s1) ∧ nr_state n = Queued ∧
  nr_message_id n = id ∧
  notifications (st_projection s1) = <[(r, id) := n]> (notifications (st_projection s)).
Proof.
  intros Hok Henv Hid Hn Hq.
  unfold queue_notification, append_notification_transition_at,
    append_notification_transition_with_transport_at in Hq.
  pose proof (λ Hv, transition_appended _ _ _ _ _ _ _ _ Hok Henv Henv Hv Hq) as Happ.
  destruct (Happ Hid) as (_ & Hse & Hno & line & [(_ & _ & ->)|(c & Hcur & _)]); [by split_and!|].
  cbn [tf_recipient tf_message_id] in Hcur. unfold notification in Hn. congruence.
Qed.

(** Queueing the selected message leaves the selection as it was. *)
Lemma queued_selection p p1 r e n :
  wf p → same_entries p p1 → notifications p1 = <[(r, me_message_id e) := n]> (notifications p) →
  claimed_operator_notification p r = None → notification p r (me_message_id e) = None →
  nr_message_id n = me_message_id e → nr_state n = Queued →
  List.find (actionable_entry p r) (get_mailbox p r) = Some e →
  claimed_operator_notification p1 r = None ∧
  first_actionable_notification_message_id p1 r = Some (me_message_id e) ∧
  notification p1 r (me_message_id e) = Some n.
Proof.
  intros Hwf Hse Hno Hc Hn Hmid Hst Hfind.
  pose proof (List.find_some _ _ Hfind) as [Hin%list_elem_of_In Hact].
  destruct (mailbox_entry_stored _ _ _ Hwf Hin) as [Hge _].
  assert (is_pending (me_state e) = true) as Hpend.
  { unfold actionable_entry in Hact. rewrite Hn in Hact. destruct (is_pending (me_state e)); [done|].
    by rewrite andb_false_r in Hact. }
  assert (∀ id, notification p1 r id =
    if decide (id = me_message_id e) then Some n else notification p r id) as Hlook.
  { intros id. unfold notification. rewrite Hno. destruct (decide _) as [-> |Hne].
    - by rewrite lookup_insert_eq.
    - apply lookup_insert_ne. congruence. }
  split_and!; [| |by rewrite Hlook, decide_True].
  - apply claimed_operator_None. intros k x. rewrite Hno. unfold is_claimed_operator.
    rewrite (same_entries_get_entry _ _ _ _ Hse).
    intros [[_ <-]|[_ Hx]]%lookup_insert_Some; [|by apply (proj1 (claimed_operator_None _ _) Hc k)].
    rewrite Hmid, Hge. by destruct (me_state e); rewrite ?andb_false_r.
  - apply first_actionable_spec. exists e. split; [|done].
    assert (get_mailbox p1 r = get_mailbox p r) as -> by (unfold get_mailbox; by rewrite (proj1 Hse)).
    rewrite <-Hfind. apply find_ext_elem. intros x Hx. unfold actionable_entry,
      notification_withdrawn_by_operator. rewrite Hlook.
    destruct (decide (me_message_id x = me_message_id e)) as [E|]; [|done].
    destruct (mailbox_entry_stored _ _ _ Hwf Hx) as [Hgx _]. rewrite E, Hge in Hgx. injection Hgx as <-.
    by rewrite Hpend, Hn, Hst.
Qed.

(** A recipient gets one attempt at a time: once preparing its oldest wake
    returned an attempt, preparing again, with whatever fresh id and whatever the
    disk does, appends nothing and returns that attempt; it is queued or at the
    readiness gate, and never an administrator's. *)
Theorem wake_prepared_once ws rows s env r attempt s1 n env2 attempt2 :
  store_ok ws s rows → env_now env ≤ u64_max →
  prepare_oldest_notification s env r attempt = (s1, Done (Some n)) →
  prepare_oldest_notification s1 env2 r attempt2 = (s1, Done (Some n)) ∧
  resumable (nr_state n) = true ∧ is_admin r = false.
Proof.
  intros Hok Henv H. pose proof (store_ok_wf _ _ _ Hok) as Hwf. unfold prepare_oldest_notification in H.
  destruct (is_admin r) eqn:Had; [done|].
  destruct (claimed_operator_notification (st_projection s) r) as [c|] eqn:Hc.
  { destruct (resumable (nr_state c)) eqn:Hres; [|done]. injection H as <- <-.
    unfold prepare_oldest_notification. by rewrite Had, Hc, Hres. }
  destruct (first_actionable_notification_message_id (st_projection s) r) as [id|] eqn:Hf; [|done].
  destruct (notification (st_projection s) r id) as [c|] eqn:Hn.
  { destruct (resumable (nr_state c)) eqn:Hres; [|done]. injection H as <- <-.
    unfold prepare_oldest_notification. by rewrite Had, Hc, Hf, Hn, Hres. }
  apply first_actionable_spec in Hf as (e & Hfind & <-).
  pose proof (List.find_some _ _ Hfind) as [Hin%list_elem_of_In _].
  destruct (mailbox_entry_stored _ _ _ Hwf Hin) as [_ Hvalid].
  destruct (queue_notification s env (me_message_id e) r attempt) as [s' [n'| |]] eqn:Hq; try done.
  injection H as -> ->.
  destruct (queue_appended _ _ _ _ _ _ _ _ _ Hok Henv Hvalid Hn Hq) as (Hse & Hst & Hmid & Hno).
  destruct (queued_selection _ _ _ _ _ Hwf Hse Hno Hc Hn Hmid Hst Hfind) as (Hc1 & Hf1 & Hn1).
  split; [|by rewrite Hst]. unfold prepare_oldest_notification. by rewrite Had, Hc1, Hf1, Hn1, Hst.
Qed.

(** The next wake is the entry shown at FIFO position one: the scheduler
    and the snapshot skip the same operator-withdrawn wakes. *)
Theorem fifo_head_is_next p r id :
  reachable p →
  first_actionable_pending_message_id p r = Some id ↔ fifo_positions p !! (r, id) = Some 1.
Proof.
  intros Hr. pose proof (reachable_wf _ Hr) as Hwf.
  destruct (fifo_positions_spec p r id Hwf) as [Hat Hnone].
  assert (first_actionable_pending_message_id p r = me_message_id <$> head (notifiable p r)) as ->.
  { unfold first_actionable_pending_message_id, notifiable, get_pending, notifiable_entry. f_equal.
    induction (get_mailbox p r) as [|e l IH]; [done|]. cbn.
    destruct (is_pending (me_state e)); cbn; [|done].
    by destruct (notification_withdrawn_by_operator _ _ _); cbn. }
  split.
  - intros (e & He & ->)%fmap_Some. rewrite head_lookup in He. by apply Hat in He.
  - intros H1. destruct (decide (id ∈ me_message_id <$> notifiable p r)) as [Hin|Hin].
    + apply list_elem_of_fmap in Hin as (e & -> & [i Hi]%list_elem_of_lookup).
      rewrite (Hat _ _ Hi) in H1. injection H1 as H1.
      assert (i = 0%nat) as -> by lia. by rewrite head_lookup, Hi.
    + rewrite (Hnone Hin) in H1. done.
Qed.

Lemma first_pending_stored p r id :
  wf p → first_actionable_pending_message_id p r = Some id →
  message_id_valid id ∧ notification_withdrawn_by_operator p r id = false.
Proof.
  intros Hwf (e & He & ->)%fmap_Some. apply List.find_some in He as [He Hw].
  apply List.filter_In in He as [He _].
  split; [|by apply negb_true_iff]. by apply (mailbox_entry_stored _ r _ Hwf), list_elem_of_In.
Qed.
(** A changed record that is not withdrawn leaves the selection as it was. *)
Lemma first_pending_same p p1 r id n :
  same_entries p p1 → notifications p1 = <[(r, id) := n]> (notifications p) →
  nr_state n ≠ WithdrawnByOperator → notification_withdrawn_by_operator p r id = false →
  first_actionable_pending_message_id p1 r = first_actionable_pending_message_id p r.
Proof.
  intros Hse Hno Hn Hw. unfold first_actionable_pending_message_id.
  rewrite (same_entries_get_pending _ _ _ Hse). f_equal. apply find_ext_elem. intros e _. f_equal.
  unfold notification_withdrawn_by_operator, notification in *. rewrite Hno.
  destruct (decide (me_message_id e = id)) as [-> |Hne].
  - rewrite lookup_insert_eq, bool_decide_eq_false_2 by done. done.
  - by rewrite lookup_insert_ne by congruence.
Qed.
Lemma advance_appended ws rows s env id r attempt state s1 n c :
  store_ok ws s rows → env_now env ≤ u64_max → message_id_valid id →
  notification (st_projection s) r id = Some c →
  advance_notification s env id r attempt state None None = (s1, Done n) →
  same_entries (st_projection s) (st_projection s1) ∧
  notifications (st_projection s1) = <[(r, id) := n]> (notifications (st_projection s)) ∧
  nr_state n = state ∧ nr_message_id n = id ∧ nr_attempt_id n = attempt ∧
  (nr_state c = BlockedPreWrite → state = Gating →
   nr_pre_write_reopen_count n = saturating_add_u8 (nr_pre_write_reopen_count c) 1).
Proof.
  intros Hok Henv Hid Hn Hadv.
  unfold advance_notification, append_notification_transition_at,
    append_notification_transition_with_transport_at in Hadv.
  pose proof (λ Hv, transition_appended _ _ _ _ _ _ _ _ Hok Henv Henv Hv Hadv) as Happ.
  destruct (Happ Hid) as (_ & Hse & Hno & line & [(Hcur & _)|(c' & Hcur & ->)]);
    cbn [tf_recipient tf_message_id] in Hcur; unfold notification in Hn; [congruence|].
  assert (c' = c) as -> by congruence. split_and!; try done. intros Hb ->. cbn. by rewrite Hb.
Qed.

(** A blocked wake is reopened at most once: a reopening keeps the attempt,
    needs a complete binding to the recipient, moves it from its pre-write block
    to the gate and uses up its allowance, and no further evidence reopens the
    recipient's head again. *)
Theorem reopened_at_most_once ws rows s env r o ready s1 n :
  store_ok ws s rows → env_now env ≤ u64_max →
  reopen_oldest_notification_after_route_evidence s env r o ready = (s1, Done (Some n)) →
  complete_binding r o = true ∧
  (∃ c, notification (st_projection s) r (nr_message_id n) = Some c ∧ nr_state c = BlockedPreWrite ∧
     nr_attempt_id n = nr_attempt_id c ∧ nr_pre_write_reopen_count c = 0) ∧
  nr_state n = Gating ∧ nr_pre_write_reopen_count n = 1 ∧
  ∀ env2 o2 ready2,
    reopen_oldest_notification_after_route_evidence s1 env2 r o2 ready2 = (s1, Done None).
Proof.
  intros Hok Henv H. pose proof (store_ok_wf _ _ _ Hok) as Hwf.
  unfold reopen_oldest_notification_after_route_evidence in H.
  destruct (is_admin r) eqn:Had; [done|].
  destruct (first_actionable_pending_message_id (st_projection s) r) as [id|] eqn:Hf; [|done].
  destruct (notification (st_projection s) r id) as [c|] eqn:Hn; [|done].
  destruct (_ || _) eqn:Hguard; [done|]. apply orb_false_iff in Hguard as [Hguard Hcount%N.leb_gt].
  apply orb_false_iff in Hguard as [Hguard _]. apply orb_false_iff in Hguard as [Hst Hcomp%negb_false_iff].
  apply bool_decide_eq_false, dec_stable in Hst.
  destruct (advance_notification s env id r (nr_attempt_id c) Gating None None) as [s' [n'| |]] eqn:Hadv;
    try done. injection H as -> ->.
  destruct (first_pending_stored _ _ _ Hwf Hf) as [Hvalid Hw].
  destruct (advance_appended _ _ _ _ _ _ _ _ _ _ _ Hok Henv Hvalid Hn Hadv)
    as (Hse & Hno & Hgate & <- & Hatt & Hcnt).
  assert (nr_pre_write_reopen_count c = 0) as Hzero by lia.
  split_and!; [done|by exists c|done|by rewrite Hcnt, Hzero by done|].
  intros env2 o2 ready2. unfold reopen_oldest_notification_after_route_evidence. rewrite Had.
  rewrite (first_pending_same _ _ _ _ _ Hse Hno) by (done || by rewrite Hgate). rewrite Hf.
  unfold notification. rewrite Hno, lookup_insert_eq.
  by rewrite (bool_decide_eq_true_2 (nr_state n ≠ BlockedPreWrite)) by (by rewrite Hgate).
Qed.
End scheduler.
