(* ===== verification/Recovery.v ===== *)
(** * Restart recovery

    [recover_notifications_after_restart] of
    [src/cyclopsd/src/mailbox/store.rs]: its rows always pass the projection's
    own checks, so only the disk can stop it, and when it finishes no attempt is
    left between the paste and its outcome. *)
From S2P Require Import Prelude Text Identity Ledger Journal Mailbox Notification Facts.
From S2P Require Import Facts Projection Attempt Prepared MailboxInv NotificationInv.
From S2P Require Import Invariant Replay Entries Guarantees Store Views ViewProps StoreInv.
From S2P Require Import StoreOps Scheduler.
Local Open Scope N_scope.

Section recovery.
Context {V : Type} {serde : Serde V} {codec : LineCodec V} {uuids : Uuids} {digests : Digests}.
Context {codec_laws : LineCodecLaws V} {serde_laws : SerdeLaws V} {storable_laws : StorableLaws}.
Implicit Types (p : MailboxProjection V) (s : MessageStore (V:=V)) (r n : NotificationRecord).

(** The fact recovery records about an attempt. *)
Definition recovery_fact (receipt : bool) r : NotificationTransitionFact :=
  MkTransition CANONICAL_RECORD_VERSION (nr_attempt_id r) (nr_message_id r) (nr_recipient r)
    (if receipt then Notified else AttentionRequired) None None None
    (if receipt then None else Some DaemonRestart) None None None None None.

Lemma recover_one_fact s env r :
  recover_one s env r =
  append_notification_transition_full_at s env
    (recovery_fact (claim_is_receipt (st_projection s) r) r) (env_now env).
Proof. unfold recover_one. by destruct (claim_is_receipt _ _). Qed.

(** ** The projection accepts it *)
Lemma record_envelope p k r line receipt :
  wf p → notifications p !! k = Some r → ll_id line = mid_text (nr_message_id r) →
  ll_from line = CYCLOPSD → ll_to line = [recipient_display (nr_recipient r)] →
  has_message_fields line = false →
  validate_notification_envelope p line (tf_record_version (recovery_fact receipt r))
    (nr_message_id r) (nr_recipient r) = Ok ().
Proof.
  intros Hwf Hk Hid Hfrom Hto Hfields. destruct (nw_record _ (wf_notif _ Hwf) _ _ Hk)
    as [E1 E2 [sq Hi] Had _ _ _]. destruct k as [r' id']. cbn in E1, E2, Had. subst r' id'.
  destruct (mw_index _ (wf_mailbox _ Hwf) _ _ _ Hi) as (e & He & Hme).
  destruct (mw_entry _ (wf_mailbox _ Hwf) _ _ _ He) as (_ & _ & _ & m & md & [Hl Hmd] & Hin & _).
  destruct (mw_message _ (wf_mailbox _ Hwf) _ _ Hl) as (md' & E & Hso). rewrite Hmd in E. injection E as <-.
  destruct (so_indexed _ _ _ _ Hso _ Hin) as [Hws _].
  unfold validate_notification_envelope, check_version, check_workspace.
  rewrite Had, Hid, Hfrom, Hto, Hfields, Hws. rewrite get_entry_at, Hi. cbn [mbind option_bind].
  rewrite <-Hme, Hl, He. by rewrite !bool_decide_eq_false_2 by (by intros ?).
Qed.

Lemma recovery_fact_prepared p k r line v receipt :
  wf p → notifications p !! k = Some r → left_ambiguous (nr_state r) = true →
  (receipt = true → nr_state r = Submitted ∨ nr_state r = SubmittedUnverified) →
  notification_fact_to_value (NotificationTransition (recovery_fact receipt r)) = Ok v →
  ll_seq line = last_seq p + 1 → last_seq p + 1 ≤ u64_max → ll_kind line = KState →
  ll_data line = Some v → ll_id line = mid_text (nr_message_id r) → ll_from line = CYCLOPSD →
  ll_to line = [recipient_display (nr_recipient r)] → has_message_fields line = false →
  ∃ m, prepare_line p line = Ok m.
Proof.
  intros Hwf Hk Hamb Hrec Hv Hseq Hmax Hkind Hdata Hid Hfrom Hto Hfields.
  assert (fact_ids_valid (NotificationTransition (recovery_fact receipt r))) as Hids.
  { intros id [= <-]. by apply (record_id_valid _ k _ Hwf). }
  pose proof (record_envelope p k r line receipt Hwf Hk Hid Hfrom Hto Hfields) as Henv.
  assert (k = (nr_recipient r, nr_message_id r)) as Hkey by (symmetry; by eapply current_key).
  unfold prepare_line, prepare_line_inner. fold (last_seq p).
  unfold checked_add_u64. rewrite (proj2 (N.leb_le _ _) Hmax). cbn [ok_or].
  rewrite Hseq, N.eqb_refl, Hkind. cbn [negb].
  rewrite (prepare_state_fact _ v _ _ _ Hv Hdata). cbn [prepare_fact].
  unfold prepare_notification_transition. rewrite (notification_fact_of _ v line Hids Hv Hdata).
  cbn [tf_record_version recovery_fact tf_message_id tf_recipient] in Henv |- *. rewrite Henv, <-Hkey, Hk.
  assert (transition_from_current (recovery_fact receipt r) (Some r) false = Ok () ∧
          transition_write_fields (recovery_fact receipt r) (Some r) = Ok () ∧
          transition_attention (recovery_fact receipt r) (Some r) false = Ok () ∧
          transition_pre_write (recovery_fact receipt r) = Ok ()) as (-> & -> & -> & ->).
  2: by eexists.
  unfold transition_from_current, transition_write_fields, transition_attention, transition_pre_write,
    notification_transition_allowed. cbn [tf_attempt_id recovery_fact].
  rewrite (bool_decide_eq_false_2 (nr_attempt_id r ≠ nr_attempt_id r)) by (by intros H).
  clear -Hamb Hrec. destruct r as [? ? ? st]. cbn [nr_state] in Hamb, Hrec.
  destruct receipt; [destruct (Hrec eq_refl) as [-> | ->]; by vm_compute|].
  destruct st; first [discriminate Hamb|by vm_compute].
Qed.

(** ** One attempt *)

(** What recovery makes of an attempt. *)
Definition recovered p r n : Prop :=
  record_key n = record_key r ∧ nr_attempt_id n = nr_attempt_id r ∧
  if claim_is_receipt p r then nr_state n = Notified
  else nr_state n = AttentionRequired ∧ nr_cause n = Some DaemonRestart.
Definition disk_failure (e : MessageStoreError) : Prop :=
  match e with StoreMailbox _ => False | _ => True end.

Lemma claim_is_receipt_state p r :
  claim_is_receipt p r = true → nr_state r = Submitted ∨ nr_state r = SubmittedUnverified.
Proof.
  intros H. apply andb_true_iff in H as [H _]. apply andb_true_iff in H as [H _].
  apply orb_true_iff in H as [H%bool_decide_eq_true|H%bool_decide_eq_true]; auto.
Qed.

Lemma append_row_prepared s env line m s' e :
  prepare_line (st_projection s) line = Ok m → append_row s env line = (s', Failed e) → disk_failure e.
Proof.
  unfold append_row. intros ->. destruct (append _ _ _ _) as [w [row|err]].
  - by destruct (commit_line _ _ _).
  - by intros [= _ <-].
Qed.

Lemma recover_one_spec ws rows s env r :
  store_ok ws s rows → env_now env ≤ u64_max →
  notifications (st_projection s) !! record_key r = Some r → left_ambiguous (nr_state r) = true →
  match recover_one s env r with
  | (s1, Done n) => (∃ row, store_ok ws s1 (rows ++ [row])) ∧
      same_entries (st_projection s) (st_projection s1) ∧ recovered (st_projection s) r n ∧
      notifications (st_projection s1) = <[record_key r := n]> (notifications (st_projection s))
  | (_, Failed e) => disk_failure e
  | (_, Panicked) => False
  end.
Proof.
  intros Hok Henv Hk Hamb. rewrite recover_one_fact. pose proof (store_ok_wf _ _ _ Hok) as Hwf.
  set (receipt := claim_is_receipt (st_projection s) r).
  assert (message_id_valid (nr_message_id r)) as Hid by (by apply (record_id_valid _ _ _ Hwf Hk)).
  pose proof (transition_op_ok ws rows s env (recovery_fact receipt r) (env_now env) Hok Henv Henv Hid)
    as [_ Hpanic].
  destruct (append_notification_transition_full_at s env (recovery_fact receipt r) (env_now env))
    as [s1 [n|e|]] eqn:Happ; [|clear Hpanic|done].
  - destruct (transition_appended _ _ _ _ (recovery_fact receipt r) _ _ _ Hok Henv Henv Hid Happ)
      as (Hrow & Hse & Hno & line & [(Hnone & _)|(c & Hc & ->)]).
    { cbn [recovery_fact tf_recipient tf_message_id] in Hnone. unfold record_key in Hk. congruence. }
    split_and!; [done|done| |done]. unfold recovered. fold receipt.
    split_and!; [done..|]. by destruct receipt.
  - unfold append_notification_transition_full_at, append_notification_fact_at in Happ.
    destruct (notification_fact_to_value _) as [v|err] eqn:Hv; [|by injection Happ as _ <-].
    set (line := state_row _ _ _ _ _ _ _) in Happ.
    destruct (recovery_fact_prepared (st_projection s) _ r line v receipt Hwf Hk Hamb) as [m Hm];
      [apply claim_is_receipt_state|done| | |done..|].
    { by rewrite (store_ok_seq _ _ _ Hok). }
    { rewrite (store_ok_seq _ _ _ Hok). apply Hok. }
    rewrite Hm in Happ. destruct (injected_failure s line); [by injection Happ as _ <-|].
    destruct (append_row s env line) as [s2 [row|e'|]] eqn:Ha; [|injection Happ as _ <-|done].
    + by destruct (notification _ _ _).
    + by eapply append_row_prepared.
Qed.

(** ** All of them *)
Lemma recovered_same p p' r n : same_entries p p' → recovered p r n → recovered p' r n.
Proof.
  intros Hse. unfold recovered, claim_is_receipt. by rewrite (same_entries_get_entry _ _ _ _ Hse).
Qed.

Lemma recover_all_spec ws rows s (env : nat → Env) i L :
  store_ok ws s rows → (∀ j, env_now (env j) ≤ u64_max) → NoDup (record_key <$> L) →
  Forall (λ r, notifications (st_projection s) !! record_key r = Some r ∧
               left_ambiguous (nr_state r) = true) L →
  match recover_all s env i L with
  | (s', Done ns) => same_entries (st_projection s) (st_projection s') ∧
      Forall2 (λ r n, recovered (st_projection s) r n ∧
                      notifications (st_projection s') !! record_key r = Some n) L ns ∧
      ∀ k, k ∉ record_key <$> L → notifications (st_projection s') !! k = notifications (st_projection s) !! k
  | (_, Failed e) => disk_failure e
  | (_, Panicked) => False
  end.
Proof.
  revert rows s i. induction L as [|r L IH]; intros rows s i Hok Henv Hnd Hall; cbn [recover_all].
  { split_and!; [done|constructor|done]. }
  apply Forall_cons in Hall as [[Hk Hamb] Hall]. rewrite fmap_cons in Hnd.
  apply NoDup_cons in Hnd as [Hr Hnd].
  pose proof (recover_one_spec ws rows s (env i) r Hok (Henv i) Hk Hamb) as Hone.
  destruct (recover_one s (env i) r) as [s1 [n|e|]]; [|done..].
  destruct Hone as ([row Hok1] & Hse1 & Hrec & Hno).
  assert (∀ k, k ≠ record_key r → notifications (st_projection s1) !! k = notifications (st_projection s) !! k)
    as Hother by (intros k Hne; rewrite Hno; by apply lookup_insert_ne).
  assert (Forall (λ x, notifications (st_projection s1) !! record_key x = Some x ∧
                       left_ambiguous (nr_state x) = true) L) as Hall1.
  { apply Forall_forall. intros x Hx. destruct (Forall_elem _ _ _ Hall Hx) as [Hx1 Hx2].
    split; [|done]. rewrite Hother; [done|]. intros E. apply Hr. rewrite <-E. by apply list_elem_of_fmap_2. }
  pose proof (IH _ s1 (S i) Hok1 Henv Hnd Hall1) as IH1.
  destruct (recover_all s1 env (S i) L) as [s2 [ns|e|]]; [|done..].
  destruct IH1 as (Hse2 & Hf & Hk2). split_and!.
  - by transitivity (st_projection s1).
  - constructor; [split; [done|]; by rewrite Hk2, Hno, lookup_insert_eq|].
    eapply Forall2_impl; [exact Hf|]. intros x y [Hxy Hy]. split; [|done].
    eapply recovered_same; [|exact Hxy]. by symmetry.
  - intros k [Hne Hnk]%not_elem_of_cons. by rewrite Hk2, Hother.
Qed.

Lemma unresolved_records p r :
  wf p → r ∈ unresolved_after_restart p ↔
  notifications p !! record_key r = Some r ∧ left_ambiguous (nr_state r) = true.
Proof.
  intros Hwf. unfold unresolved_after_restart, notification_values.
  rewrite list_elem_of_In, List.filter_In, <-list_elem_of_In, list_elem_of_fmap. split.
  - intros [([k n] & -> & Hk%elem_of_map_to_list) Hamb]. cbn [snd] in *.
    by rewrite (current_key _ _ _ Hwf Hk).
  - intros [Hk Hamb]. split; [|done]. exists (record_key r, r). split; [done|].
    by apply elem_of_map_to_list.
Qed.
Lemma unresolved_nodup p : wf p → NoDup (record_key <$> unresolved_after_restart p).
Proof.
  intros Hwf. apply NoDup_fmap_2_strong.
  - intros x y Hx Hy E. apply unresolved_records in Hx as [Hx _], Hy as [Hy _]; [|done..].
    rewrite E in Hx. congruence.
  - unfold unresolved_after_restart. apply NoDup_ListNoDup, List.NoDup_filter, NoDup_ListNoDup.
    unfold notification_values. apply NoDup_fmap_2_strong; [|apply NoDup_map_to_list].
    intros [k1 n1] [k2 n2] H1%elem_of_map_to_list H2%elem_of_map_to_list E. cbn [snd] in E. subst n2.
    by rewrite <-(current_key _ _ _ Hwf H1), <-(current_key _ _ _ Hwf H2).
Qed.

(** [C28.] Restart recovery settles every wake a crash left between the paste and
    its outcome.  The projection never refuses a recovery row, so only the disk
    can stop it, and it never panics.  When it finishes: a submitted doorbell whose
    message its recipient claimed is notified, every other such attempt needs
    attention because of the restart; each keeps its attempt id; no such attempt
    is left; and mailboxes and all other attempts are untouched. *)
Theorem recovery_settles_attempts ws rows s env :
  store_ok ws s rows → (∀ j, env_now (env j) ≤ u64_max) →
  match recover_notifications_after_restart s env with
  | (s', Done ns) =>
      let p := st_projection s in
      let p' := st_projection s' in
      Forall2 (λ r n, recovered p r n ∧ notifications p' !! record_key r = Some n)
        (unresolved_after_restart p) ns ∧
      unresolved_after_restart p' = [] ∧ same_entries p p' ∧
      ∀ k c, notifications p !! k = Some c → left_ambiguous (nr_state c) = false →
             notifications p' !! k = Some c
  | (_, Failed e) => disk_failure e
  | (_, Panicked) => False
  end.
Proof.
  intros Hok Henv. pose proof (store_ok_wf _ _ _ Hok) as Hwf.
  pose proof (recover_op_ok ws rows s env Hok Henv) as [[extra Hok'] _].
  pose proof (recover_all_spec ws rows s env 0 (unresolved_after_restart (st_projection s)) Hok Henv
    (unresolved_nodup _ Hwf)) as Hspec.
  unfold recover_notifications_after_restart in *.
  destruct (recover_all s env 0 _) as [s' [ns|e|]].
  2,3: apply Hspec, Forall_forall; by intros r Hr%(unresolved_records _ _ Hwf).
  destruct Hspec as (Hse & Hf & Hother).
  { apply Forall_forall. by intros r Hr%(unresolved_records _ _ Hwf). }
  pose proof (store_ok_wf _ _ _ Hok') as Hwf'. cbn [fst] in Hwf'. cbn zeta. split_and!; [done| |done|].
  - destruct (unresolved_after_restart (st_projection s')) as [|x l] eqn:E; [done|]. exfalso.
    assert (x ∈ unresolved_after_restart (st_projection s')) as Hx by (rewrite E; by left).
    apply unresolved_records in Hx as [Hx Hamb]; [|done].
    destruct (decide (record_key x ∈ record_key <$> unresolved_after_restart (st_projection s))) as [Hin|Hin].
    + apply list_elem_of_fmap in Hin as (r & Ek & [j Hj]%list_elem_of_lookup).
      destruct (Forall2_lookup_l _ _ _ _ _ Hf Hj) as (n & _ & (_ & _ & Hn) & Hl).
      rewrite Ek, Hl in Hx. injection Hx as ->.
      destruct (claim_is_receipt _ _); [rewrite Hn in Hamb|rewrite (proj1 Hn) in Hamb]; done.
    + rewrite (Hother _ Hin) in Hx. apply Hin, list_elem_of_fmap_2, unresolved_records; done.
  - intros k c Hc Hamb. rewrite Hother; [done|].
    intros (r & -> & Hr)%list_elem_of_fmap. apply unresolved_records in Hr as [Hr1 Hr2]; [|done]. congruence.
Qed.
End recovery.
