(* ===== verification/Idempotency.v ===== *)
(** * Retries and fresh ids

    A repeated acceptance with the same client key, and a repeated claim by
    the same recipient, answer as the first did and append nothing; a minted
    message id is new and names its thread. *)
From S2P Require Import Prelude Text Identity Ledger Journal Mailbox Notification Facts.
From S2P Require Import Facts Projection Attempt Prepared MailboxInv NotificationInv.
From S2P Require Import Invariant Replay Entries Guarantees Store StoreInv StoreOps.
Local Open Scope N_scope.

Section idempotency.
Context {V : Type} {serde : Serde V} {codec : LineCodec V} {uuids : Uuids} {digests : Digests}
  {codec_laws : LineCodecLaws V} {serde_laws : SerdeLaws V} {storable_laws : StorableLaws}
  {digest_laws : DigestLaws}.
Implicit Types (p : MailboxProjection V) (line : LedgerLine V) (s : MessageStore (V:=V)).

(** The digest a draft is compared by. *)
Definition draft_digest (draft : CanonicalDraft) : result MailboxTypeError RequestDigest :=
  request_digest_compute (cd_kind draft) (cd_sender draft) (cd_recipients draft)
    (MkRequestContent (cd_subject draft) (cd_summary draft) (cd_body draft)) (cd_reply_to draft)
    (cd_supersedes draft).

Lemma check_workspace_same p p' ws :
  workspace_id p' = workspace_id p → check_workspace p' ws = check_workspace p ws.
Proof. unfold check_workspace. by intros ->. Qed.
Lemma check_recipients_same p p' dup seen l :
  workspace_id p' = workspace_id p → check_recipients p' dup seen l = check_recipients p dup seen l.
Proof.
  intros H. revert seen. induction l as [|r l IH]; intros seen; [done|]. cbn.
  by rewrite (check_workspace_same _ _ _ H), IH.
Qed.

(** Acceptance reads the workspace, the idempotency index and, for a new
    request, the replaced message. *)
Lemma check_acceptance_retry p p' draft key digest id o :
  check_acceptance p draft = Ok o → workspace_id p' = workspace_id p →
  cd_client_key draft = Some key → draft_digest draft = Ok digest →
  idempotency_index p' !! (cd_sender draft, key) = Some (id, digest) →
  check_acceptance p' draft = Ok (AcceptExisting id).
Proof.
  intros H Hws Hk Hd Hi. unfold check_acceptance in *.
  rewrite (check_workspace_same _ _ _ Hws), (check_recipients_same _ _ _ _ _ Hws).
  destruct (_ && _); [done|]. destruct (check_workspace _ _); [|done].
  destruct (bool_decide (cd_recipients draft = [])); [done|].
  destruct (check_recipients _ _ _ _); [|done].
  destruct (bool_decide (cd_client_key draft = Some [])); [done|].
  destruct (presentation_labels _ _); [|done]. destruct (type_error (transpose_map _ _)); [|done].
  fold (draft_digest draft). rewrite Hd, Hk. cbn. rewrite Hi. cbn.
  by rewrite bool_decide_eq_true_2.
Qed.

Lemma check_acceptance_new p draft digest :
  check_acceptance p draft = Ok (AcceptNew digest) →
  draft_digest draft = Ok digest ∧ (cd_kind draft = KMsg ∨ cd_kind draft = KFyi) ∧
  ∃ root, supersession_thread_root p (cd_sender draft) (cd_recipients draft) (cd_supersedes draft)
    = Ok root.
Proof.
  unfold check_acceptance. intros H. fold (draft_digest draft) in H.
  destruct (_ && _) eqn:Hk; [done|]. destruct (check_workspace _ _); [|done].
  destruct (bool_decide (cd_recipients draft = [])); [done|].
  destruct (check_recipients _ _ _ _); [|done].
  destruct (bool_decide (cd_client_key draft = Some [])); [done|].
  destruct (presentation_labels _ _); [|done]. destruct (type_error (transpose_map _ _)); [|done].
  destruct (draft_digest draft) as [d|]; [|done]. cbn in H.
  assert (cd_kind draft = KMsg ∨ cd_kind draft = KFyi) as Hkind.
  { apply andb_false_iff in Hk as [Hk|Hk]; bool_facts; auto. }
  destruct (_ ≫= _) as [[key [eid ed]]|].
  { by match type of H with (if ?b then _ else _) = _ => destruct b end. }
  destruct (supersession_thread_root _ _ _ _) as [root|]; [|done]. injection H as <-.
  split_and!; [done|done|by eauto].
Qed.

Lemma check_acceptance_existing p draft id :
  check_acceptance p draft = Ok (AcceptExisting id) →
  ∃ key digest, cd_client_key draft = Some key ∧ draft_digest draft = Ok digest ∧
    idempotency_index p !! (cd_sender draft, key) = Some (id, digest).
Proof.
  unfold check_acceptance. intros H. fold (draft_digest draft) in H.
  destruct (_ && _) eqn:Hk; [done|]. destruct (check_workspace _ _); [|done].
  destruct (bool_decide (cd_recipients draft = [])); [done|].
  destruct (check_recipients _ _ _ _); [|done].
  destruct (bool_decide (cd_client_key draft = Some [])); [done|].
  destruct (presentation_labels _ _); [|done]. destruct (type_error (transpose_map _ _)); [|done].
  destruct (draft_digest draft) as [d|]; [|done]. cbn in H.
  destruct (cd_client_key draft) as [key|]; cbn in H.
  - destruct (idempotency_index p !! _) as [[eid ed]|] eqn:Hi; cbn in H.
    + match type of H with (if ?b then _ else _) = _ => destruct b eqn:Hb; [|done] end.
      bool_facts. injection H as ->. subst. by eauto.
    + by destruct (supersession_thread_root _ _ _ _).
  - by destruct (supersession_thread_root _ _ _ _).
Qed.

(** The thread root of a stored message is a valid id. *)
Lemma stored_root_valid p id line md :
  wf p → stored_message p id line md → message_id_valid (md_thread_root md).
Proof.
  intros Hwf [Hl Hm]. destruct (mw_message _ (wf_mailbox _ Hwf) _ _ Hl) as (md' & E & Hso).
  rewrite Hm in E. injection E as <-.
  destruct (so_thread _ _ _ _ Hso) as (root & rmd & [Hr _] & _). by eapply stored_id_valid.
Qed.

Lemma draft_root_valid p id draft root :
  wf p → message_id_valid id → draft_thread_root p id draft = Ok root → message_id_valid root.
Proof.
  intros Hwf Hid H. unfold draft_thread_root in H. destruct (cd_reply_to draft) as [reference|].
  - ok_inv. match goal with H : derive_reply _ _ _ = Ok _ |- _ =>
      apply derive_reply_ok in H as (parent & pmd & Hp & Hm & _ & ->) end.
    cbn. by eapply stored_root_valid.
  - ok_inv. match goal with H : supersession_thread_root _ _ _ _ = Ok _ |- _ => rename H into Hs end.
    destruct (cd_supersedes draft) as [target|] eqn:Ht.
    + destruct (supersession_thread_root_ok _ _ _ _ _ Hs target eq_refl)
        as (r & e & tl & tmd & _ & Hl & Hm & _ & _ & _ & _ & _ & ->).
      cbn. by eapply stored_root_valid.
    + cbn in Hs. injection Hs as <-. done.
Qed.

Lemma draft_metadata_valid p id draft root digest :
  wf p → message_id_valid id → draft_thread_root p id draft = Ok root →
  check_acceptance p draft = Ok (AcceptNew digest) →
  metadata_ids_valid (draft_metadata p draft root digest).
Proof.
  intros Hwf Hid Hroot Hc. destruct (check_acceptance_new _ _ _ Hc) as (Hd & _ & r & Hs).
  split_and!; cbn.
  - by eapply draft_root_valid.
  - intros t Ht. destruct (supersession_thread_root_ok _ _ _ _ _ Hs t Ht)
      as (? & ? & tl & ? & _ & Hl & _). by eapply stored_id_valid.
  - by eapply request_digest_compute_valid.
Qed.

(** What an accepted new draft leaves behind. *)
Lemma accept_new_state ws rows s env id draft ts s1 res digest :
  store_ok ws s rows → ts ≤ u64_max → env_now env ≤ u64_max → message_id_valid id →
  check_acceptance (st_projection s) draft = Ok (AcceptNew digest) →
  accept_canonical_at s env id draft ts = (s1, Done res) →
  ∃ root line, let md := draft_metadata (st_projection s) draft root digest in
    message_committed (st_projection s) (st_projection s1) line id md ∧
    extract_message_metadata line = Ok md ∧ (∃ labels v, line = draft_row s env id draft ts labels v) ∧
    ll_seq line = last_seq (st_projection s) + 1 ∧
    apply_owned (st_projection s) line = AppliedOk (st_projection s1) ∧
    draft_thread_root (st_projection s) id draft = Ok root ∧
    res = MkAcceptResult id root true (ll_seq line) (ll_to line) (cd_recipients draft).
Proof.
  intros Hok Hts Henv Hid Hc. pose proof (store_ok_wf _ _ _ Hok) as Hwf.
  unfold accept_canonical_at. rewrite Hc.
  destruct (draft_thread_root _ _ _) as [root|] eqn:Hroot; [|done].
  destruct (presentation_labels _ _) as [[l labels]|]; [|done].
  destruct (metadata_to_value _) as [v|] eqn:Hv; [|done].
  set (line := draft_row s env id draft ts labels v).
  destruct (append_row s env line) as [s' o] eqn:Ha.
  assert (row_for s line) as Hrow.
  { apply draft_row_for; [apply Hok|done..|by eapply metadata_storable]. }
  pose proof (append_row_ok _ _ _ _ _ _ _ Hok Hrow Ha) as Hres.
  destruct o as [row|e|]; try done. intros [= <- <-]. destruct Hres as (-> & _ & Happ).
  exists root, line. cbn zeta.
  assert (extract_message_metadata line = Ok (draft_metadata (st_projection s) draft root digest)) as Hmd.
  { unfold extract_message_metadata. cbn [ll_data line draft_row mbind option_bind].
    rewrite (metadata_to_from _ v) by (by eapply draft_metadata_valid || done). done. }
  destruct (applied_inv _ _ _ _ Happ) as (m & Hm & Hcm & Hs & Hmax & _).
  assert (prepare_message (st_projection s) line = Ok m) as Hpm.
  { unfold prepare_line_inner in Hm. destruct (ok_or _ _); [|done]. destruct (negb _); [done|].
    destruct (check_acceptance_new _ _ _ Hc) as (_ & [Hk|Hk] & _);
      cbn [ll_kind line draft_row] in Hm; by rewrite Hk in Hm. }
  apply prepare_message_ok in Hpm as (id' & md & u & -> & Hmok).
  2: { by destruct (check_acceptance_new _ _ _ Hc) as (_ & Hk & _). }
  assert (id' = id) as ->.
  { pose proof (mok_id _ _ _ _ _ Hmok) as Hn. unfold names_message in Hn. cbn in Hn.
    destruct id, id'. cbn in Hn. by subst. }
  rewrite (mok_metadata _ _ _ _ _ Hmok) in Hmd. injection Hmd as ->.
  destruct (commit_message_ok (st_projection s) line id
    (draft_metadata (st_projection s) draft root digest) u) as (q & Hq & Hmc & _);
    [apply Hwf|apply Hwf|done..|].
  assert (q = st_projection s') as -> by (cbn [commit_line] in Hcm; congruence).
  split_and!; try done; [apply (mok_metadata _ _ _ _ _ Hmok)|by exists labels, v].
Qed.

(** Acceptance is idempotent under a client key: repeating an accepted
    draft, under any proposed id, appends nothing and answers with the message
    of the first acceptance. *)
Theorem accept_retry_is_idempotent ws rows s env id draft ts s1 res key env2 id2 ts2 :
  store_ok ws s rows → ts ≤ u64_max → env_now env ≤ u64_max → message_id_valid id →
  cd_client_key draft = Some key →
  accept_canonical_at s env id draft ts = (s1, Done res) →
  accept_canonical_at s1 env2 id2 draft ts2 =
    (s1, Done (MkAcceptResult (as_message_id res) (as_thread_root res) false (as_seq res)
                 (as_recipients res) (as_recipient_keys res))).
Proof.
  intros Hok Hts Henv Hid Hk Hacc. pose proof (store_ok_wf _ _ _ Hok) as Hwf.
  destruct (check_acceptance (st_projection s) draft) as [[digest|existing]|] eqn:Hc.
  - destruct (accept_new_state _ _ _ _ _ _ _ _ _ _ Hok Hts Henv Hid Hc Hacc)
      as (root & line & Hmc & Hmd & _ & _ & _ & _ & ->).
    destruct (check_acceptance_new _ _ _ Hc) as (Hd & _).
    assert (check_acceptance (st_projection s1) draft = Ok (AcceptExisting id)) as Hc1.
    { eapply check_acceptance_retry; [done|apply (mc_workspace _ _ _ _ _ Hmc)|done|done|].
      rewrite (mc_idempotency _ _ _ _ _ Hmc). unfold insert_key. cbn [md_client_key draft_metadata].
      rewrite Hk. by rewrite lookup_insert_eq. }
    unfold accept_canonical_at. rewrite Hc1. unfold accept_existing, get_message.
    rewrite (mc_messages _ _ _ _ _ Hmc), lookup_insert_eq, Hmd. done.
  - unfold accept_canonical_at in Hacc. rewrite Hc in Hacc. injection Hacc as <- Hres.
    unfold accept_canonical_at. rewrite Hc.
    destruct (accept_existing_ok _ _ _ Hwf Hc) as (line & md & _ & He). rewrite He in Hres |- *.
    by injection Hres as <-.
  - unfold accept_canonical_at in Hacc. by rewrite Hc in Hacc.
Qed.
(** ** Claiming *)
Lemma message_claimed_fact id r c v line :
  message_id_valid id → mailbox_fact_to_value (MessageClaimed CANONICAL_RECORD_VERSION id r c) = Ok v →
  ll_data line = Some v →
  (v ← ll_data line; value_type v) = Some (str "message_claimed") ∧
  mailbox_fact line (str "message_claimed") = Ok (MessageClaimed CANONICAL_RECORD_VERSION id r c).
Proof.
  intros Hid Hv Hd. rewrite Hd. split; [exact (mailbox_to_tag _ _ Hv)|].
  unfold mailbox_fact. rewrite Hd. cbn [ok_or]. by rewrite (mailbox_to_from (MessageClaimed CANONICAL_RECORD_VERSION id r c) v Hid Hv).
Qed.

(** What an applied claim row leaves of the claim and of the wake attempt. *)
Lemma claim_applied p line p' id r c :
  wf p → ll_kind line = KState → (v ← ll_data line; value_type v) = Some (str "message_claimed") →
  mailbox_fact line (str "message_claimed") = Ok (MessageClaimed CANONICAL_RECORD_VERSION id r c) →
  apply_owned p line = AppliedOk p' →
  ll_seq line = last_seq p + 1 ∧
  messages p' = messages p ∧ claim_sequences p' !! (r, id) = Some (ll_seq line) ∧
  notifications p' = apply_update (claim_update p line r id) (notifications p) ∧
  ∀ e, get_entry p r id = Some e → get_entry p' r id = Some (set_entry_state (Claimed c (ll_ts line)) e).
Proof.
  intros Hwf Hk Hty Hf Ha. destruct (applied_inv _ _ _ _ Ha) as (m & Hm & Hc & Hs & Hmax & Hok).
  assert (prepare_claim p line = Ok m) as Hpc.
  { unfold prepare_line_inner in Hm. destruct (ok_or _ _); [|done]. destruct (negb _); [done|].
    rewrite Hk in Hm. unfold prepare_state in Hm. rewrite Hty in Hm. done. }
  assert (m = PMClaim id r c (claim_update p line r id)) as ->.
  { unfold prepare_claim in Hpc. rewrite Hf in Hpc. ok_inv. by destruct (me_state _); ok_inv. }
  pose proof (mailbox_wf_seq p (ll_seq line) (wf_mailbox _ Hwf) ltac:(lia) Hmax) as Hpl.
  pose proof (commit_claim_entries _ _ _ _ _ _ _ Hc) as (p1 & Hset & Hse).
  cbn [commit_line] in Hc. unfold commit_claim in Hc.
  destruct (set_entry _ r id (Claimed c (ll_ts line))) as [p2|] eqn:Hset2 in Hc; [|done].
  cbn [mbind option_bind] in Hc. injection Hc as Hp'.
  destruct (set_entry_Some _ _ _ _ _ Hset2) as (sq & e & mb & _ & _ & -> & _).
  split_and!; [done|..].
  - subst p'. destruct (claim_update _ _ _ _) as [u|]; [|done]. by destruct (bool_decide _).
  - subst p'. destruct (claim_update _ _ _ _) as [u|]; [destruct (bool_decide _)|];
      cbn; by rewrite lookup_insert_eq.
  - subst p'. destruct (claim_update _ _ _ _) as [u|]; [|done]. by destruct (bool_decide _).
  - intros e' He'.
    rewrite (same_entries_get_entry _ _ _ _ Hse), (get_entry_set_entry _ _ _ _ _ Hpl Hset).
    rewrite decide_True by done.
    change (get_entry (set_last_workspace_seq _ p) r id) with (get_entry p r id). by rewrite He'.
Qed.
(** Before and after the claim the same doorbell counts as consumed by it. *)
Lemma consumed_doorbell_stable p line p' r id :
  wf p → claim_sequences p !! (r, id) = None → ll_seq line = last_seq p + 1 →
  claim_sequences p' !! (r, id) = Some (ll_seq line) →
  notifications p' = apply_update (claim_update p line r id) (notifications p) →
  consumed_doorbell_attempt p' r id = consumed_doorbell_attempt p r id.
Proof.
  intros Hwf Hq Hs Hq' Hn. unfold consumed_doorbell_attempt, notification.
  rewrite Hn, Hq', Hq. unfold claim_update.
  destruct (notifications p !! (r, id)) as [c|] eqn:Hc; cbn [mbind option_bind apply_update];
    [|by rewrite Hc].
  pose proof (ro_seq _ _ _ (nw_record _ (wf_notif _ Hwf) _ _ Hc)) as (_ & _ & Hle).
  case_bool_decide as Hset; cbn [apply_update up_key up_record].
  - rewrite Hc. cbn. rewrite (bool_decide_eq_false_2 (Some (ll_seq line) = Some (nr_updated_seq c)))
      by (intros [= E]; lia).
    rewrite (bool_decide_eq_false_2 (None = Some (nr_updated_seq c))) by done. done.
  - rewrite lookup_insert_eq. cbn. rewrite (bool_decide_eq_true_2 (Some (ll_seq line) = _)) by done.
    rewrite (bool_decide_eq_false_2 (None = Some (nr_updated_seq c))) by done.
    destruct (nr_state c), (nr_transport c); cbn in Hset |- *; congruence || done.
Qed.

(** A claim is exact and repeatable: a first claim turns the claimant's
    own pending entry into a claimed one and returns its message, and claiming
    again, at any time and whatever the disk does, appends nothing and returns
    the same entry, message and consumed doorbell. *)
Theorem claim_retry_is_idempotent ws rows s env claimant id ts s1 entry message skipped withdrawn
    consumed env2 ts2 :
  store_ok ws s rows → ts ≤ u64_max → env_now env ≤ u64_max →
  claim_at s env claimant id ts =
    (s1, Done (ClaimedOutcome entry message skipped withdrawn consumed)) →
  (∃ e, get_entry (st_projection s) claimant id = Some e ∧ me_state e = Pending ∧
    entry = set_entry_state (Claimed claimant (row_ts env ts)) e) ∧
  get_entry (st_projection s1) claimant id = Some entry ∧
  claim_at s1 env2 claimant id ts2 = (s1, Done (AlreadyClaimedOutcome entry message None consumed)).
Proof.
  intros Hok Hts Henv H. pose proof (store_ok_wf _ _ _ Hok) as Hwf. unfold claim_at in H.
  destruct (get_entry (st_projection s) claimant id) as [e|] eqn:He; [|done].
  destruct (transpose_map _ _) as [[msg|]|] eqn:Hmsg; [|done..].
  destruct (me_state e) eqn:Hst; [|by destruct (bool_decide _)|done..].
  destruct (mailbox_fact_to_value _) as [v|] eqn:Hv; [|done].
  set (line := state_row s env (mid_text id) ts (recipient_display claimant) [] v) in H.
  destruct (append_row s env line) as [s' o] eqn:Ha.
  assert (row_for s line) as Hrow.
  { apply state_row_for; [apply Hok|done..|by eapply mailbox_fact_storable]. }
  pose proof (append_row_ok _ _ _ _ _ _ _ Hok Hrow Ha) as Hres. destruct o as [row| |]; try done.
  destruct Hres as (-> & Hok1 & Happ).
  destruct (mailbox_wf_get_entry _ _ _ _ (wf_mailbox _ Hwf) He) as (Hi & Hat & Hid & Hrec).
  assert (me_recipient e = claimant) as Er by (apply Hrec).
  rewrite Er in *.
  assert (∃ l, messages (st_projection s) !! id = Some l) as [l Hl].
  { unfold get_message in Hmsg. destruct (messages _ !! id); [by eauto|done]. }
  destruct (message_claimed_fact id claimant claimant v line
    (stored_id_valid _ _ _ Hwf Hl) Hv eq_refl) as [Hty Hf].
  destruct (claim_applied _ line _ id claimant claimant Hwf eq_refl Hty Hf Happ)
    as (Hseq & Hmsgs & Hcs & Hn & Hent).
  rewrite (Hent _ He) in H. injection H as <- <- <- <- <- <-.
  split_and!; [by exists e|by apply Hent|].
  unfold claim_at. rewrite (Hent _ He). unfold get_message in *. rewrite Hmsgs, Hmsg. cbn.
  rewrite bool_decide_eq_true_2 by done. rewrite Er. do 3 f_equal.
  apply (consumed_doorbell_stable _ line); try done.
  destruct (claim_sequences (st_projection s) !! (claimant, id)) as [q|] eqn:Hcq; [|done].
  destruct (cw_sequence _ (wf_claims _ Hwf) _ _ _ Hcq) as (_ & sq & e' & at_ms & Hi' & Hat' & Hst' & _).
  rewrite Hi in Hi'. injection Hi' as <-. congruence.
Qed.

(** ** Minted ids *)

(** The text of a random UUID: 32 lower-case hexadecimal digits. *)
Definition uuid_simple (random : rstr) : Prop :=
  length random = 32%nat ∧ Forall (λ c, is_lower_hex c = true) random.

Lemma mint_candidate_valid root random :
  uuid_simple random → (∀ r, root = Some r → message_id_valid r) →
  message_id_valid (mint_candidate root random) ∧
  ∀ r, root = Some r → thread_part (mint_candidate root random) = Some (thread_key r).
Proof.
  intros [Hlen Hhex] Hroot.
  assert (is_id_part (take MESSAGE_ID_PART_LEN random) = true) as Htake.
  { apply is_id_part_take; [done|]. rewrite Hlen. unfold MESSAGE_ID_PART_LEN. lia. }
  unfold message_id_valid, thread_part. destruct root as [r|]; cbn [mint_candidate].
  - pose proof (Hroot r eq_refl) as Hr.
    destruct (cyc_id_valid _ _ (thread_key_valid _ _ Hr) Htake) as [Hv Hp].
    split; [exact Hv|]. intros r' [= <-]. unfold mint_in_thread. by rewrite Hp.
  - split; [|done]. apply cyc_id_valid; [done|].
    apply is_id_part_intro; [rewrite length_drop, Hlen; done|by apply Forall_drop].
Qed.

(** Minting gives a valid id that no stored message has, in the thread it
    was minted for; it keeps drawing while the candidate is taken and gives up
    on no draw that would do. *)
Theorem minted_ids_are_fresh s root draws :
  Forall uuid_simple draws → (∀ r, root = Some r → message_id_valid r) →
  (∀ id, mint_message_id s root draws = Some id →
     message_id_valid id ∧ get_message (st_projection s) id = None ∧
     ∀ r, root = Some r → thread_part id = Some (thread_key r) ∧ thread_key id = thread_key r) ∧
  (mint_message_id s root draws = None ↔
   Forall (λ d, is_Some (get_message (st_projection s) (mint_candidate root d))) draws).
Proof.
  intros Hdraws Hroot. induction Hdraws as [|d draws Hd _ IH]; [by split|].
  cbn [mint_message_id]. destruct (mint_candidate_valid root d Hd Hroot) as [Hv Hth].
  case_bool_decide as Hn.
  - split.
    + intros id [= <-]. split_and!; [done|done|]. intros r Hr. pose proof (Hth r Hr) as E.
      split; [done|]. unfold thread_key at 1. by rewrite E.
    + split; [done|]. intros [[l Hl] _]%Forall_cons. congruence.
  - destruct IH as [IH1 IH2]. split; [done|]. rewrite IH2, Forall_cons.
    apply not_eq_None_Some in Hn. tauto.
Qed.
End idempotency.
