(* ===== verification/Service.v ===== *)
(** * The mailbox service

    [src/cyclopsd/src/mailbox/service.rs]: [MailboxService], the one door to a
    workspace's mailbox.  It holds the directory and the store behind their locks,
    turns requests into store operations, and publishes every committed change
    while the store lock still orders it.

    The store lock is poisoned by a panic under it; the directory lock never is,
    because nothing that holds it for writing can panic.  Each operation is one step:
    it runs with the store lock held.  [sv_changes] is what the publisher has sent so
    far, if the service has one. *)
From S2P Require Import Prelude Text Identity Ledger Journal Mailbox Notification Doorbell Facts.
From S2P Require Import Facts Projection Attempt Prepared MailboxInv NotificationInv.
From S2P Require Import Invariant Replay Entries Guarantees Store Views ViewProps StoreInv.
From S2P Require Import StoreOps Scheduler Directory.
Local Open Scope N_scope.
Local Open Scope rust_scope.

(** ** Changes *)
Inductive MessagesChangedArea := AreaMessages | AreaMailboxes | AreaNotifications | AreaAttention.
#[export] Instance MessagesChangedArea_eq_dec : EqDecision MessagesChangedArea.
Proof. solve_decision. Defined.
(** The areas in the order of the enum, as a [BTreeSet] yields them. *)
Definition btree_set_areas (l : list MessagesChangedArea) : list MessagesChangedArea :=
  List.filter (λ a, bool_decide (a ∈ l)) [AreaMessages; AreaMailboxes; AreaNotifications; AreaAttention].
Record MessagesChangedData := MkChanged {
  cg_workspace_id : WorkspaceId;
  cg_workspace_seq : N;
  cg_changed : list MessagesChangedArea;
}.

(** ** Requests and answers *)
Record MailboxSend := MkSend {
  sd_addresses : list rstr;
  sd_recipient_keys : option (list RecipientKey);
  sd_subject : rstr;
  sd_summary : option rstr;
  sd_body : rstr;
  sd_fyi : bool;
  sd_client_key : option rstr;
  sd_supersedes : option MessageId;
  sd_raw : bool;
}.
Inductive MailboxServiceError :=
| DirectoryError (e : MailboxDirectoryError)
| StoreError (e : MessageStoreError)
| Poisoned
| ForeignDirectory
| NotificationSchedule (text : rstr)
| OperatorRequired.
Record MessageDisposition := MkDisposition {
  di_recipient : RecipientKey;
  di_label : rstr;
  di_attempt_id : option NotificationAttemptId;
  di_transport : option NotificationTransport;
  di_notification_state_raw : option NotificationState;
  di_notification_state : MessageNotificationState;
  di_quota_state : option MessageQuotaState;
  di_notification_settlement : option MessageNotificationSettlement;
  di_pre_write_cause : option NotificationPreWriteCause;
  di_wake_block : option MessageWakeBlock;
  di_position_ahead : option N;
}.
(** How an operation ends.  [Drawing]: every id drawn so far is taken, and the
    minting loop draws on. *)
Inductive svc_answer (A : Type) :=
| Answered (a : A)
| Refused (e : MailboxServiceError)
| Crashed
| Drawing.
Arguments Answered {A} a.
Arguments Refused {A} e.
Arguments Crashed {A}.
Arguments Drawing {A}.
Definition mailbox_refusal (e : MailboxError) : MailboxServiceError := StoreError (StoreMailbox e).

Section service.
Context {V : Type} {serde : Serde V} {codec : LineCodec V} {uuids : Uuids} {digests : Digests}.
Implicit Types (p : MailboxProjection V) (s : MessageStore (V:=V)).

Record MailboxService := MkService {
  sv_workspace_id : WorkspaceId;
  sv_directory : MailboxDirectory;
  sv_store : MessageStore (V:=V);
  sv_poisoned : bool;
  sv_changes : option (list MessagesChangedData);
}.
Implicit Types svc : MailboxService.
(** [new_with_events] if [publishes], [new] otherwise. *)
Definition service_new (directory : MailboxDirectory) s (publishes : bool) : MailboxService :=
  MkService (dy_workspace_id directory) directory s false (if publishes then Some [] else None).
Definition swap_store svc s : MailboxService :=
  MkService (sv_workspace_id svc) (sv_directory svc) s (sv_poisoned svc) (sv_changes svc).
(** The publisher's workspace is the one of the store's projection. *)
Definition publish_change svc (workspace_seq : N) (changed : list MessagesChangedArea) : MailboxService :=
  MkService (sv_workspace_id svc) (sv_directory svc) (sv_store svc) (sv_poisoned svc)
    ((λ sent, sent ++ [MkChanged (workspace_id (st_projection (sv_store svc))) workspace_seq (btree_set_areas changed)])
       <$> sv_changes svc).
Definition poison svc : MailboxService :=
  MkService (sv_workspace_id svc) (sv_directory svc) (sv_store svc) true (sv_changes svc).

(** Runs a store operation under the lock and publishes what [change] says of the
    answer and the new store. *)
Definition under_store {A} svc (f : MessageStore (V:=V) → MessageStore (V:=V) * outcome A)
    (change : A → MessageStore (V:=V) → option (N * list MessagesChangedArea)) : MailboxService * svc_answer A :=
  match f (sv_store svc) with
  | (s, Done a) =>
      (match change a s with
       | Some (seq, areas) => publish_change (swap_store svc s) seq areas
       | None => swap_store svc s
       end, Answered a)
  | (s, Failed e) => (swap_store svc s, Refused (StoreError e))
  | (s, Panicked) => (poison (swap_store svc s), Crashed)
  end.
(** [self.store()?] *)
Definition locked {A} svc (k : MailboxService * svc_answer A) : MailboxService * svc_answer A :=
  if sv_poisoned svc then (svc, Refused Poisoned) else k.
Definition read_store {A} svc (f : MailboxProjection V → result MailboxServiceError A) : result MailboxServiceError A :=
  if sv_poisoned svc then Err Poisoned else f (st_projection (sv_store svc)).

(** ** The directory *)
Definition service_admin svc : MailboxIdentity := MkIdentity (recipient_admin (sv_workspace_id svc)) (str "admin").
Definition identity_for_address svc (address : rstr) : svc_answer MailboxIdentity :=
  if bool_decide (address = str "*") then Refused (DirectoryError (UnknownRecipient address))
  else match resolve_addresses (sv_directory svc) [address] with
       | Err e => Refused (DirectoryError e)
       | Ok (i :: _) => Answered i
       | Ok [] => Crashed
       end.
Definition replace_directory svc (directory : MailboxDirectory) : MailboxService * svc_answer unit :=
  if bool_decide (dy_workspace_id directory ≠ sv_workspace_id svc) then (svc, Refused ForeignDirectory)
  else (MkService (sv_workspace_id svc) directory (sv_store svc) (sv_poisoned svc) (sv_changes svc), Answered ()).
Definition service_seal svc : MailboxService * svc_answer unit :=
  locked svc
    (let s := sv_store svc in
     (swap_store svc (MkStore (seal (st_writer s)) (st_projection s) (st_fail_recovery s)), Answered ())).

(** ** Sending *)
Definition send_recipients svc (request : MailboxSend) : result MailboxDirectoryError (list MailboxIdentity) :=
  match sd_recipient_keys request with
  | Some keys =>
      bail MixedRecipientSelectors when bool_decide (sd_addresses request ≠ []) ;;
      resolve_recipient_keys (sv_directory svc) keys
  | None => resolve_addresses (sv_directory svc) (sd_addresses request)
  end.
Definition send_draft (sender : MailboxIdentity) (request : MailboxSend) (recipients : list MailboxIdentity) : MessageDraft :=
  MkDraft (if sd_fyi request then KFyi else KMsg) (id_key sender) (id_key <$> recipients) (Some (sd_subject request))
    (sd_summary request) (if bool_decide (sd_body request = []) then None else Some (sd_body request))
    (sd_client_key request) (sd_supersedes request)
    (MkMessagePresentation (id_label sender) ((λ i, MkRecipientPresentation (id_key i) (id_label i)) <$> recipients))
    (sd_raw request)
    (bool_decide (sd_recipient_keys request = None) && bool_decide (sd_addresses request = [str "*"])).
(** The message to be superseded has a wake attempt, which the message withdraws. *)
Definition withdrew_notification p (draft : MessageDraft) : bool :=
  match dr_supersedes draft, head (dr_recipients draft) with
  | Some id, Some recipient => bool_decide (is_Some (notification p recipient id))
  | _, _ => false
  end.
Definition send_areas (withdrew : bool) : list MessagesChangedArea :=
  if withdrew then [AreaMessages; AreaMailboxes; AreaNotifications] else [AreaMessages; AreaMailboxes].
(** [random]: the texts of the fresh UUIDs the minting loop draws. *)
Definition send svc (env : Env) (random : list rstr) (sender : MailboxIdentity) (request : MailboxSend)
    : MailboxService * svc_answer AcceptResult :=
  match send_recipients svc request with
  | Err e => (svc, Refused (DirectoryError e))
  | Ok recipients =>
      locked svc
        (let draft := send_draft sender request recipients in
         let s := sv_store svc in
         let p := st_projection s in
         match supersession_thread_root p (dr_sender draft) (dr_recipients draft) (dr_supersedes draft) with
         | Err e => (svc, Refused (mailbox_refusal e))
         | Ok thread_root =>
             match mint_message_id s thread_root random with
             | None => (svc, Drawing)
             | Some message_id =>
                 under_store svc (λ s, accept_at s env message_id draft (env_now env))
                   (λ accepted _, if as_inserted accepted then Some (as_seq accepted, send_areas (withdrew_notification p draft))
                                  else None)
             end
         end)
  end.

(** A doorbell's locator names its attempt; any other reference is a message id. *)
Definition referenced_message p (reference : MessageId) : result MailboxError MessageId :=
  match parse_notification_attempt_claim_locator reference with
  | Some attempt_id =>
      let? record := ok_or (notification_by_attempt p attempt_id) (NotificationAttemptUnknown attempt_id) in
      Ok (nr_message_id record)
  | None => Ok reference
  end.
Definition reply_with_summary svc (env : Env) (random : list rstr) (sender : MailboxIdentity) (reference : MessageId)
    (summary : option rstr) (body : rstr) (client_key : option rstr) (raw : bool) : MailboxService * svc_answer AcceptResult :=
  locked svc
    (let s := sv_store svc in
     let p := st_projection s in
     match (let? reference := referenced_message p reference in
            let? derived := derive_reply p (id_key sender) reference in
            Ok (reference, derived)) with
     | Err e => (svc, Refused (mailbox_refusal e))
     | Ok (reference, derived) =>
         match identity_for_recipient (sv_directory svc) (rd_recipient derived) with
         | None => (svc, Refused (DirectoryError (UnknownRecipient (recipient_display (rd_recipient derived)))))
         | Some destination =>
             match mint_message_id s (Some (rd_thread_root derived)) random with
             | None => (svc, Drawing)
             | Some message_id =>
                 under_store svc (λ s, reply_at s env message_id
                     (MkReplyDraft (id_key sender) reference summary (if bool_decide (body = []) then None else Some body)
                        client_key (id_label sender) (id_label destination) raw) (env_now env))
                   (λ accepted _, if as_inserted accepted then Some (as_seq accepted, send_areas false) else None)
             end
         end
     end).

(** ** Claiming *)
Definition claim_areas (notifications : bool) : list MessagesChangedArea :=
  if notifications then [AreaMailboxes; AreaNotifications] else [AreaMailboxes].
(** [expect("a fresh claim advances the workspace sequence")] is read as sequence 0,
    which no row has. *)
Definition claim_change (changed : bool) (outcome : ClaimOutcome) s : option (N * list MessagesChangedArea) :=
  match outcome with
  | ClaimedOutcome _ _ _ withdrawn _ =>
      Some (default 0 (last_workspace_seq (st_projection s)), claim_areas (changed || bool_decide (is_Some withdrawn)))
  | AlreadyClaimedOutcome _ _ _ _ => None
  end.
Definition claim svc (env : Env) (claimant : RecipientKey) (message_id : MessageId) : MailboxService * svc_answer ClaimOutcome :=
  locked svc
    (let notification_changed := claim_settles (st_projection (sv_store svc)) claimant message_id in
     under_store svc (λ s, claim_at s env claimant message_id (env_now env)) (claim_change notification_changed)).
Definition service_claim_locator svc (env : Env) (claimant : RecipientKey) (locator : MessageId)
    (attempt_id : NotificationAttemptId) : MailboxService * svc_answer (ClaimOutcome * bool) :=
  locked svc
    (under_store svc (λ s, claim_notification_locator s env claimant locator attempt_id)
       (λ x s, claim_change x.2 x.1 s)).

(** ** Wake attempts *)
Definition notification_change (record : option NotificationRecord) : option (N * list MessagesChangedArea) :=
  (λ r, (nr_updated_seq r, [AreaNotifications])) <$> record.
(** The branch that queues a fresh attempt, the only one that publishes. *)
Definition queues_fresh p (recipient : RecipientKey) : bool :=
  bool_decide (claimed_operator_notification p recipient = None) &&
  match first_actionable_notification_message_id p recipient with
  | Some message_id => bool_decide (notification p recipient message_id = None)
  | None => false
  end.
(** [attempt] is the freshly generated id. *)
Definition service_prepare_oldest svc (env : Env) (recipient : RecipientKey) (attempt : NotificationAttemptId)
    : MailboxService * svc_answer (option NotificationRecord) :=
  if is_admin recipient then (svc, Answered None)
  else locked svc
    (let queues := queues_fresh (st_projection (sv_store svc)) recipient in
     under_store svc (λ s, prepare_oldest_notification s env recipient attempt)
       (λ record _, if queues then notification_change record else None)).
Definition service_reopen_oldest svc (env : Env) (recipient : RecipientKey) (o : NotificationPreWriteObservation)
    (write_ready : bool) : MailboxService * svc_answer (option NotificationRecord) :=
  if is_admin recipient then (svc, Answered None)
  else locked svc
    (under_store svc (λ s, reopen_oldest_notification_after_route_evidence s env recipient o write_ready)
       (λ record _, notification_change record)).
(** [fresh n]: the id generated for the [n]-th recipient. *)
Definition requeue_message svc (env : Env) (fresh : nat → NotificationAttemptId) (message_id : MessageId)
    : MailboxService * svc_answer (list NotificationRecord) :=
  locked svc
    (let p := st_projection (sv_store svc) in
     if bool_decide (get_message p message_id = None) then (svc, Refused (mailbox_refusal (MessageNotFound message_id)))
     else
       let selected := List.filter (λ r, entry_is_pending p (nr_recipient r) message_id) (requeueable_for_message p message_id) in
       let requeues := imap (λ i r, MkRequeue (nr_attempt_id r) (fresh i) (nr_recipient r)) selected in
       under_store svc (λ s, requeue_notifications s env message_id requeues)
         (λ requeued _, (λ r, (nr_updated_seq r, [AreaNotifications; AreaAttention])) <$> head requeued)).
Definition service_withdraw svc (env : Env) (operator recipient : RecipientKey) (attempt_id : NotificationAttemptId)
    : MailboxService * svc_answer (NotificationRecord * bool) :=
  locked svc
    (let before := last_workspace_seq (st_projection (sv_store svc)) in
     under_store svc
       (λ s, match withdraw_notification_before_write s env operator recipient attempt_id with
             | (s, Done record) => (s, Done (record, bool_decide (last_workspace_seq (st_projection s) ≠ before)))
             | (s, Failed e) => (s, Failed e)
             | (s, Panicked) => (s, Panicked)
             end)
       (λ x _, if x.2 : bool then Some (nr_updated_seq x.1, [AreaNotifications]) else None)).

(** ** Alarms *)
Definition alarms_at_or_before svc (cutoff_ms : N) : result MailboxServiceError (list NotificationRecord) :=
  read_store svc (λ p, Ok (List.filter (λ r, nr_updated_at r <=? cutoff_ms) (open_alarms p))).
(** Resolves every identifier before anything is appended: the alarms in request
    order, and those of them that are not acknowledged yet. *)
Definition alarm_named p (cutoff_ms : option N) (id : NotificationAttemptId) : result MailboxError NotificationRecord :=
  let? record := ok_or (notification_by_attempt p id) (NotificationAttemptUnknown id) in
  bail NotificationClearRequiresAttention when bool_decide (nr_state record ≠ AttentionRequired) ;;
  let? _ :=
    match cutoff_ms with
    | Some cutoff_ms =>
        bail (NotificationNewerThanClearCutoff id (nr_updated_at record) cutoff_ms) when cutoff_ms <? nr_updated_at record ;;
        Ok ()
    | None => Ok ()
    end in
  Ok record.
Fixpoint alarms_named p (cutoff_ms : option N) (ids : list NotificationAttemptId)
    : result MailboxError (list NotificationRecord) :=
  match ids with
  | [] => Ok []
  | id :: ids =>
      let? record := alarm_named p cutoff_ms id in
      let? records := alarms_named p cutoff_ms ids in
      Ok (record :: records)
  end.
Definition fresh_alarms p (ids : list NotificationAttemptId) : list NotificationAttemptId :=
  btree_set_attempts (List.filter (λ id, negb (alarm_cleared p id)) ids).
Definition clear_alarms svc (env : Env) (batch : rstr) (operator : RecipientKey) (ids : list NotificationAttemptId)
    (cutoff_ms : option N) : MailboxService * svc_answer (list NotificationRecord) :=
  locked svc
    (let p := st_projection (sv_store svc) in
     if bool_decide (operator ≠ recipient_admin (workspace_id p))
     then (svc, Refused (mailbox_refusal NotificationClearOperatorInvalid))
     else match alarms_named p cutoff_ms ids with
     | Err e => (svc, Refused (mailbox_refusal e))
     | Ok summaries =>
         let fresh := fresh_alarms p ids in
         if bool_decide (fresh = []) then (svc, Answered summaries)
         else
           let before := last_workspace_seq p in
           under_store svc
             (λ s, match clear_notifications_at s env batch operator fresh cutoff_ms (env_now env) with
                   | (s, Done _) => (s, Done summaries)
                   | (s, Failed e) => (s, Failed e)
                   | (s, Panicked) => (s, Panicked)
                   end)
             (λ _ s, let after := last_workspace_seq (st_projection s) in
                     if bool_decide (after = before) then None else Some (default 0 after, [AreaAttention]))
     end).

(** ** Reading *)
Definition list_messages svc (recipient : RecipientKey) (sender : option RecipientKey) (limit : option N)
    : result MailboxServiceError (list MailboxListItem) :=
  read_store svc (λ p,
    let? entries := result_map_err mailbox_refusal (list_mailbox p recipient) in
    let entries := match sender with
                   | Some sender => List.filter (λ e, bool_decide (li_sender e = sender)) entries
                   | None => entries
                   end in
    Ok (match limit with Some limit => take (N.to_nat limit) entries | None => entries end)).
(** The operator's read: the body with no claim and no append. *)
Definition read_message svc (reader : RecipientKey) (reference : MessageId) : result MailboxServiceError InboxMessage :=
  bail OperatorRequired when negb (is_admin reader) ;;
  read_store svc (λ p, result_map_err mailbox_refusal
    (let? message_id := referenced_message p reference in
     let? line := ok_or (get_message p message_id) (MessageNotFound message_id) in
     operator_message line)).
Fixpoint position_in (message_id : MessageId) (entries : list MailboxEntry) : option nat :=
  match entries with
  | [] => None
  | e :: rest => if bool_decide (me_message_id e = message_id) then Some 0%nat else S <$> position_in message_id rest
  end.
Definition try_u32 (n : nat) : option N := if N.of_nat n <? 2 ^ 32 then Some (N.of_nat n) else None.
Definition disposition p (message_id : MessageId) (recipient : RecipientKey) (label : rstr) : MessageDisposition :=
  let position_ahead :=
    position_in message_id
      (List.filter (λ e, negb (notification_withdrawn_by_operator p recipient (me_message_id e))) (get_pending p recipient))
    ≫= try_u32 in
  let record := notification p recipient message_id in
  MkDisposition recipient label (nr_attempt_id <$> record) (nr_transport <$> record) (nr_state <$> record)
    (match record with Some r => notification_state_from (nr_state r) | None => MNotStarted end)
    (r ← record; quota_state_from (nr_state r))
    (r ← record; settlement_from (nr_state r))
    (r ← record; nr_pre_write_cause r)
    (r ← record; notification_wake_block r (attention_resolution_pending p (nr_attempt_id r)))
    position_ahead.
Definition message_dispositions svc (message_id : MessageId) : result MailboxServiceError (list MessageDisposition) :=
  read_store svc (λ p, result_map_err mailbox_refusal
    (let? message := ok_or (get_message p message_id) (MessageNotFound message_id) in
     let? metadata := extract_message_metadata message in
     let? '(_, labels) := presentation_labels (md_recipients metadata) (md_presentation metadata) in
     Ok (zip_with (disposition p message_id) (md_recipients metadata) labels))).
Definition service_snapshot svc (caller : RecipientKey) (recent_settled : N) : result MailboxServiceError MessagesSnapshotResult :=
  read_store svc (λ p, result_map_err mailbox_refusal
    (messages_snapshot p caller recent_settled (current_routes (sv_directory svc)))).
Definition service_follow svc (caller : RecipientKey) (after_seq limit : N) : result MailboxServiceError MessagesFollowResult :=
  read_store svc (λ p, result_map_err mailbox_refusal
    (messages_follow p caller after_seq limit (current_routes (sv_directory svc)))).
Definition journal_lines svc : result MailboxServiceError (list (LedgerLine V)) :=
  if sv_poisoned svc then Err Poisoned
  else result_map_err (λ e, StoreError (StoreLedger e)) (read_after (st_writer (sv_store svc)) 0).

(** The label of the recipient's latest readable message. *)
Definition label_in p (recipient : RecipientKey) (e : MailboxEntry) : option rstr :=
  message ← get_message p (me_message_id e);
  metadata ← result_ok (extract_message_metadata message);
  labels ← result_ok (presentation_labels (md_recipients metadata) (md_presentation metadata));
  position ← position_of recipient (md_recipients metadata);
  labels.2 !! position.
Definition recipient_label p (recipient : RecipientKey) : option rstr :=
  head (omap (label_in p recipient) (rev (get_mailbox p recipient))).
Record ActiveComposerNotification := MkActiveComposer {
  acn_record : NotificationRecord;
  acn_message : option (LedgerLine V);
  acn_entry_state : option MailboxEntryState;
}.
Definition active_composer_notifications_snapshot svc : result MailboxServiceError (list ActiveComposerNotification) :=
  read_store svc (λ p, Ok ((λ r, MkActiveComposer r (get_message p (nr_message_id r))
    (me_state <$> get_entry p (nr_recipient r) (nr_message_id r))) <$> barrier_records p)).
Definition active_composer_notifications svc (recipient : RecipientKey) : result MailboxServiceError (list ActiveComposerNotification) :=
  let? all := active_composer_notifications_snapshot svc in
  Ok (List.filter (λ c, bool_decide (nr_recipient (acn_record c) = recipient)) all).

(** ** Bodies *)
Definition without_body (line : LedgerLine V) : LedgerLine V :=
  MkLedgerLine (ll_seq line) (ll_boot_id line) (ll_id line) (ll_ts line) (ll_kind line) (ll_from line) (ll_to line)
    (ll_subject line) None (ll_reply_to line) (ll_deliveries line) (ll_data line).
Definition redact_message_bodies (service : option MailboxService) (reader : option RecipientKey)
    (lines : list (LedgerLine V)) : list (LedgerLine V) :=
  match service, reader with
  | Some svc, Some reader =>
      if sv_poisoned svc then without_body <$> lines
      else (λ line, if projection_allows_message_body (st_projection (sv_store svc)) reader line then line
                    else without_body line) <$> lines
  | _, _ => without_body <$> lines
  end.
End service.
