(* ===== verification/ServiceProps.v ===== *)
(** * What the mailbox service promises

    The service keeps the store in order and never poisons its lock, and its
    subscribers see the journal: one change per appended row, with the row's
    sequence, naming every part of the projection the row touched. *)
From S2P Require Import Prelude Text Identity Ledger Journal Mailbox Notification Doorbell Facts.
From S2P Require Import Facts Projection Attempt Prepared MailboxInv NotificationInv.
From S2P Require Import Invariant Replay Entries Guarantees Store Views ViewProps StoreInv.
From S2P Require Import StoreOps Scheduler Idempotency Directory Service.
Local Open Scope N_scope.

Section service_props.
Context {V : Type} {serde : Serde V} {codec : LineCodec V} {uuids : Uuids} {digests : Digests}
  {codec_laws : LineCodecLaws V} {serde_laws : SerdeLaws V} {storable_laws : StorableLaws} {digest_laws : DigestLaws}.
Implicit Types (p : MailboxProjection V) (s : MessageStore (V:=V)) (svc : MailboxService (V:=V)) (line : LedgerLine V).

(** ** What a row touches *)

(** Every part of the projection that is not named is as it was. *)
Record areas_sound p p' (areas : list MessagesChangedArea) : Prop := {
  as_messages : AreaMessages ∉ areas → messages p' = messages p;
  as_mailboxes : AreaMailboxes ∉ areas → mailboxes p' = mailboxes p;
  as_notifications : AreaNotifications ∉ areas → notifications p' = notifications p;
  as_attention : AreaAttention ∉ areas → cleared_attempts p' = cleared_attempts p;
}.
Definition clears (m : PreparedMutation) : bool :=
  match m with PMNotificationCleared _ | PMNotificationsCleared _ _ => true | _ => false end.
(** The workspace and the acknowledged alarms. *)
Definition framed p : WorkspaceId * gset NotificationAttemptId := (workspace_id p, cleared_attempts p).
Lemma foldl_insert_entry_kept line id rs p : framed (foldl (insert_entry line id) p rs) = framed p.
Proof. revert p. induction rs as [|r rs IH]; intros p; [done|]. cbn [foldl]. by rewrite IH. Qed.
Lemma foldl_requeue_kept rs p : framed (foldl commit_requeue p rs) = framed p.
Proof. revert p. induction rs as [|r rs IH]; intros p; [done|]. cbn [foldl]. by rewrite IH. Qed.
Lemma commit_line_kept p line m p' : commit_line p line m = Some p' → clears m = false → framed p' = framed p.
Proof.
  destruct m; cbn [commit_line clears]; intros H Ht; try done; try (injection H as <-; done).
  - unfold commit_message in H.
    destruct (match md_supersedes metadata with Some _ => _ | None => _ end) as [p1|] eqn:E; [|done].
    cbn [mbind option_bind] in H. injection H as <-.
    transitivity (framed p1).
    + transitivity (framed (foldl (insert_entry line message_id) (match md_client_key metadata with
        | Some key => set_idempotency_index
            (<[(md_sender metadata, key) := (message_id, md_request_digest metadata)]> (idempotency_index p1)) p1
        | None => p1 end) (md_recipients metadata))); [by destruct superseded_notification|].
      rewrite foldl_insert_entry_kept. by destruct (md_client_key metadata).
    + destruct (md_supersedes metadata); [|by injection E as <-]. destruct (_ !! _); [|done]. cbn [mbind option_bind] in E.
      apply set_entry_frame in E as [mb ->]. done.
  - unfold commit_claim in H. destruct (set_entry _ _ _ _) as [p1|] eqn:Hs; [|done].
    cbn [mbind option_bind] in H. injection H as <-. apply set_entry_frame in Hs as [mb ->].
    destruct notification_update; [|done]. by destruct (bool_decide _).
  - apply set_entry_frame in H as [mb ->]. done.
  - injection H as <-. unfold commit_notification.
    destruct new_attempt, (bound_write record), (proven_unwritten record); cbn [orb]; try done; by destruct (bool_decide _).
  - injection H as <-. by rewrite foldl_requeue_kept.
  - injection H as <-. by destruct forced.
Qed.
Lemma commit_line_cleared p line m p' :
  commit_line p line m = Some p' → clears m = false → cleared_attempts p' = cleared_attempts p.
Proof. intros H Hm. by injection (commit_line_kept _ _ _ _ H Hm). Qed.
Lemma commit_line_workspace p line m p' : commit_line p line m = Some p' → workspace_id p' = workspace_id p.
Proof.
  intros H. destruct (clears m) eqn:Hm; [|by injection (commit_line_kept _ _ _ _ H Hm)].
  by destruct m; try done; injection H as <-.
Qed.
Lemma apply_all_workspace replaying p rows p' : apply_all replaying p rows = AppliedOk p' → workspace_id p' = workspace_id p.
Proof.
  revert p. induction rows as [|line rows IH]; intros p; cbn [apply_all]; [by intros [= <-]|].
  destruct (apply_inner p line replaying) as [q| |] eqn:Ha; try done. intros H. rewrite (IH q H).
  destruct (applied_inv _ _ _ _ Ha) as (m & _ & Hc & _). by eapply commit_line_workspace.
Qed.
(** A fact about wake attempts. *)
Lemma fact_row_areas p line f p' :
  row_of line f → apply_owned p line = AppliedOk p' →
  ∃ m, prepare_fact f p line false = Ok m ∧ commit_line p line m = Some p'.
Proof.
  intros (_ & Hk & v & Hv & Hd) Ha. destruct (applied_inv _ _ _ _ Ha) as (m & Hm & Hc & _).
  exists m. split; [|done]. apply prepare_line_state in Hm; [|done]. by rewrite (prepare_state_fact f v) in Hm.
Qed.
Lemma wake_row_areas p line p' :
  wake_row line → apply_owned p line = AppliedOk p' →
  messages p' = messages p ∧ mailboxes p' = mailboxes p ∧ cleared_attempts p' = cleared_attempts p.
Proof.
  intros (f & Hrow & Hf) Ha. destruct (fact_row_areas _ _ _ _ Hrow Ha) as (m & Hm & Hc).
  destruct Hrow as (Hids & _ & v & Hv & Hd). pose proof (notification_fact_of f v line Hids Hv Hd) as Hfact.
  assert (touches_entries m = false ∧ clears m = false) as [Ht Hcl].
  { destruct f; try done; cbn [prepare_fact] in Hm;
      [unfold prepare_notification_transition in Hm|unfold prepare_notification_requeue in Hm
      |unfold prepare_notification_requeues in Hm|unfold prepare_notification_withdrawal in Hm];
      rewrite Hfact in Hm; ok_inv; try done. }
  pose proof (commit_line_same_entries _ _ _ _ Hc Ht) as (Hmb & Hix & Hms).
  split_and!; [done..|by eapply commit_line_cleared].
Qed.
Lemma wake_row_sound p line p' areas :
  wake_row line → apply_owned p line = AppliedOk p' → AreaNotifications ∈ areas → areas_sound p p' areas.
Proof. intros Hw Ha Hin. destruct (wake_row_areas _ _ _ Hw Ha) as (? & ? & ?). by split. Qed.
Lemma clear_row_sound p line p' ver batch ids operator cutoff :
  row_of line (NotificationsCleared ver batch ids operator cutoff) → apply_owned p line = AppliedOk p' →
  areas_sound p p' [AreaAttention].
Proof.
  intros Hrow Ha. destruct (fact_row_areas _ _ _ _ Hrow Ha) as (m & Hm & Hc).
  destruct Hrow as (Hids & _ & v & Hv & Hd). pose proof (notification_fact_of _ v line Hids Hv Hd) as Hfact.
  cbn [prepare_fact] in Hm. unfold prepare_notification_clears in Hm. rewrite Hfact in Hm. ok_inv.
  cbn [commit_line] in Hc. injection Hc as <-. split; [done..|]. intros Hn. set_solver.
Qed.
(** A claim changes the mailboxes, and the wake attempt only if it settles it. *)
Lemma claim_row_sound p line p' claimant id areas :
  wf p → claim_row claimant id line → apply_owned p line = AppliedOk p' → AreaMailboxes ∈ areas →
  (claim_settles p claimant id = true → AreaNotifications ∈ areas) → areas_sound p p' areas.
Proof.
  intros Hwf (Hid & Hk & r & v & Hv & Hd) Ha Hmb Hn.
  destruct (message_claimed_fact id r claimant v line Hid Hv Hd) as [Hty Hfact].
  destruct (claim_applied p line p' id r claimant Hwf Hk Hty Hfact Ha) as (_ & Hmsg & _ & Hnot & _).
  destruct (applied_inv _ _ _ _ Ha) as (m & Hm & Hc & _).
  assert (m = PMClaim id r claimant (claim_update p line r id) ∧ claimant = r) as [-> ->].
  { apply prepare_line_state in Hm; [|done]. unfold prepare_state in Hm. rewrite Hty in Hm.
    change (prepare_claim p line = Ok m) in Hm. unfold prepare_claim in Hm. rewrite Hfact in Hm. ok_inv.
    destruct (me_state _); ok_inv; split; try done; bool_facts; congruence. }
  split; intros Hno; [done|by destruct (Hno Hmb)| |by eapply commit_line_cleared].
  rewrite Hnot. unfold claim_update. unfold claim_settles, notification in Hn.
  destruct (notifications p !! (r, id)) as [c|]; cbn [mbind option_bind]; [|done].
  destruct (bool_decide (settled_by_claim _ _ = _)) eqn:Hs; [done|]. destruct Hno. apply Hn.
  apply bool_decide_eq_true. by apply bool_decide_eq_false in Hs.
Qed.
(** A fresh message changes messages and mailboxes, and the wake attempt of the
    message it supersedes. *)
Lemma accepted_id_valid ws rows s env id draft ts s1 res digest :
  store_ok ws s rows → ts ≤ u64_max → env_now env ≤ u64_max →
  check_acceptance (st_projection s) draft = Ok (AcceptNew digest) →
  accept_canonical_at s env id draft ts = (s1, Done res) → message_id_valid id.
Proof.
  intros Hok Hts Henv Hc. unfold accept_canonical_at. rewrite Hc.
  destruct (draft_thread_root _ _ _) as [root|]; [|done].
  destruct (presentation_labels _ _) as [[l labels]|]; [|done].
  destruct (metadata_to_value _) as [v|] eqn:Hv; [|done].
  set (line := draft_row s env id draft ts labels v). unfold append_row.
  destruct (prepare_line (st_projection s) line) as [m|] eqn:Hp; [|done]. intros _.
  assert (prepare_message (st_projection s) line = Ok m) as Hpm.
  { unfold prepare_line, prepare_line_inner in Hp. destruct (ok_or _ _); [|done]. destruct (negb _); [done|].
    destruct (check_acceptance_new _ _ _ Hc) as (_ & [Hk|Hk] & _);
      cbn [ll_kind line draft_row] in Hp; by rewrite Hk in Hp. }
  apply prepare_message_ok in Hpm as (id' & md & u & -> & Hmok).
  2: { by destruct (check_acceptance_new _ _ _ Hc) as (_ & Hk & _). }
  pose proof (mok_valid _ _ _ _ _ Hmok) as Hval. pose proof (message_id_new_text _ _ Hval) as ->. by destruct id.
Qed.
Lemma accept_sound ws rows s env id draft ts s1 res withdrew :
  store_ok ws s rows → ts ≤ u64_max → env_now env ≤ u64_max →
  accept_canonical_at s env id draft ts = (s1, Done res) → as_inserted res = true →
  (∀ target r, cd_supersedes draft = Some target → head (cd_recipients draft) = Some r →
     is_Some (notification (st_projection s) r target) → withdrew = true) →
  areas_sound (st_projection s) (st_projection s1) (send_areas withdrew).
Proof.
  intros Hok Hts Henv Hacc Hins Hw.
  destruct (check_acceptance (st_projection s) draft) as [[digest|existing]|] eqn:Hc.
  2:{ unfold accept_canonical_at in Hacc. rewrite Hc in Hacc. unfold accept_existing in Hacc.
      destruct (get_message _ _); [|done]. destruct (extract_message_metadata _); [|done]. by injection Hacc as <- <-. }
  2:{ unfold accept_canonical_at in Hacc. by rewrite Hc in Hacc. }
  pose proof (accepted_id_valid _ _ _ _ _ _ _ _ _ _ Hok Hts Henv Hc Hacc) as Hid.
  destruct (accept_new_state _ _ _ _ _ _ _ _ _ _ Hok Hts Henv Hid Hc Hacc) as (root & line & _ & Hmd & (labels & v & Hline) & _ & Ha & _).
  destruct (applied_inv _ _ _ _ Ha) as (m & Hm & Hcm & _).
  assert (∃ id', m = PMMessage id' (draft_metadata (st_projection s) draft root digest)
    (superseded_update (st_projection s) line (draft_metadata (st_projection s) draft root digest))) as [id' ->].
  { unfold prepare_line_inner in Hm. destruct (ok_or _ _); [|done]. destruct (negb _); [done|].
    destruct (check_acceptance_new _ _ _ Hc) as (_ & Hk & _). assert (ll_kind line = cd_kind draft) as Hkind by by rewrite Hline.
    rewrite <- Hkind in Hk.
    assert (prepare_message (st_projection s) line = Ok m) as Hpm by by destruct Hk as [Hk|Hk]; rewrite Hk in Hm.
    apply prepare_message_ok in Hpm as (id' & md & u & -> & Hmok); [|done].
    rewrite (mok_metadata _ _ _ _ _ Hmok) in Hmd. injection Hmd as ->. exists id'. by rewrite (mok_update _ _ _ _ _ Hmok). }
  split.
  - intros Hn. destruct Hn. destruct withdrew; apply list_elem_of_here.
  - intros Hn. destruct Hn. destruct withdrew; apply list_elem_of_further, list_elem_of_here.
  - intros Hn. rewrite (commit_line_notifications _ _ _ _ Hcm). cbn [notifications_after].
    unfold superseded_update. cbn [md_supersedes md_recipients draft_metadata].
    destruct (cd_supersedes draft) as [target|]; [|done]. cbn [mbind option_bind].
    destruct (cd_recipients draft) as [|r rest]; [done|].
    destruct (notifications (st_projection s) !! (r, target)) as [c|] eqn:E; [|done].
    rewrite (Hw target r) in Hn; [|done|done|by exists c]. by destruct Hn; apply list_elem_of_In; cbn; auto.
  - intros _. by eapply commit_line_cleared.
Qed.

(** ** One operation *)
Record service_ok (ws : WorkspaceId) svc (rows : list (LedgerLine V)) : Prop := {
  vk_workspace : sv_workspace_id svc = ws;
  vk_directory : dy_workspace_id (sv_directory svc) = ws;
  vk_lock : sv_poisoned svc = false;
  vk_store : store_ok ws (sv_store svc) rows;
}.
(** Nothing was appended and nothing is published, or one row was appended, the
    operation answers, and the change published for it carries the row's sequence
    and names every part the row touched. *)
Definition step_ok {A} (ws : WorkspaceId) (rows : list (LedgerLine V)) svc (r : MailboxService (V:=V) * svc_answer A) : Prop :=
  (service_ok ws r.1 rows ∧ st_projection (sv_store r.1) = st_projection (sv_store svc) ∧
   sv_changes r.1 = sv_changes svc ∧ r.2 ≠ Crashed) ∨
  ∃ line areas a, r.2 = Answered a ∧ service_ok ws r.1 (rows ++ [line]) ∧
    sv_changes r.1 = (λ sent, sent ++ [MkChanged ws (ll_seq line) areas]) <$> sv_changes svc ∧
    areas_sound (st_projection (sv_store svc)) (st_projection (sv_store r.1)) areas.
Lemma step_same {A} ws rows svc (a : svc_answer A) : service_ok ws svc rows → a ≠ Crashed → step_ok ws rows svc (svc, a).
Proof. intros Hok Ha. by left. Qed.
Lemma step_locked {A} ws rows svc (k : MailboxService (V:=V) * svc_answer A) :
  service_ok ws svc rows → step_ok ws rows svc k → step_ok ws rows svc (locked svc k).
Proof. intros Hok Hk. unfold locked. by rewrite (vk_lock _ _ _ Hok). Qed.
Lemma btree_set_areas_elem a areas : a ∈ btree_set_areas areas ↔ a ∈ areas.
Proof.
  unfold btree_set_areas. rewrite list_elem_of_In, List.filter_In, <- list_elem_of_In, bool_decide_eq_true.
  split; [by intros [_ ?]|]. intros Ha. split; [|done]. destruct a; set_solver.
Qed.
Lemma areas_sound_sorted p p' areas : areas_sound p p' areas → areas_sound p p' (btree_set_areas areas).
Proof. intros [H1 H2 H3 H4]. split; rewrite btree_set_areas_elem; done. Qed.
Lemma store_workspace ws s rows : store_ok ws s rows → workspace_id (st_projection s) = ws.
Proof. intros Hok. exact (apply_all_workspace _ _ _ _ (sk_replay _ _ _ Hok)). Qed.
Lemma appended_last ws s rows line s' :
  store_ok ws s rows → apply_owned (st_projection s) line = AppliedOk (st_projection s') →
  last_workspace_seq (st_projection s') = Some (ll_seq line) ∧ last_workspace_seq (st_projection s) ≠ Some (ll_seq line).
Proof.
  intros Hok Ha. pose proof (apply_inner_wf (st_projection s) line false (store_ok_wf _ _ _ Hok)) as Hwf.
  unfold apply_owned in Ha. rewrite Ha in Hwf. destruct Hwf as (_ & Hl & Hs). unfold last_seq in *.
  destruct (last_workspace_seq (st_projection s')) as [n|]; cbn in Hl; [|lia].
  destruct (last_workspace_seq (st_projection s)) as [k|]; cbn in *; split; try (f_equal; lia); [intros [= ?]; lia|done].
Qed.
Lemma under_store_step {A} ws rows svc f change (Q : option (LedgerLine V) → A → Prop) :
  service_ok ws svc rows → op_one ws rows (sv_store svc) Q (f (sv_store svc)) →
  (∀ a s', Q None a → st_projection s' = st_projection (sv_store svc) → change a s' = None) →
  (∀ line a s', Q (Some line) a → f (sv_store svc) = (s', Done a) →
     apply_owned (st_projection (sv_store svc)) line = AppliedOk (st_projection s') →
     ∃ areas, change a s' = Some (ll_seq line, areas) ∧ areas_sound (st_projection (sv_store svc)) (st_projection s') areas) →
  step_ok ws rows svc (under_store svc f change).
Proof.
  intros [H1 H2 H3 H4] Hone Hnone Hsome. unfold under_store. destruct (f (sv_store svc)) as [s' o] eqn:Ef.
  unfold op_one in Hone. cbn [fst snd] in Hone. destruct Hone as [(Hok & Hp & Ho)|(line & a & -> & Hok & Ha & HQ)].
  - left. destruct o as [a|e|]; [|done|done]. rewrite (Hnone a s' Ho Hp). done.
  - right. destruct (Hsome line a s' HQ eq_refl Ha) as (areas & -> & Hs). exists line, (btree_set_areas areas), a.
    split_and!; [done|done| |by apply areas_sound_sorted].
    cbn. by rewrite (store_workspace _ _ _ Hok).
Qed.

Section operations.
Context (ws : WorkspaceId) (rows : list (LedgerLine V)) (svc : MailboxService (V:=V)) (env : Env).
Hypothesis Hok : service_ok ws svc rows.
Hypothesis Henv : env_now env ≤ u64_max.
Let Hst : store_ok ws (sv_store svc) rows := vk_store _ _ _ Hok.

Lemma send_step random sender request : step_ok ws rows svc (send svc env random sender request).
Proof.
  unfold send. destruct (send_recipients svc request) as [recipients|e]; [|by apply step_same].
  apply step_locked; [done|]. cbn zeta. destruct (supersession_thread_root _ _ _ _) as [root|e]; [|by apply step_same].
  destruct (mint_message_id _ _ _) as [id|]; [|by apply step_same].
  eapply (under_store_step _ _ _ _ _ accepted_row); [done|by apply accept_canonical_op_one|by intros a s' Ha _; cbn in Ha; rewrite Ha|].
  intros line a s' [Hi Hs] Ef Ha. rewrite Hi, Hs. eexists. split; [done|].
  eapply accept_sound; [exact Hst| | |exact Ef|done|]; [done|done|].
  cbn [cd_supersedes cd_recipients]. intros target r Ht Hr Hn. unfold withdrew_notification. rewrite Ht.
  rewrite Hr. by apply bool_decide_eq_true.
Qed.
Lemma reply_step random sender reference summary body key raw :
  step_ok ws rows svc (reply_with_summary svc env random sender reference summary body key raw).
Proof.
  unfold reply_with_summary. apply step_locked; [done|]. cbn zeta.
  destruct (match referenced_message _ _ with Ok _ => _ | Err _ => _ end) as [[id derived]|e] eqn:Er; [|by apply step_same].
  destruct (identity_for_recipient _ _) as [d|]; [|by apply step_same].
  destruct (mint_message_id _ _ _) as [mid|]; [|by apply step_same].
  eapply (under_store_step _ _ _ _ _ accepted_row); [done|by apply reply_op_one|by intros a s' Ha _; cbn in Ha; rewrite Ha|].
  intros line a s' [Hi Hs] Ef Ha. rewrite Hi, Hs. eexists. split; [done|].
  unfold reply_at in Ef. destruct (derive_reply _ _ _) as [dr|]; [|done].
  eapply accept_sound; [exact Hst| | |exact Ef|done|]; done.
Qed.
Lemma claim_change_sound claimant id changed line c s' :
  claimed_row claimant id (Some line) c → changed = claim_settles (st_projection (sv_store svc)) claimant id →
  apply_owned (st_projection (sv_store svc)) line = AppliedOk (st_projection s') →
  ∃ areas, claim_change changed c s' = Some (ll_seq line, areas) ∧
    areas_sound (st_projection (sv_store svc)) (st_projection s') areas.
Proof.
  intros Hc Hch Ha. destruct c as [e m sk w cons|]; [|done]. destruct Hc as (l & [= <-] & Hrow). cbn [claim_change].
  rewrite (proj1 (appended_last _ _ _ _ _ Hst Ha)). cbn. eexists. split; [done|].
  eapply claim_row_sound; [by eapply store_ok_wf|exact Hrow|done| |].
  - unfold claim_areas. destruct (_ || _); apply list_elem_of_here.
  - intros Hs. rewrite Hch, Hs. cbn. apply list_elem_of_further, list_elem_of_here.
Qed.
Lemma service_claim_step claimant id : step_ok ws rows svc (claim svc env claimant id).
Proof.
  unfold claim. apply step_locked; [done|]. cbn zeta.
  eapply (under_store_step _ _ _ _ _ (claimed_row claimant id)); [done|by apply claim_op_one| |].
  - intros c s' Hc _. destruct c; [|done]. by destruct Hc as (? & ? & _).
  - intros line c s' Hc _ Ha. by eapply claim_change_sound.
Qed.
Lemma claim_locator_step claimant locator attempt : step_ok ws rows svc (service_claim_locator svc env claimant locator attempt).
Proof.
  unfold service_claim_locator. apply step_locked; [done|].
  eapply (under_store_step _ _ _ _ _ (located_row _ claimant)); [done|by apply claim_locator_op_one| |].
  - intros [c b] s' (id & _ & Hc) _. cbn in *. destruct c; [|done]. by destruct Hc as (? & ? & _).
  - intros line [c b] s' (id & Hb & Hc) _ Ha. by eapply claim_change_sound.
Qed.
Lemma withdraw_step operator recipient attempt : step_ok ws rows svc (service_withdraw svc env operator recipient attempt).
Proof.
  unfold service_withdraw. apply step_locked; [done|]. cbn zeta.
  pose proof (withdraw_op_one ws rows (sv_store svc) env operator recipient attempt Hst Henv) as Hone.
  eapply (under_store_step _ _ _ _ _ (λ o x, x.2 = bool_decide (is_Some o) ∧ stamped_row o x.1)); [done| | |].
  - unfold op_one in *. destruct (withdraw_notification_before_write _ _ _ _ _) as [s' [r|e|]]; cbn [fst snd] in *.
    + destruct Hone as [(H1 & H2 & H3)|(line & a & [= <-] & H1 & H2 & H3)]; [left|right]; cbn.
      * split_and!; [done|done| |done]. by rewrite H2, (bool_decide_eq_false_2 (_ ≠ _)) by auto.
      * exists line. eexists. split_and!; [done|done|done| |done]. cbn.
        destruct (appended_last _ _ _ _ _ Hst H2) as [-> Hne]. by rewrite bool_decide_eq_true_2.
    + destruct Hone as [?|(line & a & ? & _)]; [by left|done].
    + by destruct Hone as [(_ & _ & ?)|(line & a & ? & _)].
  - intros [r b] s' [Hb _] _. cbn in *. by rewrite Hb.
  - intros line [r b] s' [Hb Hr] _ Ha. cbn in *. rewrite Hb. cbn. destruct (Hr line eq_refl) as [-> Hw].
    eexists. split; [done|]. eapply wake_row_sound; [done|done|apply list_elem_of_here].
Qed.
Lemma actionable_valid p r id : wf p → first_actionable_notification_message_id p r = Some id → message_id_valid id.
Proof.
  intros Hwf (e & [Hin _]%List.find_some & <-)%first_actionable_spec.
  apply list_elem_of_In in Hin. by apply mailbox_entry_stored in Hin as [_ ?].
Qed.
Lemma actionable_pending_valid p r id : wf p → first_actionable_pending_message_id p r = Some id → message_id_valid id.
Proof.
  unfold first_actionable_pending_message_id. intros Hwf (e & [[Hin _]%List.filter_In _]%List.find_some & ->)%fmap_Some.
  apply list_elem_of_In in Hin. by apply mailbox_entry_stored in Hin as [_ ?].
Qed.
Definition noted_row (o : option (LedgerLine V)) (r : option NotificationRecord) : Prop :=
  match o with None => True | Some line => ∃ n, r = Some n ∧ nr_updated_seq n = ll_seq line ∧ wake_row line end.
Lemma transition_noted t ts :
  ts ≤ u64_max → message_id_valid (tf_message_id t) →
  op_one ws rows (sv_store svc) (λ o r, is_Some o ∧ noted_row o r)
    (match append_notification_transition_full_at (sv_store svc) env t ts with
     | (s, Done n) => (s, Done (Some n))
     | (s, Failed e) => (s, Failed e)
     | (s, Panicked) => (s, Panicked)
     end).
Proof.
  intros Hts Hid. eapply (op_one_map _ _ _ _ _ Some); [by apply transition_op_one|].
  intros o r [[line ->] Hr]. split; [by eauto|]. cbn. destruct (Hr line eq_refl). by eauto.
Qed.
Lemma noted_step {f} (change : option NotificationRecord → MessageStore (V:=V) → option (N * list MessagesChangedArea))
    (Q : option (LedgerLine V) → option NotificationRecord → Prop) :
  op_one ws rows (sv_store svc) Q (f (sv_store svc)) →
  (∀ o a s', Q o a → noted_row o a ∧ change a s' = match o with None => None | Some _ => notification_change a end) →
  step_ok ws rows svc (under_store svc f change).
Proof.
  intros Hone HQ. eapply under_store_step; [done|exact Hone| |].
  - intros a s' Ha _. by apply (HQ None a s').
  - intros line a s' Hq _ Ha. destruct (HQ _ a s' Hq) as [(n & -> & Hs & Hw) ->]. cbn. rewrite Hs. eexists. split; [done|].
    eapply wake_row_sound; [done|done|apply list_elem_of_here].
Qed.
Lemma prepare_step recipient attempt : step_ok ws rows svc (service_prepare_oldest svc env recipient attempt).
Proof.
  unfold service_prepare_oldest. destruct (is_admin recipient) eqn:Hadm; [by apply step_same|].
  apply step_locked; [done|]. cbn zeta. set (p := st_projection (sv_store svc)).
  apply (noted_step _ (λ o r, bool_decide (is_Some o) = queues_fresh p recipient ∧ noted_row o r)).
  - unfold prepare_oldest_notification, queues_fresh. rewrite Hadm. fold p.
    destruct (claimed_operator_notification p recipient) as [n|] eqn:Ec; [by apply op_one_same|].
    rewrite (bool_decide_eq_true_2 (None = None)) by done. cbn [andb].
    destruct (first_actionable_notification_message_id p recipient) as [id|] eqn:Ef; [|by apply op_one_same].
    destruct (notification p recipient id) as [n|] eqn:En; [by apply op_one_same|].
    rewrite (bool_decide_eq_true_2 (None = None)) by done. eapply op_one_weaken.
    + apply transition_noted; [done|]. eapply actionable_valid; [by eapply store_ok_wf|exact Ef].
    + intros o r [Ho Hr]. split; [by apply bool_decide_eq_true|done].
  - intros o a s' [Hq Hr]. split; [done|]. rewrite <- Hq. by destruct o.
Qed.
Lemma reopen_step recipient o ready : step_ok ws rows svc (service_reopen_oldest svc env recipient o ready).
Proof.
  unfold service_reopen_oldest. destruct (is_admin recipient) eqn:Hadm; [by apply step_same|].
  apply step_locked; [done|]. apply (noted_step _ (λ o r, noted_row o r ∧ (o = None → r = None))).
  - unfold reopen_oldest_notification_after_route_evidence. rewrite Hadm. cbn zeta.
    destruct (first_actionable_pending_message_id _ recipient) as [id|] eqn:Ef; [|by apply op_one_same].
    destruct (notification _ recipient id) as [n|] eqn:En; [|by apply op_one_same].
    destruct (_ || _); [by apply op_one_same|]. eapply op_one_weaken.
    + apply transition_noted; [done|]. eapply actionable_pending_valid; [by eapply store_ok_wf|exact Ef].
    + intros x r [Ho Hr]. split; [done|]. intros ->. by destruct Ho.
  - intros x a s' [Hr Hn]. split; [done|]. destruct x; [done|]. by rewrite Hn.
Qed.
Lemma requeue_step fresh id : step_ok ws rows svc (requeue_message svc env fresh id).
Proof.
  unfold requeue_message. apply step_locked; [done|]. cbn zeta. case_bool_decide as Hm; [by apply step_same|].
  apply not_eq_None_Some in Hm as [line Hm].
  eapply (under_store_step _ _ _ _ _ requeued_row); [done| | |].
  - apply requeues_op_one; [done|done|]. exact (stored_id_valid _ _ _ (store_ok_wf _ _ _ Hst) Hm).
  - intros ns s' -> _. done.
  - intros l ns s' (Hw & n & rest & -> & Hs) _ Ha. cbn. rewrite Hs. eexists. split; [done|].
    eapply wake_row_sound; [done|done|apply list_elem_of_here].
Qed.
Lemma clear_alarms_step batch operator ids cutoff : step_ok ws rows svc (clear_alarms svc env batch operator ids cutoff).
Proof.
  unfold clear_alarms. apply step_locked; [done|]. cbn zeta. case_bool_decide; [by apply step_same|].
  destruct (alarms_named _ _ _) as [summaries|e]; [|by apply step_same].
  case_bool_decide as Hf; [by apply step_same|].
  eapply under_store_step; [done|eapply (op_one_map _ _ _ _ (λ o _, _) (λ _, summaries)); [by apply clears_op_one|]| |].
  - intros o [] Ho. exact Ho.
  - intros a s' Ha. by destruct Hf.
  - intros line a s' Hrow _ Ha. cbn beta iota in Hrow. destruct (appended_last _ _ _ _ _ Hst Ha) as [-> Hne].
    rewrite bool_decide_eq_false_2 by congruence. eexists. split; [done|]. by eapply clear_row_sound.
Qed.
Lemma seal_step : step_ok ws rows svc (service_seal svc).
Proof.
  unfold service_seal. apply step_locked; [done|]. left. split_and!; [|done..]. destruct Hok as [H1 H2 H3 [K1 K2 K3 K4 K5 K6]].
  split; [done..|]. by split.
Qed.
Lemma replace_directory_step directory : step_ok ws rows svc (replace_directory svc directory).
Proof.
  unfold replace_directory. case_bool_decide as Hd; [by apply step_same|]. left. destruct Hok as [H1 H2 H3 H4].
  split_and!; [|done..]. split; [done| |done|done]. cbn. congruence.
Qed.
End operations.

(** ** Every operation *)
Inductive ServiceOp :=
| SSend (random : list rstr) (sender : MailboxIdentity) (request : MailboxSend)
| SReply (random : list rstr) (sender : MailboxIdentity) (reference : MessageId) (summary : option rstr) (body : rstr)
    (client_key : option rstr) (raw : bool)
| SClaim (claimant : RecipientKey) (message_id : MessageId)
| SClaimLocator (claimant : RecipientKey) (locator : MessageId) (attempt : NotificationAttemptId)
| SPrepare (recipient : RecipientKey) (attempt : NotificationAttemptId)
| SReopen (recipient : RecipientKey) (o : NotificationPreWriteObservation) (write_ready : bool)
| SRequeue (fresh : nat → NotificationAttemptId) (message_id : MessageId)
| SClear (batch : rstr) (operator : RecipientKey) (ids : list NotificationAttemptId) (cutoff_ms : option N)
| SWithdraw (operator recipient : RecipientKey) (attempt : NotificationAttemptId)
| SReplaceDirectory (directory : MailboxDirectory)
| SSeal.
Definition answered {A} (r : MailboxService (V:=V) * svc_answer A) : MailboxService (V:=V) * svc_answer unit :=
  (r.1, match r.2 with Answered _ => Answered () | Refused e => Refused e | Crashed => Crashed | Drawing => Drawing end).
Definition run_service svc (env : Env) (op : ServiceOp) : MailboxService (V:=V) * svc_answer unit :=
  match op with
  | SSend random sender request => answered (send svc env random sender request)
  | SReply random sender reference summary body key raw =>
      answered (reply_with_summary svc env random sender reference summary body key raw)
  | SClaim claimant id => answered (claim svc env claimant id)
  | SClaimLocator claimant locator attempt => answered (service_claim_locator svc env claimant locator attempt)
  | SPrepare recipient attempt => answered (service_prepare_oldest svc env recipient attempt)
  | SReopen recipient o ready => answered (service_reopen_oldest svc env recipient o ready)
  | SRequeue fresh id => answered (requeue_message svc env fresh id)
  | SClear batch operator ids cutoff => answered (clear_alarms svc env batch operator ids cutoff)
  | SWithdraw operator recipient attempt => answered (service_withdraw svc env operator recipient attempt)
  | SReplaceDirectory directory => replace_directory svc directory
  | SSeal => service_seal svc
  end.
Fixpoint service_run svc (ops : list (Env * ServiceOp)) : MailboxService (V:=V) :=
  match ops with
  | [] => svc
  | (env, op) :: ops => service_run (run_service svc env op).1 ops
  end.
Lemma answered_step {A} ws rows svc (r : MailboxService (V:=V) * svc_answer A) : step_ok ws rows svc r → step_ok ws rows svc (answered r).
Proof.
  intros [(H1 & H2 & H3 & H4)|(line & areas & a & H1 & H2)]; [left|right].
  - split_and!; [done..|]. cbn. by destruct r.2.
  - exists line, areas, (). cbn. by rewrite H1.
Qed.
Lemma run_service_step ws rows svc env op :
  service_ok ws svc rows → env_now env ≤ u64_max → step_ok ws rows svc (run_service svc env op).
Proof.
  intros Hok Henv. destruct op; cbn [run_service]; try apply answered_step.
  - by apply send_step.
  - by apply reply_step.
  - by apply service_claim_step.
  - by apply claim_locator_step.
  - by apply prepare_step.
  - by apply reopen_step.
  - by apply requeue_step.
  - by apply clear_alarms_step.
  - by apply withdraw_step.
  - by apply replace_directory_step.
  - by apply seal_step.
Qed.

Lemma contiguous_lookup k (rows : list (LedgerLine V)) i line :
  contiguous k rows → rows !! i = Some line → ll_seq line = k + N.of_nat i.
Proof.
  revert k i. induction rows as [|l rows IH]; intros k i; [done|]. intros [Hl Hc]. destruct i as [|i]; cbn.
  - intros [= <-]. rewrite Hl. lia.
  - intros Hi. rewrite (IH _ _ Hc Hi). lia.
Qed.
(** [C12.] The service neither poisons its lock nor loses a change.  Whatever it is
    asked, in whatever order and however the disk behaves, the store stays in order,
    the journal is only extended, and no operation crashes; what subscribers were sent
    meanwhile is the appended rows, one change each, in order, with the rows'
    sequences. *)
Theorem changes_follow_the_journal ws rows svc ops :
  service_ok ws svc rows → Forall (λ x, env_now x.1 ≤ u64_max) ops →
  ∃ extra events,
    service_ok ws (service_run svc ops) (rows ++ extra) ∧
    sv_changes (service_run svc ops) = (λ sent, sent ++ events) <$> sv_changes svc ∧
    cg_workspace_seq <$> events = ll_seq <$> extra ∧ Forall (λ e, cg_workspace_id e = ws) events ∧
    (∀ i e, events !! i = Some e → cg_workspace_seq e = N.of_nat (length rows + 1 + i)) ∧
    ∀ env op, env_now env ≤ u64_max → (run_service (service_run svc ops) env op).2 ≠ Crashed.
Proof.
  intros Hok Hops.
  assert (∃ extra events, service_ok ws (service_run svc ops) (rows ++ extra) ∧
    sv_changes (service_run svc ops) = (λ sent, sent ++ events) <$> sv_changes svc ∧
    cg_workspace_seq <$> events = ll_seq <$> extra ∧ Forall (λ e, cg_workspace_id e = ws) events) as (extra & events & H1 & H2 & H3 & H4).
  { revert rows svc Hok. induction Hops as [|[env op] ops Henv Hops IH]; intros rows svc Hok; cbn [service_run].
    - exists [], []. rewrite app_nil_r. split_and!; [done| |done|done]. destruct (sv_changes svc); cbn; [by rewrite app_nil_r|done].
    - destruct (run_service_step ws rows svc env op Hok Henv) as [(K1 & _ & K2 & _)|(line & areas & a & _ & K1 & K2 & _)].
      + destruct (IH _ _ K1) as (extra & events & H1 & H2 & H3 & H4). exists extra, events. by rewrite <- K2.
      + destruct (IH _ _ K1) as (extra & events & H1 & H2 & H3 & H4).
        exists (line :: extra), (MkChanged ws (ll_seq line) areas :: events).
        split_and!; [by rewrite <- app_assoc in H1| |by cbn; rewrite H3|by constructor].
        rewrite H2, K2. destruct (sv_changes svc); cbn; [by rewrite <- app_assoc|done]. }
  exists extra, events. split_and!; [done..| |].
  - intros i e He. assert ((ll_seq <$> extra) !! i = Some (cg_workspace_seq e)) as Hx by by rewrite <- H3, list_lookup_fmap, He.
    rewrite list_lookup_fmap in Hx. destruct (extra !! i) as [line|] eqn:Hi; [|done]. injection Hx as <-.
    rewrite (contiguous_lookup 1 (rows ++ extra) (length rows + i) line); [lia|apply (sk_contiguous _ _ _ (vk_store _ _ _ H1))|].
    rewrite lookup_app_r by lia. by replace (length rows + i - length rows)%nat with i by lia.
  - intros env op Henv Hc. destruct (run_service_step _ _ _ env op H1 Henv) as [(_ & _ & _ & Hn)|(? & ? & ? & Ha & _)]; congruence.
Qed.
Lemma areas_sound_refl p : areas_sound p p [].
Proof. by split. Qed.
Lemma areas_sound_trans p1 p2 p3 l1 l2 : areas_sound p1 p2 l1 → areas_sound p2 p3 l2 → areas_sound p1 p3 (l1 ++ l2).
Proof.
  intros [A1 A2 A3 A4] [B1 B2 B3 B4].
  split; intros [Hn1 Hn2]%not_elem_of_app; [rewrite B1, A1|rewrite B2, A2|rewrite B3, A3|rewrite B4, A4]; done.
Qed.
(** A subscriber that rebuilds only what the changes name has the current
    state: over any run, a part of the projection that no change sent meanwhile names
    (messages, mailboxes, wake attempts, acknowledged alarms) is as it was. *)
Theorem changes_name_what_changed ws rows svc ops sent :
  service_ok ws svc rows → Forall (λ x, env_now x.1 ≤ u64_max) ops → sv_changes svc = Some sent →
  ∃ events, sv_changes (service_run svc ops) = Some (sent ++ events) ∧
    areas_sound (st_projection (sv_store svc)) (st_projection (sv_store (service_run svc ops)))
      (mjoin (cg_changed <$> events)).
Proof.
  intros Hok Hops. revert rows svc sent Hok.
  induction Hops as [|[env op] ops Henv Hops IH]; intros rows svc sent Hok Hs; cbn [service_run].
  { exists []. rewrite app_nil_r. by split; [|apply areas_sound_refl]. }
  destruct (run_service_step ws rows svc env op Hok Henv) as [(K1 & Kp & K2 & _)|(line & areas & a & _ & K1 & K2 & Ks)].
  - rewrite Hs in K2. destruct (IH _ _ _ K1 K2) as (events & H1 & H2). exists events. by rewrite <- Kp.
  - rewrite Hs in K2. destruct (IH _ _ _ K1 K2) as (events & H1 & H2). exists (MkChanged ws (ll_seq line) areas :: events).
    rewrite <- app_assoc in H1. split; [done|]. cbn. by eapply areas_sound_trans.
Qed.

(** ** Alarms *)
Lemma alarms_named_Ok p cutoff ids records :
  alarms_named p cutoff ids = Ok records ↔ Forall2 (λ id r, alarm_named p cutoff id = Ok r) ids records.
Proof.
  revert records. induction ids as [|id ids IH]; intros records; cbn.
  - split; [by intros [= <-]|]. by intros ->%Forall2_nil_inv_l.
  - destruct (alarm_named p cutoff id) as [r|e] eqn:E.
    + destruct (alarms_named p cutoff ids) as [rs|e]; split.
      * intros [= <-]. constructor; [done|]. by apply IH.
      * intros (r' & rs' & Hr & Hrs & ->)%Forall2_cons_inv_l. apply IH in Hrs. congruence.
      * done.
      * intros (r' & rs' & Hr & Hrs & ->)%Forall2_cons_inv_l. apply IH in Hrs. congruence.
    + split; [done|]. intros (r' & rs' & Hr & Hrs & ->)%Forall2_cons_inv_l. congruence.
Qed.
Lemma alarms_named_Err p cutoff ids e : alarms_named p cutoff ids = Err e → ∃ id, id ∈ ids ∧ ∀ r, alarm_named p cutoff id ≠ Ok r.
Proof.
  induction ids as [|id ids IH]; [done|]. cbn. destruct (alarm_named p cutoff id) as [r|] eqn:E.
  - destruct (alarms_named p cutoff ids); [done|]. intros H. destruct IH as (i & Hi & Hn); [done|].
    exists i. split; [by right|done].
  - intros _. exists id. split; [by left|]. congruence.
Qed.
Lemma remove_dups_NoDup {A} `{EqDecision A} (l : list A) : NoDup l → remove_dups l = l.
Proof.
  induction 1 as [|x l Hx _ IH]; [done|]. cbn. destruct (decide_rel (∈) x l); [done|by rewrite IH].
Qed.
Lemma btree_set_attempts_elem a l : a ∈ btree_set_attempts l ↔ a ∈ l.
Proof. unfold btree_set_attempts, sort_by_key. by rewrite merge_sort_Permutation, elem_of_remove_dups. Qed.
Lemma btree_set_attempts_twice l : btree_set_attempts (btree_set_attempts l) = btree_set_attempts l.
Proof.
  unfold btree_set_attempts at 1. rewrite remove_dups_NoDup.
  2:{ unfold btree_set_attempts, sort_by_key. rewrite merge_sort_Permutation. apply NoDup_remove_dups. }
  assert (AntiSymm (=) (by_key attempt_rank)).
  { intros x y Hx Hy. unfold by_key in *. apply bsub_eq, bsub_eq. unfold attempt_rank in *. lia. }
  apply (Sorted_unique (by_key attempt_rank)); [apply Sorted_merge_sort; apply _|apply Sorted_merge_sort; apply _|].
  apply merge_sort_Permutation.
Qed.
(** What the request checks, the row checks again. *)
Lemma checked_clears p cutoff ids :
  (∀ id, id ∈ ids → alarm_cleared p id = false ∧ ∃ r, alarm_named p cutoff id = Ok r) →
  ∃ names, check_clears p cutoff ids = Ok names ∧ attempt_recipients p ids = Ok names.
Proof.
  induction ids as [|id ids IH]; intros Hall; [by exists []|].
  destruct IH as (names & H1 & H2); [intros i Hi; apply Hall; by right|].
  destruct (Hall id) as (Hc & r & Hr); [by left|]. unfold alarm_named in Hr.
  cbn [check_clears attempt_recipients]. rewrite Hc.
  destruct (notification_by_attempt p id) as [n|]; [|done]. cbn [ok_or] in *.
  destruct (bool_decide (nr_state n ≠ AttentionRequired)); [done|]. rewrite H1, H2.
  exists (recipient_display (nr_recipient n) :: names). destruct cutoff as [c|]; [|done]. by destruct (c <? nr_updated_at n).
Qed.
Lemma clears_accepted ws rows s env batch operator ids cutoff ts :
  store_ok ws s rows → operator = recipient_admin ws → ids ≠ [] → btree_set_attempts ids = ids →
  (str "clear-" ++ batch) ∉ clearance_batches (st_projection s) → lw_next_seq (st_writer s) ≤ u64_max →
  (∀ id, id ∈ ids → alarm_cleared (st_projection s) id = false ∧ ∃ r, alarm_named (st_projection s) cutoff id = Ok r) →
  ∀ e, (clear_notifications_at s env batch operator ids cutoff ts).2 = Failed e →
    match e with StoreMailbox _ => False | _ => True end.
Proof.
  intros Hok -> Hne Hsort Hb Hmax Hall e. unfold clear_notifications_at. pose proof (store_workspace _ _ _ Hok) as Hws.
  rewrite Hws, bool_decide_eq_false_2 by (intros H; by apply H). rewrite bool_decide_eq_false_2 by done.
  destruct (checked_clears _ _ _ Hall) as (names & Hcheck & ->).
  destruct (notification_fact_to_value _) as [v|] eqn:Hv; [|by intros [= <-]].
  set (line := state_row _ _ _ _ _ _ _). assert (∃ m, prepare_line (st_projection s) line = Ok m) as [m Hm].
  { unfold prepare_line, prepare_line_inner. pose proof (store_ok_seq _ _ _ Hok) as Hseq. unfold last_seq in Hseq.
    rewrite (proj2 (checked_add_u64_Some _ 1 _)) by (split; [reflexivity|lia]). cbn [ok_or].
    rewrite Hseq. cbn [ll_seq line state_row]. rewrite N.eqb_refl. cbn [negb ll_kind line state_row].
    rewrite (prepare_state_fact _ v _ _ _ Hv) by done. cbn [prepare_fact]. unfold prepare_notification_clears.
    assert (fact_ids_valid (NotificationsCleared CANONICAL_RECORD_VERSION (str "clear-" ++ batch) ids (recipient_admin ws) cutoff)) as Hids
      by (by intros ? [=]).
    rewrite (notification_fact_of _ v line Hids Hv eq_refl). rewrite Hws, Hcheck, Hsort.
    rewrite !bool_decide_eq_false_2; try done; try (intros H; by apply H). by eexists. }
  unfold append_row. rewrite Hm. destruct (append _ _ _ line) as [w [l|le]]; [|by intros [= <-]].
  by destruct (commit_line _ _ _).
Qed.
Definition is_alarm p (cutoff : option N) (id : NotificationAttemptId) (r : NotificationRecord) : Prop :=
  notification_by_attempt p id = Some r ∧ nr_state r = AttentionRequired ∧ ∀ c, cutoff = Some c → nr_updated_at r ≤ c.
Lemma alarm_named_Ok p cutoff id r : alarm_named p cutoff id = Ok r ↔ is_alarm p cutoff id r.
Proof.
  unfold alarm_named, is_alarm. destruct (notification_by_attempt p id) as [n|]; cbn [ok_or]; [|by split; [|intros [? _]]].
  case_bool_decide as Hs; [split; [done|intros ([= ->] & ? & _); done]|].
  destruct cutoff as [c|]; [destruct (N.ltb_spec c (nr_updated_at n)) as [Hlt|Hge]|].
  - split; [done|]. intros ([= ->] & _ & Hc). pose proof (Hc c eq_refl). lia.
  - split; [|by intros ([= ->] & _)]. intros [= <-]. split_and!; [done|done|]. by intros ? [= <-].
  - split; [|by intros ([= ->] & _)]. intros [= <-]. by split_and!.
Qed.
Lemma cleared_by_row p line p' ver batch ids operator cutoff :
  row_of line (NotificationsCleared ver batch ids operator cutoff) → apply_owned p line = AppliedOk p' →
  cleared_attempts p' = list_to_set ids ∪ cleared_attempts p ∧ notifications p' = notifications p.
Proof.
  intros Hrow Ha. destruct (fact_row_areas _ _ _ _ Hrow Ha) as (m & Hm & Hc).
  destruct Hrow as (Hids & _ & v & Hv & Hd). pose proof (notification_fact_of _ v line Hids Hv Hd) as Hfact.
  cbn [prepare_fact] in Hm. unfold prepare_notification_clears in Hm. rewrite Hfact in Hm. ok_inv.
  cbn [commit_line] in Hc. by injection Hc as <-.
Qed.
Lemma fresh_alarms_elem p ids id : id ∈ fresh_alarms p ids ↔ id ∈ ids ∧ id ∉ cleared_attempts p.
Proof.
  unfold fresh_alarms. rewrite btree_set_attempts_elem, list_elem_of_In, List.filter_In, <- list_elem_of_In.
  unfold alarm_cleared. by rewrite negb_true_iff, bool_decide_eq_false.
Qed.
(** Clearing alarms is all or nothing.  Either every id names an alarm, not newer
    than the cutoff, and then the alarms are returned in the order of the request,
    exactly they are acknowledged besides those that were, and their records stay; or
    nothing changes and nothing is published.  The request of the operator is refused
    only for an id that names no such alarm, or if the journal fails. *)
Theorem clear_alarms_all_or_nothing ws rows svc env batch operator ids cutoff :
  service_ok ws svc rows → env_now env ≤ u64_max →
  (str "clear-" ++ batch) ∉ clearance_batches (st_projection (sv_store svc)) →
  let p := st_projection (sv_store svc) in
  let r := clear_alarms svc env batch operator ids cutoff in
  let p' := st_projection (sv_store r.1) in
  (∃ records, r.2 = Answered records ∧ operator = recipient_admin ws ∧ Forall2 (is_alarm p cutoff) ids records ∧
     cleared_attempts p' = list_to_set ids ∪ cleared_attempts p ∧ notifications p' = notifications p) ∨
  (∃ e, r.2 = Refused e ∧ p' = p ∧ sv_changes r.1 = sv_changes svc ∧
     ((∃ le, e = StoreError (StoreLedger le)) ∨ (∃ text, e = StoreError (StoreSerialize text)) ∨
      operator ≠ recipient_admin ws ∨ ∃ id, id ∈ ids ∧ ∀ n, ¬ is_alarm p cutoff id n)).
Proof.
  intros Hok Henv Hb p r p'. pose proof (vk_store _ _ _ Hok) as Hst. pose proof (store_workspace _ _ _ Hst) as Hws.
  unfold p', r, clear_alarms, locked. rewrite (vk_lock _ _ _ Hok). cbn zeta. fold p in Hws, Hb |- *. rewrite Hws.
  case_bool_decide as Hop; [right; eexists; by split_and!; auto|].
  destruct (alarms_named p cutoff ids) as [records|e] eqn:En.
  2:{ right. eexists. split_and!; [done..|]. do 3 right. apply alarms_named_Err in En as (id & Hin & Hno).
      exists id. split; [done|]. intros n Hn%alarm_named_Ok. by destruct (Hno n). }
  apply alarms_named_Ok in En. assert (Forall2 (is_alarm p cutoff) ids records) as Hal.
  { eapply Forall2_impl; [exact En|]. intros id n. apply alarm_named_Ok. }
  assert (cleared_attempts p ∪ list_to_set (fresh_alarms p ids) = list_to_set ids ∪ cleared_attempts p) as Hset.
  { apply set_eq. intros a. rewrite !elem_of_union, !elem_of_list_to_set, fresh_alarms_elem. destruct (decide (a ∈ cleared_attempts p)); tauto. }
  case_bool_decide as Hf.
  { left. exists records. split_and!; [done|done|done| |done]. rewrite <- Hset, Hf. set_solver. }
  pose proof (clears_op_one ws rows (sv_store svc) env batch operator (fresh_alarms p ids) cutoff _ Hst Henv Henv) as Hone.
  pose proof (clears_accepted ws rows (sv_store svc) env batch operator (fresh_alarms p ids) cutoff (env_now env) Hst) as Hacc.
  unfold op_one, under_store in *. fold p in Hone, Hacc |- *.
  destruct (clear_notifications_at _ _ _ _ _ _ _) as [s' [[]|e|]]; cbn [fst snd] in *.
  - left. exists records. destruct Hone as [(_ & _ & ?)|(line & [] & _ & _ & Ha & Hrow)]; [done|].
    destruct (cleared_by_row _ _ _ _ _ _ _ _ Hrow Ha) as [Hc Hn].
    split_and!; [done|done|done|..]; case_bool_decide; cbn; rewrite ?Hc, ?Hn; rewrite 1?(comm_L (∪)), 1?Hset; done.
  - right. exists (StoreError e). destruct Hone as [(_ & Hp & _)|(line & [] & ? & _)]; [|done]. split_and!; [done|done|done|].
    specialize (Hacc Hop Hf (btree_set_attempts_twice _) Hb (sk_max _ _ _ Hst)). destruct e as [me|le|te]; [|by eauto..].
    exfalso. refine (Hacc _ (StoreMailbox me) eq_refl). intros id [Hin Hnc]%fresh_alarms_elem.
    split; [by apply bool_decide_eq_false|]. apply list_elem_of_lookup in Hin as [i Hi].
    destruct (Forall2_lookup_l _ _ _ _ _ En Hi) as (n & _ & Hn). by eauto.
  - by destruct Hone as [(_ & _ & ?)|(line & ? & ? & _)].
Qed.

(** ** Sending *)
Lemma mint_fresh s root random id : mint_message_id s root random = Some id → get_message (st_projection s) id = None.
Proof.
  induction random as [|r random IH]; [done|]. cbn. case_bool_decide as Hn; [by intros [= <-]|done].
Qed.
Definition canonical (draft : MessageDraft) : CanonicalDraft :=
  MkCanonicalDraft (dr_kind draft) (dr_sender draft) (dr_recipients draft) (dr_subject draft) (dr_summary draft)
    (dr_body draft) None (dr_client_key draft) (dr_supersedes draft) (dr_presentation draft) (dr_raw draft) (dr_broadcast draft).
(** What a send that stored a message did. *)
Lemma send_stored ws rows svc env random sender request svc' res :
  service_ok ws svc rows → env_now env ≤ u64_max →
  send svc env random sender request = (svc', Answered res) → as_inserted res = true →
  ∃ recipients id digest, send_recipients svc request = Ok recipients ∧ sv_directory svc' = sv_directory svc ∧
    sv_poisoned svc' = false ∧ message_id_valid id ∧ get_message (st_projection (sv_store svc)) id = None ∧
    check_acceptance (st_projection (sv_store svc)) (canonical (send_draft sender request recipients)) = Ok (AcceptNew digest) ∧
    accept_canonical_at (sv_store svc) env id (canonical (send_draft sender request recipients)) (env_now env)
      = (sv_store svc', Done res).
Proof.
  intros Hok Henv Hsend Hins. unfold send in Hsend. destruct (send_recipients svc request) as [recipients|]; [|done].
  unfold locked in Hsend. rewrite (vk_lock _ _ _ Hok) in Hsend. cbn zeta in Hsend.
  destruct (supersession_thread_root _ _ _ _) as [root|]; [|done]. destruct (mint_message_id _ _ _) as [id|] eqn:Hmint; [|done].
  unfold under_store, accept_at in Hsend. fold (canonical (send_draft sender request recipients)) in Hsend.
  set (draft := canonical _) in *. destruct (accept_canonical_at _ _ _ _ _) as [s' [a|e|]] eqn:Hacc; [|done|done].
  assert (a = res ∧ s' = sv_store svc' ∧ sv_directory svc' = sv_directory svc ∧ sv_poisoned svc' = false) as (-> & -> & Hd & Hp).
  { pose proof (vk_lock _ _ _ Hok). destruct (as_inserted a); injection Hsend as <- <-; done. }
  clear Hsend. pose proof (vk_store _ _ _ Hok) as Hst.
  destruct (check_acceptance (st_projection (sv_store svc)) draft) as [[digest|existing]|] eqn:Hc.
  2:{ unfold accept_canonical_at in Hacc. rewrite Hc in Hacc. unfold accept_existing in Hacc.
      destruct (get_message _ _); [|done]. destruct (extract_message_metadata _); [|done]. by injection Hacc as <- <-. }
  2:{ unfold accept_canonical_at in Hacc. by rewrite Hc in Hacc. }
  exists recipients, id, digest. split_and!; [done|done|done| |by eapply mint_fresh|done|done].
  exact (accepted_id_valid _ _ _ _ _ _ _ _ _ _ Hst Henv Henv Hc Hacc).
Qed.
Lemma send_inserted ws rows svc env random sender request svc' res :
  service_ok ws svc rows → env_now env ≤ u64_max →
  send svc env random sender request = (svc', Answered res) → as_inserted res = true →
  let p := st_projection (sv_store svc) in
  let p' := st_projection (sv_store svc') in
  ∃ recipients line, send_recipients svc request = Ok recipients ∧ as_recipient_keys res = id_key <$> recipients ∧
    get_message p (as_message_id res) = None ∧ messages p' = <[as_message_id res := line]> (messages p) ∧
    ll_body line = (if bool_decide (sd_body request = []) then None else Some (sd_body request)) ∧
    ll_from line = id_label sender ∧
    ∀ r, get_entry p' r (as_message_id res) =
      if decide (r ∈ id_key <$> recipients) then Some (MkEntry (as_message_id res) r Pending (ll_seq line) (ll_ts line)) else None.
Proof.
  intros Hok Henv Hsend Hins p p'. pose proof (vk_store _ _ _ Hok) as Hst.
  destruct (send_stored _ _ _ _ _ _ _ _ _ Hok Henv Hsend Hins) as (recipients & id & digest & Hr & _ & _ & Hid & Hnew & Hc & Hacc).
  destruct (accept_new_state _ _ _ _ _ _ _ _ _ _ Hst Henv Henv Hid Hc Hacc) as (r0 & line & Hmc & _ & (labels & v & Hline) & _ & _ & _ & Hres).
  subst res. cbn [as_message_id as_recipient_keys]. exists recipients, line.
  split_and!; [done|done|done|apply Hmc|by rewrite Hline|by rewrite Hline|].
  intros r. rewrite get_entry_at, (mc_index _ _ _ _ _ Hmc).
  change (md_recipients _) with (id_key <$> recipients). destruct (decide (r ∈ id_key <$> recipients)) as [Hin|Hno].
  - rewrite decide_True by done. cbn. rewrite (mc_new _ _ _ _ _ Hmc). by rewrite decide_True.
  - rewrite decide_False by tauto.
    by rewrite (mailbox_wf_unknown _ _ _ (wf_mailbox _ (store_ok_wf _ _ _ Hst)) Hnew).
Qed.
(** [C13.] A message reaches exactly whom its addresses name.  A directory resolves a
    list of addresses only if it is the broadcast alone or every address is the admin's
    or answers to an agent; a send that stored a message stored it under an id that no
    message had, with the request's body, and gave one pending mailbox entry to every
    recipient that the addresses name, and to nobody else. *)
Theorem send_reaches_the_addressed ws rows svc env random sender request svc' res agents :
  service_ok ws svc rows → env_now env ≤ u64_max → directory_new ws agents = Ok (sv_directory svc) →
  sd_recipient_keys request = None →
  send svc env random sender request = (svc', Answered res) → as_inserted res = true →
  let addresses := sd_addresses request in
  let p := st_projection (sv_store svc) in
  let p' := st_projection (sv_store svc') in
  (addresses = [str "*"] ∨ ((str "*" ∉ addresses) ∧ ∀ a, a ∈ addresses → ∃ i, addressed ws agents [a] i)) ∧
  get_message p (as_message_id res) = None ∧
  (∃ line, messages p' = <[as_message_id res := line]> (messages p) ∧ ll_from line = id_label sender ∧
     ll_body line = (if bool_decide (sd_body request = []) then None else Some (sd_body request))) ∧
  ∀ r, match get_entry p' r (as_message_id res) with
       | Some e => me_state e = Pending ∧ ∃ i, addressed ws agents addresses i ∧ id_key i = r
       | None => ∀ i, addressed ws agents addresses i → id_key i ≠ r
       end.
Proof.
  intros Hok Henv Hdir Hkeys Hsend Hins addresses p p'.
  destruct (send_inserted _ _ _ _ _ _ _ _ _ Hok Henv Hsend Hins) as (recipients & line & Hr & _ & Hnew & Hm & Hb & Hf & He).
  unfold send_recipients in Hr. rewrite Hkeys in Hr.
  destruct (recipients_are_exact ws agents _ addresses Hdir) as [Hiff Hex]. destruct (Hex _ Hr) as [_ Hmem].
  split_and!; [by apply Hiff; eauto|done|by exists line|]. intros r. unfold p'. rewrite He. destruct (decide _) as [Hin|Hno]; cbn.
  - split; [done|]. apply list_elem_of_fmap in Hin as (i & -> & Hi). exists i. by rewrite <- Hmem.
  - intros i Hi%Hmem <-. destruct Hno. apply list_elem_of_fmap. by exists i.
Qed.

(** ** Retries *)

(** A message that supersedes another cannot supersede it again. *)
Lemma superseded_is_refused ws rows s env id draft ts s1 res digest target :
  store_ok ws s rows → ts ≤ u64_max → env_now env ≤ u64_max → message_id_valid id →
  get_message (st_projection s) id = None →
  check_acceptance (st_projection s) draft = Ok (AcceptNew digest) → cd_supersedes draft = Some target →
  accept_canonical_at s env id draft ts = (s1, Done res) →
  supersession_thread_root (st_projection s1) (cd_sender draft) (cd_recipients draft) (Some target) =
    Err (SupersessionNotPending target).
Proof.
  intros Hok Hts Henv Hid Hnew Hc Ht Hacc. pose proof (store_ok_wf _ _ _ Hok) as Hwf.
  destruct (accept_new_state _ _ _ _ _ _ _ _ _ _ Hok Hts Henv Hid Hc Hacc) as (root & line & Hmc & Hmd & (labels & v & Hline) & _ & Ha & _).
  destruct (check_acceptance_new _ _ _ Hc) as (_ & Hk & r0 & Hs). rewrite Ht in Hs.
  destruct (supersession_thread_root_ok _ _ _ _ _ Hs target eq_refl) as (r & e & tl & tmd & Hr & Hl & Hm & Hsd & Hrc & He & Hp & _).
  destruct (applied_inv _ _ _ _ Ha) as (m & Hpm & Hcm & Hsq & Hmax & Hpok).
  assert (prepare_message (st_projection s) line = Ok m) as Hpm'.
  { unfold prepare_line_inner in Hpm. destruct (ok_or _ _); [|done]. destruct (negb _); [done|].
    assert (ll_kind line = cd_kind draft) as Hkind by by rewrite Hline. rewrite <- Hkind in Hk. by destruct Hk as [Hk|Hk]; rewrite Hk in Hpm. }
  apply prepare_message_ok in Hpm' as (id' & md & u & -> & Hmok); [|by rewrite Hline].
  rewrite (mok_metadata _ _ _ _ _ Hmok) in Hmd. injection Hmd as ->.
  destruct (message_row_entries _ _ _ _ _ _ _ _ _ Hwf Hmok Hsq Hmax Hcm He) as (st & Hst & Hor).
  destruct (mailbox_wf_get_entry _ _ _ _ (wf_mailbox _ Hwf) He) as (_ & _ & Hide & _).
  assert (st ≠ Pending) as Hnp.
  { intros ->. pose proof (apply_inner_wf (st_projection s) line false Hwf) as Hwf1. unfold apply_owned in Ha. rewrite Ha in Hwf1.
    destruct Hwf1 as [Hwf1 _]. destruct (mailbox_wf_get_entry _ _ _ _ (wf_mailbox _ Hwf1) Hst) as (_ & Hat & _).
    assert (set_entry_state Pending e ∈ get_pending (st_projection s1) r) as Hin by (apply elem_of_get_pending; by eauto).
    rewrite (message_row_pending _ _ _ _ _ _ Hwf Hmok Hsq Hmax Hcm), elem_of_app in Hin. cbn [md_supersedes md_recipients draft_metadata] in Hin.
    destruct Hin as [Hin|Hin].
    - apply list_elem_of_In, List.filter_In in Hin as [_ Hb%bool_decide_eq_true]. by rewrite Ht in Hb; cbn in Hb; rewrite Hide in Hb.
    - rewrite Hr in Hin. rewrite decide_True in Hin by (by left). apply list_elem_of_singleton in Hin.
      assert (target = id') as ->; [|by rewrite (mok_fresh _ _ _ _ _ Hmok) in Hl].
      rewrite <- Hide. change (me_message_id e) with (me_message_id (set_entry_state Pending e)). by rewrite Hin. }
  destruct Hor as [->|[_ ->]]; [congruence|].
  unfold supersession_thread_root. rewrite Hr. rewrite (mc_messages _ _ _ _ _ Hmc), lookup_insert_ne by (unfold get_message in Hnew; congruence).
  rewrite Hl. cbn [ok_or]. rewrite Hm, Hsd, Hrc. rewrite !(bool_decide_eq_false_2 (_ ≠ _)) by (intros Hx; by apply Hx).
  cbn [orb]. by rewrite Hst.
Qed.
(** The service refuses the exact retry of a send that superseded a message: it looks
    for the thread of the superseded message before the store looks for the client key,
    and that message is no longer pending.  The store alone would answer the retry with
    the stored message. *)
Theorem superseding_retry_is_refused ws rows svc env random sender request svc' res target env2 random2 key :
  service_ok ws svc rows → env_now env ≤ u64_max →
  sd_supersedes request = Some target → sd_client_key request = Some key →
  send svc env random sender request = (svc', Answered res) → as_inserted res = true →
  send svc' env2 random2 sender request = (svc', Refused (mailbox_refusal (SupersessionNotPending target))) ∧
  ∃ recipients, send_recipients svc' request = Ok recipients ∧ ∀ id2,
    accept_at (sv_store svc') env2 id2 (send_draft sender request recipients) (env_now env2) =
      (sv_store svc', Done (MkAcceptResult (as_message_id res) (as_thread_root res) false (as_seq res) (as_recipients res) (as_recipient_keys res))).
Proof.
  intros Hok Henv Ht Hkey Hsend Hins. pose proof (vk_store _ _ _ Hok) as Hst.
  destruct (send_stored _ _ _ _ _ _ _ _ _ Hok Henv Hsend Hins) as (recipients & id & digest & Hr & Hd & Hp & Hid & Hnew & Hc & Hacc).
  assert (send_recipients svc' request = Ok recipients) as Hr' by (unfold send_recipients in *; by rewrite Hd).
  split.
  - unfold send, locked. rewrite Hr', Hp. cbn zeta. change (dr_supersedes _) with (sd_supersedes request). rewrite Ht.
    pose proof (superseded_is_refused _ _ _ _ _ _ _ _ _ _ _ Hst Henv Henv Hid Hnew Hc Ht Hacc) as Href.
    cbn [cd_sender cd_recipients canonical] in Href. by rewrite Href.
  - exists recipients. split; [done|]. intros id2.
    exact (accept_retry_is_idempotent _ _ _ _ _ (canonical (send_draft sender request recipients)) _ _ _ key env2 id2 (env_now env2)
      Hst Henv Henv Hid Hkey Hacc).
Qed.
End service_props.
