(* ===== verification/AttentionRegister.v ===== *)
(** * The attention register

    [src/cyclops-proto/src/attention.rs]: what needs a human right now.  One
    register folds three sources, live pane states, the deliveries of the
    session ledger and the attention rows of the durable mailbox, into the
    items, the count and the eye that every surface shows.  The agent states
    are those of [src/cyclops-proto/src/state.rs].

    A [BTreeMap] is a [gmap]; where the code iterates it, its entries are
    visited in key order ([agent_entries], [delivery_entries]). *)
From S2P Require Import Prelude Text Identity Ledger Views.
Local Open Scope N_scope.

(** ** Agent states *)
Inductive AgentState :=
| SUnknown
| SIdle
| SIdleWithInput
| SWorking
| SBlockedModal
| SBlockedPermission
| SBlockedQuota
| SDead.
#[export] Instance AgentState_eq_dec : EqDecision AgentState.
Proof. solve_decision. Defined.

Definition is_blocked (s : AgentState) : bool :=
  match s with SBlockedModal | SBlockedPermission | SBlockedQuota => true | _ => false end.

(** The [Display] form, which is also serde's [snake_case] name. *)
Definition agent_state_name (s : AgentState) : rstr :=
  match s with
  | SUnknown => str "unknown"
  | SIdle => str "idle"
  | SIdleWithInput => str "idle_with_input"
  | SWorking => str "working"
  | SBlockedModal => str "blocked_modal"
  | SBlockedPermission => str "blocked_permission"
  | SBlockedQuota => str "blocked_quota"
  | SDead => str "dead"
  end.
Definition all_agent_states : list AgentState :=
  [SUnknown; SIdle; SIdleWithInput; SWorking; SBlockedModal; SBlockedPermission; SBlockedQuota; SDead].
(** [AgentState::deserialize] of a string: the variant of that name. *)
Definition agent_state_of_name (name : rstr) : option AgentState :=
  head (List.filter (λ s, bool_decide (agent_state_name s = name)) all_agent_states).

(** ** The rule *)
Definition delivery_needs_human (s : DeliveryState) : bool :=
  match s with DAttentionRequired | DParkedBlockedQuota => true | _ => false end.

Definition gate_cause_needs_human (cause : rstr) : bool :=
  let named := match split_once (str ":") cause with Some (head, _) => head | None => cause end in
  bool_decide (named = str "blocked") ||
  match agent_state_of_name named with Some s => is_blocked s | None => false end.

Definition agent_key (target : rstr) (pane_id : option rstr) : rstr := default target pane_id.

(** ** Items and keys *)
Record PaneSnapshot := MkPaneSnapshot {
  ps_pane_id : rstr;
  ps_name : rstr;
  ps_state : AgentState;
}.

Inductive DeliveryRecipientIdentity :=
| Exact (key : RecipientKey)
| LegacyLabel (label : rstr).
#[export] Instance DeliveryRecipientIdentity_eq_dec : EqDecision DeliveryRecipientIdentity.
Proof. solve_decision. Defined.
#[export] Instance DeliveryRecipientIdentity_countable : Countable DeliveryRecipientIdentity.
Proof.
  refine (inj_countable'
    (λ i, match i with Exact k => inl k | LegacyLabel l => inr l end)
    (λ x, match x with inl k => Exact k | inr l => LegacyLabel l end) _).
  by intros [].
Defined.

Definition identity_from_parts (recipient : option RecipientKey) (label : rstr)
    : DeliveryRecipientIdentity :=
  match recipient with Some key => Exact key | None => LegacyLabel label end.
Definition identity_of (d : OpenDelivery) : DeliveryRecipientIdentity :=
  identity_from_parts (od_recipient d) (od_to d).
Definition is_exact (i : DeliveryRecipientIdentity) : bool :=
  match i with Exact _ => true | LegacyLabel _ => false end.

Inductive AttentionItem :=
| ItemAgent (pane_id name : rstr) (state : AgentState)
| ItemDelivery (recipient : DeliveryRecipientIdentity) (to id : rstr) (state : DeliveryState).

Inductive AttentionKey :=
| KeyAgent (pane_id : rstr)
| KeyDelivery (recipient : DeliveryRecipientIdentity) (id : rstr).
#[export] Instance AttentionKey_eq_dec : EqDecision AttentionKey.
Proof. solve_decision. Defined.

Inductive Clearance := Moved | PaneGone.
Record Resolved := MkResolved { rs_was : AttentionItem; rs_how : Clearance }.

Inductive Half := HalfAgent | HalfDelivery.
Definition half_rank (h : Half) : N := match h with HalfAgent => 0 | HalfDelivery => 1 end.

Definition item_name (i : AttentionItem) : rstr :=
  match i with ItemAgent _ name _ => name | ItemDelivery _ to _ _ => to end.
Definition identity (i : AttentionItem) : AttentionKey :=
  match i with
  | ItemAgent pane_id _ _ => KeyAgent pane_id
  | ItemDelivery recipient _ id _ => KeyDelivery recipient id
  end.
Definition sort_key (i : AttentionItem) : rstr * Half * rstr :=
  match i with
  | ItemAgent pane_id name _ => (name, HalfAgent, pane_id)
  | ItemDelivery _ to id _ => (to, HalfDelivery, id)
  end.

(** The order of the tuple [(&str, Half, &str)]. *)
Definition sort_key_le (x y : rstr * Half * rstr) : bool :=
  let '(n1, h1, i1) := x in let '(n2, h2, i2) := y in
  if bool_decide (n1 = n2) then
    if half_rank h1 =? half_rank h2 then rstr_leb i1 i2 else half_rank h1 <? half_rank h2
  else rstr_leb n1 n2.
Definition item_le (x y : AttentionItem) : Prop := sort_key_le (sort_key x) (sort_key y) = true.
#[export] Instance item_le_dec : RelDecision item_le.
Proof. intros x y. unfold item_le. apply _. Defined.

(** ** The register *)
Abbreviation DeliveryKey := (DeliveryRecipientIdentity * rstr)%type.
Abbreviation DeliveryRow := (rstr * DeliveryState)%type.
Abbreviation DeliveryMap := (gmap DeliveryKey DeliveryRow).

Record Attention := MkAttention {
  agents : gmap rstr (rstr * AgentState);
  deliveries : DeliveryMap;
  att_mailbox : DeliveryMap;
  att_union : DeliveryMap;
}.
Definition attention_default : Attention := MkAttention ∅ ∅ ∅ ∅.

(** Iteration in key order: derived [Ord] puts [Exact] before [LegacyLabel]. *)
Definition identity_rank (i : DeliveryRecipientIdentity) : rstr :=
  match i with Exact k => 0 :: recipient_key_rank k | LegacyLabel l => 1 :: l end.
Definition delivery_entry_le (x y : DeliveryKey * DeliveryRow) : Prop :=
  (if bool_decide (identity_rank x.1.1 = identity_rank y.1.1) then rstr_leb x.1.2 y.1.2
   else rstr_leb (identity_rank x.1.1) (identity_rank y.1.1)) = true.
#[export] Instance delivery_entry_le_dec : RelDecision delivery_entry_le.
Proof. intros x y. unfold delivery_entry_le. apply _. Defined.
Definition delivery_entries (m : DeliveryMap) : list (DeliveryKey * DeliveryRow) :=
  merge_sort delivery_entry_le (map_to_list m).
Definition agent_entry_le (x y : rstr * (rstr * AgentState)) : Prop := rstr_le x.1 y.1.
#[export] Instance agent_entry_le_dec : RelDecision agent_entry_le.
Proof. intros x y. unfold agent_entry_le. apply _. Defined.
Definition agent_entries (m : gmap rstr (rstr * AgentState)) : list (rstr * (rstr * AgentState)) :=
  merge_sort agent_entry_le (map_to_list m).

(** [collect] into a map: a later pair overrides an earlier one. *)
Definition collect_map `{Countable K} {A} (l : list (K * A)) : gmap K A :=
  foldl (λ m kv, <[kv.1 := kv.2]> m) ∅ l.

Definition keyed (rows : list OpenDelivery) : DeliveryMap :=
  collect_map ((λ d, ((identity_of d, od_id d), (od_to d, od_state d))) <$>
    List.filter (λ d, delivery_needs_human (od_state d)) rows).

(** The exact rows of [m] that carry [label] for message [id]. *)
Definition carries (label id : rstr) (e : DeliveryKey * DeliveryRow) : bool :=
  is_exact e.1.1 && bool_decide (e.1.2 = id) && bool_decide (e.2.1 = label).
Definition exact_rows (m : DeliveryMap) (label id : rstr) : list (DeliveryKey * DeliveryRow) :=
  List.filter (carries label id) (delivery_entries m).
(** [exact_by_label.get(&(label, id))], zero when the key is absent. *)
Definition exact_by_label (m : DeliveryMap) (label id : rstr) : nat := length (exact_rows m label id).

Definition is_twin (m : DeliveryMap) (key : DeliveryKey) : bool :=
  match key.1 with
  | LegacyLabel label => bool_decide (exact_by_label m label key.2 = 1%nat)
  | Exact _ => false
  end.
Definition union_of (dels mbox : DeliveryMap) : DeliveryMap :=
  let both := mbox ∪ dels in
  filter (λ kv, is_twin both kv.1 = false) both.
Definition rebuild_union (a : Attention) : Attention :=
  MkAttention (agents a) (deliveries a) (att_mailbox a) (union_of (deliveries a) (att_mailbox a)).

Definition snapshot_agents (panes : list PaneSnapshot) (a : Attention) : Attention :=
  MkAttention (collect_map ((λ p, (ps_pane_id p, (ps_name p, ps_state p))) <$> panes))
    (deliveries a) (att_mailbox a) (att_union a).

Definition snapshot_deliveries (open : list OpenDelivery) (a : Attention) : Attention :=
  rebuild_union (MkAttention (agents a) (keyed open) (att_mailbox a) (att_union a)).

(** One turn of the loop over the previous mailbox half. *)
Definition another_exact (mbox dels : DeliveryMap) (key : DeliveryKey) (label : rstr) : bool :=
  existsb (λ e, bool_decide (e.1.1 ≠ key.1) && carries label key.2 e)
    (delivery_entries mbox ++ delivery_entries dels).
Definition drop_absent (mbox next : DeliveryMap) (dels : DeliveryMap)
    (e : DeliveryKey * DeliveryRow) : DeliveryMap :=
  let '(key, (label, _)) := e in
  match next !! key with
  | Some _ => dels
  | None =>
      let dels := delete key dels in
      match key.1 with
      | LegacyLabel _ => dels
      | Exact _ =>
          if another_exact mbox dels key label then dels
          else delete (LegacyLabel label, key.2) dels
      end
  end.
Definition snapshot_mailbox (rows : list OpenDelivery) (a : Attention) : Attention :=
  let next := keyed rows in
  let dels := foldl (drop_absent (att_mailbox a) next) (deliveries a)
    (delivery_entries (att_mailbox a)) in
  rebuild_union (MkAttention (agents a) dels next (att_union a)).

(** ** Status answers

    The fields of [StatusResult] and [PaneStatus] the register reads. *)
Record PaneStatus := MkPaneStatus {
  pst_pane_id : rstr;
  pst_agent : option rstr;
  pst_state : AgentState;
}.
Definition display_name (p : PaneStatus) : rstr := default (pst_pane_id p) (pst_agent p).
Record StatusResult := MkStatusResult {
  sr_sessions : list (list PaneStatus);
  sr_open_deliveries : list OpenDelivery;
  sr_mailbox_attention : list OpenDelivery;
}.
Definition from_live_status (res : StatusResult) : Attention :=
  snapshot_agents
    ((λ p, MkPaneSnapshot (pst_pane_id p) (display_name p) (pst_state p)) <$> mjoin (sr_sessions res))
    attention_default.
Definition from_status (res : StatusResult) : Attention :=
  snapshot_mailbox (sr_mailbox_attention res)
    (snapshot_deliveries (sr_open_deliveries res) (from_live_status res)).

(** ** Live events *)
Definition unique_exact_in (m : DeliveryMap) (label id : rstr) : option DeliveryRecipientIdentity :=
  match exact_rows m label id with
  | [e] => Some e.1.1
  | _ => None
  end.
Definition resolve (a : Attention) (recipient : option RecipientKey) (to id : rstr) : DeliveryKey :=
  match recipient with
  | Some key => (Exact key, id)
  | None =>
      match unique_exact_in (att_union a) to id with
      | Some identity => (identity, id)
      | None => (LegacyLabel to, id)
      end
  end.
Definition key_for (a : Attention) (recipient : option RecipientKey) (to id : rstr) : AttentionKey :=
  let '(recipient, id) := resolve a recipient to id in KeyDelivery recipient id.

Definition observe_agent (target : rstr) (pane_id : option rstr) (state : AgentState) (a : Attention)
    : Attention * option Resolved :=
  let key := agent_key target pane_id in
  let previous := agents a !! key in
  let a' := MkAttention (<[key := (target, state)]> (agents a)) (deliveries a) (att_mailbox a)
    (att_union a) in
  match previous with
  | Some (name, was) =>
      if is_blocked was && negb (is_blocked state) then
        (a', Some (MkResolved (ItemAgent key name was) Moved))
      else (a', None)
  | None => (a', None)
  end.

Definition forget_agent (pane_id : rstr) (a : Attention) : Attention * option Resolved :=
  let previous := agents a !! pane_id in
  let a' := MkAttention (delete pane_id (agents a)) (deliveries a) (att_mailbox a) (att_union a) in
  match previous with
  | Some (name, was) =>
      if is_blocked was then (a', Some (MkResolved (ItemAgent pane_id name was) PaneGone))
      else (a', None)
  | None => (a', None)
  end.

Definition observe_delivery (to : rstr) (recipient : option RecipientKey) (id : option rstr)
    (state : DeliveryState) (a : Attention) : Attention * option Resolved :=
  let key := resolve a recipient to (default [] id) in
  if delivery_needs_human state then
    (rebuild_union (MkAttention (agents a) (<[key := (to, state)]> (deliveries a)) (att_mailbox a)
       (att_union a)), None)
  else
    let removed := deliveries a !! key in
    let a' := rebuild_union (MkAttention (agents a) (delete key (deliveries a)) (att_mailbox a)
      (att_union a)) in
    match removed with
    | Some (label, was) => (a', Some (MkResolved (ItemDelivery key.1 label key.2 was) Moved))
    | None => (a', None)
    end.

(** ** Queries *)
Definition clearance (a : Attention) (key : AttentionKey) : option Clearance :=
  match key with
  | KeyAgent pane_id =>
      match agents a !! pane_id with
      | Some (_, s) => if is_blocked s then None else Some Moved
      | None => Some PaneGone
      end
  | KeyDelivery recipient id =>
      match att_union a !! (recipient, id) with Some _ => None | None => Some Moved end
  end.
Definition holds (a : Attention) (key : AttentionKey) : bool :=
  match clearance a key with None => true | Some _ => false end.

Definition blocked_entry (e : rstr * (rstr * AgentState)) : bool := is_blocked e.2.2.
Definition count (a : Attention) : nat :=
  length (List.filter blocked_entry (agent_entries (agents a))) + size (att_union a).

(** [Vec::sort_by]: a stable sort, here by insertion. *)
Section stable_sort.
Context {A : Type} (R : A → A → Prop) `{!RelDecision R}.
Fixpoint sorted_insert (x : A) (l : list A) : list A :=
  match l with
  | [] => [x]
  | y :: l' => if decide (R x y) then x :: l else y :: sorted_insert x l'
  end.
Definition stable_sort (l : list A) : list A := foldr sorted_insert [] l.
End stable_sort.

Definition agent_items (a : Attention) : list AttentionItem :=
  (λ e, ItemAgent e.1 e.2.1 e.2.2) <$> List.filter blocked_entry (agent_entries (agents a)).
Definition delivery_items (a : Attention) : list AttentionItem :=
  (λ e, ItemDelivery e.1.1 e.2.1 e.1.2 e.2.2) <$> delivery_entries (att_union a).
Definition items (a : Attention) : list AttentionItem :=
  stable_sort item_le (agent_items a ++ delivery_items a).

(** ** The eye *)
Inductive Eye := EyeClosed | EyeOpening | EyeOpen.
#[export] Instance Eye_eq_dec : EqDecision Eye.
Proof. solve_decision. Defined.
Definition EYE_CLOSED : rstr := [8255].
Definition EYE_OPENING : rstr := [9681].
Definition EYE_OPEN : rstr := [9673].
Definition eye_glyph (e : Eye) : rstr :=
  match e with EyeClosed => EYE_CLOSED | EyeOpening => EYE_OPENING | EyeOpen => EYE_OPEN end.
Definition eye_word (e : Eye) : rstr :=
  match e with
  | EyeClosed => str "closed" | EyeOpening => str "opening" | EyeOpen => str "open"
  end.
Definition eye_for_count (n : nat) : Eye :=
  match n with O => EyeClosed | 1%nat => EyeOpening | _ => EyeOpen end.
Definition step_toward (self target : Eye) : Eye :=
  match self, target with
  | EyeClosed, EyeOpen => EyeOpening
  | EyeOpen, EyeClosed => EyeOpening
  | _, _ => target
  end.
Definition eye (a : Attention) : Eye := eye_for_count (count a).

Record EyeHeader := MkEyeHeader {
  eh_calm : bool;
  eh_cell : rstr;
  eh_spoken : rstr;
  eh_tail : option rstr;
}.
Definition header_drawn (a : Attention) (drawn : Eye) : EyeHeader :=
  let n := count a in
  let tail :=
    match n with
    | O => None
    | 1%nat => Some (str "1 needs attention")
    | _ => Some (dec_string (N.of_nat n) ++ str " need attention")
    end in
  MkEyeHeader
    (bool_decide (n = O))
    (if bool_decide (n = O) then eye_glyph drawn
     else eye_glyph drawn ++ str " " ++ dec_string (N.of_nat n))
    (match tail with
     | None => str "eye " ++ eye_word drawn
     | Some tail => str "eye " ++ eye_word drawn ++ str " " ++ [183] ++ str " " ++ tail
     end)
    tail.
Definition header (a : Attention) : EyeHeader := header_drawn a (eye a).
