(* ===== verification/AttentionProps.v ===== *)
(** * What the attention register promises

    Every register an event history leads to shows exactly what needs a human:
    its items, its count, its eye and its clearances agree; a delivery that both
    halves know is shown once; live events and snapshots move exactly the
    delivery they are about; and the attention rows of the mailbox become one
    item each. *)
From S2P Require Import Prelude Text Identity Ledger Mailbox Notification Facts.
From S2P Require Import Projection Invariant Replay Guarantees Store Views ViewProps.
From S2P Require Import AttentionRegister.
Local Open Scope N_scope.

(** ** Lists and maps in key order *)
#[export] Instance delivery_entry_le_total : Total delivery_entry_le.
Proof.
  intros x y. unfold delivery_entry_le. case_bool_decide as E1; case_bool_decide as E2; try congruence.
  - apply rstr_le_total.
  - apply rstr_le_total.
Qed.
#[export] Instance sort_key_total : Total item_le.
Proof.
  intros x y. unfold item_le, sort_key_le.
  destruct (sort_key x) as [[n1 h1] i1], (sort_key y) as [[n2 h2] i2].
  case_bool_decide as E1; case_bool_decide as E2; try congruence; [|apply rstr_le_total].
  destruct (N.eqb_spec (half_rank h1) (half_rank h2)) as [Eh|Hh].
  - rewrite Eh, N.eqb_refl. apply rstr_le_total.
  - destruct (N.eqb_spec (half_rank h2) (half_rank h1)); [done|]. rewrite !N.ltb_lt. lia.
Qed.
#[export] Instance sort_key_trans : Transitive item_le.
Proof.
  intros x y z. unfold item_le, sort_key_le.
  destruct (sort_key x) as [[n1 h1] i1], (sort_key y) as [[n2 h2] i2], (sort_key z) as [[n3 h3] i3].
  pose proof (rstr_le_trans n1 n2 n3) as Tn. pose proof (rstr_le_trans i1 i2 i3) as Ti.
  pose proof (rstr_le_antisym n1 n2) as A12. pose proof (rstr_le_antisym n2 n3) as A23.
  unfold rstr_le in *.
  repeat case_bool_decide; subst; try done; eauto.
  repeat match goal with |- context [?a =? ?b] => destruct (N.eqb_spec a b) end;
    rewrite ?N.ltb_lt; try lia; eauto.
Qed.

Lemma elem_of_delivery_entries m e : e ∈ delivery_entries m ↔ m !! e.1 = Some e.2.
Proof.
  unfold delivery_entries. rewrite merge_sort_Permutation. destruct e as [k row].
  apply elem_of_map_to_list.
Qed.
Lemma elem_of_agent_entries m e : e ∈ agent_entries m ↔ m !! e.1 = Some e.2.
Proof.
  unfold agent_entries. rewrite merge_sort_Permutation. destruct e as [k row].
  apply elem_of_map_to_list.
Qed.
Lemma delivery_entries_keys m : NoDup (delivery_entries m).*1.
Proof. unfold delivery_entries. rewrite merge_sort_Permutation. apply NoDup_fst_map_to_list. Qed.
Lemma agent_entries_keys m : NoDup (agent_entries m).*1.
Proof. unfold agent_entries. rewrite merge_sort_Permutation. apply NoDup_fst_map_to_list. Qed.
Lemma delivery_entries_NoDup m : NoDup (delivery_entries m).
Proof. eapply NoDup_fmap_1, delivery_entries_keys. Qed.
Lemma length_delivery_entries m : length (delivery_entries m) = size m.
Proof. unfold delivery_entries. by rewrite merge_sort_Permutation, length_map_to_list. Qed.

Lemma filter_keys_NoDup {A B} (f : A * B → bool) (l : list (A * B)) :
  NoDup l.*1 → NoDup (List.filter f l).*1.
Proof.
  induction l as [|[k v] l IH]; cbn; [done|]. intros [Hk Hl]%NoDup_cons.
  destruct (f (k, v)); cbn; [|by apply IH]. constructor; [|by apply IH].
  intros (e & -> & He)%list_elem_of_fmap. apply Hk, list_elem_of_fmap. exists e. split; [done|].
  apply list_elem_of_In, List.filter_In in He as [He _]. by apply list_elem_of_In.
Qed.

(** ** The stable sort *)
Section sort_lemmas.
Context {A : Type} (R : A → A → Prop) `{!RelDecision R}.
Lemma sorted_insert_perm x l : sorted_insert R x l ≡ₚ x :: l.
Proof.
  induction l as [|y l IH]; cbn; [done|]. destruct (decide (R x y)); [done|].
  rewrite IH. by constructor.
Qed.
Lemma stable_sort_perm l : stable_sort R l ≡ₚ l.
Proof. induction l as [|x l IH]; cbn; [done|]. by rewrite sorted_insert_perm, IH. Qed.
Lemma sorted_insert_sorted `{!Total R, !Transitive R} x l :
  StronglySorted R l → StronglySorted R (sorted_insert R x l).
Proof.
  induction 1 as [|y l Hs IH Hall]; cbn; [repeat constructor|].
  destruct (decide (R x y)) as [Hxy|Hxy].
  - repeat constructor; [done|done|done|]. eapply Forall_impl; [exact Hall|]. intros z Hz. by etransitivity.
  - constructor; [done|]. rewrite sorted_insert_perm. constructor; [|done]. by destruct (total R x y).
Qed.
Lemma stable_sort_sorted `{!Total R, !Transitive R} l : StronglySorted R (stable_sort R l).
Proof. induction l as [|x l IH]; cbn; [constructor|]. by apply sorted_insert_sorted. Qed.
End sort_lemmas.

(** ** The invariant *)
Definition row_ok (k : DeliveryKey) (row : DeliveryRow) : Prop :=
  delivery_needs_human row.2 = true ∧ ∀ l, k.1 = LegacyLabel l → row.1 = l.
Record att_ok (a : Attention) : Prop := {
  ok_deliveries : map_Forall row_ok (deliveries a);
  ok_mailbox : map_Forall row_ok (att_mailbox a);
  ok_union : att_union a = union_of (deliveries a) (att_mailbox a);
}.

(** The events that move a register. *)
Inductive att_event :=
| EvSnapshotAgents (panes : list PaneSnapshot)
| EvSnapshotDeliveries (rows : list OpenDelivery)
| EvSnapshotMailbox (rows : list OpenDelivery)
| EvAgent (target : rstr) (pane_id : option rstr) (state : AgentState)
| EvForget (pane_id : rstr)
| EvDelivery (to : rstr) (recipient : option RecipientKey) (id : option rstr) (state : DeliveryState).
Definition att_step (a : Attention) (e : att_event) : Attention :=
  match e with
  | EvSnapshotAgents panes => snapshot_agents panes a
  | EvSnapshotDeliveries rows => snapshot_deliveries rows a
  | EvSnapshotMailbox rows => snapshot_mailbox rows a
  | EvAgent target pane_id state => (observe_agent target pane_id state a).1
  | EvForget pane_id => (forget_agent pane_id a).1
  | EvDelivery to recipient id state => (observe_delivery to recipient id state a).1
  end.
Definition att_run (events : list att_event) : Attention := foldl att_step attention_default events.

Lemma collect_map_snoc `{Countable K} {A} (l : list (K * A)) k v :
  collect_map (l ++ [(k, v)]) = <[k := v]> (collect_map l).
Proof. unfold collect_map. by rewrite foldl_app. Qed.
Lemma collect_map_Forall `{Countable K} {A} (P : K → A → Prop) (l : list (K * A)) :
  Forall (λ kv, P kv.1 kv.2) l → map_Forall P (collect_map l).
Proof.
  induction l as [|[k v] l IH] using rev_ind; intros Hl; [apply map_Forall_empty|].
  apply Forall_app in Hl as [Hl Hk]. rewrite Forall_singleton in Hk. rewrite collect_map_snoc.
  apply map_Forall_insert_2; [exact Hk|by apply IH].
Qed.
Lemma collect_map_is_Some `{Countable K} {A} (l : list (K * A)) k :
  is_Some (collect_map l !! k) ↔ k ∈ l.*1.
Proof.
  induction l as [|[j v] l IH] using rev_ind.
  - cbn. rewrite lookup_empty. split; [by intros []|set_solver].
  - rewrite collect_map_snoc, lookup_insert_is_Some', fmap_app, IH. set_solver.
Qed.

Lemma keyed_ok rows : map_Forall row_ok (keyed rows).
Proof.
  apply collect_map_Forall, Forall_fmap, Forall_forall. intros d Hd.
  apply list_elem_of_In, List.filter_In in Hd as [_ Hd]. split; [done|]. cbn.
  unfold identity_of, identity_from_parts. destruct (od_recipient d); [done|]. by intros l [= ->].
Qed.
Lemma keyed_is_Some rows k :
  is_Some (keyed rows !! k) ↔
  ∃ d, d ∈ rows ∧ delivery_needs_human (od_state d) = true ∧ k = (identity_of d, od_id d).
Proof.
  unfold keyed. rewrite collect_map_is_Some, <-list_fmap_compose, list_elem_of_fmap. cbn.
  split.
  - intros (d & -> & Hd). apply list_elem_of_In, List.filter_In in Hd as [Hd Hs].
    exists d. by rewrite list_elem_of_In.
  - intros (d & Hd & Hs & ->). exists d. split; [done|].
    apply list_elem_of_In, List.filter_In. by rewrite <-list_elem_of_In.
Qed.

(** Dropping what a mailbox snapshot no longer lists only removes rows. *)
Lemma drop_absent_subseteq mbox next dels e : drop_absent mbox next dels e ⊆ dels.
Proof.
  destruct e as [key [label s]]. cbn. destruct (next !! key); [done|].
  destruct key.1; [|apply delete_subseteq].
  destruct (another_exact _ _ _ _); [apply delete_subseteq|].
  etransitivity; apply delete_subseteq.
Qed.
Lemma drop_all_subseteq mbox next l dels : foldl (drop_absent mbox next) dels l ⊆ dels.
Proof.
  revert dels. induction l as [|e l IH]; intros dels; cbn; [done|].
  etransitivity; [apply IH|apply drop_absent_subseteq].
Qed.

Lemma resolve_id a r to id : (resolve a r to id).2 = id.
Proof. unfold resolve. destruct r; [done|]. by destruct (unique_exact_in _ _ _). Qed.
Lemma exact_rows_exact m label id e : e ∈ exact_rows m label id →
  m !! e.1 = Some e.2 ∧ is_exact e.1.1 = true ∧ e.1.2 = id ∧ e.2.1 = label.
Proof.
  unfold exact_rows, carries. intros He.
  apply list_elem_of_In, List.filter_In in He as [He%list_elem_of_In%elem_of_delivery_entries Hc].
  by bool_facts.
Qed.
Lemma resolve_legacy a r to id l : (resolve a r to id).1 = LegacyLabel l → r = None ∧ l = to.
Proof.
  unfold resolve. destruct r; [done|]. unfold unique_exact_in.
  destruct (exact_rows _ _ _) as [|e [|]] eqn:E; cbn; try (by intros [= ->]).
  assert (e ∈ exact_rows (att_union a) to id) as He by (rewrite E; set_solver).
  apply exact_rows_exact in He as (_ & Hx & _). intros El. by rewrite El in Hx.
Qed.

Lemma att_step_ok a e : att_ok a → att_ok (att_step a e).
Proof.
  intros [Hd Hm Hu]. destruct e as [panes|rows|rows|target pane s|pane|to r id s]; cbn [att_step].
  - by split.
  - split; [apply keyed_ok|done|done].
  - split; [|apply keyed_ok|done]. intros k row Hk. apply (Hd k).
    eapply lookup_weaken; [exact Hk|apply drop_all_subseteq].
  - unfold observe_agent. repeat case_match; by split.
  - unfold forget_agent. repeat case_match; by split.
  - unfold observe_delivery. destruct (delivery_needs_human s) eqn:Hs.
    + split; cbn; [|done|done]. apply map_Forall_insert_2; [|done]. split; [done|].
      cbn. by intros l [_ ->]%resolve_legacy.
    + destruct (deliveries a !! _) as [[label was]|]; (split; cbn; [|done|done]);
        by apply map_Forall_delete.
Qed.
Lemma att_run_ok events : att_ok (att_run events).
Proof.
  unfold att_run. assert (att_ok attention_default) as H.
  { split; [apply map_Forall_empty|apply map_Forall_empty|done]. }
  revert H. generalize attention_default. induction events as [|e l IH]; intros a H; cbn; [done|].
  by apply IH, att_step_ok.
Qed.

(** ** Items, count and clearances *)
Definition item_needs_human (i : AttentionItem) : bool :=
  match i with
  | ItemAgent _ _ s => is_blocked s
  | ItemDelivery _ _ _ s => delivery_needs_human s
  end.
Lemma elem_of_items a i : i ∈ items a ↔ i ∈ agent_items a ∨ i ∈ delivery_items a.
Proof. unfold items. by rewrite stable_sort_perm, elem_of_app. Qed.
Lemma elem_of_agent_items a i :
  i ∈ agent_items a ↔
  ∃ pane name s, i = ItemAgent pane name s ∧ agents a !! pane = Some (name, s) ∧ is_blocked s = true.
Proof.
  unfold agent_items. rewrite list_elem_of_fmap. split.
  - intros ([pane [name s]] & -> & He). apply list_elem_of_In, List.filter_In in He as [He Hb].
    apply list_elem_of_In, elem_of_agent_entries in He. by exists pane, name, s.
  - intros (pane & name & s & -> & He & Hb). exists (pane, (name, s)). split; [done|].
    apply list_elem_of_In, List.filter_In. split; [|done].
    by apply list_elem_of_In, elem_of_agent_entries.
Qed.
Lemma elem_of_delivery_items a i :
  i ∈ delivery_items a ↔
  ∃ r to id s, i = ItemDelivery r to id s ∧ att_union a !! (r, id) = Some (to, s).
Proof.
  unfold delivery_items. rewrite list_elem_of_fmap. split.
  - intros ([[r id] [to s]] & -> & He%elem_of_delivery_entries). by exists r, to, id, s.
  - intros (r & to & id & s & -> & He). exists ((r, id), (to, s)). split; [done|].
    by apply elem_of_delivery_entries.
Qed.
Lemma length_items a : length (items a) = count a.
Proof.
  unfold items, count. rewrite stable_sort_perm, length_app. unfold agent_items, delivery_items.
  by rewrite !length_fmap, length_delivery_entries.
Qed.
Lemma identities_NoDup a : NoDup (identity <$> items a).
Proof.
  unfold items. rewrite stable_sort_perm, fmap_app. unfold agent_items, delivery_items.
  rewrite <-!list_fmap_compose. apply NoDup_app. split_and!.
  - rewrite (list_fmap_ext _ (KeyAgent ∘ fst)) by done. rewrite list_fmap_compose.
    apply NoDup_fmap_2; [by intros ?? [=]|]. apply filter_keys_NoDup, agent_entries_keys.
  - intros k (e & -> & _)%list_elem_of_fmap (e' & Hk & _)%list_elem_of_fmap. done.
  - rewrite (list_fmap_ext _ ((λ k, KeyDelivery k.1 k.2) ∘ fst)) by done. rewrite list_fmap_compose.
    apply NoDup_fmap_2; [by intros [] [] [=]; simplify_eq/=|apply delivery_entries_keys].
Qed.
Lemma holds_item a key : holds a key = true ↔ key ∈ identity <$> items a.
Proof.
  rewrite list_elem_of_fmap. unfold holds, clearance. split.
  - destruct key as [pane|r id].
    + destruct (agents a !! pane) as [[name s]|] eqn:E; [|done]. destruct (is_blocked s) eqn:Hs; [|done].
      intros _. exists (ItemAgent pane name s). split; [done|]. apply elem_of_items. left.
      apply elem_of_agent_items. eauto 10.
    + destruct (att_union a !! (r, id)) as [[to s]|] eqn:E; [|done]. intros _.
      exists (ItemDelivery r to id s). split; [done|]. apply elem_of_items. right.
      apply elem_of_delivery_items. eauto 10.
  - intros (i & -> & [Hi|Hi]%elem_of_items).
    + apply elem_of_agent_items in Hi as (pane & name & s & -> & E & Hs). cbn. by rewrite E, Hs.
    + apply elem_of_delivery_items in Hi as (r & to & id & s & -> & E). cbn. by rewrite E.
Qed.

Lemma union_lookup dels mbox k row :
  union_of dels mbox !! k = Some row ↔
  (mbox ∪ dels) !! k = Some row ∧ is_twin (mbox ∪ dels) k = false.
Proof. unfold union_of. by rewrite map_lookup_filter_Some. Qed.
Lemma union_row_ok a k row : att_ok a → att_union a !! k = Some row → row_ok k row.
Proof.
  intros [Hd Hm ->] [H _]%union_lookup. apply lookup_union_Some_raw in H as [H|[_ H]]; eauto.
Qed.

(** After any history of snapshots and live events the register shows
    exactly what needs a human: every item needs one, no two items are the same
    pane or delivery, they are in display order, the count is their number, the
    eye is closed exactly when there is none, and a key is held exactly when it
    is the identity of an item. *)
Theorem register_shows_needs events :
  let a := att_run events in
  (∀ i, i ∈ items a → item_needs_human i = true) ∧
  NoDup (identity <$> items a) ∧
  StronglySorted item_le (items a) ∧
  count a = length (items a) ∧
  (eye a = EyeClosed ↔ items a = []) ∧
  (∀ key, holds a key = true ↔ key ∈ identity <$> items a).
Proof.
  intros a. pose proof (att_run_ok events : att_ok a) as Hok. split_and!.
  - intros i [Hi|Hi]%elem_of_items.
    + by apply elem_of_agent_items in Hi as (pane & name & s & -> & _ & Hs).
    + apply elem_of_delivery_items in Hi as (r & to & id & s & -> & E).
      by apply (union_row_ok _ _ _ Hok) in E as [E _].
  - apply identities_NoDup.
  - apply stable_sort_sorted; apply _.
  - symmetry. apply length_items.
  - unfold eye. rewrite <-length_items. destruct (items a) as [|? [|]]; done.
  - apply holds_item.
Qed.

(** ** Twins *)
Lemma elem_of_exact_rows m label id e :
  e ∈ exact_rows m label id ↔ m !! e.1 = Some e.2 ∧ carries label id e = true.
Proof.
  unfold exact_rows. rewrite list_elem_of_In, List.filter_In, <-list_elem_of_In.
  by rewrite elem_of_delivery_entries.
Qed.
Lemma exact_rows_NoDup m label id : NoDup (exact_rows m label id).
Proof.
  unfold exact_rows. eapply NoDup_fmap_1, filter_keys_NoDup, delivery_entries_keys.
Qed.
(** Maps with the same rows under exact keys have the same exact rows. *)
Definition same_exact (id : rstr) (m1 m2 : DeliveryMap) : Prop :=
  ∀ k, m1 !! (Exact k, id) = m2 !! (Exact k, id).
Lemma same_exact_rows m1 m2 label id :
  same_exact id m1 m2 → exact_rows m1 label id ≡ₚ exact_rows m2 label id.
Proof.
  intros H. apply NoDup_Permutation; [apply exact_rows_NoDup..|].
  intros [[[k|l] i] row]; rewrite !elem_of_exact_rows; unfold carries; cbn; [|split; by intros []].
  destruct (decide (i = id)) as [->|Hi]; [by rewrite H|].
  rewrite bool_decide_eq_false_2 by done. split; by intros [].
Qed.
Lemma same_exact_count m1 m2 label id :
  same_exact id m1 m2 → exact_by_label m1 label id = exact_by_label m2 label id.
Proof. intros H. unfold exact_by_label. by rewrite (same_exact_rows m1 m2). Qed.
Lemma union_same_exact dels mbox id : same_exact id (union_of dels mbox) (mbox ∪ dels).
Proof.
  intros k. apply option_eq. intros row. rewrite union_lookup. split; [by intros []|by intros].
Qed.

(** Exactly one exact recipient carries the label for the message. *)
Definition sole_exact (m : DeliveryMap) (label id : rstr) (k : RecipientKey) : Prop :=
  ∀ k', (∃ s, m !! (Exact k', id) = Some (label, s)) ↔ k' = k.
Lemma sole_exact_rows m label id k :
  sole_exact m label id k ↔ ∃ s, exact_rows m label id = [((Exact k, id), (label, s))].
Proof.
  split.
  - intros Hk. destruct (proj2 (Hk k) eq_refl) as [s Hs]. exists s.
    apply Permutation_singleton_r. apply NoDup_Permutation;
      [apply exact_rows_NoDup|apply NoDup_singleton|].
    intros e. rewrite elem_of_exact_rows, list_elem_of_singleton. split.
    + intros [He Hc]. unfold carries in Hc. bool_facts. destruct e as [[[k'|] i] [l s']]; [|done].
      cbn in *. subst. assert (k' = k) as -> by (apply Hk; eauto). congruence.
    + intros ->. cbn. split; [done|]. unfold carries. cbn. by rewrite !bool_decide_eq_true_2.
  - intros [s E] k'. split.
    + intros [s' H]. assert (((Exact k', id), (label, s')) ∈ exact_rows m label id) as Hin.
      { apply elem_of_exact_rows. split; [done|]. unfold carries. cbn. by rewrite !bool_decide_eq_true_2. }
      rewrite E in Hin. set_solver.
    + intros ->. exists s. assert (((Exact k, id), (label, s)) ∈ exact_rows m label id) as Hin by
        (rewrite E; set_solver). by apply elem_of_exact_rows in Hin as [H _].
Qed.
Lemma sole_exact_count m label id :
  exact_by_label m label id = 1%nat ↔ ∃ k, sole_exact m label id k.
Proof.
  unfold exact_by_label. split.
  - intros H. destruct (exact_rows m label id) as [|[[[k|l] i] [lb s]] [|]] eqn:E; try done.
    + assert (((Exact k, i), (lb, s)) ∈ exact_rows m label id) as Hin by (rewrite E; set_solver).
      apply exact_rows_exact in Hin as (_ & _ & Hi & Hl). cbn in Hi, Hl. subst.
      exists k. apply sole_exact_rows. by exists s.
    + assert (((LegacyLabel l, i), (lb, s)) ∈ exact_rows m label id) as Hin by (rewrite E; set_solver).
      by apply exact_rows_exact in Hin as (_ & Hx & _).
  - intros [k (s & E)%sole_exact_rows]. by rewrite E.
Qed.

(** Each delivery either half knows. *)
Definition known (a : Attention) (key : DeliveryKey) : option DeliveryRow :=
  (att_mailbox a ∪ deliveries a) !! key.
(** A pane-independent reading of [items] for one delivery. *)
Definition shown (a : Attention) (r : DeliveryRecipientIdentity) (to id : rstr) : Prop :=
  ∃ s, ItemDelivery r to id s ∈ items a.
Lemma shown_exact a k to id :
  att_ok a → shown a (Exact k) to id ↔ ∃ s, known a (Exact k, id) = Some (to, s).
Proof.
  intros Hok. unfold shown, known. f_equiv. intros s. rewrite <-union_same_exact, <-(ok_union _ Hok).
  rewrite elem_of_items, elem_of_agent_items, elem_of_delivery_items. split.
  - intros [(?&?&?&?&_)|(?&?&?&?&?&?)]; by simplify_eq.
  - intros H. right. eauto 10.
Qed.
Lemma holds_delivery a r id :
  holds a (KeyDelivery r id) = true ↔ is_Some (att_union a !! (r, id)).
Proof.
  unfold holds, clearance. destruct (att_union a !! (r, id)); split; eauto; [done|by intros []].
Qed.

(** One delivery is one item.  A row with an exact recipient is always
    shown; a row known only by its label is shown exactly when no single exact
    recipient is shown under that label for that message, so it is never
    counted beside its twin and never dropped without one; and nothing is shown
    that neither half knows. *)
Theorem twins_are_one_item events :
  let a := att_run events in
  (∀ k to id, shown a (Exact k) to id ↔ ∃ s, known a (Exact k, id) = Some (to, s)) ∧
  (∀ label id,
     is_Some (known a (LegacyLabel label, id)) →
     (holds a (KeyDelivery (LegacyLabel label) id) = true ↔
      ¬ ∃ k, ∀ k', shown a (Exact k') label id ↔ k' = k)) ∧
  (∀ r id, holds a (KeyDelivery r id) = true → is_Some (known a (r, id))).
Proof.
  intros a. pose proof (att_run_ok events : att_ok a) as Hok. split_and!.
  - intros k to id. by apply shown_exact.
  - intros label id [row Hrow]. rewrite holds_delivery, (ok_union _ Hok).
    assert ((∃ k, ∀ k', shown a (Exact k') label id ↔ k' = k) ↔
      exact_by_label (att_mailbox a ∪ deliveries a) label id = 1%nat) as ->.
    { rewrite sole_exact_count. unfold sole_exact. f_equiv. intros k.
      split; intros H k'; rewrite <-(H k'); [symmetry|]; by apply shown_exact. }
    split.
    + intros [row' [_ Ht]%union_lookup]. unfold is_twin in Ht. cbn in Ht. by bool_facts.
    + intros Ht. exists row. apply union_lookup. split; [done|]. unfold is_twin. cbn.
      by apply bool_decide_eq_false_2.
  - intros r id [row H]%holds_delivery. rewrite (ok_union _ Hok) in H.
    apply union_lookup in H as [H _]. by exists row.
Qed.

(** ** Live delivery events *)
Lemma both_other_id (dels dels' mbox : DeliveryMap) id :
  (∀ k, k.2 ≠ id → dels' !! k = dels !! k) →
  ∀ k, k.2 ≠ id → union_of dels' mbox !! k = union_of dels mbox !! k.
Proof.
  intros H k Hk. apply option_eq. intros row. rewrite !union_lookup.
  assert (∀ j, j.2 ≠ id → (mbox ∪ dels') !! j = (mbox ∪ dels) !! j) as Hj.
  { intros j Hj. by rewrite !lookup_union, (H j). }
  rewrite (Hj k Hk). apply and_iff_compat_l. unfold is_twin. destruct k as [[r|l] i]; [done|]. cbn in *.
  rewrite (same_exact_count (mbox ∪ dels') (mbox ∪ dels)); [done|]. intros r. by apply Hj.
Qed.
Lemma twin_of_resolved a r to id :
  att_ok a → is_twin (att_mailbox a ∪ deliveries a) (resolve a r to id) = false.
Proof.
  intros Hok. unfold resolve. destruct r; [done|]. unfold unique_exact_in.
  assert (exact_by_label (att_mailbox a ∪ deliveries a) to id = length (exact_rows (att_union a) to id))
    as Hc.
  { apply same_exact_count. intros k. by rewrite (ok_union _ Hok), union_same_exact. }
  destruct (exact_rows (att_union a) to id) as [|e [|e' l]] eqn:E; unfold is_twin; cbn [fst snd].
  - rewrite Hc. done.
  - assert (e ∈ exact_rows (att_union a) to id) as He by (rewrite E; set_solver).
    apply exact_rows_exact in He as (_ & Hx & _). by destruct e.1.1.
  - rewrite Hc. done.
Qed.
(** Changing the row of a resolved key leaves it as visible as before. *)
Lemma twin_stable (m m' : DeliveryMap) key :
  (∀ k, k ≠ key → m' !! k = m !! k) → is_twin m key = false → is_twin m' key = false.
Proof.
  intros H. unfold is_twin. destruct key as [[r|l] i]; [done|]. cbn.
  rewrite (same_exact_count m' m); [done|]. intros k. by apply H.
Qed.

Lemma resolved_visible a r to id dels' :
  att_ok a →
  (∀ j, j ≠ resolve a r to id → dels' !! j = deliveries a !! j) →
  union_of dels' (att_mailbox a) !! resolve a r to id =
  (att_mailbox a ∪ dels') !! resolve a r to id.
Proof.
  intros Hok Hd. apply option_eq. intros row. rewrite union_lookup. split; [by intros []|]. intros H.
  split; [done|]. eapply twin_stable, twin_of_resolved, Hok. intros k Hk. by rewrite !lookup_union, Hd.
Qed.
Lemma resolved_others a r to id dels' k :
  att_ok a →
  (∀ j, j ≠ resolve a r to id → dels' !! j = deliveries a !! j) → k.2 ≠ id →
  union_of dels' (att_mailbox a) !! k = att_union a !! k.
Proof.
  intros Hok Hd Hk. rewrite (ok_union _ Hok). apply (both_other_id _ _ _ id); [|done].
  intros j Hj. apply Hd. intros ->. by rewrite resolve_id in Hj.
Qed.

(** A live delivery event moves one delivery.  Deliveries of every other
    message stand as before and panes are untouched.  When the new state needs
    a human the delivery is held under the key the reference resolves to and
    nothing is reported; otherwise the alarm of the ledger half ends, it is
    reported with its last label and state exactly when there was one, and the
    key stays held only if the mailbox half carries it. *)
Theorem delivery_event_moves_one events to recipient id state :
  let a := att_run events in
  let '(a', report) := observe_delivery to recipient id state a in
  let message := default [] id in
  let key := resolve a recipient to message in
  agents a' = agents a ∧
  (∀ k, k.2 ≠ message → att_union a' !! k = att_union a !! k) ∧
  key_for a recipient to message = KeyDelivery key.1 key.2 ∧
  if delivery_needs_human state then
    report = None ∧ holds a' (KeyDelivery key.1 key.2) = true
  else
    report = (λ row, MkResolved (ItemDelivery key.1 row.1 key.2 row.2) Moved) <$> deliveries a !! key ∧
    (holds a' (KeyDelivery key.1 key.2) = true ↔ is_Some (att_mailbox a !! key)).
Proof.
  intros a. pose proof (att_run_ok events : att_ok a) as Hok. unfold observe_delivery, key_for.
  set (message := default [] id).
  pose proof (resolved_visible a recipient to message) as Hvis.
  pose proof (resolved_others a recipient to message) as Hoth.
  set (key := resolve a recipient to message) in *.
  destruct (delivery_needs_human state).
  - assert (∀ j, j ≠ key → <[key := (to, state)]> (deliveries a) !! j = deliveries a !! j) as Hd.
    { intros j Hj. by apply lookup_insert_ne. }
    split_and!; [done| |by destruct key|done|].
    + intros k Hk. by apply Hoth.
    + rewrite holds_delivery, <-surjective_pairing. cbn [att_union rebuild_union deliveries att_mailbox].
      rewrite Hvis by done. apply lookup_union_is_Some. right. rewrite lookup_insert_eq. by eexists.
  - assert (∀ j, j ≠ key → delete key (deliveries a) !! j = deliveries a !! j) as Hd.
    { intros j Hj. by apply lookup_delete_ne. }
    destruct (deliveries a !! key) as [[label was]|];
      (split_and!; [done|intros k Hk; by apply Hoth|by destruct key|done|]);
      rewrite holds_delivery, <-surjective_pairing; cbn [att_union rebuild_union deliveries att_mailbox];
      rewrite Hvis, lookup_union_is_Some, lookup_delete_eq by done; split; (intros [|[]] || auto); done.
Qed.

(** ** Mailbox snapshots *)
Lemma drop_absent_other mbox next dels e k :
  is_Some (next !! e.1) ∨ e.1.2 ≠ k.2 → drop_absent mbox next dels e !! k = dels !! k.
Proof.
  destruct e as [key [label s]]. cbn. intros H. destruct (next !! key); [done|].
  destruct H as [[]|H]; [done|]. assert (key ≠ k) by congruence.
  destruct key.1; [|by apply lookup_delete_ne].
  destruct (another_exact _ _ _ _); rewrite ?lookup_delete_ne; try done; by intros <-.
Qed.
Lemma drop_all_other mbox next l dels k :
  (∀ e, e ∈ l → is_Some (next !! e.1) ∨ e.1.2 ≠ k.2) →
  foldl (drop_absent mbox next) dels l !! k = dels !! k.
Proof.
  revert dels. induction l as [|e l IH]; intros dels H; cbn; [done|].
  rewrite IH by set_solver. apply drop_absent_other. set_solver.
Qed.
(** What one turn of the loop removes stays removed. *)
Lemma drop_all_none mbox next l dels e k :
  e ∈ l → (∀ dels', dels' ⊆ dels → drop_absent mbox next dels' e !! k = None) →
  foldl (drop_absent mbox next) dels l !! k = None.
Proof.
  intros (l1 & l2 & ->)%list_elem_of_split H. rewrite foldl_app. cbn.
  eapply lookup_weaken_None; [|apply drop_all_subseteq]. apply H, drop_all_subseteq.
Qed.
Lemma drop_absent_key mbox next dels e :
  next !! e.1 = None → drop_absent mbox next dels e !! e.1 = None.
Proof.
  destruct e as [key [label s]]. cbn. intros ->.
  destruct key.1; [|apply lookup_delete_eq].
  destruct (another_exact _ _ _ _); [apply lookup_delete_eq|].
  eapply lookup_weaken_None; [apply lookup_delete_eq|]. apply delete_subseteq.
Qed.
Lemma drop_absent_twin mbox next dels k id label s :
  next !! (Exact k, id) = None →
  (∀ k' s', mbox !! (Exact k', id) = Some (label, s') ∨ dels !! (Exact k', id) = Some (label, s') →
     k' = k) →
  drop_absent mbox next dels ((Exact k, id), (label, s)) !! (LegacyLabel label, id) = None.
Proof.
  cbn. intros -> Hsole. destruct (another_exact _ _ _ _) eqn:E; [|apply lookup_delete_eq].
  unfold another_exact in E. apply List.existsb_exists in E as (e & He & Hc).
  apply list_elem_of_In in He. unfold carries in Hc. bool_facts.
  destruct e as [[[k'|] i] [l s']]; [|done]. cbn in *. subst.
  assert (k' = k) as ->; [|done]. apply (Hsole k' s').
  apply elem_of_app in He as [He%elem_of_delivery_entries|He%elem_of_delivery_entries]; cbn in He; [by left|].
  apply lookup_delete_Some in He as [_ He]. by right.
Qed.

(** A mailbox snapshot is authoritative.  Every row of it that needs a
    human and names its recipient is held; a delivery the previous snapshot
    carried and this one does not is gone from both halves, and so is the
    ledger row of the same label when that recipient was the only one carrying
    it; ledger rows of messages that did not leave the mailbox are kept. *)
Theorem mailbox_snapshot_authoritative events rows :
  let a := att_run events in
  let a' := snapshot_mailbox rows a in
  (∀ d k, d ∈ rows → delivery_needs_human (od_state d) = true → od_recipient d = Some k →
     holds a' (KeyDelivery (Exact k) (od_id d)) = true) ∧
  (∀ r id, is_Some (att_mailbox a !! (r, id)) → keyed rows !! (r, id) = None →
     holds a' (KeyDelivery r id) = false) ∧
  (∀ k id label s, att_mailbox a !! (Exact k, id) = Some (label, s) →
     keyed rows !! (Exact k, id) = None →
     (∀ k' s', att_mailbox a !! (Exact k', id) = Some (label, s') ∨
        deliveries a !! (Exact k', id) = Some (label, s') → k' = k) →
     deliveries a' !! (LegacyLabel label, id) = None) ∧
  (∀ r id, (∀ r', is_Some (att_mailbox a !! (r', id)) → is_Some (keyed rows !! (r', id))) →
     deliveries a' !! (r, id) = deliveries a !! (r, id)).
Proof.
  intros a a'. split_and!.
  - intros d k Hd Hs Hk. apply holds_delivery. cbn [att_union rebuild_union snapshot_mailbox a'].
    rewrite union_same_exact. apply lookup_union_is_Some. left. apply keyed_is_Some. exists d.
    unfold identity_of. by rewrite Hk.
  - intros r id [row Hrow] Hn. apply not_true_iff_false. intros [row' H]%holds_delivery.
    apply union_lookup in H as [H _]. cbn [deliveries att_mailbox] in H.
    apply lookup_union_Some_raw in H as [H|[_ H]]; [congruence|]. rewrite (drop_all_none _ _ _ _ ((r, id), row)) in H; [done| |].
    + by apply elem_of_delivery_entries.
    + intros dels' _. by apply (drop_absent_key _ _ _ ((r, id), row)).
  - intros k id label s Hrow Hn Hsole. apply (drop_all_none _ _ _ _ ((Exact k, id), (label, s))).
    + by apply elem_of_delivery_entries.
    + intros dels' Hsub. apply drop_absent_twin; [done|]. intros k' s' [H|H]; eapply Hsole; [by left|].
      right. by eapply lookup_weaken.
  - intros r id H. apply drop_all_other. intros [[r' id'] row] He%elem_of_delivery_entries. cbn in *.
    destruct (decide (id' = id)) as [->|]; [left|by right]. apply H. by eexists.
Qed.

(** ** The mailbox's own rows *)
Section mailbox_rows.
Context {V : Type} {serde : Serde V} {uuids : Uuids} {digests : Digests}.
Implicit Types (p : MailboxProjection V) (n : NotificationRecord).

Definition record_attention_key n : AttentionKey :=
  KeyDelivery (Exact (nr_recipient n)) (mid_text (nr_message_id n)).
Lemma attention_row_needs_human labels n :
  delivery_needs_human (od_state (attention_row labels n)) = true.
Proof. unfold attention_row, attention_state_cause. by destruct (nr_state n). Qed.
Lemma attention_row_identity labels n :
  identity_of (attention_row labels n) = Exact (nr_recipient n).
Proof. unfold identity_of. destruct (attention_row_ids labels n) as (_ & -> & _). done. Qed.

Lemma collect_map_size `{Countable K} {A} (l : list (K * A)) :
  NoDup l.*1 → size (collect_map l) = length l.
Proof.
  induction l as [|[k v] l IH] using rev_ind; [done|]. rewrite fmap_app, NoDup_app. intros (Hl & Hk & _).
  rewrite collect_map_snoc, map_size_insert_None, IH, length_app by
    (done || apply eq_None_not_Some; rewrite collect_map_is_Some; set_solver). cbn. lia.
Qed.
Lemma keyed_rows_size labels ns :
  NoDup ((λ row, (od_recipient row, od_id row)) <$> (attention_row labels <$> ns)) →
  size (keyed (attention_row labels <$> ns)) = length ns.
Proof.
  intros H. unfold keyed. rewrite List.forallb_filter_id.
  2:{ apply List.forallb_forall. intros d (n & -> & _)%list_elem_of_In%list_elem_of_fmap.
      apply attention_row_needs_human. }
  rewrite collect_map_size; [by rewrite !length_fmap|].
  set (f := λ k : option RecipientKey * rstr, (identity_from_parts k.1 [], k.2)).
  assert (Inj (=) (=) f) by (by intros [[]] [[]] [=]; subst).
  apply (NoDup_fmap_2 f) in H. rewrite <-!list_fmap_compose in *.
  erewrite list_fmap_ext; [exact H|]. intros i n _. cbn. unfold f. cbn.
  rewrite attention_row_identity. by destruct (attention_row_ids labels n) as (_ & -> & _).
Qed.

(** The register and the mailbox agree: a status answer that carries the
    mailbox's attention rows and no ledger rows puts exactly one delivery item
    on the register for each record listed, holds every open alarm and every
    held queue head, and holds no delivery whose wake is not current and
    unresolved. *)
Theorem mailbox_alarms_are_items p recipients labels sessions :
  reachable p →
  let a := from_status (MkStatusResult sessions [] (mailbox_attention_rows p recipients labels)) in
  length (delivery_items a) = length (attention_records p recipients) ∧
  (∀ n, n ∈ open_alarms p → holds a (record_attention_key n) = true) ∧
  (∀ r n, r ∈ recipients → held_head p r = Some n → holds a (record_attention_key n) = true) ∧
  (∀ r id, holds a (KeyDelivery r id) = true →
     ∃ n, KeyDelivery r id = record_attention_key n ∧ current_unresolved p (record_key n) n).
Proof.
  intros Hr a.
  destruct (attention_records_spec p recipients (reachable_wf _ Hr)) as (acc & E & Hacc & Hhas).
  assert (att_union a = keyed (attention_row labels <$> atr_records acc)) as Hu.
  { assert (att_mailbox a = keyed (attention_row labels <$> atr_records acc)) as Hm by (by rewrite E).
    assert (deliveries a = ∅) as Hd by reflexivity.
    assert (att_union a = union_of (deliveries a) (att_mailbox a)) as -> by reflexivity.
    rewrite Hm, Hd. apply map_eq. intros k. apply option_eq. intros row.
    rewrite union_lookup, (right_id_L ∅ (∪)). split; [by intros []|].
    intros Hk. split; [done|]. assert (is_Some (keyed (attention_row labels <$> atr_records acc) !! k))
      as (d & (n & -> & _)%list_elem_of_fmap & _ & ->)%keyed_is_Some by done.
    by rewrite attention_row_identity. }
  assert (∀ n, n ∈ atr_records acc → holds a (record_attention_key n) = true) as Hin.
  { intros n Hn. apply holds_delivery. rewrite Hu. apply keyed_is_Some. exists (attention_row labels n).
    rewrite attention_row_identity, attention_row_needs_human.
    destruct (attention_row_ids labels n) as (_ & _ & ->). split_and!; [|done|done].
    by apply list_elem_of_fmap_2. }
  split_and!.
  - unfold delivery_items. rewrite length_fmap, length_delivery_entries, Hu, <-E.
    apply keyed_rows_size, (attention_row_keys p), Hacc.
  - intros n Hn. apply Hin, Hhas. by left.
  - intros r n Hrec Hh. apply Hin, Hhas. right. apply list_elem_of_omap. by exists r.
  - intros r id H. apply holds_delivery in H. rewrite Hu in H.
    apply keyed_is_Some in H as (d & (n & -> & Hn)%list_elem_of_fmap & _ & [= -> ->]).
    exists n. rewrite attention_row_identity. destruct (attention_row_ids labels n) as (_ & _ & ->).
    split; [done|]. by apply (ao_good _ _ Hacc).
Qed.
End mailbox_rows.

(** ** The eye *)

(** Two frames bring the eye anywhere, and the register decides where. *)
Lemma eye_reaches_target e target : step_toward (step_toward e target) target = target.
Proof. by destruct e, target. Qed.

(** ** Words of the gate *)

(** The gate's words mean what the register means: a cause that is a
    state's name needs a human exactly when the state is blocked, a named prompt
    always does, and the reason of a blocked pre-write row reads back. *)
Theorem gate_words_agree s rule reason :
  gate_cause_needs_human (agent_state_name s) = is_blocked s ∧
  agent_state_of_name (agent_state_name s) = Some s ∧
  gate_cause_needs_human (str "blocked:" ++ rule) = true ∧
  (delivery_pre_write_reason (delivery_pre_write_cause reason) = Some reason ↔ reason ≠ []).
Proof.
  split_and!; [by destruct s|by destruct s| |].
  - unfold gate_cause_needs_human.
    change (str "blocked:" ++ rule) with (str "blocked" ++ 58 :: rule). change (str ":") with [58].
    rewrite split_once_char by (apply (bool_decide_unpack _); vm_compute; exact I). by rewrite bool_decide_eq_true_2.
  - unfold delivery_pre_write_reason, delivery_pre_write_cause. rewrite strip_prefix_app. cbn [mbind option_bind].
    case_bool_decide; naive_solver.
Qed.
