(* ===== verification/Detection.v ===== *)
(** * What a pane shows

    [src/cyclops-proto/src/state.rs]: the readings of the sensors, the fused
    detection of one pane with its write-readiness verdict, the reasons a state is
    unknown, and the composer hold, which remembers text seen staged until a turn
    consumes it.

    Theorems: when a stamped verdict allows a write; when an observation releases
    a hold; restamping a verdict forgets any refusal named before it. *)
From S2P Require Import Prelude Text Identity Ledger AttentionRegister.
Local Open Scope N_scope.

(** ** Readings *)
Inductive Sensor := SensorHook | SensorTitle | SensorOutput | SensorScreen.
#[export] Instance Sensor_eq_dec : EqDecision Sensor.
Proof. solve_decision. Defined.
Inductive ComposerSemantic := SemClean | SemHumanInput | SemGhostSuggestion | SemAmbiguous.
#[export] Instance ComposerSemantic_eq_dec : EqDecision ComposerSemantic.
Proof. solve_decision. Defined.
Record SensorReading := MkReading {
  sr_sensor : Sensor;
  sr_state : AgentState;
  sr_rule : rstr;
  sr_ts : N;
}.

(** ** Why a state is unknown *)
Definition is_plain_shell (current_command : rstr) : bool :=
  bool_decide (current_command ∈ [str "bash"; str "fish"; str "sh"; str "zsh"]).
Inductive UnknownReason :=
| IntegrationNotInstalled
| IntegrationOutdated
| LifecycleIncomplete
| NoCurrentBootEdge
| BindingUnproven
| UnsupportedVendor
| Unrecognized (raw : rstr).
#[export] Instance UnknownReason_eq_dec : EqDecision UnknownReason.
Proof. solve_decision. Defined.
Definition reason_as_str (r : UnknownReason) : rstr :=
  match r with
  | IntegrationNotInstalled => str "integration_not_installed"
  | IntegrationOutdated => str "integration_outdated"
  | LifecycleIncomplete => str "lifecycle_incomplete"
  | NoCurrentBootEdge => str "no_current_boot_edge"
  | BindingUnproven => str "binding_unproven"
  | UnsupportedVendor => str "unsupported_vendor"
  | Unrecognized raw => raw
  end.
Definition known_reasons : list UnknownReason :=
  [IntegrationNotInstalled; IntegrationOutdated; LifecycleIncomplete; NoCurrentBootEdge; BindingUnproven;
   UnsupportedVendor].
Definition reason_from (raw : rstr) : UnknownReason :=
  default (Unrecognized raw) (head (List.filter (λ r, bool_decide (reason_as_str r = raw)) known_reasons)).
Definition reason_rank (r : UnknownReason) : N :=
  match r with
  | UnsupportedVendor => 0
  | BindingUnproven => 1
  | IntegrationNotInstalled => 2
  | IntegrationOutdated => 3
  | LifecycleIncomplete => 4
  | NoCurrentBootEdge => 5
  | Unrecognized _ => 255
  end.
(** [min_by_key]: the first of the least. *)
Fixpoint most_specific (candidates : list UnknownReason) : option UnknownReason :=
  match candidates with
  | [] => None
  | r :: rest =>
      match most_specific rest with
      | Some best => Some (if reason_rank best <? reason_rank r then best else r)
      | None => Some r
      end
  end.

(** ** The detection *)
Record Detection := MkDetection {
  det_state : AgentState;
  det_readings : list SensorReading;
  det_disagreement : bool;
  det_decided_by : rstr;
  det_stale : bool;
  det_write_ready : bool;
  det_write_block : option rstr;
  det_composer_semantic : option ComposerSemantic;
  det_unknown_reason : option UnknownReason;
}.
Definition with_verdict (d : Detection) (ready : bool) (block : option rstr) : Detection :=
  MkDetection (det_state d) (det_readings d) (det_disagreement d) (det_decided_by d) (det_stale d)
    ready block (det_composer_semantic d) (det_unknown_reason d).
Definition refused (d : Detection) (reason : rstr) : Detection := with_verdict d false (Some reason).
Definition occupant_unprovable (d : Detection) : Detection := refused d (str "occupant_unprovable").

Definition reads (d : Detection) (sensor : Sensor) (state : AgentState) : bool :=
  existsb (λ r, bool_decide (sr_sensor r = sensor) && bool_decide (sr_state r = state)) (det_readings d).
Definition min_opt (best : option N) (t : N) : option N :=
  Some (match best with Some b => N.min b t | None => t end).
Definition turn_running_at (d : Detection) : option N :=
  foldl min_opt None (sr_ts <$> List.filter (λ r, bool_decide (sr_state r = SWorking)) (det_readings d)).
Definition hook_turn_end_after (d : Detection) (since_ms : N) : bool :=
  existsb (λ r, bool_decide (sr_sensor r = SensorHook) && bool_decide (sr_state r = SIdle) &&
                (since_ms <=? sr_ts r)) (det_readings d).
Definition screen_read (d : Detection) : bool :=
  existsb (λ r, bool_decide (sr_sensor r = SensorScreen)) (det_readings d).
Definition screen_proves_write_safe_composer (d : Detection) : bool :=
  match det_composer_semantic d with
  | Some (SemClean | SemGhostSuggestion) => screen_read d
  | _ => false
  end.

(** ** The verdict *)
Definition working_composer_proven (d : Detection) : bool :=
  bool_decide (det_state d = SWorking) && screen_proves_write_safe_composer d &&
  reads d SensorScreen SWorking &&
  forallb (λ r, bool_decide (sr_state r = SWorking) ||
                (bool_decide (sr_sensor r = SensorScreen) && bool_decide (sr_state r = SIdle)))
    (det_readings d).
Definition conflicting_reading (d : Detection) (r : SensorReading) : bool :=
  match sr_state r with
  | SIdleWithInput | SBlockedModal | SBlockedPermission | SBlockedQuota | SUnknown => true
  | SWorking => negb (working_composer_proven d)
  | _ => false
  end.
Definition conflicting_evidence (d : Detection) : bool :=
  match det_state d with
  | SUnknown | SIdleWithInput | SBlockedModal | SBlockedPermission | SBlockedQuota | SDead => true
  | _ => false
  end || existsb (conflicting_reading d) (det_readings d) ||
  (bool_decide (det_state d = SWorking) && negb (working_composer_proven d)).
Definition base_write_ready (d : Detection) : result rstr unit :=
  if det_stale d then Err (str "stale_screen_evidence")
  else if det_disagreement d && negb (working_composer_proven d) then Err (str "sensor_disagreement")
  else if bool_decide (det_state d = SIdle) && starts_with (str "hook:") (det_decided_by d)
  then Err (str "hook_derived_idle")
  else if negb (screen_proves_write_safe_composer d) then Err (str "no_write_safe_composer_evidence")
  else if conflicting_evidence d then Err (str "conflicting_evidence")
  else Ok ().
Definition with_write_block (d : Detection) : Detection :=
  match base_write_ready d with
  | Ok _ => with_verdict d true None
  | Err reason => with_verdict d false (Some reason)
  end.

(** ** The hold *)
Inductive ComposerHold :=
| HoldClear
| HoldStaged
| HoldStagedDuringTurn
| HoldTurnStarted (since_ms : N).
#[export] Instance ComposerHold_eq_dec : EqDecision ComposerHold.
Proof. solve_decision. Defined.
Definition is_waiting (h : ComposerHold) : bool :=
  match h with HoldStaged | HoldStagedDuringTurn => true | _ => false end.
Definition refuses (h : ComposerHold) : bool := negb (bool_decide (h = HoldClear)).
Definition stamped (d : Detection) (in_mode : bool) (hold : ComposerHold) : Detection :=
  if in_mode then with_verdict d false (Some (str "pane_in_mode"))
  else
    let d := with_write_block d in
    if det_write_ready d && refuses hold then with_verdict d false (Some (str "composer_hold")) else d.

Definition input_seen (d : Detection) : bool :=
  bool_decide (det_state d = SIdleWithInput) || reads d SensorScreen SIdleWithInput ||
  bool_decide (det_composer_semantic d = Some SemHumanInput).
Definition hold_advance (self : ComposerHold) (d : Detection) (ended : option bool) : ComposerHold :=
  if bool_decide (det_state d = SDead) then HoldClear
  else if input_seen d then
    match self with
    | HoldStagedDuringTurn => self
    | _ => match turn_running_at d with Some _ => HoldStagedDuringTurn | None => HoldStaged end
    end
  else match self with
  | HoldClear => self
  | HoldStagedDuringTurn => match turn_running_at d with Some _ => self | None => HoldStaged end
  | HoldTurnStarted _ =>
      match turn_running_at d with
      | Some _ => self
      | None =>
          if default (bool_decide (det_state d = SIdle)) ended && screen_proves_write_safe_composer d
          then HoldClear else self
      end
  | HoldStaged => match turn_running_at d with Some ts => HoldTurnStarted ts | None => self end
  end.
Definition release_after_settled_visible_empty (self : ComposerHold) (d : Detection) : ComposerHold :=
  let visible_empty :=
    negb (det_stale d) && bool_decide (det_composer_semantic d = Some SemClean) && screen_read d &&
    match det_state d with SIdle | SWorking => true | _ => false end in
  if is_waiting self && visible_empty then HoldClear else self.

(** ** Readings and verdicts *)
Lemma reads_true d s a :
  reads d s a = true ↔ ∃ r, r ∈ det_readings d ∧ sr_sensor r = s ∧ sr_state r = a.
Proof.
  unfold reads. rewrite existsb_exists. setoid_rewrite <- list_elem_of_In.
  setoid_rewrite andb_true_iff. by setoid_rewrite bool_decide_eq_true.
Qed.
Lemma foldl_min_opt l o : o ≠ None → foldl min_opt o l ≠ None.
Proof. revert o. induction l as [|t l IH]; intros o Ho; [done|]. by apply IH. Qed.
Lemma turn_running_none d : turn_running_at d = None ↔ Forall (λ r, sr_state r ≠ SWorking) (det_readings d).
Proof.
  unfold turn_running_at. generalize (det_readings d). induction l as [|r l IH]; cbn; [done|].
  rewrite Forall_cons, <- IH. case_bool_decide as E; cbn.
  - split; [|tauto]. intros H. by apply foldl_min_opt in H.
  - tauto.
Qed.
Lemma conflicts_none d :
  conflicting_evidence d = false ↔
  (det_state d = SIdle ∧ Forall (λ r, sr_state r = SIdle ∨ sr_state r = SDead) (det_readings d)) ∨
  (det_state d = SWorking ∧ working_composer_proven d = true).
Proof.
  unfold conflicting_evidence. rewrite !orb_false_iff.
  assert (existsb (conflicting_reading d) (det_readings d) = false ↔
          Forall (λ r, conflicting_reading d r = false) (det_readings d)) as ->.
  { induction (det_readings d) as [|r l IH]; cbn; [done|]. rewrite orb_false_iff, Forall_cons. tauto. }
  destruct (working_composer_proven d) eqn:Hw.
  - assert (Hs := Hw). unfold working_composer_proven in Hs. rewrite !andb_true_iff, bool_decide_eq_true in Hs.
    destruct Hs as [[[Hs _] _] Hall]. rewrite Hs. cbn. split; [by right|]. intros _. split; [|done].
    split; [done|]. rewrite forallb_forall in Hall. apply Forall_forall. intros r Hr%list_elem_of_In.
    specialize (Hall r Hr). unfold conflicting_reading. rewrite Hw.
    destruct (sr_state r), (sr_sensor r); done.
  - assert (Forall (λ r, conflicting_reading d r = false) (det_readings d) ↔
            Forall (λ r, sr_state r = SIdle ∨ sr_state r = SDead) (det_readings d)) as ->.
    { apply Forall_iff. intros r. unfold conflicting_reading. rewrite Hw. destruct (sr_state r); naive_solver. }
    rewrite andb_true_r, bool_decide_eq_false. destruct (det_state d); naive_solver.
Qed.

(** What a stamped verdict that allows a write has seen. *)
Record write_evidence (d : Detection) (in_mode : bool) (hold : ComposerHold) : Prop := {
  we_mode : in_mode = false;
  we_hold : hold = HoldClear;
  we_fresh : det_stale d = false;
  we_composer : det_composer_semantic d = Some SemClean ∨ det_composer_semantic d = Some SemGhostSuggestion;
  we_state :
    (det_state d = SIdle ∧ det_disagreement d = false ∧ starts_with (str "hook:") (det_decided_by d) = false ∧
     (∃ r, r ∈ det_readings d ∧ sr_sensor r = SensorScreen) ∧
     Forall (λ r, sr_state r = SIdle ∨ sr_state r = SDead) (det_readings d)) ∨
    (det_state d = SWorking ∧
     (∃ r, r ∈ det_readings d ∧ sr_sensor r = SensorScreen ∧ sr_state r = SWorking) ∧
     Forall (λ r, sr_state r = SWorking ∨ (sr_sensor r = SensorScreen ∧ sr_state r = SIdle)) (det_readings d));
}.
Lemma screen_read_true d : screen_read d = true ↔ ∃ r, r ∈ det_readings d ∧ sr_sensor r = SensorScreen.
Proof.
  unfold screen_read. rewrite existsb_exists. setoid_rewrite <- list_elem_of_In.
  by setoid_rewrite bool_decide_eq_true.
Qed.
Lemma safe_composer_true d :
  screen_proves_write_safe_composer d = true ↔
  (det_composer_semantic d = Some SemClean ∨ det_composer_semantic d = Some SemGhostSuggestion) ∧
  ∃ r, r ∈ det_readings d ∧ sr_sensor r = SensorScreen.
Proof.
  unfold screen_proves_write_safe_composer. rewrite <- screen_read_true.
  destruct (det_composer_semantic d) as [[]|]; naive_solver.
Qed.
Lemma working_proven_true d :
  working_composer_proven d = true ↔
  det_state d = SWorking ∧ screen_proves_write_safe_composer d = true ∧
  (∃ r, r ∈ det_readings d ∧ sr_sensor r = SensorScreen ∧ sr_state r = SWorking) ∧
  Forall (λ r, sr_state r = SWorking ∨ (sr_sensor r = SensorScreen ∧ sr_state r = SIdle)) (det_readings d).
Proof.
  unfold working_composer_proven. rewrite !andb_true_iff, bool_decide_eq_true, reads_true, forallb_forall.
  rewrite Forall_forall. setoid_rewrite list_elem_of_In. setoid_rewrite orb_true_iff.
  setoid_rewrite andb_true_iff. setoid_rewrite bool_decide_eq_true. tauto.
Qed.
Lemma base_ready_true d :
  base_write_ready d = Ok () ↔
  det_stale d = false ∧ (det_disagreement d = true → working_composer_proven d = true) ∧
  (det_state d = SIdle → starts_with (str "hook:") (det_decided_by d) = false) ∧
  screen_proves_write_safe_composer d = true ∧ conflicting_evidence d = false.
Proof.
  unfold base_write_ready. destruct (det_stale d); [by split; intros H; [|destruct H]|].
  destruct (det_disagreement d && negb (working_composer_proven d)) eqn:E1.
  { apply andb_true_iff in E1 as [E1 E2%negb_true_iff]. split; [done|]. intros (_ & H & _).
    rewrite E1, E2 in H. by specialize (H eq_refl). }
  assert (det_disagreement d = true → working_composer_proven d = true) as Hd.
  { intros E. rewrite E in E1. by apply negb_false_iff in E1. }
  destruct (bool_decide (det_state d = SIdle) && starts_with (str "hook:") (det_decided_by d)) eqn:E2.
  { apply andb_true_iff in E2 as [E2%bool_decide_eq_true E3]. split; [done|]. intros (_ & _ & H & _).
    rewrite E3 in H. by specialize (H E2). }
  assert (det_state d = SIdle → starts_with (str "hook:") (det_decided_by d) = false) as Hk.
  { intros E. by rewrite bool_decide_eq_true_2 in E2. }
  destruct (screen_proves_write_safe_composer d); cbn [negb]; [|by split; intros H; [|destruct H as (_&_&_&?&_)]].
  destruct (conflicting_evidence d); [by split; intros H; [|destruct H as (_&_&_&_&?)]|]. by split.
Qed.

Lemma stamped_ready d in_mode hold :
  det_write_ready (stamped d in_mode hold) = true ↔
  in_mode = false ∧ hold = HoldClear ∧ base_write_ready d = Ok ().
Proof.
  unfold stamped, with_write_block. destruct in_mode; [cbn; naive_solver|].
  destruct (base_write_ready d) as [[]|e]; cbn; [|naive_solver].
  unfold refuses. case_bool_decide as E; cbn; naive_solver.
Qed.

Lemma ready_evidence d in_mode hold :
  det_write_ready (stamped d in_mode hold) = true ↔ write_evidence d in_mode hold.
Proof.
  rewrite stamped_ready, base_ready_true, conflicts_none, safe_composer_true. split.
  - intros (Hm & Hh & Hs & Hd & Hk & [Hc Hsc] & [[Hi Hall]|[Hw Hp]]); split; try done.
    + left. split_and!; auto. destruct (det_disagreement d) eqn:E; [|done].
      specialize (Hd eq_refl). apply working_proven_true in Hd as [Hd _]. congruence.
    + right. apply working_proven_true in Hp. tauto.
  - intros [Hm Hh Hs Hc [(Hi & Hd & Hk & Hsc & Hall)|(Hw & Hr & Hall)]].
    + rewrite Hd. split_and!; try done; by left.
    + assert (∃ r, r ∈ det_readings d ∧ sr_sensor r = SensorScreen) as Hsc by naive_solver.
      assert (working_composer_proven d = true) as Hp.
      { apply working_proven_true. split_and!; auto. by apply safe_composer_true. }
      split_and!; try done; [congruence|by right].
Qed.

(** A verdict allows a write exactly on positive evidence: the pane is in no
    mode, nothing staged is held, the reading is fresh, and the screen shows a
    composer with no human text, while either every sensor reads idle without
    disagreement and not on a hook's word, or the screen itself shows the turn
    running and nothing contradicts it. *)
Theorem write_ready_means d in_mode hold :
  det_write_ready (stamped d in_mode hold) = true ↔ write_evidence d in_mode hold.
Proof. apply ready_evidence. Qed.

(** Restamping looks only at the sensors: whatever refusal was named before is
    forgotten. *)
Lemma stamped_with_verdict d ready block in_mode hold :
  stamped (with_verdict d ready block) in_mode hold = stamped d in_mode hold.
Proof. by destruct d, in_mode. Qed.
Lemma stamped_again d m h m' h' : stamped (stamped d m h) m' h' = stamped d m' h'.
Proof.
  unfold stamped at 2. destruct m; [apply stamped_with_verdict|]. unfold with_write_block.
  destruct (base_write_ready d); cbn; [|by rewrite stamped_with_verdict].
  destruct (refuses h); by rewrite ?stamped_with_verdict.
Qed.
Theorem stamp_forgets_refusal d reason in_mode hold :
  det_write_ready (stamped (refused d reason) in_mode hold) = det_write_ready (stamped d in_mode hold).
Proof. unfold refused. by rewrite stamped_with_verdict. Qed.

(** ** Holds *)
(** What releases a hold: the process died; or a turn took the text and is over,
    by its exact end where one is known, and the screen shows a safe composer
    without human input. *)
Lemma hold_release h d ended :
  hold_advance h d ended = HoldClear ↔
  det_state d = SDead ∨
  (input_seen d = false ∧
   (h = HoldClear ∨
    (∃ since, h = HoldTurnStarted since) ∧ Forall (λ r, sr_state r ≠ SWorking) (det_readings d) ∧
    screen_proves_write_safe_composer d = true ∧
    match ended with Some e => e = true | None => det_state d = SIdle end)).
Proof.
  rewrite <- turn_running_none. unfold hold_advance. case_bool_decide as Hd; [naive_solver|].
  destruct (input_seen d).
  - destruct h, (turn_running_at d); naive_solver.
  - destruct h as [| | |since], (turn_running_at d) as [ts|]; try naive_solver.
    destruct (screen_proves_write_safe_composer d).
    + rewrite andb_true_r. destruct ended as [[]|]; cbn; try naive_solver.
      case_bool_decide; naive_solver.
    + rewrite andb_false_r. naive_solver.
Qed.
(** Text once staged is never seen as gone by one frame: it takes a turn. *)
Lemma hold_waiting_kept h d ended :
  is_waiting h = true → det_state d ≠ SDead → hold_advance h d ended ≠ HoldClear.
Proof. intros Hw Hd E. apply hold_release in E. destruct h; naive_solver. Qed.

(** ** Reasons *)
(** A reason and its wire word determine each other, a word of a newer daemon
    included; the reason shown is one of the candidates and none is more specific. *)
Theorem reasons_round_trip raw r candidates :
  reason_as_str (reason_from raw) = raw ∧ (r ∈ known_reasons → reason_from (reason_as_str r) = r) ∧
  match most_specific candidates with
  | Some best => best ∈ candidates ∧ Forall (λ c, reason_rank best ≤ reason_rank c) candidates
  | None => candidates = []
  end.
Proof.
  split_and!.
  - unfold reason_from. destruct (List.filter _ known_reasons) as [|x l] eqn:E; [done|]. cbn.
    assert (In x (List.filter (λ r, bool_decide (reason_as_str r = raw)) known_reasons)) as Hx
      by (rewrite E; by left).
    by apply List.filter_In in Hx as [_ ?%bool_decide_eq_true].
  - intros Hr. repeat (apply elem_of_cons in Hr as [-> | Hr]; [vm_compute; reflexivity|]). by apply elem_of_nil in Hr.
  - induction candidates as [|c l IH]; [done|]. cbn [most_specific]. destruct (most_specific l) as [best|]; [|subst l].
    + destruct IH as [Hin Hall]. destruct (N.ltb_spec (reason_rank best) (reason_rank c)) as [Hlt|Hge].
      * split; [by apply list_elem_of_further|]. constructor; [lia|done].
      * split; [apply list_elem_of_here|]. constructor; [lia|]. eapply Forall_impl; [exact Hall|]. cbn. lia.
    + split; [apply list_elem_of_here|]. repeat constructor. lia.
Qed.
