(* ===== verification/Utf8.v ===== *)
(** * UTF-8

    The two directions of UTF-8 are inverse on scalar values, decoding goes
    piece by piece, and [String::from_utf8_lossy], which the tmux parser falls
    back to, agrees with strict decoding where that succeeds.  Also the full
    [str::parse] of unsigned integers. *)
From S2P Require Import Prelude Text.
Local Open Scope N_scope.

(** ** Lossy decoding

    Each maximal prefix of a character that is not completed becomes one
    U+FFFD. *)
Definition REPLACEMENT : rchar := 65533.
Definition second_of_three (a b : N) : bool :=
  ((a =? 224) && in_range 160 191 b) || (in_range 225 236 a && in_range 128 191 b) ||
  ((a =? 237) && in_range 128 159 b) || (in_range 238 239 a && in_range 128 191 b).
Definition second_of_four (a b : N) : bool :=
  ((a =? 240) && in_range 144 191 b) || (in_range 241 243 a && in_range 128 191 b) ||
  ((a =? 244) && in_range 128 143 b).
Fixpoint from_utf8_lossy (bytes : list N) : rstr :=
  match bytes with
  | [] => []
  | a :: rest =>
      if a <? 128 then a :: from_utf8_lossy rest
      else match rest with
      | [] => [REPLACEMENT]
      | b :: rest' =>
          if in_range 194 223 a then
            if is_continuation b then ((a - 192) * 64 + (b - 128)) :: from_utf8_lossy rest'
            else REPLACEMENT :: from_utf8_lossy rest
          else if second_of_three a b then
            match rest' with
            | [] => [REPLACEMENT]
            | c :: rest'' =>
                if is_continuation c then
                  ((a - 224) * 4096 + (b - 128) * 64 + (c - 128)) :: from_utf8_lossy rest''
                else REPLACEMENT :: from_utf8_lossy rest'
            end
          else if second_of_four a b then
            match rest' with
            | [] => [REPLACEMENT]
            | c :: rest'' =>
                if is_continuation c then
                  match rest'' with
                  | [] => [REPLACEMENT]
                  | d :: rest''' =>
                      if is_continuation d then
                        ((a - 240) * 262144 + (b - 128) * 4096 + (c - 128) * 64 + (d - 128))
                          :: from_utf8_lossy rest'''
                      else REPLACEMENT :: from_utf8_lossy rest''
                  end
                else REPLACEMENT :: from_utf8_lossy rest'
            end
          else REPLACEMENT :: from_utf8_lossy rest
      end
  end.

(** [str::parse] for [u32] and [u64]: an optional plus sign, then digits. *)
Definition parse_unsigned (max : N) (s : rstr) : option N :=
  let digits := match s with 43 :: (d :: rest) => d :: rest | _ => s end in
  let n := foldl dec_step 0 digits in
  if bool_decide (digits = []) || negb (forallb is_ascii_digit digits) then None
  else if n <=? max then Some n else None.
Definition parse_u32 : rstr → option N := parse_unsigned u32_max.
Definition parse_u64 : rstr → option N := parse_unsigned u64_max.

(** ** Strict decoding *)
Local Ltac Zify.zify_post_hook ::= Z.to_euclidean_division_equations.

Lemma in_range_true lo hi c : in_range lo hi c = true ↔ lo ≤ c ≤ hi.
Proof. unfold in_range. rewrite andb_true_iff, !N.leb_le. done. Qed.
Lemma in_range_false lo hi c : in_range lo hi c = false ↔ c < lo ∨ hi < c.
Proof. unfold in_range. rewrite andb_false_iff, !N.leb_gt. done. Qed.
Lemma is_scalar_true c : is_scalar c = true ↔ c < 55296 ∨ 57344 ≤ c ≤ 1114111.
Proof. unfold is_scalar. rewrite orb_true_iff, N.ltb_lt, in_range_true. done. Qed.

(** Decides each test of the decoder from the arithmetic in context. *)
Ltac decide_tests :=
  repeat match goal with
  | |- context [?a <? ?b] =>
      first [rewrite (proj2 (N.ltb_lt a b)) by lia | rewrite (proj2 (N.ltb_ge a b)) by lia]
  | |- context [in_range ?lo ?hi ?c] =>
      first [rewrite (proj2 (in_range_true lo hi c)) by lia
            |rewrite (proj2 (in_range_false lo hi c)) by lia]
  | |- context [is_continuation ?c] => unfold is_continuation
  | |- context [is_scalar ?c] => rewrite (proj2 (is_scalar_true c)) by lia
  | _ => progress cbn [negb andb orb]
  end.

Lemma utf8_decode_char c l :
  is_scalar c = true → utf8_decode (utf8_char c ++ l) = cons c <$> utf8_decode l.
Proof.
  intros Hc%is_scalar_true. unfold utf8_char.
  destruct (N.ltb_spec c 128); [|destruct (N.ltb_spec c 2048); [|destruct (N.ltb_spec c 65536)]];
    cbn [app utf8_decode]; decide_tests; [done|f_equal; f_equal; lia..].
Qed.

Definition scalars (s : rstr) : Prop := Forall (λ c, is_scalar c = true) s.
Lemma utf8_decode_app s l : scalars s → utf8_decode (utf8_bytes s ++ l) = app s <$> utf8_decode l.
Proof.
  intros Hs. unfold utf8_bytes. induction Hs as [|c s Hc Hs IH]; cbn.
  - by destruct (utf8_decode l).
  - rewrite <-app_assoc, utf8_decode_char by done. change (mjoin (utf8_char <$> s)) with (utf8_bytes s) in *.
    unfold utf8_bytes in *. cbn in IH. rewrite IH. by destruct (utf8_decode l).
Qed.
Lemma utf8_decode_bytes s : scalars s → utf8_decode (utf8_bytes s) = Some s.
Proof. intros H. rewrite <-(app_nil_r (utf8_bytes s)), utf8_decode_app by done. cbn. by rewrite app_nil_r. Qed.

(** What one decoding step consumed. *)
Lemma utf8_decode_step bytes s :
  bytes ≠ [] → utf8_decode bytes = Some s →
  ∃ c rest s', bytes = utf8_char c ++ rest ∧ s = c :: s' ∧ is_scalar c = true ∧
    utf8_decode rest = Some s'.
Proof.
  destruct bytes as [|a rest]; [done|]. intros _. cbn [utf8_decode].
  destruct (N.ltb_spec a 128) as [Ha|Ha].
  { intros (s' & Hs & ->)%fmap_Some. exists a, rest, s'. split_and!; try done.
    - unfold utf8_char. by destruct (N.ltb_spec a 128); [|lia].
    - apply is_scalar_true. lia. }
  destruct rest as [|b rest]; [done|].
  destruct (is_continuation b) eqn:Hb; [|done]. apply in_range_true in Hb. cbn [negb].
  destruct (in_range 194 223 a) eqn:Ha2.
  { apply in_range_true in Ha2. intros (s' & Hs & ->)%fmap_Some. eexists _, rest, s'.
    split_and!; [|done| |done].
    - unfold utf8_char. decide_tests. cbn. f_equal; [|f_equal]; lia.
    - apply is_scalar_true. lia. }
  apply in_range_false in Ha2.
  destruct rest as [|c rest]; [done|].
  destruct (is_continuation c) eqn:Hc; [|done]. apply in_range_true in Hc. cbn [negb].
  destruct (in_range 224 239 a) eqn:Ha3.
  { apply in_range_true in Ha3. set (n := _ + (c - 128)). destruct (N.ltb_spec n 2048); [done|].
    destruct (is_scalar n) eqn:Hn; [|done]. cbn. intros (s' & Hs & ->)%fmap_Some. exists n, rest, s'.
    split_and!; try done. unfold utf8_char, n in *. decide_tests. cbn. f_equal; [|f_equal; [|f_equal]]; lia. }
  apply in_range_false in Ha3.
  destruct rest as [|d rest]; [done|].
  destruct (is_continuation d) eqn:Hd; [|done]. apply in_range_true in Hd. cbn [negb andb].
  destruct (in_range 240 244 a) eqn:Ha4; [|done]. apply in_range_true in Ha4. cbn [negb orb].
  set (n := _ + (d - 128)). destruct (N.ltb_spec n 65536); [done|].
  destruct (is_scalar n) eqn:Hn; [|done]. cbn. intros (s' & Hs & ->)%fmap_Some. exists n, rest, s'.
  split_and!; try done. unfold utf8_char, n in *. decide_tests. cbn.
  f_equal; [|f_equal; [|f_equal; [|f_equal]]]; lia.
Qed.

(** Strict decoding accepts exactly the encodings of scalar values. *)
Lemma utf8_decode_Some bytes s : utf8_decode bytes = Some s ↔ bytes = utf8_bytes s ∧ scalars s.
Proof.
  split; [|by intros [-> Hs]; apply utf8_decode_bytes].
  revert bytes. induction s as [|c s IH]; intros bytes H.
  - destruct bytes as [|a rest]; [by repeat constructor|].
    by apply utf8_decode_step in H as (? & ? & ? & _ & ? & _).
  - destruct bytes as [|a rest]; [done|].
    apply utf8_decode_step in H as (c' & rest' & s' & -> & [= -> ->] & Hc & Hs); [|done].
    apply IH in Hs as [-> Hs]. split; [done|by constructor].
Qed.

(** Lossy decoding loses nothing where strict decoding succeeds. *)
Lemma second_of_three_true a b :
  second_of_three a b = true ↔
  224 ≤ a ≤ 239 ∧ 128 ≤ b ≤ 191 ∧ (a = 224 → 160 ≤ b) ∧ (a = 237 → b ≤ 159).
Proof.
  unfold second_of_three. rewrite !orb_true_iff, !andb_true_iff, !in_range_true, !N.eqb_eq. lia.
Qed.
Lemma second_of_four_true a b :
  second_of_four a b = true ↔
  240 ≤ a ≤ 244 ∧ 128 ≤ b ≤ 191 ∧ (a = 240 → 144 ≤ b) ∧ (a = 244 → b ≤ 143).
Proof.
  unfold second_of_four. rewrite !orb_true_iff, !andb_true_iff, !in_range_true, !N.eqb_eq. lia.
Qed.
Lemma second_of_three_false a b : 240 ≤ a → second_of_three a b = false.
Proof. intros Ha. apply not_true_iff_false. rewrite second_of_three_true. lia. Qed.
Lemma lossy_two a b l :
  194 ≤ a ≤ 223 → 128 ≤ b ≤ 191 →
  from_utf8_lossy (a :: b :: l) = ((a - 192) * 64 + (b - 128)) :: from_utf8_lossy l.
Proof.
  intros Ha Hb. cbn [from_utf8_lossy]. unfold is_continuation.
  rewrite (proj2 (N.ltb_ge a 128)), (proj2 (in_range_true 194 223 a)) by lia.
  by rewrite (proj2 (in_range_true 128 191 b)).
Qed.
Lemma lossy_three a b c l :
  second_of_three a b = true → 128 ≤ c ≤ 191 →
  from_utf8_lossy (a :: b :: c :: l) =
  ((a - 224) * 4096 + (b - 128) * 64 + (c - 128)) :: from_utf8_lossy l.
Proof.
  intros H Hc. pose proof (proj1 (second_of_three_true _ _) H). cbn [from_utf8_lossy]. unfold is_continuation.
  rewrite (proj2 (N.ltb_ge a 128)), (proj2 (in_range_false 194 223 a)), H by lia.
  by rewrite (proj2 (in_range_true 128 191 c)).
Qed.
Lemma lossy_four a b c d l :
  second_of_four a b = true → 128 ≤ c ≤ 191 → 128 ≤ d ≤ 191 →
  from_utf8_lossy (a :: b :: c :: d :: l) =
  ((a - 240) * 262144 + (b - 128) * 4096 + (c - 128) * 64 + (d - 128)) :: from_utf8_lossy l.
Proof.
  intros H Hc Hd. pose proof (proj1 (second_of_four_true _ _) H). cbn [from_utf8_lossy].
  unfold is_continuation.
  rewrite (proj2 (N.ltb_ge a 128)), (proj2 (in_range_false 194 223 a)) by lia.
  rewrite (second_of_three_false a b), H by lia.
  by rewrite (proj2 (in_range_true 128 191 c)), (proj2 (in_range_true 128 191 d)).
Qed.
Lemma from_utf8_lossy_char c l :
  is_scalar c = true → from_utf8_lossy (utf8_char c ++ l) = c :: from_utf8_lossy l.
Proof.
  intros Hc%is_scalar_true. unfold utf8_char.
  destruct (N.ltb_spec c 128) as [H|H]; [|destruct (N.ltb_spec c 2048); [|destruct (N.ltb_spec c 65536)]];
    cbn [app].
  - cbn [from_utf8_lossy]. by rewrite (proj2 (N.ltb_lt c 128)).
  - rewrite lossy_two by lia. f_equal. lia.
  - rewrite lossy_three; [f_equal; lia| |lia]. apply second_of_three_true. split_and!; lia.
  - rewrite lossy_four; [f_equal; lia| |lia|lia]. apply second_of_four_true. split_and!; lia.
Qed.
Lemma from_utf8_lossy_bytes s : scalars s → from_utf8_lossy (utf8_bytes s) = s.
Proof.
  induction 1 as [|c s Hc Hs IH]; [done|]. change (utf8_bytes (c :: s)) with (utf8_char c ++ utf8_bytes s).
  rewrite from_utf8_lossy_char by done. by rewrite IH.
Qed.

(** ** ASCII and splitting *)
Definition ascii (s : rstr) : Prop := Forall (λ c, c < 128) s.
Lemma ascii_bytes s : ascii s → utf8_bytes s = s.
Proof.
  induction 1 as [|c s Hc Hs IH]; [done|]. change (utf8_bytes (c :: s)) with (utf8_char c ++ utf8_bytes s).
  rewrite IH. unfold utf8_char. by destruct (N.ltb_spec c 128); [|lia].
Qed.
Lemma ascii_scalars s : ascii s → scalars s.
Proof. intros H. eapply Forall_impl; [exact H|]. intros c Hc. cbn in Hc. apply is_scalar_true. lia. Qed.
Lemma utf8_bytes_app s t : utf8_bytes (s ++ t) = utf8_bytes s ++ utf8_bytes t.
Proof. unfold utf8_bytes. by rewrite fmap_app, join_app. Qed.
Lemma utf8_bytes_ascii_in c s : c < 128 → c ∈ utf8_bytes s → c ∈ s.
Proof.
  intros Hc H. unfold utf8_bytes in H. apply list_elem_of_join in H as (l & Hin & Hl).
  apply list_elem_of_fmap in Hl as (d & -> & Hd). unfold utf8_char in Hin.
  destruct (N.ltb_spec d 128); [by apply list_elem_of_singleton in Hin as ->|].
  destruct (N.ltb_spec d 2048); [|destruct (N.ltb_spec d 65536)];
    repeat (apply elem_of_cons in Hin as [-> |Hin]; [lia|]); by apply not_elem_of_nil in Hin.
Qed.

(** ** Parsing integers *)
Lemma parse_unsigned_dec max n : n ≤ max → parse_unsigned max (dec_string n) = Some n.
Proof.
  intros Hn. unfold parse_unsigned.
  pose proof (dec_string_digits n) as Hd. pose proof (dec_string_nonempty n) as Hne.
  pose proof (dec_string_value n) as Hv. destruct (dec_string n) as [|c s]; [done|].
  assert (c ≠ 43) by (apply Forall_cons in Hd as [Hd%in_range_true _]; lia).
  replace (match c :: s with 43 :: d :: rest => d :: rest | _ => c :: s end) with (c :: s).
  2:{ repeat (destruct c as [|c] || destruct c as [c|c|]; try done). }
  rewrite bool_decide_eq_false_2 by done. rewrite (proj2 (List.forallb_forall _ _)).
  2:{ intros x Hx%list_elem_of_In. by apply (Forall_elem _ _ _ Hd). }
  cbn [orb negb]. rewrite Hv. by destruct (N.leb_spec n max); [|lia].
Qed.
