(* ===== verification/Manifests.v ===== *)
(** * Manifests

    [src/cyclops-manifest/src/lib.rs]: what the daemon knows about a vendor's
    command line.  The data of a manifest, its validation ([parse]), the rules
    over title and screen with their evaluation, and the lifecycle events its
    hooks name.

    TOML reading is done by the [toml] crate and serde: the model starts at the
    raw manifest they produce.  Regular expressions are the [regex] crate's: a
    compiled expression is its pattern, and the class [Regexes] says which patterns
    compile and what they match.  The message texts of refusals are values of
    [Why]; the path of the file and the digest of its bytes are left out. *)
From S2P Require Import Prelude Text Identity Ledger AttentionRegister Detection Utf8.
Local Open Scope N_scope.
Local Open Scope rust_scope.

(** ** Regular expressions *)
Record Regex := MkRegex { rx_pattern : rstr }.
(** Offsets are in bytes.  [find_at r s n] is the leftmost match that starts at
    [n] or later. *)
Class Regexes := {
  regex_valid : rstr → bool;
  is_match : Regex → rstr → bool;
  find_at : Regex → rstr → N → option (N * N);
  capture_names : Regex → list rstr;
}.
(** [p.replace("\\x{", "\\u{")]. *)
Fixpoint translated (p : rstr) : rstr :=
  match p with
  | 92 :: 120 :: 123 :: rest => 92 :: 117 :: 123 :: translated rest
  | c :: rest => c :: translated rest
  | [] => []
  end.
Definition regex_new `{Regexes} (p : rstr) : option Regex :=
  if regex_valid (translated p) then Some (MkRegex (translated p)) else None.

(** ** Text *)
Definition to_ascii_lowercase (s : rstr) : rstr :=
  (λ c, if is_ascii_uppercase c then c + 32 else c) <$> s.
Definition eq_ignore_ascii_case (a b : rstr) : bool :=
  bool_decide (to_ascii_lowercase a = to_ascii_lowercase b).
(** [str::contains]. *)
Fixpoint contains (pat s : rstr) : bool :=
  starts_with pat s || match s with [] => false | _ :: s => contains pat s end.
Definition ends_with (p s : rstr) : bool := bool_decide (is_Some (strip_suffix p s)).
Definition blank (s : rstr) : bool := bool_decide (trim s = []).
(** The characters of the first [n] bytes. *)
Fixpoint take_bytes (n : N) (s : rstr) : rstr :=
  match s with
  | [] => []
  | c :: s => if utf8_width c <=? n then c :: take_bytes (n - utf8_width c) s else []
  end.
Definition newlines (s : rstr) : nat := length (List.filter (λ c, c =? 10) s).

(** ** Data *)
Record AgentMeta := MkAgentMeta {
  ag_id : rstr;
  ag_display_name : rstr;
  ag_version_tested : rstr;
  ag_process_names : list rstr;
  ag_argv_basenames : list rstr;
  ag_launch : option rstr;
}.
Inductive LifecycleRole := RoleStart | RoleEnd.
#[export] Instance LifecycleRole_eq_dec : EqDecision LifecycleRole.
Proof. solve_decision. Defined.
Inductive LifecycleCertainty := CertCandidate | CertConfirmed.
#[export] Instance LifecycleCertainty_eq_dec : EqDecision LifecycleCertainty.
Proof. solve_decision. Defined.
Inductive AckEvidence := AckReceipt | AckDispatch.
#[export] Instance AckEvidence_eq_dec : EqDecision AckEvidence.
Proof. solve_decision. Defined.
Inductive WiringShape :=
| ClaudeSettings | ClaudeHooksFile | Copilot | HermesYaml | VibeToml | Autohand | KiroAgent | Tabnine | Openhands.
#[export] Instance WiringShape_eq_dec : EqDecision WiringShape.
Proof. solve_decision. Defined.
Definition shape_ALL : list WiringShape :=
  [ClaudeSettings; ClaudeHooksFile; Copilot; HermesYaml; VibeToml; Autohand; KiroAgent; Tabnine; Openhands].
Definition shape_name (s : WiringShape) : rstr :=
  match s with
  | ClaudeSettings => str "claude-settings"
  | ClaudeHooksFile => str "claude-hooks-file"
  | Copilot => str "copilot"
  | HermesYaml => str "hermes-yaml"
  | VibeToml => str "vibe-toml"
  | Autohand => str "autohand"
  | KiroAgent => str "kiro-agent"
  | Tabnine => str "tabnine"
  | Openhands => str "openhands"
  end.
Definition shape_from_name (name : rstr) : option WiringShape :=
  List.find (λ s, bool_decide (shape_name s = name)) shape_ALL.
Inductive WiringEvent := EvSessionStart | EvPromptSubmit | EvStop | EvNotification | EvPermissionRequest.
#[export] Instance WiringEvent_eq_dec : EqDecision WiringEvent.
Proof. solve_decision. Defined.
Definition event_ALL : list WiringEvent :=
  [EvSessionStart; EvPromptSubmit; EvStop; EvNotification; EvPermissionRequest].
Record WiringEvents := MkWiringEvents {
  we_session_start : option rstr;
  we_prompt_submit : option rstr;
  we_stop : option rstr;
  we_notification : option rstr;
  we_permission_request : option rstr;
}.
Definition event_get (e : WiringEvents) (event : WiringEvent) : option rstr :=
  match event with
  | EvSessionStart => we_session_start e
  | EvPromptSubmit => we_prompt_submit e
  | EvStop => we_stop e
  | EvNotification => we_notification e
  | EvPermissionRequest => we_permission_request e
  end.
Definition declared_events (e : WiringEvents) : list (WiringEvent * rstr) :=
  omap (λ event, pair event <$> event_get e event) event_ALL.
Record HookWiring := MkHookWiring {
  hw_shape : WiringShape;
  hw_file : rstr;
  hw_events : WiringEvents;
  hw_payload_prompt_field : option rstr;
}.
Record Hooks := MkHooks {
  hk_config_mechanism : rstr;
  hk_turn_start : option rstr;
  hk_turn_start_evidence : LifecycleCertainty;
  hk_turn_end : option rstr;
  hk_turn_end_evidence : LifecycleCertainty;
  hk_turn_end_confirmed : list rstr;
  hk_turn_end_settle_ms : N;
  hk_ack : option rstr;
  hk_ack_evidence : AckEvidence;
  hk_available : list rstr;
  hk_ack_payload_field : option rstr;
  hk_turn_key_fields : list rstr;
  hk_settings_flag : option rstr;
  hk_wiring : option HookWiring;
}.
Inductive Region := PaneTitle | BottomNonEmptyLines (n : N).
#[export] Instance Region_eq_dec : EqDecision Region.
Proof. solve_decision. Defined.
(** [P] is a pattern: its text, or the compiled expression. *)
Record Matcher (P : Type) := MkMatcher {
  ma_unstyled_only : bool;
  ma_contains : list rstr;
  ma_regex : list P;
  ma_line_regex : list P;
  ma_line_regex_esc : list P;
  ma_regex_esc : list P;
}.
Arguments MkMatcher {P}.
Arguments ma_unstyled_only {P}.
Arguments ma_contains {P}.
Arguments ma_regex {P}.
Arguments ma_line_regex {P}.
Arguments ma_line_regex_esc {P}.
Arguments ma_regex_esc {P}.
Definition RawMatcher := Matcher rstr.
Definition CompiledMatcher := Matcher Regex.
Record RawRule := MkRawRule {
  rr_id : rstr;
  rr_state : rstr;
  rr_composer_semantic : option ComposerSemantic;
  rr_priority : Z;
  rr_region : rstr;
  rr_lifecycle_evidence : bool;
  rr_active_start_terminal : bool;
  rr_any : list RawMatcher;
  rr_matcher : RawMatcher;
  rr_decline_keys : list rstr;
  rr_auto_dismiss : bool;
}.
Record CompiledRule := MkCompiledRule {
  cr_id : rstr;
  cr_state : AgentState;
  cr_composer_semantic : option ComposerSemantic;
  cr_priority : Z;
  cr_region : Region;
  cr_lifecycle_evidence : bool;
  cr_active_start_terminal : bool;
  cr_matcher : CompiledMatcher;
  cr_any : list CompiledMatcher;
  cr_decline_keys : list rstr;
  cr_auto_dismiss : bool;
}.
(** The fields that [parse] and delivery read; the measurement metadata is left
    out. *)
Record Injection := MkInjection {
  in_submit : rstr;
  in_clear_keys : list rstr;
  in_composer_trailer_regex : list rstr;
  in_composer_trailer_regex_esc : list rstr;
  in_unstyled_composer_proof : bool;
  in_composer_trailer_required_prefix : N;
  in_composer_chip_regex : list rstr;
  in_composer_chip_regex_esc : list rstr;
  in_composer_prompt_regex : option rstr;
  in_composer_continuation_regex : option rstr;
}.
Record RawManifest := MkRawManifest {
  rm_agent : AgentMeta;
  rm_hooks : Hooks;
  rm_rules : list RawRule;
  rm_injection : Injection;
}.
Record Manifest := MkManifest {
  mf_agent : AgentMeta;
  mf_hooks : Hooks;
  mf_rules : list CompiledRule;
  mf_injection : Injection;
  mf_composer_trailers : list Regex;
  mf_composer_trailers_esc : list Regex;
  mf_composer_chips : list Regex;
  mf_composer_chips_esc : list Regex;
  mf_composer_prompt : option Regex;
  mf_composer_continuation : option Regex;
}.

(** ** Errors *)
Inductive Why :=
| WhyNoName (field name : rstr)
| WhyConfirmedNoName (event : rstr)
| WhyStartIsEnd (event : rstr)
| WhyAckIsEnd (event : rstr)
| WhyBothRoles (event : rstr)
| WhyAckIsLifecycleEnd (event : rstr)
| WhyKeyWithoutEvents
| WhyKeyEmptyField
| WhyKeyDuplicate (field : rstr)
| WhyCandidateNeedsKey
| WhyCandidateNeedsSettle
| WhyDispatchIncomplete
| WhyUnpairedRegex (rule : rstr) (esc plain : N)
| WhyContentRow (field : rstr)
| WhyContentPair
| WhyUnstyledProof
| WhyClearWithoutExtraction
| WhyUnsafeKey (key : rstr)
| WhyWiringFile (file : rstr)
| WhyWiringRoot (file : rstr)
| WhyNoEvent
| WhyEventName (event : WiringEvent) (name : rstr)
| WhyPromptField.
Inductive ManifestError :=
| BadRegex (id rule pattern : rstr)
| BadRegion (id rule region : rstr)
| BadState (id rule state : rstr)
| BadTurnKey (id : rstr) (why : Why)
| BadHooks (id : rstr) (why : Why)
| BadInjection (id : rstr) (why : Why)
| BadWiring (id : rstr) (why : Why).

(** ** Lifecycle events *)
Definition normalize_event (event : rstr) : rstr :=
  to_ascii_lowercase (List.filter is_ascii_alphanumeric event).
Definition declared_name (e : option rstr) : option rstr :=
  name ← e; if blank name then None else Some name.
Definition named_event (e : option rstr) : option rstr := normalize_event <$> declared_name e.
Definition lifecycle_event (h : Hooks) (event : rstr) : option (LifecycleRole * LifecycleCertainty) :=
  let event := normalize_event event in
  let same name := bool_decide (normalize_event name = event) in
  if existsb same (hk_turn_end_confirmed h) then Some (RoleEnd, CertConfirmed)
  else if match hk_turn_start h with Some name => same name | None => false end
  then Some (RoleStart, hk_turn_start_evidence h)
  else if match hk_turn_end h with Some name => same name | None => false end
  then Some (RoleEnd, hk_turn_end_evidence h)
  else None.
Definition has_lifecycle_role (h : Hooks) (role : LifecycleRole) : bool :=
  let declared e := match e with Some name => negb (blank name) | None => false end in
  match role with
  | RoleStart => declared (hk_turn_start h)
  | RoleEnd => declared (hk_turn_end h) || negb (bool_decide (hk_turn_end_confirmed h = []))
  end.
Definition lifecycle_names (h : Hooks) : list rstr :=
  hk_turn_end_confirmed h ++ option_list (hk_turn_start h) ++ option_list (hk_turn_end h).

(** The first role whose name reduces to nothing. *)
Definition no_comparable_name (field : rstr * option rstr) : option Why :=
  name ← declared_name field.2;
  if bool_decide (normalize_event name = []) then Some (WhyNoName field.1 name) else None.
Fixpoint first_some {A B} (f : A → option B) (l : list A) : option B :=
  match l with [] => None | a :: l => match f a with Some b => Some b | None => first_some f l end end.
Definition lifecycle_roles (h : Hooks) : list (rstr * LifecycleRole) :=
  ((λ e, (e, RoleStart)) <$> option_list (named_event (hk_turn_start h))) ++
  ((λ e, (e, RoleEnd)) <$> option_list (named_event (hk_turn_end h))) ++
  ((λ e, (normalize_event e, RoleEnd)) <$> hk_turn_end_confirmed h).
(** The first event that an earlier one names with the other role. *)
Fixpoint role_conflict (prior roles : list (rstr * LifecycleRole)) : option rstr :=
  match roles with
  | [] => None
  | (event, role) :: rest =>
      if existsb (λ p, bool_decide (p.1 = event) && negb (bool_decide (p.2 = role))) prior then Some event
      else role_conflict (prior ++ [(event, role)]) rest
  end.
Definition same_event (a b : option rstr) : option rstr :=
  match a, b with Some a, Some b => if bool_decide (a = b) then Some b else None | _, _ => None end.
Definition or_why (a b : option Why) : option Why := match a with Some w => Some w | None => b end.
Definition colliding_turn_roles (h : Hooks) : option Why :=
  let ack := named_event (hk_ack h) in
  let ends := named_event (hk_turn_end h) in
  or_why (first_some no_comparable_name
            [(str "turn_start", hk_turn_start h); (str "turn_end", hk_turn_end h); (str "ack", hk_ack h)])
  (or_why (first_some (λ e, if bool_decide (normalize_event e = []) then Some (WhyConfirmedNoName e) else None)
             (hk_turn_end_confirmed h))
  (or_why (WhyStartIsEnd <$> same_event (named_event (hk_turn_start h)) ends)
  (or_why (WhyAckIsEnd <$> same_event ack ends)
  (or_why (WhyBothRoles <$> role_conflict [] (lifecycle_roles h))
  match ack with
  | Some ack =>
      if existsb (λ p, bool_decide (p.2 = RoleEnd) && bool_decide (p.1 = ack)) (lifecycle_roles h)
      then Some (WhyAckIsLifecycleEnd ack) else None
  | None => None
  end)))).

(** ** Wiring *)
Definition home_relative (w : HookWiring) : option rstr := strip_prefix (str "~/") (hw_file w).
Inductive WiringScope := ScopeHome | ScopeProject.
Definition wiring_scope (w : HookWiring) : WiringScope :=
  if starts_with (str "~/") (hw_file w) then ScopeHome else ScopeProject.
(** [Path::components] are all [Normal]: no root, no leading dot, no dot-dot.
    Empty pieces and later dots are no components. *)
Definition all_components_normal (path : rstr) : bool :=
  let pieces := split_char 47 path in
  negb (starts_with [47] path) && negb (bool_decide (head pieces = Some [46])) &&
  negb (bool_decide ([46; 46] ∈ pieces)).
Definition plain_event_name (name : rstr) : bool :=
  negb (bool_decide (name = [])) &&
  forallb (λ c, is_ascii_alphanumeric c || (c =? 95) || (c =? 45)) name.
Definition wiring_validate (w : HookWiring) : result Why () :=
  let file := hw_file w in
  bail (WhyWiringFile file) when starts_with [47] file || (starts_with [126] file && negb (starts_with (str "~/") file)) ;;
  let rest := default file (home_relative w) in
  bail (WhyWiringRoot file) when bool_decide (rest = []) || ends_with [47] rest || negb (all_components_normal rest) ;;
  let declared := declared_events (hw_events w) in
  bail WhyNoEvent when bool_decide (declared = []) ;;
  match List.find (λ d, negb (plain_event_name d.2)) declared with
  | Some (event, name) => Err (WhyEventName event name)
  | None =>
      bail WhyPromptField when bool_decide (is_Some (hw_payload_prompt_field w)) &&
        bool_decide (we_prompt_submit (hw_events w) = None) ;;
      Ok ()
  end.

(** ** Parsing *)
Definition region_parse (s : rstr) : option Region :=
  if bool_decide (s = str "pane_title") then Some PaneTitle
  else
    rest ← strip_prefix (str "bottom_non_empty_lines(") s;
    inner ← strip_suffix (str ")") rest;
    BottomNonEmptyLines <$> parse_u64 (trim inner).
Definition parse_state (s : rstr) : option AgentState :=
  snd <$> List.find (λ p, bool_decide (p.1 = s))
    [(str "unknown", SUnknown); (str "idle", SIdle); (str "idle_with_input", SIdleWithInput);
     (str "working", SWorking); (str "blocked_modal", SBlockedModal);
     (str "blocked_permission", SBlockedPermission); (str "blocked_quota", SBlockedQuota); (str "dead", SDead)].
Fixpoint map_result {E A B} (f : A → result E B) (l : list A) : result E (list B) :=
  match l with
  | [] => Ok []
  | a :: l => let? b := f a in let? bs := map_result f l in Ok (b :: bs)
  end.
(** [sort_by_key(|r| Reverse(r.priority))], a stable sort. *)
Definition by_priority (a b : CompiledRule) : Prop := (cr_priority b ≤ cr_priority a)%Z.
#[export] Instance by_priority_dec : RelDecision by_priority.
Proof. intros a b. unfold by_priority. apply _. Defined.
Definition sort_rules (rules : list CompiledRule) : list CompiledRule := stable_sort by_priority rules.
Section parse.
Context `{Regexes}.
Definition compile_pattern (id rule p : rstr) : result ManifestError Regex :=
  ok_or (regex_new p) (BadRegex id rule p).
Definition compile_patterns (id rule : rstr) : list rstr → result ManifestError (list Regex) :=
  map_result (compile_pattern id rule).
Definition compile_matcher (id rule : rstr) (raw : RawMatcher) : result ManifestError CompiledMatcher :=
  bail (BadInjection id (WhyUnpairedRegex rule (N.of_nat (length (ma_regex_esc raw)))
                           (N.of_nat (length (ma_regex raw)))))
    when negb (bool_decide (ma_regex_esc raw = [])) &&
         negb (bool_decide (length (ma_regex_esc raw) = length (ma_regex raw))) ;;
  let? regex := compile_patterns id rule (ma_regex raw) in
  let? line_regex := compile_patterns id rule (ma_line_regex raw) in
  let? line_regex_esc := compile_patterns id rule (ma_line_regex_esc raw) in
  let? regex_esc := compile_patterns id rule (ma_regex_esc raw) in
  Ok (MkMatcher (ma_unstyled_only raw) (ma_contains raw) regex line_regex line_regex_esc regex_esc).
Definition compile_rule (id : rstr) (r : RawRule) : result ManifestError CompiledRule :=
  let? state := ok_or (parse_state (rr_state r)) (BadState id (rr_id r) (rr_state r)) in
  let? region := ok_or (region_parse (rr_region r)) (BadRegion id (rr_id r) (rr_region r)) in
  let? matcher := compile_matcher id (rr_id r) (rr_matcher r) in
  let? any := map_result (compile_matcher id (rr_id r)) (rr_any r) in
  Ok (MkCompiledRule (rr_id r) state (rr_composer_semantic r) (rr_priority r) region (rr_lifecycle_evidence r)
        (rr_active_start_terminal r) matcher any (rr_decline_keys r) (rr_auto_dismiss r)).
Definition compile_content_row (id : rstr) (pattern : option rstr) (field : rstr)
    : result ManifestError (option Regex) :=
  match pattern with
  | None => Ok None
  | Some pattern =>
      let? compiled := compile_pattern id field pattern in
      bail (BadInjection id (WhyContentRow field)) when
        negb (starts_with [94] pattern) || negb (ends_with [36] pattern) ||
        negb (bool_decide (str "content" ∈ capture_names compiled)) ;;
      Ok (Some compiled)
  end.

(** [clear_key_name]: a named key or a modified chord that types no text. *)
Definition NAMED_NON_TEXT : list rstr :=
  str <$> ["escape"; "up"; "down"; "left"; "right"; "home"; "end"; "npage"; "ppage"]%string.
Definition NAMED_TEXT_OR_EDIT : list rstr :=
  str <$> ["space"; "bspace"; "backspace"; "tab"; "btab"; "dc"; "delete"; "ic"; "insert"; "enter"; "return";
           "kpenter"; "linefeed"]%string.
Definition function_key (base : rstr) : bool :=
  match strip_prefix (str "f") base ≫= parse_unsigned u8_max with
  | Some n => (1 <=? n) && (n <=? 24)
  | None => false
  end.
Definition clear_key_name (key : rstr) : bool :=
  let parts := split_char 45 (to_ascii_lowercase key) in
  match last parts with
  | None => false
  | Some base =>
      let modifiers := removelast parts in
      let named := bool_decide (base ∈ NAMED_NON_TEXT) || function_key base in
      if bool_decide (base ∈ NAMED_TEXT_OR_EDIT) then false
      else if existsb (λ m, negb (bool_decide (m ∈ [str "c"; str "m"; str "s"]))) modifiers then false
      else if bool_decide (str "c" ∈ modifiers) && bool_decide (base ∈ [str "m"; str "j"]) then false
      else if bool_decide (modifiers = []) then named
      else named || ((str_len base =? 1) && forallb is_ascii_graphic base)
  end.
Definition unsafe_clear_key (i : Injection) (key : rstr) : bool :=
  (str_len key <=? 1) || negb (forallb is_ascii_graphic key) || negb (clear_key_name key) ||
  eq_ignore_ascii_case key (in_submit i).

(** What [parse] asks of the turn key fields. *)
Fixpoint duplicate_field (prior fields : list rstr) : option rstr :=
  match fields with
  | [] => None
  | f :: rest => if bool_decide (f ∈ prior) then Some f else duplicate_field (prior ++ [f]) rest
  end.
Definition turn_key_why (h : Hooks) : option Why :=
  let key := hk_turn_key_fields h in
  if bool_decide (key = []) then None
  else if negb (has_lifecycle_role h RoleStart) || negb (has_lifecycle_role h RoleEnd)
  then Some WhyKeyWithoutEvents
  else if existsb blank key then Some WhyKeyEmptyField
  else WhyKeyDuplicate <$> duplicate_field [] key.
Definition candidate_start (h : Hooks) : bool :=
  bool_decide (is_Some (hk_turn_start h)) && bool_decide (hk_turn_start_evidence h = CertCandidate).
Definition candidate_end (h : Hooks) : bool :=
  bool_decide (is_Some (hk_turn_end h)) && bool_decide (hk_turn_end_evidence h = CertCandidate).
Definition has_text (o : option rstr) : bool := match o with Some s => negb (blank s) | None => false end.
Definition same_start_ack (h : Hooks) : bool :=
  match declared_name (hk_turn_start h), declared_name (hk_ack h) with
  | Some start, Some ack => bool_decide (normalize_event start = normalize_event ack)
  | _, _ => false
  end.
Definition unkeyed_start_dispatch (h : Hooks) : bool :=
  bool_decide (hk_turn_key_fields h = []) && candidate_start h && bool_decide (hk_turn_end h = None) &&
  bool_decide (hk_turn_end_confirmed h = []) && (hk_turn_end_settle_ms h =? 0) &&
  bool_decide (hk_ack_evidence h = AckDispatch) && has_text (hk_ack h) && has_text (hk_ack_payload_field h) &&
  same_start_ack h.
(** The checks of the hooks table, in order. *)
Definition hooks_validate (id : rstr) (h : Hooks) : result ManifestError () :=
  match colliding_turn_roles h with
  | Some why => Err (BadHooks id why)
  | None =>
      let? _ := match hk_wiring h with
                | Some w => result_map_err (BadWiring id) (wiring_validate w)
                | None => Ok ()
                end in
      match turn_key_why h with
      | Some why => Err (BadTurnKey id why)
      | None =>
          let unkeyed := bool_decide (hk_turn_key_fields h = []) && negb (unkeyed_start_dispatch h) in
          bail (BadTurnKey id WhyCandidateNeedsKey) when (candidate_start h || candidate_end h) && unkeyed ;;
          bail (BadHooks id WhyCandidateNeedsSettle) when candidate_end h && (hk_turn_end_settle_ms h =? 0) ;;
          bail (BadHooks id WhyDispatchIncomplete) when
            bool_decide (hk_ack_evidence h = AckDispatch) &&
            (negb (candidate_start h) || negb (has_text (hk_ack h)) || negb (has_text (hk_ack_payload_field h)) || unkeyed) ;;
          Ok ()
      end
  end.
Definition count_text (n : nat) : rstr := dec_string (N.of_nat n).
(** [Manifest::parse] after the TOML is read. *)
Definition parse (raw : RawManifest) : result ManifestError Manifest :=
  let id := ag_id (rm_agent raw) in
  let i := rm_injection raw in
  let? rules := map_result (compile_rule id) (rm_rules raw) in
  let? trailers := compile_patterns id (str "injection.composer_trailer_regex") (in_composer_trailer_regex i) in
  let? trailers_esc :=
    compile_patterns id (str "injection.composer_trailer_regex_esc") (in_composer_trailer_regex_esc i) in
  let? chips := compile_patterns id (str "injection.composer_chip_regex") (in_composer_chip_regex i) in
  let? chips_esc := compile_patterns id (str "injection.composer_chip_regex_esc") (in_composer_chip_regex_esc i) in
  let? prompt := compile_content_row id (in_composer_prompt_regex i) (str "injection.composer_prompt_regex") in
  let? continuation :=
    compile_content_row id (in_composer_continuation_regex i) (str "injection.composer_continuation_regex") in
  bail (BadInjection id WhyContentPair) when
    xorb (bool_decide (is_Some prompt)) (bool_decide (is_Some continuation)) ;;
  bail (BadInjection id WhyUnstyledProof) when
    in_unstyled_composer_proof i &&
    (negb (bool_decide (is_Some prompt)) || bool_decide (length trailers = O) ||
     (in_composer_trailer_required_prefix i =? 0)) ;;
  bail (BadInjection id WhyClearWithoutExtraction) when
    negb (bool_decide (in_clear_keys i = [])) && negb (bool_decide (is_Some prompt)) ;;
  match List.find (unsafe_clear_key i) (in_clear_keys i) with
  | Some key => Err (BadInjection id (WhyUnsafeKey key))
  | None =>
      bail (BadRegion id (str "injection.composer_chip_regex_esc")
              (count_text (length chips_esc) ++ str " escaped chip rows against " ++
               count_text (length chips) ++ str " plain"))
        when negb (bool_decide (length chips = length chips_esc)) ;;
      let required := in_composer_trailer_required_prefix i in
      let declares_layout := negb (bool_decide (length trailers = O)) || negb (bool_decide (length trailers_esc = O)) in
      bail (BadRegion id (str "injection.composer_trailer_required_prefix")
              (dec_string required ++ str " required of " ++ count_text (length trailers) ++ str " rows"))
        when (declares_layout || negb (required =? 0)) &&
             ((required =? 0) || (N.of_nat (length trailers) <? required)) ;;
      let? _ := hooks_validate id (rm_hooks raw) in
      bail (BadRegion id (str "injection.composer_trailer_regex_esc")
              (count_text (length trailers_esc) ++ str " escaped rows against " ++
               count_text (length trailers) ++ str " plain rows"))
        when declares_layout && negb (bool_decide (length trailers_esc = length trailers)) ;;
      Ok (MkManifest (rm_agent raw) (rm_hooks raw) (sort_rules rules) i trailers trailers_esc chips chips_esc
            prompt continuation)
  end.

(** ** Matching *)
Definition matcher_is_empty (m : CompiledMatcher) : bool :=
  bool_decide (length (ma_contains m) = O) && bool_decide (length (ma_regex m) = O) &&
  bool_decide (length (ma_line_regex m) = O) && bool_decide (length (ma_line_regex_esc m) = O) &&
  bool_decide (length (ma_regex_esc m) = O).
(** The offset at which each row starts in the joined text. *)
Fixpoint row_starts (at_ : N) (rows : list rstr) : list N :=
  match rows with [] => [] | row :: rows => at_ :: row_starts (at_ + str_len row + 1) rows end.
(** The row on which a match that starts exactly at [start] ends. *)
Definition match_end_line (r : Regex) (text : rstr) (start : N) : option nat :=
  '(s, e) ← find_at r text start;
  if s =? start then Some (newlines (take_bytes e text)) else None.
Definition paired_spans_match (plain esc : list Regex) (lines esc_lines : list rstr) : bool :=
  if bool_decide (length esc = O) then true
  else if negb (bool_decide (length plain = length esc)) || negb (bool_decide (length lines = length esc_lines)) then false
  else
    let joined_plain := join [10] lines in
    let joined_esc := join [10] esc_lines in
    forallb (λ '(p, e),
      existsb (λ '(sp, se),
        match match_end_line p joined_plain sp, match_end_line e joined_esc se with
        | Some a, Some b => Nat.eqb a b
        | _, _ => false
        end) (zip (row_starts 0 lines) (row_starts 0 esc_lines))) (zip plain esc).
Definition matcher_matches (m : CompiledMatcher) (joined : rstr) (lines : list rstr)
    (esc_lines : option (list rstr)) : bool :=
  if matcher_is_empty m then false
  else if ma_unstyled_only m &&
          match esc_lines with Some rows => existsb (λ row, bool_decide (27 ∈ row)) rows | None => true end
  then false
  else
    (if bool_decide (length (ma_line_regex_esc m) = O) && bool_decide (length (ma_regex_esc m) = O) then true
     else match esc_lines with
          | Some el =>
              forallb (λ r, existsb (is_match r) el) (ma_line_regex_esc m) &&
              paired_spans_match (ma_regex m) (ma_regex_esc m) lines el
          | None => false
          end) &&
    forallb (λ s, contains s joined) (ma_contains m) && forallb (λ r, is_match r joined) (ma_regex m) &&
    forallb (λ r, existsb (is_match r) lines) (ma_line_regex m).
Definition rule_matches_esc (r : CompiledRule) (joined : rstr) (lines : list rstr)
    (esc_lines : option (list rstr)) : bool :=
  matcher_matches (cr_matcher r) joined lines esc_lines ||
  existsb (λ m, matcher_matches m joined lines esc_lines) (cr_any r).
Definition rule_matches (r : CompiledRule) (joined : rstr) (lines : list rstr) : bool :=
  rule_matches_esc r joined lines None.
Definition matches_row (r : CompiledRule) (plain esc : rstr) : bool :=
  existsb (λ m, matcher_matches m plain [plain] (Some [esc])) (cr_matcher r :: cr_any r).
End parse.

(** ** Escapes *)
(** Where [strip_csi] is in an escape: outside, after [ESC], in a CSI or an OSC
    sequence, after an [ESC] inside an OSC. *)
Inductive Skip := SkipNot | SkipEsc | SkipCsi | SkipOsc | SkipOscEsc.
#[export] Instance Skip_eq_dec : EqDecision Skip.
Proof. solve_decision. Defined.
(** The next position, and whether the character is kept. *)
Definition skip_step (st : Skip) (c : rchar) : Skip * bool :=
  match st with
  | SkipNot => if c =? 27 then (SkipEsc, false) else (SkipNot, true)
  | SkipEsc =>
      if c =? 91 then (SkipCsi, false) else if c =? 93 then (SkipOsc, false)
      else if c =? 27 then (SkipEsc, false) else (SkipNot, true)
  | SkipCsi => (if in_range 64 126 c then SkipNot else SkipCsi, false)
  | SkipOsc => (if c =? 7 then SkipNot else if c =? 27 then SkipOscEsc else SkipOsc, false)
  | SkipOscEsc =>
      (if (c =? 92) || (c =? 7) then SkipNot else if c =? 27 then SkipOscEsc else SkipOsc, false)
  end.
Fixpoint strip_go (st : Skip) (s : rstr) : rstr :=
  match s with
  | [] => []
  | c :: s =>
      let '(st, keep) := skip_step st c in
      if keep then c :: strip_go st s else strip_go st s
  end.
Definition strip_csi (s : rstr) : rstr := strip_go SkipNot s.

(** ** Evaluation *)
(** The bottom-up rows that show something, plain and escaped. *)
Definition plain_rows (screen : rstr) : list rstr :=
  List.filter (λ l, negb (blank l)) (reverse (str_lines screen)).
Definition escaped_rows (screen : rstr) : list rstr :=
  List.filter (λ l, negb (blank (strip_csi l))) (reverse (str_lines screen)).
(** The last [n] rows, top-down. *)
Definition bottom_rows (n : N) (rows : list rstr) : list rstr := reverse (take (N.to_nat n) rows).
Section evaluate.
Context `{Regexes}.
Definition rule_holds (r : CompiledRule) (title screen : rstr) (screen_esc : option rstr) : bool :=
  match cr_region r with
  | PaneTitle => rule_matches_esc r title [title] None
  | BottomNonEmptyLines n =>
      let sel := bottom_rows n (plain_rows screen) in
      rule_matches_esc r (join [10] sel) sel (bottom_rows n ∘ escaped_rows <$> screen_esc)
  end.
Definition evaluate_esc (m : Manifest) (title screen : rstr) (screen_esc : option rstr) : option CompiledRule :=
  List.find (λ r, rule_holds r title screen screen_esc) (mf_rules m).
Definition evaluate (m : Manifest) (title screen : rstr) : option CompiledRule := evaluate_esc m title screen None.
Definition matching_modal (m : Manifest) (title screen : rstr) : option CompiledRule :=
  r ← evaluate m title screen; if is_blocked (cr_state r) then Some r else None.
End evaluate.
Definition styled_matcher (m : CompiledMatcher) : bool :=
  ma_unstyled_only m || negb (bool_decide (length (ma_line_regex_esc m) = O)).
Definition has_escaped_rules (m : Manifest) : bool :=
  negb (bool_decide (length (mf_composer_chips_esc m) = O)) ||
  negb (bool_decide (length (mf_composer_trailers_esc m) = O)) ||
  existsb (λ r, styled_matcher (cr_matcher r) || existsb styled_matcher (cr_any r)) (mf_rules m).
