(* ===== verification/ManifestProps.v ===== *)
(** * What an accepted manifest promises

    The validation of the hooks table accepts exactly the tables it describes, an
    accepted table classifies events without ambiguity, the rule that decides is
    the first of the highest priority, and a styled capture and its plain form show
    the same rows. *)
From S2P Require Import Prelude Text Identity Ledger AttentionRegister AttentionProps Detection Utf8 Manifests.
Local Open Scope N_scope.

(** ** The deciding rule *)
#[export] Instance by_priority_total : Total by_priority.
Proof. intros a b. unfold by_priority. lia. Qed.
#[export] Instance by_priority_trans : Transitive by_priority.
Proof. intros a b c. unfold by_priority. lia. Qed.
(** [r] holds, and so does no rule of a higher priority, nor one of the same
    priority declared before it. *)
Definition decides (f : CompiledRule → bool) (l : list CompiledRule) (r : CompiledRule) : Prop :=
  ∃ before after, l = before ++ r :: after ∧ f r = true ∧
    Forall (λ x, f x = true → (cr_priority x < cr_priority r)%Z) before ∧
    Forall (λ x, f x = true → (cr_priority x ≤ cr_priority r)%Z) after.
Lemma find_none {A} (f : A → bool) l : List.find f l = None ↔ Forall (λ x, f x = false) l.
Proof.
  induction l as [|x l IH]; cbn; [by split|]. rewrite Forall_cons. destruct (f x) eqn:E; [|by rewrite IH; split; [split|intros []]].
  split; [done|]. by intros [? _].
Qed.
Lemma find_insert f x l :
  StronglySorted by_priority l →
  List.find f (sorted_insert by_priority x l) =
  match List.find f l with
  | Some b => if f x && (cr_priority b <=? cr_priority x)%Z then Some x else Some b
  | None => if f x then Some x else None
  end.
Proof.
  induction 1 as [|y l Hs IH Hall]; cbn; [done|]. unfold by_priority in Hall. rewrite Forall_forall in Hall.
  destruct (decide (by_priority x y)) as [Hxy|Hxy]; unfold by_priority in Hxy; cbn.
  - destruct (f x); [|destruct (f y); [done|]; by destruct (List.find f l)].
    destruct (f y); cbn; [by rewrite (proj2 (Z.leb_le _ _)) by done|].
    destruct (List.find f l) as [b|] eqn:E; [|done]. apply List.find_some in E as [Hin _].
    apply list_elem_of_In, Hall in Hin. by rewrite (proj2 (Z.leb_le _ _)) by lia.
  - rewrite IH. destruct (f y); [|done]. rewrite (proj2 (Z.leb_gt _ _)) by lia. by rewrite andb_false_r.
Qed.
Lemma find_sorted f l r : List.find f (sort_rules l) = Some r → decides f l r.
Proof.
  revert r. unfold sort_rules. induction l as [|x l IH]; intros r; cbn; [done|].
  rewrite find_insert by (apply stable_sort_sorted; apply _). fold (stable_sort by_priority l).
  destruct (List.find f (stable_sort by_priority l)) as [b|] eqn:E.
  - destruct (IH b eq_refl) as (l1 & l2 & -> & Hb & H1 & H2). destruct (f x && (cr_priority b <=? cr_priority x)%Z) eqn:Ex.
    + intros [= <-]. apply andb_true_iff in Ex as [Hx Hp%Z.leb_le]. exists [], (l1 ++ b :: l2). split_and!; [done|done|done|].
      rewrite Forall_app, Forall_cons. split_and!; [|lia|]; (eapply Forall_impl; [eassumption|]); cbn; intros y Hy Hf;
        specialize (Hy Hf); lia.
    + intros [= <-]. exists (x :: l1), l2. split_and!; [done|done| |done]. constructor; [|done].
      intros Hx. rewrite Hx in Ex. cbn in Ex. lia.
  - destruct (f x) eqn:Hx; [|done]. intros [= <-]. exists [], l. split_and!; [done|done|done|].
    apply find_none in E. rewrite stable_sort_perm in E. eapply Forall_impl; [exact E|]. cbn. by intros y ->.
Qed.
Lemma find_sorted_none f l : List.find f (sort_rules l) = None ↔ Forall (λ x, f x = false) l.
Proof. rewrite find_none. unfold sort_rules. by rewrite stable_sort_perm. Qed.

Section parse.
Context `{Regexes}.
Lemma parse_ok raw m :
  parse raw = Ok m →
  ∃ rules, map_result (compile_rule (ag_id (rm_agent raw))) (rm_rules raw) = Ok rules ∧
    mf_rules m = sort_rules rules ∧ mf_hooks m = rm_hooks raw ∧ mf_agent m = rm_agent raw ∧
    hooks_validate (ag_id (rm_agent raw)) (rm_hooks raw) = Ok ().
Proof.
  unfold parse. destruct (map_result (compile_rule _) _) as [rules|]; [|done]. intros Hp. exists rules. split; [done|].
  assert (hooks_validate (ag_id (rm_agent raw)) (rm_hooks raw) = Ok ()) as Hv.
  { destruct (hooks_validate _ _) as [[]|] eqn:E; [done|]. repeat (case_match; try discriminate). }
  rewrite Hv in Hp. repeat (case_match; try discriminate). by injection Hp as <-.
Qed.

(** The rule that decides a pane's state is the one the manifest's author
    meant: of the rules whose region and clauses hold on this title and screen, one
    of the highest priority, and of those the first in the file.  No rule decides
    only if none holds. *)
Theorem winner_is_best_rule raw m title screen screen_esc :
  parse raw = Ok m →
  ∃ rules, map_result (compile_rule (ag_id (rm_agent raw))) (rm_rules raw) = Ok rules ∧
    match evaluate_esc m title screen screen_esc with
    | Some r => decides (λ r, rule_holds r title screen screen_esc) rules r
    | None => Forall (λ r, rule_holds r title screen screen_esc = false) rules
    end.
Proof.
  intros (rules & Hr & Hs & _)%parse_ok. exists rules. split; [done|]. unfold evaluate_esc. rewrite Hs.
  destruct (List.find _ _) as [r|] eqn:E; [by apply find_sorted|by apply find_sorted_none].
Qed.
End parse.

(** ** The hooks table *)
Definition end_events (h : Hooks) : list rstr :=
  option_list (named_event (hk_turn_end h)) ++ (normalize_event <$> hk_turn_end_confirmed h).
(** What an accepted hooks table satisfies. *)
Record hooks_ok (h : Hooks) : Prop := {
  ho_comparable : ∀ name,
    declared_name (hk_turn_start h) = Some name ∨ declared_name (hk_turn_end h) = Some name ∨
    declared_name (hk_ack h) = Some name ∨ name ∈ hk_turn_end_confirmed h → normalize_event name ≠ [];
  ho_start : ∀ s, named_event (hk_turn_start h) = Some s → s ∉ end_events h;
  ho_ack : ∀ a, named_event (hk_ack h) = Some a → a ∉ end_events h;
  ho_wiring : ∀ w, hk_wiring h = Some w → wiring_validate w = Ok ();
  ho_key : hk_turn_key_fields h ≠ [] →
    has_lifecycle_role h RoleStart = true ∧ has_lifecycle_role h RoleEnd = true ∧
    Forall (λ f, blank f = false) (hk_turn_key_fields h) ∧ NoDup (hk_turn_key_fields h);
  ho_candidate : candidate_start h = true ∨ candidate_end h = true →
    hk_turn_key_fields h ≠ [] ∨ unkeyed_start_dispatch h = true;
  ho_settle : candidate_end h = true → hk_turn_end_settle_ms h ≠ 0;
  ho_dispatch : hk_ack_evidence h = AckDispatch →
    candidate_start h = true ∧ has_text (hk_ack h) = true ∧ has_text (hk_ack_payload_field h) = true;
}.

Lemma first_some_None {A B} (f : A → option B) l : first_some f l = None ↔ Forall (λ x, f x = None) l.
Proof.
  induction l as [|x l IH]; cbn; [by split|]. rewrite Forall_cons. destruct (f x); [|tauto].
  split; [done|]. by intros [? _].
Qed.
Lemma or_why_None a b : or_why a b = None ↔ a = None ∧ b = None.
Proof. destruct a; cbn; naive_solver. Qed.
Lemma same_event_None a b : same_event a b = None ↔ ∀ e, a = Some e → b ≠ Some e.
Proof.
  destruct a as [a|], b as [b|]; cbn; [|naive_solver..]. case_bool_decide; naive_solver.
Qed.
Lemma existsb_false {A} (f : A → bool) l : existsb f l = false ↔ Forall (λ x, f x = false) l.
Proof. induction l as [|x l IH]; cbn; [by split|]. rewrite orb_false_iff, Forall_cons. tauto. Qed.
Definition agree (p q : rstr * LifecycleRole) : Prop := p.1 = q.1 → p.2 = q.2.
Lemma role_conflict_None prior roles :
  role_conflict prior roles = None ↔
  (∀ p q, p ∈ prior → q ∈ roles → agree p q) ∧ (∀ p q, p ∈ roles → q ∈ roles → agree p q).
Proof.
  revert prior. induction roles as [|[e r] roles IH]; intros prior; cbn; [set_solver|].
  destruct (existsb _ prior) eqn:E.
  - split; [done|]. intros [H _]. apply List.existsb_exists in E as (p & Hp%list_elem_of_In & Hq).
    apply andb_true_iff in Hq as [H1%bool_decide_eq_true H2%negb_true_iff%bool_decide_eq_false].
    destruct H2. apply (H p (e, r)); [done|by left|done].
  - rewrite IH. apply existsb_false in E. rewrite Forall_forall in E.
    assert (∀ p, p ∈ prior → agree p (e, r)) as Hp.
    { intros p Hp H1. specialize (E p Hp). apply andb_false_iff in E as [E|E].
      - by apply bool_decide_eq_false in E.
      - by apply negb_false_iff, bool_decide_eq_true in E. }
    unfold agree in *. split; intros [H1 H2].
    + split.
      * intros p q Hpp [->|Hq]%elem_of_cons; [by apply Hp|]. apply H1; set_solver.
      * intros p q [->|Hpr]%elem_of_cons [->|Hq]%elem_of_cons; [done| | |by apply H2].
        -- apply H1; set_solver.
        -- intros He. symmetry. apply (H1 (e, r)); [set_solver|done|done].
    + split; [|intros p q ??; apply H2; set_solver].
      intros p q [Hpp| ->%list_elem_of_singleton]%elem_of_app Hq; [apply H1|apply H2]; set_solver.
Qed.
Lemma duplicate_field_None prior l :
  NoDup prior → duplicate_field prior l = None ↔ NoDup (prior ++ l).
Proof.
  revert prior. induction l as [|f l IH]; intros prior Hp; cbn; [by rewrite app_nil_r|].
  case_bool_decide as Hf.
  - split; [done|]. intros (_ & H & _)%NoDup_app. by destruct (H f Hf); left.
  - rewrite IH; [by rewrite <- app_assoc|]. apply NoDup_app. split_and!; [done| |apply NoDup_singleton].
    intros x Hx ->%list_elem_of_singleton. done.
Qed.
Lemma no_name_None field e :
  no_comparable_name (field, e) = None ↔ ∀ name, declared_name e = Some name → normalize_event name ≠ [].
Proof.
  unfold no_comparable_name. cbn [snd fst]. destruct (declared_name e) as [n|]; cbn; [|by split; [intros _ name|]].
  case_bool_decide as E; split; [done| |by intros _ ? [= <-]|done]. intros H. by destruct (H n eq_refl).
Qed.
(** The roles agree exactly if no start is an end. *)
Lemma roles_agree h :
  role_conflict [] (lifecycle_roles h) = None ↔
  ∀ s, named_event (hk_turn_start h) = Some s → s ∉ end_events h.
Proof.
  rewrite role_conflict_None. unfold lifecycle_roles, end_events, agree. split.
  - intros [_ H] s Hs Hin. rewrite Hs in H. cbn in H.
    enough ((s, RoleStart).2 = (s, RoleEnd).2) by discriminate.
    apply H; [by left| |done]. right. apply elem_of_app in Hin as [Hin|Hin]; apply elem_of_app; [left|right].
    + apply list_elem_of_fmap. by exists s.
    + apply list_elem_of_fmap in Hin as (e & -> & He). apply list_elem_of_fmap. by exists e.
  - intros H. split; [set_solver|].
    assert (∀ p, p ∈ ((λ e, (e, RoleEnd)) <$> option_list (named_event (hk_turn_end h))) ++
                     ((λ e, (normalize_event e, RoleEnd)) <$> hk_turn_end_confirmed h) →
            p.2 = RoleEnd ∧ p.1 ∈ end_events h) as He.
    { unfold end_events. intros p [Hp|Hp]%elem_of_app; apply list_elem_of_fmap in Hp as (e & -> & He); cbn;
        (split; [done|]); apply elem_of_app; [left; exact He|right; apply list_elem_of_fmap; by exists e]. }
    assert (∀ p, p ∈ ((λ e, (e, RoleStart)) <$> option_list (named_event (hk_turn_start h))) →
            p.2 = RoleStart ∧ named_event (hk_turn_start h) = Some p.1) as Hs.
    { intros p (e & -> & Hp)%list_elem_of_fmap. cbn. split; [done|].
      destruct (named_event _); [|by apply not_elem_of_nil in Hp]. by apply list_elem_of_singleton in Hp as ->. }
    intros p q Hp Hq Heq. apply elem_of_app in Hp as [Hp|Hp], Hq as [Hq|Hq].
    + by rewrite (proj1 (Hs p Hp)), (proj1 (Hs q Hq)).
    + destruct (Hs p Hp) as [_ Hn], (He q Hq) as [_ Hi]. rewrite <- Heq in Hi. by destruct (H _ Hn).
    + destruct (Hs q Hq) as [_ Hn], (He p Hp) as [_ Hi]. rewrite Heq in Hi. by destruct (H _ Hn).
    + by rewrite (proj1 (He p Hp)), (proj1 (He q Hq)).
Qed.
Lemma ack_ends_None h a :
  existsb (λ p, bool_decide (p.2 = RoleEnd) && bool_decide (p.1 = a)) (lifecycle_roles h) = false ↔ a ∉ end_events h.
Proof.
  rewrite existsb_false, Forall_forall. unfold lifecycle_roles, end_events. split.
  - intros H Hin. assert ((a, RoleEnd) ∈ lifecycle_roles h) as Hr.
    { unfold lifecycle_roles. apply elem_of_app. right. apply elem_of_app in Hin as [Hin|Hin]; apply elem_of_app; [left|right].
      - apply list_elem_of_fmap. by exists a.
      - apply list_elem_of_fmap in Hin as (e & -> & He). apply list_elem_of_fmap. by exists e. }
    specialize (H _ Hr). cbn in H. rewrite (bool_decide_eq_true_2 (a = a)) in H by done. done.
  - intros H [e r] Hin. cbn. rewrite !elem_of_app in Hin.
    destruct Hin as [Hin|[Hin|Hin]]; apply list_elem_of_fmap in Hin as (e' & [= -> ->] & He); cbn; [done|..];
      apply bool_decide_eq_false; intros <-; apply H, elem_of_app; [left; exact He|right; apply list_elem_of_fmap; by exists e'].
Qed.
Lemma named_end_elem h e : named_event (hk_turn_end h) = Some e → e ∈ end_events h.
Proof. unfold end_events. intros ->. by left. Qed.
Lemma colliding_None h :
  colliding_turn_roles h = None ↔
  (∀ name, declared_name (hk_turn_start h) = Some name ∨ declared_name (hk_turn_end h) = Some name ∨
     declared_name (hk_ack h) = Some name ∨ name ∈ hk_turn_end_confirmed h → normalize_event name ≠ []) ∧
  (∀ s, named_event (hk_turn_start h) = Some s → s ∉ end_events h) ∧
  (∀ a, named_event (hk_ack h) = Some a → a ∉ end_events h).
Proof.
  unfold colliding_turn_roles. rewrite !or_why_None, !fmap_None, !same_event_None, roles_agree, !first_some_None.
  rewrite !Forall_cons, Forall_nil, !no_name_None, Forall_forall.
  assert ((∀ e, e ∈ hk_turn_end_confirmed h →
      (if bool_decide (normalize_event e = []) then Some (WhyConfirmedNoName e) else None) = None) ↔
    ∀ e, e ∈ hk_turn_end_confirmed h → normalize_event e ≠ []) as ->.
  { split; intros H e He; specialize (H e He); case_bool_decide; done. }
  assert (match named_event (hk_ack h) with
      | Some ack => if existsb (λ p, bool_decide (p.2 = RoleEnd) && bool_decide (p.1 = ack)) (lifecycle_roles h)
                    then Some (WhyAckIsLifecycleEnd ack) else None
      | None => None end = None ↔ ∀ a, named_event (hk_ack h) = Some a → a ∉ end_events h) as ->.
  { destruct (named_event (hk_ack h)) as [a|]; [|by split]. assert (E := ack_ends_None h a).
    destruct (existsb _ _); split; [done| |by intros _ ? [= <-]; apply E|done].
    intros Hx. enough (true = false) by done. by apply E, Hx. }
  split.
  - intros ((Hs & He & Ha & _) & Hc & _ & _ & Hse & Hae). split_and!; [|done|done]. naive_solver.
  - intros (Hn & Hse & Hae). split; [split_and!; [intros name Hd; apply Hn; tauto..|exact I]|].
    split; [intros name Hd; apply Hn; tauto|]. split_and!; [| |exact Hse|exact Hae].
    + intros e H1 H2. exact (Hse e H1 (named_end_elem h e H2)).
    + intros e H1 H2. exact (Hae e H1 (named_end_elem h e H2)).
Qed.
Lemma turn_key_None h :
  turn_key_why h = None ↔
  (hk_turn_key_fields h ≠ [] →
   has_lifecycle_role h RoleStart = true ∧ has_lifecycle_role h RoleEnd = true ∧
   Forall (λ f, blank f = false) (hk_turn_key_fields h) ∧ NoDup (hk_turn_key_fields h)).
Proof.
  unfold turn_key_why. case_bool_decide as Hk; [by split|].
  destruct (has_lifecycle_role h RoleStart), (has_lifecycle_role h RoleEnd); cbn [negb orb];
    try (split; [done|]; intros Hx; destruct (Hx Hk) as (? & ? & _); done).
  destruct (existsb blank _) eqn:E.
  - split; [done|]. intros Hx. destruct (Hx Hk) as (_ & _ & Hf & _). apply existsb_false in Hf. congruence.
  - apply existsb_false in E. rewrite fmap_None, (duplicate_field_None [] _ (NoDup_nil_2)). cbn. tauto.
Qed.

Lemma hooks_accepted_ok id h : hooks_validate id h = Ok () ↔ hooks_ok h.
Proof.
  unfold hooks_validate. assert (Hc := colliding_None h). assert (Hk := turn_key_None h).
  destruct (colliding_turn_roles h) as [why|].
  { split; [done|]. intros []. by enough (Some why = None) by done; apply Hc. }
  destruct (proj1 Hc eq_refl) as (Hn & Hs & Ha). clear Hc.
  assert ((∀ w, hk_wiring h = Some w → wiring_validate w = Ok ()) ↔
    match hk_wiring h with Some w => result_map_err (BadWiring id) (wiring_validate w) | None => Ok () end = Ok ()) as Hw.
  { destruct (hk_wiring h) as [w|]; [|by split]. destruct (wiring_validate w) as [[]|] eqn:E; cbn; split; try done.
    - intros _ w' [= <-]. done.
    - intros Hx. specialize (Hx w eq_refl). congruence. }
  destruct (match hk_wiring h with Some w => _ | None => _ end) as [[]|e] eqn:Ew.
  2:{ split; [done|]. intros []. by apply Hw in ho_wiring0. }
  destruct (turn_key_why h) as [why|].
  { split; [done|]. intros []. by enough (Some why = None) by done; apply Hk. }
  assert (hooks_ok h ↔
    (candidate_start h || candidate_end h = true →
       bool_decide (hk_turn_key_fields h = []) && negb (unkeyed_start_dispatch h) = false) ∧
    (candidate_end h = true → (hk_turn_end_settle_ms h =? 0) = false) ∧
    (bool_decide (hk_ack_evidence h = AckDispatch) = true →
       candidate_start h = true ∧ has_text (hk_ack h) = true ∧ has_text (hk_ack_payload_field h) = true)) as ->.
  { assert (bool_decide (hk_turn_key_fields h = []) && negb (unkeyed_start_dispatch h) = false ↔
      hk_turn_key_fields h ≠ [] ∨ unkeyed_start_dispatch h = true) as ->.
    { rewrite andb_false_iff, bool_decide_eq_false, negb_false_iff. done. }
    rewrite orb_true_iff, N.eqb_neq, bool_decide_eq_true. split.
    - intros []. done.
    - intros (H1 & H2 & H3). split; try done; [by apply Hw|by apply Hk]. }
  destruct (candidate_start h), (candidate_end h), (bool_decide (hk_turn_key_fields h = [])),
    (unkeyed_start_dispatch h), (hk_turn_end_settle_ms h =? 0), (bool_decide (hk_ack_evidence h = AckDispatch)),
    (has_text (hk_ack h)), (has_text (hk_ack_payload_field h)); cbn; clear; intuition congruence.
Qed.
(** The hooks table of a manifest is accepted exactly if its turn events are
    comparable names, no end event is also the start or the acknowledgement, its
    wiring is valid, its turn key is a list of distinct named fields with both
    events to carry them, and candidate or dispatch evidence comes with what its
    settlement needs. *)
Theorem hooks_accepted_exactly id h : hooks_validate id h = Ok () ↔ hooks_ok h.
Proof. apply hooks_accepted_ok. Qed.

(** ** Classifying events *)
Lemma trim_start_nil s : trim_start s = [] → Forall (λ c, is_whitespace c = true) s.
Proof. induction s as [|c s IH]; cbn; [done|]. destruct (is_whitespace c) eqn:E; [|done]. intros H. by constructor; auto. Qed.
Lemma blank_whitespace s : blank s = true → Forall (λ c, is_whitespace c = true) s.
Proof.
  unfold blank, trim, trim_end. intros H%bool_decide_eq_true. apply (f_equal reverse) in H.
  rewrite reverse_involutive, reverse_nil in H. apply trim_start_nil in H. rewrite Forall_reverse in H.
  apply trim_start_nil. destruct (trim_start s) as [|c s'] eqn:E; [done|].
  apply trim_start_head in E. inversion H as [|? ? Hc]. congruence.
Qed.
Lemma alphanumeric_visible c : is_ascii_alphanumeric c = true → is_whitespace c = false.
Proof.
  unfold is_ascii_alphanumeric, is_ascii_digit, is_ascii_lowercase, is_ascii_uppercase, is_whitespace, in_range.
  rewrite !orb_true_iff, !andb_true_iff, !N.leb_le. intros H. repeat (apply orb_false_iff; split);
    rewrite ?andb_false_iff, ?N.leb_gt, ?N.eqb_neq; lia.
Qed.
Lemma blank_normal s : blank s = true → normalize_event s = [].
Proof.
  intros Hb%blank_whitespace. unfold normalize_event.
  enough (List.filter is_ascii_alphanumeric s = []) as -> by done.
  induction Hb as [|c s Hc _ IH]; cbn; [done|]. destruct (is_ascii_alphanumeric c) eqn:E; [|done].
  apply alphanumeric_visible in E. congruence.
Qed.
Definition names_event (o : option rstr) (event : rstr) : Prop := ∃ name, o = Some name ∧ normalize_event name = event.
Lemma named_event_eq o e : e ≠ [] → named_event o = Some e ↔ names_event o e.
Proof.
  intros He. unfold named_event, names_event, declared_name. destruct o as [name|]; cbn; [|naive_solver].
  destruct (blank name) eqn:Hb; cbn; [|naive_solver]. split; [done|]. intros (n & [= <-] & Hn). destruct He.
  rewrite <- Hn. by apply blank_normal.
Qed.
Lemma is_name_true o e :
  match o with Some name => bool_decide (normalize_event name = e) | None => false end = true ↔ names_event o e.
Proof.
  unfold names_event. destruct o as [name|]; [|naive_solver]. rewrite bool_decide_eq_true. naive_solver.
Qed.
Lemma end_events_elem h e :
  e ≠ [] → e ∈ end_events h ↔
  names_event (hk_turn_end h) e ∨ existsb (λ name, bool_decide (normalize_event name = e)) (hk_turn_end_confirmed h) = true.
Proof.
  intros He. unfold end_events. rewrite elem_of_app, <- (named_event_eq _ _ He).
  assert (e ∈ option_list (named_event (hk_turn_end h)) ↔ named_event (hk_turn_end h) = Some e) as ->.
  { destruct (named_event _); cbn; set_solver. }
  rewrite list_elem_of_fmap, List.existsb_exists. setoid_rewrite list_elem_of_In. setoid_rewrite bool_decide_eq_true.
  naive_solver.
Qed.

(** Under an accepted manifest every event that has a comparable name means
    one thing: it is a start exactly if it names the declared start, an end exactly
    if it names the declared end or a confirmed one, never both, and the event that
    acknowledges a delivery is never read as an end. *)
Theorem lifecycle_is_unambiguous `{Regexes} raw m event :
  parse raw = Ok m → normalize_event event ≠ [] →
  let h := mf_hooks m in
  (fst <$> lifecycle_event h event = Some RoleStart ↔ names_event (hk_turn_start h) (normalize_event event)) ∧
  (fst <$> lifecycle_event h event = Some RoleEnd ↔ normalize_event event ∈ end_events h) ∧
  (names_event (hk_ack h) (normalize_event event) → fst <$> lifecycle_event h event ≠ Some RoleEnd).
Proof.
  intros (rules & _ & _ & Hh & _ & Hv)%parse_ok He. cbn zeta. rewrite Hh. apply hooks_accepted_ok in Hv as [].
  set (h := rm_hooks raw) in *. set (e := normalize_event event) in *.
  assert (names_event (hk_turn_start h) e → e ∉ end_events h) as Hs.
  { intros Hn. apply ho_start0. by apply named_event_eq. }
  assert (fst <$> lifecycle_event h event = Some RoleEnd ↔ e ∈ end_events h) as Hend.
  { rewrite end_events_elem by done. unfold lifecycle_event. fold e. destruct (existsb _ _) eqn:Ec; [by split; [right|]|].
    destruct (match hk_turn_start h with Some _ => _ | None => _ end) eqn:E1.
    { apply is_name_true in E1. split; [done|]. intros [Hn|Hn]; [|done]. destruct (Hs E1).
      apply end_events_elem; [done|]. by left. }
    destruct (match hk_turn_end h with Some _ => _ | None => _ end) eqn:E2.
    { apply is_name_true in E2. by split; [left|]. }
    split; [done|]. intros [Hn|Hn]; [|done]. apply is_name_true in Hn. congruence. }
  split_and!; [|exact Hend|].
  - split.
    + unfold lifecycle_event. fold e. destruct (existsb _ _); [done|].
      destruct (match hk_turn_start h with Some _ => _ | None => _ end) eqn:E1; [by intros _; apply is_name_true|].
      by destruct (match hk_turn_end h with Some _ => _ | None => _ end).
    + intros Hn. assert (Hne := Hs Hn). rewrite end_events_elem in Hne by done. unfold lifecycle_event. fold e.
      destruct (existsb _ _); [by destruct Hne; right|]. apply is_name_true in Hn. by rewrite Hn.
  - intros Ha. rewrite Hend. apply ho_ack0. by apply named_event_eq.
Qed.

(** A blank role is meant to be absent.  It is not when events are classified: an
    event without a comparable name is read as the start of a turn. *)
Definition blank_start : Hooks :=
  MkHooks [] (Some []) CertConfirmed None CertConfirmed [] 0 None AckReceipt [] None [] None None.
Lemma blank_role_is_a_start id :
  hooks_validate id blank_start = Ok () ∧ has_lifecycle_role blank_start RoleStart = false ∧
  lifecycle_event blank_start (str "--") = Some (RoleStart, CertConfirmed).
Proof. by vm_compute. Qed.

(** ** Escapes *)
Definition skip_end (st : Skip) (s : rstr) : Skip := foldl (λ st c, (skip_step st c).1) st s.
(** A row whose escapes end in it. *)
Definition closed_row (row : rstr) : Prop := skip_end SkipNot row = SkipNot.
Lemma strip_go_app st a b : strip_go st (a ++ b) = strip_go st a ++ strip_go (skip_end st a) b.
Proof.
  revert st. induction a as [|c a IH]; intros st; cbn; [done|]. destruct (skip_step st c) as [st' []]; cbn; by rewrite IH.
Qed.
Lemma strip_go_elem st s c : c ∈ strip_go st s → c ∈ s ∧ c ≠ 27.
Proof.
  revert st. induction s as [|x s IH]; intros st; cbn; [set_solver|].
  destruct (skip_step st x) as [st' []] eqn:E.
  - intros [->|H]%elem_of_cons; [split; [by left|]|].
    + intros ->. by destruct st.
    + apply IH in H as [??]. split; [by right|done].
  - intros H%IH. destruct H. split; [by right|done].
Qed.
Lemma strip_plain s : 27 ∉ s → strip_csi s = s.
Proof.
  unfold strip_csi. induction s as [|c s IH]; cbn; [done|]. intros [Hc Hs]%not_elem_of_cons.
  rewrite (proj2 (N.eqb_neq _ _)) by done. by rewrite IH.
Qed.
Lemma strip_csi_idempotent s : strip_csi (strip_csi s) = strip_csi s.
Proof. apply strip_plain. intros H. by apply strip_go_elem in H as []. Qed.
Lemma strip_row row rest : closed_row row → strip_csi (row ++ 10 :: rest) = strip_csi row ++ 10 :: strip_csi rest.
Proof. intros Hc. unfold strip_csi. rewrite strip_go_app, Hc. done. Qed.

Lemma split_char_not_nil c s : split_char c s ≠ [].
Proof. destruct s as [|a s]; cbn; [done|]. destruct (a =? c); [done|]. by destruct (split_char c s). Qed.
Lemma split_char_rows s : Forall (λ row, 10 ∉ row) (split_char 10 s).
Proof.
  induction s as [|c s IH]; cbn; [repeat constructor; apply not_elem_of_nil|].
  destruct (c =? 10) eqn:E; [constructor; [apply not_elem_of_nil|done]|]. apply N.eqb_neq in E.
  destruct (split_char 10 s) as [|p ps]; [repeat constructor; set_solver|].
  apply Forall_cons in IH as [Hp Hps]. constructor; [set_solver|done].
Qed.
Lemma split_join rows : rows ≠ [] → Forall (λ row, 10 ∉ row) rows → split_char 10 (join [10] rows) = rows.
Proof.
  induction rows as [|row rows IH]; intros Hne Hr; [done|]. apply Forall_cons in Hr as [Hrow Hr].
  destruct rows as [|row' rows]; [by apply split_char_notin|].
  change (join [10] (row :: row' :: rows)) with (row ++ 10 :: join [10] (row' :: rows)).
  rewrite split_char_app by done. by rewrite IH.
Qed.
Lemma strip_join rows :
  Forall closed_row rows → strip_csi (join [10] rows) = join [10] (strip_csi <$> rows).
Proof.
  induction rows as [|row rows IH]; intros Hc; [done|]. apply Forall_cons in Hc as [Hrow Hc].
  destruct rows as [|row' rows]; [done|].
  change (join [10] (row :: row' :: rows)) with (row ++ 10 :: join [10] (row' :: rows)).
  rewrite strip_row, IH by done. done.
Qed.
Lemma split_strip s :
  Forall closed_row (split_char 10 s) → split_char 10 (strip_csi s) = strip_csi <$> split_char 10 s.
Proof.
  intros Hc. rewrite <- (split_char_join 10 s) at 1. rewrite strip_join by done. apply split_join.
  - assert (H := split_char_not_nil 10 s). by destruct (split_char 10 s).
  - apply Forall_fmap. eapply Forall_impl; [apply split_char_rows|]. cbn. intros row Hr Hin.
    by apply strip_go_elem in Hin as [? _].
Qed.
(** Without carriage returns the rows are the pieces, but for a final empty one. *)
Lemma lines_shown pieces (f : rstr → bool) :
  Forall (λ p, 13 ∉ p) pieces → f [] = false →
  List.filter f (lines_of_pieces pieces) = List.filter f pieces.
Proof.
  intros Hr Hf. induction Hr as [|p ps Hp _ IH]; [done|]. destruct ps as [|p' ps].
  - cbn. case_bool_decide as E; [by rewrite E, Hf|done].
  - change (lines_of_pieces (p :: p' :: ps)) with (strip_cr p :: lines_of_pieces (p' :: ps)).
    assert (strip_cr p = p) as -> by (unfold strip_cr; by rewrite strip_suffix_notin).
    cbn [List.filter]. cbn [List.filter] in IH. by rewrite IH.
Qed.
Lemma filter_fmap {A B} (f : B → bool) (g : A → B) l :
  List.filter f (g <$> l) = g <$> List.filter (λ x, f (g x)) l.
Proof. induction l as [|x l IH]; cbn; [done|]. rewrite IH. by destruct (f (g x)). Qed.
Lemma filter_reverse {A} (f : A → bool) l : List.filter f (reverse l) = reverse (List.filter f l).
Proof.
  induction l as [|x l IH]; [done|]. rewrite reverse_cons, List.filter_app, IH. cbn [List.filter].
  destruct (f x); [by rewrite reverse_cons|by rewrite app_nil_r].
Qed.
Lemma rows_without_cr s : 13 ∉ s → Forall (λ p, 13 ∉ p) (split_char 10 s).
Proof.
  induction s as [|c s IH]; cbn; [repeat constructor; apply not_elem_of_nil|]. intros [Hc Hs]%not_elem_of_cons.
  specialize (IH Hs). destruct (c =? 10); [constructor; [apply not_elem_of_nil|done]|].
  destruct (split_char 10 s) as [|p ps]; [repeat constructor; set_solver|].
  apply Forall_cons in IH as [Hp Hps]. constructor; [set_solver|done].
Qed.

(** A styled capture and the plain one made from it show the same rows.  When
    the daemon derives the plain screen by dropping the escapes of the styled one,
    and no escape runs past the end of its row, the rows rules see in both are the
    same rows in the same order, one with its styling and one without; so a clause
    on styling is tested on the very row its plain clause names. *)
Theorem captures_align esc :
  13 ∉ esc → Forall closed_row (split_char 10 esc) →
  plain_rows (strip_csi esc) = strip_csi <$> escaped_rows esc.
Proof.
  intros Hcr Hc. unfold plain_rows, escaped_rows, str_lines. rewrite !filter_reverse.
  rewrite (lines_shown (split_char 10 (strip_csi esc))); [|apply rows_without_cr|done].
  2:{ intros H. by apply strip_go_elem in H as [? _]. }
  rewrite (lines_shown (split_char 10 esc)); [|by apply rows_without_cr|done].
  rewrite split_strip by done. rewrite filter_fmap, fmap_reverse. done.
Qed.

(** ** Styled clauses *)
(** A matcher that can only hold on a styled capture. *)
Definition needs_style (m : CompiledMatcher) : bool :=
  ma_unstyled_only m || negb (bool_decide (length (ma_line_regex_esc m) = O)) ||
  negb (bool_decide (length (ma_regex_esc m) = O)).
Lemma needs_style_None `{Regexes} m joined lines : needs_style m = true → matcher_matches m joined lines None = false.
Proof.
  unfold needs_style, matcher_matches. intros Hn. destruct (matcher_is_empty m); [done|].
  destruct (ma_unstyled_only m); [done|]. cbn in Hn. cbn [andb].
  by destruct (bool_decide _), (bool_decide _).
Qed.
(** Rules on styling fail closed: a rule all of whose alternatives look at
    styling never holds on a title or on a screen captured without it. *)
Theorem styled_rules_fail_closed `{Regexes} r title screen :
  forallb needs_style (cr_matcher r :: cr_any r) = true → rule_holds r title screen None = false.
Proof.
  cbn [forallb]. intros [Hm Ha]%andb_true_iff. unfold rule_holds.
  assert (∀ joined lines, rule_matches_esc r joined lines None = false) as Hn.
  { intros joined lines. unfold rule_matches_esc. rewrite needs_style_None by done. cbn [orb]. apply existsb_false.
    apply Forall_forall. intros m Hin. apply needs_style_None. by eapply forallb_elem. }
  destruct (cr_region r); apply Hn.
Qed.
(** The daemon takes a styled capture only if [has_escaped_rules] asks for one,
    which overlooks clauses of [regex_esc]: a manifest whose styling is all in such
    clauses is shown plain captures only, and its rules never hold. *)
Lemma paired_styles_are_overlooked `{Regexes} m r title screen :
  has_escaped_rules m = false → r ∈ mf_rules m →
  forallb (λ x, negb (bool_decide (length (ma_regex_esc x) = O))) (cr_matcher r :: cr_any r) = true →
  forallb (λ x, negb (styled_matcher x)) (cr_matcher r :: cr_any r) = true ∧ rule_holds r title screen None = false.
Proof.
  intros Hh Hr Hp. split.
  - unfold has_escaped_rules in Hh. apply orb_false_iff in Hh as [_ Hh]. apply existsb_false in Hh.
    rewrite Forall_forall in Hh. specialize (Hh r Hr). apply orb_false_iff in Hh as [H1 H2]. cbn. rewrite H1. cbn.
    apply forallb_forall. intros x Hx%list_elem_of_In. apply existsb_false in H2. rewrite Forall_forall in H2.
    by rewrite (H2 x Hx).
  - assert (∀ joined lines, rule_matches_esc r joined lines None = false) as Hn; [|unfold rule_holds; destruct (cr_region r); apply Hn].
    intros joined lines. cbn [forallb] in Hp. apply andb_true_iff in Hp as [Hm Ha]. unfold rule_matches_esc.
    rewrite needs_style_None by (unfold needs_style; by rewrite Hm, orb_true_r). cbn [orb]. apply existsb_false.
    apply Forall_forall. intros x Hx. apply needs_style_None. unfold needs_style.
    by rewrite (forallb_elem _ _ _ Ha Hx), orb_true_r.
Qed.
