(* ===== verification/TmuxText.v ===== *)
(** * Text exchanged with tmux

    The pure text layer of [src/cyclops-tmux]: quoting command arguments
    ([quote.rs]), parsing control-mode notifications ([notify.rs]) and the
    version string ([version.rs]); and the rule for pane labels of
    [src/cyclops-proto/src/label.rs], which decides what may be put on a tmux
    command line.  Bytes are numbers below 256. *)
From S2P Require Import Prelude Text Utf8 Identity.
Local Open Scope N_scope.

(** ** [quote.rs] *)
Definition quote_char (c : rchar) : rstr :=
  if (c =? 10) || (c =? 13) || (c =? 0) then []
  else if c =? 39 then [39; 92; 39; 39]
  else [c].
Definition quote_arg (s : rstr) : rstr := [39] ++ mjoin (quote_char <$> s) ++ [39].

(** ** [version.rs] *)
Record TmuxVersion := MkTmuxVersion { tv_raw : rstr; tv_numeric : option (N * N) }.
Definition is_ascii_alphabetic (c : rchar) : bool := is_ascii_lowercase c || is_ascii_uppercase c.
(** [trim_end_matches]. *)
Fixpoint drop_while (f : rchar → bool) (s : rstr) : rstr :=
  match s with [] => [] | c :: s' => if f c then drop_while f s' else s end.
Definition trim_end_matches (f : rchar → bool) (s : rstr) : rstr := reverse (drop_while f (reverse s)).
Definition version_parse (v_output : rstr) : TmuxVersion :=
  let raw := default (trim v_output) (strip_prefix (str "tmux ") (trim v_output)) in
  let core := default raw (strip_prefix (str "next-") raw) in
  let parts := split_char 46 core in
  let major := s ← head parts; parse_u32 s in
  let minor := s ← parts !! 1%nat; parse_u32 (trim_end_matches is_ascii_alphabetic s) in
  let numeric := match major, minor with Some a, Some b => Some (a, b) | _, _ => None end in
  MkTmuxVersion raw numeric.
(** Tuple comparison of [(maj, min) >= (3, n)]. *)
Definition version_at_least (v : TmuxVersion) (major minor : N) : bool :=
  match tv_numeric v with
  | Some (a, b) => (major <? a) || ((a =? major) && (minor <=? b))
  | None => false
  end.
Definition has_bracket_paste_flag (v : TmuxVersion) : bool := version_at_least v 3 8.
Definition has_pause_after (v : TmuxVersion) : bool := version_at_least v 3 2.

(** ** [label.rs] *)
Definition ADMIN : rstr := str "admin".
Definition EVERYONE : rstr := str "*".
(** A double quote around a name in a message. *)
Definition in_quotes (s : rstr) : rstr := [34] ++ s ++ [34].
Section label.
(** [str::escape_debug], which needs the Unicode tables; only the wording of
    one message depends on it. *)
Variable escape_debug : rstr → rstr.
Definition refusal (label : rstr) : option rstr :=
  if bool_decide (label = []) then
    Some (str "a pane needs a name to be addressed. Pick one, e.g. reviewer.")
  else if bool_decide (label = ADMIN) then
    Some (in_quotes ADMIN ++ str " is you. A same-user terminal with no agent-vendor ancestor sends as "
      ++ in_quotes ADMIN ++ str ", including inside a watched pane, so a pane called that would collide with the operator on the record. Pick another name, e.g. lead.")
  else if bool_decide (label = EVERYONE) then
    Some (in_quotes EVERYONE ++ str " already addresses every agent at once, so a pane called that would answer to a broadcast. Pick another name, e.g. reviewer.")
  else if starts_with (str "%") label then
    Some (in_quotes label ++ str " looks like a tmux pane id, and cyclops takes those anywhere it takes a name, so this one could mean two panes. Pick a name that does not start with %, e.g. "
      ++ drop_while (λ c, c =? 37) label ++ str ".")
  else if existsb is_control label then
    Some (in_quotes (escape_debug label) ++ str " has a control character in it, which tmux would strip from the pane border and cyclops would keep on the record. Use letters, digits, dashes and underscores.")
  else None.
Definition is_available (label : rstr) : bool :=
  match refusal label with None => true | Some _ => false end.
End label.

(** ** [notify.rs] *)
Inductive TmuxNotification :=
| ContinuityLost
| Output (pane : rstr) (data : list N)
| ExtendedOutput (pane : rstr) (age_ms : N) (data : list N)
| SessionChanged (session name : rstr)
| SessionRenamed (session : option rstr) (name : rstr)
| SessionsChanged
| WindowAdd (window : rstr)
| WindowClose (window : rstr)
| WindowRenamed (window name : rstr)
| UnlinkedWindowAdd (window : rstr)
| UnlinkedWindowClose (window : rstr)
| UnlinkedWindowRenamed (window name : rstr)
| LayoutChange (window rest : rstr)
| WindowPaneChanged (window pane : rstr)
| PaneModeChanged (pane : rstr)
| ClientDetached (client : rstr)
| ClientSessionChanged (client session name : rstr)
| SubscriptionChanged (name : rstr) (session window pane : option rstr) (value : rstr)
| Pause (pane : rstr)
| Continue (pane : rstr)
| Exit (reason : option rstr)
| Other (line : rstr).

Definition is_octal_digit (b : N) : bool := in_range 48 55 b.
(** The [while] loop: at a backslash with three octal digits after it, one byte
    ([as u8] wraps); otherwise the byte itself. *)
Fixpoint unescape_octal_bytes (bytes : list N) : list N :=
  match bytes with
  | [] => []
  | b :: rest =>
      match b =? 92, rest with
      | true, d0 :: d1 :: d2 :: rest' =>
          if is_octal_digit d0 && is_octal_digit d1 && is_octal_digit d2 then
            (((d0 - 48) * 64 + (d1 - 48) * 8 + (d2 - 48)) mod 256) :: unescape_octal_bytes rest'
          else b :: unescape_octal_bytes rest
      | _, _ => b :: unescape_octal_bytes rest
      end
  end.
Definition unescape_octal (s : rstr) : list N := unescape_octal_bytes (utf8_bytes s).

(** [split_once(" : ")], or a text that ends in [" :"] with nothing after it. *)
Definition split_value (s : rstr) : option (rstr * rstr) :=
  match split_once (str " : ") s with
  | Some parts => Some parts
  | None => (λ h, (h, [])) <$> strip_suffix (str " :") s
  end.

Definition parse_extended_output (line rest : rstr) : TmuxNotification :=
  match split_once [32] rest with
  | None => Other line
  | Some (pane, tail) =>
      match split_value tail with
      | None => Other line
      | Some (head_text, data) =>
          let age_ms := default 0 (a ← head (split_whitespace head_text); parse_u64 a) in
          ExtendedOutput pane age_ms (unescape_octal data)
      end
  end.

(** The ids of the header, each token recognised by its sigil; a later one
    overrides an earlier one. *)
Definition subscription_token (ids : option rstr * option rstr * option rstr) (t : rstr)
    : option rstr * option rstr * option rstr :=
  let '(session, window, pane) := ids in
  if starts_with (str "$") t then (Some t, window, pane)
  else if starts_with (str "@") t then (session, Some t, pane)
  else if starts_with (str "%") t then (session, window, Some t)
  else ids.
Definition parse_subscription_changed (line rest : rstr) : TmuxNotification :=
  match split_value rest with
  | None => Other line
  | Some (header, value) =>
      match split_whitespace header with
      | [] => Other line
      | name :: tokens =>
          let '(session, window, pane) := foldl subscription_token (None, None, None) tokens in
          SubscriptionChanged name session window pane value
      end
  end.

Definition parse_notification (line : rstr) : TmuxNotification :=
  let '(word, rest) := match split_once [32] line with Some p => p | None => (line, []) end in
  let pair := split_once [32] rest in
  let two (k : rstr → rstr → TmuxNotification) :=
    match pair with Some (a, b) => k a b | None => Other line end in
  if bool_decide (word = str "%output") then
    match pair with
    | Some (pane, data) => Output pane (unescape_octal data)
    | None => if bool_decide (rest = []) then Other line else Output rest []
    end
  else if bool_decide (word = str "%extended-output") then parse_extended_output line rest
  else if bool_decide (word = str "%session-changed") then two SessionChanged
  else if bool_decide (word = str "%session-renamed") then
    match pair with
    | Some (session, name) =>
        if starts_with (str "$") session then SessionRenamed (Some session) name
        else SessionRenamed None rest
    | None => SessionRenamed None rest
    end
  else if bool_decide (word = str "%sessions-changed") then SessionsChanged
  else if bool_decide (word = str "%window-add") then WindowAdd rest
  else if bool_decide (word = str "%window-close") then WindowClose rest
  else if bool_decide (word = str "%window-renamed") then two WindowRenamed
  else if bool_decide (word = str "%unlinked-window-add") then UnlinkedWindowAdd rest
  else if bool_decide (word = str "%unlinked-window-close") then UnlinkedWindowClose rest
  else if bool_decide (word = str "%unlinked-window-renamed") then
    match pair with
    | Some (window, name) => UnlinkedWindowRenamed window name
    | None => UnlinkedWindowRenamed rest []
    end
  else if bool_decide (word = str "%layout-change") then two LayoutChange
  else if bool_decide (word = str "%window-pane-changed") then two WindowPaneChanged
  else if bool_decide (word = str "%pane-mode-changed") then PaneModeChanged rest
  else if bool_decide (word = str "%client-detached") then ClientDetached rest
  else if bool_decide (word = str "%client-session-changed") then
    match pair with
    | Some (client, tail) =>
        match split_once [32] tail with
        | Some (session, name) => ClientSessionChanged client session name
        | None => Other line
        end
    | None => Other line
    end
  else if bool_decide (word = str "%subscription-changed") then parse_subscription_changed line rest
  else if bool_decide (word = str "%pause") then Pause rest
  else if bool_decide (word = str "%continue") then Continue rest
  else if bool_decide (word = str "%exit") then
    Exit (if bool_decide (rest = []) then None else Some rest)
  else Other line.

(** First index at which [needle] occurs, as [windows(..).position(..)]. *)
Fixpoint find_subslice (hay needle : list N) : option nat :=
  match strip_prefix needle hay with
  | Some _ => Some 0%nat
  | None => match hay with [] => None | _ :: hay' => S <$> find_subslice hay' needle end
  end.

Definition parse_output_bytes (line : list N) : option TmuxNotification :=
  match strip_prefix (str "%output ") line with
  | Some rest =>
      '(pane, data) ← split_once [32] rest;
      pane ← utf8_decode pane;
      Some (Output pane (unescape_octal_bytes data))
  | None =>
      match strip_prefix (str "%extended-output ") line with
      | Some rest =>
          '(pane, tail) ← split_once [32] rest;
          pane ← utf8_decode pane;
          '(head_bytes, data) ←
            match find_subslice tail (str " : ") with
            | Some i => Some (take i tail, drop (i + 3) tail)
            | None => (λ h, (h, [])) <$> strip_suffix (str " :") tail
            end;
          let age_ms := default 0
            (a ← head (split_char 32 head_bytes); a ← utf8_decode a; parse_u64 a) in
          Some (ExtendedOutput pane age_ms (unescape_octal_bytes data))
      | None => None
      end
  end.
Definition parse_notification_bytes (line : list N) : TmuxNotification :=
  match utf8_decode line with
  | Some s => parse_notification s
  | None =>
      match parse_output_bytes line with
      | Some n => n
      | None => parse_notification (from_utf8_lossy line)
      end
  end.
