(* ===== verification/TmuxTextProps.v ===== *)
(** * Properties of the text exchanged with tmux

    Quoted arguments reach tmux as one word and cannot end the command line;
    pane output arrives byte for byte whatever its encoding; structured
    notifications read back; version strings and pane labels are decided
    exactly. *)
From S2P Require Import Prelude Text Utf8 Identity TmuxText.
Local Open Scope N_scope.

(** ** Quoting

    tmux's command lexer is not part of the repository.  What the quoting rule
    relies on: text between single quotes is literal, a backslash makes the
    quote after it literal, and an unquoted space or the end of the line ends
    the word. *)
Class TmuxLexer := lex_word : rstr → option (rstr * rstr).
Class TmuxLexerLaws `{!TmuxLexer} := {
  lex_end : lex_word [] = Some ([], []);
  lex_space rest : lex_word (32 :: rest) = Some ([], 32 :: rest);
  lex_quoted text rest : 39 ∉ text → 10 ∉ text → 13 ∉ text → 0 ∉ text →
    lex_word (39 :: text ++ 39 :: rest) = prod_map (app text) id <$> lex_word rest;
  lex_escaped rest : lex_word (92 :: 39 :: rest) = prod_map (cons 39) id <$> lex_word rest;
}.

(** What cannot stand on a control-mode command line. *)
Definition line_breaker (c : rchar) : bool := (c =? 10) || (c =? 13) || (c =? 0).
Definition on_one_line (s : rstr) : rstr := List.filter (λ c, negb (line_breaker c)) s.
Definition ends_word (rest : rstr) : Prop := rest = [] ∨ ∃ rest', rest = 32 :: rest'.

Lemma quote_chars_no_breaker s : Forall (λ c, line_breaker c = false) (mjoin (quote_char <$> s)).
Proof.
  induction s as [|c s IH]; [constructor|]. cbn. apply Forall_app. split; [|done]. unfold quote_char.
  fold (line_breaker c). destruct (line_breaker c) eqn:E; [constructor|].
  destruct (c =? 39); repeat constructor; done.
Qed.
Lemma not_breaker_elem c s :
  line_breaker c = true → Forall (λ c, line_breaker c = false) s → c ∉ s.
Proof. intros Hc Hs Hin. pose proof (Forall_elem _ _ _ Hs Hin). cbn in *. congruence. Qed.

Section lexer.
Context `{TmuxLexerLaws}.
(** The state inside the quotes: literal text [pre] so far. *)
Lemma lex_quoted_chars pre s rest :
  ends_word rest → 39 ∉ pre → Forall (λ c, line_breaker c = false) pre →
  lex_word (39 :: pre ++ mjoin (quote_char <$> s) ++ 39 :: rest) = Some (pre ++ on_one_line s, rest).
Proof.
  intros Hrest. revert pre. induction s as [|c s IH]; intros pre Hq Hpre.
  - cbn. rewrite lex_quoted by (done || by apply not_breaker_elem).
    destruct Hrest as [-> |[rest' ->]]; [rewrite lex_end|rewrite lex_space]; done.
  - change (mjoin (quote_char <$> c :: s)) with (quote_char c ++ mjoin (quote_char <$> s)).
    unfold quote_char at 1. fold (line_breaker c).
    cbn [on_one_line List.filter]. fold (on_one_line s). destruct (line_breaker c) eqn:Hc; cbn [negb].
    + cbn [app]. by apply IH.
    + destruct (N.eqb_spec c 39) as [-> |Hne].
      * cbn [app]. change (pre ++ 39 :: ?l) with (pre ++ 39 :: l).
        rewrite lex_quoted by (done || by apply not_breaker_elem). rewrite lex_escaped.
        pose proof (IH [] ltac:(set_solver) ltac:(constructor)) as IHn. cbn [app] in IHn. rewrite IHn. done.
      * rewrite <-app_assoc. cbn [app].
        replace (pre ++ c :: mjoin (quote_char <$> s) ++ 39 :: rest)
          with ((pre ++ [c]) ++ mjoin (quote_char <$> s) ++ 39 :: rest) by (by rewrite <-app_assoc).
        rewrite IH; [by rewrite <-app_assoc|set_solver|]. apply Forall_app. split; [done|by constructor].
Qed.
Lemma lex_quote_arg s rest :
  ends_word rest → lex_word (quote_arg s ++ rest) = Some (on_one_line s, rest).
Proof.
  intros Hrest. unfold quote_arg. rewrite <-!app_assoc. cbn [app].
  by apply (lex_quoted_chars []); [|set_solver|constructor].
Qed.

(** A quoted argument is exactly one word of the command line: whatever
    the argument holds, tmux reads back its characters, less the three that no
    command line can carry, and goes on after it; and the quoted text holds no
    character that would end the line. *)
Theorem quoted_argument_is_one_word s rest :
  ends_word rest →
  lex_word (quote_arg s ++ rest) = Some (on_one_line s, rest) ∧
  Forall (λ c, line_breaker c = false) (quote_arg s).
Proof.
  intros Hrest. split.
  - by apply lex_quote_arg.
  - unfold quote_arg. repeat (apply Forall_app; split); [by repeat constructor|apply quote_chars_no_breaker|].
    by repeat constructor.
Qed.
End lexer.

(** ** Labels *)
Lemma is_available_spec escape_debug label :
  is_available escape_debug label = true ↔
  label ≠ [] ∧ label ≠ ADMIN ∧ label ≠ EVERYONE ∧
  (∀ rest, label ≠ 37 :: rest) ∧ Forall (λ c, is_control c = false) label.
Proof.
  unfold is_available, refusal. do 3 (case_bool_decide; [split; [done|by intros (?&?&?&_)]|]).
  unfold starts_with. case_bool_decide as Hp.
  - destruct Hp as [r Hr]. apply strip_prefix_Some in Hr. split; [done|]. intros (_ & _ & _ & Hn & _).
    by destruct (Hn r).
  - destruct (existsb is_control label) eqn:E.
    + split; [done|]. intros (_ & _ & _ & _ & Hall). apply List.existsb_exists in E as (c & Hc & Ec).
      apply list_elem_of_In in Hc. pose proof (Forall_elem _ _ _ Hall Hc). cbn in *. congruence.
    + split; [|done]. intros _. split_and!; try done.
      * intros rest ->. apply Hp. exists rest. by apply strip_prefix_Some.
      * apply Forall_forall. intros c Hc. apply not_true_iff_false. intros Ec.
        apply not_true_iff_false in E. apply E, List.existsb_exists. exists c. by rewrite <-list_elem_of_In.
Qed.
Lemma on_one_line_id s : Forall (λ c, is_control c = false) s → on_one_line s = s.
Proof.
  induction 1 as [|c s Hc _ IH]; [done|]. cbn [on_one_line List.filter]. fold (on_one_line s). rewrite IH.
  unfold is_control, line_breaker in *. destruct (N.leb_spec c 31); [done|].
  rewrite (proj2 (N.eqb_neq c 10)), (proj2 (N.eqb_neq c 13)), (proj2 (N.eqb_neq c 0)) by lia. done.
Qed.

(** A label is refused exactly for the five stated reasons; one that is
    not refused is no pane id and not the administrator's, and reaches tmux
    unchanged, so the border and the record wear the same name. *)
Theorem labels_refused_exactly `{TmuxLexerLaws} escape_debug label :
  (is_available escape_debug label = true ↔
   label ≠ [] ∧ label ≠ ADMIN ∧ label ≠ EVERYONE ∧
   (∀ rest, label ≠ 37 :: rest) ∧ Forall (λ c, is_control c = false) label) ∧
  (is_available escape_debug label = true →
   (∀ kind, parse_tmux_id label 37 kind = Err (InvalidTmuxId kind 37)) ∧
   ∀ rest, ends_word rest → lex_word (quote_arg label ++ rest) = Some (label, rest)).
Proof.
  split; [apply is_available_spec|]. intros Ha%is_available_spec.
  destruct Ha as (Hne & _ & _ & Hp & Hc). split.
  - intros kind. unfold parse_tmux_id. destruct (strip_prefix [37] label) as [r|] eqn:E; [|done].
    apply strip_prefix_Some in E. destruct (Hp _ E).
  - intros rest Hrest. by rewrite lex_quote_arg, on_one_line_id.
Qed.

(** ** Pane output *)

(** What tmux may write for the bytes of a pane: any byte but a backslash
    stands for itself, and any byte may be written as three octal digits. *)
Definition octal (b : N) : list N := [92; 48 + b / 64; 48 + b / 8 mod 8; 48 + b mod 8].
Inductive octal_escaped : list N → list N → Prop :=
| escaped_nil : octal_escaped [] []
| escaped_verbatim b data wire :
    b ≠ 92 → octal_escaped data wire → octal_escaped (b :: data) (b :: wire)
| escaped_octal b data wire :
    b < 256 → octal_escaped data wire → octal_escaped (b :: data) (octal b ++ wire).

Lemma octal_digits b : b < 256 →
  is_octal_digit (48 + b / 64) = true ∧ is_octal_digit (48 + b / 8 mod 8) = true ∧
  is_octal_digit (48 + b mod 8) = true ∧
  (48 + b / 64 - 48) * 64 + (48 + b / 8 mod 8 - 48) * 8 + (48 + b mod 8 - 48) = b.
Proof.
  intros Hb. unfold is_octal_digit. rewrite !in_range_true.
  pose proof (N.div_mod' b 64). pose proof (N.div_mod' b 8). pose proof (N.div_mod' (b / 8) 8).
  pose proof (N.mod_lt b 8 ltac:(done)). pose proof (N.mod_lt (b / 8) 8 ltac:(done)).
  assert (b / 64 < 4) by (apply N.Div0.div_lt_upper_bound; lia).
  assert (b / 8 / 8 = b / 64) as E by (by rewrite N.Div0.div_div). rewrite E in *. clear E.
  generalize dependent b. intros b. generalize (b / 64), (b / 8 mod 8), (b / 8), (b mod 8), (b mod 64). lia.
Qed.
Lemma unescape_escaped data wire : octal_escaped data wire → unescape_octal_bytes wire = data.
Proof.
  induction 1 as [|b data wire Hb _ IH|b data wire Hb _ IH]; [done| |].
  - cbn [unescape_octal_bytes]. rewrite (proj2 (N.eqb_neq b 92) Hb). by rewrite IH.
  - unfold octal. cbn [app unescape_octal_bytes]. destruct (octal_digits b Hb) as (-> & -> & -> & ->).
    cbn. rewrite IH. f_equal. by apply N.mod_small.
Qed.

(** Decides a property of a literal by evaluation. *)
Ltac ascii_literal := apply (bool_decide_unpack _); vm_compute; exact I.

(** The word of a line and what follows it. *)
Lemma split_once_none c s : c ∉ s → split_once [c] s = None.
Proof.
  intros Hc. destruct (split_once [c] s) as [[a b]|] eqn:E; [|done].
  apply split_once_Some in E. set_solver.
Qed.

(** An id of tmux: not empty, no space, valid text. *)
Definition tmux_word (s : rstr) : Prop := (s ≠ []) ∧ (32 ∉ s) ∧ scalars s.

Lemma output_line_bytes (word pane : rstr) wire :
  ascii word → tmux_word pane →
  utf8_bytes (word ++ [32] ++ pane ++ [32]) ++ wire =
  word ++ 32 :: utf8_bytes pane ++ 32 :: wire.
Proof.
  intros Hw _. rewrite !utf8_bytes_app, (ascii_bytes word), <-!app_assoc by done. done.
Qed.
(** A line that is valid UTF-8 decodes to its header and the text of its tail. *)
Lemma decode_line header wire s :
  scalars header → utf8_decode (utf8_bytes header ++ wire) = Some s →
  ∃ text, s = header ++ text ∧ utf8_bytes text = wire.
Proof.
  intros Hh. rewrite utf8_decode_app by done. intros (text & Ht & ->)%fmap_Some.
  apply utf8_decode_Some in Ht as [-> _]. by exists text.
Qed.

Lemma parse_output_text pane text :
  32 ∉ pane → parse_notification (str "%output" ++ [32] ++ pane ++ [32] ++ text) = Output pane (unescape_octal text).
Proof.
  intros Hp. unfold parse_notification. cbn [app].
  rewrite (split_once_char 32 (str "%output")) by ascii_literal.
  rewrite bool_decide_eq_true_2 by done. by rewrite split_once_char.
Qed.
Lemma parse_output_raw pane wire :
  tmux_word pane →
  parse_output_bytes (str "%output" ++ 32 :: utf8_bytes pane ++ 32 :: wire) =
  Some (Output pane (unescape_octal_bytes wire)).
Proof.
  intros (_ & Hp & Hs). unfold parse_output_bytes.
  change (str "%output" ++ 32 :: utf8_bytes pane ++ 32 :: wire)
    with (str "%output " ++ utf8_bytes pane ++ 32 :: wire).
  rewrite strip_prefix_app, split_once_char.
  - cbn [mbind option_bind]. by rewrite utf8_decode_bytes.
  - intros Hin. by apply utf8_bytes_ascii_in in Hin.
Qed.

(** The flow-control form carries the age before the data. *)
Lemma dec_string_no c n : is_ascii_digit c = false → c ∉ dec_string n.
Proof.
  intros Hc Hin. pose proof (Forall_elem _ _ _ (dec_string_digits n) Hin) as H. cbn in H. congruence.
Qed.
Lemma dec_string_ascii n : ascii (dec_string n).
Proof. eapply Forall_impl; [apply dec_string_digits|]. cbn. intros c Hc%in_range_true. lia. Qed.
Lemma split_whitespace_go_word cur s :
  Forall (λ c, is_whitespace c = false) s → cur ≠ [] ∨ s ≠ [] →
  split_whitespace_go cur s = [reverse cur ++ s].
Proof.
  intros Hs. revert cur. induction Hs as [|c s Hc Hs IH]; intros cur Hne; cbn.
  - rewrite bool_decide_eq_false_2 by (by destruct Hne). by rewrite app_nil_r.
  - rewrite Hc, IH by (left; done). by rewrite reverse_cons, <-app_assoc.
Qed.
Lemma digits_not_whitespace s :
  Forall (λ c, is_ascii_digit c = true) s → Forall (λ c, is_whitespace c = false) s.
Proof.
  intros H. eapply Forall_impl; [exact H|]. cbn. intros c Hc%in_range_true. unfold is_whitespace.
  rewrite !orb_false_iff, !in_range_false, !N.eqb_neq. lia.
Qed.
Lemma split_whitespace_dec n : split_whitespace (dec_string n) = [dec_string n].
Proof.
  apply (split_whitespace_go_word []).
  - apply digits_not_whitespace, dec_string_digits.
  - right. apply dec_string_nonempty.
Qed.
Lemma find_subslice_first x pat a b :
  x ∉ a → find_subslice (a ++ (x :: pat) ++ b) (x :: pat) = Some (length a).
Proof.
  induction a as [|y a IH]; intros Hn.
  - cbn [app]. pose proof (strip_prefix_app (x :: pat) b) as E. cbn [app] in E.
    cbn [find_subslice]. by rewrite E.
  - assert (x ≠ y) by set_solver. rewrite <-app_comm_cons. cbn [find_subslice].
    rewrite strip_prefix_head_ne by done. by rewrite IH by set_solver.
Qed.

Definition extended_header (pane : rstr) (age_ms : N) : rstr :=
  str "%extended-output" ++ [32] ++ pane ++ [32] ++ dec_string age_ms ++ str " : ".
Lemma parse_extended_text pane age_ms text :
  32 ∉ pane → age_ms ≤ u64_max →
  parse_notification (extended_header pane age_ms ++ text) = ExtendedOutput pane age_ms (unescape_octal text).
Proof.
  intros Hp Ha. unfold parse_notification, extended_header. rewrite <-!app_assoc. cbn [app].
  rewrite (split_once_char 32 (str "%extended-output"))
    by ascii_literal.
  rewrite bool_decide_eq_false_2, bool_decide_eq_true_2 by done.
  unfold parse_extended_output. rewrite split_once_char by done. unfold split_value.
  change (str " : ") with (32 :: str ": "). rewrite split_once_first by (by apply dec_string_no).
  rewrite split_whitespace_dec. cbn [head mbind option_bind]. unfold parse_u64.
  by rewrite parse_unsigned_dec.
Qed.
Lemma parse_extended_raw pane age_ms wire :
  tmux_word pane → age_ms ≤ u64_max →
  parse_output_bytes (utf8_bytes (extended_header pane age_ms) ++ wire) =
  Some (ExtendedOutput pane age_ms (unescape_octal_bytes wire)).
Proof.
  intros (_ & Hp & Hs) Ha. unfold parse_output_bytes, extended_header. rewrite !utf8_bytes_app.
  pose proof (dec_string_ascii age_ms) as Hd. rewrite (ascii_bytes (dec_string age_ms)), <-!app_assoc by done.
  change (utf8_bytes (str "%extended-output") ++ utf8_bytes [32] ++ ?x) with (str "%extended-output " ++ x).
  replace (strip_prefix (str "%output ") _) with (@None rstr) by done.
  rewrite strip_prefix_app. change (utf8_bytes [32] ++ ?x) with (32 :: x).
  rewrite split_once_char by (intros Hin; by apply utf8_bytes_ascii_in in Hin).
  cbn [mbind option_bind]. rewrite utf8_decode_bytes by done. cbn [mbind option_bind].
  change (utf8_bytes (str " : ")) with (32 :: str ": "). change (str " : ") with (32 :: str ": ").
  rewrite find_subslice_first by (by apply dec_string_no).
  rewrite take_app_length. cbn [mbind option_bind].
  rewrite split_char_notin by (by apply dec_string_no). cbn [head mbind option_bind].
  rewrite <-(ascii_bytes (dec_string age_ms)) at 1 by done. rewrite utf8_decode_bytes by (by apply ascii_scalars).
  cbn [mbind option_bind]. unfold parse_u64. rewrite parse_unsigned_dec by done. cbn [default from_option id].
  repeat f_equal. rewrite drop_app_ge by lia. by replace (length (dec_string age_ms) + 3 - length (dec_string age_ms))%nat with 3%nat by lia.
Qed.

(** Headers are text. *)
Lemma output_header_scalars word pane : ascii word → tmux_word pane → scalars (word ++ [32] ++ pane ++ [32]).
Proof.
  intros Hw Hp. repeat (apply Forall_app; split);
    [by apply ascii_scalars|by repeat constructor|apply Hp|by repeat constructor].
Qed.
Lemma extended_header_scalars pane age_ms : tmux_word pane → scalars (extended_header pane age_ms).
Proof.
  intros Hp. unfold extended_header. repeat (apply Forall_app; split);
    [|by repeat constructor|apply Hp|by repeat constructor|apply ascii_scalars, dec_string_ascii|];
    by ascii_literal.
Qed.

(** Pane output arrives byte for byte, in both forms tmux uses: however
    tmux escaped the bytes of a pane, and whether or not the line is valid
    UTF-8, the notification carries exactly those bytes and the pane's id. *)
Theorem pane_output_is_faithful pane data wire age_ms :
  tmux_word pane → octal_escaped data wire → age_ms ≤ u64_max →
  parse_notification_bytes (utf8_bytes (str "%output" ++ [32] ++ pane ++ [32]) ++ wire)
    = Output pane data ∧
  parse_notification_bytes (utf8_bytes (extended_header pane age_ms) ++ wire)
    = ExtendedOutput pane age_ms data.
Proof.
  intros Hp Hw Ha. pose proof (unescape_escaped _ _ Hw) as <-. unfold parse_notification_bytes.
  split.
  - destruct (utf8_decode _) as [s|] eqn:E.
    + apply decode_line in E as (text & -> & <-); [|apply output_header_scalars; [ascii_literal|done]].
      by rewrite <-!app_assoc, parse_output_text by apply Hp.
    + by rewrite output_line_bytes, parse_output_raw by (done || ascii_literal).
  - destruct (utf8_decode _) as [s|] eqn:E.
    + apply decode_line in E as (text & -> & <-); [|by apply extended_header_scalars].
      by rewrite parse_extended_text by (done || apply Hp).
    + by rewrite parse_extended_raw.
Qed.

(** ** Structured notifications *)

(** How control mode writes a structured notification. *)
Definition opt_token (o : option rstr) : rstr := match o with Some t => [32] ++ t | None => [] end.
Definition event_line (word rest : rstr) : option rstr := Some (word ++ 32 :: rest).
Definition event_line2 (word a rest : rstr) : option rstr := event_line word (a ++ 32 :: rest).
Definition notification_line (n : TmuxNotification) : option rstr :=
  match n with
  | ContinuityLost | Output _ _ | ExtendedOutput _ _ _ | Other _ => None
  | SessionChanged session name => event_line2 (str "%session-changed") session name
  | SessionRenamed None name => event_line (str "%session-renamed") name
  | SessionRenamed (Some session) name => event_line2 (str "%session-renamed") session name
  | SessionsChanged => Some (str "%sessions-changed")
  | WindowAdd window => event_line (str "%window-add") window
  | WindowClose window => event_line (str "%window-close") window
  | WindowRenamed window name => event_line2 (str "%window-renamed") window name
  | UnlinkedWindowAdd window => event_line (str "%unlinked-window-add") window
  | UnlinkedWindowClose window => event_line (str "%unlinked-window-close") window
  | UnlinkedWindowRenamed window name => event_line2 (str "%unlinked-window-renamed") window name
  | LayoutChange window rest => event_line2 (str "%layout-change") window rest
  | WindowPaneChanged window pane => event_line2 (str "%window-pane-changed") window pane
  | PaneModeChanged pane => event_line (str "%pane-mode-changed") pane
  | ClientDetached client => event_line (str "%client-detached") client
  | ClientSessionChanged client session name =>
      event_line2 (str "%client-session-changed") client (session ++ 32 :: name)
  | SubscriptionChanged name session window pane value =>
      event_line (str "%subscription-changed")
        ((name ++ opt_token session ++ opt_token window ++ opt_token pane) ++ str " : " ++ value)
  | Pause pane => event_line (str "%pause") pane
  | Continue pane => event_line (str "%continue") pane
  | Exit None => Some (str "%exit")
  | Exit (Some reason) => event_line (str "%exit") reason
  end.

(** The fields that are followed by others hold no separator, and an id wears
    its sigil; names and values are free text. *)
Definition token_ok (sigil : rchar) (o : option rstr) : Prop :=
  ∀ t, o = Some t → ∃ rest, t = sigil :: rest ∧ Forall (λ c, is_whitespace c = false) rest ∧ (58 ∉ rest).
Definition fields_ok (n : TmuxNotification) : Prop :=
  match n with
  | SessionChanged a _ | WindowRenamed a _ | UnlinkedWindowRenamed a _ | LayoutChange a _
  | WindowPaneChanged a _ => 32 ∉ a
  | SessionRenamed None name => ∀ a b, split_once [32] name = Some (a, b) → starts_with (str "$") a = false
  | SessionRenamed (Some session) _ => (32 ∉ session) ∧ starts_with (str "$") session = true
  | ClientSessionChanged client session _ => (32 ∉ client) ∧ (32 ∉ session)
  | SubscriptionChanged name session window pane _ =>
      name ≠ [] ∧ Forall (λ c, is_whitespace c = false) name ∧ (58 ∉ name) ∧
      token_ok 36 session ∧ token_ok 64 window ∧ token_ok 37 pane
  | Exit (Some reason) => reason ≠ []
  | _ => True
  end.

Lemma split_once_colon a b : 58 ∉ a → split_once (str " : ") (a ++ str " : " ++ b) = Some (a, b).
Proof.
  change (str " : ") with [32; 58; 32]. induction a as [|y a IH]; intros Hn; [done|].
  assert (58 ∉ a) as Ha by set_solver. rewrite <-app_comm_cons. cbn [split_once].
  assert (strip_prefix [32; 58; 32] (y :: a ++ [32; 58; 32] ++ b) = None) as ->; [|by rewrite IH].
  cbn [strip_prefix]. destruct (N.eqb_spec 32 y); [|done].
  destruct a as [|z a]; [done|]. cbn [app]. destruct (N.eqb_spec 58 z); [set_solver|done].
Qed.

(** Selects the branch of the parser a closed word takes. *)
Ltac pick_word :=
  unfold parse_notification;
  rewrite split_once_char by ascii_literal;
  repeat (rewrite bool_decide_eq_false_2 by done); rewrite bool_decide_eq_true_2 by done.

Definition blank_free (s : rstr) : Prop := Forall (λ c, is_whitespace c = false) s.
Lemma split_words ws s cur :
  blank_free s → cur ≠ [] ∨ s ≠ [] → Forall (λ w, blank_free w ∧ w ≠ []) ws →
  split_whitespace_go cur (s ++ mjoin (cons 32 <$> ws)) = (reverse cur ++ s) :: ws.
Proof.
  revert s cur. induction ws as [|w ws IH]; intros s cur Hs Hne Hws.
  - cbn. rewrite app_nil_r. by apply split_whitespace_go_word.
  - apply Forall_cons in Hws as [[Hw Hw0] Hws].
    change (mjoin (cons 32 <$> w :: ws)) with ((32 :: w) ++ mjoin (cons 32 <$> ws)).
    revert cur Hne. induction Hs as [|c s Hc Hs IHs]; intros cur Hne.
    + cbn [app split_whitespace_go]. rewrite bool_decide_eq_false_2 by (by destruct Hne).
      change (is_whitespace 32) with true. cbn [app]. rewrite IH by auto. by rewrite app_nil_r.
    + cbn [app split_whitespace_go]. rewrite Hc.
      change (32 :: w ++ mjoin (cons 32 <$> ws)) with ((32 :: w) ++ mjoin (cons 32 <$> ws)).
      rewrite IHs by (left; done). by rewrite reverse_cons, <-app_assoc.
Qed.
Definition tokens (l : list (option rstr)) : list rstr := omap id l.
Lemma opt_tokens session window pane :
  opt_token session ++ opt_token window ++ opt_token pane =
  mjoin (cons 32 <$> tokens [session; window; pane]).
Proof. destruct session, window, pane; cbn; by rewrite ?app_nil_r, <-?app_assoc. Qed.
Lemma token_blank_free sigil o :
  is_whitespace sigil = false → token_ok sigil o → ∀ t, o = Some t → blank_free t ∧ t ≠ [].
Proof. intros Hs Ho t Ht. destruct (Ho t Ht) as (rest & -> & Hr & _). split; [by constructor|done]. Qed.
Lemma token_no_colon sigil o : sigil ≠ 58 → token_ok sigil o → 58 ∉ opt_token o.
Proof.
  intros Hs Ho. destruct o as [t|]; cbn; [|set_solver].
  destruct (Ho t eq_refl) as (rest & -> & _ & Hr). set_solver.
Qed.
Lemma sigil_prefix sigil x rest : starts_with [sigil] (x :: rest) = (sigil =? x).
Proof.
  unfold starts_with. cbn. destruct (N.eqb_spec sigil x); [|by rewrite bool_decide_eq_false_2 by (by intros [])].
  by rewrite bool_decide_eq_true_2.
Qed.
Lemma subscription_ids session window pane :
  token_ok 36 session → token_ok 64 window → token_ok 37 pane →
  foldl subscription_token (None, None, None) (tokens [session; window; pane]) = (session, window, pane).
Proof.
  intros Hs Hw Hp. unfold subscription_token.
  destruct session as [s|]; [destruct (Hs s eq_refl) as (? & -> & _)|];
  destruct window as [w|]; [destruct (Hw w eq_refl) as (? & -> & _)| |destruct (Hw w eq_refl) as (? & -> & _)|];
  destruct pane as [q|]; try destruct (Hp q eq_refl) as (? & -> & _);
  cbn [tokens omap list_omap id foldl];
  change (str "$") with [36]; change (str "@") with [64]; change (str "%") with [37];
  rewrite ?sigil_prefix; reflexivity.
Qed.
Lemma parse_subscription name session window pane value line :
  fields_ok (SubscriptionChanged name session window pane value) →
  parse_subscription_changed line
    ((name ++ opt_token session ++ opt_token window ++ opt_token pane) ++ str " : " ++ value) =
  SubscriptionChanged name session window pane value.
Proof.
  intros (Hne & Hb & Hc & Hs & Hw & Hp). unfold parse_subscription_changed, split_value.
  rewrite split_once_colon.
  2:{ rewrite !elem_of_app. intros [H|[H|[H|H]]]; [done|..]; revert H;
      by eapply token_no_colon; [|eassumption]. }
  rewrite opt_tokens. unfold split_whitespace. rewrite split_words; [|done|by right|].
  2:{ apply Forall_forall. intros t Ht. unfold tokens in Ht. apply list_elem_of_omap in Ht as (o & Ho & Et).
      cbn in Et. subst o.
      repeat (apply elem_of_cons in Ho as [Ho|Ho]); [..|by apply not_elem_of_nil in Ho];
      (eapply token_blank_free; [..|symmetry; exact Ho]; [|eassumption]; done). }
  cbn [reverse rev_append app]. by rewrite subscription_ids.
Qed.

Lemma structured_round_trip n line :
  fields_ok n → notification_line n = Some line → parse_notification line = n.
Proof.
  intros Hok Hl. destruct n as [| | |a b|[a|] b| |w|w|a b|w|w|a b|a b|a b|q|c|a b c|name s w p v|q|q|[r|]|];
    try discriminate Hl; unfold notification_line, event_line2, event_line in Hl;
    apply (inj Some) in Hl; subst line; unfold fields_ok in Hok.
  all: first [pick_word | idtac].
  all: rewrite ?split_once_char by first [exact Hok | apply Hok].
  all: first [reflexivity | idtac].
  - by rewrite (proj2 Hok).
  - destruct (split_once [32] b) as [[session name]|] eqn:E; [|done]. by rewrite (Hok _ _ eq_refl).
  - by apply parse_subscription.
  - by rewrite bool_decide_eq_false_2.
Qed.

Lemma never_continuity_lost line : parse_notification line ≠ ContinuityLost.
Proof.
  unfold parse_notification, parse_extended_output, parse_subscription_changed.
  destruct (split_once [32] line) as [[word rest]|]; repeat case_match; discriminate.
Qed.

Lemma output_bytes_kind line n :
  parse_output_bytes line = Some n →
  (∃ pane data, n = Output pane data) ∨ (∃ pane age data, n = ExtendedOutput pane age data).
Proof.
  unfold parse_output_bytes. intros H. destruct (strip_prefix _ line).
  - apply bind_Some in H as ([? ?] & _ & H). apply bind_Some in H as (? & _ & H). left. naive_solver.
  - destruct (strip_prefix _ line); [|done]. apply bind_Some in H as ([? ?] & _ & H).
    apply bind_Some in H as (? & _ & H). apply bind_Some in H as ([? ?] & _ & H). right. naive_solver.
Qed.

(** Structured notifications read back: parsing the line of a session,
    window, client or subscription event gives that event.  No line at all reads
    as the adapter's own loss-of-continuity mark, so the mark is never forged. *)
Theorem notifications_round_trip n line :
  fields_ok n → notification_line n = Some line →
  parse_notification line = n ∧ ∀ raw, parse_notification_bytes raw ≠ ContinuityLost.
Proof.
  intros Hok Hl. split; [by apply structured_round_trip|]. intros raw. unfold parse_notification_bytes.
  destruct (utf8_decode raw); [apply never_continuity_lost|].
  destruct (parse_output_bytes raw) as [m|] eqn:E; [|apply never_continuity_lost].
  by apply output_bytes_kind in E as [(? & ? & ->)|(? & ? & ? & ->)].
Qed.

(** ** Versions *)
Lemma trim_end_matches_suffix f s t :
  forallb f t = true → (∀ s' c, s = s' ++ [c] → f c = false) → trim_end_matches f (s ++ t) = s.
Proof.
  intros Ht Hs. unfold trim_end_matches. rewrite reverse_app.
  assert (∀ u v, forallb f u = true → drop_while f (u ++ v) = drop_while f v) as Hd.
  { intros u v. induction u as [|c u IH]; cbn; [done|]. intros [-> Hu]%andb_true_iff. by apply IH. }
  rewrite Hd.
  - destruct s as [|c s _] using rev_ind; [done|]. rewrite reverse_snoc. cbn [drop_while].
    rewrite (Hs s c) by done. by rewrite reverse_cons, reverse_involutive.
  - apply forallb_forall. intros c Hc%list_elem_of_In. rewrite elem_of_reverse in Hc.
    exact (forallb_elem f t c Ht Hc).
Qed.
Lemma dec_string_last n s' c : dec_string n = s' ++ [c] → is_ascii_digit c = true.
Proof.
  intros E. pose proof (dec_string_digits n) as H. rewrite E in H. apply Forall_app in H as [_ H].
  by apply Forall_cons in H as [H _].
Qed.
Lemma digit_not_alpha c : is_ascii_digit c = true → is_ascii_alphabetic c = false.
Proof.
  intros H%in_range_true. unfold is_ascii_alphabetic. apply orb_false_iff.
  split; apply in_range_false; lia.
Qed.
Lemma trim_newline s :
  (∀ c s', s = c :: s' → is_whitespace c = false) →
  (∀ l c, s = l ++ [c] → is_whitespace c = false) → s ≠ [] → trim (s ++ [10]) = s.
Proof.
  intros H1 H2 Hne. unfold trim. rewrite trim_start_fix.
  2:{ intros c s' E. destruct s as [|d s]; [done|]. injection E as -> _. by eapply H1. }
  unfold trim_end. rewrite reverse_snoc. cbn [trim_start]. change (is_whitespace 10) with true.
  change (reverse (trim_start (reverse s))) with (trim_end s).
  pose proof (trim_fix s H1 H2) as E. unfold trim in E. by rewrite (trim_start_fix s H1) in E.
Qed.

(** What [tmux -V] prints for a release or a development build. *)
Definition version_text (next : bool) (a b : N) (suffix : rstr) : rstr :=
  (if next then str "next-" else []) ++ dec_string a ++ [46] ++ dec_string b ++ suffix.
Lemma alpha_not_whitespace c : is_ascii_alphabetic c = true → is_whitespace c = false.
Proof.
  unfold is_ascii_alphabetic. intros [H|H]%orb_true_iff; apply in_range_true in H;
    unfold is_whitespace; rewrite !orb_false_iff, !in_range_false, !N.eqb_neq; lia.
Qed.
Lemma version_text_last next a b suffix l c :
  forallb is_ascii_alphabetic suffix = true →
  str "tmux " ++ version_text next a b suffix = l ++ [c] → is_whitespace c = false.
Proof.
  intros Hs E. unfold version_text in E. rewrite !app_assoc in E.
  destruct suffix as [|x suffix _] using rev_ind.
  - rewrite app_nil_r in E. destruct (dec_string b) as [|y t _] eqn:Eb using rev_ind.
    { by destruct (dec_string_nonempty b). }
    rewrite app_assoc in E. apply app_inj_tail in E as [_ <-]. apply dec_string_last in Eb.
    apply in_range_true in Eb. unfold is_whitespace.
    rewrite !orb_false_iff, !in_range_false, !N.eqb_neq; lia.
  - rewrite app_assoc in E. apply app_inj_tail in E as [_ <-]. apply alpha_not_whitespace.
    apply (forallb_elem _ _ x Hs). set_solver.
Qed.
(** Every release and development version text reads back, and the feature
    predicates compare it as a pair. *)
Lemma version_round_trip next a b suffix :
  a ≤ u32_max → b ≤ u32_max → forallb is_ascii_alphabetic suffix = true →
  let v := version_parse (str "tmux " ++ version_text next a b suffix ++ [10]) in
  tv_raw v = version_text next a b suffix ∧ tv_numeric v = Some (a, b) ∧
  (has_pause_after v = true ↔ 3 < a ∨ a = 3 ∧ 2 ≤ b) ∧
  (has_bracket_paste_flag v = true ↔ 3 < a ∨ a = 3 ∧ 8 ≤ b).
Proof.
  intros Ha Hb Hs v.
  assert (v = MkTmuxVersion (version_text next a b suffix) (Some (a, b))) as ->.
  { unfold v, version_parse. rewrite app_assoc, trim_newline; [|by intros c s' [= <-]| |done].
    2:{ intros l c. by apply version_text_last. }
    rewrite strip_prefix_app. cbn [default from_option id]. f_equal.
    assert (default (version_text next a b suffix) (strip_prefix (str "next-") (version_text next a b suffix))
      = dec_string a ++ 46 :: dec_string b ++ suffix) as ->.
    { unfold version_text. destruct next; [by rewrite strip_prefix_app|]. cbn [app].
      pose proof (dec_string_digits a) as Hd. destruct (dec_string a) as [|c s] eqn:E;
        [by destruct (dec_string_nonempty a)|].
      apply Forall_cons in Hd as [Hd%in_range_true _].
      change (str "next-") with (110 :: str "ext-"). cbn [app]. rewrite strip_prefix_head_ne by lia. done. }
    rewrite split_char_app by (by apply dec_string_no).
    assert (∀ c, is_ascii_alphabetic c = true → c ≠ 46) as Hdot by (by intros c Hc ->).
    rewrite split_char_notin.
    2:{ rewrite elem_of_app. intros [H|H]; [by apply (dec_string_no 46) in H|].
        by apply (forallb_elem _ _ _ Hs), Hdot in H. }
    cbn [head lookup list_lookup mbind option_bind]. unfold parse_u32.
    rewrite trim_end_matches_suffix; [|done|]; [by rewrite !parse_unsigned_dec|].
    intros s' c Hc%dec_string_last. by apply digit_not_alpha. }
  unfold has_pause_after, has_bracket_paste_flag, version_at_least. cbn [tv_raw tv_numeric].
  rewrite !orb_true_iff, !andb_true_iff, !N.ltb_lt, !N.leb_le, !N.eqb_eq. done.
Qed.
