(* ===== verification/Registry.v ===== *)
(** * The adoption registry

    [src/cyclopsd/src/registry.rs]: which pane, and which headless agent process,
    wears which label, with the tmux chrome to give back.  The live registry and the
    file [registry.json] beside it are the two halves of [RegHost]; every operation
    writes the whole candidate file first and takes the candidate second.

    What [StateRoot::replace_file] does is an input, [Write]: the rename happened and
    was synced, nothing was replaced, or the rename happened and its directory could
    not be synced, which is an error with the new file in place.  The JSON text of a
    file is a parameter, [RegistryJson]: serde's derived encoding.  The values of a
    [HashMap] are visited in the order of [map_to_list], which stands for an arbitrary
    order. *)
From S2P Require Import Prelude Text Identity.
Local Open Scope N_scope.
Local Open Scope rust_scope.

(** ** Rows *)
Record Adoption := MkAdoption {
  ad_session : rstr;
  ad_pane_id : rstr;
  ad_label : rstr;
  ad_recipient : option RecipientKey;
  ad_pane_root : option ProcessInstanceId;
  ad_manifest : option rstr;
  ad_pane_pid : Z;
  ad_window_id : rstr;
  ad_border_format : option rstr;
}.
Record HeadlessAdoption := MkHeadlessAdoption {
  ha_label : rstr;
  ha_recipient : RecipientKey;
  ha_root : ProcessInstanceId;
  ha_os_boot_id : rstr;
  ha_manifest : option rstr;
}.
Inductive LabelHolder := HolderPane (a : Adoption) | HolderHeadless (a : HeadlessAdoption).
Record WindowChrome := MkWindowChrome {
  wc_session : rstr;
  wc_window_id : rstr;
  wc_border_status : option rstr;
}.
Record RegistryFile := MkRegistryFile {
  rf_version : N;
  rf_panes : list Adoption;
  rf_windows : list WindowChrome;
  rf_headless : list HeadlessAdoption;
}.
#[export] Instance Adoption_eq_dec : EqDecision Adoption.
Proof. solve_decision. Defined.
#[export] Instance HeadlessAdoption_eq_dec : EqDecision HeadlessAdoption.
Proof. solve_decision. Defined.
#[export] Instance WindowChrome_eq_dec : EqDecision WindowChrome.
Proof. solve_decision. Defined.
#[export] Instance LabelHolder_eq_dec : EqDecision LabelHolder.
Proof. solve_decision. Defined.
Definition registry_version : N := 1.

Record Registry := MkRegistry {
  rg_panes : gmap RecipientKey Adoption;
  rg_legacy_panes : list Adoption;
  rg_windows : gmap rstr WindowChrome;
  rg_headless : gmap RecipientKey HeadlessAdoption;
}.
Definition empty_registry : Registry := MkRegistry ∅ [] ∅ ∅.

Lemma existsb_values {K A} `{Countable K} (m : gmap K A) (p : A → bool) :
  existsb p (map_values m) = true ↔ ∃ k a, m !! k = Some a ∧ p a = true.
Proof.
  rewrite existsb_exists. split.
  - intros (a & Ha & Hp). apply list_elem_of_In, elem_of_values in Ha as [k Hk]. eauto.
  - intros (k & a & Hk & Hp). exists a. split; [|done]. apply list_elem_of_In, elem_of_values. eauto.
Qed.

Definition in_window (w : rstr) (a : Adoption) : bool := bool_decide (ad_window_id a = w).
(** Some adopted pane, exact or legacy, is in the window. *)
Definition occupied (panes : gmap RecipientKey Adoption) (legacy : list Adoption) (w : rstr) : bool :=
  existsb (in_window w) (map_values panes) || existsb (in_window w) legacy.

(** ** The file *)
Class RegistryJson := {
  to_string_pretty : RegistryFile → option rstr;
  from_json : rstr → option RegistryFile;
}.
(** What serde promises of a derived [Serialize] and [Deserialize]; a trailing newline is
    white space. *)
Class RegistryJsonLaws `{RegistryJson} : Prop :=
  json_round_trip f t : to_string_pretty f = Some t → from_json (t ++ [10]) = Some f.

Inductive Write := WriteLanded | WriteRefused | WriteUnsynced.
Inductive StateError := EncodeFailed | ReplaceRefused | ReplacementDurabilityUnknown | RegistryPanic.
Record RegHost := MkRegHost { rh_live : Registry; rh_disk : option rstr }.

Definition pane_row_le (a b : Adoption) : Prop :=
  (if bool_decide (ad_session a = ad_session b) then rstr_leb (ad_pane_id a) (ad_pane_id b)
   else rstr_leb (ad_session a) (ad_session b)) = true.
Definition window_row_le (a b : WindowChrome) : Prop := rstr_le (wc_window_id a) (wc_window_id b).
Definition headless_row_le (a b : HeadlessAdoption) : Prop := recipient_key_le (ha_recipient a) (ha_recipient b).
Definition by_pane_id (a b : Adoption) : Prop := rstr_le (ad_pane_id a) (ad_pane_id b).
#[export] Instance pane_row_le_dec : RelDecision pane_row_le.
Proof. intros a b. unfold pane_row_le. apply _. Defined.
#[export] Instance window_row_le_dec : RelDecision window_row_le.
Proof. intros a b. unfold window_row_le. apply _. Defined.
#[export] Instance headless_row_le_dec : RelDecision headless_row_le.
Proof. intros a b. unfold headless_row_le. apply _. Defined.
#[export] Instance by_pane_id_dec : RelDecision by_pane_id.
Proof. intros a b. unfold by_pane_id. apply _. Defined.

Definition file_of (r : Registry) : RegistryFile :=
  MkRegistryFile registry_version
    (merge_sort pane_row_le (map_values (rg_panes r) ++ rg_legacy_panes r))
    (merge_sort window_row_le (map_values (rg_windows r)))
    (merge_sort headless_row_le (map_values (rg_headless r))).

(** What opening [registry.json] gives: nothing there, an error of either read, or its text. *)
Inductive RegistrySource := SourceMissing | SourceUnreadable | SourceText (text : rstr).
Inductive LoadWarning := CannotRead | NotARegistry | WrongVersion (version : N).
(** [HashMap::insert] of every row that has a key. *)
Definition file_row {K A} `{Countable K} (key : A → option K) (m : gmap K A) (a : A) : gmap K A :=
  match key a with Some k => <[k := a]> m | None => m end.
(** The key of a row that names its recipient and its pane root. *)
Definition exact_key (a : Adoption) : option RecipientKey :=
  match ad_recipient a, ad_pane_root a with Some k, Some _ => Some k | _, _ => None end.
Definition headless_key (a : HeadlessAdoption) : option RecipientKey :=
  if is_headless (ha_recipient a) then Some (ha_recipient a) else None.
Definition load_file (f : RegistryFile) : Registry :=
  MkRegistry (foldl (file_row exact_key) ∅ (rf_panes f))
    (filter (λ a, exact_key a = None) (rf_panes f))
    (foldl (file_row (λ w, Some (wc_window_id w))) ∅ (rf_windows f))
    (foldl (file_row headless_key) ∅ (rf_headless f)).

Section registry.
Context `{RegistryJson}.

Definition registry_load (source : RegistrySource) : Registry * list LoadWarning :=
  match source with
  | SourceMissing => (empty_registry, [])
  | SourceUnreadable => (empty_registry, [CannotRead])
  | SourceText text =>
      match from_json text with
      | None => (empty_registry, [NotARegistry])
      | Some f =>
          if rf_version f =? registry_version then (load_file f, [])
          else (empty_registry, [WrongVersion (rf_version f)])
      end
  end.
(** A boot that finds the file the daemon left behind. *)
Definition source_of (disk : option rstr) : RegistrySource :=
  match disk with None => SourceMissing | Some t => SourceText t end.

(** [commit_all]: write the candidate, then take it. *)
Definition commit_all (w : Write) (h : RegHost) (candidate : Registry) : RegHost * result StateError () :=
  match to_string_pretty (file_of candidate) with
  | None => (h, Err EncodeFailed)
  | Some text =>
      match w with
      | WriteLanded => (MkRegHost candidate (Some (text ++ [10])), Ok ())
      | WriteRefused => (h, Err ReplaceRefused)
      | WriteUnsynced => (MkRegHost (rh_live h) (Some (text ++ [10])), Err ReplacementDurabilityUnknown)
      end
  end.
(** [commit]: the headless rows stay. *)
Definition registry_commit (w : Write) (h : RegHost) (panes : gmap RecipientKey Adoption) (legacy : list Adoption)
    (windows : gmap rstr WindowChrome) : RegHost * result StateError () :=
  commit_all w h (MkRegistry panes legacy windows (rg_headless (rh_live h))).
Definition commit_then {A} (x : RegHost * result StateError ()) (a : A) : RegHost * result StateError A :=
  (x.1, let? _ := x.2 in Ok a).

(** ** Reads *)
Definition for_route (r : Registry) (k : RecipientKey) (root : ProcessInstanceId) : option Adoption :=
  a ← rg_panes r !! k; if bool_decide (ad_pane_root a = Some root) then Some a else None.
Definition route_is_current (r : Registry) (k : RecipientKey) (root : ProcessInstanceId) : bool :=
  if is_headless k
  then match rg_headless r !! k with Some a => bool_decide (ha_root a = root) | None => false end
  else bool_decide (is_Some (for_route r k root)).
Definition headless_for_root (r : Registry) (root : ProcessInstanceId) : option HeadlessAdoption :=
  snd <$> list_find (λ a, ha_root a = root) (map_values (rg_headless r)).
Definition headless_adoptions (r : Registry) : list HeadlessAdoption :=
  merge_sort headless_row_le (map_values (rg_headless r)).
Definition label_holder (r : Registry) (label : rstr) (except : option RecipientKey) : option LabelHolder :=
  match list_find (λ a, ad_label a = label ∧ ad_recipient a ≠ except) (map_values (rg_panes r)) with
  | Some (_, a) => Some (HolderPane a)
  | None =>
      (λ x, HolderHeadless x.2) <$> list_find (λ a, ha_label a = label ∧ Some (ha_recipient a) ≠ except) (map_values (rg_headless r))
  end.
Definition for_recipient (r : Registry) (k : RecipientKey) : option Adoption := rg_panes r !! k.
Definition for_physical_pane (r : Registry) (pane : rstr) (root : ProcessInstanceId) : option Adoption :=
  match filter (λ a, ad_pane_id a = pane ∧ ad_pane_root a = Some root) (map_values (rg_panes r)) with
  | [a] => Some a
  | _ => None
  end.
Definition recipient_option_le (a b : Adoption) : Prop :=
  match ad_recipient a, ad_recipient b with
  | None, _ => True
  | Some _, None => False
  | Some k, Some k' => recipient_key_le k k'
  end.
#[global] Instance recipient_option_le_dec : RelDecision recipient_option_le.
Proof. intros a b. unfold recipient_option_le. destruct (ad_recipient a), (ad_recipient b); apply _. Defined.
Definition in_pane (r : Registry) (pane : rstr) : list Adoption :=
  merge_sort recipient_option_le (filter (λ a, ad_pane_id a = pane) (map_values (rg_panes r))).
Definition exact_adoptions (r : Registry) : list Adoption := map_values (rg_panes r).
Definition for_label (r : Registry) (label : rstr) : option Adoption :=
  snd <$> list_find (λ a, ad_label a = label) (map_values (rg_panes r)).
Definition labels_row (acc : gmap rstr rstr * gset rstr) (a : Adoption) : gmap rstr rstr * gset rstr :=
  let '(labels, ambiguous) := acc in
  if bool_decide (ad_pane_id a ∈ ambiguous) then acc
  else if bool_decide (is_Some (labels !! ad_pane_id a)) then (delete (ad_pane_id a) labels, {[ad_pane_id a]} ∪ ambiguous)
  else (<[ad_pane_id a := ad_label a]> labels, ambiguous).
Definition registry_labels (r : Registry) : gmap rstr rstr := (foldl labels_row (∅, ∅) (map_values (rg_panes r))).1.
(** [sort] then [dedup]. *)
Fixpoint dedup (l : list rstr) : list rstr :=
  match l with
  | a :: (b :: _) as rest => if bool_decide (a = b) then dedup rest else a :: dedup rest
  | _ => l
  end.
Definition registry_sessions (r : Registry) : list rstr := dedup (merge_sort rstr_le (ad_session <$> map_values (rg_panes r))).
Definition in_session (r : Registry) (session : rstr) : list Adoption :=
  merge_sort by_pane_id (filter (λ a, ad_session a = session) (map_values (rg_panes r))).
Definition registry_window (r : Registry) (w : rstr) : option WindowChrome := rg_windows r !! w.

(** ** Changes *)
Definition release_window (panes : gmap RecipientKey Adoption) (legacy : list Adoption) (windows : gmap rstr WindowChrome)
    (w : rstr) : option WindowChrome * gmap rstr WindowChrome :=
  if occupied panes legacy w then (None, windows) else (windows !! w, delete w windows).
Definition or_insert (windows : gmap rstr WindowChrome) (w : rstr) (chrome : WindowChrome) : gmap rstr WindowChrome :=
  match windows !! w with Some _ => windows | None => <[w := chrome]> windows end.

Definition adopt_headless (w : Write) (h : RegHost) (a : HeadlessAdoption) : RegHost * result StateError () :=
  let r := rh_live h in
  if is_headless (ha_recipient a)
  then commit_all w h (MkRegistry (rg_panes r) (rg_legacy_panes r) (rg_windows r) (<[ha_recipient a := a]> (rg_headless r)))
  else (h, Err RegistryPanic).
Definition set_headless (h : RegHost) (m : gmap RecipientKey HeadlessAdoption) : RegHost :=
  let r := rh_live h in MkRegHost (MkRegistry (rg_panes r) (rg_legacy_panes r) (rg_windows r) m) (rh_disk h).
Definition retire_headless (w : Write) (h : RegHost) (k : RecipientKey) : RegHost * option HeadlessAdoption :=
  let r := rh_live h in
  match rg_headless r !! k with
  | None => (h, None)
  | Some gone =>
      let left := delete k (rg_headless r) in
      match commit_all w h (MkRegistry (rg_panes r) (rg_legacy_panes r) (rg_windows r) left) with
      | (h', Ok _) => (h', Some gone)
      | (h', Err _) => (set_headless h' (delete k (rg_headless (rh_live h'))), Some gone)
      end
  end.
Definition retain_headless (w : Write) (h : RegHost) (keep : HeadlessAdoption → bool) : RegHost * list HeadlessAdoption :=
  let r := rh_live h in
  let left := filter (λ x : RecipientKey * HeadlessAdoption, keep x.2 = true) (rg_headless r) in
  let dropped := filter (λ a, keep a = false) (map_values (rg_headless r)) in
  if bool_decide (dropped = []) then (h, dropped)
  else
    match commit_all w h (MkRegistry (rg_panes r) (rg_legacy_panes r) (rg_windows r) left) with
    | (h', Ok _) => (h', dropped)
    | (h', Err _) => (set_headless h' left, dropped)
    end.

Definition rename_adoption (old new : rstr) (a : Adoption) : Adoption :=
  if bool_decide (ad_session a = old)
  then MkAdoption new (ad_pane_id a) (ad_label a) (ad_recipient a) (ad_pane_root a) (ad_manifest a) (ad_pane_pid a)
         (ad_window_id a) (ad_border_format a)
  else a.
Definition rename_window (old new : rstr) (w : WindowChrome) : WindowChrome :=
  if bool_decide (wc_session w = old) then MkWindowChrome new (wc_window_id w) (wc_border_status w) else w.
Definition rename_session (w : Write) (h : RegHost) (old new : rstr) : RegHost * result StateError () :=
  let r := rh_live h in
  if bool_decide (old = new) then (h, Ok ())
  else
    let changed :=
      existsb (λ a, bool_decide (ad_session a = old)) (map_values (rg_panes r))
      || existsb (λ a, bool_decide (ad_session a = old)) (rg_legacy_panes r)
      || existsb (λ c, bool_decide (wc_session c = old)) (map_values (rg_windows r)) in
    if changed
    then registry_commit w h (rename_adoption old new <$> rg_panes r) (rename_adoption old new <$> rg_legacy_panes r)
           (rename_window old new <$> rg_windows r)
    else (h, Ok ()).

Definition adopt (w : Write) (h : RegHost) (a : Adoption) (chrome : WindowChrome) : RegHost * result StateError () :=
  let r := rh_live h in
  match ad_recipient a, ad_pane_root a with
  | Some k, Some _ =>
      registry_commit w h (<[k := a]> (rg_panes r))
        (filter (λ l, ad_session l ≠ ad_session a ∨ ad_pane_id l ≠ ad_pane_id a) (rg_legacy_panes r))
        (or_insert (rg_windows r) (wc_window_id chrome) chrome)
  | _, _ => (h, Err RegistryPanic)
  end.
Definition rebound (replacement : ProcessInstanceId) (a : Adoption) : Adoption :=
  MkAdoption (ad_session a) (ad_pane_id a) (ad_label a) (ad_recipient a) (Some replacement) (ad_manifest a)
    (process_pid (bval replacement)) (ad_window_id a) (ad_border_format a).
Definition rebind_process (w : Write) (h : RegHost) (k : RecipientKey) (expected replacement : ProcessInstanceId)
    : RegHost * result StateError bool :=
  let r := rh_live h in
  match rg_panes r !! k with
  | None => (h, Ok false)
  | Some a =>
      if bool_decide (ad_pane_root a = Some replacement) then (h, Ok true)
      else if bool_decide (ad_pane_root a ≠ Some expected) then (h, Ok false)
      else commit_then (registry_commit w h (<[k := rebound replacement a]> (rg_panes r)) (rg_legacy_panes r) (rg_windows r)) true
  end.
Definition pending_clear (r : Registry) (k : RecipientKey) (root : ProcessInstanceId) : option (Adoption * option WindowChrome) :=
  gone ← for_route r k root;
  Some (gone, (release_window (delete k (rg_panes r)) (rg_legacy_panes r) (rg_windows r) (ad_window_id gone)).1).
Definition registry_clear (w : Write) (h : RegHost) (k : RecipientKey) (root : ProcessInstanceId)
    : RegHost * result StateError (option (Adoption * option WindowChrome)) :=
  let r := rh_live h in
  match for_route r k root with
  | None => (h, Ok None)
  | Some gone =>
      let panes := delete k (rg_panes r) in
      let '(freed, windows) := release_window panes (rg_legacy_panes r) (rg_windows r) (ad_window_id gone) in
      commit_then (registry_commit w h panes (rg_legacy_panes r) windows) (Some (gone, freed))
  end.
Definition moved_to (w : rstr) (a : Adoption) : Adoption :=
  MkAdoption (ad_session a) (ad_pane_id a) (ad_label a) (ad_recipient a) (ad_pane_root a) (ad_manifest a) (ad_pane_pid a)
    w (ad_border_format a).
Definition move_window (w : Write) (h : RegHost) (k : RecipientKey) (root : ProcessInstanceId) (destination : rstr)
    (destination_status : option rstr) : RegHost * result StateError (option WindowChrome) :=
  let r := rh_live h in
  match for_route r k root with
  | None => (h, Ok None)
  | Some a =>
      if bool_decide (ad_window_id a = destination) then (h, Ok None)
      else
        let panes := <[k := moved_to destination a]> (rg_panes r) in
        let windows := or_insert (rg_windows r) destination (MkWindowChrome (ad_session a) destination destination_status) in
        let '(freed, windows) := release_window panes (rg_legacy_panes r) windows (ad_window_id a) in
        commit_then (registry_commit w h panes (rg_legacy_panes r) windows) freed
  end.
Definition recipient_session_instance_id (k : RecipientKey) : option SessionInstanceId :=
  match rk_recipient k with RAdmin | RHeadless _ => None | RAgent s _ => Some s end.
Definition row_is_live (live : list (rstr * ProcessInstanceId)) (a : Adoption) : bool :=
  existsb (λ x, bool_decide (x.1 = ad_pane_id a) && bool_decide (ad_pane_root a = Some x.2)) live.
Definition restored (session : rstr) (instance : SessionInstanceId) (live : list (rstr * ProcessInstanceId))
    (retained : gset RecipientKey) (x : RecipientKey * Adoption) : bool :=
  bool_decide (ad_session x.2 ≠ session) || bool_decide (x.1 ∈ retained)
  || (bool_decide (recipient_session_instance_id x.1 = Some instance) && row_is_live live x.2).
Definition restore_session_preserving (w : Write) (h : RegHost) (session : rstr) (instance : SessionInstanceId)
    (live : list (rstr * ProcessInstanceId)) (retained : gset RecipientKey) : RegHost * result StateError (list Adoption) :=
  let r := rh_live h in
  let panes := filter (λ x, restored session instance live retained x = true) (rg_panes r) in
  let windows := filter (λ x : rstr * WindowChrome, wc_session x.2 ≠ session ∨ occupied panes (rg_legacy_panes r) x.1 = true) (rg_windows r) in
  let kept := merge_sort by_pane_id (filter (λ a, ad_session a = session ∧ row_is_live live a = true) (map_values panes)) in
  commit_then (registry_commit w h panes (rg_legacy_panes r) windows) kept.
Definition registry_forget (w : Write) (h : RegHost) (k : RecipientKey) (root : ProcessInstanceId)
    : RegHost * option (Adoption * option WindowChrome) :=
  match registry_clear w h k root with
  | (h', Ok gone) => (h', gone)
  | (h', Err _) =>
      let r := rh_live h' in
      match for_route r k root with
      | None => (h', None)
      | Some gone =>
          let panes := delete k (rg_panes r) in
          let '(freed, windows) := release_window panes (rg_legacy_panes r) (rg_windows r) (ad_window_id gone) in
          (MkRegHost (MkRegistry panes (rg_legacy_panes r) windows (rg_headless r)) (rh_disk h'), Some (gone, freed))
      end
  end.
Definition release_all (panes : gmap RecipientKey Adoption) (legacy : list Adoption) (windows : gmap rstr WindowChrome)
    (freed : list rstr) : gmap rstr WindowChrome :=
  foldl (λ ws w, (release_window panes legacy ws w).2) windows freed.
Definition prune_orphans (w : Write) (h : RegHost) (live : gset rstr) : RegHost * result StateError nat :=
  let r := rh_live h in
  let panes := filter (λ x : RecipientKey * Adoption, ad_pane_id x.2 ∈ live) (rg_panes r) in
  let legacy := filter (λ a, ad_pane_id a ∈ live) (rg_legacy_panes r) in
  let gone := filter (λ a, ad_pane_id a ∉ live) (map_values (rg_panes r)) ++ filter (λ a, ad_pane_id a ∉ live) (rg_legacy_panes r) in
  match gone with
  | [] => (h, Ok 0%nat)
  | _ =>
      commit_then (registry_commit w h panes legacy (release_all panes legacy (rg_windows r) (ad_window_id <$> gone)))
        (length gone)
  end.
End registry.
