(* ===== verification/RegistryProps.v ===== *)
(** * What the registry keeps

    Every operation of [Registry.v] is one transition [wanted] of the registry alone
    and one write: [reg_run_shape] says what is live and what is on disk for each fate
    of the write.  On top of it: the rows stay rows_keyed, a restart finds what was
    acknowledged, and a window's own border is kept while an adopted pane is in it. *)
From S2P Require Import Prelude Text Identity Registry.
Local Open Scope N_scope.

(** ** Two registries that differ in the order of their legacy rows *)
Record reg_equiv (r r' : Registry) : Prop := {
  re_panes : rg_panes r = rg_panes r';
  re_legacy : rg_legacy_panes r ≡ₚ rg_legacy_panes r';
  re_windows : rg_windows r = rg_windows r';
  re_headless : rg_headless r = rg_headless r';
}.
#[export] Instance reg_equiv_equivalence : Equivalence reg_equiv.
Proof.
  split.
  - by intros r.
  - intros r r' []. by constructor.
  - intros r1 r2 r3 [] []. constructor; [congruence| |congruence|congruence]. by etrans.
Qed.
#[export] Instance existsb_proper {A} (p : A → bool) : Proper ((≡ₚ) ==> eq) (existsb p).
Proof.
  intros l l' Hl. apply eq_true_iff_eq. rewrite !existsb_exists.
  setoid_rewrite <- list_elem_of_In. by setoid_rewrite Hl.
Qed.
#[export] Instance occupied_proper : Proper (eq ==> (≡ₚ) ==> eq ==> eq) occupied.
Proof. intros p ? <- l l' Hl w ? <-. unfold occupied. by rewrite Hl. Qed.
#[export] Instance release_window_proper : Proper (eq ==> (≡ₚ) ==> eq ==> eq ==> eq) release_window.
Proof. intros p ? <- l l' Hl ws ? <- w ? <-. unfold release_window. by rewrite Hl. Qed.
#[export] Instance release_all_proper : Proper (eq ==> (≡ₚ) ==> eq ==> eq ==> eq) release_all.
Proof.
  intros p ? <- l l' Hl ws ? <- ids ? <-. unfold release_all. revert ws.
  induction ids as [|w ids IH]; intros ws; cbn; [done|]. by rewrite Hl, IH.
Qed.

(** ** The operations as transitions of the registry *)
Inductive RegOp :=
| OpAdopt (a : Adoption) (chrome : WindowChrome)
| OpRebind (k : RecipientKey) (expected replacement : ProcessInstanceId)
| OpClear (k : RecipientKey) (root : ProcessInstanceId)
| OpMove (k : RecipientKey) (root : ProcessInstanceId) (destination : rstr) (status : option rstr)
| OpRename (old new : rstr)
| OpRestore (session : rstr) (instance : SessionInstanceId) (live : list (rstr * ProcessInstanceId)) (retained : gset RecipientKey)
| OpForget (k : RecipientKey) (root : ProcessInstanceId)
| OpPrune (live : gset rstr)
| OpAdoptHeadless (a : HeadlessAdoption)
| OpRetire (k : RecipientKey)
| OpRetain (keep : HeadlessAdoption → bool).

(** The registry an operation asks for, [None] when it asks for no write. *)
Definition without_pane (r : Registry) (k : RecipientKey) (a : Adoption) : Registry :=
  let panes := delete k (rg_panes r) in
  MkRegistry panes (rg_legacy_panes r) (release_window panes (rg_legacy_panes r) (rg_windows r) (ad_window_id a)).2 (rg_headless r).
Definition with_headless (r : Registry) (m : gmap RecipientKey HeadlessAdoption) : Registry :=
  MkRegistry (rg_panes r) (rg_legacy_panes r) (rg_windows r) m.
Definition pruned_rows (r : Registry) (live : gset rstr) : list Adoption :=
  filter (λ a, ad_pane_id a ∉ live) (map_values (rg_panes r)) ++ filter (λ a, ad_pane_id a ∉ live) (rg_legacy_panes r).
Definition wanted (op : RegOp) (r : Registry) : option Registry :=
  match op with
  | OpAdopt a chrome =>
      k ← ad_recipient a; _ ← ad_pane_root a;
      Some (MkRegistry (<[k := a]> (rg_panes r))
        (filter (λ l, ad_session l ≠ ad_session a ∨ ad_pane_id l ≠ ad_pane_id a) (rg_legacy_panes r))
        (or_insert (rg_windows r) (wc_window_id chrome) chrome) (rg_headless r))
  | OpRebind k expected replacement =>
      a ← rg_panes r !! k;
      if bool_decide (ad_pane_root a = Some replacement) then None
      else if bool_decide (ad_pane_root a ≠ Some expected) then None
      else Some (MkRegistry (<[k := rebound replacement a]> (rg_panes r)) (rg_legacy_panes r) (rg_windows r) (rg_headless r))
  | OpClear k root | OpForget k root => without_pane r k <$> for_route r k root
  | OpMove k root destination status =>
      a ← for_route r k root;
      if bool_decide (ad_window_id a = destination) then None
      else
        let panes := <[k := moved_to destination a]> (rg_panes r) in
        let windows := or_insert (rg_windows r) destination (MkWindowChrome (ad_session a) destination status) in
        Some (MkRegistry panes (rg_legacy_panes r) (release_window panes (rg_legacy_panes r) windows (ad_window_id a)).2 (rg_headless r))
  | OpRename old new =>
      if bool_decide (old = new) then None
      else if existsb (λ a, bool_decide (ad_session a = old)) (map_values (rg_panes r))
              || existsb (λ a, bool_decide (ad_session a = old)) (rg_legacy_panes r)
              || existsb (λ c, bool_decide (wc_session c = old)) (map_values (rg_windows r))
      then Some (MkRegistry (rename_adoption old new <$> rg_panes r) (rename_adoption old new <$> rg_legacy_panes r)
             (rename_window old new <$> rg_windows r) (rg_headless r))
      else None
  | OpRestore session instance live retained =>
      let panes := filter (λ x, restored session instance live retained x = true) (rg_panes r) in
      Some (MkRegistry panes (rg_legacy_panes r)
        (filter (λ x : rstr * WindowChrome, wc_session x.2 ≠ session ∨ occupied panes (rg_legacy_panes r) x.1 = true) (rg_windows r))
        (rg_headless r))
  | OpPrune live =>
      let panes := filter (λ x : RecipientKey * Adoption, ad_pane_id x.2 ∈ live) (rg_panes r) in
      let legacy := filter (λ a, ad_pane_id a ∈ live) (rg_legacy_panes r) in
      match pruned_rows r live with
      | [] => None
      | _ => Some (MkRegistry panes legacy (release_all panes legacy (rg_windows r) (ad_window_id <$> pruned_rows r live)) (rg_headless r))
      end
  | OpAdoptHeadless a =>
      if is_headless (ha_recipient a) then Some (with_headless r (<[ha_recipient a := a]> (rg_headless r))) else None
  | OpRetire k => if bool_decide (is_Some (rg_headless r !! k)) then Some (with_headless r (delete k (rg_headless r))) else None
  | OpRetain keep =>
      if bool_decide (filter (λ a, keep a = false) (map_values (rg_headless r)) = []) then None
      else Some (with_headless r (filter (λ x : RecipientKey * HeadlessAdoption, keep x.2 = true) (rg_headless r)))
  end.
(** The operations that let go of a row even when the file cannot be written. *)
Definition lets_go (op : RegOp) : bool :=
  match op with OpForget _ _ | OpRetire _ | OpRetain _ => true | _ => false end.

Section host.
Context `{RegistryJson}.

Definition reg_run (w : Write) (h : RegHost) (op : RegOp) : RegHost :=
  match op with
  | OpAdopt a chrome => (adopt w h a chrome).1
  | OpRebind k expected replacement => (rebind_process w h k expected replacement).1
  | OpClear k root => (registry_clear w h k root).1
  | OpMove k root destination status => (move_window w h k root destination status).1
  | OpRename old new => (rename_session w h old new).1
  | OpRestore session instance live retained => (restore_session_preserving w h session instance live retained).1
  | OpForget k root => (registry_forget w h k root).1
  | OpPrune live => (prune_orphans w h live).1
  | OpAdoptHeadless a => (adopt_headless w h a).1
  | OpRetire k => (retire_headless w h k).1
  | OpRetain keep => (retain_headless w h keep).1
  end.
Definition written_host (w : Write) (h : RegHost) (c : Registry) (go : bool) : RegHost :=
  match to_string_pretty (file_of c), w with
  | Some t, WriteLanded => MkRegHost c (Some (t ++ [10]))
  | Some t, WriteUnsynced => MkRegHost (if go then c else rh_live h) (Some (t ++ [10]))
  | _, _ => MkRegHost (if go then c else rh_live h) (rh_disk h)
  end.

Lemma commit_all_shape w h c : (commit_all w h c).1 = written_host w h c false.
Proof. unfold commit_all, written_host. destruct h, (to_string_pretty _), w; done. Qed.
Lemma commit_all_live w h c : (∃ e, (commit_all w h c).2 = Err e) → rh_live (commit_all w h c).1 = rh_live h.
Proof. unfold commit_all. destruct (to_string_pretty _), w; cbn; intros [e He]; done. Qed.

Lemma registry_clear_shape w h k root gone : for_route (rh_live h) k root = Some gone →
  registry_clear w h k root =
    commit_then (commit_all w h (without_pane (rh_live h) k gone))
      (Some (gone, (release_window (delete k (rg_panes (rh_live h))) (rg_legacy_panes (rh_live h)) (rg_windows (rh_live h)) (ad_window_id gone)).1)).
Proof. intros Hr. unfold registry_clear. rewrite Hr. destruct (release_window _ _ _ _) eqn:E. unfold without_pane. by rewrite E. Qed.

(** Each operation wants one registry, and its host is that registry's write. *)
Lemma reg_run_shape w h op :
  reg_run w h op = match wanted op (rh_live h) with None => h | Some c => written_host w h c (lets_go op) end.
Proof.
  destruct op; cbn [reg_run wanted lets_go].
  - unfold adopt. destruct (ad_recipient a); [|done]. destruct (ad_pane_root a); [|done]. apply commit_all_shape.
  - unfold rebind_process. cbn. destruct (rg_panes (rh_live h) !! k); [|done]. cbn.
    repeat case_bool_decide; try done. apply commit_all_shape.
  - destruct (for_route _ _ _) as [gone|] eqn:Hr; cbn.
    + rewrite (registry_clear_shape _ _ _ _ _ Hr). apply commit_all_shape.
    + unfold registry_clear. by rewrite Hr.
  - unfold move_window. destruct (for_route _ _ _) as [a|]; [|done]. cbn. case_bool_decide; [done|].
    destruct (release_window _ _ _ _). apply commit_all_shape.
  - unfold rename_session. case_bool_decide; [done|]. destruct (_ || _ || _); [apply commit_all_shape|done].
  - apply commit_all_shape.
  - unfold registry_forget. destruct (for_route _ _ _) as [gone|] eqn:Hr; cbn.
    + rewrite (registry_clear_shape _ _ _ _ _ Hr). unfold commit_all, written_host.
      destruct (to_string_pretty _), w; cbn; rewrite ?Hr; try done; destruct (release_window _ _ _ _) eqn:E; unfold without_pane; by rewrite E.
    + unfold registry_clear. by rewrite Hr.
  - unfold prune_orphans. fold (pruned_rows (rh_live h) live). destruct (pruned_rows (rh_live h) live) eqn:E; [done|]. apply commit_all_shape.
  - unfold adopt_headless. destruct (is_headless _); [apply commit_all_shape|done].
  - unfold retire_headless. destruct (rg_headless (rh_live h) !! k) eqn:Ek; cbn; [|done].
    unfold commit_all, written_host, set_headless. by destruct (to_string_pretty _), w.
  - unfold retain_headless. case_bool_decide; [done|]. unfold commit_all, written_host, set_headless.
    by destruct (to_string_pretty _), w.
Qed.
Lemma reg_run_live w h op : rh_live (reg_run w h op) = rh_live h ∨ wanted op (rh_live h) = Some (rh_live (reg_run w h op)).
Proof.
  rewrite reg_run_shape. destruct (wanted op _) as [c|]; [|by left].
  unfold written_host. destruct (to_string_pretty _), w, (lets_go op); cbn; auto.
Qed.
End host.

(** ** Rows stay under their own keys *)
Record rows_keyed (r : Registry) : Prop := {
  ky_panes : ∀ k a, rg_panes r !! k = Some a → exact_key a = Some k;
  ky_legacy : Forall (λ a, exact_key a = None) (rg_legacy_panes r);
  ky_windows : ∀ w c, rg_windows r !! w = Some c → wc_window_id c = w;
  ky_headless : ∀ k a, rg_headless r !! k = Some a → headless_key a = Some k;
}.
Lemma exact_key_Some a k : exact_key a = Some k ↔ ad_recipient a = Some k ∧ is_Some (ad_pane_root a).
Proof. unfold exact_key. destruct (ad_recipient a), (ad_pane_root a) eqn:E; naive_solver. Qed.
Lemma headless_key_Some a k : headless_key a = Some k ↔ ha_recipient a = k ∧ is_headless k = true.
Proof. unfold headless_key. destruct (is_headless _) eqn:E; split; [by intros [= <-]|by intros [<- _]|done|intros [<- ?]; congruence]. Qed.
Lemma for_route_Some r k root a : for_route r k root = Some a ↔ rg_panes r !! k = Some a ∧ ad_pane_root a = Some root.
Proof.
  unfold for_route. destruct (rg_panes r !! k) as [b|]; cbn; [|naive_solver].
  case_bool_decide; naive_solver.
Qed.

Section file_row.
Context {K A} `{Countable K} (key : A → option K).
Lemma foldl_filed_keyed l m k a : (∀ k a, m !! k = Some a → key a = Some k) →
  foldl (file_row key) m l !! k = Some a → key a = Some k.
Proof.
  revert m. induction l as [|b l IH]; intros m Hm; cbn; [apply Hm|]. apply IH. intros k' a'. unfold file_row.
  destruct (key b) as [kb|] eqn:Eb; [|apply Hm]. rewrite lookup_insert_Some. naive_solver.
Qed.
Lemma foldl_filed_lookup l k a : (∀ a b k, a ∈ l → b ∈ l → key a = Some k → key b = Some k → a = b) →
  foldl (file_row key) ∅ l !! k = Some a ↔ a ∈ l ∧ key a = Some k.
Proof.
  induction l as [|b l IH] using rev_ind; intros Hf; cbn.
  - rewrite lookup_empty. split; [done|]. intros [Ha _]. by apply not_elem_of_nil in Ha.
  - rewrite foldl_snoc. unfold file_row at 1. setoid_rewrite elem_of_app in Hf. setoid_rewrite list_elem_of_singleton in Hf.
    rewrite elem_of_app, list_elem_of_singleton.
    destruct (key b) as [kb|] eqn:Eb; rewrite ?lookup_insert_Some, IH by naive_solver; [|naive_solver].
    destruct (decide (kb = k)) as [->|]; [|naive_solver]. split; [naive_solver|].
    intros [[Ha|Ha] Hk]; [|naive_solver]. left. split; [done|]. by apply (Hf b a k); auto.
Qed.
Lemma refiled m extra l : (∀ k a, m !! k = Some a → key a = Some k) → Forall (λ a, key a = None) extra →
  l ≡ₚ map_values m ++ extra → foldl (file_row key) ∅ l = m.
Proof.
  intros Hm He Hl. rewrite Forall_forall in He.
  assert (∀ a k, a ∈ l ∧ key a = Some k ↔ m !! k = Some a) as Hiff.
  { intros a k. rewrite Hl, elem_of_app, elem_of_values. split; [|naive_solver].
    intros [[[k' Hk']|Ha] Hk]; [|by rewrite He in Hk]. rewrite (Hm _ _ Hk') in Hk. naive_solver. }
  apply map_eq. intros k. apply option_eq. intros a. rewrite foldl_filed_lookup, Hiff; [done|].
  intros a' b k' Ha Hb Hka Hkb. apply (conj Ha), Hiff in Hka. apply (conj Hb), Hiff in Hkb. congruence.
Qed.
End file_row.

Lemma load_file_keyed f : rows_keyed (load_file f).
Proof.
  split; cbn.
  - intros k a. by apply foldl_filed_keyed.
  - rewrite Forall_forall. intros a. by rewrite list_elem_of_filter; intros [].
  - intros w c Hc. apply foldl_filed_keyed in Hc; [congruence|done].
  - intros k a. by apply foldl_filed_keyed.
Qed.
Lemma empty_keyed : rows_keyed empty_registry.
Proof. by split. Qed.

(** ** A restart finds the registry that was written *)
Lemma filter_none {A} (P : A → Prop) `{∀ a, Decision (P a)} l : (∀ a, a ∈ l → ¬ P a) → filter P l = [].
Proof.
  intros Hn. destruct (filter P l) as [|a t] eqn:E; [done|]. assert (a ∈ a :: t) as Ha by left.
  rewrite <- E, list_elem_of_filter in Ha. destruct Ha as [Hp Ha]. by destruct (Hn a Ha).
Qed.
Lemma filter_keyed_legacy (m : gmap RecipientKey Adoption) legacy l :
  (∀ k a, m !! k = Some a → exact_key a = Some k) → Forall (λ a, exact_key a = None) legacy → l ≡ₚ map_values m ++ legacy →
  filter (λ a, exact_key a = None) l ≡ₚ legacy.
Proof.
  intros Hm Hl Hp. rewrite Hp, filter_app.
  rewrite (filter_none _ (map_values m)).
  2:{ intros a [k Hk]%elem_of_values Hn. apply Hm in Hk. congruence. }
  cbn. clear Hp Hm. induction Hl as [|a t Ha _ IH]; [done|]. by rewrite filter_cons_True, IH.
Qed.
Lemma load_file_of r : rows_keyed r → reg_equiv (load_file (file_of r)) r.
Proof.
  intros [Hp Hl Hw Hh]. split; cbn.
  - by apply (refiled _ _ (rg_legacy_panes r)); [..|rewrite merge_sort_Permutation].
  - by apply (filter_keyed_legacy (rg_panes r)); [..|rewrite merge_sort_Permutation].
  - apply (refiled _ _ []); [|done|by rewrite merge_sort_Permutation, app_nil_r]. intros k c Hc. by rewrite (Hw _ _ Hc).
  - by apply (refiled _ _ []); [..|rewrite merge_sort_Permutation, app_nil_r].
Qed.

(** What a booting daemon makes of the file. *)
Definition reboot `{RegistryJson} (h : RegHost) : Registry := (registry_load (source_of (rh_disk h))).1.
Definition boot `{RegistryJson} (disk : option rstr) : RegHost := MkRegHost (registry_load (source_of disk)).1 disk.

Lemma insert_keyed_panes (m : gmap RecipientKey Adoption) k a :
  (∀ k a, m !! k = Some a → exact_key a = Some k) → exact_key a = Some k →
  ∀ k' a', <[k := a]> m !! k' = Some a' → exact_key a' = Some k'.
Proof. intros Hm Ha k' a'. rewrite lookup_insert_Some. naive_solver. Qed.
Lemma or_insert_lookup ws w c w' c' : or_insert ws w c !! w' = Some c' ↔
  ws !! w' = Some c' ∨ w' = w ∧ ws !! w = None ∧ c' = c.
Proof.
  unfold or_insert. destruct (ws !! w) as [c0|] eqn:E; [naive_solver|].
  rewrite lookup_insert_Some. destruct (decide (w = w')) as [->|]; [rewrite E|]; naive_solver.
Qed.
Lemma release_window_lookup panes legacy ws w w' c :
  (release_window panes legacy ws w).2 !! w' = Some c ↔ ws !! w' = Some c ∧ (w' ≠ w ∨ occupied panes legacy w = true).
Proof.
  unfold release_window. destruct (occupied _ _ _) eqn:E; cbn; [naive_solver|].
  rewrite lookup_delete_Some. naive_solver.
Qed.
Lemma release_all_lookup panes legacy ids : ∀ ws w' c,
  release_all panes legacy ws ids !! w' = Some c ↔ ws !! w' = Some c ∧ (w' ∉ ids ∨ occupied panes legacy w' = true).
Proof.
  induction ids as [|w ids IH]; intros ws w' c; cbn.
  - split; [intros Hc; split; [done|left; apply not_elem_of_nil]|by intros []].
  - unfold release_all in IH. rewrite IH, release_window_lookup, not_elem_of_cons.
    destruct (decide (w' = w)) as [->|]; naive_solver.
Qed.
Lemma exact_rebound r a k : exact_key a = Some k → exact_key (rebound r a) = Some k.
Proof. rewrite !exact_key_Some. cbn. intros [-> _]. eauto. Qed.
Lemma exact_moved w a : exact_key (moved_to w a) = exact_key a.
Proof. done. Qed.
Lemma exact_renamed old new a : exact_key (rename_adoption old new a) = exact_key a.
Proof. unfold rename_adoption. by case_bool_decide. Qed.

Lemma wanted_prune r live c : wanted (OpPrune live) r = Some c →
  c = MkRegistry (filter (λ x : RecipientKey * Adoption, ad_pane_id x.2 ∈ live) (rg_panes r))
        (filter (λ a, ad_pane_id a ∈ live) (rg_legacy_panes r)) (rg_windows c) (rg_headless r) ∧
  rg_windows c = release_all (rg_panes c) (rg_legacy_panes c) (rg_windows r) (ad_window_id <$> pruned_rows r live).
Proof. cbn [wanted]. destruct (pruned_rows r live); [done|]. by intros [= <-]. Qed.

(** Every operation keeps every row under its own key. *)
Lemma wanted_keyed op r c : rows_keyed r → wanted op r = Some c → rows_keyed c.
Proof.
  intros [Hp Hl Hw Hh]. rewrite Forall_forall in Hl.
  assert (∀ P `{∀ a, Decision (P a)}, Forall (λ a, exact_key a = None) (filter P (rg_legacy_panes r))) as Hf.
  { intros P HP. rewrite Forall_forall. intros a. rewrite list_elem_of_filter. naive_solver. }
  assert (Forall (λ a, exact_key a = None) (rg_legacy_panes r)) as Hl' by by rewrite Forall_forall.
  destruct op; cbn [wanted]; intros Hc.
  - destruct (ad_recipient a) as [k|] eqn:Ek, (ad_pane_root a) eqn:Er; try done. injection Hc as <-. split; cbn; [|by apply Hf| |done].
    + apply insert_keyed_panes; [done|]. apply exact_key_Some. eauto.
    + intros w c. rewrite or_insert_lookup. intros [?|(-> & _ & ->)]; eauto.
  - destruct (rg_panes r !! k) as [a|] eqn:Ea; [|done]. cbn in Hc. repeat case_bool_decide; try done. injection Hc as <-.
    split; cbn; try done. apply insert_keyed_panes; [done|]. apply exact_rebound. eauto.
  - destruct (for_route r k root) as [a|]; [|done]. injection Hc as <-. split; cbn; try done.
    + intros k' a'. rewrite lookup_delete_Some. naive_solver.
    + intros w c. rewrite release_window_lookup. naive_solver.
  - destruct (for_route r k root) as [a|] eqn:Er; [|done]. apply for_route_Some in Er as [Ea _]. cbn in Hc. case_bool_decide; [done|].
    injection Hc as <-. split; cbn; try done.
    + apply insert_keyed_panes; [done|]. rewrite exact_moved. eauto.
    + intros w c. rewrite release_window_lookup, or_insert_lookup. intros [[?|(-> & _ & ->)] _]; eauto.
  - case_bool_decide; [done|]. destruct (_ || _ || _); [|done]. injection Hc as <-. split; cbn; try done.
    + intros k a. rewrite lookup_fmap_Some. intros (b & <- & Hb). rewrite exact_renamed. eauto.
    + rewrite Forall_forall. intros a. rewrite list_elem_of_fmap. intros (b & -> & Hb). rewrite exact_renamed. eauto.
    + intros w c. rewrite lookup_fmap_Some. intros (b & <- & Hb). unfold rename_window. case_bool_decide; cbn; eauto.
  - injection Hc as <-. split; cbn; try done.
    + intros k a. rewrite map_lookup_filter_Some. naive_solver.
    + intros w c. rewrite map_lookup_filter_Some. naive_solver.
  - destruct (for_route r k root) as [a|]; [|done]. injection Hc as <-. split; cbn; try done.
    + intros k' a'. rewrite lookup_delete_Some. naive_solver.
    + intros w c. rewrite release_window_lookup. naive_solver.
  - apply (wanted_prune r live) in Hc as [-> Hws]. split; cbn in *; [|by apply Hf| |done].
    + intros k a. rewrite map_lookup_filter_Some. naive_solver.
    + intros w x. rewrite Hws, release_all_lookup. intros [? _]. eauto.
  - destruct (is_headless (ha_recipient a)) eqn:E; [|done]. injection Hc as <-. split; cbn; try done.
    intros k b. rewrite lookup_insert_Some. intros [[<- <-]|[_ Hb]]; [by apply headless_key_Some|eauto].
  - case_bool_decide; [|done]. injection Hc as <-. split; cbn; try done. intros k' b. rewrite lookup_delete_Some. naive_solver.
  - case_bool_decide; [done|]. injection Hc as <-. split; cbn; try done. intros k' b. rewrite map_lookup_filter_Some. naive_solver.
Qed.

(** ** Acknowledged changes survive a restart *)
Section durability.
Context `{Hj : RegistryJson} {Hlaws : RegistryJsonLaws}.

Lemma reboot_written r t : rows_keyed r → to_string_pretty (file_of r) = Some t →
  reg_equiv (registry_load (source_of (Some (t ++ [10])))).1 r.
Proof. intros Hr Ht. cbn. rewrite (json_round_trip _ _ Ht). by apply load_file_of. Qed.

Lemma boot_keyed disk : rows_keyed (rh_live (boot disk)).
Proof.
  unfold boot, registry_load. cbn. destruct disk as [t|]; cbn; [|apply empty_keyed].
  destruct (from_json t) as [f|]; cbn; [|apply empty_keyed].
  destruct (rf_version f =? registry_version); [apply load_file_keyed|apply empty_keyed].
Qed.
Lemma reg_run_keyed w h op : rows_keyed (rh_live h) → rows_keyed (rh_live (reg_run w h op)).
Proof. intros Hk. destruct (reg_run_live w h op) as [->|Hw]; [done|]. by eapply wanted_keyed. Qed.

(** A write the daemon may go on after: it landed, or it was refused and the operation
    kept the registry it had. *)
Definition settled (w : Write) (op : RegOp) : bool :=
  match w with WriteLanded => true | WriteRefused => negb (lets_go op) | WriteUnsynced => false end.
Definition reg_runs (h : RegHost) (ops : list (Write * RegOp)) : RegHost := foldl (λ h x, reg_run x.1 h x.2) h ops.
(** What serde fails to encode is never written, so an operation that lets go is then
    ahead of the file too. *)
Definition encodable : Prop := ∀ r, is_Some (to_string_pretty (file_of r)).

Lemma reg_run_in_step w h op : encodable → rows_keyed (rh_live h) → settled w op = true →
  reg_equiv (reboot h) (rh_live h) → reg_equiv (reboot (reg_run w h op)) (rh_live (reg_run w h op)).
Proof.
  intros He Hk Hs Hstep. rewrite reg_run_shape. destruct (wanted op _) as [c|] eqn:Hw; [|done].
  unfold written_host. destruct (He c) as [t Ht]. rewrite Ht.
  destruct w; cbn in *; [|apply negb_true_iff in Hs; by rewrite Hs|done].
  apply reboot_written; [|done]. by eapply wanted_keyed.
Qed.

(** [C22.] A restart finds the roster the daemon acknowledged.  After any run of registry
    operations from any boot, whose writes landed or were refused with the change,
    loading [registry.json] gives the live registry, up to the order of the legacy rows. *)
Theorem restart_finds_the_roster disk ops : encodable →
  Forall (λ x, settled x.1 x.2 = true) ops →
  let h := reg_runs (boot disk) ops in reg_equiv (reboot h) (rh_live h).
Proof.
  intros He Hs. cbn. assert (rows_keyed (rh_live (boot disk)) ∧ reg_equiv (reboot (boot disk)) (rh_live (boot disk))) as [Hk Hstep]
    by (split; [apply boot_keyed|done]).
  revert Hk Hstep. generalize (boot disk). induction Hs as [|[w op] ops Hx _ IH]; intros h Hk Hstep; cbn; [done|].
  apply IH; [by apply reg_run_keyed|]. by apply reg_run_in_step.
Qed.
End durability.

(** ** A window's own border is kept while an adopted pane is in it *)
Definition holds_window (r : Registry) (w : rstr) : bool := occupied (rg_panes r) (rg_legacy_panes r) w.
Definition covered (r : Registry) : Prop := ∀ w, holds_window r w = true → is_Some (rg_windows r !! w).
(** An adoption comes with the chrome of its own window. *)
Definition chrome_ok (op : RegOp) : Prop :=
  match op with OpAdopt a chrome => wc_window_id chrome = ad_window_id a | _ => True end.

Lemma occupied_iff panes legacy w : occupied panes legacy w = true ↔
  (∃ k a, panes !! k = Some a ∧ ad_window_id a = w) ∨ (∃ a, a ∈ legacy ∧ ad_window_id a = w).
Proof.
  unfold occupied. rewrite orb_true_iff, existsb_values, existsb_exists. unfold in_window.
  setoid_rewrite bool_decide_eq_true. by setoid_rewrite <- list_elem_of_In.
Qed.
Lemma occupied_mono p p' l l' w : (∀ k a, p !! k = Some a → ∃ k' a', p' !! k' = Some a' ∧ ad_window_id a' = ad_window_id a) →
  (∀ a, a ∈ l → ∃ a', a' ∈ l' ∧ ad_window_id a' = ad_window_id a) → occupied p l w = true → occupied p' l' w = true.
Proof.
  intros Hp Hl. rewrite !occupied_iff. intros [(k & a & Hk & Ha)|(a & Ha & Hw)]; [left|right].
  - destruct (Hp _ _ Hk) as (k' & a' & ? & ?). exists k', a'. split; [done|congruence].
  - destruct (Hl _ Ha) as (a' & ? & ?). exists a'. split; [done|congruence].
Qed.
Lemma is_Some_release panes legacy ws w w' : occupied panes legacy w' = true → is_Some (ws !! w') →
  is_Some ((release_window panes legacy ws w).2 !! w').
Proof.
  intros Ho [c Hc]. exists c. apply release_window_lookup. split; [done|].
  destruct (decide (w' = w)) as [->|]; [by right|by left].
Qed.
Lemma is_Some_or_insert ws w c w' : is_Some (ws !! w') ∨ w' = w → is_Some (or_insert ws w c !! w').
Proof.
  intros Hw. destruct (ws !! w') as [c'|] eqn:E.
  - exists c'. apply or_insert_lookup. by left.
  - destruct Hw as [[? ?]| ->]; [done|]. exists c. apply or_insert_lookup. by right.
Qed.
Lemma without_pane_covered r k a : covered r → covered (without_pane r k a).
Proof.
  intros Hc w Ho. cbn in *. apply is_Some_release; [done|]. apply Hc. revert Ho. apply occupied_mono; [|eauto].
  intros k' a'. cbn. rewrite lookup_delete_Some. naive_solver.
Qed.
Lemma wanted_covered op r c : chrome_ok op → covered r → wanted op r = Some c → covered c.
Proof.
  intros Hok Hr. destruct op; cbn [wanted chrome_ok] in *; intros Hc.
  - destruct (ad_recipient a) as [k|]; [|done]. destruct (ad_pane_root a); [|done]. injection Hc as <-. intros w Ho.
    apply is_Some_or_insert. unfold holds_window in Ho. cbn in Ho. apply occupied_iff in Ho as [(k' & a' & Hk & <-)|(a' & Ha & <-)].
    + apply lookup_insert_Some in Hk as [[_ <-]|[_ Hk]]; [by right|]. left. apply Hr, occupied_iff. eauto.
    + apply list_elem_of_filter in Ha as [_ Ha]. left. apply Hr, occupied_iff. eauto.
  - destruct (rg_panes r !! k) as [a|] eqn:Ea; [|done]. cbn in Hc. repeat case_bool_decide; try done. injection Hc as <-. intros w Ho.
    apply Hr. revert Ho. apply occupied_mono; [|eauto]. intros k' a'. cbn. rewrite lookup_insert_Some. intros [[<- <-]|[_ ?]]; eauto.
  - destruct (for_route r k root) as [a|]; [|done]. injection Hc as <-. by apply without_pane_covered.
  - destruct (for_route r k root) as [a|] eqn:Er; [|done]. cbn in Hc. case_bool_decide; [done|]. injection Hc as <-. intros w Ho.
    apply is_Some_release; [done|]. apply is_Some_or_insert. unfold holds_window in Ho. cbn in Ho.
    apply occupied_iff in Ho as [(k' & a' & Hk & <-)|(a' & Ha & <-)].
    + apply lookup_insert_Some in Hk as [[_ <-]|[_ Hk]]; [by right|]. left. apply Hr, occupied_iff. eauto.
    + left. apply Hr, occupied_iff. eauto.
  - case_bool_decide; [done|]. destruct (_ || _ || _); [|done]. injection Hc as <-. intros w Ho. cbn. rewrite lookup_fmap, fmap_is_Some.
    apply Hr. revert Ho. apply occupied_mono.
    + intros k a. cbn. rewrite lookup_fmap_Some. intros (b & <- & Hb). exists k, b. split; [done|]. unfold rename_adoption. by case_bool_decide.
    + intros a. cbn. rewrite list_elem_of_fmap. intros (b & -> & Hb). exists b. split; [done|]. unfold rename_adoption. by case_bool_decide.
  - injection Hc as <-. intros w Ho. unfold holds_window in Ho. cbn in *. destruct (Hr w) as [x Hx].
    + revert Ho. apply occupied_mono; [|eauto]. intros k a. rewrite map_lookup_filter_Some. naive_solver.
    + exists x. apply map_lookup_filter_Some. auto.
  - destruct (for_route r k root) as [a|]; [|done]. injection Hc as <-. by apply without_pane_covered.
  - apply (wanted_prune r live) in Hc as [-> Hws]. intros w Ho. unfold holds_window in Ho. cbn in *. destruct (Hr w) as [x Hw].
    + revert Ho. apply occupied_mono; [intros k a; rewrite map_lookup_filter_Some; naive_solver|].
      intros a. rewrite list_elem_of_filter. naive_solver.
    + exists x. rewrite Hws, release_all_lookup. auto.
  - destruct (is_headless _); [|done]. by injection Hc as <-.
  - case_bool_decide; [|done]. by injection Hc as <-.
  - case_bool_decide; [done|]. by injection Hc as <-.
Qed.
(** No operation writes over a snapshot. *)
Lemma wanted_status op r c w x y : wanted op r = Some c → rg_windows r !! w = Some x → rg_windows c !! w = Some y →
  wc_border_status y = wc_border_status x.
Proof.
  intros Hc Hx Hy. destruct op; cbn [wanted] in Hc.
  - destruct (ad_recipient a); [|done]. destruct (ad_pane_root a); [|done]. injection Hc as <-. apply or_insert_lookup in Hy as [?|(-> & ? & _)]; congruence.
  - destruct (rg_panes r !! k); [|done]. cbn in Hc. repeat case_bool_decide; try done. injection Hc as <-. cbn in Hy. congruence.
  - destruct (for_route r k root); [|done]. injection Hc as <-. apply release_window_lookup in Hy as [? _]. congruence.
  - destruct (for_route r k root); [|done]. cbn in Hc. case_bool_decide; [done|]. injection Hc as <-.
    apply release_window_lookup in Hy as [[?|(-> & ? & _)]%or_insert_lookup _]; congruence.
  - case_bool_decide; [done|]. destruct (_ || _ || _); [|done]. injection Hc as <-. apply lookup_fmap_Some in Hy as (z & <- & Hz).
    rewrite Hx in Hz. injection Hz as <-. unfold rename_window. by case_bool_decide.
  - injection Hc as <-. apply map_lookup_filter_Some in Hy as [? _]. congruence.
  - destruct (for_route r k root); [|done]. injection Hc as <-. apply release_window_lookup in Hy as [? _]. congruence.
  - apply (wanted_prune r live) in Hc as [_ Hws]. rewrite Hws, release_all_lookup in Hy. destruct Hy. congruence.
  - destruct (is_headless _); [|done]. injection Hc as <-. cbn in Hy. congruence.
  - case_bool_decide; [|done]. injection Hc as <-. cbn in Hy. congruence.
  - case_bool_decide; [done|]. injection Hc as <-. cbn in Hy. congruence.
Qed.

Section chrome.
Context `{RegistryJson}.
Lemma reg_run_covered w h op : chrome_ok op → covered (rh_live h) → covered (rh_live (reg_run w h op)).
Proof. intros Hok Hc. destruct (reg_run_live w h op) as [->|Hw]; [done|]. by eapply wanted_covered. Qed.

(** The border a window had before the first adoption is the one kept for it.  Over
    any run of registry operations, and whatever becomes of their writes, a window with
    an adopted pane in it throughout has a snapshot throughout, with the border status
    it had at the start: no adoption, move, rename or restore takes it again or drops it. *)
Theorem snapshot_is_taken_once h ops win c0 :
  covered (rh_live h) → Forall (λ x, chrome_ok x.2) ops →
  (∀ n, holds_window (rh_live (reg_runs h (take n ops))) win = true) →
  rg_windows (rh_live h) !! win = Some c0 →
  ∃ c, rg_windows (rh_live (reg_runs h ops)) !! win = Some c ∧ wc_border_status c = wc_border_status c0.
Proof.
  intros Hc Hok Hocc H0. revert h c0 Hc Hocc H0. induction Hok as [|[w op] ops Hx _ IH]; intros h c0 Hc Hocc H0; [by exists c0|].
  cbn in *. assert (covered (rh_live (reg_run w h op))) as Hc' by by apply reg_run_covered.
  destruct (Hc' win (Hocc 1%nat)) as [c1 H1].
  destruct (IH _ c1 Hc' (λ n, Hocc (S n)) H1) as (c & Hw & Hs). exists c. split; [done|]. rewrite Hs.
  destruct (reg_run_live w h op) as [Hl|Hl]; [rewrite Hl in H1; congruence|]. by eapply wanted_status.
Qed.
End chrome.

(** ** Leaving the roster *)
Section leaving.
Context `{Hj : RegistryJson} {Hlaws : RegistryJsonLaws}.
Lemma pending_clear_of r k root a : for_route r k root = Some a →
  pending_clear r k root = Some (a, (release_window (delete k (rg_panes r)) (rg_legacy_panes r) (rg_windows r) (ad_window_id a)).1).
Proof. intros Hr. unfold pending_clear. by rewrite Hr. Qed.
Lemma without_pane_route r k a root : for_route (without_pane r k a) k root = None.
Proof. unfold for_route. cbn. by rewrite lookup_delete_eq. Qed.

(** A pane that closed is off the roster whatever the disk does, and what it leaves
    behind is what was announced: [forget] answers exactly what [pending_clear] showed
    before, a [clear] whose write lands answers the same, and after either the route
    names nobody. *)
Theorem leaving_hands_back_what_was_shown w h k root :
  (registry_forget w h k root).2 = pending_clear (rh_live h) k root ∧
  for_route (rh_live (registry_forget w h k root).1) k root = None ∧
  match registry_clear w h k root with
  | (h', Ok gone) => gone = pending_clear (rh_live h) k root ∧ for_route (rh_live h') k root = None
  | (h', Err _) => rh_live h' = rh_live h
  end.
Proof.
  destruct (for_route (rh_live h) k root) as [a|] eqn:Hr.
  - rewrite (pending_clear_of _ _ _ _ Hr). unfold registry_forget. rewrite (registry_clear_shape _ _ _ _ _ Hr).
    unfold commit_all. pose proof (without_pane_route (rh_live h) k a root) as Hn. unfold without_pane in *.
    destruct (release_window _ _ _ _) as [freed ws] eqn:E. cbn [snd] in *.
    destruct (to_string_pretty _), w; cbn [commit_then fst snd rh_live]; rewrite ?Hr; rewrite ?E; auto.
  - unfold registry_forget, registry_clear, pending_clear. rewrite Hr. cbn. auto.
Qed.

(** An adoption the daemon reports as failed can still happen.  When the directory
    cannot be synced after the rename, [adopt] answers an error and the live registry has
    no such row, but [registry.json] does: the next boot gives the pane the label. *)
Theorem unsynced_adoption_returns h a chrome k t :
  rows_keyed (rh_live h) → exact_key a = Some k →
  (∀ c, wanted (OpAdopt a chrome) (rh_live h) = Some c → to_string_pretty (file_of c) = Some t) →
  let '(h', answer) := adopt WriteUnsynced h a chrome in
  answer = Err ReplacementDurabilityUnknown ∧ rh_live h' = rh_live h ∧ rg_panes (reboot h') !! k = Some a.
Proof.
  intros Hk Ha Ht. apply exact_key_Some in Ha as [Hr [root Hroot]].
  assert (wanted (OpAdopt a chrome) (rh_live h) = Some (MkRegistry (<[k := a]> (rg_panes (rh_live h)))
    (filter (λ l, ad_session l ≠ ad_session a ∨ ad_pane_id l ≠ ad_pane_id a) (rg_legacy_panes (rh_live h)))
    (or_insert (rg_windows (rh_live h)) (wc_window_id chrome) chrome) (rg_headless (rh_live h)))) as Hw
    by (cbn; by rewrite Hr, Hroot).
  pose proof (wanted_keyed _ _ _ Hk Hw) as Hkc. specialize (Ht _ Hw). unfold adopt. rewrite Hr, Hroot.
  unfold registry_commit, commit_all. rewrite Ht. split_and!; [done|done|].
  unfold reboot. cbn [rh_disk]. rewrite (re_panes _ _ (reboot_written _ _ Hkc Ht)). cbn. apply lookup_insert_eq.
Qed.

(** A rebind moves the root of the row it expected, and nothing else of the roster. *)
Lemma rebind_moves_only_the_root h k expected replacement :
  (rebind_process WriteLanded h k expected replacement).2 = Ok true →
  let r := rh_live h in let r' := rh_live (rebind_process WriteLanded h k expected replacement).1 in
  rg_windows r' = rg_windows r ∧ rg_headless r' = rg_headless r ∧ rg_legacy_panes r' = rg_legacy_panes r ∧
  (∀ k', k' ≠ k → rg_panes r' !! k' = rg_panes r !! k') ∧
  ∃ a a', rg_panes r !! k = Some a ∧ rg_panes r' !! k = Some a' ∧ ad_pane_root a' = Some replacement ∧
    (ad_pane_root a = Some replacement ∨ ad_pane_root a = Some expected) ∧
    (ad_label a', ad_manifest a', ad_border_format a', ad_window_id a', ad_session a') =
    (ad_label a, ad_manifest a, ad_border_format a, ad_window_id a, ad_session a).
Proof.
  unfold rebind_process. destruct (rg_panes (rh_live h) !! k) as [a|] eqn:Ea; [|done].
  case_bool_decide as E1; [intros _; cbn; split_and!; eauto 10|]. case_bool_decide as E2; [done|].
  unfold registry_commit, commit_all, commit_then. destruct (to_string_pretty _); [|done]. intros _. cbn. split_and!; try done.
  - intros k' Hk. by rewrite lookup_insert_ne.
  - exists a, (rebound replacement a). rewrite lookup_insert_eq. split_and!; auto.
Qed.
End leaving.
