(* ===== verification/NotificationAdapter.v ===== *)
(** * The durable side of one delivery run

    [src/cyclopsd/src/notification_adapter.rs]: [NotificationContext], through
    which a delivery worker reads and advances the one wake attempt it runs.
    Every method takes the store's lock for its whole body, so each is one step
    on the store; other actors run between the steps.  Publishing a change event
    has no effect on the store and is left out.

    Theorems: a method appends at most one fact through the store's interface;
    a run that no longer owns its attempt changes nothing; the write boundary is
    recorded only for a pending message at the gate. *)
From S2P Require Import Prelude Text Identity Ledger Journal Mailbox Notification Facts.
From S2P Require Import Facts Projection Attempt Prepared MailboxInv NotificationInv.
From S2P Require Import Invariant Replay Entries Guarantees Store StoreInv StoreOps Scheduler.
Local Open Scope N_scope.

Record NotificationContext := MkContext {
  nc_message_id : MessageId;
  nc_recipient : RecipientKey;
  nc_attempt_id : NotificationAttemptId;
  nc_run_epoch : N;
}.

Inductive NotificationAdapterError :=
| StoreLockPoisoned
| NoLongerCurrentBeforeWrite
| TerminalConflict (state : NotificationState)
| AdapterStore (e : MessageStoreError)
| InvalidBinding (text : rstr)
| MessageMissing.

(** The answer of a method; a panic inside the store would poison its lock. *)
Inductive answer (A : Type) :=
| Good (a : A)
| Bad (e : NotificationAdapterError)
| Poison.
Arguments Good {A} a.
Arguments Bad {A} e.
Arguments Poison {A}.

Section adapter.
Context {V : Type} {serde : Serde V} {codec : LineCodec V} {uuids : Uuids} {digests : Digests}.
Implicit Types (p : MailboxProjection V) (s : MessageStore (V:=V)) (cx : NotificationContext)
  (n : NotificationRecord).
Abbreviation stepped A := (MessageStore (V:=V) * answer A)%type.

(** [?] on a store operation. *)
Definition from_store {A} (r : MessageStore (V:=V) * outcome A) : stepped A :=
  match r with
  | (s, Done a) => (s, Good a)
  | (s, Failed e) => (s, Bad (AdapterStore e))
  | (s, Panicked) => (s, Poison)
  end.

Definition entry_allows_notification (state : MailboxEntryState) (transport : NotificationTransport)
    : bool := is_pending state.

Definition notification_run_epoch s (recipient : RecipientKey) (message_id : MessageId)
    (attempt_id : NotificationAttemptId) : N :=
  match notification (st_projection s) recipient message_id with
  | Some record => if bool_decide (nr_attempt_id record = attempt_id) then execution_epoch record else 0
  | None => 0
  end.
Definition context_new s (message_id : MessageId) (recipient : RecipientKey)
    (attempt_id : NotificationAttemptId) : NotificationContext :=
  MkContext message_id recipient attempt_id
    (notification_run_epoch s recipient message_id attempt_id).

Definition owns cx n : bool :=
  bool_decide (nr_attempt_id n = nc_attempt_id cx) && (execution_epoch n =? nc_run_epoch cx).

Definition message_line s cx : answer (LedgerLine V) :=
  match get_message (st_projection s) (nc_message_id cx) with
  | Some line => Good line
  | None => Bad MessageMissing
  end.
Definition raw_transport s cx : bool :=
  match message_line s cx with
  | Good line =>
      match data ← ll_data line; result_ok (metadata_from_value data) with
      | Some metadata => md_raw metadata
      | None => false
      end
  | _ => false
  end.
Definition current_of s cx : option NotificationRecord :=
  notification (st_projection s) (nc_recipient cx) (nc_message_id cx).
Definition current_record s cx : answer NotificationRecord :=
  match current_of s cx with Some n => Good n | None => Bad NoLongerCurrentBeforeWrite end.
(** [get_entry(..).is_some_and(|entry| entry_allows_notification(..))]. *)
Definition entry_allows s cx (transport : NotificationTransport) : bool :=
  match get_entry (st_projection s) (nc_recipient cx) (nc_message_id cx) with
  | Some e => entry_allows_notification (me_state e) transport
  | None => false
  end.

(** ** Advancing *)
Definition advance_locked s (env : Env) cx (state : NotificationState)
    (binding : option NotificationBinding) (cause : option NotificationAttentionCause)
    : stepped NotificationRecord :=
  match current_of s cx with
  | None => (s, Bad NoLongerCurrentBeforeWrite)
  | Some current =>
      if owns cx current then
        from_store (advance_notification s env (nc_message_id cx) (nc_recipient cx)
          (nc_attempt_id cx) state binding cause)
      else (s, Bad NoLongerCurrentBeforeWrite)
  end.

Definition record_gating s (env : Env) cx : stepped NotificationRecord :=
  match current_of s cx with
  | Some current =>
      if entry_allows s cx (nr_transport current) && owns cx current then
        match nr_state current with
        | Gating => (s, Good current)
        | Withdrawn | WithdrawnByOperator | Superseded => (s, Bad NoLongerCurrentBeforeWrite)
        | Queued => advance_locked s env cx Gating None None
        | state => (s, Bad (TerminalConflict state))
        end
      else (s, Bad NoLongerCurrentBeforeWrite)
  | None => (s, Bad NoLongerCurrentBeforeWrite)
  end.

(** The owned record, if it is at the gate. *)
Definition gating_record s cx : option NotificationRecord :=
  match current_of s cx with
  | Some n => if owns cx n && bool_decide (nr_state n = Gating) then Some n else None
  | None => None
  end.
Definition ensure_current_gating s cx : answer unit :=
  match gating_record s cx with
  | Some n => if entry_allows s cx (nr_transport n) then Good () else Bad NoLongerCurrentBeforeWrite
  | None => Bad NoLongerCurrentBeforeWrite
  end.

Definition record_writing s (env : Env) cx (pane_root leader agent : ProcessInstanceId)
    (manifest : rstr) (transport : NotificationTransport) (doorbell_format : option N)
    : stepped NotificationRecord :=
  match manifest_id_new manifest with
  | Err _ => (s, Bad (InvalidBinding (str "notification manifest id must be a non-empty printable token")))
  | Ok manifest =>
      match gating_record s cx with
      | Some _ =>
          if entry_allows s cx transport then
            from_store (advance_notification_with_transport s env (nc_message_id cx)
              (nc_recipient cx) (nc_attempt_id cx) Writing
              (MkBinding (nc_recipient cx) (Some pane_root) (Some leader) agent manifest)
              transport doorbell_format)
          else (s, Bad NoLongerCurrentBeforeWrite)
      | None => (s, Bad NoLongerCurrentBeforeWrite)
      end
  end.
Definition record_writing_raw s (env : Env) cx : stepped NotificationRecord :=
  match gating_record s cx with
  | Some _ =>
      if entry_allows s cx Raw then
        from_store (advance_notification_raw_writing s env (nc_message_id cx) (nc_recipient cx)
          (nc_attempt_id cx))
      else (s, Bad NoLongerCurrentBeforeWrite)
  | None => (s, Bad NoLongerCurrentBeforeWrite)
  end.

Definition record_submitted s (env : Env) cx : stepped NotificationRecord :=
  advance_locked s env cx Submitted None None.
Definition record_submitted_unverified s (env : Env) cx : stepped NotificationRecord :=
  advance_locked s env cx SubmittedUnverified None None.

Definition record_notified s (env : Env) cx (verified_by : option VerifiedBy)
    : stepped NotificationRecord :=
  let go := from_store (advance_notification_notified s env (nc_message_id cx) (nc_recipient cx)
    (nc_attempt_id cx) verified_by) in
  match current_of s cx with
  | Some current =>
      if negb (owns cx current) then (s, Bad (TerminalConflict (nr_state current)))
      else if bool_decide (nr_state current = Notified) then (s, Good current)
      else if is_terminal (nr_state current) then (s, Bad (TerminalConflict (nr_state current)))
      else go
  | None => go
  end.

Definition record_mailbox_notified s (env : Env) cx : stepped NotificationRecord :=
  match current_of s cx with
  | None => (s, Bad NoLongerCurrentBeforeWrite)
  | Some current =>
      if negb (owns cx current) then (s, Bad NoLongerCurrentBeforeWrite)
      else if bool_decide (nr_state current = Notified) && bool_decide (nr_transport current = MailboxOnly)
      then (s, Good current)
      else if bool_decide (nr_state current ≠ Queued)
      then (s, Bad (TerminalConflict (nr_state current)))
      else if negb (entry_allows s cx MailboxOnly) then (s, Bad NoLongerCurrentBeforeWrite)
      else from_store (advance_notification_mailbox_notified s env (nc_message_id cx)
        (nc_recipient cx) (nc_attempt_id cx))
  end.

Definition claimed_by_recipient s cx : bool :=
  match get_entry (st_projection s) (nc_recipient cx) (nc_message_id cx) with
  | Some e =>
      match me_state e with
      | Claimed claimant _ => bool_decide (claimant = nc_recipient cx)
      | _ => false
      end
  | None => false
  end.
Definition settle_submitted_claim s (env : Env) cx : stepped bool :=
  match current_of s cx with
  | None => (s, Bad NoLongerCurrentBeforeWrite)
  | Some current =>
      if negb (owns cx current) then (s, Bad NoLongerCurrentBeforeWrite)
      else
        let claimed := claimed_by_recipient s cx in
        if bool_decide (nr_state current = Notified) then (s, Good claimed)
        else if (bool_decide (nr_state current ≠ Submitted) &&
                 bool_decide (nr_state current ≠ SubmittedUnverified)) || negb claimed
        then (s, Good false)
        else match advance_locked s env cx Notified None None with
             | (s, Good _) => (s, Good true)
             | (s, Bad e) => (s, Bad e)
             | (s, Poison) => (s, Poison)
             end
  end.

Definition record_terminal s (env : Env) cx (state : NotificationState)
    (cause : option NotificationAttentionCause) : stepped NotificationRecord :=
  match current_of s cx with
  | Some current =>
      if negb (owns cx current) then (s, Bad (TerminalConflict (nr_state current)))
      else if bool_decide (nr_state current = state) then (s, Good current)
      else if is_terminal (nr_state current) then (s, Bad (TerminalConflict (nr_state current)))
      else advance_locked s env cx state None cause
  | None => advance_locked s env cx state None cause
  end.
Definition record_attention s (env : Env) cx (cause : NotificationAttentionCause)
    : stepped NotificationRecord :=
  record_terminal s env cx AttentionRequired (Some cause).

Definition record_pre_write_block_with_wake_block s (env : Env) cx
    (cause : NotificationPreWriteCause) (observation : option NotificationPreWriteObservation)
    (wake_block : option MessageWakeBlock) : stepped NotificationRecord :=
  match current_of s cx with
  | None => (s, Bad NoLongerCurrentBeforeWrite)
  | Some current =>
      if negb (owns cx current) then (s, Bad NoLongerCurrentBeforeWrite)
      else if bool_decide (nr_state current = BlockedPreWrite) then (s, Good current)
      else if bool_decide (nr_state current ≠ Gating)
      then (s, Bad (TerminalConflict (nr_state current)))
      else from_store (block_notification_before_write_with_wake_block s env (nc_message_id cx)
        (nc_recipient cx) (nc_attempt_id cx) cause observation wake_block)
  end.

Definition record_paste_command_unwritten s (env : Env) cx : stepped NotificationRecord :=
  match current_of s cx with
  | None => (s, Bad NoLongerCurrentBeforeWrite)
  | Some current =>
      if negb (owns cx current) then (s, Bad NoLongerCurrentBeforeWrite)
      else if bool_decide (nr_state current = BlockedPreWrite) &&
              bool_decide (nr_pre_write_cause current = Some PasteCommandUnwritten)
      then (s, Good current)
      else if bool_decide (nr_state current ≠ Writing)
      then (s, Bad (TerminalConflict (nr_state current)))
      else from_store (block_notification_before_write s env (nc_message_id cx) (nc_recipient cx)
        (nc_attempt_id cx) PasteCommandUnwritten None)
  end.

(** ** The methods together *)
Inductive AdapterCall :=
| CallGating
| CallWriting (pane_root leader agent : ProcessInstanceId) (manifest : rstr)
    (transport : NotificationTransport) (format : option N)
| CallWritingRaw
| CallSubmitted
| CallSubmittedUnverified
| CallNotified (verified_by : option VerifiedBy)
| CallMailboxNotified
| CallSettleClaim
| CallAttention (cause : NotificationAttentionCause)
| CallPreWriteBlock (cause : NotificationPreWriteCause)
    (observation : option NotificationPreWriteObservation) (wake_block : option MessageWakeBlock)
| CallPasteUnwritten.
Definition drop_answer {A} (r : stepped A) : stepped unit :=
  (r.1, match r.2 with Good _ => Good () | Bad e => Bad e | Poison => Poison end).
Definition run_call s (env : Env) cx (c : AdapterCall) : stepped unit :=
  match c with
  | CallGating => drop_answer (record_gating s env cx)
  | CallWriting pane_root leader agent manifest transport format =>
      drop_answer (record_writing s env cx pane_root leader agent manifest transport format)
  | CallWritingRaw => drop_answer (record_writing_raw s env cx)
  | CallSubmitted => drop_answer (record_submitted s env cx)
  | CallSubmittedUnverified => drop_answer (record_submitted_unverified s env cx)
  | CallNotified verified_by => drop_answer (record_notified s env cx verified_by)
  | CallMailboxNotified => drop_answer (record_mailbox_notified s env cx)
  | CallSettleClaim => drop_answer (settle_submitted_claim s env cx)
  | CallAttention cause => drop_answer (record_attention s env cx cause)
  | CallPreWriteBlock cause observation wake_block =>
      drop_answer (record_pre_write_block_with_wake_block s env cx cause observation wake_block)
  | CallPasteUnwritten => drop_answer (record_paste_command_unwritten s env cx)
  end.

(** ** One fact at most *)

(** What one method did to the store: nothing, or one operation of the store's
    interface on the attempt of the run. *)
Definition op_on cx (op : StoreOp) : Prop :=
  match op with
  | OpAdvance id r a _ _ _ | OpBlock id r a _ _ _ | OpAdvanceWithTransport id r a _ _ _ _
  | OpRawWriting id r a | OpNotified id r a _ | OpMailboxNotified id r a =>
      id = nc_message_id cx ∧ r = nc_recipient cx ∧ a = nc_attempt_id cx
  | _ => False
  end.
Definition answer_of (o : outcome unit) : answer unit :=
  match o with Done _ => Good () | Failed e => Bad (AdapterStore e) | Panicked => Poison end.
Definition one_fact s (env : Env) cx (r : stepped unit) : Prop :=
  (r.1 = s ∧ r.2 ≠ Poison) ∨
  ∃ op, op_on cx op ∧ r = prod_map id answer_of (run_op s (λ _, env) op).

Lemma one_fact_store {A} s env cx (r : MessageStore (V:=V) * outcome A) op :
  op_on cx op → run_op s (λ _, env) op = forget r →
  one_fact s env cx (drop_answer (from_store r)).
Proof.
  intros Hop Hr. right. exists op. split; [done|]. rewrite Hr. destruct r as [s' [a|e|]]; done.
Qed.
Lemma one_fact_same {A} s env cx (a : answer A) : a ≠ Poison → one_fact s env cx (drop_answer (s, a)).
Proof. intros Ha. left. split; [done|]. by destruct a. Qed.
Lemma advance_locked_one_fact s env cx state binding cause :
  one_fact s env cx (drop_answer (advance_locked s env cx state binding cause)).
Proof.
  unfold advance_locked. destruct (current_of s cx); [|by apply one_fact_same].
  destruct (owns cx _); [|by apply one_fact_same].
  by eapply (one_fact_store _ _ _ _ (OpAdvance _ _ _ _ _ _)).
Qed.

Lemma run_call_one_fact s env cx c : one_fact s env cx (run_call s env cx c).
Proof.
  destruct c; cbn [run_call].
  - unfold record_gating. destruct (current_of s cx) as [n|]; [|by apply one_fact_same].
    destruct (_ && _); [|by apply one_fact_same].
    destruct (nr_state n); try (by apply one_fact_same). apply advance_locked_one_fact.
  - unfold record_writing. destruct (manifest_id_new manifest) as [m|]; [|by apply one_fact_same].
    destruct (gating_record s cx); [|by apply one_fact_same].
    destruct (entry_allows _ _ _); [|by apply one_fact_same].
    by eapply (one_fact_store _ _ _ _ (OpAdvanceWithTransport _ _ _ _ _ _ _)).
  - unfold record_writing_raw. destruct (gating_record s cx); [|by apply one_fact_same].
    destruct (entry_allows _ _ _); [|by apply one_fact_same].
    by eapply (one_fact_store _ _ _ _ (OpRawWriting _ _ _)).
  - apply advance_locked_one_fact.
  - apply advance_locked_one_fact.
  - unfold record_notified.
    assert (one_fact s env cx (drop_answer (from_store (advance_notification_notified s env
      (nc_message_id cx) (nc_recipient cx) (nc_attempt_id cx) verified_by)))) as Hgo.
    { by eapply (one_fact_store _ _ _ _ (OpNotified _ _ _ _)). }
    destruct (current_of s cx) as [n|]; [|done]. repeat case_match; done || by apply one_fact_same.
  - unfold record_mailbox_notified. repeat case_match; try by apply one_fact_same.
    by eapply (one_fact_store _ _ _ _ (OpMailboxNotified _ _ _)).
  - unfold settle_submitted_claim. destruct (current_of s cx) as [n|]; [|by apply one_fact_same].
    repeat case_match; try by apply one_fact_same.
    all: pose proof (advance_locked_one_fact s env cx Notified None None) as Hadv;
      match goal with H : advance_locked _ _ _ _ _ _ = _ |- _ => rewrite H in Hadv end; exact Hadv.
  - unfold record_attention, record_terminal. repeat case_match; try by apply one_fact_same.
    all: apply advance_locked_one_fact.
  - unfold record_pre_write_block_with_wake_block. repeat case_match; try by apply one_fact_same.
    by eapply (one_fact_store _ _ _ _ (OpBlock _ _ _ _ _ _)).
  - unfold record_paste_command_unwritten. repeat case_match; try by apply one_fact_same.
    by eapply (one_fact_store _ _ _ _ (OpBlock _ _ _ _ _ _)).
Qed.

(** A run that lost its attempt is fenced off. *)
Lemma stale_advance s env cx state binding cause n :
  current_of s cx = Some n → owns cx n = false →
  advance_locked s env cx state binding cause = (s, Bad NoLongerCurrentBeforeWrite).
Proof. unfold advance_locked. by intros -> ->. Qed.
Lemma stale_gating s cx n : current_of s cx = Some n → owns cx n = false → gating_record s cx = None.
Proof. unfold gating_record. by intros -> ->. Qed.

(** A run that no longer owns its attempt is fenced off: once another
    attempt or a later execution of the same one is current, every method of the
    old run fails and leaves the store as it is, so a stale worker can record
    neither a write nor an outcome. *)
Theorem stale_run_is_fenced s env cx c n :
  current_of s cx = Some n → owns cx n = false →
  (run_call s env cx c).1 = s ∧ ∃ e, (run_call s env cx c).2 = Bad e.
Proof.
  intros Hc Ho. pose proof (stale_gating _ _ _ Hc Ho) as Hg.
  pose proof (λ st b ca, stale_advance s env cx st b ca n Hc Ho) as Ha.
  destruct c; cbn [run_call];
    unfold record_gating, record_writing, record_writing_raw, record_submitted,
      record_submitted_unverified, record_notified, record_mailbox_notified, settle_submitted_claim,
      record_attention, record_terminal, record_pre_write_block_with_wake_block,
      record_paste_command_unwritten;
    rewrite ?Ha, ?Hc, ?Hg, ?Ho, ?andb_false_r; cbn [negb]; try destruct (manifest_id_new _); eauto.
Qed.

(** ** With the store in order *)
Context {codec_laws : LineCodecLaws V} {serde_laws : SerdeLaws V} {storable_laws : StorableLaws}.

(** The worker's side keeps the store in order: every method leaves the
    projection equal to the replay of a journal that was only extended, appends
    at most one fact and only about its own attempt, and never poisons the
    store's lock. *)
Theorem adapter_keeps_the_store ws rows s env cx c :
  store_ok ws s rows → message_id_valid (nc_message_id cx) → env_now env ≤ u64_max →
  let r := run_call s env cx c in
  (∃ extra, store_ok ws r.1 (rows ++ extra)) ∧ r.2 ≠ Poison ∧
  (r.1 = s ∨ ∃ op, op_on cx op ∧ r.1 = (run_op s (λ _, env) op).1).
Proof.
  intros Hok Hid Henv r. pose proof (run_call_one_fact s env cx c : one_fact s env cx r) as Hf.
  destruct Hf as [[Hs Hp]|(op & Hop & Hr)].
  - rewrite Hs. split_and!; [|done|by left]. exists []. by rewrite app_nil_r.
  - assert (op_valid op) as Hv.
    { destruct op; cbn in Hop |- *; try done; by destruct Hop as [-> _]. }
    destruct (run_op_ok ws rows s (λ _, env) op Hok Hv (λ _, Henv)) as [Hst Hnp].
    rewrite Hr. cbn. split_and!; [done| |right; by exists op].
    by destruct (run_op s (λ _, env) op) as [s' [[]|e|]].
Qed.

Lemma owned_transition cx t c (line : LedgerLine V) :
  tf_attempt_id t = nc_attempt_id cx → owns cx c = true → tf_state t ≠ Gating →
  owns cx (transition_record t c line) = true.
Proof.
  unfold owns, execution_epoch. intros Ha Ho Hg. cbn.
  rewrite (bool_decide_eq_false_2 (tf_state t = Gating)), andb_false_r by done.
  apply andb_true_iff in Ho as [_ Ho]. by rewrite Ha, bool_decide_eq_true_2.
Qed.
Lemma gating_record_Some s cx c :
  gating_record s cx = Some c → current_of s cx = Some c ∧ owns cx c = true ∧ nr_state c = Gating.
Proof. unfold gating_record. intros H. repeat case_match; simplify_eq; bool_facts; done. Qed.
Lemma from_store_Good {A} (r : MessageStore (V:=V) * outcome A) s' a :
  from_store r = (s', Good a) → r = (s', Done a).
Proof. destruct r as [? []]; cbn; naive_solver. Qed.

Lemma transition_current ws rows s env cx t s' n :
  store_ok ws s rows → message_id_valid (nc_message_id cx) → env_now env ≤ u64_max →
  append_notification_transition_full_at s env t (env_now env) = (s', Done n) →
  tf_message_id t = nc_message_id cx → tf_recipient t = nc_recipient cx → tf_state t ≠ Queued →
  ∃ c (line : LedgerLine V), current_of s cx = Some c ∧ n = transition_record t c line ∧
    current_of s' cx = Some n.
Proof.
  intros Hok Hid Henv Ht E1 E2 Hq.
  destruct (transition_appended ws rows s env t (env_now env) s' n Hok Henv Henv) as
    (_ & _ & Hno & line & Hcase); [by rewrite E1|done|].
  rewrite E1, E2 in *. unfold current_of, notification in *. rewrite Hno, lookup_insert_eq.
  destruct Hcase as [(_ & Hs & _)|(c & Hc & ->)]; [done|]. by exists c, line.
Qed.

(** What a recorded write boundary stands on and what it leaves. *)
Lemma record_writing_Good ws rows s env cx root leader agent manifest transport format s' n :
  store_ok ws s rows → message_id_valid (nc_message_id cx) → env_now env ≤ u64_max →
  record_writing s env cx root leader agent manifest transport format = (s', Good n) →
  (∃ c, current_of s cx = Some c ∧ owns cx c = true ∧ nr_state c = Gating) ∧
  entry_is_pending (st_projection s) (nc_recipient cx) (nc_message_id cx) = true ∧
  current_of s' cx = Some n ∧ owns cx n = true ∧ nr_state n = Writing ∧
  nr_message_id n = nc_message_id cx ∧
  nr_transport n = transport ∧ nr_doorbell_format n = format ∧
  nr_binding n = Some (MkBinding (nc_recipient cx) (Some root) (Some leader) agent (MkManifestId manifest)).
Proof.
  intros Hok Hid Henv H. unfold record_writing in H.
  destruct (manifest_id_new manifest) as [m|] eqn:Hm; [|done].
  destruct (gating_record s cx) as [c|] eqn:Hg; [|done].
  apply gating_record_Some in Hg as (Hc & Ho & Hs).
  destruct (entry_allows s cx transport) eqn:He; [|done]. apply from_store_Good in H.
  assert (m = MkManifestId manifest) as ->.
  { unfold manifest_id_new in Hm. by destruct (_ || _); [|injection Hm as <-]. }
  split; [by exists c|]. split; [unfold entry_allows in He; unfold entry_is_pending; by destruct (get_entry _ _ _)|].
  unfold advance_notification_with_transport in H.
  assert (∃ t, append_notification_transition_full_at s env t (env_now env) = (s', Done n) ∧
    t = MkTransition CANONICAL_RECORD_VERSION (nc_attempt_id cx) (nc_message_id cx) (nc_recipient cx) Writing
      (Some (MkBinding (nc_recipient cx) (Some root) (Some leader) agent (MkManifestId manifest)))
      (Some transport) format None None None None None None) as (t & Ht & ->).
  { eexists. split; [|done]. destruct format as [f|]; [destruct (supported_doorbell_format f); [|done]|]; exact H. }
  destruct (transition_current _ _ _ _ _ _ _ _ Hok Hid Henv Ht eq_refl eq_refl) as (c' & line & Hc' & -> & Hcur);
    [done|]. assert (c' = c) as -> by congruence.
  split_and!; try done. by apply owned_transition.
Qed.

Lemma record_writing_raw_Good ws rows s env cx s' n :
  store_ok ws s rows → message_id_valid (nc_message_id cx) → env_now env ≤ u64_max →
  record_writing_raw s env cx = (s', Good n) →
  current_of s' cx = Some n ∧ owns cx n = true ∧ nr_state n = Writing ∧
  nr_message_id n = nc_message_id cx ∧ nr_transport n = Raw ∧ nr_doorbell_format n = None ∧
  nr_binding n = None.
Proof.
  intros Hok Hid Henv H. unfold record_writing_raw in H.
  destruct (gating_record s cx) as [c|] eqn:Hg; [|done].
  apply gating_record_Some in Hg as (Hc & Ho & Hs).
  destruct (entry_allows s cx Raw); [|done]. apply from_store_Good in H.
  destruct (transition_current _ _ _ _ cx _ _ _ Hok Hid Henv H eq_refl eq_refl)
    as (c' & line & Hc' & -> & Hcur); [done|]. assert (c' = c) as -> by congruence.
  split_and!; try done. by apply owned_transition.
Qed.
(** The write boundary is recorded only when it may be crossed: the run
    owns the attempt, the attempt is at the gate and the message is still
    pending.  What is recorded is a write in progress bound to this recipient
    with every process of the proof, and the run still owns it. *)
Theorem write_boundary_recorded ws rows s env cx root leader agent manifest transport format s' n :
  store_ok ws s rows → message_id_valid (nc_message_id cx) → env_now env ≤ u64_max →
  record_writing s env cx root leader agent manifest transport format = (s', Good n) →
  (∃ c, current_of s cx = Some c ∧ owns cx c = true ∧ nr_state c = Gating) ∧
  entry_is_pending (st_projection s) (nc_recipient cx) (nc_message_id cx) = true ∧
  current_of s' cx = Some n ∧ owns cx n = true ∧ nr_state n = Writing ∧
  nr_transport n = transport ∧ nr_doorbell_format n = format ∧
  nr_binding n = Some (MkBinding (nc_recipient cx) (Some root) (Some leader) agent (MkManifestId manifest)).
Proof.
  intros Hok Hid Henv H. by destruct (record_writing_Good _ _ _ _ _ _ _ _ _ _ _ _ _ Hok Hid Henv H)
    as (? & ? & ? & ? & ? & _ & ?).
Qed.

(** A receipt is recorded once: whoever reports it again, with whatever evidence,
    gets the first record back and appends nothing. *)
Lemma receipt_recorded_once ws rows s env cx verified_by s' n :
  store_ok ws s rows → message_id_valid (nc_message_id cx) → env_now env ≤ u64_max →
  record_notified s env cx verified_by = (s', Good n) →
  nr_state n = Notified ∧ current_of s' cx = Some n ∧
  ∀ env' verified_by', record_notified s' env' cx verified_by' = (s', Good n).
Proof.
  intros Hok Hid Henv H.
  assert (nr_state n = Notified ∧ current_of s' cx = Some n ∧ owns cx n = true) as (Hs & Hc & Ho).
  { unfold record_notified in H. destruct (current_of s cx) as [c|] eqn:Ec.
    - destruct (owns cx c) eqn:Eo; [|done]. cbn [negb] in H. case_bool_decide; [by simplify_eq|].
      destruct (is_terminal (nr_state c)); [done|]. apply from_store_Good in H.
      destruct (transition_current _ _ _ _ cx _ _ _ Hok Hid Henv H eq_refl eq_refl)
        as (c' & line & Hc' & -> & Hcur); [done|]. assert (c' = c) as -> by congruence.
      split_and!; [done..|]. by apply owned_transition.
    - apply from_store_Good in H.
      destruct (transition_current _ _ _ _ cx _ _ _ Hok Hid Henv H eq_refl eq_refl)
        as (c' & _ & Hc' & _); [done|congruence]. }
  split_and!; [done..|]. intros env' v'. unfold record_notified. rewrite Hc, Ho. cbn [negb].
  by rewrite bool_decide_eq_true_2.
Qed.
End adapter.
