(* ===== verification/DeliveryGate.v ===== *)
(** * The delivery gate

    [src/cyclopsd/src/delivery/gate.rs], the half before the write: why a
    doorbell is held, what admits it, the gate's loop, and how failed attempts
    are accounted.

    What the gate asks of the rest of the daemon (the pane table, the manifest
    that claims the pane, one fused capture, the composer's hold, the process
    binding) is the record [AdmitView], the answers at one evaluation.  The loop
    is one function per turn; between two turns it sleeps until a wake. *)
From S2P Require Import Prelude Text Identity Ledger Notification AttentionRegister Detection Manifests.
From S2P Require Import NotificationAdapter.
Local Open Scope N_scope.

(** ** Constants of [delivery/mod.rs], in milliseconds *)
Definition MAX_DECLINES : N := 3.
Definition OBSERVATION_RETRY : N := 250.
Definition BARRIER_RETRY : N := 50.
Definition NO_LONGER_CURRENT_BEFORE_WRITE : rstr := str "notification_no_longer_current".
Definition NOTIFICATION_RECORD_FAILED : rstr := str "notification_record_failed".

(** ** Hold causes *)
Inductive HoldCause :=
| HoldSessionDetached
| HoldNoSuchPane
| HoldPaneDead
| HoldPaneInMode
| HoldNoManifest
| HoldBindingUnprovable
| HoldForegroundNotAgent
| HoldBindingChanged
| HoldComposer
| HoldBlockedQuota
| HoldBlocked (rule : rstr)
| HoldBarrierHeld.
#[export] Instance HoldCause_eq_dec : EqDecision HoldCause.
Proof. solve_decision. Defined.

Definition hold_journal (c : HoldCause) : rstr :=
  match c with
  | HoldSessionDetached => str "session_detached"
  | HoldNoSuchPane => str "no_such_pane"
  | HoldPaneDead => str "pane_dead"
  | HoldPaneInMode => str "pane_in_mode"
  | HoldNoManifest => str "no_manifest"
  | HoldBindingUnprovable => str "occupant_unprovable"
  | HoldForegroundNotAgent => str "foreground_not_agent"
  | HoldBindingChanged => str "binding_changed"
  | HoldComposer => str "composer_hold"
  | HoldBlockedQuota => str "blocked_quota"
  | HoldBlocked rule => str "blocked:" ++ rule
  | HoldBarrierHeld => str "barrier_held"
  end.
Definition receipt_token (c : HoldCause) : rstr :=
  match c with
  | HoldSessionDetached => str "session_detached"
  | HoldPaneInMode => str "pane_in_mode"
  | HoldComposer => str "held_for_existing_draft"
  | HoldBlockedQuota => str "blocked_quota"
  | HoldBlocked _ => str "blocked"
  | HoldNoSuchPane | HoldPaneDead | HoldNoManifest | HoldBindingUnprovable
  | HoldForegroundNotAgent | HoldBindingChanged | HoldBarrierHeld => str "unknown"
  end.

(** ** Processes, panes and manifests as the gate reads them *)
Record ProcId := MkProcId { pid : Z; birth : N }.
#[export] Instance ProcId_eq_dec : EqDecision ProcId.
Proof. solve_decision. Defined.
Record Binding := MkFusionBinding {
  fb_pane_root : ProcId;
  fb_leader : ProcId;
  fb_agent : ProcId;
  fb_manifest : rstr;
}.
#[export] Instance Binding_eq_dec : EqDecision Binding.
Proof. solve_decision. Defined.
Record PaneRow := MkPaneRow { row_dead : bool; row_in_mode : bool; row_pane_pid : Z }.
(** [ProcessInstanceId::new(..).ok()]. *)
Definition process_instance_id (p : ProcId) : option ProcessInstanceId :=
  to_bsub process_instance_ok (MkProcessInstance (pid p) (birth p)).
Definition manifest_id_ok (manifest : rstr) : option NotificationManifestId :=
  result_ok (manifest_id_new manifest).
(** [pane_root] is the identity of the pane's process, if it could be read. *)
Definition binding_unprovable_observation (pane_root : option ProcId)
    (route_evidence : NotificationRouteEvidenceId) (manifest_id : rstr)
    : NotificationPreWriteObservation :=
  MkPreWriteObservation None (p ← pane_root; process_instance_id p) (manifest_id_ok manifest_id)
    None (Some route_evidence) None None.

(** ** Admission *)
Inductive Admission :=
| AdmitDoorbell (binding : Binding) (decided_by : rstr)
| AdmitRaw.
Inductive Refusal :=
| RefuseHold (cause : HoldCause)
| RefuseUnprovable (observation : NotificationPreWriteObservation)
| RefuseDeclined (rule : CompiledRule).

Record AdmitView := MkAdmitView {
  av_row : option PaneRow;
  av_manifest : option Manifest;
  av_detection : option Detection;
  av_composer_is_held : bool;
  av_admitted_binding : option Binding;
  av_pane_root : option ProcId;
  av_route_evidence : NotificationRouteEvidenceId;
}.

(** How many times each rule's modal was declined. *)
Abbreviation Declines := (gmap rstr N).

(** The rule that blocks the screen: the deciding one, if it is a blocking rule. *)
Definition blocking_rule (m : Manifest) (det : Detection) : option CompiledRule :=
  List.find (λ r, bool_decide (cr_id r = det_decided_by det) && is_blocked (cr_state r)) (mf_rules m).
Definition dismissible (declines : Declines) (r : CompiledRule) : bool :=
  cr_auto_dismiss r && negb (bool_decide (cr_decline_keys r = [])) &&
  (default 0 (declines !! cr_id r) <? MAX_DECLINES).

(** [admit] of the source, up to the decline keys: the answer and the updated decline
    counts.  A declined modal names its rule, whose keys [DeliveryAttempt.gate] sends
    before anything else happens in the gate. *)
Definition refuse (declines : Declines) (r : Refusal) : (Admission + Refusal) * Declines := (inr r, declines).
Definition admit_blocked (m : Manifest) (det : Detection) (declines : Declines) : (Admission + Refusal) * Declines :=
  match blocking_rule m det with
  | Some rule =>
      if dismissible declines rule then
        (inr (RefuseDeclined rule), <[cr_id rule := default 0 (declines !! cr_id rule) + 1]> declines)
      else refuse declines (RefuseHold (HoldBlocked (cr_id rule)))
  | None => refuse declines (RefuseHold (HoldBlocked (det_decided_by det)))
  end.
Definition admit_bound (v : AdmitView) (m : Manifest) (det : Detection) (declines : Declines)
    : (Admission + Refusal) * Declines :=
  match av_admitted_binding v with
  | Some b =>
      if bool_decide (fb_manifest b = ag_id (mf_agent m)) then
        if bool_decide (fb_leader b = fb_agent b) || bool_decide (det_state det ≠ SUnknown)
        then (inl (AdmitDoorbell b (det_decided_by det)), declines)
        else refuse declines (RefuseHold HoldForegroundNotAgent)
      else refuse declines (RefuseUnprovable
        (binding_unprovable_observation (av_pane_root v) (av_route_evidence v) (ag_id (mf_agent m))))
  | None => refuse declines (RefuseUnprovable
      (binding_unprovable_observation (av_pane_root v) (av_route_evidence v) (ag_id (mf_agent m))))
  end.
Definition admit_pane (raw : bool) (v : AdmitView) (declines : Declines) : (Admission + Refusal) * Declines :=
  match av_row v with
  | None => refuse declines (RefuseHold HoldNoSuchPane)
  | Some row =>
      if row_dead row then refuse declines (RefuseHold HoldPaneDead)
      else if raw then (inl AdmitRaw, declines)
      else if row_in_mode row then refuse declines (RefuseHold HoldPaneInMode)
      else match av_manifest v with
      | None => refuse declines (RefuseHold HoldNoManifest)
      | Some m =>
          match av_detection v with
          | None => refuse declines (RefuseHold HoldNoSuchPane)
          | Some det =>
              match det_state det with
              | SDead => refuse declines (RefuseHold HoldPaneDead)
              | SBlockedQuota => refuse declines (RefuseHold HoldBlockedQuota)
              | SBlockedModal | SBlockedPermission => admit_blocked m det declines
              | _ =>
                  if av_composer_is_held v then refuse declines (RefuseHold HoldComposer)
                  else admit_bound v m det declines
              end
          end
      end
  end.

(** ** The loop *)
Inductive GateOutcome :=
| GateProceed (admission : Admission)
| GateBlockedPreWrite (cause : NotificationPreWriteCause)
    (observation : NotificationPreWriteObservation)
| GateDeferred (cause : rstr)
| GateWithdrawn.

Record GateState := MkGateState {
  gs_declines : Declines;
  gs_regate : option HoldCause;
  gs_last_hold : option HoldCause;
  gs_hold_notified : bool;
}.
Definition gate_start (regate : option HoldCause) : GateState := MkGateState ∅ regate None false.

(** A gate line of the session ledger. *)
Record GateLine := MkGateLine { gl_action : rstr; gl_rule : option rstr; gl_cause : option rstr }.

(** What one turn reads: whether the route's watcher is there, whether the
    attempt is still current at the gate, and the view admission would get. *)
Record GateInput := MkGateInput {
  gi_watcher : bool;
  gi_current : answer unit;
  gi_view : AdmitView;
}.
(** A turn returns, declines a modal and reads again once its keys went out, or holds
    until a wake; a hold names the delay of its own timer, if it has one. *)
Inductive GateTurn :=
| TurnReturn (outcome : GateOutcome)
| TurnDecline (rule : CompiledRule)
| TurnHold (cause : HoldCause) (retry_after : option N).

Definition hold_retry (c : HoldCause) : option N :=
  match c with
  | HoldBindingUnprovable => Some OBSERVATION_RETRY
  | HoldBarrierHeld => Some BARRIER_RETRY
  | _ => None
  end.
Definition gate_hold (g : GateState) (cause : HoldCause) : GateState * list GateLine * GateTurn :=
  let fresh := bool_decide (gs_last_hold g ≠ Some cause) in
  (MkGateState (gs_declines g) (gs_regate g) (if fresh then Some cause else gs_last_hold g)
     (gs_hold_notified g),
   if fresh then [MkGateLine (str "hold") None (Some (hold_journal cause))] else [],
   TurnHold cause (hold_retry cause)).

Definition gate_turn (raw : bool) (g : GateState) (i : GateInput)
    : GateState * list GateLine * GateTurn :=
  match gi_current i with
  | Bad NoLongerCurrentBeforeWrite => (g, [], TurnReturn GateWithdrawn)
  | Bad _ | Poison => (g, [], TurnReturn (GateDeferred NOTIFICATION_RECORD_FAILED))
  | Good _ =>
      let taken := MkGateState (gs_declines g) None (gs_last_hold g) (gs_hold_notified g) in
      match gs_regate g, gi_watcher i with
      | Some cause, _ => gate_hold taken cause
      | None, false => gate_hold taken HoldSessionDetached
      | None, true =>
          let '(answer, declines) := admit_pane raw (gi_view i) (gs_declines g) in
          let g' := MkGateState declines None (gs_last_hold g) (gs_hold_notified g) in
          match answer with
          | inl admission =>
              let rule := match admission with AdmitDoorbell _ d => Some d | AdmitRaw => None end in
              (g', [MkGateLine (str "proceed") rule None], TurnReturn (GateProceed admission))
          | inr (RefuseHold cause) => gate_hold g' cause
          | inr (RefuseDeclined rule) => (g', [MkGateLine (str "decline") (Some (cr_id rule)) None], TurnDecline rule)
          | inr (RefuseUnprovable observation) =>
              if bool_decide (gs_last_hold g = Some HoldBindingUnprovable)
              then (g', [], TurnReturn (GateBlockedPreWrite BindingUnprovable observation))
              else gate_hold g' HoldBindingUnprovable
          end
      end
  end.

(** The wake that ends a hold; the notify timer is armed until it has fired. *)
Inductive Wake := WakeChange | WakeRetry | WakeNotify.
Definition wake_enabled (g : GateState) (retry_after : option N) (w : Wake) : bool :=
  match w with
  | WakeChange => true
  | WakeRetry => bool_decide (is_Some retry_after)
  | WakeNotify => negb (gs_hold_notified g)
  end.
Definition gate_wake (g : GateState) (w : Wake) : GateState :=
  match w with
  | WakeNotify => MkGateState (gs_declines g) (gs_regate g) (gs_last_hold g) true
  | _ => g
  end.

(** A run of the gate: turns, and the wake that ended each hold. *)
Record GateStep := MkGateStep { st_input : GateInput; st_turn : GateTurn; st_wake : option Wake }.
Inductive gate_runs (raw : bool) : GateState → list GateStep → GateState → Prop :=
| gate_runs_nil g : gate_runs raw g [] g
| gate_runs_decline g i g' lines rule rest g2 :
    gate_turn raw g i = (g', lines, TurnDecline rule) → gate_runs raw g' rest g2 →
    gate_runs raw g (MkGateStep i (TurnDecline rule) None :: rest) g2
| gate_runs_hold g i g' lines cause retry w rest g2 :
    gate_turn raw g i = (g', lines, TurnHold cause retry) → wake_enabled g' retry w = true →
    gate_runs raw (gate_wake g' w) rest g2 →
    gate_runs raw g (MkGateStep i (TurnHold cause retry) (Some w) :: rest) g2
| gate_runs_return g i g' lines outcome :
    gate_turn raw g i = (g', lines, TurnReturn outcome) →
    gate_runs raw g [MkGateStep i (TurnReturn outcome) None] g'.

(** ** Failures and retry accounting *)
Inductive WriteBoundary := BeforeWrite | AfterWrite.
#[export] Instance WriteBoundary_eq_dec : EqDecision WriteBoundary.
Proof. solve_decision. Defined.
Record PreWriteBlock := MkPreWriteBlock {
  pb_cause : NotificationPreWriteCause;
  pb_observation : option NotificationPreWriteObservation;
}.
Record AttemptFailure := MkFailure {
  af_cause : rstr;
  af_boundary : WriteBoundary;
  af_pre_write_block : option PreWriteBlock;
  af_regate : option HoldCause;
}.
Definition blocked_before_write (cause : rstr) (block : NotificationPreWriteCause) : AttemptFailure :=
  MkFailure cause BeforeWrite (Some (MkPreWriteBlock block None)) None.
Definition after_write (cause : rstr) : AttemptFailure := MkFailure cause AfterWrite None None.
Definition session_detached : AttemptFailure :=
  blocked_before_write (str "session_detached") SessionUnavailable.
Definition no_manifest : AttemptFailure :=
  blocked_before_write (str "no_manifest") ManifestUnavailable.
Definition payload_unavailable : AttemptFailure :=
  blocked_before_write (str "payload_unavailable") PayloadUnavailable.
Definition pane_rebound_before_paste : AttemptFailure :=
  blocked_before_write (str "pane_rebound") WriteReadinessChanged.
Definition barrier_held : AttemptFailure :=
  MkFailure (hold_journal HoldBarrierHeld) BeforeWrite None (Some HoldBarrierHeld).
Definition spool_failed : AttemptFailure := blocked_before_write (str "spool_failed") SpoolFailed.
Definition paste_command_unwritten : AttemptFailure :=
  blocked_before_write (str "paste_command_unwritten") PasteCommandUnwritten.
Definition paste_failed : AttemptFailure := after_write (str "paste_failed").
Definition pane_rebound_after_paste : AttemptFailure := after_write (str "pane_rebound_after_paste").
Definition submit_failed : AttemptFailure := after_write (str "submit_failed").
Definition notification_record_failed : AttemptFailure := after_write NOTIFICATION_RECORD_FAILED.
Definition from_inject (cause : rstr) : AttemptFailure :=
  if bool_decide (cause = str "spool_failed") then spool_failed
  else if bool_decide (cause = str "barrier_held") then barrier_held
  else if bool_decide (cause = str "paste_failed") then paste_failed
  else if bool_decide (cause = NOTIFICATION_RECORD_FAILED) then notification_record_failed
  else after_write cause.
Definition rebound_before_paste (detail : HoldCause) : AttemptFailure :=
  match detail with
  | HoldSessionDetached | HoldNoSuchPane | HoldPaneDead => session_detached
  | _ => pane_rebound_before_paste
  end.

Definition notification_attention_cause (cause : rstr) : NotificationAttentionCause :=
  if bool_decide (cause = str "paste_failed") then PasteFailed
  else if bool_decide (cause = str "pane_rebound_after_paste") then PaneReboundAfterPaste
  else if bool_decide (cause = str "submit_failed") then SubmitFailed
  else TransportOutcomeUnknown.

Definition should_retry (failure : AttemptFailure) (spent retry_max : N) : bool :=
  if bool_decide (af_cause failure = str "paste_command_unwritten") then false
  else bool_decide (af_boundary failure = BeforeWrite) && (spent <=? retry_max).
(** [attempts.saturating_sub(regates)]. *)
Definition attempts_spent (attempts regates : N) : N := attempts - regates.

(** What [fail_attempt] does with a failure. *)
Inductive FailDecision :=
| FailRetry
| FailBlock (block : PreWriteBlock)
| FailDeferred
| FailAttention (cause : NotificationAttentionCause).
Definition fail_decision (failure : AttemptFailure) (attempts regates retry_max : N) : FailDecision :=
  if should_retry failure (attempts_spent attempts regates) retry_max then FailRetry
  else match af_pre_write_block failure with
  | Some block => FailBlock block
  | None =>
      if bool_decide (af_boundary failure = BeforeWrite) then FailDeferred
      else FailAttention (notification_attention_cause (af_cause failure))
  end.
