(* ===== verification/GateProps.v ===== *)
(** * What the delivery gate guarantees

    A doorbell is admitted exactly on complete proof; decline keys, admin pings
    and unprovable readings are bounded; and no failure after the write boundary
    is ever retried. *)
From S2P Require Import Prelude Text Identity Ledger Notification AttentionRegister Detection Manifests.
From S2P Require Import NotificationAdapter DeliveryGate.
Local Open Scope N_scope.

(** ** Admission *)

(** The proof a doorbell needs, read in one evaluation. *)
Record doorbell_proof (v : AdmitView) (b : Binding) (decided_by : rstr) : Prop := {
  dp_row : ∃ row, av_row v = Some row ∧ row_dead row = false ∧ row_in_mode row = false;
  dp_screen : ∃ m det, av_manifest v = Some m ∧ av_detection v = Some det ∧
    is_blocked (det_state det) = false ∧ det_state det ≠ SDead ∧ det_decided_by det = decided_by ∧
    fb_manifest b = ag_id (mf_agent m) ∧ (fb_leader b = fb_agent b ∨ det_state det ≠ SUnknown);
  dp_composer : av_composer_is_held v = false;
  dp_binding : av_admitted_binding v = Some b;
}.

Lemma admit_bound_inl v m det declines a declines' :
  admit_bound v m det declines = (inl a, declines') ↔
  ∃ b, a = AdmitDoorbell b (det_decided_by det) ∧ declines' = declines ∧
    av_admitted_binding v = Some b ∧ fb_manifest b = ag_id (mf_agent m) ∧
    (fb_leader b = fb_agent b ∨ det_state det ≠ SUnknown).
Proof.
  unfold admit_bound, refuse. destruct (av_admitted_binding v) as [b|]; [|naive_solver].
  case_bool_decide as Hm; [|naive_solver].
  destruct (bool_decide (fb_leader b = fb_agent b) || bool_decide (det_state det ≠ SUnknown)) eqn:E.
  - assert (fb_leader b = fb_agent b ∨ det_state det ≠ SUnknown) as Hor.
    { apply orb_true_iff in E as [E|E]; apply bool_decide_eq_true in E; auto. }
    split; [intros [= <- <-]; eauto 10|]. intros (b' & -> & -> & [= <-] & _). done.
  - apply orb_false_iff in E as [E1%bool_decide_eq_false E2%bool_decide_eq_false].
    split; [done|]. naive_solver.
Qed.
Lemma admit_blocked_not_inl m det declines a declines' :
  admit_blocked m det declines ≠ (inl a, declines').
Proof. unfold admit_blocked, refuse. by repeat case_match. Qed.

(** An evaluation that answers [inl] ran every check to its end. *)
Lemma admit_doorbell_inl v declines b d declines' :
  admit_pane false v declines = (inl (AdmitDoorbell b d), declines') ↔
  declines' = declines ∧ doorbell_proof v b d.
Proof.
  split.
  - unfold admit_pane, refuse. destruct (av_row v) as [row|] eqn:Hrow; [|done].
    destruct (row_dead row) eqn:Hdead; [done|]. destruct (row_in_mode row) eqn:Hmode; [done|].
    destruct (av_manifest v) as [m|] eqn:Hm; [|done].
    destruct (av_detection v) as [det|] eqn:Hdet; [|done].
    destruct (av_composer_is_held v) eqn:Hcomp.
    { destruct (det_state det); try done; by intros ?%admit_blocked_not_inl. }
    destruct (det_state det) eqn:Hst; try done; try (by intros ?%admit_blocked_not_inl);
      intros (b' & [= -> ->] & -> & Hb & Hmf & Hor)%admit_bound_inl; (split; [done|]);
      rewrite Hst in Hor; (split; [by eauto| |done|done]); exists m, det; by rewrite Hst.
  - intros (-> & [(row & Hrow & Hdead & Hmode) (m & det & Hm & Hdet & Hblk & Hdd & <- & Hmf & Hor) Hcomp Hb]).
    unfold admit_pane. rewrite Hrow, Hdead, Hmode, Hm, Hdet, Hcomp.
    assert (admit_bound v m det declines = (inl (AdmitDoorbell b (det_decided_by det)), declines)) as E.
    { apply admit_bound_inl. eauto 10. }
    by destruct (det_state det) eqn:Hst; cbn in Hblk.
Qed.
Lemma admit_raw_inl v declines :
  admit_pane true v declines =
    match av_row v with
    | Some row => if row_dead row then refuse declines (RefuseHold HoldPaneDead)
                  else (inl AdmitRaw, declines)
    | None => refuse declines (RefuseHold HoldNoSuchPane)
    end.
Proof. reflexivity. Qed.
Lemma admit_false_not_raw v declines declines' :
  admit_pane false v declines ≠ (inl AdmitRaw, declines').
Proof.
  unfold admit_pane, admit_bound, admit_blocked, refuse. by repeat case_match.
Qed.

(** [C30.] The gate returns [Proceed] with a doorbell for binding [b] exactly when
    the attempt is still current, no barrier sends it back, the route's watcher is
    there, and one reading gives the whole proof: a live pane out of copy mode, a
    manifest and a screen neither blocked nor dead, an empty composer, and a
    binding of that manifest whose agent is in the foreground unless the screen
    itself names a state.  A raw write never carries a doorbell, and a doorbell
    turn never degrades to a raw write. *)
Theorem doorbell_needs_proof raw g i b d :
  ((∃ g' lines, gate_turn raw g i = (g', lines, TurnReturn (GateProceed (AdmitDoorbell b d)))) ↔
   raw = false ∧ gi_current i = Good tt ∧ gs_regate g = None ∧ gi_watcher i = true ∧
   doorbell_proof (gi_view i) b d) ∧
  ((∃ g' lines, gate_turn raw g i = (g', lines, TurnReturn (GateProceed AdmitRaw))) → raw = true).
Proof.
  unfold gate_turn, gate_hold. split.
  - destruct (gi_current i) as [[]|e|]; [|destruct e; naive_solver|naive_solver].
    destruct (gs_regate g); [naive_solver|]. destruct (gi_watcher i); [|naive_solver].
    destruct raw.
    { rewrite admit_raw_inl; unfold refuse. split; [|naive_solver]. by repeat case_match; intros (? & ? & [=]). }
    destruct (admit_pane false (gi_view i) (gs_declines g)) as [[[b' d'|]|rf] ds] eqn:E.
    + apply admit_doorbell_inl in E as (-> & Hp). split.
      * by intros (g' & lines & [= _ _ <- <-]).
      * intros (_ & _ & _ & _ & Hp').
        assert (admit_pane false (gi_view i) (gs_declines g) = (inl (AdmitDoorbell b d), gs_declines g)) as E1
          by by apply admit_doorbell_inl.
        assert (admit_pane false (gi_view i) (gs_declines g) = (inl (AdmitDoorbell b' d'), gs_declines g)) as E2
          by by apply admit_doorbell_inl.
        rewrite E1 in E2. injection E2 as <- <-. eauto.
    + by apply admit_false_not_raw in E.
    + split; [by repeat case_match; intros (? & ? & [=])|]. intros (_ & _ & _ & _ & Hp).
      assert (admit_pane false (gi_view i) (gs_declines g) = (inl (AdmitDoorbell b d), gs_declines g)) as E1
        by by apply admit_doorbell_inl.
      congruence.
  - intros (g' & lines & E). destruct raw; [done|exfalso].
    destruct (gi_current i) as [[]|e|]; [|by destruct e|done].
    destruct (gs_regate g); [done|]. destruct (gi_watcher i); [|done].
    destruct (admit_pane false (gi_view i) (gs_declines g)) as [[[b' d'|]|rf] ds] eqn:E'; [done| |].
    + by apply admit_false_not_raw in E'.
    + by repeat case_match.
Qed.

(** ** Bounds on a run *)
Definition decline_count (g : GateState) (r : rstr) : N := default 0 (gs_declines g !! r).
(** A turn that declined the modal of rule [r]. *)
Definition declines_rule (r : rstr) (s : GateStep) : bool :=
  match st_turn s with TurnDecline rule => bool_decide (cr_id rule = r) | _ => false end.
Definition hold_of (s : GateStep) : option HoldCause :=
  match st_turn s with TurnHold c _ => Some c | _ => None end.
Definition notifies (s : GateStep) : bool :=
  match st_wake s with Some WakeNotify => true | _ => false end.
Definition count_steps (P : GateStep → bool) (l : list GateStep) : N := N.of_nat (length (List.filter P l)).

Lemma count_steps_cons P s l :
  count_steps P (s :: l) = (if P s then 1 else 0) + count_steps P l.
Proof. unfold count_steps. cbn. destruct (P s); cbn [length]; lia. Qed.

(** A view that shows a modal the gate may dismiss: the rule that decided the screen
    blocks it, and the manifest has keys to decline it. *)
Definition shows_modal (v : AdmitView) (rule : CompiledRule) : Prop :=
  ∃ m det, av_manifest v = Some m ∧ av_detection v = Some det ∧
    (det_state det = SBlockedModal ∨ det_state det = SBlockedPermission) ∧
    rule ∈ mf_rules m ∧ cr_id rule = det_decided_by det ∧ is_blocked (cr_state rule) = true ∧
    cr_auto_dismiss rule = true ∧ cr_decline_keys rule ≠ [].
Lemma admit_declined raw v ds ds' rule :
  admit_pane raw v ds = (inr (RefuseDeclined rule), ds') →
  raw = false ∧ shows_modal v rule ∧
  default 0 (ds !! cr_id rule) < MAX_DECLINES ∧ ds' = <[cr_id rule := default 0 (ds !! cr_id rule) + 1]> ds.
Proof.
  unfold admit_pane, admit_bound, refuse. destruct (av_row v) as [row|]; [|done].
  destruct (row_dead row), raw, (row_in_mode row); try done.
  destruct (av_manifest v) as [m|] eqn:Em; [|done]. destruct (av_detection v) as [det|] eqn:Hd; [|done].
  assert (det_state det = SBlockedModal ∨ det_state det = SBlockedPermission →
    admit_blocked m det ds = (inr (RefuseDeclined rule), ds') →
    shows_modal v rule ∧ default 0 (ds !! cr_id rule) < MAX_DECLINES ∧
    ds' = <[cr_id rule := default 0 (ds !! cr_id rule) + 1]> ds) as Hb.
  { intros Hst. unfold admit_blocked, refuse. destruct (blocking_rule m det) as [x|] eqn:Hr; [|done].
    destruct (dismissible ds x) eqn:Hdis; [|done]. intros [= <- <-].
    apply List.find_some in Hr as [Hin%list_elem_of_In [Hid%bool_decide_eq_true Hblk]%andb_true_iff].
    apply andb_true_iff in Hdis as [[Hau Hk%negb_true_iff%bool_decide_eq_false]%andb_true_iff Hlt%N.ltb_lt].
    split; [|done]. exists m, det. by split_and!. }
  destruct (det_state det) eqn:Hst; try (by repeat case_match); intros H; (split; [done|]); apply Hb; auto.
Qed.
(** What a modal shows does not depend on what was declined before. *)
Lemma admit_declined_fresh v ds rule ds' :
  admit_pane false v ds = (inr (RefuseDeclined rule), ds') → ∃ ds2, admit_pane false v ∅ = (inr (RefuseDeclined rule), ds2).
Proof.
  unfold admit_pane, admit_bound, refuse. destruct (av_row v) as [row|]; [|done].
  destruct (row_dead row), (row_in_mode row); try done.
  destruct (av_manifest v) as [m|]; [|done]. destruct (av_detection v) as [det|]; [|done].
  assert (admit_blocked m det ds = (inr (RefuseDeclined rule), ds') →
    ∃ ds2, admit_blocked m det ∅ = (inr (RefuseDeclined rule), ds2)) as Hb.
  { unfold admit_blocked, refuse, dismissible. destruct (blocking_rule m det) as [x|]; [|done]. rewrite lookup_empty.
    destruct (cr_auto_dismiss x && _) eqn:E; cbn [andb]; [|done].
    destruct (default 0 (ds !! cr_id x) <? MAX_DECLINES); [|done]. intros [= <- <-]. by eexists. }
  destruct (det_state det); try (by repeat case_match); apply Hb.
Qed.
Lemma admit_keeps_declines raw v ds a ds' :
  admit_pane raw v ds = (a, ds') → (∀ rule, a ≠ inr (RefuseDeclined rule)) → ds' = ds.
Proof.
  unfold admit_pane, admit_bound, admit_blocked, refuse. repeat case_match; naive_solver.
Qed.

Lemma gate_hold_eq g cause g' lines t :
  gate_hold g cause = (g', lines, t) →
  g' = MkGateState (gs_declines g) (gs_regate g) (Some cause) (gs_hold_notified g) ∧
  t = TurnHold cause (hold_retry cause).
Proof.
  unfold gate_hold. intros [= <- _ <-]. split; [|done]. f_equal. by case_bool_decide as H.
Qed.
(** One evaluation of the gate, as far as its reading decides it. *)
Definition gate_reads (raw : bool) (i : GateInput) : GateTurn := (gate_turn raw (gate_start None) i).2.
Lemma gate_turn_decline raw g i g' lines rule :
  gate_turn raw g i = (g', lines, TurnDecline rule) →
  raw = false ∧ shows_modal (gi_view i) rule ∧ decline_count g (cr_id rule) < MAX_DECLINES ∧
  g' = MkGateState (<[cr_id rule := decline_count g (cr_id rule) + 1]> (gs_declines g)) None (gs_last_hold g)
         (gs_hold_notified g) ∧
  lines = [MkGateLine (str "decline") (Some (cr_id rule)) None] ∧ gate_reads raw i = TurnDecline rule.
Proof.
  unfold gate_reads, gate_turn. cbn [gate_start gs_regate gs_declines]. destruct (gi_current i) as [[]|e|]; [|by destruct e|done].
  destruct (gs_regate g) as [c|]; [by intros [_ [=]]%gate_hold_eq|].
  destruct (gi_watcher i); [|by intros [_ [=]]%gate_hold_eq].
  destruct (admit_pane raw (gi_view i) (gs_declines g)) as [a ds] eqn:E.
  destruct a as [[]|[c|ob|x]]; [done|done|by intros [_ [=]]%gate_hold_eq| |].
  - case_bool_decide; [done|by intros [_ [=]]%gate_hold_eq].
  - intros [= <- <- <-]. destruct (admit_declined _ _ _ _ _ E) as (-> & Hm & Hlt & ->).
    destruct (admit_declined_fresh _ _ _ _ E) as [ds2 ->]. by split_and!.
Qed.
Lemma gate_turn_proceed raw g i g' lines a :
  gate_turn raw g i = (g', lines, TurnReturn (GateProceed a)) →
  (∃ rule, lines = [MkGateLine (str "proceed") rule None]) ∧ gate_reads raw i = TurnReturn (GateProceed a) ∧
  match a with AdmitDoorbell _ _ => raw = false | AdmitRaw => raw = true end.
Proof.
  unfold gate_reads, gate_turn. cbn [gate_start gs_regate gs_declines]. destruct (gi_current i) as [[]|e|]; [|by destruct e|done].
  destruct (gs_regate g) as [c|]; [by intros [_ [=]]%gate_hold_eq|].
  destruct (gi_watcher i); [|by intros [_ [=]]%gate_hold_eq].
  destruct (admit_pane raw (gi_view i) (gs_declines g)) as [x ds] eqn:E.
  destruct x as [x|[c|ob|x]]; [|by intros [_ [=]]%gate_hold_eq| |done].
  2:{ case_bool_decide; [done|by intros [_ [=]]%gate_hold_eq]. }
  intros [= _ <- <-]. split; [by eexists|]. destruct raw.
  - revert E. rewrite !admit_raw_inl. unfold refuse. destruct (av_row (gi_view i)) as [row|]; [|done].
    destruct (row_dead row); [done|]. by intros [= <- <-].
  - destruct x as [b d|]; [|by apply admit_false_not_raw in E]. apply admit_doorbell_inl in E as [_ Hp].
    rewrite (proj2 (admit_doorbell_inl (gi_view i) ∅ b d ∅)) by done. done.
Qed.
Lemma gate_turn_hold raw g i g' lines cause retry :
  gate_turn raw g i = (g', lines, TurnHold cause retry) →
  g' = MkGateState (gs_declines g) None (Some cause) (gs_hold_notified g) ∧
  retry = hold_retry cause ∧
  (cause = HoldBindingUnprovable → gs_last_hold g = Some HoldBindingUnprovable →
   gs_regate g = Some HoldBindingUnprovable).
Proof.
  unfold gate_turn. destruct (gi_current i) as [[]|e|]; [|by destruct e|done].
  destruct (gs_regate g) as [c|].
  { intros [-> [= -> ->]]%gate_hold_eq. cbn. by split_and!; [..|intros ->]. }
  destruct (gi_watcher i); [|by intros [-> [= -> ->]]%gate_hold_eq].
  destruct (admit_pane raw (gi_view i) (gs_declines g)) as [a ds] eqn:E.
  destruct a as [[]|[c|ob|x]]; [done|done| | |done].
  - rewrite (admit_keeps_declines _ _ _ _ _ E ltac:(done)). intros [-> [= -> ->]]%gate_hold_eq. cbn.
    split_and!; [done|done|]. intros -> _. exfalso. revert E. clear.
    unfold admit_pane, admit_bound, admit_blocked, refuse. by repeat case_match.
  - rewrite (admit_keeps_declines _ _ _ _ _ E ltac:(done)). case_bool_decide as Hl; [done|].
    intros [-> [= -> ->]]%gate_hold_eq. by cbn.
Qed.

(** What a run may still do from [g]. *)
Definition no_repeat (U : HoldCause) (prev : option HoldCause) (l : list HoldCause) : Prop :=
  ∀ l1 l2, option_list prev ++ l ≠ l1 ++ U :: U :: l2.
Lemma no_repeat_nil U prev : no_repeat U prev [].
Proof.
  intros l1 l2 E%(f_equal length). rewrite !length_app in E. destruct prev; cbn in E; lia.
Qed.
Lemma no_repeat_cons U prev c l :
  (prev = Some U → c ≠ U) → no_repeat U (Some c) l → no_repeat U prev (c :: l).
Proof.
  intros Hc Hl l1 l2. destruct prev as [p|]; cbn; [|apply Hl].
  destruct l1 as [|x l1]; cbn; [intros [= -> -> _]; by apply Hc|]. intros [= _ E]. by apply (Hl l1 l2).
Qed.

Lemma gate_runs_bounded raw g steps g2 :
  gate_runs raw g steps g2 →
  (gs_regate g = Some HoldBindingUnprovable → gs_last_hold g ≠ Some HoldBindingUnprovable) →
  (∀ r, decline_count g r ≤ MAX_DECLINES) →
  (∀ r, count_steps (declines_rule r) steps + decline_count g r ≤ MAX_DECLINES) ∧
  count_steps notifies steps + (if gs_hold_notified g then 1 else 0) ≤ 1 ∧
  no_repeat HoldBindingUnprovable (gs_last_hold g) (omap hold_of steps).
Proof.
  induction 1 as [g|g i g' lines rule rest g2 Ht _ IH|g i g' lines cause retry w rest g2 Ht Hw _ IH
                 |g i g' lines outcome Ht]; intros Hre Hds.
  - split_and!; [intros r; exact (Hds r)|by destruct (gs_hold_notified g)|].
    apply no_repeat_nil.
  - apply gate_turn_decline in Ht as (_ & _ & Hlt & -> & _). set (r := cr_id rule) in *.
    assert (∀ r', decline_count (MkGateState (<[r := decline_count g r + 1]> (gs_declines g)) None
      (gs_last_hold g) (gs_hold_notified g)) r' =
      if bool_decide (r = r') then decline_count g r' + 1 else decline_count g r') as Hc.
    { intros r'. unfold decline_count at 1. cbn. rewrite lookup_insert. by do 2 case_decide; subst. }
    destruct IH as (IH1 & IH2 & IH3); [done| |].
    { intros r'. rewrite Hc. specialize (Hds r'). case_bool_decide; subst; lia. }
    split_and!.
    + intros r'. specialize (IH1 r'). rewrite Hc in IH1.
      rewrite count_steps_cons. unfold declines_rule at 1. cbn [st_turn]. fold r.
      repeat case_bool_decide; simplify_eq; lia.
    + exact IH2.
    + exact IH3.
  - apply gate_turn_hold in Ht as (-> & -> & Hu).
    assert (∀ r, decline_count (gate_wake (MkGateState (gs_declines g) None (Some cause)
      (gs_hold_notified g)) w) r = decline_count g r) as Hc by by intros r; destruct w.
    destruct IH as (IH1 & IH2 & IH3); [by destruct w|by intros r; rewrite Hc|].
    split_and!.
    + intros r. specialize (IH1 r). rewrite Hc in IH1. exact IH1.
    + rewrite count_steps_cons. destruct w; cbn in Hw, IH2 |- *; [done|done|].
      destruct (gs_hold_notified g); [done|]. lia.
    + cbn. apply no_repeat_cons; [|by destruct w]. intros Hl ->. by apply Hre; [apply Hu|].
  - split_and!; [intros r; exact (Hds r)| |].
    + by destruct (gs_hold_notified g).
    + apply no_repeat_nil.
Qed.

(** [C40.] A run of the gate is bounded in what it inflicts, however long it waits:
    the modal of one rule is declined at most [MAX_DECLINES] times, the admin is
    pinged about the hold at most once, and two unprovable readings never hold
    the message twice in a row, since the second one settles it as blocked before
    any write. *)
Theorem gate_run_is_bounded raw regate steps g :
  gate_runs raw (gate_start regate) steps g →
  (∀ r, count_steps (declines_rule r) steps ≤ MAX_DECLINES) ∧
  count_steps notifies steps ≤ 1 ∧
  ∀ l1 l2, omap hold_of steps ≠ l1 ++ HoldBindingUnprovable :: HoldBindingUnprovable :: l2.
Proof.
  intros H. destruct (gate_runs_bounded _ _ _ _ H) as (H1 & H2 & H3); [done| |].
  { intros r. unfold decline_count. cbn. rewrite lookup_empty. by cbn. }
  cbn in H2. split_and!; [|lia|exact H3].
  intros r. specialize (H1 r). lia.
Qed.

(** ** Failures *)
Lemma fail_retry_iff failure attempts regates retry_max :
  fail_decision failure attempts regates retry_max = FailRetry ↔
  af_boundary failure = BeforeWrite ∧ af_cause failure ≠ str "paste_command_unwritten" ∧
  attempts - regates ≤ retry_max.
Proof.
  unfold fail_decision, should_retry, attempts_spent.
  case_bool_decide as Hp.
  { split; [|naive_solver]. by repeat case_match. }
  case_bool_decide as Hb; cbn; [|split; [by repeat case_match|naive_solver]].
  destruct (N.leb_spec (attempts - regates) retry_max); [done|].
  split; [by repeat case_match|]. intros (_ & _ & ?). lia.
Qed.

(** An attempt is tried again only while nothing was written: exactly when
    its failure lies before the write boundary, the paste command itself is not
    in doubt and attempts remain.  Every injector cause but the two that prove
    nothing was pasted counts as a possible write, and such a failure ends in the
    human's attention, never in a retry or a silent drop. *)
Theorem written_failures_are_never_retried :
  (∀ failure attempts regates retry_max,
     fail_decision failure attempts regates retry_max = FailRetry ↔
     af_boundary failure = BeforeWrite ∧ af_cause failure ≠ str "paste_command_unwritten" ∧
     attempts - regates ≤ retry_max) ∧
  (∀ cause, af_boundary (from_inject cause) = BeforeWrite ↔
     cause = str "spool_failed" ∨ cause = str "barrier_held") ∧
  (∀ cause attempts regates retry_max, af_boundary (from_inject cause) = AfterWrite →
     fail_decision (from_inject cause) attempts regates retry_max =
       FailAttention (notification_attention_cause cause)).
Proof.
  assert (∀ c, af_cause (from_inject c) = c) as Hcause.
  { intros c. unfold from_inject. repeat (case_bool_decide; [by subst|]). done. }
  assert (∀ c, af_boundary (from_inject c) = AfterWrite → af_pre_write_block (from_inject c) = None) as Hblk.
  { intros c. unfold from_inject. by repeat (case_bool_decide; [done|]). }
  split_and!.
  - apply fail_retry_iff.
  - intros c. unfold from_inject.
    case_bool_decide as H1; [naive_solver|]. case_bool_decide as H2; [naive_solver|].
    split; [by repeat (case_bool_decide; [done|])|]. naive_solver.
  - intros c a r m Hb. unfold fail_decision, should_retry. rewrite Hb, (Hblk c Hb), Hcause.
    rewrite (bool_decide_eq_false_2 (AfterWrite = BeforeWrite)) by done. cbn. by case_bool_decide.
Qed.
