(* ===== verification/Callers.v ===== *)
(** * Who is calling

    [src/cyclopsd/src/identity.rs] and the authentication half of
    [src/cyclopsd/src/server.rs]: the walk from a socket peer up the process tree to
    the operator, to a watched pane, or to doubt; the walk that roots a headless
    registration; and the walk that finds the agent a hook helper works for.

    The process table changes while it is read.  [ProcWorld] gives every reading by its
    number, so two readings of the same process may differ; each definition takes the
    number of its first reading and makes the readings of the code in the code's order.
    The kernel readings below them ([ProcId::of], [parent_of], [foreign_owner]) are the
    parameter [Kernel]; five of its readings make one reading of a parent. *)
From S2P Require Import Prelude Text Identity DeliveryGate.
Local Open Scope N_scope.

#[export] Instance ProcId_countable : Countable ProcId.
Proof. by apply (inj_countable' (λ p, (pid p, birth p)) (λ x, MkProcId x.1 x.2)); intros []. Defined.
Definition MAX_ANCESTRY_DEPTH : nat := 32.

Inductive Sender := SenderAgent (label : rstr) | SenderPane (pane_id : rstr) | SenderAdmin | SenderUnprovable.
Inductive PeerOrigin :=
| OriginAdmin
| OriginPane (pane_id : rstr) (label : option rstr) (pane_root : ProcId) (vendor_below : bool)
| OriginUnprovable.
Inductive OriginParent := ParentProcess (p : ProcId) | ParentTop.
Inductive Vendorship := Vendor | NotVendor | VendorUnprovable.
Inductive HeadlessRoot := RootVendor (p : ProcId) | RootInsidePane (pane_id : rstr) | RootNoVendor | RootUnprovable.
Inductive VendorAncestor (T : Type) := AncestorVendor (t : T) | AncestorNotVendor | AncestorUnprovable.
Arguments AncestorVendor {T} t.
Arguments AncestorNotVendor {T}.
Arguments AncestorUnprovable {T}.
#[export] Instance OriginParent_eq_dec : EqDecision OriginParent.
Proof. solve_decision. Defined.
#[export] Instance Vendorship_eq_dec : EqDecision Vendorship.
Proof. solve_decision. Defined.
#[export] Instance PeerOrigin_eq_dec : EqDecision PeerOrigin.
Proof. solve_decision. Defined.
#[export] Instance HeadlessRoot_eq_dec : EqDecision HeadlessRoot.
Proof. solve_decision. Defined.

(** ** The peer of a connection *)
Record PeerIdentity := MkPeerIdentity { pi_uid : N; pi_pid : Z; pi_birth : N; pi_exec : option (list N) }.
#[export] Instance PeerIdentity_eq_dec : EqDecision PeerIdentity.
Proof. solve_decision. Defined.
Definition matches_socket_identity (id current : PeerIdentity) : bool :=
  if bool_decide (pi_uid id ≠ pi_uid current) || bool_decide (pi_pid id ≠ pi_pid current)
     || bool_decide (pi_birth id ≠ pi_birth current) then false
  else if bool_decide (pi_exec id ≠ pi_exec current) then false
  else true.
Definition matches_process (id : PeerIdentity) (current : option ProcId) : bool :=
  bool_decide (current = Some (MkProcId (pi_pid id) (pi_birth id))).
(** [still_current]: [now] is what the socket answers, [current] what [ProcId::of] does. *)
Definition still_current (id : PeerIdentity) (now : option PeerIdentity) (current : option ProcId) : bool :=
  match now with Some now => matches_socket_identity id now && matches_process id current | None => false end.
Inductive PeerDenied := NoCredentials | PeerReplaced | ForeignUid (uid : N).
Definition daemon_peer (conn : option PeerIdentity) (now : option PeerIdentity) (current : option ProcId) (daemon_uid : N)
    : result PeerDenied (N * Z) :=
  match conn with
  | None => Err NoCredentials
  | Some id =>
      if still_current id now current
      then if bool_decide (pi_uid id ≠ daemon_uid) then Err (ForeignUid (pi_uid id)) else Ok (pi_uid id, pi_pid id)
      else Err PeerReplaced
  end.

(** ** The kernel *)
Record Kernel := MkKernel {
  kn_birth : nat → Z → option N;
  kn_parent : nat → Z → option Z;
  kn_foreign_owner : nat → Z → option N;
}.
(** [ProcId::of] and [ProcId::still_live]. *)
Definition proc_of (k : Kernel) (t : nat) (p : Z) : option ProcId :=
  if (0 <? p)%Z then MkProcId p <$> kn_birth k t p else None.
Definition still_live (k : Kernel) (t : nat) (p : ProcId) : bool := bool_decide (kn_birth k t (pid p) = Some (birth p)).
Definition parent_ident (k : Kernel) (t : nat) (child : ProcId) : option ProcId :=
  if bool_decide (proc_of k t (pid child) ≠ Some child) then None
  else
    ppid ← kn_parent k (t + 1) (pid child);
    if bool_decide (proc_of k (t + 2) (pid child) ≠ Some child) then None
    else proc_of k (t + 3) ppid.
Definition origin_parent_ident (k : Kernel) (uid : N) (t : nat) (child : ProcId) : option OriginParent :=
  if bool_decide (proc_of k t (pid child) ≠ Some child) then None
  else
    ppid ← kn_parent k (t + 1) (pid child);
    if bool_decide (proc_of k (t + 2) (pid child) ≠ Some child) then None
    else if (ppid <=? 1)%Z then Some ParentTop
    else
      match proc_of k (t + 3) ppid with
      | Some parent => Some (ParentProcess parent)
      | None =>
          match kn_foreign_owner k (t + 4) ppid with
          | Some owner => if owner =? uid then None else Some ParentTop
          | None => None
          end
      end.

(** ** Walks *)
Record ProcWorld := MkProcWorld {
  wd_vendor : nat → ProcId → Vendorship;
  wd_parent : nat → ProcId → option OriginParent;
  wd_live : nat → ProcId → bool;
}.
(** The readings a daemon of user [uid] makes. *)
Definition observed_world (k : Kernel) (uid : N) (is_vendor : nat → Z → Vendorship) : ProcWorld :=
  MkProcWorld (λ t p, is_vendor t (pid p)) (λ t, origin_parent_ident k uid (5 * t)) (λ t, still_live k (5 * t)).

Section walks.
Context (wd : ProcWorld).

Fixpoint links_current (t : nat) (path : list ProcId) : bool :=
  match path with
  | a :: (b :: _) as rest => bool_decide (wd_parent wd t a = Some (ParentProcess b)) && links_current (S t) rest
  | _ => true
  end.
Definition path_is_current (t : nat) (path : list ProcId) : bool :=
  match path with [] => false | p :: _ => wd_live wd t p && links_current (S t) path end.
Definition path_is_current_to_top (t : nat) (path : list ProcId) : bool :=
  path_is_current t path
  && match last path with Some p => bool_decide (wd_parent wd (t + length path) p = Some ParentTop) | None => false end.

Definition PaneRoots := list (rstr * option rstr * ProcId).
Definition rooted (panes : PaneRoots) (p : ProcId) : option (rstr * option rstr * ProcId) :=
  snd <$> list_find (λ x : rstr * option rstr * ProcId, x.2 = p) panes.
Fixpoint origin_walk (fuel t : nat) (panes : PaneRoots) (current : ProcId) (path : list ProcId) (vendor_below : bool) : PeerOrigin :=
  match fuel with
  | O => OriginUnprovable
  | S fuel =>
      if (pid current <=? 0)%Z || bool_decide (current ∈ path) then OriginUnprovable
      else
        let path := path ++ [current] in
        match rooted panes current with
        | Some (pane_id, label, pane_root) =>
            match wd_vendor wd t current with
            | VendorUnprovable => OriginUnprovable
            | v =>
                let vendor_below := match v with Vendor => true | _ => vendor_below end in
                if path_is_current (S t) path then OriginPane pane_id label pane_root vendor_below else OriginUnprovable
            end
        | None =>
            match wd_vendor wd t current with
            | VendorUnprovable => OriginUnprovable
            | v =>
                let vendor_below := match v with Vendor => true | _ => vendor_below end in
                match wd_parent wd (S t) current with
                | Some (ParentProcess next) => origin_walk fuel (S (S t)) panes next path vendor_below
                | Some ParentTop =>
                    if vendor_below || negb (path_is_current_to_top (S (S t)) path) then OriginUnprovable else OriginAdmin
                | None => OriginUnprovable
                end
            end
        end
  end.
Definition resolve_peer_origin_with (t : nat) (start : ProcId) (panes : PaneRoots) : PeerOrigin :=
  origin_walk MAX_ANCESTRY_DEPTH t panes start [] false.

Fixpoint headless_walk (fuel t : nat) (panes : list (rstr * ProcId)) (current : ProcId) (path : list ProcId)
    (nearest : option ProcId) : HeadlessRoot :=
  match fuel with
  | O => RootUnprovable
  | S fuel =>
      if (pid current <=? 0)%Z || bool_decide (current ∈ path) then RootUnprovable
      else
        let path := path ++ [current] in
        match list_find (λ x : rstr * ProcId, x.2 = current) panes with
        | Some (_, (pane_id, _)) => RootInsidePane pane_id
        | None =>
            match wd_vendor wd t current with
            | VendorUnprovable => RootUnprovable
            | v =>
                let nearest := match v, nearest with Vendor, None => Some current | _, _ => nearest end in
                match wd_parent wd (S t) current with
                | Some (ParentProcess next) => headless_walk fuel (S (S t)) panes next path nearest
                | Some ParentTop =>
                    if path_is_current_to_top (S (S t)) path
                    then match nearest with Some root => RootVendor root | None => RootNoVendor end
                    else RootUnprovable
                | None => RootUnprovable
                end
            end
        end
  end.
Definition headless_root_with (t : nat) (start : ProcId) (panes : list (rstr * ProcId)) : HeadlessRoot :=
  headless_walk MAX_ANCESTRY_DEPTH t panes start [] None.
End walks.

(** The agent a helper works for: up from the helper, the pane root last. *)
Section ancestor.
Context {T : Type} (parent : nat → ProcId → option ProcId).

Fixpoint reaches_walk (fuel t : nat) (target root current : ProcId) (seen : gset ProcId) (saw : bool) : bool :=
  match fuel with
  | O => false
  | S fuel =>
      if (pid current <=? 0)%Z || bool_decide (current ∈ seen) then false
      else
        let saw := saw || bool_decide (current = target) in
        if bool_decide (current = root) then saw
        else match parent t current with
             | Some p => reaches_walk fuel (S t) target root p ({[current]} ∪ seen) saw
             | None => false
             end
  end.
Definition reaches (t : nat) (from target root : ProcId) : bool :=
  reaches_walk MAX_ANCESTRY_DEPTH t target root from ∅ false.

Fixpoint ancestor_walk (classify : nat → ProcId → option T) (fuel t : nat) (start root current : ProcId) (seen : gset ProcId) : option T :=
  match fuel with
  | O => None
  | S fuel =>
      if (pid current <=? 0)%Z || bool_decide (current ∈ seen) then None
      else match classify t current with
           | Some found => if reaches (S t) start current root then Some found else None
           | None =>
               if bool_decide (current = root) then None
               else match parent (S t) current with
                    | Some p => ancestor_walk classify fuel (S (S t)) start root p ({[current]} ∪ seen)
                    | None => None
                    end
           end
  end.
Definition vendor_ancestor_with (classify : nat → ProcId → option T) (t : nat) (start root : ProcId) : option T :=
  ancestor_walk classify MAX_ANCESTRY_DEPTH t start root start ∅.

Fixpoint observed_walk (classify : nat → ProcId → VendorAncestor T) (fuel t : nat) (start root current : ProcId) (seen : gset ProcId)
    : VendorAncestor T :=
  match fuel with
  | O => AncestorUnprovable
  | S fuel =>
      if (pid current <=? 0)%Z || bool_decide (current ∈ seen) then AncestorUnprovable
      else match classify t current with
           | AncestorVendor found => if reaches (S t) start current root then AncestorVendor found else AncestorUnprovable
           | AncestorUnprovable => AncestorUnprovable
           | AncestorNotVendor =>
               if bool_decide (current = root)
               then if reaches (S t) start root root then AncestorNotVendor else AncestorUnprovable
               else match parent (S t) current with
                    | Some next => observed_walk classify fuel (S (S t)) start root next ({[current]} ∪ seen)
                    | None => AncestorUnprovable
                    end
           end
  end.
Definition vendor_ancestor_observed_with (classify : nat → ProcId → VendorAncestor T) (t : nat) (start root : ProcId) : VendorAncestor T :=
  observed_walk classify MAX_ANCESTRY_DEPTH t start root start ∅.
End ancestor.

(** ** The walks from a pid *)
Section kernel.
Context (k : Kernel) (uid : N) (is_vendor : nat → Z → Vendorship).
Definition resolve_peer_origin_observed (t : nat) (p : Z) (panes : PaneRoots) : PeerOrigin :=
  match proc_of k (5 * t) p with
  | None => OriginUnprovable
  | Some start => resolve_peer_origin_with (observed_world k uid is_vendor) (S t) start panes
  end.
(** Rows whose root cannot be read are no rows. *)
Fixpoint observed_roots (t : nat) (panes : list (rstr * option rstr * Z)) : PaneRoots :=
  match panes with
  | [] => []
  | (pane_id, label, root_pid) :: panes =>
      match proc_of k (5 * t) root_pid with
      | Some root => (pane_id, label, root) :: observed_roots (S t) panes
      | None => observed_roots (S t) panes
      end
  end.
Definition observe_peer_origin (t : nat) (p : Z) (panes : list (rstr * option rstr * Z)) : PeerOrigin :=
  match proc_of k (5 * t) p with
  | None => OriginUnprovable
  | Some start =>
      resolve_peer_origin_with (observed_world k uid is_vendor) (S t + length panes) start (observed_roots (S t) panes)
  end.
Definition resolve_sender (t : nat) (p : Z) (panes : list (rstr * option rstr * Z)) : Sender :=
  match observe_peer_origin t p panes with
  | OriginAdmin => SenderAdmin
  | OriginPane pane_id label _ _ => match label with Some label => SenderAgent label | None => SenderPane pane_id end
  | OriginUnprovable => SenderUnprovable
  end.
Definition headless_root (t : nat) (p : Z) (panes : list (rstr * ProcId)) : HeadlessRoot :=
  match proc_of k (5 * t) p with
  | None => RootUnprovable
  | Some start => headless_root_with (observed_world k uid is_vendor) (S t) start panes
  end.
Definition vendor_ancestor {T} (classify : nat → Z → option T) (t : nat) (p root : Z) : option T :=
  start ← proc_of k (5 * t) p;
  root ← proc_of k (5 * t + 1) root;
  vendor_ancestor_with (λ t, parent_ident k (5 * t)) (λ t p, classify t (pid p)) (S t) start root.
Definition vendor_ancestor_observed {T} (classify : nat → Z → VendorAncestor T) (t : nat) (p root : Z) : VendorAncestor T :=
  match proc_of k (5 * t) p, proc_of k (5 * t + 1) root with
  | Some start, Some root =>
      vendor_ancestor_observed_with (λ t, parent_ident k (5 * t)) (λ t p, classify t (pid p)) (S t) start root
  | _, _ => AncestorUnprovable
  end.
End kernel.

(** * What a caller's identity rests on

    Theorems about the walks of [Callers.v]: an answer other than doubt rests on a
    chain of distinct processes read hop by hop and read again, and in a process table
    that holds still the walk answers exactly what the chain says. *)

Section origin.
Context (wd : ProcWorld) (panes : PaneRoots).

(** The first pass over a path: every hop was classified, and every hop but the last is
    no pane root and had the next one as its parent. *)
Fixpoint climbed (t : nat) (path : list ProcId) : Prop :=
  match path with
  | [] => True
  | p :: rest =>
      (0 < pid p)%Z ∧ wd_vendor wd t p ≠ VendorUnprovable ∧
      match rest with [] => True | q :: _ => rooted panes p = None ∧ wd_parent wd (S t) p = Some (ParentProcess q) end ∧
      climbed (S (S t)) rest
  end.
(** Some hop was read as a vendor. *)
Fixpoint vendor_read (t : nat) (path : list ProcId) : bool :=
  match path with
  | [] => false
  | p :: rest => bool_decide (wd_vendor wd t p = Vendor) || vendor_read (S (S t)) rest
  end.
(** How a walk from [start] over [path] ends in an origin, [t] the number of its first reading. *)
Definition proves (t : nat) (o : PeerOrigin) (path : list ProcId) (below : bool) (rest : list ProcId) : Prop :=
  let n := length rest in
  match o with
  | OriginUnprovable => False
  | OriginAdmin =>
      below || vendor_read t rest = false ∧
      (∃ top, last rest = Some top ∧ rooted panes top = None ∧ wd_parent wd (t + 2 * n - 1) top = Some ParentTop) ∧
      path_is_current_to_top wd (t + 2 * n) (path ++ rest) = true
  | OriginPane pane_id label root v =>
      v = below || vendor_read t rest ∧ last rest = Some root ∧ rooted panes root = Some (pane_id, label, root) ∧
      path_is_current wd (t + 2 * n - 1) (path ++ rest) = true
  end.

Lemma rooted_Some p x : rooted panes p = Some x → x ∈ panes ∧ x.2 = p.
Proof.
  unfold rooted. destruct (list_find _ _) as [[i y]|] eqn:E; cbn; [|done]. intros [= <-].
  apply list_find_Some in E as (Hi & Hp & _). split; [by eapply list_elem_of_lookup_2|done].
Qed.
Lemma proves_cons t o path below p q rest :
  head rest = Some q →
  proves (S (S t)) o (path ++ [p]) (match wd_vendor wd t p with Vendor => true | _ => below end) rest →
  proves t o path below (p :: rest).
Proof.
  intros Hq. unfold proves. cbn [length vendor_read]. rewrite <- app_assoc. cbn [app].
  replace (match wd_vendor wd t p with Vendor => true | _ => below end || vendor_read (S (S t)) rest)
    with (below || (bool_decide (wd_vendor wd t p = Vendor) || vendor_read (S (S t)) rest))
    by (destruct (wd_vendor wd t p), below; done).
  replace (S (S t) + 2 * length rest)%nat with (t + 2 * S (length rest))%nat by lia.
  replace (last (p :: rest)) with (last rest) by by destruct rest. done.
Qed.
Lemma origin_walk_proves fuel : ∀ t current path below,
  NoDup path → origin_walk wd fuel t panes current path below ≠ OriginUnprovable →
  ∃ rest, head rest = Some current ∧ NoDup (path ++ rest) ∧ (length rest ≤ fuel)%nat ∧ climbed t rest ∧
    proves t (origin_walk wd fuel t panes current path below) path below rest.
Proof.
  induction fuel as [|fuel IH]; intros t current path below Hnd; cbn [origin_walk]; [done|].
  destruct (_ || _) eqn:Eg; [done|]. apply orb_false_iff in Eg as [Hpid Hseen].
  apply Z.leb_gt in Hpid. apply bool_decide_eq_false in Hseen.
  assert (NoDup (path ++ [current])) as Hnd'.
  { apply NoDup_app. split_and!; [done| |apply NoDup_singleton]. intros x Hx ->%list_elem_of_singleton. done. }
  destruct (rooted panes current) as [[[pane_id label] root]|] eqn:Er.
  - apply rooted_Some in Er as Hroot. cbn in Hroot. destruct Hroot as [_ ->].
    destruct (wd_vendor wd t current) eqn:Ev; try done;
      (destruct (path_is_current wd (S t) (path ++ [current])) eqn:Ep; [|done]); intros _;
      exists [current]; cbn; rewrite Ev; cbn; rewrite ?orb_true_r, ?orb_false_r;
      (split_and!; try done; try lia); rewrite <- Ep; f_equal; lia.
  - assert (∀ o below',
      below' = match wd_vendor wd t current with Vendor => true | _ => below end → wd_vendor wd t current ≠ VendorUnprovable →
      o = match wd_parent wd (S t) current with
          | Some (ParentProcess next) => origin_walk wd fuel (S (S t)) panes next (path ++ [current]) below'
          | Some ParentTop => if below' || negb (path_is_current_to_top wd (S (S t)) (path ++ [current])) then OriginUnprovable else OriginAdmin
          | None => OriginUnprovable
          end → o ≠ OriginUnprovable →
      ∃ rest, head rest = Some current ∧ NoDup (path ++ rest) ∧ (length rest ≤ S fuel)%nat ∧ climbed t rest ∧ proves t o path below rest) as Hgo.
    { intros o below' -> Hv -> Ho. destruct (wd_parent wd (S t) current) as [[next|]|] eqn:Epar; [| |done].
      - destruct (IH _ _ _ _ Hnd' Ho) as (rest & Hh & Hn & Hl & Hc & Hp). exists (current :: rest).
        split_and!; [done|by rewrite <- app_assoc in Hn|cbn; lia| |by eapply proves_cons].
        cbn [climbed]. split_and!; [done|done| |done]. destruct rest; [done|]. cbn in Hh. injection Hh as ->. done.
      - destruct (_ || _) eqn:E in Ho; [done|]. rewrite E. apply orb_false_iff in E as [Eb Et]. apply negb_false_iff in Et.
        exists [current]. cbn. split_and!; try done; try lia.
        + rewrite orb_false_r. destruct (wd_vendor wd t current), below; done.
        + exists current. split_and!; [done|done|]. rewrite <- Epar. f_equal. lia.
        + rewrite <- Et. f_equal. lia. }
    destruct (wd_vendor wd t current) eqn:Ev; try done; intros Ho; by eapply Hgo; eauto.
Qed.
End origin.

(** What the second pass read, hop by hop. *)
Lemma links_current_spec wd : ∀ path t i p q, links_current wd t path = true → path !! i = Some p → path !! S i = Some q →
  wd_parent wd (t + i) p = Some (ParentProcess q).
Proof.
  induction path as [|a [|b path] IH]; intros t i p q Hl Hp Hq; [done| |].
  - destruct i; done.
  - cbn [links_current] in Hl. apply andb_true_iff in Hl as [Ha Hl]. apply bool_decide_eq_true in Ha. destruct i as [|i].
    + cbn in Hp, Hq. injection Hp as ->. injection Hq as ->. by rewrite Nat.add_0_r.
    + replace (t + S i)%nat with (S t + i)%nat by lia. by eapply IH.
Qed.

Lemma origin_chain wd panes t start :
  let o := resolve_peer_origin_with wd t start panes in
  o = OriginUnprovable ∨
  ∃ path, head path = Some start ∧ NoDup path ∧ (length path ≤ MAX_ANCESTRY_DEPTH)%nat ∧
    climbed wd panes t path ∧ proves wd panes t o [] false path.
Proof.
  unfold resolve_peer_origin_with. generalize MAX_ANCESTRY_DEPTH as fuel. intros fuel.
  destruct (decide (origin_walk wd fuel t panes start [] false = OriginUnprovable)) as [|Ho]; [by left|right].
  by apply (origin_walk_proves _ _ fuel _ _ [] _); [apply NoDup_nil_2|].
Qed.

(** [C37.] A caller is somebody only on proof.  An origin other than doubt rests on a chain of
    at most 32 distinct processes from the peer up: each was classified, each had the next
    as its parent, and the whole chain was read a second time with the peer still alive.
    The operator's chain has no pane root and no vendor and was read to the top twice; a
    pane's chain ends at the first watched root it meets, which names the pane, and says
    whether a vendor is on it. *)
Theorem origin_rests_on_a_chain_read_twice wd panes t start :
  let o := resolve_peer_origin_with wd t start panes in
  o = OriginUnprovable ∨
  ∃ path, head path = Some start ∧ NoDup path ∧ (length path ≤ MAX_ANCESTRY_DEPTH)%nat ∧
    climbed wd panes t path ∧ proves wd panes t o [] false path.
Proof. apply origin_chain. Qed.

(** ** A process table that holds still *)
Section still.
Context (ven : ProcId → Vendorship) (par : ProcId → option OriginParent) (live : ProcId → bool) (panes : PaneRoots).
Definition still_world : ProcWorld := MkProcWorld (λ _, ven) (λ _, par) (λ _, live).
(** The ancestry of the first process, itself first, to the top. *)
Fixpoint lineage (path : list ProcId) : Prop :=
  match path with
  | [] => False
  | [p] => par p = Some ParentTop
  | p :: (q :: _) as rest => par p = Some (ParentProcess q) ∧ lineage rest
  end.
(** What an ancestry says of its first process: the first pane root names the pane, a vendor
    makes it an agent, a vendor outside every pane and an unreadable hop are doubt. *)
Fixpoint origin_of (path : list ProcId) (below : bool) : PeerOrigin :=
  match path with
  | [] => if below then OriginUnprovable else OriginAdmin
  | p :: rest =>
      match ven p with
      | VendorUnprovable => OriginUnprovable
      | v =>
          let below := match v with Vendor => true | _ => below end in
          match rooted panes p with
          | Some (pane_id, label, root) => OriginPane pane_id label root below
          | None => origin_of rest below
          end
      end
  end.
Lemma lineage_links a b t : lineage (a ++ b) → links_current still_world t a = true.
Proof.
  revert t. induction a as [|x [|y a] IH]; intros t Hl; [done|done|]. cbn [app] in Hl. destruct Hl as [Hx Hl].
  cbn [links_current]. apply andb_true_iff. split; [by apply bool_decide_eq_true|by apply IH].
Qed.
Lemma lineage_tail a b : b ≠ [] → lineage (a ++ b) → lineage b.
Proof.
  intros Hb. induction a as [|x a IH]; intros Hl; [done|]. apply IH. cbn [app] in Hl.
  destruct (a ++ b) eqn:E; [by destruct a, b|]. by destruct Hl.
Qed.
Lemma still_walk fuel : ∀ rest t p pre below, (length (p :: rest) ≤ fuel)%nat → NoDup (pre ++ p :: rest) → lineage (pre ++ p :: rest) →
  Forall (λ q, 0 < pid q)%Z (p :: rest) → (∀ q, head (pre ++ [p]) = Some q → live q = true) →
  origin_walk still_world fuel t panes p pre below = origin_of (p :: rest) below.
Proof.
  induction fuel as [|fuel IH]; intros rest t p pre below Hlen Hnd Hl Hpid Hlive; [cbn in Hlen; lia|].
  cbn [origin_walk origin_of]. inversion Hpid as [|? ? Hp Hrest]; subst.
  rewrite (proj2 (Z.leb_gt _ _)) by done. rewrite bool_decide_eq_false_2; cbn [orb].
  2:{ intros Hin. apply NoDup_app in Hnd as (_ & Hx & _). by eapply Hx; [|left]. }
  replace (pre ++ p :: rest) with ((pre ++ [p]) ++ rest) in Hnd, Hl by by rewrite <- app_assoc.
  assert (∀ t, path_is_current still_world t (pre ++ [p]) = true) as Hcur.
  { intros t'. unfold path_is_current. pose proof (lineage_links (pre ++ [p]) rest (S t') Hl) as Hk.
    destruct (pre ++ [p]) as [|q l] eqn:E; [by destruct pre|]. rewrite Hk. cbn. by rewrite (Hlive q). }
  change (wd_vendor still_world t p) with (ven p). change (wd_parent still_world (S t) p) with (par p).
  destruct (rooted panes p) as [[[pane_id label] root]|]; [by destruct (ven p); rewrite ?Hcur|].
  destruct (ven p) eqn:Ev; try done;
    (destruct rest as [|q rest];
     [assert (lineage [p]) as Htop by (apply (lineage_tail pre); [done|by rewrite app_nil_r in Hl]); cbn in Htop; rewrite Htop;
      unfold path_is_current_to_top; rewrite ?Hcur, ?last_snoc, ?bool_decide_eq_true_2 by exact Htop;
      by destruct below
     |assert (lineage (p :: q :: rest)) as [Hpar _] by (apply (lineage_tail pre); [done|by rewrite <- app_assoc in Hl]);
      rewrite Hpar; apply IH; [cbn in *; lia|done|done|done|]; intros q'; rewrite <- app_assoc; cbn; intros Hq; apply Hlive; by destruct pre]).
Qed.

(** In a process table that holds still the walk is exact: a live peer with an ancestry
    of at most 32 distinct processes to the top gets the origin its ancestry spells. *)
Theorem still_walk_is_exact t start path :
  head path = Some start → lineage path → NoDup path → (length path ≤ MAX_ANCESTRY_DEPTH)%nat →
  Forall (λ q, 0 < pid q)%Z path → live start = true →
  resolve_peer_origin_with still_world t start panes = origin_of path false.
Proof.
  intros Hh Hl Hnd Hlen Hpid Hlive. destruct path as [|p rest]; [done|]. cbn in Hh. injection Hh as ->.
  unfold resolve_peer_origin_with. revert Hlen. generalize MAX_ANCESTRY_DEPTH as fuel. intros fuel Hlen.
  apply still_walk; [done..|]. by intros q [= <-].
Qed.
End still.

(** ** The agent a hook helper works for *)
Section ancestor.
Context {T : Type} (parent : nat → ProcId → option ProcId).

(** A chain whose links were read one after the other, from reading [t] on. *)
Fixpoint linked (t : nat) (chain : list ProcId) : Prop :=
  match chain with
  | a :: (b :: _) as rest => parent t a = Some b ∧ linked (S t) rest
  | _ => True
  end.
(** The chain from [from] up to [root] as one pass read it, with [target] on it. *)
Definition pass (t : nat) (from target root : ProcId) : Prop :=
  ∃ chain, head chain = Some from ∧ last chain = Some root ∧ target ∈ chain ∧ linked t chain ∧
    (length chain ≤ MAX_ANCESTRY_DEPTH)%nat.
Lemma reaches_walk_chain fuel : ∀ t target root current seen saw,
  reaches_walk parent fuel t target root current seen saw = true →
  ∃ chain, head chain = Some current ∧ last chain = Some root ∧ (saw = true ∨ target ∈ chain) ∧ linked t chain ∧ (length chain ≤ fuel)%nat.
Proof.
  induction fuel as [|fuel IH]; intros t target root current seen saw; cbn [reaches_walk]; [done|].
  destruct (_ || _); [done|]. case_bool_decide as Er.
  - rewrite Er. intros Hs%orb_true_iff. exists [root]. split_and!; cbn; [done|done| |done|lia].
    destruct Hs as [->| ->%bool_decide_eq_true]; [by left|right; left].
  - destruct (parent t current) as [p|] eqn:Ep; [|done]. intros Hw.
    destruct (IH _ _ _ _ _ _ Hw) as (chain & Hh & Hlast & Ht & Hl & Hn). exists (current :: chain).
    destruct chain as [|q chain]; [done|]. cbn in Hh. injection Hh as ->. split_and!; [done|done| |done|cbn in *; lia].
    destruct Ht as [[->| ->%bool_decide_eq_true]%orb_true_iff|Ht]; [by left|right; left|right; by right].
Qed.
Lemma reaches_pass t from target root : reaches parent t from target root = true → pass t from target root.
Proof.
  unfold reaches, pass. generalize MAX_ANCESTRY_DEPTH as fuel. intros fuel Hw. destruct (reaches_walk_chain _ _ _ _ _ _ _ Hw) as (chain & ? & ? & [?|?] & ? & ?);
    [done|]. by exists chain.
Qed.

(** The first pass of the tri-state walk: every hop but the last read as no vendor and not the
    root, with the next as its parent. *)
Fixpoint passed_over (classify : nat → ProcId → VendorAncestor T) (root : ProcId) (t : nat) (path : list ProcId) : Prop :=
  match path with
  | p :: (q :: _) as rest =>
      classify t p = AncestorNotVendor ∧ p ≠ root ∧ parent (S t) p = Some q ∧ passed_over classify root (S (S t)) rest
  | _ => True
  end.
Lemma observed_walk_trace classify fuel : ∀ t start root current seen,
  observed_walk parent classify fuel t start root current seen ≠ AncestorUnprovable →
  ∃ path agent t', head path = Some current ∧ last path = Some agent ∧ passed_over classify root t path ∧
    t' = (t + 2 * (length path - 1))%nat ∧ (length path ≤ fuel)%nat ∧
    observed_walk parent classify fuel t start root current seen = classify t' agent ∧
    pass (S t') start (match classify t' agent with AncestorVendor _ => agent | _ => root end) root ∧
    (classify t' agent = AncestorNotVendor → agent = root).
Proof.
  induction fuel as [|fuel IH]; intros t start root current seen; cbn [observed_walk]; [done|].
  destruct (_ || _); [done|]. destruct (classify t current) as [found| |] eqn:Ec; [| |done].
  - destruct (reaches _ _ _ _ _) eqn:Er; [|done]. intros _. exists [current], current, t. cbn. rewrite Ec.
    apply reaches_pass in Er. split_and!; auto with lia; done.
  - case_bool_decide as Eroot.
    + subst. destruct (reaches _ _ _ _ _) eqn:Er; [|done]. intros _. exists [root], root, t. cbn. rewrite Ec.
      apply reaches_pass in Er. split_and!; auto with lia; done.
    + destruct (parent (S t) current) as [p|] eqn:Ep; [|done]. intros Hw.
      destruct (IH _ _ _ _ _ Hw) as (path & agent & t' & Hh & Hl & Hp & -> & Hn & Ho & Hpass & Hroot).
      destruct path as [|q path]; [done|]. cbn in Hh. injection Hh as ->.
      exists (current :: p :: path), agent, (S (S t) + 2 * (length (p :: path) - 1))%nat.
      split_and!; try done; cbn [length] in *; lia.
Qed.

(** A hook report is filed under the nearest agent above its helper, and absence is proven.
    An answer other than doubt rests on a path read hop by hop from the helper: every
    process below the last was read as no vendor.  [Vendor] is the classification of the
    last; [NotVendor] means the last is the pane root and no vendor either.  And the chain
    from the helper to the pane root was then read again, the agent on it. *)
Theorem vendor_ancestry_is_proven classify t start root :
  let answer := vendor_ancestor_observed_with parent classify t start root in
  answer = AncestorUnprovable ∨
  ∃ path agent, let t' := (t + 2 * (length path - 1))%nat in
    head path = Some start ∧ last path = Some agent ∧ (length path ≤ MAX_ANCESTRY_DEPTH)%nat ∧
    passed_over classify root t path ∧ answer = classify t' agent ∧
    pass (S t') start (match answer with AncestorVendor _ => agent | _ => root end) root ∧
    (answer = AncestorNotVendor → agent = root).
Proof.
  unfold vendor_ancestor_observed_with. pose proof (observed_walk_trace classify MAX_ANCESTRY_DEPTH t start root start ∅) as Htr.
  destruct (observed_walk _ _ _ _ _ _ _ _) eqn:Eo; [right|right|by left];
    (destruct (Htr ltac:(done)) as (path & agent & t' & Hh & Hl & Hp & -> & Hn & Ho & Hpass & Hroot);
     exists path, agent; cbn zeta; rewrite <- Ho in Hpass, Hroot; done).
Qed.
End ancestor.
