(* ===== verification/Receipt.v ===== *)
(** * Waiting for a receipt

    [src/cyclopsd/src/delivery/gate.rs], the half after Enter: the evidence that
    a submitted doorbell was taken, the acknowledgement clock, and the loop that
    waits for one of them ([await_ack]).

    Instants are milliseconds.  The loop is one function per turn of its
    [select]; what the turn reads of the daemon (the watcher, one fused capture,
    the composer's content, the handle's state) is part of its input. *)
From S2P Require Import Prelude Text Identity Ledger Notification AttentionRegister Detection Manifests DeliveryGate.
Local Open Scope N_scope.

(** ** Events *)
Inductive RecvError := Closed | Lagged (missed : N).
Inductive PaneEvent :=
| PaneChanged (id : rstr) (row : PaneRow)
| PaneRemoved (id : rstr)
| OutputActivity (id : rstr)
| Disconnected
| OtherPaneEvent.
(** A daemon event: its name and the fields of its payload that delivery reads;
    [None] is a field that is absent or of another type. *)
Record Event := MkEvent {
  ev_name : rstr;
  ev_state : option rstr;
  ev_working_confirmed : bool;
  ev_pane_id : option rstr;
  ev_session_idx : option N;
  ev_observed_at_ms : option N;
  ev_source_pid : option Z;
  ev_source_birth : option N;
  ev_source_manifest : option rstr;
}.

(** [event_wake] and [pane_event_wake]: whether an event wakes a held delivery,
    and whether it names this very pane. *)
Definition event_wake (e : Event) (session_idx : N) (pane_id : rstr) : option bool :=
  if bool_decide (ev_name e = str "state") || bool_decide (ev_name e = str "readiness") then
    if bool_decide (ev_pane_id e = Some pane_id) && bool_decide (ev_session_idx e = Some session_idx)
    then Some true else None
  else if bool_decide (ev_name e = str "session") then Some false
  else None.
Definition pane_event_wake (e : PaneEvent) (pane_id : rstr) : option bool :=
  match e with
  | PaneChanged id _ | PaneRemoved id => if bool_decide (id = pane_id) then Some true else None
  | Disconnected => Some false
  | _ => None
  end.

(** ** The submitted delivery *)
(** What the wait knows of the handle: its pane, and the process and rules that
    Enter reached. *)
Record SubmittedTo := MkSubmitted {
  sb_session_idx : N;
  sb_pane_id : rstr;
  sb_submitted_at_ms : N;
  sb_agent : option ProcId;
  sb_manifest : option rstr;
}.
Definition submitted_binding_is (h : SubmittedTo) (agent : ProcId) (manifest : rstr) : bool :=
  bool_decide (sb_agent h = Some agent) && bool_decide (sb_manifest h = Some manifest).
(** [submitted_binding_holds]: [row] is the pane's row and [binding] the binding
    that can be admitted for it now. *)
Definition submitted_binding_holds (h : SubmittedTo) (row : option PaneRow) (binding : option Binding)
    : bool :=
  match sb_agent h, sb_manifest h, row with
  | Some agent, Some manifest, Some row =>
      negb (row_dead row) &&
      match binding with
      | Some b => bool_decide (fb_agent b = agent) && bool_decide (fb_manifest b = manifest)
      | None => false
      end
  | _, _, _ => false
  end.

Definition confirmed_working_state_event (e : Event) : bool :=
  bool_decide (ev_name e = str "state") && bool_decide (ev_state e = Some (str "working")) &&
  ev_working_confirmed e.
(** [as i32] on a pid. *)
Definition wrap_i32 (z : Z) : Z := ((z + 2 ^ 31) mod 2 ^ 32 - 2 ^ 31)%Z.
Definition submitted_working_state_event (e : Event) (h : SubmittedTo) : bool :=
  confirmed_working_state_event e && bool_decide (ev_pane_id e = Some (sb_pane_id h)) &&
  bool_decide (ev_session_idx e = Some (sb_session_idx h)) &&
  match ev_observed_at_ms e with Some t => sb_submitted_at_ms h <=? t | None => false end &&
  match ev_source_birth e with
  | Some b => submitted_binding_is h (MkProcId (wrap_i32 (default 0%Z (ev_source_pid e))) b)
                (default [] (ev_source_manifest e))
  | None => false
  end.
Definition track_state_event (ev : Event + RecvError) (h : SubmittedTo) : bool :=
  match ev with inl e => submitted_working_state_event e h | inr _ => false end.
Definition is_session_event (ev : Event + RecvError) : bool :=
  match ev with inl e => bool_decide (ev_name e = str "session") | inr _ => false end.
(** The buffered events, oldest first; the scan stops at the first match and at
    the first error. *)
Fixpoint record_buffered_working_evidence (events : list (Event + RecvError)) (h : SubmittedTo) : bool :=
  match events with
  | [] => false
  | inl e :: rest =>
      if submitted_working_state_event e h then true else record_buffered_working_evidence rest h
  | inr _ :: _ => false
  end.

(** ** Evidence *)
Inductive AckOutcome := AckResolved | AckRebound | AckScreen | AckTimeout.
Inductive Evidence := EvConfirmed | EvAbsent | EvUnobservable | EvRebound.
Inductive CheckpointStep := CkDeliver | CkRebound | CkFreeze | CkExpire | CkWait.
Definition checkpoint_step (e : Evidence) (expired : bool) : CheckpointStep :=
  match e with
  | EvConfirmed => CkDeliver
  | EvRebound => CkRebound
  | EvUnobservable => CkFreeze
  | EvAbsent => if expired then CkExpire else CkWait
  end.
Inductive ReceiptRefresh := RfObserve | RfResolved | RfFreeze | RfRebound.
Definition receipt_refresh_step (watcher_live : bool) (detection : option Detection) (resolved : bool)
    : ReceiptRefresh :=
  if resolved then RfResolved
  else if negb watcher_live then RfFreeze
  else match detection with
  | None => RfRebound
  | Some d =>
      if bool_decide (det_state d = SDead) then RfRebound
      else if det_stale d || bool_decide (det_write_block d = Some (str "pane_in_mode")) ||
              bool_decide (det_write_block d = Some (str "occupant_unprovable"))
      then RfFreeze else RfObserve
  end.
Inductive ReceiptPaneStep := RpIgnore | RpRecheck | RpRebound | RpFreeze.
Definition receipt_pane_step (event : PaneEvent + RecvError) (pane_id : rstr) (frozen : bool)
    : ReceiptPaneStep :=
  match event with
  | inl (PaneRemoved id) => if bool_decide (id = pane_id) then RpRebound else RpIgnore
  | inl (PaneChanged id row) =>
      if bool_decide (id = pane_id) then if row_dead row then RpRebound else RpRecheck else RpIgnore
  | inl (OutputActivity id) => if bool_decide (id = pane_id) && frozen then RpRecheck else RpIgnore
  | inl Disconnected | inr Closed => RpFreeze
  | _ => RpIgnore
  end.

Definition tier2_evidence (ack_evidence : AckEvidence) (changed id_staged working_seen output_seen : bool)
    : bool :=
  match ack_evidence with
  | AckReceipt => working_seen || (changed && id_staged)
  | AckDispatch => false
  end.
(** What one look at the composer reads.  [sv_changed] and [sv_marker] come from
    the capture: the bottom window differs from the staged one, and the staged
    representation is still in the composer. *)
Record ScreenView := MkScreenView {
  sv_watcher : bool;
  sv_binding_before : bool;
  sv_capture : bool;
  sv_binding_after : bool;
  sv_changed : bool;
  sv_marker : bool;
}.
Definition screen_evidence (v : ScreenView) (ack_evidence : AckEvidence)
    (id_staged working_seen output_seen : bool) : Evidence :=
  if negb (sv_watcher v) then EvUnobservable
  else if negb (sv_binding_before v) then EvRebound
  else if negb (sv_capture v) then EvUnobservable
  else if negb (sv_binding_after v) then EvRebound
  else if negb (sv_marker v) &&
          tier2_evidence ack_evidence (sv_changed v) id_staged working_seen output_seen
  then EvConfirmed else EvAbsent.

(** ** The clock *)
Definition ACK_CHECKPOINTS_MS : list N := [250; 750; 1500; 3000; 5000].
Definition SCREEN_ACK_DEADLINE : N := 5000.
Record AckClock := MkAckClock {
  hook_deadline : option N;
  checkpoints : list N;
  next : nat;
  deadline : N;
  frozen_at : option N;
}.
Definition ack_clock_new (submit_at : N) (hook_window : option N) : AckClock :=
  MkAckClock ((λ w, submit_at + w) <$> hook_window) ((λ ms, submit_at + ms) <$> ACK_CHECKPOINTS_MS)
    0 (submit_at + SCREEN_ACK_DEADLINE) None.
Definition frozen (c : AckClock) : bool := bool_decide (is_Some (frozen_at c)).
Definition freeze (c : AckClock) (now : N) : AckClock :=
  match frozen_at c with
  | None => MkAckClock (hook_deadline c) (checkpoints c) (next c) (deadline c) (Some now)
  | Some _ => c
  end.
(** [None] is the panic of [checkpoints[next..]] when [next] is past the end. *)
Definition unfreeze (c : AckClock) (now : N) : option AckClock :=
  match frozen_at c with
  | None => Some c
  | Some at_ =>
      let lost := now - at_ in
      if (next c <=? length (checkpoints c))%nat then
        Some (MkAckClock ((λ h, h + lost) <$> hook_deadline c)
          (take (next c) (checkpoints c) ++ ((λ t, t + lost) <$> drop (next c) (checkpoints c)))
          (next c) (deadline c + lost) None)
      else None
  end.
Definition next_target (c : AckClock) : option (N * bool) :=
  if frozen c then None
  else match hook_deadline c with
  | Some h => Some (h, true)
  | None => Some (default (deadline c) (checkpoints c !! next c), false)
  end.
(** [while next < checkpoints.len() && checkpoints[next] <= now]. *)
Fixpoint skip_due (rest : list N) (now : N) : nat :=
  match rest with
  | t :: rest => if t <=? now then S (skip_due rest now) else 0
  | [] => 0
  end.
Definition end_hook_phase (c : AckClock) (now : N) : AckClock :=
  let n := (next c + skip_due (drop (next c) (checkpoints c)) now)%nat in
  MkAckClock None (take n (checkpoints c) ++ now :: drop n (checkpoints c)) n (deadline c)
    (frozen_at c).
Definition advance_checkpoint (c : AckClock) : AckClock :=
  MkAckClock (hook_deadline c) (checkpoints c) (S (next c)) (deadline c) (frozen_at c).
Definition expired (c : AckClock) (now : N) : bool := negb (frozen c) && (deadline c <=? now).

(** ** One evidence pass *)
Inductive ReceiptStep := RsResolved | RsDeliver | RsRebound | RsFreeze | RsExpire | RsWait.
Record PassView := MkPassView {
  pv_buffered : list (Event + RecvError);
  pv_watcher : bool;
  pv_detection : option Detection;
  pv_same_watcher : bool;
  pv_resolved : bool;
  pv_screen : ScreenView;
}.
Record ReceiptWait := MkReceiptWait {
  rw_handle : SubmittedTo;
  rw_ack_evidence : AckEvidence;
  rw_id_staged : bool;
  rw_submit_at : N;
  rw_hook_window : option N;
}.
(** [working_seen]: the loop's own flag, the handle's, or a buffered edge; the
    handle's flag remembers the last of these. *)
Definition pass_working_seen (w : ReceiptWait) (working_seen handle_working : bool) (v : PassView)
    : bool :=
  working_seen || handle_working || record_buffered_working_evidence (pv_buffered v) (rw_handle w).
Definition receipt_checkpoint_pass (w : ReceiptWait) (seen : bool) (v : PassView)
    (clock : AckClock) (now : N) : ReceiptStep :=
  if negb (pv_watcher v) then RsFreeze
  else match receipt_refresh_step (pv_same_watcher v) (pv_detection v) (pv_resolved v) with
  | RfResolved => RsResolved
  | RfFreeze => RsFreeze
  | RfRebound => RsRebound
  | RfObserve =>
      match checkpoint_step
              (screen_evidence (pv_screen v) (rw_ack_evidence w) (rw_id_staged w) seen false)
              (expired clock now) with
      | CkDeliver => RsDeliver
      | CkRebound => RsRebound
      | CkFreeze => RsFreeze
      | CkExpire => RsExpire
      | CkWait => RsWait
      end
  end.

(** ** The loop *)
Record AckState := MkAckState {
  as_clock : AckClock;
  as_pane_rx : bool;
  as_working_seen : bool;
  as_handle_working : bool;
}.
(** The state before the first turn; [watcher] says whether the session was
    attached at [now]. *)
Definition ack_start (w : ReceiptWait) (watcher : bool) (now : N) : AckState :=
  let clock := ack_clock_new (rw_submit_at w) (rw_hook_window w) in
  MkAckState (if watcher then clock else freeze clock now) watcher false false.

(** The branch of [select] that became ready.  [ti_now] is the instant the branch
    starts, [ti_after] the instant its evidence pass reads the clock, or the one
    at which it freezes. *)
Inductive AckBranch :=
| OnAck (resolved : bool)
| OnTimer (pass : PassView)
| OnEvent (ev : Event + RecvError) (live : bool) (pass : PassView)
| OnPane (pe : PaneEvent + RecvError) (pass : PassView).
Record TurnInput := MkTurnInput {
  ti_resolved : bool;
  ti_branch : AckBranch;
  ti_now : N;
  ti_after : N;
}.
Inductive AckTurn :=
| AckReturn (outcome : AckOutcome)
| AckContinue
| AckPanic.

Definition set_clock (s : AckState) (clock : AckClock) (pane_rx : bool) : AckState :=
  MkAckState clock pane_rx (as_working_seen s) (as_handle_working s).
Definition freeze_at (s : AckState) (pane_rx : bool) (now : N) : AckState :=
  set_clock s (freeze (as_clock s) now) pane_rx.

(** A pass and what all three branches do with its answer. *)
Definition settle_pass (w : ReceiptWait) (s : AckState) (pass : PassView) (after : N)
    : AckState * AckTurn :=
  let seen := pass_working_seen w (as_working_seen s) (as_handle_working s) pass in
  let s := MkAckState (as_clock s) (as_pane_rx s) (as_working_seen s)
             (as_handle_working s || (negb (as_working_seen s) && seen)) in
  match receipt_checkpoint_pass w seen pass (as_clock s) after with
  | RsResolved => (s, AckReturn AckResolved)
  | RsDeliver => (s, AckReturn AckScreen)
  | RsExpire => (s, AckReturn AckTimeout)
  | RsRebound => (s, AckReturn AckRebound)
  | RsFreeze => (freeze_at s (as_pane_rx s) after, AckContinue)
  | RsWait => (s, AckContinue)
  end.
(** [clock.unfreeze(now)], then what follows it. *)
Definition with_unfrozen (s : AckState) (pane_rx : bool) (now : N)
    (k : AckState → AckState * AckTurn) : AckState * AckTurn :=
  match unfreeze (as_clock s) now with
  | Some clock => k (set_clock s clock pane_rx)
  | None => (s, AckPanic)
  end.
Definition ack_event (w : ReceiptWait) (s : AckState) (ev : Event + RecvError) (live : bool)
    (pass : PassView) (now after : N) : AckState * AckTurn :=
  let tracked := track_state_event ev (rw_handle w) in
  let s := MkAckState (as_clock s) (as_pane_rx s) (as_working_seen s || tracked)
             (as_handle_working s || tracked) in
  if is_session_event ev then
    if as_pane_rx s then
      if live then (s, AckContinue) else (freeze_at s false after, AckContinue)
    else if live then with_unfrozen s true now (λ s, settle_pass w s pass after)
    else (s, AckContinue)
  else match ev with
  | inr (Lagged _) =>
      if frozen (as_clock s) && live then with_unfrozen s true now (λ s, (s, AckContinue))
      else (s, AckContinue)
  | _ => (s, AckContinue)
  end.
Definition ack_pane (w : ReceiptWait) (s : AckState) (pe : PaneEvent + RecvError) (pass : PassView)
    (now after : N) : AckState * AckTurn :=
  match receipt_pane_step pe (sb_pane_id (rw_handle w)) (frozen (as_clock s)) with
  | RpRecheck => with_unfrozen s (as_pane_rx s) now (λ s, settle_pass w s pass after)
  | RpRebound => (s, AckReturn AckRebound)
  | RpFreeze => (freeze_at s false after, AckContinue)
  | RpIgnore => (s, AckContinue)
  end.
Definition ack_timer (w : ReceiptWait) (s : AckState) (hook_end : bool) (pass : PassView)
    (now after : N) : AckState * AckTurn :=
  if hook_end then (set_clock s (end_hook_phase (as_clock s) now) (as_pane_rx s), AckContinue)
  else settle_pass w (set_clock s (advance_checkpoint (as_clock s)) (as_pane_rx s)) pass after.
Definition ack_turn (w : ReceiptWait) (s : AckState) (i : TurnInput) : AckState * AckTurn :=
  if ti_resolved i then (s, AckReturn AckResolved)
  else match ti_branch i with
  | OnAck resolved => (s, if resolved then AckReturn AckResolved else AckContinue)
  | OnTimer pass =>
      match next_target (as_clock s) with
      | Some (_, hook_end) => ack_timer w s hook_end pass (ti_now i) (ti_after i)
      | None => (s, AckContinue)
      end
  | OnEvent ev live pass => ack_event w s ev live pass (ti_now i) (ti_after i)
  | OnPane pe pass => ack_pane w s pe pass (ti_now i) (ti_after i)
  end.
(** Which branches [select] may take: a timer only once its target has passed,
    the pane stream only while there is one. *)
Definition turn_enabled (s : AckState) (i : TurnInput) : bool :=
  match ti_branch i with
  | OnTimer _ =>
      match next_target (as_clock s) with Some (t, _) => t <=? ti_now i | None => false end
  | OnPane _ _ => as_pane_rx s
  | _ => true
  end.

(** [await_ack], run on the turns that happen: the state and the way it ended. *)
Fixpoint await_ack (w : ReceiptWait) (s : AckState) (turns : list TurnInput) : AckState * AckTurn :=
  match turns with
  | [] => (s, AckContinue)
  | i :: rest =>
      match ack_turn w s i with
      | (s, AckContinue) => await_ack w s rest
      | r => r
      end
  end.
