(* ===== verification/ReceiptProps.v ===== *)
(** * What waiting for a receipt guarantees

    A timeout stands on an observed, empty look after five whole seconds of
    observable time; screen evidence is never somebody else's; and, as long as the
    event stream does not lag, the loop takes a bounded number of timer turns. *)
From S2P Require Import Prelude Text Identity Ledger Notification AttentionRegister Detection Manifests DeliveryGate Receipt.
Local Open Scope N_scope.

(** ** Runs *)
(** Turns whose instants do not go back and that [select] may take, none of them
    after the one that returns. *)
Fixpoint admissible (w : ReceiptWait) (s : AckState) (t : N) (turns : list TurnInput) : bool :=
  match turns with
  | [] => true
  | i :: rest =>
      (t <=? ti_now i) && (ti_now i <=? ti_after i) && turn_enabled s i &&
      match ack_turn w s i with
      | (s', AckContinue) => admissible w s' (ti_after i) rest
      | _ => bool_decide (length rest = 0%nat)
      end
  end.
(** The time of one turn that counts: all of it while the clock runs, and from
    the resumption on when the turn resumes a frozen clock. *)
Definition observed_in (s : AckState) (t : N) (i : TurnInput) (s' : AckState) : N :=
  match frozen_at (as_clock s) with
  | None => ti_after i - t
  | Some a => if bool_decide (frozen_at (as_clock s') = Some a) then 0 else ti_after i - ti_now i
  end.
Fixpoint observed (w : ReceiptWait) (s : AckState) (t : N) (turns : list TurnInput) : N :=
  match turns with
  | [] => 0
  | i :: rest =>
      match ack_turn w s i with
      | (s', AckContinue) => observed_in s t i s' + observed w s' (ti_after i) rest
      | (s', _) => observed_in s t i s'
      end
  end.

(** ** Evidence *)
(** The pass saw the submitted agent's own, fresh screen. *)
Record looked (v : PassView) : Prop := {
  lk_watcher : pv_watcher v = true ∧ pv_same_watcher v = true;
  lk_unresolved : pv_resolved v = false;
  lk_fresh : ∃ d, pv_detection v = Some d ∧ det_state d ≠ SDead ∧ det_stale d = false;
  lk_screen : sv_watcher (pv_screen v) = true ∧ sv_capture (pv_screen v) = true;
  lk_binding : sv_binding_before (pv_screen v) = true ∧ sv_binding_after (pv_screen v) = true;
}.
Definition turn_evidence (w : ReceiptWait) (seen : bool) (v : PassView) : bool :=
  negb (sv_marker (pv_screen v)) &&
  tier2_evidence (rw_ack_evidence w) (sv_changed (pv_screen v)) (rw_id_staged w) seen false.

Lemma refresh_observe live d resolved :
  receipt_refresh_step live d resolved = RfObserve →
  resolved = false ∧ live = true ∧
  ∃ d', d = Some d' ∧ det_state d' ≠ SDead ∧ det_stale d' = false.
Proof.
  unfold receipt_refresh_step. destruct resolved, live; try done. destruct d as [d|]; [|done]. cbn.
  case_bool_decide; [done|]. destruct (det_stale d) eqn:E; [done|]. eauto 10.
Qed.
(** What the answers [Deliver], [Expire] and [Wait] of a pass stand on. *)
Lemma pass_looked w seen v c now :
  match receipt_checkpoint_pass w seen v c now with
  | RsDeliver => looked v ∧ turn_evidence w seen v = true
  | RsExpire => looked v ∧ turn_evidence w seen v = false ∧ expired c now = true
  | RsWait => expired c now = false
  | _ => True
  end.
Proof.
  unfold receipt_checkpoint_pass, turn_evidence. destruct (pv_watcher v) eqn:Hw; [cbn|done].
  destruct (receipt_refresh_step _ _ _) eqn:Hr; try done.
  apply refresh_observe in Hr as (Hu & Hs & Hf). unfold screen_evidence.
  destruct (sv_watcher (pv_screen v)) eqn:H1; [|done]. destruct (sv_binding_before (pv_screen v)) eqn:H2; [|done].
  destruct (sv_capture (pv_screen v)) eqn:H3; [|done]. destruct (sv_binding_after (pv_screen v)) eqn:H4; [|done].
  cbn. set (b := negb _ && _). destruct b eqn:Hb; cbn; [by split; [split|]|].
  destruct (expired c now) eqn:He; cbn; [by split; [split|]|done].
Qed.

(** ** One turn, as the clock sees it *)
Inductive pass_clock (w : ReceiptWait) (c : AckClock) (pass : PassView) (after : N)
    : AckClock → AckTurn → Prop :=
| pc_wait : expired c after = false → pass_clock w c pass after c AckContinue
| pc_freeze : pass_clock w c pass after (freeze c after) AckContinue
| pc_timeout seen : expired c after = true → looked pass → turn_evidence w seen pass = false →
    pass_clock w c pass after c (AckReturn AckTimeout)
| pc_return o : o ≠ AckTimeout → pass_clock w c pass after c (AckReturn o).
Definition pass_of (b : AckBranch) : option PassView :=
  match b with OnTimer v | OnEvent _ _ v | OnPane _ v => Some v | OnAck _ => None end.
Definition is_lagged (b : AckBranch) : bool :=
  match b with OnEvent (inr (Lagged _)) _ _ => true | _ => false end.
Definition is_timer (b : AckBranch) : bool := match b with OnTimer _ => true | _ => false end.
Inductive turn_clock (w : ReceiptWait) (c : AckClock) (i : TurnInput) : AckClock → AckTurn → Prop :=
| tc_same r : is_timer (ti_branch i) = false ∨ r ≠ AckContinue →
    r ≠ AckReturn AckTimeout → r ≠ AckPanic → turn_clock w c i c r
| tc_freeze : is_timer (ti_branch i) = false → turn_clock w c i (freeze c (ti_after i)) AckContinue
| tc_hook h : hook_deadline c = Some h → frozen_at c = None → h ≤ ti_now i →
    turn_clock w c i (end_hook_phase c (ti_now i)) AckContinue
| tc_lagged c1 : is_lagged (ti_branch i) = true → unfreeze c (ti_now i) = Some c1 →
    turn_clock w c i c1 AckContinue
| tc_timer pass c2 r : frozen_at c = None → hook_deadline c = None →
    default (deadline c) (checkpoints c !! next c) ≤ ti_now i →
    pass_of (ti_branch i) = Some pass →
    pass_clock w (advance_checkpoint c) pass (ti_after i) c2 r → turn_clock w c i c2 r
| tc_resume pass c1 c2 r : is_timer (ti_branch i) = false → unfreeze c (ti_now i) = Some c1 →
    pass_of (ti_branch i) = Some pass → pass_clock w c1 pass (ti_after i) c2 r → turn_clock w c i c2 r
| tc_panic : unfreeze c (ti_now i) = None → turn_clock w c i c AckPanic.

Lemma settle_pass_clock w s pass after s' r :
  settle_pass w s pass after = (s', r) → pass_clock w (as_clock s) pass after (as_clock s') r.
Proof.
  unfold settle_pass. cbn. set (seen := pass_working_seen _ _ _ _).
  pose proof (pass_looked w seen pass (as_clock s) after) as Hl.
  destruct (receipt_checkpoint_pass _ _ _ _ _); intros [= <- <-]; cbn;
    try (by constructor). destruct Hl as (? & ? & ?). by eapply pc_timeout.
Qed.
Lemma ack_turn_clock w s i s' r :
  turn_enabled s i = true → ack_turn w s i = (s', r) →
  turn_clock w (as_clock s) i (as_clock s') r.
Proof.
  unfold turn_enabled, ack_turn. intros Hen. destruct (ti_resolved i).
  { intros [= <- <-]. apply tc_same; [by right|done|done]. }
  destruct (ti_branch i) as [resolved|v|ev live v|pe v] eqn:Hb.
  - intros [= <- <-]. apply tc_same; [left; by rewrite Hb|by destruct resolved..].
  - unfold next_target, frozen in *. destruct (frozen_at (as_clock s)) as [a|] eqn:Hf; [done|cbn in *].
    destruct (hook_deadline (as_clock s)) as [h|] eqn:Hh; cbn in *; apply N.leb_le in Hen.
    + intros [= <- <-]. cbn. by eapply tc_hook.
    + intros H%settle_pass_clock. eapply (tc_timer _ _ _ v); eauto. by rewrite Hb.
  - unfold ack_event, with_unfrozen. cbn [as_clock as_pane_rx].
    assert (is_timer (ti_branch i) = false) as Ht by by rewrite Hb.
    destruct (is_session_event ev) eqn:Hse.
    + destruct (as_pane_rx s), live; try (by intros [= <- <-]; cbn; apply tc_same; [left|..]).
      * intros [= <- <-]. by apply tc_freeze.
      * destruct (unfreeze (as_clock s) (ti_now i)) as [c1|] eqn:Hu; [|by intros [= <- <-]; apply tc_panic].
        intros H%settle_pass_clock. eapply (tc_resume _ _ _ v); eauto. by rewrite Hb.
    + destruct ev as [e|[|n]]; try (by intros [= <- <-]; cbn; apply tc_same; [left|..]).
      destruct (frozen (as_clock s) && live); [|by intros [= <- <-]; cbn; apply tc_same; [left|..]].
      destruct (unfreeze (as_clock s) (ti_now i)) as [c1|] eqn:Hu; intros [= <- <-]; [|by apply tc_panic].
      apply tc_lagged; [by rewrite Hb|done].
  - unfold ack_pane, with_unfrozen. assert (is_timer (ti_branch i) = false) as Ht by by rewrite Hb.
    destruct (receipt_pane_step _ _ _); [| | |].
    + intros [= <- <-]; apply tc_same; [by left|done|done].
    + destruct (unfreeze (as_clock s) (ti_now i)) as [c1|] eqn:Hu; [|by intros [= <- <-]; apply tc_panic].
      intros H%settle_pass_clock. eapply (tc_resume _ _ _ v); eauto. by rewrite Hb.
    + intros [= <- <-]; apply tc_same; [by left|done|done].
    + intros [= <- <-]. by apply tc_freeze.
Qed.

(** ** Time *)
(** [o] is the observed time up to instant [t]. *)
Definition time_inv (c : AckClock) (t o : N) : Prop :=
  match frozen_at c with
  | None => deadline c + o = t + SCREEN_ACK_DEADLINE
  | Some a => a ≤ t ∧ deadline c + o = a + SCREEN_ACK_DEADLINE
  end.

Lemma unfreeze_Some c now c1 :
  unfreeze c now = Some c1 →
  frozen_at c1 = None ∧
  match frozen_at c with
  | None => c1 = c
  | Some a => deadline c1 = deadline c + (now - a)
  end.
Proof.
  unfold unfreeze. destruct (frozen_at c) as [a|] eqn:Hf; [|by intros [= <-]].
  case_match; [|done]. by intros [= <-].
Qed.
Lemma freeze_running c now :
  frozen_at c = None → frozen_at (freeze c now) = Some now ∧ deadline (freeze c now) = deadline c.
Proof. unfold freeze. by intros ->. Qed.
Lemma expired_Some c now : expired c now = true → frozen_at c = None ∧ deadline c ≤ now.
Proof.
  unfold expired, frozen. destruct (frozen_at c); cbn; [done|]. by intros ?%N.leb_le.
Qed.

(** A pass on a running clock leaves it running or freezes it at [after]. *)
Lemma pass_time w c v after c2 r o :
  frozen_at c = None → pass_clock w c v after c2 r →
  deadline c + o = after + SCREEN_ACK_DEADLINE → time_inv c2 after o.
Proof.
  intros Hc Hp Ho. unfold time_inv. destruct Hp; rewrite ?Hc; try done.
  destruct (freeze_running c after Hc) as [-> ->]. done.
Qed.
Lemma time_step w s t o i s' r :
  time_inv (as_clock s) t o → t ≤ ti_now i → ti_now i ≤ ti_after i →
  turn_clock w (as_clock s) i (as_clock s') r → r ≠ AckPanic →
  r = AckContinue ∨ r = AckReturn AckTimeout →
  time_inv (as_clock s') (ti_after i) (o + observed_in s t i s').
Proof.
  intros Hi H1 H2 Ht Hp Hr. unfold observed_in. generalize dependent (as_clock s'). intros c' Ht.
  set (c := as_clock s) in *. clearbody c. unfold time_inv in Hi.
  destruct Ht as [r _ Hnt _| |h Hh Hf Hle|c1 _ Hu|v c2 r Hf Hh Hd _ Hpc|v c1 c2 r _ Hu _ Hpc|].
  - unfold time_inv. destruct (frozen_at c) as [a|]; [rewrite bool_decide_eq_true_2 by done|]; lia.
  - unfold time_inv, freeze. destruct (frozen_at c) as [a|] eqn:Hf; cbn.
    + rewrite Hf, bool_decide_eq_true_2 by done. lia.
    + lia.
  - unfold time_inv. cbn. rewrite Hf in *. lia.
  - apply unfreeze_Some in Hu as [Hc1 Hu]. unfold time_inv. rewrite Hc1.
    destruct (frozen_at c) as [a|]; [rewrite Hu, bool_decide_eq_false_2 by done; lia|subst; lia].
  - rewrite Hf in *. eapply pass_time; [|exact Hpc|]; [done|cbn; lia].
  - apply unfreeze_Some in Hu as [Hc1 Hu]. destruct (frozen_at c) as [a|].
    + case_bool_decide as E.
      * assert (a = ti_after i) as ->.
        { destruct Hpc; try congruence. destruct (freeze_running c1 (ti_after i) Hc1). congruence. }
        eapply pass_time; [|exact Hpc|]; [done|lia].
      * eapply pass_time; [|exact Hpc|]; [done|lia].
    + subst c1. eapply pass_time; [|exact Hpc|]; [done|lia].
  - done.
Qed.

Lemma timeout_observed w turns : ∀ s t o s',
  time_inv (as_clock s) t o → admissible w s t turns = true →
  await_ack w s turns = (s', AckReturn AckTimeout) →
  SCREEN_ACK_DEADLINE ≤ o + observed w s t turns ∧
  ∃ i v seen, i ∈ turns ∧ pass_of (ti_branch i) = Some v ∧ looked v ∧ turn_evidence w seen v = false.
Proof.
  induction turns as [|i rest IH]; intros s t o s' Hi Had; [done|]. cbn in Had |- *.
  apply andb_true_iff in Had as [[[H1%N.leb_le H2%N.leb_le]%andb_true_iff Hen]%andb_true_iff Had].
  destruct (ack_turn w s i) as [s1 r] eqn:E. pose proof (ack_turn_clock _ _ _ _ _ Hen E) as Ht.
  destruct r as [out| |]; [intros [= -> ->]| |done].
  - pose proof (time_step _ _ _ _ _ _ _ Hi H1 H2 Ht ltac:(done) ltac:(by right)) as Hi'.
    assert (∃ v seen, pass_of (ti_branch i) = Some v ∧ looked v ∧ turn_evidence w seen v = false ∧
      expired (as_clock s') (ti_after i) = true) as (v & seen & Hv & Hl & Hn & Hex).
    { inversion Ht as [| | | |v c2 r ? ? ? Hv Hp|v c1 c2 r ? Hu Hv Hp|]; subst; try done;
        inversion Hp; subst; eauto 10; done. }
    split.
    + apply expired_Some in Hex as [Hf Hd]. unfold time_inv in Hi'. rewrite Hf in Hi'. lia.
    + exists i, v, seen. split_and!; [apply list_elem_of_here|done..].
  - intros Haw. pose proof (time_step _ _ _ _ _ _ _ Hi H1 H2 Ht ltac:(done) ltac:(by left)) as Hi'.
    destruct (IH _ _ _ _ Hi' Had Haw) as [Ho (i' & v & seen & Hin & Hrest)].
    split; [lia|]. exists i', v, seen. split; [by apply list_elem_of_further|done].
Qed.

Lemma start_time w watcher now :
  rw_submit_at w ≤ now → time_inv (as_clock (ack_start w watcher now)) now (now - rw_submit_at w).
Proof.
  intros. unfold time_inv. destruct watcher; cbn -[N.add N.sub SCREEN_ACK_DEADLINE]; lia.
Qed.

(** A delivery is declared unacknowledged only on evidence: after five
    whole seconds during which the pane could be observed, outages and frozen
    time left out, and on a pass that saw the submitted agent's own fresh screen
    with no sign of a turn. *)
Theorem timeout_is_earned w watcher now turns s :
  rw_submit_at w ≤ now →
  admissible w (ack_start w watcher now) now turns = true →
  await_ack w (ack_start w watcher now) turns = (s, AckReturn AckTimeout) →
  SCREEN_ACK_DEADLINE ≤
    (now - rw_submit_at w) + observed w (ack_start w watcher now) now turns ∧
  ∃ i v seen, i ∈ turns ∧ pass_of (ti_branch i) = Some v ∧ looked v ∧ turn_evidence w seen v = false.
Proof. intros H. by apply timeout_observed, start_time. Qed.

(** ** Working evidence *)
(** A confirmed working edge of the submitted process, seen on the event stream
    or buffered since before Enter. *)
Definition saw_working (w : ReceiptWait) (i : TurnInput) : Prop :=
  ∃ e, submitted_working_state_event e (rw_handle w) = true ∧
    match ti_branch i with
    | OnEvent ev _ v => ev = inl e ∨ inl e ∈ pv_buffered v
    | OnTimer v | OnPane _ v => inl e ∈ pv_buffered v
    | OnAck _ => False
    end.
Lemma buffered_working l h :
  record_buffered_working_evidence l h = true →
  ∃ e, submitted_working_state_event e h = true ∧ inl e ∈ l.
Proof.
  induction l as [|[e|] l IH]; cbn; [done| |done].
  destruct (submitted_working_state_event e h) eqn:E; [intros _; exists e; split; [done|apply list_elem_of_here]|].
  intros (e' & ? & ?)%IH. exists e'. split; [done|by apply list_elem_of_further].
Qed.
Definition flagged (s : AckState) : bool := as_working_seen s || as_handle_working s.
(** The flags rise only on such an edge, and a screen receipt needs one, or the
    staged id gone from a changed window. *)
Lemma settle_pass_working w s v after s' r :
  settle_pass w s v after = (s', r) →
  (flagged s' = true → flagged s = true ∨ record_buffered_working_evidence (pv_buffered v) (rw_handle w) = true) ∧
  (r = AckReturn AckScreen → looked v ∧ sv_marker (pv_screen v) = false ∧ rw_ack_evidence w = AckReceipt ∧
     (flagged s = true ∨ record_buffered_working_evidence (pv_buffered v) (rw_handle w) = true ∨
      (sv_changed (pv_screen v) = true ∧ rw_id_staged w = true))).
Proof.
  unfold settle_pass, pass_working_seen, flagged, freeze_at. cbn.
  set (bf := record_buffered_working_evidence _ _).
  set (seen := as_working_seen s || as_handle_working s || bf).
  pose proof (pass_looked w seen v (as_clock s) after) as Hl. intros E. split.
  - assert (as_working_seen s' || as_handle_working s' = seen) as ->.
    { subst seen. revert E. destruct (receipt_checkpoint_pass _ _ _ _ _); intros [= <- _]; cbn;
        by destruct (as_working_seen s), (as_handle_working s), bf. }
    subst seen. by intros [?|?]%orb_true_iff; [left|right].
  - intros ->. destruct (receipt_checkpoint_pass _ _ _ _ _); try done. destruct Hl as [Hl Ht].
    unfold turn_evidence, tier2_evidence in Ht. apply andb_true_iff in Ht as [Hm%negb_true_iff Ht].
    destruct (rw_ack_evidence w); [|done]. split_and!; [done..|].
    apply orb_true_iff in Ht as [Ht|[? ?]%andb_true_iff]; [|by right; right].
    subst seen. apply orb_true_iff in Ht as [?|?]; auto.
Qed.
(** What a turn that leads to [s'] and [r] may rest on. *)
Definition grounded (w : ReceiptWait) (s : AckState) (i : TurnInput) (q : AckState * AckTurn) : Prop :=
  (flagged q.1 = true → flagged s = true ∨ saw_working w i) ∧
  (q.2 = AckReturn AckScreen → ∃ v, pass_of (ti_branch i) = Some v ∧ looked v ∧
     sv_marker (pv_screen v) = false ∧ rw_ack_evidence w = AckReceipt ∧
     (flagged s = true ∨ saw_working w i ∨ (sv_changed (pv_screen v) = true ∧ rw_id_staged w = true))).
Lemma grounded_quiet w s i s' r :
  (flagged s' = true → flagged s = true ∨ saw_working w i) → r ≠ AckReturn AckScreen →
  grounded w s i (s', r).
Proof. by split. Qed.
Lemma grounded_pass w s i s1 v after :
  (flagged s1 = true → flagged s = true ∨ saw_working w i) → pass_of (ti_branch i) = Some v →
  grounded w s i (settle_pass w s1 v after).
Proof.
  intros Hs1 Hv. destruct (settle_pass w s1 v after) as [s' r] eqn:E.
  apply settle_pass_working in E as [E1 E2].
  assert (record_buffered_working_evidence (pv_buffered v) (rw_handle w) = true → saw_working w i) as Hb.
  { intros (e & He & Hin)%buffered_working. exists e. split; [done|].
    destruct (ti_branch i); cbn in Hv; simplify_eq; auto. }
  split; cbn; [intros [?|?]%E1; auto|]. intros Hr. apply E2 in Hr as (? & ? & ? & Hor).
  exists v. split_and!; [done..|]. destruct Hor as [Hw|[Hw|Hw]]; auto. destruct (Hs1 Hw); auto.
Qed.
Lemma grounded_unfrozen w s i s1 rx now k :
  (flagged s1 = true → flagged s = true ∨ saw_working w i) →
  (∀ s2, (flagged s2 = true → flagged s = true ∨ saw_working w i) → grounded w s i (k s2)) →
  grounded w s i (with_unfrozen s1 rx now k).
Proof.
  intros Hs1 Hk. unfold with_unfrozen. destruct (unfreeze _ _); [by apply Hk|].
  by apply grounded_quiet.
Qed.
Lemma ack_turn_grounded w s i : grounded w s i (ack_turn w s i).
Proof.
  unfold ack_turn. destruct (ti_resolved i); [apply grounded_quiet; [by left|done]|].
  destruct (ti_branch i) as [resolved|v|ev live v|pe v] eqn:Hb.
  - apply grounded_quiet; [by left|by destruct resolved].
  - destruct (next_target (as_clock s)) as [[t [|]]|]; cbn.
    + apply grounded_quiet; [by left|done].
    + apply grounded_pass; [by left|by rewrite Hb].
    + apply grounded_quiet; [by left|done].
  - unfold ack_event. set (s1 := MkAckState _ _ _ _).
    assert (flagged s1 = true → flagged s = true ∨ saw_working w i) as Hs1.
    { subst s1. unfold flagged; cbn. intros Hf.
      destruct (track_state_event ev (rw_handle w)) eqn:Htr.
      - right. destruct ev as [e|]; [|done]. exists e. split; [done|]. rewrite Hb. by left.
      - left. by rewrite !orb_false_r in Hf. }
    clearbody s1. destruct (is_session_event ev).
    + destruct (as_pane_rx s1), live; try by apply grounded_quiet.
      apply grounded_unfrozen; [done|]. intros s2 ?. apply grounded_pass; [done|by rewrite Hb].
    + destruct ev as [|[|]]; try by apply grounded_quiet.
      destruct (frozen _ && live); [|by apply grounded_quiet].
      apply grounded_unfrozen; [done|]. intros s2 ?. by apply grounded_quiet.
  - unfold ack_pane. destruct (receipt_pane_step _ _ _);
      try (apply grounded_quiet; [by left|done]).
    apply grounded_unfrozen; [by left|]. intros s2 ?. apply grounded_pass; [done|by rewrite Hb].
Qed.

Lemma screen_grounded w turns : ∀ s s',
  await_ack w s turns = (s', AckReturn AckScreen) →
  ∃ i v, i ∈ turns ∧ pass_of (ti_branch i) = Some v ∧ looked v ∧ sv_marker (pv_screen v) = false ∧
    rw_ack_evidence w = AckReceipt ∧
    (flagged s = true ∨ Exists (saw_working w) turns ∨
     (sv_changed (pv_screen v) = true ∧ rw_id_staged w = true)).
Proof.
  induction turns as [|i rest IH]; intros s s'; [done|]. cbn.
  destruct (ack_turn_grounded w s i) as [Hf Hs]. destruct (ack_turn w s i) as [s1 r]. cbn in *.
  destruct r as [out| |]; [intros [= -> ->]| |done].
  - destruct (Hs eq_refl) as (v & Hv & Hl & Hm & Ha & Hor). exists i, v.
    split_and!; [apply list_elem_of_here|done..|].
    destruct Hor as [?|[?|?]]; [by left|by right; left; constructor|by right; right].
  - intros (i' & v & Hin & Hv & Hl & Hm & Ha & Hor)%IH. exists i', v.
    split_and!; [by apply list_elem_of_further|done..|].
    destruct Hor as [H|[H|H]]; [|by right; left; constructor 2|by right; right].
    destruct (Hf H); [by left|by right; left; constructor].
Qed.

(** Screen evidence is this delivery's own: a wait resolves as delivered on
    the screen only on a pass that saw the submitted agent's fresh screen with the
    staged text gone from the composer, for an agent whose hooks promise a
    receipt, and after either a confirmed working edge of the very process and
    rules Enter reached, observed since the submit, or a changed window that had
    staged the id.  Output on the pane is never evidence. *)
Theorem screen_receipt_is_earned w watcher now turns s :
  await_ack w (ack_start w watcher now) turns = (s, AckReturn AckScreen) →
  ∃ i v, i ∈ turns ∧ pass_of (ti_branch i) = Some v ∧ looked v ∧ sv_marker (pv_screen v) = false ∧
    rw_ack_evidence w = AckReceipt ∧
    (Exists (saw_working w) turns ∨ (sv_changed (pv_screen v) = true ∧ rw_id_staged w = true)).
Proof.
  intros (i & v & Hin & Hv & Hl & Hm & Ha & Hor)%screen_grounded. exists i, v.
  split_and!; [done..|]. destruct Hor as [H|H]; [|done]. by destruct watcher.
Qed.

(** ** Timer turns *)
Abbreviation remaining c := (drop (next c) (checkpoints c)).
(** The clock between two turns, at instant [t]: a running clock has a checkpoint
    left, the last one is not before the deadline, and a clock frozen after its
    last checkpoint was past the deadline already. *)
Record clock_ok (c : AckClock) (t : N) : Prop := {
  ck_next : (next c ≤ length (checkpoints c))%nat;
  ck_last : ∀ x, last (remaining c) = Some x → deadline c ≤ x;
  ck_left : frozen_at c = None → remaining c ≠ [];
  ck_due : ∀ a, frozen_at c = Some a → a ≤ t ∧ (remaining c = [] → deadline c ≤ a);
}.
(** A running clock on which a pass is about to look at [t]. *)
Record clock_passing (c : AckClock) (t : N) : Prop := {
  cp_run : frozen_at c = None;
  cp_next : (next c ≤ length (checkpoints c))%nat;
  cp_last : ∀ x, last (remaining c) = Some x → deadline c ≤ x;
  cp_due : remaining c = [] → deadline c ≤ t;
}.
Lemma pass_ok w c v after c2 :
  clock_passing c after → pass_clock w c v after c2 AckContinue →
  clock_ok c2 after ∧ hook_deadline c2 = hook_deadline c ∧ checkpoints c2 = checkpoints c ∧ next c2 = next c.
Proof.
  intros [Hf Hn Hl Hd] Hp. inversion Hp as [He| | |]; subst.
  - split; [|done]. split; [done|done| |by rewrite Hf].
    intros _ Hr%Hd. unfold expired, frozen in He. rewrite Hf in He. cbn in He.
    apply N.leb_gt in He. lia.
  - unfold freeze. rewrite Hf. split; [|done]. split; [done|done|done|]. cbn. intros a [= <-].
    split; [lia|done].
Qed.
Lemma unfreeze_passing c t now after c1 :
  clock_ok c t → t ≤ now → now ≤ after → unfreeze c now = Some c1 →
  clock_passing c1 after ∧ length (checkpoints c1) = length (checkpoints c) ∧ next c1 = next c ∧
  (hook_deadline c = None ↔ hook_deadline c1 = None).
Proof.
  intros [Hn Hl Hr Hd] H1 H2. unfold unfreeze. destruct (frozen_at c) as [a|] eqn:Hf.
  2:{ intros [= <-]. split; [|done]. split; [done..|]. intros E. by destruct Hr. }
  rewrite (proj2 (Nat.leb_le _ _) Hn). intros [= <-]. cbn.
  assert (remaining (MkAckClock ((λ h, h + (now - a)) <$> hook_deadline c)
    (take (next c) (checkpoints c) ++ ((λ t, t + (now - a)) <$> remaining c)) (next c)
    (deadline c + (now - a)) None) = (λ t, t + (now - a)) <$> remaining c) as Hrem.
  { cbn. rewrite drop_app_length'; [done|]. rewrite length_take. lia. }
  destruct (Hd a eq_refl) as [Ha Hda]. split_and!; [|..].
  - split; [done| | |]; cbn in Hrem |- *.
    + rewrite length_app, length_take, length_fmap, length_drop. lia.
    + rewrite Hrem. intros x. rewrite fmap_last. destruct (last (remaining c)) as [y|] eqn:Hy; [|done].
      intros [= <-]. specialize (Hl y eq_refl). lia.
    + rewrite Hrem. intros E%fmap_nil_inv. specialize (Hda E). lia.
  - rewrite length_app, length_take, length_fmap, length_drop. lia.
  - done.
  - by destruct (hook_deadline c).
Qed.
Lemma skip_due_drop now l x :
  last l = Some x → last (drop (skip_due l now) l) = Some x ∨ (drop (skip_due l now) l = [] ∧ x ≤ now).
Proof.
  induction l as [|y l IH]; cbn [last skip_due]; [done|].
  destruct (N.leb_spec y now); [cbn [drop]|by left].
  intros Hx. destruct l as [|z l]; [injection Hx as ->; by right|]. by apply IH.
Qed.
Lemma skip_due_length now l : (skip_due l now ≤ length l)%nat.
Proof. induction l; cbn; [lia|]. case_match; lia. Qed.
Lemma hook_ok c t now after :
  clock_ok c t → frozen_at c = None → t ≤ now → now ≤ after →
  clock_ok (end_hook_phase c now) after ∧
  length (checkpoints (end_hook_phase c now)) = S (length (checkpoints c)) ∧
  (next c ≤ next (end_hook_phase c now))%nat.
Proof.
  intros [Hn Hl Hr Hd] Hf H1 H2. unfold end_hook_phase. cbn.
  pose proof (skip_due_length now (remaining c)) as Hk. rewrite length_drop in Hk.
  set (k := skip_due (remaining c) now) in *. set (n := (next c + k)%nat).
  assert (length (take n (checkpoints c)) = n) as Hlt by (rewrite length_take; subst n; lia).
  assert (drop n (take n (checkpoints c) ++ now :: drop n (checkpoints c)) = now :: drop n (checkpoints c)) as Hrem
    by by rewrite drop_app_length'.
  split; [|split; [rewrite length_app, Hlt; cbn; rewrite length_drop; subst n; lia|subst n; lia]].
  split; cbn.
  - rewrite length_app, Hlt. lia.
  - rewrite Hrem. intros x. subst n. rewrite <-drop_drop.
    destruct (last (remaining c)) as [y|] eqn:Hy; [|by apply last_None in Hy; destruct Hr].
    specialize (Hl y eq_refl). destruct (skip_due_drop now _ _ Hy) as [E|[E Hle]].
    + fold k in E. rewrite last_cons, E. intros [= <-]. lia.
    + fold k in E. rewrite E. cbn. intros [= <-]. lia.
  - by rewrite Hrem.
  - by rewrite Hf.
Qed.
Lemma timer_passing c t now after :
  clock_ok c t → frozen_at c = None → default (deadline c) (checkpoints c !! next c) ≤ now →
  now ≤ after → clock_passing (advance_checkpoint c) after.
Proof.
  intros [Hn Hl Hr Hd] Hf Hdue H2. destruct (remaining c) as [|x rest] eqn:E; [by destruct Hr|].
  assert (checkpoints c !! next c = Some x) as Hx.
  { rewrite <-(Nat.add_0_r (next c)), <-lookup_drop, E. done. }
  assert (drop (S (next c)) (checkpoints c) = rest) as Hrest.
  { rewrite <-Nat.add_1_r, <-drop_drop, E. done. }
  rewrite Hx in Hdue. cbn in Hdue. pose proof (lookup_lt_Some _ _ _ Hx).
  split; cbn; [done|lia| |]; rewrite Hrest.
  - intros y Hy. apply Hl. rewrite last_cons. by rewrite Hy.
  - intros ->. specialize (Hl x eq_refl). lia.
Qed.

(** Timer turns the clock can still arm. *)
Definition timers_left (c : AckClock) : nat :=
  (length (checkpoints c) - next c + match hook_deadline c with Some _ => 2 | None => 0 end)%nat.
Definition timer_turns (turns : list TurnInput) : nat :=
  length (List.filter (λ i, is_timer (ti_branch i)) turns).

Lemma turn_ok w c i t c' :
  clock_ok c t → t ≤ ti_now i → ti_now i ≤ ti_after i → is_lagged (ti_branch i) = false →
  turn_clock w c i c' AckContinue →
  clock_ok c' (ti_after i) ∧
  (timers_left c' + (if is_timer (ti_branch i) then 1 else 0) ≤ timers_left c)%nat.
Proof.
  intros Hok H1 H2 Hlag Ht. unfold timers_left.
  assert (clock_ok c (ti_after i)) as Hlater.
  { destruct Hok as [? ? ? Hd]. split; [done..|]. intros a [? ?]%Hd. split; [lia|done]. }
  inversion Ht as [r Ho Ht'| Ho|h Hh Hf Hle|c1 Hl|v c2 r Hf Hh Hd Hv Hp|v c1 c2 r Ho Hu Hv Hp|]; subst.
  - split; [done|]. destruct Ho as [->|]; [lia|done].
  - rewrite Ho. unfold freeze. destruct (frozen_at c) as [a|] eqn:Hf; [split; [done|lia]|].
    cbn. split; [|lia]. destruct Hok as [? ? Hr ?]. split; cbn; [done..|].
    intros a [= <-]. split; [lia|]. intros E. by destruct Hr.
  - destruct (hook_ok c t (ti_now i) (ti_after i) Hok Hf H1 H2) as (Hok' & Hlen & Hnx).
    split; [done|]. rewrite Hlen, Hh. cbn [hook_deadline end_hook_phase].
    destruct Hok. case_match; lia.
  - congruence.
  - apply (pass_ok w) in Hp as (Hok' & Hhk & Hcp & Hnx); [|by eapply timer_passing].
    split; [done|]. rewrite Hhk, Hcp, Hnx. cbn. rewrite Hh.
    destruct Hok as [Hn _ Hr _]. specialize (Hr Hf).
    destruct (decide (next c = length (checkpoints c))) as [E|E]; [by rewrite E, drop_all in Hr|].
    case_match; lia.
  - destruct (unfreeze_passing c t _ (ti_after i) c1 Hok H1 H2 Hu) as (Hps & Hlen & Hnx & Hhk).
    apply (pass_ok w) in Hp as (Hok' & Hhk' & Hcp & Hnx'); [|done].
    split; [done|]. rewrite Hcp, Hnx', Hhk', Hlen, Hnx, Ho.
    destruct (hook_deadline c), (hook_deadline c1); try lia; naive_solver.
Qed.
Lemma unfreeze_ok c t now : clock_ok c t → unfreeze c now ≠ None.
Proof.
  intros [Hn _ _ _]. unfold unfreeze. destruct (frozen_at c); [|done].
  by rewrite (proj2 (Nat.leb_le _ _) Hn).
Qed.
Lemma timer_has_left s i t :
  clock_ok (as_clock s) t → turn_enabled s i = true → is_timer (ti_branch i) = true →
  (1 ≤ timers_left (as_clock s))%nat.
Proof.
  intros [Hn _ Hr _] Hen Hti. unfold turn_enabled in Hen. destruct (ti_branch i); try done.
  unfold next_target, frozen in Hen. destruct (frozen_at (as_clock s)) eqn:Hf; [done|].
  specialize (Hr eq_refl). unfold timers_left.
  destruct (decide (next (as_clock s) = length (checkpoints (as_clock s)))) as [E|E];
    [by rewrite E, drop_all in Hr|lia].
Qed.
Lemma await_ack_bounded w turns : ∀ s t,
  clock_ok (as_clock s) t → admissible w s t turns = true →
  Forall (λ i, is_lagged (ti_branch i) = false) turns →
  (await_ack w s turns).2 ≠ AckPanic ∧ (timer_turns turns ≤ timers_left (as_clock s))%nat.
Proof.
  induction turns as [|i rest IH]; intros s t Hok Had Hlag; [by split; [|cbn; lia]|].
  cbn [admissible await_ack] in Had |- *. apply Forall_cons in Hlag as [Hi Hlag].
  apply andb_true_iff in Had as [[[H1%N.leb_le H2%N.leb_le]%andb_true_iff Hen]%andb_true_iff Had].
  destruct (ack_turn w s i) as [s1 r] eqn:E. pose proof (ack_turn_clock _ _ _ _ _ Hen E) as Ht.
  pose proof (timer_has_left s i t Hok Hen) as Hone.
  assert (timer_turns (i :: rest) = (if is_timer (ti_branch i) then 1 else 0) + timer_turns rest)%nat as ->
    by (unfold timer_turns; cbn; by destruct (is_timer _)).
  destruct r as [out| |].
  - apply bool_decide_eq_true in Had. destruct rest; [|done]. split; [done|]. cbn.
    destruct (is_timer _); [specialize (Hone eq_refl)|]; lia.
  - destruct (turn_ok _ _ _ _ _ Hok H1 H2 Hi Ht) as [Hok' Hle].
    destruct (IH s1 (ti_after i) Hok' Had Hlag) as [IH1 IH2]. split; [done|lia].
  - exfalso. inversion Ht as [| | | |v c2 r ? ? ? ? Hp|v c1 c2 r ? ? ? Hp|Hu]; subst;
      [done|by inversion Hp|by inversion Hp|by eapply unfreeze_ok].
Qed.

(** [C39.] As long as the event stream does not lag, waiting for a receipt neither
    panics nor spins: the hook window and the screen checkpoints arm at most seven
    timer turns, whatever outages freeze and resume the clock in between. *)
Theorem receipt_wait_is_bounded w watcher now turns :
  admissible w (ack_start w watcher now) now turns = true →
  Forall (λ i, is_lagged (ti_branch i) = false) turns →
  (await_ack w (ack_start w watcher now) turns).2 ≠ AckPanic ∧ (timer_turns turns ≤ 7)%nat.
Proof.
  intros Had Hlag. destruct (await_ack_bounded w turns (ack_start w watcher now) now) as [H1 H2];
    [|done|done|].
  - destruct watcher; split; cbn; try done; try lia; naive_solver lia.
  - split; [done|]. etrans; [exact H2|]. unfold timers_left.
    destruct watcher; cbn; destruct (rw_hook_window w); cbn; lia.
Qed.

(** ** A lagging event stream *)
Definition lag_wait : ReceiptWait :=
  MkReceiptWait (MkSubmitted 0 (str "%1") 0 None None) AckReceipt true 0 None.
Definition seen_screen (stale : bool) : PassView :=
  MkPassView [] true (Some (MkDetection SWorking [] false (str "rule") stale false None None None)) true false
    (MkScreenView true true true true false true).
Definition timer_at (t : N) (stale : bool) : TurnInput :=
  MkTurnInput false (OnTimer (seen_screen stale)) t t.
(** Four quiet looks, a stale capture at the last checkpoint, the lagged stream
    resuming the clock without a look, a second stale capture at the deadline, and
    the pane's next change. *)
Definition lag_turns : list TurnInput :=
  [timer_at 250 false; timer_at 750 false; timer_at 1500 false; timer_at 3000 false;
   timer_at 5000 true;
   MkTurnInput false (OnEvent (inr (Lagged 1)) true (seen_screen false)) 6000 6000;
   timer_at 6000 true;
   MkTurnInput false (OnPane (inl (PaneChanged (str "%1") (MkPaneRow false false 1))) (seen_screen false))
     6100 6100].
(** Resuming on a lagged stream takes no pass, so the timer can run past the last
    checkpoint; a capture that fails then leaves [next] beyond the end, and the
    next resumption slices out of range. *)
Theorem lagged_wait_panics :
  admissible lag_wait (ack_start lag_wait true 0) 0 lag_turns = true ∧
  (await_ack lag_wait (ack_start lag_wait true 0) lag_turns).2 = AckPanic.
Proof. vm_compute. done. Qed.
