(* ===== verification/TurnKeys.v ===== *)
(** * Turn correlation

    [src/cyclopsd/src/turnkey.rs]: the key a vendor's hook payload names a turn
    with, its dedupe string, and the store of turn ends one pane's composer hold
    waits on.

    Theorems: the dedupe string is injective; the store is bounded, never evicts
    the end a hold waits on, and says so whenever it has discarded any other. *)
From S2P Require Import Prelude Text Identity Ledger Notification AttentionRegister.
From S2P Require Import NotificationAdapter DeliveryGate.
Local Open Scope N_scope.
Local Open Scope rust_scope.

(** ** Keys *)
Inductive KeyField := KText (s : rstr).
#[export] Instance KeyField_eq_dec : EqDecision KeyField.
Proof. solve_decision. Defined.
Record TurnKey := MkTurnKey { tk_fields : list KeyField }.
#[export] Instance TurnKey_eq_dec : EqDecision TurnKey.
Proof. solve_decision. Defined.

(** A part behind its own length in bytes. *)
Definition counted (part : rstr) : rstr := dec_string (str_len part) ++ 58 :: part.
Definition dedupe_key (k : TurnKey) (event : rstr) : rstr :=
  mjoin ((λ '(KText part), counted part) <$> tk_fields k) ++ counted event.

(** A field's value; only the text of a string matters here. *)
Inductive Json := JNull | JBool | JNumber | JString (s : rstr) | JArray | JObject.
(** [payload.get(name)], the payload given by its fields; one that is no object
    has none. *)
Definition json_get (payload : list (rstr * Json)) (name : rstr) : option Json :=
  snd <$> List.find (λ f, bool_decide (f.1 = name)) payload.
Inductive TurnCorrelation :=
| CorrUnconfigured
| CorrExact (k : TurnKey)
| CorrInvalid (why : rstr).
Definition unsupported (v : Json) : rstr :=
  match v with
  | JNull => str "null field"
  | JObject => str "object field"
  | JArray => str "array field"
  | JString _ => str "blank field"
  | _ => str "non-string field"
  end.
Definition key_field (v : Json) : option KeyField :=
  match v with
  | JString s => if bool_decide (trim s = []) then None else Some (KText s)
  | _ => None
  end.
Fixpoint key_fields (fields : list rstr) (payload : list (rstr * Json)) : result rstr (list KeyField) :=
  match fields with
  | [] => Ok []
  | name :: rest =>
      match json_get payload name with
      | None => Err (str "missing field")
      | Some v =>
          match key_field v with
          | None => Err (unsupported v)
          | Some part => let? parts := key_fields rest payload in Ok (part :: parts)
          end
      end
  end.
(** [turn_key_fields] is the manifest's declaration. *)
Definition correlate (turn_key_fields : list rstr) (payload : list (rstr * Json)) : TurnCorrelation :=
  match turn_key_fields with
  | [] => CorrUnconfigured
  | _ =>
      match key_fields turn_key_fields payload with
      | Ok parts => CorrExact (MkTurnKey parts)
      | Err why => CorrInvalid why
      end
  end.

(** ** Ends *)
Definition PaneKey : Type := N * rstr.
Record PaneEnds := MkPaneEnds {
  pe_agent : ProcId;
  pe_manifest : rstr;
  pe_pinned : option TurnKey;
  pe_diagnosed_missing_end : option TurnKey;
  pe_seen : list TurnKey;
  pe_lost : bool;
}.
Definition ENDS_CAP : nat := 16.
Abbreviation Ends := (gmap PaneKey PaneEnds).

Definition fresh_ends (agent : ProcId) (manifest : rstr) : PaneEnds :=
  MkPaneEnds agent manifest None None [] false.
Definition bound_to (e : PaneEnds) (agent : ProcId) (manifest : rstr) : bool :=
  bool_decide (pe_agent e = agent) && bool_decide (pe_manifest e = manifest).
Definition bound (map : Ends) (pane : PaneKey) (agent : ProcId) (manifest : rstr) : PaneEnds :=
  match map !! pane with
  | Some e => if bound_to e agent manifest then e else fresh_ends agent manifest
  | None => fresh_ends agent manifest
  end.
(** [seen.iter().position(|k| Some(k) != pinned)], then [seen.remove(pos)]. *)
Fixpoint remove_unpinned (pinned : option TurnKey) (seen : list TurnKey) : option (list TurnKey) :=
  match seen with
  | [] => None
  | k :: rest =>
      if bool_decide (Some k ≠ pinned) then Some rest
      else (k ::.) <$> remove_unpinned pinned rest
  end.
(** [while seen.len() > ENDS_CAP]; [fuel] is the length, each round removes one. *)
Fixpoint evict (fuel : nat) (pinned : option TurnKey) (seen : list TurnKey) (lost : bool)
    : list TurnKey * bool :=
  match fuel with
  | O => (seen, lost)
  | S fuel =>
      if (ENDS_CAP <? length seen)%nat then
        match remove_unpinned pinned seen with
        | Some seen => evict fuel pinned seen true
        | None => (seen, lost)
        end
      else (seen, lost)
  end.
Definition record (map : Ends) (pane : PaneKey) (agent : ProcId) (manifest : rstr) (turn : TurnKey) : Ends :=
  let e := bound map pane agent manifest in
  let seen := if bool_decide (turn ∈ pe_seen e) then pe_seen e else pe_seen e ++ [turn] in
  let '(seen, lost) := evict (length seen) (pe_pinned e) seen (pe_lost e) in
  <[pane := MkPaneEnds (pe_agent e) (pe_manifest e) (pe_pinned e) (pe_diagnosed_missing_end e) seen lost]> map.
Definition pin (map : Ends) (pane : PaneKey) (agent : ProcId) (manifest : rstr) (turn : TurnKey)
    : Ends * bool :=
  let e := bound map pane agent manifest in
  match pe_pinned e with
  | Some held => (<[pane := e]> map, bool_decide (held = turn))
  | None =>
      (<[pane := MkPaneEnds (pe_agent e) (pe_manifest e) (Some turn) None (pe_seen e) (pe_lost e)]> map, true)
  end.
Definition waits_on (e : PaneEnds) (agent : ProcId) (manifest : rstr) (turn : TurnKey) : bool :=
  bound_to e agent manifest && bool_decide (pe_pinned e = Some turn).
Definition reserve_missing_end_diagnostic (map : Ends) (pane : PaneKey) (agent : ProcId)
    (manifest : rstr) (turn : TurnKey) : Ends * bool :=
  match map !! pane with
  | None => (map, false)
  | Some e =>
      if waits_on e agent manifest turn && negb (bool_decide (pe_diagnosed_missing_end e = Some turn))
      then (<[pane := MkPaneEnds (pe_agent e) (pe_manifest e) (pe_pinned e) (Some turn) (pe_seen e) (pe_lost e)]> map, true)
      else (map, false)
  end.
Definition holds_end (map : Ends) (pane : PaneKey) (agent : ProcId) (manifest : rstr) (turn : TurnKey) : bool :=
  match map !! pane with
  | Some e => bound_to e agent manifest && bool_decide (turn ∈ pe_seen e)
  | None => false
  end.
(** [seen.remove(position of turn)]. *)
Fixpoint remove_first (turn : TurnKey) (seen : list TurnKey) : list TurnKey :=
  match seen with
  | [] => []
  | k :: rest => if bool_decide (k = turn) then rest else k :: remove_first turn rest
  end.
Definition take_end (map : Ends) (pane : PaneKey) (agent : ProcId) (manifest : rstr) (turn : TurnKey)
    : Ends * bool :=
  match map !! pane with
  | None => (map, false)
  | Some e =>
      if waits_on e agent manifest turn && bool_decide (turn ∈ pe_seen e)
      then (<[pane := MkPaneEnds (pe_agent e) (pe_manifest e) None None (remove_first turn (pe_seen e)) (pe_lost e)]> map, true)
      else (map, false)
  end.
Definition evidence_lost (map : Ends) (pane : PaneKey) (agent : ProcId) (manifest : rstr) : bool :=
  match map !! pane with
  | Some e => bound_to e agent manifest && pe_lost e
  | None => false
  end.
Definition retire (map : Ends) (pane : PaneKey) (agent : ProcId) (manifest : rstr) (turn : TurnKey)
    : Ends * bool :=
  match map !! pane with
  | None => (map, false)
  | Some e =>
      if waits_on e agent manifest turn
      then (<[pane := MkPaneEnds (pe_agent e) (pe_manifest e) None None (remove_first turn (pe_seen e)) (pe_lost e)]> map, true)
      else (map, false)
  end.
Definition forget (map : Ends) (pane : PaneKey) : Ends := delete pane map.

(** ** Keys cannot be forged *)
Lemma counted_nonempty part : counted part ≠ [].
Proof. unfold counted. by destruct (dec_string _). Qed.
Lemma digits_then_colon d1 d2 s1 s2 :
  58 ∉ d1 → 58 ∉ d2 → d1 ++ 58 :: s1 = d2 ++ 58 :: s2 → d1 = d2 ∧ s1 = s2.
Proof.
  revert d2. induction d1 as [|c d1 IH]; intros [|c' d2] H1 H2; cbn; intros E; simplify_eq.
  - done.
  - by destruct H2; left.
  - by destruct H1; left.
  - rewrite not_elem_of_cons in H1, H2. destruct H1, H2. by destruct (IH d2) as [-> ->].
Qed.
Lemma dec_string_no_colon n : 58 ∉ dec_string n.
Proof. intros H. pose proof (Forall_elem _ _ _ (dec_string_digits n) H) as Hd. by vm_compute in Hd. Qed.
Lemma dec_string_inj n m : dec_string n = dec_string m → n = m.
Proof. intros E. by rewrite <-(dec_string_value n), E, dec_string_value. Qed.
Lemma utf8_width_pos c : 1 ≤ utf8_width c.
Proof. unfold utf8_width. repeat case_match; lia. Qed.
Lemma same_len_prefix x : ∀ y r1 r2, str_len x = str_len y → x ++ r1 = y ++ r2 → x = y ∧ r1 = r2.
Proof.
  induction x as [|c x IH]; intros [|c' y] r1 r2; cbn [app str_len foldr]; try done.
  - pose proof (utf8_width_pos c'). lia.
  - pose proof (utf8_width_pos c). lia.
  - fold (str_len x) (str_len y). intros Hl [= <- E]. destruct (IH y r1 r2) as [-> ->]; [lia|done|done].
Qed.
Lemma counted_app_inj x y r1 r2 : counted x ++ r1 = counted y ++ r2 → x = y ∧ r1 = r2.
Proof.
  unfold counted. rewrite <-!app_assoc. cbn [app].
  intros [Hd Hs]%digits_then_colon; [|apply dec_string_no_colon..].
  by apply same_len_prefix; [apply dec_string_inj|].
Qed.
Lemma counted_list_inj l1 : ∀ l2, mjoin (counted <$> l1) = mjoin (counted <$> l2) → l1 = l2.
Proof.
  induction l1 as [|x l1 IH]; intros [|y l2]; cbn; try done.
  - intros E. symmetry in E. apply app_nil in E as [E _]. by apply counted_nonempty in E.
  - intros E. apply app_nil in E as [E _]. by apply counted_nonempty in E.
  - intros [-> E]%counted_app_inj. f_equal. by apply IH.
Qed.
Definition parts (k : TurnKey) : list rstr := (λ '(KText part), part) <$> tk_fields k.
Lemma parts_inj k1 k2 : parts k1 = parts k2 → k1 = k2.
Proof.
  destruct k1 as [l1], k2 as [l2]. unfold parts; cbn [tk_fields]. intros E. f_equal. revert l2 E.
  induction l1 as [|[x] l1 IH]; intros [|[y] l2]; cbn; try done. intros [= -> E]. f_equal. by apply IH.
Qed.
Lemma dedupe_key_parts k event : dedupe_key k event = mjoin (counted <$> (parts k ++ [event])).
Proof.
  unfold dedupe_key, parts. rewrite fmap_app, join_app. cbn. rewrite app_nil_r. f_equal. f_equal.
  rewrite <-list_fmap_compose. apply list_fmap_ext. by intros i [x] _.
Qed.

(** No two turns share a dedupe string, and no turn's event collides with
    another's, whatever separators and digits the vendor's values contain. *)
Theorem dedupe_key_is_injective k1 k2 event1 event2 :
  dedupe_key k1 event1 = dedupe_key k2 event2 ↔ k1 = k2 ∧ event1 = event2.
Proof.
  split; [|by intros [-> ->]]. rewrite !dedupe_key_parts.
  intros [E1%parts_inj E2]%counted_list_inj%app_inj_tail. done.
Qed.

(** ** Correlation *)
Lemma key_fields_spec fields payload parts :
  key_fields fields payload = Ok parts ↔
  Forall2 (λ name part, ∃ s, json_get payload name = Some (JString s) ∧ trim s ≠ [] ∧ part = KText s) fields parts.
Proof.
  revert parts. induction fields as [|name rest IH]; intros parts; cbn [key_fields].
  { split; [intros [= <-]; constructor|]. by intros H; inversion H. }
  split.
  - destruct (json_get payload name) as [v|] eqn:Hv; [|done].
    destruct (key_field v) as [part|] eqn:Hk; [|done].
    destruct (key_fields rest payload) as [ps|] eqn:Hr; cbn; [|done]. intros [= <-].
    constructor; [|by apply IH]. destruct v; cbn in Hk; try done. case_bool_decide; simplify_eq. eauto.
  - intros H. inversion H as [|? part ? ps (s & Hs & Ht & ->) Hrest]; subst. rewrite Hs. cbn.
    rewrite bool_decide_eq_false_2 by done. by rewrite (proj2 (IH ps) Hrest).
Qed.

(** A payload names a turn exactly when every field the manifest declares is
    a string that is not blank, read in declared order; a manifest that declares
    none never correlates, and a payload that misses a declared field is refused,
    never treated as uncorrelated. *)
Theorem correlation_is_exact fields payload :
  (correlate fields payload = CorrUnconfigured ↔ fields = []) ∧
  (∀ k, correlate fields payload = CorrExact k ↔
     fields ≠ [] ∧
     Forall2 (λ name part, ∃ s, json_get payload name = Some (JString s) ∧ trim s ≠ [] ∧ part = KText s)
       fields (tk_fields k)).
Proof.
  unfold correlate. split.
  - destruct fields; [done|]. by destruct (key_fields _ _).
  - intros [parts]. cbn [tk_fields]. rewrite <-key_fields_spec.
    destruct fields as [|name rest]; [naive_solver|]. destruct (key_fields (name :: rest) payload); naive_solver.
Qed.

(** ** The store of ends *)
Record ends_ok (e : PaneEnds) : Prop := {
  eo_nodup : NoDup (pe_seen e);
  eo_bounded : (length (pe_seen e) ≤ ENDS_CAP)%nat;
  eo_diagnosed : ∀ t, pe_diagnosed_missing_end e = Some t → pe_pinned e = Some t;
}.

Lemma remove_unpinned_Some pinned seen seen' :
  NoDup seen → remove_unpinned pinned seen = Some seen' →
  NoDup seen' ∧ length seen = S (length seen') ∧ (∀ t, t ∈ seen' → t ∈ seen) ∧
  (∀ t, pinned = Some t → t ∈ seen → t ∈ seen').
Proof.
  revert seen'. induction seen as [|k rest IH]; intros seen' Hnd; cbn; [done|].
  apply NoDup_cons in Hnd as [Hk Hnd]. case_bool_decide as Hp.
  - intros [= <-]. split_and!; [done|done|by intros; right|].
    intros t -> [->|?]%elem_of_cons; [by destruct Hp|done].
  - destruct (remove_unpinned pinned rest) as [r|] eqn:Hr; [|done]. cbn. intros [= <-].
    destruct (IH r Hnd eq_refl) as (H1 & H2 & H3 & H4). split_and!.
    + apply NoDup_cons. split; [by intros ?%H3|done].
    + cbn. lia.
    + intros t. rewrite !elem_of_cons. naive_solver.
    + intros t Ht. rewrite !elem_of_cons. naive_solver.
Qed.
Lemma remove_unpinned_None pinned seen :
  NoDup seen → remove_unpinned pinned seen = None → (length seen ≤ 1)%nat.
Proof.
  destruct seen as [|k [|k' rest]]; cbn; [lia|lia|].
  intros [Hk _]%NoDup_cons. case_bool_decide as H1; [done|]. case_bool_decide as H2; [done|].
  exfalso. apply Hk, elem_of_cons. left. congruence.
Qed.
Lemma evict_spec pinned : ∀ fuel seen lost,
  NoDup seen → (length seen ≤ fuel + ENDS_CAP)%nat →
  let r := evict fuel pinned seen lost in
  NoDup r.1 ∧ (length r.1 ≤ ENDS_CAP)%nat ∧ (∀ t, t ∈ r.1 → t ∈ seen) ∧
  (∀ t, pinned = Some t → t ∈ seen → t ∈ r.1) ∧ (lost = true → r.2 = true) ∧
  (r.2 = false → r.1 = seen).
Proof.
  induction fuel as [|fuel IH]; intros seen lost Hnd Hlen; cbn [evict].
  { cbn. split_and!; auto. }
  destruct (Nat.ltb_spec ENDS_CAP (length seen)) as [Hlt|Hge]; [|cbn; split_and!; auto].
  destruct (remove_unpinned pinned seen) as [seen'|] eqn:Hr.
  - destruct (remove_unpinned_Some _ _ _ Hnd Hr) as (H1 & H2 & H3 & H4).
    destruct (IH seen' true H1 ltac:(lia)) as (G1 & G2 & G3 & G4 & G5 & G6). cbn in *.
    split_and!; [done|done|by eauto|by eauto|by eauto|]. intros Hf. by rewrite G5 in Hf.
  - apply remove_unpinned_None in Hr; [|done]. unfold ENDS_CAP in *. lia.
Qed.
Lemma remove_first_NoDup t l : NoDup l → NoDup (remove_first t l) ∧ (length (remove_first t l) ≤ length l)%nat ∧
  (∀ x, x ∈ remove_first t l → x ∈ l).
Proof.
  induction l as [|k l IH]; cbn; [auto|]. intros [Hk Hnd]%NoDup_cons.
  case_bool_decide; [split_and!; [done|lia|by intros; right]|].
  destruct (IH Hnd) as (H1 & H2 & H3). split_and!; [|cbn; lia|].
  - apply NoDup_cons. split; [by intros ?%H3|done].
  - intros x. rewrite !elem_of_cons. naive_solver.
Qed.

(** The entry after each operation, on the entry before it. *)
Definition seen_with (e : PaneEnds) (turn : TurnKey) : list TurnKey :=
  if bool_decide (turn ∈ pe_seen e) then pe_seen e else pe_seen e ++ [turn].
Lemma seen_with_NoDup e turn : NoDup (pe_seen e) → NoDup (seen_with e turn).
Proof.
  unfold seen_with. intros Hnd. case_bool_decide; [done|]. apply NoDup_app. split_and!; [done| |apply NoDup_singleton].
  intros x Hx ->%list_elem_of_singleton. done.
Qed.
Lemma fresh_ok agent manifest : ends_ok (fresh_ends agent manifest).
Proof. split; cbn; [constructor|unfold ENDS_CAP; lia|done]. Qed.
Definition map_ok (map : Ends) : Prop := ∀ pane e, map !! pane = Some e → ends_ok e.
Lemma bound_ok map pane agent manifest : map_ok map → ends_ok (bound map pane agent manifest).
Proof.
  intros Hm. unfold bound. destruct (map !! pane) as [e|] eqn:E; [|apply fresh_ok].
  destruct (bound_to e agent manifest); [by eapply Hm|apply fresh_ok].
Qed.
Lemma map_ok_insert map pane e : map_ok map → ends_ok e → map_ok (<[pane := e]> map).
Proof. intros Hm He q e'. rewrite lookup_insert. case_decide; naive_solver. Qed.

(** ** Operations and an unbounded reference *)
Inductive EndsOp :=
| EoRecord (turn : TurnKey)
| EoPin (turn : TurnKey)
| EoReserve (turn : TurnKey)
| EoTake (turn : TurnKey)
| EoRetire (turn : TurnKey)
| EoForget.
Record EndsCall := MkEndsCall { ec_pane : PaneKey; ec_agent : ProcId; ec_manifest : rstr; ec_op : EndsOp }.
(** [rec] is how an end is recorded. *)
Definition ends_step (rec : Ends → PaneKey → ProcId → rstr → TurnKey → Ends) (map : Ends) (c : EndsCall)
    : Ends * option bool :=
  let '(MkEndsCall pane agent manifest op) := c in
  match op with
  | EoRecord t => (rec map pane agent manifest t, None)
  | EoPin t => prod_map id Some (pin map pane agent manifest t)
  | EoReserve t => prod_map id Some (reserve_missing_end_diagnostic map pane agent manifest t)
  | EoTake t => prod_map id Some (take_end map pane agent manifest t)
  | EoRetire t => prod_map id Some (retire map pane agent manifest t)
  | EoForget => (forget map pane, None)
  end.
Definition ends_run (rec : Ends → PaneKey → ProcId → rstr → TurnKey → Ends) (calls : list EndsCall) : Ends :=
  foldl (λ map c, (ends_step rec map c).1) ∅ calls.
(** The reference keeps every end. *)
Definition record_all (map : Ends) (pane : PaneKey) (agent : ProcId) (manifest : rstr) (turn : TurnKey) : Ends :=
  let e := bound map pane agent manifest in
  <[pane := MkPaneEnds (pe_agent e) (pe_manifest e) (pe_pinned e) (pe_diagnosed_missing_end e)
     (seen_with e turn) (pe_lost e)]> map.

Lemma record_eq map pane agent manifest turn :
  record map pane agent manifest turn =
    let e := bound map pane agent manifest in
    let r := evict (length (seen_with e turn)) (pe_pinned e) (seen_with e turn) (pe_lost e) in
    <[pane := MkPaneEnds (pe_agent e) (pe_manifest e) (pe_pinned e) (pe_diagnosed_missing_end e) r.1 r.2]> map.
Proof. unfold record, seen_with. cbn. by destruct (evict _ _ _ _). Qed.
Lemma record_evict e turn :
  ends_ok e →
  let r := evict (length (seen_with e turn)) (pe_pinned e) (seen_with e turn) (pe_lost e) in
  NoDup r.1 ∧ (length r.1 ≤ ENDS_CAP)%nat ∧ (∀ t, t ∈ r.1 → t ∈ seen_with e turn) ∧
  (∀ t, pe_pinned e = Some t → t ∈ seen_with e turn → t ∈ r.1) ∧ (pe_lost e = true → r.2 = true) ∧
  (r.2 = false → r.1 = seen_with e turn).
Proof. intros He. apply evict_spec; [by apply seen_with_NoDup, He|lia]. Qed.

Lemma ends_step_ok map c : map_ok map → map_ok (ends_step record map c).1.
Proof.
  intros Hm. destruct c as [pane agent manifest [t|t|t|t|t|]]; cbn.
  - rewrite record_eq. cbn. apply map_ok_insert; [done|].
    pose proof (bound_ok map pane agent manifest Hm) as He.
    destruct (record_evict _ t He) as (H1 & H2 & _). split; cbn; [done|done|apply He].
  - unfold pin. pose proof (bound_ok map pane agent manifest Hm) as He.
    destruct (pe_pinned _); cbn; apply map_ok_insert; try done. split; cbn; [apply He|apply He|done].
  - unfold reserve_missing_end_diagnostic. destruct (map !! pane) as [e|] eqn:E; [|done].
    destruct (waits_on e agent manifest t && _) eqn:Hw; [|done]. cbn. apply map_ok_insert; [done|].
    pose proof (Hm _ _ E) as He. split; cbn; [apply He|apply He|]. intros t' [= <-].
    unfold waits_on in Hw. by bool_facts.
  - unfold take_end. destruct (map !! pane) as [e|] eqn:E; [|done].
    destruct (waits_on _ _ _ _ && _); [|done]. cbn. apply map_ok_insert; [done|].
    destruct (remove_first_NoDup t _ (eo_nodup _ (Hm _ _ E))) as (H1 & H2 & _).
    pose proof (eo_bounded _ (Hm _ _ E)). split; cbn; [done|lia|done].
  - unfold retire. destruct (map !! pane) as [e|] eqn:E; [|done].
    destruct (waits_on _ _ _ _); [|done]. cbn. apply map_ok_insert; [done|].
    destruct (remove_first_NoDup t _ (eo_nodup _ (Hm _ _ E))) as (H1 & H2 & _).
    pose proof (eo_bounded _ (Hm _ _ E)). split; cbn; [done|lia|done].
  - intros q e. unfold forget. rewrite lookup_delete. case_decide; naive_solver.
Qed.

Definition sim_entry (c a : PaneEnds) : Prop :=
  pe_agent c = pe_agent a ∧ pe_manifest c = pe_manifest a ∧ (pe_lost c = true ∨ c = a).
Definition sim (c a : Ends) : Prop :=
  ∀ pane, match c !! pane, a !! pane with
          | Some ec, Some ea => sim_entry ec ea
          | None, None => True
          | _, _ => False
          end.
Lemma sim_insert c a pane ec ea : sim c a → sim_entry ec ea → sim (<[pane := ec]> c) (<[pane := ea]> a).
Proof. intros Hs He q. rewrite !lookup_insert. case_decide; [done|apply Hs]. Qed.
Lemma sim_bound c a pane agent manifest :
  sim c a → sim_entry (bound c pane agent manifest) (bound a pane agent manifest).
Proof.
  intros Hs. specialize (Hs pane). unfold bound.
  destruct (c !! pane) as [ec|], (a !! pane) as [ea|]; try done; [|by split_and!; auto].
  destruct Hs as (H1 & H2 & H3). unfold bound_to. rewrite H1, H2.
  destruct (_ && _); [by split_and!|by split_and!; auto].
Qed.
Lemma sim_entry_lost c a c' a' :
  sim_entry c a → pe_agent c' = pe_agent c → pe_manifest c' = pe_manifest c →
  pe_agent a' = pe_agent a → pe_manifest a' = pe_manifest a →
  (pe_lost c = true → pe_lost c' = true) → (c = a → c' = a') → sim_entry c' a'.
Proof. intros (H1 & H2 & [H3|H3]) ? ? ? ? ? ?; split_and!; try congruence; auto. Qed.

(** An operation that, under its guard, rewrites the entry of one pane. *)
Lemma sim_guarded c a pane ec ea (gc ga : bool) ec' ea' :
  sim c a → c !! pane = Some ec → a !! pane = Some ea → (ec = ea → gc = ga ∧ ec' = ea') →
  pe_agent ec' = pe_agent ec → pe_manifest ec' = pe_manifest ec → pe_lost ec' = pe_lost ec →
  pe_agent ea' = pe_agent ea → pe_manifest ea' = pe_manifest ea →
  sim (if gc then (<[pane := ec']> c, true) else (c, false)).1
      (if ga then (<[pane := ea']> a, true) else (a, false)).1.
Proof.
  intros Hs Hc Ha Hg Hc1 Hc2 Hc3 Ha1 Ha2. pose proof (Hs pane) as Hp. rewrite Hc, Ha in Hp.
  destruct Hp as (H1 & H2 & H3).
  assert (∀ x y, (x = ec ∨ x = ec') → (y = ea ∨ y = ea') → (ec = ea → x = y) →
    sim (<[pane := x]> c) (<[pane := y]> a)) as Hins.
  { intros x y Hx Hy Hxy. apply sim_insert; [done|].
    destruct Hx as [-> | ->], Hy as [-> | ->]; split_and!; try congruence;
      (destruct H3 as [H3|H3]; [left; congruence|right; by apply Hxy]). }
  destruct gc, ga; cbn [fst].
  - apply Hins; auto. by intros [_ ?]%Hg.
  - rewrite <-(insert_id a pane ea) by done. apply Hins; auto. by intros [? _]%Hg.
  - rewrite <-(insert_id c pane ec) by done. apply Hins; auto. by intros [? _]%Hg.
  - done.
Qed.
Lemma ends_step_sim c a call :
  map_ok c → sim c a → sim (ends_step record c call).1 (ends_step record_all a call).1.
Proof.
  intros Hm Hs. destruct call as [pane agent manifest op].
  pose proof (sim_bound c a pane agent manifest Hs) as Hb. pose proof (Hs pane) as Hp.
  destruct op as [t|t|t|t|t|]; cbn [ends_step prod_map fst].
  - rewrite record_eq. unfold record_all. cbn. apply sim_insert; [done|].
    destruct (record_evict _ t (bound_ok c pane agent manifest Hm)) as (_ & _ & _ & _ & Hl & Hk).
    destruct Hb as (H1 & H2 & H3). split_and!; [done|done|]. cbn.
    destruct (evict _ _ _ _) as [seen [|]]; cbn in *; [by left|right].
    destruct H3 as [H3|H3]; [by specialize (Hl H3)|]. rewrite <-H3 in *. rewrite Hk by done.
    f_equal. destruct (pe_lost (bound c pane agent manifest)); [by specialize (Hl eq_refl)|done].
  - unfold pin. generalize dependent (bound c pane agent manifest). generalize (bound a pane agent manifest).
    intros ea ec Hb. destruct (pe_pinned ec) as [h|] eqn:Ec, (pe_pinned ea) as [h'|] eqn:Ea; cbn;
      (apply sim_insert; [done|]); (eapply sim_entry_lost; [exact Hb|done..|]); intros ->; congruence.
  - unfold reserve_missing_end_diagnostic.
    destruct (c !! pane) as [ec|] eqn:Ec, (a !! pane) as [ea|] eqn:Ea; try done.
    eapply sim_guarded; try done. by intros ->.
  - unfold take_end. destruct (c !! pane) as [ec|] eqn:Ec, (a !! pane) as [ea|] eqn:Ea; try done.
    eapply sim_guarded; try done. by intros ->.
  - unfold retire. destruct (c !! pane) as [ec|] eqn:Ec, (a !! pane) as [ea|] eqn:Ea; try done.
    eapply sim_guarded; try done. by intros ->.
  - intros q. unfold forget. rewrite !lookup_delete. case_decide; [done|apply Hs].
Qed.
Lemma ends_foldl_sim calls : ∀ c a, map_ok c → sim c a →
  map_ok (foldl (λ map x, (ends_step record map x).1) c calls) ∧
  sim (foldl (λ map x, (ends_step record map x).1) c calls)
      (foldl (λ map x, (ends_step record_all map x).1) a calls).
Proof.
  induction calls as [|call calls IH]; intros c a Hm Hs; [done|]. cbn [foldl].
  apply IH; [by apply ends_step_ok|by apply ends_step_sim].
Qed.
Lemma ends_run_sim calls :
  map_ok (ends_run record calls) ∧ sim (ends_run record calls) (ends_run record_all calls).
Proof.
  apply ends_foldl_sim; [by intros ? ? ?|]. intros pane. by rewrite lookup_empty.
Qed.

(** The bounded store of turn ends stands for an unbounded one.  After any
    calls, a pane holds at most [ENDS_CAP] ends, each once; as long as it does not
    report lost evidence for a binding, every question and every operation under
    that binding is answered as by a store that keeps every end; and the end a
    hold waits on is never evicted, whatever else is recorded. *)
Theorem ends_store_refines_unbounded calls :
  let c := ends_run record calls in
  let a := ends_run record_all calls in
  (∀ pane e, c !! pane = Some e → NoDup (pe_seen e) ∧ (length (pe_seen e) ≤ ENDS_CAP)%nat) ∧
  (∀ pane agent manifest, evidence_lost c pane agent manifest = false →
     (∀ t, holds_end c pane agent manifest t = holds_end a pane agent manifest t) ∧
     ∀ op, (ends_step record c (MkEndsCall pane agent manifest op)).2 =
           (ends_step record_all a (MkEndsCall pane agent manifest op)).2) ∧
  (∀ pane e t u, c !! pane = Some e → pe_pinned e = Some t → t ∈ pe_seen e →
     holds_end (record c pane (pe_agent e) (pe_manifest e) u) pane (pe_agent e) (pe_manifest e) t = true).
Proof.
  intros c a. destruct (ends_run_sim calls) as [Hm Hs].
  assert (map_ok c) as Hmc by exact Hm. assert (sim c a) as Hsc by exact Hs.
  clearbody c a. clear Hm Hs calls. split_and!.
  - intros pane e He. destruct (Hmc _ _ He). done.
  - intros pane agent manifest Hlost. specialize (Hsc pane). unfold evidence_lost in Hlost.
    assert (bound c pane agent manifest = bound a pane agent manifest ∧
      ∀ t, match c !! pane, a !! pane with
           | Some ec, Some ea => waits_on ec agent manifest t = waits_on ea agent manifest t ∧
               bound_to ec agent manifest = bound_to ea agent manifest ∧
               (bound_to ec agent manifest = true → ec = ea)
           | None, None => True | _, _ => False end) as [Hb Hw].
    { unfold bound, waits_on. destruct (c !! pane) as [ec|], (a !! pane) as [ea|]; try done.
      destruct Hsc as (H1 & H2 & H3).
      assert (bound_to ec agent manifest = bound_to ea agent manifest) as Hbt by (unfold bound_to; by rewrite H1, H2).
      rewrite <-Hbt. destruct (bound_to ec agent manifest); [|done].
      destruct H3 as [H3| ->]; [by rewrite H3 in Hlost|done]. }
    destruct (c !! pane) as [ec|] eqn:Ec, (a !! pane) as [ea|] eqn:Ea;
      [|by specialize (Hw (MkTurnKey []))..|].
    + split.
      * intros t. destruct (Hw t) as (_ & Hbt & He). unfold holds_end. rewrite Ec, Ea, <-Hbt.
        destruct (bound_to ec agent manifest); [by rewrite He|done].
      * intros [t|t|t|t|t|]; cbn; try done; [unfold pin; by rewrite Hb; destruct (pe_pinned _)| | |];
          destruct (Hw t) as (Hwt & Hbt & He);
          unfold reserve_missing_end_diagnostic, take_end, retire; rewrite Ec, Ea, <-Hwt;
          unfold waits_on; destruct (bound_to ec agent manifest); cbn; try done;
          rewrite He by done; by case_match.
    + split; [intros t; unfold holds_end; by rewrite Ec, Ea|].
      intros [t|t|t|t|t|]; cbn; try done; [unfold pin; by rewrite Hb; destruct (pe_pinned _)|..];
        unfold reserve_missing_end_diagnostic, take_end, retire; by rewrite Ec, Ea.
  - intros pane e t u He Hp Ht. rewrite record_eq. unfold holds_end. cbn. rewrite lookup_insert_eq.
    assert (bound c pane (pe_agent e) (pe_manifest e) = e) as ->.
    { unfold bound. rewrite He. unfold bound_to. by rewrite !bool_decide_eq_true_2. }
    destruct (record_evict e u (Hmc _ _ He)) as (_ & _ & _ & Hk & _). unfold bound_to. cbn.
    rewrite !bool_decide_eq_true_2; [done| |done|done]. apply Hk; [done|].
    unfold seen_with. case_bool_decide; [done|]. apply elem_of_app. by left.
Qed.
