(* ===== verification/Composer.v ===== *)
(** * The composer barrier

    [src/cyclopsd/src/fusion.rs]: the cached observation of a pane with its
    composer hold, the delivery attempt that owns the hold and the turn it waits
    on; the operations by which a delivery claims, marks, binds and releases it
    ([claim_hold], [release_unwritten_hold], [clear_hold_owner],
    [set_hold_owned], [bind_turn]), and the transaction of
    [observe_pane_with_evidence] that carries it across observations
    ([settle_turn], [retain_stale]).  [latch_turn_started] is in
    [src/cyclopsd/src/delivery/gate.rs]; a respawned pane drops everything
    ([retire_pane_process_trust] of [src/cyclopsd/src/lib.rs]).

    What an observation read, the pane's row, its occupant, its binding and the
    verdict fused from title, screen and hooks, is an input.  The fields of the
    cache that only status shows, the composer projection and the time of the last
    change, are left out, and so are the readiness events.

    Theorems: a barrier has one owner, which keeps it until it releases it or an
    observation proves the turn or the agent over; observations never panic; a
    mode hands a hold to the next agent, and a changed capture is not refused. *)
From S2P Require Import Prelude Text Identity Ledger Notification AttentionRegister Detection.
From S2P Require Import NotificationAdapter DeliveryGate TurnKeys.
Local Open Scope N_scope.

(** ** State *)
Record DetEntry := MkDetEntry {
  de_detection : Detection;
  de_binding : option Binding;
  de_manifest : option rstr;
  de_occupant : option Z;
  de_agent : option ProcId;
  de_in_mode : bool;
  de_hold : ComposerHold;
  de_turn : option TurnKey;
  de_hold_owner : option rstr;
  de_working_confirmed : bool;
}.
Record Panes := MkPanes {
  pn_detections : gmap PaneKey DetEntry;
  pn_ends : Ends;
}.
(** The entry with another hold, owner and turn, its verdict stamped again. *)
Definition with_hold (e : DetEntry) (hold : ComposerHold) (owner : option rstr) (turn : option TurnKey)
    : DetEntry :=
  MkDetEntry (stamped (de_detection e) (de_in_mode e) hold) (de_binding e) (de_manifest e) (de_occupant e)
    (de_agent e) (de_in_mode e) hold turn owner (de_working_confirmed e).
Definition put_entry (w : Panes) (pane : PaneKey) (e : DetEntry) : Panes :=
  MkPanes (<[pane := e]> (pn_detections w)) (pn_ends w).
Definition owned_by (e : DetEntry) (owner : rstr) : bool := bool_decide (de_hold_owner e = Some owner).

(** ** Operations of a delivery *)
Definition set_hold_owned (w : Panes) (pane : PaneKey) (owner : rstr)
    (change : ComposerHold → option ComposerHold) : Panes * bool :=
  match pn_detections w !! pane with
  | None => (w, false)
  | Some e =>
      if negb (owned_by e owner) then (w, false)
      else match change (de_hold e) with
      | None => (w, true)
      | Some hold =>
          if bool_decide (hold = de_hold e) then (w, true)
          else (put_entry w pane (with_hold e hold (de_hold_owner e) (de_turn e)), true)
      end
  end.
Definition latch_turn_started (w : Panes) (pane : PaneKey) (owner : rstr) (since_ms : N) : Panes * bool :=
  set_hold_owned w pane owner (λ hold, if is_waiting hold then Some (HoldTurnStarted since_ms) else None).

(** [Some] tells whether the turn's end was already there. *)
Definition bind_turn (w : Panes) (pane : PaneKey) (owner : rstr) (turn : TurnKey) (since_ms : N)
    : Panes * option bool :=
  match pn_detections w !! pane with
  | None => (w, None)
  | Some e =>
      if negb (owned_by e owner) then (w, None)
      else match de_agent e, de_manifest e with
      | Some agent, Some manifest =>
          if match de_turn e with Some t => bool_decide (t ≠ turn) | None => false end then (w, None)
          else match pin (pn_ends w) pane agent manifest turn with
          | (ends, false) => (MkPanes (pn_detections w) ends, None)
          | (ends, true) =>
              let hold := if is_waiting (de_hold e) then HoldTurnStarted since_ms else de_hold e in
              (put_entry (MkPanes (pn_detections w) ends) pane (with_hold e hold (de_hold_owner e) (Some turn)),
               Some (holds_end ends pane agent manifest turn))
          end
      | _, _ => (w, None)
      end
  end.

Definition claim_hold (w : Panes) (pane : PaneKey) (owner : rstr) (agent : option ProcId)
    (manifest : option rstr) : Panes * bool :=
  match pn_detections w !! pane, agent with
  | Some e, Some agent =>
      if bool_decide (de_agent e ≠ Some agent) || bool_decide (de_manifest e ≠ manifest) then (w, false)
      else
        let free :=
          match de_hold e, de_hold_owner e with
          | (HoldClear | HoldTurnStarted _), None => true
          | _, Some held => bool_decide (held = owner)
          | _, None => false
          end in
        if free then (put_entry w pane (with_hold e HoldStaged (Some owner) (de_turn e)), true) else (w, false)
  | _, _ => (w, false)
  end.
Definition release_unwritten_hold (w : Panes) (pane : PaneKey) (owner : rstr) (agent : ProcId)
    (manifest : rstr) : Panes * bool :=
  match pn_detections w !! pane with
  | Some e =>
      if bool_decide (de_hold e = HoldStaged) && owned_by e owner && bool_decide (de_agent e = Some agent) &&
         bool_decide (de_manifest e = Some manifest)
      then (put_entry w pane (with_hold e HoldClear None (de_turn e)), true) else (w, false)
  | None => (w, false)
  end.
Definition clear_hold_owner (w : Panes) (pane : PaneKey) (owner : rstr) : Panes * bool :=
  match pn_detections w !! pane with
  | Some e =>
      if owned_by e owner then (put_entry w pane (with_hold e HoldClear None None), true) else (w, false)
  | None => (w, false)
  end.
Definition composer_is_held (w : Panes) (pane : PaneKey) : bool :=
  match pn_detections w !! pane with
  | None => false
  | Some e =>
      match de_hold e, de_hold_owner e with
      | (HoldStaged | HoldStagedDuringTurn), _ => true
      | HoldTurnStarted _, Some _ => true
      | _, _ =>
          bool_decide (det_composer_semantic (de_detection e) = Some SemHumanInput) ||
          bool_decide (det_state (de_detection e) = SIdleWithInput)
      end
  end.

(** ** Observations *)
Inductive Occupant := OccLeader (leader : Z) | OccGone | OccUnprovable.
#[export] Instance Occupant_eq_dec : EqDecision Occupant.
Proof. solve_decision. Defined.
Inductive BindingObservation := ObsBound (b : Binding) | ObsNotVendor | ObsGone | ObsUnprovable.
#[export] Instance BindingObservation_eq_dec : EqDecision BindingObservation.
Proof. solve_decision. Defined.
(** [lookup] is what [admitted_binding_observation] answers for a live pane.  The
    fault that tests inject here is left out. *)
Definition pane_binding_observation (dead : bool) (occupant : Occupant) (lookup : BindingObservation)
    : BindingObservation :=
  if dead || bool_decide (occupant = OccGone) then ObsGone
  else if bool_decide (occupant = OccUnprovable) then ObsUnprovable
  else lookup.
Definition composer_hold_carried_entry (prior : option DetEntry) (admitted : option ProcId)
    (manifest_id : option rstr) (dead : bool) (seen : Occupant) : option DetEntry :=
  e ← prior;
  if match admitted with
     | Some a => bool_decide (de_agent e = Some a) && bool_decide (de_manifest e = manifest_id)
     | None => refuses (de_hold e) && negb dead && bool_decide (seen ≠ OccGone)
     end
  then Some e else None.

(** [None] is the panic of [agent.expect]. *)
Definition settle_turn (ends : Ends) (pane : PaneKey) (agent : option ProcId) (manifest : option rstr)
    (turn : option TurnKey) (hold : ComposerHold) (d : Detection)
    : option (Ends * ComposerHold * bool * bool) :=
  ended ← match turn, agent with
          | Some t, Some a => Some (Some (holds_end ends pane a (default [] manifest) t))
          | Some _, None => None
          | None, _ => Some None
          end;
  let next := hold_advance hold d ended in
  let ends :=
    match turn, agent, manifest with
    | Some t, Some a, Some id =>
        match next with
        | HoldTurnStarted _ => ends
        | HoldClear => if bool_decide (ended = Some true) then (take_end ends pane a id t).1
                       else (retire ends pane a id t).1
        | _ => (retire ends pane a id t).1
        end
    | _, _, _ => ends
    end in
  let waiting := bool_decide (ended = Some false) &&
                 match next with HoldTurnStarted _ => true | _ => false end in
  let stranded := waiting &&
    match turn, agent, manifest with
    | Some _, Some a, Some id => evidence_lost ends pane a id
    | _, _, _ => false
    end in
  let quiet := waiting && negb (det_stale d) && bool_decide (det_state d = SIdle) &&
    reads d SensorScreen SIdle && bool_decide (turn_running_at d = None) &&
    screen_proves_write_safe_composer d in
  let '(ends, missing) :=
    if quiet then
      match turn, agent, manifest with
      | Some t, Some a, Some id => reserve_missing_end_diagnostic ends pane a id t
      | _, _, _ => (ends, false)
      end
    else (ends, false) in
  Some (ends, next, stranded, missing).

(** What one observation read.  [ob_row] is [None] for a pane the watcher no
    longer lists; [ob_rule] is the manifest the rules bind, [ob_capture_failed]
    says that the screen could not be captured, [ob_leader_after] is the leader
    read again then, [ob_capture_changed] that the binding changed during the
    capture, and [ob_fused] the verdict of the sensors. *)
Record Observation := MkObservation {
  ob_row : option PaneRow;
  ob_seen : Occupant;
  ob_lookup : BindingObservation;
  ob_rule : option rstr;
  ob_capture_failed : bool;
  ob_leader_after : option Z;
  ob_capture_changed : bool;
  ob_fused : Detection;
  ob_unknown_reason : option UnknownReason;
  ob_working_confirmed : bool;
  ob_output_settled : bool;
}.
Definition blank_detection (state : AgentState) (decided_by : rstr) : Detection :=
  MkDetection state [] false decided_by false false None None None.
Definition set_stale (d : Detection) : Detection :=
  MkDetection (det_state d) (det_readings d) (det_disagreement d) (det_decided_by d) true
    (det_write_ready d) (det_write_block d) (det_composer_semantic d) (det_unknown_reason d).
Definition set_unknown_reason (d : Detection) (r : option UnknownReason) : Detection :=
  MkDetection (det_state d) (det_readings d) (det_disagreement d) (det_decided_by d) (det_stale d)
    (det_write_ready d) (det_write_block d) (det_composer_semantic d) r.
Definition with_detection (e : DetEntry) (d : Detection) (confirmed : bool) : DetEntry :=
  MkDetEntry d (de_binding e) (de_manifest e) (de_occupant e) (de_agent e) (de_in_mode e) (de_hold e)
    (de_turn e) (de_hold_owner e) confirmed.

(** The entry kept after a failed capture, if it describes this occupant. *)
Definition retain_stale (w : Panes) (pane : PaneKey) (in_mode : bool) (occupant : option Z)
    (manifest : option rstr) : option Panes :=
  e ← pn_detections w !! pane;
  if bool_decide (is_Some occupant) && bool_decide (de_occupant e = occupant) &&
     bool_decide (de_manifest e = manifest)
  then Some (put_entry w pane (with_detection e (stamped (set_stale (de_detection e)) in_mode (de_hold e)) false))
  else None.

Definition binding_of (b : BindingObservation) : option Binding :=
  match b with ObsBound b => Some b | _ => None end.
Definition occupant_leader (o : Occupant) : option Z :=
  match o with OccLeader leader => Some leader | _ => None end.
(** A pane in copy mode keeps its verdict and its hold. *)
Definition observe_in_mode (w : Panes) (pane : PaneKey) (o : Observation) (b : BindingObservation)
    (manifest_id : option rstr) : Panes :=
  let unobservable := bool_decide (b = ObsUnprovable) in
  let refuse d := if unobservable then occupant_unprovable d else d in
  match pn_detections w !! pane with
  | Some e =>
      let d := refuse (stamped (de_detection e) true (de_hold e)) in
      put_entry w pane
        (if unobservable
         then MkDetEntry d (de_binding e) (de_manifest e) (de_occupant e) (de_agent e) true (de_hold e)
                (de_turn e) (de_hold_owner e) (de_working_confirmed e)
         else MkDetEntry d (binding_of b) manifest_id (occupant_leader (ob_seen o))
                (fb_agent <$> binding_of b) true (de_hold e) (de_turn e) (de_hold_owner e)
                (de_working_confirmed e))
  | None =>
      put_entry w pane
        (MkDetEntry (refuse (stamped (blank_detection SUnknown (str "pane_in_mode")) true HoldClear))
           (binding_of b) manifest_id (occupant_leader (ob_seen o)) (fb_agent <$> binding_of b) true
           HoldClear None None false)
  end.

(** A field of the frozen entry, or what was read just now. *)
Definition kept {A} (frozen : option DetEntry) (f : DetEntry → A) (fresh : A) : A :=
  match frozen with Some e => f e | None => fresh end.
(** Nobody was proven in the pane: the lookup failed, or it found no agent while
    something is held. *)
Definition identity_unproven (prior : option DetEntry) (b : BindingObservation) : bool :=
  bool_decide (b = ObsUnprovable) ||
  (bool_decide (binding_of b = None) && match prior with Some e => refuses (de_hold e) | None => false end).
(** The entry an observation that did not answer leaves as it is. *)
Definition frozen_entry (prior : option DetEntry) (b : BindingObservation) (dead : bool) (seen : Occupant)
    : option DetEntry :=
  if bool_decide (b = ObsUnprovable) ||
     (identity_unproven prior b && negb dead && bool_decide (seen ≠ OccGone))
  then prior else None.
Definition fused_verdict (o : Observation) (row : PaneRow) : Detection :=
  if row_dead row then blank_detection SDead (str "pane_dead")
  else if ob_capture_changed o then refused (ob_fused o) (str "binding_changed_during_capture")
  else ob_fused o.
(** The turn ends, the hold, whether it is stranded, its turn and its owner. *)
Definition settle_observation (w : Panes) (pane : PaneKey) (o : Observation) (row : PaneRow)
    (b : BindingObservation) (manifest_id : option rstr)
    : option (Ends * ComposerHold * bool * option TurnKey * option rstr) :=
  let prior := pn_detections w !! pane in
  match frozen_entry prior b (row_dead row) (ob_seen o) with
  | Some e => Some (pn_ends w, de_hold e, false, de_turn e, de_hold_owner e)
  | None =>
      let d := fused_verdict o row in
      let admitted := fb_agent <$> binding_of b in
      let carried := composer_hold_carried_entry prior admitted manifest_id (row_dead row) (ob_seen o) in
      let base_hold := default HoldClear (de_hold <$> carried) in
      let turn := carried ≫= de_turn in
      let hold_owner := carried ≫= de_hold_owner in
      let base_hold := if ob_output_settled o && bool_decide (hold_owner = None)
                       then release_after_settled_visible_empty base_hold d else base_hold in
      match settle_turn (pn_ends w) pane admitted manifest_id turn base_hold d with
      | Some (ends, hold, stranded, _) =>
          Some (ends, hold, stranded, match hold with HoldTurnStarted _ => turn | _ => None end,
                match hold with HoldClear => None | _ => hold_owner end)
      | None => None
      end
  end.
(** The transaction of a full observation. *)
Definition observe_fused (w : Panes) (pane : PaneKey) (o : Observation) (row : PaneRow)
    (b : BindingObservation) (manifest_id : option rstr) : option Panes :=
  let prior := pn_detections w !! pane in
  let frozen := frozen_entry prior b (row_dead row) (ob_seen o) in
  match settle_observation w pane o row b manifest_id with
  | None => None
  | Some (ends, hold, stranded, turn, owner) =>
      let d := stamped (fused_verdict o row) (row_in_mode row) hold in
      let d := if identity_unproven prior b then occupant_unprovable d
               else if stranded then refused d (str "turn_evidence_lost") else d in
      let d := if bool_decide (det_state d = SUnknown) then set_unknown_reason d (ob_unknown_reason o) else d in
      Some (put_entry (MkPanes (pn_detections w) ends) pane
        (MkDetEntry d (kept frozen de_binding (binding_of b)) (kept frozen de_manifest manifest_id)
           (kept frozen de_occupant (occupant_leader (ob_seen o)))
           (kept frozen de_agent (fb_agent <$> binding_of b)) (row_in_mode row) hold turn owner
           (ob_working_confirmed o)))
  end.

Definition observe_pane (w : Panes) (pane : PaneKey) (o : Observation) : option Panes :=
  match ob_row o with
  | None => Some (MkPanes (delete pane (pn_detections w)) (pn_ends w))
  | Some row =>
      let b := pane_binding_observation (row_dead row) (ob_seen o) (ob_lookup o) in
      let manifest_id := match ob_rule o with Some id => Some id | None => fb_manifest <$> binding_of b end in
      if negb (row_dead row) && row_in_mode row then Some (observe_in_mode w pane o b manifest_id)
      else
        match (if ob_capture_failed o && negb (row_dead row)
               then retain_stale w pane (row_in_mode row) (ob_leader_after o) manifest_id else None) with
        | Some w => Some w
        | None => observe_fused w pane o row b manifest_id
        end
  end.

(** ** Everything that touches a pane's barrier *)
Inductive PaneOp :=
| PaneClaim (owner : rstr) (agent : option ProcId) (manifest : option rstr)
| PaneReleaseUnwritten (owner : rstr) (agent : ProcId) (manifest : rstr)
| PaneClear (owner : rstr)
| PaneTurnStarted (owner : rstr) (since_ms : N)
| PaneConfirm (owner : rstr)
| PaneBindTurn (owner : rstr) (turn : TurnKey) (since_ms : N)
| PaneTurnEnd (agent : ProcId) (manifest : rstr) (turn : TurnKey)
| PaneObserve (o : Observation)
| PaneRetire.
(** [PaneConfirm] is the ownership check of an unkeyed confirmation, [PaneTurnEnd]
    an authenticated end, [PaneRetire] is [retire_pane_process_trust]. *)
Definition pane_step (w : Panes) (pane : PaneKey) (op : PaneOp) : option Panes :=
  match op with
  | PaneClaim owner agent manifest => Some (claim_hold w pane owner agent manifest).1
  | PaneReleaseUnwritten owner agent manifest => Some (release_unwritten_hold w pane owner agent manifest).1
  | PaneClear owner => Some (clear_hold_owner w pane owner).1
  | PaneTurnStarted owner since_ms => Some (latch_turn_started w pane owner since_ms).1
  | PaneConfirm owner => Some (set_hold_owned w pane owner Some).1
  | PaneBindTurn owner turn since_ms => Some (bind_turn w pane owner turn since_ms).1
  | PaneTurnEnd agent manifest turn =>
      Some (MkPanes (pn_detections w) (record (pn_ends w) pane agent manifest turn))
  | PaneObserve o => observe_pane w pane o
  | PaneRetire => Some (MkPanes (delete pane (pn_detections w)) (forget (pn_ends w) pane))
  end.
Fixpoint pane_run (w : Panes) (ops : list (PaneKey * PaneOp)) : option Panes :=
  match ops with
  | [] => Some w
  | (pane, op) :: rest => w ← pane_step w pane op; pane_run w rest
  end.
Definition no_panes : Panes := MkPanes ∅ ∅.
Definition owner_of (w : Panes) (pane : PaneKey) : option rstr := pn_detections w !! pane ≫= de_hold_owner.
