(* ===== verification/ComposerProps.v ===== *)
(** * Who may hold a composer

    The barrier of [Composer.v]: it has one owner at a time, who keeps it until it
    releases it itself or an observation proves that the agent or its turn is over.
    No cached verdict allows a write into a held composer, and an observation in
    doubt changes no barrier.  Two closed runs show what the code does beyond its
    own comments: a mode hands a hold to the next agent, and the refusal of a
    capture whose process changed is lost. *)
From S2P Require Import Prelude Text Identity Ledger Notification AttentionRegister Detection.
From S2P Require Import NotificationAdapter DeliveryGate TurnKeys Composer.
Local Open Scope N_scope.

(** ** Observations never panic *)
Definition observed_binding (o : Observation) (row : PaneRow) : BindingObservation :=
  pane_binding_observation (row_dead row) (ob_seen o) (ob_lookup o).
Definition observed_manifest (o : Observation) (row : PaneRow) : option rstr :=
  match ob_rule o with
  | Some id => Some id
  | None => fb_manifest <$> binding_of (observed_binding o row)
  end.
Lemma carried_Some prior a m dead seen e :
  composer_hold_carried_entry prior a m dead seen = Some e →
  prior = Some e ∧
  match a with
  | Some a => de_agent e = Some a ∧ de_manifest e = m
  | None => refuses (de_hold e) = true ∧ dead = false ∧ seen ≠ OccGone
  end.
Proof.
  unfold composer_hold_carried_entry. destruct prior as [x|]; [|done]. cbn.
  destruct (match a with Some _ => _ | None => _ end) eqn:E; [|done]. intros [= ->]. split; [done|].
  destruct a; rewrite ?andb_true_iff, ?bool_decide_eq_true, ?negb_true_iff in E; tauto.
Qed.
Lemma settle_turn_Some ends pane a m turn hold d :
  (turn = None ∨ a ≠ None) → settle_turn ends pane a m turn hold d ≠ None.
Proof.
  intros H. unfold settle_turn. destruct turn as [t|], a as [a|]; cbn; try (by destruct H);
    by case_match.
Qed.
Lemma carried_unfrozen prior b m dead seen e :
  frozen_entry prior b dead seen = None →
  composer_hold_carried_entry prior (fb_agent <$> binding_of b) m dead seen = Some e →
  prior = Some e ∧ ∃ b', b = ObsBound b' ∧ de_agent e = Some (fb_agent b') ∧ de_manifest e = m.
Proof.
  intros Hf [-> Hc]%carried_Some. split; [done|]. destruct b as [b| | |]; cbn in Hc; [naive_solver|..];
    destruct Hc as (Hr & -> & Hs); unfold frozen_entry, identity_unproven in Hf; cbn in Hf; rewrite Hr in Hf;
    rewrite (bool_decide_eq_true_2 (seen ≠ OccGone)) in Hf by done; by cbn in Hf.
Qed.
Lemma settle_observation_total w pane o row b m : settle_observation w pane o row b m ≠ None.
Proof.
  unfold settle_observation. destruct (frozen_entry _ _ _ _) eqn:Hf; [done|].
  destruct (settle_turn _ _ _ _ _ _ _) as [[[[ends h] st] mi]|] eqn:E; [done|].
  apply settle_turn_Some in E; [done|].
  destruct (composer_hold_carried_entry _ _ _ _ _) as [e|] eqn:Hc; [|by left].
  destruct (carried_unfrozen _ _ _ _ _ _ Hf Hc) as (_ & b' & -> & _). by right.
Qed.
Lemma observe_fused_total w pane o row b m : observe_fused w pane o row b m ≠ None.
Proof.
  unfold observe_fused. destruct (settle_observation _ _ _ _ _ _) as [[[[[ends h] st] t] ow]|] eqn:E; [done|].
  by apply settle_observation_total in E.
Qed.
Lemma pane_step_total w pane op : pane_step w pane op ≠ None.
Proof.
  destruct op; try done. cbn. unfold observe_pane. destruct (ob_row o) as [row|]; [|done].
  destruct (negb (row_dead row) && row_in_mode row); [done|].
  case_match; [done|]. apply observe_fused_total.
Qed.

(** ** Owned holds *)
(** An owned barrier holds something. *)
Definition owned_ok (w : Panes) : Prop :=
  ∀ pane e, pn_detections w !! pane = Some e → de_hold_owner e ≠ None → de_hold e ≠ HoldClear.
Lemma owned_ok_put w w0 pane e :
  owned_ok w → pn_detections w0 = pn_detections w → (de_hold_owner e ≠ None → de_hold e ≠ HoldClear) →
  owned_ok (put_entry w0 pane e).
Proof.
  intros Hw H0 He pane' e'. cbn. rewrite H0. destruct (decide (pane = pane')) as [<- | Hne].
  - rewrite lookup_insert_eq. intros [= <-]. exact He.
  - rewrite lookup_insert_ne by done. apply Hw.
Qed.
Lemma owned_ok_delete w pane ends : owned_ok w → owned_ok (MkPanes (delete pane (pn_detections w)) ends).
Proof. intros Hw pane' e'. cbn. intros [_ H]%lookup_delete_Some. by apply (Hw pane'). Qed.

(** ** Reasons for a release *)
(** The turn the hold waited on is over: nothing reads it running, the screen
    shows a safe composer without a draft, and its own end is stored, if its key
    is known. *)
Record turn_over (w : Panes) (pane : PaneKey) (e : DetEntry) (d : Detection) : Prop := {
  to_started : ∃ since, de_hold e = HoldTurnStarted since;
  to_quiet : Forall (λ r, sr_state r ≠ SWorking) (det_readings d);
  to_empty : input_seen d = false;
  to_screen : screen_proves_write_safe_composer d = true;
  to_ended :
    match de_turn e with
    | Some t => ∃ a, de_agent e = Some a ∧ holds_end (pn_ends w) pane a (default [] (de_manifest e)) t = true
    | None => det_state d = SIdle
    end;
}.
(** Another agent, or none, is in the pane. *)
Definition agent_over (e : DetEntry) (o : Observation) (row : PaneRow) : Prop :=
  match observed_binding o row with
  | ObsGone => True
  | ObsBound b => de_agent e ≠ Some (fb_agent b) ∨ de_manifest e ≠ observed_manifest o row
  | _ => False
  end.
Definition released_by (w : Panes) (pane : PaneKey) (e : DetEntry) (op : PaneOp) : Prop :=
  match op with
  | PaneReleaseUnwritten owner agent manifest =>
      de_hold_owner e = Some owner ∧ de_hold e = HoldStaged ∧ de_agent e = Some agent ∧ de_manifest e = Some manifest
  | PaneClear owner => de_hold_owner e = Some owner
  | PaneRetire => True
  | PaneObserve o =>
      match ob_row o with
      | None => True
      | Some row => agent_over e o row ∨ det_state (fused_verdict o row) = SDead ∨ turn_over w pane e (fused_verdict o row)
      end
  | _ => False
  end.

Lemma settled_owner w pane o row e ends h st t ow owner :
  let b := observed_binding o row in
  owned_ok w → pn_detections w !! pane = Some e → de_hold_owner e = Some owner →
  settle_observation w pane o row b (observed_manifest o row) = Some (ends, h, st, t, ow) →
  (ow = Some owner ∧ h ≠ HoldClear) ∨
  (ow = None ∧ (agent_over e o row ∨ det_state (fused_verdict o row) = SDead ∨
                turn_over w pane e (fused_verdict o row))).
Proof.
  intros b Hw Hp Ho. assert (de_hold e ≠ HoldClear) as Hh by (apply (Hw pane); [done|by rewrite Ho]).
  unfold settle_observation. rewrite Hp. destruct (frozen_entry (Some e) b (row_dead row) (ob_seen o)) as [f|] eqn:Hf.
  { unfold frozen_entry in Hf. case_match; [|done]. injection Hf as <-. intros [= <- <- <- <- <-]. by left. }
  destruct (composer_hold_carried_entry _ _ _ _ _) as [c|] eqn:Hc.
  - destruct (carried_unfrozen _ _ _ _ _ _ Hf Hc) as ([= <-] & b' & Hb & Ha & Hm). cbn [mbind option_bind fmap option_fmap option_map default from_option].
    rewrite Ho. rewrite (bool_decide_eq_false_2 (Some owner = None)) by done. rewrite andb_false_r.
    destruct (settle_turn _ _ _ _ _ _ _) as [[[[ends' h'] st'] mi]|] eqn:E; [|done].
    intros [= <- <- <- <- <-].
    assert (∃ ended, h' = hold_advance (de_hold e) (fused_verdict o row) ended ∧
      match de_turn e with
      | Some t => ended = Some (holds_end (pn_ends w) pane (fb_agent b') (default [] (de_manifest e)) t)
      | None => ended = None
      end) as (ended & -> & Hended).
    { unfold settle_turn in E. rewrite Hb in E. cbn in E. rewrite <- Hm in E.
      destruct (de_turn e) as [tk|]; cbn in E; repeat case_match; simplify_eq; by eexists. }
    destruct (hold_advance (de_hold e) (fused_verdict o row) ended) eqn:Eh; [|by left..].
    right. split; [done|]. apply hold_release in Eh as [Hd|(Hi & [Hcl|(Hs & Hq & Hsc & He)])]; [by right; left|done|].
    right; right. split; try done. destruct (de_turn e) as [tk|]; subst ended; [|done].
    exists (fb_agent b'). by split.
  - cbn [mbind option_bind]. intros E. right.
    destruct (settle_turn _ _ _ _ _ _ _) as [[[[ends' h'] st'] mi]|]; [|done].
    assert (agent_over e o row) as Hover.
    { unfold agent_over. fold b. destruct b as [b'| | |] eqn:Hb.
      - unfold composer_hold_carried_entry in Hc. cbn in Hc.
        destruct (decide (de_agent e = Some (fb_agent b'))) as [Ha|Ha]; [right|by left]. intros Hm.
        by rewrite !bool_decide_eq_true_2 in Hc.
      - exfalso. unfold b, observed_binding, pane_binding_observation in Hb.
        unfold frozen_entry, identity_unproven in Hf. cbn in Hf.
        unfold refuses in Hf. rewrite (bool_decide_eq_false_2 (de_hold e = HoldClear)) in Hf by done.
        destruct (row_dead row); [done|]. destruct (decide (ob_seen o = OccGone)) as [Hg|Hg].
        + by rewrite (bool_decide_eq_true_2 (ob_seen o = OccGone)) in Hb.
        + by rewrite (bool_decide_eq_true_2 (ob_seen o ≠ OccGone)) in Hf.
      - done.
      - by unfold frozen_entry in Hf. }
    split; [|by left]. repeat case_match; naive_solver.
Qed.

(** An unowned entry stays unowned under an observation. *)
Lemma settled_unowned w pane o row b m e ends h st t ow :
  pn_detections w !! pane = e → (e ≫= de_hold_owner) = None →
  settle_observation w pane o row b m = Some (ends, h, st, t, ow) → ow = None.
Proof.
  intros Hp Ho. unfold settle_observation. rewrite Hp.
  destruct (frozen_entry e b (row_dead row) (ob_seen o)) as [f|] eqn:Hf.
  { unfold frozen_entry in Hf. case_match; [|done]. rewrite Hf in Ho. intros [= <- <- <- <- <-]. exact Ho. }
  assert (composer_hold_carried_entry e (fb_agent <$> binding_of b) m (row_dead row) (ob_seen o) ≫= de_hold_owner = None) as ->.
  { destruct (composer_hold_carried_entry _ _ _ _ _) as [c|] eqn:Hc; [|done].
    apply carried_Some in Hc as [He _]. by rewrite He in Ho. }
  destruct (settle_turn _ _ _ _ _ _ _) as [[[[ends' h'] st'] mi]|]; [|done]. intros [= <- <- <- <- <-].
  by destruct h'.
Qed.

(** What one step does to the owner of its pane. *)
Definition owner_step (w : Panes) (pane : PaneKey) (op : PaneOp) (w' : Panes) : Prop :=
  match pn_detections w !! pane with
  | Some e =>
      match de_hold_owner e with
      | Some owner =>
          owner_of w' pane = Some owner ∨ (owner_of w' pane = None ∧ released_by w pane e op)
      | None =>
          owner_of w' pane = None ∨
          ∃ owner agent manifest, op = PaneClaim owner (Some agent) manifest ∧ owner_of w' pane = Some owner ∧
            is_waiting (de_hold e) = false ∧ de_agent e = Some agent ∧ de_manifest e = manifest
      end
  | None => owner_of w' pane = None
  end ∧
  ∀ pane', pane' ≠ pane → pn_detections w' !! pane' = pn_detections w !! pane'.

(** A step that leaves the table of entries, or writes the entry of its pane. *)
Lemma owner_step_same w w0 pane op : pn_detections w0 = pn_detections w → owner_step w pane op w0.
Proof.
  intros H0. split; [|by rewrite H0]. unfold owner_of. rewrite H0. destruct (pn_detections w !! pane) as [e|]; [|done]. cbn.
  destruct (de_hold_owner e); by left.
Qed.
Lemma owner_of_put w pane e : owner_of (put_entry w pane e) pane = de_hold_owner e.
Proof. unfold owner_of. cbn. by rewrite lookup_insert_eq. Qed.
Lemma owner_step_put w w0 pane op e e' :
  pn_detections w0 = pn_detections w → pn_detections w !! pane = Some e →
  match de_hold_owner e with
  | Some owner => de_hold_owner e' = Some owner ∨ (de_hold_owner e' = None ∧ released_by w pane e op)
  | None =>
      de_hold_owner e' = None ∨
      ∃ owner agent manifest, op = PaneClaim owner (Some agent) manifest ∧ de_hold_owner e' = Some owner ∧
        is_waiting (de_hold e) = false ∧ de_agent e = Some agent ∧ de_manifest e = manifest
  end →
  owner_step w pane op (put_entry w0 pane e').
Proof.
  intros H0 Hp H. unfold owner_step. rewrite Hp, owner_of_put. split; [exact H|].
  intros pane' Hne. cbn. rewrite H0. by rewrite lookup_insert_ne.
Qed.
Lemma owner_step_kept w w0 pane op e e' :
  pn_detections w0 = pn_detections w → pn_detections w !! pane = Some e → de_hold_owner e' = de_hold_owner e →
  owner_step w pane op (put_entry w0 pane e').
Proof. intros H0 Hp H. apply (owner_step_put _ _ _ _ e); [done|done|]. rewrite H. destruct (de_hold_owner e); by left. Qed.
Lemma owner_step_delete w pane op ends :
  (∀ e, pn_detections w !! pane = Some e → released_by w pane e op) →
  owner_step w pane op (MkPanes (delete pane (pn_detections w)) ends).
Proof.
  intros H. unfold owner_step, owner_of. cbn. rewrite lookup_delete_eq. cbn. split.
  - destruct (pn_detections w !! pane) as [e|]; [|done]. destruct (de_hold_owner e); [right; split; [done|by apply H]|by left].
  - intros pane' Hne. by rewrite lookup_delete_ne.
Qed.

Lemma set_hold_step w pane op owner change :
  (∀ h h', change h = Some h' → h' ≠ HoldClear ∨ h' = h) → owned_ok w →
  owned_ok (set_hold_owned w pane owner change).1 ∧ owner_step w pane op (set_hold_owned w pane owner change).1.
Proof.
  intros Hc Hw. unfold set_hold_owned.
  destruct (pn_detections w !! pane) as [e|] eqn:Hp; [|split; [done|by apply owner_step_same]].
  destruct (owned_by e owner); cbn [negb]; [|split; [done|by apply owner_step_same]].
  destruct (change (de_hold e)) as [h|] eqn:E; [|split; [done|by apply owner_step_same]].
  case_bool_decide as Hne; [split; [done|by apply owner_step_same]|]. split.
  - apply (owned_ok_put w); [done|done|]. intros _. cbn. by destruct (Hc _ _ E).
  - by apply (owner_step_kept _ _ _ _ e).
Qed.
Lemma claim_step w pane owner agent manifest :
  owned_ok w →
  owned_ok (claim_hold w pane owner agent manifest).1 ∧
  owner_step w pane (PaneClaim owner agent manifest) (claim_hold w pane owner agent manifest).1.
Proof.
  intros Hw. unfold claim_hold.
  destruct (pn_detections w !! pane) as [e|] eqn:Hp; [|split; [done|by apply owner_step_same]].
  destruct agent as [agent|]; [|split; [done|by apply owner_step_same]].
  destruct (bool_decide (de_agent e ≠ Some agent) || bool_decide (de_manifest e ≠ manifest)) eqn:E;
    [split; [done|by apply owner_step_same]|].
  apply orb_false_iff in E as [Ha%bool_decide_eq_false Hm%bool_decide_eq_false].
  apply dec_stable in Ha, Hm.
  destruct (match de_hold e with HoldClear => _ | _ => _ end) eqn:Hf; [|split; [done|by apply owner_step_same]].
  split; [by apply (owned_ok_put w)|]. apply (owner_step_put _ _ _ _ e); [done|done|]. cbn.
  destruct (de_hold_owner e) as [held|] eqn:Ho.
  - left. destruct (de_hold e); by apply bool_decide_eq_true in Hf as ->.
  - right. exists owner, agent, manifest. split_and!; try done. by destruct (de_hold e).
Qed.
Lemma release_step w pane owner agent manifest :
  owned_ok w →
  owned_ok (release_unwritten_hold w pane owner agent manifest).1 ∧
  owner_step w pane (PaneReleaseUnwritten owner agent manifest) (release_unwritten_hold w pane owner agent manifest).1.
Proof.
  intros Hw. unfold release_unwritten_hold.
  destruct (pn_detections w !! pane) as [e|] eqn:Hp; [|split; [done|by apply owner_step_same]].
  destruct (bool_decide (de_hold e = HoldStaged) && _ && _ && _) eqn:E; [|split; [done|by apply owner_step_same]].
  unfold owned_by in E. rewrite !andb_true_iff, !bool_decide_eq_true in E. destruct E as [[[Hh Ho] Ha] Hm].
  split; [by apply (owned_ok_put w)|]. apply (owner_step_put _ _ _ _ e); [done|done|]. rewrite Ho. by right.
Qed.
Lemma clear_step w pane owner :
  owned_ok w →
  owned_ok (clear_hold_owner w pane owner).1 ∧ owner_step w pane (PaneClear owner) (clear_hold_owner w pane owner).1.
Proof.
  intros Hw. unfold clear_hold_owner.
  destruct (pn_detections w !! pane) as [e|] eqn:Hp; [|split; [done|by apply owner_step_same]].
  destruct (owned_by e owner) eqn:E; [|split; [done|by apply owner_step_same]]. apply bool_decide_eq_true in E.
  split; [by apply (owned_ok_put w)|]. apply (owner_step_put _ _ _ _ e); [done|done|]. rewrite E. by right.
Qed.
Lemma bind_step w pane op owner turn since :
  owned_ok w →
  owned_ok (bind_turn w pane owner turn since).1 ∧ owner_step w pane op (bind_turn w pane owner turn since).1.
Proof.
  intros Hw. unfold bind_turn.
  destruct (pn_detections w !! pane) as [e|] eqn:Hp; [|split; [done|by apply owner_step_same]].
  destruct (owned_by e owner) eqn:Ho; cbn [negb]; [|split; [done|by apply owner_step_same]].
  apply bool_decide_eq_true in Ho.
  destruct (de_agent e), (de_manifest e) as [m|]; try (split; [done|by apply owner_step_same]).
  case_match; [split; [done|by apply owner_step_same]|].
  destruct (pin _ _ _ _ _) as [ends []]; [|split; [done|by apply owner_step_same]]. split.
  - apply (owned_ok_put w); [done|done|]. intros _. cbn. destruct (is_waiting (de_hold e)); [done|].
    apply (Hw pane); [done|by rewrite Ho].
  - by apply (owner_step_kept _ _ _ _ e).
Qed.

Lemma in_mode_step w pane o b m :
  owned_ok w →
  owned_ok (observe_in_mode w pane o b m) ∧ owner_step w pane (PaneObserve o) (observe_in_mode w pane o b m).
Proof.
  intros Hw. unfold observe_in_mode. destruct (pn_detections w !! pane) as [e|] eqn:Hp.
  - split.
    + apply (owned_ok_put w); [done|done|]. destruct (bool_decide (b = ObsUnprovable)); apply (Hw pane e Hp).
    + apply (owner_step_kept _ _ _ _ e); [done|done|]. by destruct (bool_decide (b = ObsUnprovable)).
  - split; [by apply (owned_ok_put w)|]. unfold owner_step. rewrite Hp, owner_of_put. split; [done|].
    intros pane' Hne. cbn. by rewrite lookup_insert_ne.
Qed.
Lemma retain_step w pane o in_mode leader m w' :
  owned_ok w → retain_stale w pane in_mode leader m = Some w' →
  owned_ok w' ∧ owner_step w pane (PaneObserve o) w'.
Proof.
  intros Hw. unfold retain_stale. destruct (pn_detections w !! pane) as [e|] eqn:Hp; [|done].
  cbn [mbind option_bind]. case_match; [|done]. intros [= <-]. split.
  - apply (owned_ok_put w); [done|done|]. apply (Hw pane e Hp).
  - by apply (owner_step_kept _ _ _ _ e).
Qed.
Lemma fused_step w pane o row w' :
  owned_ok w → ob_row o = Some row →
  observe_fused w pane o row (observed_binding o row) (observed_manifest o row) = Some w' →
  owned_ok w' ∧ owner_step w pane (PaneObserve o) w'.
Proof.
  intros Hw Hrow. unfold observe_fused.
  destruct (settle_observation w pane o row _ _) as [[[[[ends h] st] t] ow]|] eqn:E; [|done]. intros [= <-].
  destruct (pn_detections w !! pane) as [e|] eqn:Hp; [destruct (de_hold_owner e) as [owner|] eqn:Ho|].
  - destruct (settled_owner _ _ _ _ _ _ _ _ _ _ _ Hw Hp Ho E) as [[-> Hh]|[-> Hr]].
    + split; [by apply (owned_ok_put w)|]. apply (owner_step_put _ _ _ _ e); [done|done|]. rewrite Ho. by left.
    + split; [by apply (owned_ok_put w)|]. apply (owner_step_put _ _ _ _ e); [done|done|]. rewrite Ho. right.
      split; [done|]. cbn. by rewrite Hrow.
  - apply (settled_unowned _ _ _ _ _ _ _ _ _ _ _ _ Hp Ho) in E as ->. split; [by apply (owned_ok_put w)|].
    apply (owner_step_put _ _ _ _ e); [done|done|]. rewrite Ho. by left.
  - apply (settled_unowned _ _ _ _ _ _ _ _ _ _ _ _ Hp eq_refl) in E as ->. split; [by apply (owned_ok_put w)|].
    unfold owner_step. rewrite Hp, owner_of_put. split; [done|].
    intros pane' Hne. cbn. by rewrite lookup_insert_ne.
Qed.
Lemma pane_step_ok w pane op w' :
  owned_ok w → pane_step w pane op = Some w' → owned_ok w' ∧ owner_step w pane op w'.
Proof.
  intros Hw. destruct op as [owner a m|owner a m|owner|owner since|owner|owner turn since|a m turn|o|]; cbn [pane_step].
  - intros [= <-]. by apply claim_step.
  - intros [= <-]. by apply release_step.
  - intros [= <-]. by apply clear_step.
  - intros [= <-]. apply set_hold_step; [|done]. intros h h'. destruct (is_waiting h); [|done]. intros [= <-]. by left.
  - intros [= <-]. apply set_hold_step; [|done]. intros h h' [= <-]. by right.
  - intros [= <-]. by apply bind_step.
  - intros [= <-]. split; [done|by apply owner_step_same].
  - unfold observe_pane. destruct (ob_row o) as [row|] eqn:Hrow.
    + fold (observed_binding o row). fold (observed_manifest o row).
      destruct (negb (row_dead row) && row_in_mode row); [intros [= <-]; by apply in_mode_step|].
      case_match eqn:E.
      * case_match; [|done]. intros [= <-]. by eapply retain_step.
      * by apply fused_step.
    + intros [= <-]. split; [by apply owned_ok_delete|]. apply owner_step_delete. intros e _. cbn. by rewrite Hrow.
  - intros [= <-]. split; [by apply owned_ok_delete|]. by apply owner_step_delete.
Qed.
Lemma pane_run_ok ops w w' : owned_ok w → pane_run w ops = Some w' → owned_ok w'.
Proof.
  revert w. induction ops as [|[pane op] ops IH]; intros w Hw; cbn; [by intros [= <-]|].
  destruct (pane_step w pane op) as [w1|] eqn:E; [|done]. apply IH. by eapply pane_step_ok.
Qed.

(** [C6.] A composer has one owner.  Whatever deliveries, receipts, turn ends and
    observations come in whatever order, none of them panics, a step touches its
    own pane only, and the attempt that owns a composer keeps it until it releases
    it itself or an observation proves it free: the pane or its process is gone,
    another agent is bound, or the turn that took the text is over, by its own end
    where its key is known, with a safe composer on the screen.  A new owner comes
    only by claiming, for the agent and rules it proved, a composer nobody owns and
    in which no text is staged. *)
Theorem composer_has_one_owner ops pane op w :
  pane_run no_panes ops = Some w →
  ∃ w', pane_step w pane op = Some w' ∧ owner_step w pane op w'.
Proof.
  intros Hrun. destruct (pane_step w pane op) as [w'|] eqn:E; [|by apply pane_step_total in E].
  exists w'. split; [done|]. eapply pane_step_ok; [|done]. by eapply pane_run_ok; [|exact Hrun].
Qed.

(** ** Cached verdicts *)
Definition verdict_ok (e : DetEntry) : Prop :=
  det_write_ready (de_detection e) = true → write_evidence (de_detection e) (de_in_mode e) (de_hold e).
Definition verdicts_ok (w : Panes) : Prop := ∀ pane e, pn_detections w !! pane = Some e → verdict_ok e.
Lemma stamped_verdict d m h : det_write_ready (stamped d m h) = true → write_evidence (stamped d m h) m h.
Proof. intros H. apply ready_evidence. by rewrite stamped_again. Qed.
Lemma with_hold_verdict e h o t : verdict_ok (with_hold e h o t).
Proof. intros H. by apply stamped_verdict. Qed.
Lemma stale_not_ready d m h : det_write_ready (stamped (set_stale d) m h) = false.
Proof.
  destruct (det_write_ready (stamped (set_stale d) m h)) eqn:E; [|done].
  apply ready_evidence in E as []. done.
Qed.
Lemma reason_verdict d r m h : write_evidence d m h → write_evidence (set_unknown_reason d r) m h.
Proof. by intros []. Qed.

Lemma verdicts_put w w0 pane e :
  verdicts_ok w → pn_detections w0 = pn_detections w → verdict_ok e → verdicts_ok (put_entry w0 pane e).
Proof.
  intros Hw H0 He pane' e'. cbn. rewrite H0. intros [[_ <-] | [_ H]]%lookup_insert_Some; [done|by apply (Hw pane')].
Qed.
Lemma verdicts_delete w pane ends : verdicts_ok w → verdicts_ok (MkPanes (delete pane (pn_detections w)) ends).
Proof. intros Hw pane' e'. cbn. intros [_ H]%lookup_delete_Some. by apply (Hw pane'). Qed.
Lemma set_hold_verdicts w pane owner change : verdicts_ok w → verdicts_ok (set_hold_owned w pane owner change).1.
Proof.
  intros Hw. unfold set_hold_owned. repeat case_match; try done. by apply (verdicts_put w), with_hold_verdict.
Qed.
Lemma observe_verdicts w pane o w' : verdicts_ok w → observe_pane w pane o = Some w' → verdicts_ok w'.
Proof.
  intros Hw. unfold observe_pane. destruct (ob_row o) as [row|]; [|intros [= <-]; by apply verdicts_delete].
  destruct (negb (row_dead row) && row_in_mode row).
  - intros [= <-]. unfold observe_in_mode. destruct (pn_detections w !! pane); apply (verdicts_put w); try done;
      by destruct (bool_decide _).
  - case_match eqn:E.
    + case_match; [|done]. intros [= <-]. unfold retain_stale in E.
      destruct (pn_detections w !! pane) as [e|]; [|done]. cbn [mbind option_bind] in E.
      case_match; [|done]. injection E as <-. apply (verdicts_put w); [done|done|].
      intros H'. cbn in H'. by rewrite stale_not_ready in H'.
    + unfold observe_fused. destruct (settle_observation _ _ _ _ _ _) as [[[[[ends h] st] t] ow]|]; [|done].
      intros [= <-]. apply (verdicts_put w); [done|done|].
      set (d := stamped (fused_verdict o row) (row_in_mode row) h).
      assert (∀ d', (d' = d ∨ det_write_ready d' = false) →
        det_write_ready d' = true → write_evidence d' (row_in_mode row) h) as Hd.
      { intros d' [-> | Hn] Hr; [by apply stamped_verdict|congruence]. }
      unfold verdict_ok. cbn.
      assert (∀ d', (d' = d ∨ det_write_ready d' = false) →
        let d'' := if bool_decide (det_state d' = SUnknown) then set_unknown_reason d' (ob_unknown_reason o) else d' in
        det_write_ready d'' = true → write_evidence d'' (row_in_mode row) h) as Hu.
      { intros d' Hor. cbn. case_bool_decide; [|by apply Hd]. intros Hr. by apply reason_verdict, Hd. }
      apply Hu. destruct (identity_unproven _ _); [by right|]. destruct st; [by right|by left].
Qed.
Lemma pane_step_verdicts w pane op w' : verdicts_ok w → pane_step w pane op = Some w' → verdicts_ok w'.
Proof.
  intros Hw. destruct op as [owner a m|owner a m|owner|owner since|owner|owner turn since|a m turn|o|]; cbn [pane_step].
  - intros [= <-]. unfold claim_hold. repeat case_match; try done; by apply (verdicts_put w), with_hold_verdict.
  - intros [= <-]. unfold release_unwritten_hold. repeat case_match; try done; by apply (verdicts_put w), with_hold_verdict.
  - intros [= <-]. unfold clear_hold_owner. repeat case_match; try done; by apply (verdicts_put w), with_hold_verdict.
  - intros [= <-]. by apply set_hold_verdicts.
  - intros [= <-]. by apply set_hold_verdicts.
  - intros [= <-]. unfold bind_turn. repeat case_match; try done; by apply (verdicts_put w), with_hold_verdict.
  - by intros [= <-].
  - by apply observe_verdicts.
  - intros [= <-]. by apply verdicts_delete.
Qed.
Lemma pane_run_verdicts ops w w' : verdicts_ok w → pane_run w ops = Some w' → verdicts_ok w'.
Proof.
  revert w. induction ops as [|[pane op] ops IH]; intros w Hw; cbn; [by intros [= <-]|].
  destruct (pane_step w pane op) as [w1|] eqn:E; [|done]. apply IH. by eapply pane_step_verdicts.
Qed.

(** No cached verdict allows a write into a composer that may hold text:
    after any history, a pane reported ready is in no mode, its hold is clear, its
    evidence is fresh and positive, and the gate's own question finds the composer
    free. *)
Theorem ready_panes_are_free ops w pane e :
  pane_run no_panes ops = Some w → pn_detections w !! pane = Some e →
  det_write_ready (de_detection e) = true →
  write_evidence (de_detection e) (de_in_mode e) (de_hold e) ∧ composer_is_held w pane = false.
Proof.
  intros Hrun Hp Hr. assert (verdicts_ok w) as Hw by (by eapply pane_run_verdicts; [|exact Hrun]).
  assert (We := Hw _ _ Hp Hr). split; [exact We|]. unfold composer_is_held. rewrite Hp.
  destruct We as [_ Hh _ Hc Hs]. rewrite Hh. apply orb_false_iff. rewrite !bool_decide_eq_false.
  destruct (de_hold_owner e); split; (destruct Hc as [-> | ->] || destruct Hs as [[-> _] | [-> _]]); done.
Qed.

(** ** Doubt *)
(** Doubt settles nothing: an observation that could not prove who is in a
    live pane leaves its barrier, the attempt that owns it, the turn it waits on
    and the agent it belongs to as they were, records no turn end, and refuses the
    write. *)
Theorem doubt_freezes_the_hold w pane e o row :
  pn_detections w !! pane = Some e → ob_row o = Some row → row_dead row = false →
  ob_seen o ≠ OccGone → ob_seen o = OccUnprovable ∨ ob_lookup o = ObsUnprovable →
  ∃ w' e', observe_pane w pane o = Some w' ∧ pn_detections w' !! pane = Some e' ∧ pn_ends w' = pn_ends w ∧
    (de_hold e', de_hold_owner e', de_turn e', de_agent e', de_manifest e', de_binding e')
    = (de_hold e, de_hold_owner e, de_turn e, de_agent e, de_manifest e, de_binding e) ∧
    det_write_ready (de_detection e') = false.
Proof.
  intros Hp Hrow Hd Hs Hdoubt. unfold observe_pane. rewrite Hrow, Hd. cbn [negb andb].
  assert (pane_binding_observation false (ob_seen o) (ob_lookup o) = ObsUnprovable) as ->.
  { unfold pane_binding_observation. rewrite (bool_decide_eq_false_2 (ob_seen o = OccGone)) by done. cbn.
    destruct Hdoubt as [-> | ->]; [done|]. by case_bool_decide. }
  destruct (row_in_mode row) eqn:Hm.
  { unfold observe_in_mode. rewrite Hp. do 2 eexists. split; [done|]. cbn. by rewrite lookup_insert_eq. }
  case_match eqn:E.
  - case_match; [|done]. unfold retain_stale in E. rewrite Hp in E. cbn [mbind option_bind] in E.
    case_match; [|done]. apply (inj Some) in E as <-. eexists _, _. split; [reflexivity|]. cbn [pn_detections put_entry pn_ends].
    rewrite lookup_insert_eq. split_and!; [reflexivity..|]. apply stale_not_ready.
  - unfold observe_fused, settle_observation. rewrite Hp. cbn.
    do 2 eexists. split; [done|]. cbn [pn_detections put_entry pn_ends]. rewrite lookup_insert_eq.
    split_and!; [reflexivity..|]. cbn [de_detection]. case_bool_decide; reflexivity.
Qed.

(** ** Two observations that say too much *)
Definition seat : PaneKey := (0, str "%1").
Definition alice_proc : ProcId := MkProcId 11 3.
Definition bob_proc : ProcId := MkProcId 12 7.
Definition bound_by (agent : ProcId) : BindingObservation :=
  ObsBound (MkFusionBinding (MkProcId 10 1) agent agent (str "claude")).
Definition idle_screen : Detection :=
  MkDetection SIdle [MkReading SensorScreen SIdle (str "composer") 5] false (str "composer") false false None
    (Some SemClean) None.
(** An idle pane with a clean composer and this agent in it. *)
Definition calm_look (agent : ProcId) (in_mode changed : bool) : Observation :=
  MkObservation (Some (MkPaneRow false in_mode 10)) (OccLeader (pid agent)) (bound_by agent) (Some (str "claude"))
    false (Some (pid agent)) changed idle_screen None false false.
Definition one_turn : TurnKey := MkTurnKey [KText (str "t1")].
Definition handed_over : option Panes :=
  pane_run no_panes
    [(seat, PaneObserve (calm_look alice_proc false false));
     (seat, PaneClaim (str "attempt-1") (Some alice_proc) (Some (str "claude")));
     (seat, PaneBindTurn (str "attempt-1") one_turn 6);
     (seat, PaneObserve (calm_look bob_proc true false));
     (seat, PaneObserve (calm_look bob_proc false false))].
(** A hold is meant to be dropped with the occupant.  An agent that arrives while
    the pane is in a mode inherits the hold of the one before it: the mode branch
    writes the new agent next to the old hold, and later observations carry it.
    The turn the hold waits on is one the newcomer never ends. *)
Theorem mode_hands_hold_to_newcomer :
  (λ w, (λ e, (de_agent e, de_hold_owner e, de_hold e, de_turn e, det_write_ready (de_detection e)))
        <$> pn_detections w !! seat) <$> handed_over
  = Some (Some (Some bob_proc, Some (str "attempt-1"), HoldTurnStarted 6, Some one_turn, false)).
Proof. vm_compute. reflexivity. Qed.
(** Without the mode the newcomer's pane is free. *)
Lemma newcomer_is_free_without_mode :
  (λ w, (λ e, (de_agent e, de_hold_owner e, de_hold e)) <$> pn_detections w !! seat)
    <$> pane_run no_panes
      [(seat, PaneObserve (calm_look alice_proc false false));
       (seat, PaneClaim (str "attempt-1") (Some alice_proc) (Some (str "claude")));
       (seat, PaneBindTurn (str "attempt-1") one_turn 6);
       (seat, PaneObserve (calm_look bob_proc false false))]
  = Some (Some (Some bob_proc, None, HoldClear)).
Proof. vm_compute. reflexivity. Qed.
(** A process that was replaced while its screen was captured is to make readiness
    unprovable, and the verdict is refused for it; the final stamp computes
    readiness again from the readings and the refusal is gone. *)
Theorem changed_capture_still_writes :
  det_write_block (fused_verdict (calm_look alice_proc false true) (MkPaneRow false false 10))
    = Some (str "binding_changed_during_capture") ∧
  (λ w, (λ e, (det_write_ready (de_detection e), det_write_block (de_detection e)))
        <$> pn_detections w !! seat)
    <$> observe_pane no_panes seat (calm_look alice_proc false true)
  = Some (Some (true, None)).
Proof. split; vm_compute; reflexivity. Qed.
