(* ===== verification/Fusion.v ===== *)
(** * State fusion

    [src/cyclopsd/src/fusion.rs]: how one observation of a pane becomes a verdict.
    The rules of the manifest pick a winner on the title and one on the screen
    ([title_winner], [screen_winner_esc]), [fuse] joins them, the stored hook reading
    is used or dropped ([hook_action]) and applied ([apply_hook_reading]), and
    liveness may admit an idle pane ([liveness_idle_admission]).  [sensor_verdict]
    composes them as [observe_pane_with_evidence] does.

    A reference into the manifest's rules is its position with the rule, so that
    comparing references compares positions.  Whether an admission or lifecycle edge
    was seen for this binding is the answer of the hook liveness store and an input;
    the reconciliation of candidate turns between the two stages acts on stores of
    its own and is left out, but for the unkeyed start. *)
From S2P Require Import Prelude Text Identity Ledger Notification AttentionRegister Detection Manifests.
From S2P Require Import NotificationAdapter DeliveryGate TurnKeys Composer.
Local Open Scope N_scope.

(** ** Hook readings *)
Definition HOOK_READING_TTL_MS : N := 300000.
Definition UNKEYED_DISPATCH_SETTLE_MS : N := 500.
Definition HOOK_DISAGREE_LIMIT : N := 3.
Record HookEntry := MkHookEntry {
  he_pane_pid : ProcId;
  he_manifest : option rstr;
  he_reading : SensorReading;
  he_disagreements : N;
  he_active_start : bool;
  he_confirmed_start : bool;
  he_authoritative_end : bool;
  he_active_turn : option TurnKey;
  he_provisional_ready_at_ms : option N;
  he_promoted : bool;
}.
Definition hook_bound (agent : ProcId) (manifest : option rstr) (reading : SensorReading) : HookEntry :=
  MkHookEntry agent manifest reading 0 false false false None None false.
Definition promote (e : HookEntry) : HookEntry :=
  MkHookEntry (he_pane_pid e) (he_manifest e) (he_reading e) (he_disagreements e) (he_active_start e) true
    (he_authoritative_end e) (he_active_turn e) None true.
Definition turn_started (agent : ProcId) (manifest : option rstr) (reading : SensorReading) (turn : TurnKey) : HookEntry :=
  MkHookEntry agent manifest reading 0 true true false (Some turn) None false.
Definition unkeyed_turn_started (agent : ProcId) (manifest : option rstr) (reading : SensorReading) : HookEntry :=
  MkHookEntry agent manifest reading 0 true true false None None false.
Definition provisional_start (agent : ProcId) (manifest : option rstr) (reading : SensorReading) : HookEntry :=
  MkHookEntry agent manifest reading 0 true false false None
    (Some (N.min u64_max (sr_ts reading + UNKEYED_DISPATCH_SETTLE_MS))) false.
Definition turn_ended (agent : ProcId) (manifest : option rstr) (reading : SensorReading) (turn : TurnKey) : HookEntry :=
  MkHookEntry agent manifest reading 0 false false true (Some turn) None false.
Definition unkeyed_turn_ended (agent : ProcId) (manifest : option rstr) (reading : SensorReading) : HookEntry :=
  MkHookEntry agent manifest reading 0 false false true None None false.
Definition describes (e : HookEntry) (agent : option ProcId) (manifest : option rstr) : bool :=
  bool_decide (agent = Some (he_pane_pid e)) && bool_decide (he_manifest e = manifest).
Definition active_start_for (e : HookEntry) (agent : ProcId) (manifest : option rstr) : bool :=
  he_active_start e && describes e (Some agent) manifest.
Definition provisional_start_for (e : HookEntry) (agent : ProcId) (manifest : option rstr) : bool :=
  active_start_for e agent manifest && negb (he_confirmed_start e).
Definition confirmed_start_for (e : HookEntry) (agent : ProcId) (manifest : option rstr) : bool :=
  active_start_for e agent manifest && he_confirmed_start e.
Definition promoted_start_for (e : HookEntry) (agent : ProcId) (manifest : option rstr) : bool :=
  confirmed_start_for e agent manifest && he_promoted e.
Definition confirmed_unkeyed_start_for (e : HookEntry) (agent : ProcId) (manifest : option rstr) : bool :=
  confirmed_start_for e agent manifest && bool_decide (he_active_turn e = None).
Definition unkeyed_latch_ended_by (e : HookEntry) (agent : ProcId) (manifest : option rstr) (end_edge_ms : N) : bool :=
  confirmed_unkeyed_start_for e agent manifest && (sr_ts (he_reading e) <? end_edge_ms).
Definition active_start_matches (e : HookEntry) (agent : ProcId) (manifest : option rstr) (turn : option TurnKey) : bool :=
  match turn with
  | None => false
  | Some turn => active_start_for e agent manifest && bool_decide (he_active_turn e = Some turn)
  end.

(** ** The two tiers *)
Definition RuleRef : Type := nat * CompiledRule.
Definition idle_class (s : AgentState) : bool :=
  match s with SIdle | SIdleWithInput => true | _ => false end.
Section tiers.
Context `{Regexes}.
Definition title_winner (m : Manifest) (title : rstr) : option RuleRef :=
  list_find (λ r, bool_decide (cr_region r = PaneTitle) && rule_matches r title [title] = true) (mf_rules m).
Definition manifest_uses_screen_tier (m : Manifest) : bool :=
  existsb (λ r, negb (bool_decide (cr_region r = PaneTitle))) (mf_rules m).
Definition screen_regions (screen : rstr) (screen_esc : option rstr) : list rstr * option (list rstr) :=
  (plain_rows screen, escaped_rows <$> screen_esc).
Definition screen_rule_matches (r : CompiledRule) (non_empty : list rstr) (non_empty_esc : option (list rstr)) : bool :=
  match cr_region r with
  | PaneTitle => false
  | BottomNonEmptyLines n =>
      let sel := bottom_rows n non_empty in
      rule_matches_esc r (join [10] sel) sel (bottom_rows n <$> non_empty_esc)
  end.
Definition screen_winner_esc (m : Manifest) (screen : rstr) (screen_esc : option rstr) : option RuleRef :=
  let '(rows, rows_esc) := screen_regions screen screen_esc in
  list_find (λ r, screen_rule_matches r rows rows_esc = true) (mf_rules m).
Definition screen_composer_semantic_esc (m : Manifest) (screen : rstr) (screen_esc : option rstr)
    : option ComposerSemantic :=
  let '(rows, rows_esc) := screen_regions screen screen_esc in
  r ← List.find (λ r, screen_rule_matches r rows rows_esc)
        (List.filter (λ r, negb (bool_decide (cr_region r = PaneTitle)) &&
                           bool_decide (is_Some (cr_composer_semantic r))) (mf_rules m));
  cr_composer_semantic r.
(** [grid] is what tmux shows with its styling. *)
Definition capture_screens (m : Manifest) (plain grid : rstr) : rstr * option rstr :=
  if negb (has_escaped_rules m) then (plain, None) else (strip_csi grid, Some grid).
End tiers.
Definition winner_confirms_idle (winner : option RuleRef) : bool :=
  match winner with
  | Some (_, r) => cr_lifecycle_evidence r && idle_class (cr_state r)
  | None => false
  end.
Definition tier_reading (sensor : Sensor) (ts : N) (r : RuleRef) : SensorReading :=
  MkReading sensor (cr_state r.2) (cr_id r.2) ts.
(** The first rule in priority order that one of the tiers selected. *)
Definition fused_winner (m : Manifest) (title screen : option RuleRef) : option CompiledRule :=
  snd <$> List.find (λ p, bool_decide (fst <$> title = Some p.1) || bool_decide (fst <$> screen = Some p.1))
            (imap pair (mf_rules m)).
Definition fuse (m : Manifest) (title screen : option RuleRef) (screen_required idle_confirmed : bool) (ts : N)
    : Detection :=
  let readings := option_list (tier_reading SensorTitle ts <$> title) ++
                  option_list (tier_reading SensorScreen ts <$> screen) in
  let semantic := screen ≫= λ r, cr_composer_semantic r.2 in
  let winner := fused_winner m title screen in
  if screen_required && negb idle_confirmed &&
     match winner with Some w => idle_class (cr_state w) | None => false end
  then
    match (r ← screen; if idle_class (cr_state r.2) then None else Some r) with
    | Some (_, s) => MkDetection (cr_state s) readings true (cr_id s) false false None (cr_composer_semantic s) None
    | None => MkDetection SUnknown readings false (str "idle_unconfirmed") false false None semantic None
    end
  else
    match winner with
    | Some w =>
        MkDetection (cr_state w) readings
          match title, screen with Some t, Some s => negb (bool_decide (cr_state t.2 = cr_state s.2)) | _, _ => false end
          (cr_id w) false false None semantic None
    | None => MkDetection SUnknown readings false (str "no_rule") false false None None None
    end.

(** ** The hook reading *)
Inductive HookAction := HookUse | HookDrop.
Definition with_disagreements (e : HookEntry) (n : N) : HookEntry :=
  MkHookEntry (he_pane_pid e) (he_manifest e) (he_reading e) n (he_active_start e) (he_confirmed_start e)
    (he_authoritative_end e) (he_active_turn e) (he_provisional_ready_at_ms e) (he_promoted e).
Definition newer_visual_working (d : Detection) (ts : N) : bool :=
  existsb (λ r, negb (bool_decide (sr_sensor r = SensorHook)) && bool_decide (sr_state r = SWorking) &&
                (ts <=? sr_ts r)) (det_readings d).
(** [hook_action_observed_with_terminal]: the action and the entry as it is left. *)
Definition hook_action (e : HookEntry) (d : Detection) (idle_confirmed active_start_terminal in_mode binding_stable : bool)
    (now_ms : N) : HookAction * HookEntry :=
  if he_active_start e then
    (if idle_confirmed && (he_promoted e || active_start_terminal) && idle_class (det_state d) && negb in_mode &&
        negb (det_stale d) && binding_stable then HookDrop else HookUse, e)
  else if he_authoritative_end e then
    (if idle_class (det_state d) || newer_visual_working d (sr_ts (he_reading e)) then HookDrop else HookUse, e)
  else if HOOK_READING_TTL_MS <? now_ms - sr_ts (he_reading e) then (HookDrop, e)
  else if bool_decide (det_state d = SUnknown) then (HookUse, e)
  else if bool_decide (det_state d = sr_state (he_reading e)) then (HookUse, with_disagreements e 0)
  else
    let e := with_disagreements e (he_disagreements e + 1) in
    (if HOOK_DISAGREE_LIMIT <=? he_disagreements e then HookDrop else HookUse, e).
(** The detection with another state, decider and disagreement, the reading added. *)
Definition with_hook (d : Detection) (state : AgentState) (disagreement : bool) (decided_by : rstr)
    (reading : SensorReading) : Detection :=
  MkDetection state (det_readings d ++ [reading]) disagreement decided_by (det_stale d) (det_write_ready d)
    (det_write_block d) (det_composer_semantic d) (det_unknown_reason d).
Definition apply_hook_reading (d : Detection) (reading : SensorReading) (active_start authoritative_end : bool)
    : Detection :=
  let hook := sr_state reading in
  let visual := det_state d in
  let by_hook := str "hook:" ++ sr_rule reading in
  if authoritative_end && newer_visual_working d (sr_ts reading)
  then with_hook d visual (det_disagreement d) (det_decided_by d) reading
  else if authoritative_end && bool_decide (hook = SIdle) && (bool_decide (visual = SUnknown) || bool_decide (visual = SIdle))
  then with_hook d SIdle (det_disagreement d) by_hook reading
  else if active_start && bool_decide (hook = SWorking) && negb (is_blocked visual)
  then with_hook d SWorking
         (det_disagreement d || (negb (bool_decide (visual = SUnknown)) && negb (bool_decide (visual = SWorking))))
         by_hook reading
  else if bool_decide (visual = SUnknown) then with_hook d hook (det_disagreement d) by_hook reading
  else if negb (bool_decide (hook = visual)) then with_hook d visual true (det_decided_by d) reading
  else with_hook d visual (det_disagreement d) (det_decided_by d) reading.
Definition Readings : Type := gmap PaneKey HookEntry.
(** What the observation does with the stored reading of its pane. *)
Definition take_hook (readings : Readings) (pane : PaneKey) (admitted : option ProcId) (manifest_id : option rstr)
    (d : Detection) (idle_confirmed active_start_terminal in_mode binding_stable : bool) (now_ms : N)
    : Readings * option (SensorReading * bool * bool) :=
  match readings !! pane with
  | None => (readings, None)
  | Some e =>
      if bool_decide (admitted = None) then (readings, None)
      else if negb (describes e admitted manifest_id) then (delete pane readings, None)
      else
        match hook_action e d idle_confirmed active_start_terminal in_mode binding_stable now_ms with
        | (HookUse, e) =>
            (<[pane := e]> readings, Some (he_reading e, he_active_start e, he_authoritative_end e))
        | (HookDrop, _) => (delete pane readings, None)
        end
  end.

(** ** Liveness *)
Definition liveness_admits_idle (state : AgentState) (decided_by : rstr) (screen : option CompiledRule)
    (has_screen_reading liveness_verified active_start stale in_mode binding_stable : bool) : bool :=
  bool_decide (state = SUnknown) && bool_decide (decided_by = str "idle_unconfirmed") &&
  match screen with
  | Some r => idle_class (cr_state r) && bool_decide (cr_composer_semantic r = Some SemClean)
  | None => false
  end &&
  has_screen_reading && liveness_verified && negb active_start && negb stale && negb in_mode && binding_stable.
Definition declares_hooks (m : Manifest) : bool :=
  negb (bool_decide (lifecycle_names (mf_hooks m) = [])) || bool_decide (is_Some (hk_ack (mf_hooks m))).
Definition ManifestTable : Type := gmap rstr Manifest.
(** [seen_edge] is the liveness store's [seen_admitting_edge] for this binding. *)
Definition liveness_idle_admission (manifests : ManifestTable) (readings : Readings) (pane : PaneKey)
    (admitted : option ProcId) (manifest_id : option rstr) (seen_edge : bool) (screen : option CompiledRule)
    (binding_stable in_mode : bool) (d : Detection) : Detection :=
  match admitted, manifest_id with
  | Some agent, Some id =>
      let verified := match manifests !! id with Some m => declares_hooks m | None => false end && seen_edge in
      let active := match readings !! pane with Some e => active_start_for e agent (Some id) | None => false end in
      if negb (liveness_admits_idle (det_state d) (det_decided_by d) screen (screen_read d) true active (det_stale d)
                 in_mode binding_stable) || negb verified
      then d
      else MkDetection SIdle (det_readings d) (det_disagreement d)
             (str "liveness:" ++ match screen with Some r => cr_id r | None => str "screen" end) (det_stale d)
             (det_write_ready d) (det_write_block d) (det_composer_semantic d) (det_unknown_reason d)
  | _, _ => d
  end.

(** ** Evidence of a turn *)
Definition positive_visual_working (manifests : ManifestTable) (manifest : rstr) (d : Detection) : bool :=
  negb (det_stale d) && bool_decide (det_state d = SWorking) &&
  existsb (λ r,
    negb (bool_decide (sr_sensor r = SensorHook)) && bool_decide (sr_state r = SWorking) &&
    match manifests !! manifest with
    | None => true
    | Some m =>
        let rules := List.filter (λ x, bool_decide (cr_id x = sr_rule r)) (mf_rules m) in
        negb (bool_decide (length rules = O)) && forallb cr_lifecycle_evidence rules
    end) (det_readings d).
Definition positive_visual_terminal (manifests : ManifestTable) (manifest : rstr) (d : Detection) : bool :=
  match manifests !! manifest with
  | None => false
  | Some m =>
      negb (det_stale d) && idle_class (det_state d) &&
      existsb (λ r,
        bool_decide (sr_sensor r = SensorScreen) && idle_class (sr_state r) &&
        match List.find (λ x, bool_decide (cr_id x = sr_rule r)) (mf_rules m) with
        | Some rule => cr_active_start_terminal rule
        | None => false
        end) (det_readings d)
  end.
Definition terminal_visual_state (d : Detection) (in_mode : bool) : option AgentState :=
  if in_mode || det_stale d then None
  else
    screen ← sr_state <$> List.find (λ r, bool_decide (sr_sensor r = SensorScreen)) (det_readings d);
    if negb (idle_class screen) then None
    else if forallb (λ r, bool_decide (sr_sensor r = SensorHook) || idle_class (sr_state r)) (det_readings d)
    then Some screen else None.
Definition visual_rejects_start (d : Detection) (in_mode : bool) : bool :=
  if in_mode then true
  else if det_stale d then false
  else existsb (λ r, bool_decide (sr_sensor r = SensorScreen) &&
                     (bool_decide (sr_state r = SIdleWithInput) || is_blocked (sr_state r))) (det_readings d).
Definition working_is_confirmed (manifests : ManifestTable) (readings : Readings) (pane : PaneKey) (d : Detection)
    (agent : option ProcId) (manifest : option rstr) : bool :=
  bool_decide (det_state d = SWorking) &&
  (match manifest with Some id => positive_visual_working manifests id d | None => false end ||
   match agent, readings !! pane with Some agent, Some e => confirmed_start_for e agent manifest | _, _ => false end).
Definition needs_targeted_reobservation (d : Detection) (hold : ComposerHold) : bool :=
  det_stale d || det_disagreement d || refuses hold.
(** What became of a provisional start: [None] is the panic of its missing
    deadline; [Some (Some (edge, accepted))] tells the engine to confirm or reject
    the dispatch of that edge. *)
Definition reconcile_unkeyed_start (manifests : ManifestTable) (readings : Readings) (pane : PaneKey) (agent : ProcId)
    (manifest : rstr) (d : Detection) (in_mode : bool) (observed_ms evidence_ms : N) (binding_stable visual : bool)
    : option (Readings * option (N * bool)) :=
  if negb binding_stable || negb visual ||
     negb match manifests !! manifest with
          | Some m => bool_decide (hk_ack_evidence (mf_hooks m) = AckDispatch) &&
                      bool_decide (hk_turn_key_fields (mf_hooks m) = [])
          | None => false
          end
  then Some (readings, None)
  else
    match readings !! pane with
    | None => Some (readings, None)
    | Some e =>
        if negb (provisional_start_for e agent (Some manifest)) then Some (readings, None)
        else
          ready_at ← he_provisional_ready_at_ms e;
          let edge := sr_ts (he_reading e) in
          if evidence_ms <=? edge then Some (readings, None)
          else
            let accepted := positive_visual_working manifests manifest d in
            let rejected := visual_rejects_start d in_mode ||
              ((ready_at <=? observed_ms) && positive_visual_terminal manifests manifest d) in
            if negb accepted && negb rejected then Some (readings, None)
            else if rejected then Some (delete pane readings, Some (edge, false))
            else Some (<[pane := promote e]> readings, Some (edge, true))
    end.

(** ** Why a state is unknown *)
(** [seen_lifecycle] is the liveness store's [seen_declared_lifecycle] for this
    binding and the declared names that are not blank. *)
Definition unknown_reason (manifests : ManifestTable) (admitted : option ProcId) (manifest_id : option rstr)
    (seen_lifecycle : list rstr → bool) (current_command : rstr) : option UnknownReason :=
  match manifest_id ≫= λ id, manifests !! id with
  | None => if is_plain_shell current_command then None else Some UnsupportedVendor
  | Some m =>
      let incomplete := if negb (has_lifecycle_role (mf_hooks m) RoleStart) || negb (has_lifecycle_role (mf_hooks m) RoleEnd)
                        then [LifecycleIncomplete] else [] in
      match admitted with
      | None => most_specific incomplete
      | Some _ =>
          most_specific (incomplete ++
            if seen_lifecycle (List.filter (λ n, negb (blank n)) (lifecycle_names (mf_hooks m)))
            then [] else [NoCurrentBootEdge])
      end
  end.

(** ** Readiness wakes *)
Definition ReadinessKey : Type := bool * option rstr.
Definition readiness_key (e : DetEntry) : ReadinessKey :=
  (det_write_ready (de_detection e), det_write_block (de_detection e)).
Record ReadinessWakeDecision := MkWakeDecision { wd_emit_public : bool; wd_reconcile_route : bool }.
Definition readiness_wake_decision (prior : option ReadinessKey) (now : ReadinessKey) : ReadinessWakeDecision :=
  let changed := match prior with Some p => negb (bool_decide (p = now)) | None => false end in
  MkWakeDecision changed (bool_decide (prior = None) || changed).
Definition readiness_wake_plan (prior : option ReadinessKey) (now : ReadinessKey) (has_route_evidence : bool)
    : ReadinessWakeDecision :=
  let decision := readiness_wake_decision prior now in
  MkWakeDecision (wd_emit_public decision) (has_route_evidence && (wd_reconcile_route decision || now.1)).

(** ** The verdict of an observation *)
Record SensorInput := MkSensorInput {
  si_manifests : ManifestTable;
  si_manifest : option Manifest;
  si_admitted : option ProcId;
  si_manifest_id : option rstr;
  si_title : rstr;
  si_capture : option (rstr * option rstr);
  si_capture_failed : bool;
  si_in_mode : bool;
  si_binding_stable : bool;
  si_seen_edge : bool;
  si_ts : N;
}.
(** Title and screen. *)
Definition visual_verdict `{Regexes} (m : Manifest) (i : SensorInput) : Detection * option RuleRef :=
  let t := title_winner m (si_title i) in
  let s := '(screen, esc) ← si_capture i; screen_winner_esc m screen esc in
  let d := fuse m t s (manifest_uses_screen_tier m) (winner_confirms_idle s) (si_ts i) in
  let semantic := match si_capture i with
                  | Some (screen, esc) => screen_composer_semantic_esc m screen esc
                  | None => det_composer_semantic d
                  end in
  let decided := if si_capture_failed i &&
                    (bool_decide (det_decided_by d = str "no_rule") || bool_decide (det_decided_by d = str "idle_unconfirmed"))
                 then str "sensor_error" else det_decided_by d in
  (MkDetection (det_state d) (det_readings d) (det_disagreement d) decided (si_capture_failed i)
     false None semantic None, s).
Definition sensor_verdict `{Regexes} (readings : Readings) (pane : PaneKey) (i : SensorInput) : Readings * Detection :=
  let '(d, s) := match si_manifest i with
                 | Some m => visual_verdict m i
                 | None => (blank_detection SUnknown (str "no_manifest"), None)
                 end in
  let '(readings, hook) :=
    take_hook readings pane (si_admitted i) (si_manifest_id i) d (winner_confirms_idle s)
      match s with Some (_, r) => cr_active_start_terminal r | None => false end (si_in_mode i)
      (si_binding_stable i) (si_ts i) in
  let d := match hook with Some (r, active, ended) => apply_hook_reading d r active ended | None => d end in
  (readings,
   match si_manifest i with
   | Some m =>
       let screen := '(_, r) ← s; List.find (λ x, bool_decide (cr_id x = cr_id r)) (mf_rules m) in
       liveness_idle_admission (si_manifests i) readings pane (si_admitted i) (si_manifest_id i) (si_seen_edge i) screen
         (si_binding_stable i) (si_in_mode i) d
   | None => d
   end).
