(* ===== verification/FusionProps.v ===== *)
(** * What a verdict rests on

    The theorems of [Fusion.v]: the two tiers together pick the rule the manifest's
    evaluation picks; no idle verdict without a screen that confirms it; a verdict
    that allows a write rests on a composer seen on this very screen; a stored start
    is dropped only on conclusive evidence, and a reading that observations
    contradict expires. *)
From S2P Require Import Prelude Text Identity Ledger Notification AttentionRegister Detection Manifests ManifestProps.
From S2P Require Import NotificationAdapter DeliveryGate TurnKeys Composer ComposerProps Fusion.
Local Open Scope N_scope.

(** ** The winner of both tiers *)
Lemma find_first {A} (P Q : A → bool) l n :
  snd <$> List.find (λ p : nat * A,
      bool_decide (fst <$> (prod_map (Nat.add n) id <$> list_find (λ x, P x = true) l) = Some p.1) ||
      bool_decide (fst <$> (prod_map (Nat.add n) id <$> list_find (λ x, Q x = true) l) = Some p.1))
    (imap (λ i x, ((n + i)%nat, x)) l)
  = List.find (λ x, P x || Q x) l.
Proof.
  revert n. induction l as [|x l IH]; intros n; [done|]. cbn [list_find imap List.find].
  destruct (decide (P x = true)) as [HP|HP].
  { rewrite HP. cbn. rewrite (bool_decide_eq_true_2 (Some (n + 0)%nat = Some (n + 0)%nat)) by done. done. }
  apply not_true_is_false in HP. rewrite HP. cbn [orb].
  destruct (decide (Q x = true)) as [HQ|HQ].
  { rewrite HQ. cbn. rewrite (bool_decide_eq_true_2 (Some (n + 0)%nat = Some (n + 0)%nat)) by done.
    rewrite orb_true_r. done. }
  apply not_true_is_false in HQ. rewrite HQ. rewrite <- (IH (S n)).
  assert (∀ o : option (nat * A), fst <$> (prod_map (Nat.add n) id <$> (prod_map S id <$> o)) =
                                  fst <$> (prod_map (Nat.add (S n)) id <$> o)) as Ho.
  { intros [[i y]|]; cbn; [by rewrite Nat.add_succ_r|done]. }
  rewrite !Ho. cbn [fst].
  assert (∀ o : option (nat * A), bool_decide (fst <$> (prod_map (Nat.add (S n)) id <$> o) = Some (n + 0)%nat) = false) as Hn.
  { intros o. apply bool_decide_eq_false. destruct o as [[i y]|]; cbn; [|discriminate]. intros [= H]. lia. }
  rewrite !Hn. cbn [orb]. f_equal. f_equal. apply imap_ext. intros i y _. cbn. by rewrite Nat.add_succ_r.
Qed.

Lemma find_ext {A} (f g : A → bool) l : (∀ x, f x = g x) → List.find f l = List.find g l.
Proof. intros H. induction l as [|x l IH]; cbn; [done|]. rewrite H. by destruct (g x). Qed.

Section verdicts.
Context `{Regexes}.
(** The two tiers read apart agree with the manifest's own evaluation: the
    rule fusion takes as its winner, the first in priority order that the title or
    the screen tier selected, is the rule that evaluating the manifest on title and
    screen returns. *)
Theorem fusion_agrees_with_evaluation m title screen screen_esc :
  fused_winner m (title_winner m title) (screen_winner_esc m screen screen_esc) = evaluate_esc m title screen screen_esc.
Proof.
  unfold fused_winner, evaluate_esc, screen_winner_esc, screen_regions, title_winner.
  rewrite (find_ext (λ r, rule_holds r title screen screen_esc)
    (λ r, bool_decide (cr_region r = PaneTitle) && rule_matches r title [title] ||
          screen_rule_matches r (plain_rows screen) (escaped_rows <$> screen_esc))).
  - rewrite <- (find_first (λ r, bool_decide (cr_region r = PaneTitle) && rule_matches r title [title])
      (λ r, screen_rule_matches r (plain_rows screen) (escaped_rows <$> screen_esc)) (mf_rules m) O).
    f_equal. apply find_ext. intros [i r]. cbn [fst].
    assert (∀ o : option RuleRef, fst <$> (prod_map (Nat.add 0) id <$> o) = fst <$> o) as Ho by (by intros [[]|]).
    by rewrite !Ho.
  - intros r. unfold rule_holds, screen_rule_matches, rule_matches. destruct (cr_region r) as [|n].
    + rewrite bool_decide_eq_true_2 by done. by rewrite orb_false_r.
    + rewrite bool_decide_eq_false_2 by done. cbn [andb orb]. by destruct screen_esc.
Qed.

(** ** Idle needs a screen *)
Definition screen_of (m : Manifest) (i : SensorInput) : option RuleRef :=
  '(screen, esc) ← si_capture i; screen_winner_esc m screen esc.
Lemma fuse_idle m t s required confirmed ts :
  required = true → idle_class (det_state (fuse m t s required confirmed ts)) = true → confirmed = true.
Proof.
  intros ->. unfold fuse. cbn [andb]. destruct confirmed; [done|]. cbn [negb].
  destruct (fused_winner m t s) as [w|]; cbn; [|done]. destruct (idle_class (cr_state w)) eqn:Ew; cbn; [|congruence].
  destruct s as [[n r]|]; cbn; [|done]. destruct (idle_class (cr_state r)) eqn:Er; cbn; congruence.
Qed.
Lemma fuse_readings m t s required confirmed ts :
  det_readings (fuse m t s required confirmed ts) =
  option_list (tier_reading SensorTitle ts <$> t) ++ option_list (tier_reading SensorScreen ts <$> s).
Proof. unfold fuse. repeat case_match; done. Qed.

Lemma visual_idle m i :
  manifest_uses_screen_tier m = true → idle_class (det_state (visual_verdict m i).1) = true →
  ∃ screen esc n r, si_capture i = Some (screen, esc) ∧ screen_winner_esc m screen esc = Some (n, r) ∧
    cr_lifecycle_evidence r = true ∧ idle_class (cr_state r) = true.
Proof.
  intros Hm Hi. apply (fuse_idle _ _ _ _ _ _ Hm) in Hi. destruct (si_capture i) as [[screen esc]|]; [|done].
  cbn [mbind option_bind] in Hi. destruct (screen_winner_esc m screen esc) as [[n r]|] eqn:E; [|done].
  apply andb_true_iff in Hi as [H1 H2]. by exists screen, esc, n, r.
Qed.
(** No idle verdict without a screen that confirms it: where the manifest has
    rules for the screen, title and screen together read idle, with or without
    input, only if the rule that won on the screen of this capture is itself an
    idle rule marked as lifecycle evidence.  An idle title over a working screen
    never decides. *)
Theorem idle_needs_confirmation m i :
  manifest_uses_screen_tier m = true → idle_class (det_state (visual_verdict m i).1) = true →
  ∃ screen esc n r, si_capture i = Some (screen, esc) ∧ screen_winner_esc m screen esc = Some (n, r) ∧
    cr_lifecycle_evidence r = true ∧ idle_class (cr_state r) = true.
Proof. apply visual_idle. Qed.

(** ** A write needs a composer that was seen *)
Lemma apply_hook_facts d r active ended :
  let d' := apply_hook_reading d r active ended in
  det_readings d' = det_readings d ++ [r] ∧ det_stale d' = det_stale d ∧
  det_composer_semantic d' = det_composer_semantic d ∧
  ((det_state d' = det_state d ∧ det_decided_by d' = det_decided_by d) ∨
   starts_with (str "hook:") (det_decided_by d') = true).
Proof.
  assert (∀ t, starts_with (str "hook:") (str "hook:" ++ t) = true) as Hs.
  { intros t. unfold starts_with. rewrite strip_prefix_app. by apply bool_decide_eq_true_2. }
  cbn zeta. unfold apply_hook_reading. repeat case_match; cbn [with_hook det_readings det_stale det_composer_semantic det_state det_decided_by];
    split_and!; try done; (by left) || (right; apply Hs).
Qed.
(** The reading stored for the pane, used or not, comes from a hook. *)
Lemma take_hook_reading readings pane a m d c t im st now readings' r active ended :
  (∀ e, readings !! pane = Some e → sr_sensor (he_reading e) = SensorHook) →
  take_hook readings pane a m d c t im st now = (readings', Some (r, active, ended)) → sr_sensor r = SensorHook.
Proof.
  intros Hh. unfold take_hook. destruct (readings !! pane) as [e|] eqn:E; [|done].
  destruct (bool_decide (a = None)); [done|]. destruct (negb (describes e a m)); [done|].
  assert (∀ e', hook_action e d c t im st now = (HookUse, e') → he_reading e' = he_reading e) as Ha.
  { unfold hook_action. intros e'. repeat case_match; intros [= <-]; done. }
  destruct (hook_action e d c t im st now) as [[] e']; [|done]. intros [= <- <- <- <-].
  rewrite (Ha e' eq_refl). by apply Hh.
Qed.
(** Why liveness admitted an idle pane. *)
Record liveness_proof (i : SensorInput) (m : Manifest) (w : CompiledRule) : Prop := {
  lp_edge : si_seen_edge i = true;
  lp_agent : is_Some (si_admitted i);
  lp_stable : si_binding_stable i = true;
  lp_rule : ∃ r, r ∈ mf_rules m ∧ cr_id r = cr_id w ∧ idle_class (cr_state r) = true ∧
    cr_composer_semantic r = Some SemClean;
}.
Lemma liveness_facts manifests readings pane a id edge screen stable in_mode d :
  let d' := liveness_idle_admission manifests readings pane a id edge screen stable in_mode d in
  det_readings d' = det_readings d ∧ det_stale d' = det_stale d ∧ det_composer_semantic d' = det_composer_semantic d ∧
  (d' = d ∨
   (det_state d' = SIdle ∧ edge = true ∧ is_Some a ∧ stable = true ∧
    ∃ r, screen = Some r ∧ idle_class (cr_state r) = true ∧ cr_composer_semantic r = Some SemClean)).
Proof.
  cbn zeta. unfold liveness_idle_admission. destruct a as [agent|]; [|by split_and!; try left].
  destruct id as [id|]; [|by split_and!; try left].
  case_match eqn:E; [by split_and!; try left|]. split_and!; [done|done|done|]. right. apply orb_false_iff in E as [E1 E2].
  apply negb_false_iff in E1, E2. apply andb_true_iff in E2 as [_ E2]. unfold liveness_admits_idle in E1.
  rewrite !andb_true_iff in E1. destruct E1 as [[[[[[[[_ _] Hs] _] _] _] _] _] Hst].
  destruct screen as [r|]; [|done]. apply andb_true_iff in Hs as [H1 H2%bool_decide_eq_true].
  split_and!; try done. by exists r.
Qed.
Definition seen_composer (i : SensorInput) (m : Manifest) (w : CompiledRule) : Prop :=
  ∃ screen esc n, si_manifest i = Some m ∧ si_capture i = Some (screen, esc) ∧ si_capture_failed i = false ∧
    screen_winner_esc m screen esc = Some (n, w) ∧
    (screen_composer_semantic_esc m screen esc = Some SemClean ∨
     screen_composer_semantic_esc m screen esc = Some SemGhostSuggestion).
Lemma screen_winner_tier m screen esc n w : screen_winner_esc m screen esc = Some (n, w) → manifest_uses_screen_tier m = true.
Proof.
  unfold screen_winner_esc. cbn. intros (Hl & Hw & _)%list_find_Some. unfold manifest_uses_screen_tier.
  apply List.existsb_exists. exists w. split; [apply list_elem_of_In; by eapply list_elem_of_lookup_2|].
  apply negb_true_iff, bool_decide_eq_false. intros Hr. unfold screen_rule_matches in Hw. by rewrite Hr in Hw.
Qed.

Lemma visual_screen_reading m i r :
  r ∈ det_readings (visual_verdict m i).1 → sr_sensor r = SensorScreen →
  ∃ screen esc n w, si_capture i = Some (screen, esc) ∧ screen_winner_esc m screen esc = Some (n, w) ∧
    sr_state r = cr_state w.
Proof.
  unfold visual_verdict. cbn [fst det_readings]. rewrite fuse_readings. intros [Hr|Hr]%elem_of_app Hs.
  - destruct (title_winner m (si_title i)) as [t|]; [|by apply not_elem_of_nil in Hr].
    apply list_elem_of_singleton in Hr as ->. done.
  - destruct (si_capture i) as [[screen esc]|]; [|by apply not_elem_of_nil in Hr]. cbn [mbind option_bind] in Hr.
    destruct (screen_winner_esc m screen esc) as [[n w]|] eqn:E; [|by apply not_elem_of_nil in Hr].
    apply list_elem_of_singleton in Hr as ->. by exists screen, esc, n, w.
Qed.
Lemma seen_intro m i r :
  si_manifest i = Some m → r ∈ det_readings (visual_verdict m i).1 → sr_sensor r = SensorScreen →
  det_stale (visual_verdict m i).1 = false →
  det_composer_semantic (visual_verdict m i).1 = Some SemClean ∨
  det_composer_semantic (visual_verdict m i).1 = Some SemGhostSuggestion →
  ∃ w, seen_composer i m w ∧ sr_state r = cr_state w ∧
    (idle_class (det_state (visual_verdict m i).1) = true → cr_lifecycle_evidence w = true ∧ idle_class (cr_state w) = true).
Proof.
  intros Hm Hr Hs Hst Hc. destruct (visual_screen_reading m i r Hr Hs) as (screen & esc & n & w & Hcap & Hw & Hsw).
  exists w. split_and!; [|done|].
  - exists screen, esc, n. split_and!; [done|done|exact Hst|done|].
    unfold visual_verdict in Hc. cbn [fst det_composer_semantic] in Hc. by rewrite Hcap in Hc.
  - intros Hi. destruct (visual_idle m i (screen_winner_tier _ _ _ _ _ Hw) Hi) as (screen' & esc' & n' & r' & Hcap' & Hw' & H1 & H2).
    rewrite Hcap in Hcap'. injection Hcap' as <- <-. rewrite Hw in Hw'. by injection Hw' as <- <-.
Qed.
(** The detection after the hook stage. *)
Definition hooked (d : Detection) (hook : option (SensorReading * bool * bool)) : Detection :=
  match hook with Some (r, active, ended) => apply_hook_reading d r active ended | None => d end.
Lemma hooked_facts d hook :
  match hook with Some (r, _, _) => sr_sensor r = SensorHook | None => True end →
  let d' := hooked d hook in
  (∀ r, r ∈ det_readings d' → sr_sensor r = SensorScreen → r ∈ det_readings d) ∧
  det_stale d' = det_stale d ∧ det_composer_semantic d' = det_composer_semantic d ∧
  ((det_state d' = det_state d ∧ det_decided_by d' = det_decided_by d) ∨
   starts_with (str "hook:") (det_decided_by d') = true).
Proof.
  destruct hook as [[[r active] ended]|]; cbn [hooked]; [|intros _; split_and!; [done..|by left]].
  intros Hr. destruct (apply_hook_facts d r active ended) as (H1 & H2 & H3 & H4). split_and!; try done.
  rewrite H1. intros x [Hx|Hx]%elem_of_app Hs; [done|]. apply list_elem_of_singleton in Hx as ->. congruence.
Qed.
(** The evidence behind a verdict that allows a write. *)
Definition write_rests_on (i : SensorInput) (d : Detection) : Prop :=
  ∃ m w, seen_composer i m w ∧
    ((det_state d = SWorking ∧ cr_state w = SWorking) ∨
     (det_state d = SIdle ∧ cr_lifecycle_evidence w = true ∧ idle_class (cr_state w) = true) ∨
     (det_state d = SIdle ∧ liveness_proof i m w)).
Lemma write_needs_a_seen_composer readings pane i hold readings' d :
  (∀ e, readings !! pane = Some e → sr_sensor (he_reading e) = SensorHook) →
  sensor_verdict readings pane i = (readings', d) → det_write_ready (stamped d (si_in_mode i) hold) = true →
  si_in_mode i = false ∧ hold = HoldClear ∧ write_rests_on i d.
Proof.
  intros Hh Hv [Hm Hhold Hst Hc Hs]%ready_evidence. split_and!; [done|done|]. unfold sensor_verdict in Hv.
  destruct (match si_manifest i with Some m => _ | None => _ end) as [d0 s] eqn:Ed0.
  destruct (take_hook _ _ _ _ _ _ _ _ _ _) as [rd hook] eqn:Et. fold (hooked d0 hook) in Hv. injection Hv as <- <-.
  assert (match hook with Some (r, _, _) => sr_sensor r = SensorHook | None => True end) as Hhook.
  { destruct hook as [[[r active] ended]|]; [|done]. by eapply take_hook_reading. }
  destruct (hooked_facts d0 hook Hhook) as (Hr1 & Hst1 & Hc1 & Hby1). set (d1 := hooked d0 hook) in *.
  destruct (si_manifest i) as [m|] eqn:Em.
  2:{ exfalso. injection Ed0 as <- <-. assert (∃ r, r ∈ det_readings d1 ∧ sr_sensor r = SensorScreen) as (r & Hr & Hsr).
      { destruct Hs as [(_ & _ & _ & (r & ? & ?) & _)|(_ & (r & ? & ? & _) & _)]; by exists r. }
      specialize (Hr1 r Hr Hsr). by apply not_elem_of_nil in Hr1. }
  assert ((visual_verdict m i).1 = d0) as Hd0 by (by rewrite Ed0).
  set (screen := '(_, r) ← s; List.find (λ x, bool_decide (cr_id x = cr_id r)) (mf_rules m)) in *.
  set (d := liveness_idle_admission _ _ _ _ _ _ _ _ _ _) in *.
  destruct (liveness_facts (si_manifests i) rd pane (si_admitted i) (si_manifest_id i) (si_seen_edge i) screen
    (si_binding_stable i) (si_in_mode i) d1) as (Hrd & Hst2 & Hc2 & Hl). fold d in Hrd, Hst2, Hc2, Hl.
  assert (∃ r, r ∈ det_readings d0 ∧ sr_sensor r = SensorScreen ∧ (det_state d = SWorking → sr_state r = SWorking)) as (r & Hr & Hsr & Hrw).
  { rewrite Hrd in Hs. destruct Hs as [(Hi & _ & _ & (r & ? & ?) & _)|(_ & (r & ? & ? & ?) & _)]; exists r; split_and!;
      [by apply Hr1|done|congruence|by apply Hr1|done|done]. }
  rewrite <- Hd0 in Hr. destruct (seen_intro m i r Em Hr Hsr) as (w & Hw & Hsw & Hidle);
    [congruence|rewrite Hd0, <- Hc1, <- Hc2; exact Hc|].
  exists m, w. split; [exact Hw|]. destruct Hs as [(Hi & _ & Hby & _)|(Hwk & _)]; [|left; split; [done|rewrite <- Hsw; by apply Hrw]].
  destruct Hl as [Hl|(_ & Hedge & Hag & Hstab & r' & Hr' & H1 & H2)].
  - right; left. rewrite Hl in Hi, Hby. destruct Hby1 as [[Hs0 _]|Hby1]; [|congruence].
    split; [by rewrite Hl|]. apply Hidle. rewrite Hd0, <- Hs0, Hi. done.
  - right; right. split; [done|]. split; try done. exists r'. subst screen.
    destruct Hw as (scr & esc & n & _ & Hcap & _ & Hwin & _).
    unfold visual_verdict in Ed0. rewrite Hcap in Ed0. cbn [mbind option_bind] in Ed0. rewrite Hwin in Ed0.
    injection Ed0 as _ <-. cbn [mbind option_bind] in Hr'. apply List.find_some in Hr' as [Hin Hid%bool_decide_eq_true].
    by apply list_elem_of_In in Hin.
Qed.

(** A ready entry after an observation was stamped from the fused verdict. *)
Lemma ready_after_observation w pane o w' e :
  observe_pane w pane o = Some w' → pn_detections w' !! pane = Some e → det_write_ready (de_detection e) = true →
  ∃ row hold, ob_row o = Some row ∧ row_dead row = false ∧ de_hold e = hold ∧
    det_write_ready (stamped (ob_fused o) (row_in_mode row) hold) = true.
Proof.
  unfold observe_pane. destruct (ob_row o) as [row|]; [|intros [= <-]; cbn; by rewrite lookup_delete_eq].
  destruct (negb (row_dead row) && row_in_mode row).
  { intros [= <-] He Hr. exfalso. revert He. unfold observe_in_mode.
    destruct (pn_detections w !! pane) as [x|]; cbn; rewrite lookup_insert_eq; intros [= <-];
      by destruct (bool_decide (_ = ObsUnprovable)). }
  case_match eqn:E.
  { case_match; [|done]. intros [= <-] He Hr. exfalso. unfold retain_stale in E.
    destruct (pn_detections w !! pane) as [x|]; [|done]. cbn [mbind option_bind] in E. case_match; [|done].
    apply (inj Some) in E as <-. cbn [pn_detections put_entry] in He. rewrite lookup_insert_eq in He.
    injection He as <-. cbn [de_detection with_detection] in Hr. by rewrite stale_not_ready in Hr. }
  unfold observe_fused. destruct (settle_observation _ _ _ _ _ _) as [[[[[ends h] st] t] ow]|]; [|done].
  intros [= <-]. cbn [pn_detections put_entry]. rewrite lookup_insert_eq. intros [= <-]. cbn [de_detection de_hold].
  set (d := stamped (fused_verdict o row) (row_in_mode row) h). intros Hr.
  assert (det_write_ready d = true) as Hd.
  { destruct (identity_unproven _ _); [by revert Hr; cbn; case_bool_decide|].
    destruct st; [by revert Hr; cbn; case_bool_decide|]. revert Hr. by case_bool_decide. }
  exists row, h. unfold d, fused_verdict in Hd. destruct (row_dead row).
  { exfalso. revert Hd. unfold stamped. by destruct (row_in_mode row). }
  split_and!; try done. destruct (ob_capture_changed o); [|done]. unfold refused in Hd. by rewrite stamped_with_verdict in Hd.
Qed.
End verdicts.

(** ** Stored starts and readings *)
(** What ends an active start without its own hook. *)
Record conclusive_idle (e : HookEntry) (d : Detection) (confirmed terminal in_mode stable : bool) : Prop := {
  ci_confirmed : confirmed = true;
  ci_latch : he_promoted e = true ∨ terminal = true;
  ci_state : idle_class (det_state d) = true;
  ci_mode : in_mode = false;
  ci_fresh : det_stale d = false;
  ci_stable : stable = true;
}.
(** A running turn does not end by sampling: as long as the agent that
    reported a start is in the pane under the same rules, every observation keeps
    the start and uses it, unless its own screen is conclusive, an idle rule marked
    as lifecycle evidence won on a fresh, stable capture outside any mode, and
    either the start was itself confirmed only by the screen or the rule is declared
    to end authenticated starts.  No clock and no number of contradicting frames
    drops it. *)
Theorem active_start_is_kept readings pane e a m d confirmed terminal in_mode stable now readings' hook :
  readings !! pane = Some e → he_active_start e = true → describes e (Some a) m = true →
  take_hook readings pane (Some a) m d confirmed terminal in_mode stable now = (readings', hook) →
  (readings' = readings ∧ hook = Some (he_reading e, true, he_authoritative_end e)) ∨
  (readings' = delete pane readings ∧ hook = None ∧ conclusive_idle e d confirmed terminal in_mode stable).
Proof.
  intros He Ha Hd. unfold take_hook, hook_action. rewrite He, Hd, Ha. cbn [negb].
  rewrite (bool_decide_eq_false_2 (Some a = None)) by done. case_match eqn:E.
  - case_match; simplify_eq. intros [= <- <-]. left. split; [by apply insert_id|by rewrite Ha].
  - case_match eqn:Ec; simplify_eq. intros [= <- <-]. right. split_and!; [done|done|].
    rewrite !andb_true_iff, orb_true_iff, !negb_true_iff in Ec.
    destruct Ec as [[[[[H1 H2] H3] H4] H5] H6]. done.
Qed.

(** One observation of a pane, as the hook stage sees it. *)
Record HookLook := MkHookLook {
  hl_detection : Detection;
  hl_confirmed : bool;
  hl_terminal : bool;
  hl_in_mode : bool;
  hl_stable : bool;
  hl_now : N;
}.
Definition look (a : ProcId) (m : option rstr) (pane : PaneKey) (readings : Readings) (l : HookLook) : Readings :=
  (take_hook readings pane (Some a) m (hl_detection l) (hl_confirmed l) (hl_terminal l) (hl_in_mode l) (hl_stable l)
     (hl_now l)).1.
Definition contradicts (reading : AgentState) (l : HookLook) : Prop :=
  det_state (hl_detection l) ≠ SUnknown ∧ det_state (hl_detection l) ≠ reading.
Lemma look_none a m pane readings l : readings !! pane = None → look a m pane readings l !! pane = None.
Proof. intros H. unfold look, take_hook. by rewrite H. Qed.
Lemma look_contradicted a m pane readings e l :
  readings !! pane = Some e → he_active_start e = false → he_authoritative_end e = false →
  contradicts (sr_state (he_reading e)) l →
  look a m pane readings l !! pane = None ∨
  (he_disagreements e + 1 < HOOK_DISAGREE_LIMIT ∧
   look a m pane readings l !! pane = Some (with_disagreements e (he_disagreements e + 1))).
Proof.
  intros He Ha Hend [Hu Hs]. unfold look, take_hook. rewrite He.
  rewrite (bool_decide_eq_false_2 (Some a = None)) by done.
  destruct (negb (describes e (Some a) m)); cbn [fst]; [left; apply lookup_delete_eq|].
  unfold hook_action. rewrite Ha, Hend. destruct (HOOK_READING_TTL_MS <? _); cbn [fst]; [left; apply lookup_delete_eq|].
  rewrite (bool_decide_eq_false_2 _ Hu), (bool_decide_eq_false_2 _ Hs).
  change (he_disagreements (with_disagreements e (he_disagreements e + 1))) with (he_disagreements e + 1).
  destruct (HOOK_DISAGREE_LIMIT <=? he_disagreements e + 1) eqn:E; cbn [fst]; [left; apply lookup_delete_eq|].
  right. apply N.leb_gt in E. split; [done|]. apply lookup_insert_eq.
Qed.
(** A transient hook reading cannot outlive its refutation: three observations
    in a row whose rules decide on another state remove it, whatever else they saw
    and whenever they came. *)
Theorem contradicted_reading_expires a m pane readings e l1 l2 l3 :
  readings !! pane = Some e → he_active_start e = false → he_authoritative_end e = false →
  Forall (contradicts (sr_state (he_reading e))) [l1; l2; l3] →
  foldl (look a m pane) readings [l1; l2; l3] !! pane = None.
Proof.
  intros He Ha Hend Hc. rewrite !Forall_cons in Hc. destruct Hc as (H1 & H2 & H3 & _). cbn [foldl].
  destruct (look_contradicted a m pane readings e l1 He Ha Hend H1) as [N1|[L1 E1]]; [by apply look_none, look_none|].
  destruct (look_contradicted a m pane _ _ l2 E1 Ha Hend H2) as [N2|[L2 E2]]; [by apply look_none|].
  destruct (look_contradicted a m pane _ _ l3 E2 Ha Hend H3) as [N3|[L3 E3]]; [done|].
  unfold HOOK_DISAGREE_LIMIT in *. cbn in L1, L2, L3. lia.
Qed.

(** A provisional start always has its deadline, so reconciling it never panics. *)
Definition deadline_ok (e : HookEntry) : Prop :=
  he_active_start e = true → he_confirmed_start e = false → he_provisional_ready_at_ms e ≠ None.
Lemma entries_have_deadlines a m r t :
  Forall deadline_ok [hook_bound a m r; turn_started a m r t; unkeyed_turn_started a m r; provisional_start a m r;
                      turn_ended a m r t; unkeyed_turn_ended a m r; promote (provisional_start a m r)].
Proof. by repeat constructor. Qed.
Lemma take_hook_deadlines readings pane a m d c t im st now :
  map_Forall (λ _, deadline_ok) readings → map_Forall (λ _, deadline_ok) (take_hook readings pane a m d c t im st now).1.
Proof.
  intros Hr. unfold take_hook. destruct (readings !! pane) as [e|] eqn:E; [|done].
  destruct (bool_decide (a = None)); [done|]. destruct (negb (describes e a m)); [by apply map_Forall_delete|].
  assert (∀ act e', hook_action e d c t im st now = (act, e') → deadline_ok e') as Ha.
  { intros act e'. unfold hook_action. repeat case_match; intros [= <- <-]; exact (Hr pane e E). }
  destruct (hook_action e d c t im st now) as [[] e'] eqn:Eh; [|by apply map_Forall_delete].
  apply map_Forall_insert_2; [by eapply Ha|done].
Qed.
Lemma reconcile_deadlines manifests readings pane agent manifest d in_mode observed evidence stable visual :
  map_Forall (λ _, deadline_ok) readings →
  ∃ readings' out, reconcile_unkeyed_start manifests readings pane agent manifest d in_mode observed evidence stable visual
    = Some (readings', out) ∧ map_Forall (λ _, deadline_ok) readings'.
Proof.
  intros Hr. unfold reconcile_unkeyed_start. case_match; [by do 2 eexists|].
  destruct (readings !! pane) as [e|] eqn:E; [|by do 2 eexists].
  destruct (negb (provisional_start_for e agent (Some manifest))) eqn:Ep; [by do 2 eexists|].
  apply negb_false_iff in Ep. unfold provisional_start_for, active_start_for in Ep.
  apply andb_true_iff in Ep as [[Ha _]%andb_true_iff Hc%negb_true_iff].
  assert (Hd := Hr pane e E Ha Hc). destruct (he_provisional_ready_at_ms e) as [ready|]; [|done]. cbn [mbind option_bind].
  destruct (evidence <=? _); [by do 2 eexists|].
  destruct (positive_visual_working _ _ _), (visual_rejects_start _ _ || _); cbn [negb andb]; do 2 eexists; (split; [done|]);
    [by apply map_Forall_delete|by apply map_Forall_insert_2|by apply map_Forall_delete|done].
Qed.
