(* ===== verification/HookLifecycle.v ===== *)
(** * Candidate lifecycle edges

    [src/cyclopsd/src/hook_lifecycle.rs]: the store of hook reports that name the
    start or the end of a turn but need later evidence from the screen.  Each
    operation of [Store] runs under its lock and is one function here; operations
    that only tests use are left out.  Visual ends are recorded by those only; the
    operations still look for them and so does the model.

    A [HashMap] of candidates is a [gmap]; [map_values] enumerates it in the order of
    [map_to_list], and every choice among candidates is by a key that tells them
    apart, so that the order does not matter.

    Theorems: an end is settled only on a frame drawn after it, for the process and
    rules that reported it; the candidates of a pane belong to one process and
    rules; a token of a replaced report is refused. *)
From S2P Require Import Prelude Text Identity Ledger DeliveryGate TurnKeys.
Local Open Scope N_scope.

#[export] Instance KeyField_countable : Countable KeyField.
Proof. refine (inj_countable' (λ '(KText s), s) KText _). by intros []. Defined.
#[export] Instance TurnKey_countable : Countable TurnKey.
Proof. refine (inj_countable' tk_fields MkTurnKey _). by intros []. Defined.

(** ** State *)
Record Candidate := MkCandidate {
  ca_generation : N;
  ca_agent : ProcId;
  ca_manifest : rstr;
  ca_turn : TurnKey;
  ca_event : rstr;
  ca_edge_ms : N;
  ca_ready_at_ms : N;
  ca_visual_revision : N;
}.
Record TerminalSettlement := MkSettlement { ts_end : Candidate; ts_start : option Candidate }.
Inductive TerminalKind := KindEnd | KindVisualEnd.
#[export] Instance TerminalKind_eq_dec : EqDecision TerminalKind.
Proof. solve_decision. Defined.
Record Pending := MkPending {
  pd_starts : gmap TurnKey Candidate;
  pd_ends : gmap TurnKey Candidate;
  pd_visual_ends : gmap TurnKey Candidate;
}.
Definition no_pending : Pending := MkPending ∅ ∅ ∅.
Record LifecycleStore := MkLifecycle {
  ls_pending : gmap PaneKey Pending;
  ls_visual_revisions : gmap PaneKey N;
  ls_next_generation : N;
}.
Definition lifecycle_new : LifecycleStore := MkLifecycle ∅ ∅ 0.
Definition pending_is_empty (p : Pending) : bool :=
  bool_decide (pd_starts p = ∅) && bool_decide (pd_ends p = ∅) && bool_decide (pd_visual_ends p = ∅).
Definition edge_of (agent : ProcId) (manifest : rstr) (c : Candidate) : bool :=
  bool_decide (ca_agent c = agent) && bool_decide (ca_manifest c = manifest).
Definition binding_differs (p : Pending) (agent : ProcId) (manifest : rstr) : bool :=
  existsb (λ c, negb (edge_of agent manifest c)) (map_values (pd_starts p) ++ map_values (pd_ends p) ++ map_values (pd_visual_ends p)).
Definition same_candidate (a b : Candidate) : bool :=
  bool_decide (ca_generation a = ca_generation b) && bool_decide (ca_agent a = ca_agent b) &&
  bool_decide (ca_manifest a = ca_manifest b) && bool_decide (ca_turn a = ca_turn b) &&
  bool_decide (ca_edge_ms a = ca_edge_ms b) && bool_decide (ca_ready_at_ms a = ca_ready_at_ms b).
(** [generation.wrapping_add(1).max(1)]. *)
Definition next_generation (n : N) : N := N.max ((n + 1) mod 2 ^ 64) 1.
Definition revision_of (s : LifecycleStore) (pane : PaneKey) : N := default 0 (ls_visual_revisions s !! pane).
Definition set_pending (s : LifecycleStore) (pending : gmap PaneKey Pending) : LifecycleStore :=
  MkLifecycle pending (ls_visual_revisions s) (ls_next_generation s).
(** The bucket put back, or removed when nothing is left in it. *)
Definition put_pending (s : LifecycleStore) (pane : PaneKey) (p : Pending) : LifecycleStore :=
  set_pending s (if pending_is_empty p then delete pane (ls_pending s) else <[pane := p]> (ls_pending s)).

(** ** Choices *)
(** [Iterator::min_by_key]: the first of the least. *)
Fixpoint min_by {A} (le : A → A → bool) (l : list A) : option A :=
  match l with
  | [] => None
  | x :: l => match min_by le l with Some y => Some (if le x y then x else y) | None => Some x end
  end.
Definition turn_text (c : Candidate) : rstr := dedupe_key (ca_turn c) [].
(** Lexicographic comparison of keys. *)
Definition then_le (a b : N) (rest : bool) : bool := (a <? b) || ((a =? b) && rest).
Definition edge_le (a b : Candidate) : bool :=
  then_le (ca_edge_ms a) (ca_edge_ms b) (rstr_leb (turn_text a) (turn_text b)).
Definition kind_rank (k : TerminalKind) : N := match k with KindEnd => 0 | KindVisualEnd => 1 end.
Definition recheck_le (a b : TerminalKind * Candidate) : bool :=
  then_le (ca_ready_at_ms a.2) (ca_ready_at_ms b.2)
    (then_le (ca_edge_ms a.2) (ca_edge_ms b.2)
       (then_le (kind_rank a.1) (kind_rank b.1) (rstr_leb (turn_text a.2) (turn_text b.2)))).

(** ** Operations *)
Definition note_visual_change (s : LifecycleStore) (pane : PaneKey) : LifecycleStore :=
  MkLifecycle (ls_pending s) (<[pane := N.min u64_max (revision_of s pane + 1)]> (ls_visual_revisions s))
    (ls_next_generation s).
Definition has_terminal_candidates (s : LifecycleStore) (pane : PaneKey) : bool :=
  match ls_pending s !! pane with
  | Some p => negb (bool_decide (pd_ends p = ∅)) || negb (bool_decide (pd_visual_ends p = ∅))
  | None => false
  end.
Definition next_terminal_recheck_excluding (s : LifecycleStore) (pane : PaneKey) (attempted : list (TerminalKind * N))
    : option (TerminalKind * Candidate) :=
  p ← ls_pending s !! pane;
  min_by recheck_le
    (List.filter (λ '(kind, c), negb (bool_decide ((kind, ca_generation c) ∈ attempted)))
       ((pair KindEnd <$> map_values (pd_ends p)) ++ (pair KindVisualEnd <$> map_values (pd_visual_ends p)))).
Definition terminal_recheck_key (kind : TerminalKind) (c : Candidate) : TerminalKind * N := (kind, ca_generation c).
Definition terminal_candidate_is_current (s : LifecycleStore) (pane : PaneKey) (kind : TerminalKind) (c : Candidate) : bool :=
  match ls_pending s !! pane with
  | None => false
  | Some p =>
      match match kind with KindEnd => pd_ends p | KindVisualEnd => pd_visual_ends p end !! ca_turn c with
      | Some current => same_candidate current c
      | None => false
      end
  end.
(** The pane's bucket for this binding: another one is emptied. *)
Definition bucket_for (s : LifecycleStore) (pane : PaneKey) (agent : ProcId) (manifest : rstr) : Pending :=
  let p := default no_pending (ls_pending s !! pane) in
  if binding_differs p agent manifest then no_pending else p.
Definition record_start (s : LifecycleStore) (pane : PaneKey) (agent : ProcId) (manifest : rstr) (turn : TurnKey)
    (event : rstr) (edge_ms : N) : LifecycleStore :=
  let generation := next_generation (ls_next_generation s) in
  let p := bucket_for s pane agent manifest in
  let c := MkCandidate generation agent manifest turn event edge_ms edge_ms (revision_of s pane) in
  MkLifecycle (<[pane := MkPending (<[turn := c]> (pd_starts p)) (pd_ends p) (delete turn (pd_visual_ends p))]> (ls_pending s))
    (ls_visual_revisions s) generation.
Definition record_end (s : LifecycleStore) (pane : PaneKey) (agent : ProcId) (manifest : rstr) (turn : TurnKey)
    (event : rstr) (edge_ms settle_ms : N) : LifecycleStore * Candidate :=
  let generation := next_generation (ls_next_generation s) in
  let p := bucket_for s pane agent manifest in
  let c := MkCandidate generation agent manifest turn event edge_ms (N.min u64_max (edge_ms + settle_ms)) (revision_of s pane) in
  (MkLifecycle (<[pane := MkPending (pd_starts p) (<[turn := c]> (pd_ends p)) (delete turn (pd_visual_ends p))]> (ls_pending s))
     (ls_visual_revisions s) generation, c).
Definition clear_visual_end (s : LifecycleStore) (pane : PaneKey) (agent : ProcId) (manifest : rstr) (turn : TurnKey)
    : LifecycleStore :=
  match ls_pending s !! pane with
  | None => s
  | Some p =>
      put_pending s pane
        (if match pd_visual_ends p !! turn with Some c => edge_of agent manifest c | None => false end
         then MkPending (pd_starts p) (pd_ends p) (delete turn (pd_visual_ends p)) else p)
  end.
(** A visual end of the same binding goes with its turn. *)
Definition without_visual_end (p : Pending) (c : Candidate) : gmap TurnKey Candidate :=
  if match pd_visual_ends p !! ca_turn c with Some e => edge_of (ca_agent c) (ca_manifest c) e | None => false end
  then delete (ca_turn c) (pd_visual_ends p) else pd_visual_ends p.
Definition holds_candidate (m : gmap TurnKey Candidate) (c : Candidate) : bool :=
  match m !! ca_turn c with Some e => same_candidate e c | None => false end.
Definition clear_terminal_candidates (s : LifecycleStore) (pane : PaneKey) (c : Candidate) : LifecycleStore * bool :=
  match ls_pending s !! pane with
  | None => (s, false)
  | Some p =>
      if holds_candidate (pd_ends p) c
      then (put_pending s pane (MkPending (pd_starts p) (delete (ca_turn c) (pd_ends p)) (without_visual_end p c)), true)
      else (put_pending s pane p, false)
  end.
Definition settle_terminal_candidate (s : LifecycleStore) (pane : PaneKey) (c : Candidate)
    : LifecycleStore * option TerminalSettlement :=
  match ls_pending s !! pane with
  | None => (s, None)
  | Some p =>
      if negb (holds_candidate (pd_ends p) c) then (s, None)
      else
        let start := e ← pd_starts p !! ca_turn c; if edge_of (ca_agent c) (ca_manifest c) e then Some e else None in
        let starts := match start with Some _ => delete (ca_turn c) (pd_starts p) | None => pd_starts p end in
        (put_pending s pane (MkPending starts (delete (ca_turn c) (pd_ends p)) (without_visual_end p c)),
         Some (MkSettlement c start))
  end.
(** A candidate of this binding on which a later frame was drawn. *)
Definition later_edge (s : LifecycleStore) (pane : PaneKey) (agent : ProcId) (manifest : rstr) (c : Candidate) : bool :=
  edge_of agent manifest c && (ca_visual_revision c <? revision_of s pane).
Definition ready_end (s : LifecycleStore) (pane : PaneKey) (agent : ProcId) (manifest : rstr) (observed_ms evidence_ms : N)
    (c : Candidate) : bool :=
  later_edge s pane agent manifest c && (ca_edge_ms c <? evidence_ms) && (ca_ready_at_ms c <=? observed_ms).
Definition kept_if {A} (f : A → bool) (o : option A) : option A := a ← o; if f a then Some a else None.
Definition settle_next_ready_terminal_with_evidence (s : LifecycleStore) (pane : PaneKey) (agent : ProcId) (manifest : rstr)
    (preferred : option TurnKey) (observed_ms evidence_ms : N) : LifecycleStore * option TerminalSettlement :=
  match ls_pending s !! pane with
  | None => (s, None)
  | Some p =>
      let eligible := ready_end s pane agent manifest observed_ms evidence_ms in
      match
        match kept_if eligible (turn ← preferred; pd_ends p !! turn) with
        | Some c => Some c
        | None => min_by edge_le (List.filter eligible (map_values (pd_ends p)))
        end
      with
      | Some c => settle_terminal_candidate s pane c
      | None => (s, None)
      end
  end.
Definition start_for (s : LifecycleStore) (pane : PaneKey) (agent : ProcId) (manifest : rstr) : option Candidate :=
  p ← ls_pending s !! pane;
  match List.filter (later_edge s pane agent manifest) (map_values (pd_starts p)) with
  | [c] => Some c
  | _ => None
  end.
Definition has_other_start_for (s : LifecycleStore) (pane : PaneKey) (agent : ProcId) (manifest : rstr) (turn : TurnKey) : bool :=
  match ls_pending s !! pane with
  | Some p => existsb (λ c, edge_of agent manifest c && negb (bool_decide (ca_turn c = turn))) (map_values (pd_starts p))
  | None => false
  end.
Definition end_for (s : LifecycleStore) (pane : PaneKey) (agent : ProcId) (manifest : rstr) (preferred : option TurnKey)
    : option Candidate :=
  p ← ls_pending s !! pane;
  match preferred with
  | Some turn => kept_if (later_edge s pane agent manifest) (pd_ends p !! turn)
  | None => min_by edge_le (List.filter (later_edge s pane agent manifest) (map_values (pd_ends p)))
  end.
Definition take_start_for_turn (s : LifecycleStore) (pane : PaneKey) (agent : ProcId) (manifest : rstr) (turn : TurnKey)
    : LifecycleStore * option Candidate :=
  match ls_pending s !! pane with
  | None => (s, None)
  | Some p =>
      match kept_if (edge_of agent manifest) (pd_starts p !! turn) with
      | Some c => (put_pending s pane (MkPending (delete turn (pd_starts p)) (pd_ends p) (pd_visual_ends p)), Some c)
      | None => (put_pending s pane p, None)
      end
  end.
Definition clear_start (s : LifecycleStore) (pane : PaneKey) (c : Candidate) : LifecycleStore * bool :=
  match ls_pending s !! pane with
  | None => (s, false)
  | Some p =>
      if holds_candidate (pd_starts p) c
      then (put_pending s pane (MkPending (delete (ca_turn c) (pd_starts p)) (pd_ends p) (pd_visual_ends p)), true)
      else (put_pending s pane p, false)
  end.
Definition deferred (c : Candidate) (revision : N) : Candidate :=
  MkCandidate (ca_generation c) (ca_agent c) (ca_manifest c) (ca_turn c) (ca_event c) (ca_edge_ms c) (ca_ready_at_ms c) revision.
(** The stored candidate marked as seen by the current frame, if the token is
    current. *)
Definition defer_in (m : gmap TurnKey Candidate) (c : Candidate) (revision : N) : option (gmap TurnKey Candidate) :=
  e ← m !! ca_turn c; if same_candidate e c then Some (<[ca_turn c := deferred e revision]> m) else None.
Definition defer_start (s : LifecycleStore) (pane : PaneKey) (c : Candidate) : LifecycleStore * bool :=
  match (p ← ls_pending s !! pane; starts ← defer_in (pd_starts p) c (revision_of s pane);
         Some (MkPending starts (pd_ends p) (pd_visual_ends p))) with
  | Some p => (set_pending s (<[pane := p]> (ls_pending s)), true)
  | None => (s, false)
  end.
Definition clear_end (s : LifecycleStore) (pane : PaneKey) (turn : TurnKey) : LifecycleStore :=
  match ls_pending s !! pane with
  | None => s
  | Some p => put_pending s pane (MkPending (pd_starts p) (delete turn (pd_ends p)) (pd_visual_ends p))
  end.
Definition defer_end (s : LifecycleStore) (pane : PaneKey) (c : Candidate) : LifecycleStore * bool :=
  match (p ← ls_pending s !! pane; ends ← defer_in (pd_ends p) c (revision_of s pane);
         Some (MkPending (pd_starts p) ends (pd_visual_ends p))) with
  | Some p => (set_pending s (<[pane := p]> (ls_pending s)), true)
  | None => (s, false)
  end.
Definition lifecycle_forget (s : LifecycleStore) (pane : PaneKey) : LifecycleStore :=
  MkLifecycle (delete pane (ls_pending s)) (delete pane (ls_visual_revisions s)) (ls_next_generation s).
Definition forget_if_binding_differs (s : LifecycleStore) (pane : PaneKey) (agent : ProcId) (manifest : rstr)
    : LifecycleStore * bool :=
  if match ls_pending s !! pane with Some p => binding_differs p agent manifest | None => false end
  then (lifecycle_forget s pane, true) else (s, false).

(** ** Runs *)
Inductive LifecycleOp :=
| LNote
| LStart (agent : ProcId) (manifest : rstr) (turn : TurnKey) (event : rstr) (edge_ms : N)
| LEnd (agent : ProcId) (manifest : rstr) (turn : TurnKey) (event : rstr) (edge_ms settle_ms : N)
| LClearVisualEnd (agent : ProcId) (manifest : rstr) (turn : TurnKey)
| LClearTerminal (c : Candidate)
| LSettle (c : Candidate)
| LSettleNext (agent : ProcId) (manifest : rstr) (preferred : option TurnKey) (observed_ms evidence_ms : N)
| LTakeStart (agent : ProcId) (manifest : rstr) (turn : TurnKey)
| LClearStart (c : Candidate)
| LDeferStart (c : Candidate)
| LClearEnd (turn : TurnKey)
| LDeferEnd (c : Candidate)
| LForget
| LForgetIf (agent : ProcId) (manifest : rstr).
Definition lifecycle_step (s : LifecycleStore) (call : PaneKey * LifecycleOp) : LifecycleStore :=
  let '(pane, op) := call in
  match op with
  | LNote => note_visual_change s pane
  | LStart agent manifest turn event edge_ms => record_start s pane agent manifest turn event edge_ms
  | LEnd agent manifest turn event edge_ms settle_ms => (record_end s pane agent manifest turn event edge_ms settle_ms).1
  | LClearVisualEnd agent manifest turn => clear_visual_end s pane agent manifest turn
  | LClearTerminal c => (clear_terminal_candidates s pane c).1
  | LSettle c => (settle_terminal_candidate s pane c).1
  | LSettleNext agent manifest preferred observed_ms evidence_ms =>
      (settle_next_ready_terminal_with_evidence s pane agent manifest preferred observed_ms evidence_ms).1
  | LTakeStart agent manifest turn => (take_start_for_turn s pane agent manifest turn).1
  | LClearStart c => (clear_start s pane c).1
  | LDeferStart c => (defer_start s pane c).1
  | LClearEnd turn => clear_end s pane turn
  | LDeferEnd c => (defer_end s pane c).1
  | LForget => lifecycle_forget s pane
  | LForgetIf agent manifest => (forget_if_binding_differs s pane agent manifest).1
  end.
Definition lifecycle_run (s : LifecycleStore) (calls : list (PaneKey * LifecycleOp)) : LifecycleStore :=
  foldl lifecycle_step s calls.

(** ** What the store holds *)
Record cand_ok (agent : ProcId) (manifest : rstr) (revision : N) (turn : TurnKey) (c : Candidate) : Prop := {
  co_turn : ca_turn c = turn;
  co_agent : ca_agent c = agent;
  co_manifest : ca_manifest c = manifest;
  co_revision : ca_visual_revision c ≤ revision;
}.
Record bucket_ok (revision : N) (agent : ProcId) (manifest : rstr) (p : Pending) : Prop := {
  bo_starts : map_Forall (cand_ok agent manifest revision) (pd_starts p);
  bo_ends : map_Forall (cand_ok agent manifest revision) (pd_ends p);
  bo_visual : map_Forall (cand_ok agent manifest revision) (pd_visual_ends p);
}.
Record lifecycle_ok (s : LifecycleStore) : Prop := {
  lo_buckets : map_Forall (λ pane p, pending_is_empty p = false ∧ ∃ agent manifest, bucket_ok (revision_of s pane) agent manifest p)
                 (ls_pending s);
  lo_revisions : ∀ pane, revision_of s pane ≤ u64_max;
}.
Lemma cand_ok_mono a m r r' t c : r ≤ r' → cand_ok a m r t c → cand_ok a m r' t c.
Proof. intros Hr []. split; [done|done|done|lia]. Qed.
Lemma bucket_ok_mono a m r r' p : r ≤ r' → bucket_ok r a m p → bucket_ok r' a m p.
Proof. intros Hr [H1 H2 H3]. split; (eapply map_Forall_impl; [eassumption|]; intros t c; by apply cand_ok_mono). Qed.
Lemma edge_of_true a m c : edge_of a m c = true ↔ ca_agent c = a ∧ ca_manifest c = m.
Proof. unfold edge_of. by rewrite andb_true_iff, !bool_decide_eq_true. Qed.
(** A bucket whose binding does not differ has only candidates of that binding. *)
Lemma binding_same p a m :
  binding_differs p a m = false →
  ∀ t c, pd_starts p !! t = Some c ∨ pd_ends p !! t = Some c ∨ pd_visual_ends p !! t = Some c → edge_of a m c = true.
Proof.
  unfold binding_differs. intros H t c Hc. destruct (edge_of a m c) eqn:E; [done|].
  enough (existsb (λ c, negb (edge_of a m c)) (map_values (pd_starts p) ++ map_values (pd_ends p) ++ map_values (pd_visual_ends p)) = true)
    by congruence.
  apply List.existsb_exists. exists c. rewrite E. split; [|done]. apply list_elem_of_In. rewrite !elem_of_app, !elem_of_values.
  destruct Hc as [Hc|[Hc|Hc]]; [left|right; left|right; right]; by exists t.
Qed.
Lemma bucket_for_ok s pane a m : lifecycle_ok s → bucket_ok (revision_of s pane) a m (bucket_for s pane a m).
Proof.
  intros [Hb _]. unfold bucket_for. destruct (ls_pending s !! pane) as [p|] eqn:E; cbn.
  2:{ destruct (binding_differs no_pending a m); split; apply map_Forall_empty. }
  destruct (binding_differs p a m) eqn:Ed; [split; apply map_Forall_empty|].
  destruct (Hb pane p E) as [_ (a' & m' & [H1 H2 H3])].
  split; intros t c Hc; [destruct (H1 t c Hc)|destruct (H2 t c Hc)|destruct (H3 t c Hc)];
    assert (edge_of a m c = true) as [??]%edge_of_true by (eapply binding_same; [exact Ed|]; eauto); by split.
Qed.
Lemma ok_put s pane a m p :
  lifecycle_ok s → bucket_ok (revision_of s pane) a m p → lifecycle_ok (put_pending s pane p).
Proof.
  intros [Hb Hr] Hp. split; [|exact Hr]. unfold put_pending. cbn. destruct (pending_is_empty p) eqn:E.
  - by apply map_Forall_delete.
  - apply map_Forall_insert_2; [|exact Hb]. split; [done|]. by exists a, m.
Qed.
Lemma ok_insert s pane a m p g :
  lifecycle_ok s → bucket_ok (revision_of s pane) a m p → pending_is_empty p = false →
  lifecycle_ok (MkLifecycle (<[pane := p]> (ls_pending s)) (ls_visual_revisions s) g).
Proof.
  intros [Hb Hr] Hp He. split; [|exact Hr]. cbn. apply map_Forall_insert_2; [|exact Hb]. split; [done|]. by exists a, m.
Qed.
Lemma bucket_sub r a m p p' :
  bucket_ok r a m p → pd_starts p' ⊆ pd_starts p → pd_ends p' ⊆ pd_ends p → pd_visual_ends p' ⊆ pd_visual_ends p →
  bucket_ok r a m p'.
Proof.
  intros [H1 H2 H3] S1 S2 S3. split; intros t c Hc; [apply H1|apply H2|apply H3];
    by eapply lookup_weaken; [exact Hc|].
Qed.
Lemma without_visual_end_sub p c : without_visual_end p c ⊆ pd_visual_ends p.
Proof. unfold without_visual_end. case_match; [apply delete_subseteq|done]. Qed.
(** A bucket reduced in place. *)
Lemma ok_shrink s pane p p' :
  lifecycle_ok s → ls_pending s !! pane = Some p →
  pd_starts p' ⊆ pd_starts p → pd_ends p' ⊆ pd_ends p → pd_visual_ends p' ⊆ pd_visual_ends p →
  lifecycle_ok (put_pending s pane p').
Proof.
  intros Hs Hp H1 H2 H3. destruct (lo_buckets s Hs pane p Hp) as [_ (a & m & Hb)].
  eapply ok_put; [done|]. by eapply bucket_sub.
Qed.
Lemma settle_ok s pane c : lifecycle_ok s → lifecycle_ok (settle_terminal_candidate s pane c).1.
Proof.
  intros Hs. unfold settle_terminal_candidate. destruct (ls_pending s !! pane) as [p|] eqn:Hp; [|done].
  destruct (negb _); [done|]. cbn. eapply ok_shrink; [done|done| |apply delete_subseteq|apply without_visual_end_sub].
  cbn. case_match; [apply delete_subseteq|done].
Qed.
Lemma defer_in_ok a m r revision c mp mp' :
  revision ≤ r → map_Forall (cand_ok a m r) mp → defer_in mp c revision = Some mp' →
  map_Forall (cand_ok a m r) mp'.
Proof.
  intros Hr Hm Hd. unfold defer_in in Hd. destruct (mp !! ca_turn c) as [e|] eqn:E; [|done]. cbn in Hd.
  case_match; [|done]. injection Hd as <-. apply map_Forall_insert_2; [|done].
  destruct (Hm _ _ E). by split.
Qed.
Lemma not_empty_starts p t c : pd_starts p !! t = Some c → pending_is_empty p = false.
Proof. intros H. unfold pending_is_empty. rewrite (bool_decide_eq_false_2 (pd_starts p = ∅)); [done|]. intros E. by rewrite E in H. Qed.
Lemma not_empty_ends p t c : pd_ends p !! t = Some c → pending_is_empty p = false.
Proof.
  intros H. unfold pending_is_empty. rewrite (bool_decide_eq_false_2 (pd_ends p = ∅)); [by rewrite andb_false_r|].
  intros E. by rewrite E in H.
Qed.
Lemma defer_in_lookup mp c r mp' : defer_in mp c r = Some mp' → ∃ e, mp' !! ca_turn c = Some e.
Proof.
  unfold defer_in. destruct (mp !! ca_turn c) as [e|]; [|done]. cbn. case_match; [|done]. intros [= <-].
  rewrite lookup_insert_eq. by eexists.
Qed.
Lemma revision_note s pane pane' :
  revision_of (note_visual_change s pane) pane' =
  if bool_decide (pane' = pane) then N.min u64_max (revision_of s pane + 1) else revision_of s pane'.
Proof.
  unfold revision_of, note_visual_change. cbn. case_bool_decide as E.
  - subst. by rewrite lookup_insert_eq.
  - by rewrite lookup_insert_ne.
Qed.
Lemma revision_forget s pane pane' :
  revision_of (lifecycle_forget s pane) pane' = if bool_decide (pane' = pane) then 0 else revision_of s pane'.
Proof.
  unfold revision_of, lifecycle_forget. cbn. case_bool_decide as E.
  - subst. by rewrite lookup_delete_eq.
  - by rewrite lookup_delete_ne.
Qed.
Lemma forget_ok s pane : lifecycle_ok s → lifecycle_ok (lifecycle_forget s pane).
Proof.
  intros [Hb Hr]. split.
  - intros pane' p. cbn. intros [Hne Hp]%lookup_delete_Some. rewrite revision_forget.
    rewrite bool_decide_eq_false_2 by done. by apply Hb.
  - intros pane'. rewrite revision_forget. case_bool_decide; [unfold u64_max; lia|apply Hr].
Qed.
Lemma step_ok s call : lifecycle_ok s → lifecycle_ok (lifecycle_step s call).
Proof.
  intros Hs. assert (Hb := bucket_for_ok s). destruct call as [pane op]. destruct op; cbn [lifecycle_step].
  - destruct Hs as [Hp Hr]. split.
    + intros pane' p Hl. destruct (Hp pane' p Hl) as [He (a & m & Hok)]. split; [done|]. exists a, m.
      eapply bucket_ok_mono; [|exact Hok]. rewrite revision_note. case_bool_decide as E; [|done].
      subst. specialize (Hr pane). lia.
    + intros pane'. rewrite revision_note. case_bool_decide; [lia|apply Hr].
  - destruct (Hb pane agent manifest Hs) as [H1 H2 H3]. eapply ok_insert; [done| |by eapply not_empty_starts; cbn; apply lookup_insert_eq].
    split; cbn; [by apply map_Forall_insert_2|done|by apply map_Forall_delete].
  - destruct (Hb pane agent manifest Hs) as [H1 H2 H3]. eapply ok_insert; [done| |by eapply not_empty_ends; cbn; apply lookup_insert_eq].
    split; cbn; [done|by apply map_Forall_insert_2|by apply map_Forall_delete].
  - unfold clear_visual_end. destruct (ls_pending s !! pane) as [p|] eqn:Hp; [|done].
    eapply ok_shrink; [done|done|..]; (case_match; cbn; try done; apply delete_subseteq).
  - unfold clear_terminal_candidates. destruct (ls_pending s !! pane) as [p|] eqn:Hp; [|done].
    case_match; cbn; (eapply ok_shrink; [done|done|..]); cbn; try done; [apply delete_subseteq|apply without_visual_end_sub].
  - by apply settle_ok.
  - unfold settle_next_ready_terminal_with_evidence. destruct (ls_pending s !! pane); [|done].
    case_match; [by apply settle_ok|done].
  - unfold take_start_for_turn. destruct (ls_pending s !! pane) as [p|] eqn:Hp; [|done].
    case_match; cbn; (eapply ok_shrink; [done|done|..]); cbn; try done; apply delete_subseteq.
  - unfold clear_start. destruct (ls_pending s !! pane) as [p|] eqn:Hp; [|done].
    case_match; cbn; (eapply ok_shrink; [done|done|..]); cbn; try done; apply delete_subseteq.
  - unfold defer_start. destruct (ls_pending s !! pane) as [p|] eqn:Hp; [|done]. cbn.
    destruct (defer_in (pd_starts p) c (revision_of s pane)) as [starts|] eqn:Ed; [|done]. cbn.
    destruct (lo_buckets s Hs pane p Hp) as [_ (a & m & [H1 H2 H3])]. destruct (defer_in_lookup _ _ _ _ Ed) as [e He].
    eapply ok_insert; [done| |by eapply not_empty_starts]. split; [|done|done]. exact (defer_in_ok _ _ _ _ _ _ _ (N.le_refl _) H1 Ed).
  - unfold clear_end. destruct (ls_pending s !! pane) as [p|] eqn:Hp; [|done].
    eapply ok_shrink; [done|done|done|apply delete_subseteq|done].
  - unfold defer_end. destruct (ls_pending s !! pane) as [p|] eqn:Hp; [|done]. cbn.
    destruct (defer_in (pd_ends p) c (revision_of s pane)) as [ends|] eqn:Ed; [|done]. cbn.
    destruct (lo_buckets s Hs pane p Hp) as [_ (a & m & [H1 H2 H3])]. destruct (defer_in_lookup _ _ _ _ Ed) as [e He].
    eapply ok_insert; [done| |by eapply not_empty_ends]. split; [done| |done]. exact (defer_in_ok _ _ _ _ _ _ _ (N.le_refl _) H2 Ed).
  - by apply forget_ok.
  - unfold forget_if_binding_differs. case_match; [by apply forget_ok|done].
Qed.
Lemma new_ok : lifecycle_ok lifecycle_new.
Proof. split; [apply map_Forall_empty|]. intros pane. unfold revision_of. cbn. rewrite lookup_empty. cbn. unfold u64_max. lia. Qed.
Lemma run_ok calls : lifecycle_ok (lifecycle_run lifecycle_new calls).
Proof.
  unfold lifecycle_run. generalize new_ok. generalize lifecycle_new. induction calls as [|c calls IH]; intros s Hs; cbn; [done|].
  by apply IH, step_ok.
Qed.

(** ** Settlement *)
Lemma min_by_Some {A} (le : A → A → bool) (key : A → N) l x :
  (∀ a b, if le a b then key a ≤ key b else key b ≤ key a) → min_by le l = Some x →
  x ∈ l ∧ Forall (λ y, key x ≤ key y) l.
Proof.
  intros Hle. revert x. induction l as [|a l IH]; intros x; cbn; [done|].
  destruct (min_by le l) as [y|] eqn:E.
  - destruct (IH y eq_refl) as [Hin Hall]. specialize (Hle a y). destruct (le a y); intros [= <-].
    + split; [by left|]. constructor; [lia|]. eapply Forall_impl; [exact Hall|]. cbn. intros z Hz. lia.
    + split; [by right|]. by constructor.
  - destruct l as [|b l]; [|cbn in E; by destruct (min_by le l)]. intros [= <-]. split; [by left|]. by repeat constructor.
Qed.
Lemma edge_le_key a b : if edge_le a b then ca_edge_ms a ≤ ca_edge_ms b else ca_edge_ms b ≤ ca_edge_ms a.
Proof.
  unfold edge_le, then_le. destruct (N.ltb_spec (ca_edge_ms a) (ca_edge_ms b)); cbn; [lia|].
  destruct (N.eqb_spec (ca_edge_ms a) (ca_edge_ms b)); cbn; [|lia]. destruct (rstr_leb _ _); lia.
Qed.
Lemma same_candidate_refl c : same_candidate c c = true.
Proof. unfold same_candidate. by rewrite !bool_decide_eq_true_2. Qed.
Lemma same_candidate_turn a b : same_candidate a b = true → ca_turn a = ca_turn b ∧ ca_generation a = ca_generation b.
Proof. unfold same_candidate. rewrite !andb_true_iff, !bool_decide_eq_true. tauto. Qed.
Lemma later_edge_true s pane a m c :
  later_edge s pane a m c = true ↔ ca_agent c = a ∧ ca_manifest c = m ∧ ca_visual_revision c < revision_of s pane.
Proof. unfold later_edge. rewrite andb_true_iff, edge_of_true, N.ltb_lt. tauto. Qed.
Lemma kept_if_Some {A} (f : A → bool) o a : kept_if f o = Some a ↔ o = Some a ∧ f a = true.
Proof.
  unfold kept_if. destruct o as [x|]; cbn; [|by split; [|intros []]]. destruct (f x) eqn:E.
  - split; [by intros [= <-]|by intros [[= <-] _]].
  - split; [done|]. intros [[= <-] H]. congruence.
Qed.
(** Every candidate of a turn is gone from the bucket; the others are untouched. *)
Definition turn_cleared (p p' : Pending) (turn : TurnKey) : Prop :=
  pd_starts p' = delete turn (pd_starts p) ∧ pd_ends p' = delete turn (pd_ends p) ∧
  pd_visual_ends p' = delete turn (pd_visual_ends p).
Lemma lookup_put s pane p pane' :
  ls_pending (put_pending s pane p) !! pane' =
  if bool_decide (pane' = pane) then if pending_is_empty p then None else Some p else ls_pending s !! pane'.
Proof.
  unfold put_pending. cbn. case_bool_decide as E; [subst|]; destruct (pending_is_empty p);
    by rewrite ?lookup_insert_eq, ?lookup_delete_eq, ?lookup_insert_ne, ?lookup_delete_ne.
Qed.
Lemma settle_Some s pane c s' st :
  lifecycle_ok s → (∃ p, ls_pending s !! pane = Some p ∧ pd_ends p !! ca_turn c = Some c) →
  settle_terminal_candidate s pane c = (s', Some st) →
  ∃ p, ls_pending s !! pane = Some p ∧ ts_end st = c ∧ pd_ends p !! ca_turn c = Some c ∧
    ts_start st = pd_starts p !! ca_turn c ∧
    (∀ p', ls_pending s' !! pane = Some p' → turn_cleared p p' (ca_turn c)) ∧
    (∀ pane', pane' ≠ pane → ls_pending s' !! pane' = ls_pending s !! pane').
Proof.
  intros Hs (p & Hp & Hc). unfold settle_terminal_candidate. rewrite Hp.
  destruct (negb (holds_candidate (pd_ends p) c)); [done|]. intros [= <- <-].
  destruct (lo_buckets s Hs pane p Hp) as [_ (a & m & [H1 H2 H3])]. destruct (H2 _ _ Hc) as [_ Ha Hm _].
  assert (∀ e (mp : gmap TurnKey Candidate), map_Forall (cand_ok a m (revision_of s pane)) mp → mp !! ca_turn c = Some e →
    edge_of (ca_agent c) (ca_manifest c) e = true) as Hedge.
  { intros e mp Hmp He. destruct (Hmp _ _ He) as [_ Hea Hem _]. apply edge_of_true. split; congruence. }
  assert ((e ← pd_starts p !! ca_turn c; if edge_of (ca_agent c) (ca_manifest c) e then Some e else None)
          = pd_starts p !! ca_turn c) as Hstart.
  { destruct (pd_starts p !! ca_turn c) as [e|] eqn:E; [|done]. cbn. by rewrite (Hedge e _ H1 E). }
  exists p. cbn [ts_end ts_start]. rewrite Hstart. split_and!; try done.
  - intros p'. rewrite lookup_put, bool_decide_eq_true_2 by done. case_match; [done|]. intros [= <-]. unfold turn_cleared. cbn.
    split_and!; [|done|].
    + destruct (pd_starts p !! ca_turn c) eqn:E; [done|]. by rewrite delete_id.
    + unfold without_visual_end. destruct (pd_visual_ends p !! ca_turn c) as [e|] eqn:E; [by rewrite (Hedge e _ H3 E)|].
      by rewrite delete_id.
  - intros pane' Hne. by rewrite lookup_put, bool_decide_eq_false_2.
Qed.
Lemma settle_next_Some calls pane agent manifest preferred observed_ms evidence_ms s' st :
  let s := lifecycle_run lifecycle_new calls in
  settle_next_ready_terminal_with_evidence s pane agent manifest preferred observed_ms evidence_ms = (s', Some st) →
  ∃ p, ls_pending s !! pane = Some p ∧
    let c := ts_end st in
    pd_ends p !! ca_turn c = Some c ∧ ca_agent c = agent ∧ ca_manifest c = manifest ∧
    ca_visual_revision c < revision_of s pane ∧ ca_edge_ms c < evidence_ms ∧ ca_ready_at_ms c ≤ observed_ms ∧
    (preferred = Some (ca_turn c) ∨
     ∀ t c', pd_ends p !! t = Some c' → ready_end s pane agent manifest observed_ms evidence_ms c' = true →
       ca_edge_ms c ≤ ca_edge_ms c') ∧
    ts_start st = pd_starts p !! ca_turn c ∧
    (∀ p', ls_pending s' !! pane = Some p' → turn_cleared p p' (ca_turn c)) ∧
    (∀ pane', pane' ≠ pane → ls_pending s' !! pane' = ls_pending s !! pane').
Proof.
  intros s. assert (lifecycle_ok s) as Hs by apply run_ok. clearbody s.
  unfold settle_next_ready_terminal_with_evidence. destruct (ls_pending s !! pane) as [p|] eqn:Hp; [|done].
  set (eligible := ready_end s pane agent manifest observed_ms evidence_ms).
  destruct (lo_buckets s Hs pane p Hp) as [_ (a & m & [_ Hends _])].
  case_match eqn:Ec; [|done]. intros Hset. rename c into c0.
  assert (eligible c0 = true ∧ pd_ends p !! ca_turn c0 = Some c0 ∧
    (preferred = Some (ca_turn c0) ∨ ∀ t c', pd_ends p !! t = Some c' → eligible c' = true → ca_edge_ms c0 ≤ ca_edge_ms c'))
    as (He & Hc & Hpref).
  { case_match eqn:Ek.
    - injection Ec as <-. apply kept_if_Some in Ek as [Ek He]. destruct preferred as [t|]; [|done]. cbn in Ek.
      destruct (Hends _ _ Ek) as [<- _ _ _]. split_and!; [done|done|by left].
    - apply (min_by_Some _ ca_edge_ms _ _ edge_le_key) in Ec as [Hin Hall].
      apply list_elem_of_In, List.filter_In in Hin as [Hin%list_elem_of_In He]. apply elem_of_values in Hin as [t Ht].
      destruct (Hends _ _ Ht) as [<- _ _ _]. split_and!; [done|done|]. right. intros t' c' Hc' He'.
      rewrite Forall_forall in Hall. apply Hall, list_elem_of_In, List.filter_In. split; [|done].
      apply list_elem_of_In, elem_of_values. by exists t'. }
  destruct (settle_Some s pane c0 s' st Hs (ex_intro _ p (conj Hp Hc)) Hset) as (p' & Hp' & -> & _ & Hst & Hcl & Hoth).
  rewrite Hp in Hp'. injection Hp' as <-. exists p. unfold eligible, ready_end in He.
  apply andb_true_iff in He as [[He Hev%N.ltb_lt]%andb_true_iff Hobs%N.leb_le]. apply later_edge_true in He as (Ha & Hm & Hrev).
  by split_and!.
Qed.
(** A reported end settles a turn only on a frame drawn after it.  Whatever
    reports, frames and settlements came before, the end that an observation
    settles is one this process reported under these rules, a screen was recorded
    after it or after it was last looked at, the evidence is younger than the
    report, its quiet period is over, and it is the preferred turn's or none that is
    ready is older.  With it go the start and the visual end of that very turn, and
    nothing else. *)
Theorem ends_settle_on_later_frames calls pane agent manifest preferred observed_ms evidence_ms s' st :
  let s := lifecycle_run lifecycle_new calls in
  settle_next_ready_terminal_with_evidence s pane agent manifest preferred observed_ms evidence_ms = (s', Some st) →
  ∃ p, ls_pending s !! pane = Some p ∧
    let c := ts_end st in
    pd_ends p !! ca_turn c = Some c ∧ ca_agent c = agent ∧ ca_manifest c = manifest ∧
    ca_visual_revision c < revision_of s pane ∧ ca_edge_ms c < evidence_ms ∧ ca_ready_at_ms c ≤ observed_ms ∧
    (preferred = Some (ca_turn c) ∨
     ∀ t c', pd_ends p !! t = Some c' → ready_end s pane agent manifest observed_ms evidence_ms c' = true →
       ca_edge_ms c ≤ ca_edge_ms c') ∧
    ts_start st = pd_starts p !! ca_turn c ∧
    (∀ p', ls_pending s' !! pane = Some p' → turn_cleared p p' (ca_turn c)) ∧
    (∀ pane', pane' ≠ pane → ls_pending s' !! pane' = ls_pending s !! pane').
Proof. apply settle_next_Some. Qed.
Lemma settled_end calls pane agent manifest preferred observed_ms evidence_ms s' st :
  let s := lifecycle_run lifecycle_new calls in
  settle_next_ready_terminal_with_evidence s pane agent manifest preferred observed_ms evidence_ms = (s', Some st) →
  ∃ p, ls_pending s !! pane = Some p ∧ pd_ends p !! ca_turn (ts_end st) = Some (ts_end st) ∧
    ca_visual_revision (ts_end st) < revision_of s pane.
Proof. intros s (p & Hp & Hc & _ & _ & Hrev & _)%settle_next_Some. by exists p. Qed.

(** ** No frame, no settlement *)
(** No frame was recorded since the stored end of this turn was reported or last
    looked at. *)
Definition unseen (s : LifecycleStore) (pane : PaneKey) (turn : TurnKey) : Prop :=
  ∀ p c, ls_pending s !! pane = Some p → pd_ends p !! turn = Some c → revision_of s pane ≤ ca_visual_revision c.
(** An end in the bucket after a step was there, or is marked with the frame of
    now. *)
Definition ends_from (s s' : LifecycleStore) (pane : PaneKey) : Prop :=
  ∀ p' t c, ls_pending s' !! pane = Some p' → pd_ends p' !! t = Some c →
    revision_of s' pane = revision_of s pane ∧
    (ca_visual_revision c = revision_of s pane ∨ ∃ p, ls_pending s !! pane = Some p ∧ pd_ends p !! t = Some c).
Lemma ends_from_refl s pane : ends_from s s pane.
Proof. intros p t c Hp Hc. split; [done|]. right. by exists p. Qed.
Lemma ends_from_put s pane p p' :
  ls_pending s !! pane = Some p → pd_ends p' ⊆ pd_ends p → ends_from s (put_pending s pane p') pane.
Proof.
  intros Hp Hsub q t c. rewrite lookup_put, bool_decide_eq_true_2 by done. case_match; [done|]. intros [= <-] Hc.
  split; [done|]. right. exists p. split; [done|]. by eapply lookup_weaken.
Qed.
Lemma bucket_for_ends s pane a m t c :
  pd_ends (bucket_for s pane a m) !! t = Some c → ∃ p, ls_pending s !! pane = Some p ∧ pd_ends p !! t = Some c.
Proof.
  unfold bucket_for. destruct (ls_pending s !! pane) as [p|]; cbn; case_match; cbn; intros Hc; try (by rewrite lookup_empty in Hc).
  by exists p.
Qed.
Lemma settle_ends_from s pane c : ends_from s (settle_terminal_candidate s pane c).1 pane.
Proof.
  unfold settle_terminal_candidate. destruct (ls_pending s !! pane) as [p|] eqn:Hp; [|apply ends_from_refl].
  destruct (negb _); [apply ends_from_refl|]. eapply ends_from_put; [done|apply delete_subseteq].
Qed.
Lemma step_ends s pane op : op ≠ LNote → ends_from s (lifecycle_step s (pane, op)) pane.
Proof.
  intros Hn. destruct op; cbn [lifecycle_step]; try done.
  - intros p' t c. cbn. rewrite lookup_insert_eq. intros [= <-] Hc. split; [done|]. right. by eapply bucket_for_ends.
  - intros p' t c. cbn. rewrite lookup_insert_eq. intros [= <-]. cbn. split; [done|].
    destruct (decide (t = turn)) as [->|Hne].
    + rewrite lookup_insert_eq in H. injection H as <-. by left.
    + rewrite lookup_insert_ne in H by done. right. by eapply bucket_for_ends.
  - unfold clear_visual_end. destruct (ls_pending s !! pane) as [p|] eqn:Hp; [|apply ends_from_refl].
    eapply ends_from_put; [done|]. by case_match.
  - unfold clear_terminal_candidates. destruct (ls_pending s !! pane) as [p|] eqn:Hp; [|apply ends_from_refl].
    case_match; (eapply ends_from_put; [done|]); [apply delete_subseteq|done].
  - apply settle_ends_from.
  - unfold settle_next_ready_terminal_with_evidence. destruct (ls_pending s !! pane); [|apply ends_from_refl].
    case_match; [apply settle_ends_from|apply ends_from_refl].
  - unfold take_start_for_turn. destruct (ls_pending s !! pane) as [p|] eqn:Hp; [|apply ends_from_refl].
    case_match; by eapply ends_from_put.
  - unfold clear_start. destruct (ls_pending s !! pane) as [p|] eqn:Hp; [|apply ends_from_refl].
    case_match; by eapply ends_from_put.
  - unfold defer_start. destruct (ls_pending s !! pane) as [p|] eqn:Hp; [|apply ends_from_refl]. cbn.
    destruct (defer_in _ _ _); [|apply ends_from_refl]. cbn. intros p' t c0. cbn. rewrite lookup_insert_eq.
    intros [= <-] Hc. split; [done|]. right. by exists p.
  - unfold clear_end. destruct (ls_pending s !! pane) as [p|] eqn:Hp; [|apply ends_from_refl].
    eapply ends_from_put; [done|apply delete_subseteq].
  - unfold defer_end. destruct (ls_pending s !! pane) as [p|] eqn:Hp; [|apply ends_from_refl]. cbn.
    destruct (defer_in (pd_ends p) c (revision_of s pane)) as [ends|] eqn:Ed; [|apply ends_from_refl]. cbn.
    intros p' t c0. cbn. rewrite lookup_insert_eq. intros [= <-] Hc. split; [done|]. cbn in Hc.
    unfold defer_in in Ed. destruct (pd_ends p !! ca_turn c) as [e|] eqn:Ee; [|done]. cbn in Ed. case_match; [|done].
    injection Ed as <-. apply lookup_insert_Some in Hc as [[<- <-]|[_ Hc]]; [by left|]. right. by exists p.
  - intros p' t c. cbn. by rewrite lookup_delete_eq.
  - unfold forget_if_binding_differs. case_match; [|apply ends_from_refl]. intros p' t c. cbn. by rewrite lookup_delete_eq.
Qed.
(** A step touches its own pane only. *)
Lemma step_other s pane op pane' :
  pane' ≠ pane →
  ls_pending (lifecycle_step s (pane, op)) !! pane' = ls_pending s !! pane' ∧
  revision_of (lifecycle_step s (pane, op)) pane' = revision_of s pane'.
Proof.
  intros Hne. assert (∀ p, ls_pending (put_pending s pane p) !! pane' = ls_pending s !! pane') as Hput.
  { intros p. by rewrite lookup_put, bool_decide_eq_false_2. }
  assert (∀ c, ls_pending (settle_terminal_candidate s pane c).1 !! pane' = ls_pending s !! pane' ∧
               revision_of (settle_terminal_candidate s pane c).1 pane' = revision_of s pane') as Hset.
  { intros c. unfold settle_terminal_candidate. destruct (ls_pending s !! pane); [|done]. by destruct (negb _); cbn [fst]. }
  destruct op; cbn [lifecycle_step];
    try (unfold clear_visual_end, clear_terminal_candidates, take_start_for_turn, clear_start, clear_end;
         destruct (ls_pending s !! pane); [|done]; by repeat case_match; cbn [fst]).
  - split; [done|]. by rewrite revision_note, bool_decide_eq_false_2.
  - cbn. by rewrite lookup_insert_ne.
  - cbn. by rewrite lookup_insert_ne.
  - unfold settle_next_ready_terminal_with_evidence. destruct (ls_pending s !! pane); [|done]. case_match; [apply Hset|done].
  - unfold defer_start. case_match; [|done]. cbn. by rewrite lookup_insert_ne.
  - unfold defer_end. case_match; [|done]. cbn. by rewrite lookup_insert_ne.
  - cbn. rewrite lookup_delete_ne, revision_forget, bool_decide_eq_false_2 by done. done.
  - unfold forget_if_binding_differs. case_match; [|done]. cbn.
    rewrite lookup_delete_ne, revision_forget, bool_decide_eq_false_2 by done. done.
Qed.
Lemma unseen_step s call pane turn : unseen s pane turn → call ≠ (pane, LNote) → unseen (lifecycle_step s call) pane turn.
Proof.
  intros Hu Hn p c Hp Hc. destruct call as [pane' op]. destruct (decide (pane' = pane)) as [->|Hne].
  - assert (op ≠ LNote) as Ho by congruence.
    destruct (step_ends s pane op Ho p turn c Hp Hc) as [-> [->|(q & Hq & Hqc)]]; [done|]. by eapply Hu.
  - destruct (step_other s pane' op pane ltac:(congruence)) as [H1 H2]. rewrite H1 in Hp. rewrite H2. by eapply Hu.
Qed.
(** A hook's word settles nothing by itself.  From the moment an end is
    reported, whatever other reports, looks, settlements and retirements follow on
    any pane, no observation settles that turn's end until a frame of its own pane
    was recorded. *)
Theorem no_frame_no_settlement before pane agent manifest turn event edge_ms settle_ms calls
    agent' manifest' preferred observed_ms evidence_ms st :
  (pane, LNote) ∉ calls →
  let s := lifecycle_run (lifecycle_run lifecycle_new (before ++ [(pane, LEnd agent manifest turn event edge_ms settle_ms)])) calls in
  (settle_next_ready_terminal_with_evidence s pane agent' manifest' preferred observed_ms evidence_ms).2 = Some st →
  ca_turn (ts_end st) ≠ turn.
Proof.
  intros Hcalls s Hst Ht.
  assert (unseen s pane turn) as Hu.
  { unfold s, lifecycle_run. rewrite foldl_app. cbn [foldl]. set (s0 := foldl lifecycle_step lifecycle_new before).
    assert (unseen (lifecycle_step s0 (pane, LEnd agent manifest turn event edge_ms settle_ms)) pane turn) as Hu0.
    { intros p c. cbn. rewrite lookup_insert_eq. intros [= <-]. cbn. rewrite lookup_insert_eq. intros [= <-]. cbn. done. }
    revert Hu0. generalize (lifecycle_step s0 (pane, LEnd agent manifest turn event edge_ms settle_ms)). clear s Hst s0.
    induction calls as [|call calls IH]; intros s Hu; [done|]. apply not_elem_of_cons in Hcalls as [Hc Hcs]. cbn.
    apply IH; [done|]. by apply unseen_step. }
  assert (s = lifecycle_run lifecycle_new ((before ++ [(pane, LEnd agent manifest turn event edge_ms settle_ms)]) ++ calls)) as Hs.
  { unfold s, lifecycle_run. by rewrite <- foldl_app. }
  destruct (settle_next_ready_terminal_with_evidence s pane agent' manifest' preferred observed_ms evidence_ms) as [s' o] eqn:E.
  cbn in Hst. subst o. rewrite Hs in E. apply settled_end in E as (p & Hp & Hc & Hrev). rewrite <- Hs in Hp, Hrev.
  rewrite Ht in Hc. specialize (Hu p _ Hp Hc). lia.
Qed.

(** ** Tokens *)
(** A report that replaces another one of its turn gets a new generation, so a
    token taken before names nothing any more, until the counter has wrapped. *)
Theorem replaced_token_is_refused s pane agent manifest turn event edge_ms settle_ms c :
  ca_turn c = turn → ca_generation c ≤ ls_next_generation s → ls_next_generation s < u64_max →
  let s' := (record_end s pane agent manifest turn event edge_ms settle_ms).1 in
  settle_terminal_candidate s' pane c = (s', None) ∧ defer_end s' pane c = (s', false) ∧
  (clear_terminal_candidates s' pane c).2 = false ∧ terminal_candidate_is_current s' pane KindEnd c = false.
Proof.
  intros <- Hg Hmax. cbn zeta.
  set (n := (record_end s pane agent manifest (ca_turn c) event edge_ms settle_ms).2).
  assert (same_candidate n c = false) as Hsame.
  { destruct (same_candidate n c) eqn:E; [|done]. apply same_candidate_turn in E as [_ E]. cbn in E. unfold next_generation in E.
    rewrite N.mod_small in E by (unfold u64_max in Hmax; lia). lia. }
  set (s' := (record_end s pane agent manifest (ca_turn c) event edge_ms settle_ms).1).
  assert (∃ p, ls_pending s' !! pane = Some p ∧ pd_ends p !! ca_turn c = Some n) as (p & Hp & Hn).
  { eexists. split; [apply lookup_insert_eq|]. apply lookup_insert_eq. }
  clearbody n s'.
  unfold settle_terminal_candidate, defer_end, clear_terminal_candidates, terminal_candidate_is_current, holds_candidate, defer_in.
  rewrite Hp. cbn [mbind option_bind]. rewrite Hn. cbn [mbind option_bind]. by rewrite Hsame.
Qed.
