(* ===== verification/Reconcile.v ===== *)
(** * Reconciling candidate turns

    [src/cyclopsd/src/fusion.rs]: what an observation does with the candidate starts
    and ends of its pane ([drain_terminal_candidates],
    [reconcile_candidate_lifecycle_with_evidence]).

    The code takes the lock of one store at a time, so other actors may change every
    store between two sections.  The model takes what they do as an argument:
    [others k] runs before the [k]-th section, and the theorems hold for all of them.
    The confirmed starts are the output; that the code prepares the dispatch
    acknowledgement of a drained one at once is part of what happens before the next
    section.

    Theorems: a start is promoted only on a frame that shows the agent working, and
    an end is recorded only on a stable terminal frame, whatever others do. *)
From S2P Require Import Prelude Text Identity Ledger Notification AttentionRegister Detection Manifests.
From S2P Require Import NotificationAdapter DeliveryGate TurnKeys Composer Fusion HookLifecycle.
Local Open Scope N_scope.

Inductive LifecycleObservation := ObservedNone | ObservedVisual | ObservedStable.
#[export] Instance LifecycleObservation_eq_dec : EqDecision LifecycleObservation.
Proof. solve_decision. Defined.
Definition STABLE_CAUSES : list rstr :=
  str <$> ["output_settled"; "bootstrap"; "lag_reconcile"; "pane_reconciled"; "status"; "pane.read"; "gate"; "pre_paste";
           "prewrite_block_reconcile"; "receipt_checkpoint"; "candidate_end_settled"; "candidate_visual_end_settled";
           "unkeyed_dispatch_settled"; "continuous_evidence_recheck"]%string.
Definition from_cause (cause : rstr) : LifecycleObservation :=
  if bool_decide (cause ∈ STABLE_CAUSES) then ObservedStable
  else if bool_decide (cause ∈ [str "pane_added"; str "pane_changed"]) then ObservedVisual
  else ObservedNone.
Definition is_visual (o : LifecycleObservation) : bool := negb (bool_decide (o = ObservedNone)).

(** ** State *)
Record Lanes := MkLanes { ln_readings : Readings; ln_store : LifecycleStore; ln_ends : Ends }.
Definition with_readings (l : Lanes) (r : Readings) : Lanes := MkLanes r (ln_store l) (ln_ends l).
Definition with_lifecycle (l : Lanes) (s : LifecycleStore) : Lanes := MkLanes (ln_readings l) s (ln_ends l).
Definition with_ends (l : Lanes) (e : Ends) : Lanes := MkLanes (ln_readings l) (ln_store l) e.
Record ConfirmedCandidateStart := MkConfirmedStart { cs_edge : Candidate; cs_accepted_ms : N; cs_terminal : bool }.
Definition active_turn_of (l : Lanes) (pane : PaneKey) (agent : ProcId) (manifest : rstr) : option TurnKey :=
  e ← ln_readings l !! pane; if active_start_for e agent (Some manifest) then he_active_turn e else None.
(** The active start of this turn, if it is the one stored, is removed. *)
Definition drop_started (l : Lanes) (pane : PaneKey) (agent : ProcId) (manifest : rstr) (turn : TurnKey) : Lanes :=
  match ln_readings l !! pane with
  | Some e => if active_start_matches e agent (Some manifest) (Some turn)
              then with_readings l (delete pane (ln_readings l)) else l
  | None => l
  end.

Section reconcile.
Context (others : nat → Lanes → Lanes) (manifests : ManifestTable).
Context (pane : PaneKey) (agent : ProcId) (manifest : rstr) (d : Detection) (in_mode : bool).
Context (observed_ms evidence_ms : N) (observation : LifecycleObservation).

(** ** Draining *)
Definition MAX_TERMINAL_DRAIN_PER_OBSERVATION : nat := 128.
Fixpoint drain (fuel k : nat) (l : Lanes) : Lanes * list ConfirmedCandidateStart :=
  match fuel with
  | O => (l, [])
  | S fuel =>
      let l := others k l in
      let active := active_turn_of l pane agent manifest in
      let l := others (S k) l in
      match settle_next_ready_terminal_with_evidence (ln_store l) pane agent manifest active observed_ms evidence_ms with
      | (store, None) => (with_lifecycle l store, [])
      | (store, Some st) =>
          let l := others (2 + k)%nat (with_lifecycle l store) in
          let l := with_ends l (record (ln_ends l) pane agent manifest (ca_turn (ts_end st))) in
          let l := drop_started (others (3 + k)%nat l) pane agent manifest (ca_turn (ts_end st)) in
          let '(l, rest) := drain fuel (4 + k) l in
          (l, match ts_start st with Some start => MkConfirmedStart start observed_ms true :: rest | None => rest end)
      end
  end.

(** ** One candidate *)
(** What became of the reported end: the observation stops with a result, or goes
    on to the start. *)
Definition reconcile_end (l : Lanes) (active : option TurnKey) (terminal : option AgentState) (e : Candidate)
    : Lanes * option (option ConfirmedCandidateStart) :=
  let l := others 2 l in
  let belongs := bool_decide (active = Some (ca_turn e)) &&
                 negb (has_other_start_for (ln_store l) pane agent manifest (ca_turn e)) in
  let l := others 3 l in
  let defer :=
    let '(store, ok) := defer_end (ln_store l) pane e in
    (with_lifecycle l store, if ok then None else Some None) in
  if positive_visual_working manifests manifest d && belongs && (ca_ready_at_ms e <=? observed_ms) then
    let '(store, consumed) := clear_terminal_candidates (ln_store l) pane e in
    (with_lifecycle l store, if consumed then None else Some None)
  else if negb (bool_decide (observation = ObservedStable)) || (observed_ms <? ca_ready_at_ms e) then defer
  else if bool_decide (is_Some terminal) then
    match settle_terminal_candidate (ln_store l) pane e with
    | (store, None) => (with_lifecycle l store, Some None)
    | (store, Some st) =>
        let l := others 4 (with_lifecycle l store) in
        let l := with_ends l (record (ln_ends l) pane agent manifest (ca_turn e)) in
        let l := drop_started (others 5 l) pane agent manifest (ca_turn e) in
        (l, match ts_start st with Some start => Some (Some (MkConfirmedStart start observed_ms true)) | None => None end)
    end
  else defer.
Definition retire_obsolete_visual_end (l : Lanes) : Lanes :=
  let l := others 6 l in
  match active_turn_of l pane agent manifest with
  | None => l
  | Some turn => let l := others 7 l in with_lifecycle l (clear_visual_end (ln_store l) pane agent manifest turn)
  end.
Definition visual_reading (start : Candidate) : SensorReading :=
  MkReading SensorHook SWorking (ca_event start ++ str ":visual_confirmed") observed_ms.
Definition reconcile_start (l : Lanes) (active : option TurnKey) (start : Candidate)
    : Lanes * option ConfirmedCandidateStart :=
  let l := others 8 l in
  if bool_decide (is_Some active) then (with_lifecycle l (defer_start (ln_store l) pane start).1, None)
  else if visual_rejects_start d in_mode then (with_lifecycle l (clear_start (ln_store l) pane start).1, None)
  else if negb (positive_visual_working manifests manifest d)
  then (with_lifecycle l (defer_start (ln_store l) pane start).1, None)
  else
    let already_ended := holds_end (ln_ends l) pane agent manifest (ca_turn start) in
    let l := others 9 l in
    match clear_start (ln_store l) pane start with
    | (store, consumed) =>
        let l := with_lifecycle l store in
        if negb consumed || already_ended then (l, None)
        else
          let l := others 10 l in
          let l := with_readings l
            (<[pane := turn_started agent (Some manifest) (visual_reading start) (ca_turn start)]> (ln_readings l)) in
          let l := others 11 l in
          if holds_end (ln_ends l) pane agent manifest (ca_turn start)
          then (drop_started (others 12 l) pane agent manifest (ca_turn start), None)
          else (l, Some (MkConfirmedStart start observed_ms false))
    end.
Definition reconcile_candidate_lifecycle (l : Lanes) : Lanes * option ConfirmedCandidateStart :=
  let l := others 0 l in
  let active := active_turn_of l pane agent manifest in
  let l := others 1 l in
  let young c := kept_if (λ c, ca_edge_ms c <? evidence_ms) c in
  let start := young (start_for (ln_store l) pane agent manifest) in
  let terminal := terminal_visual_state d in_mode in
  let '(l, stop) :=
    match young (end_for (ln_store l) pane agent manifest active) with
    | Some e => reconcile_end l active terminal e
    | None => (l, None)
    end in
  match stop with
  | Some result => (l, result)
  | None =>
      let l := retire_obsolete_visual_end l in
      match start with
      | Some start => reconcile_start l active start
      | None => (l, None)
      end
  end.
Definition reconcile_candidate_lifecycles (binding_stable : bool) (l : Lanes)
    : Lanes * list ConfirmedCandidateStart :=
  if negb binding_stable then (l, [])
  else
    let '(l, drained) :=
      if bool_decide (observation = ObservedStable) && bool_decide (is_Some (terminal_visual_state d in_mode))
      then drain MAX_TERMINAL_DRAIN_PER_OBSERVATION 13 l else (l, []) in
    let '(l, one) := reconcile_candidate_lifecycle l in
    (l, drained ++ option_list one).

(** ** What a confirmation rests on *)
Lemma drain_results fuel k l :
  Forall (λ r, cs_accepted_ms r = observed_ms ∧ cs_terminal r = true) (drain fuel k l).2 ∧ (length (drain fuel k l).2 ≤ fuel)%nat.
Proof.
  revert k l. induction fuel as [|fuel IH]; intros k l; cbn; [by split|].
  destruct (settle_next_ready_terminal_with_evidence _ _ _ _ _ _ _) as [store [st|]]; [|split; [done|cbn; lia]].
  destruct (drain fuel _ _) as [l' rest] eqn:E.
  match type of E with drain _ ?k0 ?l0 = _ => specialize (IH k0 l0) end. rewrite E in IH. cbn in IH. destruct IH as [H1 H2]. cbn.
  destruct (ts_start st); cbn; split; [by constructor|lia|done|lia].
Qed.
(** The visual evidence for each kind of confirmation. *)
Definition borne_out (r : ConfirmedCandidateStart) : Prop :=
  cs_accepted_ms r = observed_ms ∧
  if cs_terminal r then observation = ObservedStable ∧ is_Some (terminal_visual_state d in_mode)
  else positive_visual_working manifests manifest d = true ∧ visual_rejects_start d in_mode = false ∧
       ca_edge_ms (cs_edge r) < evidence_ms.
Lemma reconcile_end_earned l active e l' r :
  reconcile_end l active (terminal_visual_state d in_mode) e = (l', Some (Some r)) → borne_out r ∧ cs_terminal r = true.
Proof.
  unfold reconcile_end. cbv zeta. destruct (_ && _ && _); [by destruct (clear_terminal_candidates _ _ _) as [? []]|].
  destruct (negb _ || _) eqn:Eo; [by destruct (defer_end _ _ _) as [? []]|]. apply orb_false_iff in Eo as [Eo%negb_false_iff%bool_decide_eq_true _].
  case_bool_decide as Et; [|by destruct (defer_end _ _ _) as [? []]].
  destruct (settle_terminal_candidate _ _ _) as [store [st|]]; [|done]. destruct (ts_start st); [|done].
  intros [= <- <-]. done.
Qed.
Lemma reconcile_start_earned l active start l' r :
  ca_edge_ms start < evidence_ms → reconcile_start l active start = (l', Some r) →
  borne_out r ∧ cs_terminal r = false ∧ cs_edge r = start ∧ active = None ∧
  holds_end (ln_ends l') pane agent manifest (ca_turn start) = false.
Proof.
  intros He. unfold reconcile_start. case_bool_decide as Ha; [done|]. destruct (visual_rejects_start d in_mode) eqn:Er; [done|].
  destruct (positive_visual_working manifests manifest d) eqn:Ew; cbn [negb]; [|done].
  destruct (clear_start _ _ _) as [store consumed]. case_match; [done|]. case_match eqn:Eh; [done|]. intros [= <- <-].
  split_and!; [done|done|done| |done]. destruct active; [|done]. by destruct Ha.
Qed.
Lemma reconcile_one_earned l l' r : reconcile_candidate_lifecycle l = (l', Some r) → borne_out r.
Proof.
  unfold reconcile_candidate_lifecycle.
  destruct (match kept_if _ (end_for _ _ _ _ _) with Some e => _ | None => _ end) as [l1 stop] eqn:Es.
  destruct stop as [result|].
  - intros [= <- ->]. destruct (kept_if _ (end_for _ _ _ _ _)); [|done]. by apply reconcile_end_earned in Es as [? _].
  - destruct (kept_if _ (start_for _ _ _ _)) as [start|] eqn:Ek; [|done]. apply kept_if_Some in Ek as [_ Ek%N.ltb_lt].
    by intros [? _]%reconcile_start_earned.
Qed.
End reconcile.

(** A frame that shows a turn running is not a terminal one. *)
Lemma working_not_terminal manifests manifest d in_mode :
  positive_visual_working manifests manifest d = true → terminal_visual_state d in_mode = None.
Proof.
  unfold positive_visual_working. intros [_ Hw]%andb_true_iff. apply List.existsb_exists in Hw as (r & Hin & Hr).
  apply andb_true_iff in Hr as [[Hh%negb_true_iff Hs%bool_decide_eq_true]%andb_true_iff _].
  unfold terminal_visual_state. destruct (in_mode || det_stale d); [done|].
  destruct (List.find _ (det_readings d)) as [x|]; [|done]. cbn. destruct (negb (idle_class (sr_state x))); [done|].
  destruct (forallb _ (det_readings d)) eqn:E; [|done]. rewrite forallb_forall in E. specialize (E r Hin).
  rewrite Hh, Hs in E. done.
Qed.
(** [C31.] Candidate turns are confirmed only by what the screen shows.  Whatever
    other actors do to the stores between the steps of an observation, every start
    it confirms rests on a capture whose process did not change, and either on a
    stable frame in which the agent is idle, as the start of a turn that ended, or
    on a frame that shows the agent working, after the report, with nothing that
    rejects it.  One observation never does both, and it confirms at most 129. *)
Theorem confirmations_are_earned others manifests pane agent manifest d in_mode observed_ms evidence_ms observation
    stable l l' rs :
  reconcile_candidate_lifecycles others manifests pane agent manifest d in_mode observed_ms evidence_ms observation stable l
    = (l', rs) →
  (rs ≠ [] → stable = true) ∧
  Forall (borne_out manifests manifest d in_mode observed_ms evidence_ms observation) rs ∧
  (Forall (λ r, cs_terminal r = true) rs ∨ Forall (λ r, cs_terminal r = false) rs) ∧ (length rs ≤ 129)%nat.
Proof.
  unfold reconcile_candidate_lifecycles. destruct stable; cbn [negb].
  2:{ intros [= <- <-]. split_and!; [done|done|by left|cbn; lia]. }
  destruct (if bool_decide _ && bool_decide _ then _ else _) as [l1 drained] eqn:Ed.
  destruct (reconcile_candidate_lifecycle _ _ _ _ _ _ _ _ _ _ l1) as [l2 one] eqn:E1. intros [= <- <-].
  assert (Forall (λ r, borne_out manifests manifest d in_mode observed_ms evidence_ms observation r ∧ cs_terminal r = true) drained ∧
    (length drained ≤ 128)%nat ∧ (drained ≠ [] → is_Some (terminal_visual_state d in_mode))) as (Hd & Hlen & Hterm).
  { destruct (bool_decide (observation = ObservedStable) && _) eqn:Ec.
    - apply andb_true_iff in Ec as [H1%bool_decide_eq_true H2%bool_decide_eq_true].
      destruct (drain_results others pane agent manifest observed_ms evidence_ms MAX_TERMINAL_DRAIN_PER_OBSERVATION 13 l) as [Ha Hb].
      rewrite Ed in Ha, Hb. cbn [snd] in Ha, Hb. split_and!; [|exact Hb|done]. eapply Forall_impl; [exact Ha|]. cbn.
      intros r [Hr Ht]. split; [|done]. unfold borne_out. by rewrite Ht.
    - injection Ed as <- <-. split_and!; [done|cbn; lia|done]. }
  assert (Forall (borne_out manifests manifest d in_mode observed_ms evidence_ms observation) (option_list one)) as Ho.
  { destruct one as [r|]; [|done]. constructor; [|done]. by eapply reconcile_one_earned. }
  split_and!.
  - done.
  - apply Forall_app. split; [|done]. eapply Forall_impl; [exact Hd|]. by intros r [? _].
  - destruct one as [r|]; cbn in Ho |- *.
    2:{ left. rewrite app_nil_r. eapply Forall_impl; [exact Hd|]. by intros r [_ ?]. }
    apply Forall_cons in Ho as [Hr _]. destruct (cs_terminal r) eqn:Et.
    + left. apply Forall_app. split; [|by constructor]. eapply Forall_impl; [exact Hd|]. by intros x [_ ?].
    + right. apply Forall_app. split; [|by constructor]. destruct drained as [|x drained]; [done|]. exfalso.
      destruct (Hterm ltac:(done)) as [st Hst]. unfold borne_out in Hr. rewrite Et in Hr. destruct Hr as (_ & Hw & _).
      apply (working_not_terminal _ _ _ in_mode) in Hw. congruence.
  - rewrite length_app. destruct one; cbn; lia.
Qed.
