(* ===== verification/HookLiveness.v ===== *)
(** * Hook liveness

    [src/cyclopsd/src/selftest.rs] ([HookLiveness]): which hook events have reached
    the daemon, for the exact process and manifest, within one lifetime of a pane.
    Each operation runs under one lock and is one function; [open] panics when the
    lifetimes are exhausted, which is [None].

    Theorems: what was captured in an earlier lifetime of a pane is refused for
    ever and a replacement starts with nothing; the admin is pinged about a silent
    setup at most once per binding; only two events ever admit a pane. *)
From S2P Require Import Prelude Text Identity Ledger Notification Manifests DeliveryGate TurnKeys Composer Fusion.
Local Open Scope N_scope.

(** ** State *)
Record HookBinding := MkHookBinding {
  hb_pane : PaneKey;
  hb_lifetime : N;
  hb_agent : ProcId;
  hb_manifest : rstr;
}.
#[export] Instance HookBinding_eq_dec : EqDecision HookBinding.
Proof. solve_decision. Defined.
#[export] Instance HookBinding_countable : Countable HookBinding.
Proof.
  refine (inj_countable' (λ b, (hb_pane b, hb_lifetime b, pid (hb_agent b), birth (hb_agent b), hb_manifest b))
    (λ '(p, l, i, n, m), MkHookBinding p l (MkProcId i n) m) _). by intros [? ? [] ?].
Defined.
(** Events by normalized name, with the vendor's spelling and when it came. *)
Definition PaneEdges : Type := gmap rstr (rstr * N).
Record Liveness := MkLiveness {
  lv_next_lifetime : N;
  lv_live : gmap PaneKey N;
  lv_edges : gmap HookBinding PaneEdges;
  lv_admitting : gmap HookBinding (gset rstr);
  lv_f1_notified : gset HookBinding;
}.
Definition liveness_new : Liveness := MkLiveness 0 ∅ ∅ ∅ ∅.

(** ** Operations *)
Definition open_route (s : Liveness) (pane : PaneKey) : option Liveness :=
  match lv_live s !! pane with
  | Some _ => Some s
  | None =>
      next ← checked_add_u64 (lv_next_lifetime s) 1;
      Some (MkLiveness next (<[pane := next]> (lv_live s)) (lv_edges s) (lv_admitting s) (lv_f1_notified s))
  end.
Definition binding (s : Liveness) (pane : PaneKey) (agent : ProcId) (manifest : rstr) : option HookBinding :=
  lifetime ← lv_live s !! pane; Some (MkHookBinding pane lifetime agent manifest).
(** [None] is [RouteNotOpen]. *)
Definition bind_diagnostic (s : Liveness) (pane : PaneKey) (raw_event : rstr) (ts : N) (agent : ProcId) (manifest : rstr)
    : option (Liveness * HookBinding) :=
  b ← binding s pane agent manifest;
  let edges := <[normalize_event raw_event := (raw_event, ts)]> (default ∅ (lv_edges s !! b)) in
  Some (MkLiveness (lv_next_lifetime s) (lv_live s) (<[b := edges]> (lv_edges s)) (lv_admitting s) (lv_f1_notified s), b).
Definition edges_of (s : Liveness) (b : HookBinding) : PaneEdges := default ∅ (lv_edges s !! b).
Definition seen_admitting_edge (s : Liveness) (pane : PaneKey) (agent : ProcId) (manifest : rstr) : bool :=
  match binding s pane agent manifest with
  | Some b => negb (bool_decide (default ∅ (lv_admitting s !! b) = ∅))
  | None => false
  end.
Definition ADMITTING_EVENTS : list rstr := [str "SessionStart"; str "UserPromptSubmit"].
Definition is_live (s : Liveness) (b : HookBinding) : bool := bool_decide (lv_live s !! hb_pane b = Some (hb_lifetime b)).
(** [None] is [LifetimeExpired]. *)
Definition publish_admission (s : Liveness) (b : HookBinding) (raw_event : rstr) : option Liveness :=
  let event := normalize_event raw_event in
  if negb (is_live s b) then None
  else if negb (existsb (λ a, bool_decide (normalize_event a = event)) ADMITTING_EVENTS) then Some s
  else Some (MkLiveness (lv_next_lifetime s) (lv_live s) (lv_edges s)
               (<[b := {[event]} ∪ default ∅ (lv_admitting s !! b)]> (lv_admitting s)) (lv_f1_notified s)).
Definition seen_any (s : Liveness) (pane : PaneKey) (agent : ProcId) (manifest : rstr) : bool :=
  match binding s pane agent manifest with
  | Some b => negb (bool_decide (edges_of s b = ∅))
  | None => false
  end.
Definition seen_declared_lifecycle (s : Liveness) (pane : PaneKey) (agent : ProcId) (manifest : rstr)
    (lifecycle : list rstr) : bool :=
  match binding s pane agent manifest with
  | Some b => existsb (λ event, bool_decide (is_Some (edges_of s b !! normalize_event event))) lifecycle
  | None => false
  end.
Definition snapshot_edges (s : Liveness) (pane : PaneKey) (agent : ProcId) (manifest : rstr) : PaneEdges :=
  match binding s pane agent manifest with Some b => edges_of s b | None => ∅ end.
Definition close_route (s : Liveness) (pane : PaneKey) : Liveness :=
  MkLiveness (lv_next_lifetime s) (delete pane (lv_live s)) (filter (λ kv, hb_pane kv.1 ≠ pane) (lv_edges s))
    (filter (λ kv, hb_pane kv.1 ≠ pane) (lv_admitting s)) (filter (λ b, hb_pane b ≠ pane) (lv_f1_notified s)).
Definition reserve_f1_if_no_edges (s : Liveness) (b : HookBinding) : Liveness * bool :=
  if negb (is_live s b) then (s, false)
  else if negb (bool_decide (edges_of s b = ∅)) then (s, false)
  else (MkLiveness (lv_next_lifetime s) (lv_live s) (lv_edges s) (lv_admitting s) ({[b]} ∪ lv_f1_notified s),
        bool_decide (b ∉ lv_f1_notified s)).
(** Which tier of acknowledgement the manifest promises, and what a status row says. *)
Definition tier_of (m : Manifest) : N :=
  if bool_decide (is_Some (hk_ack (mf_hooks m))) && bool_decide (is_Some (hk_ack_payload_field (mf_hooks m))) then 1 else 2.
Definition hooks_verified_for (manifests : ManifestTable) (s : Liveness) (pane : PaneKey) (adopted : bool)
    (manifest_id : option rstr) (agent : option ProcId) : option bool :=
  if negb adopted then None
  else
    id ← manifest_id; m ← manifests !! id;
    if negb (declares_hooks m) then None
    else Some match agent with Some a => seen_any s pane a (ag_id (mf_agent m)) | None => false end.

(** ** Histories *)
Inductive LivenessOp :=
| VOpen (pane : PaneKey)
| VReport (pane : PaneKey) (raw_event : rstr) (ts : N) (agent : ProcId) (manifest : rstr)
| VPublish (b : HookBinding) (raw_event : rstr)
| VClose (pane : PaneKey)
| VReserve (b : HookBinding).
(** [None] is a panic. *)
Definition liveness_step (s : Liveness) (op : LivenessOp) : option Liveness :=
  match op with
  | VOpen pane => open_route s pane
  | VReport pane raw_event ts agent manifest => Some (default s (fst <$> bind_diagnostic s pane raw_event ts agent manifest))
  | VPublish b raw_event => Some (default s (publish_admission s b raw_event))
  | VClose pane => Some (close_route s pane)
  | VReserve b => Some (reserve_f1_if_no_edges s b).1
  end.
Fixpoint liveness_run (s : Liveness) (ops : list LivenessOp) : option Liveness :=
  match ops with [] => Some s | op :: ops => s ← liveness_step s op; liveness_run s ops end.

(** ** What the record holds *)
(** A name an admitting event normalizes to. *)
Definition admits (x : rstr) : Prop := x ∈ normalize_event <$> ADMITTING_EVENTS.
Lemma admits_existsb x : existsb (λ a, bool_decide (normalize_event a = x)) ADMITTING_EVENTS = true → admits x.
Proof.
  intros (a & Ha & <-%bool_decide_eq_true)%List.existsb_exists. apply list_elem_of_fmap_2, list_elem_of_In, Ha.
Qed.
Lemma admits_two x : admits x → x = normalize_event (str "SessionStart") ∨ x = normalize_event (str "UserPromptSubmit").
Proof.
  intros (a & -> & Ha)%list_elem_of_fmap. unfold ADMITTING_EVENTS in Ha.
  apply elem_of_cons in Ha as [->|[->|[]%elem_of_nil]%elem_of_cons]; [by left|by right].
Qed.
#[local] Opaque admits.
Record live_ok (s : Liveness) : Prop := {
  vo_live : ∀ pane l, lv_live s !! pane = Some l → l ≤ lv_next_lifetime s;
  vo_edges : ∀ b es, lv_edges s !! b = Some es → is_live s b = true;
  vo_admitting : ∀ b es, lv_admitting s !! b = Some es →
    is_live s b = true ∧ ∀ x, x ∈ es → admits x;
  vo_f1 : ∀ b, b ∈ lv_f1_notified s → is_live s b = true;
}.
Lemma is_live_true s b : is_live s b = true ↔ lv_live s !! hb_pane b = Some (hb_lifetime b).
Proof. unfold is_live. by rewrite bool_decide_eq_true. Qed.
Lemma live_ok_new : live_ok liveness_new.
Proof. by split. Qed.
Lemma open_route_Some s pane s' :
  open_route s pane = Some s' →
  s' = s ∨ (lv_live s !! pane = None ∧
            s' = MkLiveness (lv_next_lifetime s + 1) (<[pane := lv_next_lifetime s + 1]> (lv_live s)) (lv_edges s)
                   (lv_admitting s) (lv_f1_notified s)).
Proof.
  unfold open_route. destruct (lv_live s !! pane) eqn:E; [intros [= <-]; by left|].
  destruct (checked_add_u64 _ _) as [n|] eqn:En; [|done]. apply checked_add_u64_Some in En as [-> _].
  intros [= <-]. by right.
Qed.
Lemma live_ok_step s op s' : live_ok s → liveness_step s op = Some s' → live_ok s'.
Proof.
  intros [H1 H2 H3 H4]. destruct op as [pane|pane ev ts agent m|b ev|pane|b]; cbn.
  - intros [->|[Hn ->]]%open_route_Some; [by split|].
    assert (∀ b, is_live s b = true → is_live (MkLiveness (lv_next_lifetime s + 1) (<[pane:=lv_next_lifetime s + 1]> (lv_live s))
      (lv_edges s) (lv_admitting s) (lv_f1_notified s)) b = true) as Hk.
    { intros b. rewrite !is_live_true. cbn. destruct (decide (hb_pane b = pane)) as [->|]; [by rewrite Hn|].
      by rewrite lookup_insert_ne. }
    split; cbn.
    + intros q l. destruct (decide (q = pane)) as [->|]; [rewrite lookup_insert_eq; intros [= <-]; lia|].
      rewrite lookup_insert_ne by done. intros ?%H1. lia.
    + intros b es ?%H2. by apply Hk.
    + intros b es [? ?]%H3. split; [by apply Hk|done].
    + intros b ?%H4. by apply Hk.
  - intros [= <-]. unfold bind_diagnostic, binding. destruct (lv_live s !! pane) as [l|] eqn:El; cbn; [|by split].
    split; cbn; try done. intros b es. destruct (decide (b = MkHookBinding pane l agent m)) as [->|].
    + intros _. by apply is_live_true.
    + rewrite lookup_insert_ne by done. apply H2.
  - intros [= <-]. unfold publish_admission. destruct (is_live s b) eqn:El; cbn [negb from_option id]; [|by split].
    destruct (existsb _ _) eqn:Ee; cbn [negb from_option id]; [|by split].
    split; cbn [lv_next_lifetime lv_live lv_edges lv_admitting lv_f1_notified]; try done.
    intros b' es. destruct (decide (b' = b)) as [->|].
    + rewrite lookup_insert_eq. intros Hes. apply (inj Some) in Hes as <-. split; [done|]. intros x [->%elem_of_singleton|Hx]%elem_of_union.
      * by apply admits_existsb.
      * destruct (lv_admitting s !! b) as [es|] eqn:E; cbn in Hx; [|by apply elem_of_empty in Hx].
        by destruct (H3 b es E) as [_ ?]; eauto.
    + rewrite lookup_insert_ne by done. apply H3.
  - intros [= <-].
    assert (∀ b, is_live s b = true → hb_pane b ≠ pane → is_live (close_route s pane) b = true) as Hk.
    { intros b Hl Hne. apply is_live_true. apply is_live_true in Hl. cbn. by rewrite lookup_delete_ne. }
    split; cbn.
    + intros q l [_ Hl]%lookup_delete_Some. by eapply H1.
    + intros b es [? ?]%map_lookup_filter_Some. apply Hk; [by eapply H2|done].
    + intros b es [? ?]%map_lookup_filter_Some. destruct (H3 b es) as [? ?]; [done|]. split; [by apply Hk|done].
    + intros b [? ?]%elem_of_filter. by apply Hk; [apply H4|].
  - intros [= <-]. unfold reserve_f1_if_no_edges. destruct (is_live s b) eqn:El; cbn; [|by split].
    destruct (bool_decide _); cbn; [|by split]. split; cbn; try done.
    intros b' [->%elem_of_singleton|?]%elem_of_union; [done|by apply H4].
Qed.
Lemma live_ok_run s ops s' : live_ok s → liveness_run s ops = Some s' → live_ok s'.
Proof.
  revert s. induction ops as [|op ops IH]; intros s Hs; cbn; [by intros [= <-]|].
  destruct (liveness_step s op) as [s1|] eqn:E; cbn; [|done]. apply IH. by eapply live_ok_step.
Qed.

(** ** Earlier lifetimes *)
(** A binding of a lifetime that is over. *)
Definition outlived (s : Liveness) (b : HookBinding) : Prop := is_live s b = false ∧ hb_lifetime b ≤ lv_next_lifetime s.
Lemma outlived_step s op s' b : outlived s b → liveness_step s op = Some s' → outlived s' b.
Proof.
  intros [H1 H2]. destruct op as [pane|pane ev ts agent m|b' ev|pane|b']; cbn.
  - intros [->|[Hn ->]]%open_route_Some; [done|]. split; [|cbn; lia]. apply not_true_is_false.
    rewrite is_live_true. cbn. destruct (decide (hb_pane b = pane)) as [->|].
    + rewrite lookup_insert_eq. intros [= Hl]. lia.
    + rewrite lookup_insert_ne by done. rewrite <- is_live_true. congruence.
  - intros [= <-]. unfold bind_diagnostic, binding. by destruct (lv_live s !! pane).
  - intros [= <-]. unfold publish_admission. destruct (is_live s b'); [|done]. by destruct (existsb _ _).
  - intros [= <-]. split; [|done]. apply not_true_is_false. rewrite is_live_true. cbn.
    intros [_ Hl]%lookup_delete_Some. apply is_live_true in Hl. congruence.
  - intros [= <-]. unfold reserve_f1_if_no_edges. destruct (is_live s b'); [|done]. by destruct (bool_decide _).
Qed.
Lemma outlived_run s ops s' b : outlived s b → liveness_run s ops = Some s' → outlived s' b.
Proof.
  revert s. induction ops as [|op ops IH]; intros s Hs; cbn; [by intros [= <-]|].
  destruct (liveness_step s op) as [s1|] eqn:E; cbn; [|done]. apply IH. by eapply outlived_step.
Qed.
Lemma outlived_close s pane b : live_ok s → hb_pane b = pane → is_live s b = true → outlived (close_route s pane) b.
Proof.
  intros Hs <- Hl%is_live_true. split; [|cbn; by eapply vo_live].
  apply not_true_is_false. rewrite is_live_true. cbn. by rewrite lookup_delete_eq.
Qed.
Lemma outlived_refused s b event : outlived s b → publish_admission s b event = None ∧ reserve_f1_if_no_edges s b = (s, false).
Proof. intros [H _]. unfold publish_admission, reserve_f1_if_no_edges. by rewrite H. Qed.

(** Whether the operation reports for this pane, process and manifest. *)
Definition reports_for (op : LivenessOp) (pane : PaneKey) (agent : ProcId) (manifest : rstr) : bool :=
  match op with
  | VReport p _ _ a m => bool_decide (p = pane) && bool_decide (a = agent) && bool_decide (m = manifest)
  | VPublish b _ => bool_decide (hb_pane b = pane) && bool_decide (hb_agent b = agent) && bool_decide (hb_manifest b = manifest)
  | _ => false
  end.
(** Nothing recorded, in any lifetime. *)
Definition silent (s : Liveness) (pane : PaneKey) (agent : ProcId) (manifest : rstr) : Prop :=
  ∀ l, let b := MkHookBinding pane l agent manifest in lv_edges s !! b = None ∧ lv_admitting s !! b = None.
Lemma silent_step s op s' pane agent manifest :
  silent s pane agent manifest → reports_for op pane agent manifest = false → liveness_step s op = Some s' →
  silent s' pane agent manifest.
Proof.
  intros Hs Hr. destruct op as [p|p ev ts a m|b' ev|p|b']; cbn in Hr |- *.
  - by intros [->|[_ ->]]%open_route_Some.
  - intros [= <-]. unfold bind_diagnostic, binding. destruct (lv_live s !! p) as [l|]; [|done]. intros l'. cbn.
    rewrite lookup_insert_ne; [apply Hs|]. intros [= -> _ -> ->]. by rewrite !bool_decide_eq_true_2 in Hr.
  - intros [= <-]. unfold publish_admission. destruct (is_live s b'); [|done]. destruct (existsb _ _); [|done].
    intros l'. cbn. rewrite lookup_insert_ne; [apply Hs|]. intros ->. by rewrite !bool_decide_eq_true_2 in Hr.
  - intros [= <-] l'. cbn. split; apply map_lookup_filter_None; left; apply Hs.
  - intros [= <-]. unfold reserve_f1_if_no_edges. destruct (is_live s b'); [|done]. by destruct (bool_decide _).
Qed.
Lemma silent_run s ops s' pane agent manifest :
  silent s pane agent manifest → Forall (λ op, reports_for op pane agent manifest = false) ops →
  liveness_run s ops = Some s' → silent s' pane agent manifest.
Proof.
  intros Hs Hops. revert s Hs. induction Hops as [|op ops Hop _ IH]; intros s Hs; cbn; [by intros [= <-]|].
  destruct (liveness_step s op) as [s1|] eqn:E; cbn; [|done]. apply IH. by eapply silent_step.
Qed.
Lemma silent_close s pane agent manifest : silent (close_route s pane) pane agent manifest.
Proof. intros l. split; apply map_lookup_filter_None; right; intros x _ Hn; by apply Hn. Qed.
Lemma silent_seen s pane agent manifest :
  silent s pane agent manifest →
  seen_any s pane agent manifest = false ∧ seen_admitting_edge s pane agent manifest = false ∧
  snapshot_edges s pane agent manifest = ∅.
Proof.
  intros Hs. unfold seen_any, seen_admitting_edge, snapshot_edges, binding.
  destruct (lv_live s !! pane) as [l|]; cbn; [|done]. destruct (Hs l) as [H1 H2]. unfold edges_of. by rewrite H1, H2.
Qed.
(** A replacement inherits nothing.  Once a pane is lost, whatever opens,
    reports, publications and reservations follow, a binding captured in the lost
    lifetime is refused by every operation that takes one, also after the pane was
    opened again; and no process is seen in the new pane that has not reported
    there since. *)
Theorem replacement_inherits_nothing before later s1 s2 b event :
  liveness_run liveness_new before = Some s1 → is_live s1 b = true →
  liveness_run (close_route s1 (hb_pane b)) later = Some s2 →
  publish_admission s2 b event = None ∧ reserve_f1_if_no_edges s2 b = (s2, false) ∧
  ∀ agent manifest, Forall (λ op, reports_for op (hb_pane b) agent manifest = false) later →
    seen_any s2 (hb_pane b) agent manifest = false ∧ seen_admitting_edge s2 (hb_pane b) agent manifest = false ∧
    snapshot_edges s2 (hb_pane b) agent manifest = ∅.
Proof.
  intros H1 Hl H2. pose proof (live_ok_run _ _ _ live_ok_new H1) as Hok.
  destruct (outlived_refused s2 b event) as [? ?]; [by eapply outlived_run; [eapply outlived_close|]|].
  split_and!; [done|done|]. intros agent manifest Hops. apply silent_seen. eapply silent_run; [|done|done]. apply silent_close.
Qed.

(** ** The diagnostic *)
Lemma told_step s op s' b :
  live_ok s → b ∈ lv_f1_notified s ∨ outlived s b → liveness_step s op = Some s' → b ∈ lv_f1_notified s' ∨ outlived s' b.
Proof.
  intros Hok [Hb|Hb] Hst; [|right; by eapply outlived_step]. revert Hst. destruct op as [p|p ev ts a m|b' ev|p|b']; cbn.
  - intros [->|[_ ->]]%open_route_Some; by left.
  - intros [= <-]. left. unfold bind_diagnostic, binding. by destruct (lv_live s !! p).
  - intros [= <-]. left. unfold publish_admission. destruct (is_live s b'); [|done]. by destruct (existsb _ _).
  - intros [= <-]. destruct (decide (hb_pane b = p)) as [<-|Hne].
    + right. apply outlived_close; [done|done|]. by apply vo_f1.
    + left. cbn. by apply elem_of_filter.
  - intros [= <-]. left. unfold reserve_f1_if_no_edges. destruct (is_live s b'); [|done]. destruct (bool_decide _); [|done].
    cbn. set_solver.
Qed.
Lemma told_run s ops s' b :
  live_ok s → b ∈ lv_f1_notified s ∨ outlived s b → liveness_run s ops = Some s' → b ∈ lv_f1_notified s' ∨ outlived s' b.
Proof.
  revert s. induction ops as [|op ops IH]; intros s Hok Hb; cbn; [by intros [= <-]|].
  destruct (liveness_step s op) as [s1|] eqn:E; cbn; [|done].
  apply IH; [by eapply live_ok_step|by eapply told_step].
Qed.
(** The admin is told once.  A reservation succeeds only for a live binding
    from which no hook was ever seen, and once it has, it never succeeds again for
    that binding, whatever happens to the pane. *)
Theorem silent_setup_is_told_once before later s1 s2 s3 b :
  liveness_run liveness_new before = Some s1 → reserve_f1_if_no_edges s1 b = (s2, true) →
  liveness_run s2 later = Some s3 →
  is_live s1 b = true ∧ edges_of s1 b = ∅ ∧ (reserve_f1_if_no_edges s3 b).2 = false.
Proof.
  intros H1 Hr H3. pose proof (live_ok_run _ _ _ live_ok_new H1) as Hok.
  assert (live_ok s2) as Hok2.
  { eapply (live_ok_step s1 (VReserve b)); [done|]. cbn. by rewrite Hr. }
  unfold reserve_f1_if_no_edges in Hr. destruct (is_live s1 b) eqn:El; [|done]. cbn [negb] in Hr.
  destruct (bool_decide (edges_of s1 b = ∅)) eqn:Ee; [|done]. cbn [negb] in Hr. injection Hr as <- _.
  split; [done|]. split; [by apply bool_decide_eq_true in Ee|].
  match type of H3 with liveness_run ?s2 _ = _ => assert (b ∈ lv_f1_notified s2 ∨ outlived s2 b) as Hb0 by (left; cbn; set_solver) end.
  destruct (told_run _ _ _ b Hok2 Hb0 H3) as [Hb|Hb].
  - unfold reserve_f1_if_no_edges. destruct (is_live s3 b); [|done]. destruct (bool_decide (edges_of s3 b = ∅)); [|done].
    cbn [negb snd]. apply bool_decide_eq_false_2. intros Hn. by apply Hn.
  - by destruct (outlived_refused s3 b [] Hb) as [_ ->].
Qed.
(** What admits a pane is a session start or a submitted prompt of the process that
    is in it, published in this lifetime. *)
Theorem admitting_edges_are_two ops s pane agent manifest :
  liveness_run liveness_new ops = Some s → seen_admitting_edge s pane agent manifest = true →
  ∃ b x, binding s pane agent manifest = Some b ∧ x ∈ default ∅ (lv_admitting s !! b) ∧
    (x = normalize_event (str "SessionStart") ∨ x = normalize_event (str "UserPromptSubmit")).
Proof.
  intros H1. pose proof (live_ok_run _ _ _ live_ok_new H1) as Hok. unfold seen_admitting_edge.
  destruct (binding s pane agent manifest) as [b|]; [|done]. intros Hne%negb_true_iff%bool_decide_eq_false.
  apply set_choose_L in Hne as [x Hx]. exists b, x. split_and!; [done|done|].
  destruct (lv_admitting s !! b) as [es|] eqn:E; cbn in Hx; [|by apply elem_of_empty in Hx].
  destruct (vo_admitting s Hok b es E) as [_ Ha]. by apply admits_two, Ha.
Qed.
