(* ===== verification/DeliveryPayload.v ===== *)
(** * What an attempt writes

    [src/cyclopsd/src/delivery/gate.rs] (the payload selected at the write
    boundary and the one rebuilt from the journal) and
    [src/cyclopsd/src/delivery/terminal.rs] (the rendered message and the exact
    comparison with a hook's prompt).

    Theorem: whatever the write boundary pastes, the journal alone rebuilds. *)
From S2P Require Import Prelude Text Identity Ledger Journal Mailbox Notification Doorbell Facts.
From S2P Require Import Facts Projection Attempt Prepared MailboxInv NotificationInv.
From S2P Require Import Invariant Replay Entries Guarantees Store StoreInv StoreOps Scheduler.
From S2P Require Import TmuxText NotificationAdapter.
Local Open Scope N_scope.

(** ** Rendering *)
Definition sentinel_for (msg_id : rstr) : rstr := str "[cyclops:end " ++ msg_id ++ str "]".
Definition render_payload (msg_id from subject body : rstr) (fyi : bool) : rstr :=
  join [10]
    ((str "[cyclops " ++ msg_id ++ str "] FROM: " ++ from ++ str "  SUBJECT: " ++ subject) ::
     (if bool_decide (body = []) then [] else [body]) ++
     (if negb fyi && bool_decide (from ≠ ADMIN)
      then [str "Reply: cyclops send " ++ from ++ str " --subject " ++ [34] ++ str "..." ++ [34] ++
            str " --summary " ++ [34] ++ str "First sentence. Second sentence." ++ [34]]
      else []) ++
     [sentinel_for msg_id]).
Definition prompt_matches (text payload : rstr) : bool :=
  bool_decide (text = payload) || bool_decide (strip_suffix [10] text = Some payload).
(** [claims_prompt]: nothing matches before the write boundary selected bytes. *)
Definition claims_prompt (payload text : rstr) : bool :=
  negb (bool_decide (payload = [])) && prompt_matches text payload.

Section payload.
Context {V : Type} {serde : Serde V} {codec : LineCodec V} {uuids : Uuids} {digests : Digests}.
Implicit Types (s : MessageStore (V:=V)) (cx : NotificationContext) (message : LedgerLine V).

Definition render_canonical_message_payload message : rstr :=
  render_payload (ll_id message) (ll_from message) (default [] (ll_subject message))
    (default [] (ll_body message)) (bool_decide (ll_kind message = KFyi)).

(** ** Selecting *)
Record AttemptPayload := MkAttemptPayload {
  ap_bytes : rstr;
  ap_transport : NotificationTransport;
  ap_doorbell_format : option N;
}.
Definition render_summary_doorbell message (attempt_id : NotificationAttemptId) : option rstr :=
  metadata ← (data ← ll_data message; result_ok (metadata_from_value data));
  summary ← match md_summary metadata with
            | Some summary => Some summary
            | None => derive_message_summary (default [] (ll_body message)) (default [] (ll_subject message))
            end;
  render_doorbell_v4 (mp_sender_label (md_presentation metadata))
    (render_recipient_list (rp_label <$> mp_recipient_labels (md_presentation metadata))
       (md_broadcast metadata))
    summary attempt_id.
(** [raw] is the handle's flag, read from the message when it was enqueued. *)
Definition select_attempt_payload s cx (raw : bool) : answer AttemptPayload :=
  match message_line s cx with
  | Good message =>
      if raw then Good (MkAttemptPayload (render_canonical_message_payload message) Raw None)
      else match render_summary_doorbell message (nc_attempt_id cx) with
      | Some bytes => Good (MkAttemptPayload bytes Doorbell (Some DOORBELL_FORMAT_SUMMARY_CLAIM))
      | None => Bad MessageMissing
      end
  | Bad e => Bad e
  | Poison => Poison
  end.

(** ** Rebuilding *)
Definition expected_notification_payload (record : NotificationRecord) message : option rstr :=
  if bool_decide (ll_id message ≠ mid_text (nr_message_id record)) then None
  else match nr_transport record, nr_doorbell_format record with
  | Doorbell, None => Some (render_legacy_doorbell (nr_message_id record))
  | Doorbell, Some format =>
      if format =? DOORBELL_FORMAT_COMPACT_CLAIM then Some (render_doorbell_v1 (nr_message_id record))
      else if format =? DOORBELL_FORMAT_ATTEMPT_CLAIM
      then Some (render_doorbell_v2 (nr_message_id record) (nr_attempt_id record))
      else if format =? DOORBELL_FORMAT_ATTEMPT_ONLY_CLAIM then render_doorbell_v3 (nr_attempt_id record)
      else if format =? DOORBELL_FORMAT_SUMMARY_CLAIM
      then render_summary_doorbell message (nr_attempt_id record)
      else None
  | (DirectPayload | Raw), None => Some (render_canonical_message_payload message)
  | (DirectPayload | Raw), Some _ => None
  | MailboxOnly, _ => None
  end.

(** ** The two agree *)
Context {codec_laws : LineCodecLaws V} {serde_laws : SerdeLaws V} {storable_laws : StorableLaws}.

Lemma message_line_named ws rows s cx message :
  store_ok ws s rows → message_line s cx = Good message → ll_id message = mid_text (nc_message_id cx).
Proof.
  intros Hok. unfold message_line, get_message. destruct (messages _ !! _) as [m|] eqn:E; [|done].
  intros [= <-]. destruct (mw_message _ (wf_mailbox _ (store_ok_wf _ _ _ Hok)) _ _ E) as (md & _ & Hso).
  exact (so_names _ _ _ _ Hso).
Qed.
Lemma prompt_matches_spec text payload :
  prompt_matches text payload = true ↔ text = payload ∨ text = payload ++ [10].
Proof.
  unfold prompt_matches. rewrite orb_true_iff, !bool_decide_eq_true. by rewrite strip_suffix_Some.
Qed.
Lemma summary_doorbell_nonempty message a bytes : render_summary_doorbell message a = Some bytes → bytes ≠ [].
Proof.
  unfold render_summary_doorbell, render_doorbell_v4.
  intros (md & _ & Hb)%bind_Some. apply bind_Some in Hb as (sm & _ & Hb).
  apply bind_Some in Hb as (cmd & _ & Hb). by injection Hb as <-.
Qed.
Lemma canonical_payload_nonempty message : render_canonical_message_payload message ≠ [].
Proof.
  unfold render_canonical_message_payload, render_payload. generalize (sentinel_for (ll_id message)).
  intros e. set (rest := _ ++ _ ++ [e]). clearbody rest. by destruct rest.
Qed.

(** [C29.] What an attempt pastes, the journal rebuilds: once the write boundary
    of an attempt is recorded, its record and its message give back exactly the
    bytes that were selected, for doorbells and for raw messages, and a hook's
    prompt is recognised as this attempt's exactly when it is those bytes, with at
    most one final newline. *)
Theorem written_payload_is_rebuilt ws0 rows0 s0 ws rows s env cx raw payload s' n message :
  store_ok ws0 s0 rows0 → store_ok ws s rows → message_id_valid (nc_message_id cx) →
  env_now env ≤ u64_max →
  message_line s0 cx = Good message → select_attempt_payload s0 cx raw = Good payload →
  (if raw then record_writing_raw s env cx = (s', Good n)
   else ∃ root leader agent manifest, record_writing s env cx root leader agent manifest Doorbell
     (ap_doorbell_format payload) = (s', Good n)) →
  expected_notification_payload n message = Some (ap_bytes payload) ∧
  ∀ text, claims_prompt (ap_bytes payload) text = true ↔
    text = ap_bytes payload ∨ text = ap_bytes payload ++ [10].
Proof.
  intros Hok0 Hok Hid Henv Hm Hsel Hw. pose proof (message_line_named _ _ _ _ _ Hok0 Hm) as Hname.
  unfold select_attempt_payload in Hsel. rewrite Hm in Hsel.
  assert (ap_bytes payload ≠ [] → ∀ text, claims_prompt (ap_bytes payload) text = true ↔
    text = ap_bytes payload ∨ text = ap_bytes payload ++ [10]) as Hclaims.
  { intros Hne text. unfold claims_prompt. rewrite bool_decide_eq_false_2 by done. apply prompt_matches_spec. }
  destruct raw.
  - injection Hsel as <-. cbn [ap_bytes] in *.
    destruct (record_writing_raw_Good _ _ _ _ _ _ _ Hok Hid Henv Hw) as (_ & _ & _ & Hmid & Htr & Hfm & _).
    split; [|apply Hclaims, canonical_payload_nonempty]. unfold expected_notification_payload.
    by rewrite Hmid, Hname, bool_decide_eq_false_2, Htr, Hfm by (intros []; done).
  - destruct (render_summary_doorbell message (nc_attempt_id cx)) as [bytes|] eqn:Hr; [|done].
    injection Hsel as <-. cbn [ap_bytes ap_doorbell_format] in *.
    destruct Hw as (root & leader & agent & manifest & Hw).
    destruct (record_writing_Good _ _ _ _ _ _ _ _ _ _ _ _ _ Hok Hid Henv Hw)
      as (_ & _ & _ & Ho & _ & Hmid & Htr & Hfm & _).
    split; [|by eapply Hclaims, summary_doorbell_nonempty]. unfold expected_notification_payload.
    rewrite Hmid, Hname, bool_decide_eq_false_2, Htr, Hfm by (intros []; done).
    apply andb_true_iff in Ho as [->%bool_decide_eq_true _]. exact Hr.
Qed.
End payload.
