(* ===== verification/DeliveryAttempt.v ===== *)
(** * One delivery, from the gate to the receipt

    [src/cyclopsd/src/delivery/gate.rs] ([gate], [send_decline_keys], [attempt_delivery],
    [attempt_raw_delivery], [fail_attempt] and their helpers),
    [src/cyclopsd/src/delivery/inject.rs] ([commit], [inject]) and
    [src/cyclopsd/src/delivery/worker.rs] ([process]).

    The code is a program over the operations it asks of its environment: tmux,
    the pane table, the composer barrier, the store, the shared handle.  A program
    is a tree: it returns, or asks one operation and goes on with the answer.
    Other actors run between any two operations, so the answers are arbitrary;
    what the durable operations do to the store is [NotificationAdapter.run_call].
    What a program puts into the pane are the operations [OpDeclineKey], [OpPaste] and
    [OpSubmit]. *)
From S2P Require Import Prelude Text Identity Ledger Notification AttentionRegister Manifests.
From S2P Require Import NotificationAdapter DeliveryGate Receipt DeliveryPayload TurnKeys.
Local Open Scope N_scope.

(** ** Operations *)
Record OccupantView := MkOccupantView {
  ov_watcher : bool;
  ov_row : option PaneRow;
  ov_binding : option Binding;
}.
(** Why tmux refused the paste command: its command pipe took no byte, or
    anything else. *)
Inductive PasteAnswer := PasteOk | PasteIo | PasteError.
Inductive PendingAckEvidence := PendReceipt | PendDispatchPending | PendDispatchAccepted.
Record PendingAck := MkPendingAck { pa_edge_ms : N; pa_turn : option TurnKey; pa_evidence : PendingAckEvidence }.
Record Step := MkStep {
  sp_next : DeliveryState;
  sp_cause : option rstr;
  sp_verified_by : option VerifiedBy;
  sp_turn_edge_ms : option N;
  sp_turn : option TurnKey;
}.
Definition step_to (next : DeliveryState) : Step := MkStep next None None None None.
Definition step_cause (next : DeliveryState) (cause : rstr) : Step := MkStep next (Some cause) None None None.

Inductive Op :=
| OpRoute
| OpManifest (id : rstr)
| OpSelectPayload
| OpSpool (bytes : rstr)
| OpDiscard
| OpOccupant
| OpPaneAlive
| OpEnsureGating
| OpAdapter (call : AdapterCall)
| OpSettleClaim
| OpClaimHold (agent : ProcId) (manifest : rstr)
| OpReleaseUnwritten
| OpClearHold
| OpBoundary (crossed : bool)
| OpPaste
| OpVerifyCapture
| OpCapture
| OpAdvance (allowed_from : list DeliveryState) (step : Step)
| OpRegisterAck (agent : ProcId) (manifest : rstr)
| OpUnregisterAck
| OpSubmit (key : rstr)
| OpTakeEarly
| OpAwaitAck (id_staged : bool)
| OpSettleNotificationClaim
| OpGateLine (line : GateLine)
| OpGateTurn
| OpDeclineKey (key : rstr)
| OpDeclineRecheck (rule : rstr)
| OpSetHold (token : rstr)
| OpGateWait (cause : HoldCause) (retry_after : option N)
| OpNotifyHeld (cause : rstr)
| OpPaused
| OpRequeueFront
| OpCountAttempt
| OpCountRegate
| OpCounters
| OpBlock (cause : NotificationPreWriteCause) (observation : option NotificationPreWriteObservation)
| OpNotifyDeferred (cause : rstr)
| OpFault.

(** [OpManifest] answers the submit key of the manifest, [OpVerifyCapture] the
    staging proof one capture gave, [OpCounters] the attempts and regates,
    [OpDeclineRecheck] whether the rule still wins on a new capture, if there was one. *)
Definition response (o : Op) : Type :=
  match o with
  | OpRoute | OpSpool _ | OpPaneAlive | OpClaimHold _ _ | OpAdvance _ _ | OpSubmit _ | OpPaused
  | OpRequeueFront | OpDeclineKey _ => bool
  | OpManifest _ => option rstr
  | OpSelectPayload => answer AttemptPayload
  | OpOccupant => OccupantView
  | OpEnsureGating | OpAdapter _ => answer unit
  | OpSettleClaim => answer bool
  | OpPaste => PasteAnswer
  | OpVerifyCapture => option (bool * rstr)
  | OpTakeEarly => option PendingAck
  | OpAwaitAck _ => AckOutcome
  | OpGateTurn => GateInput
  | OpDeclineRecheck _ => option bool
  | OpGateWait _ _ => Wake
  | OpCounters => N * N
  | _ => unit
  end.

(** ** Programs *)
Inductive prog (A : Type) :=
| Ret (a : A)
| Ask (o : Op) (k : response o → prog A).
Arguments Ret {A} a.
Arguments Ask {A} o k.
Fixpoint pbind {A B} (p : prog A) (f : A → prog B) : prog B :=
  match p with
  | Ret a => f a
  | Ask o k => Ask o (λ r, pbind (k r) f)
  end.
Declare Scope prog_scope.
Delimit Scope prog_scope with prog.
Notation "'bind!' x <- p ;; q" := (pbind p (λ x, q)) (at level 100, x name, p at next level, right associativity) : prog_scope.
Notation "'ask!' x <- o ;; q" := (Ask o (λ x, q)) (at level 100, x name, o at next level, right associativity) : prog_scope.
Notation "'do!' o ;; q" := (Ask o (λ _, q)) (at level 100, o at next level, right associativity) : prog_scope.
Local Open Scope prog_scope.

(** An interaction: an operation with its answer. *)
Definition Interaction : Type := {o : Op & response o}.
(** The program takes these interactions, in this order, and returns [a]. *)
Fixpoint runs {A} (p : prog A) (tr : list Interaction) (a : A) : Prop :=
  match p with
  | Ret a' => tr = [] ∧ a' = a
  | Ask o k =>
      match tr with
      | [] => False
      | e :: rest => ∃ r, e = existT o r ∧ runs (k r) rest a
      end
  end.

Definition gate_line (action : rstr) (cause : option rstr) : Op := OpGateLine (MkGateLine action None cause).
Fixpoint gate_lines (lines : list GateLine) : prog unit :=
  match lines with [] => Ret tt | line :: lines => do! OpGateLine line;; gate_lines lines end.

(** ** The gate *)
(** The keys of a rule, from its [i]-th on; before the last of several the modal is
    looked at again.  [false] is a sequence that was broken off. *)
Fixpoint send_decline_keys (rule : rstr) (total i : nat) (keys : list rstr) : prog bool :=
  match keys with
  | [] => Ret true
  | key :: keys =>
      let send :=
        ask! sent <- OpDeclineKey key;;
        if sent then send_decline_keys rule total (S i) keys else Ret true in
      if (0 <? i)%nat && (i =? total - 1)%nat then
        ask! still <- OpDeclineRecheck rule;;
        if default false still then send else Ret false
      else send
  end.
Definition decline_modal (rule : CompiledRule) : prog unit :=
  bind! ran <- send_decline_keys (cr_id rule) (length (cr_decline_keys rule)) 0 (cr_decline_keys rule);;
  if ran then Ret tt
  else do! OpGateLine (MkGateLine (str "decline_aborted") (Some (cr_id rule)) (Some (str "modal_changed")));; Ret tt.
(** [gate]: one [gate_turn] per evaluation.  It may wait forever; [turns] bounds the
    evaluations that are run, and [None] is a gate that still waits. *)
Fixpoint gate (turns : nat) (raw : bool) (g : GateState) : prog (option GateOutcome) :=
  match turns with
  | O => Ret None
  | S turns =>
      ask! input <- OpGateTurn;;
      let '(g, lines, turn) := gate_turn raw g input in
      match turn with
      | TurnReturn outcome => bind! _ <- gate_lines lines;; Ret (Some outcome)
      | TurnDecline rule =>
          bind! _ <- gate_lines lines;;
          bind! _ <- decline_modal rule;;
          gate turns raw g
      | TurnHold cause retry_after =>
          do! OpSetHold (receipt_token cause);;
          bind! _ <- gate_lines lines;;
          ask! wake <- OpGateWait cause retry_after;;
          match wake, gs_hold_notified g with
          | WakeNotify, false => do! OpNotifyHeld (hold_journal cause);; gate turns raw (gate_wake g wake)
          | _, _ => gate turns raw (gate_wake g wake)
          end
      end
  end.

(** ** The attempt *)
Inductive AttemptOutcome :=
| AttemptDone
| NoLongerCurrent
| AttemptFailed (failure : AttemptFailure).
Inductive InjectFailure := InjectUnwritten | InjectOther (cause : rstr).

Definition classify_paste_buffer_failure (e : PasteAnswer) : InjectFailure :=
  match e with PasteIo => InjectUnwritten | _ => InjectOther (str "paste_failed") end.
Definition notification_write_cause {A} (a : answer A) : rstr :=
  match a with
  | Bad NoLongerCurrentBeforeWrite => NO_LONGER_CURRENT_BEFORE_WRITE
  | _ => NOTIFICATION_RECORD_FAILED
  end.
Definition occupant_unchanged (v : OccupantView) (proven : Binding) : option HoldCause :=
  if negb (ov_watcher v) then Some HoldSessionDetached
  else match ov_row v with
  | None => Some HoldNoSuchPane
  | Some row =>
      if row_dead row then Some HoldPaneDead
      else if row_in_mode row then Some HoldPaneInMode
      else match ov_binding v with
      | Some current => if bool_decide (current = proven) then None else Some HoldBindingChanged
      | None => Some HoldBindingUnprovable
      end
  end.

(** [commit]: [on_write] runs right before the paste command. *)
Definition commit (on_write : prog (option rstr)) : prog (option InjectFailure) :=
  bind! refused <- on_write;;
  match refused with
  | Some cause => do! OpDiscard;; Ret (Some (InjectOther cause))
  | None =>
      ask! pasted <- OpPaste;;
      match pasted with
      | PasteOk => Ret None
      | e => do! OpDiscard;; Ret (Some (classify_paste_buffer_failure e))
      end
  end.
Definition VERIFY_DELAYS_MS : list N := [0; 120; 240; 480].
(** The verification re-reads: the id proof and the payload it proved, empty when
    staging stayed unobservable. *)
Fixpoint verify_staging (delays : list N) : prog (bool * rstr) :=
  match delays with
  | [] => do! OpCapture;; Ret (false, [])
  | _ :: rest =>
      ask! proof <- OpVerifyCapture;;
      match proof with
      | Some p => Ret p
      | None => verify_staging rest
      end
  end.
Definition inject (on_write : prog (option rstr)) : prog ((bool * rstr) + InjectFailure) :=
  bind! failed <- commit on_write;;
  match failed with
  | Some failure => Ret (inr failure)
  | None => bind! staged <- verify_staging VERIFY_DELAYS_MS;; Ret (inl staged)
  end.

(** The write boundary of a doorbell. *)
Definition on_write_doorbell (proven : Binding) (format : option N) : prog (option rstr) :=
  ask! current <- OpEnsureGating;;
  match current with
  | Good _ =>
      match process_instance_id (fb_pane_root proven), process_instance_id (fb_leader proven),
            process_instance_id (fb_agent proven) with
      | Some pane_root, Some leader, Some agent =>
          ask! claimed <- OpClaimHold (fb_agent proven) (fb_manifest proven);;
          if claimed then
            ask! recorded <- OpAdapter (CallWriting pane_root leader agent (fb_manifest proven) Doorbell format);;
            match recorded with
            | Good _ => do! OpBoundary true;; Ret None
            | e => do! OpReleaseUnwritten;; Ret (Some (notification_write_cause e))
            end
          else Ret (Some (str "barrier_held"))
      | _, _, _ => Ret (Some NOTIFICATION_RECORD_FAILED)
      end
  | e => Ret (Some (notification_write_cause e))
  end.
Definition on_write_raw : prog (option rstr) :=
  ask! current <- OpEnsureGating;;
  match current with
  | Good _ =>
      ask! recorded <- OpAdapter CallWritingRaw;;
      match recorded with
      | Good _ => do! OpBoundary true;; Ret None
      | e => Ret (Some (notification_write_cause e))
      end
  | e => Ret (Some (notification_write_cause e))
  end.
Definition finish_inject_failure (failure : InjectFailure) (release_hold : bool) : prog AttemptOutcome :=
  match failure with
  | InjectUnwritten =>
      ask! corrected <- OpAdapter CallPasteUnwritten;;
      match corrected with
      | Good _ =>
          do! OpBoundary false;;
          if release_hold then do! OpReleaseUnwritten;; Ret (AttemptFailed paste_command_unwritten)
          else Ret (AttemptFailed paste_command_unwritten)
      | _ => Ret (AttemptFailed notification_record_failed)
      end
  | InjectOther cause =>
      if bool_decide (cause = NO_LONGER_CURRENT_BEFORE_WRITE) then Ret NoLongerCurrent
      else Ret (AttemptFailed (from_inject cause))
  end.

(** [record_notification_notified]: recorded, already resolved the other way, or
    failed. *)
Definition record_notification_notified (verified_by : option VerifiedBy) : prog (option bool) :=
  ask! recorded <- OpAdapter (CallNotified verified_by);;
  match recorded with
  | Good _ => Ret (Some true)
  | Bad (TerminalConflict _) => Ret (Some false)
  | _ => Ret None
  end.
Definition settle_without_receipt (cause : rstr) : prog AttemptOutcome :=
  bind! recorded <- record_notification_notified None;;
  match recorded with
  | Some true =>
      do! OpAdvance [DSubmitted] (step_cause DDeliveredUnverified cause);;
      do! gate_line (str "unverified") (Some cause);;
      do! OpClearHold;; Ret AttemptDone
  | Some false => Ret AttemptDone
  | None => Ret (AttemptFailed notification_record_failed)
  end.
Definition early_ack_step (early : PendingAck) : Step :=
  MkStep DDeliveredVerified
    (Some (match pa_evidence early with
           | PendReceipt => str "hook_ack"
           | _ => str "hook_dispatch_accepted_start"
           end)) (Some VerifiedHook) (Some (pa_edge_ms early)) (pa_turn early).

(** Step 7 of [attempt_delivery]: the wait for the receipt. *)
Definition attempt_receipt (id_staged : bool) : prog AttemptOutcome :=
  ask! outcome <- OpAwaitAck id_staged;;
  match outcome with
  | AckResolved => Ret AttemptDone
  | AckScreen =>
      bind! recorded <- record_notification_notified (Some VerifiedScreen);;
      match recorded with
      | Some true =>
          do! OpAdvance [DSubmitted]
            (MkStep DDeliveredUnverified (Some (str "screen_evidence")) (Some VerifiedScreen) None None);;
          Ret AttemptDone
      | Some false => Ret AttemptDone
      | None => Ret (AttemptFailed notification_record_failed)
      end
  | AckTimeout => settle_without_receipt (str "no_receipt")
  | AckRebound => settle_without_receipt (str "receipt_occupant_changed")
  end.
Definition attempt_submitted (id_staged : bool) : prog AttemptOutcome :=
  ask! early <- OpTakeEarly;;
  ask! notified <- OpSettleClaim;;
  match notified with
  | Good true =>
      match early with
      | Some early => do! OpAdvance [DSubmitted] (early_ack_step early);; Ret AttemptDone
      | None => do! OpSettleNotificationClaim;; Ret AttemptDone
      end
  | Good false =>
      match early with
      | Some early =>
          bind! recorded <- record_notification_notified (Some VerifiedHook);;
          match recorded with
          | Some true =>
              ask! moved <- OpAdvance [DSubmitted] (early_ack_step early);;
              if moved then Ret AttemptDone else attempt_receipt id_staged
          | Some false => Ret AttemptDone
          | None => Ret (AttemptFailed notification_record_failed)
          end
      | None => attempt_receipt id_staged
      end
  | _ => Ret (AttemptFailed notification_record_failed)
  end.
(** Steps 5 to 7: the staged row is submitted to the occupant that took it. *)
Definition attempt_submit (proven : Binding) (submit : rstr) (id_staged verified : bool)
    : prog AttemptOutcome :=
  ask! occupant <- OpOccupant;;
  match occupant_unchanged occupant proven with
  | Some detail =>
      do! OpUnregisterAck;;
      do! gate_line (str "rebound") (Some (hold_journal detail));;
      Ret (AttemptFailed pane_rebound_after_paste)
  | None =>
      do! OpRegisterAck (fb_agent proven) (fb_manifest proven);;
      ask! sent <- OpSubmit (if bool_decide (submit = []) then str "Enter" else submit);;
      if sent then
        ask! recorded <- OpAdapter (if verified then CallSubmitted else CallSubmittedUnverified);;
        match recorded with
        | Good _ =>
            ask! moved <- OpAdvance [DStaged] (step_to DSubmitted);;
            if moved then attempt_submitted id_staged else Ret AttemptDone
        | _ => Ret (AttemptFailed notification_record_failed)
        end
      else do! OpUnregisterAck;; Ret (AttemptFailed submit_failed)
  end.
Definition attempt_delivery (proven : Binding) : prog AttemptOutcome :=
  ask! route <- OpRoute;;
  if negb route then Ret (AttemptFailed session_detached)
  else
    ask! manifest <- OpManifest (fb_manifest proven);;
    match manifest with
    | None => Ret (AttemptFailed no_manifest)
    | Some submit =>
        ask! selected <- OpSelectPayload;;
        match selected with
        | Good payload =>
            ask! spooled <- OpSpool (ap_bytes payload);;
            if negb spooled then Ret (AttemptFailed (from_inject (str "spool_failed")))
            else
              ask! occupant <- OpOccupant;;
              match occupant_unchanged occupant proven with
              | Some detail =>
                  do! OpDiscard;;
                  do! gate_line (str "rebound") (Some (hold_journal detail));;
                  Ret (AttemptFailed (rebound_before_paste detail))
              | None =>
                  bind! injected <- inject (on_write_doorbell proven (ap_doorbell_format payload));;
                  match injected with
                  | inr failure => finish_inject_failure failure true
                  | inl (id_staged, proof) =>
                      ask! moved <- OpAdvance [DPasting] (step_to DStaged);;
                      if moved
                      then attempt_submit proven submit id_staged (negb (bool_decide (proof = [])))
                      else Ret AttemptDone
                  end
              end
        | _ => Ret (AttemptFailed payload_unavailable)
        end
    end.
Definition attempt_raw_delivery : prog AttemptOutcome :=
  ask! route <- OpRoute;;
  if negb route then Ret (AttemptFailed session_detached)
  else
    ask! selected <- OpSelectPayload;;
    match selected with
    | Good payload =>
        ask! spooled <- OpSpool (ap_bytes payload);;
        if negb spooled then Ret (AttemptFailed (from_inject (str "spool_failed")))
        else
          ask! alive <- OpPaneAlive;;
          if negb alive then do! OpDiscard;; Ret (AttemptFailed session_detached)
          else
            bind! failed <- commit on_write_raw;;
            match failed with
            | Some failure => finish_inject_failure failure false
            | None =>
                ask! moved <- OpAdvance [DPasting] (step_to DSubmitted);;
                if negb moved then Ret AttemptDone
                else
                  ask! sent <- OpSubmit (str "Enter");;
                  if negb sent then Ret (AttemptFailed submit_failed)
                  else
                    bind! recorded <- record_notification_notified None;;
                    match recorded with
                    | Some true =>
                        do! OpAdvance [DSubmitted] (step_cause DDeliveredUnverified (str "raw"));;
                        do! gate_line (str "unverified") (Some (str "raw"));;
                        Ret AttemptDone
                    | Some false => Ret AttemptDone
                    | None => Ret (AttemptFailed notification_record_failed)
                    end
            end
    | _ => Ret (AttemptFailed payload_unavailable)
    end.

(** ** The worker's loop *)
(** How [process] ended; the code returns unit. *)
Inductive ProcessEnd :=
| EndDone
| EndNotCurrent
| EndBlocked
| EndDeferred
| EndParked
| EndMoved
| EndAttention.

(** [fail_attempt]; [None] is the answer to try again. *)
Definition fail_attempt (failure : AttemptFailure) (retry_max : N) : prog (option ProcessEnd) :=
  let from := [DPasting; DStaged; DSubmitted; DRetryQueued] in
  ask! counters <- OpCounters;;
  match fail_decision failure counters.1 counters.2 retry_max with
  | FailRetry =>
      ask! moved <- OpAdvance from (step_cause DRetryQueued (af_cause failure));;
      Ret (if moved then None else Some EndMoved)
  | FailBlock block => do! OpBlock (pb_cause block) (pb_observation block);; Ret (Some EndBlocked)
  | FailDeferred => do! OpNotifyDeferred (af_cause failure);; Ret (Some EndDeferred)
  | FailAttention cause =>
      ask! recorded <- OpAdapter (CallAttention cause);;
      match recorded with
      | Bad (TerminalConflict _) => Ret (Some EndMoved)
      | Good _ =>
          do! OpAdvance from (step_cause DAttentionRequired (af_cause failure));; Ret (Some EndAttention)
      | _ =>
          do! OpFault;;
          do! OpAdvance from (step_cause DAttentionRequired (af_cause failure));; Ret (Some EndAttention)
      end
  end.

(** What follows a failed attempt: the end, or the cause the gate starts with. *)
Definition process_failed (failure : AttemptFailure) (retry_max : N)
    : prog (ProcessEnd + option HoldCause) :=
  match af_regate failure with
  | Some cause =>
      do! OpCountRegate;;
      ask! queued <- OpAdvance [DPasting] (step_cause DRetryQueued (af_cause failure));;
      if negb queued then Ret (inl EndMoved)
      else
        ask! gating <- OpAdvance [DRetryQueued] (step_cause DGating (str "regate"));;
        Ret (if gating then inr (Some cause) else inl EndMoved)
  | None =>
      bind! ended <- fail_attempt failure retry_max;;
      match ended with
      | Some e => Ret (inl e)
      | None =>
          ask! gating <- OpAdvance [DRetryQueued] (step_cause DGating (str "retry"));;
          Ret (if gating then inr None else inl EndMoved)
      end
  end.
Definition process_proceed (admission : Admission) (retry_max : N)
    : prog (ProcessEnd + option HoldCause) :=
  ask! paused <- OpPaused;;
  if paused then
    ask! moved <- OpAdvance [DGating] (step_cause DRetryQueued (str "quiesce"));;
    if moved then do! OpRequeueFront;; Ret (inl EndParked) else Ret (inl EndParked)
  else
    do! OpCountAttempt;;
    ask! moved <- OpAdvance [DGating] (step_to DPasting);;
    if negb moved then Ret (inl EndMoved)
    else
      bind! outcome <- match admission with
                 | AdmitDoorbell binding _ => attempt_delivery binding
                 | AdmitRaw => attempt_raw_delivery
                 end;;
      match outcome with
      | AttemptDone => Ret (inl EndDone)
      | NoLongerCurrent => Ret (inl EndNotCurrent)
      | AttemptFailed failure => process_failed failure retry_max
      end.
(** One pass of the loop; [None] is a gate that still waits. *)
Definition process_pass (turns : nat) (raw : bool) (regate : option HoldCause) (retry_max : N)
    : prog (option (ProcessEnd + option HoldCause)) :=
  bind! gated <- gate turns raw (gate_start regate);;
  match gated with
  | None => Ret None
  | Some gated =>
      ask! current <- OpEnsureGating;;
      match current with
      | Good _ =>
          match gated with
          | GateWithdrawn => Ret (Some (inl EndNotCurrent))
          | GateBlockedPreWrite cause observation =>
              do! OpBlock cause (Some observation);; Ret (Some (inl EndBlocked))
          | GateDeferred cause => do! OpNotifyDeferred cause;; Ret (Some (inl EndDeferred))
          | GateProceed admission => bind! outcome <- process_proceed admission retry_max;; Ret (Some outcome)
          end
      | Bad NoLongerCurrentBeforeWrite => Ret (Some (inl EndNotCurrent))
      | _ => do! OpNotifyDeferred NOTIFICATION_RECORD_FAILED;; Ret (Some (inl EndDeferred))
      end
  end.
(** The loop has no bound of its own: each pass may wait on the gate and be sent
    back by the composer barrier.  [passes] bounds the passes that are run, [turns] the
    evaluations of one gate; [None] is a loop that still goes on.  [raw] is what the
    sender asked for. *)
Fixpoint process_loop (turns passes : nat) (raw : bool) (regate : option HoldCause) (retry_max : N)
    : prog (option ProcessEnd) :=
  match passes with
  | O => Ret None
  | S passes =>
      bind! outcome <- process_pass turns raw regate retry_max;;
      match outcome with
      | None => Ret None
      | Some (inl e) => Ret (Some e)
      | Some (inr regate) => process_loop turns passes raw regate retry_max
      end
  end.
Definition process (turns passes : nat) (raw : bool) (retry_max : N) : prog (option ProcessEnd) :=
  ask! moved <- OpAdvance [DQueued; DRetryQueued] (step_to DGating);;
  if negb moved then Ret (Some EndMoved)
  else
    ask! recorded <- OpAdapter CallGating;;
    match recorded with
    | Good _ => process_loop turns passes raw None retry_max
    | Bad NoLongerCurrentBeforeWrite => Ret (Some EndNotCurrent)
    | _ => do! OpNotifyDeferred NOTIFICATION_RECORD_FAILED;; Ret (Some EndDeferred)
    end.
