(* ===== verification/DeliveryProps.v ===== *)
(** * What a delivery may do to a pane

    The protocol of the write, as an automaton over the interactions of
    [DeliveryAttempt], and the proof that every run of [process] follows it,
    whatever its environment answers. *)
From S2P Require Import Prelude Text Identity Ledger Notification AttentionRegister Manifests.
From S2P Require Import NotificationAdapter DeliveryGate GateProps Receipt DeliveryPayload DeliveryAttempt.
Local Open Scope N_scope.
Local Open Scope prog_scope.

Section delivery.
(** Whether the sender asked for a raw write. *)
Context (raw : bool).

(** ** The protocol *)
(** How far the pane of a delivery has come: nothing asked; read by the gate; being
    declined, so many keys of the rule sent and the modal looked at again since; admitted
    by the gate; its occupant re-read; the write recorded; the paste refused whole; the
    paste in doubt; pasted; its occupant re-read once more; Enter sent. *)
Inductive Phase :=
| PhIdle
| PhRead (i : GateInput)
| PhDeclining (rule : CompiledRule) (sent : nat) (seen : bool)
| PhOffered (a : Admission)
| PhProven (a : Admission)
| PhAuthorized (a : Admission)
| PhUnwritten
| PhDoubt
| PhPasted (a : Admission)
| PhChecked
| PhEntered.

Definition is_good {A} (a : answer A) : bool := match a with Good _ => true | _ => false end.
(** The durable fact that authorises the write of this admission. *)
Definition authorises (a : Admission) (c : AdapterCall) : bool :=
  match a, c with
  | AdmitDoorbell b _, CallWriting pane_root leader agent manifest Doorbell _ =>
      bool_decide (process_instance_id (fb_pane_root b) = Some pane_root) &&
      bool_decide (process_instance_id (fb_leader b) = Some leader) &&
      bool_decide (process_instance_id (fb_agent b) = Some agent) &&
      bool_decide (fb_manifest b = manifest)
  | AdmitRaw, CallWritingRaw => true
  | _, _ => false
  end.
Definition records_write (c : AdapterCall) : bool :=
  match c with CallWriting _ _ _ _ _ _ | CallWritingRaw => true | _ => false end.

(** Nothing of the message was asked of the pane. *)
Definition clean (ph : Phase) : bool :=
  match ph with PhIdle | PhRead _ | PhDeclining _ _ _ | PhOffered _ | PhProven _ => true | _ => false end.
Definition on_turn (ph : Phase) (i : GateInput) : option Phase := if clean ph then Some (PhRead i) else None.
(** What the gate made of its reading it says in a line. *)
Definition on_line (ph : Phase) (line : GateLine) : Phase :=
  match ph with
  | PhRead i =>
      match gate_reads raw i with
      | TurnReturn (GateProceed a) => if bool_decide (gl_action line = str "proceed") then PhOffered a else ph
      | TurnDecline rule => if bool_decide (gl_action line = str "decline") then PhDeclining rule 0 false else ph
      | _ => ph
      end
  | _ => ph
  end.
Definition on_key (ph : Phase) (key : rstr) : option Phase :=
  match ph with
  | PhDeclining rule sent seen =>
      if bool_decide (cr_decline_keys rule !! sent = Some key) &&
         ((sent =? 0)%nat || negb (sent =? length (cr_decline_keys rule) - 1)%nat || seen)
      then Some (PhDeclining rule (S sent) false) else None
  | _ => None
  end.
Definition on_recheck (ph : Phase) (rule : rstr) (r : option bool) : Phase :=
  match ph with
  | PhDeclining x sent _ => PhDeclining x sent (bool_decide (rule = cr_id x) && bool_decide (r = Some true))
  | _ => ph
  end.
Definition on_occupant (ph : Phase) (v : OccupantView) : option Phase :=
  match ph with
  | PhOffered (AdmitDoorbell b d) =>
      Some (if bool_decide (occupant_unchanged v b = None) then PhProven (AdmitDoorbell b d) else ph)
  | PhPasted (AdmitDoorbell b d) =>
      Some (if bool_decide (occupant_unchanged v b = None) then PhChecked else ph)
  | _ => None
  end.
Definition on_alive (ph : Phase) (alive : bool) : option Phase :=
  match ph with
  | PhOffered AdmitRaw => Some (if alive then PhProven AdmitRaw else ph)
  | _ => None
  end.
Definition on_adapter (ph : Phase) (c : AdapterCall) (ok : bool) : option Phase :=
  if records_write c && ok then
    match ph with
    | PhProven a => if authorises a c then Some (PhAuthorized a) else None
    | _ => None
    end
  else Some ph.
Definition on_paste (ph : Phase) (r : PasteAnswer) : option Phase :=
  match ph with
  | PhAuthorized a =>
      Some (match r with PasteOk => PhPasted a | PasteIo => PhUnwritten | PasteError => PhDoubt end)
  | _ => None
  end.
Definition on_submit (ph : Phase) : option Phase :=
  match ph with PhChecked | PhPasted AdmitRaw => Some PhEntered | _ => None end.
(** [None] is a breach of the protocol. *)
Definition observe (ph : Phase) (e : Interaction) : option Phase :=
  match e with
  | existT OpGateTurn i => on_turn ph i
  | existT (OpGateLine line) _ => Some (on_line ph line)
  | existT (OpDeclineKey key) _ => on_key ph key
  | existT (OpDeclineRecheck rule) r => Some (on_recheck ph rule r)
  | existT OpOccupant r => on_occupant ph r
  | existT OpPaneAlive r => on_alive ph r
  | existT (OpAdapter c) r => on_adapter ph c (is_good r)
  | existT OpPaste r => on_paste ph r
  | existT (OpSubmit _) _ => on_submit ph
  | _ => Some ph
  end.
Fixpoint follows (ph : Phase) (tr : list Interaction) : option Phase :=
  match tr with
  | [] => Some ph
  | e :: rest => match observe ph e with Some ph => follows ph rest | None => None end
  end.

(** Something of the message may have reached the pane. *)
Definition written (ph : Phase) : bool :=
  match ph with PhDoubt | PhPasted _ | PhChecked | PhEntered => true | _ => false end.

Definition is_turn (e : Interaction) : bool := match e with existT OpGateTurn _ => true | _ => false end.
Definition is_decline_key (e : Interaction) : bool := match e with existT (OpDeclineKey _) _ => true | _ => false end.
Definition is_paste (e : Interaction) : bool := match e with existT OpPaste _ => true | _ => false end.
Definition is_submit (e : Interaction) : bool :=
  match e with existT (OpSubmit _) _ => true | _ => false end.
(** A paste command of which tmux may have taken a byte. *)
Definition may_write (e : Interaction) : bool :=
  match e with existT OpPaste PasteIo => false | existT OpPaste _ => true | _ => false end.
Definition times (P : Interaction → bool) (tr : list Interaction) : nat := length (List.filter P tr).

(** ** Proving programs against the protocol *)
(** Every run of [p] from phase [ph] follows the protocol and ends in [Q]. *)
Fixpoint safe {A} (p : prog A) (ph : Phase) (Q : A → Phase → Prop) : Prop :=
  match p with
  | Ret a => Q a ph
  | Ask o k => ∀ r, match observe ph (existT o r) with
                    | Some ph' => safe (k r) ph' Q
                    | None => False
                    end
  end.
Lemma safe_mono {A} (p : prog A) Q Q' : ∀ ph,
  safe p ph Q → (∀ a ph', Q a ph' → Q' a ph') → safe p ph Q'.
Proof.
  induction p as [a|o k IH]; cbn [safe pbind]; intros ph Hs HQ; [by apply HQ|]. intros r. specialize (Hs r).
  destruct (observe ph (existT o r)); [by eapply IH|done].
Qed.
Lemma safe_bind {A B} (p : prog A) (f : A → prog B) Q : ∀ ph,
  safe p ph (λ a ph', safe (f a) ph' Q) → safe (pbind p f) ph Q.
Proof.
  induction p as [a|o k IH]; cbn [safe pbind]; intros ph Hs; [done|]. intros r. specialize (Hs r).
  destruct (observe ph (existT o r)); [by apply IH|done].
Qed.
Lemma safe_seq {A B} (p : prog A) (f : A → prog B) ph P Q :
  safe p ph P → (∀ a ph', P a ph' → safe (f a) ph' Q) → safe (pbind p f) ph Q.
Proof. intros Hp Hf. apply safe_bind. by eapply safe_mono. Qed.
Lemma safe_runs {A} (p : prog A) Q a : ∀ ph tr,
  safe p ph Q → runs p tr a → ∃ ph', follows ph tr = Some ph' ∧ Q a ph'.
Proof.
  induction p as [a'|o k IH]; cbn [safe runs]; intros ph tr Hs.
  - intros [-> <-]. eauto.
  - destruct tr as [|e rest]; [done|]. intros (r & -> & Hr). cbn [follows]. specialize (Hs r).
    destruct (observe ph (existT o r)); [by eapply IH|done].
Qed.

(** Asks one operation, whatever the answer. *)
Ltac ask_op := cbn [safe]; intros ?r; cbn [observe].
(** Runs a program whose remaining operations do not concern the protocol. *)
Ltac run_quiet := repeat first
  [ progress cbn [safe pbind observe]
  | apply safe_bind
  | match goal with |- ∀ _, _ => intros ? end
  | case_match; simplify_eq/= ].

(** ** The gate *)
(** A phase in which no line means anything. *)
Definition deaf (ph : Phase) : Prop := match ph with PhRead _ => False | _ => True end.
Lemma lines_deaf lines ph : deaf ph → safe (gate_lines lines) ph (λ _ ph', ph' = ph).
Proof.
  intros Hd. induction lines as [|line lines IH]; cbn [gate_lines]; [done|]. ask_op.
  assert (on_line ph line = ph) as -> by by destruct ph. apply IH.
Qed.
(** A turn that neither admits nor declines says nothing that matters. *)
Lemma lines_idle lines i : safe (gate_lines lines) (PhRead i) (λ _ ph', clean ph' = true).
Proof.
  assert (∀ ph, clean ph = true → ∀ lines, safe (gate_lines lines) ph (λ _ ph', clean ph' = true)) as H; [|by apply H].
  clear. intros ph Hc lines. revert ph Hc. induction lines as [|line lines IH]; intros ph Hc; cbn [gate_lines]; [done|]. ask_op.
  apply IH. unfold on_line. destruct ph; try done. by repeat case_match.
Qed.
Lemma send_decline_keys_safe rule : ∀ keys i seen,
  drop i (cr_decline_keys rule) = keys → seen = false →
  safe (send_decline_keys (cr_id rule) (length (cr_decline_keys rule)) i keys) (PhDeclining rule i seen)
    (λ _ ph, clean ph = true).
Proof.
  induction keys as [|key keys IH]; intros i seen Hd ->; cbn [send_decline_keys]; [done|].
  assert (cr_decline_keys rule !! i = Some key) as Hk by (rewrite <- (Nat.add_0_r i), <- lookup_drop, Hd; done).
  assert (drop (S i) (cr_decline_keys rule) = keys) as Hd' by (rewrite <- Nat.add_1_r, <- drop_drop, Hd; done).
  assert (∀ seen, ((i =? 0)%nat || negb (i =? length (cr_decline_keys rule) - 1)%nat || seen) = true →
    safe (Ask (OpDeclineKey key) (λ sent, if sent then send_decline_keys (cr_id rule) (length (cr_decline_keys rule)) (S i) keys else Ret true))
      (PhDeclining rule i seen) (λ _ ph, clean ph = true)) as Hsend.
  { intros seen Hs. ask_op. unfold on_key. rewrite (bool_decide_eq_true_2 (_ = Some key)) by done. rewrite Hs. cbn [andb].
    destruct r; [by apply IH|done]. }
  destruct ((0 <? i)%nat && (i =? length (cr_decline_keys rule) - 1)%nat) eqn:E.
  - ask_op. cbn [on_recheck]. rewrite (bool_decide_eq_true_2 (cr_id rule = cr_id rule)) by done. cbn [andb].
    destruct r as [[|]|]; cbn [default from_option id]; try done. apply Hsend. by rewrite bool_decide_eq_true_2, orb_true_r by done.
  - apply Hsend. destruct i as [|i]; [done|]. cbn in E. cbn. by rewrite E.
Qed.
Lemma decline_modal_safe rule : safe (decline_modal rule) (PhDeclining rule 0 false) (λ _ ph, clean ph = true).
Proof.
  unfold decline_modal. eapply safe_seq; [by apply send_decline_keys_safe|]. intros [] ph Hc; [done|]. ask_op.
  unfold on_line. destruct ph; try done. by repeat case_match.
Qed.
(** A gate that returns an admission has said so. *)
Definition gate_ok (r : option GateOutcome) (ph : Phase) : Prop :=
  match r with Some (GateProceed a) => ph = PhOffered a | _ => clean ph = true end.
Lemma gate_safe turns : ∀ g ph, clean ph = true → safe (gate turns raw g) ph gate_ok.
Proof.
  induction turns as [|turns IH]; intros g ph Hc; cbn [gate]; [done|]. ask_op. unfold on_turn. rewrite Hc. rename r into i.
  destruct (gate_turn raw g i) as [[g' lines] turn] eqn:E. destruct turn as [outcome|rule|cause retry].
  - destruct outcome as [a| | |]; [|by (eapply safe_seq; [apply lines_idle|])..].
    apply gate_turn_proceed in E as ([rule ->] & Hr & _). cbn [gate_lines pbind]. ask_op. unfold on_line. by rewrite Hr, bool_decide_eq_true_2.
  - apply gate_turn_decline in E as (_ & _ & _ & _ & -> & Hr). cbn [gate_lines pbind]. ask_op. unfold on_line.
    rewrite Hr, bool_decide_eq_true_2 by done. eapply safe_seq; [apply decline_modal_safe|]. intros ? ph' Hc'. by apply IH.
  - cbn [safe observe]. intros _. eapply safe_seq; [apply lines_idle|]. intros ? ph' Hc'. cbn [safe observe]. intros wake.
    destruct wake; [by apply IH|by apply IH|]. destruct (gs_hold_notified g'); [by apply IH|]. cbn [safe observe].
    intros _. by apply IH.
Qed.

(** ** The write boundary *)
Lemma on_write_doorbell_safe b d format :
  safe (on_write_doorbell b format) (PhProven (AdmitDoorbell b d))
    (λ r ph, ph = match r with
                  | None => PhAuthorized (AdmitDoorbell b d)
                  | Some _ => PhProven (AdmitDoorbell b d)
                  end).
Proof.
  unfold on_write_doorbell. ask_op. destruct r as [[]|e|]; [|done|done].
  destruct (process_instance_id (fb_pane_root b)) as [root|] eqn:H1; [|done].
  destruct (process_instance_id (fb_leader b)) as [leader|] eqn:H2; [|done].
  destruct (process_instance_id (fb_agent b)) as [agent|] eqn:H3; [|done].
  ask_op. destruct r; [|done]. ask_op.
  unfold on_adapter. cbn [records_write authorises].
  destruct r as [[]|e|]; cbn [is_good andb]; [|done|done].
  by rewrite H1, H2, H3, !bool_decide_eq_true_2.
Qed.
Lemma on_write_raw_safe :
  safe on_write_raw (PhProven AdmitRaw)
    (λ r ph, ph = match r with None => PhAuthorized AdmitRaw | Some _ => PhProven AdmitRaw end).
Proof.
  unfold on_write_raw. ask_op. destruct r as [[]|e|]; [|done|done]. ask_op. by destruct r.
Qed.
Lemma commit_safe p a :
  safe p (PhProven a) (λ r ph, ph = match r with None => PhAuthorized a | Some _ => PhProven a end) →
  safe (commit p) (PhProven a)
    (λ r ph, match r with
             | None => ph = PhPasted a
             | Some InjectUnwritten => ph = PhUnwritten
             | Some (InjectOther cause) => ph = PhProven a ∨ (ph = PhDoubt ∧ cause = str "paste_failed")
             end).
Proof.
  intros Hp. unfold commit. eapply safe_seq; [exact Hp|]. intros [cause|] ph ->.
  - ask_op. by left.
  - ask_op. destruct r; [done|ask_op; done|ask_op; by right].
Qed.

(** ** One attempt *)
(** A failure that claims to lie before the write does. *)
Record failed_ok (f : AttemptFailure) (ph : Phase) : Prop := {
  fo_before : af_boundary f = BeforeWrite → clean ph = true ∨ ph = PhUnwritten;
  fo_retry : af_boundary f = BeforeWrite → af_cause f ≠ str "paste_command_unwritten" → clean ph = true;
  fo_regate : is_Some (af_regate f) → clean ph = true;
  fo_block : is_Some (af_pre_write_block f) → af_boundary f = BeforeWrite;
}.
Definition outcome_ok (o : AttemptOutcome) (ph : Phase) : Prop :=
  match o with
  | AttemptDone => written ph = true
  | NoLongerCurrent => clean ph = true
  | AttemptFailed f => failed_ok f ph
  end.

Lemma failed_clean f ph :
  clean ph = true → (is_Some (af_pre_write_block f) → af_boundary f = BeforeWrite) → failed_ok f ph.
Proof. intros Hc Hb. by split; auto. Qed.
Lemma failed_after cause ph : failed_ok (after_write cause) ph.
Proof. split; cbn; try done; by intros [? [=]]. Qed.
Lemma failed_unwritten : failed_ok paste_command_unwritten PhUnwritten.
Proof. split; [by right|by intros _ []|by intros [? [=]]|done]. Qed.
Lemma from_inject_block cause :
  is_Some (af_pre_write_block (from_inject cause)) → af_boundary (from_inject cause) = BeforeWrite.
Proof. unfold from_inject. repeat (case_bool_decide; [try done; by intros [? [=]]|]). by intros [? [=]]. Qed.
Lemma rebound_block detail ph : clean ph = true → failed_ok (rebound_before_paste detail) ph.
Proof. intros. apply failed_clean; [done|]. by destruct detail. Qed.

Lemma finish_inject_failure_safe failure release a ph :
  match failure with
  | InjectUnwritten => ph = PhUnwritten
  | InjectOther cause => ph = PhProven a ∨ (ph = PhDoubt ∧ cause = str "paste_failed")
  end →
  safe (finish_inject_failure failure release) ph outcome_ok.
Proof.
  destruct failure as [|cause]; cbn [finish_inject_failure].
  - intros ->. ask_op. cbn [on_adapter records_write andb].
    destruct r as [[]|e|]; [|apply failed_after|apply failed_after].
    ask_op. destruct release; [ask_op|]; apply failed_unwritten.
  - intros [->|[-> ->]].
    + case_bool_decide; [done|]. apply failed_clean; [done|apply from_inject_block].
    + apply failed_after.
Qed.
Lemma verify_staging_safe delays ph : safe (verify_staging delays) ph (λ _ ph', ph' = ph).
Proof.
  induction delays as [|d rest IH]; cbn [verify_staging].
  - by ask_op.
  - ask_op. by destruct r.
Qed.
Lemma inject_safe p a :
  safe p (PhProven a) (λ r ph, ph = match r with None => PhAuthorized a | Some _ => PhProven a end) →
  safe (inject p) (PhProven a)
    (λ r ph, match r with
             | inl _ => ph = PhPasted a
             | inr InjectUnwritten => ph = PhUnwritten
             | inr (InjectOther cause) => ph = PhProven a ∨ (ph = PhDoubt ∧ cause = str "paste_failed")
             end).
Proof.
  intros Hp. unfold inject. eapply safe_seq; [by apply commit_safe|].
  intros [failure|] ph; cbn [safe]; [done|]. intros ->.
  eapply safe_seq; [apply verify_staging_safe|]. by intros ? ? ->.
Qed.
Lemma notified_safe v ph : safe (record_notification_notified v) ph (λ _ ph', ph' = ph).
Proof.
  unfold record_notification_notified. ask_op. cbn [on_adapter records_write andb].
  by destruct r as [[]|[]|].
Qed.
Lemma settle_without_receipt_safe cause :
  safe (settle_without_receipt cause) PhEntered outcome_ok.
Proof.
  unfold settle_without_receipt. eapply safe_seq; [apply notified_safe|].
  intros [[]|] ph ->; [repeat ask_op; done|done|apply failed_after].
Qed.
Lemma attempt_receipt_safe id_staged : safe (attempt_receipt id_staged) PhEntered outcome_ok.
Proof.
  unfold attempt_receipt. ask_op. destruct r; [done|apply settle_without_receipt_safe| |
    apply settle_without_receipt_safe].
  eapply safe_seq; [apply notified_safe|]. intros [[]|] ph ->; [by ask_op|done|apply failed_after].
Qed.
Lemma attempt_submitted_safe id_staged : safe (attempt_submitted id_staged) PhEntered outcome_ok.
Proof.
  unfold attempt_submitted. ask_op. rename r into early. ask_op.
  destruct r as [[]|e|]; [|destruct early as [early|]|apply failed_after..].
  - by destruct early; ask_op.
  - eapply safe_seq; [apply notified_safe|]. intros [[]|] ph ->; [|done|apply failed_after].
    ask_op. destruct r; [done|apply attempt_receipt_safe].
  - apply attempt_receipt_safe.
Qed.
Lemma attempt_submit_safe b d submit id_staged verified :
  safe (attempt_submit b submit id_staged verified) (PhPasted (AdmitDoorbell b d)) outcome_ok.
Proof.
  unfold attempt_submit. ask_op. cbn [on_occupant].
  destruct (occupant_unchanged r b) as [detail|] eqn:Ho.
  - rewrite bool_decide_eq_false_2 by done. repeat ask_op. apply failed_after.
  - rewrite (bool_decide_eq_true_2 (@None HoldCause = None)) by done. ask_op. ask_op. cbn [on_submit].
    destruct r1; [|ask_op; apply failed_after]. ask_op.
    replace (on_adapter PhEntered (if verified then CallSubmitted else CallSubmittedUnverified) (is_good r1))
      with (Some PhEntered) by by destruct verified.
    destruct r1 as [[]|e|]; [|apply failed_after..].
    ask_op. destruct r1; [apply attempt_submitted_safe|done].
Qed.
Lemma attempt_delivery_safe b d :
  safe (attempt_delivery b) (PhOffered (AdmitDoorbell b d)) outcome_ok.
Proof.
  unfold attempt_delivery. ask_op. destruct r; [cbn [negb]|by apply failed_clean].
  ask_op. destruct r as [submit|]; [|by apply failed_clean].
  ask_op. destruct r as [payload|e|]; [|by apply failed_clean..].
  ask_op. destruct r; [cbn [negb]|apply failed_clean; [done|apply from_inject_block]].
  ask_op. cbn [on_occupant]. destruct (occupant_unchanged r b) as [detail|] eqn:Ho.
  - rewrite bool_decide_eq_false_2 by done. repeat ask_op. by apply rebound_block.
  - rewrite (bool_decide_eq_true_2 (@None HoldCause = None)) by done.
    eapply safe_seq; [apply inject_safe, on_write_doorbell_safe|].
    intros [[id_staged proof]|failure] ph; [|apply finish_inject_failure_safe].
    intros ->. ask_op. destruct r0; [apply attempt_submit_safe|done].
Qed.
Lemma attempt_raw_delivery_safe : safe attempt_raw_delivery (PhOffered AdmitRaw) outcome_ok.
Proof.
  unfold attempt_raw_delivery. ask_op. destruct r; [cbn [negb]|by apply failed_clean].
  ask_op. destruct r as [payload|e|]; [|by apply failed_clean..].
  ask_op. destruct r; [cbn [negb]|apply failed_clean; [done|apply from_inject_block]].
  ask_op. cbn [on_alive]. destruct r; [cbn [negb]|ask_op; by apply failed_clean].
  eapply safe_seq; [apply commit_safe, on_write_raw_safe|].
  intros [failure|] ph; [apply finish_inject_failure_safe|]. intros ->.
  ask_op. destruct r; [cbn [negb]|done]. ask_op. cbn [on_submit].
  destruct r; [cbn [negb]|apply failed_after].
  eapply safe_seq; [apply notified_safe|]. intros [[]|] ph ->; [|done|apply failed_after].
  repeat ask_op. done.
Qed.

(** ** The loop *)
Definition end_ok (e : ProcessEnd) (ph : Phase) : Prop :=
  match e with
  | EndDone => written ph = true
  | EndNotCurrent | EndParked => clean ph = true
  | EndBlocked | EndDeferred => clean ph = true ∨ ph = PhUnwritten
  | EndMoved | EndAttention => True
  end.
Definition pass_ok (r : ProcessEnd + option HoldCause) (ph : Phase) : Prop :=
  match r with inl e => end_ok e ph | inr _ => clean ph = true end.

Lemma fail_attempt_safe f retry_max ph :
  failed_ok f ph →
  safe (fail_attempt f retry_max) ph
    (λ r ph', match r with Some e => end_ok e ph' | None => clean ph' = true end).
Proof.
  intros [Hb Hr _ Hbl]. unfold fail_attempt. ask_op. destruct r as [attempts regates]. cbn [fst snd].
  destruct (fail_decision f attempts regates retry_max) as [|block| |cause] eqn:E.
  - apply fail_retry_iff in E as (H1 & H2 & _). ask_op. destruct r; [exact (Hr H1 H2)|done].
  - ask_op. cbn. apply Hb, Hbl. unfold fail_decision in E. by repeat case_match; simplify_eq.
  - ask_op. cbn. apply Hb. unfold fail_decision in E. by repeat case_match; bool_facts.
  - ask_op. cbn [on_adapter records_write andb]. by destruct r as [[]|[]|]; repeat ask_op.
Qed.
Lemma process_failed_safe f retry_max ph :
  failed_ok f ph → safe (process_failed f retry_max) ph pass_ok.
Proof.
  intros Hf. unfold process_failed. destruct (af_regate f) as [cause|] eqn:E.
  - assert (clean ph = true) as Hc by (apply (fo_regate _ _ Hf); by rewrite E).
    ask_op. ask_op. destruct r0; [cbn [negb]; ask_op; by destruct r0|done].
  - eapply safe_seq; [by apply fail_attempt_safe|]. intros [e|] ph' Hph; [done|].
    ask_op. by destruct r.
Qed.
Lemma process_proceed_safe a retry_max : safe (process_proceed a retry_max) (PhOffered a) pass_ok.
Proof.
  unfold process_proceed. ask_op. destruct r.
  { ask_op. by destruct r; [ask_op|]. }
  ask_op. ask_op. destruct r0; [cbn [negb]|done].
  apply (safe_seq _ _ _ outcome_ok).
  - destruct a as [b d|]; [apply attempt_delivery_safe|apply attempt_raw_delivery_safe].
  - intros [| |f] ph Ho; [done|done|by apply process_failed_safe].
Qed.
Lemma process_pass_safe turns regate retry_max ph :
  clean ph = true →
  safe (process_pass turns raw regate retry_max) ph
    (λ r ph', match r with Some r => pass_ok r ph' | None => clean ph' = true end).
Proof.
  intros Hc. unfold process_pass. eapply safe_seq; [by apply gate_safe|]. intros [gated|] ph' Hg; [|done].
  ask_op. destruct r as [[]|[]|]; try (by destruct gated; cbn in Hg; subst; repeat ask_op; cbn; auto).
  destruct gated as [a|cause ob|cause|]; cbn in Hg; [|ask_op; by left|ask_op; by left|done]. subst ph'.
  eapply safe_seq; [apply process_proceed_safe|]. done.
Qed.
Lemma process_loop_safe turns passes : ∀ regate retry_max ph,
  clean ph = true → safe (process_loop turns passes raw regate retry_max) ph
    (λ r ph', match r with Some e => end_ok e ph' | None => clean ph' = true end).
Proof.
  induction passes as [|passes IH]; intros regate retry_max ph Hc; [done|]. cbn [process_loop].
  eapply safe_seq; [by apply process_pass_safe|]. intros [[e|regate']|] ph' Hph; [done|by apply IH|done].
Qed.
Lemma process_safe turns passes retry_max :
  safe (process turns passes raw retry_max) PhIdle
    (λ r ph, match r with Some e => end_ok e ph | None => clean ph = true end).
Proof.
  unfold process. ask_op. destruct r; [cbn [negb]|done]. ask_op. cbn [on_adapter records_write andb].
  destruct r as [[]|[]|]; try (by repeat ask_op; cbn; auto). by apply process_loop_safe.
Qed.

(** ** What a run did *)
Definition rank (b : bool) : nat := if b then 1 else 0.
Definition pasting (ph : Phase) : bool :=
  match ph with PhUnwritten | PhDoubt | PhPasted _ | PhChecked | PhEntered => true | _ => false end.
Definition entered (ph : Phase) : bool := match ph with PhEntered => true | _ => false end.

Ltac observe_cases := repeat (case_match; simplify_eq/=); done.
Lemma observe_ranks ph e ph' :
  observe ph e = Some ph' →
  (rank (pasting ph') = rank (is_paste e) + rank (pasting ph) ∧
   rank (entered ph') = rank (is_submit e) + rank (entered ph) ∧
   rank (written ph') = rank (may_write e) + rank (written ph))%nat.
Proof.
  destruct e as [[] r]; cbn [observe response] in *; try (by intros [= <-]).
  - unfold on_occupant. intros. observe_cases.
  - unfold on_alive. intros. observe_cases.
  - unfold on_adapter. intros. observe_cases.
  - unfold on_paste. intros. observe_cases.
  - unfold on_submit. intros. observe_cases.
  - unfold on_line. intros. observe_cases.
  - unfold on_turn. destruct ph; try done; by intros [= <-].
  - unfold on_key. intros. observe_cases.
  - unfold on_recheck. intros. observe_cases.
Qed.
Lemma follows_ranks tr : ∀ ph ph',
  follows ph tr = Some ph' →
  (rank (pasting ph') = times is_paste tr + rank (pasting ph) ∧
   rank (entered ph') = times is_submit tr + rank (entered ph) ∧
   rank (written ph') = times may_write tr + rank (written ph))%nat.
Proof.
  induction tr as [|e tr IH]; intros ph ph'; cbn [follows]; [by intros [= <-]|].
  destruct (observe ph e) as [ph1|] eqn:E; [|done]. intros (H1 & H2 & H3)%IH.
  destruct (observe_ranks _ _ _ E) as (G1 & G2 & G3). unfold times. cbn [List.filter].
  rewrite H1, H2, H3, G1, G2, G3. unfold times.
  destruct (is_paste e), (is_submit e), (may_write e); cbn [rank length]; lia.
Qed.
Lemma follows_app l1 : ∀ ph l2, follows ph (l1 ++ l2) = follows ph l1 ≫= λ ph', follows ph' l2.
Proof.
  induction l1 as [|e l1 IH]; intros ph l2; cbn [app follows]; [done|].
  by destruct (observe ph e).
Qed.
(** The phase in which a run of [process] asked an operation. *)
Lemma process_asked turns passes retry_max l1 e l2 r :
  runs (process turns passes raw retry_max) (l1 ++ e :: l2) r →
  ∃ ph, follows PhIdle l1 = Some ph ∧ is_Some (observe ph e).
Proof.
  intros Hr. destruct (safe_runs _ _ _ _ _ (process_safe turns passes retry_max) Hr) as (ph & Hf & _).
  rewrite follows_app in Hf. apply bind_Some in Hf as (ph1 & Hf & He). cbn [follows] in He.
  exists ph1. split; [done|]. by destruct (observe ph1 e).
Qed.


(** ** What a run had earned *)
Definition no_turn (l : list Interaction) : Prop := times is_turn l = 0%nat.
(** [l] has an interaction [e] with [E e], [P] held of what came before it, and the gate
    has not read the pane again since. *)
Definition after (P : list Interaction → Prop) (E : Interaction → Prop) (l : list Interaction) : Prop :=
  ∃ l1 e l2, l = l1 ++ e :: l2 ∧ E e ∧ no_turn l2 ∧ P l1.
(** The gate admitted the write on its latest reading. *)
Definition had_gate (a : Admission) : list Interaction → Prop :=
  after (λ _, True) (λ e, ∃ i, e = existT OpGateTurn i ∧ gate_reads raw i = TurnReturn (GateProceed a)).
(** The occupant, re-read, is still the admitted one; or a raw target is alive. *)
Definition proof_of (a : Admission) (e : Interaction) : Prop :=
  match a with
  | AdmitDoorbell b _ => ∃ v, e = existT OpOccupant v ∧ occupant_unchanged v b = None
  | AdmitRaw => e = existT OpPaneAlive true
  end.
Definition had_proof (a : Admission) : list Interaction → Prop := after (had_gate a) (proof_of a).
Definition had_record (a : Admission) : list Interaction → Prop :=
  after (had_proof a) (λ e, ∃ c, e = existT (OpAdapter c) (Good tt) ∧ authorises a c = true).
Definition had_paste (a : Admission) : list Interaction → Prop :=
  after (had_record a) (λ e, e = existT OpPaste PasteOk).
Definition had_check (a : Admission) : list Interaction → Prop := after (had_paste a) (proof_of a).
(** The gate's latest reading [i], and what was done since. *)
Definition since (i : GateInput) (l : list Interaction) (rest : list Interaction) : Prop :=
  ∃ l0, l = l0 ++ existT OpGateTurn i :: rest ∧ no_turn rest.
(** The modal was looked at again after the last key, and its rule still wins. *)
Definition looked_again (rule : CompiledRule) (rest : list Interaction) : Prop :=
  ∃ l1 l2, rest = l1 ++ existT (OpDeclineRecheck (cr_id rule)) (Some true) :: l2 ∧ times is_decline_key l2 = 0%nat.

Lemma times_snoc P l e : times P (l ++ [e]) = (times P l + rank (P e))%nat.
Proof. unfold times. rewrite List.filter_app, length_app. cbn. by destruct (P e). Qed.
Lemma no_turn_snoc l e : is_turn e = false → no_turn l → no_turn (l ++ [e]).
Proof. unfold no_turn. intros He Hl. by rewrite times_snoc, He, Hl. Qed.
Lemma after_old P E l e : is_turn e = false → after P E l → after P E (l ++ [e]).
Proof.
  intros He (l1 & x & l2 & -> & ? & ? & ?). exists l1, x, (l2 ++ [e]).
  split_and!; [by rewrite <-app_assoc|done|by apply no_turn_snoc|done].
Qed.
Lemma after_new (P : list Interaction → Prop) (E : Interaction → Prop) l e :
  P l → E e → after P E (l ++ [e]).
Proof. intros. by exists l, e, []. Qed.
Lemma since_old i l rest e : is_turn e = false → since i l rest → since i (l ++ [e]) (rest ++ [e]).
Proof.
  intros He (l0 & -> & Hn). exists l0. split; [by rewrite <-app_assoc|by apply no_turn_snoc].
Qed.
#[local] Hint Resolve after_old after_new since_old : core.

Definition earned (ph : Phase) (l : list Interaction) : Prop :=
  match ph with
  | PhIdle | PhUnwritten | PhDoubt | PhEntered => True
  | PhRead i => ∃ rest, since i l rest ∧ times is_decline_key rest = 0%nat
  | PhDeclining rule n seen => ∃ i rest,
      since i l rest ∧ gate_reads raw i = TurnDecline rule ∧ times is_decline_key rest = n ∧
      (seen = true → looked_again rule rest)
  | PhOffered a => had_gate a l
  | PhProven a => had_proof a l
  | PhAuthorized a => had_record a l
  | PhPasted a => had_paste a l
  | PhChecked => ∃ b d, had_paste (AdmitDoorbell b d) l ∧ had_check (AdmitDoorbell b d) l
  end.
Lemma earned_old ph l e : is_turn e = false → is_decline_key e = false → earned ph l → earned ph (l ++ [e]).
Proof.
  intros Ht Hk. destruct ph as [|i|rule n seen| | | | | | | |]; cbn;
    unfold had_gate, had_proof, had_record, had_paste, had_check; eauto.
  - intros (rest & Hs & Hn). exists (rest ++ [e]). rewrite times_snoc, Hk, Hn. eauto.
  - intros (i & rest & Hs & Hr & Hn & Hl). exists i, (rest ++ [e]). rewrite times_snoc, Hk, Hn.
    split_and!; [by eauto|done|by apply Nat.add_0_r|]. intros (l1 & l2 & -> & Hl2)%Hl.
    exists l1, (l2 ++ [e]). by rewrite <-app_assoc, times_snoc, Hk, Hl2.
  - intros (b & d & ? & ?). exists b, d. auto.
Qed.
Lemma earned_step ph e ph' l : observe ph e = Some ph' → earned ph l → earned ph' (l ++ [e]).
Proof.
  destruct e as [[] r]; cbn [observe response] in *; try (intros [= <-]; by apply earned_old).
  - unfold on_occupant. destruct ph as [| | |[b d|]| | | | |[b d|]| |]; try done; intros [= <-] Hl;
      (case_bool_decide; [|by apply earned_old]).
    + apply after_new; [done|]. by exists r.
    + exists b, d. split; [by apply after_old|]. apply after_new; [done|]. by exists r.
  - unfold on_alive. destruct ph as [| | |[b d|]| | | | | | |]; try done. intros [= <-] Hl.
    destruct r; [|by apply earned_old]. by apply after_new.
  - unfold on_adapter. destruct (records_write call && is_good r) eqn:E; [|intros [= <-]; by apply earned_old].
    apply andb_true_iff in E as [_ Hg]. destruct r as [[]| |]; try done.
    destruct ph; try done. destruct (authorises a call) eqn:Ha; [|done]. intros [= <-] Hl.
    apply after_new; [done|]. by exists call.
  - unfold on_paste. destruct ph; try done. intros [= <-] Hl. destruct r; [|done|done]. by apply after_new.
  - unfold on_submit. destruct ph as [| | | | | | | |[b d|]| |]; try done; by intros [= <-].
  - intros [= <-] Hl. unfold on_line. destruct ph as [|i| | | | | | | | |]; try (by apply earned_old).
    destruct Hl as (rest & Hs & Hn).
    assert (earned (PhRead i) (l ++ [existT (OpGateLine line) r])) as Hold by (apply earned_old; [done..|by exists rest]).
    destruct (gate_reads raw i) as [[a| | |]|rule|] eqn:Hr; try done; (case_bool_decide; [|done]).
    + destruct Hs as (l0 & -> & Ht). apply after_old; [done|]. exists l0, (existT OpGateTurn i), rest. split_and!; [done|by exists i|done|done].
    + exists i, (rest ++ [existT (OpGateLine line) r]). rewrite times_snoc, Hn. split_and!; [by eauto|done..].
  - unfold on_turn. destruct (clean ph); [|done]. intros [= <-] _. exists []. split; [|done]. by exists l.
  - unfold on_key. destruct ph; try done. case_match; [|done]. intros [= <-] (i & rest & Hs & Hr & Hn & _).
    exists i, (rest ++ [existT (OpDeclineKey key) r]). rewrite times_snoc, Hn. cbn [is_decline_key rank].
    split_and!; [by eauto|done|lia|done].
  - intros [= <-] Hl. unfold on_recheck. destruct ph as [| |x n seen| | | | | | | |]; try (by apply earned_old).
    destruct Hl as (i & rest & Hs & Hr & Hn & _). exists i, (rest ++ [existT (OpDeclineRecheck rule) r]).
    rewrite times_snoc, Hn. split_and!; [by eauto|done|by apply Nat.add_0_r|].
    intros [->%bool_decide_eq_true ->%bool_decide_eq_true]%andb_true_iff. by exists rest, [].
Qed.
Lemma earned_follows tr : ∀ ph ph' l, follows ph tr = Some ph' → earned ph l → earned ph' (l ++ tr).
Proof.
  induction tr as [|e tr IH]; intros ph ph' l; cbn [follows].
  { intros [= <-]. by rewrite app_nil_r. }
  destruct (observe ph e) as [ph1|] eqn:E; [|done]. intros Hf Hl.
  rewrite cons_middle, app_assoc. eapply IH; [done|by eapply earned_step].
Qed.
(** What the gate admits is of the kind that was asked for. *)
Lemma reads_kind i a :
  gate_reads raw i = TurnReturn (GateProceed a) → match a with AdmitDoorbell _ _ => raw = false | AdmitRaw => raw = true end.
Proof.
  unfold gate_reads. destruct (gate_turn raw (gate_start None) i) as [[g' lines] t] eqn:E. cbn. intros ->.
  by apply gate_turn_proceed in E as (_ & _ & Hk).
Qed.
Lemma reads_decline i rule : gate_reads raw i = TurnDecline rule → raw = false ∧ shows_modal (gi_view i) rule.
Proof.
  unfold gate_reads. destruct (gate_turn raw (gate_start None) i) as [[g' lines] t] eqn:E. cbn. intros ->.
  by apply gate_turn_decline in E as (Hr & Hm & _).
Qed.
Lemma record_kind a l : had_record a l → match a with AdmitDoorbell _ _ => raw = false | AdmitRaw => raw = true end.
Proof.
  intros (? & ? & ? & _ & _ & _ & ? & ? & ? & _ & _ & _ & ? & ? & ? & _ & (i & _ & Hr) & _). by eapply reads_kind.
Qed.
Lemma paste_kind a l : had_paste a l → match a with AdmitDoorbell _ _ => raw = false | AdmitRaw => raw = true end.
Proof. intros (? & ? & ? & _ & _ & _ & Hr). by eapply record_kind. Qed.

End delivery.
