(* ===== verification/HookAck.v ===== *)
(** * Delivery handles and hook acknowledgements

    [src/cyclopsd/src/delivery/mod.rs] ([DeliveryHandle], [HandleState]) and
    [src/cyclopsd/src/delivery/gate.rs] ([advance], [settle_hold_on_receipt], the
    registry of handles a hook can match, and the resolution of receipts and
    dispatches).

    A handle is shared between the worker, the hook matcher and claims, so it
    lives in a heap and is named by a reference; [Arc::ptr_eq] is equality of
    references.  The composer hold belongs to state fusion: what a receipt asks of
    it is a value. *)
From S2P Require Import Prelude Text Identity Ledger Notification AttentionRegister.
From S2P Require Import NotificationAdapter DeliveryGate Receipt TurnKeys DeliveryAttempt.
Local Open Scope N_scope.

(** ** Handles *)
Record HandleState := MkHandleState {
  hs_state : DeliveryState;
  hs_attempts : N;
  hs_verified_by : option VerifiedBy;
  hs_cause : option rstr;
  hs_held_by : option rstr;
  hs_early_ack : option PendingAck;
  hs_regates : N;
  hs_barrier : option rstr;
}.
Record DeliveryHandle := MkHandle {
  dh_context : NotificationContext;
  dh_to : rstr;
  dh_payload : rstr;
  dh_transport : option NotificationTransport;
  dh_hs : HandleState;
  dh_submitted : SubmittedTo;
  dh_write_boundary_crossed : bool;
  dh_worker_recoveries : N;
  dh_raw : bool;
}.
Definition handle_pane (h : DeliveryHandle) : PaneKey :=
  (sb_session_idx (dh_submitted h), sb_pane_id (dh_submitted h)).
Definition handle_state (h : DeliveryHandle) : DeliveryState := hs_state (dh_hs h).
(** [for_notification]; [raw] is [notification.raw_transport()]. *)
Definition for_notification (to pane_id : rstr) (session_idx : N) (cx : NotificationContext) (raw : bool)
    : DeliveryHandle :=
  MkHandle cx to [] None (MkHandleState DQueued 0 None None None None 0 None)
    (MkSubmitted session_idx pane_id 0 None None) false 0 raw.
Definition set_hs (h : DeliveryHandle) (hs : HandleState) : DeliveryHandle :=
  MkHandle (dh_context h) (dh_to h) (dh_payload h) (dh_transport h) hs (dh_submitted h)
    (dh_write_boundary_crossed h) (dh_worker_recoveries h) (dh_raw h).
Definition set_early (h : DeliveryHandle) (early : option PendingAck) : DeliveryHandle :=
  let s := dh_hs h in
  set_hs h (MkHandleState (hs_state s) (hs_attempts s) (hs_verified_by s) (hs_cause s) (hs_held_by s)
    early (hs_regates s) (hs_barrier s)).
Definition set_cause (h : DeliveryHandle) (cause : rstr) : DeliveryHandle :=
  let s := dh_hs h in
  set_hs h (MkHandleState (hs_state s) (hs_attempts s) (hs_verified_by s) (Some cause) (hs_held_by s)
    (hs_early_ack s) (hs_regates s) (hs_barrier s)).

(** ** Transitions *)
(** What a receipt asks of the composer hold. *)
Inductive HoldEffect :=
| EffectBindTurn (owner : rstr) (turn : TurnKey) (since_ms : N)
| EffectTurnStarted (owner : rstr) (since_ms : N).
(** [now] stands for [unix_ms()]. *)
Definition settle_hold_on_receipt (h : DeliveryHandle) (verified_by : option VerifiedBy)
    (turn_edge_ms : option N) (turn : option TurnKey) (now : N) : option HoldEffect :=
  owner ← hs_barrier (dh_hs h);
  match verified_by with
  | Some VerifiedHook =>
      let since_ms := default now turn_edge_ms in
      match turn with
      | Some turn => Some (EffectBindTurn owner turn since_ms)
      | None => Some (EffectTurnStarted owner since_ms)
      end
  | _ => Some (EffectTurnStarted owner (sb_submitted_at_ms (dh_submitted h)))
  end.
Definition advance (h : DeliveryHandle) (allowed_from : list DeliveryState) (step : Step) (now : N)
    : DeliveryHandle * bool * option HoldEffect :=
  let s := dh_hs h in
  if bool_decide (hs_state s ∈ allowed_from) then
    let h' := set_hs h (MkHandleState (sp_next step) (hs_attempts s)
      (match sp_verified_by step with Some v => Some v | None => hs_verified_by s end)
      (sp_cause step) (if bool_decide (sp_next step ≠ DGating) then None else hs_held_by s)
      (hs_early_ack s) (hs_regates s) (hs_barrier s)) in
    let first_receipt :=
      bool_decide (hs_state s = DSubmitted) && bool_decide (is_Some (sp_verified_by step)) &&
      (bool_decide (sp_next step = DDeliveredVerified) || bool_decide (sp_next step = DDeliveredUnverified)) in
    let late_correlated :=
      bool_decide (hs_state s = DDeliveredUnverified) && bool_decide (sp_next step = DDeliveredVerified) in
    (h', true,
     if first_receipt || late_correlated
     then settle_hold_on_receipt h' (sp_verified_by step) (sp_turn_edge_ms step) (sp_turn step) now
     else None)
  else (h, false, None).
Definition take_accepted_early_ack (h : DeliveryHandle) : DeliveryHandle * option PendingAck :=
  match hs_early_ack (dh_hs h) with
  | Some ack =>
      match pa_evidence ack with
      | PendReceipt | PendDispatchAccepted => (set_early h None, Some ack)
      | PendDispatchPending => (h, None)
      end
  | None => (h, None)
  end.

(** ** The registry *)
Record Engine := MkEngine {
  en_handles : gmap N DeliveryHandle;
  en_acks : gmap PaneKey (list N);
}.
Definition ACK_REGISTRY_CAP : nat := 32.
Definition put (e : Engine) (ref : N) (h : DeliveryHandle) : Engine :=
  MkEngine (<[ref := h]> (en_handles e)) (en_acks e).
Definition awaits_hook (e : Engine) (ref : N) : bool :=
  match handle_state <$> en_handles e !! ref with
  | Some (DSubmitted | DDeliveredUnverified) => true
  | _ => false
  end.
Definition register_ack (e : Engine) (ref : N) (pane : PaneKey) : Engine :=
  let entry := default [] (en_acks e !! pane) in
  let kept := List.filter (λ r, negb (r =? ref) && awaits_hook e r) entry in
  let kept := if (ACK_REGISTRY_CAP <=? length kept)%nat then drop 1 kept else kept in
  MkEngine (en_handles e) (<[pane := kept ++ [ref]]> (en_acks e)).
Definition unregister_ack (e : Engine) (ref : N) (pane : PaneKey) : Engine :=
  match en_acks e !! pane with
  | Some entry =>
      MkEngine (en_handles e) (<[pane := List.filter (λ r, negb (r =? ref)) entry]> (en_acks e))
  | None => e
  end.
Definition ack_candidates (e : Engine) (pane : PaneKey) : list N := default [] (en_acks e !! pane).

(** ** Receipts *)
(** What a resolution leaves: the engine, whether it moved, and what it asks of
    the hold.  [recorded] is the answer of [record_notification_notified]. *)
Definition Resolution : Type := Engine * bool * option HoldEffect.
Definition advance_at (e : Engine) (ref : N) (h : DeliveryHandle) (from : DeliveryState) (step : Step)
    (now : N) : Resolution :=
  let '(h, moved, effect) := advance h [from] step now in (put e ref h, moved, effect).
Definition hook_step (cause : rstr) (edge_ms : N) (turn : option TurnKey) : Step :=
  MkStep DDeliveredVerified (Some cause) (Some VerifiedHook) (Some edge_ms) turn.
Definition resolve_hook_ack (e : Engine) (ref : N) (reporter : ProcId) (reporter_manifest : rstr)
    (edge_ms : N) (turn : option TurnKey) (recorded : option bool) (now : N) : Resolution :=
  match en_handles e !! ref with
  | None => (e, false, None)
  | Some h =>
      if negb (submitted_binding_is (dh_submitted h) reporter reporter_manifest) then (e, false, None)
      else match handle_state h with
      | DStaged =>
          (match hs_early_ack (dh_hs h) with
           | None => put e ref (set_early h (Some (MkPendingAck edge_ms turn PendReceipt)))
           | Some _ => e
           end, true, None)
      | DSubmitted =>
          match recorded with
          | Some true => advance_at e ref h DSubmitted (hook_step (str "hook_ack") edge_ms turn) now
          | _ => (e, false, None)
          end
      | DDeliveredUnverified =>
          advance_at e ref h DDeliveredUnverified (hook_step (str "hook_ack_upgrade") edge_ms turn) now
      | _ => (e, false, None)
      end
  end.

(** ** Dispatches *)
Definition open_to_dispatch (s : DeliveryState) : bool :=
  match s with DStaged | DSubmitted | DDeliveredUnverified => true | _ => false end.
#[export] Instance PendingAckEvidence_eq_dec : EqDecision PendingAckEvidence.
Proof. solve_decision. Defined.
Definition record_dispatch_candidate (h : DeliveryHandle) (reporter : ProcId) (reporter_manifest : rstr)
    (edge_ms : N) (turn : option TurnKey) : DeliveryHandle * bool :=
  if negb (submitted_binding_is (dh_submitted h) reporter reporter_manifest) then (h, false)
  else if negb (open_to_dispatch (handle_state h)) then (h, false)
  else match hs_early_ack (dh_hs h) with
  | Some existing =>
      (h, (pa_edge_ms existing =? edge_ms) && bool_decide (pa_turn existing = turn) &&
          bool_decide (pa_evidence existing = PendDispatchPending))
  | None => (set_early h (Some (MkPendingAck edge_ms turn PendDispatchPending)), true)
  end.
Definition mark_dispatch_match_ambiguous (h : DeliveryHandle) (reporter : ProcId)
    (reporter_manifest : rstr) (cause : rstr) : DeliveryHandle * bool :=
  if negb (submitted_binding_is (dh_submitted h) reporter reporter_manifest) then (h, false)
  else if negb (open_to_dispatch (handle_state h)) then (h, false)
  else (set_cause h cause, true).

(** A pending dispatch that names no turn, at this edge. *)
Definition unkeyed_pending (h : DeliveryHandle) (edge_ms : N) : bool :=
  match hs_early_ack (dh_hs h) with
  | Some p =>
      bool_decide (pa_turn p = None) && bool_decide (pa_evidence p = PendDispatchPending) &&
      (pa_edge_ms p =? edge_ms)
  | None => false
  end.
Inductive UnkeyedDispatchSelection :=
| SelNone
| SelUnique (ref : N) (owner : rstr)
| SelAmbiguous (refs : list N).
Definition unkeyed_match (e : Engine) (reporter : ProcId) (reporter_manifest : rstr) (edge_ms ref : N)
    : option (N * rstr) :=
  h ← en_handles e !! ref;
  if submitted_binding_is (dh_submitted h) reporter reporter_manifest && unkeyed_pending h edge_ms
  then (λ owner, (ref, owner)) <$> hs_barrier (dh_hs h) else None.
Definition select_unkeyed_dispatch_candidate (e : Engine) (refs : list N) (reporter : ProcId)
    (reporter_manifest : rstr) (edge_ms : N) : UnkeyedDispatchSelection :=
  match omap (unkeyed_match e reporter reporter_manifest edge_ms) refs with
  | [] => SelNone
  | [(ref, owner)] => SelUnique ref owner
  | matching => SelAmbiguous matching.*1
  end.
Definition update (e : Engine) (f : DeliveryHandle → DeliveryHandle) (ref : N) : Engine :=
  match en_handles e !! ref with Some h => put e ref (f h) | None => e end.
Definition accept_pending (h : DeliveryHandle) (accepted_ms : N) : DeliveryHandle :=
  match hs_early_ack (dh_hs h) with
  | Some p => set_early h (Some (MkPendingAck accepted_ms (pa_turn p) PendDispatchAccepted))
  | None => h
  end.
(** The transition an accepted dispatch justifies, by the state it was found in. *)
Definition settle_accepted (e : Engine) (ref : N) (accepted_ms : N) (turn : option TurnKey)
    (recorded : option bool) (now : N) : Resolution :=
  match en_handles e !! ref with
  | None => (e, false, None)
  | Some h =>
      let step := hook_step (str "hook_dispatch_accepted_start") accepted_ms turn in
      match handle_state h with
      | DSubmitted =>
          match recorded with
          | Some true => advance_at e ref h DSubmitted step now
          | _ => (e, false, None)
          end
      | DDeliveredUnverified => advance_at e ref h DDeliveredUnverified step now
      | _ => (e, false, None)
      end
  end.
(** [hold_owned] is the answer of [set_hold_owned] for the selected owner. *)
Definition confirm_unkeyed_dispatch_ack (e : Engine) (pane : PaneKey) (reporter : ProcId)
    (reporter_manifest : rstr) (edge_ms accepted_ms : N) (hold_owned : bool) (recorded : option bool)
    (now : N) : Resolution :=
  if accepted_ms <=? edge_ms then (e, false, None)
  else match select_unkeyed_dispatch_candidate e (ack_candidates e pane) reporter reporter_manifest edge_ms with
  | SelNone => (e, false, None)
  | SelAmbiguous refs =>
      (foldl (λ e ref, update e (λ h, (mark_dispatch_match_ambiguous h reporter reporter_manifest
                                        (str "hook_dispatch_ambiguous")).1) ref) e refs, false, None)
  | SelUnique ref owner =>
      if negb hold_owned then (e, false, None)
      else
        let '(e, _, effect) := settle_accepted (update e (λ h, accept_pending h accepted_ms) ref) ref
                                 accepted_ms None recorded now in
        (e, match recorded with
            | None => negb (bool_decide (handle_state <$> en_handles e !! ref = Some DSubmitted))
            | _ => true
            end, effect)
  end.
Definition reject_one (e : Engine) (reporter : ProcId) (reporter_manifest : rstr) (edge_ms : N)
    (cause : rstr) (ref : N) : Engine * bool :=
  match en_handles e !! ref with
  | Some h =>
      if submitted_binding_is (dh_submitted h) reporter reporter_manifest && unkeyed_pending h edge_ms
      then (put e ref (set_cause (set_early h None) cause), true) else (e, false)
  | None => (e, false)
  end.
Definition reject_unkeyed_dispatch_ack (e : Engine) (pane : PaneKey) (reporter : ProcId)
    (reporter_manifest : rstr) (edge_ms : N) (cause : rstr) : Engine * N :=
  foldl (λ '(e, rejected) ref,
      let '(e, removed) := reject_one e reporter reporter_manifest edge_ms cause ref in
      (e, if removed then rejected + 1 else rejected))
    (e, 0) (ack_candidates e pane).
Definition keyed_pending (h : DeliveryHandle) (turn : TurnKey) : bool :=
  match hs_early_ack (dh_hs h) with
  | Some p => bool_decide (pa_turn p = Some turn) && bool_decide (pa_evidence p = PendDispatchPending)
  | None => false
  end.
Definition confirm_one (e : Engine) (reporter : ProcId) (reporter_manifest : rstr) (turn : TurnKey)
    (accepted_ms : N) (recorded : N → option bool) (now : N) (ref : N) : Engine :=
  match en_handles e !! ref with
  | Some h =>
      if submitted_binding_is (dh_submitted h) reporter reporter_manifest && keyed_pending h turn
      then (settle_accepted (put e ref (accept_pending h accepted_ms)) ref accepted_ms (Some turn)
              (recorded ref) now).1.1
      else e
  | None => e
  end.
Definition confirm_dispatch_ack (e : Engine) (pane : PaneKey) (reporter : ProcId)
    (reporter_manifest : rstr) (turn : TurnKey) (accepted_ms : N) (recorded : N → option bool) (now : N)
    : Engine :=
  foldl (λ e ref, confirm_one e reporter reporter_manifest turn accepted_ms recorded now ref) e
    (ack_candidates e pane).

(** ** What the matcher may do *)
Inductive HookOp :=
| HkResolve (ref edge_ms : N) (turn : option TurnKey)
| HkDispatch (ref edge_ms : N) (turn : option TurnKey)
| HkAmbiguous (ref : N) (cause : rstr)
| HkConfirmUnkeyed (pane : PaneKey) (edge_ms accepted_ms : N) (hold_owned : bool)
| HkReject (pane : PaneKey) (edge_ms : N) (cause : rstr)
| HkConfirm (pane : PaneKey) (turn : TurnKey) (accepted_ms : N).
(** One report of [reporter]; [recorded] answers the durable receipt of a handle. *)
Record HookReport := MkHookReport {
  hr_reporter : ProcId;
  hr_manifest : rstr;
  hr_recorded : N → option bool;
  hr_now : N;
  hr_op : HookOp;
}.
(** [None] stands for the candidate a pane-wide confirmation selects. *)
Definition recorded_for (e : Engine) (r : HookReport) (pane : PaneKey) (edge_ms : N) : option bool :=
  match select_unkeyed_dispatch_candidate e (ack_candidates e pane) (hr_reporter r) (hr_manifest r) edge_ms with
  | SelUnique ref _ => hr_recorded r ref
  | _ => None
  end.
Definition hook_run (e : Engine) (r : HookReport) : Engine :=
  let '(MkHookReport reporter manifest recorded now op) := r in
  match op with
  | HkResolve ref edge_ms turn =>
      (resolve_hook_ack e ref reporter manifest edge_ms turn (recorded ref) now).1.1
  | HkDispatch ref edge_ms turn =>
      update e (λ h, (record_dispatch_candidate h reporter manifest edge_ms turn).1) ref
  | HkAmbiguous ref cause =>
      update e (λ h, (mark_dispatch_match_ambiguous h reporter manifest cause).1) ref
  | HkConfirmUnkeyed pane edge_ms accepted_ms hold_owned =>
      (confirm_unkeyed_dispatch_ack e pane reporter manifest edge_ms accepted_ms hold_owned
         (recorded_for e r pane edge_ms) now).1.1
  | HkReject pane edge_ms cause => (reject_unkeyed_dispatch_ack e pane reporter manifest edge_ms cause).1
  | HkConfirm pane turn accepted_ms =>
      confirm_dispatch_ack e pane reporter manifest turn accepted_ms recorded now
  end.

(** What one report may do to the handle [h]. *)
Record touched (r : HookReport) (ref : N) (h h' : DeliveryHandle) : Prop := {
  to_context : dh_context h' = dh_context h;
  to_submitted : dh_submitted h' = dh_submitted h;
  to_barrier : hs_barrier (dh_hs h') = hs_barrier (dh_hs h);
  to_payload : dh_payload h' = dh_payload h;
  to_state :
    (handle_state h' = handle_state h ∧ hs_verified_by (dh_hs h') = hs_verified_by (dh_hs h)) ∨
    (handle_state h' = DDeliveredVerified ∧ hs_verified_by (dh_hs h') = Some VerifiedHook ∧
     submitted_binding_is (dh_submitted h) (hr_reporter r) (hr_manifest r) = true ∧
     (handle_state h = DDeliveredUnverified ∨
      (handle_state h = DSubmitted ∧ hr_recorded r ref = Some true)));
  to_early : ∀ p, hs_early_ack (dh_hs h) = Some p → pa_evidence p = PendReceipt →
    hs_early_ack (dh_hs h') = Some p;
}.
Definition touched_all (r : HookReport) (e e' : Engine) : Prop :=
  ∀ ref, match en_handles e !! ref, en_handles e' !! ref with
         | Some h, Some h' => touched r ref h h'
         | None, None => True
         | _, _ => False
         end.

Lemma touched_refl r ref h : touched r ref h h.
Proof. split; auto. Qed.
Lemma touched_trans r ref h1 h2 h3 : touched r ref h1 h2 → touched r ref h2 h3 → touched r ref h1 h3.
Proof.
  intros [A1 A2 A3 A4 A5 A6] [B1 B2 B3 B4 B5 B6]. split; try congruence; [|naive_solver].
  rewrite A2 in B5. destruct A5 as [(A5 & V)|(A5 & Ax)], B5 as [(B5 & W)|(B5 & Bv & Bb & Bs)].
  - left; split; congruence.
  - right. by rewrite A5 in Bs.
  - right. split; [congruence|]. destruct Ax as (? & ? & ?). split; [congruence|done].
  - destruct Bs as [?|[? _]]; congruence.
Qed.
Lemma touched_all_refl r e : touched_all r e e.
Proof. intros ref. destruct (en_handles e !! ref); [apply touched_refl|done]. Qed.
Lemma touched_all_trans r e1 e2 e3 : touched_all r e1 e2 → touched_all r e2 e3 → touched_all r e1 e3.
Proof.
  intros H1 H2 ref. specialize (H1 ref). specialize (H2 ref).
  destruct (en_handles e1 !! ref), (en_handles e2 !! ref), (en_handles e3 !! ref); try done.
  by eapply touched_trans.
Qed.
Lemma touched_put r e ref h h' :
  en_handles e !! ref = Some h → touched r ref h h' → touched_all r e (put e ref h').
Proof.
  intros Hh Ht q. cbn. rewrite lookup_insert. case_decide as Hq; [subst; by rewrite Hh|].
  destruct (en_handles e !! q); [apply touched_refl|done].
Qed.
Lemma touched_update r e f ref :
  (∀ h, touched r ref h (f h)) → touched_all r e (update e f ref).
Proof.
  intros Hf. unfold update. destruct (en_handles e !! ref) eqn:E; [|apply touched_all_refl].
  by eapply touched_put.
Qed.
Lemma touched_foldl r {A} (f : Engine → A → Engine) l : ∀ e,
  (∀ e a, touched_all r e (f e a)) → touched_all r e (foldl f e l).
Proof.
  induction l as [|a l IH]; intros e Hf; [apply touched_all_refl|]. cbn.
  eapply touched_all_trans; [apply Hf|by apply IH].
Qed.

(** The moves on one handle. *)
Lemma touched_set_early r ref h p :
  (∀ q, hs_early_ack (dh_hs h) = Some q → pa_evidence q ≠ PendReceipt) → touched r ref h (set_early h p).
Proof. intros Hq. split; cbn; auto. intros q E Hev. by destruct (Hq q E). Qed.
Lemma touched_set_cause r ref h c : touched r ref h (set_cause h c).
Proof. split; cbn; auto. Qed.
Lemma touched_dispatch r ref h edge turn :
  touched r ref h (record_dispatch_candidate h (hr_reporter r) (hr_manifest r) edge turn).1.
Proof.
  unfold record_dispatch_candidate. destruct (negb _); [apply touched_refl|].
  destruct (negb _); [apply touched_refl|].
  destruct (hs_early_ack (dh_hs h)) eqn:E; [apply touched_refl|]. apply touched_set_early. by rewrite E.
Qed.
Lemma touched_ambiguous r ref h c :
  touched r ref h (mark_dispatch_match_ambiguous h (hr_reporter r) (hr_manifest r) c).1.
Proof.
  unfold mark_dispatch_match_ambiguous. destruct (negb _); [apply touched_refl|].
  destruct (negb _); [apply touched_refl|]. apply touched_set_cause.
Qed.
Lemma touched_accept r ref h accepted :
  (∀ q, hs_early_ack (dh_hs h) = Some q → pa_evidence q ≠ PendReceipt) →
  touched r ref h (accept_pending h accepted).
Proof.
  intros Hq. unfold accept_pending. destruct (hs_early_ack (dh_hs h)) eqn:E; [|apply touched_refl].
  apply touched_set_early. by rewrite E.
Qed.
(** A verifying step on a handle the reporter was bound to. *)
Lemma touched_advance r e ref h from cause edge turn now :
  en_handles e !! ref = Some h → handle_state h = from →
  submitted_binding_is (dh_submitted h) (hr_reporter r) (hr_manifest r) = true →
  (from = DDeliveredUnverified ∨ (from = DSubmitted ∧ hr_recorded r ref = Some true)) →
  touched_all r e (advance_at e ref h from (hook_step cause edge turn) now).1.1.
Proof.
  intros Hh Hs Hb Hf. unfold advance_at, advance. unfold handle_state in Hs.
  rewrite bool_decide_eq_true_2 by (rewrite Hs; apply list_elem_of_here). cbn.
  eapply touched_put; [exact Hh|]. split; cbn; try done. right.
  unfold handle_state. cbn. rewrite Hs. auto.
Qed.
Lemma touched_settle r e ref accepted turn now :
  (∀ h, en_handles e !! ref = Some h →
     submitted_binding_is (dh_submitted h) (hr_reporter r) (hr_manifest r) = true) →
  touched_all r e (settle_accepted e ref accepted turn (hr_recorded r ref) now).1.1.
Proof.
  intros Hb. unfold settle_accepted. destruct (en_handles e !! ref) as [h|] eqn:E; [|apply touched_all_refl].
  destruct (handle_state h) eqn:Hs; try apply touched_all_refl.
  - destruct (hr_recorded r ref) as [[]|] eqn:Hr; try apply touched_all_refl.
    eapply touched_advance; auto.
  - eapply touched_advance; auto.
Qed.
Lemma unkeyed_not_receipt h edge : unkeyed_pending h edge = true →
  ∀ q, hs_early_ack (dh_hs h) = Some q → pa_evidence q ≠ PendReceipt.
Proof.
  unfold unkeyed_pending. intros H q Hq. rewrite Hq in H. bool_facts. congruence.
Qed.
Lemma keyed_not_receipt h turn : keyed_pending h turn = true →
  ∀ q, hs_early_ack (dh_hs h) = Some q → pa_evidence q ≠ PendReceipt.
Proof. unfold keyed_pending. intros H q Hq. rewrite Hq in H. bool_facts. congruence. Qed.
Lemma accept_pending_submitted h accepted : dh_submitted (accept_pending h accepted) = dh_submitted h.
Proof. unfold accept_pending. by destruct (hs_early_ack (dh_hs h)). Qed.
Lemma selected_match e refs reporter manifest edge ref owner :
  select_unkeyed_dispatch_candidate e refs reporter manifest edge = SelUnique ref owner →
  ref ∈ refs ∧ ∃ h, en_handles e !! ref = Some h ∧
    submitted_binding_is (dh_submitted h) reporter manifest = true ∧
    unkeyed_pending h edge = true ∧ hs_barrier (dh_hs h) = Some owner.
Proof.
  unfold select_unkeyed_dispatch_candidate.
  destruct (omap _ refs) as [|[ref' owner'] [|]] eqn:E; try done. intros [= -> ->].
  assert ((ref, owner) ∈ omap (unkeyed_match e reporter manifest edge) refs) as Hin
    by (rewrite E; apply list_elem_of_here).
  apply list_elem_of_omap in Hin as (x & Hx & Hm). unfold unkeyed_match in Hm.
  apply bind_Some in Hm as (h & Hh & Hm). destruct (_ && _) eqn:Hb; [|done].
  apply fmap_Some in Hm as (o & Ho & [= -> ->]). bool_facts. split; [done|]. exists h. auto.
Qed.

Lemma hook_run_touched e r : touched_all r e (hook_run e r).
Proof.
  destruct r as [reporter manifest recorded now op].
  set (r := MkHookReport reporter manifest recorded now op).
  destruct op as [ref edge turn|ref edge turn|ref cause|pane edge accepted owned|pane edge cause|pane turn accepted];
    cbn [hook_run r].
  - unfold resolve_hook_ack. destruct (en_handles e !! ref) as [h|] eqn:E; [|apply touched_all_refl].
    destruct (submitted_binding_is (dh_submitted h) reporter manifest) eqn:Hb; [cbn [negb]|apply touched_all_refl].
    destruct (handle_state h) eqn:Hs; try apply touched_all_refl.
    + destruct (hs_early_ack (dh_hs h)) eqn:He; [apply touched_all_refl|].
      eapply touched_put; [done|]. apply touched_set_early. by rewrite He.
    + destruct (recorded ref) as [[]|] eqn:Hr; try apply touched_all_refl.
      eapply touched_advance; auto.
    + eapply touched_advance; auto.
  - apply touched_update. intros h. apply (touched_dispatch r).
  - apply touched_update. intros h. apply (touched_ambiguous r).
  - unfold confirm_unkeyed_dispatch_ack. destruct (accepted <=? edge); [apply touched_all_refl|].
    unfold recorded_for. cbn [hr_reporter hr_manifest hr_recorded r].
    destruct (select_unkeyed_dispatch_candidate _ _ _ _ _) as [|ref owner|refs] eqn:Hsel.
    + apply touched_all_refl.
    + destruct owned; [cbn [negb]|apply touched_all_refl].
      apply selected_match in Hsel as (_ & h & Hh & Hb & Hp & _).
      destruct (settle_accepted _ _ _ _ _ _) as [[e' m] eff] eqn:Hset. cbn [fst].
      assert (e' = (settle_accepted (update e (λ h, accept_pending h accepted) ref) ref accepted None
        (recorded ref) now).1.1) as -> by by rewrite Hset.
      eapply touched_all_trans; [|apply (touched_settle r)].
      * unfold update. rewrite Hh. eapply touched_put; [done|]. apply touched_accept.
        by eapply unkeyed_not_receipt.
      * intros h'. unfold update. rewrite Hh. cbn. rewrite lookup_insert_eq. intros [= <-].
        by rewrite accept_pending_submitted.
    + apply touched_foldl. intros e' ref. apply touched_update. intros h. apply (touched_ambiguous r).
  - unfold reject_unkeyed_dispatch_ack.
    assert (∀ l e n, touched_all r e (foldl (λ '(e, rejected) ref,
      let '(e, removed) := reject_one e reporter manifest edge cause ref in
      (e, if removed then rejected + 1 else rejected)) (e, n) l).1) as H; [|apply H].
    induction l as [|ref l IH]; intros e' n; [apply touched_all_refl|]. cbn [foldl].
    unfold reject_one at 2. destruct (en_handles e' !! ref) as [h|] eqn:E; [|apply IH].
    destruct (_ && unkeyed_pending h edge) eqn:Hp; [|apply IH]. bool_facts.
    eapply touched_all_trans; [|apply IH]. eapply touched_put; [done|].
    eapply touched_trans; [|apply touched_set_cause]. apply touched_set_early.
    by eapply unkeyed_not_receipt.
  - unfold confirm_dispatch_ack. apply touched_foldl. intros e' ref. unfold confirm_one.
    destruct (en_handles e' !! ref) as [h|] eqn:E; [|apply touched_all_refl].
    destruct (_ && keyed_pending h turn) eqn:Hp; [|apply touched_all_refl]. bool_facts.
    eapply touched_all_trans; [|apply (touched_settle r)].
    + eapply touched_put; [done|]. apply touched_accept. by eapply keyed_not_receipt.
    + intros h'. cbn. rewrite lookup_insert_eq. intros [= <-]. by rewrite accept_pending_submitted.
Qed.

(** A hook can only confirm what it was party to.  Whatever reports arrive,
    a handle keeps its message, its submitted binding, its bytes and its claim on
    the composer; its state moves only to verified, only on a report of the very
    process and rules Enter reached, and from a submitted delivery only once the
    receipt is durable; and a receipt already pending is never replaced. *)
Theorem hook_reports_only_verify e r : touched_all r e (hook_run e r).
Proof. apply hook_run_touched. Qed.

Lemma staged_receipt_kept p ref reports : ∀ e h,
  en_handles e !! ref = Some h → handle_state h = DStaged → hs_early_ack (dh_hs h) = Some p →
  pa_evidence p = PendReceipt →
  ∃ h', en_handles (foldl hook_run e reports) !! ref = Some h' ∧ handle_state h' = DStaged ∧
    hs_early_ack (dh_hs h') = Some p.
Proof.
  induction reports as [|r reports IH]; intros e h Hh Hs Hp Hev; [by exists h|]. cbn [foldl].
  pose proof (hook_run_touched e r ref) as Ht. rewrite Hh in Ht.
  destruct (en_handles (hook_run e r) !! ref) as [h'|] eqn:E; [|done].
  destruct Ht as [_ _ _ _ Hst Hearly]. apply (IH _ h'); [done| |by apply Hearly|done].
  destruct Hst as [[Hst _]|(_ & _ & _ & [?|[? _]])]; congruence.
Qed.

(** An acknowledgement that overtakes the worker is not lost: the first
    receipt that reaches a staged delivery from the process it was submitted to is
    the one the worker takes after its own move to submitted, whatever other
    reports, duplicate or foreign, arrive in between. *)
Theorem early_receipt_is_taken e ref h reporter manifest recorded now edge turn reports later :
  en_handles e !! ref = Some h → handle_state h = DStaged → hs_early_ack (dh_hs h) = None →
  submitted_binding_is (dh_submitted h) reporter manifest = true →
  ∃ h', en_handles (foldl hook_run e
          (MkHookReport reporter manifest recorded now (HkResolve ref edge turn) :: reports)) !! ref = Some h' ∧
    let r := advance h' [DStaged] (step_to DSubmitted) later in
    r.1.2 = true ∧ handle_state r.1.1 = DSubmitted ∧
    (take_accepted_early_ack r.1.1).2 = Some (MkPendingAck edge turn PendReceipt).
Proof.
  intros Hh Hs He Hb. cbn [foldl].
  destruct (staged_receipt_kept (MkPendingAck edge turn PendReceipt) ref reports
    (hook_run e (MkHookReport reporter manifest recorded now (HkResolve ref edge turn)))
    (set_early h (Some (MkPendingAck edge turn PendReceipt)))) as (h' & Hh' & Hs' & Hp'); [|done|done|done|].
  - cbn [hook_run]. unfold resolve_hook_ack. rewrite Hh, Hb, Hs, He. cbn. by rewrite lookup_insert_eq.
  - exists h'. split; [done|]. unfold advance. unfold handle_state in Hs'. rewrite Hs'. cbn.
    unfold take_accepted_early_ack. cbn. by rewrite Hp'.
Qed.

(** The registry names each waiting handle once and stays bounded. *)
Lemma register_ack_bounded e ref pane :
  NoDup (ack_candidates e pane) → (length (ack_candidates e pane) ≤ ACK_REGISTRY_CAP)%nat →
  let l := ack_candidates (register_ack e ref pane) pane in
  NoDup l ∧ (length l ≤ ACK_REGISTRY_CAP)%nat ∧ ref ∈ l ∧
  ∀ x, x ∈ l → x = ref ∨ (x ∈ ack_candidates e pane ∧ awaits_hook e x = true).
Proof.
  unfold ack_candidates, register_ack. cbn [en_acks]. rewrite lookup_insert_eq. cbn [from_option id].
  set (entry := default [] (en_acks e !! pane)). intros Hnd Hlen.
  set (kept := List.filter _ entry).
  assert (NoDup kept ∧ (length kept ≤ length entry)%nat ∧
    ∀ x, x ∈ kept → x ≠ ref ∧ x ∈ entry ∧ awaits_hook e x = true) as (Hk & Hkl & Hke).
  { subst kept. split_and!.
    - apply NoDup_ListNoDup, List.NoDup_filter, NoDup_ListNoDup, Hnd.
    - apply List.filter_length_le.
    - intros x Hx%list_elem_of_In. apply List.filter_In in Hx as [Hx Hc].
      apply andb_true_iff in Hc as [Hc1%negb_true_iff%N.eqb_neq Hc2].
      split_and!; [done|by apply list_elem_of_In|done]. }
  set (kept' := if (ACK_REGISTRY_CAP <=? length kept)%nat then drop 1 kept else kept).
  assert (NoDup kept' ∧ (S (length kept') ≤ ACK_REGISTRY_CAP)%nat ∧ ∀ x, x ∈ kept' → x ∈ kept) as (H1 & H2 & H3).
  { subst kept'. destruct (Nat.leb_spec ACK_REGISTRY_CAP (length kept)).
    - destruct kept as [|y kept]; cbn in *; [unfold ACK_REGISTRY_CAP in *; lia|]. rewrite drop_0.
      apply NoDup_cons in Hk as [_ Hk]. split_and!; [done|lia|by intros; right].
    - split_and!; [done|lia|done]. }
  split_and!.
  - apply NoDup_app. split_and!; [done| |apply NoDup_singleton].
    intros x Hx%H3%Hke ->%list_elem_of_singleton. by destruct Hx.
  - rewrite length_app. cbn [length]. lia.
  - apply elem_of_app. right. apply list_elem_of_here.
  - intros x [Hx%H3%Hke|Hx]%elem_of_app; [right; by destruct Hx as (_ & ? & ?)|left].
    by apply list_elem_of_singleton in Hx.
Qed.
