(* ===== verification/Reports.v ===== *)
(** * Hook reports

    [src/cyclopsd/src/ack.rs]: what the daemon does with one [agent.state.report]:
    the refusals, the windows that recognize duplicates, the candidates, ends and
    readings the report stores, the admission edge, and the deliveries its prompt
    acknowledges.  With it [prepare_dispatch_ack] of
    [src/cyclopsd/src/delivery/gate.rs].

    The stores a report touches are the fields of [World].  Its origin and route
    were read by the server and are arguments, and so is the time of the edge.
    Between the main sections of the handler other actors run; [others k] is what
    they do there, the observation that the report itself asks for included.
    Scheduled rechecks and route evidence are left out. *)
From S2P Require Import Prelude Text Identity Ledger Notification AttentionRegister Detection Manifests.
From S2P Require Import NotificationAdapter DeliveryGate Receipt TurnKeys Composer Fusion HookLifecycle HookLiveness.
From S2P Require Import DeliveryPayload DeliveryAttempt HookAck.
Local Open Scope N_scope.

(** ** Duplicates *)
Definition SEEN_CAP : nat := 256.
Definition RESET_SEQ_CEILING : N := 8.
Definition RESET_REPLAY_STREAK : N := 3.
Record AgentSeen := MkAgentSeen {
  as_seqs : gset N;
  as_seq_order : list N;
  as_max_seq : N;
  as_low_replays : N;
  as_keys : gset rstr;
  as_key_order : list rstr;
}.
Definition seen_nothing : AgentSeen := MkAgentSeen ∅ [] 0 0 ∅ [].
(** The order with the newest element, and the set without what rolled off. *)
Definition roll {A} `{Countable A} (seen : gset A) (order : list A) (x : A) : gset A * list A :=
  let order := order ++ [x] in
  let seen := {[x]} ∪ seen in
  if (SEEN_CAP <? length order)%nat then
    match order with old :: order => (seen ∖ {[old]}, order) | [] => (seen, []) end
  else (seen, order).
Definition note_seq (a : AgentSeen) (seqs : gset N) (order : list N) (max_seq seq : N) : AgentSeen :=
  let '(seqs, order) := roll seqs order seq in
  MkAgentSeen seqs order (N.max max_seq seq) 0 (as_keys a) (as_key_order a).
(** The window of one agent, and whether the number was seen in it. *)
Definition seen_seq (a : AgentSeen) (seq : N) : AgentSeen * bool :=
  if bool_decide (seq ∈ as_seqs a) then
    let low := if seq <? as_max_seq a then as_low_replays a + 1 else as_low_replays a in
    if (seq <? as_max_seq a) && ((seq <=? RESET_SEQ_CEILING) || (RESET_REPLAY_STREAK <=? low))
    then (note_seq a ∅ [] 0 seq, false)
    else (MkAgentSeen (as_seqs a) (as_seq_order a) (as_max_seq a) low (as_keys a) (as_key_order a), true)
  else (note_seq a (as_seqs a) (as_seq_order a) (as_max_seq a) seq, false).
Definition seen_key (a : AgentSeen) (key : rstr) : AgentSeen * bool :=
  if bool_decide (key ∈ as_keys a) then (a, true)
  else
    let '(keys, order) := roll (as_keys a) (as_key_order a) key in
    (MkAgentSeen (as_seqs a) (as_seq_order a) (as_max_seq a) (as_low_replays a) keys order, false).
Abbreviation AckState := (gmap rstr AgentSeen).
(** [entry(agent).or_default()]. *)
Definition at_agent {A} (f : AgentSeen → AgentSeen * A) (s : AckState) (ns : rstr) : AckState * A :=
  let '(a, out) := f (default seen_nothing (s !! ns)) in (<[ns := a]> s, out).

(** ** State *)
Record World := MkWorld {
  wo_readings : Readings;
  wo_store : LifecycleStore;
  wo_panes : Panes;
  wo_live : Liveness;
  wo_seen : AckState;
  wo_engine : Engine;
}.
Definition set_readings (w : World) (x : Readings) : World := MkWorld x (wo_store w) (wo_panes w) (wo_live w) (wo_seen w) (wo_engine w).
Definition set_store (w : World) (x : LifecycleStore) : World := MkWorld (wo_readings w) x (wo_panes w) (wo_live w) (wo_seen w) (wo_engine w).
Definition set_panes (w : World) (x : Panes) : World := MkWorld (wo_readings w) (wo_store w) x (wo_live w) (wo_seen w) (wo_engine w).
Definition set_live (w : World) (x : Liveness) : World := MkWorld (wo_readings w) (wo_store w) (wo_panes w) x (wo_seen w) (wo_engine w).
Definition set_seen (w : World) (x : AckState) : World := MkWorld (wo_readings w) (wo_store w) (wo_panes w) (wo_live w) x (wo_engine w).
Definition set_engine (w : World) (x : Engine) : World := MkWorld (wo_readings w) (wo_store w) (wo_panes w) (wo_live w) (wo_seen w) x.
Definition ends_of (w : World) : Ends := pn_ends (wo_panes w).
Definition set_ends (w : World) (x : Ends) : World := set_panes w (MkPanes (pn_detections (wo_panes w)) x).

(** ** The report *)
Record ReportOrigin := MkOrigin {
  or_recipient_key : RecipientKey;
  or_pane : PaneKey;
  or_agent : ProcId;
  or_manifest : option rstr;
}.
(** [rp_texts] are the payload's fields as text: a string itself, any other value
    as its JSON. *)
Record StateReport := MkStateReport {
  rp_event : rstr;
  rp_seq : option N;
  rp_payload : list (rstr * Json);
  rp_texts : list (rstr * rstr);
}.
(** What the server finds of the route: whether it is still that row, whether a
    watcher is attached, and the manifest and process admitted there. *)
Record RouteRead := MkRouteRead {
  rr_present : bool;
  rr_watched : bool;
  rr_admitted : option (rstr * ProcId);
}.
Inductive Answer :=
| NotApplied (reason : rstr) (retryable : bool)
| DuplicateReport
| Applied (matched : bool) (state : option AgentState) (live : bool).
Definition text_of (texts : list (rstr * rstr)) (name : rstr) : option rstr :=
  snd <$> List.find (λ f, bool_decide (f.1 = name)) texts.
Definition dedupe_ids (texts : list (rstr * rstr)) : option (rstr * rstr) :=
  session ← first_some (text_of texts) [str "session_id"; str "sessionId"; str "conversationId"];
  turn ← first_some (text_of texts) [str "turn_id"; str "turnId"; str "invocationNum"; str "turn"];
  Some (session, turn).
(** [i32]'s [Display]. *)
Definition int_string (z : Z) : rstr :=
  (if (z <? 0)%Z then [45] else []) ++ dec_string (Z.abs_N z).
Definition dedupe_ns `{Uuids} (o : ReportOrigin) : rstr :=
  recipient_display (or_recipient_key o) ++ 35 :: int_string (pid (or_agent o)) ++ 46 :: dec_string (birth (or_agent o)) ++
  64 :: default (str "-") (or_manifest o).
(** [event] is normalized. *)
Definition admitting_edge_qualifies (m : Manifest) (event : rstr) (active_start_installed : bool) : bool :=
  let available := existsb (λ name, bool_decide (normalize_event name = event)) (hk_available (mf_hooks m)) in
  if bool_decide (event = normalize_event (str "SessionStart")) then available
  else if bool_decide (event = normalize_event (str "UserPromptSubmit")) then
    available && match lifecycle_event (mf_hooks m) event with Some (RoleStart, _) => true | _ => false end &&
    active_start_installed
  else false.
(** The edge of a provisional start; [None] is the panic of its missing deadline. *)
Definition provisional_edge_for (e : HookEntry) (agent : ProcId) (manifest : option rstr) : option (option N) :=
  if provisional_start_for e agent manifest
  then _ ← he_provisional_ready_at_ms e; Some (Some (sr_ts (he_reading e)))
  else Some None.

(** ** Deliveries *)
(** What a receipt asks of the composer, done. *)
Definition apply_effect (w : World) (pane : PaneKey) (effect : option HoldEffect) : World :=
  match effect with
  | Some (EffectBindTurn owner turn since_ms) => set_panes w (bind_turn (wo_panes w) pane owner turn since_ms).1
  | Some (EffectTurnStarted owner since_ms) => set_panes w (latch_turn_started (wo_panes w) pane owner since_ms).1
  | None => w
  end.
Record DispatchPreparation := MkPreparation { dp_prepared : bool; dp_end_already_present : bool }.
Definition prepare_one (agent : ProcId) (manifest : rstr) (pane : PaneKey) (turn : TurnKey)
    (acc : World * DispatchPreparation) (ref : N) : World * DispatchPreparation :=
  let '(w, result) := acc in
  match en_handles (wo_engine w) !! ref with
  | None => acc
  | Some h =>
      if negb (submitted_binding_is (dh_submitted h) agent manifest) || negb (keyed_pending h turn) then acc
      else match hs_barrier (dh_hs h), hs_early_ack (dh_hs h) with
      | Some owner, Some pending =>
          match bind_turn (wo_panes w) pane owner turn (pa_edge_ms pending) with
          | (panes, Some present) => (set_panes w panes, MkPreparation true (dp_end_already_present result || present))
          | (panes, None) => (set_panes w panes, result)
          end
      | _, _ => acc
      end
  end.
Definition prepare_dispatch_ack (w : World) (pane : PaneKey) (agent : ProcId) (manifest : rstr) (turn : TurnKey)
    : World * DispatchPreparation :=
  foldl (prepare_one agent manifest pane turn) (w, MkPreparation false false) (ack_candidates (wo_engine w) pane).

Section handle.
Context `{Uuids} (others : nat → World → World) (manifests : ManifestTable).
Context (o : ReportOrigin) (r : StateReport) (edge_ms now : N) (recorded : N → option bool).
Abbreviation pane := (or_pane o).
Abbreviation agent := (or_agent o).

(** [recorded] answers the durable receipt of a handle, [now] is [unix_ms()]. *)
Definition confirm_in (manifest : rstr) (turn : TurnKey) (accepted_ms : N) (w : World) (ref : N) : World :=
  match en_handles (wo_engine w) !! ref with
  | Some h =>
      if submitted_binding_is (dh_submitted h) agent manifest && keyed_pending h turn then
        let '(e, _, effect) := settle_accepted (put (wo_engine w) ref (accept_pending h accepted_ms)) ref accepted_ms
                                 (Some turn) (recorded ref) now in
        apply_effect (set_engine w e) (handle_pane h) effect
      else w
  | None => w
  end.
Definition confirm_dispatch (w : World) (manifest : rstr) (turn : TurnKey) : World :=
  foldl (confirm_in manifest turn edge_ms) w (ack_candidates (wo_engine w) pane).

(** ** What the report says *)
Definition manifest_of : option Manifest := id ← or_manifest o; manifests !! id.
Definition report_event : rstr := normalize_event (rp_event r).
Definition lifecycle : option (LifecycleRole * LifecycleCertainty) :=
  m ← manifest_of; lifecycle_event (mf_hooks m) report_event.
Definition is_ack : bool :=
  match manifest_of with
  | Some m => match hk_ack (mf_hooks m) with
              | Some name => bool_decide (normalize_event name = report_event)
              | None => false
              end
  | None => false
  end.
Definition correlation : option TurnCorrelation :=
  if bool_decide (is_Some lifecycle) || is_ack
  then (λ m, correlate (hk_turn_key_fields (mf_hooks m)) (rp_payload r)) <$> manifest_of else None.
Definition exact_turn : option TurnKey := match correlation with Some (CorrExact turn) => Some turn | _ => None end.
Definition is_turn_start : bool := match lifecycle with Some (RoleStart, _) => true | _ => false end.
Definition is_turn_end : bool := match lifecycle with Some (RoleEnd, _) => true | _ => false end.
Definition lifecycle_confirmed : bool := match lifecycle with Some (_, CertConfirmed) => true | _ => false end.
Definition confirmed_start : bool := is_turn_start && lifecycle_confirmed.
Definition confirmed_end : bool := is_turn_end && lifecycle_confirmed.
Definition keyed_confirmed_end : bool := confirmed_end && bool_decide (is_Some exact_turn).
Definition acks_by (evidence : AckEvidence) : bool :=
  match manifest_of with Some m => bool_decide (hk_ack_evidence (mf_hooks m) = evidence) | None => false end.
Definition unkeyed_dispatch_start : bool :=
  bool_decide (lifecycle = Some (RoleStart, CertCandidate)) && bool_decide (exact_turn = None) && is_ack && acks_by AckDispatch.
Definition dupe_key : option rstr :=
  match lifecycle with
  | Some (_, CertCandidate) => None
  | _ =>
      match correlation with
      | Some (CorrExact turn) => Some (dedupe_key turn report_event)
      | _ => (λ '(s, t), s ++ 124 :: t ++ 124 :: report_event) <$> dedupe_ids (rp_texts r)
      end
  end.
Definition mapped_state : option AgentState :=
  match lifecycle with
  | Some (RoleStart, CertConfirmed) => Some SWorking
  | Some (RoleEnd, CertConfirmed) => Some SIdle
  | other =>
      if unkeyed_dispatch_start then Some SWorking
      else if bool_decide (other = None) && is_ack && acks_by AckReceipt then Some SWorking else None
  end.

(** ** Sections *)
Definition dedupe (w : World) : World * bool :=
  let ns := dedupe_ns o in
  let '(w, again) :=
    match rp_seq r with
    | Some seq => let '(s, again) := at_agent (λ a, seen_seq a seq) (wo_seen w) ns in (set_seen w s, again)
    | None => (w, false)
    end in
  if again then (w, true)
  else match dupe_key with
  | Some key => let '(s, again) := at_agent (λ a, seen_key a key) (wo_seen w) ns in (set_seen w s, again)
  | None => (w, false)
  end.
Definition file_candidate (w : World) : World :=
  match lifecycle, exact_turn, or_manifest o with
  | Some (role, CertCandidate), Some turn, Some id =>
      let settle_ms := match manifest_of with Some m => hk_turn_end_settle_ms (mf_hooks m) | None => 0 end in
      set_store w
        match role with
        | RoleStart => record_start (wo_store w) pane agent id turn (rp_event r) edge_ms
        | RoleEnd => (record_end (wo_store w) pane agent id turn (rp_event r) edge_ms settle_ms).1
        end
  | _, _, _ => w
  end.
Definition take_confirmed_start (w : World) : World * option Candidate :=
  match exact_turn, or_manifest o with
  | Some turn, Some id =>
      if confirmed_end
      then let '(s, start) := take_start_for_turn (wo_store w) pane agent id turn in (set_store w s, start)
      else (w, None)
  | _, _ => (w, None)
  end.
Definition file_end (w : World) : World :=
  match exact_turn, or_manifest o with
  | Some turn, Some id =>
      if confirmed_end then
        let w := set_ends w (record (ends_of w) pane agent id turn) in
        set_store w (clear_visual_end (clear_end (wo_store w) pane turn) pane agent id turn)
      else w
  | _, _ => w
  end.
(** A start whose end is already stored is not a turn that runs. *)
Definition state_to_store (w : World) : option AgentState :=
  match mapped_state, exact_turn with
  | Some SWorking, Some turn =>
      if match or_manifest o with Some id => holds_end (ends_of w) pane agent id turn | None => false end
      then None else Some SWorking
  | state, _ => state
  end.
Definition report_entry (state : AgentState) : HookEntry :=
  let reading := MkReading SensorHook state (rp_event r) edge_ms in
  let manifest := or_manifest o in
  if unkeyed_dispatch_start then provisional_start agent manifest reading
  else match confirmed_start, confirmed_end, exact_turn with
  | true, _, Some turn => turn_started agent manifest reading turn
  | true, _, None => unkeyed_turn_started agent manifest reading
  | false, true, Some turn => turn_ended agent manifest reading turn
  | false, true, None => unkeyed_turn_ended agent manifest reading
  | false, false, _ => hook_bound agent manifest reading
  end.
Definition matches_end (current : HookEntry) : bool :=
  match correlation with
  | Some (CorrExact turn) =>
      active_start_matches current agent (or_manifest o) (Some turn) || unkeyed_latch_ended_by current agent (or_manifest o) edge_ms
  | Some CorrUnconfigured => confirmed_unkeyed_start_for current agent (or_manifest o)
  | _ => false
  end.
Definition should_insert (current : option HookEntry) (start_confirmed_by_end : bool) : bool :=
  let active := match current with Some e => active_start_for e agent (or_manifest o) | None => false end in
  let matching := match current with Some e => matches_end e | None => false end in
  if keyed_confirmed_end then matching || (start_confirmed_by_end && negb (active && negb matching))
  else confirmed_start || unkeyed_dispatch_start || negb active || (confirmed_end && matching).
(** The state applied, and the edge of the provisional start that was replaced. *)
Definition store_reading (w : World) (state : option AgentState) (start_confirmed_by_end : bool)
    : option (World * option AgentState * option N) :=
  match state with
  | None => Some (w, None, None)
  | Some state =>
      let current := wo_readings w !! pane in
      if should_insert current start_confirmed_by_end then
        replaced ← match current with
                   | Some e => provisional_edge_for e agent (or_manifest o)
                   | None => Some None
                   end;
        Some (set_readings w (<[pane := report_entry state]> (wo_readings w)), Some state, replaced)
      else Some (w, None, None)
  end.
Definition reject_replaced (w : World) (replaced : option N) : World :=
  match replaced, or_manifest o with
  | Some edge, Some id =>
      set_engine w (reject_unkeyed_dispatch_ack (wo_engine w) pane agent id edge (str "hook_dispatch_superseded")).1
  | _, _ => w
  end.
(** [None] is the refusal of a lifetime that is over. *)
Definition publish (w : World) (bound : option HookBinding) : option World :=
  match manifest_of, or_manifest o, bound with
  | Some m, Some id, Some b =>
      let installed := match wo_readings w !! pane with Some e => active_start_for e agent (Some id) | None => false end in
      if admitting_edge_qualifies m report_event installed
      then set_live w <$> publish_admission (wo_live w) b (rp_event r) else Some w
  | _, _, _ => Some w
  end.
Definition prepare_end (w : World) : World :=
  match exact_turn, or_manifest o with
  | Some turn, Some id => if confirmed_end then (prepare_dispatch_ack w pane agent id turn).1 else w
  | _, _ => w
  end.
(** One delivery whose payload is the prompt. *)
Definition match_one (m : Manifest) (unique : bool) (acc : World * bool * option TurnKey) (ref : N)
    : World * bool * option TurnKey :=
  let '(w, matched, ended) := acc in
  let id := ag_id (mf_agent m) in
  match en_handles (wo_engine w) !! ref with
  | None => acc
  | Some h =>
      if negb unique then
        (set_engine w (put (wo_engine w) ref (mark_dispatch_match_ambiguous h agent id (str "hook_dispatch_ambiguous")).1),
         matched, ended)
      else match hk_ack_evidence (mf_hooks m) with
      | AckReceipt =>
          let '(e, moved, effect) :=
            resolve_hook_ack (wo_engine w) ref agent id edge_ms exact_turn (recorded ref) now in
          (apply_effect (set_engine w e) (handle_pane h) effect, matched || moved, ended)
      | AckDispatch =>
          let '(h, filed) := record_dispatch_candidate h agent id edge_ms exact_turn in
          let w := set_engine w (put (wo_engine w) ref h) in
          match filed, exact_turn with
          | true, Some turn =>
              let '(w, preparation) := prepare_dispatch_ack w pane agent id turn in
              if dp_end_already_present preparation
              then (set_store w (take_start_for_turn (wo_store w) pane agent id turn).1, true, Some turn)
              else (w, true, ended)
          | _, _ => (w, matched || filed, ended)
          end
      end
  end.
Definition match_prompt (w : World) : World * bool * option TurnKey :=
  match manifest_of with
  | Some m =>
      match (if is_ack then hk_ack_payload_field (mf_hooks m) else None) ≫= json_get (rp_payload r) with
      | Some (JString text) =>
          let matching := List.filter (λ ref, match en_handles (wo_engine w) !! ref with
                                              | Some h => claims_prompt (dh_payload h) text
                                              | None => false
                                              end) (ack_candidates (wo_engine w) pane) in
          let unique := negb unkeyed_dispatch_start || bool_decide (hk_ack_evidence (mf_hooks m) ≠ AckDispatch) ||
                        bool_decide (length matching = 1%nat) in
          foldl (match_one m unique) (w, false, None) matching
      | _ => (w, false, None)
      end
  | None => (w, false, None)
  end.
Definition confirm_end (w : World) (turn : option TurnKey) : World :=
  match turn, or_manifest o with Some turn, Some id => confirm_dispatch w id turn | _, _ => w end.

(** ** The handler *)
(** [None] is a panic. *)
Definition apply_report (w : World) (bound : option HookBinding) (watched : bool) : option (World * Answer) :=
  let w := file_candidate (others 1 w) in
  let '(w, start) := take_confirmed_start w in
  let w := file_end (others 2 w) in
  let state := state_to_store w in
  '(w, applied, replaced) ← store_reading (others 3 w) state (bool_decide (is_Some start));
  let w := reject_replaced w replaced in
  match publish (others 4 w) bound with
  | None => Some (others 4 w, NotApplied (str "occupant_changed") false)
  | Some w =>
      let w := prepare_end w in
      let '(w, matched, ended) := match_prompt (others 5 w) in
      let w := if watched then others 6 w else w in
      let w := confirm_end w (if confirmed_end then exact_turn else None) in
      let w := confirm_end w ended in
      Some (w, Applied matched applied watched)
  end.
Definition handle_report (w : World) (route : RouteRead) : option (World * Answer) :=
  if negb (rr_present route) then Some (w, NotApplied (str "occupant_changed") false)
  else if bool_decide (pid agent = 0%Z) then Some (w, NotApplied (str "unattributable_origin") false)
  else if bool_decide (snd <$> rr_admitted route ≠ Some agent) then Some (w, NotApplied (str "occupant_changed") false)
  else if bool_decide (fst <$> rr_admitted route ≠ or_manifest o) then Some (w, NotApplied (str "manifest_changed") false)
  else
    match (match or_manifest o with
           | Some id => match bind_diagnostic (wo_live w) pane (rp_event r) edge_ms agent id with
                        | Some (live, b) => Some (set_live w live, Some b)
                        | None => None
                        end
           | None => Some (w, None)
           end) with
    | None => Some (w, NotApplied (str "hook_route_not_ready") true)
    | Some (w, bound) =>
        match correlation with
        | Some (CorrInvalid _) => Some (w, NotApplied (str "unnameable_turn") false)
        | _ =>
            let '(w, again) := dedupe (others 0 w) in
            if again then Some (w, DuplicateReport) else apply_report w bound (rr_watched route)
        end
    end.
End handle.
