(* ===== verification/ReportProps.v ===== *)
(** * Hook reports: theorems

    The windows that recognize duplicates are apart for different processes and
    rules, bounded, and refuse an exact repost; refused reports leave nothing
    behind; handling never panics; a running turn is ended only by its own end; a
    start whose end is known is not a turn; what admits a pane follows the start it
    carries. *)
From S2P Require Import Prelude Text Identity Ledger Notification AttentionRegister Detection Manifests.
From S2P Require Import NotificationAdapter DeliveryGate Receipt TurnKeys Composer Fusion FusionProps HookLifecycle.
From S2P Require Import HookLiveness DeliveryPayload DeliveryAttempt HookAck Reports.
Local Open Scope N_scope.

(** ** Duplicates *)
Record window_ok {A} `{Countable A} (seen : gset A) (order : list A) : Prop := {
  wk_set : ∀ x, x ∈ seen ↔ x ∈ order;
  wk_nodup : NoDup order;
  wk_bound : (length order ≤ SEEN_CAP)%nat;
}.
Lemma window_ok_empty {A} `{Countable A} : window_ok (A:=A) ∅ [].
Proof. split; [set_solver|constructor|cbn; lia]. Qed.
Lemma roll_ok {A} `{Countable A} (seen : gset A) order x seen' order' :
  window_ok seen order → x ∉ seen → roll seen order x = (seen', order') →
  window_ok seen' order' ∧ x ∈ seen' ∧ (∀ y, y ∈ seen' → y = x ∨ y ∈ seen).
Proof.
  intros [H1 H2 H3] Hx. unfold roll.
  assert (NoDup (order ++ [x])) as Hnd.
  { apply NoDup_app. split_and!; [done| |apply NoDup_singleton]. intros y Hy ->%list_elem_of_singleton. by apply Hx, H1. }
  case_match eqn:El.
  - apply Nat.ltb_lt in El. rewrite length_app in El. cbn in El. destruct order as [|old order]; [cbn in El; unfold SEEN_CAP in El; lia|].
    cbn [app]. cbn [app] in Hnd. apply NoDup_cons in Hnd as [Hold Hnd]. intros [= <- <-].
    split_and!; [split| |].
    + intros y. split.
      * intros (Hy & Hne)%elem_of_difference. apply elem_of_union in Hy as [->%elem_of_singleton|Hy]; [set_solver|].
        apply H1, elem_of_cons in Hy as [->|Hy]; set_solver.
      * intros Hy. apply elem_of_difference. split; [|intros ->%elem_of_singleton; done].
        apply elem_of_app in Hy as [Hy| ->%list_elem_of_singleton]; [|set_solver].
        apply elem_of_union_r, H1. by apply list_elem_of_further.
    + done.
    + rewrite length_app. cbn in H3 |- *. lia.
    + apply elem_of_difference. split; [set_solver|]. intros ->%elem_of_singleton. apply Hold. set_solver.
    + set_solver.
  - apply Nat.ltb_ge in El. intros E; injection E as <- <-. split_and!; [split; [|done|done]|set_solver|set_solver].
    intros y. rewrite elem_of_union, elem_of_app, elem_of_singleton, list_elem_of_singleton, H1. tauto.
Qed.
Record seen_ok (a : AgentSeen) : Prop := {
  sk_seqs : window_ok (as_seqs a) (as_seq_order a);
  sk_keys : window_ok (as_keys a) (as_key_order a);
  sk_low : as_low_replays a < RESET_REPLAY_STREAK;
}.
Lemma note_seq_ok a seqs order max_seq seq :
  seen_ok a → window_ok seqs order → seq ∉ seqs →
  let a' := note_seq a seqs order max_seq seq in
  seen_ok a' ∧ seq ∈ as_seqs a' ∧ (∀ y, y ∈ as_seqs a' → y = seq ∨ y ∈ seqs) ∧ as_low_replays a' = 0 ∧ as_max_seq a' = N.max max_seq seq.
Proof.
  intros [H1 H2 H3] Hw Hn. unfold note_seq. destruct (roll seqs order seq) as [s' o'] eqn:E.
  destruct (roll_ok _ _ _ _ _ Hw Hn E) as (? & ? & ?). split_and!; [split|..]; done.
Qed.
Lemma seen_seq_ok a seq a' again :
  seen_ok a → seen_seq a seq = (a', again) →
  seen_ok a' ∧ seq ∈ as_seqs a' ∧ (again = true → seq ∈ as_seqs a) ∧
  (again = false → as_low_replays a' = 0 ∧ (as_max_seq a ≤ seq → as_max_seq a' = seq)).
Proof.
  intros Ha. unfold seen_seq. case_bool_decide as Hin.
  - destruct (_ && _) eqn:Er.
    + intros [= <- <-]. destruct (note_seq_ok a ∅ [] 0 seq Ha window_ok_empty ltac:(set_solver)) as (? & ? & ? & ? & Hm).
      split_and!; try done. intros _. split; [done|]. intros Hle. apply andb_true_iff in Er as [Er%N.ltb_lt _]. lia.
    + intros [= <- <-]. destruct Ha as [H1 H2 H3]. split_and!; [split|..]; try done. cbn.
      destruct (N.ltb_spec seq (as_max_seq a)) as [Hlt|]; [|done]. cbn [andb] in Er.
      apply orb_false_iff in Er as [_ Er%N.leb_gt]. done.
  - intros [= <- <-]. destruct (note_seq_ok a (as_seqs a) (as_seq_order a) (as_max_seq a) seq Ha (sk_seqs a Ha) Hin) as (? & ? & ? & ? & Hm).
    split_and!; try done. intros _. split; [done|]. rewrite Hm. lia.
Qed.
Lemma seen_key_ok a key a' again :
  seen_ok a → seen_key a key = (a', again) →
  seen_ok a' ∧ key ∈ as_keys a' ∧ (again = true ↔ key ∈ as_keys a) ∧ as_seqs a' = as_seqs a ∧ as_max_seq a' = as_max_seq a ∧
  as_low_replays a' = as_low_replays a.
Proof.
  intros [H1 H2 H3]. unfold seen_key. case_bool_decide as Hin; [intros [= <- <-]; by split_and!; [split|..]|].
  destruct (roll _ _ key) as [k o] eqn:E. intros [= <- <-]. destruct (roll_ok _ _ _ _ _ H2 Hin E) as (? & ? & ?).
  by split_and!; [split|..].
Qed.

(** ** Namespaces *)
Section names.
Context `{UuidLaws}.
Lemma split_unique (c : rchar) (a b a' b' : rstr) : c ∉ a → c ∉ a' → a ++ c :: b = a' ++ c :: b' → a = a' ∧ b = b'.
Proof.
  intros Ha Ha' E. pose proof (split_once_char c a b Ha) as E1. rewrite E, (split_once_char c a' b' Ha') in E1.
  by injection E1 as -> ->.
Qed.
Lemma digits_without c n : is_ascii_digit c = false → c ∉ dec_string n.
Proof. intros Hc Hin. pose proof (Forall_elem _ _ _ (dec_string_digits n) Hin) as Hd. cbn in Hd. congruence. Qed.
Lemma int_string_inj z z' : int_string z = int_string z' → z = z'.
Proof.
  unfold int_string. destruct (Z.ltb_spec z 0), (Z.ltb_spec z' 0); cbn [app]; intros E.
  - injection E as E%dec_string_inj. lia.
  - exfalso. apply (digits_without 45 (Z.abs_N z')); [done|]. rewrite <- E. apply list_elem_of_here.
  - exfalso. apply (digits_without 45 (Z.abs_N z)); [done|]. rewrite E. apply list_elem_of_here.
  - apply dec_string_inj in E. lia.
Qed.
Lemma display_no_hash k : 35 ∉ recipient_display k.
Proof.
  assert (∀ d, 35 ∉ durable_display d) as Hd.
  { intros d Hin. by pose proof (Forall_elem _ _ _ (uuid_hyphenated_chars (bval d)) Hin). }
  assert (∀ s : string, 35 ∉ str s → ∀ x, 35 ∉ x → 35 ∉ str s ++ x) as Ha by set_solver.
  unfold recipient_display. destruct (rk_recipient k) as [|s p|a].
  - apply Ha; [by vm_compute; set_solver|apply Hd].
  - apply Ha; [by vm_compute; set_solver|]. rewrite !elem_of_app. intros [?%Hd|[Hs|[?%Hd|[Hs|Hp]]]]; [done|by vm_compute in Hs; set_solver|done|by vm_compute in Hs; set_solver|].
    unfold pane_display in Hp. apply elem_of_cons in Hp as [?|Hp]; [done|]. by apply digits_without in Hp.
  - apply Ha; [by vm_compute; set_solver|]. rewrite !elem_of_app. intros [?%Hd|[Hs|?%Hd]]; [done|by vm_compute in Hs; set_solver|done].
Qed.
(** Two reporters share a window only if they are the same process in the
    same pane read by the same rules: the text under which a window is kept
    determines the mailbox, the process id and birth, and the manifest. *)
Theorem dedupe_windows_are_apart o o' :
  dedupe_ns o = dedupe_ns o' →
  or_recipient_key o = or_recipient_key o' ∧ or_agent o = or_agent o' ∧
  default (str "-") (or_manifest o) = default (str "-") (or_manifest o').
Proof.
  unfold dedupe_ns. intros E. apply split_unique in E as [Ek%(inj recipient_display) E]; [|apply display_no_hash..].
  assert (∀ z, 46 ∉ int_string z) as Hz.
  { intros z. unfold int_string. rewrite elem_of_app. intros [Hm|Hd]; [|by apply digits_without in Hd].
    destruct (z <? 0)%Z; set_solver. }
  apply split_unique in E as [Ep%int_string_inj E]; [|apply Hz..].
  apply split_unique in E as [Eb%dec_string_inj E]; [|by apply digits_without..].
  split; [done|]. split; [|done]. destruct (or_agent o), (or_agent o'). cbn in *. by subst.
Qed.
End names.

(** ** What the sections touch *)
Record delivers_only (w w' : World) : Prop := {
  dv_readings : wo_readings w' = wo_readings w;
  dv_live : wo_live w' = wo_live w;
  dv_seen : wo_seen w' = wo_seen w;
}.
#[export] Instance delivers_only_preorder : PreOrder delivers_only.
Proof. split; [by split|]. intros ??? [] []. split; congruence. Qed.
Lemma foldl_related {A B} (R : A → A → Prop) `{!PreOrder R} (f : A → B → A) l a :
  (∀ a b, R a (f a b)) → R a (foldl f a l).
Proof. intros Hf. revert a. induction l as [|b l IH]; intros a; cbn; [done|]. etrans; [apply Hf|apply IH]. Qed.
Lemma apply_effect_delivers w pane effect : delivers_only w (apply_effect w pane effect).
Proof. by destruct effect as [[]|]. Qed.
#[export] Instance fst_preorder {A B} (R : A → A → Prop) `{!PreOrder R} : PreOrder (λ x y : A * B, R x.1 y.1).
Proof. split; [intros x; reflexivity|]. intros x y z. by etrans. Qed.
Lemma prepare_delivers w pane agent manifest turn : delivers_only w (prepare_dispatch_ack w pane agent manifest turn).1.
Proof.
  unfold prepare_dispatch_ack. apply (foldl_related (λ x y : World * DispatchPreparation, delivers_only x.1 y.1) _ _ (w, MkPreparation false false)).
  intros [x res] ref. unfold prepare_one. repeat case_match; by subst.
Qed.

Section handler.
Context `{Uuids} (manifests : ManifestTable) (o : ReportOrigin) (r : StateReport).
Context (edge_ms now : N) (recorded : N → option bool).
Definition quiet : nat → World → World := λ _ w, w.
Abbreviation handle := (handle_report quiet manifests o r edge_ms now recorded).
Abbreviation pane := (or_pane o).
Abbreviation agent := (or_agent o).

Lemma confirm_delivers w turn : delivers_only w (confirm_end o edge_ms now recorded w turn).
Proof.
  unfold confirm_end, confirm_dispatch. destruct turn; [|done]. destruct (or_manifest o); [|done].
  apply (foldl_related delivers_only). intros x ref. unfold confirm_in. destruct (en_handles _ !! ref) as [h|]; [|done].
  destruct (_ && _); [|done]. destruct (settle_accepted _ _ _ _ _ _) as [[e b] eff].
  etrans; [|apply apply_effect_delivers]. done.
Qed.
Lemma match_delivers w : delivers_only w (match_prompt manifests o r edge_ms now recorded w).1.1.
Proof.
  unfold match_prompt. destruct (manifest_of manifests o) as [m|]; [|done]. destruct (_ ≫= _) as [[]|]; try done.
  assert (PreOrder (λ x y : World * bool * option TurnKey, delivers_only x.1.1 y.1.1)) as Hpre
    by (split; [intros x; reflexivity|intros x y z; by etrans]).
  apply (foldl_related (λ x y : World * bool * option TurnKey, delivers_only x.1.1 y.1.1) _ _ (w, false, None)).
  intros [[x b] t] ref. unfold match_one. destruct (en_handles _ !! ref) as [h|]; [|done]. destruct (negb _); [done|].
  destruct (hk_ack_evidence _).
  - destruct (resolve_hook_ack _ _ _ _ _ _ _ _) as [[e mv] eff]. cbn. etrans; [|apply apply_effect_delivers]. done.
  - destruct (record_dispatch_candidate _ _ _ _ _) as [h' filed]. destruct filed; [|done].
    destruct (exact_turn _ _ _) as [turn|]; [|done].
    destruct (prepare_dispatch_ack _ _ _ _ _) as [y prep] eqn:Ep.
    pose proof (prepare_delivers (set_engine x (put (wo_engine x) ref h')) pane agent (ag_id (mf_agent m)) turn) as Hd.
    rewrite Ep in Hd. cbn in Hd. destruct (dp_end_already_present prep); cbn; destruct Hd; by split.
Qed.
(** What the report stored before it looks at readings. *)
Definition filed (w : World) : World :=
  file_end manifests o r (take_confirmed_start manifests o r (file_candidate manifests o r edge_ms w)).1.
Lemma filed_delivers w : delivers_only w (filed w).
Proof.
  unfold filed, file_end, take_confirmed_start, file_candidate.
  repeat (case_match; try done); by subst.
Qed.
Lemma apply_report_spec w bound watched w' a :
  apply_report quiet manifests o r edge_ms now recorded w bound watched = Some (w', a) →
  ∃ start w1 applied replaced,
    store_reading manifests o r edge_ms (filed w) (state_to_store manifests o r (filed w)) start = Some (w1, applied, replaced) ∧
    let w2 := reject_replaced o w1 replaced in
    match publish manifests o r w2 bound with
    | None => w' = w2 ∧ a = NotApplied (str "occupant_changed") false
    | Some w3 => delivers_only w3 w' ∧ ∃ matched, a = Applied matched applied watched
    end.
Proof.
  unfold apply_report, quiet, filed.
  destruct (take_confirmed_start manifests o r (file_candidate manifests o r edge_ms w)) as [w0 start]. cbn [fst].
  destruct (store_reading _ _ _ _ _ _ _) as [[[w1 applied] replaced]|] eqn:E; [|done]. cbn [mbind option_bind].
  intros Ha. exists (bool_decide (is_Some start)), w1, applied, replaced. split; [done|]. cbv zeta.
  destruct (publish manifests o r (reject_replaced o w1 replaced) bound) as [w3|]; [|by injection Ha as <- <-].
  destruct (match_prompt manifests o r edge_ms now recorded _) as [[w4 matched] ended] eqn:Em. injection Ha as <- <-.
  split; [|by eexists]. etrans; [|apply confirm_delivers]. etrans; [|apply confirm_delivers].
  etrans; [|destruct watched; reflexivity].
  match type of Em with match_prompt _ _ _ _ _ _ ?x = _ => pose proof (match_delivers x) as Hd end. rewrite Em in Hd. cbn in Hd.
  etrans; [|exact Hd]. unfold prepare_end. repeat case_match; try done. apply prepare_delivers.
Qed.
Lemma store_reading_cases w state start w1 applied replaced :
  store_reading manifests o r edge_ms w state start = Some (w1, applied, replaced) →
  (w1 = w ∧ applied = None) ∨
  ∃ s, state = Some s ∧ applied = Some s ∧ should_insert manifests o r edge_ms (wo_readings w !! pane) start = true ∧
    w1 = set_readings w (<[pane := report_entry manifests o r edge_ms s]> (wo_readings w)).
Proof.
  unfold store_reading. destruct state as [s|]; [|intros [= <- <- <-]; by left].
  destruct (should_insert _ _ _ _ _ _) eqn:Es; [|intros [= <- <- <-]; by left].
  destruct (match wo_readings w !! pane with Some e => _ | None => _ end) as [x|]; [|done]. cbn [mbind option_bind].
  intros [= <- <- <-]. right. by exists s.
Qed.
Lemma dedupe_seen w w1 again : dedupe manifests o r w = (w1, again) → ∃ seen, w1 = set_seen w seen.
Proof.
  unfold dedupe. destruct (rp_seq r) as [seq|]; [destruct (at_agent _ _ _) as [s x]|]; [destruct x|].
  - intros [= <- <-]. by eexists.
  - destruct (dupe_key _ _ _) as [key|]; [destruct (at_agent _ _ _) as [s' x]|]; intros [= <- <-]; by eexists.
  - destruct (dupe_key _ _ _) as [key|]; [destruct (at_agent _ _ _) as [s' x]|]; intros [= <- <-]; [by eexists|].
    exists (wo_seen w). by destruct w.
Qed.
(** What happens once the report is admitted and its binding captured. *)
Definition admitted_report (w : World) (bound : option HookBinding) (watched : bool) : option (World * Answer) :=
  match correlation manifests o r with
  | Some (CorrInvalid _) => Some (w, NotApplied (str "unnameable_turn") false)
  | _ =>
      let '(w, again) := dedupe manifests o r w in
      if again then Some (w, DuplicateReport)
      else apply_report quiet manifests o r edge_ms now recorded w bound watched
  end.
Lemma admitted_report_cases w bound watched w' a :
  admitted_report w bound watched = Some (w', a) →
  (w' = w ∧ ∃ reason, a = NotApplied reason false) ∨
  ∃ seen, (w' = set_seen w seen ∧ a = DuplicateReport) ∨
    (apply_report quiet manifests o r edge_ms now recorded (set_seen w seen) bound watched = Some (w', a) ∧
     (∀ why, correlation manifests o r ≠ Some (CorrInvalid why))).
Proof.
  unfold admitted_report. destruct (dedupe manifests o r w) as [w1 again] eqn:Ed.
  apply dedupe_seen in Ed as [seen ->].
  destruct (correlation manifests o r) as [[|k|why]|]; [| |intros [= <- <-]; left; by eauto|];
    (intros Ha; right; exists seen; destruct again; [injection Ha as <- <-; by left|by right]).
Qed.
(** Refused at the door, or admitted with the binding it captured. *)
Lemma handle_report_cases w route w' a :
  handle w route = Some (w', a) →
  (w' = w ∧ ∃ reason retry, a = NotApplied reason retry) ∨
  ∃ live bound,
    (live = wo_live w ∧ bound = None ∧ or_manifest o = None ∨
     ∃ id b, or_manifest o = Some id ∧ bound = Some b ∧
       bind_diagnostic (wo_live w) pane (rp_event r) edge_ms agent id = Some (live, b)) ∧
    admitted_report (set_live w live) bound (rr_watched route) = Some (w', a).
Proof.
  unfold handle_report, admitted_report. do 4 (case_match; [intros [= <- <-]; left; by eauto|]).
  destruct (or_manifest o) as [id|] eqn:Em.
  - destruct (bind_diagnostic _ _ _ _ _ _) as [[live b]|] eqn:Eb; [|intros [= <- <-]; left; by eauto].
    intros Hh. right. exists live, (Some b). split; [right; by eauto|done].
  - intros Hh. right. exists (wo_live w), None. split; [by left|]. by destruct w.
Qed.

(** ** Refusals *)
Lemma bind_diagnostic_Some s p event ts a id s' b :
  bind_diagnostic s p event ts a id = Some (s', b) →
  lv_live s' = lv_live s ∧ lv_admitting s' = lv_admitting s ∧ is_live s' b = true ∧ binding s p a id = Some b.
Proof.
  unfold bind_diagnostic, binding. destruct (lv_live s !! p) as [l|] eqn:El; [|done]. cbn. intros [= <- <-].
  split_and!; try done. by apply is_live_true.
Qed.
Lemma reject_delivers w replaced : delivers_only w (reject_replaced o w replaced).
Proof. unfold reject_replaced. by repeat case_match. Qed.
Lemma stored_live w start w1 applied replaced :
  store_reading manifests o r edge_ms (filed w) (state_to_store manifests o r (filed w)) start = Some (w1, applied, replaced) →
  wo_live (reject_replaced o w1 replaced) = wo_live w ∧ wo_seen (reject_replaced o w1 replaced) = wo_seen w.
Proof.
  intros E. destruct (reject_delivers w1 replaced) as [_ -> ->]. destruct (filed_delivers w) as [_ H1 H2].
  apply store_reading_cases in E as [[-> _]|(s & _ & _ & _ & ->)]; cbn; by rewrite H1, H2.
Qed.
Lemma publish_live w id b :
  or_manifest o = Some id → is_live (wo_live w) b = true → ∃ w', publish manifests o r w (Some b) = Some w' ∧
    wo_readings w' = wo_readings w ∧ wo_seen w' = wo_seen w ∧ lv_live (wo_live w') = lv_live (wo_live w) ∧
    (wo_live w' = wo_live w ∨ ∃ m, manifest_of manifests o = Some m ∧
       admitting_edge_qualifies m (report_event r)
         match wo_readings w !! pane with Some e => active_start_for e agent (Some id) | None => false end = true).
Proof.
  intros Ho Hl. unfold publish. rewrite Ho. destruct (manifest_of manifests o) as [m|]; [|by eauto 10].
  destruct (admitting_edge_qualifies _ _ _) eqn:Eq; [|by eauto 10]. unfold publish_admission. rewrite Hl. cbn [negb].
  destruct (negb _); cbn; eexists; (split; [reflexivity|]); split_and!; try done; right; by exists m.
Qed.
(** An admitted report that is no duplicate is applied: nothing closes the route
    under it. *)
Lemma apply_report_quiet w bound watched w' a :
  (bound = None ∧ or_manifest o = None ∨ ∃ id b, or_manifest o = Some id ∧ bound = Some b ∧ is_live (wo_live w) b = true) →
  apply_report quiet manifests o r edge_ms now recorded w bound watched = Some (w', a) →
  ∃ start w1 applied replaced matched,
    store_reading manifests o r edge_ms (filed w) (state_to_store manifests o r (filed w)) start = Some (w1, applied, replaced) ∧
    a = Applied matched applied watched ∧ wo_readings w' = wo_readings w1 ∧ wo_seen w' = wo_seen w ∧
    lv_live (wo_live w') = lv_live (wo_live w) ∧
    (wo_live w' = wo_live w ∨ ∃ m id, manifest_of manifests o = Some m ∧ or_manifest o = Some id ∧
       admitting_edge_qualifies m (report_event r)
         match wo_readings w' !! pane with Some e => active_start_for e agent (Some id) | None => false end = true).
Proof.
  intros Hb (start & w1 & applied & replaced & E & Hp)%apply_report_spec. exists start, w1, applied, replaced. cbv zeta in Hp.
  destruct (stored_live _ _ _ _ _ E) as [Hlive Hseen]. pose proof (dv_readings _ _ (reject_delivers w1 replaced)) as Hread.
  destruct Hb as [[-> Ho]|(id & b & Ho & -> & Hl)].
  - assert (publish manifests o r (reject_replaced o w1 replaced) None = Some (reject_replaced o w1 replaced)) as Epub
      by (unfold publish; by repeat case_match).
    rewrite Epub in Hp. destruct Hp as [[Hd1 Hd2 Hd3] [matched ->]]. exists matched. split_and!; try done; try congruence. left. congruence.
  - rewrite <- Hlive in Hl. destruct (publish_live _ id b Ho Hl) as (w3 & Epub & H1 & H2 & H3 & H4). rewrite Epub in Hp.
    destruct Hp as [[Hd1 Hd2 Hd3] [matched ->]]. exists matched. split_and!; try done; try congruence.
    destruct H4 as [H4|(m & Hm & Hq)]; [left; congruence|right]. exists m, id. split_and!; [done|done|].
    by rewrite Hd1, H1.
Qed.

(** ** Turns *)
Lemma applied_cases w route w' a :
  handle w route = Some (w', a) →
  wo_readings w' = wo_readings w ∨
  ∃ w0 start s, wo_readings w0 = wo_readings w ∧ ends_of w0 = ends_of w ∧ state_to_store manifests o r (filed w0) = Some s ∧
    should_insert manifests o r edge_ms (wo_readings w !! pane) start = true ∧
    wo_readings w' = <[pane := report_entry manifests o r edge_ms s]> (wo_readings w).
Proof.
  intros [[-> _]|(live & bound & Hb & Ha)]%handle_report_cases; [by left|].
  apply admitted_report_cases in Ha as [[-> _]|(seen & [[-> _]|[Ha _]])]; [by left|by left|].
  apply apply_report_quiet in Ha as (start & w1 & applied & replaced & matched & E & _ & Hr & _).
  - pose proof (dv_readings _ _ (filed_delivers (set_seen (set_live w live) seen))) as Hf. cbn in Hf.
    apply store_reading_cases in E as [[-> _]|(s & Hs & _ & Hi & ->)]; [left; congruence|right].
    exists (set_seen (set_live w live) seen), start, s. rewrite <- Hf. by split_and!.
  - destruct Hb as [(_ & -> & ?)|(id & b & ? & -> & (_ & _ & ? & _)%bind_diagnostic_Some)]; [by left|]. right. by exists id, b.
Qed.
Lemma start_is_no_end : confirmed_start manifests o r = true → confirmed_end manifests o r = false.
Proof. unfold confirmed_start, confirmed_end, is_turn_start, is_turn_end. by repeat case_match. Qed.
Lemma confirmed_is_no_dispatch : lifecycle_confirmed manifests o r = true → unkeyed_dispatch_start manifests o r = false.
Proof.
  unfold lifecycle_confirmed, unkeyed_dispatch_start. destruct (lifecycle manifests o r) as [[[] []]|]; try done.
Qed.
(** A keyed start matches only its own end. *)
Lemma keyed_start_matches e t :
  he_active_turn e = Some t → matches_end manifests o r edge_ms e = true → exact_turn manifests o r = Some t.
Proof.
  intros Ht. unfold matches_end, exact_turn. destruct (correlation manifests o r) as [[|turn|why]|]; try done.
  - unfold confirmed_unkeyed_start_for. rewrite Ht. intros [_ ?]%andb_true_iff. done.
  - intros [Hm|Hm]%orb_true_iff.
    + apply andb_true_iff in Hm as [_ Hm%bool_decide_eq_true]. congruence.
    + unfold unkeyed_latch_ended_by, confirmed_unkeyed_start_for in Hm. rewrite Ht in Hm.
      apply andb_true_iff in Hm as [[_ ?]%andb_true_iff _]. done.
Qed.
(** A report ends only the turn it names.  While a turn that the vendor named
    runs in a pane, a report of the same process leaves it running, unless the
    report is itself a confirmed start or a dispatched prompt, or the confirmed end
    of that very turn, which is then what the pane remembers.  Receipts, attention
    events, candidate ends and the ends of other turns do not disturb it. *)
Theorem running_turn_survives_reports w route w' a e t :
  handle w route = Some (w', a) →
  wo_readings w !! pane = Some e → active_start_for e agent (or_manifest o) = true → he_active_turn e = Some t →
  wo_readings w' !! pane = Some e ∨
  confirmed_start manifests o r = true ∨ unkeyed_dispatch_start manifests o r = true ∨
  (confirmed_end manifests o r = true ∧ exact_turn manifests o r = Some t ∧
   wo_readings w' !! pane = Some (turn_ended agent (or_manifest o) (MkReading SensorHook SIdle (rp_event r) edge_ms) t)).
Proof.
  intros Hh He Ha Ht. apply applied_cases in Hh as [Hr|(w0 & start & s & _ & _ & Hs & Hi & Hr)]; rewrite Hr; [by left|].
  destruct (confirmed_start manifests o r) eqn:Es; [by right; left|].
  destruct (unkeyed_dispatch_start manifests o r) eqn:Eu; [by right; right; left|]. do 3 right.
  unfold should_insert in Hi. rewrite He, Ha, Es, Eu in Hi.
  assert (confirmed_end manifests o r = true ∧ matches_end manifests o r edge_ms e = true) as [Hc Hm].
  { unfold keyed_confirmed_end in Hi. destruct (confirmed_end manifests o r); cbn [andb orb negb] in Hi; [|done].
    destruct (matches_end manifests o r edge_ms e); [done|]. destruct (bool_decide _); [|done].
    cbn in Hi. by rewrite andb_false_r in Hi. }
  pose proof (keyed_start_matches e t Ht Hm) as Hx. split_and!; [done|done|].
  transitivity (Some (report_entry manifests o r edge_ms s)); [by apply lookup_insert_eq|]. f_equal.
  unfold report_entry. rewrite Eu, Es, Hc, Hx. f_equal. f_equal.
  unfold state_to_store, mapped_state in Hs. unfold confirmed_end, is_turn_end, lifecycle_confirmed in Hc.
  destruct (lifecycle manifests o r) as [[[] []]|]; try done. cbn in Hs. congruence.
Qed.
(** A start that comes after its own end is not a turn.  When the end of the
    named turn is already stored for this process and rules, a confirmed start of
    it changes no reading, so the pane is not left working with nothing to end it. *)
Theorem late_start_is_not_a_turn w route w' a id t :
  handle w route = Some (w', a) →
  confirmed_start manifests o r = true → exact_turn manifests o r = Some t → or_manifest o = Some id →
  holds_end (ends_of w) pane agent id t = true → wo_readings w' = wo_readings w.
Proof.
  intros Hh Hs Hx Ho He. apply applied_cases in Hh as [Hr|(w0 & start & s & _ & Hends & Hst & _)]; [done|]. exfalso.
  pose proof (start_is_no_end Hs) as Hc. unfold state_to_store in Hst.
  assert (ends_of (filed w0) = ends_of w) as Hf.
  { rewrite <- Hends. unfold filed, file_end, take_confirmed_start, file_candidate. rewrite Hx, Ho, Hc.
    by repeat case_match. }
  rewrite Hf, Hx, Ho, He in Hst. unfold mapped_state in Hst. unfold confirmed_start, is_turn_start, lifecycle_confirmed in Hs.
  destruct (lifecycle manifests o r) as [[[] []]|]; done.
Qed.
(** What admits a pane carries its start.  If after a report the pane counts
    as admitted and before it did not, the manifest declares the event, and it is a
    session start, or a submitted prompt which the manifest makes a turn start and
    whose active start is in place for this process. *)
Theorem admission_follows_its_start w route w' a id :
  handle w route = Some (w', a) → or_manifest o = Some id →
  seen_admitting_edge (wo_live w) pane agent id = false → seen_admitting_edge (wo_live w') pane agent id = true →
  ∃ m, manifest_of manifests o = Some m ∧ (∃ name, name ∈ hk_available (mf_hooks m) ∧ normalize_event name = report_event r) ∧
    (report_event r = normalize_event (str "SessionStart") ∨
     report_event r = normalize_event (str "UserPromptSubmit") ∧ is_turn_start manifests o r = true ∧
     ∃ e, wo_readings w' !! pane = Some e ∧ active_start_for e agent (Some id) = true).
Proof.
  intros Hh Ho Hb Ha. apply handle_report_cases in Hh as [[-> _]|(live & bound & Hbound & Hh)]; [congruence|].
  assert (lv_live live = lv_live (wo_live w) ∧ lv_admitting live = lv_admitting (wo_live w)) as [H1 H2].
  { destruct Hbound as [(-> & _)|(id' & b & _ & _ & (? & ? & _)%bind_diagnostic_Some)]; done. }
  assert (seen_admitting_edge live pane agent id = false) as Hb'.
  { revert Hb. unfold seen_admitting_edge, binding. by rewrite H1, H2. }
  apply admitted_report_cases in Hh as [[-> _]|(seen & [[-> _]|[Hh _]])]; [cbn in Ha; congruence|cbn in Ha; congruence|].
  apply apply_report_quiet in Hh as (start & w1 & applied & replaced & matched & _ & _ & _ & _ & _ & Hl).
  2:{ destruct Hbound as [(_ & -> & ?)|(id' & b & ? & -> & (_ & _ & ? & _)%bind_diagnostic_Some)]; [by left|]. right. by exists id', b. }
  destruct Hl as [Hl|(m & id' & Hm & Ho' & Hq)]; [rewrite Hl in Ha; cbn in Ha; congruence|].
  rewrite Ho in Ho'. injection Ho' as <-. exists m. split; [done|]. revert Hq. unfold admitting_edge_qualifies.
  assert (∀ l, existsb (λ name, bool_decide (normalize_event name = report_event r)) l = true →
    ∃ name, name ∈ l ∧ normalize_event name = report_event r) as Hex.
  { intros l (name & Hn%list_elem_of_In & Hx%bool_decide_eq_true)%List.existsb_exists. by exists name. }
  case_bool_decide as Ess; [intros Hq; split; [by apply Hex|by left]|]. case_bool_decide as Eups; [|done].
  intros [[Hav Hls]%andb_true_iff Hact]%andb_true_iff. split; [by apply Hex|]. right. split; [done|]. split.
  - unfold is_turn_start, lifecycle. rewrite Hm. cbn [mbind option_bind]. exact Hls.
  - destruct (wo_readings w' !! pane) as [e|]; [by exists e|done].
Qed.

End handler.

(** ** Refusals *)

(** The route and its occupant are those the report was authenticated for. *)
Definition at_home (o : ReportOrigin) (route : RouteRead) : bool :=
  rr_present route && negb (bool_decide (pid (or_agent o) = 0%Z)) &&
  bool_decide (snd <$> rr_admitted route = Some (or_agent o)) && bool_decide (fst <$> rr_admitted route = or_manifest o).
Definition captured (o : ReportOrigin) (r : StateReport) (edge_ms : N) (w : World) : option (World * option HookBinding) :=
  match or_manifest o with
  | Some id =>
      '(live, b) ← bind_diagnostic (wo_live w) (or_pane o) (rp_event r) edge_ms (or_agent o) id; Some (set_live w live, Some b)
  | None => Some (w, None)
  end.
(** What a report that gets as far as the windows brings there: the world with its
    edge noted, and the route lifetime it captured. *)
Definition reaches_window (manifests : ManifestTable) (o : ReportOrigin) (r : StateReport) (edge_ms : N) (w : World)
    (route : RouteRead) : option (World * option HookBinding) :=
  if at_home o route then
    match correlation manifests o r with
    | Some (CorrInvalid _) => None
    | _ => captured o r edge_ms w
    end
  else None.
(** Nothing but the liveness edge of the report. *)
Definition edge_only (w w' : World) : Prop :=
  ∃ live, w' = set_live w live ∧ lv_next_lifetime live = lv_next_lifetime (wo_live w) ∧ lv_live live = lv_live (wo_live w) ∧
    lv_admitting live = lv_admitting (wo_live w) ∧ lv_f1_notified live = lv_f1_notified (wo_live w).
(** Nothing but the window of one reporter. *)
Definition window_only `{Uuids} (o : ReportOrigin) (w w' : World) : Prop :=
  ∃ seen, w' = set_seen w seen ∧ ∀ ns, ns ≠ dedupe_ns o → seen !! ns = wo_seen w !! ns.

Lemma captured_edge o r edge_ms w w0 bound :
  captured o r edge_ms w = Some (w0, bound) →
  edge_only w w0 ∧ (∀ b, bound = Some b → is_live (wo_live w) b = true).
Proof.
  unfold captured. destruct (or_manifest o) as [id|].
  - unfold bind_diagnostic, binding. destruct (lv_live (wo_live w) !! or_pane o) as [l|] eqn:El; [|done]. cbn. intros [= <- <-].
    split; [by eexists|]. intros b [= <-]. unfold is_live. cbn. by apply bool_decide_eq_true.
  - intros [= <- <-]. split; [|done]. exists (wo_live w). by destruct w as [? ? ? [] ? ?].
Qed.
Lemma dedupe_window `{Uuids} manifests o r w w1 again : dedupe manifests o r w = (w1, again) → window_only o w w1.
Proof.
  unfold dedupe, at_agent. intros Hd.
  assert (∀ w : World, window_only o w w) as Hrefl by (intros x; exists (wo_seen x); by destruct x).
  assert (∀ (x : World) y, window_only o w x → window_only o w (set_seen x (<[dedupe_ns o := y]> (wo_seen x)))) as Hset.
  { intros x y (seen & -> & Hs). cbn. eexists. split; [done|]. intros ns Hne. rewrite lookup_insert_ne by done. by apply Hs. }
  destruct (rp_seq r) as [seq|].
  - destruct (seen_seq _ seq) as [a x]. destruct x; [injection Hd as <- <-; by apply Hset|].
    destruct (dupe_key _ _ _) as [key|]; [|injection Hd as <- <-; by apply Hset].
    destruct (seen_key _ key) as [a2 x]. injection Hd as <- <-. by apply Hset, Hset.
  - destruct (dupe_key _ _ _) as [key|]; [|by injection Hd as <- <-].
    destruct (seen_key _ key) as [a2 x]. injection Hd as <- <-. by apply Hset.
Qed.

Section any_order.
Context `{Uuids} (others : nat → World → World) (manifests : ManifestTable) (o : ReportOrigin) (r : StateReport).
Context (edge_ms now : N) (recorded : N → option bool).
Abbreviation handled := (handle_report others manifests o r edge_ms now recorded).
Abbreviation applied_to := (apply_report others manifests o r edge_ms now recorded).

(** A report is refused at the door, with nothing but its edge noted, or it gets to
    the windows. *)
Lemma handle_report_split w route :
  match reaches_window manifests o r edge_ms w route with
  | Some (w0, bound) =>
      handled w route =
      let '(w1, again) := dedupe manifests o r (others 0%nat w0) in
      if again then Some (w1, DuplicateReport) else applied_to w1 bound (rr_watched route)
  | None => ∃ w0 reason retry, handled w route = Some (w0, NotApplied reason retry) ∧ edge_only w w0
  end.
Proof.
  assert (edge_only w w) as Hw by (exists (wo_live w); by destruct w as [? ? ? [] ? ?]).
  unfold reaches_window, at_home, handle_report.
  destruct (rr_present route); cbn [negb andb]; [|by eauto 6].
  destruct (bool_decide (pid (or_agent o) = 0%Z)); cbn [negb andb]; [by eauto 6|].
  destruct (decide (snd <$> rr_admitted route = Some (or_agent o))) as [E|E].
  2:{ rewrite (bool_decide_eq_false_2 (_ = _)), (bool_decide_eq_true_2 (¬ _)) by done. cbn. by eauto 6. }
  rewrite (bool_decide_eq_true_2 (_ = _)), (bool_decide_eq_false_2 (¬ _)) by tauto. cbn [andb].
  destruct (decide (fst <$> rr_admitted route = or_manifest o)) as [E'|E'].
  2:{ rewrite (bool_decide_eq_false_2 (_ = _)), (bool_decide_eq_true_2 (¬ _)) by done. by eauto 6. }
  rewrite (bool_decide_eq_true_2 (_ = _)), (bool_decide_eq_false_2 (¬ _)) by tauto.
  pose proof (captured_edge o r edge_ms w) as Hedge. revert Hedge. unfold captured.
  destruct (or_manifest o) as [id|]; [destruct (bind_diagnostic _ _ _ _ _ _) as [[live b]|]|]; cbn [mbind option_bind]; intros Hedge.
  - destruct (correlation manifests o r) as [[| |why]|]; try done.
    destruct (Hedge _ _ eq_refl) as [? _]. by eauto 6.
  - destruct (correlation manifests o r) as [[| |why]|]; by eauto 6.
  - destruct (correlation manifests o r) as [[| |why]|]; try done. by eauto 6.
Qed.
Lemma publish_None w bound :
  publish manifests o r w bound = None → ∃ id b, or_manifest o = Some id ∧ bound = Some b ∧ is_live (wo_live w) b = false.
Proof.
  unfold publish. destruct (manifest_of manifests o) as [m|]; [|done]. destruct (or_manifest o) as [id|]; [|done].
  destruct bound as [b|]; [|done]. destruct (admitting_edge_qualifies _ _ _); [|done]. unfold publish_admission.
  destruct (is_live (wo_live w) b) eqn:El; cbn [negb]; [by destruct (negb _)|]. intros _. by exists id, b.
Qed.


(** ** Reposts *)
Definition window (w : World) : AgentSeen := default seen_nothing (wo_seen w !! dedupe_ns o).
End any_order.

(** The numbers a window took, oldest first, since it was created or its counter
    last restarted; and how many older numbers came again since the last one. *)
Record History := MkHistory { hi_taken : list N; hi_streak : N }.
Definition history_new : History := MkHistory [] 0.
Definition highest (l : list N) : N := foldr N.max 0 l.
Definition recent {A} (l : list A) : list A := drop (length l - SEEN_CAP) l.
(** A number below the highest one that comes again is a restarted counter, if it
    is small or the third such number in a row. *)
Definition restarts (h : History) (seq : N) : bool :=
  (seq <? highest (hi_taken h)) && ((seq <=? RESET_SEQ_CEILING) || (RESET_REPLAY_STREAK <=? hi_streak h + 1)).
Definition repost (h : History) (seq : N) : bool :=
  bool_decide (seq ∈ recent (hi_taken h)) && negb (restarts h seq).
Definition learn (h : History) (seq : N) : History :=
  if repost h seq then MkHistory (hi_taken h) (if seq <? highest (hi_taken h) then hi_streak h + 1 else hi_streak h)
  else if bool_decide (seq ∈ recent (hi_taken h)) then MkHistory [seq] 0
  else MkHistory (hi_taken h ++ [seq]) 0.
(** The window a history leaves. *)
Record remembers (a : AgentSeen) (h : History) : Prop := {
  rm_order : as_seq_order a = recent (hi_taken h);
  rm_window : window_ok (as_seqs a) (as_seq_order a);
  rm_max : as_max_seq a = highest (hi_taken h);
  rm_low : as_low_replays a = hi_streak h;
}.
Lemma remembers_new : remembers seen_nothing history_new.
Proof. split; [done|apply window_ok_empty|done|done]. Qed.
Lemma highest_snoc l x : highest (l ++ [x]) = N.max (highest l) x.
Proof. unfold highest. rewrite foldr_app. cbn. induction l as [|y l IH]; cbn; [lia|]. rewrite IH. lia. Qed.
Lemma tail_drop {A} n (l : list A) : tail (drop n l) = drop (S n) l.
Proof. revert n. by induction l as [|x l IH]; intros [|n]; cbn; [..|rewrite IH]. Qed.
Lemma recent_snoc {A} (l : list A) x :
  recent (l ++ [x]) = if (SEEN_CAP <? length (recent l ++ [x]))%nat then tail (recent l ++ [x]) else recent l ++ [x].
Proof.
  unfold recent. rewrite !length_app, length_drop. cbn [length].
  destruct (Nat.ltb_spec SEEN_CAP (length l - (length l - SEEN_CAP) + 1)).
  - replace (length l + 1 - SEEN_CAP)%nat with (S (length l - SEEN_CAP)) by lia.
    rewrite <- drop_app_le by lia. symmetry. apply tail_drop.
  - replace (length l + 1 - SEEN_CAP)%nat with 0%nat by lia. by replace (length l - SEEN_CAP)%nat with 0%nat by lia.
Qed.
Lemma roll_order {A} `{Countable A} (seen : gset A) order x :
  (roll seen order x).2 = if (SEEN_CAP <? length (order ++ [x]))%nat then tail (order ++ [x]) else order ++ [x].
Proof. unfold roll. destruct (_ <? _)%nat; [|done]. by destruct order. Qed.
(** The window answers as its history says, and then remembers the number. *)
Lemma seen_seq_remembers a h seq :
  remembers a h → remembers (seen_seq a seq).1 (learn h seq) ∧ (seen_seq a seq).2 = repost h seq.
Proof.
  intros [Ho Hw Hm Hl]. unfold seen_seq, learn, repost, restarts. rewrite <- Ho, <- Hm, <- Hl.
  rewrite (bool_decide_ext (seq ∈ as_seq_order a) (seq ∈ as_seqs a)) by (symmetry; apply Hw).
  case_bool_decide as Hin; cbn [andb].
  - destruct (N.ltb_spec seq (as_max_seq a)) as [Hlt|Hge]; cbn [andb negb].
    + destruct (_ || _); cbn [negb]; (split; [|done]); [|by split].
      unfold note_seq. destruct (roll ∅ [] seq) as [s o] eqn:E. pose proof (roll_order ∅ [] seq) as Hr. rewrite E in Hr. cbn in Hr. subst o.
      destruct (roll_ok (∅ : gset N) [] seq s [seq] window_ok_empty (not_elem_of_empty seq) E) as [? _]. split; [done|done|cbn; lia|done].
    + split; [|done]. by split.
  - split; [|done]. unfold note_seq. destruct (roll (as_seqs a) (as_seq_order a) seq) as [s o] eqn:E.
    pose proof (roll_order (as_seqs a) (as_seq_order a) seq) as Hr. rewrite E in Hr. cbn [snd] in Hr.
    destruct (roll_ok _ _ _ _ _ Hw Hin E) as [? _].
    split; cbn [as_seq_order as_seqs as_max_seq as_low_replays hi_taken hi_streak]; [by rewrite recent_snoc, <- Ho|done|by rewrite highest_snoc, Hm|done].
Qed.
Lemma seen_key_remembers a h key : remembers a h → remembers (seen_key a key).1 h.
Proof.
  intros [Ho Hw Hm Hl]. unfold seen_key. case_bool_decide; [by split|]. by destruct (roll _ _ key).
Qed.
(** The windows that reports can leave, each with the numbers that led to it. *)
Inductive window_history : AgentSeen → History → Prop :=
| wh_new : window_history seen_nothing history_new
| wh_number a h seq : window_history a h → window_history (seen_seq a seq).1 (learn h seq)
| wh_key a h key : window_history a h → window_history (seen_key a key).1 h.
Lemma window_history_remembers a h : window_history a h → remembers a h.
Proof.
  induction 1 as [|a h seq _ IH|a h key _ IH]; [apply remembers_new|by apply seen_seq_remembers|by apply seen_key_remembers].
Qed.
Lemma window_insert `{Uuids} o w a : window o (set_seen w (<[dedupe_ns o := a]> (wo_seen w))) = a.
Proof. unfold window. cbn. by rewrite lookup_insert_eq. Qed.
Lemma dedupe_history `{Uuids} manifests o r w h seq :
  window_history (window o w) h → rp_seq r = Some seq →
  ∃ w1 again, dedupe manifests o r w = (w1, again) ∧ window_only o w w1 ∧ window_history (window o w1) (learn h seq) ∧
    (repost h seq = true → again = true) ∧
    (repost h seq = false → again = true → ∃ key, dupe_key manifests o r = Some key ∧ key ∈ as_keys (window o w)).
Proof.
  intros Hh Hs. destruct (dedupe manifests o r w) as [w1 again] eqn:Ed. exists w1, again. split; [done|].
  split; [by eapply dedupe_window|]. revert Ed. unfold dedupe, at_agent. rewrite Hs. fold (window o w).
  destruct (seen_seq_remembers _ _ seq (window_history_remembers _ _ Hh)) as [_ Hans].
  pose proof (wh_number _ _ seq Hh) as Hn.
  assert (as_keys (seen_seq (window o w) seq).1 = as_keys (window o w)) as Hkeys.
  { unfold seen_seq, note_seq. repeat case_match; done. }
  destruct (seen_seq (window o w) seq) as [a x]. cbn in Hans, Hn, Hkeys. subst x.
  destruct (repost h seq); [intros [= <- <-]; by rewrite window_insert|].
  destruct (dupe_key manifests o r) as [key|]; [|intros [= <- <-]; by rewrite window_insert].
  fold (window o (set_seen w (<[dedupe_ns o := a]> (wo_seen w)))). rewrite window_insert.
  pose proof (wh_key _ _ key Hn) as Hk. destruct (seen_key a key) as [a2 x] eqn:Ek. intros [= <- <-]. rewrite window_insert.
  split_and!; [done|done|]. intros _ ->. exists key. split; [done|]. rewrite <- Hkeys.
  unfold seen_key in Ek. case_bool_decide; [done|]. by destruct (roll _ _ key).
Qed.


(** ** Panics *)
Definition readings_ok (w : World) : Prop := map_Forall (λ _, deadline_ok) (wo_readings w).
Lemma readings_ok_delivers w w' : delivers_only w w' → readings_ok w → readings_ok w'.
Proof. intros [H _ _]. unfold readings_ok. by rewrite H. Qed.
Lemma file_delivers manifests o r edge_ms w :
  delivers_only w (file_candidate manifests o r edge_ms w) ∧ delivers_only w (take_confirmed_start manifests o r w).1 ∧
  delivers_only w (file_end manifests o r w).
Proof. unfold file_candidate, take_confirmed_start, file_end. split_and!; repeat (case_match; try done); by subst. Qed.
Lemma report_entry_deadline manifests o r edge_ms s : deadline_ok (report_entry manifests o r edge_ms s).
Proof. unfold report_entry. by repeat case_match. Qed.
Lemma store_reading_total manifests o r edge_ms w state start :
  readings_ok w → ∃ w' applied replaced, store_reading manifests o r edge_ms w state start = Some (w', applied, replaced) ∧ readings_ok w'.
Proof.
  intros Hw. unfold store_reading. destruct state as [s|]; [|by do 3 eexists]. destruct (should_insert _ _ _ _ _ _); [|by do 3 eexists].
  assert (is_Some (match wo_readings w !! or_pane o with
    | Some e => provisional_edge_for e (or_agent o) (or_manifest o) | None => Some None end)) as [x Hx].
  { destruct (wo_readings w !! or_pane o) as [e|] eqn:E; [|done]. unfold provisional_edge_for.
    destruct (provisional_start_for _ _ _) eqn:Ep; [|done]. unfold provisional_start_for, active_start_for in Ep.
    apply andb_true_iff in Ep as [[Ha _]%andb_true_iff Hc%negb_true_iff]. specialize (Hw _ _ E Ha Hc).
    by destruct (he_provisional_ready_at_ms e). }
  rewrite Hx. cbn. do 3 eexists. split; [done|]. apply map_Forall_insert_2; [apply report_entry_deadline|done].
Qed.
(** Handling a report never panics: as long as every provisional start has
    its deadline, which each operation of the daemon keeps, any report from anyone
    gets an answer, whatever others do while it is handled, and the deadlines are
    in place afterwards. *)
Theorem reports_never_panic `{Uuids} others manifests o r edge_ms now recorded w route :
  (∀ k w, readings_ok w → readings_ok (others k w)) → readings_ok w →
  ∃ w' a, handle_report others manifests o r edge_ms now recorded w route = Some (w', a) ∧ readings_ok w'.
Proof.
  intros Ho Hw. unfold handle_report. do 4 (case_match; [by do 2 eexists|]).
  destruct (match or_manifest o with Some id => _ | None => _ end) as [[w0 bound]|] eqn:Eb; [|by do 2 eexists].
  assert (readings_ok w0) as Hw0.
  { destruct (or_manifest o); [|by injection Eb as <- <-]. destruct (bind_diagnostic _ _ _ _ _ _) as [[? ?]|]; [|done].
    by injection Eb as <- <-. }
  destruct (dedupe manifests o r (others 0%nat w0)) as [w1 again] eqn:Ed. apply dedupe_seen in Ed as [seen ->].
  assert (readings_ok (set_seen (others 0%nat w0) seen)) as Hw1 by exact (Ho 0%nat w0 Hw0).
  assert (∀ watched, ∃ w' a, apply_report others manifests o r edge_ms now recorded (set_seen (others 0%nat w0) seen) bound watched
    = Some (w', a) ∧ readings_ok w') as Hap.
  2:{ destruct (correlation manifests o r) as [[]|]; try (by do 2 eexists); destruct again; try (by do 2 eexists); apply Hap. }
  intros watched. unfold apply_report.
  destruct (take_confirmed_start manifests o r _) as [w2 start] eqn:Et.
  assert (readings_ok w2) as Hw2.
  { apply (f_equal fst) in Et. cbn in Et. rewrite <- Et. eapply readings_ok_delivers; [apply (file_delivers manifests o r edge_ms)|].
    eapply readings_ok_delivers; [apply file_delivers|]. by apply Ho. }
  edestruct (store_reading_total manifests o r edge_ms) as (w3 & applied & replaced & Es & Hw3).
  { apply (Ho 3%nat). eapply readings_ok_delivers; [apply (file_delivers manifests o r edge_ms)|]. by apply (Ho 2%nat w2). }
  rewrite Es. cbn [mbind option_bind].
  assert (readings_ok (others 4%nat (reject_replaced o w3 replaced))) as Hw4.
  { apply Ho. eapply readings_ok_delivers; [apply reject_delivers|done]. }
  destruct (publish manifests o r _ bound) as [w5|] eqn:Ep; [|by do 2 eexists].
  assert (readings_ok w5) as Hw5.
  { unfold publish in Ep. destruct (manifest_of manifests o), (or_manifest o), bound; try (by injection Ep as <-).
    destruct (admitting_edge_qualifies _ _ _); [by apply fmap_Some in Ep as (? & _ & ->)|by injection Ep as <-]. }
  destruct (match_prompt manifests o r edge_ms now recorded _) as [[w6 matched] ended] eqn:Em. do 2 eexists. split; [done|].
  eapply readings_ok_delivers; [apply confirm_delivers|]. eapply readings_ok_delivers; [apply confirm_delivers|].
  assert (readings_ok w6) as Hw6.
  { apply (f_equal (λ x, x.1.1)) in Em. cbn in Em. rewrite <- Em. eapply readings_ok_delivers; [apply match_delivers|]. apply Ho.
    unfold prepare_end. repeat case_match; try done. eapply readings_ok_delivers; [apply prepare_delivers|done]. }
  destruct watched; [by apply Ho|done].
Qed.
(** Confirming a dispatch does to the handles what [confirm_dispatch_ack] does; in
    addition the receipts reach the composer. *)
Lemma confirm_dispatch_engine o edge_ms now recorded w manifest turn :
  wo_engine (confirm_dispatch o edge_ms now recorded w manifest turn) =
  confirm_dispatch_ack (wo_engine w) (or_pane o) (or_agent o) manifest turn edge_ms recorded now.
Proof.
  unfold confirm_dispatch, confirm_dispatch_ack. generalize (ack_candidates (wo_engine w) (or_pane o)) as refs.
  intros refs. revert w. induction refs as [|ref refs IH]; intros w; cbn; [done|]. rewrite IH. f_equal.
  unfold confirm_in, confirm_one. destruct (en_handles (wo_engine w) !! ref) as [h|]; [|done]. destruct (_ && _); [|done].
  destruct (settle_accepted _ _ _ _ _ _) as [[e b] eff]. by destruct eff as [[]|].
Qed.
