(* ===== verification/Roster.v ===== *)
(** * The roster: naming, publication and authentication

    [src/cyclopsd/src/lib.rs] ([mailbox_routes] to [update_mailbox_route], [label_pane],
    [adopt_pane], [unadopt_pane]), [src/cyclopsd/src/headless.rs] and the caller
    resolution of [src/cyclopsd/src/server.rs].  The registry says who wears which label,
    the sessions say which panes are there now, and the mailbox directory is what the two
    publish; a caller is resolved against all three.

    Readings of tmux and of the process table are arguments, in the order they are made,
    and so is the registry a handler looks at before its publication begins; [Write] is what
    becomes of each write of the registry.  A publication holds the publication lock of the
    messaging service, if there is one, and takes the registry lock anew for each step:
    [between n] is what others do to the daemon before its [n]-th retaking. *)
From S2P Require Import Prelude Text Identity Ledger Journal Mailbox Notification Facts Projection Store Directory Service.
From S2P Require Import TmuxText Registry Detection Manifests NotificationAdapter DeliveryGate Composer Reports Callers.
Local Open Scope N_scope.
Local Open Scope rust_scope.

(** ** Sessions and their panes *)
Record ObservedPane := MkObserved { obs_pane_id : rstr; obs_root : option ProcId }.
Record SessionSlot := MkSlot {
  sl_canonical : bool;
  sl_name : rstr;
  sl_attached : bool;
  sl_identity : option SessionInstanceId;
  sl_mailbox_panes : gmap rstr ObservedPane;
  sl_last_panes : gmap rstr ObservedPane;
}.
Record MailboxSessionRoute := MkSessionRoute {
  sr_session_idx : nat;
  sr_instance_id : SessionInstanceId;
  sr_attached : bool;
  sr_panes : list ObservedPane;
}.
Record MailboxRouteOverride := MkOverride { ov_session_idx : nat; ov_instance_id : SessionInstanceId; ov_rows : list ObservedPane }.
Record MailboxPaneChoice := MkChoice { ch_attached : bool; ch_pane : option (nat * SessionInstanceId * ObservedPane) }.

Definition mailbox_route (idx : nat) (slot : SessionSlot) : option MailboxSessionRoute :=
  instance ← sl_identity slot;
  Some (MkSessionRoute idx instance (sl_attached slot)
    (map_values (if sl_attached slot then sl_mailbox_panes slot else sl_last_panes slot))).
Definition session_route (proposed : option MailboxRouteOverride) (x : nat * SessionSlot) : option MailboxSessionRoute :=
  match proposed with
  | Some o =>
      if bool_decide (ov_session_idx o = x.1) then Some (MkSessionRoute x.1 (ov_instance_id o) true (ov_rows o))
      else mailbox_route x.1 x.2
  | None => mailbox_route x.1 x.2
  end.
Definition mailbox_routes (sessions : list SessionSlot) (proposed : option MailboxRouteOverride) : list MailboxSessionRoute :=
  omap (session_route proposed) (filter (λ x, sl_canonical x.2 = true) (imap pair sessions)).

Definition choose_pane (ws : WorkspaceId) (route : MailboxSessionRoute) (selected : gmap RecipientKey MailboxPaneChoice)
    (pane : ObservedPane) : gmap RecipientKey MailboxPaneChoice :=
  match pane_parse (obs_pane_id pane) with
  | Err _ => selected
  | Ok id =>
      let k := recipient_agent ws (sr_instance_id route) id in
      let choice := MkChoice (sr_attached route) (Some (sr_session_idx route, sr_instance_id route, pane)) in
      match selected !! k with
      | None => <[k := choice]> selected
      | Some c =>
          if sr_attached route && negb (ch_attached c) then <[k := choice]> selected
          else if bool_decide (sr_attached route = ch_attached c)
                  && negb (match ch_pane c with
                           | Some (_, instance, existing) =>
                               bool_decide (instance = sr_instance_id route) && bool_decide (obs_root existing = obs_root pane)
                           | None => false
                           end)
          then <[k := MkChoice (ch_attached c) None]> selected
          else selected
      end
  end.
Definition choices (ws : WorkspaceId) (routes : list MailboxSessionRoute) : gmap RecipientKey MailboxPaneChoice :=
  foldl (λ selected route, foldl (choose_pane ws route) selected (sr_panes route)) ∅ routes.
Definition choice_key_le (x y : RecipientKey * MailboxPaneChoice) : Prop := recipient_key_le x.1 y.1.
#[export] Instance choice_key_le_dec : RelDecision choice_key_le.
Proof. intros x y. unfold choice_key_le. apply _. Defined.
Definition mailbox_panes (ws : WorkspaceId) (sessions : list SessionSlot) (proposed : option MailboxRouteOverride)
    : list (nat * SessionInstanceId * ObservedPane) :=
  omap (λ x, ch_pane x.2) (merge_sort choice_key_le (map_to_list (choices ws (mailbox_routes sessions proposed)))).

(** ** Publication *)
(** The agents a directory is built from: each route whose pane generation is adopted, then
    the headless registrations. *)
Definition pane_agent (ws : WorkspaceId) (r : Registry) (x : nat * SessionInstanceId * ObservedPane) : option MailboxIdentity :=
  let '(_, instance, pane) := x in
  match pane_parse (obs_pane_id pane) with
  | Err _ => None
  | Ok id =>
      root ← obs_root pane;
      root ← process_instance_id root;
      a ← for_route r (recipient_agent ws instance id) root;
      Some (MkIdentity (recipient_agent ws instance id) (ad_label a))
  end.
Definition roster_agents (ws : WorkspaceId) (r : Registry) (panes : list (nat * SessionInstanceId * ObservedPane)) : list MailboxIdentity :=
  omap (pane_agent ws r) panes ++ ((λ a, MkIdentity (ha_recipient a) (ha_label a)) <$> headless_adoptions r).

Inductive PublishError := InvalidPane (pane_id : rstr) | BadDirectory (e : MailboxDirectoryError).
Inductive NameError :=
| BadLabel (why : rstr)
| LabelTaken (holder : LabelHolder)
| NamesAPane (a : Adoption)
| UnknownManifest
| ManifestDisagrees
| NoSuchTarget
| CannotRecord (e : StateError)
| NotPublished
| ChromeNotRestored
| NameDenied
| UsePane (pane_id : rstr)
| NoBootId
| MailboxUnavailable.

Section roster.
Context {V : Type} {serde : Serde V} {codec : LineCodec V} {uuids : Uuids} {digests : Digests} `{RegistryJson}.
(** [str::escape_debug], in the wording of one refusal. *)
Context (escape_debug : rstr → rstr).

Record DaemonState := MkDaemonState {
  dm_workspace_id : WorkspaceId;
  dm_registry : RegHost;
  dm_messaging : option (MailboxService (V:=V));
  dm_sessions : list SessionSlot;
  dm_manifests : list rstr;
}.
Implicit Types dm : DaemonState.
Definition set_registry dm (h : RegHost) : DaemonState := MkDaemonState (dm_workspace_id dm) h (dm_messaging dm) (dm_sessions dm) (dm_manifests dm).
Definition set_messaging dm (m : option (MailboxService (V:=V))) : DaemonState :=
  MkDaemonState (dm_workspace_id dm) (dm_registry dm) m (dm_sessions dm) (dm_manifests dm).
Definition set_sessions dm (s : list SessionSlot) : DaemonState :=
  MkDaemonState (dm_workspace_id dm) (dm_registry dm) (dm_messaging dm) s (dm_manifests dm).
Definition live_registry dm : Registry := rh_live (dm_registry dm).

(** The directory a publication builds; a pane whose text is no pane id refuses it. *)
Definition next_directory dm (proposed : option MailboxRouteOverride) : result PublishError MailboxDirectory :=
  let panes := mailbox_panes (dm_workspace_id dm) (dm_sessions dm) proposed in
  match list_find (λ x : nat * SessionInstanceId * ObservedPane, result_ok (pane_parse (obs_pane_id x.2)) = None) panes with
  | Some (_, x) => Err (InvalidPane (obs_pane_id x.2))
  | None => result_map_err BadDirectory (directory_new (dm_workspace_id dm) (roster_agents (dm_workspace_id dm) (live_registry dm) panes))
  end.
Definition publish_mailbox_directory dm (svc : MailboxService (V:=V)) (proposed : option MailboxRouteOverride)
    : MailboxService (V:=V) * bool :=
  match next_directory dm proposed with
  | Err _ => (svc, false)
  | Ok d => match replace_directory svc d with (svc', Answered _) => (svc', true) | (svc', _) => (svc', false) end
  end.
(** A directory that cannot be published is closed rather than left stale. *)
Definition refresh_mailbox_directory_published dm (svc : MailboxService (V:=V)) : MailboxService (V:=V) * bool :=
  match publish_mailbox_directory dm svc None with
  | (svc', true) => (svc', true)
  | (svc', false) =>
      match directory_new (dm_workspace_id dm) [] with
      | Ok empty => ((replace_directory svc' empty).1, false)
      | Err _ => (svc', false)
      end
  end.
(** [messaging.is_none_or(refresh)]. *)
Definition refresh_mailbox_directory dm : DaemonState * bool :=
  match dm_messaging dm with
  | None => (dm, true)
  | Some svc => let '(svc', ok) := refresh_mailbox_directory_published dm svc in (set_messaging dm (Some svc'), ok)
  end.
Definition update_mailbox_route dm (update : DaemonState → DaemonState) : DaemonState * bool := refresh_mailbox_directory (update dm).
Definition publish_mailbox_transition dm (proposed : MailboxRouteOverride) (commit : DaemonState → DaemonState) : DaemonState * bool :=
  match dm_messaging dm with
  | None => (commit dm, true)
  | Some svc =>
      match publish_mailbox_directory dm svc (Some proposed) with
      | (svc', true) => (commit (set_messaging dm (Some svc')), true)
      | (svc', false) => (set_messaging dm (Some svc'), false)
      end
  end.

(** What others do inside one publication: 0 before the write of the registry, where the code
    looked at it before, and 1 before the directory is built. *)
Context (between : nat → DaemonState → DaemonState).
Definition refresh_after dm : DaemonState * bool := refresh_mailbox_directory (between 1 dm).

(** ** Naming a pane *)
Record RouteSeen := MkRouteSeen { rs_key : RecipientKey; rs_root : ProcessInstanceId; rs_window : rstr; rs_pane_pid : Z }.
(** [adoption_route]: [same] is whether the slot's watcher is the caller's, [row] the pane's
    window and root pid in its table, [root] what [ProcId::of] reads of that pid. *)
Definition adoption_route dm (slot : option SessionSlot) (same : bool) (pane_id : rstr) (row : option (rstr * Z)) (root : option ProcId)
    : option RouteSeen :=
  slot ← slot;
  if negb (sl_attached slot) || negb same then None
  else
    instance ← sl_identity slot;
    row ← row;
    pane ← result_ok (pane_parse pane_id);
    root ← root;
    root ← process_instance_id root;
    Some (MkRouteSeen (recipient_agent (dm_workspace_id dm) instance pane) root row.1 row.2).
Definition conflicting_label_holder (r : Registry) (label : rstr) (k : RecipientKey) : option LabelHolder :=
  label_holder r label (Some k).
Definition commit_adoption_during_publication (w : Write) dm (a : Adoption) (chrome : WindowChrome) : DaemonState * result NameError () :=
  match ad_recipient a with
  | None => (dm, Err (CannotRecord RegistryPanic))
  | Some k =>
      match conflicting_label_holder (live_registry dm) (ad_label a) k with
      | Some holder => (dm, Err (LabelTaken holder))
      | None =>
          let dm := between 0 dm in
          match adopt w (dm_registry dm) a chrome with
          | (h, Err e) => (set_registry dm h, Err (CannotRecord e))
          | (h, Ok _) =>
              match refresh_after (set_registry dm h) with
              | (dm', true) => (dm', Ok ())
              | (dm', false) => (dm', Err NotPublished)
              end
          end
      end
  end.
(** [adopt_pane] up to its write: [seen] and [again] are the route before and inside the
    publication, [looked] the registry after the first, [snapshot] the chrome tmux reports,
    pane format then window status. *)
Definition adopt_pane (w : Write) dm (session pane_id label : rstr) (manifest : option rstr) (looked : Registry) (seen again : option RouteSeen)
    (snapshot : option (option rstr * option rstr)) : DaemonState * result NameError () :=
  match seen with
  | None => (dm, Err NoSuchTarget)
  | Some s =>
      let known := for_route looked (rs_key s) (rs_root s) in
      let known_format := ad_border_format <$> known in
      let known_status := _ ← known; wc_border_status <$> registry_window looked (rs_window s) in
      let read :=
        match known_format, known_status with
        | Some _, Some _ => (None, None)
        | _, _ => default (None, None) snapshot
        end in
      match again with
      | None => (dm, Err NoSuchTarget)
      | Some s' =>
          if bool_decide (rs_key s' ≠ rs_key s) || bool_decide (rs_root s' ≠ rs_root s) || bool_decide (rs_window s' ≠ rs_window s)
          then (dm, Err NoSuchTarget)
          else
            commit_adoption_during_publication w dm
              (MkAdoption session pane_id label (Some (rs_key s)) (Some (rs_root s)) manifest (rs_pane_pid s) (rs_window s)
                 (default read.1 known_format))
              (MkWindowChrome session (rs_window s) (default read.2 known_status))
      end
  end.
(** [unadopt_pane]: [restored_chrome] is whether tmux took its own border back. *)
Definition unadopt_pane (w : Write) dm (looked : Registry) (seen : option RouteSeen) (restored_chrome : bool) : DaemonState * result NameError () :=
  match seen with
  | None => (dm, Ok ())
  | Some s =>
      let pending := pending_clear looked (rs_key s) (rs_root s) in
      if bool_decide (is_Some pending) && negb restored_chrome then (dm, Err ChromeNotRestored)
      else
        match registry_clear w (dm_registry dm) (rs_key s) (rs_root s) with
        | (h, Err e) => (set_registry dm h, Err (CannotRecord e))
        | (h, Ok None) => (set_registry dm h, Err NoSuchTarget)
        | (h, Ok (Some _)) =>
            match refresh_after (set_registry dm h) with
            | (dm', true) => (dm', Ok ())
            | (dm', false) => (dm', Err NotPublished)
            end
        end
  end.
(** [label_pane] on a resolved target; no label, or an empty one, takes the name back.
    [first_looked] and [looked] are the registry at its two earlier looks. *)
Definition label_pane (w : Write) dm (session pane_id : rstr) (label manifest : option rstr) (first_looked looked : Registry)
    (first seen again : option RouteSeen)
    (snapshot : option (option rstr * option rstr)) (restored_chrome : bool) : DaemonState * result NameError () :=
  let label := match label with Some [] | None => None | Some l => Some l end in
  let unknown := match manifest with Some m => negb (bool_decide (m ∈ dm_manifests dm)) | None => false end in
  match label with
  | Some l =>
      match refusal escape_debug l with
      | Some why => (dm, Err (BadLabel why))
      | None =>
          match first with
          | None => (dm, Err NoSuchTarget)
          | Some s =>
              match conflicting_label_holder first_looked l (rs_key s) with
              | Some holder => (dm, Err (LabelTaken holder))
              | None => if unknown then (dm, Err UnknownManifest) else adopt_pane w dm session pane_id l manifest looked seen again snapshot
              end
          end
      end
  | None => if unknown then (dm, Err UnknownManifest) else unadopt_pane w dm looked seen restored_chrome
  end.

(** ** Headless agents *)
Definition proc_id (root : ProcessInstanceId) : ProcId := MkProcId (process_pid (bval root)) (process_birth (bval root)).
Definition headless_retire (w : Write) dm (k : RecipientKey) : DaemonState * option HeadlessAdoption :=
  match retire_headless w (dm_registry dm) k with
  | (h, None) => (set_registry dm h, None)
  | (h, Some gone) => ((refresh_after (set_registry dm h)).1, Some gone)
  end.
Definition retire_dead (ws : list Write) dm (dead : list RecipientKey) : DaemonState :=
  foldl (λ dm x, (headless_retire x.1 dm x.2).1) dm (zip ws dead).
Inductive Armed := ArmedWatch | ArmUnsupported | ArmFailed.
Definition arm_exit_watcher (w : Write) dm (k : RecipientKey) (armed : Armed) : DaemonState :=
  match armed with ArmFailed => (headless_retire w dm k).1 | ArmedWatch | ArmUnsupported => dm end.
(** The part of [register] under the publication lock. *)
Definition register_published (w : Write) dm (label : rstr) (root : ProcessInstanceId) (boot : rstr) (manifest : option rstr)
    (fresh : AgentInstanceId) : DaemonState * result NameError (RecipientKey * bool) :=
  let '(k, is_fresh) :=
    match headless_for_root (live_registry dm) root with
    | Some existing => (ha_recipient existing, false)
    | None => (recipient_headless (dm_workspace_id dm) fresh, true)
    end in
  match label_holder (live_registry dm) label (Some k) with
  | Some holder => (dm, Err (LabelTaken holder))
  | None =>
      match adopt_headless w (dm_registry dm) (MkHeadlessAdoption label k root boot manifest) with
      | (h, Err e) => (set_registry dm h, Err (CannotRecord e))
      | (h, Ok _) =>
          match refresh_after (set_registry dm h) with
          | (dm', true) => (dm', Ok (k, is_fresh))
          | (dm', false) => (dm', Err NotPublished)
          end
      end
  end.
(** [register]: [found] is the answer of the walk, [detected] the manifest of the root process
    read again, [armed] and [alive] what arming the exit watch and the last reading find;
    [w], [wa] and [wr] the writes in the order they happen.  No lock is held between the
    publication, the arming and the last reading: [others] run there. *)
Definition headless_register (others : nat → DaemonState → DaemonState) (w wa wr : Write) dm (peer : result PeerDenied (N * Z)) (label : rstr) (pin : option rstr)
    (found : HeadlessRoot) (detected : option rstr) (boot : option rstr) (fresh : AgentInstanceId) (armed : Armed) (alive : bool)
    : DaemonState * result NameError RecipientKey :=
  match peer with
  | Err _ => (dm, Err NameDenied)
  | Ok _ =>
  let label := trim label in
  match refusal escape_debug label with
  | Some why => (dm, Err (BadLabel why))
  | None =>
  if match pin with Some m => negb (bool_decide (m ∈ dm_manifests dm)) | None => false end then (dm, Err UnknownManifest)
  else
  match found with
  | RootInsidePane pane_id => (dm, Err (UsePane pane_id))
  | RootNoVendor | RootUnprovable => (dm, Err NameDenied)
  | RootVendor root =>
  if match pin, detected with Some p, Some d => bool_decide (p ≠ d) | _, _ => false end then (dm, Err ManifestDisagrees)
  else
  let manifest := match pin with Some p => Some p | None => detected end in
  match process_instance_id root, boot with
  | None, _ => (dm, Err NameDenied)
  | Some _, None => (dm, Err NoBootId)
  | Some instance, Some boot =>
      match register_published w dm label instance boot manifest fresh with
      | (dm', Err e) => (dm', Err e)
      | (dm', Ok (k, is_fresh)) =>
          let dm' := if is_fresh then arm_exit_watcher wa (others 0%nat dm') k armed else dm' in
          if alive then (dm', Ok k) else ((headless_retire wr (others 1%nat dm') k).1, Err NameDenied)
      end
  end end end end.
(** [clear]: the caller is who the messaging service resolved it to, [looked] the registry a
    label is looked up in. *)
Definition headless_clear (w : Write) dm (looked : Registry) (caller : option (result () MailboxIdentity)) (label : option rstr) : DaemonState * result NameError rstr :=
  match caller with
  | None => (dm, Err MailboxUnavailable)
  | Some (Err _) => (dm, Err NameDenied)
  | Some (Ok caller) =>
      let target :=
        match label with
        | Some label =>
            if negb (is_admin (id_key caller)) then Err NameDenied
            else match label_holder looked label None with
                 | Some (HolderHeadless a) => Ok (ha_recipient a)
                 | Some (HolderPane a) => Err (NamesAPane a)
                 | None => Err NoSuchTarget
                 end
        | None => if is_headless (id_key caller) then Ok (id_key caller) else Err NameDenied
        end in
      match target with
      | Err e => (dm, Err e)
      | Ok k => match headless_retire w dm k with (dm', Some gone) => (dm', Ok (ha_label gone)) | (dm', None) => (dm', Err NoSuchTarget) end
      end
  end.
(** [reverify_at_boot], the rows from another boot or of a dead process dropped; [armed] is
    what arming the exit watch of each survivor gives; [others] run before the [n]-th. *)
Definition survives (boot : option rstr) (alive : ProcId → bool) (a : HeadlessAdoption) : bool :=
  bool_decide (boot = Some (ha_os_boot_id a)) && alive (proc_id (ha_root a)).
Definition reverify_at_boot (others : nat → DaemonState → DaemonState) (w : Write) (wa : list Write) dm (boot : option rstr)
    (alive : ProcId → bool) (armed : RecipientKey → Armed)
    : DaemonState * list HeadlessAdoption :=
  let '(h, dropped) := retain_headless w (dm_registry dm) (survives boot alive) in
  let dm := set_registry dm h in
  (foldl (λ dm x, arm_exit_watcher x.2.1 (others x.1 dm) (ha_recipient x.2.2) (armed (ha_recipient x.2.2))) dm
     (imap pair (zip wa (headless_adoptions (live_registry dm)))), dropped).

(** ** Resolving a caller *)
Record ReportPane := MkReportPane {
  rp_session_idx : option nat;
  rp_recipient_key : RecipientKey;
  rp_pane_id : rstr;
  rp_label : option rstr;
  rp_root : ProcId;
}.
Definition report_pane dm (x : nat * SessionInstanceId * ObservedPane) : option ReportPane :=
  let '(idx, instance, pane) := x in
  root ← obs_root pane;
  id ← result_ok (pane_parse (obs_pane_id pane));
  let k := recipient_agent (dm_workspace_id dm) instance id in
  let label := instance ← process_instance_id root; ad_label <$> for_route (live_registry dm) k instance in
  Some (MkReportPane (Some idx) k (obs_pane_id pane) label root).
Definition headless_row (a : HeadlessAdoption) : ReportPane :=
  MkReportPane None (ha_recipient a) [] (Some (ha_label a)) (proc_id (ha_root a)).
(** The rows, and the registrations observed dead. *)
Definition report_panes dm (alive : ProcId → bool) : list ReportPane * list RecipientKey :=
  let hs := headless_adoptions (live_registry dm) in
  (omap (report_pane dm) (mailbox_panes (dm_workspace_id dm) (dm_sessions dm) None)
     ++ (headless_row <$> filter (λ a, alive (proc_id (ha_root a)) = true) hs),
   ha_recipient <$> filter (λ a, alive (proc_id (ha_root a)) = false) hs).
Definition watched_pane_roots dm (alive : ProcId → bool) : list (rstr * ProcId) :=
  (λ p, (rp_pane_id p, rp_root p)) <$> filter (λ p, is_Some (rp_session_idx p)) (report_panes dm alive).1.
(** [str::parse::<usize>]. *)
Definition parse_usize (s : rstr) : option N :=
  let digits := default s (strip_prefix [43] s) in
  if forallb is_ascii_digit digits then parse_u64_digits digits else None.
Definition report_pane_at (rows : list ReportPane) (token : rstr) (root : ProcId) : option ReportPane :=
  i ← parse_usize token;
  row ← rows !! N.to_nat i;
  if bool_decide (rp_root row = root) then Some row else None.
Definition observed_rows (rows : list ReportPane) : PaneRoots :=
  imap (λ i row, (dec_string (N.of_nat i), None, rp_root row)) rows.

Inductive CallerError := CallerDenied (why : PeerDenied) | CallerUnavailable | OriginDenied.
Definition resolve_mailbox_identity dm (rows : list ReportPane) (origin : PeerOrigin) (svc : MailboxService (V:=V))
    : result CallerError MailboxIdentity :=
  match origin with
  | OriginAdmin => Ok (service_admin svc)
  | OriginUnprovable => Err OriginDenied
  | OriginPane token _ pane_root vendor_below =>
      if negb vendor_below then Ok (service_admin svc)
      else
        let? route := ok_or (report_pane_at rows token pane_root) OriginDenied in
        let? root := ok_or (process_instance_id (rp_root route)) OriginDenied in
        bail OriginDenied when negb (route_is_current (live_registry dm) (rp_recipient_key route) root) ;;
        ok_or (identity_for_recipient (sv_directory svc) (rp_recipient_key route)) OriginDenied
  end.
(** [workspace_messaging_caller]: credentials, then the service, then the walk over the rows
    of this moment.  [k] and [is_vendor] are the process table and its classification. *)
Definition workspace_messaging_caller dm (k : Kernel) (uid : N) (is_vendor : nat → Z → Vendorship) (t : nat)
    (peer : result PeerDenied (N * Z)) (alive : ProcId → bool) : result CallerError MailboxIdentity :=
  match peer with
  | Err why => Err (CallerDenied why)
  | Ok (_, p) =>
      match dm_messaging dm with
      | None => Err CallerUnavailable
      | Some svc =>
          let rows := (report_panes dm alive).1 in
          resolve_mailbox_identity dm rows (resolve_peer_origin_observed k uid is_vendor t p (observed_rows rows)) svc
      end
  end.

(** ** Who a hook report is from *)
Inductive ReportDenied := OutsideEveryPane | RouteVanished | FromHeadless | ClaimDisagrees | PaneGone | NoAgent | RootUnprovenId | PinDisagrees.
(** [present] is whether the route is still there, [vendor] the agent between the peer and the
    pane root with its manifest. *)
Definition verify_report_origin dm (rows : list ReportPane) (origin : PeerOrigin) (claim : option rstr) (present : bool)
    (vendor : option (rstr * ProcId)) : result ReportDenied ReportOrigin :=
  match origin with
  | OriginAdmin | OriginUnprovable => Err OutsideEveryPane
  | OriginPane token _ pane_root _ =>
      let? pane := ok_or (report_pane_at rows token pane_root) RouteVanished in
      let? idx := ok_or (rp_session_idx pane) FromHeadless in
      let recipient := default (rp_pane_id pane) (rp_label pane) in
      bail ClaimDisagrees when
        match claim with Some c => bool_decide (c ≠ recipient) && bool_decide (c ≠ rp_pane_id pane) | None => false end ;;
      bail PaneGone when negb present ;;
      let? found := ok_or vendor NoAgent in
      let? root := ok_or (process_instance_id (rp_root pane)) RootUnprovenId in
      bail PinDisagrees when
        match (a ← for_route (live_registry dm) (rp_recipient_key pane) root; ad_manifest a) with
        | Some pinned => bool_decide (pinned ≠ found.1)
        | None => false
        end ;;
      Ok (MkOrigin (rp_recipient_key pane) (N.of_nat idx, rp_pane_id pane) found.2 (Some found.1))
  end.
End roster.
