(* ===== verification/RosterProps.v ===== *)
(** * The roster as one whole

    Theorems about [Roster.v]: names stay unique and addressable through every operation
    that changes the roster, so the directory built from it can always be published and
    names exactly the agents there; and a caller is resolved to nobody but the agent whose
    process tree it stands in. *)
From S2P Require Import Prelude Text Identity Ledger Journal Mailbox Notification Facts.
From S2P Require Import Projection Store Directory Service Detection Manifests TmuxText TmuxTextProps.
From S2P Require Import Registry RegistryProps NotificationAdapter DeliveryGate Callers TurnKeys.
From S2P Require Import Composer Reports Roster.
Local Open Scope N_scope.

(** ** Who wears a label *)
Definition worn (r : Registry) (label : rstr) (k : RecipientKey) : Prop :=
  (∃ a, rg_panes r !! k = Some a ∧ ad_label a = label) ∨ (∃ a, rg_headless r !! k = Some a ∧ ha_label a = label).
(** A label that may be worn: what [refusal] lets through. *)
Definition wearable (label : rstr) : Prop :=
  label ≠ [] ∧ label ≠ ADMIN ∧ label ≠ EVERYONE ∧ (∀ rest, label ≠ 37 :: rest) ∧ Forall (λ c, is_control c = false) label.
Record roster_ok (ws : WorkspaceId) (r : Registry) : Prop := {
  ro_keyed : rows_keyed r;
  ro_unique : ∀ label k k', worn r label k → worn r label k' → k = k';
  ro_available : ∀ label k, worn r label k → wearable label;
  ro_home : ∀ label k, worn r label k → rk_workspace_id k = ws ∧ is_admin k = false;
  ro_panes : ∀ k a, rg_panes r !! k = Some a → is_headless k = false;
}.
Lemma list_find_None_values {K A} `{Countable K} (m : gmap K A) (P : A → Prop) `{∀ a, Decision (P a)} :
  list_find P (map_values m) = None ↔ ∀ k a, m !! k = Some a → ¬ P a.
Proof.
  rewrite list_find_None, Forall_forall. setoid_rewrite elem_of_values. naive_solver.
Qed.
(** Nobody else wears the label. *)
Lemma label_holder_None r label k : rows_keyed r →
  label_holder r label (Some k) = None ↔ ∀ k', worn r label k' → k' = k.
Proof.
  intros [Hp _ _ Hh]. unfold label_holder, worn.
  destruct (list_find _ (map_values (rg_panes r))) as [[i a]|] eqn:E1.
  - split; [done|]. intros Hall. exfalso. apply list_find_Some in E1 as (Hi & [Hl Hr] & _).
    apply list_elem_of_lookup_2, elem_of_values in Hi as [k' Hk']. apply Hr.
    pose proof (proj1 (exact_key_Some _ _) (Hp _ _ Hk')) as [-> _]. f_equal. apply Hall. left. by exists a.
  - rewrite list_find_None_values in E1. rewrite fmap_None, list_find_None_values. split.
    + intros H2 k' [(a & Ha & Hl)|(a & Ha & Hl)].
      * pose proof (proj1 (exact_key_Some _ _) (Hp _ _ Ha)) as [Hk _]. specialize (E1 _ _ Ha).
        destruct (decide (k' = k)); [done|]. destruct E1. split; [done|congruence].
      * pose proof (proj1 (headless_key_Some _ _) (Hh _ _ Ha)) as [Hk _]. specialize (H2 _ _ Ha).
        destruct (decide (k' = k)); [done|]. destruct H2. split; [done|congruence].
    + intros Hall k' a Ha [Hl Hn]. pose proof (proj1 (headless_key_Some _ _) (Hh _ _ Ha)) as [Hk _]. apply Hn. rewrite Hk. f_equal.
      apply Hall. right. by exists a.
Qed.

(** Only an adoption puts a label on. *)
Definition adopts (op : RegOp) : bool := match op with OpAdopt _ _ | OpAdoptHeadless _ => true | _ => false end.
Lemma wanted_rows op r c : adopts op = false → wanted op r = Some c →
  (∀ k a, rg_panes c !! k = Some a → ∃ b, rg_panes r !! k = Some b ∧ ad_label b = ad_label a) ∧
  (∀ k a, rg_headless c !! k = Some a → rg_headless r !! k = Some a).
Proof.
  intros Ha Hc. destruct op; cbn [wanted] in Hc; try done.
  - destruct (rg_panes r !! k) as [a|] eqn:Ea; [|done]. cbn in Hc. repeat case_bool_decide; try done. injection Hc as <-. cbn.
    split; [|done]. intros k' b. rewrite lookup_insert_Some. intros [[<- <-]|[_ Hb]]; eauto.
  - destruct (for_route r k root); [|done]. injection Hc as <-. cbn. split; [|done]. intros k' b. rewrite lookup_delete_Some. naive_solver.
  - destruct (for_route r k root) as [a|] eqn:Er; [|done]. apply for_route_Some in Er as [Ea _]. cbn in Hc. case_bool_decide; [done|].
    injection Hc as <-. cbn. split; [|done]. intros k' b. rewrite lookup_insert_Some. intros [[<- <-]|[_ Hb]]; eauto.
  - case_bool_decide; [done|]. destruct (_ || _ || _); [|done]. injection Hc as <-. cbn. split; [|done]. intros k b.
    rewrite lookup_fmap_Some. intros (a & <- & Hk). exists a. split; [done|]. unfold rename_adoption. by case_bool_decide.
  - injection Hc as <-. cbn. split; [|done]. intros k b. rewrite map_lookup_filter_Some. naive_solver.
  - destruct (for_route r k root); [|done]. injection Hc as <-. cbn. split; [|done]. intros k' b. rewrite lookup_delete_Some. naive_solver.
  - apply (wanted_prune r live) in Hc as [-> _]. cbn. split; [|done]. intros k b. rewrite map_lookup_filter_Some. naive_solver.
  - case_bool_decide; [|done]. injection Hc as <-. cbn. split; [eauto|]. intros k' b. rewrite lookup_delete_Some. naive_solver.
  - case_bool_decide; [done|]. injection Hc as <-. cbn. split; [eauto|]. intros k' b. rewrite map_lookup_filter_Some. naive_solver.
Qed.
Lemma roster_ok_shrinks ws r c : roster_ok ws r → rows_keyed c →
  (∀ k a, rg_panes c !! k = Some a → ∃ b, rg_panes r !! k = Some b ∧ ad_label b = ad_label a) →
  (∀ k a, rg_headless c !! k = Some a → rg_headless r !! k = Some a) → roster_ok ws c.
Proof.
  intros [_ Hu Ha Hh Hp] Hk Hps Hhs.
  assert (∀ label k, worn c label k → worn r label k) as Hw.
  { intros label k [(a & Hc & Hl)|(a & Hc & Hl)]; [left|right; eauto]. destruct (Hps _ _ Hc) as (b & ? & ?). exists b. split; [done|congruence]. }
  split; [done|eauto..|]. intros k a Hc. destruct (Hps _ _ Hc) as (b & ? & ?). eauto.
Qed.
(** A label on a key that nobody else wears. *)
Lemma roster_ok_grows ws r c label k : roster_ok ws r → rows_keyed c → (∀ k', worn r label k' → k' = k) →
  wearable label → rk_workspace_id k = ws ∧ is_admin k = false → (∀ k a, rg_panes c !! k = Some a → is_headless k = false) →
  (∀ l k', worn c l k' → worn r l k' ∨ l = label ∧ k' = k) → roster_ok ws c.
Proof.
  intros [_ Hu Ha Hh Hp] Hk Hfree Hav Hws Hps Hw. split; [done| | | |done].
  - intros l k1 k2 [H1|[-> ->]]%Hw [H2|[? ->]]%Hw; subst; eauto. symmetry. eauto.
  - intros l k1 [H1|[-> ->]]%Hw; eauto.
  - intros l k1 [H1|[-> ->]]%Hw; eauto.
Qed.
Section steps.
Context `{RegistryJson}.
Lemma reg_run_roster ws w h op : adopts op = false → roster_ok ws (rh_live h) → roster_ok ws (rh_live (reg_run w h op)).
Proof.
  intros Ha Hr. destruct (reg_run_live w h op) as [->|Hw]; [done|]. destruct (wanted_rows _ _ _ Ha Hw) as [Hp Hh].
  apply (roster_ok_shrinks ws (rh_live h)); [done| |done|done]. eapply wanted_keyed; [|done]. by destruct Hr.
Qed.
Lemma adopt_roster ws w h a chrome k : roster_ok ws (rh_live h) → ad_recipient a = Some k →
  label_holder (rh_live h) (ad_label a) (Some k) = None → wearable (ad_label a) →
  rk_workspace_id k = ws ∧ is_admin k = false → is_headless k = false → roster_ok ws (rh_live (adopt w h a chrome).1).
Proof.
  intros Hr Hk Hf Hav Hws Hnh. change (adopt w h a chrome).1 with (reg_run w h (OpAdopt a chrome)).
  destruct (reg_run_live w h (OpAdopt a chrome)) as [->|Hw]; [done|]. pose proof (ro_keyed _ _ Hr) as Hkd.
  pose proof (wanted_keyed _ _ _ Hkd Hw) as Hkc. revert Hkc Hw. generalize (rh_live (reg_run w h (OpAdopt a chrome))). intros c Hkc Hw.
  rewrite label_holder_None in Hf by done. cbn in Hw. rewrite Hk in Hw. destruct (ad_pane_root a); [|done]. injection Hw as <-.
  apply (roster_ok_grows ws (rh_live h) _ (ad_label a) k); try done; cbn.
  - intros k' b. rewrite lookup_insert_Some. intros [[<- <-]|[_ Hb]]; [done|]. by eapply ro_panes.
  - intros l k' [(b & Hb & Hl)|Hb]; [|by left; right]. cbn in Hb. apply lookup_insert_Some in Hb as [[<- <-]|[_ Hb]]; [by right|]. left. left. eauto.
Qed.
Lemma adopt_headless_roster ws w h a : roster_ok ws (rh_live h) →
  label_holder (rh_live h) (ha_label a) (Some (ha_recipient a)) = None → wearable (ha_label a) →
  rk_workspace_id (ha_recipient a) = ws → roster_ok ws (rh_live (adopt_headless w h a).1).
Proof.
  intros Hr Hf Hav Hws. change (adopt_headless w h a).1 with (reg_run w h (OpAdoptHeadless a)).
  destruct (reg_run_live w h (OpAdoptHeadless a)) as [->|Hw]; [done|]. pose proof (ro_keyed _ _ Hr) as Hkd.
  pose proof (wanted_keyed _ _ _ Hkd Hw) as Hkc. revert Hkc Hw. generalize (rh_live (reg_run w h (OpAdoptHeadless a))). intros c Hkc Hw.
  rewrite label_holder_None in Hf by done. cbn in Hw. destruct (is_headless (ha_recipient a)) eqn:Eh; [|done]. injection Hw as <-.
  apply (roster_ok_grows ws (rh_live h) _ (ha_label a) (ha_recipient a)); try done; cbn.
  - split; [done|]. revert Eh. unfold is_headless, is_admin. by destruct (rk_recipient _).
  - intros k' b Hb. by eapply ro_panes.
  - intros l k' [Hb|(b & Hb & Hl)]; [by left; left|]. cbn in Hb. apply lookup_insert_Some in Hb as [[<- <-]|[_ Hb]]; [by right|]. left. right. eauto.
Qed.
End steps.

(** ** Which pane a recipient is seated at *)
Section seats.
Context (ws : WorkspaceId).
Definition candidate_key (x : MailboxSessionRoute * ObservedPane) : option RecipientKey :=
  recipient_agent ws (sr_instance_id x.1) <$> result_ok (pane_parse (obs_pane_id x.2)).
Definition all_candidates (routes : list MailboxSessionRoute) : list (MailboxSessionRoute * ObservedPane) :=
  routes ≫= λ r, pair r <$> sr_panes r.
(** Every row of every session that claims the recipient, in order. *)
Definition candidates (routes : list MailboxSessionRoute) (k : RecipientKey) : list (MailboxSessionRoute * ObservedPane) :=
  filter (λ x, candidate_key x = Some k) (all_candidates routes).
Definition attached_row (x : MailboxSessionRoute * ObservedPane) : bool := sr_attached x.1.
(** The rows of attached sessions if there are any, else all of them. *)
Definition best_rows (l : list (MailboxSessionRoute * ObservedPane)) : list (MailboxSessionRoute * ObservedPane) :=
  if existsb attached_row l then filter (λ x, attached_row x = true) l else l.
Definition seat (x : MailboxSessionRoute * ObservedPane) : nat * SessionInstanceId * ObservedPane :=
  (sr_session_idx x.1, sr_instance_id x.1, x.2).
Definition same_root (x y : MailboxSessionRoute * ObservedPane) : bool := bool_decide (obs_root x.2 = obs_root y.2).
(** The seat all the best rows agree on. *)
Definition agreed (l : list (MailboxSessionRoute * ObservedPane)) : option MailboxPaneChoice :=
  match best_rows l with
  | [] => None
  | x :: rest => Some (MkChoice (attached_row x) (if forallb (same_root x) rest then Some (seat x) else None))
  end.

Lemma choices_fold routes : choices ws routes = foldl (λ m x, choose_pane ws x.1 m x.2) ∅ (all_candidates routes).
Proof.
  unfold choices, all_candidates. generalize (∅ : gmap RecipientKey MailboxPaneChoice) as m.
  induction routes as [|r routes IH]; intros m; cbn; [done|]. rewrite foldl_app, IH. f_equal.
  generalize (sr_panes r) as l. intros l. revert m. induction l as [|p l IHl]; intros m; cbn; [done|]. apply IHl.
Qed.
Lemma choose_pane_other m x k : candidate_key x ≠ Some k → choose_pane ws x.1 m x.2 !! k = m !! k.
Proof.
  unfold candidate_key, choose_pane. destruct (pane_parse _) as [id|]; cbn; [|done]. intros Hk.
  destruct (m !! recipient_agent ws _ id) as [c|]; [|by rewrite lookup_insert_ne by congruence].
  destruct (_ && _); [by rewrite lookup_insert_ne by congruence|].
  destruct (_ && _); [by rewrite lookup_insert_ne by congruence|done].
Qed.
Lemma best_rows_snoc l x : best_rows (l ++ [x]) =
  if attached_row x then if existsb attached_row l then best_rows l ++ [x] else [x]
  else if existsb attached_row l then best_rows l else best_rows l ++ [x].
Proof.
  unfold best_rows. rewrite existsb_app. cbn. rewrite orb_false_r. destruct (attached_row x) eqn:Ex.
  - rewrite orb_true_r, filter_app, filter_cons_True, filter_nil by done. destruct (existsb attached_row l) eqn:El; [done|].
    rewrite filter_none; [done|]. intros y Hy Ht. apply not_true_iff_false in El. destruct El. apply existsb_exists.
    exists y. split; [by apply list_elem_of_In|done].
  - rewrite orb_false_r. destruct (existsb attached_row l); [|done]. by rewrite filter_app, filter_cons_False, filter_nil, app_nil_r by congruence.
Qed.
Lemma best_rows_attached l y rest : best_rows l = y :: rest → attached_row y = existsb attached_row l.
Proof.
  unfold best_rows. destruct (existsb attached_row l) eqn:E; intros Hy.
  - assert (y ∈ y :: rest) as Hin by left. rewrite <- Hy, list_elem_of_filter in Hin. by destruct Hin.
  - subst l. cbn in E. by apply orb_false_iff in E as [? _].
Qed.
Lemma best_rows_elem l y : y ∈ best_rows l → y ∈ l.
Proof. unfold best_rows. destruct (existsb _ _); [|done]. rewrite list_elem_of_filter. by intros []. Qed.
Lemma best_rows_nil l : best_rows l = [] → l = [].
Proof.
  unfold best_rows. destruct (existsb attached_row l) eqn:E; [|done]. apply existsb_exists in E as (x & Hx & Ht). intros Hn.
  assert (x ∈ filter (λ x, attached_row x = true) l) as Hin by (apply list_elem_of_filter; split; [done|by apply list_elem_of_In]).
  rewrite Hn in Hin. by apply not_elem_of_nil in Hin.
Qed.
Lemma choose_pane_agreed m x k l : candidate_key x = Some k → (∀ y, y ∈ l → candidate_key y = Some k) →
  m !! k = agreed l → choose_pane ws x.1 m x.2 !! k = agreed (l ++ [x]).
Proof.
  intros Hx Hl Hm. unfold candidate_key in Hx. unfold choose_pane. destruct (pane_parse _) as [id|]; [|done]. cbn in Hx. injection Hx as <-.
  cbn zeta. rewrite Hm. unfold agreed at 1 2. rewrite best_rows_snoc. destruct (best_rows l) as [|y rest] eqn:Eb.
  { apply best_rows_nil in Eb as ->. rewrite lookup_insert_eq. by destruct (attached_row x) eqn:E; unfold attached_row in *; cbn; rewrite ?E. }
  assert (sr_instance_id y.1 = sr_instance_id x.1) as Hi.
  { assert (y ∈ l) as Hy by (apply best_rows_elem; rewrite Eb; left). apply Hl in Hy. unfold candidate_key in Hy.
    destruct (pane_parse _); [|done]. cbn in Hy. by injection Hy as ? _. }
  pose proof (best_rows_attached _ _ _ Eb) as Ha. cbn [ch_attached ch_pane]. fold (attached_row x). rewrite <- Ha.
  assert ((if negb match (if forallb (same_root y) rest then Some (seat y) else None) with
                  | Some (_, instance, existing) =>
                      bool_decide (instance = sr_instance_id x.1) && bool_decide (obs_root existing = obs_root x.2)
                  | None => false end
           then <[recipient_agent ws (sr_instance_id x.1) id := MkChoice (attached_row y) None]> m else m)
          !! recipient_agent ws (sr_instance_id x.1) id =
          Some (MkChoice (attached_row y) (if forallb (same_root y) (rest ++ [x]) then Some (seat y) else None))) as Hsame.
  { rewrite forallb_app. cbn [forallb]. rewrite andb_true_r. unfold agreed in Hm. rewrite Eb in Hm.
    destruct (forallb (same_root y) rest); cbn; [|by rewrite lookup_insert_eq].
    rewrite (bool_decide_eq_true_2 _ Hi). cbn. fold (same_root y x). destruct (same_root y x); cbn; [done|by rewrite lookup_insert_eq]. }
  destruct (attached_row x) eqn:Ex, (attached_row y) eqn:Ey; cbn [negb andb app];
    rewrite ?bool_decide_eq_true_2, ?bool_decide_eq_false_2 by done; cbn [andb]; [by rewrite Ey| | |by rewrite Ey].
  - rewrite lookup_insert_eq. cbn. by rewrite Ex.
  - rewrite Hm. unfold agreed. rewrite Eb, Ey. done.
Qed.
Lemma choices_agreed routes k : choices ws routes !! k = agreed (candidates routes k).
Proof.
  rewrite choices_fold. unfold candidates. induction (all_candidates routes) as [|x l IH] using rev_ind.
  - cbn. by rewrite lookup_empty.
  - rewrite foldl_snoc, filter_app. destruct (decide (candidate_key x = Some k)) as [Hx|Hx].
    + rewrite (filter_cons_True _ x []), filter_nil by done. apply choose_pane_agreed; [done| |done].
      intros y. rewrite list_elem_of_filter. by intros [].
    + rewrite (filter_cons_False _ x []), filter_nil, app_nil_r by done. by rewrite choose_pane_other.
Qed.

(** A recipient is seated where every best row agrees.  Over all sessions, the rows of
    attached sessions outrank those of detached ones; the recipient has a seat exactly if
    the best rows that claim it all show the same root process, and the seat is the first
    of them.  Rows that disagree seat nobody, whatever order the sessions come in. *)
Theorem seating_is_agreement routes k : choices ws routes !! k = agreed (candidates routes k).
Proof. apply choices_agreed. Qed.
End seats.

(** ** The agents of a publication *)
Lemma choices_key ws routes k c x : choices ws routes !! k = Some c → ch_pane c = Some x →
  ∃ id, pane_parse (obs_pane_id x.2) = Ok id ∧ k = recipient_agent ws x.1.2 id.
Proof.
  rewrite choices_agreed. unfold agreed. destruct (best_rows _) as [|y rest] eqn:Eb; [done|]. intros [= <-]. cbn.
  destruct (forallb _ _); [|done]. intros [= <-]. cbn.
  assert (y ∈ candidates ws routes k) as Hy by (apply best_rows_elem; rewrite Eb; left).
  apply list_elem_of_filter in Hy as [Hk _]. unfold candidate_key in Hk. destruct (pane_parse _) as [id|]; [|done].
  exists id. split; [done|]. cbn in Hk. by injection Hk as <-.
Qed.
Lemma omap_omap {A B C} (f : A → option B) (g : B → option C) (l : list A) : omap g (omap f l) = omap (λ a, f a ≫= g) l.
Proof. induction l as [|a l IH]; cbn; [done|]. destruct (f a) as [b|]; cbn; [|done]. destruct (g b); cbn; by rewrite IH. Qed.
Lemma omap_keys_NoDup {A K} (f : K * A → option MailboxIdentity) (key : K → RecipientKey → Prop) (l : list (K * A)) :
  (∀ k k' i, key k i → key k' i → k = k') → NoDup l.*1 → (∀ x i, x ∈ l → f x = Some i → key x.1 (id_key i)) → NoDup (id_key <$> omap f l).
Proof.
  intros Hkey. induction l as [|x l IH]; cbn; intros Hnd Hf; [constructor|]. apply NoDup_cons in Hnd as [Hx Hnd].
  assert (NoDup (id_key <$> omap f l)) as Hl by (apply IH; [done|]; intros; apply Hf; [by right|done]).
  destruct (f x) as [i|] eqn:Ef; [|done]. cbn. constructor; [|done]. intros (j & Hj & Hin)%list_elem_of_fmap.
  apply list_elem_of_omap in Hin as (y & Hy & Efy). apply Hx.
  assert (key x.1 (id_key i)) as H1 by (apply Hf; [left|done]). assert (key y.1 (id_key j)) as H2 by (apply Hf; [by right|done]).
  rewrite <- Hj in H2. rewrite (Hkey _ _ _ H1 H2). by apply list_elem_of_fmap_2.
Qed.
Lemma pane_agent_Some ws r x i : pane_agent ws r x = Some i ↔
  ∃ id p root a, pane_parse (obs_pane_id x.2) = Ok id ∧ obs_root x.2 = Some p ∧ process_instance_id p = Some root ∧
    for_route r (recipient_agent ws x.1.2 id) root = Some a ∧ i = MkIdentity (recipient_agent ws x.1.2 id) (ad_label a).
Proof.
  destruct x as [[idx inst] pane]. unfold pane_agent. cbn. split.
  - destruct (pane_parse _) as [id|]; [|done]. destruct (obs_root pane) as [p|]; [|done]. cbn.
    destruct (process_instance_id p) as [root|] eqn:Ep; [|done]. cbn. destruct (for_route _ _ _) as [a|] eqn:E; [|done]. cbn.
    intros [= <-]. by exists id, p, root, a.
  - intros (id & p & root & a & -> & -> & Hp & Hr & ->). cbn. rewrite Hp. cbn. by rewrite Hr.
Qed.

(** ** A roster with unique, available names can always be published *)
Lemma wearable_no_control l : wearable l → existsb is_control l = false.
Proof.
  intros (_ & _ & _ & _ & Hc). apply not_true_iff_false. intros (c & Hin & Ht)%existsb_exists.
  rewrite Forall_forall in Hc. rewrite Hc in Ht by by apply list_elem_of_In. done.
Qed.
Lemma pane_display_inj p q : pane_display p = pane_display q → p = q.
Proof. unfold pane_display. intros [= Hd%dec_string_inj]. by apply bsub_eq. Qed.

Section total.
Context {uuids : Uuids}.
Context (ws : WorkspaceId).
Definition agent_ok (i : MailboxIdentity) : Prop :=
  rk_workspace_id (id_key i) = ws ∧ is_admin (id_key i) = false ∧ wearable (id_label i).
Lemma agent_ok_address i : agent_ok i → label_address i = Some (id_label i).
Proof.
  intros (_ & _ & _ & _ & _ & Hs & _). unfold label_address. destruct (recipient_pane_id _) as [p|]; [|done].
  case_bool_decide as E; [|done]. by destruct (Hs _ E).
Qed.
Lemma add_agents_total agents : Forall agent_ok agents → NoDup (id_key <$> agents) → NoDup (id_label <$> agents) →
  ∃ x, try_fold (add_agent ws) (MkDirectory ws ∅ ∅ ∅, ∅) agents = Ok x.
Proof.
  induction agents as [|i agents IH] using rev_ind; intros Hok Hk Hl; [by eexists|].
  rewrite fmap_app in Hk. rewrite (fmap_app id_label agents [i]) in Hl. apply Forall_app in Hok as [Hok Hi]. inversion Hi as [|? ? Hoki _]; subst.
  apply NoDup_app in Hk as (Hk & Hnk & _). apply NoDup_app in Hl as (Hl & Hnl & _).
  destruct (IH Hok Hk Hl) as [x Hx]. rewrite try_fold_app, Hx. pose proof (add_agents_filed _ _ _ Hx) as Hf. cbn [try_fold].
  pose proof (agent_ok_address _ Hoki) as Ha. destruct Hoki as (Hws & Hadm & Hwear). pose proof (wearable_no_control _ Hwear) as Hctl. destruct Hwear as (Hne & _).
  destruct x as [d c]. unfold add_agent. rewrite bool_decide_eq_false_2 by tauto. rewrite Hadm, Hctl, Ha.
  rewrite (bool_decide_eq_false_2 (id_label i = [])) by done. cbn [orb].
  rewrite bool_decide_eq_false_2.
  2:{ intros [j Hj]. apply (af_addresses _ _ _ Hf) in Hj as [Hj Hja]. rewrite Forall_forall in Hok. rewrite agent_ok_address in Hja by (by apply Hok).
      injection Hja as Hja. apply (Hnl (id_label i)); [rewrite <- Hja; by apply list_elem_of_fmap_2|left]. }
  rewrite bool_decide_eq_false_2; [by eexists|]. intros [j Hj]. apply (af_recipients _ _ _ Hf) in Hj as [Hj Hjk].
  apply (Hnk (id_key i)); [rewrite <- Hjk; by apply list_elem_of_fmap_2|left].
Qed.
Lemma add_panes_total : ∀ (l : list (TmuxPaneId * list MailboxIdentity)) d, NoDup l.*1 →
  (∀ p, p ∈ l.*1 → dy_by_address d !! pane_display p = None) → ∃ d', try_fold add_pane d l = Ok d'.
Proof.
  induction l as [|[p c] l IH]; intros d Hnd Hd; [by eexists|]. cbn in Hnd. apply NoDup_cons in Hnd as [Hp Hnd]. cbn [try_fold].
  assert (dy_by_address d !! pane_display p = None) as Hn by (apply Hd; left).
  assert (∀ q, q ∈ l.*1 → dy_by_address d !! pane_display q = None) as Hd' by (intros q Hq; apply Hd; by right).
  destruct c as [|i [|j c]]; cbn; [by apply IH| |by apply IH]. rewrite Hn. cbn. apply IH; [done|]. cbn. intros q Hq.
  rewrite lookup_insert_ne; [by apply Hd'|]. intros ->%pane_display_inj. done.
Qed.
Lemma directory_new_total agents : Forall agent_ok agents → NoDup (id_key <$> agents) → NoDup (id_label <$> agents) →
  ∃ d, directory_new ws agents = Ok d ∧ directory_of ws agents d.
Proof.
  intros Hok Hk Hl. destruct (add_agents_total _ Hok Hk Hl) as [x Hx]. pose proof (add_agents_filed _ _ _ Hx) as Hf.
  assert (∃ d, directory_new ws agents = Ok d) as [d Hd]; [|exists d; split; [done|by apply directory_new_spec]].
  unfold directory_new. rewrite Hx. apply add_panes_total; [apply NoDup_fst_map_to_list|]. intros p _.
  apply eq_None_not_Some. intros [j Hj]. apply (af_addresses _ _ _ Hf) in Hj as [Hj Hja].
  assert (agent_ok j) as Hoj by (rewrite Forall_forall in Hok; by apply Hok). rewrite (agent_ok_address _ Hoj) in Hja. injection Hja as Hja.
  destruct Hoj as (_ & _ & _ & _ & _ & Hs & _). by destruct (Hs _ Hja).
Qed.
End total.

Lemma NoDup_fmap_elem {A B} (f : A → B) l a b : NoDup (f <$> l) → a ∈ l → b ∈ l → f a = f b → a = b.
Proof.
  intros Hnd [i Hi]%list_elem_of_lookup_1 [j Hj]%list_elem_of_lookup_1 Hab.
  assert (i = j) as ->; [|congruence]. apply (NoDup_lookup (f <$> l) i j (f a)); [done|..]; rewrite list_lookup_fmap.
  - by rewrite Hi.
  - by rewrite Hj, Hab.
Qed.
Section agents.
Context (ws : WorkspaceId) (r : Registry) (Hr : roster_ok ws r) (sessions : list SessionSlot) (proposed : option MailboxRouteOverride).
Let panes := mailbox_panes ws sessions proposed.
Let agents := roster_agents ws r panes.
Lemma mailbox_panes_elem x : x ∈ panes ↔ ∃ k c, choices ws (mailbox_routes sessions proposed) !! k = Some c ∧ ch_pane c = Some x.
Proof.
  unfold panes, mailbox_panes. rewrite list_elem_of_omap. setoid_rewrite merge_sort_Permutation. split.
  - intros ([k c] & Hin & Hc). exists k, c. split; [by apply elem_of_map_to_list|done].
  - intros (k & c & Hk & Hc). exists (k, c). split; [by apply elem_of_map_to_list|done].
Qed.
Lemma roster_agents_elem i : i ∈ agents ↔
  (∃ x, x ∈ panes ∧ pane_agent ws r x = Some i) ∨ (∃ a, rg_headless r !! id_key i = Some a ∧ ha_label a = id_label i).
Proof.
  unfold agents, roster_agents, headless_adoptions. rewrite elem_of_app, list_elem_of_omap, list_elem_of_fmap.
  setoid_rewrite merge_sort_Permutation. apply or_iff_compat_l. split.
  - intros (a & -> & [k Hk]%elem_of_values). exists a. cbn.
    pose proof (proj1 (headless_key_Some _ _) (ky_headless _ (ro_keyed _ _ Hr) _ _ Hk)) as [-> _]. done.
  - intros (a & Ha & Hl). exists a. pose proof (proj1 (headless_key_Some _ _) (ky_headless _ (ro_keyed _ _ Hr) _ _ Ha)) as [Hk _].
    split; [destruct i; cbn in *; congruence|]. apply elem_of_values. eauto.
Qed.
Lemma roster_agents_worn i : i ∈ agents → worn r (id_label i) (id_key i).
Proof.
  intros [(x & _ & Hx)|Ha]%roster_agents_elem; [left|right; done].
  apply pane_agent_Some in Hx as (id & p & root & a & _ & _ & _ & Hf & ->). apply for_route_Some in Hf as [Ha _]. cbn. eauto.
Qed.
Lemma roster_agents_keys : NoDup (id_key <$> agents).
Proof.
  unfold agents, roster_agents, panes, mailbox_panes. rewrite fmap_app, omap_omap. apply NoDup_app. split_and!.
  - apply (omap_keys_NoDup _ eq); [congruence| |].
    + rewrite merge_sort_Permutation. apply NoDup_fst_map_to_list.
    + intros [k c] i Hin. rewrite merge_sort_Permutation, elem_of_map_to_list in Hin. cbn. destruct (ch_pane c) as [x|] eqn:Ec; [|done]. cbn.
      intros (id & p & root & a & Hid & _ & _ & _ & ->)%pane_agent_Some. destruct (choices_key _ _ _ _ _ Hin Ec) as (id' & Hid' & ->). cbn. congruence.
  - intros k Hk Hh. apply list_elem_of_fmap in Hk as (i & -> & Hi). apply list_elem_of_omap in Hi as ([k c] & _ & Hi). cbn in Hi.
    destruct (ch_pane c) as [x|]; [|done]. apply pane_agent_Some in Hi as (id & p & root & a & _ & _ & _ & _ & ->).
    rewrite <- list_fmap_compose in Hh. apply list_elem_of_fmap in Hh as (a' & Hk & Ha). unfold headless_adoptions in Ha.
    rewrite merge_sort_Permutation in Ha. apply elem_of_values in Ha as [k' Hk'].
    pose proof (proj1 (headless_key_Some _ _) (ky_headless _ (ro_keyed _ _ Hr) _ _ Hk')) as [Hke Hhe]. cbn in Hk. by rewrite <- Hke, <- Hk in Hhe.
  - rewrite <- list_fmap_compose. unfold headless_adoptions. rewrite merge_sort_Permutation. unfold map_values. rewrite <- list_fmap_compose.
    rewrite (list_fmap_ext _ fst); [apply NoDup_fst_map_to_list|]. intros j [k a] Hj. cbn.
    apply list_elem_of_lookup_2, elem_of_map_to_list in Hj.
    by pose proof (proj1 (headless_key_Some _ _) (ky_headless _ (ro_keyed _ _ Hr) _ _ Hj)) as [-> _].
Qed.
Lemma roster_agents_labels : NoDup (id_label <$> agents).
Proof.
  apply NoDup_fmap_2_strong; [|by apply (NoDup_fmap_1 id_key), roster_agents_keys]. intros i j Hi Hj Hl.
  apply (NoDup_fmap_elem id_key agents); [apply roster_agents_keys|done|done|].
  apply (ro_unique _ _ Hr (id_label i)); [by apply roster_agents_worn|]. rewrite Hl. by apply roster_agents_worn.
Qed.
Lemma roster_agents_ok : Forall (agent_ok ws) agents.
Proof.
  rewrite Forall_forall. intros i Hi%roster_agents_worn. destruct (ro_home _ _ Hr _ _ Hi) as [? ?]. split_and!; [done|done|].
  by eapply ro_available.
Qed.
End agents.

Section daemon.
Context {V : Type} {serde : Serde V} {codec : LineCodec V} {uuids : Uuids} {digests : Digests} `{RegistryJson}.
Implicit Types dm : DaemonState (V:=V).

(** ** What a publication names *)
Record daemon_ok dm : Prop := {
  dk_roster : roster_ok (dm_workspace_id dm) (live_registry dm);
  dk_messaging : ∀ svc, dm_messaging dm = Some svc → sv_workspace_id svc = dm_workspace_id dm;
}.
(** The recipient is there to be written to under the label: a headless registration, or an
    adopted pane generation seated in some session. *)
Definition reachable dm (k : RecipientKey) (label : rstr) : Prop :=
  (∃ a, rg_headless (live_registry dm) !! k = Some a ∧ ha_label a = label) ∨
  (∃ x id p root a, x ∈ mailbox_panes (dm_workspace_id dm) (dm_sessions dm) None ∧ pane_parse (obs_pane_id x.2) = Ok id ∧
     k = recipient_agent (dm_workspace_id dm) x.1.2 id ∧ obs_root x.2 = Some p ∧ process_instance_id p = Some root ∧
     for_route (live_registry dm) k root = Some a ∧ ad_label a = label).
Lemma next_directory_total dm proposed : roster_ok (dm_workspace_id dm) (live_registry dm) →
  ∃ d, next_directory dm proposed = Ok d ∧
    directory_of (dm_workspace_id dm) (roster_agents (dm_workspace_id dm) (live_registry dm)
      (mailbox_panes (dm_workspace_id dm) (dm_sessions dm) proposed)) d.
Proof.
  intros Hr. unfold next_directory. rewrite (proj2 (list_find_None _ _)).
  2:{ rewrite Forall_forall. intros x (k & c & Hk & Hc)%mailbox_panes_elem. destruct (choices_key _ _ _ _ _ Hk Hc) as (id & -> & _). done. }
  destruct (directory_new_total (dm_workspace_id dm) (roster_agents (dm_workspace_id dm) (live_registry dm)
    (mailbox_panes (dm_workspace_id dm) (dm_sessions dm) proposed))) as (d & -> & Hd);
    [by apply roster_agents_ok|by apply roster_agents_keys|by apply roster_agents_labels|by exists d].
Qed.
Lemma publish_total dm svc proposed : daemon_ok dm → sv_workspace_id svc = dm_workspace_id dm →
  ∃ d, next_directory dm proposed = Ok d ∧
    publish_mailbox_directory dm svc proposed =
      (MkService (sv_workspace_id svc) d (sv_store svc) (sv_poisoned svc) (sv_changes svc), true).
Proof.
  intros [Hr _] Hs. destruct (next_directory_total dm proposed Hr) as (d & Hd & Hdo). exists d. split; [done|].
  unfold publish_mailbox_directory. rewrite Hd. unfold replace_directory. rewrite bool_decide_eq_false_2; [done|].
  rewrite (do_workspace _ _ _ Hdo). auto.
Qed.

Lemma refresh_names dm : daemon_ok dm →
  let '(dm', ok) := refresh_mailbox_directory dm in
  ok = true ∧
  ∀ svc, dm_messaging dm' = Some svc → ∀ k label, k ≠ recipient_admin (dm_workspace_id dm) →
    identity_for_recipient (sv_directory svc) k = Some (MkIdentity k label) ↔ reachable dm k label.
Proof.
  intros Hok. unfold refresh_mailbox_directory. destruct (dm_messaging dm) as [svc|] eqn:Em; [|by split; [|rewrite Em]].
  pose proof (dk_messaging _ Hok _ Em) as Hs. destruct (publish_total dm svc None Hok Hs) as (d & Hd & Hp).
  unfold refresh_mailbox_directory_published. rewrite Hp. split; [done|]. cbn. intros ? [= <-] k label Hk. cbn.
  destruct (next_directory_total dm None (dk_roster _ Hok)) as (d' & Hd' & Hdo). rewrite Hd in Hd'. injection Hd' as <-.
  unfold identity_for_recipient, directory_admin. cbn [id_key]. rewrite (do_workspace _ _ _ Hdo), bool_decide_eq_false_2 by done.
  rewrite (do_recipients _ _ _ Hdo), (roster_agents_elem _ _ (dk_roster _ Hok)). cbn [id_key id_label]. unfold reachable. split.
  - intros [[(x & Hx & Ha)|Ha] _]; [right|left; exact Ha].
    apply pane_agent_Some in Ha as (id & p & root & a & Hid & Hroot & Hproc & Hf & Heq). injection Heq as -> ->. by exists x, id, p, root, a.
  - intros [Ha|(x & id & p & root & a & Hx & Hid & -> & Hroot & Hproc & Hf & <-)]; (split; [|done]); [by right|left].
    exists x. split; [done|]. apply pane_agent_Some. by exists id, p, root, a.
Qed.

Lemma publication_exact dm dm' svc : daemon_ok dm → refresh_mailbox_directory dm = (dm', true) → dm_messaging dm' = Some svc →
  ∀ k label, k ≠ recipient_admin (dm_workspace_id dm) →
    identity_for_recipient (sv_directory svc) k = Some (MkIdentity k label) ↔ reachable dm k label.
Proof. intros Hok Href. pose proof (refresh_names dm Hok) as Hn. rewrite Href in Hn. destruct Hn as [_ Hn]. apply Hn. Qed.

(** [C21.] A roster change is always published, and the directory names exactly who is there.
    In a daemon whose names are unique and available, refreshing the mailbox directory
    never fails, so naming, registering and clearing never answer that a route could not
    be published; afterwards a key other than the operator's is known exactly if it is a
    headless registration or an adopted pane generation some session seats, under the
    label the registry has for it. *)
Theorem publication_names_the_roster dm : daemon_ok dm →
  let '(dm', ok) := refresh_mailbox_directory dm in
  ok = true ∧
  ∀ svc, dm_messaging dm' = Some svc → ∀ k label, k ≠ recipient_admin (dm_workspace_id dm) →
    identity_for_recipient (sv_directory svc) k = Some (MkIdentity k label) ↔ reachable dm k label.
Proof. apply refresh_names. Qed.

(** ** Every operation on the roster *)
Lemma refresh_keeps dm : let dm' := (refresh_mailbox_directory dm).1 in
  dm_registry dm' = dm_registry dm ∧ dm_workspace_id dm' = dm_workspace_id dm ∧
  (is_Some (dm_messaging dm) → is_Some (dm_messaging dm')) ∧
  ((∀ svc, dm_messaging dm = Some svc → sv_workspace_id svc = dm_workspace_id dm) →
   ∀ svc, dm_messaging dm' = Some svc → sv_workspace_id svc = dm_workspace_id dm).
Proof.
  assert (∀ (svc : MailboxService (V:=V)) d, sv_workspace_id (replace_directory svc d).1 = sv_workspace_id svc) as Hrep
    by (intros; unfold replace_directory; by case_bool_decide).
  assert (∀ svc p, sv_workspace_id (publish_mailbox_directory dm svc p).1 = sv_workspace_id svc) as Hpub.
  { intros svc p. unfold publish_mailbox_directory. destruct (next_directory dm p) as [d|]; [|done].
    pose proof (Hrep svc d) as Hd. by destruct (replace_directory svc d) as [svc' []]. }
  unfold refresh_mailbox_directory. destruct (dm_messaging dm) as [svc|] eqn:Em; cbn.
  - assert (sv_workspace_id (refresh_mailbox_directory_published dm svc).1 = sv_workspace_id svc) as Href.
    { unfold refresh_mailbox_directory_published. pose proof (Hpub svc None) as Hp. destruct (publish_mailbox_directory dm svc None) as [svc' []]; [done|].
      destruct (directory_new _ _); [|done]. rewrite <- Hp. apply Hrep. }
    destruct (refresh_mailbox_directory_published dm svc) as [svc' ok]. cbn in *. split_and!; [done|done|by eexists|].
    intros Hs ? [= <-]. rewrite Href. by apply Hs.
  - rewrite Em. by split_and!.
Qed.
(** A daemon with its messaging service, whose publication lock every naming takes. *)
Record serving_ok dm : Prop := { so_ok : daemon_ok dm; so_serving : is_Some (dm_messaging dm) }.
Lemma refresh_ok dm : serving_ok dm → serving_ok (refresh_mailbox_directory dm).1.
Proof.
  intros [[Hr Hm] Hs]. destruct (refresh_keeps dm) as (H1 & H2 & H3 & H4). split; [|auto].
  split; unfold live_registry; rewrite ?H1, ?H2; auto.
Qed.
Lemma set_registry_ok dm h : serving_ok dm → roster_ok (dm_workspace_id dm) (rh_live h) → serving_ok (set_registry dm h).
Proof. intros [[_ Hm] Hs] Hr. by split. Qed.
Lemma reg_run_ok dm w op : adopts op = false → serving_ok dm → serving_ok (set_registry dm (reg_run w (dm_registry dm) op)).
Proof. intros Ha Hok. apply set_registry_ok; [done|]. apply reg_run_roster; [done|]. by destruct Hok as [[]]. Qed.

(** What others may do while the publication lock is held: operations on the registry that put
    no label on, and changes of the sessions. *)
Inductive unpublished_step dm : DaemonState (V:=V) → Prop :=
| UnRegistry w op : adopts op = false → unpublished_step dm (set_registry dm (reg_run w (dm_registry dm) op))
| UnSessions sessions : unpublished_step dm (set_sessions dm sessions).
Lemma unpublished_keep dm dm' : unpublished_step dm dm' →
  (serving_ok dm → serving_ok dm') ∧ dm_workspace_id dm' = dm_workspace_id dm ∧
  ∀ label k, rows_keyed (live_registry dm) → worn (live_registry dm') label k → worn (live_registry dm) label k.
Proof.
  intros [w op Ha|sessions].
  - split_and!; [by apply reg_run_ok|done|]. intros label k _. unfold live_registry. cbn [set_registry dm_registry].
    destruct (reg_run_live w (dm_registry dm) op) as [->|Hw]; [done|]. destruct (wanted_rows _ _ _ Ha Hw) as [Hp Hh].
    intros [(a & Hc & Hl)|(a & Hc & Hl)]; [left|right; eauto]. destruct (Hp _ _ Hc) as (b & ? & ?). exists b. split; [done|congruence].
  - split_and!; [|done|done]. intros [[Hr Hm] Hs]. by split.
Qed.
Lemma unpublished_run dm dm' : rtc unpublished_step dm dm' → serving_ok dm →
  serving_ok dm' ∧ dm_workspace_id dm' = dm_workspace_id dm ∧
  ∀ label k, worn (live_registry dm') label k → worn (live_registry dm) label k.
Proof.
  induction 1 as [dm|dm1 dm2 dm3 Hs _ IH]; intros Hok; [done|]. destruct (unpublished_keep _ _ Hs) as (H1 & H2 & H3).
  destruct (IH (H1 Hok)) as (G1 & G2 & G3). split_and!; [done|congruence|]. intros label k Hw. apply H3; [|by apply G3].
  by destruct Hok as [[[]]].
Qed.

Section published.
Context (between : nat → DaemonState (V:=V) → DaemonState (V:=V)).
(** A publication under the lock of the messaging service. *)
Definition locked : Prop := ∀ n dm, rtc unpublished_step dm (between n dm).
Context (Hlock : locked).
Lemma between_ok n dm : serving_ok dm → serving_ok (between n dm).
Proof. intros Hok. by apply (unpublished_run _ _ (Hlock n dm) Hok). Qed.
Lemma refresh_after_ok dm : serving_ok dm → serving_ok (refresh_after between dm).1.
Proof. intros Hok. unfold refresh_after. by apply refresh_ok, between_ok. Qed.
Lemma retire_ok dm w k : serving_ok dm → serving_ok (headless_retire between w dm k).1.
Proof.
  intros Hok. unfold headless_retire. pose proof (reg_run_ok dm w (OpRetire k) eq_refl Hok) as Hr. cbn in Hr.
  destruct (retire_headless w (dm_registry dm) k) as [h [gone|]]; cbn in *; [by apply refresh_after_ok|done].
Qed.
Lemma refreshed {A} dm (a : A) (e : NameError) : serving_ok dm →
  serving_ok (match refresh_after between dm with (dm', true) => (dm', Ok a) | (dm', false) => (dm', Err e) end).1.
Proof. intros Hok. pose proof (refresh_after_ok dm Hok) as Hr. by destruct (refresh_after between dm) as [dm' []]. Qed.
Lemma commit_adoption_ok dm w a chrome k : serving_ok dm → ad_recipient a = Some k → wearable (ad_label a) →
  rk_workspace_id k = dm_workspace_id dm ∧ is_admin k = false → is_headless k = false →
  serving_ok (commit_adoption_during_publication between w dm a chrome).1.
Proof.
  intros Hok Hk Hav Hws Hh. unfold commit_adoption_during_publication. rewrite Hk.
  destruct (conflicting_label_holder (live_registry dm) (ad_label a) k) as [holder|] eqn:Ec; [done|].
  destruct (unpublished_run _ _ (Hlock 0%nat dm) Hok) as (Hok' & Hid & Hworn). set (dm1 := between 0 dm) in *. cbn zeta.
  assert (label_holder (live_registry dm1) (ad_label a) (Some k) = None) as Hfree.
  { apply label_holder_None; [by destruct Hok' as [[[]]]|]. intros k' Hw. unfold conflicting_label_holder in Ec.
    eapply label_holder_None; [|done|by apply Hworn]. by destruct Hok as [[[]]]. }
  assert (roster_ok (dm_workspace_id dm1) (rh_live (adopt w (dm_registry dm1) a chrome).1)) as Hr
    by (eapply adopt_roster; rewrite ?Hid; eauto; by destruct Hok' as [[Hr _] _]; rewrite Hid in Hr).
  destruct (adopt w (dm_registry dm1) a chrome) as [h [[]|e]]; cbn in Hr; [apply refreshed|cbn]; by apply set_registry_ok.
Qed.
(** A route as [adoption_route] sees it. *)
Definition seen_route dm (s : option RouteSeen) : Prop :=
  match s with
  | None => True
  | Some s => ∃ slot same pane row root, adoption_route dm slot same pane row root = Some s
  end.
Lemma seen_route_key dm s : seen_route dm (Some s) →
  (rk_workspace_id (rs_key s) = dm_workspace_id dm ∧ is_admin (rs_key s) = false) ∧ is_headless (rs_key s) = false.
Proof.
  intros (slot & same & pane & row & root & Hs). unfold adoption_route in Hs. destruct slot as [slot|]; [|done]. cbn in Hs.
  destruct (_ || _); [done|]. destruct (sl_identity slot); [|done]. cbn in Hs. destruct row; [|done]. cbn in Hs.
  destruct (pane_parse pane); [|done]. cbn in Hs. destruct root as [q|]; [|done]. cbn in Hs.
  destruct (process_instance_id q); [|done]. cbn in Hs. injection Hs as <-. done.
Qed.
Lemma label_pane_ok escape_debug dm w session pane_id label manifest first_looked looked first seen again snapshot restored :
  serving_ok dm → seen_route dm seen →
  serving_ok (label_pane escape_debug between w dm session pane_id label manifest first_looked looked first seen again snapshot restored).1.
Proof.
  intros Hok Hs. unfold label_pane. destruct (match label with Some [] | None => None | Some l => Some l end) as [l|].
  - destruct (refusal escape_debug l) eqn:El; [done|]. destruct first; [|done]. destruct (conflicting_label_holder _ _ _); [done|].
    destruct (match manifest with Some _ => _ | None => _ end); [done|]. unfold adopt_pane. destruct seen as [s|]; [|done].
    destruct again as [s'|]; [|done]. destruct (_ || _ || _); [done|]. apply seen_route_key in Hs as [Hk Hh].
    eapply commit_adoption_ok; [done|done| |done|done]. cbn. apply (is_available_spec escape_debug). unfold is_available. by rewrite El.
  - destruct (match manifest with Some _ => _ | None => _ end); [done|]. unfold unadopt_pane. destruct seen as [s|]; [|done].
    destruct (_ && _); [done|]. pose proof (reg_run_ok dm w (OpClear (rs_key s) (rs_root s)) eq_refl Hok) as Hr. cbn in Hr.
    destruct (registry_clear w (dm_registry dm) (rs_key s) (rs_root s)) as [h [[gone|]|e]]; cbn in *; [by apply refreshed|done|done].
Qed.
Lemma headless_for_root_worn dm root a : serving_ok dm → headless_for_root (live_registry dm) root = Some a →
  rk_workspace_id (ha_recipient a) = dm_workspace_id dm.
Proof.
  intros [[Hr _] _]. unfold headless_for_root. destruct (list_find _ _) as [[i b]|] eqn:E; [|done]. intros [= <-].
  apply list_find_Some in E as (Hi & _). apply list_elem_of_lookup_2, elem_of_values in Hi as [k Hk].
  pose proof (proj1 (headless_key_Some _ _) (ky_headless _ (ro_keyed _ _ Hr) _ _ Hk)) as [-> _].
  assert (worn (live_registry dm) (ha_label b) k) as Hw by (right; eauto). by destruct (ro_home _ _ Hr _ _ Hw).
Qed.
Lemma register_published_ok dm w label root boot manifest fresh : serving_ok dm → wearable label →
  serving_ok (register_published between w dm label root boot manifest fresh).1.
Proof.
  intros Hok Hav. unfold register_published.
  assert (∀ k (b : bool), rk_workspace_id k = dm_workspace_id dm →
    serving_ok (match label_holder (live_registry dm) label (Some k) with
      | Some holder => (dm, Err (LabelTaken holder))
      | None => match adopt_headless w (dm_registry dm) (MkHeadlessAdoption label k root boot manifest) with
          | (h, Err e) => (set_registry dm h, Err (CannotRecord e))
          | (h, Ok _) => match refresh_after between (set_registry dm h) with
                         | (dm', true) => (dm', Ok (k, b)) | (dm', false) => (dm', Err NotPublished) end
          end
      end).1) as Hgo.
  { intros k b Hk. destruct (label_holder _ _ _) eqn:El; [done|].
    assert (roster_ok (dm_workspace_id dm) (rh_live (adopt_headless w (dm_registry dm) (MkHeadlessAdoption label k root boot manifest)).1)) as Hr
      by (apply adopt_headless_roster; [by destruct Hok as [[]]|done|done|done]).
    destruct (adopt_headless _ _ _) as [h [[]|e]]; cbn in Hr; [apply refreshed|cbn]; by apply set_registry_ok. }
  destruct (headless_for_root _ _) as [a|] eqn:Ea; apply Hgo; [by eapply headless_for_root_worn|done].
Qed.
Lemma headless_clear_ok dm w looked caller label : serving_ok dm → serving_ok (headless_clear between w dm looked caller label).1.
Proof.
  intros Hok. unfold headless_clear. destruct caller as [[caller|]|]; [|done|done].
  destruct (match label with Some _ => _ | None => _ end) as [k|e]; [|done].
  pose proof (retire_ok dm w k Hok). by destruct (headless_retire between w dm k) as [dm' []].
Qed.
End published.

(** Everything that changes the registry or the sessions of a daemon, one publication at a
    time.  With a messaging service a publication holds its lock; without one nothing is held,
    and others do in between what they like. *)
Definition publication dm (between : nat → DaemonState (V:=V) → DaemonState (V:=V)) : Prop :=
  is_Some (dm_messaging dm) → locked between.
Inductive roster_step dm : DaemonState (V:=V) → Prop :=
| StepLabel escape_debug between w session pane_id label manifest first_looked looked first seen again snapshot restored :
    publication dm between → seen_route dm seen →
    roster_step dm (label_pane escape_debug between w dm session pane_id label manifest first_looked looked first seen again snapshot restored).1
| StepRegister (escape_debug : rstr → rstr) between w label root boot manifest fresh :
    publication dm between → refusal escape_debug label = None →
    roster_step dm (register_published between w dm label root boot manifest fresh).1
| StepHeadlessClear between w looked caller label :
    publication dm between → roster_step dm (headless_clear between w dm looked caller label).1
| StepRetire between w k : publication dm between → roster_step dm (headless_retire between w dm k).1
| StepRegistry w op : adopts op = false → roster_step dm (set_registry dm (reg_run w (dm_registry dm) op))
| StepSessions sessions : roster_step dm (set_sessions dm sessions)
| StepRoute sessions : roster_step dm (update_mailbox_route dm (λ dm, set_sessions dm sessions)).1
| StepTransition proposed sessions : roster_step dm (publish_mailbox_transition dm proposed (λ dm, set_sessions dm sessions)).1.

Lemma arm_runs between dm w k armed : publication dm between → rtc roster_step dm (arm_exit_watcher between w dm k armed).
Proof. intros Hp. destruct armed; cbn; [done|done|by apply rtc_once, StepRetire]. Qed.
(** The handlers of more than one section are runs of these steps, whatever others run in between. *)
Lemma headless_register_runs escape_debug between others w wa wr dm peer label pin found detected boot fresh armed alive :
  (∀ dm, publication dm between) → (∀ n dm, rtc roster_step dm (others n dm)) →
  rtc roster_step dm (headless_register escape_debug between others w wa wr dm peer label pin found detected boot fresh armed alive).1.
Proof.
  intros Hp Ho. unfold headless_register. destruct peer; [|done]. destruct (refusal escape_debug (trim label)) eqn:El; [done|].
  destruct (match pin with Some _ => _ | None => _ end); [done|]. destruct found as [root|pane| |]; try done.
  destruct (match pin with Some _ => _ | None => _ end); [done|]. destruct (process_instance_id root) as [i|]; [|done].
  destruct boot as [b|]; [|done].
  match goal with |- context [register_published between ?w ?dm ?l ?i ?b ?m ?f] =>
    pose proof (StepRegister dm escape_debug between w l i b m f (Hp dm) El) as Hr;
    destruct (register_published between w dm l i b m f) as [dm' [[k is_fresh]|e]] end; cbn in Hr; [|by apply rtc_once].
  apply (rtc_l _ _ _ _ Hr).
  assert (rtc roster_step dm' (if is_fresh then arm_exit_watcher between wa (others 0%nat dm') k armed else dm')) as Ha
    by (destruct is_fresh; [|done]; etrans; [apply Ho|by apply arm_runs]).
  destruct alive; cbn [fst]; [done|]. etrans; [exact Ha|]. etrans; [apply (Ho 1%nat)|].
  by apply rtc_once, StepRetire.
Qed.
Lemma reverify_runs between others w wa dm boot alive armed :
  (∀ dm, publication dm between) → (∀ n dm, rtc roster_step dm (others n dm)) →
  rtc roster_step dm (reverify_at_boot between others w wa dm boot alive armed).1.
Proof.
  intros Hp Ho. unfold reverify_at_boot. pose proof (StepRegistry dm w (OpRetain (survives boot alive)) eq_refl) as Hr. cbn in Hr.
  destruct (retain_headless _ _ _) as [h dropped]. cbn in *. apply (rtc_l _ _ _ _ Hr).
  match goal with |- rtc _ ?dm0 (foldl _ _ ?l0) => generalize dm0, l0 end. clear Hr. intros dm' l. revert dm'.
  induction l as [|[n [w' a]] l IH]; intros dm'; cbn; [done|]. etrans; [apply (Ho n)|]. etrans; [by apply arm_runs|]. apply IH.
Qed.

Lemma transition_ok dm proposed sessions : serving_ok dm →
  serving_ok (publish_mailbox_transition dm proposed (λ dm, set_sessions dm sessions)).1.
Proof.
  intros Hok. pose proof Hok as [[Hr Hm] Hs]. unfold publish_mailbox_transition. destruct (dm_messaging dm) as [svc|] eqn:Em; [|by destruct Hs as [? [=]]].
  assert (sv_workspace_id (publish_mailbox_directory dm svc (Some proposed)).1 = dm_workspace_id dm) as Hp.
  { destruct (publish_total dm svc (Some proposed) (so_ok _ Hok) (dk_messaging _ (so_ok _ Hok) _ Em)) as (d & _ & ->). cbn. exact (Hm _ eq_refl). }
  assert (∀ svc', sv_workspace_id svc' = dm_workspace_id dm → serving_ok (set_messaging dm (Some svc'))) as Hset.
  { intros svc' Hw. split; [split; [done|by intros ? [= <-]]|by eexists]. }
  destruct (publish_mailbox_directory dm svc (Some proposed)) as [svc' []]; cbn in Hp |- *; [|by apply Hset].
  by apply (unpublished_keep _ _ (UnSessions (set_messaging dm (Some svc')) sessions)), Hset.
Qed.
End daemon.

(** ** Two callers and no publication lock *)
Section race.
Context {V : Type} {serde : Serde V} {codec : LineCodec V} {uuids : Uuids} {digests : Digests} `{RegistryJson}.
Implicit Types dm : DaemonState (V:=V).
(** Others that do nothing. *)
Definition calm_between (n : nat) dm : DaemonState (V:=V) := dm.
Lemma adopt_lands h a chrome k : exact_key a = Some k → (∀ r, is_Some (to_string_pretty (file_of r))) →
  ∃ h', adopt WriteLanded h a chrome = (h', Ok ()) ∧ rg_panes (rh_live h') = <[k := a]> (rg_panes (rh_live h)).
Proof.
  intros [Hra [root Ha]]%exact_key_Some Henc. unfold adopt, registry_commit, commit_all. rewrite Hra, Ha.
  match goal with |- context [to_string_pretty (file_of ?c)] => destruct (Henc c) as [t ->] end. by eexists.
Qed.
(** A naming with a free label that nobody's lock protects succeeds. *)
Lemma commit_lands between dm a chrome k : dm_messaging (between 0%nat dm) = None → (∀ dm, between 1%nat dm = dm) →
  rows_keyed (live_registry dm) → exact_key a = Some k → (∀ k', ¬ worn (live_registry dm) (ad_label a) k') →
  (∀ r, is_Some (to_string_pretty (file_of r))) →
  ∃ h', commit_adoption_during_publication between WriteLanded dm a chrome = (set_registry (between 0%nat dm) h', Ok ()) ∧
    rg_panes (rh_live h') = <[k := a]> (rg_panes (live_registry (between 0%nat dm))).
Proof.
  intros Hn H1 Hk Ha Hfree Henc. destruct (adopt_lands (dm_registry (between 0%nat dm)) a chrome k Ha Henc) as (h' & Hh & Hp).
  exists h'. split; [|done]. unfold commit_adoption_during_publication, conflicting_label_holder.
  destruct (proj1 (exact_key_Some _ _) Ha) as [-> _].
  rewrite (proj2 (label_holder_None _ _ _ Hk)) by (intros k' Hw; by destruct (Hfree k' Hw)). cbn zeta. rewrite Hh.
  unfold refresh_after, refresh_mailbox_directory. rewrite H1. cbn [set_registry dm_messaging]. by rewrite Hn.
Qed.
(** The look before the write is not authoritative without a messaging service: nothing is held
    between the two, so while one naming has looked and not written, another with the same
    label runs from start to end, and both are answered that they have it. *)
Theorem unpublished_names_race dm a b chrome chrome' ka kb :
  dm_messaging dm = None → rows_keyed (live_registry dm) → exact_key a = Some ka → exact_key b = Some kb → ka ≠ kb →
  ad_label a = ad_label b → (∀ k, ¬ worn (live_registry dm) (ad_label a) k) → (∀ r, is_Some (to_string_pretty (file_of r))) →
  let second dm := commit_adoption_during_publication calm_between WriteLanded dm b chrome' in
  let '(dm', answer) :=
    commit_adoption_during_publication (λ n dm, if (n =? 0)%nat then (second dm).1 else dm) WriteLanded dm a chrome in
  answer = Ok () ∧ (second dm).2 = Ok () ∧ worn (live_registry dm') (ad_label a) ka ∧ worn (live_registry dm') (ad_label a) kb.
Proof.
  intros Hn Hk Ha Hb Hne Hl Hfree Henc. cbn zeta.
  destruct (commit_lands calm_between dm b chrome' kb) as (h & E & Hp); [done|done|done|done|by rewrite <- Hl|done|].
  change (calm_between 0 dm) with dm in E, Hp.
  destruct (commit_lands (λ n dm, if (n =? 0)%nat then (commit_adoption_during_publication calm_between WriteLanded dm b chrome').1
    else dm) dm a chrome ka) as (h' & E' & Hp'); [cbn [Nat.eqb]; by rewrite E|done|done|done|done|done|].
  rewrite E'. cbn [Nat.eqb] in *. rewrite E in *. cbn [fst snd] in *. split_and!; [done|done| |];
    unfold live_registry; cbn [set_registry dm_registry]; left; [exists a|exists b]; (split; [|done]); rewrite Hp'.
  - apply lookup_insert_eq.
  - rewrite lookup_insert_ne by done. unfold live_registry. cbn [set_registry dm_registry]. rewrite Hp. apply lookup_insert_eq.
Qed.
End race.

(** * Callers and the roster together

    The resolution of a caller ([Roster.v]) joins the process walk ([Callers.v]), the
    registry and the published directory.  Soundness: whoever it answers, the caller's
    process tree was proven to say so.  Completeness: a named agent that is there
    reaches its own mailbox. *)

Section auth.
Context {V : Type} {serde : Serde V} {codec : LineCodec V} {uuids : Uuids} {digests : Digests} `{RegistryJson}.
Implicit Types dm : DaemonState (V:=V).

(** ** Soundness *)
Lemma report_pane_at_Some rows token root row : report_pane_at rows token root = Some row → row ∈ rows ∧ rp_root row = root.
Proof.
  unfold report_pane_at. destruct (parse_usize token) as [i|]; [|done]. cbn. destruct (rows !! N.to_nat i) as [x|] eqn:E; [|done]. cbn.
  case_bool_decide; [|done]. intros [= <-]. split; [by eapply list_elem_of_lookup_2|done].
Qed.

(** [C17.] Nobody is taken for somebody else.  When a request is answered as a mailbox identity,
    there is a chain of at most 32 distinct processes from the peer up, read hop by hop with
    no watched root before its end, and then read again from the peer on, every link of it.
    It is answered as an agent only if a process on the chain was read as a vendor: then the
    chain ends at a watched root, its row is that agent's, the registry still has the row at
    that process generation, and the directory names the recipient.  It is answered as the
    operator only if no process on the chain was read as a vendor, and the chain ends
    at a watched root or, outside every pane, at the top of the process tree, which was
    read twice as well. *)
Theorem caller_is_who_its_chain_says dm k uid is_vendor t peer p alive i :
  workspace_messaging_caller dm k uid is_vendor t (Ok (peer, p)) alive = Ok i →
  let rows := (report_panes dm alive).1 in
  let roots := observed_rows rows in
  let wd := observed_world k uid is_vendor in
  ∃ svc start path, dm_messaging dm = Some svc ∧ proc_of k (5 * t) p = Some start ∧
    head path = Some start ∧ NoDup path ∧ (length path ≤ MAX_ANCESTRY_DEPTH)%nat ∧ climbed wd roots (S t) path ∧
    let second := (S t + 2 * length path)%nat in
    if vendor_read wd (S t) path
    then ∃ row token label root, last path = Some (rp_root row) ∧
           rooted roots (rp_root row) = Some (token, label, rp_root row) ∧ report_pane_at rows token (rp_root row) = Some row ∧
           path_is_current wd (second - 1) path = true ∧ process_instance_id (rp_root row) = Some root ∧
           route_is_current (live_registry dm) (rp_recipient_key row) root = true ∧
           identity_for_recipient (sv_directory svc) (rp_recipient_key row) = Some i
    else i = service_admin svc ∧ ∃ top, last path = Some top ∧
           match rooted roots top with
           | Some _ => path_is_current wd (second - 1) path = true
           | None => wd_parent wd (second - 1) top = Some ParentTop ∧ path_is_current_to_top wd second path = true
           end.
Proof.
  unfold workspace_messaging_caller. destruct (dm_messaging dm) as [svc|]; [|done]. unfold resolve_peer_origin_observed.
  destruct (proc_of k (5 * t) p) as [start|] eqn:Es; [|done]. intros Hi. cbn zeta.
  destruct (origin_chain (observed_world k uid is_vendor) (observed_rows (report_panes dm alive).1) (S t) start)
    as [Ho|(path & Hh & Hnd & Hlen & Hc & Hp)]; [by rewrite Ho in Hi|].
  exists svc, start, path. split_and!; [done..|]. revert Hi Hp.
  destruct (resolve_peer_origin_with _ _ _ _) as [|token label root v|]; cbn [proves resolve_mailbox_identity app orb]; [| |done].
  - intros [= <-] (Hv & (top & Hl & Hr & Ht) & Hcur). rewrite Hv. split; [done|]. exists top. by rewrite Hr.
  - intros Hi (-> & Hl & Hr & Hcur). destruct (vendor_read _ _ path); cbn [negb] in Hi.
    2:{ injection Hi as <-. split; [done|]. exists root. by rewrite Hr. }
    destruct (report_pane_at _ token root) as [row|] eqn:Er; [|done]. cbn in Hi. pose proof (report_pane_at_Some _ _ _ _ Er) as [_ <-].
    destruct (process_instance_id (rp_root row)) as [pi|] eqn:Ep; [|done]. cbn in Hi. destruct (route_is_current _ _ _) eqn:Ec; [|done]. cbn in Hi.
    destruct (identity_for_recipient _ _) as [j|] eqn:Ej; [|done]. injection Hi as <-. by exists row, token, label, pi.
Qed.

(** ** Completeness *)
Lemma parse_usize_dec n : n ≤ u64_max → parse_usize (dec_string n) = Some n.
Proof.
  intros Hn. unfold parse_usize. pose proof (dec_string_digits n) as Hd. pose proof (dec_string_nonempty n) as Hne.
  assert (strip_prefix [43] (dec_string n) = None) as ->.
  { destruct (dec_string n) as [|c s] eqn:E; [done|]. cbn [strip_prefix]. destruct (N.eqb_spec 43 c) as [<-|]; [|done]. by inversion Hd. }
  cbn. rewrite (proj2 (forallb_forall _ _)); [by apply parse_dec_string|]. intros c Hc. rewrite Forall_forall in Hd. apply Hd. by apply list_elem_of_In.
Qed.
(** The token of a row leads back to it. *)
Lemma observed_row_route rows p token label root : N.of_nat (length rows) ≤ u64_max →
  rooted (observed_rows rows) p = Some (token, label, root) → ∃ row, row ∈ rows ∧ rp_root row = p ∧ root = p ∧ report_pane_at rows token root = Some row.
Proof.
  intros Hlen. unfold rooted. destruct (list_find _ _) as [[i x]|] eqn:E; [|done]. cbn. intros [= ->].
  apply list_find_Some in E as (Hi & Hp & _). unfold observed_rows in Hi. rewrite list_lookup_imap in Hi.
  destruct (rows !! i) as [row|] eqn:Er; [|done].
  change (Some (dec_string (N.of_nat i), @None rstr, rp_root row) = Some (token, label, root)) in Hi. injection Hi as Ht <- <-.
  cbn [snd] in Hp. exists row.
  split_and!; [by eapply list_elem_of_lookup_2|done|done|]. unfold report_pane_at.
  rewrite <- Ht, parse_usize_dec by (apply lookup_lt_Some in Er; lia). cbn. rewrite Nat2N.id, Er. cbn. by rewrite bool_decide_eq_true_2.
Qed.
Lemma proc_instance_round root : process_instance_id (proc_id root) = Some root.
Proof.
  unfold process_instance_id, proc_id. cbn [pid birth].
  replace (MkProcessInstance _ _) with (bval root) by by destruct (bval root). apply to_bsub_bval.
Qed.

(** What a row of the process walk stands for. *)
Lemma report_panes_row dm alive row : daemon_ok dm → row ∈ (report_panes dm alive).1 →
  match process_instance_id (rp_root row) with
  | None => rp_label row = None
  | Some root =>
      route_is_current (live_registry dm) (rp_recipient_key row) root = bool_decide (is_Some (rp_label row)) ∧
      ∀ label, rp_label row = Some label → reachable dm (rp_recipient_key row) label ∧ rp_recipient_key row ≠ recipient_admin (dm_workspace_id dm)
  end.
Proof.
  intros Hok. unfold report_panes. cbn. rewrite elem_of_app, list_elem_of_omap, list_elem_of_fmap. intros [([[idx inst] pane] & Hx & Hrow)|(a & -> & Ha)].
  - unfold report_pane in Hrow. destruct (obs_root pane) as [q|] eqn:Eq; [|done]. cbn in Hrow.
    destruct (pane_parse (obs_pane_id pane)) as [id|] eqn:Eid; [|done]. cbn in Hrow. injection Hrow as <-. cbn.
    destruct (process_instance_id q) as [root|] eqn:Ep; cbn; [|done]. unfold route_is_current. cbn.
    destruct (for_route _ _ _) as [a|] eqn:Ef; cbn; [|done]. split; [done|]. intros label [= <-]. split; [|done].
    right. by exists (idx, inst, pane), id, q, root, a.
  - apply list_elem_of_filter in Ha as [_ Ha]. unfold headless_adoptions in Ha. rewrite merge_sort_Permutation in Ha.
    apply elem_of_values in Ha as [kk Hk]. pose proof (proj1 (headless_key_Some _ _) (ky_headless _ (ro_keyed _ _ (dk_roster _ Hok)) _ _ Hk)) as [Hke Hh].
    cbn. rewrite proc_instance_round. unfold route_is_current. rewrite Hke, Hh, Hk. split; [by rewrite !bool_decide_eq_true_2|].
    intros label [= <-]. split; [left; eauto|]. intros ->. done.
Qed.

(** A named agent reaches its own mailbox, and an unnamed one reaches none.  Once the
    roster is published, a vendor found under a row's root is answered as exactly that
    row's recipient under its label; a row whose pane generation nobody adopted is denied. *)
Theorem agent_reaches_its_mailbox dm dm' svc alive p token label root :
  daemon_ok dm → refresh_mailbox_directory dm = (dm', true) → dm_messaging dm' = Some svc →
  let rows := (report_panes dm alive).1 in
  N.of_nat (length rows) ≤ u64_max → rooted (observed_rows rows) p = Some (token, label, root) →
  ∃ row, row ∈ rows ∧ rp_root row = p ∧
    resolve_mailbox_identity dm' rows (OriginPane token label root true) svc =
      match rp_label row with Some name => Ok (MkIdentity (rp_recipient_key row) name) | None => Err OriginDenied end.
Proof.
  intros Hok Href Hsvc rows Hlen Hroot. destruct (observed_row_route _ _ _ _ _ Hlen Hroot) as (row & Hrow & Hp & -> & Hat).
  exists row. split_and!; [done..|]. unfold resolve_mailbox_identity. cbn [negb]. rewrite Hat. cbn [ok_or]. pose proof (report_panes_row dm alive row Hok Hrow) as Hfact.
  destruct (refresh_keeps dm) as (Hreg & _). rewrite Href in Hreg. cbn in Hreg.
  destruct (process_instance_id (rp_root row)) as [pi|]; cbn [ok_or]; [|by rewrite Hfact]. destruct Hfact as [Hcur Hreach].
  assert (live_registry dm' = live_registry dm) as Hlive by (unfold live_registry; by rewrite Hreg). rewrite Hlive, Hcur.
  destruct (rp_label row) as [name|]; [|done]. rewrite bool_decide_eq_true_2 by done. cbn [negb]. destruct (Hreach name eq_refl) as [Hr Hna].
  pose proof (publication_exact dm dm' svc Hok Href Hsvc) as Hex. by rewrite (proj2 (Hex _ _ Hna) Hr).
Qed.
End auth.
