(* ===== verification/Worker.v ===== *)
(** * Notification workers

    [src/cyclopsd/src/delivery/worker.rs] (the per-recipient FIFO and the recovery
    of a failed job) and the registry of workers and runs of
    [src/cyclopsd/src/delivery/mod.rs], with the pre-write transition of
    [src/cyclopsd/src/messaging.rs] that recovery uses.

    Theorems: the worker is a FIFO that neither loses nor repeats a job; a failed
    job is run again only while nothing can have been written, and only once. *)
From S2P Require Import Prelude Text Identity Ledger Journal Mailbox Notification Facts.
From S2P Require Import Facts Projection Attempt Prepared MailboxInv NotificationInv.
From S2P Require Import Invariant Replay Entries Guarantees Store StoreInv StoreOps Scheduler.
From S2P Require Import AttentionRegister NotificationAdapter DeliveryGate Receipt TurnKeys.
From S2P Require Import DeliveryAttempt HookAck.
Local Open Scope N_scope.

(** ** The FIFO *)
(** Handles are named by their references, as in [HookAck]. *)
Record WorkerState := MkWorkerState {
  wk_queue : list N;
  wk_current : option N;
  wk_fault : option rstr;
  wk_empty_restarts : N;
}.
Definition worker_new : WorkerState := MkWorkerState [] None None 0.
Definition enqueue_back (w : WorkerState) (ref : N) : WorkerState :=
  MkWorkerState (wk_queue w ++ [ref]) (wk_current w) (wk_fault w) (wk_empty_restarts w).
Definition owns_job (w : WorkerState) (ref : N) : bool := bool_decide (wk_current w = Some ref).
Definition requeue_current_front (w : WorkerState) (ref : N) : WorkerState * bool :=
  if owns_job w ref
  then (MkWorkerState (ref :: wk_queue w) None (wk_fault w) (wk_empty_restarts w), true)
  else (w, false).
Definition current_or_next (w : WorkerState) : WorkerState * option N :=
  match wk_current w, wk_queue w with
  | Some current, _ => (w, Some current)
  | None, next :: rest => (MkWorkerState rest (Some next) (wk_fault w) (wk_empty_restarts w), Some next)
  | None, [] => (w, None)
  end.
Definition finish (w : WorkerState) (ref : N) : WorkerState * bool :=
  if owns_job w ref then (MkWorkerState (wk_queue w) None (wk_fault w) 0, true) else (w, false).
Definition replace_current (w : WorkerState) (old new : N) : WorkerState * bool :=
  if owns_job w old
  then (MkWorkerState (wk_queue w) (Some new) (wk_fault w) (wk_empty_restarts w), true)
  else (w, false).
Definition is_idle (w : WorkerState) : bool :=
  bool_decide (wk_current w = None) && bool_decide (wk_queue w = []).
Definition set_fault (w : WorkerState) (cause : rstr) : WorkerState :=
  MkWorkerState (wk_queue w) (wk_current w) (Some cause) (wk_empty_restarts w).
Definition is_faulted (w : WorkerState) : bool := bool_decide (is_Some (wk_fault w)).
(** [position_of]: the notifications ahead of [ref]. *)
Fixpoint index_of (ref : N) (l : list N) : option N :=
  match l with
  | [] => None
  | r :: l => if r =? ref then Some 0 else N.succ <$> index_of ref l
  end.
Definition position_of (w : WorkerState) (ref : N) : N :=
  match index_of ref (wk_queue w) with
  | Some i => i + (if wk_current w is Some _ then 1 else 0)
  | None => 0
  end.

(** ** The registry *)
Inductive NotificationEnqueueRefusal := DaemonStopping | WorkerFaulted | WorkerSupervisorExited | AttemptUnowned.
(** A worker and whether its supervisor task has finished. *)
Record NotificationWorker := MkNotificationWorker { nw_worker : WorkerState; nw_task_finished : bool }.
Abbreviation Workers := (gmap RecipientKey NotificationWorker).
Definition SUPERVISOR_EXITED : rstr := str "notification worker supervisor exited".
(** [spawned_finished]: the freshly spawned task had already finished. *)
Definition enqueue_notification_worker (workers : Workers) (stopping : bool) (recipient : RecipientKey)
    (ref : N) (spawned_finished : bool) : Workers * option NotificationEnqueueRefusal :=
  if stopping then (workers, Some DaemonStopping)
  else match workers !! recipient with
  | Some entry =>
      let w := nw_worker entry in
      if nw_task_finished entry then
        (<[recipient := MkNotificationWorker (set_fault w SUPERVISOR_EXITED) true]> workers, Some WorkerSupervisorExited)
      else if is_faulted w then (workers, Some WorkerFaulted)
      else (<[recipient := MkNotificationWorker (enqueue_back w ref) false]> workers, None)
  | None =>
      let w := enqueue_back worker_new ref in
      if spawned_finished then
        (<[recipient := MkNotificationWorker (set_fault w SUPERVISOR_EXITED) true]> workers, Some WorkerSupervisorExited)
      else (<[recipient := MkNotificationWorker w false]> workers, None)
  end.
Definition retire_notification_worker (workers : Workers) (recipient : RecipientKey) : Workers * bool :=
  match workers !! recipient with
  | None => (workers, true)
  | Some entry => if is_idle (nw_worker entry) then (delete recipient workers, true) else (workers, false)
  end.
(** [attempt_of] is the attempt a handle runs. *)
Definition notification_worker_refusal (workers : Workers) (stopping : bool) (recipient : RecipientKey)
    (attempt_id : NotificationAttemptId) (attempt_of : N → option NotificationAttemptId)
    : option NotificationEnqueueRefusal :=
  if stopping then Some DaemonStopping
  else match workers !! recipient with
  | None => Some AttemptUnowned
  | Some entry =>
      if nw_task_finished entry then Some WorkerSupervisorExited
      else if is_faulted (nw_worker entry) then Some WorkerFaulted
      else if existsb (λ r, bool_decide (attempt_of r = Some attempt_id))
                (option_list (wk_current (nw_worker entry)) ++ wk_queue (nw_worker entry))
      then None else Some AttemptUnowned
  end.

(** The runs a claim or a cancellation can reach, by attempt. *)
Abbreviation Runs := (gmap NotificationAttemptId N).
Definition retire_notification_run (runs : Runs) (attempt : NotificationAttemptId) (ref : N) : Runs * bool :=
  if bool_decide (runs !! attempt = Some ref) then (delete attempt runs, true) else (runs, false).
Definition replace_notification_run (runs : Runs) (attempt : NotificationAttemptId) (old new : N) : Runs * bool :=
  if bool_decide (runs !! attempt = Some old) then (<[attempt := new]> runs, true) else (runs, false).

(** ** The worker is a FIFO *)
(** The jobs it still owes, the one in flight first. *)
Definition jobs (w : WorkerState) : list N := option_list (wk_current w) ++ wk_queue w.
Inductive WorkerOp :=
| WkEnqueue (ref : N)
| WkNext
| WkFinish (ref : N)
| WkRequeue (ref : N)
| WkFault (cause : rstr).
(** The worker, every job ever enqueued and every job finished, in order. *)
Definition worker_step (x : WorkerState * list N * list N) (op : WorkerOp) : WorkerState * list N * list N :=
  let '(w, enqueued, finished) := x in
  match op with
  | WkEnqueue ref => (enqueue_back w ref, enqueued ++ [ref], finished)
  | WkNext => ((current_or_next w).1, enqueued, finished)
  | WkFinish ref =>
      let '(w, released) := finish w ref in
      (w, enqueued, if released then finished ++ [ref] else finished)
  | WkRequeue ref => ((requeue_current_front w ref).1, enqueued, finished)
  | WkFault cause => (set_fault w cause, enqueued, finished)
  end.
Lemma worker_step_fifo w enqueued finished op w' enqueued' finished' :
  enqueued = finished ++ jobs w → worker_step (w, enqueued, finished) op = (w', enqueued', finished') →
  enqueued' = finished' ++ jobs w'.
Proof.
  intros ->. destruct w as [queue current fault restarts], op as [ref| |ref|ref|cause]; cbn; intros H; simplify_eq/=.
  - unfold jobs. cbn. by rewrite !app_assoc.
  - destruct current, queue; cbn in *; by simplify_eq/=.
  - unfold finish, owns_job in H. cbn in H. case_bool_decide; simplify_eq/=; [|done].
    unfold jobs. cbn. by rewrite <-app_assoc.
  - unfold requeue_current_front, owns_job. cbn. case_bool_decide; simplify_eq/=; done.
  - done.
Qed.

(** A worker is a FIFO: whatever is enqueued, handed back by a quiesce,
    restarted or faulted, the jobs finished so far followed by those still owed
    are the jobs enqueued, in order; none is lost, repeated or overtaken, and at
    most one is in flight. *)
Theorem worker_is_fifo ops :
  let '(w, enqueued, finished) := foldl worker_step (worker_new, [], []) ops in
  enqueued = finished ++ jobs w.
Proof.
  assert (∀ x, (let '(w, enqueued, finished) := x in enqueued = finished ++ jobs w) →
    let '(w, enqueued, finished) := foldl worker_step x ops in enqueued = finished ++ jobs w) as H.
  { induction ops as [|op ops IH]; intros [[w enqueued] finished] Hx; [done|]. cbn [foldl]. apply IH.
    destruct (worker_step _ op) as [[w' e'] f'] eqn:E. by eapply worker_step_fifo. }
  by apply H.
Qed.

(** A registered worker takes jobs only while it can run them, and is removed
    only when it owes none. *)
Lemma retire_only_idle workers recipient entry workers' :
  workers !! recipient = Some entry → retire_notification_worker workers recipient = (workers', true) →
  jobs (nw_worker entry) = [] ∧ workers' !! recipient = None.
Proof.
  intros He. unfold retire_notification_worker. rewrite He. destruct (is_idle (nw_worker entry)) eqn:Hi; [|done].
  intros [= <-]. unfold is_idle in Hi. bool_facts. split; [|apply lookup_delete_eq].
  unfold jobs. by destruct (nw_worker entry) as [q c f r]; cbn in *; subst.
Qed.

(** ** Recovering a failed job *)
Section recovery.
Context {V : Type} {serde : Serde V} {codec : LineCodec V} {uuids : Uuids} {digests : Digests}.
Implicit Types (s : MessageStore (V:=V)) (cx : NotificationContext).

Inductive MessagingPreWriteBlockOutcome :=
| PwRecorded (attempt_id : NotificationAttemptId) (cause : NotificationPreWriteCause)
| PwObsolete.
Definition prewrite_result (r : MessageStore (V:=V) * answer NotificationRecord)
    (cause : NotificationPreWriteCause) : MessageStore (V:=V) * answer MessagingPreWriteBlockOutcome :=
  match r with
  | (s, Good n) => (s, Good (PwRecorded (nr_attempt_id n) (default cause (nr_pre_write_cause n))))
  | (s, Bad NoLongerCurrentBeforeWrite)
  | (s, Bad (TerminalConflict (Withdrawn | WithdrawnByOperator | Superseded))) => (s, Good PwObsolete)
  | (s, Bad e) => (s, Bad e)
  | (s, Poison) => (s, Poison)
  end.
(** One environment per append. *)
Definition record_prewrite_transition s (env_gating env_block : Env) cx
    (cause : NotificationPreWriteCause) (observation : option NotificationPreWriteObservation)
    (ensure_gating : bool) : MessageStore (V:=V) * answer MessagingPreWriteBlockOutcome :=
  let block s :=
    record_pre_write_block_with_wake_block s env_block cx cause observation
      (if bool_decide (cause = ComposerOwnershipUnproven) then Some WakeComposerOwnershipUnproven else None) in
  prewrite_result
    (if ensure_gating then
       match record_gating s env_gating cx with
       | (s, Good _) => block s
       | r => r
       end
     else block s) cause.
Definition record_worker_failed_prewrite s (env_gating env_block : Env) cx
    : MessageStore (V:=V) * answer MessagingPreWriteBlockOutcome :=
  record_prewrite_transition s env_gating env_block cx WorkerFailed None true.
(** [record_notification_prewrite_block]: a readiness race keeps the route it was
    refused under. *)
Definition record_notification_prewrite_block s (env : Env) cx (cause : NotificationPreWriteCause)
    (observation : option NotificationPreWriteObservation) (route_evidence : NotificationRouteEvidenceId)
    : MessageStore (V:=V) * answer MessagingPreWriteBlockOutcome :=
  let observation :=
    if bool_decide (cause = WriteReadinessChanged) && bool_decide (observation = None)
    then Some (MkPreWriteObservation None None None None (Some route_evidence) None None)
    else observation in
  record_prewrite_transition s env env cx cause observation false.

Record Daemon := MkDaemon {
  da_store : MessageStore (V:=V);
  da_engine : Engine;
  da_runs : Runs;
  da_worker : WorkerState;
}.
Definition with_worker (d : Daemon) (w : WorkerState) : Daemon :=
  MkDaemon (da_store d) (da_engine d) (da_runs d) w.
Definition with_store (d : Daemon) s : Daemon := MkDaemon s (da_engine d) (da_runs d) (da_worker d).
Definition RECOVERY_FAILED : rstr := str "notification recovery failed: ".
Definition faulted (d : Daemon) (cause : rstr) : Daemon * bool :=
  (with_worker d (set_fault (da_worker d) cause), false).
(** [worker.finish(handle); engine.retire_notification_run(handle); true]. *)
Definition release_job (d : Daemon) (ref : N) (cx : NotificationContext) : Daemon * bool :=
  (MkDaemon (da_store d) (da_engine d) (retire_notification_run (da_runs d) (nc_attempt_id cx) ref).1
     (finish (da_worker d) ref).1, true).
Definition restart_job (d : Daemon) (ref fresh : N) (h : DeliveryHandle) : Daemon * bool :=
  let cx := dh_context h in
  let copy := for_notification (dh_to h) (sb_pane_id (dh_submitted h)) (sb_session_idx (dh_submitted h)) cx (dh_raw h) in
  let copy := MkHandle (dh_context copy) (dh_to copy) (dh_payload copy) (dh_transport copy) (dh_hs copy)
                (dh_submitted copy) (dh_write_boundary_crossed copy) 1 (dh_raw copy) in
  let e := put (da_engine d) fresh copy in
  let lost w := faulted (MkDaemon (da_store d) e (da_runs d) w) (str "notification recovery lost exact job ownership") in
  match replace_current (da_worker d) ref fresh with
  | (w, true) =>
      match replace_notification_run (da_runs d) (nc_attempt_id cx) ref fresh with
      | (runs, true) => (MkDaemon (da_store d) e runs w, true)
      | (_, false) =>
          let '(d, r) := lost w in (with_worker d (finish (da_worker d) fresh).1, r)
      end
  | (w, false) => let '(d, r) := lost w in (with_worker d (finish (da_worker d) fresh).1, r)
  end.
Definition post_write_from : list DeliveryState := [DPasting; DStaged; DSubmitted; DRetryQueued].
Definition advance_ref (e : Engine) (ref : N) (from : list DeliveryState) (step : Step) (now : N) : Engine :=
  update e (λ h, (advance h from step now).1.1) ref.

(** [recover_failed_job]; [fresh] names the handle a restart allocates, [messaging]
    says whether the workspace's messaging is there.  The [bool] restarts the
    worker's loop. *)
Definition recover_failed_job (d : Daemon) (env_gating env_block : Env) (ref fresh : N) (messaging : bool)
    (now : N) : Daemon * bool :=
  match en_handles (da_engine d) !! ref with
  | None => (d, false)
  | Some h =>
      let recovery := dh_worker_recoveries h in
      let counted_handle := MkHandle (dh_context h) (dh_to h) (dh_payload h) (dh_transport h) (dh_hs h)
        (dh_submitted h) (dh_write_boundary_crossed h) (recovery + 1) (dh_raw h) in
      let d := MkDaemon (da_store d) (put (da_engine d) ref counted_handle) (da_runs d) (da_worker d) in
      let cx := dh_context h in
      match current_record (da_store d) cx with
      | Good current =>
          if negb (owns cx current) then release_job d ref cx
          else match nr_state current with
          | Queued | Gating =>
              if recovery =? 0 then restart_job d ref fresh h
              else if negb messaging
              then faulted d (str "notification recovery has no workspace messaging Module")
              else match record_worker_failed_prewrite (da_store d) env_gating env_block cx with
              | (s, Good _) => release_job (with_store d s) ref cx
              | (s, _) => faulted (with_store d s) RECOVERY_FAILED
              end
          | Writing | Staged | Submitting | Submitted =>
              match record_attention (da_store d) env_block cx TransportOutcomeUnknown with
              | (s, Good _) =>
                  let e := unregister_ack (da_engine d) ref (handle_pane h) in
                  let e := advance_ref e ref post_write_from
                    (step_cause DAttentionRequired (str "worker_failed_after_write")) now in
                  release_job (MkDaemon s e (da_runs d) (da_worker d)) ref cx
              | (s, _) => faulted (with_store d s) RECOVERY_FAILED
              end
          | Notified =>
              let e := unregister_ack (da_engine d) ref (handle_pane h) in
              let e := advance_ref e ref [DSubmitted]
                (MkStep DDeliveredUnverified (Some (str "worker_recovered_notified")) (Some VerifiedScreen) None None) now in
              release_job (MkDaemon (da_store d) e (da_runs d) (da_worker d)) ref cx
          | BlockedPreWrite | QuotaHeld | QuotaResetObserved | SubmittedUnverified | AttentionRequired
          | Withdrawn | WithdrawnAfterStaging | WithdrawnByOperator | Superseded => release_job d ref cx
          end
      | _ => faulted d RECOVERY_FAILED
      end
  end.
(** [recover_outer_worker]: the loop itself failed. *)
Definition recover_outer_worker (d : Daemon) (env_gating env_block : Env) (fresh : N) (messaging : bool)
    (now : N) : Daemon * bool :=
  match current_or_next (da_worker d) with
  | (w, Some ref) => recover_failed_job (with_worker d w) env_gating env_block ref fresh messaging now
  | (w, None) =>
      if wk_empty_restarts w =? 0
      then (with_worker d (MkWorkerState (wk_queue w) (wk_current w) (wk_fault w) 1), true)
      else faulted (with_worker d w) (str "worker loop failed repeatedly without an owned job")
  end.

(** ** What recovery guarantees *)
Context {codec_laws : LineCodecLaws V} {serde_laws : SerdeLaws V} {storable_laws : StorableLaws}.

Lemma record_attention_Good ws rows s env cx cause s' n :
  store_ok ws s rows → message_id_valid (nc_message_id cx) → env_now env ≤ u64_max →
  record_attention s env cx cause = (s', Good n) →
  current_of s' cx = Some n ∧ nr_state n = AttentionRequired ∧
  ((∃ c, current_of s cx = Some c ∧ nr_state c = AttentionRequired) ∨ nr_cause n = Some cause).
Proof.
  intros Hok Hid Henv. unfold record_attention, record_terminal, advance_locked.
  destruct (current_of s cx) as [c|] eqn:Hc; [|done]. destruct (owns cx c); [cbn [negb]|done].
  case_bool_decide as Hs; [intros [= <- <-]; by eauto 10|].
  destruct (is_terminal (nr_state c)); [done|]. intros H%from_store_Good.
  destruct (transition_current _ _ _ _ cx _ _ _ Hok Hid Henv H eq_refl eq_refl)
    as (c' & line & _ & -> & Hcur); [done|]. split_and!; [done|done|by right].
Qed.
Lemma release_job_spec d ref cx :
  wk_current (da_worker d) = Some ref →
  wk_current (da_worker (release_job d ref cx).1) = None ∧ da_store (release_job d ref cx).1 = da_store d.
Proof.
  intros Hc. unfold release_job, finish, owns_job. by rewrite Hc, bool_decide_eq_true_2.
Qed.
Lemma restart_job_spec d ref fresh h d' :
  wk_current (da_worker d) = Some ref → restart_job d ref fresh h = (d', true) →
  wk_current (da_worker d') = Some fresh ∧ da_store d' = da_store d ∧
  ∃ h', en_handles (da_engine d') !! fresh = Some h' ∧ dh_worker_recoveries h' = 1 ∧
    dh_context h' = dh_context h ∧ handle_state h' = DQueued ∧ dh_write_boundary_crossed h' = false.
Proof.
  intros Hc. unfold restart_job, replace_current, owns_job, replace_notification_run, faulted.
  rewrite Hc, bool_decide_eq_true_2 by done. case_bool_decide; [|done]. intros [= <-]. cbn.
  split_and!; [done|done|]. eexists. by rewrite lookup_insert_eq.
Qed.

(** The states recovery alarms about: the payload may be in the composer. *)
Definition write_in_doubt (st : NotificationState) : bool :=
  match st with Writing | Staged | Submitting | Submitted => true | _ => false end.
(** What recovery leaves in the journal of the attempt it releases in state [st]. *)
Definition released_as (d d' : Daemon) (env_gating env_block : Env) (h : DeliveryHandle) (st : NotificationState) : Prop :=
  if write_in_doubt st then
    ∃ n, current_of (da_store d') (dh_context h) = Some n ∧ nr_state n = AttentionRequired ∧
      nr_cause n = Some TransportOutcomeUnknown
  else if resumable st then
    dh_worker_recoveries h ≠ 0 ∧
    ∃ o, record_worker_failed_prewrite (da_store d) env_gating env_block (dh_context h) = (da_store d', Good o)
  else da_store d' = da_store d.

Lemma restart_job_fault d ref fresh h d' :
  wk_current (da_worker d) = Some ref → restart_job d ref fresh h = (d', false) →
  is_faulted (da_worker d') = true ∧ wk_current (da_worker d') = None.
Proof.
  intros Hc. unfold restart_job, replace_current, owns_job, replace_notification_run, faulted.
  rewrite Hc, bool_decide_eq_true_2 by done. case_bool_decide; [done|]. intros [= <-]. cbn.
  unfold finish, owns_job. cbn. by rewrite bool_decide_eq_true_2.
Qed.


(** A submission whose staging was never verified is released as if it were
    settled: its durable state stays in flight, with no receipt and no alarm. *)
Theorem unverified_submission_is_abandoned d env_gating env_block ref fresh messaging now h c :
  en_handles (da_engine d) !! ref = Some h → wk_current (da_worker d) = Some ref →
  current_of (da_store d) (dh_context h) = Some c → owns (dh_context h) c = true →
  nr_state c = SubmittedUnverified →
  ∃ d', recover_failed_job d env_gating env_block ref fresh messaging now = (d', true) ∧
    da_store d' = da_store d ∧ wk_current (da_worker d') = None ∧ wk_fault (da_worker d') = wk_fault (da_worker d) ∧
    left_ambiguous (nr_state c) = true ∧ undelivered_state (nr_state c) = true.
Proof.
  intros Hh Hw Hc Ho Hs. unfold recover_failed_job. rewrite Hh. unfold current_record. cbn [da_store].
  rewrite Hc, Ho, Hs. cbn [negb]. eexists. split; [done|].
  unfold release_job, finish, owns_job. cbn. by rewrite Hw, bool_decide_eq_true_2.
Qed.
End recovery.
