(* ===== verification/ControlStream.v ===== *)
(** * The control-mode stream

    [src/cyclops-tmux/src/control.rs]: reading the output of [tmux -C] as byte
    lines ([read_control_line]) and routing a line ([LineRouter]): a reply block, or
    a notification; and the error type of the adapter ([error.rs]).

    A reader is the list of the buffers its pipe hands out, each nonempty; the list's
    end is the end of the file.  Theorems: how the bytes were cut does not show in
    the lines; a block reads back as its content whatever the content looks like, as
    long as no line closes the block's own number, and a block over the envelope is
    refused and never cut short. *)
From S2P Require Import Prelude Text Identity Utf8 TmuxText.
Local Open Scope N_scope.

(** ** Errors ([error.rs]) *)
Inductive TmuxError :=
| TmuxSpawn (text : rstr)
| TmuxIo
| TmuxWriteUncertain
| TmuxCommand (reply : rstr)
| TmuxProtocol (why : rstr)
| TmuxDisconnected
| TmuxBusy
| TmuxLayout (sentence : rstr)
| TmuxTimeout (cmd : rstr).

(** ** Bounds *)
Definition CONTROL_LINE_MAX_BYTES : N := 1048576.
Definition CONTROL_BLOCK_MAX_BYTES : N := 8388608.
Definition CONTROL_BLOCK_MAX_LINES : N := 65536.
Definition usize_max : N := u64_max.
Definition saturating_add_usize (a b : N) : N := N.min usize_max (a + b).
Definition len {A} (l : list A) : N := N.of_nat (length l).

(** ** Reading a line *)
(** [position] of a byte. *)
Fixpoint byte_position (b : N) (bytes : list N) : option nat :=
  match bytes with
  | [] => None
  | c :: rest => if c =? b then Some 0%nat else S <$> byte_position b rest
  end.
(** [None] is the error of a line that is too long; a failing read ends the loop alike. *)
Fixpoint read_control_line (reader : list (list N)) (line : list N) : option (list N * list (list N)) :=
  match reader with
  | [] => Some (line, [])
  | available :: rest =>
      if bool_decide (available = []) then Some (line, reader)
      else
        let newline := byte_position 10 available in
        let take_n := match newline with Some i => S i | None => length available end in
        if CONTROL_LINE_MAX_BYTES <? saturating_add_usize (len line) (N.of_nat take_n) then None
        else
          let line := line ++ take take_n available in
          match newline with
          | Some _ => Some (line, match drop take_n available with [] => rest | kept => kept :: rest end)
          | None => read_control_line rest line
          end
  end.
Definition pop_newline (line : list N) : list N := default line (strip_suffix [10] line).
(** Why the reader's loop ended by itself: the pipe was at its end, or the read failed. *)
Inductive StreamEnd := StreamEof | StreamFailed.
(** The lines the reader's loop takes until the stream ends. *)
Fixpoint control_lines (fuel : nat) (reader : list (list N)) : option (list (list N) * StreamEnd) :=
  match fuel with
  | O => None
  | S fuel =>
      match read_control_line reader [] with
      | None => Some ([], StreamFailed)
      | Some ([], _) => Some ([], StreamEof)
      | Some (line, rest) => '(lines, e) ← control_lines fuel rest; Some (pop_newline line :: lines, e)
      end
  end.

(** ** Routing a line *)
Record OpenBlock := MkOpenBlock { ob_client : bool; ob_command : option N; ob_lines : list rstr; ob_bytes : N }.
Inductive Routed :=
| RNotify (n : TmuxNotification)
| RReply (client : bool) (outcome : result rstr (list rstr))
| RBlockOverflow.
Definition LineRouter : Type := option OpenBlock.
Definition line_router_new : LineRouter := None.
Definition block_field (rest : list N) (n : nat) : option (list N) :=
  List.filter (λ f, negb (bool_decide (f = []))) (split_char 32 rest) !! n.
Definition block_num (rest : list N) : option N :=
  f ← block_field rest 1; s ← utf8_decode f; parse_u64 s.
(** A line of an open block that does not close it. *)
Definition collect_line (b : OpenBlock) (line : list N) : LineRouter * option Routed :=
  let next_bytes := saturating_add_usize (saturating_add_usize (ob_bytes b) (len line)) 1 in
  if (CONTROL_BLOCK_MAX_LINES <=? len (ob_lines b)) || (CONTROL_BLOCK_MAX_BYTES <? next_bytes) then (None, Some RBlockOverflow)
  else (Some (MkOpenBlock (ob_client b) (ob_command b) (ob_lines b ++ [from_utf8_lossy line]) next_bytes), None).
Definition end_tail (line : list N) : option (list N) :=
  match strip_prefix (str "%end ") line with
  | Some rest => Some rest
  | None => if bool_decide (line = str "%end") then Some [] else None
  end.
Definition feed (router : LineRouter) (line : list N) : LineRouter * option Routed :=
  match router with
  | Some b =>
      match end_tail line with
      | Some rest =>
          if bool_decide (block_num rest = ob_command b) then (None, Some (RReply (ob_client b) (Ok (ob_lines b))))
          else collect_line b line
      | None =>
          match strip_prefix (str "%error ") line with
          | Some rest =>
              if bool_decide (block_num rest = ob_command b)
              then (None, Some (RReply (ob_client b) (Err (join [10] (ob_lines b)))))
              else collect_line b line
          | None => collect_line b line
          end
      end
  | None =>
      match strip_prefix (str "%begin ") line with
      | Some rest => (Some (MkOpenBlock (bool_decide (block_field rest 2 = Some (str "1"))) (block_num rest) [] 0), None)
      | None => (None, Some (RNotify (parse_notification_bytes line)))
      end
  end.
(** What a sequence of lines routes to. *)
Fixpoint feed_all (router : LineRouter) (lines : list (list N)) : LineRouter * list Routed :=
  match lines with
  | [] => (router, [])
  | line :: lines =>
      let '(router, routed) := feed router line in
      let '(router, more) := feed_all router lines in
      (router, option_list routed ++ more)
  end.

(** * Properties of the control-mode stream *)

Lemma len_app {A} (a b : list A) : len (a ++ b) = len a + len b.
Proof. unfold len. rewrite length_app. lia. Qed.
Lemma len_cons {A} (x : A) l : len (x :: l) = 1 + len l.
Proof. unfold len. cbn [length]. lia. Qed.
Lemma saturating_over m a b : m < usize_max → (m <? saturating_add_usize a b) = (m <? a + b).
Proof. intros Hm. unfold saturating_add_usize. destruct (N.ltb_spec m (a + b)), (N.ltb_spec m (N.min usize_max (a + b))); lia. Qed.

(** ** Lines *)
Lemma byte_position_spec b bytes :
  match byte_position b bytes with
  | Some i => bytes = (take i bytes ++ b :: drop (S i) bytes) ∧ b ∉ take i bytes ∧ (i < length bytes)%nat
  | None => b ∉ bytes
  end.
Proof.
  induction bytes as [|c bytes IH]; cbn; [set_solver|]. destruct (N.eqb_spec c b) as [->|Hne]; cbn.
  - split_and!; [done|set_solver|lia].
  - destruct (byte_position b bytes) as [i|]; cbn; [|set_solver].
    destruct IH as (He & Hn & Hi). split_and!; [by rewrite <- He|set_solver|lia].
Qed.
Lemma cut_unique {A} `{!EqDecision A} (c : A) a b x y : c ∉ a → c ∉ x → a ++ c :: b = x ++ c :: y → a = x ∧ b = y.
Proof.
  intros Ha Hx He. destruct (app_eq_inv _ _ _ _ He) as [([|d k] & -> & Hk)|([|d k] & -> & Hk)]; simplify_list_eq; try done;
    set_solver.
Qed.
Lemma notin_prefix {A} `{!EqDecision A} (c : A) p q a b :
  c ∉ p → p ++ q = a ++ c :: b → ∃ a', a = p ++ a' ∧ q = (a' ++ c :: b).
Proof.
  intros Hp He. destruct (app_eq_inv _ _ _ _ He) as [([|d k] & -> & Hk)|(k & -> & Hk)]; simplify_list_eq.
  - exists []. by rewrite app_nil_r.
  - set_solver.
  - by exists k.
Qed.
Definition buffers (reader : list (list N)) : Prop := Forall (λ c, c ≠ []) reader.
(** One call takes up to a newline, wherever the buffers end. *)
Lemma read_line_newline reader a b line :
  buffers reader → mjoin reader = a ++ 10 :: b → 10 ∉ a →
  if CONTROL_LINE_MAX_BYTES <? len line + len a + 1 then read_control_line reader line = None
  else ∃ rest, read_control_line reader line = Some (line ++ a ++ [10], rest) ∧ buffers rest ∧ mjoin rest = b.
Proof.
  revert a line. induction reader as [|c reader IH]; intros a line Hb Hj Ha; [by destruct a|].
  apply Forall_cons in Hb as [Hc Hb]. cbn [read_control_line]. rewrite bool_decide_eq_false_2 by done.
  change (mjoin (c :: reader)) with (c ++ mjoin reader) in Hj.
  pose proof (byte_position_spec 10 c) as Hp. rewrite saturating_over by done.
  destruct (byte_position 10 c) as [i|].
  - destruct Hp as (He & Hn & Hi).
    destruct (cut_unique 10 a b (take i c) (drop (S i) c ++ mjoin reader)) as [-> ->]; [done..| |].
    { rewrite <- Hj. rewrite He at 1. by rewrite <- app_assoc. }
    rewrite (take_S_r _ _ 10).
    2:{ rewrite He at 1. apply list_lookup_middle. rewrite length_take. lia. }
    replace (N.of_nat (S i)) with (len (take i c) + 1) by (unfold len; rewrite length_take; lia). rewrite N.add_assoc.
    destruct (_ <? _); [done|]. eexists. split; [done|].
    destruct (drop (S i) c) as [|x l] eqn:E; [done|]. split; [by constructor|]. cbn. done.
  - destruct (notin_prefix _ _ _ _ _ Hp Hj) as (a' & -> & Hj').
    assert (Hlen : len line + len (c ++ a') + 1 = len (line ++ c) + len a' + 1) by (rewrite !len_app; lia).
    rewrite Hlen. specialize (IH a' (line ++ c) Hb Hj' ltac:(set_solver)).
    rewrite firstn_all. fold (len c).
    destruct (N.ltb_spec CONTROL_LINE_MAX_BYTES (len line + len c)) as [Hover|_].
    + rewrite (proj2 (N.ltb_lt _ _)); [done|]. rewrite len_app. lia.
    + destruct (_ <? len (line ++ c) + len a' + 1); [done|].
      destruct IH as (rest & -> & ? & ?). exists rest. by rewrite <- !app_assoc.
Qed.
(** What is left without a newline is the last line. *)
Lemma read_line_last reader line :
  buffers reader → 10 ∉ mjoin reader →
  (CONTROL_LINE_MAX_BYTES <? len line) = false →
  read_control_line reader line =
    if CONTROL_LINE_MAX_BYTES <? len line + len (mjoin reader) then None else Some (line ++ mjoin reader, []).
Proof.
  revert line. induction reader as [|c reader IH]; intros line Hb Hn Hl.
  - cbn [read_control_line mjoin list_join concat]. change (len []) with 0. by rewrite N.add_0_r, Hl, app_nil_r.
  - apply Forall_cons in Hb as [Hc Hb]. cbn [read_control_line]. rewrite bool_decide_eq_false_2 by done.
    change (mjoin (c :: reader)) with (c ++ mjoin reader) in *.
    pose proof (byte_position_spec 10 c) as Hp. rewrite saturating_over by done.
    destruct (byte_position 10 c) as [i|]; [destruct Hp as (He & _); rewrite He in Hn; set_solver|].
    rewrite firstn_all. fold (len c). rewrite <- len_app.
    destruct (N.ltb_spec CONTROL_LINE_MAX_BYTES (len (line ++ c))) as [Hover|Hin].
    + rewrite (proj2 (N.ltb_lt _ _)); [done|]. rewrite !len_app in *. lia.
    + rewrite IH; [|done|set_solver|by apply N.ltb_ge]. by rewrite !len_app, <- app_assoc, N.add_assoc.
Qed.

(** What the stream says, whatever its buffers: the pieces between newlines. *)
Fixpoint cut_lines (pieces : list (list N)) : list (list N) * StreamEnd :=
  match pieces with
  | [] => ([], StreamEof)
  | piece :: pieces =>
      match pieces with
      | [] =>
          if bool_decide (piece = []) then ([], StreamEof)
          else if CONTROL_LINE_MAX_BYTES <? len piece then ([], StreamFailed) else ([piece], StreamEof)
      | _ =>
          if CONTROL_LINE_MAX_BYTES <? len piece + 1 then ([], StreamFailed)
          else let '(lines, e) := cut_lines pieces in (piece :: lines, e)
      end
  end.
Definition stream_lines (bytes : list N) : list (list N) * StreamEnd := cut_lines (split_char 10 bytes).

Lemma split_char_cases c (s : list N) :
  (c ∉ s ∧ split_char c s = [s]) ∨ ∃ a b, s = (a ++ c :: b) ∧ c ∉ a ∧ split_char c s = a :: split_char c b.
Proof.
  destruct (decide (c ∈ s)) as [Hin|Hn]; [right|left; split; [done|by apply split_char_notin]].
  apply list_elem_of_split_l in Hin as (a & b & -> & Ha). exists a, b. split_and!; [done..|by apply split_char_app].
Qed.
Lemma split_char_nonnil c (s : list N) : split_char c s ≠ [].
Proof. destruct (split_char_cases c s) as [[_ ->]|(a & b & _ & _ & ->)]; done. Qed.
Lemma control_lines_spec fuel reader :
  buffers reader → (length (mjoin reader) < fuel)%nat → control_lines fuel reader = Some (stream_lines (mjoin reader)).
Proof.
  revert reader. induction fuel as [|fuel IH]; intros reader Hb Hf; [lia|]. cbn [control_lines]. unfold stream_lines.
  destruct (split_char_cases 10 (mjoin reader)) as [[Hn ->]|(a & b & He & Ha & ->)]; cbn [cut_lines].
  - rewrite (read_line_last reader []) by done. change (len []) with 0. rewrite N.add_0_l. cbn [app].
    destruct (mjoin reader) as [|x l] eqn:E; [by rewrite bool_decide_eq_true_2|]. rewrite bool_decide_eq_false_2 by done.
    destruct (_ <? _); [done|]. destruct fuel as [|fuel]; [cbn in Hf; lia|].
    change (control_lines (S fuel) []) with (Some ([] : list (list N), StreamEof)).
    unfold pop_newline. by rewrite strip_suffix_notin.
  - pose proof (read_line_newline reader a b [] Hb He Ha) as Hr. change (len []) with 0 in Hr. rewrite N.add_0_l in Hr.
    destruct (split_char 10 b) as [|p ps] eqn:Es; [by destruct (split_char_nonnil 10 b)|]. rewrite <- Es.
    destruct (_ <? _); [by rewrite Hr|]. destruct Hr as (rest & -> & Hbr & <-). cbn [app].
    rewrite IH; [|done|]; [|rewrite He, length_app in Hf; cbn in Hf; lia].
    unfold stream_lines. destruct (cut_lines _) as [lines e] eqn:Ec. destruct (a ++ [10]) as [|x l] eqn:Ea; [by destruct a|].
    rewrite <- Ea. unfold pop_newline. by rewrite (proj2 (strip_suffix_Some _ _ _) eq_refl).
Qed.
(** However tmux's output is cut into buffers, the client reads the same lines: the
    pieces between the newlines, up to the first of more than a mebibyte, which ends the
    connection; and reading ends. *)
Theorem lines_ignore_buffers reader :
  buffers reader → control_lines (S (length (mjoin reader))) reader = Some (stream_lines (mjoin reader)).
Proof. intros Hb. apply control_lines_spec; [done|lia]. Qed.

(** ** Blocks *)
(** What tmux writes: a notification line, or a block whose header and terminator carry
    the same time, command number and flag. *)
Inductive StreamItem :=
| ItemNotify (line : list N)
| ItemBlock (stamp num : N) (client fine : bool) (content : list (list N)).
Definition block_tail (stamp num : N) (client : bool) : list N :=
  dec_string stamp ++ [32] ++ dec_string num ++ [32] ++ (if client then str "1" else str "0").
Definition block_header (stamp num : N) (client : bool) : list N := str "%begin " ++ block_tail stamp num client.
Definition item_lines (i : StreamItem) : list (list N) :=
  match i with
  | ItemNotify line => [line]
  | ItemBlock stamp num client fine content =>
      block_header stamp num client :: content ++
        [(if fine then str "%end " else str "%error ") ++ block_tail stamp num client]
  end.
(** The line closes a block of this number. *)
Definition closes (num : option N) (line : list N) : bool :=
  match end_tail line with
  | Some rest => bool_decide (block_num rest = num)
  | None => match strip_prefix (str "%error ") line with Some rest => bool_decide (block_num rest = num) | None => false end
  end.
Definition content_bytes (content : list (list N)) : N := foldr (λ l n, len l + 1 + n) 0 content.
Definition fits (lines : N) (bytes : N) (content : list (list N)) : Prop :=
  lines + len content ≤ CONTROL_BLOCK_MAX_LINES ∧ bytes + content_bytes content ≤ CONTROL_BLOCK_MAX_BYTES.
#[export] Instance fits_dec lines bytes content : Decision (fits lines bytes content) := and_dec _ _.
Definition item_ok (i : StreamItem) : Prop :=
  match i with
  | ItemNotify line => strip_prefix (str "%begin ") line = None
  | ItemBlock _ num _ _ content =>
      num ≤ u64_max ∧ Forall (λ l, closes (Some num) l = false) content ∧ fits 0 0 content
  end.
Definition item_routed (i : StreamItem) : Routed :=
  match i with
  | ItemNotify line => RNotify (parse_notification_bytes line)
  | ItemBlock _ _ client fine content =>
      let lines := from_utf8_lossy <$> content in
      RReply client (if fine then Ok lines else Err (join [10] lines))
  end.

Lemma feed_all_app router a b :
  feed_all router (a ++ b) = let '(r, x) := feed_all router a in let '(r', y) := feed_all r b in (r', x ++ y).
Proof.
  revert router. induction a as [|l a IH]; intros router; cbn [app feed_all]; [by destruct (feed_all router b)|].
  destruct (feed router l) as [r x]. rewrite IH. destruct (feed_all r a) as [r1 y]. destruct (feed_all r1 b) as [r2 z].
  by rewrite <- app_assoc.
Qed.
Lemma digits_no_space n : 32 ∉ dec_string n.
Proof.
  intros Hin. pose proof (Forall_elem _ _ _ (dec_string_digits n) Hin) as H. by vm_compute in H.
Qed.
Lemma tail_fields stamp num client :
  List.filter (λ f, negb (bool_decide (f = []))) (split_char 32 (block_tail stamp num client)) =
    [dec_string stamp; dec_string num; if client then str "1" else str "0"].
Proof.
  unfold block_tail. cbn [app]. rewrite split_char_app by apply digits_no_space.
  rewrite split_char_app by apply digits_no_space. rewrite split_char_notin by (destruct client; set_solver).
  cbn [List.filter]. rewrite !bool_decide_eq_false_2 by (apply dec_string_nonempty). by destruct client.
Qed.
Lemma block_num_tail stamp num client : num ≤ u64_max → block_num (block_tail stamp num client) = Some num.
Proof.
  intros Hn. unfold block_num, block_field. rewrite tail_fields. cbn [lookup list_lookup mbind option_bind].
  assert (ascii (dec_string num)) as Ha.
  { eapply Forall_impl; [apply dec_string_digits|]. intros c Hc%in_range_true. lia. }
  rewrite <- (ascii_bytes _ Ha) at 1. rewrite utf8_decode_bytes by (by apply ascii_scalars). by apply parse_unsigned_dec.
Qed.
Lemma feed_header stamp num client :
  num ≤ u64_max → feed None (block_header stamp num client) = (Some (MkOpenBlock client (Some num) [] 0), None).
Proof.
  intros Hn. unfold feed, block_header. rewrite strip_prefix_app, block_num_tail by done.
  unfold block_field. rewrite tail_fields. by destruct client.
Qed.
Lemma feed_closing b stamp num client (fine : bool) :
  num ≤ u64_max → ob_command b = Some num →
  feed (Some b) ((if fine then str "%end " else str "%error ") ++ block_tail stamp num client) =
    (None, Some (RReply (ob_client b) (if fine then Ok (ob_lines b) else Err (join [10] (ob_lines b))))).
Proof.
  intros Hn Hb. unfold feed. destruct fine.
  - unfold end_tail. rewrite strip_prefix_app, block_num_tail, Hb by done. by rewrite bool_decide_eq_true_2.
  - assert (end_tail (str "%error " ++ block_tail stamp num client) = None) as ->.
    { unfold end_tail. by rewrite bool_decide_eq_false_2. }
    rewrite strip_prefix_app, block_num_tail, Hb by done. by rewrite bool_decide_eq_true_2.
Qed.
Lemma feed_content b line : closes (ob_command b) line = false → feed (Some b) line = collect_line b line.
Proof.
  unfold closes, feed. destruct (end_tail line) as [rest|]; [by intros ->|].
  destruct (strip_prefix _ line) as [rest|]; [by intros ->|done].
Qed.
(** Content within the envelope is kept; content beyond it makes the block overflow, at
    some line of it. *)
Lemma collect_spec b line :
  ob_bytes b ≤ CONTROL_BLOCK_MAX_BYTES →
  collect_line b line =
    if (CONTROL_BLOCK_MAX_LINES <=? len (ob_lines b)) || (CONTROL_BLOCK_MAX_BYTES <? ob_bytes b + (len line + 1)) then (None, Some RBlockOverflow)
    else (Some (MkOpenBlock (ob_client b) (ob_command b) (ob_lines b ++ [from_utf8_lossy line]) (ob_bytes b + (len line + 1))), None).
Proof.
  intros Hb. unfold collect_line.
  assert (CONTROL_BLOCK_MAX_BYTES < usize_max) as Hm by done. revert Hb Hm. unfold saturating_add_usize.
  generalize CONTROL_BLOCK_MAX_BYTES usize_max. intros m u Hb Hm.
  destruct (_ <=? _); [done|]. cbn [orb].
  destruct (N.ltb_spec m (N.min u (N.min u (ob_bytes b + len line) + 1))), (N.ltb_spec m (ob_bytes b + (len line + 1))); try lia; [done|].
  repeat f_equal. lia.
Qed.
Lemma fits_cons n m l content : fits n m (l :: content) ↔ fits (n + 1) (m + (len l + 1)) content.
Proof. unfold fits. rewrite len_cons. cbn [content_bytes foldr]. fold (content_bytes content). lia. Qed.
Lemma fits_bounds n m content : fits n m content → n ≤ CONTROL_BLOCK_MAX_LINES ∧ m ≤ CONTROL_BLOCK_MAX_BYTES.
Proof. unfold fits. lia. Qed.
Lemma feed_contents content b :
  Forall (λ l, closes (ob_command b) l = false) content →
  len (ob_lines b) ≤ CONTROL_BLOCK_MAX_LINES → ob_bytes b ≤ CONTROL_BLOCK_MAX_BYTES →
  if decide (fits (len (ob_lines b)) (ob_bytes b) content)
  then feed_all (Some b) content =
    (Some (MkOpenBlock (ob_client b) (ob_command b) (ob_lines b ++ (from_utf8_lossy <$> content)) (ob_bytes b + content_bytes content)), [])
  else ∃ k, feed_all (Some b) (take k content) = (None, [RBlockOverflow]).
Proof.
  revert b. induction content as [|l content IH]; intros b Hc Hl Hb.
  - destruct b as [cl cm ls bs]. cbn [fmap list_fmap feed_all content_bytes foldr] in *. rewrite app_nil_r, N.add_0_r.
    destruct (decide _) as [|Hn]; [done|]. destruct Hn. unfold fits. change (len []) with 0. cbn [content_bytes foldr]. split; lia.
  - apply Forall_cons in Hc as [Hcl Hc].
    set (b' := MkOpenBlock (ob_client b) (ob_command b) (ob_lines b ++ [from_utf8_lossy l]) (ob_bytes b + (len l + 1))).
    assert (len (ob_lines b') = len (ob_lines b) + 1) as Hlen by (cbn; by rewrite len_app, len_cons).
    assert (feed (Some b) l =
      if (CONTROL_BLOCK_MAX_LINES <=? len (ob_lines b)) || (CONTROL_BLOCK_MAX_BYTES <? ob_bytes b + (len l + 1))
      then (None, Some RBlockOverflow) else (Some b', None)) as Hf by (rewrite feed_content by done; by apply collect_spec).
    destruct (_ || _) eqn:Eo.
    + rewrite decide_False. { exists 1%nat. cbn [take feed_all]. by rewrite Hf. }
      intros [H1 H2]%fits_cons%fits_bounds. apply orb_true_iff in Eo as [?%N.leb_le|?%N.ltb_lt]; lia.
    + apply orb_false_iff in Eo as [Ho1%N.leb_gt Ho2%N.ltb_ge].
      specialize (IH b' Hc ltac:(lia) Ho2). rewrite Hlen in IH.
      destruct (decide (fits (len (ob_lines b) + 1) (ob_bytes b') content)) as [Hfit|Hfit].
      * rewrite decide_True by (by apply fits_cons). cbn [feed_all]. rewrite Hf, IH. cbn [ob_client ob_command ob_lines ob_bytes b'].
        rewrite <- app_assoc. cbn [content_bytes foldr]. fold (content_bytes content). by rewrite (N.add_assoc (ob_bytes b) (len l + 1)).
      * rewrite decide_False by (by rewrite fits_cons). destruct IH as [k Hk]. exists (S k). cbn [take feed_all]. by rewrite Hf, Hk.
Qed.

(** [C38.] What tmux writes is read back item by item: a notification as its parse, a block as
    the reply to its command with every line of its content, even lines that
    look like the end of another block, and with the flag that says whose command it
    answers. *)
Theorem blocks_read_back items :
  Forall item_ok items → feed_all line_router_new (mjoin (item_lines <$> items)) = (None, item_routed <$> items).
Proof.
  induction 1 as [|i items Hi _ IH]; [done|]. rewrite !fmap_cons. change (mjoin (?x :: ?l)) with (x ++ mjoin l).
  rewrite feed_all_app. unfold line_router_new in *. enough (feed_all None (item_lines i) = (None, [item_routed i])) as ->.
  { by rewrite IH. }
  destruct i as [line|stamp num client fine content]; cbn [item_lines item_routed]; cbn [item_ok] in Hi.
  - cbn [feed_all feed]. by rewrite Hi.
  - destruct Hi as (Hn & Hc & Hfit). cbn [feed_all]. rewrite feed_header by done. rewrite feed_all_app.
    pose proof (feed_contents content (MkOpenBlock client (Some num) [] 0) Hc ltac:(done) ltac:(done)) as Hf.
    rewrite decide_True in Hf by done. rewrite Hf. cbn [feed_all ob_client ob_command ob_lines ob_bytes app].
    rewrite feed_closing by done. done.
Qed.
(** A block beyond the envelope is never cut short: some line of it ends the connection. *)
Theorem oversized_block_is_refused stamp num client content :
  num ≤ u64_max → Forall (λ l, closes (Some num) l = false) content → ¬ fits 0 0 content →
  ∃ k, feed_all line_router_new (block_header stamp num client :: take k content) = (None, [RBlockOverflow]).
Proof.
  intros Hn Hc Hfit.
  pose proof (feed_contents content (MkOpenBlock client (Some num) [] 0) Hc ltac:(done) ltac:(done)) as Hf.
  rewrite decide_False in Hf by done. destruct Hf as [k Hk]. exists k. unfold line_router_new. cbn [feed_all].
  by rewrite feed_header, Hk by done.
Qed.
