(* ===== verification/ControlQueue.v ===== *)
(** * The bounded queue of notifications

    [src/cyclops-tmux/src/control.rs]: [enqueue_notification],
    [record_notification_gap], [notification_retained_bytes] and
    [NotificationReceiver].  The reader never waits for its consumer: a notification
    that does not fit is dropped, the drop is marked once in the queue, and
    everything after it is dropped until the consumer has reconciled.

    The queue is a channel of [NOTIFICATION_CAPACITY + 1] places with one semaphore
    for items and one for bytes; an entry holds its permits until it is received.
    The gap is under one mutex, which each operation but [recv] holds throughout,
    so every operation is one function.  [NotificationQueue::Direct], the adapter for
    in-process producers, has no budget and no gap and is left out.

    Theorems: the place of the marker is always free; what the consumer has received
    is what was produced, up to a gap it is told of; a reconciliation that is accepted
    missed nothing. *)
From S2P Require Import Prelude Text Identity Utf8 TmuxText ControlStream.
Local Open Scope N_scope.

Definition NOTIFICATION_CAPACITY : N := 256.
Definition NOTIFICATION_MAX_QUEUED_BYTES : N := 8388608.

(** ** State *)
(** A regular entry holds an item permit and as many byte permits as it retains. *)
Record QueuedNotification := MkQueued { qn_notification : TmuxNotification; qn_permits : option N }.
Record NotificationSink := MkSink {
  sk_queue : list QueuedNotification;
  sk_items : N;
  sk_bytes : N;
  sk_pending : bool;
  sk_epoch : N;
  sk_open : bool;
}.
Definition sink_new : NotificationSink := MkSink [] NOTIFICATION_CAPACITY NOTIFICATION_MAX_QUEUED_BYTES false 0 true.
Inductive EnqueueResult := Sent | ReceiverClosed | GapRecorded | EnvelopeExceeded.
Definition exceeds_envelope (r : EnqueueResult) : bool := match r with EnvelopeExceeded => true | _ => false end.

Definition opt_len (s : option rstr) : N := match s with Some s => str_len s | None => 0 end.
Definition notification_retained_bytes (n : TmuxNotification) : N :=
  let plus := saturating_add_usize in
  match n with
  | ContinuityLost | SessionsChanged => 0
  | Output pane data | ExtendedOutput pane _ data => plus (str_len pane) (len data)
  | SessionChanged a b | WindowRenamed a b | UnlinkedWindowRenamed a b | WindowPaneChanged a b =>
      plus (str_len a) (str_len b)
  | SessionRenamed session name => plus (opt_len session) (str_len name)
  | ClientSessionChanged client session name => plus (plus (str_len client) (str_len session)) (str_len name)
  | SubscriptionChanged name session window pane value =>
      plus (plus (plus (plus (str_len name) (opt_len session)) (opt_len window)) (opt_len pane)) (str_len value)
  | WindowAdd window | WindowClose window | UnlinkedWindowAdd window | UnlinkedWindowClose window => str_len window
  | LayoutChange window rest => plus (str_len window) (str_len rest)
  | PaneModeChanged pane | Pause pane | Continue pane => str_len pane
  | ClientDetached client => str_len client
  | Exit reason => opt_len reason
  | Other raw => str_len raw
  end.

(** ** The producer *)
(** [mpsc::Sender::try_send]. *)
Inductive TrySend := TsSent | TsClosed | TsFull.
Definition try_send (s : NotificationSink) : TrySend :=
  if negb (sk_open s) then TsClosed
  else if NOTIFICATION_CAPACITY + 1 <=? len (sk_queue s) then TsFull else TsSent.
Definition wrapping_succ_u64 (n : N) : N := (n + 1) mod (u64_max + 1).
Definition bump_epoch (s : NotificationSink) : NotificationSink :=
  MkSink (sk_queue s) (sk_items s) (sk_bytes s) (sk_pending s) (wrapping_succ_u64 (sk_epoch s)) (sk_open s).
Definition record_notification_gap (s : NotificationSink) : NotificationSink * EnqueueResult :=
  if sk_pending s then (bump_epoch s, GapRecorded)
  else
    let epoch := wrapping_succ_u64 (sk_epoch s) in
    match try_send s with
    | TsSent =>
        (MkSink (sk_queue s ++ [MkQueued ContinuityLost None]) (sk_items s) (sk_bytes s) true epoch (sk_open s), GapRecorded)
    | TsClosed => (bump_epoch s, ReceiverClosed)
    | TsFull => (bump_epoch s, EnvelopeExceeded)
    end.
Definition enqueue_notification (s : NotificationSink) (n : TmuxNotification) : NotificationSink * EnqueueResult :=
  let bytes := N.max (notification_retained_bytes n) 1 in
  if NOTIFICATION_MAX_QUEUED_BYTES <? bytes then (s, EnvelopeExceeded)
  else if sk_pending s then (bump_epoch s, GapRecorded)
  else if u32_max <? bytes then (s, EnvelopeExceeded)
  else if sk_items s =? 0 then record_notification_gap s
  else if sk_bytes s <? bytes then record_notification_gap s
  else
    match try_send s with
    | TsSent =>
        (MkSink (sk_queue s ++ [MkQueued n (Some bytes)]) (sk_items s - 1) (sk_bytes s - bytes) (sk_pending s) (sk_epoch s)
           (sk_open s), Sent)
    | TsClosed => (s, ReceiverClosed)
    | TsFull => record_notification_gap s
    end.

(** ** The consumer *)
Definition released (q : QueuedNotification) (s : NotificationSink) (queue : list QueuedNotification) : NotificationSink :=
  match qn_permits q with
  | Some bytes => MkSink queue (sk_items s + 1) (sk_bytes s + bytes) (sk_pending s) (sk_epoch s) (sk_open s)
  | None => MkSink queue (sk_items s) (sk_bytes s) (sk_pending s) (sk_epoch s) (sk_open s)
  end.
(** [recv], and [try_recv] when something is there. *)
Definition recv (s : NotificationSink) : NotificationSink * option TmuxNotification :=
  match sk_queue s with
  | [] => (s, None)
  | q :: queue => (released q s queue, Some (qn_notification q))
  end.
Definition hold_continuity (s : NotificationSink) : NotificationSink * N :=
  (MkSink (sk_queue s) (sk_items s) (sk_bytes s) true (sk_epoch s) (sk_open s), sk_epoch s).
(** [while rx.try_recv().is_ok() {}]. *)
Definition drain_queue (s : NotificationSink) : NotificationSink :=
  foldl (λ s q, released q s (tail (sk_queue s))) s (sk_queue s).
Definition resume_after_reconcile (s : NotificationSink) (expected_epoch : N) : NotificationSink * bool :=
  if negb (sk_epoch s =? expected_epoch) then (s, false)
  else
    let s := drain_queue s in
    (MkSink (sk_queue s) (sk_items s) (sk_bytes s) false (sk_epoch s) (sk_open s), true).
(** Dropping the receiver closes the channel and drops what it holds. *)
Definition drop_receiver (s : NotificationSink) : NotificationSink :=
  let s := drain_queue s in MkSink (sk_queue s) (sk_items s) (sk_bytes s) (sk_pending s) (sk_epoch s) false.

(** ** Histories *)
Inductive QueueOp :=
| QEnqueue (n : TmuxNotification)
| QRecv
| QHold
| QResume (expected_epoch : N)
| QDropReceiver.
Definition queue_step (s : NotificationSink) (op : QueueOp) : NotificationSink :=
  match op with
  | QEnqueue n => (enqueue_notification s n).1
  | QRecv => (recv s).1
  | QHold => (hold_continuity s).1
  | QResume e => (resume_after_reconcile s e).1
  | QDropReceiver => drop_receiver s
  end.
Definition queue_run (s : NotificationSink) (ops : list QueueOp) : NotificationSink := foldl queue_step s ops.

(** * Properties of the queue of notifications *)

(** ** What was produced and what was received *)
(** Since the last accepted reconciliation: what the reader offered, what the consumer
    got of it, and whether it knows that its state may be behind. *)
Record Segment := MkSegment { sg_produced : list TmuxNotification; sg_received : list TmuxNotification; sg_told : bool }.
Definition segment_new : Segment := MkSegment [] [] false.
Definition too_large (n : TmuxNotification) : bool := NOTIFICATION_MAX_QUEUED_BYTES <? N.max (notification_retained_bytes n) 1.
Definition segment_step (s : NotificationSink) (g : Segment) (op : QueueOp) : Segment :=
  match op with
  | QEnqueue n => if too_large n then g else MkSegment (sg_produced g ++ [n]) (sg_received g) (sg_told g)
  | QRecv =>
      match (recv s).2 with
      | Some ContinuityLost => MkSegment (sg_produced g) (sg_received g) true
      | Some n => MkSegment (sg_produced g) (sg_received g ++ [n]) (sg_told g)
      | None => g
      end
  | QHold => MkSegment (sg_produced g) (sg_received g) true
  | QResume e => if (resume_after_reconcile s e).2 then segment_new else g
  | QDropReceiver => g
  end.
Fixpoint observe (s : NotificationSink) (g : Segment) (ops : list QueueOp) : NotificationSink * Segment :=
  match ops with
  | [] => (s, g)
  | op :: ops => observe (queue_step s op) (segment_step s g op) ops
  end.
(** The reader never produces the marker itself: [parse_notification_bytes] has no
    such result. *)
Definition genuine (op : QueueOp) : Prop := match op with QEnqueue ContinuityLost => False | _ => True end.

Lemma if_genuine {A} (P : A → Prop) (b : bool) x y : P x → P y → P (if b then x else y).
Proof. by destruct b. Qed.
Lemma parse_text_genuine line : parse_notification line ≠ ContinuityLost.
Proof.
  unfold parse_notification. destruct (match split_once [32] line with Some p => p | None => (line, []) end) as [word rest].
  destruct (split_once [32] rest) as [[a b]|]; cbv zeta beta iota;
    repeat (apply (if_genuine (λ n, n ≠ ContinuityLost))); try done.
  all: try (unfold parse_extended_output; destruct (split_once _ _) as [[??]|]; [|done]; destruct (split_value _) as [[??]|]; done).
  all: try (unfold parse_subscription_changed; destruct (split_value _) as [[h v]|]; [|done];
    destruct (split_whitespace h) as [|n tl]; [done|]; destruct (foldl _ _ tl) as [[??]?]; done).
  by destruct (split_once [32] b) as [[??]|].
Qed.
(** The stream never carries the marker itself. *)
Lemma parse_genuine line : parse_notification_bytes line ≠ ContinuityLost.
Proof.
  unfold parse_notification_bytes. destruct (utf8_decode line); [apply parse_text_genuine|].
  destruct (parse_output_bytes line) as [n|] eqn:E; [|apply parse_text_genuine].
  unfold parse_output_bytes in E. destruct (strip_prefix _ line) as [r|].
  - destruct (split_once _ r) as [[??]|]; [|done]. cbn in E. destruct (utf8_decode _); [|done]. by injection E as <-.
  - destruct (strip_prefix _ line) as [r|]; [|done]. destruct (split_once _ r) as [[p t]|]; [|done]. cbn [mbind option_bind] in E.
    destruct (utf8_decode p); [|done]. cbn [mbind option_bind] in E.
    destruct (match find_subslice t _ with Some _ => _ | None => _ end) as [[??]|]; [|done]. by injection E as <-.
Qed.

(** ** The queue's invariant *)
Definition held_bytes (q : list QueuedNotification) : N := foldr (λ x n, default 0 (qn_permits x) + n) 0 q.
Definition regular (q : QueuedNotification) : Prop :=
  (∃ b, qn_permits q = Some b ∧ 1 ≤ b) ∧ qn_notification q ≠ ContinuityLost.
Definition gap_marker : QueuedNotification := MkQueued ContinuityLost None.
Record sink_ok (s : NotificationSink) (regs : list QueuedNotification) (marked : bool) : Prop := {
  so_queue : sk_queue s = regs ++ (if marked then [gap_marker] else []);
  so_regs : Forall regular regs;
  so_items : sk_items s + len regs = NOTIFICATION_CAPACITY;
  so_bytes : sk_bytes s + held_bytes regs = NOTIFICATION_MAX_QUEUED_BYTES;
  so_marked : marked = true → sk_pending s = true;
  so_epoch : sk_epoch s ≤ u64_max;
}.
Lemma held_bytes_app a b : held_bytes (a ++ b) = held_bytes a + held_bytes b.
Proof. induction a as [|x a IH]; cbn; [done|]. fold (held_bytes (a ++ b)) (held_bytes a). lia. Qed.
Lemma released_fields q s queue :
  sk_queue (released q s queue) = queue ∧ sk_pending (released q s queue) = sk_pending s ∧
  sk_epoch (released q s queue) = sk_epoch s ∧ sk_open (released q s queue) = sk_open s ∧
  sk_items (released q s queue) = sk_items s + len (option_list (qn_permits q)) ∧
  sk_bytes (released q s queue) = sk_bytes s + default 0 (qn_permits q).
Proof. unfold released. destruct (qn_permits q); cbn; rewrite ?N.add_0_r; done. Qed.
Definition permits_of (q : list QueuedNotification) : N := foldr (λ x n, len (option_list (qn_permits x)) + n) 0 q.
Lemma drain_fields s :
  drain_queue s = MkSink [] (sk_items s + permits_of (sk_queue s)) (sk_bytes s + held_bytes (sk_queue s)) (sk_pending s) (sk_epoch s) (sk_open s).
Proof.
  unfold drain_queue. destruct s as [q i b p e o]. cbn. revert i b. induction q as [|x q IH]; intros i b; cbn; [by rewrite !N.add_0_r|].
  fold (permits_of q) (held_bytes q). unfold released. cbn. destruct (qn_permits x); rewrite IH; fold (permits_of q) (held_bytes q); cbn;
    rewrite ?len_cons; f_equal; change (len []) with 0; lia.
Qed.
Lemma permits_of_regs regs : Forall regular regs → permits_of regs = len regs.
Proof.
  induction 1 as [|q regs [(b & Hq & _) _] _ IH]; [done|]. cbn. rewrite Hq. fold (permits_of regs). by rewrite IH, len_cons.
Qed.
Lemma permits_of_app a b : permits_of (a ++ b) = permits_of a + permits_of b.
Proof. induction a as [|x a IH]; cbn; [done|]. fold (permits_of (a ++ b)) (permits_of a). lia. Qed.
Lemma sink_ok_new : sink_ok sink_new [] false.
Proof. by split. Qed.
Lemma sink_ok_drained s regs marked : sink_ok s regs marked →
  drain_queue s = MkSink [] NOTIFICATION_CAPACITY NOTIFICATION_MAX_QUEUED_BYTES (sk_pending s) (sk_epoch s) (sk_open s).
Proof.
  intros [Hq Hr Hi Hb _ _]. rewrite drain_fields, Hq, permits_of_app, held_bytes_app, permits_of_regs by done.
  assert (permits_of (if marked then [gap_marker] else []) = 0 ∧ held_bytes (if marked then [gap_marker] else []) = 0) as [-> ->]
    by (by destruct marked).
  rewrite !N.add_0_r. by rewrite Hi, Hb.
Qed.
(** The marker always finds its place, so the queue never loses anything in silence. *)
Lemma try_send_place s regs : sink_ok s regs false → try_send s ≠ TsFull.
Proof.
  intros [Hq _ Hi _ _ _]. unfold try_send. rewrite Hq, app_nil_r. destruct (negb _); [done|].
  destruct (N.leb_spec (NOTIFICATION_CAPACITY + 1) (len regs)); [lia|done].
Qed.
Lemma not_pending s regs marked : sink_ok s regs marked → sk_pending s = false → marked = false.
Proof. intros H Hp. destruct marked; [|done]. rewrite (so_marked _ _ _ H) in Hp; done. Qed.
Lemma wrapping_bound n : wrapping_succ_u64 n ≤ u64_max.
Proof. unfold wrapping_succ_u64. pose proof (N.mod_lt (n + 1) (u64_max + 1)). lia. Qed.
Lemma bump_ok s regs marked : sink_ok s regs marked → sink_ok (bump_epoch s) regs marked.
Proof. intros [? ? ? ? ? ?]. split; try done. apply wrapping_bound. Qed.

Lemma try_send_open s : match try_send s with TsClosed => sk_open s = false | _ => sk_open s = true end.
Proof. unfold try_send. destruct (sk_open s); cbn; [|done]. by destruct (_ <=? _). Qed.
(** The ways an offer ends. *)
Inductive enqueued (s : NotificationSink) (regs : list QueuedNotification) (marked : bool) (n : TmuxNotification)
    : NotificationSink * EnqueueResult → Prop :=
| enq_large : too_large n = true → enqueued s regs marked n (s, EnvelopeExceeded)
| enq_pending : too_large n = false → sk_pending s = true → enqueued s regs marked n (bump_epoch s, GapRecorded)
| enq_sent s' q : too_large n = false → sk_pending s = false → sk_open s = true →
    sink_ok s' (regs ++ [q]) false → qn_notification q = n → sk_open s' = true → sk_pending s' = false →
    enqueued s regs marked n (s', Sent)
| enq_gap s' : too_large n = false → sk_pending s = false → sk_open s = true →
    sink_ok s' regs true → sk_open s' = true → enqueued s regs marked n (s', GapRecorded)
| enq_closed s' : too_large n = false → sk_open s = false → sink_ok s' regs false → sk_open s' = false →
    enqueued s regs marked n (s', ReceiverClosed).
Lemma record_gap_cases s regs n :
  sink_ok s regs false → too_large n = false → sk_pending s = false → enqueued s regs false n (record_notification_gap s).
Proof.
  intros Hok Hn Hp. unfold record_notification_gap. rewrite Hp. pose proof (try_send_place s regs Hok) as Hplace.
  unfold try_send in *. destruct (sk_open s) eqn:Ho; cbn [negb] in *.
  - destruct (_ <=? _); [done|]. apply enq_gap; try done. destruct Hok as [Hq ? ? ? ? ?]. split; try done; cbn.
    + by rewrite Hq, app_nil_r.
    + apply wrapping_bound.
  - apply enq_closed; try done. by apply bump_ok.
Qed.
Lemma enqueue_cases s regs marked n :
  sink_ok s regs marked → n ≠ ContinuityLost → enqueued s regs marked n (enqueue_notification s n).
Proof.
  intros Hok Hn. unfold enqueue_notification. fold (too_large n). destruct (too_large n) eqn:El; [by apply enq_large|].
  destruct (sk_pending s) eqn:Ep; [by apply enq_pending|]. pose proof (not_pending _ _ _ Hok Ep) as ->.
  apply N.ltb_ge in El as Hb. set (bytes := N.max _ 1) in *. assert (1 ≤ bytes) as H1 by (unfold bytes; lia). clearbody bytes.
  assert (bytes ≤ u32_max) as Hu by (etrans; [exact Hb|done]). rewrite (proj2 (N.ltb_ge _ _)) by done.
  destruct (N.eqb_spec (sk_items s) 0); [by apply record_gap_cases|].
  destruct (N.ltb_spec (sk_bytes s) bytes); [by apply record_gap_cases|].
  pose proof (try_send_place s regs Hok) as Hplace. pose proof (try_send_open s) as Ho.
  destruct (try_send s); [|by apply enq_closed|done].
  eapply (enq_sent _ _ _ _ _ (MkQueued n (Some bytes))); try done.
  destruct Hok as [Hq Hr Hi Hby Hm He]. split; cbn; try done.
  - by rewrite Hq, !app_nil_r.
  - apply Forall_app. split; [done|]. constructor; [|done]. split; [by exists bytes|done].
  - rewrite len_app, len_cons. change (len []) with 0. lia.
  - rewrite held_bytes_app. cbn. lia.
Qed.

(** ** Nothing is lost in silence *)
Record segment_ok (s : NotificationSink) (g : Segment) (regs : list QueuedNotification) (marked : bool) (dropped : list TmuxNotification) : Prop := {
  gk_sink : sink_ok s regs marked;
  gk_produced : sk_open s = true → sg_produced g = sg_received g ++ (qn_notification <$> regs) ++ dropped;
  gk_dropped : sk_open s = true → dropped ≠ [] → sk_pending s = true;
  gk_pending : sk_pending s = true → sk_open s = true → marked = true ∨ sg_told g = true;
}.
Lemma segment_ok_new s : sink_ok s [] false → sk_pending s = false → segment_ok s segment_new [] false [].
Proof. intros H Hp. split; try done. by rewrite Hp. Qed.
Lemma segment_ok_step s g op :
  (∃ regs marked dropped, segment_ok s g regs marked dropped) → genuine op →
  ∃ regs marked dropped, segment_ok (queue_step s op) (segment_step s g op) regs marked dropped.
Proof.
  intros (regs & marked & dropped & [Hok Hp Hd Hn]) Hg. destruct op as [n| | |e|]; cbn [queue_step segment_step].
  - assert (n ≠ ContinuityLost) as Hne by (by intros ->).
    pose proof (enqueue_cases s regs marked n Hok Hne) as Hc. revert Hc. destruct (enqueue_notification s n) as [s' r]. cbn [fst].
    intros Hc. inversion Hc; subst; repeat match goal with H : too_large _ = _ |- _ => rewrite H; clear H end.
    + by exists regs, marked, dropped.
    + exists regs, marked, (dropped ++ [n]). split; [by apply bump_ok|..]; cbn; try done.
      intros Ho. rewrite Hp by done. by rewrite <- !app_assoc.
    + assert (dropped = []) as ->.
      { destruct dropped; [done|]. assert (sk_pending s = true) by (by apply Hd). congruence. }
      eexists _, false, []. split; [done|..]; cbn; try done; [|congruence].
      intros _. rewrite Hp by done. by rewrite fmap_app, !app_nil_r, <- app_assoc.
    + exists regs, true, (dropped ++ [n]). split; [done|..]; cbn.
      * intros _. rewrite Hp by done. by rewrite <- !app_assoc.
      * intros _ _. by eapply so_marked.
      * by left.
    + exists regs, false, []. split; [done|..]; congruence.
  - unfold recv. destruct Hok as [Hq Hr Hi Hb Hm He]. rewrite Hq. destruct regs as [|q regs].
    + destruct marked; cbn [app].
      * exists [], false, dropped. split; cbn; [split; cbn; try done|done|done|by right].
      * exists [], false, dropped. by split.
    + cbn [app fst snd]. apply Forall_cons in Hr as [[(b & Hqb & Hb1) Hqn] Hr].
      assert (match qn_notification q with ContinuityLost => MkSegment (sg_produced g) (sg_received g) true
              | _ => MkSegment (sg_produced g) (sg_received g ++ [qn_notification q]) (sg_told g) end =
              MkSegment (sg_produced g) (sg_received g ++ [qn_notification q]) (sg_told g)) as -> by (by destruct (qn_notification q)).
      exists regs, marked, dropped. unfold released. rewrite Hqb. split; cbn; try done.
      * split; cbn; try done; [rewrite len_cons in Hi; lia|]. cbn in Hb. fold (held_bytes regs) in Hb. rewrite Hqb in Hb. cbn in Hb. lia.
      * intros Ho. rewrite Hp by done. by rewrite <- !app_assoc.
  - exists regs, marked, dropped. split; cbn; try done; [|by right]. destruct Hok. by split.
  - unfold resume_after_reconcile. destruct (negb _) eqn:E; cbn [fst snd]; [by exists regs, marked, dropped|].
    rewrite (sink_ok_drained _ _ _ Hok). cbn. exists [], false, []. apply segment_ok_new; [|done]. destruct Hok. by split.
  - unfold drop_receiver. rewrite (sink_ok_drained _ _ _ Hok). cbn. exists [], false, []. split; cbn; try done. destruct Hok. by split.
Qed.
Lemma segment_ok_run ops s g s' g' :
  (∃ regs marked dropped, segment_ok s g regs marked dropped) → Forall genuine ops → observe s g ops = (s', g') →
  ∃ regs marked dropped, segment_ok s' g' regs marked dropped.
Proof.
  revert s g. induction ops as [|op ops IH]; intros s g H Hops; cbn; [by intros [= <- <-]|].
  apply Forall_cons in Hops as [? ?]. apply IH; [|done]. by apply segment_ok_step.
Qed.
Lemma segment_ok_reached ops s g :
  Forall genuine ops → observe sink_new segment_new ops = (s, g) → ∃ regs marked dropped, segment_ok s g regs marked dropped.
Proof. apply segment_ok_run. exists [], false, []. apply segment_ok_new; [apply sink_ok_new|done]. Qed.
Lemma segment_told ops s g :
  Forall genuine ops → observe sink_new segment_new ops = (s, g) → sk_open s = true →
  ∃ waiting dropped, sg_produced g = sg_received g ++ waiting ++ dropped ∧
    (sg_told g = false → qn_notification <$> sk_queue s = waiting ++ (if bool_decide (dropped = []) && negb (sk_pending s) then [] else [ContinuityLost])) ∧
    (sg_told g = false → sk_queue s = [] → sg_received g = sg_produced g).
Proof.
  intros Hops Hrun Ho. destruct (segment_ok_reached ops s g Hops Hrun) as (regs & marked & dropped & [Hok Hp Hd Hn]).
  exists (qn_notification <$> regs), dropped. split; [by apply Hp|].
  assert (sg_told g = false → marked = sk_pending s) as Hm.
  { intros Ht. destruct (sk_pending s) eqn:E; [by destruct (Hn eq_refl Ho); congruence|]. by eapply not_pending. }
  split.
  - intros Ht. rewrite (so_queue _ _ _ Hok), (Hm Ht), fmap_app. f_equal. destruct (sk_pending s) eqn:E; [by rewrite andb_false_r|].
    destruct dropped; [done|]. by discriminate Hd.
  - intros Ht Hq. rewrite (so_queue _ _ _ Hok), (Hm Ht) in Hq. apply app_eq_nil in Hq as [-> Hq].
    destruct (sk_pending s) eqn:E; [done|]. rewrite Hp by done. destruct dropped; [by rewrite app_nil_r|]. by discriminate Hd.
Qed.
(** [C35.] Since its last accepted reconciliation a consumer has received, in order, a prefix of
    what the reader produced; what it has not received is in the queue, or was dropped,
    and then it has been told, or the marker is the last entry of the queue. A
    consumer that emptied the queue and was not told has seen everything. *)
Theorem gaps_are_told ops s g :
  Forall genuine ops → observe sink_new segment_new ops = (s, g) → sk_open s = true →
  ∃ waiting dropped, sg_produced g = sg_received g ++ waiting ++ dropped ∧
    (sg_told g = false → qn_notification <$> sk_queue s = waiting ++ (if bool_decide (dropped = []) && negb (sk_pending s) then [] else [ContinuityLost])) ∧
    (sg_told g = false → sk_queue s = [] → sg_received g = sg_produced g).
Proof. apply segment_told. Qed.
(** Only a notification that is by itself over the budget is refused: the marker's place
    is always free, and the arm for a full queue is dead. *)
Theorem marker_place_is_reserved ops n :
  Forall genuine ops → n ≠ ContinuityLost →
  (enqueue_notification (observe sink_new segment_new ops).1 n).2 = EnvelopeExceeded ↔ too_large n = true.
Proof.
  intros Hops Hn. destruct (observe sink_new segment_new ops) as [s g] eqn:E.
  destruct (segment_ok_reached ops s g Hops E) as (regs & marked & dropped & [Hok _ _ _]). cbn [fst].
  pose proof (enqueue_cases s regs marked n Hok Hn) as Hc. destruct (enqueue_notification s n) as [s' r].
  inversion Hc; subst; cbn; split; congruence.
Qed.

(** ** Reconciling *)
(** What happens between taking the epoch and giving it back: anything but another
    reconciliation. *)
Definition in_between (op : QueueOp) : bool := match op with QEnqueue _ | QRecv | QHold => true | _ => false end.
Definition offered (op : QueueOp) : bool := match op with QEnqueue n => negb (too_large n) | _ => false end.
Definition offers (ops : list QueueOp) : N := len (List.filter offered ops).
Lemma pending_step s op :
  in_between op = true → sk_pending s = true →
  sk_pending (queue_step s op) = true ∧
  sk_epoch (queue_step s op) = if offered op then wrapping_succ_u64 (sk_epoch s) else sk_epoch s.
Proof.
  intros Hop Hp. destruct op as [n| | |e|]; cbn [queue_step offered]; try done.
  - unfold enqueue_notification. fold (too_large n). destruct (too_large n); [done|]. by rewrite Hp.
  - unfold recv. destruct (sk_queue s) as [|q queue]; [done|]. cbn [fst].
    by destruct (released_fields q s queue) as (_ & -> & -> & _).
Qed.
Lemma pending_run ops s :
  Forall (λ op, in_between op = true) ops → sk_pending s = true → sk_epoch s ≤ u64_max →
  sk_epoch (queue_run s ops) = (sk_epoch s + offers ops) mod (u64_max + 1).
Proof.
  intros H. revert s. induction H as [|op ops Hop H IH]; intros s Hp He; cbn [queue_run foldl].
  - change (offers []) with 0. rewrite N.add_0_r. symmetry. apply N.mod_small. lia.
  - destruct (pending_step s op Hop Hp) as [Hp' He']. fold (queue_run (queue_step s op) ops). rewrite IH; [|done|].
    + rewrite He'. unfold offers. cbn [List.filter]. destruct (offered op); [|done]. rewrite len_cons.
      unfold wrapping_succ_u64. rewrite N.Div0.add_mod_idemp_l. f_equal. lia.
    + rewrite He'. destruct (offered op); [apply wrapping_bound|done].
Qed.
Lemma accepted_is_complete before ops s e s' :
  Forall genuine before → hold_continuity (observe sink_new segment_new before).1 = (s, e) →
  Forall genuine ops → Forall (λ op, in_between op = true) ops → offers ops ≤ u64_max →
  resume_after_reconcile (queue_run s ops) e = (s', true) →
  offers ops = 0 ∧ s' = MkSink [] NOTIFICATION_CAPACITY NOTIFICATION_MAX_QUEUED_BYTES false e (sk_open (queue_run s ops)).
Proof.
  intros Hb Hh Hg Hops Hn Hr. destruct (observe sink_new segment_new before) as [s0 g0] eqn:E0.
  destruct (segment_ok_reached before s0 g0 Hb E0) as (regs & marked & dropped & Hok). cbn [fst] in Hh.
  injection Hh as <- <-. set (s := MkSink _ _ _ true _ _) in *.
  assert (He : sk_epoch s0 ≤ u64_max) by apply (so_epoch _ _ _ (gk_sink _ _ _ _ _ Hok)).
  pose proof (pending_run ops s Hops eq_refl He) as Hp. cbn [sk_epoch s] in Hp.
  unfold resume_after_reconcile in Hr. destruct (N.eqb_spec (sk_epoch (queue_run s ops)) (sk_epoch s0)) as [Heq|]; [|done].
  cbn [negb] in Hr. rewrite Hp in Heq. injection Hr as <-.
  split.
  - pose proof (N.Div0.mod_eq (sk_epoch s0 + offers ops) (u64_max + 1)) as Hm. rewrite Heq in Hm.
    pose proof (N.Div0.mul_div_le (sk_epoch s0 + offers ops) (u64_max + 1)).
    destruct ((sk_epoch s0 + offers ops) / (u64_max + 1)) as [|q]; nia.
  - assert (∃ regs marked dropped, segment_ok s (segment_step s0 g0 QHold) regs marked dropped) as Hs.
    { apply (segment_ok_step s0 g0 QHold); [by exists regs, marked, dropped|done]. }
    assert (observe s (segment_step s0 g0 QHold) ops = (queue_run s ops, (observe s (segment_step s0 g0 QHold) ops).2)) as Hrun.
    { clear. generalize s (segment_step s0 g0 QHold). induction ops as [|op ops IH]; intros s1 g1; [done|]. cbn. by rewrite IH. }
    destruct (segment_ok_run ops s _ _ _ Hs Hg Hrun) as (regs' & marked' & dropped' & [Hok' _ _ _]).
    rewrite (sink_ok_drained _ _ _ Hok'). cbn. by rewrite Hp, Heq.
Qed.
(** With nothing produced in between the epoch is the one that was taken. *)
Lemma quiet_is_accepted before ops s e :
  Forall genuine before → hold_continuity (observe sink_new segment_new before).1 = (s, e) →
  Forall (λ op, in_between op = true) ops → offers ops = 0 → (resume_after_reconcile (queue_run s ops) e).2 = true.
Proof.
  intros Hb Hh Hops Hn. destruct (observe sink_new segment_new before) as [s0 g0] eqn:E0.
  destruct (segment_ok_reached before s0 g0 Hb E0) as (regs & marked & dropped & Hok). cbn [fst] in Hh.
  injection Hh as <- <-. set (s := MkSink _ _ _ true _ _).
  assert (He : sk_epoch s0 ≤ u64_max) by apply (so_epoch _ _ _ (gk_sink _ _ _ _ _ Hok)).
  pose proof (pending_run ops s Hops eq_refl He) as Hp. cbn [sk_epoch s] in Hp. rewrite Hn, N.add_0_r in Hp.
  rewrite N.mod_small in Hp by lia. unfold resume_after_reconcile. by rewrite Hp, N.eqb_refl.
Qed.
(** A consumer that took the epoch, read the authoritative state and gives the epoch back
    is accepted only if nothing was produced in between (unless the reader produced
    2^64 notifications): what the acceptance discards was produced before that state was
    read. The queue is then empty with its whole budget. *)
Theorem accepted_reconciliation_is_complete before ops s e s' :
  Forall genuine before → hold_continuity (observe sink_new segment_new before).1 = (s, e) →
  Forall genuine ops → Forall (λ op, in_between op = true) ops → offers ops ≤ u64_max →
  resume_after_reconcile (queue_run s ops) e = (s', true) →
  offers ops = 0 ∧ s' = MkSink [] NOTIFICATION_CAPACITY NOTIFICATION_MAX_QUEUED_BYTES false e (sk_open (queue_run s ops)).
Proof. apply accepted_is_complete. Qed.
