(* ===== verification/ControlPipe.v ===== *)
(** * The control client: commands, replies, notifications

    [src/cyclops-tmux/src/control.rs]: the write side ([CommandPipe],
    [write_command_line]), the reader ([reader_task]) with its resume worker, and
    [ControlClient::command].

    The state is one connection.  A step is what happens between two awaits of one
    task: a submission takes a permit, later gets the lock of the pipe and queues its
    reply slot, its bytes are accepted piece by piece under that lock, a line
    arrives at the reader, a future is dropped at an await.  Steps of different tasks
    interleave freely.  [ct_wire], [ct_routed], [ct_delivered] and [ct_returns] record
    what happened: the whole lines tmux got, the replies it gave to commands, who was
    handed which, and what each submission returned. *)
From S2P Require Import Prelude Text Identity Utf8 TmuxText ControlStream ControlQueue.
From S2P Require Import ControlQueue.
Local Open Scope N_scope.

Definition PENDING_REPLY_CAPACITY : N := 64.
Definition PAUSE_RESUME_CAPACITY : N := 64.

(** ** Writing a command line *)
(** The text of the protocol error quotes the command as Rust debug output does; it is
    named here by the command. *)
Definition validate_command_line (cmd : rstr) : result TmuxError () :=
  if existsb (λ c, (c =? 10) || (c =? 13)) cmd then Err (TmuxProtocol cmd) else Ok ().
(** One [write] of the pipe: how many bytes it took, or an error. *)
Inductive WriteAnswer := WrAccepted (n : N) | WrFailed.
Inductive CommandWriteError := Unwritten | Uncertain.
Definition write_answer (written : N) (a : WriteAnswer) : N + CommandWriteError :=
  let refused := inr (if written =? 0 then Unwritten else Uncertain) in
  match a with
  | WrAccepted n => if n =? 0 then refused else inl (written + n)
  | WrFailed => refused
  end.
(** The loop, with how many bytes were taken in the end; [None] is a write that still
    waits. *)
Fixpoint write_command_line (answers : list WriteAnswer) (flush : bool) (line : list N) (written : N)
    : option (N * result CommandWriteError ()) :=
  if written <? len line then
    match answers with
    | [] => None
    | a :: answers =>
        match write_answer written a with
        | inl written => write_command_line answers flush line written
        | inr e => Some (written, Err e)
        end
    end
  else Some (written, if flush then Ok () else Err Uncertain).

(** ** The pipe *)
Inductive ReplyTarget := RtCaller (id : N) | RtResume (pane : rstr).
Record CommandPipe := MkPipe {
  cp_stdin : bool;
  cp_pending : list ReplyTarget;
  cp_free : N;
  cp_closed : bool;
  cp_issued : N;
}.
Definition pipe_new : CommandPipe := MkPipe true [] PENDING_REPLY_CAPACITY false 0.
Definition take_permit (p : CommandPipe) : CommandPipe :=
  MkPipe (cp_stdin p) (cp_pending p) (cp_free p - 1) (cp_closed p) (cp_issued p).
Definition give_permits (n : N) (p : CommandPipe) : CommandPipe :=
  MkPipe (cp_stdin p) (cp_pending p) (cp_free p + n) (cp_closed p) (cp_issued p).
(** [try_acquire_owned]. *)
Definition try_acquire (p : CommandPipe) : result TmuxError CommandPipe :=
  if cp_closed p then Err TmuxDisconnected
  else if cp_free p =? 0 then Err TmuxBusy
  else Ok (take_permit p).
(** [acquire_owned]; [None] waits. *)
Definition reserve_capacity (p : CommandPipe) : option (result TmuxError CommandPipe) :=
  if cp_closed p then Some (Err TmuxDisconnected)
  else if cp_free p =? 0 then None
  else Some (Ok (take_permit p)).
(** [write_target] under the lock, up to the write; a refusal gives the permit back. *)
Definition push_slot (p : CommandPipe) (t : ReplyTarget) : CommandPipe * result TmuxError () :=
  if cp_stdin p then (MkPipe true (cp_pending p ++ [t]) (cp_free p) (cp_closed p) (cp_issued p), Ok ())
  else (give_permits 1 p, Err TmuxDisconnected).
Definition count_issued (p : CommandPipe) : CommandPipe :=
  MkPipe (cp_stdin p) (cp_pending p) (cp_free p) (cp_closed p) (cp_issued p + 1).
Definition drain_pending (p : CommandPipe) : CommandPipe :=
  MkPipe (cp_stdin p) [] (cp_free p + len (cp_pending p)) (cp_closed p) (cp_issued p).
Definition close_slots (p : CommandPipe) : CommandPipe :=
  MkPipe (cp_stdin p) (cp_pending p) (cp_free p) true (cp_issued p).
Definition drop_stdin (p : CommandPipe) : CommandPipe :=
  MkPipe false (cp_pending p) (cp_free p) (cp_closed p) (cp_issued p).
Definition poison_after_write_failure (p : CommandPipe) (e : CommandWriteError) : CommandPipe * TmuxError :=
  (drain_pending (close_slots (drop_stdin p)), match e with Unwritten => TmuxIo | Uncertain => TmuxWriteUncertain end).

(** ** The connection *)
(** What a submission returned, and how many bytes of its line the pipe had taken. *)
Record Submission := MkSubmission { sm_target : ReplyTarget; sm_cmd : rstr; sm_accepted : N; sm_result : result TmuxError () }.
(** The task that resumes paused panes: at [recv], before its permit, or in its write. *)
Inductive ResumeWorker := RwIdle | RwAcquiring (pane : rstr) | RwWriting | RwStopped.
Record Control := MkControl {
  ct_pipe : CommandPipe;
  ct_waiting : list (ReplyTarget * rstr);
  ct_writing : option (ReplyTarget * rstr * N);
  ct_reserved : N;
  ct_closers : N;
  ct_drains : N;
  ct_reader : bool;
  ct_router : LineRouter;
  ct_sink : NotificationSink;
  ct_resumes : list rstr;
  ct_worker : ResumeWorker;
  ct_wire : list (ReplyTarget * rstr);
  ct_routed : list (result rstr (list rstr));
  ct_delivered : list (ReplyTarget * result rstr (list rstr));
  ct_disconnected : list ReplyTarget;
  ct_returns : list Submission;
}.
Definition control_new : Control :=
  MkControl pipe_new [] None 0 0 0 true line_router_new sink_new [] RwIdle [] [] [] [] [].
(** The line on the wire is the UTF-8 of the command and a newline. *)
Definition command_line (cmd : rstr) : list N := utf8_bytes cmd ++ [10].
Definition set_pipe (c : Control) (p : CommandPipe) : Control :=
  MkControl p (ct_waiting c) (ct_writing c) (ct_reserved c) (ct_closers c) (ct_drains c) (ct_reader c) (ct_router c) (ct_sink c)
    (ct_resumes c) (ct_worker c) (ct_wire c) (ct_routed c) (ct_delivered c) (ct_disconnected c) (ct_returns c).
Definition set_waiting (c : Control) (w : list (ReplyTarget * rstr)) : Control :=
  MkControl (ct_pipe c) w (ct_writing c) (ct_reserved c) (ct_closers c) (ct_drains c) (ct_reader c) (ct_router c) (ct_sink c)
    (ct_resumes c) (ct_worker c) (ct_wire c) (ct_routed c) (ct_delivered c) (ct_disconnected c) (ct_returns c).
Definition set_writing (c : Control) (w : option (ReplyTarget * rstr * N)) : Control :=
  MkControl (ct_pipe c) (ct_waiting c) w (ct_reserved c) (ct_closers c) (ct_drains c) (ct_reader c) (ct_router c) (ct_sink c)
    (ct_resumes c) (ct_worker c) (ct_wire c) (ct_routed c) (ct_delivered c) (ct_disconnected c) (ct_returns c).
Definition set_reserved (c : Control) (n : N) : Control :=
  MkControl (ct_pipe c) (ct_waiting c) (ct_writing c) n (ct_closers c) (ct_drains c) (ct_reader c) (ct_router c) (ct_sink c)
    (ct_resumes c) (ct_worker c) (ct_wire c) (ct_routed c) (ct_delivered c) (ct_disconnected c) (ct_returns c).
Definition set_closing (c : Control) (closers drains : N) : Control :=
  MkControl (ct_pipe c) (ct_waiting c) (ct_writing c) (ct_reserved c) closers drains (ct_reader c) (ct_router c) (ct_sink c)
    (ct_resumes c) (ct_worker c) (ct_wire c) (ct_routed c) (ct_delivered c) (ct_disconnected c) (ct_returns c).
Definition set_reader (c : Control) (b : bool) (r : LineRouter) : Control :=
  MkControl (ct_pipe c) (ct_waiting c) (ct_writing c) (ct_reserved c) (ct_closers c) (ct_drains c) b r (ct_sink c)
    (ct_resumes c) (ct_worker c) (ct_wire c) (ct_routed c) (ct_delivered c) (ct_disconnected c) (ct_returns c).
Definition set_sink (c : Control) (s : NotificationSink) : Control :=
  MkControl (ct_pipe c) (ct_waiting c) (ct_writing c) (ct_reserved c) (ct_closers c) (ct_drains c) (ct_reader c) (ct_router c) s
    (ct_resumes c) (ct_worker c) (ct_wire c) (ct_routed c) (ct_delivered c) (ct_disconnected c) (ct_returns c).
Definition set_resumes (c : Control) (q : list rstr) (w : ResumeWorker) : Control :=
  MkControl (ct_pipe c) (ct_waiting c) (ct_writing c) (ct_reserved c) (ct_closers c) (ct_drains c) (ct_reader c) (ct_router c)
    (ct_sink c) q w (ct_wire c) (ct_routed c) (ct_delivered c) (ct_disconnected c) (ct_returns c).
Definition log_wire (c : Control) (t : ReplyTarget) (cmd : rstr) : Control :=
  MkControl (ct_pipe c) (ct_waiting c) (ct_writing c) (ct_reserved c) (ct_closers c) (ct_drains c) (ct_reader c) (ct_router c)
    (ct_sink c) (ct_resumes c) (ct_worker c) (ct_wire c ++ [(t, cmd)]) (ct_routed c) (ct_delivered c) (ct_disconnected c) (ct_returns c).
Definition log_routed (c : Control) (r : result rstr (list rstr)) : Control :=
  MkControl (ct_pipe c) (ct_waiting c) (ct_writing c) (ct_reserved c) (ct_closers c) (ct_drains c) (ct_reader c) (ct_router c)
    (ct_sink c) (ct_resumes c) (ct_worker c) (ct_wire c) (ct_routed c ++ [r]) (ct_delivered c) (ct_disconnected c) (ct_returns c).
Definition log_delivered (c : Control) (t : ReplyTarget) (r : result rstr (list rstr)) : Control :=
  MkControl (ct_pipe c) (ct_waiting c) (ct_writing c) (ct_reserved c) (ct_closers c) (ct_drains c) (ct_reader c) (ct_router c)
    (ct_sink c) (ct_resumes c) (ct_worker c) (ct_wire c) (ct_routed c) (ct_delivered c ++ [(t, r)]) (ct_disconnected c) (ct_returns c).
Definition log_disconnected (c : Control) (ts : list ReplyTarget) : Control :=
  MkControl (ct_pipe c) (ct_waiting c) (ct_writing c) (ct_reserved c) (ct_closers c) (ct_drains c) (ct_reader c) (ct_router c)
    (ct_sink c) (ct_resumes c) (ct_worker c) (ct_wire c) (ct_routed c) (ct_delivered c) (ct_disconnected c ++ ts) (ct_returns c).
Definition log_return (c : Control) (s : Submission) : Control :=
  MkControl (ct_pipe c) (ct_waiting c) (ct_writing c) (ct_reserved c) (ct_closers c) (ct_drains c) (ct_reader c) (ct_router c)
    (ct_sink c) (ct_resumes c) (ct_worker c) (ct_wire c) (ct_routed c) (ct_delivered c) (ct_disconnected c) (ct_returns c ++ [s]).

(** [close] up to its wait for the lock. *)
Definition begin_close (c : Control) : Control := set_closing (set_pipe c (close_slots (ct_pipe c))) (ct_closers c + 1) (ct_drains c).
(** A submission returns to who made it: a caller, or the resume worker. *)
Definition returns (c : Control) (t : ReplyTarget) (cmd : rstr) (accepted : N) (r : result TmuxError ()) : Control :=
  let c := log_return c (MkSubmission t cmd accepted r) in
  match t with
  | RtCaller _ => c
  | RtResume _ =>
      match r with
      | Ok _ => set_resumes c (ct_resumes c) RwIdle
      | Err _ => begin_close (set_resumes c [] RwStopped)
      end
  end.

(** ** The reader *)
(** The loop is left: the connection is closed. *)
Definition reader_stops (c : Control) : Control := begin_close (set_reader c false (ct_router c)).
Definition enqueue (c : Control) (n : TmuxNotification) : Control * bool :=
  let '(s, r) := enqueue_notification (ct_sink c) n in (set_sink c s, exceeds_envelope r).
Definition resume_send (c : Control) (pane : rstr) : Control :=
  match ct_worker c with
  | RwStopped => reader_stops c
  | w => if PAUSE_RESUME_CAPACITY <=? len (ct_resumes c) then reader_stops c else set_resumes c (ct_resumes c ++ [pane]) w
  end.
Definition on_notification (c : Control) (n : TmuxNotification) : Control :=
  let '(c, exceeded) := enqueue c n in
  if exceeded then reader_stops c
  else match n with Pause pane => resume_send c pane | _ => c end.
Definition on_reply (c : Control) (client : bool) (r : result rstr (list rstr)) : Control :=
  if negb client then c
  else
    let c := log_routed c r in
    let p := ct_pipe c in
    match cp_pending p with
    | [] => c
    | t :: pending =>
        let c := log_delivered (set_pipe c (MkPipe (cp_stdin p) pending (cp_free p + 1) (cp_closed p) (cp_issued p))) t r in
        match t, r with
        | RtResume pane, Ok _ =>
            let '(c, exceeded) := enqueue c (Continue pane) in if exceeded then reader_stops c else c
        | _, _ => c
        end
    end.
(** One line of the stream, without its newline. *)
Definition reader_line (c : Control) (line : list N) : Control :=
  let '(router, routed) := feed (ct_router c) line in
  let c := set_reader c (ct_reader c) router in
  match routed with
  | None => c
  | Some (RNotify n) => on_notification c n
  | Some (RReply client r) => on_reply c client r
  | Some RBlockOverflow => reader_stops c
  end.

(** ** Steps *)
Inductive CtlStep :=
| CSubmit (id : N) (cmd : rstr)
| CReserve
| CDropReserved
| CSubmitReserved (id : N) (cmd : rstr)
| CResumeTake
| CResumeAcquire
| CLock (i : nat)
| CWrite (a : WriteAnswer)
| CFlush (flushed : bool)
| CLine (line : list N)
| CReadEnds
| CConsumer (op : QueueOp)
| CCloseBegin
| CCloseLock
| CCloseDrain
| CDropWaiting (i : nat)
| CDropWriting.
Definition resume_command (pane : rstr) : rstr := str "refresh-client -A " ++ quote_arg (pane ++ str ":continue").
(** A permit is held: the submission waits for the lock. *)
Definition queue_writer (c : Control) (t : ReplyTarget) (cmd : rstr) : Control := set_waiting c (ct_waiting c ++ [(t, cmd)]).
Definition fails_write (c : Control) (t : ReplyTarget) (cmd : rstr) (written : N) (e : CommandWriteError) : Control :=
  let '(p, error) := poison_after_write_failure (ct_pipe c) e in
  returns (log_disconnected (set_pipe (set_writing c None) p) (cp_pending (ct_pipe c))) t cmd written (Err error).
(** [None]: the step cannot happen now. *)
Definition ctl_step (c : Control) (st : CtlStep) : option Control :=
  match st with
  | CSubmit id cmd =>
      Some match validate_command_line cmd with
           | Err e => returns c (RtCaller id) cmd 0 (Err e)
           | Ok _ =>
               match try_acquire (ct_pipe c) with
               | Err e => returns c (RtCaller id) cmd 0 (Err e)
               | Ok p => queue_writer (set_pipe c p) (RtCaller id) cmd
               end
           end
  | CReserve =>
      r ← reserve_capacity (ct_pipe c);
      Some match r with Err _ => c | Ok p => set_reserved (set_pipe c p) (ct_reserved c + 1) end
  | CDropReserved =>
      if ct_reserved c =? 0 then None else Some (set_reserved (set_pipe c (give_permits 1 (ct_pipe c))) (ct_reserved c - 1))
  | CSubmitReserved id cmd =>
      if ct_reserved c =? 0 then None
      else
        Some match validate_command_line cmd with
             | Err e => returns (set_reserved (set_pipe c (give_permits 1 (ct_pipe c))) (ct_reserved c - 1)) (RtCaller id) cmd 0 (Err e)
             | Ok _ => queue_writer (set_reserved c (ct_reserved c - 1)) (RtCaller id) cmd
             end
  | CResumeTake =>
      match ct_worker c, ct_resumes c with
      | RwIdle, pane :: q => Some (set_resumes c q (RwAcquiring pane))
      | _, _ => None
      end
  | CResumeAcquire =>
      match ct_worker c with
      | RwAcquiring pane =>
          let cmd := resume_command pane in
          match validate_command_line cmd with
          | Err e => Some (returns c (RtResume pane) cmd 0 (Err e))
          | Ok _ =>
              r ← reserve_capacity (ct_pipe c);
              Some match r with
                   | Err e => returns c (RtResume pane) cmd 0 (Err e)
                   | Ok p => queue_writer (set_resumes (set_pipe c p) (ct_resumes c) RwWriting) (RtResume pane) cmd
                   end
          end
      | _ => None
      end
  | CLock i =>
      match ct_writing c, ct_waiting c !! i with
      | None, Some (t, cmd) =>
          let c := set_waiting c (delete i (ct_waiting c)) in
          match push_slot (ct_pipe c) t with
          | (p, Ok _) => Some (set_writing (set_pipe c p) (Some (t, cmd, 0)))
          | (p, Err e) => Some (returns (set_pipe c p) t cmd 0 (Err e))
          end
      | _, _ => None
      end
  | CWrite a =>
      '(t, cmd, written) ← ct_writing c;
      if negb (written <? len (command_line cmd)) then None
      else
        match write_answer written a with
        | inr e => Some (fails_write c t cmd written e)
        | inl written' =>
            if len (command_line cmd) <? written' then None
            else
              let c := set_writing c (Some (t, cmd, written')) in
              Some (if written' =? len (command_line cmd) then log_wire c t cmd else c)
        end
  | CFlush flushed =>
      '(t, cmd, written) ← ct_writing c;
      if written <? len (command_line cmd) then None
      else
        Some (if flushed then returns (set_pipe (set_writing c None) (count_issued (ct_pipe c))) t cmd written (Ok ())
              else fails_write c t cmd written Uncertain)
  | CLine line => if ct_reader c then Some (reader_line c line) else None
  | CReadEnds => if ct_reader c then Some (reader_stops c) else None
  | CConsumer op =>
      match op with
      | QEnqueue _ => None
      | _ => Some (set_sink c (queue_step (ct_sink c) op))
      end
  | CCloseBegin => Some (begin_close c)
  | CCloseLock =>
      match ct_writing c with
      | None =>
          if ct_closers c =? 0 then None
          else Some (set_closing (set_pipe c (drop_stdin (ct_pipe c))) (ct_closers c - 1) (ct_drains c + 1))
      | Some _ => None
      end
  | CCloseDrain =>
      if ct_drains c =? 0 then None
      else Some (set_closing (log_disconnected (set_pipe c (drain_pending (ct_pipe c))) (cp_pending (ct_pipe c))) (ct_closers c) (ct_drains c - 1))
  | CDropWaiting i =>
      match ct_waiting c !! i with
      | Some (RtCaller _, _) => Some (set_waiting (set_pipe c (give_permits 1 (ct_pipe c))) (delete i (ct_waiting c)))
      | _ => None
      end
  | CDropWriting => match ct_writing c with Some (RtCaller _, _, _) => Some (set_writing c None) | _ => None end
  end.
Fixpoint ctl_run (c : Control) (sts : list CtlStep) : option Control :=
  match sts with [] => Some c | st :: sts => c ← ctl_step c st; ctl_run c sts end.

(** ** [ControlClient::command] *)
(** What the caller's slot was sent: the reply, or the connection's end. *)
Inductive SlotSent := SlotReply (r : result rstr (list rstr)) | SlotClosed.
Definition slot_result (s : SlotSent) : result TmuxError (list rstr) :=
  match s with SlotReply (Ok lines) => Ok lines | SlotReply (Err text) => Err (TmuxCommand text) | SlotClosed => Err TmuxDisconnected end.
(** [None]: nothing arrived within the timeout. *)
Definition command (submitted : result TmuxError ()) (sent : option SlotSent) (cmd : rstr) : result TmuxError (list rstr) :=
  match submitted with
  | Err e => Err e
  | Ok _ => match sent with Some s => slot_result s | None => Err (TmuxTimeout cmd) end
  end.

(** * Properties of the control client

    Replies reach who asked: the k-th reply goes to the k-th command, however the
    submissions interleave and however slow their callers are; a submission says
    truthfully whether its bytes left; the permits bound what waits.  One task can
    break this: a write whose future is dropped before its bytes are taken. *)

(** ** Histories *)
(** What tmux promises: a reply flagged as the client's answers a command line that it
    has read whole, and each is answered once. *)
Definition tmux_answers (c : Control) (st : CtlStep) : bool :=
  match st with
  | CLine line =>
      match (feed (ct_router c) line).2 with
      | Some (RReply true _) => (length (ct_routed c) <? length (ct_wire c))%nat
      | _ => true
      end
  | _ => true
  end.
(** No future is dropped while its line is not yet whole in the pipe. *)
Definition writes_finish (c : Control) (st : CtlStep) : bool :=
  match st, ct_writing c with
  | CDropWriting, Some (_, cmd, written) => negb (written <? len (command_line cmd))
  | _, _ => true
  end.
Inductive reached : Control → Prop :=
| reached_new : reached control_new
| reached_step c st c' :
    reached c → tmux_answers c st = true → writes_finish c st = true → ctl_step c st = Some c' → reached c'.

(** ** The invariant *)
Definition in_flight (c : Control) : list ReplyTarget :=
  match ct_writing c with Some (t, cmd, written) => if written <? len (command_line cmd) then [t] else [] | None => [] end.
Definition submission_ok (wire : list (ReplyTarget * rstr)) (s : Submission) : Prop :=
  match sm_result s with
  | Ok _ => sm_accepted s = len (command_line (sm_cmd s)) ∧ (sm_target s, sm_cmd s) ∈ wire
  | Err TmuxWriteUncertain => 0 < sm_accepted s ≤ len (command_line (sm_cmd s))
  | Err _ => sm_accepted s = 0
  end.
(** Up, the lines and their replies are in step; closed, nothing more is handed out. *)
Definition in_step (c : Control) : Prop :=
  (ct_wire c).*1 ++ in_flight c = (ct_delivered c).*1 ++ cp_pending (ct_pipe c) ∧ (ct_delivered c).*2 = ct_routed c.
Definition drained (c : Control) : Prop :=
  cp_stdin (ct_pipe c) = false ∧ cp_pending (ct_pipe c) = [] ∧
  (ct_delivered c).*1 `prefix_of` (ct_wire c).*1 ∧ (ct_delivered c).*2 `prefix_of` ct_routed c.
Record ctl_ok (c : Control) : Prop := {
  ck_permits : cp_free (ct_pipe c) + len (cp_pending (ct_pipe c)) + len (ct_waiting c) + ct_reserved c = PENDING_REPLY_CAPACITY;
  ck_stdin : cp_stdin (ct_pipe c) = false → ct_writing c = None;
  ck_drains : ct_drains c ≠ 0 → cp_stdin (ct_pipe c) = false;
  ck_order : in_step c ∨ drained c;
  ck_routed : (length (ct_routed c) ≤ length (ct_wire c))%nat;
  ck_writing : ∀ t cmd w, ct_writing c = Some (t, cmd, w) →
    w ≤ len (command_line cmd) ∧ (w = len (command_line cmd) → (t, cmd) ∈ ct_wire c);
  ck_returns : Forall (submission_ok (ct_wire c)) (ct_returns c);
}.
Lemma ctl_ok_new : ctl_ok control_new.
Proof. split; try done. by left. Qed.
Lemma begin_close_ok c : ctl_ok c → ctl_ok (begin_close c).
Proof. intros []. by split. Qed.
Lemma set_resumes_ok c q w : ctl_ok c → ctl_ok (set_resumes c q w).
Proof. intros []. by split. Qed.
Lemma set_sink_ok c s : ctl_ok c → ctl_ok (set_sink c s).
Proof. intros []. by split. Qed.
Lemma set_reader_ok c b r : ctl_ok c → ctl_ok (set_reader c b r).
Proof. intros []. by split. Qed.
Lemma log_disconnected_ok c ts : ctl_ok c → ctl_ok (log_disconnected c ts).
Proof. intros []. by split. Qed.
Lemma set_closers_ok c n : ctl_ok c → ctl_ok (set_closing c n (ct_drains c)).
Proof. intros []. by split. Qed.
Lemma reader_stops_ok c : ctl_ok c → ctl_ok (reader_stops c).
Proof. intros H. by apply begin_close_ok, set_reader_ok. Qed.
Lemma log_return_ok c s : ctl_ok c → submission_ok (ct_wire c) s → ctl_ok (log_return c s).
Proof. intros [] Hs. split; try done. cbn. apply Forall_app. split; [done|]. by constructor. Qed.
Lemma returns_ok c t cmd w r : ctl_ok c → submission_ok (ct_wire c) (MkSubmission t cmd w r) → ctl_ok (returns c t cmd w r).
Proof.
  intros Hok Hs. unfold returns. destruct t as [id|pane]; [by apply log_return_ok|].
  destruct r; [apply set_resumes_ok|apply begin_close_ok, set_resumes_ok]; by apply log_return_ok.
Qed.
Lemma refused_ok wire t cmd e : e ≠ TmuxWriteUncertain → submission_ok wire (MkSubmission t cmd 0 (Err e)).
Proof. by destruct e. Qed.
Lemma enqueue_ok c n c' b : ctl_ok c → enqueue c n = (c', b) → ctl_ok c'.
Proof. unfold enqueue. destruct (enqueue_notification _ n) as [s r]. intros Hok [= <- _]. by apply set_sink_ok. Qed.
Create HintDb ctl.
#[export] Hint Resolve begin_close_ok set_resumes_ok set_sink_ok set_reader_ok log_disconnected_ok set_closers_ok reader_stops_ok
  log_return_ok returns_ok refused_ok : ctl.

Lemma on_notification_ok c n : ctl_ok c → ctl_ok (on_notification c n).
Proof.
  intros Hok. unfold on_notification. destruct (enqueue c n) as [c1 b] eqn:E. pose proof (enqueue_ok _ _ _ _ Hok E).
  destruct b; [by auto with ctl|]. destruct n; try done. unfold resume_send.
  destruct (ct_worker c1); try destruct (_ <=? _); by auto with ctl.
Qed.
Lemma log_routed_ok c r :
  ctl_ok c → drained c → (length (ct_routed c) < length (ct_wire c))%nat → ctl_ok (log_routed c r).
Proof.
  intros [] (H1 & H2 & H3 & H4) Hlt. split; try done.
  - right. split_and!; try done. cbn. by apply prefix_app_r.
  - cbn. rewrite length_app. cbn. lia.
Qed.
(** A reply that comes while the connection is up always has a slot. *)
Lemma in_step_slot c :
  in_step c → (length (ct_routed c) < length (ct_wire c))%nat → cp_pending (ct_pipe c) ≠ [].
Proof.
  intros [Ho Hd] Hlt Hp. apply (f_equal length) in Ho, Hd. rewrite Hp, !length_app, !length_fmap in Ho.
  rewrite length_fmap in Hd. cbn in Ho. lia.
Qed.
Definition popped (c : Control) (t : ReplyTarget) (pending : list ReplyTarget) (r : result rstr (list rstr)) : Control :=
  let p := ct_pipe c in
  log_delivered (set_pipe (log_routed c r) (MkPipe (cp_stdin p) pending (cp_free p + 1) (cp_closed p) (cp_issued p))) t r.
Lemma popped_ok c t pending r :
  ctl_ok c → (length (ct_routed c) < length (ct_wire c))%nat → cp_pending (ct_pipe c) = t :: pending →
  ctl_ok (popped c t pending r).
Proof.
  intros [Hp Hs Hd Ho Hr Hw Hret] Hlt Hpend. split; try done; cbn.
  - rewrite Hpend, len_cons in Hp. lia.
  - left. destruct Ho as [[Ho1 Ho2]|(_ & Ho & _)]; [|congruence]. split; cbn.
    + change (in_flight (popped _ _ _ _)) with (in_flight c). rewrite Ho1, Hpend, fmap_app, <- app_assoc. done.
    + by rewrite fmap_app, Ho2.
  - rewrite length_app. cbn. lia.
Qed.
Lemma on_reply_ok c client r :
  ctl_ok c → (client = true → (length (ct_routed c) < length (ct_wire c))%nat) → ctl_ok (on_reply c client r).
Proof.
  intros Hok Hc. unfold on_reply. destruct client; cbn [negb]; [|done]. specialize (Hc eq_refl).
  change (ct_pipe (log_routed c r)) with (ct_pipe c). destruct (cp_pending (ct_pipe c)) as [|t pending] eqn:Ep.
  - apply log_routed_ok; try done. destruct (ck_order c Hok) as [Hi|]; [|done]. by destruct (in_step_slot c Hi Hc).
  - pose proof (popped_ok c t pending r Hok Hc Ep) as Hpop. fold (popped c t pending r).
    destruct t as [id|pane]; [done|]. destruct r as [ls|e]; [|done].
    destruct (enqueue _ _) as [c1 b] eqn:E. pose proof (enqueue_ok _ _ _ _ Hpop E). destruct b; by auto with ctl.
Qed.
Lemma reader_line_ok c line : ctl_ok c → tmux_answers c (CLine line) = true → ctl_ok (reader_line c line).
Proof.
  intros Hok Ht. unfold reader_line. cbn [tmux_answers] in Ht. destruct (feed (ct_router c) line) as [router [[n|client r|]|]];
    cbn [snd] in Ht; [apply on_notification_ok|apply on_reply_ok|..]; auto with ctl.
  intros ->. cbn. by apply Nat.ltb_lt.
Qed.

(** ** Steps keep it *)
Lemma submission_ok_wire wire more s : submission_ok wire s → submission_ok (wire ++ more) s.
Proof. unfold submission_ok. destruct (sm_result s) as [u|e]; [|done]. intros [? ?]. split; [done|]. apply elem_of_app. by left. Qed.
Lemma try_acquire_Ok p p' : try_acquire p = Ok p' → p' = take_permit p ∧ cp_free p ≠ 0.
Proof. unfold try_acquire. destruct (cp_closed p); [done|]. destruct (N.eqb_spec (cp_free p) 0); [done|]. by intros [= <-]. Qed.
Lemma try_acquire_Err p e : try_acquire p = Err e → e ≠ TmuxWriteUncertain.
Proof. unfold try_acquire. destruct (cp_closed p); [by intros [= <-]|]. by destruct (_ =? 0); [intros [= <-]|]. Qed.
Lemma reserve_capacity_Ok p p' : reserve_capacity p = Some (Ok p') → p' = take_permit p ∧ cp_free p ≠ 0.
Proof. unfold reserve_capacity. destruct (cp_closed p); [done|]. destruct (N.eqb_spec (cp_free p) 0); [done|]. by intros [= <-]. Qed.
Lemma reserve_capacity_Err p e : reserve_capacity p = Some (Err e) → e ≠ TmuxWriteUncertain.
Proof. unfold reserve_capacity. destruct (cp_closed p); [by intros [= <-]|]. by destruct (_ =? 0). Qed.
Lemma validate_Err cmd e : validate_command_line cmd = Err e → e ≠ TmuxWriteUncertain.
Proof. unfold validate_command_line. destruct (existsb _ _); [by intros [= <-]|done]. Qed.
(** A permit becomes a waiting submission; a waiting one becomes a permit. *)
Lemma permit_waits_ok c t cmd :
  ctl_ok c → cp_free (ct_pipe c) ≠ 0 → ctl_ok (queue_writer (set_pipe c (take_permit (ct_pipe c))) t cmd).
Proof.
  intros [Hp Hs Hd Ho Hr Hw Hret] Hf. split; try done; cbn. rewrite len_app, len_cons. change (len []) with 0. lia.
Qed.
Lemma len_delete {A} (l : list A) i x : l !! i = Some x → len l = len (delete i l) + 1.
Proof. intros H. unfold len. rewrite (length_delete l i); [|by exists x]. apply lookup_lt_Some in H. lia. Qed.
Lemma waiting_gives_ok c i t cmd :
  ctl_ok c → ct_waiting c !! i = Some (t, cmd) →
  ctl_ok (set_pipe (set_waiting c (delete i (ct_waiting c))) (give_permits 1 (ct_pipe c))).
Proof.
  intros [Hp Hs Hd Ho Hr Hw Hret] Hi. split; try done; cbn. rewrite (len_delete _ _ _ Hi) in Hp. lia.
Qed.
Lemma reserved_gives_ok c :
  ctl_ok c → ct_reserved c ≠ 0 → ctl_ok (set_reserved (set_pipe c (give_permits 1 (ct_pipe c))) (ct_reserved c - 1)).
Proof. intros [Hp Hs Hd Ho Hr Hw Hret] Hf. split; try done; cbn. lia. Qed.
Lemma push_ok c i t cmd :
  ctl_ok c → ct_writing c = None → ct_waiting c !! i = Some (t, cmd) → cp_stdin (ct_pipe c) = true →
  ctl_ok (set_writing (set_pipe (set_waiting c (delete i (ct_waiting c)))
    (MkPipe true (cp_pending (ct_pipe c) ++ [t]) (cp_free (ct_pipe c)) (cp_closed (ct_pipe c)) (cp_issued (ct_pipe c)))) (Some (t, cmd, 0))).
Proof.
  intros [Hp Hs Hd Ho Hr Hw Hret] Hn Hi Hst.
  assert (0 < len (command_line cmd)) as Hlen by (unfold command_line; rewrite len_app, len_cons; lia).
  split; try done; cbn.
  - rewrite (len_delete _ _ _ Hi) in Hp. rewrite len_app, len_cons. change (len []) with 0. lia.
  - intros Hdr. apply Hd in Hdr. congruence.
  - left. destruct Ho as [[Ho1 Ho2]|(Ho & _)]; [|congruence]. split; [|done]. cbn.
    unfold in_flight in *. rewrite Hn, app_nil_r in Ho1. cbn [ct_writing set_writing]. rewrite (proj2 (N.ltb_lt _ _)) by done.
    by rewrite Ho1, app_assoc.
  - intros t' cmd' w [= <- <- <-]. split; lia.
Qed.
Lemma app_prefix {A} (a b c d : list A) : a ++ b = c ++ d → (length c ≤ length a)%nat → c `prefix_of` a.
Proof.
  intros He Hl. destruct (app_eq_inv _ _ _ _ He) as [(k & -> & _)|(k & -> & _)]; [by eexists|].
  rewrite length_app in Hl. destruct k; [|cbn in Hl; lia]. by rewrite app_nil_r.
Qed.
Lemma drained_prefix c : ctl_ok c → in_step c →
  (ct_delivered c).*1 `prefix_of` (ct_wire c).*1 ∧ (ct_delivered c).*2 `prefix_of` ct_routed c.
Proof.
  intros Hok [Ho Hd]. split; [|by rewrite Hd]. eapply app_prefix; [exact Ho|]. rewrite !length_fmap.
  rewrite <- (length_fmap snd (ct_delivered c)), Hd. apply Hok.
Qed.
Lemma order_prefix c : ctl_ok c →
  (ct_delivered c).*1 `prefix_of` (ct_wire c).*1 ∧ (ct_delivered c).*2 `prefix_of` ct_routed c.
Proof. intros Hok. destruct (ck_order c Hok) as [Hi|(_ & _ & ? & ?)]; [by apply drained_prefix|done]. Qed.
(** Failing everything that waits for a reply. *)
Lemma drain_ok c p :
  ctl_ok c → ct_writing c = None → cp_stdin p = false → cp_pending p = [] →
  cp_free p = cp_free (ct_pipe c) + len (cp_pending (ct_pipe c)) → ctl_ok (set_pipe c p).
Proof.
  intros Hok Hn Hst Hpe Hf. pose proof (order_prefix c Hok) as [H1 H2]. destruct Hok as [Hp Hs Hd Ho Hr Hw Hret].
  split; try done; cbn.
  - rewrite Hf, Hpe. change (len []) with 0. lia.
  - right. by split_and!.
Qed.
Lemma write_answer_inr w a e : write_answer w a = inr e → e = if w =? 0 then Unwritten else Uncertain.
Proof. unfold write_answer. destruct a as [n|]; [destruct (n =? 0)|]; by intros [= <-]. Qed.
Lemma write_answer_inl w a w' : write_answer w a = inl w' → w < w'.
Proof. unfold write_answer. destruct a as [n|]; [|done]. destruct (N.eqb_spec n 0); [done|]. intros [= <-]. lia. Qed.
Lemma fails_write_ok c t cmd w e :
  ctl_ok c → ct_writing c = Some (t, cmd, w) → (e = if w =? 0 then Unwritten else Uncertain) →
  ctl_ok (fails_write c t cmd w e).
Proof.
  intros Hok Hwr He. unfold fails_write, poison_after_write_failure.
  pose proof (order_prefix c Hok) as [H1 H2]. destruct (ck_writing c Hok _ _ _ Hwr) as [Hle _].
  apply returns_ok.
  - apply log_disconnected_ok. destruct Hok as [Hp Hs Hd Ho Hr Hw Hret]. split; try done; cbn; [|by right].
    change (len []) with 0. lia.
  - subst e. destruct (N.eqb_spec w 0) as [->|]; [done|]. split; [cbn; lia|done].
Qed.
Lemma progress_ok c t cmd w w' :
  ctl_ok c → ct_writing c = Some (t, cmd, w) → w < len (command_line cmd) → w < w' ≤ len (command_line cmd) →
  ctl_ok (if w' =? len (command_line cmd) then log_wire (set_writing c (Some (t, cmd, w'))) t cmd
          else set_writing c (Some (t, cmd, w'))).
Proof.
  intros Hok Hwr Hlt Hw'. pose proof (order_prefix c Hok) as [H1 H2]. destruct Hok as [Hp Hs Hd Ho Hr Hw Hret].
  assert (cp_stdin (ct_pipe c) = true) as Hst by (destruct (cp_stdin _); [done|rewrite Hs in Hwr; done]).
  destruct Ho as [[Ho1 Ho2]|(Ho & _)]; [|congruence]. unfold in_flight in Ho1. rewrite Hwr, (proj2 (N.ltb_lt _ _)) in Ho1 by done.
  destruct (N.eqb_spec w' (len (command_line cmd))) as [->|Hne]; split; try done; cbn.
  - congruence.
  - left. split; [|done]. unfold in_flight. cbn. rewrite N.ltb_irrefl, fmap_app, app_nil_r. done.
  - rewrite length_app. lia.
  - intros ? ? ? [= <- <- <-]. split; [done|]. intros _. apply elem_of_app. right. by apply list_elem_of_singleton.
  - eapply Forall_impl; [exact Hret|]. intros s. apply submission_ok_wire.
  - congruence.
  - left. split; [|done]. unfold in_flight. cbn. rewrite (proj2 (N.ltb_lt _ _)) by lia. done.
  - intros ? ? ? [= <- <- <-]. split; lia.
Qed.
(** The writer lets go of the lock with its line whole on the wire. *)
Lemma released_lock_ok c t cmd w p :
  ctl_ok c → ct_writing c = Some (t, cmd, w) → (w <? len (command_line cmd)) = false →
  cp_stdin p = cp_stdin (ct_pipe c) → cp_pending p = cp_pending (ct_pipe c) → cp_free p = cp_free (ct_pipe c) →
  ctl_ok (set_pipe (set_writing c None) p).
Proof.
  intros Hok Hwr Hge E1 E2 E3. destruct Hok as [Hp Hs Hd Ho Hr Hw Hret].
  split; try done; cbn; rewrite ?E1, ?E2, ?E3; try done.
  destruct Ho as [[Ho1 Ho2]|(? & ? & ? & ?)]; [left|right; split_and!; cbn; congruence || done].
  unfold in_flight in Ho1. rewrite Hwr, Hge in Ho1. split; [|done]. cbn. by rewrite E2.
Qed.
Lemma close_lock_ok c :
  ctl_ok c → ct_writing c = None → ctl_ok (set_closing (set_pipe c (drop_stdin (ct_pipe c))) (ct_closers c - 1) (ct_drains c + 1)).
Proof.
  intros [Hp Hs Hd Ho Hr Hw Hret] Hn. split; try done; cbn.
  destruct Ho as [[Ho1 Ho2]|(? & ? & ? & ?)]; [by left|by right].
Qed.
#[export] Hint Resolve permit_waits_ok reserved_gives_ok reader_line_ok fails_write_ok try_acquire_Err reserve_capacity_Err validate_Err : ctl.
Lemma reserved_waits_ok c t cmd :
  ctl_ok c → ct_reserved c ≠ 0 → ctl_ok (queue_writer (set_reserved c (ct_reserved c - 1)) t cmd).
Proof.
  intros [Hp Hs Hd Ho Hr Hw Hret] Hf. split; try done; cbn. rewrite len_app, len_cons. change (len []) with 0. lia.
Qed.
Lemma permit_reserved_ok c :
  ctl_ok c → cp_free (ct_pipe c) ≠ 0 → ctl_ok (set_reserved (set_pipe c (take_permit (ct_pipe c))) (ct_reserved c + 1)).
Proof. intros [Hp Hs Hd Ho Hr Hw Hret] Hf. split; try done; cbn. lia. Qed.
Lemma close_drain_ok c :
  ctl_ok c → ct_drains c ≠ 0 →
  ctl_ok (set_closing (log_disconnected (set_pipe c (drain_pending (ct_pipe c))) (cp_pending (ct_pipe c))) (ct_closers c) (ct_drains c - 1)).
Proof.
  intros Hok Hd. pose proof (ck_drains c Hok Hd) as Hst.
  assert (ctl_ok (set_pipe c (drain_pending (ct_pipe c)))) as [Hp' Hs' Hd' Ho' Hr' Hw' Hret'].
  { apply drain_ok; try done. by apply (ck_stdin c Hok). }
  by split.
Qed.
Lemma ctl_ok_step c st c' :
  ctl_ok c → tmux_answers c st = true → writes_finish c st = true → ctl_step c st = Some c' → ctl_ok c'.
Proof.
  intros Hok Ht Hf Hs. destruct st as [id cmd| | |id cmd| | |i|a|flushed|line| |op| | | |i|]; cbn [ctl_step] in Hs.
  - injection Hs as <-. destruct (validate_command_line cmd) eqn:Ev; [|by eauto 6 with ctl].
    destruct (try_acquire (ct_pipe c)) as [p|e] eqn:Ea; [|by eauto 6 with ctl].
    apply try_acquire_Ok in Ea as [-> ?]. by auto with ctl.
  - destruct (reserve_capacity (ct_pipe c)) as [[p|e]|] eqn:Ea; [| |done]; injection Hs as <-; [|done].
    apply reserve_capacity_Ok in Ea as [-> ?]. by apply permit_reserved_ok.
  - destruct (N.eqb_spec (ct_reserved c) 0); [done|]. injection Hs as <-. by auto with ctl.
  - destruct (N.eqb_spec (ct_reserved c) 0); [done|]. injection Hs as <-.
    destruct (validate_command_line cmd) eqn:Ev; [by apply reserved_waits_ok|by eauto 6 with ctl].
  - destruct (ct_worker c), (ct_resumes c); try done. injection Hs as <-. by auto with ctl.
  - destruct (ct_worker c) as [|pane| |]; try done.
    destruct (validate_command_line _) eqn:Ev; [|injection Hs as <-; by eauto 6 with ctl].
    destruct (reserve_capacity (ct_pipe c)) as [[p|e]|] eqn:Ea; [| |done]; injection Hs as <-; [|by eauto 6 with ctl].
    apply reserve_capacity_Ok in Ea as [-> ?].
    change (ctl_ok (queue_writer (set_pipe (set_resumes c (ct_resumes c) RwWriting) (take_permit (ct_pipe (set_resumes c (ct_resumes c) RwWriting))))
      (RtResume pane) (resume_command pane))). by auto with ctl.
  - destruct (ct_writing c) eqn:Ew; [done|]. destruct (ct_waiting c !! i) as [[t cmd]|] eqn:Ei; [|done].
    unfold push_slot in Hs. cbn [ct_pipe set_waiting] in Hs. destruct (cp_stdin (ct_pipe c)) eqn:Est; injection Hs as <-.
    + by apply (push_ok c i).
    + apply returns_ok; [by eapply waiting_gives_ok|done].
  - destruct (ct_writing c) as [[[t cmd] w]|] eqn:Ew; [|done]. cbn [mbind option_bind] in Hs.
    destruct (N.ltb_spec w (len (command_line cmd))) as [Hlt|]; [|done]. cbn [negb] in Hs.
    destruct (write_answer w a) as [w'|e] eqn:Ea.
    + destruct (N.ltb_spec (len (command_line cmd)) w') as [|Hle]; [done|]. injection Hs as <-.
      apply write_answer_inl in Ea. by eapply progress_ok.
    + injection Hs as <-. apply write_answer_inr in Ea. by apply fails_write_ok.
  - destruct (ct_writing c) as [[[t cmd] w]|] eqn:Ew; [|done]. cbn [mbind option_bind] in Hs.
    destruct (w <? len (command_line cmd)) eqn:Elt; [done|]. injection Hs as <-.
    destruct (ck_writing c Hok _ _ _ Ew) as [Hle Hin]. apply N.ltb_ge in Elt as Hge.
    assert (w = len (command_line cmd)) as Hw by lia. destruct flushed.
    + apply returns_ok; [by eapply released_lock_ok|]. split; [done|by apply Hin].
    + apply fails_write_ok; try done. destruct (N.eqb_spec w 0); [|done].
      unfold command_line in Hw. rewrite len_app, len_cons in Hw. lia.
  - destruct (ct_reader c); [|done]. injection Hs as <-. by auto with ctl.
  - destruct (ct_reader c); [|done]. injection Hs as <-. by auto with ctl.
  - destruct op; try done; injection Hs as <-; by auto with ctl.
  - injection Hs as <-. by auto with ctl.
  - destruct (ct_writing c) eqn:Ew; [done|]. destruct (_ =? 0); [done|]. injection Hs as <-. by apply close_lock_ok.
  - destruct (N.eqb_spec (ct_drains c) 0); [done|]. injection Hs as <-. by apply close_drain_ok.
  - destruct (ct_waiting c !! i) as [[[id|pane] cmd]|] eqn:Ei; try done. injection Hs as <-.
    by apply (waiting_gives_ok c i (RtCaller id) cmd).
  - cbn [writes_finish] in Hf. destruct (ct_writing c) as [[[[id|pane] cmd] w]|] eqn:Ew; try done. injection Hs as <-.
    apply negb_true_iff in Hf. apply (released_lock_ok c (RtCaller id) cmd w (ct_pipe c) Hok Ew Hf); done.
Qed.
Lemma reached_ok c : reached c → ctl_ok c.
Proof. induction 1; [apply ctl_ok_new|by eapply ctl_ok_step]. Qed.

(** ** What it promises *)
Lemma zip_prefix {A B} (d : list (A * B)) (a : list A) (b : list B) :
  d.*1 `prefix_of` a → d.*2 `prefix_of` b → d = take (length d) (zip a b).
Proof.
  intros [a' ->] [b' ->]. induction d as [|[x y] d IH]; [done|]. cbn. by f_equal.
Qed.
(** [C23.] Replies reach who asked. Whatever submissions, writes, flow control, closings and
    abandoned waits do in between, the k-th reply that tmux gave went to the target of the
    k-th command line that tmux got; and while the pipe is open, every reply that has
    come was handed to its target. *)
Theorem replies_reach_their_command c :
  reached c →
  ct_delivered c = take (length (ct_delivered c)) (zip (ct_wire c).*1 (ct_routed c)) ∧
  (cp_stdin (ct_pipe c) = true → length (ct_delivered c) = length (ct_routed c)).
Proof.
  intros Hok%reached_ok. split.
  - by apply zip_prefix; apply order_prefix.
  - intros Hst. destruct (ck_order c Hok) as [[_ Hd]|[? _]]; [|congruence]. by rewrite <- Hd, length_fmap.
Qed.
(** A submission says what left the client: it succeeds only with its line whole on the
    wire; its plain I/O error means that not one byte was taken; an uncertain
    outcome, that some were. *)
Theorem submissions_tell_what_left c s :
  reached c → s ∈ ct_returns c →
  match sm_result s with
  | Ok _ => sm_accepted s = len (command_line (sm_cmd s)) ∧ (sm_target s, sm_cmd s) ∈ ct_wire c
  | Err TmuxWriteUncertain => 0 < sm_accepted s ≤ len (command_line (sm_cmd s))
  | Err _ => sm_accepted s = 0
  end.
Proof. intros Hok%reached_ok Hs. exact (Forall_elem _ _ _ (ck_returns c Hok) Hs). Qed.
(** At most [PENDING_REPLY_CAPACITY] submissions are waiting for the lock or for a reply at
    any time, reserved input included. *)
Theorem pending_replies_are_bounded c :
  reached c → len (cp_pending (ct_pipe c)) + len (ct_waiting c) + ct_reserved c ≤ PENDING_REPLY_CAPACITY.
Proof. intros Hok%reached_ok. pose proof (ck_permits c Hok). lia. Qed.

(** ** A dropped write *)
(** A history checked step by step. *)
Fixpoint checked_run (allowed : Control → CtlStep → bool) (c : Control) (sts : list CtlStep) : option Control :=
  match sts with
  | [] => Some c
  | st :: sts => if tmux_answers c st && allowed c st then c ← ctl_step c st; checked_run allowed c sts else None
  end.
Lemma checked_reached c sts c' : reached c → checked_run writes_finish c sts = Some c' → reached c'.
Proof.
  revert c. induction sts as [|st sts IH]; intros c Hc; cbn; [by intros [= <-]|].
  destruct (tmux_answers c st) eqn:Et, (writes_finish c st) eqn:Ew; cbn [andb]; try done.
  destruct (ctl_step c st) as [c1|] eqn:Es; cbn; [|done]. apply IH. by eapply reached_step.
Qed.
(** One command, from its submission to its reply. *)
Definition command_steps (id : N) (cmd : rstr) : list CtlStep :=
  [CSubmit id cmd; CLock 0; CWrite (WrAccepted (len (command_line cmd))); CFlush true].
Definition reply_steps (num : N) (lines : list rstr) : list CtlStep :=
  CLine <$> item_lines (ItemBlock 1 num true true (utf8_bytes <$> lines)).
(** A future that is dropped after its slot is queued and before a byte of its line is
    taken leaves a slot with no command. Nothing notices: from then on every reply goes
    to the caller before the one that asked. *)
Theorem cancelled_write_shifts_replies :
  ∃ c, checked_run (λ _ _, true) control_new
      ([CSubmit 1 (str "first"); CLock 0; CDropWriting] ++
       command_steps 2 (str "second") ++ command_steps 3 (str "third") ++
       reply_steps 7 [str "of second"] ++ reply_steps 8 [str "of third"]) = Some c ∧
    ct_wire c = [(RtCaller 2, str "second"); (RtCaller 3, str "third")] ∧
    ct_delivered c = [(RtCaller 1, Ok [str "of second"]); (RtCaller 2, Ok [str "of third"])] ∧
    cp_pending (ct_pipe c) = [RtCaller 3] ∧ cp_stdin (ct_pipe c) = true.
Proof. eexists. split; [vm_compute; reflexivity|]. vm_compute. done. Qed.
