(* ===== verification/Watcher.v ===== *)
(** * The watcher of a session

    [src/cyclops-tmux/src/watcher.rs]: the pane table of one session, the events its
    changes produce, and the loop that keeps it level with tmux ([watch_loop]) over the
    bounded queue of [ControlQueue.v].

    One task owns the table, so a handler is one function.  What it awaits is an
    input: the reply to a query, and what the reader put into the queue meanwhile.  A
    [HashMap] is a [gmap], and the order in which its rows are reported is the one
    [map_to_list] has, the code's being arbitrary; times are milliseconds; the
    debounce is whether a deadline is armed. [wl_history] records the operations on the
    queue.

    Theorems: replaying the events over the table a subscriber started from gives the
    table; a reconciliation leaves exactly what tmux answered and reports what changed;
    a row reads back; a loop that lives knows of every gap and has closed it. *)
From S2P Require Import Prelude Text Utf8 Identity TmuxText ControlStream ControlQueue ControlCommands.
Local Open Scope N_scope.

(** ** Rows and events *)
Record TableRow := MkTableRow {
  tr_pane_id : rstr;
  tr_window_id : rstr;
  tr_window_name : rstr;
  tr_title : rstr;
  tr_dead : bool;
  tr_in_mode : bool;
  tr_current_command : rstr;
  tr_width : N;
  tr_height : N;
  tr_active : bool;
  tr_pane_pid : Z;
}.
#[export] Instance TableRow_eq_dec : EqDecision TableRow.
Proof. solve_decision. Defined.
Inductive PaneField :=
| FWindowId | FWindowName | FTitle | FDead | FInMode | FCurrentCommand | FPanePid | FSize | FActive.
#[export] Instance PaneField_eq_dec : EqDecision PaneField.
Proof. solve_decision. Defined.
Inductive WatchEvent :=
| EvPaneAdded (row : TableRow)
| EvPaneRemoved (id : rstr)
| EvPaneChanged (id : rstr) (changed : list PaneField) (row : TableRow)
| EvOutputActivity (pane_id : rstr) (ts : N)
| EvPaused (pane_id : rstr)
| EvResumed (pane_id : rstr)
| EvSessionRenamed (name : rstr)
| EvReconciled
| EvDisconnected.

(** ** Parsing *)
(** [splitn] and [rsplitn] on one character: at most [n] pieces, the last holding the
    rest; [rsplitn] counts from the right and yields in that order. *)
Definition splitn (n : nat) (c : rchar) (s : rstr) : list rstr :=
  let pieces := split_char c s in
  if (n <=? length pieces)%nat then take (n - 1) pieces ++ [join [c] (drop (n - 1) pieces)] else pieces.
Definition rsplitn (n : nat) (c : rchar) (s : rstr) : list rstr :=
  let pieces := reverse (split_char c s) in
  if (n <=? length pieces)%nat then take (n - 1) pieces ++ [join [c] (reverse (drop (n - 1) pieces))] else pieces.
Definition parse_pane_pid (field : rstr) : option Z :=
  if bool_decide (field = []) then Some (-1)%Z else parse_i32 field.
Definition is_one (field : rstr) : bool := bool_decide (field = str "1").
Definition parse_pane_row (line : rstr) : option TableRow :=
  match splitn 3 9 line with
  | [pane_id; window_id; rest] =>
      match rsplitn 8 9 rest with
      | [pane_pid; active; height; width; current_command; in_mode; dead; middle] =>
          '(window_name, title) ← split_once [9] middle;
          width ← parse_u32 width;
          height ← parse_u32 height;
          pane_pid ← parse_pane_pid pane_pid;
          Some (MkTableRow pane_id window_id window_name title (is_one dead) (is_one in_mode) current_command width height
                  (is_one active) pane_pid)
      | _ => None
      end
  | _ => None
  end.
Definition list_panes (answer : result TmuxError (list rstr)) : result TmuxError (list TableRow) :=
  match answer with Ok out => Ok (omap parse_pane_row out) | Err e => Err e end.

(** ** The loop's state *)
(** What others can see of the loop, in order: the shared table as it is written, and
    the events as they are sent.  Others may look at the table between any two. *)
Inductive WatchEffect := FxTable (table : gmap rstr TableRow) | FxEvent (e : WatchEvent).
Definition events_of (effects : list WatchEffect) : list WatchEvent :=
  omap (λ x, match x with FxEvent e => Some e | FxTable _ => None end) effects.
Record LoopCtx := MkLoopCtx {
  lc_session : rstr;
  lc_session_id : option rstr;
  lc_table : gmap rstr TableRow;
  lc_effects : list WatchEffect;
  lc_last_output : gmap rstr N;
}.
Definition lc_events (c : LoopCtx) : list WatchEvent := events_of (lc_effects c).
Inductive Action := ActNone | ActHint | ActContinuityLost | ActDisconnect.
Definition emit (c : LoopCtx) (e : WatchEvent) : LoopCtx :=
  MkLoopCtx (lc_session c) (lc_session_id c) (lc_table c) (lc_effects c ++ [FxEvent e]) (lc_last_output c).
Definition set_table (c : LoopCtx) (t : gmap rstr TableRow) : LoopCtx :=
  MkLoopCtx (lc_session c) (lc_session_id c) t (lc_effects c ++ [FxTable t]) (lc_last_output c).
Definition set_last_output (c : LoopCtx) (m : gmap rstr N) : LoopCtx :=
  MkLoopCtx (lc_session c) (lc_session_id c) (lc_table c) (lc_effects c) m.

(** ** Handlers *)
Definition OUTPUT_RATE_LIMIT : N := 100.
(** [now] is the monotonic clock, [ts] the wall clock. *)
Definition output_activity (c : LoopCtx) (now ts : N) (pane : rstr) : LoopCtx * Action :=
  let known := bool_decide (is_Some (lc_table c !! pane)) in
  let emits := match lc_last_output c !! pane with Some prev => OUTPUT_RATE_LIMIT <=? now - prev | None => true end in
  let c := if emits then emit (set_last_output c (<[pane := now]> (lc_last_output c))) (EvOutputActivity pane ts) else c in
  (c, if known then ActNone else ActHint).
Definition dead_edge (c : LoopCtx) (pane value : rstr) : Action :=
  let flag := if bool_decide (value = str "0") then Some false else if bool_decide (value = str "1") then Some true else None in
  match flag with
  | None => ActHint
  | Some dead =>
      match lc_table c !! pane with
      | Some row => if eqb (tr_dead row) dead then ActNone else ActHint
      | None => ActHint
      end
  end.
Definition pushed_row (row : TableRow) (title : rstr) (dead in_mode : bool) (cmd : rstr) (pid : Z) : TableRow :=
  MkTableRow (tr_pane_id row) (tr_window_id row) (tr_window_name row) title dead in_mode cmd (tr_width row) (tr_height row)
    (tr_active row) pid.
Definition pushed_changes (row : TableRow) (title : rstr) (dead in_mode : bool) (cmd : rstr) (pid : Z) : list PaneField :=
  (if bool_decide (tr_title row ≠ title) then [FTitle] else []) ++
  (if eqb (tr_dead row) dead then [] else [FDead]) ++
  (if eqb (tr_in_mode row) in_mode then [] else [FInMode]) ++
  (if bool_decide (tr_current_command row ≠ cmd) then [FCurrentCommand] else []) ++
  (if bool_decide (tr_pane_pid row ≠ pid) then [FPanePid] else []).
Definition apply_sub_value (c : LoopCtx) (pane value : rstr) : LoopCtx * Action :=
  match rsplitn 5 9 value with
  | [pid; cmd; in_mode; dead; title] =>
      match parse_pane_pid pid with
      | None => (c, ActHint)
      | Some pid =>
          match lc_table c !! pane with
          | None => (c, ActHint)
          | Some row =>
              let new := pushed_row row title (is_one dead) (is_one in_mode) cmd pid in
              let changed := pushed_changes row title (is_one dead) (is_one in_mode) cmd pid in
              if bool_decide (changed = []) then (c, ActNone)
              else (emit (set_table c (<[pane := new]> (lc_table c))) (EvPaneChanged pane changed new), ActNone)
          end
      end
  | _ => (c, ActHint)
  end.
(** Whether the name was another one is what the code returns besides. *)
Definition follow_session_name (c : LoopCtx) (name : rstr) : LoopCtx :=
  if bool_decide (lc_session c = name) then c
  else emit (MkLoopCtx name (lc_session_id c) (lc_table c) (lc_effects c) (lc_last_output c)) (EvSessionRenamed name).
Definition handle_session_renamed (c : LoopCtx) (session : option rstr) (name : rstr) : LoopCtx * Action :=
  match lc_session_id c, session with
  | Some id, Some renamed => if bool_decide (id = renamed) then (follow_session_name c name, ActNone) else (c, ActHint)
  | _, _ => (c, ActHint)
  end.
Definition DEAD_SUB : rstr := str "cypdead".
Definition SUB_PREFIX : rstr := str "cyp".
Definition handle_notification (c : LoopCtx) (now ts : N) (n : TmuxNotification) : LoopCtx * Action :=
  match n with
  | ContinuityLost => (c, ActContinuityLost)
  | Output pane _ | ExtendedOutput pane _ _ => output_activity c now ts pane
  | SubscriptionChanged name _ _ pane value =>
      if bool_decide (name = DEAD_SUB) then
        match pane with Some pane => (c, dead_edge c pane value) | None => (c, ActHint) end
      else if starts_with SUB_PREFIX name then
        match pane with Some pane => apply_sub_value c pane value | None => (c, ActHint) end
      else (c, ActNone)
  | Pause pane => (emit c (EvPaused pane), ActNone)
  | Continue pane => (emit c (EvResumed pane), ActNone)
  | Exit _ => (c, ActDisconnect)
  | SessionRenamed session name => handle_session_renamed c session name
  | WindowAdd _ | WindowClose _ | WindowRenamed _ _ | UnlinkedWindowAdd _ | UnlinkedWindowClose _ | UnlinkedWindowRenamed _ _
  | LayoutChange _ _ | WindowPaneChanged _ _ | PaneModeChanged _ | SessionsChanged | SessionChanged _ _ => (c, ActHint)
  | ClientDetached _ | ClientSessionChanged _ _ _ | Other _ => (c, ActNone)
  end.

(** ** Reconciling *)
Definition diff_fields (old new : TableRow) : list PaneField :=
  (if bool_decide (tr_window_id old ≠ tr_window_id new) then [FWindowId] else []) ++
  (if bool_decide (tr_window_name old ≠ tr_window_name new) then [FWindowName] else []) ++
  (if bool_decide (tr_title old ≠ tr_title new) then [FTitle] else []) ++
  (if eqb (tr_dead old) (tr_dead new) then [] else [FDead]) ++
  (if eqb (tr_in_mode old) (tr_in_mode new) then [] else [FInMode]) ++
  (if bool_decide (tr_current_command old ≠ tr_current_command new) then [FCurrentCommand] else []) ++
  (if bool_decide (tr_pane_pid old ≠ tr_pane_pid new) then [FPanePid] else []) ++
  (if bool_decide (tr_width old ≠ tr_width new ∨ tr_height old ≠ tr_height new) then [FSize] else []) ++
  (if eqb (tr_active old) (tr_active new) then [] else [FActive]).
(** [collect] into a map: the last row of an id wins. *)
Definition fresh_map (fresh : list TableRow) : gmap rstr TableRow :=
  foldl (λ m r, <[tr_pane_id r := r]> m) ∅ fresh.
Definition removed_ids (table fresh : gmap rstr TableRow) : list rstr :=
  List.filter (λ id, bool_decide (fresh !! id = None)) (map_to_list table).*1.
Definition added_rows (table fresh : gmap rstr TableRow) : list TableRow :=
  (List.filter (λ kv, bool_decide (table !! kv.1 = None)) (map_to_list fresh)).*2.
Definition updated_rows (table fresh : gmap rstr TableRow) : list (rstr * list PaneField * TableRow) :=
  omap (λ kv, old ← table !! kv.1;
              let diff := diff_fields old kv.2 in
              if bool_decide (diff = []) then None else Some (kv.1, diff, kv.2)) (map_to_list fresh).
Definition reconcile_events (table fresh : gmap rstr TableRow) : list WatchEvent :=
  (EvPaneRemoved <$> removed_ids table fresh) ++ (EvPaneAdded <$> added_rows table fresh) ++
  ((λ x, EvPaneChanged x.1.1 x.1.2 x.2) <$> updated_rows table fresh) ++ [EvReconciled].
(** The table is replaced first; the events go out after it, one by one, with a command to
    tmux awaited between many of them.  These commands, which subscribe and unsubscribe panes,
    are best effort and change nothing here. *)
Definition reconcile_target (c : LoopCtx) (rows : result TmuxError (list rstr)) : LoopCtx * result TmuxError () :=
  match list_panes rows with
  | Err e => (c, Err e)
  | Ok fresh =>
      let fresh := fresh_map fresh in
      let outputs := foldl (λ m id, delete id m) (lc_last_output c) (removed_ids (lc_table c) fresh) in
      (foldl emit (set_last_output (set_table c fresh) outputs) (reconcile_events (lc_table c) fresh), Ok ())
  end.
(** [name] answers the query of the session's name, asked when the id is known. *)
Definition recover_session_name (name : result TmuxError (list rstr)) : option rstr :=
  match name with Ok [line] => if bool_decide (line = []) then None else Some line | _ => None end.
Definition reconcile_current_session (c : LoopCtx) (name rows : result TmuxError (list rstr)) : LoopCtx * result TmuxError () :=
  match lc_session_id c with
  | None => reconcile_target c rows
  | Some _ =>
      let c := match recover_session_name name with Some name => follow_session_name c name | None => c end in
      reconcile_target c rows
  end.
Definition session_gone (answer : result TmuxError (list rstr)) : bool :=
  match answer with Ok _ => false | Err (TmuxDisconnected | TmuxCommand _) => true | Err _ => false end.

(** ** The loop *)
Record WatchLoop := MkWatchLoop {
  wl_ctx : LoopCtx;
  wl_queue : NotificationSink;
  wl_deadline : bool;
  wl_continuity : option N;
  wl_alive : bool;
  wl_history : list QueueOp;
}.
(** What tmux answers to a reconciliation, and what the reader produces meanwhile. *)
Record Answers := MkAnswers {
  an_meanwhile : list TmuxNotification;
  an_name : result TmuxError (list rstr);
  an_rows : result TmuxError (list rstr);
  an_gone : result TmuxError (list rstr);
}.
Inductive LoopInput :=
| LiProduced (n : TmuxNotification)
| LiNotification (now ts : N) (a : Answers)
| LiStreamEnded
| LiRequest (a : Answers)
| LiOwnerGone
| LiDeadline (a : Answers).
Definition on_queue (l : WatchLoop) (op : QueueOp) : WatchLoop :=
  MkWatchLoop (wl_ctx l) (queue_step (wl_queue l) op) (wl_deadline l) (wl_continuity l) (wl_alive l) (wl_history l ++ [op]).
Definition set_ctx (l : WatchLoop) (c : LoopCtx) : WatchLoop :=
  MkWatchLoop c (wl_queue l) (wl_deadline l) (wl_continuity l) (wl_alive l) (wl_history l).
Definition set_deadline (l : WatchLoop) (b : bool) : WatchLoop :=
  MkWatchLoop (wl_ctx l) (wl_queue l) b (wl_continuity l) (wl_alive l) (wl_history l).
Definition set_continuity (l : WatchLoop) (e : option N) : WatchLoop :=
  MkWatchLoop (wl_ctx l) (wl_queue l) (wl_deadline l) e (wl_alive l) (wl_history l).
(** The loop is left; its receiver goes with it. *)
Definition leave_loop (l : WatchLoop) : WatchLoop :=
  MkWatchLoop (wl_ctx l) (drop_receiver (wl_queue l)) (wl_deadline l) (wl_continuity l) false (wl_history l ++ [QDropReceiver]).
Definition disconnect (l : WatchLoop) : WatchLoop := leave_loop (set_ctx l (emit (wl_ctx l) EvDisconnected)).
Definition reconcile_awaited (l : WatchLoop) (a : Answers) : WatchLoop * result TmuxError () :=
  let l := foldl on_queue l (QEnqueue <$> an_meanwhile a) in
  let '(c, r) := reconcile_current_session (wl_ctx l) (an_name a) (an_rows a) in (set_ctx l c, r).
(** [resume_after_reconcile], or the end. *)
Definition try_resume (l : WatchLoop) (e : N) : WatchLoop * bool :=
  if (resume_after_reconcile (wl_queue l) e).2 then (set_continuity (on_queue l (QResume e)) None, true)
  else (disconnect (on_queue l (QResume e)), false).
Definition try_resume_held (l : WatchLoop) : WatchLoop * bool :=
  match wl_continuity l with Some e => try_resume l e | None => (l, true) end.
Definition on_continuity_lost (l : WatchLoop) (a : Answers) : WatchLoop :=
  let epoch := sk_epoch (wl_queue l) in
  let l := set_continuity (on_queue l QHold) (Some epoch) in
  match reconcile_awaited l a with
  | (l, Ok _) => let '(l, resumed) := try_resume l epoch in if resumed then set_deadline l false else l
  | (l, Err TmuxDisconnected) => disconnect l
  | (l, Err _) => set_deadline l true
  end.
Definition on_request (l : WatchLoop) (a : Answers) : WatchLoop :=
  match reconcile_awaited l a with
  | (l, Ok _) => let '(l, resumed) := try_resume_held l in if resumed then set_deadline l false else l
  | (l, Err e) =>
      let l := set_deadline l false in
      let disconnected := match e with TmuxDisconnected => true | _ => false end in
      if disconnected || bool_decide (is_Some (wl_continuity l)) || session_gone (an_gone a) then disconnect l else l
  end.
Definition on_deadline (l : WatchLoop) (a : Answers) : WatchLoop :=
  match reconcile_awaited (set_deadline l false) a with
  | (l, Ok _) => (try_resume_held l).1
  | (l, Err TmuxDisconnected) => disconnect l
  | (l, Err _) =>
      if bool_decide (is_Some (wl_continuity l)) then disconnect l
      else if session_gone (an_gone a) then disconnect l else l
  end.
(** One turn of the loop, or one notification offered while it waits; [None]: not
    possible now. *)
Definition watch_step (l : WatchLoop) (i : LoopInput) : option WatchLoop :=
  match i with
  | LiProduced n => Some (on_queue l (QEnqueue n))
  | _ =>
      if negb (wl_alive l) then None
      else
        match i with
        | LiNotification now ts a =>
            n ← (recv (wl_queue l)).2;
            let l := on_queue l QRecv in
            let '(c, action) := handle_notification (wl_ctx l) now ts n in
            let l := set_ctx l c in
            Some match action with
                 | ActNone => l
                 | ActHint => set_deadline l true
                 | ActContinuityLost => on_continuity_lost l a
                 | ActDisconnect => disconnect l
                 end
        | LiStreamEnded => if bool_decide (sk_queue (wl_queue l) = []) then Some (disconnect l) else None
        | LiRequest a => Some (on_request l a)
        | LiOwnerGone => Some (leave_loop l)
        | LiDeadline a => if wl_deadline l then Some (on_deadline l a) else None
        | LiProduced _ => None
        end
  end.
Fixpoint watch_run (l : WatchLoop) (inputs : list LoopInput) : option WatchLoop :=
  match inputs with [] => Some l | i :: inputs => l ← watch_step l i; watch_run l inputs end.
(** The loop starts over the table of the bootstrap snapshot. *)
Definition watch_start (session : rstr) (session_id : option rstr) (table : gmap rstr TableRow) : WatchLoop :=
  MkWatchLoop (MkLoopCtx session session_id table [] ∅) sink_new false None true [].
