(* ===== verification/WatcherProps.v ===== *)
(** * Properties of the watcher

    Theorems about [Watcher.v]: what one handler does to the table and to the events, and
    what the loop keeps over the queue of [ControlQueue.v]. *)
From S2P Require Import Prelude Text Utf8 Identity TmuxText ControlStream ControlQueue ControlCommands Watcher.
Local Open Scope N_scope.

(** ** Rows read back *)
Lemma split_char_app_any c (a b : list N) : split_char c (a ++ c :: b) = split_char c a ++ split_char c b.
Proof.
  induction a as [|x a IH]; cbn [app split_char].
  - by rewrite N.eqb_refl.
  - destruct (N.eqb_spec x c) as [->|Hx]; [by rewrite IH|]. rewrite IH.
    destruct (split_char c a) as [|p ps] eqn:E; [by destruct (split_char_nonnil c a)|done].
Qed.
Lemma splitn_three c a b s : c ∉ a → c ∉ b → splitn 3 c (a ++ c :: b ++ c :: s) = [a; b; s].
Proof.
  intros Ha Hb. unfold splitn. rewrite !split_char_app by done.
  destruct (split_char c s) as [|p ps] eqn:E; [by destruct (split_char_nonnil c s)|]. cbn [length Nat.leb Nat.sub take drop app].
  by rewrite <- E, split_char_join.
Qed.
(** Fields after the free text, each behind a separator. *)
Definition tailed (c : N) (s : rstr) (fields : list rstr) : rstr := foldl (λ s f, s ++ c :: f) s fields.
Lemma split_tailed c s fields :
  Forall (λ f, c ∉ f) fields → split_char c (tailed c s fields) = split_char c s ++ fields.
Proof.
  unfold tailed. revert s. induction fields as [|f fields IH]; intros s H; cbn; [by rewrite app_nil_r|].
  apply Forall_cons in H as [Hf H]. rewrite IH, split_char_app_any, (split_char_notin c f) by done. by rewrite <- app_assoc.
Qed.
Lemma rsplitn_tailed c s fields :
  Forall (λ f, c ∉ f) fields → rsplitn (S (length fields)) c (tailed c s fields) = reverse fields ++ [s].
Proof.
  intros H. unfold rsplitn. rewrite split_tailed, reverse_app, length_app, !length_reverse by done.
  destruct (split_char c s) as [|p ps] eqn:E; [by destruct (split_char_nonnil c s)|]. rewrite <- E.
  rewrite (proj2 (Nat.leb_le _ _)). 2:{ rewrite E. cbn [length]. lia. }
  rewrite Nat.sub_succ, Nat.sub_0_r.
  rewrite take_app_length', drop_app_length' by (symmetry; apply length_reverse). by rewrite reverse_involutive, split_char_join.
Qed.
Definition flag_text (b : bool) : rstr := if b then str "1" else str "0".
(** tmux leaves the field of a pane without a process empty. *)
Definition pid_text (pid : Z) : rstr := if (pid =? -1)%Z then [] else dec_string (Z.to_N pid).
Definition pane_row_line (r : TableRow) : rstr :=
  tr_pane_id r ++ 9 :: tr_window_id r ++ 9 ::
  tailed 9 (tr_window_name r ++ 9 :: tr_title r)
    [flag_text (tr_dead r); flag_text (tr_in_mode r); tr_current_command r; dec_string (tr_width r); dec_string (tr_height r);
     flag_text (tr_active r); pid_text (tr_pane_pid r)].
(** Only the title may hold a tab. *)
Definition row_ok (r : TableRow) : Prop :=
  9 ∉ tr_pane_id r ∧ 9 ∉ tr_window_id r ∧ 9 ∉ tr_window_name r ∧ 9 ∉ tr_current_command r ∧
  tr_width r ≤ u32_max ∧ tr_height r ≤ u32_max ∧ (-1 ≤ tr_pane_pid r ≤ 2147483647)%Z.
Lemma digits_no_tab n : 9 ∉ dec_string n.
Proof. intros Hin. pose proof (Forall_elem _ _ _ (dec_string_digits n) Hin) as H. by vm_compute in H. Qed.
Lemma parse_i32_dec n : (0 ≤ n ≤ 2147483647)%Z → parse_i32 (dec_string (Z.to_N n)) = Some n.
Proof.
  intros Hn. unfold parse_i32. pose proof (dec_string_digits (Z.to_N n)) as Hd. pose proof (dec_string_nonempty (Z.to_N n)) as Hne.
  pose proof (dec_string_value (Z.to_N n)) as Hv. destruct (dec_string (Z.to_N n)) as [|c s]; [done|].
  assert (48 ≤ c ≤ 57) as Hc by (by apply Forall_cons in Hd as [Hc%in_range_true _]).
  replace (match c :: s with 45 :: d => (true, d) | 43 :: d => (false, d) | _ => (false, c :: s) end) with (false, c :: s).
  2:{ repeat (destruct c as [|c] || destruct c as [c|c|]; try done; try lia). }
  rewrite bool_decide_eq_false_2 by done. rewrite (proj2 (List.forallb_forall _ _)).
  2:{ intros x Hx%list_elem_of_In. by apply (Forall_elem _ _ _ Hd). }
  cbn [orb negb]. rewrite Hv, Z2N.id by lia. by rewrite (proj2 (Z.leb_le _ _)), (proj2 (Z.leb_le _ _)) by lia.
Qed.
Lemma parse_pid_text pid : (-1 ≤ pid ≤ 2147483647)%Z → parse_pane_pid (pid_text pid) = Some pid.
Proof.
  intros Hp. unfold pid_text, parse_pane_pid. destruct (Z.eqb_spec pid (-1)) as [->|]; [done|].
  rewrite bool_decide_eq_false_2 by apply dec_string_nonempty. apply parse_i32_dec. lia.
Qed.
Lemma is_one_flag b : is_one (flag_text b) = b.
Proof. by destruct b. Qed.
(** A row that tmux prints reads back as it is, tabs in the title included; a pane
    without a process reads as -1. *)
Theorem pane_row_round_trip r : row_ok r → parse_pane_row (pane_row_line r) = Some r.
Proof.
  intros (H1 & H2 & H3 & H4 & Hw & Hh & Hp). unfold parse_pane_row, pane_row_line. rewrite splitn_three by done.
  rewrite (rsplitn_tailed 9 _ [_; _; _; _; _; _; _]).
  2:{ assert (∀ b, 9 ∉ flag_text b) as Hfl by (intros [|]; set_solver).
      repeat constructor; try apply Hfl; try apply digits_no_tab; [done|]. unfold pid_text. destruct (_ =? _)%Z; [set_solver|apply digits_no_tab]. }
  cbn [reverse rev_append app]. change (reverse [?a; ?b; ?c; ?d; ?e; ?f; ?g]) with [g; f; e; d; c; b; a]. cbn [app].
  rewrite split_once_char by done. cbn [mbind option_bind].
  unfold parse_u32. rewrite !parse_unsigned_dec by done. cbn [mbind option_bind]. rewrite parse_pid_text by done. cbn [mbind option_bind].
  rewrite !is_one_flag. by destruct r.
Qed.

(** ** Events tell the table *)
(** What a subscriber makes of an event. *)
Definition replay_event (t : gmap rstr TableRow) (e : WatchEvent) : gmap rstr TableRow :=
  match e with
  | EvPaneAdded row => <[tr_pane_id row := row]> t
  | EvPaneRemoved id => delete id t
  | EvPaneChanged id _ row => <[id := row]> t
  | _ => t
  end.
(** The event is true of the table it is told over. *)
Definition event_ok (t : gmap rstr TableRow) (e : WatchEvent) : Prop :=
  match e with
  | EvPaneAdded row => t !! tr_pane_id row = None
  | EvPaneRemoved id => is_Some (t !! id)
  | EvPaneChanged id changed row =>
      tr_pane_id row = id ∧ ∃ old, t !! id = Some old ∧ changed = diff_fields old row ∧ changed ≠ []
  | _ => True
  end.
Fixpoint tells (t : gmap rstr TableRow) (events : list WatchEvent) (t' : gmap rstr TableRow) : Prop :=
  match events with
  | [] => t = t'
  | e :: events => event_ok t e ∧ tells (replay_event t e) events t'
  end.
Definition table_keyed (t : gmap rstr TableRow) : Prop := ∀ id row, t !! id = Some row → tr_pane_id row = id.
Lemma events_of_app a b : events_of (a ++ b) = events_of a ++ events_of b.
Proof. apply omap_app. Qed.
Lemma events_of_told es : events_of (FxEvent <$> es) = es.
Proof. induction es as [|e es IH]; [done|]. cbn. by rewrite <- IH at 2. Qed.
(** The pane an event is about, and its row afterwards. *)
Definition about (e : WatchEvent) : option (rstr * option TableRow) :=
  match e with
  | EvPaneAdded row => Some (tr_pane_id row, Some row)
  | EvPaneRemoved id => Some (id, None)
  | EvPaneChanged id _ row => Some (id, Some row)
  | _ => None
  end.
Lemma replay_event_lookup t e k :
  replay_event t e !! k = match about e with Some (id, v) => if decide (id = k) then v else t !! k | None => t !! k end.
Proof.
  destruct e; cbn; try done; (destruct (decide (_ = k)) as [<-|]);
    rewrite ?lookup_insert_eq, ?lookup_delete_eq, ?lookup_insert_ne, ?lookup_delete_ne by done; done.
Qed.
(** No event about the pane. *)
Definition silent (k : rstr) (events : list WatchEvent) : Prop := Forall (λ e, ∀ v, about e ≠ Some (k, v)) events.
Lemma replay_silent k es : ∀ t, silent k es → foldl replay_event t es !! k = t !! k.
Proof.
  induction es as [|e es IH]; intros t Hs; [done|]. apply Forall_cons in Hs as [He Hs]. cbn. rewrite IH, replay_event_lookup by done.
  destruct (about e) as [[id v]|] eqn:Ea; [|done]. destruct (decide (id = k)) as [->|]; [|done]. by destruct (He v).
Qed.
Lemma last_word k es : silent k es ∨ ∃ l1 e l2 v, es = l1 ++ e :: l2 ∧ about e = Some (k, v) ∧ silent k l2.
Proof.
  induction es as [|e es [IH|(l1 & x & l2 & v & -> & Hx & Hs)]]; [by left; constructor| |].
  - destruct (about e) as [[id v]|] eqn:Ea; [destruct (decide (id = k)) as [->|Hne]|].
    + right. by exists [], e, es, v.
    + left. constructor; [|done]. intros v'. rewrite Ea. congruence.
    + left. constructor; [|done]. intros v'. by rewrite Ea.
  - right. by exists (e :: l1), x, l2, v.
Qed.
Lemma tells_app t a t1 b t2 : tells t a t1 → tells t1 b t2 → tells t (a ++ b) t2.
Proof. revert t. induction a as [|e a IH]; intros t; cbn; [by intros ->|]. intros [? ?] ?. split; [done|by eapply IH]. Qed.
Lemma tells_removed ids t :
  NoDup ids → (∀ id, id ∈ ids → is_Some (t !! id)) → tells t (EvPaneRemoved <$> ids) (foldl (λ m id, delete id m) t ids).
Proof.
  revert t. induction ids as [|id ids IH]; intros t Hn Hin; [done|]. apply NoDup_cons in Hn as [Hnid Hn].
  split; [apply Hin; by left|]. apply IH; [done|]. intros id' Hid'. cbn [replay_event]. rewrite lookup_delete_ne by (by intros ->). apply Hin. by right.
Qed.
Lemma tells_added rows t :
  NoDup (tr_pane_id <$> rows) → (∀ r, r ∈ rows → t !! tr_pane_id r = None) →
  tells t (EvPaneAdded <$> rows) (foldl (λ m r, <[tr_pane_id r := r]> m) t rows).
Proof.
  revert t. induction rows as [|r rows IH]; intros t Hn Hin; [done|]. apply NoDup_cons in Hn as [Hnid Hn].
  split; [apply Hin; by left|]. apply IH; [done|]. intros r' Hr'. cbn. rewrite lookup_insert_ne; [apply Hin; by right|].
  intros He. apply Hnid. rewrite He. by apply list_elem_of_fmap_2.
Qed.
Lemma tells_updated (ups : list (rstr * list PaneField * TableRow)) t :
  NoDup (ups.*1.*1) →
  (∀ id d r, (id, d, r) ∈ ups → tr_pane_id r = id ∧ ∃ old, t !! id = Some old ∧ d = diff_fields old r ∧ d ≠ []) →
  tells t ((λ x, EvPaneChanged x.1.1 x.1.2 x.2) <$> ups) (foldl (λ m x, <[x.1.1 := x.2]> m) t ups).
Proof.
  revert t. induction ups as [|[[id d] r] ups IH]; intros t Hn Hin; [done|]. apply NoDup_cons in Hn as [Hnid Hn].
  split; [apply (Hin id d r); by left|]. apply IH; [done|]. intros id' d' r' Hr'. cbn.
  rewrite lookup_insert_ne; [apply (Hin id' d' r'); by right|]. intros ->. apply Hnid. cbn.
  apply list_elem_of_fmap. exists (id', d'). split; [done|]. apply list_elem_of_fmap. by exists (id', d', r').
Qed.
(** Folding insertions or deletions of distinct keys. *)
Lemma foldl_delete_lookup (ids : list rstr) (t : gmap rstr TableRow) k :
  foldl (λ m id, delete id m) t ids !! k = if decide (k ∈ ids) then None else t !! k.
Proof.
  revert t. induction ids as [|id ids IH]; intros t; cbn; [done|]. rewrite IH.
  destruct (decide (k = id)) as [->|Hne].
  - rewrite lookup_delete_eq. destruct (decide (id ∈ ids)), (decide (id ∈ id :: ids)); set_solver.
  - rewrite lookup_delete_ne by done. destruct (decide (k ∈ ids)), (decide (k ∈ id :: ids)); set_solver.
Qed.
Lemma foldl_insert_lookup {A} (key : A → rstr) (val : A → TableRow) (l : list A) (t : gmap rstr TableRow) k :
  NoDup (key <$> l) →
  (∀ x, x ∈ l → key x = k → foldl (λ m x, <[key x := val x]> m) t l !! k = Some (val x)) ∧
  ((∀ x, x ∈ l → key x ≠ k) → foldl (λ m x, <[key x := val x]> m) t l !! k = t !! k).
Proof.
  revert t. induction l as [|y l IH]; intros t Hn; cbn; [split; [set_solver|done]|].
  rewrite fmap_cons in Hn. apply NoDup_cons in Hn as [Hny Hn]. destruct (IH (<[key y := val y]> t) Hn) as [H1 H2]. split.
  - intros x [->|Hx]%elem_of_cons Hk; [|by apply H1]. rewrite H2.
    + rewrite <- Hk. by rewrite lookup_insert_eq.
    + intros x' Hx' Hk'. apply Hny. rewrite Hk, <- Hk'. by apply list_elem_of_fmap_2.
  - intros Hno. rewrite H2 by (intros x Hx; apply Hno; by right). rewrite lookup_insert_ne; [done|]. apply Hno. by left.
Qed.
Lemma diff_fields_nil old new : tr_pane_id old = tr_pane_id new → diff_fields old new = [] → old = new.
Proof.
  intros Hid Hd. unfold diff_fields in Hd. repeat (apply app_eq_nil in Hd as [? Hd]).
  repeat match goal with
  | H : (if bool_decide ?P then _ else _) = [] |- _ =>
      destruct (bool_decide P) eqn:?; [done|]; clear H
  | H : (if eqb ?a ?b then _ else _) = [] |- _ => destruct (eqb a b) eqn:?; [|done]; clear H
  end.
  repeat match goal with
  | H : eqb _ _ = true |- _ => apply eqb_prop in H
  | H : bool_decide _ = false |- _ => apply bool_decide_eq_false in H
  end.
  destruct old, new; cbn in *. f_equal; try done; apply dec_stable; tauto.
Qed.
Lemma fresh_map_keyed fresh : table_keyed (fresh_map fresh).
Proof.
  unfold fresh_map. assert (table_keyed (∅ : gmap rstr TableRow)) as H by done. revert H. generalize (∅ : gmap rstr TableRow).
  induction fresh as [|r fresh IH]; intros m Hm; [done|]. apply IH. intros id row.
  destruct (decide (tr_pane_id r = id)) as [Hid|Hid]; [rewrite Hid, lookup_insert_eq; by intros [= <-]|].
  rewrite lookup_insert_ne by done. apply Hm.
Qed.
Lemma NoDup_fmap_filter_keys (p : rstr * TableRow → bool) (m : gmap rstr TableRow) : NoDup (List.filter p (map_to_list m)).*1.
Proof.
  pose proof (NoDup_fst_map_to_list m) as Hn. revert Hn. induction (map_to_list m) as [|x l IH]; cbn; [done|].
  intros [Hx Hn]%NoDup_cons. destruct (p x); cbn; [|by apply IH]. constructor; [|by apply IH].
  intros (y & Hy & Hin)%list_elem_of_fmap. apply Hx, list_elem_of_fmap. exists y. split; [done|].
  by apply list_elem_of_In, List.filter_In, proj1, list_elem_of_In in Hin.
Qed.
Lemma elem_of_removed table fresh id : id ∈ removed_ids table fresh ↔ is_Some (table !! id) ∧ fresh !! id = None.
Proof.
  unfold removed_ids. rewrite list_elem_of_In, List.filter_In, <- list_elem_of_In, bool_decide_eq_true, list_elem_of_fmap.
  split.
  - intros ([[k v] [-> Hk%elem_of_map_to_list]] & Hn). split; [by exists v|done].
  - intros [[v Hv] Hn]. split; [|done]. exists (id, v). split; [done|]. by apply elem_of_map_to_list.
Qed.
Lemma NoDup_removed table fresh : NoDup (removed_ids table fresh).
Proof. unfold removed_ids. apply NoDup_ListNoDup, List.NoDup_filter, NoDup_ListNoDup, NoDup_fst_map_to_list. Qed.
Lemma elem_of_added table fresh r :
  table_keyed fresh → r ∈ added_rows table fresh ↔ fresh !! tr_pane_id r = Some r ∧ table !! tr_pane_id r = None.
Proof.
  intros Hk. unfold added_rows. rewrite list_elem_of_fmap. split.
  - intros ([k v] & -> & Hin). apply list_elem_of_In, List.filter_In in Hin as [Hin%list_elem_of_In%elem_of_map_to_list Hn%bool_decide_eq_true].
    cbn in *. by rewrite (Hk _ _ Hin).
  - intros [Hf Hn]. exists (tr_pane_id r, r). split; [done|]. apply list_elem_of_In, List.filter_In. split; [by apply list_elem_of_In, elem_of_map_to_list|].
    by apply bool_decide_eq_true.
Qed.
Lemma NoDup_added table fresh : table_keyed fresh → NoDup (tr_pane_id <$> added_rows table fresh).
Proof.
  intros Hk. unfold added_rows. rewrite <- list_fmap_compose.
  rewrite (list_fmap_ext _ fst); [apply NoDup_fmap_filter_keys|]. intros i [k v] Hi%list_elem_of_lookup_2. cbn.
  apply list_elem_of_In, List.filter_In, proj1, list_elem_of_In, elem_of_map_to_list in Hi. by apply Hk.
Qed.
Lemma elem_of_updated table fresh id d r :
  (id, d, r) ∈ updated_rows table fresh ↔
  fresh !! id = Some r ∧ ∃ old, table !! id = Some old ∧ d = diff_fields old r ∧ d ≠ [].
Proof.
  unfold updated_rows. rewrite list_elem_of_omap. split.
  - intros ([k v] & Hin%elem_of_map_to_list & Hs). cbn in Hs. destruct (table !! k) as [old|] eqn:Et; [|done]. cbn in Hs.
    case_bool_decide; [done|]. injection Hs as -> <- ->. eauto.
  - intros (Hf & old & Ht & -> & Hd). exists (id, r). split; [by apply elem_of_map_to_list|]. cbn. rewrite Ht. cbn.
    by rewrite bool_decide_eq_false_2.
Qed.
Lemma NoDup_updated table fresh : NoDup (updated_rows table fresh).*1.*1.
Proof.
  unfold updated_rows. pose proof (NoDup_fst_map_to_list fresh) as Hn. revert Hn.
  induction (map_to_list fresh) as [|[k v] l IH]; [done|]. cbn [fmap list_fmap fst]. intros [Hk Hn]%NoDup_cons.
  cbn [omap list_omap]. match goal with |- NoDup ((match ?e with _ => _ end).*1.*1) => destruct e as [[[id d] r]|] eqn:E end; [|by apply IH].
  cbn [fmap list_fmap fst]. constructor; [|by apply IH]. cbn in E. destruct (table !! k); [|done]. cbn in E.
  case_bool_decide; [done|]. injection E as <- <- <-. intros Hin. apply Hk.
  apply list_elem_of_fmap in Hin as ([id d] & -> & Hin). apply list_elem_of_fmap in Hin as ([[id' d'] r] & [= -> ->] & Hin).
  apply list_elem_of_omap in Hin as ([k' v'] & Hin & Hs). cbn in Hs. destruct (table !! k'); [|done]. cbn in Hs.
  case_bool_decide; [done|]. injection Hs as -> _ _. cbn. apply list_elem_of_fmap. by exists (id', v').
Qed.
Section reconcile.
Context (table fresh : gmap rstr TableRow) (Hkt : table_keyed table) (Hkf : table_keyed fresh).
Let t1 := foldl (λ m id, delete id m) table (removed_ids table fresh).
Let t2 := foldl (λ m r, <[tr_pane_id r := r]> m) t1 (added_rows table fresh).
Let t3 := foldl (λ m x, <[x.1.1 := x.2]> m) t2 (updated_rows table fresh).
Lemma after_removals k : t1 !! k = if decide (fresh !! k = None) then None else table !! k.
Proof using.
  unfold t1. rewrite foldl_delete_lookup. destruct (decide (k ∈ _)) as [Hk|Hk], (decide (fresh !! k = None)) as [Hf|Hf]; try done.
  - by apply elem_of_removed in Hk as [_ ?].
  - rewrite elem_of_removed in Hk. destruct (table !! k) eqn:E; [|done]. destruct Hk. by split; [eexists|].
Qed.
Lemma after_additions k :
  (∀ r, fresh !! k = Some r → table !! k = None → t2 !! k = Some r) ∧
  (is_Some (table !! k) ∨ fresh !! k = None → t2 !! k = t1 !! k).
Proof using Hkf.
  destruct (foldl_insert_lookup tr_pane_id id (added_rows table fresh) t1 k (NoDup_added table fresh Hkf)) as [H1 H2]. split.
  - intros r Hf Ht. apply (H1 r); [|by apply Hkf]. apply elem_of_added; [done|]. by rewrite (Hkf _ _ Hf).
  - intros Hor. apply H2. intros r Hr <-. apply elem_of_added in Hr as [Hf Hn]; [|done]. rewrite Hf, Hn in Hor.
    by destruct Hor as [[]|].
Qed.
Lemma after_updates k :
  (∀ d r, (k, d, r) ∈ updated_rows table fresh → t3 !! k = Some r) ∧
  ((∀ d r, (k, d, r) ∉ updated_rows table fresh) → t3 !! k = t2 !! k).
Proof using.
  assert (NoDup ((λ x : rstr * list PaneField * TableRow, x.1.1) <$> updated_rows table fresh)) as Hn.
  { pose proof (NoDup_updated table fresh) as Hn. by rewrite <- list_fmap_compose in Hn. }
  destruct (foldl_insert_lookup (λ x : rstr * list PaneField * TableRow, x.1.1) snd (updated_rows table fresh) t2 k Hn) as [H1 H2].
  split.
  - intros d r Hin. by apply (H1 (k, d, r)).
  - intros Hno. apply H2. intros [[k' d] r] Hin Hk. cbn in Hk. subst k'. by apply (Hno d r).
Qed.
Lemma kept_before_updates k old r : table !! k = Some old → fresh !! k = Some r → t2 !! k = Some old.
Proof using Hkf.
  intros Ht Hf. rewrite (proj2 (after_additions k)) by (left; by exists old).
  by rewrite after_removals, decide_False, Ht by (by rewrite Hf).
Qed.
Lemma reconcile_lands : t3 = fresh.
Proof using Hkf Hkt.
  apply map_eq. intros k. destruct (after_updates k) as [H1 H2]. destruct (fresh !! k) as [r|] eqn:Ef.
  - destruct (table !! k) as [old|] eqn:Et.
    + pose proof (kept_before_updates k old r Et Ef) as Hold. destruct (decide (diff_fields old r = [])) as [Hd|Hd].
      * rewrite H2, Hold; [f_equal; apply diff_fields_nil; [|done]; by rewrite (Hkt _ _ Et), (Hkf _ _ Ef)|].
        intros d r' (Hf & old' & Ht & -> & Hd')%elem_of_updated. congruence.
      * apply (H1 (diff_fields old r) r). apply elem_of_updated. eauto.
    + rewrite H2; [by apply after_additions|]. intros d r' (_ & old' & Ht & _)%elem_of_updated. congruence.
  - rewrite H2; [|intros d r' (Hf & _)%elem_of_updated; congruence].
    rewrite (proj2 (after_additions k)) by (by right). by rewrite after_removals, decide_True.
Qed.
Lemma reconcile_tells : tells table (reconcile_events table fresh) fresh.
Proof using Hkf Hkt.
  unfold reconcile_events.
  eapply tells_app; [apply tells_removed; [apply NoDup_removed|]; intros id [? _]%elem_of_removed; done|]. fold t1.
  eapply tells_app; [apply tells_added; [by apply NoDup_added|]|].
  { intros r [Hf Hn]%elem_of_added; [|done]. rewrite after_removals, Hn. by destruct (decide _). }
  fold t2. eapply tells_app; [apply tells_updated; [apply NoDup_updated|]|fold t3; split; [done|apply reconcile_lands]].
  intros id d r (Hf & old & Ht & Hd)%elem_of_updated. split; [by apply Hkf|]. exists old. split; [|done].
  by eapply kept_before_updates.
Qed.
End reconcile.
(** The shared table after some effects. *)
Definition table_after (t : gmap rstr TableRow) (fx : list WatchEffect) : gmap rstr TableRow :=
  foldl (λ t x, match x with FxTable t' => t' | FxEvent _ => t end) t fx.
(** Effects that begin over the table [t] and end over [t'], every change told: an event gives the
    row its pane has in the table at that moment, and a pane that no more event is about
    has its last row. *)
Record faithful (t : gmap rstr TableRow) (fx : list WatchEffect) (t' : gmap rstr TableRow) : Prop := {
  fa_lands : table_after t fx = t';
  fa_tells : tells t (events_of fx) t';
  fa_true : ∀ l1 e l2 k v, fx = l1 ++ FxEvent e :: l2 → about e = Some (k, v) → table_after t l1 !! k = v;
  fa_last : ∀ l1 l2 k, fx = l1 ++ l2 → silent k (events_of l2) → table_after t l1 !! k = t' !! k;
}.
Lemma table_after_app t a b : table_after t (a ++ b) = table_after (table_after t a) b.
Proof. apply foldl_app. Qed.
Lemma faithful_nil t : faithful t [] t.
Proof.
  split; [done|done| |].
  - intros l1 e l2 k v H. by destruct l1.
  - intros l1 l2 k H _. symmetry in H. apply app_nil in H as [-> _]. done.
Qed.
Lemma faithful_app t a t1 b t2 : faithful t a t1 → faithful t1 b t2 → faithful t (a ++ b) t2.
Proof.
  intros [A1 A2 A3 A4] [B1 B2 B3 B4]. split.
  - by rewrite table_after_app, A1.
  - rewrite events_of_app. by eapply tells_app.
  - intros l1 e l2 k v H Ha. apply app_eq_inv in H as [(l & -> & H)|(l & -> & H)].
    + destruct l as [|x l]; cbn in H.
      * subst b. rewrite app_nil_r in A1. rewrite A1. by apply (B3 [] e l2).
      * injection H as <- ->. by apply (A3 l1 e l).
    + rewrite table_after_app, A1. by apply (B3 l e l2).
  - intros l1 l2 k H Hs. apply app_eq_inv in H as [(l & -> & ->)|(l & -> & ->)].
    + rewrite events_of_app in Hs. apply Forall_app in Hs as [Hs1 Hs2]. rewrite (A4 l1 l k) by done.
      by apply (B4 [] b).
    + rewrite table_after_app, A1. by apply (B4 l l2).
Qed.
(** The table written first, and then its events. *)
Lemma faithful_write t t' es :
  tells t es t' → (∀ e k v, e ∈ es → about e = Some (k, v) → t' !! k = v) → faithful t (FxTable t' :: (FxEvent <$> es)) t'.
Proof.
  intros Ht Hv.
  assert (∀ l, table_after t' (FxEvent <$> l) = t') as Hkeep by (intros l; induction l; done).
  assert (∀ l1 l2, FxEvent <$> es = l1 ++ l2 → table_after t' l1 = t') as Hpre.
  { intros l1 l2 H. apply fmap_app_inv in H as (e1 & e2 & -> & _ & _). apply Hkeep. }
  assert (∀ es t0, tells t0 es t' → foldl replay_event t0 es = t') as Hreplay.
  { clear. intros es. induction es as [|e es IH]; intros t0; cbn; [done|]. intros [_ H]. by apply IH. }
  split.
  - apply Hkeep.
  - change (events_of (FxTable t' :: (FxEvent <$> es))) with (events_of (FxEvent <$> es)). by rewrite events_of_told.
  - intros l1 e l2 k v H Ha. destruct l1 as [|x l1]; [done|]. injection H as <- H. cbn. fold (table_after t' l1).
    rewrite (Hpre l1 (FxEvent e :: l2)) by done. apply (Hv e k v); [|done].
    apply fmap_app_inv in H as (e1 & e2 & _ & H & ->). destruct e2 as [|e' e2]; [done|]. injection H as <- _. set_solver.
  - intros l1 l2 k H Hs. destruct l1 as [|x l1].
    + cbn in H. subst l2. cbn. rewrite <- (Hreplay es t Ht). symmetry. apply replay_silent.
      change (events_of (FxTable t' :: (FxEvent <$> es))) with (events_of (FxEvent <$> es)) in Hs. by rewrite events_of_told in Hs.
    + injection H as <- H. cbn. fold (table_after t' l1). by rewrite (Hpre l1 l2).
Qed.
Lemma events_split fx : ∀ l1 e l2, events_of fx = l1 ++ e :: l2 →
  ∃ f1 f2, fx = f1 ++ FxEvent e :: f2 ∧ events_of f1 = l1 ∧ events_of f2 = l2.
Proof.
  induction fx as [|[t|x] fx IH]; intros l1 e l2 H; [by destruct l1| |].
  - destruct (IH l1 e l2 H) as (f1 & f2 & -> & H1 & H2). by exists (FxTable t :: f1), f2.
  - change (x :: events_of fx = l1 ++ e :: l2) in H. destruct l1 as [|y l1].
    + injection H as <- <-. by exists [], fx.
    + injection H as <- H. destruct (IH l1 e l2 H) as (f1 & f2 & -> & <- & H2). by exists (FxEvent x :: f1), f2.
Qed.
(** Whoever hears the events from any moment on and reads the table at any later moment comes to
    the last table. *)
Lemma faithful_replay t fx t' before between after :
  faithful t fx t' → fx = before ++ between ++ after →
  foldl replay_event (table_after t (before ++ between)) (events_of (between ++ after)) = t'.
Proof.
  intros [_ _ Hv Hl] Hfx. apply map_eq. intros k. destruct (last_word k (events_of (between ++ after))) as [Hs|(l1 & e & l2 & v & He & Ha & Hs)].
  - rewrite replay_silent by done. apply (Hl (before ++ between) after); [by rewrite <- app_assoc|].
    rewrite events_of_app in Hs. by apply Forall_app in Hs as [_ Hs].
  - rewrite He, foldl_app. cbn [foldl]. rewrite replay_silent, replay_event_lookup, Ha, decide_True by done.
    destruct (events_split _ _ _ _ He) as (f1 & f2 & Hf & _ & Hl2).
    rewrite <- (Hv (before ++ f1) e f2 k v); [|by rewrite Hfx, Hf, app_assoc|done].
    change (table_after t (before ++ f1)) with (table_after (table_after t (before ++ f1)) [FxEvent e]).
    rewrite <- table_after_app. apply (Hl _ f2); [by rewrite Hfx, Hf, <- !app_assoc|]. by rewrite Hl2.
Qed.
(** A handler kept the table keyed and told what it did to it. *)
Definition ctx_told (c c' : LoopCtx) : Prop :=
  table_keyed (lc_table c) →
  table_keyed (lc_table c') ∧ ∃ fx, lc_effects c' = lc_effects c ++ fx ∧ faithful (lc_table c) fx (lc_table c').
Lemma ctx_told_refl c : ctx_told c c.
Proof. intros Hk. split; [done|]. exists []. rewrite app_nil_r. split; [done|apply faithful_nil]. Qed.
Lemma ctx_told_trans c1 c2 c3 : ctx_told c1 c2 → ctx_told c2 c3 → ctx_told c1 c3.
Proof.
  intros H1 H2 Hk. destruct (H1 Hk) as (Hk2 & e1 & E1 & T1). destruct (H2 Hk2) as (Hk3 & e2 & E2 & T2). split; [done|].
  exists (e1 ++ e2). split; [by rewrite E2, E1, app_assoc|]. by eapply faithful_app.
Qed.
(** An event that is about no pane. *)
Lemma faithful_event t e : about e = None → faithful t [FxEvent e] t.
Proof.
  intros Ha. split; [done|by destruct e| |].
  - intros l1 e' l2 k v H. destruct l1 as [|x [|]]; [|done..]. injection H as <- _. by rewrite Ha.
  - intros l1 l2 k H _. destruct l1 as [|x [|y l1]]; [done|by injection H as <- _|by destruct l1].
Qed.
Lemma emit_told c e : about e = None → ctx_told c (emit c e).
Proof. intros He Hk. split; [done|]. exists [FxEvent e]. split; [done|]. by apply faithful_event. Qed.
Lemma emits_effects es c : lc_effects (foldl emit c es) = lc_effects c ++ (FxEvent <$> es) ∧ lc_table (foldl emit c es) = lc_table c.
Proof.
  revert c. induction es as [|e es IH]; intros c; cbn; [by rewrite app_nil_r|]. destruct (IH (emit c e)) as [-> ->].
  split; [|done]. cbn. by rewrite <- app_assoc.
Qed.
Lemma pushed_changes_diff row title dead in_mode cmd pid :
  pushed_changes row title dead in_mode cmd pid = diff_fields row (pushed_row row title dead in_mode cmd pid).
Proof.
  unfold pushed_changes, diff_fields, pushed_row. cbn [tr_window_id tr_window_name tr_title tr_dead tr_in_mode tr_current_command tr_pane_pid
    tr_width tr_height tr_active]. rewrite (bool_decide_eq_false_2 (tr_window_id row ≠ _)) by tauto.
  rewrite (bool_decide_eq_false_2 (tr_window_name row ≠ _)) by tauto.
  rewrite (bool_decide_eq_false_2 (tr_width row ≠ _ ∨ _)) by tauto. rewrite (eqb_reflx (tr_active row)). by rewrite app_nil_r.
Qed.
Lemma apply_sub_value_told c pane value : ctx_told c (apply_sub_value c pane value).1.
Proof.
  unfold apply_sub_value. destruct (rsplitn 5 9 value) as [|pid [|cmd [|im [|dead [|title [|]]]]]]; try apply ctx_told_refl.
  destruct (parse_pane_pid pid) as [p|]; [|apply ctx_told_refl]. destruct (lc_table c !! pane) as [row|] eqn:Er; [|apply ctx_told_refl].
  rewrite pushed_changes_diff. set (new := pushed_row row title (is_one dead) (is_one im) cmd p).
  intros Hk. pose proof (Hk _ _ Er) as Hid.
  assert (table_keyed (<[pane := new]> (lc_table c))) as Hk'.
  { intros id r. destruct (decide (pane = id)) as [<-|]; [rewrite lookup_insert_eq; intros [= <-]; done|].
    rewrite lookup_insert_ne by done. apply Hk. }
  case_bool_decide as Hd; cbn [fst].
  - by apply ctx_told_refl.
  - split; [done|]. eexists [_; _]. split; [cbn; by rewrite <- app_assoc|]. apply (faithful_write _ _ [_]).
    + split; [|done]. split; [done|]. by exists row.
    + intros e k v ->%list_elem_of_singleton [= <- <-]. apply lookup_insert_eq.
Qed.
Lemma follow_session_name_told c name : ctx_told c (follow_session_name c name).
Proof.
  unfold follow_session_name. case_bool_decide; [apply ctx_told_refl|].
  exact (emit_told (MkLoopCtx name (lc_session_id c) (lc_table c) (lc_effects c) (lc_last_output c)) (EvSessionRenamed name) eq_refl).
Qed.
Lemma output_activity_told c now ts pane : ctx_told c (output_activity c now ts pane).1.
Proof.
  unfold output_activity. destruct (match lc_last_output c !! pane with Some _ => _ | None => _ end); [|apply ctx_told_refl].
  exact (emit_told (set_last_output c (<[pane := now]> (lc_last_output c))) (EvOutputActivity pane ts) eq_refl).
Qed.
Lemma handle_notification_told c now ts n : ctx_told c (handle_notification c now ts n).1.
Proof.
  destruct n; cbn [handle_notification fst]; try apply ctx_told_refl; try apply output_activity_told; try (by apply emit_told).
  - unfold handle_session_renamed. destruct (lc_session_id c), session; try apply ctx_told_refl.
    case_bool_decide; [apply follow_session_name_told|apply ctx_told_refl].
  - case_bool_decide; [destruct pane; apply ctx_told_refl|]. destruct (starts_with _ _); [|apply ctx_told_refl].
    destruct pane; [apply apply_sub_value_told|apply ctx_told_refl].
Qed.
Lemma reconcile_target_told c rows : ctx_told c (reconcile_target c rows).1.
Proof.
  unfold reconcile_target. destruct (list_panes rows) as [fresh|e]; [|apply ctx_told_refl]. intros Hk.
  set (t' := fresh_map fresh). cbn [fst].
  destruct (emits_effects (reconcile_events (lc_table c) t')
    (set_last_output (set_table c t') (foldl (λ m id, delete id m) (lc_last_output c) (removed_ids (lc_table c) t')))) as [-> ->].
  cbn [set_last_output set_table lc_table lc_effects]. split; [apply fresh_map_keyed|]. eexists. split; [by rewrite <- app_assoc|].
  pose proof (fresh_map_keyed fresh) as Hkf. apply faithful_write; [by apply reconcile_tells|].
  intros e k v. unfold reconcile_events. rewrite !elem_of_app, !list_elem_of_fmap, list_elem_of_singleton.
  intros [(id & -> & Hin)|H] Ha; [injection Ha as <- <-; by apply elem_of_removed in Hin as [_ ?]|].
  destruct H as [(r & -> & Hin)|H]; [injection Ha as <- <-; by apply elem_of_added in Hin as [? _]|].
  destruct H as [(x & -> & Hin)|H]; [|by rewrite H in Ha]. destruct x as [[id d] r]. injection Ha as <- <-.
  by apply elem_of_updated in Hin as [? _].
Qed.
Lemma reconcile_current_session_told c name rows : ctx_told c (reconcile_current_session c name rows).1.
Proof.
  unfold reconcile_current_session. destruct (lc_session_id c); [|apply reconcile_target_told].
  eapply ctx_told_trans; [|apply reconcile_target_told].
  destruct (recover_session_name name); [apply follow_session_name_told|apply ctx_told_refl].
Qed.
(** A reconciliation that tmux answered leaves the table of the answer. *)
Lemma reconcile_current_session_Ok c name rows c' :
  reconcile_current_session c name rows = (c', Ok ()) →
  ∃ lines, rows = Ok lines ∧ lc_table c' = fresh_map (omap parse_pane_row lines).
Proof.
  unfold reconcile_current_session. set (c0 := match recover_session_name name with Some _ => _ | None => _ end).
  assert (∀ c1, reconcile_target c1 rows = (c', Ok ()) → ∃ lines, rows = Ok lines ∧ lc_table c' = fresh_map (omap parse_pane_row lines)) as H.
  { intros c1. unfold reconcile_target, list_panes. destruct rows as [lines|e]; [|done]. intros [= <-]. exists lines. split; [done|].
    by destruct (emits_effects (reconcile_events (lc_table c1) (fresh_map (omap parse_pane_row lines)))
      (set_last_output (set_table c1 (fresh_map (omap parse_pane_row lines))) (foldl (λ m id, delete id m) (lc_last_output c1)
        (removed_ids (lc_table c1) (fresh_map (omap parse_pane_row lines)))))) as [_ ->]. }
  destruct (lc_session_id c); apply H.
Qed.
(** One that tmux did not answer leaves the table alone. *)
Lemma reconcile_current_session_Err c name rows c' e :
  reconcile_current_session c name rows = (c', Err e) → rows = Err e ∧ lc_table c' = lc_table c.
Proof.
  unfold reconcile_current_session, reconcile_target, list_panes. destruct rows as [lines|e']; [by destruct (lc_session_id c)|].
  destruct (lc_session_id c); intros [= <- <-]; split; try done. destruct (recover_session_name name) as [n|]; [|done].
  unfold follow_session_name. by case_bool_decide.
Qed.

(** ** The loop *)
Definition loop_told (l l' : WatchLoop) : Prop := ctx_told (wl_ctx l) (wl_ctx l').
Lemma on_queue_all_ctx ops l : wl_ctx (foldl on_queue l ops) = wl_ctx l.
Proof. revert l. induction ops as [|op ops IH]; intros l; [done|]. cbn. by rewrite IH. Qed.
Lemma reconcile_awaited_told l a : loop_told l (reconcile_awaited l a).1.
Proof.
  unfold reconcile_awaited. set (l0 := foldl on_queue l _).
  pose proof (reconcile_current_session_told (wl_ctx l0) (an_name a) (an_rows a)) as H.
  destruct (reconcile_current_session _ _ _) as [c r]. unfold loop_told. cbn. cbn in H. unfold l0 in H. by rewrite on_queue_all_ctx in H.
Qed.
Lemma disconnect_told l l' : loop_told l l' → loop_told l (disconnect l').
Proof. intros H. eapply ctx_told_trans; [exact H|]. by apply emit_told. Qed.
Lemma try_resume_told l l' e : loop_told l l' → loop_told l (try_resume l' e).1.
Proof. intros H. unfold try_resume. destruct (_.2); [done|]. by apply disconnect_told. Qed.
Lemma try_resume_held_told l l' : loop_told l l' → loop_told l (try_resume_held l').1.
Proof. intros H. unfold try_resume_held. destruct (wl_continuity l'); [by apply try_resume_told|done]. Qed.
Lemma watch_step_told l i l' : watch_step l i = Some l' → loop_told l l'.
Proof.
  destruct i as [n|now ts a| |a| |a]; cbn [watch_step]; [by intros [= <-]; apply ctx_told_refl|..]; (destruct (wl_alive l); [cbn [negb]|done]).
  - destruct (recv (wl_queue l)).2 as [n|]; [|done]. cbn [mbind option_bind].
    pose proof (handle_notification_told (wl_ctx (on_queue l QRecv)) now ts n) as Hh.
    destruct (handle_notification _ _ _ _) as [c action]. cbn [fst] in Hh. intros [= <-].
    assert (loop_told l (set_ctx (on_queue l QRecv) c)) as Hc by exact Hh.
    destruct action; [done|done| |by apply disconnect_told].
    unfold on_continuity_lost. set (l1 := set_continuity _ _).
    pose proof (reconcile_awaited_told l1 a) as Hr. destruct (reconcile_awaited l1 a) as [l2 r]. cbn [fst] in Hr.
    assert (loop_told l l2) as H2 by (eapply ctx_told_trans; [exact Hc|exact Hr]).
    destruct r as [u|[]]; try done; [|by apply disconnect_told].
    pose proof (try_resume_told l l2 (sk_epoch (wl_queue (set_ctx (on_queue l QRecv) c))) H2) as H3.
    destruct (try_resume l2 _) as [l3 b]. by destruct b.
  - case_bool_decide; [|done]. intros [= <-]. apply disconnect_told, ctx_told_refl.
  - intros [= <-]. unfold on_request. pose proof (reconcile_awaited_told l a) as Hr. destruct (reconcile_awaited l a) as [l2 r].
    cbn [fst] in Hr. destruct r as [u|e].
    + pose proof (try_resume_held_told l l2 Hr) as H3. destruct (try_resume_held l2) as [l3 b]. by destruct b.
    + destruct (_ || _); [by apply disconnect_told|done].
  - intros [= <-]. apply ctx_told_refl.
  - destruct (wl_deadline l); [|done]. intros [= <-]. unfold on_deadline.
    pose proof (reconcile_awaited_told (set_deadline l false) a) as Hr. destruct (reconcile_awaited _ a) as [l2 r].
    assert (loop_told l l2) as H2 by exact Hr. destruct r as [u|e]; [by apply try_resume_held_told|].
    destruct e; repeat case_bool_decide; try destruct (session_gone _); by try apply disconnect_told.
Qed.
(** [C24.] Whoever receives every event from some moment on and reads the shared table at any later
    moment, both also in the middle of a reconciliation, which replaces the table
    first and sends its events after it, has the table of now once it applied the events
    it received, those sent before its look among them.  And over a whole run, from the table
    between two turns, every event is true when it is told: a pane added was absent, one
    removed was there, and a change lists exactly the fields that differ, which are not
    none. *)
Theorem events_track_the_table l inputs l' :
  table_keyed (lc_table (wl_ctx l)) → watch_run l inputs = Some l' →
  ∃ fx, lc_effects (wl_ctx l') = lc_effects (wl_ctx l) ++ fx ∧
    tells (lc_table (wl_ctx l)) (events_of fx) (lc_table (wl_ctx l')) ∧
    ∀ before between after, fx = before ++ between ++ after →
      foldl replay_event (table_after (lc_table (wl_ctx l)) (before ++ between)) (events_of (between ++ after)) =
        lc_table (wl_ctx l').
Proof.
  intros Hk Hrun. enough (loop_told l l') as H.
  { destruct (H Hk) as (_ & fx & He & Hf). exists fx. split_and!; [done|apply Hf|]. intros. by eapply faithful_replay. }
  clear Hk. revert l Hrun. induction inputs as [|i inputs IH]; intros l; cbn; [intros [= <-]; apply ctx_told_refl|].
  destruct (watch_step l i) as [l1|] eqn:E; [|done]. cbn. intros Hrun. eapply ctx_told_trans; [by eapply watch_step_told|by apply IH].
Qed.

(** ** Gaps *)
Lemma observe_app s g a b :
  observe s g (a ++ b) = observe (observe s g a).1 (observe s g a).2 b.
Proof. revert s g. induction a as [|op a IH]; intros s g; [done|]. cbn. apply IH. Qed.
Lemma observe_queue s g ops : (observe s g ops).1 = queue_run s ops.
Proof. revert s g. induction ops as [|op ops IH]; intros s g; [done|]. cbn. apply IH. Qed.
Definition segment (l : WatchLoop) : Segment := (observe sink_new segment_new (wl_history l)).2.
Definition answers_ok (a : Answers) : Prop := Forall (λ n, n ≠ ContinuityLost) (an_meanwhile a).
Definition input_ok (i : LoopInput) : Prop :=
  match i with
  | LiProduced n => n ≠ ContinuityLost
  | LiNotification _ _ a | LiRequest a | LiDeadline a => answers_ok a
  | _ => True
  end.
(** Queue and history agree. *)
Record hist_ok (l : WatchLoop) : Prop := {
  ho_queue : wl_queue l = queue_run sink_new (wl_history l);
  ho_genuine : Forall genuine (wl_history l);
}.
Record loop_ok (l : WatchLoop) : Prop := {
  lo_hist : hist_ok l;
  lo_open : wl_alive l = true → sk_open (wl_queue l) = true;
  lo_told : wl_alive l = true → wl_continuity l = None → sg_told (segment l) = false;
  lo_retry : wl_alive l = true → wl_continuity l ≠ None → wl_deadline l = true;
}.
Lemma queue_run_app s a b : queue_run s (a ++ b) = queue_run (queue_run s a) b.
Proof. unfold queue_run. by rewrite foldl_app. Qed.
Lemma on_queue_hist l op : hist_ok l → genuine op → hist_ok (on_queue l op).
Proof.
  intros [Hq Hg] Hop. split; cbn.
  - by rewrite queue_run_app, <- Hq.
  - apply Forall_app. split; [done|]. by constructor.
Qed.
Lemma on_queue_segment l op : hist_ok l → segment (on_queue l op) = segment_step (wl_queue l) (segment l) op.
Proof. intros [Hq _]. unfold segment. cbn. rewrite observe_app. cbn. by rewrite observe_queue, <- Hq. Qed.
Lemma enqueue_keeps_open s n : sk_open (enqueue_notification s n).1 = sk_open s.
Proof.
  unfold enqueue_notification, record_notification_gap. destruct (_ <? _); [done|].
  destruct (sk_pending s); [done|]. destruct (u32_max <? _); [done|].
  destruct (_ =? 0); [by destruct (try_send s)|]. destruct (_ <? _); by destruct (try_send s).
Qed.
Lemma enqueues_kept ns l :
  Forall (λ n, n ≠ ContinuityLost) ns → hist_ok l →
  let l' := foldl on_queue l (QEnqueue <$> ns) in
  hist_ok l' ∧ sg_told (segment l') = sg_told (segment l) ∧ sk_open (wl_queue l') = sk_open (wl_queue l) ∧
  wl_alive l' = wl_alive l ∧ wl_continuity l' = wl_continuity l ∧ wl_deadline l' = wl_deadline l.
Proof.
  revert l. induction ns as [|n ns IH]; intros l Hns Hh; [done|]. apply Forall_cons in Hns as [Hn Hns].
  cbn [fmap list_fmap foldl]. assert (genuine (QEnqueue n)) as Hg by (by destruct n).
  destruct (IH (on_queue l (QEnqueue n)) Hns (on_queue_hist _ _ Hh Hg)) as (H1 & H2 & H3 & H4 & H5 & H6).
  split_and!; try done.
  - rewrite H2, on_queue_segment by done. cbn. by destruct (too_large n).
  - rewrite H3. apply enqueue_keeps_open.
Qed.
Lemma disconnect_ok l : hist_ok l → loop_ok (disconnect l).
Proof.
  intros [Hq Hg]. split; try done. split; cbn.
  - by rewrite queue_run_app, <- Hq.
  - apply Forall_app. split; [done|]. by constructor.
Qed.
Lemma reconcile_awaited_kept l a l' r :
  answers_ok a → hist_ok l → reconcile_awaited l a = (l', r) →
  hist_ok l' ∧ sg_told (segment l') = sg_told (segment l) ∧ sk_open (wl_queue l') = sk_open (wl_queue l) ∧
  wl_alive l' = wl_alive l ∧ wl_continuity l' = wl_continuity l ∧ wl_deadline l' = wl_deadline l.
Proof.
  intros Ha Hh. unfold reconcile_awaited. destruct (enqueues_kept (an_meanwhile a) l Ha Hh) as (H1 & H2 & H3 & H4 & H5 & H6).
  destruct (reconcile_current_session _ _ _) as [c r']. intros [= <- <-]. split_and!; try done. by destruct H1.
Qed.
Lemma try_resume_ok l e :
  hist_ok l → wl_alive l = true → sk_open (wl_queue l) = true →
  loop_ok (try_resume l e).1 ∧ ((try_resume l e).2 = true → wl_alive (try_resume l e).1 = true ∧ wl_continuity (try_resume l e).1 = None).
Proof.
  intros Hh Hal Ho. unfold try_resume. pose proof (on_queue_segment l (QResume e) Hh) as Hs. cbn [segment_step] in Hs.
  destruct (resume_after_reconcile (wl_queue l) e).2 eqn:Er; cbn [fst snd].
  - split; [|done]. assert (hist_ok (on_queue l (QResume e))) as [Hq Hg] by (by apply on_queue_hist).
    split; [by split|..]; cbn.
    + intros _. unfold resume_after_reconcile. destruct (negb _); [done|]. cbn. by rewrite drain_fields.
    + intros _ _. unfold segment in *. cbn in *. by rewrite Hs.
    + done.
  - split; [|done]. by apply disconnect_ok, on_queue_hist.
Qed.
Lemma set_deadline_ok l b : loop_ok l → (wl_continuity l ≠ None → b = true) → loop_ok (set_deadline l b).
Proof. intros [[? ?] ? ? ?] Hb. by split. Qed.
Lemma set_ctx_ok l c : loop_ok l → loop_ok (set_ctx l c).
Proof. intros [[? ?] ? ? ?]. by split. Qed.
Lemma on_continuity_lost_ok l a :
  hist_ok l → wl_alive l = true → sk_open (wl_queue l) = true → answers_ok a → loop_ok (on_continuity_lost l a).
Proof.
  intros Hh Hal Ho Ha. unfold on_continuity_lost.
  assert (hist_ok (set_continuity (on_queue l QHold) (Some (sk_epoch (wl_queue l))))) as Hh1.
  { destruct (on_queue_hist l QHold Hh I). by split. }
  destruct (reconcile_awaited _ a) as [l2 r] eqn:Er.
  destruct (reconcile_awaited_kept _ _ _ _ Ha Hh1 Er) as (H1 & H2 & H3 & H4 & H5 & H6). cbn in H3, H4, H5.
  assert (loop_ok (set_deadline l2 true)) as Hretry.
  { split; cbn; [by destruct H1|congruence|congruence|done]. }
  destruct r as [u|e]; [|by destruct e; try done; apply disconnect_ok].
  destruct (try_resume_ok l2 (sk_epoch (wl_queue l)) H1) as [Hok Hres]; [congruence..|].
  destruct (try_resume l2 _) as [l3 b]. cbn [fst snd] in *. destruct b; [|done].
  apply set_deadline_ok; [done|]. destruct (Hres eq_refl) as [_ ->]. done.
Qed.
Lemma try_resume_held_ok l :
  loop_ok l → wl_alive l = true →
  loop_ok (try_resume_held l).1 ∧ ((try_resume_held l).2 = true → wl_continuity (try_resume_held l).1 = None).
Proof.
  intros Hok Hal. unfold try_resume_held. destruct (wl_continuity l) as [e|] eqn:E; [|by split].
  destruct (try_resume_ok l e (lo_hist l Hok) Hal (lo_open l Hok Hal)) as [H1 H2]. split; [done|]. by intros [_ ?]%H2.
Qed.
(** A loop about to use an answer: nothing but the queue has moved. *)
Lemma awaited_ok l a l' r :
  loop_ok l → answers_ok a → reconcile_awaited l a = (l', r) →
  loop_ok l' ∧ wl_alive l' = wl_alive l ∧ wl_continuity l' = wl_continuity l ∧ wl_deadline l' = wl_deadline l.
Proof.
  intros [Hh Ho Ht Hr] Ha E. destruct (reconcile_awaited_kept _ _ _ _ Ha Hh E) as (H1 & H2 & H3 & H4 & H5 & H6).
  split_and!; try done. split; rewrite ?H2, ?H3, ?H4, ?H5, ?H6; done.
Qed.
Lemma received_told l n :
  hist_ok l → (recv (wl_queue l)).2 = Some n → n ≠ ContinuityLost → sg_told (segment (on_queue l QRecv)) = sg_told (segment l).
Proof. intros Hh Hr Hn. rewrite on_queue_segment by done. cbn. rewrite Hr. by destruct n. Qed.
Lemma recv_keeps_open s : sk_open (recv s).1 = sk_open s.
Proof. unfold recv. destruct (sk_queue s); [done|]. apply released_fields. Qed.
Lemma handle_not_lost c now ts n : n ≠ ContinuityLost → (handle_notification c now ts n).2 ≠ ActContinuityLost.
Proof.
  intros Hn. destruct n; try done; cbn.
  - unfold output_activity. by case_bool_decide.
  - unfold output_activity. by case_bool_decide.
  - unfold handle_session_renamed. destruct (lc_session_id c), session; try done. by case_bool_decide.
  - unfold dead_edge, apply_sub_value. repeat (case_match; try done).
Qed.
Lemma on_received_ok l now ts a n c action :
  loop_ok l → wl_alive l = true → answers_ok a → (recv (wl_queue l)).2 = Some n →
  handle_notification (wl_ctx l) now ts n = (c, action) →
  let l' := set_ctx (on_queue l QRecv) c in
  loop_ok match action with
          | ActNone => l'
          | ActHint => set_deadline l' true
          | ActContinuityLost => on_continuity_lost l' a
          | ActDisconnect => disconnect l'
          end.
Proof.
  intros Hok Hal Ha En Eh l'. pose proof Hok as [Hh Ho Ht Hr]. pose proof (on_queue_hist l QRecv Hh I) as Hh1.
  assert (sk_open (wl_queue l') = true) as Ho1 by (cbn; rewrite recv_keeps_open; by apply Ho).
  assert (hist_ok l') as Hh2 by (by destruct Hh1).
  assert (n = ContinuityLost ∨ n ≠ ContinuityLost) as [->|Hn] by (destruct n; auto).
  - injection Eh as <- <-. by apply on_continuity_lost_ok.
  - assert (loop_ok l') as H.
    { split; cbn; try done. intros _ Hc. change (sg_told (segment (on_queue l QRecv)) = false).
      rewrite (received_told l n) by done. by apply Ht. }
    pose proof (handle_not_lost (wl_ctx l) now ts n Hn) as Hnl. rewrite Eh in Hnl.
    destruct action; [done|by apply set_deadline_ok|done|by apply disconnect_ok].
Qed.
Lemma on_request_ok l a : loop_ok l → wl_alive l = true → answers_ok a → loop_ok (on_request l a).
Proof.
  intros Hok Hal Ha. unfold on_request. destruct (reconcile_awaited l a) as [l2 r] eqn:Er.
  destruct (awaited_ok _ _ _ _ Hok Ha Er) as (H2 & E1 & E2 & E3). destruct r as [u|e].
  - destruct (try_resume_held_ok l2 H2 ltac:(congruence)) as [H3 H4]. destruct (try_resume_held l2) as [l3 b].
    destruct b; [|done]. apply set_deadline_ok; [done|]. cbn in H4. by rewrite H4.
  - case_bool_decide as Hc; [rewrite orb_true_r; apply disconnect_ok; by destruct (lo_hist _ H2)|].
    assert (loop_ok (set_deadline l2 false)) as H3.
    { apply set_deadline_ok; [done|]. intros Hne. destruct Hc. cbn. by destruct (wl_continuity l2); [eexists|]. }
    destruct (_ || _); [apply disconnect_ok, H3|done].
Qed.
Lemma on_deadline_ok l a : loop_ok l → wl_alive l = true → answers_ok a → loop_ok (on_deadline l a).
Proof.
  intros Hok Hal Ha. unfold on_deadline. destruct (reconcile_awaited _ a) as [l2 r] eqn:Er.
  assert (hist_ok (set_deadline l false)) as Hh0 by (by destruct (lo_hist _ Hok)).
  destruct (reconcile_awaited_kept _ _ _ _ Ha Hh0 Er) as (H1 & H2 & H3 & H4 & H5 & H6). cbn in H3, H4, H5, H6.
  change (segment (set_deadline l false)) with (segment l) in H2.
  assert (wl_continuity l2 = None → loop_ok l2) as Hquiet.
  { intros Ec. split; [done|rewrite H3; intros _; by apply Hok|rewrite H2; intros _ _; apply Hok; congruence|congruence]. }
  destruct r as [u|e].
  - unfold try_resume_held. destruct (wl_continuity l2) as [ep|] eqn:Ec; [|by apply Hquiet].
    apply try_resume_ok; [done|congruence|rewrite H3; by apply Hok].
  - destruct e; try (by apply disconnect_ok); case_bool_decide as Hc; try (by apply disconnect_ok);
      destruct (session_gone _); try (by apply disconnect_ok); apply Hquiet; destruct (wl_continuity l2); try done; by destruct Hc; eexists.
Qed.
Lemma watch_step_ok l i l' : loop_ok l → input_ok i → watch_step l i = Some l' → loop_ok l'.
Proof.
  intros Hok Hi. destruct i as [n|now ts a| |a| |a]; cbn [watch_step].
  { intros [= <-]. pose proof Hok as [Hh Ho Ht Hr]. assert (genuine (QEnqueue n)) as Hg by (by destruct n).
    split; cbn; try done; [by apply on_queue_hist|intros Hal; rewrite enqueue_keeps_open; by apply Ho|].
    intros Hal Hc. rewrite on_queue_segment by done. cbn. destruct (too_large n); by apply Ht. }
  all: destruct (wl_alive l) eqn:Hal; cbn [negb]; [|done].
  - destruct (recv (wl_queue l)).2 as [n|] eqn:En; [|done]. cbn [mbind option_bind].
    destruct (handle_notification _ now ts n) as [c action] eqn:Eh. intros [= <-]. by eapply on_received_ok.
  - case_bool_decide; [|done]. intros [= <-]. apply disconnect_ok, Hok.
  - intros [= <-]. by apply on_request_ok.
  - intros [= <-]. pose proof Hok as [[Hq Hg] _ _ _]. split; try done. split; cbn; [by rewrite queue_run_app, <- Hq|].
    apply Forall_app. split; [done|]. by constructor.
  - destruct (wl_deadline l); [|done]. intros [= <-]. by apply on_deadline_ok.
Qed.
Lemma watch_run_ok l inputs l' : loop_ok l → Forall input_ok inputs → watch_run l inputs = Some l' → loop_ok l'.
Proof.
  intros Hok H. revert l Hok. induction H as [|i inputs Hi _ IH]; intros l Hok; cbn; [by intros [= <-]|].
  destruct (watch_step l i) as [l1|] eqn:E; [|done]. cbn. apply IH. by eapply watch_step_ok.
Qed.
Lemma watch_start_ok session session_id table : loop_ok (watch_start session session_id table).
Proof. by split; try split. Qed.
(** A loop that lives and has no reconciliation open knows of every gap: since its
    last accepted snapshot it has handled, in order, a prefix of what the reader
    produced, what is left waits in its queue, and if anything was dropped the marker is
    the queue's last entry, still to be handled. While one is open, its retry is armed. *)
Theorem living_loops_know_their_gaps session session_id table inputs l :
  Forall input_ok inputs → watch_run (watch_start session session_id table) inputs = Some l → wl_alive l = true →
  match wl_continuity l with
  | None =>
      ∃ waiting dropped, sg_produced (segment l) = sg_received (segment l) ++ waiting ++ dropped ∧
        qn_notification <$> sk_queue (wl_queue l) =
          waiting ++ (if bool_decide (dropped = []) && negb (sk_pending (wl_queue l)) then [] else [ContinuityLost])
  | Some _ => wl_deadline l = true
  end.
Proof.
  intros Hi Hrun Hal. pose proof (watch_run_ok _ _ _ (watch_start_ok session session_id table) Hi Hrun) as [[Hq Hg] Ho Ht Hr].
  destruct (wl_continuity l) eqn:Ec; [by apply Hr|].
  assert (observe sink_new segment_new (wl_history l) = (wl_queue l, segment l)) as Hobs.
  { rewrite Hq, <- (observe_queue sink_new segment_new). apply surjective_pairing. }
  destruct (segment_told _ _ _ Hg Hobs (Ho Hal)) as (w & d & H1 & H2 & _). exists w, d. split; [done|]. by apply H2, Ht.
Qed.
Lemma on_queue_all_queue ops l : wl_queue (foldl on_queue l ops) = queue_run (wl_queue l) ops.
Proof. revert l. induction ops as [|op ops IH]; intros l; [done|]. cbn. by rewrite IH. Qed.
Lemma on_queue_all_continuity ops l : wl_continuity (foldl on_queue l ops) = wl_continuity l.
Proof. revert l. induction ops as [|op ops IH]; intros l; [done|]. cbn. by rewrite IH. Qed.
Lemma on_queue_all_alive ops l : wl_alive (foldl on_queue l ops) = wl_alive l.
Proof. revert l. induction ops as [|op ops IH]; intros l; [done|]. cbn. by rewrite IH. Qed.
(** [C36.] A gap is closed by a snapshot, and only by one.  When the loop handles the marker, it
    asks tmux for the rows.  If tmux answers, the loop goes on exactly if nothing was
    produced while it was asked (short of 2^64 notifications), and then the gap
    is closed: the table is the answer, the queue is empty, nothing is held and no retry is
    armed.  If tmux does not answer, the loop goes on unless the connection is gone, the
    table stays, the gap stays open and the retry is armed. *)
Theorem gaps_close_on_a_snapshot session session_id table inputs l now ts a l' :
  Forall input_ok inputs → watch_run (watch_start session session_id table) inputs = Some l →
  answers_ok a → offers (QEnqueue <$> an_meanwhile a) ≤ u64_max →
  (recv (wl_queue l)).2 = Some ContinuityLost → watch_step l (LiNotification now ts a) = Some l' →
  match an_rows a with
  | Ok lines =>
      (wl_alive l' = true ↔ offers (QEnqueue <$> an_meanwhile a) = 0) ∧
      (wl_alive l' = true →
         wl_continuity l' = None ∧ wl_deadline l' = false ∧ sk_queue (wl_queue l') = [] ∧
         lc_table (wl_ctx l') = fresh_map (omap parse_pane_row lines))
  | Err e =>
      (wl_alive l' = true ↔ e ≠ TmuxDisconnected) ∧ lc_table (wl_ctx l') = lc_table (wl_ctx l) ∧
      (wl_alive l' = true → is_Some (wl_continuity l') ∧ wl_deadline l' = true)
  end.
Proof.
  intros Hi Hrun Ha Hn Hrecv. pose proof (watch_run_ok _ _ _ (watch_start_ok session session_id table) Hi Hrun) as Hok.
  cbn [watch_step]. destruct (wl_alive l) eqn:Hal; [|done]. cbn [negb]. rewrite Hrecv. cbn [mbind option_bind handle_notification].
  intros [= <-].
  set (l1 := set_ctx (on_queue l QRecv) _) in *. assert (hist_ok l1) as Hh1 by (destruct (on_queue_hist l QRecv (lo_hist _ Hok) I); by split).
  unfold on_continuity_lost, reconcile_awaited. set (held := set_continuity _ _) in *. set (ops := QEnqueue <$> an_meanwhile a) in *.
  assert (wl_alive (foldl on_queue held ops) = true) as Hal1 by (by rewrite on_queue_all_alive).
  assert (wl_ctx (foldl on_queue held ops) = wl_ctx l) as Hctx by (by rewrite on_queue_all_ctx).
  destruct (reconcile_current_session _ _ _) as [c r] eqn:Er. destruct r as [[]|e].
  - apply reconcile_current_session_Ok in Er as (lines & -> & Htable).
    assert (Forall (λ op, in_between op = true) ops) as Hbt by (apply Forall_fmap, Forall_true; done).
    assert (hold_continuity (observe sink_new segment_new (wl_history l1)).1 = (wl_queue held, sk_epoch (wl_queue l1))) as Hhold
      by (by rewrite observe_queue, <- (ho_queue _ Hh1)).
    unfold try_resume. cbn [wl_queue set_ctx]. rewrite on_queue_all_queue.
    destruct (resume_after_reconcile (queue_run (wl_queue held) ops) (sk_epoch (wl_queue l1))) as [s ok] eqn:Es. cbn [snd].
    destruct ok.
    + destruct (accepted_is_complete (wl_history l1) ops (wl_queue held) (sk_epoch (wl_queue l1)) s) as [H0 ->]; try done.
      { apply Hh1. }
      { apply Forall_fmap. eapply Forall_impl; [exact Ha|]. intros n Hne. by destruct n. }
      cbn [wl_alive set_deadline set_continuity on_queue set_ctx]. split; [done|]. intros _. split_and!; [done|done| |exact Htable].
      change (sk_queue (resume_after_reconcile (wl_queue (foldl on_queue held ops)) (sk_epoch (wl_queue l1))).1 = []).
      by rewrite on_queue_all_queue, Es.
    + split; [|done]. split; [done|]. intros H0. exfalso.
      pose proof (quiet_is_accepted _ ops _ _ (ho_genuine _ Hh1) Hhold Hbt H0) as H. by rewrite Es in H.
  - apply reconcile_current_session_Err in Er as [-> Htable]. rewrite Hctx in Htable.
    destruct e; try (split_and!; [by split|exact Htable|intros _; split; [|done]; cbn; rewrite on_queue_all_continuity; by eexists]).
    split_and!; [by split|exact Htable|done].
Qed.
