(* ===== verification/ComposerProjection.v ===== *)
(** * Who owns what a composer shows

    [src/cyclopsd/src/delivery/inject.rs] ([visible_single_line_payload_matches]) and
    [src/cyclopsd/src/messaging.rs]: the join of one terminal observation with the
    attempts that hold a recipient's terminal ([project_runtime_composer]), and the
    join of a pane's status with them ([WorkspaceMessagingStatus::composer_status]).

    Text offsets are positions in the list of scalars; the code's are the byte
    positions of the same places.  What a capture or the process table showed is an
    input. *)
From S2P Require Import Prelude Text Identity Ledger Journal Mailbox Notification Facts.
From S2P Require Import Projection Attempt Prepared MailboxInv NotificationInv Invariant Replay Entries.
From S2P Require Import Guarantees Store Views Directory StoreInv StoreOps Service ServiceProps Detection.
From S2P Require Import NotificationAdapter DeliveryPayload.
Local Open Scope N_scope.

(** ** A payload drawn over several rows *)
Fixpoint trim_start_char (c : rchar) (s : rstr) : rstr :=
  match s with
  | [] => []
  | x :: s' => if x =? c then trim_start_char c s' else s
  end.
Definition trim_end_char (c : rchar) (s : rstr) : rstr := reverse (trim_start_char c (reverse s)).
(** Where the text goes on after [part] was found at [offset]. *)
Definition row_ends (expected part : rstr) (last : bool) (offset : nat) : list nat :=
  match strip_prefix part (drop offset expected) with
  | None => []
  | Some remaining =>
      let e := (length expected - length remaining)%nat in
      e :: (if negb last && bool_decide (expected !! e = Some 32) then [S e] else [])
  end.
Definition sort_dedup (l : list nat) : list nat := remove_dups (merge_sort Nat.le l).
Fixpoint rows_match (expected : rstr) (parts : list rstr) (offsets : list nat) : bool :=
  match parts with
  | [] => bool_decide (length expected ∈ offsets)
  | part :: parts =>
      let part := trim_end_char 32 part in
      if bool_decide (part = []) then false
      else
        let next := sort_dedup (mjoin (row_ends expected part (bool_decide (parts = [])) <$> offsets)) in
        if bool_decide (next = []) then false else rows_match expected parts next
  end.
Definition visible_single_line_payload_matches (visible expected : rstr) : bool :=
  if bool_decide (visible = expected) then true
  else if bool_decide (10 ∈ expected) || bool_decide (10 ∉ visible) then false
  else rows_match expected (split_char 10 visible) [0%nat].

(** ** Observations and decisions *)
Inductive ComposerProof := ProofManifestRule | ProofExactNotification | ProofAmbiguous | ProofUnprovable.
#[export] Instance ComposerProof_eq_dec : EqDecision ComposerProof.
Proof. solve_decision. Defined.
Record MessagingComposerPhysicalBinding := MkPhysicalBinding {
  pb_pane_root : ProcessInstanceId;
  pb_leader : ProcessInstanceId;
  pb_agent : ProcessInstanceId;
  pb_manifest : NotificationManifestId;
}.
Inductive MessagingComposerBindingObservation :=
| CbBound (b : MessagingComposerPhysicalBinding)
| CbNotVendor
| CbGone
| CbUnprovable.
Inductive MessagingComposerCapture :=
| CapNotRead
| CapVisible (actual : rstr)
| CapHidden
| CapUnprovable
| CapBindingChanged.
Record MessagingRuntimeComposerObservation := MkRuntimeObservation {
  ro_semantic : option ComposerSemantic;
  ro_owner : option rstr;
  ro_in_mode : bool;
  ro_detection_stale : bool;
  ro_terminal_state_unsafe : bool;
  ro_binding : MessagingComposerBindingObservation;
  ro_recipient : option RecipientKey;
  ro_capture : MessagingComposerCapture;
}.
Record MessagingRuntimeComposerProjection := MkRuntimeProjection {
  rp_state : ComposerState;
  rp_proof : ComposerProof;
  rp_notification_attempt : option NotificationAttemptId;
  rp_reason : option rstr;
  rp_candidate_count : N;
  rp_binding_verified : bool;
}.
Definition runtime_projection_default : MessagingRuntimeComposerProjection :=
  MkRuntimeProjection ComposerAmbiguous ProofUnprovable None (Some (str "composer_not_observed")) 0 false.
(** [u32::try_from(count).unwrap_or(u32::MAX)] *)
Definition count_u32 (count : nat) : N := N.min (N.of_nat count) (2 ^ 32 - 1).
Definition ambiguous_runtime_composer_projection (attempt : option NotificationAttemptId) (proof : ComposerProof)
    (reason : rstr) (candidate_count : nat) : MessagingRuntimeComposerProjection :=
  MkRuntimeProjection ComposerAmbiguous proof attempt (Some reason) (count_u32 candidate_count) false.
Definition semantic_runtime_composer_projection (semantic : option ComposerSemantic) : MessagingRuntimeComposerProjection :=
  match semantic with
  | Some SemClean => MkRuntimeProjection ComposerClean ProofManifestRule None None 0 false
  | Some SemHumanInput => MkRuntimeProjection HumanDraft ProofManifestRule None None 0 false
  | Some SemGhostSuggestion => MkRuntimeProjection VendorGhostSuggestion ProofManifestRule None None 0 false
  | Some SemAmbiguous => ambiguous_runtime_composer_projection None ProofAmbiguous (str "manifest_rule_ambiguous") 0
  | None => runtime_projection_default
  end.
Definition notification_submission_recorded (record : NotificationRecord) : bool :=
  match nr_state record with
  | Submitted | SubmittedUnverified | Notified => true
  | AttentionRequired =>
      match nr_cause record with Some (ReceiptOccupantChanged | AckTimeout) => true | _ => false end
  | _ => false
  end.

Section projection.
Context {V : Type} {serde : Serde V} {codec : LineCodec V} {uuids : Uuids} {digests : Digests}.
Abbreviation Active := (ActiveComposerNotification (V:=V)).

Record MessagingComposerProjectionProbe := MkProbe { pr_candidates : list Active; pr_store_available : bool }.
Definition probe_none : MessagingComposerProjectionProbe := MkProbe [] true.
Definition probe_store_unavailable : MessagingComposerProjectionProbe := MkProbe [] false.
Definition no_candidates (candidates : list Active) : bool := match candidates with [] => true | _ => false end.
Definition requires_capture (probe : MessagingComposerProjectionProbe) (owner_present : bool) : bool :=
  owner_present || negb (no_candidates (pr_candidates probe)).

Definition incomplete_binding (binding : option NotificationBinding) : bool :=
  match binding with
  | Some b => bool_decide (nb_pane_root b = None) || bool_decide (nb_leader b = None)
  | None => true
  end.
(** The attempt the observation is judged against, or the answer without one. *)
Definition select_candidate (owner : option NotificationAttemptId) (candidates : list Active)
    : NotificationAttemptId * Active + MessagingRuntimeComposerProjection :=
  match owner, candidates with
  | Some attempt, [candidate] =>
      if bool_decide (nr_attempt_id (acn_record candidate) = attempt) then inl (attempt, candidate)
      else inr (ambiguous_runtime_composer_projection (Some attempt) ProofAmbiguous (str "notification_attempt_mismatch") 1)
  | None, [candidate] =>
      let reason := if incomplete_binding (nr_binding (acn_record candidate)) then str "durable_binding_incomplete"
                    else str "notification_owner_missing" in
      inr (ambiguous_runtime_composer_projection (Some (nr_attempt_id (acn_record candidate))) ProofUnprovable reason 1)
  | Some attempt, [] =>
      inr (ambiguous_runtime_composer_projection (Some attempt) ProofAmbiguous (str "notification_attempt_mismatch") 0)
  | owner, _ =>
      inr (ambiguous_runtime_composer_projection owner ProofAmbiguous (str "multiple_active_notifications") (length candidates))
  end.
(** The durable binding names the recipient and every process that is there now. *)
Definition same_binding (record : NotificationRecord) (expected : NotificationBinding) (recipient : RecipientKey)
    (current : MessagingComposerPhysicalBinding) : bool :=
  bool_decide (nb_recipient expected = nr_recipient record) && bool_decide (recipient = nr_recipient record) &&
  bool_decide (nb_pane_root expected = Some (pb_pane_root current)) &&
  bool_decide (nb_leader expected = Some (pb_leader current)) &&
  bool_decide (nb_agent expected = pb_agent current) && bool_decide (nb_manifest expected = pb_manifest current).
(** The content against the payload of the bound attempt; [None] is the arm the
    code calls unreachable. *)
Definition project_content (attempt : NotificationAttemptId) (record : NotificationRecord) (expected : rstr)
    (semantic : option ComposerSemantic) (capture : MessagingComposerCapture) (count : nat)
    : option MessagingRuntimeComposerProjection :=
  let doubt proof reason := Some (ambiguous_runtime_composer_projection (Some attempt) proof reason count) in
  match capture with
  | CapVisible actual =>
      if visible_single_line_payload_matches actual expected && bool_decide (semantic = Some SemHumanInput)
      then Some (MkRuntimeProjection CyclopsNotificationStaged ProofExactNotification (Some attempt) None 1 true)
      else if bool_decide (semantic = Some SemClean) && bool_decide (actual = []) && notification_submission_recorded record
      then Some (MkRuntimeProjection CyclopsNotificationSubmitted ProofExactNotification (Some attempt) None 1 true)
      else doubt ProofAmbiguous (str "composer_content_mismatch")
  | CapHidden => doubt ProofUnprovable (str "composer_hidden")
  | CapNotRead => doubt ProofUnprovable (str "composer_not_read")
  | CapUnprovable => doubt ProofUnprovable (str "composer_capture_unprovable")
  | CapBindingChanged => None
  end.
Definition parsed_owner (o : MessagingRuntimeComposerObservation) : option NotificationAttemptId :=
  owner ← ro_owner o; result_ok (attempt_parse owner).
Definition binding_changed (capture : MessagingComposerCapture) : bool :=
  match capture with CapBindingChanged => true | _ => false end.
Definition is_unprovable (b : MessagingComposerBindingObservation) : bool := match b with CbUnprovable => true | _ => false end.
Definition is_absent (b : MessagingComposerBindingObservation) : bool := match b with CbNotVendor | CbGone => true | _ => false end.
(** From the selected attempt on. *)
Definition project_candidate (attempt : NotificationAttemptId) (candidate : Active) (count : nat)
    (o : MessagingRuntimeComposerObservation) : option MessagingRuntimeComposerProjection :=
  let record := acn_record candidate in
  let doubt proof reason := Some (ambiguous_runtime_composer_projection (Some attempt) proof reason count) in
  if is_unprovable (ro_binding o) then doubt ProofUnprovable (str "binding_unprovable")
  else if ro_terminal_state_unsafe o || is_absent (ro_binding o) then doubt ProofAmbiguous (str "terminal_state_unsafe")
  else if bool_decide (ro_semantic o = None) then doubt ProofUnprovable (str "composer_semantic_unprovable")
  else match ro_recipient o with
  | None => doubt ProofUnprovable (str "recipient_unprovable")
  | Some recipient =>
  match nr_binding record with
  | None => doubt ProofUnprovable (str "durable_binding_incomplete")
  | Some expected_binding =>
  match ro_binding o with
  | CbBound current =>
      if incomplete_binding (Some expected_binding) then doubt ProofUnprovable (str "durable_binding_incomplete")
      else if negb (same_binding record expected_binding recipient current)
      then doubt ProofAmbiguous (str "binding_mismatch")
      else match message ← acn_message candidate; expected_notification_payload record message with
      | None => doubt ProofUnprovable (str "notification_payload_unprovable")
      | Some expected => project_content attempt record expected (ro_semantic o) (ro_capture o) count
      end
  | _ => doubt ProofUnprovable (str "binding_unprovable")
  end end end.
Definition project_runtime_composer (candidates : list Active) (store_available : bool)
    (o : MessagingRuntimeComposerObservation) : option MessagingRuntimeComposerProjection :=
  let owner := parsed_owner o in
  let count := length candidates in
  let doubt proof reason := Some (ambiguous_runtime_composer_projection owner proof reason count) in
  if negb store_available then doubt ProofUnprovable (str "notification_store_unavailable")
  else if ro_in_mode o then doubt ProofAmbiguous (str "pane_in_mode")
  else if ro_detection_stale o then doubt ProofUnprovable (str "detection_stale")
  else if binding_changed (ro_capture o) then doubt ProofAmbiguous (str "binding_changed_during_capture")
  else if bool_decide (ro_owner o = None) && no_candidates candidates
  then Some (semantic_runtime_composer_projection (ro_semantic o))
  else if bool_decide (is_Some (ro_owner o)) && bool_decide (owner = None) && no_candidates candidates
  then Some (ambiguous_runtime_composer_projection None ProofUnprovable (str "direct_delivery_hold_unprovable") 0)
  else match select_candidate owner candidates with
  | inr answer => Some answer
  | inl (attempt, candidate) => project_candidate attempt candidate count o
  end.
Definition project (probe : MessagingComposerProjectionProbe) (o : MessagingRuntimeComposerObservation)
    : option MessagingRuntimeComposerProjection :=
  project_runtime_composer (pr_candidates probe) (pr_store_available probe) o.
Definition composer_projection_probe (svc : MailboxService (V:=V)) (recipient : option RecipientKey)
    : MessagingComposerProjectionProbe :=
  match recipient with
  | None => probe_none
  | Some recipient =>
      match active_composer_notifications svc recipient with
      | Ok candidates => MkProbe candidates true
      | Err _ => probe_store_unavailable
      end
  end.

(** ** The composer on a status row *)
Inductive ComposerMessageState := CmsPending | CmsClaimed | CmsDeliveredDirect | CmsSuperseded.
Definition message_state_from (state : MailboxEntryState) : ComposerMessageState :=
  match state with
  | Pending => CmsPending
  | Claimed _ _ => CmsClaimed
  | DeliveredDirect _ _ => CmsDeliveredDirect
  | EntrySuperseded _ _ => CmsSuperseded
  end.
Inductive ComposerNextAction := AutomaticSubmit | AutomaticReconcile | InspectAttention | InspectMessages | CheckHealth.
Definition operator_composer_next_action (notification : option NotificationState) (has_exact_attempt : bool)
    : ComposerNextAction :=
  match notification with
  | Some AttentionRequired => if has_exact_attempt then InspectAttention else InspectMessages
  | Some (Writing | Staged | Submitting | Submitted | Notified | WithdrawnAfterStaging) =>
      if has_exact_attempt then CheckHealth else InspectMessages
  | _ => InspectMessages
  end.
Record MessagingComposerObservation := MkComposerObservation {
  co_composer : ComposerState;
  co_proof : ComposerProof;
  co_reason : option rstr;
  co_detected_attempt : option NotificationAttemptId;
  co_detected_candidate_count : N;
  co_pane_root : option ProcessInstanceId;
  co_binding : option NotificationBinding;
}.
Record MessagingComposerStatus := MkComposerStatus {
  cs_composer : ComposerState;
  cs_proof : ComposerProof;
  cs_reason : option rstr;
  cs_candidate_count : N;
  cs_attempt : option NotificationAttemptId;
  cs_notification_state : option NotificationState;
  cs_message_state : option ComposerMessageState;
  cs_next_action : option ComposerNextAction;
}.
Record MessagingComposerCandidate := MkComposerCandidate {
  cc_record : NotificationRecord;
  cc_message_state : option ComposerMessageState;
}.
Abbreviation Candidates := (gmap NotificationAttemptId MessagingComposerCandidate).
(** The candidates a status snapshot groups by recipient. *)
Definition add_candidate (grouped : gmap RecipientKey Candidates) (c : Active) : gmap RecipientKey Candidates :=
  let record := acn_record c in
  <[nr_recipient record := <[nr_attempt_id record := MkComposerCandidate record (message_state_from <$> acn_entry_state c)]>
      (default ∅ (grouped !! nr_recipient record))]> grouped.
Definition composer_candidates (svc : MailboxService (V:=V)) : option (gmap RecipientKey Candidates) :=
  foldl add_candidate ∅ <$> result_ok (active_composer_notifications_snapshot svc).

Definition owned_composer (c : ComposerState) : bool :=
  match c with CyclopsNotificationStaged | CyclopsNotificationSubmitted => true | _ => false end.
Definition binding_matches (o : MessagingComposerObservation) (recipient : option RecipientKey) (record : NotificationRecord) : bool :=
  match recipient, co_binding o with
  | Some recipient, Some binding =>
      bool_decide (nr_recipient record = recipient) && bool_decide (nb_pane_root binding = co_pane_root o) &&
      bool_decide (nr_binding record = Some binding)
  | _, _ => false
  end.
Definition composer_status (grouped : option (gmap RecipientKey Candidates)) (recipient : option RecipientKey)
    (o : MessagingComposerObservation) : MessagingComposerStatus :=
  let mine := recipient ← recipient; grouped ← grouped; grouped !! recipient in
  let count := match mine with Some cs => count_u32 (length (map_to_list cs)) | None => co_detected_candidate_count o end in
  let attempt :=
    match mine with
    | Some cs => match map_to_list cs with [(a, _)] => Some a | _ => None end
    | None => co_detected_attempt o
    end in
  let status composer proof reason ns ms next := MkComposerStatus composer proof reason count attempt ns ms next in
  match attempt with
  | None =>
      status (co_composer o) (co_proof o) (co_reason o) None None (if 0 <? count then Some InspectMessages else None)
  | Some attempt_id =>
      match mine ≫= (λ cs, cs !! attempt_id) with
      | None =>
          status ComposerAmbiguous ProofUnprovable (co_reason o) None None (Some (operator_composer_next_action None true))
      | Some candidate =>
          let record := cc_record candidate in
          let next := Some (operator_composer_next_action (Some (nr_state record)) true) in
          let unprovable := bool_decide (co_pane_root o = None) || bool_decide (co_binding o = None) ||
                            incomplete_binding (nr_binding record) in
          if owned_composer (co_composer o) && negb (binding_matches o recipient record) then
            if unprovable
            then status ComposerAmbiguous ProofUnprovable (Some (str "binding_unprovable")) (Some (nr_state record)) (cc_message_state candidate) next
            else status ComposerAmbiguous ProofAmbiguous (Some (str "binding_mismatch")) (Some (nr_state record)) (cc_message_state candidate) next
          else status (co_composer o) (co_proof o) (co_reason o) (Some (nr_state record)) (cc_message_state candidate) next
      end
  end.
End projection.

(** * Ownership of a composer

    Theorems about [ComposerProjection]: a payload is recognised over several rows
    exactly if the rows are the payload cut at most at blanks, and a composer is
    called a notification's exactly if one attempt, its durable binding, the
    processes there and the bytes shown all agree; and no observation makes the
    decision crash. *)

(** ** Drawn rows *)
(** The payload a sequence of rows draws: each row less the blanks it ends in, the rows
    joined at a blank or inside a word. *)
Inductive drawn : list rstr → rstr → Prop :=
| drawn_last row : trim_end_char 32 row ≠ [] → drawn [row] (trim_end_char 32 row)
| drawn_row row rows gap rest :
    trim_end_char 32 row ≠ [] → gap = [] ∨ gap = [32] → drawn rows rest →
    drawn (row :: rows) (trim_end_char 32 row ++ gap ++ rest).

Lemma row_ends_elem expected part last o e :
  (o ≤ length expected)%nat →
  e ∈ row_ends expected part last o ↔
  (e ≤ length expected)%nat ∧
  ∃ gap, drop o expected = part ++ gap ++ drop e expected ∧ (gap = [] ∨ (last = false ∧ gap = [32])).
Proof.
  intros Ho. unfold row_ends. destruct (strip_prefix part (drop o expected)) as [r|] eqn:E.
  - apply strip_prefix_Some in E as E'. pose proof (f_equal length E') as Hl. rewrite length_drop, length_app in Hl.
    set (k := (length expected - length r)%nat).
    assert (drop k expected = r) as Hk.
    { unfold k. replace (length expected - length r)%nat with (o + length part)%nat by lia.
      rewrite <- drop_drop, E'. by rewrite drop_app_length. }
    assert (∀ gap, drop o expected = part ++ gap ++ drop e expected → (e ≤ length expected)%nat → e = (k + length gap)%nat) as Hlen.
    { intros gap H He. apply (f_equal length) in H. rewrite !length_app, !length_drop in H. lia. }
    split.
    + rewrite elem_of_cons. intros [->|Hin].
      * split; [lia|]. exists []. split; [|by left]. by rewrite app_nil_l, Hk.
      * destruct last; cbn in Hin; [set_solver|]. case_bool_decide as Hs; [|set_solver].
        apply list_elem_of_singleton in Hin as ->. pose proof (lookup_lt_Some _ _ _ Hs). split; [lia|].
        exists [32]. split; [|by right]. rewrite E'. f_equal. rewrite <- Hk. apply drop_S. done.
    + intros [He (gap & H & Hgap)]. pose proof (Hlen gap H He) as ->. destruct Hgap as [->|[-> ->]]; cbn [length].
      * rewrite Nat.add_0_r. by left.
      * right. cbn [negb andb]. assert (expected !! k = Some 32) as Hs.
        { rewrite H in E'. apply app_inv_head in E'. rewrite <- Hk in E'. apply (f_equal (λ l, l !! 0%nat)) in E'.
          rewrite lookup_drop, Nat.add_0_r in E'. by rewrite <- E'. }
        rewrite bool_decide_eq_true_2 by done. apply list_elem_of_singleton. lia.
  - split; [set_solver|]. intros [_ (gap & H & _)]. rewrite H, strip_prefix_app in E. done.
Qed.
Lemma sort_dedup_elem l x : x ∈ sort_dedup l ↔ x ∈ l.
Proof. unfold sort_dedup. rewrite elem_of_remove_dups. by rewrite merge_sort_Permutation. Qed.
Lemma rows_match_spec expected parts offsets :
  parts ≠ [] → Forall (λ o, o ≤ length expected)%nat offsets →
  rows_match expected parts offsets = true ↔ ∃ o, o ∈ offsets ∧ drawn parts (drop o expected).
Proof.
  revert offsets. induction parts as [|part parts IH]; intros offsets Hp Hb; [done|]. cbn [rows_match]. clear Hp.
  set (next := sort_dedup _).
  assert (∀ x, x ∈ next ↔ ∃ o, o ∈ offsets ∧ x ∈ row_ends expected (trim_end_char 32 part) (bool_decide (parts = [])) o) as Hnext.
  { intros x. unfold next. rewrite sort_dedup_elem, list_elem_of_join. split.
    - intros (l & Hx & (o & -> & Ho)%list_elem_of_fmap). by exists o.
    - intros (o & Ho & Hx). eexists. split; [done|]. apply list_elem_of_fmap. by exists o. }
  clearbody next.
  destruct (decide (trim_end_char 32 part = [])) as [Hne|Hne];
    [rewrite (bool_decide_eq_true_2 _ Hne)|rewrite (bool_decide_eq_false_2 _ Hne)].
  { split; [done|]. intros (o & _ & Hd). inversion Hd; congruence. }
  destruct (decide (next = [])) as [He|He]; [rewrite (bool_decide_eq_true_2 _ He)|rewrite (bool_decide_eq_false_2 _ He)].
  - split; [done|]. intros (o & Ho & Hd). exfalso. pose proof (Forall_elem _ _ _ Hb Ho) as Hle. cbn in Hle.
    enough (∃ x, x ∈ next) as [x Hx] by (rewrite He in Hx; set_solver).
    inversion Hd as [row Hr Heq Hd'|row rows gap rest Hr Hgap Hrest Heq Hd']; subst.
    + exists (length expected). apply Hnext. exists o. split; [done|]. apply row_ends_elem; [done|]. split; [done|].
      exists []. split; [|by left]. by rewrite drop_all, app_nil_r.
    + assert (parts ≠ []) as Hpne by (by inversion Hrest; subst). exists (length expected - length rest)%nat. apply Hnext. exists o. split; [done|].
      apply row_ends_elem; [done|]. split; [lia|]. exists gap. rewrite bool_decide_eq_false_2 by done.
      split; [|destruct Hgap as [->| ->]; [by left|by right]].
      rewrite <- Hd'. do 2 f_equal. apply (f_equal length) in Hd' as Hl. rewrite !length_app, length_drop in Hl.
      replace (length expected - length rest)%nat with (o + (length (trim_end_char 32 part) + length gap))%nat by lia.
      rewrite <- drop_drop, <- Hd', <- drop_drop, drop_app_length, drop_app_length. done.
  - destruct parts as [|p2 parts].
    + cbn [rows_match]. rewrite bool_decide_eq_true, Hnext. split; intros (o & Ho & H); exists o; (split; [done|]);
        pose proof (Forall_elem _ _ _ Hb Ho) as Hle; cbn in Hle.
      * apply row_ends_elem in H as (_ & gap & H & [->|[? _]]); [|done|done]. rewrite drop_all, !app_nil_r in H. rewrite H. by constructor.
      * apply row_ends_elem; [done|]. split; [done|]. exists []. rewrite drop_all, !app_nil_r. split; [|by left].
        inversion H as [row Hr Heq Hd'|row rows gap rest Hr Hgap Hrest Heq Hd']; subst; [done|inversion Hrest].
    + rewrite IH; [|done|].
      2:{ apply Forall_forall. intros x (o & Ho & Hx)%Hnext. pose proof (Forall_elem _ _ _ Hb Ho) as Hle. cbn in Hle. by apply row_ends_elem in Hx as [? _]. }
      rewrite bool_decide_eq_false_2 in Hnext by done. split.
      * intros (x & (o & Ho & Hx)%Hnext & Hd). exists o. split; [done|]. pose proof (Forall_elem _ _ _ Hb Ho) as Hle. cbn in Hle.
        apply row_ends_elem in Hx as (_ & gap & H & Hgap); [|done]. rewrite H. constructor; [done| |done]. naive_solver.
      * intros (o & Ho & Hd). pose proof (Forall_elem _ _ _ Hb Ho) as Hle. cbn in Hle.
        inversion Hd as [row Hr Heq Hd'|row rows gap rest Hr Hgap Hrest Heq Hd']; subst.
        assert (drop (length expected - length rest) expected = rest) as Hdr.
        { apply (f_equal length) in Hd' as Hl. rewrite !length_app, length_drop in Hl.
          replace (length expected - length rest)%nat with (o + (length (trim_end_char 32 part) + length gap))%nat by lia.
          rewrite <- drop_drop, <- Hd', <- drop_drop, drop_app_length, drop_app_length. done. }
        exists (length expected - length rest)%nat. split; [|by rewrite Hdr]. apply Hnext. exists o. split; [done|].
        apply row_ends_elem; [done|]. split; [lia|]. exists gap. rewrite Hdr. split; [done|]. naive_solver.
Qed.
(** A composer shows a payload exactly if it shows it as it is, or if the payload is one
    line and the rows on the screen, each less the blanks it ends in and none empty, are
    that line cut at blanks or inside words: no other character is added, removed or
    moved. *)
Theorem payload_match_is_a_wrapping visible expected :
  visible_single_line_payload_matches visible expected = true ↔
  visible = expected ∨ ((10 ∉ expected) ∧ 10 ∈ visible ∧ drawn (split_char 10 visible) expected).
Proof.
  unfold visible_single_line_payload_matches. case_bool_decide as Heq; [naive_solver|].
  destruct (_ || _) eqn:E.
  - split; [done|]. intros [?|(H1 & H2 & _)]; [done|]. apply orb_true_iff in E as [E%bool_decide_eq_true|E%bool_decide_eq_true]; done.
  - apply orb_false_iff in E as [E1%bool_decide_eq_false E2%bool_decide_eq_false%dec_stable].
    rewrite rows_match_spec; [|by destruct visible as [|c v]; cbn; [|destruct (c =? 10), (split_char 10 v)]|repeat constructor; lia].
    split; [intros (o & ->%list_elem_of_singleton & Hd); by right|].
    intros [?|(_ & _ & Hd)]; [done|]. exists 0%nat. split; [by apply list_elem_of_singleton|done].
Qed.

Section projection.
Context {V : Type} {serde : Serde V} {codec : LineCodec V} {uuids : Uuids} {digests : Digests}.
Context {codec_laws : LineCodecLaws V} {serde_laws : SerdeLaws V} {uuid_laws : UuidLaws} {storable_laws : StorableLaws}.
Implicit Types (candidates : list (ActiveComposerNotification (V:=V))) (o : MessagingRuntimeComposerObservation).

(** ** Exact ownership *)
(** One attempt holds the recipient's terminal, the pane's hold names it, its durable
    binding is complete and is the processes and rules that are there, and its payload
    is known. *)
Record owns_composer candidates (available : bool) o (c : ActiveComposerNotification (V:=V)) (expected : rstr) : Prop := {
  ow_available : available = true;
  ow_mode : ro_in_mode o = false;
  ow_fresh : ro_detection_stale o = false;
  ow_safe : ro_terminal_state_unsafe o = false;
  ow_only : candidates = [c];
  ow_owner : parsed_owner o = Some (nr_attempt_id (acn_record c));
  ow_recipient : ro_recipient o = Some (nr_recipient (acn_record c));
  ow_binding : ∃ root leader agent manifest,
    ro_binding o = CbBound (MkPhysicalBinding root leader agent manifest) ∧
    nr_binding (acn_record c) = Some (MkBinding (nr_recipient (acn_record c)) (Some root) (Some leader) agent manifest);
  ow_payload : ∃ message, acn_message c = Some message ∧ expected_notification_payload (acn_record c) message = Some expected;
}.
Lemma owned_ambiguous attempt proof reason count :
  owned_composer (rp_state (ambiguous_runtime_composer_projection attempt proof reason count)) = false.
Proof. done. Qed.
Lemma owned_semantic semantic : owned_composer (rp_state (semantic_runtime_composer_projection semantic)) = false.
Proof. by destruct semantic as [[]|]. Qed.
Lemma owned_undecided owner candidates answer :
  select_candidate owner candidates = inr answer → owned_composer (rp_state answer) = false.
Proof. unfold select_candidate. destruct owner, candidates as [|? []]; try destruct (bool_decide _); by intros [= <-]. Qed.
(** An owned composer passed every guard. *)
Lemma project_owned candidates available o p :
  project_runtime_composer candidates available o = Some p → owned_composer (rp_state p) = true →
  ∃ c expected, owns_composer candidates available o c expected ∧
    project_content (nr_attempt_id (acn_record c)) (acn_record c) expected (ro_semantic o) (ro_capture o) 1 = Some p.
Proof.
  unfold project_runtime_composer. intros H Hp.
  destruct available eqn:Ea; cbn [negb] in H; [|by injection H as <-].
  destruct (ro_in_mode o) eqn:Em; [by injection H as <-|]. destruct (ro_detection_stale o) eqn:Est; [by injection H as <-|].
  destruct (binding_changed _) eqn:Ec; [by injection H as <-|].
  destruct (bool_decide _ && _) eqn:E1; [injection H as <-; by rewrite owned_semantic in Hp|].
  destruct (bool_decide _ && _ && _) eqn:E2; [by injection H as <-|].
  destruct (select_candidate (parsed_owner o) candidates) as [[attempt c]|answer] eqn:Es.
  2:{ injection H as ->. by rewrite (owned_undecided _ _ _ Es) in Hp. }
  unfold select_candidate in Es. destruct (parsed_owner o) as [owner|] eqn:Eo; [|by destruct candidates as [|? []]].
  destruct candidates as [|c' []]; try done. destruct (bool_decide_reflect (nr_attempt_id (acn_record c') = owner)) as [Ha|]; [|done].
  injection Es as -> ->. subst. unfold project_candidate in H. cbn [length] in H.
  destruct (is_unprovable _) eqn:Eu; [by injection H as <-|]. destruct (ro_terminal_state_unsafe o || _) eqn:Esafe; [by injection H as <-|].
  apply orb_false_iff in Esafe as [Esafe Eabs]. destruct (bool_decide (ro_semantic o = None)) eqn:Esem; [by injection H as <-|].
  destruct (ro_recipient o) as [recipient|] eqn:Er; [|by injection H as <-].
  destruct (nr_binding (acn_record c)) as [expected_binding|] eqn:Eb; [|by injection H as <-].
  destruct (ro_binding o) as [current| | |] eqn:Ebo; try by injection H as <-.
  destruct (incomplete_binding _) eqn:Ei; [by injection H as <-|].
  destruct (same_binding _ _ _ _) eqn:Esame; cbn [negb] in H; [|by injection H as <-].
  destruct (message ← acn_message c; expected_notification_payload (acn_record c) message) as [expected|] eqn:Ep; [|by injection H as <-].
  exists c, expected. split; [|done]. unfold same_binding in Esame. bool_facts. apply bind_Some in Ep.
  split; try done; [congruence|]. destruct current as [root leader agent manifest]. exists root, leader, agent, manifest. split; [done|].
  rewrite Eb. destruct expected_binding; cbn in *. by subst.
Qed.
Lemma owns_project candidates available o c expected :
  owns_composer candidates available o c expected → binding_changed (ro_capture o) = false → ro_semantic o ≠ None →
  project_runtime_composer candidates available o =
  project_content (nr_attempt_id (acn_record c)) (acn_record c) expected (ro_semantic o) (ro_capture o) 1.
Proof.
  intros [-> Em Est Es -> Eo Er (root & leader & agent & manifest & Eb & En) (message & Emsg & Ep)] Hc Hs.
  unfold project_runtime_composer. rewrite Em, Est, Hc, Eo. cbn [negb no_candidates]. rewrite !andb_false_r. cbn [select_candidate].
  rewrite bool_decide_eq_true_2 by done. unfold project_candidate. rewrite Eb, Es, Er, En, Emsg. cbn [is_unprovable is_absent orb mbind option_bind].
  rewrite bool_decide_eq_false_2 by done. rewrite Ep. unfold same_binding. cbn. by rewrite !bool_decide_eq_true_2 by done.
Qed.
(** [C8.] A composer is called a notification's exactly if one attempt holds the recipient's
    terminal, the pane's hold names it, its durable binding is the recipient, processes and
    rules that are there, and either the composer shows exactly its payload as input, or
    it is visibly empty after a recorded submission. Only then is the binding
    reported as verified, and it is that attempt that is named. *)
Theorem ownership_is_exact candidates available o p :
  project_runtime_composer candidates available o = Some p →
  (rp_state p = CyclopsNotificationStaged ↔ ∃ c expected actual,
     owns_composer candidates available o c expected ∧ ro_capture o = CapVisible actual ∧ ro_semantic o = Some SemHumanInput ∧
     visible_single_line_payload_matches actual expected = true) ∧
  (rp_state p = CyclopsNotificationSubmitted ↔ ∃ c expected,
     owns_composer candidates available o c expected ∧ ro_capture o = CapVisible [] ∧ ro_semantic o = Some SemClean ∧
     notification_submission_recorded (acn_record c) = true) ∧
  (owned_composer (rp_state p) = true → rp_binding_verified p = true ∧ rp_proof p = ProofExactNotification ∧
     ∃ c, candidates = [c] ∧ rp_notification_attempt p = Some (nr_attempt_id (acn_record c))).
Proof.
  intros H. split_and!; [split|split|].
  - intros Hs. destruct (project_owned _ _ _ _ H) as (c & expected & Ho & Hc); [by rewrite Hs|]. exists c, expected.
    unfold project_content in Hc. destruct (ro_capture o) as [|actual| | |]; try by (injection Hc as <-).
    + exists actual. destruct (_ && bool_decide (ro_semantic o = Some SemHumanInput)) eqn:E; [by bool_facts|].
      destruct (bool_decide (ro_semantic o = Some SemClean) && _ && _) eqn:E2; by injection Hc as <-.
    + done.
  - intros (c & expected & actual & Ho & Hc & Hs & Hm). rewrite (owns_project _ _ _ _ _ Ho) in H by (rewrite ?Hc, ?Hs; done).
    unfold project_content in H. rewrite Hc, Hs, Hm, bool_decide_eq_true_2 in H by done. by injection H as <-.
  - intros Hs. destruct (project_owned _ _ _ _ H) as (c & expected & Ho & Hc); [by rewrite Hs|]. exists c, expected.
    unfold project_content in Hc. destruct (ro_capture o) as [|actual| | |]; try by (injection Hc as <-).
    + destruct (_ && bool_decide (ro_semantic o = Some SemHumanInput)) eqn:E; [by injection Hc as <-|].
      destruct (bool_decide (ro_semantic o = Some SemClean) && _ && _) eqn:E2; [|by injection Hc as <-]. bool_facts. by subst.
    + done.
  - intros (c & expected & Ho & Hc & Hs & Hm). rewrite (owns_project _ _ _ _ _ Ho) in H by (rewrite ?Hc, ?Hs; done).
    unfold project_content in H. rewrite Hc, Hs, Hm, (bool_decide_eq_false_2 (Some SemClean = Some SemHumanInput)), andb_false_r in H by done.
    by injection H as <-.
  - intros Hs. destruct (project_owned _ _ _ _ H Hs) as (c & expected & Ho & Hc).
    assert (∃ c, candidates = [c] ∧ rp_notification_attempt p = Some (nr_attempt_id (acn_record c)) ∧ rp_binding_verified p = true ∧ rp_proof p = ProofExactNotification)
      as (c' & ? & ? & ? & ?); [|by eauto 10].
    exists c. split; [apply Ho|]. unfold project_content in Hc. destruct (ro_capture o); try done; try (by injection Hc as <-).
    destruct (_ && bool_decide (ro_semantic o = Some SemHumanInput)); [by injection Hc as <-|].
    destruct (bool_decide (ro_semantic o = Some SemClean) && _ && _); by injection Hc as <-.
Qed.
(** The arm the code marks unreachable is: every observation gets an answer. *)
Theorem composer_decision_never_panics candidates available o :
  project_runtime_composer candidates available o ≠ None.
Proof.
  unfold project_runtime_composer. destruct (negb available); [done|]. destruct (ro_in_mode o); [done|].
  destruct (ro_detection_stale o); [done|]. destruct (binding_changed (ro_capture o)) eqn:Ec; [done|].
  destruct (_ && no_candidates _); [done|]. destruct (_ && _ && no_candidates _); [done|].
  destruct (select_candidate _ _) as [[attempt c]|]; [|done]. unfold project_candidate, project_content.
  destruct (is_unprovable _); [done|]. destruct (_ || _); [done|]. destruct (bool_decide _); [done|].
  destruct (ro_recipient o); [|done]. destruct (nr_binding _); [|done]. destruct (ro_binding o); [|done..].
  destruct (incomplete_binding _); [done|]. destruct (negb _); [done|]. destruct (_ ← _; _); [|done].
  destruct (ro_capture o); try done. destruct (_ && _); [done|]. by destruct (_ && _ && _).
Qed.

(** ** The durable half *)
Lemma filter_at_most_one {A} (f : A → bool) (l : list A) :
  NoDup l → (∀ x y, x ∈ l → y ∈ l → f x = true → f y = true → x = y) → (length (List.filter f l) ≤ 1)%nat.
Proof.
  intros Hnd Heq. assert (NoDup (List.filter f l)) as Hf by (apply NoDup_ListNoDup, List.NoDup_filter; by apply NoDup_ListNoDup).
  assert (∀ x, x ∈ List.filter f l → x ∈ l ∧ f x = true) as Hin by (intros x; rewrite !list_elem_of_In, List.filter_In; done).
  destruct (List.filter f l) as [|x [|y l']]; [cbn; lia..|]. exfalso. apply NoDup_cons in Hf as [Hx _].
  pose proof (Hin x ltac:(set_solver)) as [? ?]. pose proof (Hin y ltac:(set_solver)) as [? ?]. rewrite (Heq x y) in Hx by done. set_solver.
Qed.
Lemma elem_of_barrier_records (p : MailboxProjection V) b : wf p → b ∈ barrier_records p ↔ active_notification_barriers p !! nr_attempt_id b = Some b.
Proof.
  intros [_ _ Hn _]. unfold barrier_records. rewrite merge_sort_Permutation, list_elem_of_fmap. split.
  - intros ([a b'] & -> & Hb%elem_of_map_to_list). cbn. by rewrite (bo_attempt _ _ _ (nw_barrier _ Hn _ _ Hb)).
  - intros Hb. exists (nr_attempt_id b, b). split; [done|]. by apply elem_of_map_to_list.
Qed.
Lemma barrier_records_NoDup (p : MailboxProjection V) : wf p → NoDup (barrier_records p).
Proof.
  intros [_ _ Hn _]. unfold barrier_records. rewrite merge_sort_Permutation. apply (NoDup_fmap_1 nr_attempt_id).
  assert (nr_attempt_id <$> (map_to_list (active_notification_barriers p)).*2 = (map_to_list (active_notification_barriers p)).*1) as ->;
    [|apply NoDup_fst_map_to_list].
  rewrite <- list_fmap_compose. apply list_fmap_ext. intros i [a b] Hi%list_elem_of_lookup_2%elem_of_map_to_list. cbn.
  by rewrite (bo_attempt _ _ _ (nw_barrier _ Hn _ _ Hi)).
Qed.
Lemma same_recipient_same_barrier (p : MailboxProjection V) b1 b2 :
  wf p → b1 ∈ barrier_records p → b2 ∈ barrier_records p → nr_recipient b1 = nr_recipient b2 → b1 = b2.
Proof.
  intros Hwf Hb1%(elem_of_barrier_records _ _ Hwf) Hb2%(elem_of_barrier_records _ _ Hwf) Hr. destruct Hwf as [_ _ Hn _].
  pose proof (nw_one_barrier _ Hn _ _ _ _ Hb1 Hb2 Hr) as E. rewrite E in Hb1. congruence.
Qed.
Lemma active_at_most_one ws rows svc r candidates :
  service_ok ws svc rows → active_composer_notifications svc r = Ok candidates → (length candidates ≤ 1)%nat.
Proof.
  intros Hok. pose proof (store_ok_wf _ _ _ (vk_store _ _ _ Hok)) as Hwf.
  unfold active_composer_notifications, active_composer_notifications_snapshot, read_store. rewrite (vk_lock _ _ _ Hok). intros [= <-].
  set (f := λ b, MkActiveComposer b _ _). assert (∀ l, length (List.filter (λ c, bool_decide (nr_recipient (acn_record c) = r)) (f <$> l)) =
    length (List.filter (λ b, bool_decide (nr_recipient b = r)) l)) as ->.
  { intros l. induction l as [|b l IH]; [done|]. cbn. by destruct (bool_decide (nr_recipient b = r)); cbn; rewrite IH. }
  apply filter_at_most_one; [by apply barrier_records_NoDup|]. intros x y Hx Hy Hrx Hry. bool_facts.
  eapply same_recipient_same_barrier; [done..|congruence].
Qed.
(** A store in order names at most one owner: the observation of a recipient's pane is
    never judged against several active attempts, and the count shown is at most one. *)
Theorem composer_has_one_candidate ws rows svc r o p :
  service_ok ws svc rows → project (composer_projection_probe svc (Some r)) o = Some p →
  rp_reason p ≠ Some (str "multiple_active_notifications") ∧ rp_candidate_count p ≤ 1.
Proof.
  intros Hok. unfold project, composer_projection_probe.
  destruct (active_composer_notifications svc r) as [candidates|e] eqn:E; cbn [pr_candidates pr_store_available probe_store_unavailable].
  2:{ unfold project_runtime_composer. cbn [negb]. intros [= <-]. by split. }
  pose proof (active_at_most_one _ _ _ _ _ Hok E) as Hl. clear E. intros H.
  assert (∀ n, (n ≤ 1)%nat → count_u32 n ≤ 1) as Hc by (intros n ?; unfold count_u32; lia).
  unfold project_runtime_composer in H. cbn [negb] in H.
  destruct (ro_in_mode o); [injection H as <-; split; [done|by apply Hc]|].
  destruct (ro_detection_stale o); [injection H as <-; split; [done|by apply Hc]|].
  destruct (binding_changed _); [injection H as <-; split; [done|by apply Hc]|].
  destruct (bool_decide (ro_owner o = None) && _) eqn:E1; [injection H as <-; by destruct (ro_semantic o) as [[]|]|].
  destruct (bool_decide (is_Some _) && _ && _) eqn:E2; [by injection H as <-|].
  destruct candidates as [|c [|]]; [| |cbn in Hl; lia].
  - cbn [no_candidates] in *. rewrite andb_true_r in *. unfold select_candidate in H. destruct (parsed_owner o) as [a|] eqn:Eo.
    + by injection H as <-.
    + exfalso. apply bool_decide_eq_false in E1. rewrite (bool_decide_eq_true_2 (None = None)) in E2 by done. rewrite andb_true_r in E2.
      apply bool_decide_eq_false in E2. by destruct (ro_owner o); [destruct E2; eexists|].
  - unfold select_candidate in H. destruct (parsed_owner o) as [a|]; [|by injection H as <-; destruct (incomplete_binding _)].
    destruct (bool_decide (nr_attempt_id _ = a)); [|by injection H as <-]. unfold project_candidate, project_content in H. cbn [length] in H.
    repeat match type of H with
    | Some _ = Some _ => by injection H as <-
    | (if ?b then _ else _) = _ => destruct b
    | match ?x with _ => _ end = _ => destruct x
    | None = _ => done
    end.
Qed.

(** What the grouped candidates of a status snapshot are. *)
Definition grouped_ok (p : MailboxProjection V) (grouped : gmap RecipientKey (gmap NotificationAttemptId MessagingComposerCandidate)) : Prop :=
  ∀ r cs, grouped !! r = Some cs → cs ≠ ∅ ∧ ∀ a c, cs !! a = Some c →
    active_notification_barriers p !! a = Some (cc_record c) ∧ nr_recipient (cc_record c) = r ∧ nr_attempt_id (cc_record c) = a ∧
    cc_message_state c = message_state_from <$> (me_state <$> get_entry p r (nr_message_id (cc_record c))).
Lemma composer_candidates_ok ws rows svc grouped :
  service_ok ws svc rows → composer_candidates svc = Some grouped → grouped_ok (st_projection (sv_store svc)) grouped.
Proof.
  intros Hok. pose proof (store_ok_wf _ _ _ (vk_store _ _ _ Hok)) as Hwf. set (p := st_projection (sv_store svc)) in *.
  unfold composer_candidates, active_composer_notifications_snapshot, read_store. rewrite (vk_lock _ _ _ Hok). fold p. cbn [result_ok]. intros [= <-].
  assert (∀ l g, Forall (λ b, b ∈ barrier_records p) l → grouped_ok p g →
    grouped_ok p (foldl add_candidate g ((λ r, MkActiveComposer r (get_message p (nr_message_id r)) (me_state <$> get_entry p (nr_recipient r) (nr_message_id r))) <$> l))) as Hf.
  { intros l. induction l as [|b l IH]; intros g Hl Hg; [done|]. apply Forall_cons in Hl as [Hb Hl]. cbn. apply IH; [done|].
    intros r cs. unfold add_candidate. cbn [acn_record acn_entry_state]. intros [[<- <-]|[_ H]]%lookup_insert_Some; [|by apply Hg].
    split; [apply insert_non_empty|]. intros a c [[<- <-]|[_ H]]%lookup_insert_Some; cbn.
    - apply elem_of_barrier_records in Hb; done.
    - destruct (g !! nr_recipient b) as [cs|] eqn:E; cbn in H; [by apply (proj2 (Hg _ _ E))|by rewrite lookup_empty in H]. }
  apply Hf; [by apply Forall_forall|]. intros r cs. by rewrite lookup_empty.
Qed.
Lemma grouped_single (p : MailboxProjection V) grouped r cs :
  wf p → grouped_ok p grouped → grouped !! r = Some cs → ∃ a c, map_to_list cs = [(a, c)] ∧ cs !! a = Some c.
Proof.
  intros [_ _ Hn _] Hg Hr. destruct (Hg _ _ Hr) as [Hne Hall].
  assert (∀ a c, (a, c) ∈ map_to_list cs → active_notification_barriers p !! a = Some (cc_record c) ∧ nr_recipient (cc_record c) = r) as Hin.
  { intros a c Hac%elem_of_map_to_list. by destruct (Hall _ _ Hac) as (? & ? & _). }
  destruct (map_to_list cs) as [|[a c] [|[a2 c2] l]] eqn:E.
  - by apply map_to_list_empty_iff in E.
  - exists a, c. split; [done|]. apply elem_of_map_to_list. rewrite E. by left.
  - exfalso. pose proof (NoDup_fst_map_to_list cs) as Hnd. rewrite E in Hnd. cbn in Hnd. apply NoDup_cons in Hnd as [Hx _].
    destruct (Hin a c) as [H1 R1]; [by left|]. destruct (Hin a2 c2) as [H2 R2]; [by right; left|].
    rewrite (nw_one_barrier _ Hn a a2 _ _ H1 H2) in Hx by congruence. set_solver.
Qed.
(** A status row keeps the claim that its composer holds a notification only if the
    recipient's one active attempt is bound, field by field, to the processes and rules
    of this very observation; it then names that attempt, its state and the state of its
    message. *)
Theorem status_claims_only_bound_composers ws rows (svc : MailboxService (V:=V)) recipient (o : MessagingComposerObservation) :
  service_ok ws svc rows → (owned_composer (co_composer o) = true → co_detected_attempt o ≠ None) →
  let st := composer_status (composer_candidates svc) recipient o in
  owned_composer (cs_composer st) = true →
  ∃ r n binding, recipient = Some r ∧ active_notification_barriers (st_projection (sv_store svc)) !! nr_attempt_id n = Some n ∧
    nr_recipient n = r ∧ nr_binding n = Some binding ∧ co_binding o = Some binding ∧ nb_pane_root binding = co_pane_root o ∧
    cs_composer st = co_composer o ∧ cs_attempt st = Some (nr_attempt_id n) ∧ cs_notification_state st = Some (nr_state n) ∧
    cs_message_state st = message_state_from <$> (me_state <$> get_entry (st_projection (sv_store svc)) r (nr_message_id n)) ∧
    cs_candidate_count st = 1.
Proof.
  intros Hok Hdet. pose proof (store_ok_wf _ _ _ (vk_store _ _ _ Hok)) as Hwf. set (p := st_projection (sv_store svc)) in *.
  unfold composer_status. cbn zeta.
  destruct (recipient ≫= λ r, composer_candidates svc ≫= λ g, g !! r) as [cs|] eqn:Em.
  - apply bind_Some in Em as (r & -> & (grouped & Eg & Er)%bind_Some).
    pose proof (composer_candidates_ok _ _ _ _ Hok Eg) as Hg. destruct (grouped_single _ _ _ _ Hwf Hg Er) as (a & c & -> & Ha).
    destruct (proj2 (Hg _ _ Er) _ _ Ha) as (Hb & Hrec & Hatt & Hms). cbn [mbind option_bind]. rewrite Ha.
    destruct (owned_composer (co_composer o)) eqn:Eo; cbn [andb].
    2:{ cbn [cs_composer]. by rewrite Eo. }
    destruct (binding_matches o (Some r) (cc_record c)) eqn:Ebm; cbn [negb]; [|by destruct (_ || _ || _)].
    unfold binding_matches in Ebm. destruct (co_binding o) as [binding|] eqn:Ebi; [|done]. bool_facts. intros _.
    exists r, (cc_record c), binding. cbn. rewrite Hatt. split_and!; try done.
  - cbn [mbind option_bind]. destruct (co_detected_attempt o) as [a|] eqn:Ed; cbn; [done|]. intros Ho. by destruct (Hdet Ho).
Qed.
End projection.
