(* ===== verification/Scheduling.v ===== *)
(** * Scheduling notifications

    [src/cyclopsd/src/messaging_runtime.rs], with [enqueue_notification_attempt] of
    [src/cyclopsd/src/delivery/mod.rs] and [settle_notification_claim] of
    [src/cyclopsd/src/delivery/gate.rs]: how a durable wake finds its pane and its
    worker, how a wake that cannot run is parked, how a blocked one is reopened, and
    how a claim settles the delivery under way.

    The code takes one lock at a time and others run between: [others k] runs before
    the [k]-th section, and the theorems hold for all of them.  The process table and
    the manifest a pane is bound to are readings with the number of their section. *)
From S2P Require Import Prelude Text Identity Ledger Journal Mailbox Notification Facts Projection Store.
From S2P Require Import Scheduler Directory Service Registry AttentionRegister Detection NotificationAdapter DeliveryGate TurnKeys Receipt DeliveryAttempt.
From S2P Require Import HookAck Worker Composer Watcher.
Local Open Scope N_scope.

Record ScheduledHead := MkHead { hd_message_id : MessageId; hd_attempt_id : NotificationAttemptId }.
Inductive RecipientScheduleOutcome :=
| RoWorkerOwned (head : ScheduledHead) (observe_first_disposition : bool)
| RoNoWakeNeeded
| RoBlocked (head : ScheduledHead) (block : MessageWakeBlock)
| RoMailboxOnly (head : ScheduledHead).
Record NotificationRoute := MkRoute {
  nt_session_idx : N;
  nt_pane_id : rstr;
  nt_label : rstr;
  nt_row : TableRow;
}.
(** A session slot as a route reads it; a watcher is shared and named by a reference. *)
Record LiveSlot := MkLiveSlot {
  lv_canonical : bool;
  lv_attached : bool;
  lv_identity : option SessionInstanceId;
  lv_watcher : option N;
}.
(** What a pass asks of other tasks: to wake a held gate, to wake the worker that waits
    for a receipt, to draw a recipient's unread count again. *)
Inductive Signal := SigCancel (ref : N) | SigAck (ref : N) | SigUnread (recipient : RecipientKey).

(** ** Cached evidence *)
Record NotificationObservation := MkNotificationObservation {
  ob_binding : option Binding;
  ob_state : AgentState;
  ob_stale : bool;
  ob_disagreement : bool;
  ob_write_ready : bool;
  ob_in_mode : bool;
}.
Definition from_entry (e : DetEntry) : NotificationObservation :=
  let d := de_detection e in
  MkNotificationObservation (de_binding e) (det_state d) (det_stale d) (det_disagreement d) (det_write_ready d) (de_in_mode e).
Definition write_ready_for (o : NotificationObservation) (live_in_mode : bool) (expected : Binding) : bool :=
  negb live_in_mode && ob_write_ready o && negb (ob_stale o) && negb (ob_in_mode o) && bool_decide (ob_binding o = Some expected).
Definition can_decide_notification_now (o : NotificationObservation) (live_in_mode : bool) : bool :=
  negb live_in_mode && negb (ob_in_mode o) && negb (ob_stale o) && negb (ob_disagreement o) &&
  (ob_write_ready o || bool_decide (ob_state o = SIdleWithInput)).

Section scheduling.
Context {V : Type} {serde : Serde V} {codec : LineCodec V} {uuids : Uuids} {digests : Digests}.

(** ** The daemon as scheduling sees it *)
Record Host := MkHost {
  ho_service : MailboxService (V:=V);
  ho_sessions : list LiveSlot;
  ho_watchers : gmap N (gmap rstr TableRow);
  ho_panes : Panes;
  ho_generations : gmap PaneKey N;
  ho_registry : Registry;
  ho_engine : Engine;
  ho_runs : Runs;
  ho_dropped : gset N;
  ho_workers : gmap RecipientKey NotificationWorker;
  ho_stopping : bool;
  ho_signals : list Signal;
}.
Definition set_service (h : Host) svc : Host :=
  MkHost svc (ho_sessions h) (ho_watchers h) (ho_panes h) (ho_generations h) (ho_registry h) (ho_engine h) (ho_runs h)
    (ho_dropped h) (ho_workers h) (ho_stopping h) (ho_signals h).
Definition put_panes (h : Host) panes : Host :=
  MkHost (ho_service h) (ho_sessions h) (ho_watchers h) panes (ho_generations h) (ho_registry h) (ho_engine h) (ho_runs h)
    (ho_dropped h) (ho_workers h) (ho_stopping h) (ho_signals h).
Definition put_engine (h : Host) engine runs : Host :=
  MkHost (ho_service h) (ho_sessions h) (ho_watchers h) (ho_panes h) (ho_generations h) (ho_registry h) engine runs
    (ho_dropped h) (ho_workers h) (ho_stopping h) (ho_signals h).
Definition set_workers (h : Host) workers : Host :=
  MkHost (ho_service h) (ho_sessions h) (ho_watchers h) (ho_panes h) (ho_generations h) (ho_registry h) (ho_engine h) (ho_runs h)
    (ho_dropped h) workers (ho_stopping h) (ho_signals h).
Definition signal (h : Host) (s : Signal) : Host :=
  MkHost (ho_service h) (ho_sessions h) (ho_watchers h) (ho_panes h) (ho_generations h) (ho_registry h) (ho_engine h) (ho_runs h)
    (ho_dropped h) (ho_workers h) (ho_stopping h) (ho_signals h ++ [s]).

(** A pass: sections numbered on, each after what others did, and the error that ends
    it early. *)
Definition Pass (A : Type) : Type := nat → Host → nat * Host * svc_answer A.
#[export] Instance pass_ret : MRet Pass := λ A a k h, (k, h, Answered a).
#[export] Instance pass_bind : MBind Pass := λ A B f m k h,
  match m k h with
  | (k, h, Answered a) => f a k h
  | (k, h, Refused e) => (k, h, Refused e)
  | (k, h, Crashed) => (k, h, Crashed)
  | (k, h, Drawing) => (k, h, Drawing)
  end.

Context (others : nat → Host → Host).
Definition section {A} (f : nat → Host → Host * svc_answer A) : Pass A := λ k h,
  let '(h, a) := f k (others k h) in (S k, h, a).
Definition peek {A} (f : nat → Host → A) : Pass A := section (λ k h, (h, Answered (f k h))).
Definition change (f : Host → Host) : Pass () := section (λ _ h, (f h, Answered ())).
Definition on_service {A} (f : nat → MailboxService (V:=V) → MailboxService (V:=V) * svc_answer A) : Pass A :=
  section (λ k h, let '(svc, a) := f k (ho_service h) in (set_service h svc, a)).
Definition read_service {A} (f : MailboxService (V:=V) → result MailboxServiceError A) : Pass A :=
  section (λ _ h, (h, match f (ho_service h) with Ok a => Answered a | Err e => Refused e end)).

(** [NotificationContext] publishes exactly the transitions it appends. *)
Definition transition_areas (n : NotificationRecord) : list MessagesChangedArea :=
  match nr_state n with
  | AttentionRequired | BlockedPreWrite => [AreaNotifications; AreaAttention]
  | _ => [AreaNotifications]
  end.
Definition outcome_of_answer {A} (r : MessageStore (V:=V) * answer A) : MessageStore (V:=V) * outcome (answer A) :=
  match r with
  | (s, Good a) => (s, Done (Good a))
  | (s, Bad (AdapterStore e)) => (s, Failed e)
  | (s, Bad e) => (s, Done (Bad e))
  | (s, Poison) => (s, Panicked)
  end.
Definition publish_transition (before : option N) (a : answer NotificationRecord) (s : MessageStore (V:=V))
    : option (N * list MessagesChangedArea) :=
  match a with
  | Good n =>
      if bool_decide (last_workspace_seq (st_projection s) ≠ before) then Some (nr_updated_seq n, transition_areas n) else None
  | _ => None
  end.
Definition through_service (f : MessageStore (V:=V) → MessageStore (V:=V) * answer NotificationRecord) (svc : MailboxService (V:=V))
    : MailboxService (V:=V) * svc_answer (answer NotificationRecord) :=
  if sv_poisoned svc then (svc, Answered (Bad StoreLockPoisoned))
  else match under_store svc (λ s, outcome_of_answer (f s))
               (publish_transition (last_workspace_seq (st_projection (sv_store svc)))) with
       | (svc, Refused (StoreError e)) => (svc, Answered (Bad (AdapterStore e)))
       | r => r
       end.
(** A context is made from the record as it is; a poisoned store gives epoch 0. *)
Definition host_context (h : Host) (message_id : MessageId) (recipient : RecipientKey) (attempt : NotificationAttemptId)
    : NotificationContext :=
  if sv_poisoned (ho_service h) then MkContext message_id recipient attempt 0
  else context_new (sv_store (ho_service h)) message_id recipient attempt.

(** ** Routes *)
Definition canonical_slots (h : Host) : list nat :=
  omap (λ x, if lv_canonical x.2 then Some x.1 else None) (imap pair (ho_sessions h)).
(** The watcher of a slot that is attached as this very session. *)
Definition attached_watcher (h : Host) (idx : nat) (session : SessionInstanceId) : option N :=
  slot ← ho_sessions h !! idx;
  if lv_attached slot && bool_decide (lv_identity slot = Some session) then lv_watcher slot else None.
Definition watched_pane (h : Host) (watcher : N) (pane_id : rstr) : option TableRow :=
  table ← ho_watchers h !! watcher; table !! pane_id.
Definition label_of (h : Host) (recipient : RecipientKey) : option rstr :=
  id_label <$> identity_for_recipient (sv_directory (ho_service h)) recipient.
Fixpoint route_over (slots : list nat) (recipient : RecipientKey) (session : SessionInstanceId) (pane_id : rstr)
    (matched : option NotificationRoute) : Pass (option NotificationRoute) :=
  match slots with
  | [] => mret matched
  | idx :: slots =>
      watcher ← peek (λ _ h, attached_watcher h idx session);
      match watcher with
      | None => route_over slots recipient session pane_id matched
      | Some watcher =>
          row ← peek (λ _ h, watched_pane h watcher pane_id);
          match row with
          | None => route_over slots recipient session pane_id matched
          | Some row =>
              label ← peek (λ _ h, label_of h recipient);
              match matched with
              | Some _ => mret None
              | None =>
                  route_over slots recipient session pane_id
                    (Some (MkRoute (N.of_nat idx) pane_id (default pane_id label) row))
              end
          end
      end
  end.
Definition notification_route (recipient : RecipientKey) : Pass (option NotificationRoute) :=
  match recipient_session_instance_id recipient, recipient_pane_id recipient with
  | Some session, Some pane =>
      slots ← peek (λ _ h, canonical_slots h);
      route_over slots recipient session (pane_display pane) None
  | _, _ => mret None
  end.

(** ** Evidence of a binding *)
(** Readings of the process table and of the manifest rules. *)
Context (proc_of : nat → Z → option ProcId) (admitted_binding : nat → Host → N → TableRow → option Binding)
  (bind_manifest_for : nat → Host → N → TableRow → option rstr) (boot_id : rstr).
Definition route_pane (route : NotificationRoute) : PaneKey := (nt_session_idx route, nt_pane_id route).
Definition route_evidence_id (h : Host) (pane : PaneKey) : NotificationRouteEvidenceId :=
  MkRouteEvidence boot_id (default 0 (ho_generations h !! pane)).
Definition adopted_root (h : Host) (recipient : RecipientKey) : option ProcessInstanceId :=
  a ← for_recipient (ho_registry h) recipient; ad_pane_root a.
(** What is recorded of a binding once every part of it was read. *)
Definition binding_observation (recipient : RecipientKey) (pane_root : ProcessInstanceId) (binding : Binding) (selected : rstr)
    (width : N) (evidence : NotificationRouteEvidenceId) : option NotificationPreWriteObservation :=
  manifest ← manifest_id_ok selected;
  root ← process_instance_id (fb_pane_root binding);
  leader ← process_instance_id (fb_leader binding);
  agent ← process_instance_id (fb_agent binding);
  named ← manifest_id_ok (fb_manifest binding);
  Some (MkPreWriteObservation None (Some pane_root) (Some manifest)
    (Some (MkBinding recipient (Some root) (Some leader) agent named)) (Some evidence) (Some width) None).
Definition proven_binding_observation (recipient : RecipientKey) (route : NotificationRoute)
    (evidence : NotificationRouteEvidenceId) : Pass (option NotificationPreWriteObservation) :=
  root ← peek (λ k _, p ← proc_of k (tr_pane_pid (nt_row route)); process_instance_id p);
  match root with
  | None => mret None
  | Some pane_root =>
      adopted ← peek (λ _ h, adopted_root h recipient);
      if negb (bool_decide (adopted = Some pane_root)) then mret None
      else
        binding ← peek (λ k h, admitted_binding k h (nt_session_idx route) (nt_row route));
        match binding with
        | None => mret None
        | Some binding =>
            selected ← peek (λ k h, bind_manifest_for k h (nt_session_idx route) (nt_row route));
            match selected with
            | None => mret None
            | Some selected =>
                if negb (bool_decide (fb_manifest binding = selected)) then mret None
                else mret (binding_observation recipient pane_root binding selected (tr_width (nt_row route)) evidence)
            end
        end
  end.
Definition instance_proc (p : ProcessInstanceId) : ProcId := MkProcId (process_pid (bval p)) (process_birth (bval p)).
Definition expected_binding (o : NotificationPreWriteObservation) : option Binding :=
  b ← po_binding o;
  root ← nb_pane_root b;
  leader ← nb_leader b;
  Some (MkFusionBinding (instance_proc root) (instance_proc leader) (instance_proc (nb_agent b)) (manifest_text (nb_manifest b))).
Definition cached_observation (h : Host) (pane : PaneKey) : option NotificationObservation :=
  from_entry <$> pn_detections (ho_panes h) !! pane.
Definition route_is_write_ready (route : NotificationRoute) (o : NotificationPreWriteObservation) : Pass bool :=
  match expected_binding o with
  | None => mret false
  | Some expected =>
      peek (λ _ h, match cached_observation h (route_pane route) with
                   | Some o => write_ready_for o (tr_in_mode (nt_row route)) expected
                   | None => false
                   end)
  end.
Definition cached_route_can_decide_now (route : NotificationRoute) : Pass bool :=
  if tr_in_mode (nt_row route) then mret false
  else peek (λ _ h, match cached_observation h (route_pane route) with
                    | Some o => can_decide_notification_now o (tr_in_mode (nt_row route))
                    | None => false
                    end).

(** ** Workers *)
(** A handle that was never made before. *)
Definition next_ref (h : Host) : N := base.fresh (dom (en_handles (ho_engine h)) ∪ ho_dropped h).
Definition attempt_of (h : Host) (ref : N) : option NotificationAttemptId :=
  nc_attempt_id ∘ dh_context <$> en_handles (ho_engine h) !! ref.
(** The runs whose handle is still alive. *)
Definition live_runs (h : Host) : Runs := filter (λ x, x.2 ∉ ho_dropped h) (ho_runs h).
Definition worker_refusal (h : Host) (recipient : RecipientKey) (attempt : NotificationAttemptId) : option NotificationEnqueueRefusal :=
  notification_worker_refusal (ho_workers h) (ho_stopping h) recipient attempt (attempt_of h).
(** Whether the sender asked for a raw write; an unreadable store says no. *)
Definition host_raw (h : Host) (cx : NotificationContext) : bool :=
  negb (sv_poisoned (ho_service h)) && raw_transport (sv_store (ho_service h)) cx.
(** The run that is under way, or a fresh handle for the attempt; the attempts lock is
    held throughout. *)
Definition find_or_make_run (h : Host) (route : NotificationRoute) (cx : NotificationContext) (replace_existing : bool) : Host * (N + N) :=
  let runs := live_runs h in
  match runs !! nc_attempt_id cx with
  | Some ref =>
      if replace_existing
      then let fresh := next_ref h in
           (put_engine h (put (ho_engine h) fresh
              (for_notification (nt_label route) (nt_pane_id route) (nt_session_idx route) cx (host_raw h cx)))
              (<[nc_attempt_id cx := fresh]> runs), inr fresh)
      else (put_engine h (ho_engine h) runs, inl ref)
  | None =>
      let fresh := next_ref h in
      (put_engine h (put (ho_engine h) fresh
         (for_notification (nt_label route) (nt_pane_id route) (nt_session_idx route) cx (host_raw h cx)))
         (<[nc_attempt_id cx := fresh]> runs), inr fresh)
  end.
(** [spawned_finished k]: a supervisor spawned in section [k] had already finished. *)
Context (spawned_finished : nat → bool).
Definition enqueue_notification_attempt (route : NotificationRoute) (cx : NotificationContext) (replace_existing : bool)
    : Pass (option NotificationEnqueueRefusal) :=
  run ← section (λ _ h, let '(h, r) := find_or_make_run h route cx replace_existing in (h, Answered r));
  match run with
  | inl _ => peek (λ _ h, worker_refusal h (nc_recipient cx) (nc_attempt_id cx))
  | inr ref =>
      refusal ← section (λ k h,
        let '(workers, refusal) := enqueue_notification_worker (ho_workers h) (ho_stopping h) (nc_recipient cx) ref (spawned_finished k) in
        (set_workers h workers, Answered refusal));
      match refusal with
      | None => mret None
      | Some refusal =>
          _ ← change (λ h, put_engine h (ho_engine h) (retire_notification_run (ho_runs h) (nc_attempt_id cx) ref).1);
          mret (Some refusal)
      end
  end.

(** ** Parking *)
(** [envs k]: the clock and identifiers of section [k]; [error_text]: the wording of an
    adapter error. *)
Context (envs : nat → Env) (error_text : NotificationAdapterError → rstr).
Definition adapter (f : MessageStore (V:=V) → Env → MessageStore (V:=V) * answer NotificationRecord) : Pass (answer NotificationRecord) :=
  on_service (λ k svc, through_service (λ s, f s (envs k)) svc).
Definition refuse_schedule {A} (e : NotificationAdapterError) : Pass A :=
  λ k h, (k, h, Refused (NotificationSchedule (error_text e))).
Definition head_of (cx : NotificationContext) : ScheduledHead := MkHead (nc_message_id cx) (nc_attempt_id cx).
Definition record_unowned_notification (cx : NotificationContext) (cause : NotificationPreWriteCause) (block : MessageWakeBlock)
    : Pass RecipientScheduleOutcome :=
  gating ← adapter (λ s env, record_gating s env cx);
  match gating with
  | Good _ =>
      recorded ← adapter (λ s env, record_pre_write_block_with_wake_block s env cx cause None (Some block));
      match recorded with
      | Good _ => mret (RoBlocked (head_of cx) block)
      | Bad e => refuse_schedule e
      | Poison => λ k h, (k, h, Crashed)
      end
  | Bad e => refuse_schedule e
  | Poison => λ k h, (k, h, Crashed)
  end.
Definition record_mailbox_delivery (cx : NotificationContext) : Pass RecipientScheduleOutcome :=
  recorded ← adapter (λ s env, record_mailbox_notified s env cx);
  match recorded with
  | Good _ => mret (RoMailboxOnly (head_of cx))
  | Bad (NoLongerCurrentBeforeWrite | TerminalConflict _) => mret RoNoWakeNeeded
  | Bad e => refuse_schedule e
  | Poison => λ k h, (k, h, Crashed)
  end.
Definition refusal_block (refusal : NotificationEnqueueRefusal) : NotificationPreWriteCause * MessageWakeBlock :=
  match refusal with
  | Worker.DaemonStopping => (SessionUnavailable, Notification.DaemonStopping)
  | Worker.WorkerFaulted => (WorkerFailed, Notification.WorkerFaulted)
  | Worker.WorkerSupervisorExited => (WorkerFailed, Notification.WorkerSupervisorExited)
  | AttemptUnowned => (WorkerFailed, EnqueueRefused)
  end.

(** ** Scheduling *)
Definition enqueue_prepared_notification (recipient : RecipientKey) (route : NotificationRoute) (record : NotificationRecord)
    (rerun_existing : bool) : Pass RecipientScheduleOutcome :=
  let attempt := nr_attempt_id record in
  observe_first ← cached_route_can_decide_now route;
  cx ← peek (λ _ h, host_context h (nr_message_id record) recipient attempt);
  refusal ← enqueue_notification_attempt route cx rerun_existing;
  match refusal with
  | None =>
      owned ← peek (λ _ h, bool_decide (worker_refusal h recipient attempt = None));
      if owned : bool then mret (RoWorkerOwned (MkHead (nr_message_id record) attempt) observe_first)
      else record_unowned_notification cx WorkerFailed EnqueueRefused
  | Some refusal => let '(cause, block) := refusal_block refusal in record_unowned_notification cx cause block
  end.
(** [fresh k]: the attempt id generated in section [k]. *)
Context (fresh : nat → NotificationAttemptId).
Definition schedule_recipient (recipient : RecipientKey) : Pass RecipientScheduleOutcome :=
  prepared ← on_service (λ k svc, service_prepare_oldest svc (envs k) recipient (fresh k));
  match prepared with
  | None =>
      blocked ← read_service (λ svc, if is_admin recipient then Ok None
                                     else if sv_poisoned svc then Err Poisoned
                                     else Ok (notification_schedule_block (sv_store svc) recipient));
      match blocked with
      | Some b => mret (RoBlocked (MkHead (sb_message_id b) (sb_attempt_id b)) (sb_block b))
      | None => mret RoNoWakeNeeded
      end
  | Some record =>
      cx ← peek (λ _ h, host_context h (nr_message_id record) recipient (nr_attempt_id record));
      stopping ← peek (λ _ h, ho_stopping h);
      if stopping : bool then record_unowned_notification cx SessionUnavailable Notification.DaemonStopping
      else
        on_roster ← (if is_headless recipient then peek (λ _ h, bool_decide (is_Some (label_of h recipient))) else mret false);
        if on_roster : bool then record_mailbox_delivery cx
        else
          route ← notification_route recipient;
          match route with
          | None => record_unowned_notification cx SessionUnavailable RouteUnavailable
          | Some route => enqueue_prepared_notification recipient route record false
          end
  end.
(** The route and the record to hand to the engine, if the blocked head of the
    recipient was reopened. *)
Definition prepare_recipient_after_route_evidence (recipient : RecipientKey) (evidence : NotificationRouteEvidenceId)
    : Pass (option (NotificationRoute * NotificationRecord)) :=
  route ← notification_route recipient;
  match route with
  | None => mret None
  | Some route =>
  current ← peek (λ _ h, route_evidence_id h (route_pane route));
  if negb (bool_decide (current = evidence)) then mret None else
  observation ← proven_binding_observation recipient route evidence;
  match observation with
  | None => mret None
  | Some observation =>
  write_ready ← route_is_write_ready route observation;
  confirmed_route ← notification_route recipient;
  match confirmed_route with
  | None => mret None
  | Some confirmed_route =>
  if negb (bool_decide (route_pane confirmed_route = route_pane route)) then mret None else
  confirmed ← proven_binding_observation recipient confirmed_route evidence;
  match confirmed with
  | None => mret None
  | Some confirmed =>
  if negb (bool_decide (confirmed = observation)) then mret None else
  again ← peek (λ _ h, route_evidence_id h (route_pane route));
  if negb (bool_decide (again = evidence)) then mret None else
  ready_again ← route_is_write_ready confirmed_route confirmed;
  if negb (eqb ready_again write_ready) then mret None else
  reopened ← on_service (λ k svc, service_reopen_oldest svc (envs k) recipient confirmed write_ready);
  match reopened with
  | None => mret None
  | Some record => mret (Some (route, record))
  end end end end end.
Definition schedule_recipient_after_route_evidence (recipient : RecipientKey) (evidence : NotificationRouteEvidenceId) : Pass () :=
  prepared ← prepare_recipient_after_route_evidence recipient evidence;
  match prepared with
  | None => mret ()
  | Some (route, record) => _ ← enqueue_prepared_notification recipient route record true; mret ()
  end.
(** An error of a pass is logged and goes no further; a crash does. *)
Definition logged {A} (m : Pass A) : Pass () := λ k h,
  match m k h with
  | (k, h, Crashed) => (k, h, Crashed)
  | (k, h, _) => (k, h, Answered ())
  end.
(** [recipient]: who is at the pane now. *)
Definition schedule_route_reconciliation_with_evidence (recipient : nat → Host → option RecipientKey)
    (evidence : NotificationRouteEvidenceId) : Pass () :=
  who ← peek recipient;
  match who with
  | None => mret ()
  | Some recipient =>
      _ ← logged (schedule_recipient recipient);
      logged (schedule_recipient_after_route_evidence recipient evidence)
  end.
Definition schedule_route_evidence (recipient : nat → Host → option RecipientKey) (pane : PaneKey)
    (evidence : NotificationRouteEvidenceId) : Pass () :=
  current ← peek (λ _ h, route_evidence_id h pane);
  if negb (bool_decide (current = evidence)) then mret ()
  else schedule_route_reconciliation_with_evidence recipient evidence.
Definition schedule_route_reconciliation (recipient : nat → Host → option RecipientKey) (pane : PaneKey) : Pass () :=
  evidence ← peek (λ _ h, route_evidence_id h pane);
  schedule_route_reconciliation_with_evidence recipient evidence.

(** ** Claims *)
Definition live_handle (h : Host) (attempt : NotificationAttemptId) : option N := live_runs h !! attempt.
Definition cancel_notification (attempt : NotificationAttemptId) : Pass () :=
  ref ← peek (λ _ h, live_handle h attempt);
  match ref with
  | None => mret ()
  | Some ref => change (λ h, signal h (SigCancel ref))
  end.
Definition mailbox_claim_step : Step := step_cause DDeliveredUnverified (str "mailbox_claim").
Definition handle_at (h : Host) (ref : N) : option DeliveryHandle := en_handles (ho_engine h) !! ref.
(** [now k]: the clock of section [k]. *)
Definition settle_notification_claim (now : nat → N) (attempt : NotificationAttemptId) : Pass bool :=
  ref ← peek (λ _ h, live_handle h attempt);
  match ref with
  | None => mret false
  | Some ref =>
  transport ← peek (λ _ h, x ← handle_at h ref; dh_transport x);
  if negb (bool_decide (transport = Some Doorbell)) then mret false else
  settled ← section (λ k h,
    match handle_at h ref with
    | None => (h, Answered false)
    | Some x => let '(x, moved, _) := advance x [DSubmitted] mailbox_claim_step (now k) in
                (put_engine h (put (ho_engine h) ref x) (ho_runs h), Answered moved)
    end);
  state ← peek (λ _ h, handle_state <$> handle_at h ref);
  if settled || bool_decide (state = Some DDeliveredVerified) || bool_decide (state = Some DDeliveredUnverified) then
    _ ← change (λ h, match handle_at h ref with
                     | Some x => put_panes h (clear_hold_owner (ho_panes h) (handle_pane x) (attempt_display attempt)).1
                     | None => h
                     end);
    _ ← change (λ h, signal h (SigAck ref));
    mret true
  else
    staged ← peek (λ _ h, bool_decide (handle_state <$> handle_at h ref = Some DStaged));
    if staged : bool then _ ← change (λ h, signal h (SigCancel ref)); mret true else mret false
  end.
End scheduling.
