(* ===== verification/SchedulingProps.v ===== *)
(** * What scheduling promises

    Theorems about [Scheduling.v], whatever others do between the sections of a pass:
    the store stays in order and no pass crashes; what a pass answers is true of the
    daemon when it answers; a blocked wake is reopened only on complete evidence; an
    attempt runs at most once; and a claim settles a delivery without ever calling it
    verified.

    [yields P m Q] is the postcondition of a pass [m] from the states [P]. *)
From S2P Require Import Prelude Text Identity Ledger Journal Mailbox Notification Facts Projection Attempt Prepared.
From S2P Require Import MailboxInv NotificationInv Invariant Replay Entries Guarantees Store Views StoreInv StoreOps.
From S2P Require Import Scheduler Directory Service ServiceProps Registry AttentionRegister Detection NotificationAdapter.
From S2P Require Import DeliveryGate TurnKeys Receipt DeliveryAttempt HookAck Worker Composer Watcher Scheduling.
Local Open Scope N_scope.

Section props.
Context {V : Type} {serde : Serde V} {codec : LineCodec V} {uuids : Uuids} {digests : Digests}.
Context {codec_laws : LineCodecLaws V} {serde_laws : SerdeLaws V} {uuid_laws : UuidLaws} {digest_laws : DigestLaws}
  {storable_laws : StorableLaws}.
Abbreviation Host := (Host (V:=V)).
Implicit Types (h : Host) (cx : NotificationContext).

(** ** Postconditions *)
Context (ws : WorkspaceId) (base : list (LedgerLine V)) (others : nat → Host → Host).
Context (envs : nat → Env).
(** The store is in order, and its journal goes on from the rows of [base]. *)
Definition sound h : Prop := ∃ rows, service_ok ws (ho_service h) rows ∧ base `prefix_of` rows.
Hypothesis others_sound : ∀ k h, sound h → sound (others k h).
Hypothesis envs_bounded : ∀ k, env_now (envs k) ≤ u64_max.

(** A pass that may refuse ([r]) ends in a sound state, never crashes, and what it
    answers satisfies [Q]. *)
Definition fine {A} (r : Prop) (Q : A → Host → Prop) h (a : svc_answer A) : Prop :=
  sound h ∧ match a with Answered a => Q a h | Refused _ => r | Crashed | Drawing => False end.
Definition passes {A} (r : Prop) (P : Host → Prop) (m : Pass A) (Q : A → Host → Prop) : Prop :=
  ∀ k h, sound h → P h → let '(_, h', a) := m k h in fine r Q h' a.
Abbreviation yields := (passes True).
Abbreviation answers := (passes False).
Lemma yields_ret {A} {r : Prop} P Q (a : A) : (∀ h, P h → Q a h) → passes r P (mret a) Q.
Proof. intros H k h Hs Hp. cbn. split; [done|by apply H]. Qed.
Lemma yields_bind {A B} {r : Prop} P Q R (m : Pass A) (f : A → Pass B) :
  passes r P m Q → (∀ a, passes r (Q a) (f a) R) → passes r P (m ≫= f) R.
Proof.
  intros Hm Hf k h Hs Hp. specialize (Hm k h Hs Hp). unfold mbind, pass_bind. destruct (m k h) as [[k' h'] [a|e| |]]; destruct Hm as [Hs' Hq]; try by split.
  by apply Hf.
Qed.
Lemma yields_section {A} {r : Prop} P Q (f : nat → Host → Host * svc_answer A) :
  (∀ k h, sound h → let '(h', a) := f k h in fine r Q h' a) → passes r P (section others f) Q.
Proof.
  intros Hf k h Hs _. unfold section. specialize (Hf k _ (others_sound k h Hs)). by destruct (f k (others k h)).
Qed.
Lemma yields_peek {A} {r : Prop} P (Q : A → Host → Prop) f : (∀ k h, sound h → Q (f k h) h) → passes r P (peek others f) Q.
Proof. intros H. apply yields_section. intros k h Hs. by split; [|apply H]. Qed.
Lemma yields_change {r : Prop} P (Q : () → Host → Prop) f : (∀ h, sound h → sound (f h) ∧ Q () (f h)) → passes r P (change others f) Q.
Proof. intros H. apply yields_section. intros k h Hs. by apply H. Qed.
Lemma yields_weaken {A} {r : Prop} (P P' : Host → Prop) (Q Q' : A → Host → Prop) m :
  passes r P m Q → (∀ h, P' h → P h) → (∀ a h, Q a h → Q' a h) → passes r P' m Q'.
Proof.
  intros H HP HQ k h Hs Hp. specialize (H k h Hs (HP _ Hp)). destruct (m k h) as [[k' h'] a]. destruct H as [? H]. split; [done|].
  destruct a; auto.
Qed.
Lemma yields_stop {A} P (Q : A → Host → Prop) (e : MailboxServiceError) : yields P (λ k h, (k, h, Refused e)) Q.
Proof. by intros k h Hs _. Qed.
Lemma yields_absurd {A} {r : Prop} (P : Host → Prop) (Q : A → Host → Prop) m : (∀ h, P h → False) → passes r P m Q.
Proof. intros H k h _ Hp. destruct (H _ Hp). Qed.
(** A fact that holds whatever the state. *)
Lemma yields_pure {A} {r : Prop} (P : Host → Prop) (φ : Prop) (Q : A → Host → Prop) m : (∀ h, P h → φ) → (φ → passes r P m Q) → passes r P m Q.
Proof. intros H Hm k h Hs Hp. by apply Hm; [apply (H h)|..]. Qed.
(** Only the answer is kept. *)
Lemma yields_then {A B} {r : Prop} P (φ : A → Prop) R (m : Pass A) (f : A → Pass B) :
  passes r P m (λ a _, φ a) → (∀ a, φ a → passes r (λ _, True) (f a) R) → passes r P (m ≫= f) R.
Proof.
  intros Hm Hf. eapply yields_bind; [exact Hm|]. intros a. apply (yields_pure _ (φ a)); [done|]. intros Ha.
  eapply yields_weaken; [by apply Hf|done|done].
Qed.
Lemma yields_forget {A} {r : Prop} P (Q : A → Host → Prop) m : passes r P m Q → passes r P m (λ _ _, True).
Proof. intros H. by eapply yields_weaken. Qed.
Lemma yields_any {A} {r : Prop} P (Q : A → Host → Prop) m : passes r (λ _, True) m Q → passes r P m Q.
Proof. intros H. by eapply yields_weaken. Qed.

(** ** The store *)
Lemma service_section {A} P (f : nat → MailboxService (V:=V) → MailboxService (V:=V) * svc_answer A) (Q : A → Host → Prop) :
  (∀ k svc rows, service_ok ws svc rows → step_ok ws rows svc (f k svc)) → (∀ k svc, (f k svc).2 ≠ Drawing) →
  (∀ k h a, sound h → (f k (ho_service h)).2 = Answered a → Q a (set_service h (f k (ho_service h)).1)) →
  yields P (on_service others f) Q.
Proof.
  intros Hf Hdraw HQ. apply yields_section. intros k h [rows [Hok Hb]]. pose proof (Hf k _ _ Hok) as Hstep.
  specialize (Hdraw k (ho_service h)). destruct (f k (ho_service h)) as [svc a] eqn:E. cbn in Hdraw.
  assert (∀ x, a = Answered x → Q x (set_service h svc)) as HQ'.
  { intros x ->. specialize (HQ k h x). rewrite E in HQ. apply HQ; [by exists rows|done]. }
  destruct Hstep as [(Hs & _ & _ & Hc)|(line & areas & x & Hx & Hs & _)]; cbn [fst snd] in *.
  - split; [by exists rows|]. destruct a; try done. by apply HQ'.
  - subst a. split; [by eexists; split; [done|apply prefix_app_r]|]. by apply HQ'.
Qed.
Lemma read_section {A} {r : Prop} P (f : MailboxService (V:=V) → result MailboxServiceError A) (Q : A → Host → Prop) :
  (∀ h, sound h → match f (ho_service h) with Ok a => Q a h | Err _ => r end) → passes r P (read_service others f) Q.
Proof.
  intros HQ. apply yields_section. intros k h Hs. specialize (HQ h Hs). split; [done|]. by destruct (f (ho_service h)).
Qed.
Lemma under_store_draws_not {A} (f : MessageStore (V:=V) → MessageStore (V:=V) * outcome A) change (svc : MailboxService (V:=V)) :
  (locked svc (under_store svc f change)).2 ≠ Drawing.
Proof. unfold locked, under_store. destruct (sv_poisoned svc); [done|]. by destruct (f (sv_store svc)) as [s [a|e|]]. Qed.

(** ** The adapter's methods *)
(** The one row a method may append is a wake fact, and it is the record it answers. *)
Definition adapted_row (o : option (LedgerLine V)) (a : answer NotificationRecord) : Prop :=
  match o with None => True | Some line => ∃ n, a = Good n ∧ nr_updated_seq n = ll_seq line ∧ wake_row line end.
Definition one_row (f : MessageStore (V:=V) → Env → MessageStore (V:=V) * answer NotificationRecord) : Prop :=
  ∀ s env rows, store_ok ws s rows → env_now env ≤ u64_max → op_one ws rows s adapted_row (outcome_of_answer (f s env)).
Lemma one_row_transition s env rows t :
  store_ok ws s rows → env_now env ≤ u64_max → message_id_valid (tf_message_id t) →
  op_one ws rows s adapted_row (outcome_of_answer (from_store (append_notification_transition_full_at s env t (env_now env)))).
Proof.
  intros Hok Henv Hid. pose proof (transition_op_one ws rows s env t (env_now env) Hok Henv Henv Hid) as H.
  destruct (append_notification_transition_full_at s env t (env_now env)) as [s' [n|e|]]; cbn in *.
  - destruct H as [(_ & _ & [[l Hl] _])|(line & a & [= <-] & H1 & H2 & _ & Hst)]; [done|].
    right. exists line, (Good n). split_and!; try done. exists n. split; [done|]. by apply Hst.
  - destruct H as [H|(? & ? & ? & _)]; [by left|done].
  - destruct H as [(_ & _ & [])|(? & ? & ? & _)]; done.
Qed.
Lemma one_row_same s rows (a : answer NotificationRecord) :
  store_ok ws s rows → a ≠ Poison → op_one ws rows s adapted_row (outcome_of_answer (s, a)).
Proof. intros Hok Ha. destruct a as [n|e|]; [|destruct e|]; try done; by apply op_one_same. Qed.
Lemma one_row_gating cx : message_id_valid (nc_message_id cx) → one_row (λ s env, record_gating s env cx).
Proof.
  intros Hid s env rows Hok Henv. unfold record_gating, advance_locked. destruct (current_of s cx) as [n|]; [|by apply one_row_same].
  destruct (_ && owns cx n) eqn:E; [|by apply one_row_same]. destruct (nr_state n); try by apply one_row_same.
  apply andb_true_iff in E as [_ ->]. by apply one_row_transition.
Qed.
Lemma one_row_block cx cause o b :
  message_id_valid (nc_message_id cx) → one_row (λ s env, record_pre_write_block_with_wake_block s env cx cause o b).
Proof.
  intros Hid s env rows Hok Henv. unfold record_pre_write_block_with_wake_block. repeat case_match; try by apply one_row_same.
  by apply one_row_transition.
Qed.
Lemma one_row_mailbox cx : message_id_valid (nc_message_id cx) → one_row (λ s env, record_mailbox_notified s env cx).
Proof.
  intros Hid s env rows Hok Henv. unfold record_mailbox_notified. repeat case_match; try by apply one_row_same.
  by apply one_row_transition.
Qed.
Lemma through_step f k svc rows :
  one_row f → service_ok ws svc rows → step_ok ws rows svc (through_service (λ s, f s (envs k)) svc).
Proof.
  intros Hf Hok. unfold through_service. rewrite (vk_lock _ _ _ Hok).
  assert (step_ok ws rows svc (under_store svc (λ s, outcome_of_answer (f s (envs k)))
    (publish_transition (last_workspace_seq (st_projection (sv_store svc)))))) as H.
  { eapply under_store_step; [done|apply Hf; [apply Hok|done]| |].
    - intros a s' _ Hp. unfold publish_transition. destruct a; [|done..]. by rewrite Hp, bool_decide_eq_false_2 by naive_solver.
    - intros line a s' (n & -> & Hseq & Hw) _ Ha. pose proof (appended_last _ _ _ _ _ (vk_store _ _ _ Hok) Ha) as [Hl Hne].
      exists (transition_areas n). unfold publish_transition. rewrite bool_decide_eq_true_2 by congruence. rewrite Hseq. split; [done|].
      eapply wake_row_sound; [done|done|]. unfold transition_areas. destruct (nr_state n); set_solver. }
  destruct (under_store _ _ _) as [svc' [a|e| |]]; try exact H. destruct e; try exact H.
  destruct H as [(H1 & H2 & H3 & _)|(line & areas & a & ? & _)]; [by left|done].
Qed.
Lemma through_Good (f : MessageStore (V:=V) → Env → MessageStore (V:=V) * answer NotificationRecord) k (svc svc' : MailboxService (V:=V)) n :
  sv_poisoned svc = false → through_service (λ s, f s (envs k)) svc = (svc', Answered (Good n)) →
  f (sv_store svc) (envs k) = (sv_store svc', Good n).
Proof.
  intros Hl. unfold through_service, under_store. rewrite Hl. destruct (f (sv_store svc) (envs k)) as [s [n'|e|]]; cbn.
  - destruct (bool_decide _); intros H; injection H as <- <-; done.
  - destruct e; intros H; discriminate H.
  - intros H; discriminate H.
Qed.
Lemma adapter_section P f (Q : MessageStore (V:=V) → NotificationRecord → Prop) :
  one_row f →
  (∀ s env rows s' n, store_ok ws s rows → env_now env ≤ u64_max → f s env = (s', Good n) → Q s' n) →
  yields P (adapter others envs f) (λ a h, match a with Good n => Q (sv_store (ho_service h)) n | Bad _ => True | Poison => False end).
Proof.
  intros Hf HQ. unfold adapter. apply service_section.
  - intros k svc rows Hok. by apply through_step.
  - intros k svc. unfold through_service, under_store. destruct (sv_poisoned svc); [done|].
    destruct (outcome_of_answer _) as [s [a|e|]]; [by destruct (publish_transition _ _ _) as [[]|]|by destruct e|done].
  - intros k h a [rows [Hok _]] Ha. destruct (through_service _ (ho_service h)) as [svc' x] eqn:E. cbn in Ha. subst x. cbn [fst].
    destruct a as [n|e|]; [|done|].
    + eapply HQ; [apply Hok| |eapply through_Good; [apply Hok|exact E]]. done.
    + unfold through_service, under_store in E. rewrite (vk_lock _ _ _ Hok) in E. unfold outcome_of_answer in E.
      destruct (f (sv_store (ho_service h)) (envs k)) as [s [n'|e|]] eqn:Ef; try destruct e; by inversion E.
Qed.
Lemma block_Good s env rows cx cause o b s' n :
  message_id_valid (nc_message_id cx) → store_ok ws s rows → env_now env ≤ u64_max →
  record_pre_write_block_with_wake_block s env cx cause o b = (s', Good n) →
  current_of s' cx = Some n ∧ nr_attempt_id n = nc_attempt_id cx ∧ nr_state n = BlockedPreWrite.
Proof.
  intros Hid Hok Henv. unfold record_pre_write_block_with_wake_block.
  destruct (current_of s cx) as [c|] eqn:Hc; [|done]. destruct (owns cx c) eqn:Ho; cbn [negb]; [|done].
  destruct (bool_decide_reflect (nr_state c = BlockedPreWrite)).
  { intros [= <- <-]. apply andb_true_iff in Ho as [Ho%bool_decide_eq_true _]. bool_facts. by split_and!. }
  destruct (bool_decide _); [done|]. intros H%from_store_Good.
  by destruct (transition_current _ _ _ _ cx _ _ _ Hok Hid Henv H eq_refl eq_refl) as (c' & line & _ & -> & Hcur).
Qed.
Lemma mailbox_Good s env rows cx s' n :
  message_id_valid (nc_message_id cx) → store_ok ws s rows → env_now env ≤ u64_max →
  record_mailbox_notified s env cx = (s', Good n) →
  current_of s' cx = Some n ∧ nr_attempt_id n = nc_attempt_id cx ∧ nr_state n = Notified ∧ nr_transport n = MailboxOnly.
Proof.
  intros Hid Hok Henv. unfold record_mailbox_notified.
  destruct (current_of s cx) as [c|] eqn:Hc; [|done]. destruct (owns cx c) eqn:Ho; cbn [negb]; [|done].
  destruct (bool_decide (nr_state c = Notified) && _) eqn:E.
  { intros [= <- <-]. apply andb_true_iff in Ho as [Ho%bool_decide_eq_true _]. bool_facts. by split_and!. }
  destruct (bool_decide (nr_state c ≠ Queued)); [done|]. destruct (negb _); [done|]. intros H%from_store_Good.
  by destruct (transition_current _ _ _ _ cx _ _ _ Hok Hid Henv H eq_refl eq_refl) as (c' & line & _ & -> & Hcur).
Qed.

(** ** What a pass answers *)
Context (proc_of : nat → Z → option ProcId) (admitted_binding : nat → Host → N → TableRow → option Binding).
Context (bind_manifest_for : nat → Host → N → TableRow → option rstr) (boot_id : rstr) (spawned_finished : nat → bool).
Context (error_text : NotificationAdapterError → rstr) (fresh : nat → NotificationAttemptId).
Definition store_of h : MessageStore (V:=V) := sv_store (ho_service h).
Definition wake_at h (recipient : RecipientKey) (head : ScheduledHead) : option NotificationRecord :=
  n ← notification (st_projection (store_of h)) recipient (hd_message_id head);
  if bool_decide (nr_attempt_id n = hd_attempt_id head) then Some n else None.
(** What each outcome says of the daemon: a live worker owns the attempt, the head's wake
    is stopped, or the mailbox is the notification. *)
Definition truthful (recipient : RecipientKey) (o : RecipientScheduleOutcome) h : Prop :=
  match o with
  | RoWorkerOwned head _ => worker_refusal h recipient (hd_attempt_id head) = None
  | RoBlocked head block =>
      notification_schedule_block (store_of h) recipient = Some (MkScheduleBlock (hd_message_id head) (hd_attempt_id head) block) ∨
      ∃ n, wake_at h recipient head = Some n ∧ nr_state n = BlockedPreWrite
  | RoMailboxOnly head => ∃ n, wake_at h recipient head = Some n ∧ nr_state n = Notified ∧ nr_transport n = MailboxOnly
  | RoNoWakeNeeded => is_headless recipient = true ∨ notification_schedule_block (store_of h) recipient = None
  end.
Lemma wake_at_current h cx n :
  current_of (store_of h) cx = Some n → nr_attempt_id n = nc_attempt_id cx → wake_at h (nc_recipient cx) (head_of cx) = Some n.
Proof. unfold current_of, wake_at. cbn. intros -> Ha. cbn. by rewrite bool_decide_eq_true_2. Qed.
Lemma unowned_yields P cx cause block :
  message_id_valid (nc_message_id cx) →
  yields P (record_unowned_notification others envs error_text cx cause block) (truthful (nc_recipient cx)).
Proof.
  intros Hid. unfold record_unowned_notification.
  eapply yields_bind; [by apply (adapter_section _ _ (λ _ _, True)); [apply one_row_gating|]|]. intros [g|e|].
  - apply yields_any. eapply yields_bind.
    { apply (adapter_section _ _ (λ s n, current_of s cx = Some n ∧ nr_attempt_id n = nc_attempt_id cx ∧ nr_state n = BlockedPreWrite));
        [by apply one_row_block|]. intros s env rows s' n Hs He. by eapply block_Good. }
    intros [n|e|]; [|apply yields_stop|by apply yields_absurd]. apply yields_ret. intros h (Hc & Ha & Hst). right. exists n.
    split; [|done]. by apply wake_at_current.
  - apply yields_stop.
  - by apply yields_absurd.
Qed.
Lemma mailbox_yields P cx :
  message_id_valid (nc_message_id cx) → is_headless (nc_recipient cx) = true →
  yields P (record_mailbox_delivery others envs error_text cx) (truthful (nc_recipient cx)).
Proof.
  intros Hid Hh. unfold record_mailbox_delivery. eapply yields_bind.
  { apply (adapter_section _ _ (λ s n, current_of s cx = Some n ∧ nr_attempt_id n = nc_attempt_id cx ∧ nr_state n = Notified ∧ nr_transport n = MailboxOnly));
      [by apply one_row_mailbox|]. intros s env rows s' n Hs He. by eapply mailbox_Good. }
  intros [n|e|]; [| |by apply yields_absurd].
  - apply yields_ret. intros h (Hc & Ha & Hst & Ht). exists n. split; [|done]. by apply wake_at_current.
  - destruct e; try apply yields_stop; apply yields_ret; intros h _; by left.
Qed.
Lemma sound_service h h' : ho_service h' = ho_service h → sound h → sound h'.
Proof. intros E [rows H]. exists rows. by rewrite E. Qed.
Lemma enqueue_yields P route cx replace :
  yields P (enqueue_notification_attempt others spawned_finished route cx replace) (λ _ _, True).
Proof.
  unfold enqueue_notification_attempt. eapply yields_then with (φ := λ _, True).
  { apply yields_section. intros _ h Hs. unfold find_or_make_run. destruct (live_runs h !! nc_attempt_id cx) as [ref|]; [destruct replace|];
      (split; [by eapply sound_service|done]). }
  intros [ref|ref] _; [by apply yields_peek|]. eapply yields_then with (φ := λ _, True).
  { apply yields_section. intros k h Hs. destruct (enqueue_notification_worker _ _ _ _ _) as [workers refusal]. split; [by eapply sound_service|done]. }
  intros [refusal|] _; [|by apply yields_ret]. eapply yields_then with (φ := λ _, True); [|by intros; apply yields_ret].
  apply yields_change. intros h Hs. split; [by eapply sound_service|done].
Qed.
Lemma host_context_fields h m r a :
  nc_message_id (host_context h m r a) = m ∧ nc_recipient (host_context h m r a) = r ∧ nc_attempt_id (host_context h m r a) = a.
Proof. unfold host_context. by destruct (sv_poisoned _). Qed.
Lemma enqueue_prepared_yields P recipient route record rerun :
  message_id_valid (nr_message_id record) →
  yields P (enqueue_prepared_notification others spawned_finished envs error_text recipient route record rerun) (truthful recipient).
Proof.
  intros Hid. unfold enqueue_prepared_notification. eapply yields_then with (φ := λ _, True).
  { unfold cached_route_can_decide_now. destruct (tr_in_mode _); [by apply yields_ret|by apply yields_peek]. }
  intros observe _. eapply yields_then with
    (φ := λ cx, nc_message_id cx = nr_message_id record ∧ nc_recipient cx = recipient ∧ nc_attempt_id cx = nr_attempt_id record).
  { apply yields_peek. intros k h _. apply host_context_fields. }
  intros cx (Hm & <- & Ha). rewrite <- Hm in Hid. eapply yields_then; [apply enqueue_yields|].
  intros [refusal|] _.
  - destruct (refusal_block refusal) as [cause block]. by apply unowned_yields.
  - eapply yields_bind; [apply (yields_peek _ (λ (b : bool) h, b = true → worker_refusal h (nc_recipient cx) (nr_attempt_id record) = None)); intros k h _; apply bool_decide_eq_true|].
    intros [|]; [apply yields_ret; intros h H; by apply H|by apply unowned_yields].
Qed.

(** ** The records that are handed on *)
Lemma under_store_Done {A} (f : MessageStore (V:=V) → MessageStore (V:=V) * outcome A) change (svc svc' : MailboxService (V:=V)) a :
  locked svc (under_store svc f change) = (svc', Answered a) → f (sv_store svc) = (sv_store svc', Done a).
Proof.
  unfold locked, under_store. destruct (sv_poisoned svc); [done|]. destruct (f (sv_store svc)) as [s [a'|e|]]; [|done..].
  destruct (change a' s) as [[seq areas]|]; intros H; injection H as <- <-; done.
Qed.
Lemma min_started_in (l : list NotificationRecord) b n : foldl min_started b l = Some n → b = Some n ∨ n ∈ l.
Proof.
  revert b. induction l as [|x l IH]; intros b; [by left|]. intros [H|H]%IH; [|right; by right].
  unfold min_started in H. destruct b as [b|]; [destruct (_ <? _)|]; try (by left); injection H as <-; right; by left.
Qed.
Lemma claimed_recorded (p : MailboxProjection V) r n : claimed_operator_notification p r = Some n → ∃ k, notifications p !! k = Some n.
Proof.
  unfold claimed_operator_notification. intros [|Hin]%min_started_in; [done|].
  apply list_elem_of_In, List.filter_In in Hin as [Hin _]. apply list_elem_of_In, list_elem_of_fmap in Hin as ([k m] & -> & Hm).
  exists k. by apply elem_of_map_to_list in Hm.
Qed.
Lemma prepared_valid (svc : MailboxService (V:=V)) rows k recipient attempt svc' n :
  service_ok ws svc rows → service_prepare_oldest svc (envs k) recipient attempt = (svc', Answered (Some n)) →
  message_id_valid (nr_message_id n).
Proof.
  intros Hok. pose proof (store_ok_wf _ _ _ (vk_store _ _ _ Hok)) as Hwf. unfold service_prepare_oldest.
  destruct (is_admin recipient) eqn:Had; [done|]. cbn zeta. intros H%under_store_Done. revert H.
  unfold prepare_oldest_notification. rewrite Had. cbn zeta. set (p := st_projection (sv_store svc)) in *.
  destruct (claimed_operator_notification p recipient) as [c|] eqn:Ec.
  { destruct (resumable (nr_state c)); intros [= _ <-]. destruct (claimed_recorded _ _ _ Ec) as [key Hk]. by eapply record_id_valid. }
  destruct (first_actionable_notification_message_id p recipient) as [id|] eqn:Ef; [|done].
  destruct (notification p recipient id) as [c|] eqn:En.
  { destruct (resumable (nr_state c)); intros [= _ <-]. by eapply record_id_valid. }
  destruct (queue_notification _ _ _ _ _) as [s1 [m|e|]] eqn:Eq; intros [= _ <-].
  destruct (queue_appended _ _ _ _ _ _ _ _ _ (vk_store _ _ _ Hok) (envs_bounded k) (actionable_valid _ _ _ Hwf Ef) En Eq) as (_ & _ & -> & _).
  by eapply actionable_valid.
Qed.
Lemma reopened_valid (svc : MailboxService (V:=V)) rows k recipient o ready svc' n :
  service_ok ws svc rows → service_reopen_oldest svc (envs k) recipient o ready = (svc', Answered (Some n)) →
  message_id_valid (nr_message_id n).
Proof.
  intros Hok. pose proof (store_ok_wf _ _ _ (vk_store _ _ _ Hok)) as Hwf. unfold service_reopen_oldest.
  destruct (is_admin recipient) eqn:Had; [done|]. intros H%under_store_Done. revert H.
  unfold reopen_oldest_notification_after_route_evidence. rewrite Had. cbn zeta.
  destruct (first_actionable_pending_message_id _ recipient) as [id|] eqn:Ef; [|done].
  destruct (notification _ recipient id) as [c|] eqn:En; [|done]. destruct (_ || _); [done|].
  pose proof (actionable_pending_valid _ _ _ Hwf Ef) as Hid.
  destruct (advance_notification _ _ _ _ _ _ _ _) as [s1 [m|e|]] eqn:Eq; intros [= _ <-].
  by destruct (advance_appended _ _ _ _ _ _ _ _ _ _ _ (vk_store _ _ _ Hok) (envs_bounded k) Hid En Eq) as (_ & _ & _ & -> & _).
Qed.
Lemma prepare_yields P recipient :
  yields P (on_service others (λ k svc, service_prepare_oldest svc (envs k) recipient (fresh k)))
    (λ o _, ∀ n, o = Some n → message_id_valid (nr_message_id n)).
Proof.
  apply service_section.
  - intros k svc rows Hok. by apply prepare_step.
  - intros k svc. unfold service_prepare_oldest. destruct (is_admin recipient); [done|apply under_store_draws_not].
  - intros k h a [rows [Hok _]] Ha n ->. destruct (service_prepare_oldest _ _ _ _) as [svc' x] eqn:E. cbn in Ha. subst x. by eapply prepared_valid.
Qed.
(** A wake reopened on [o], in the section that ends in [h]. *)
Definition reopened_on recipient (o : NotificationPreWriteObservation) ready (n : NotificationRecord) h : Prop :=
  ∃ j svc rows, service_ok ws svc rows ∧ service_reopen_oldest svc (envs j) recipient o ready = (ho_service h, Answered (Some n)).
Lemma reopened_on_valid recipient o ready n h : reopened_on recipient o ready n h → message_id_valid (nr_message_id n).
Proof. intros (j & svc & rows & Hok & E). by eapply reopened_valid. Qed.
Lemma reopen_yields P recipient o ready :
  yields P (on_service others (λ k svc, service_reopen_oldest svc (envs k) recipient o ready))
    (λ r h, ∀ n, r = Some n → reopened_on recipient o ready n h).
Proof.
  apply service_section.
  - intros k svc rows Hok. by apply reopen_step.
  - intros k svc. unfold service_reopen_oldest. destruct (is_admin recipient); [done|apply under_store_draws_not].
  - intros k h a [rows [Hok _]] Ha n ->. destruct (service_reopen_oldest _ _ _ _ _) as [svc' x] eqn:E. cbn in Ha. subst x. by exists k, (ho_service h), rows.
Qed.
Lemma route_yields {r : Prop} P recipient : passes r P (notification_route others recipient) (λ _ _, True).
Proof.
  unfold notification_route. destruct (recipient_session_instance_id recipient) as [session|]; [|by apply yields_ret].
  destruct (recipient_pane_id recipient) as [pane|]; [|by apply yields_ret].
  eapply yields_then with (φ := λ _, True); [by apply yields_peek|]. intros slots _.
  generalize (@None NotificationRoute). induction slots as [|idx slots IH]; intros matched; cbn; [by apply yields_ret|].
  eapply yields_then with (φ := λ _, True); [by apply yields_peek|]. intros [watcher|] _; [|apply IH].
  eapply yields_then with (φ := λ _, True); [by apply yields_peek|]. intros [row|] _; [|apply IH].
  eapply yields_then with (φ := λ _, True); [by apply yields_peek|]. intros label _.
  destruct matched; [by apply yields_ret|apply IH].
Qed.
Lemma schedule_yields P recipient :
  yields P (schedule_recipient others spawned_finished envs error_text fresh recipient) (truthful recipient).
Proof.
  unfold schedule_recipient. eapply yields_then; [apply prepare_yields|]. intros [record|] Hid.
  - specialize (Hid _ eq_refl).
    eapply yields_then with
      (φ := λ cx, nc_message_id cx = nr_message_id record ∧ nc_recipient cx = recipient ∧ nc_attempt_id cx = nr_attempt_id record).
    { apply yields_peek. intros k h _. apply host_context_fields. }
    intros cx (Hm & Hr & Ha). assert (message_id_valid (nc_message_id cx)) as Hid' by by rewrite Hm.
    eapply yields_then with (φ := λ _, True); [by apply yields_peek|]. intros [|] _; [rewrite <- Hr; by apply unowned_yields|].
    eapply yields_then with (φ := λ b : bool, b = true → is_headless recipient = true).
    { destruct (is_headless recipient) eqn:E; [by apply yields_peek|by apply yields_ret]. }
    intros [|] Hh; [rewrite <- Hr; apply mailbox_yields; [done|by rewrite Hr; apply Hh]|].
    eapply yields_then; [apply route_yields|]. intros [route|] _; [by apply enqueue_prepared_yields|rewrite <- Hr; by apply unowned_yields].
  - eapply yields_bind.
    { apply (read_section _ _ (λ o h, notification_schedule_block (store_of h) recipient = o)). intros h _.
      destruct (is_admin recipient) eqn:E; [by unfold notification_schedule_block; rewrite E|]. by destruct (sv_poisoned _). }
    intros [[m a b]|]; apply yields_ret; intros h H; [by left|by right].
Qed.

(** ** Route evidence *)
Lemma proven_yields P recipient route evidence :
  yields P (proven_binding_observation others proc_of admitted_binding bind_manifest_for recipient route evidence) (λ _ _, True).
Proof.
  unfold proven_binding_observation. eapply yields_then with (φ := λ _, True); [by apply yields_peek|]. intros [root|] _; [|by apply yields_ret].
  eapply yields_then with (φ := λ _, True); [by apply yields_peek|]. intros adopted _.
  destruct (negb _); [by apply yields_ret|]. eapply yields_then with (φ := λ _, True); [by apply yields_peek|].
  intros [binding|] _; [|by apply yields_ret]. eapply yields_then with (φ := λ _, True); [by apply yields_peek|].
  intros [selected|] _; [|by apply yields_ret]. destruct (negb _); by apply yields_ret.
Qed.
Lemma ready_yields P route o : yields P (route_is_write_ready others route o) (λ _ _, True).
Proof. unfold route_is_write_ready. destruct (expected_binding o); [by apply yields_peek|by apply yields_ret]. Qed.
Lemma evidence_prepare_yields P recipient evidence :
  yields P (prepare_recipient_after_route_evidence others proc_of admitted_binding bind_manifest_for boot_id envs recipient evidence)
    (λ r h, ∀ route n, r = Some (route, n) → ∃ o ready, reopened_on recipient o ready n h).
Proof.
  unfold prepare_recipient_after_route_evidence. eapply yields_then; [apply route_yields|]. intros [route|] _; [|by apply yields_ret].
  eapply yields_then with (φ := λ _, True); [by apply yields_peek|]. intros current _. destruct (negb _); [by apply yields_ret|].
  eapply yields_then with (φ := λ _, True); [apply proven_yields|]. intros [o|] _; [|by apply yields_ret].
  eapply yields_then; [apply ready_yields|]. intros ready _.
  eapply yields_then; [apply route_yields|]. intros [route'|] _; [|by apply yields_ret]. destruct (negb _); [by apply yields_ret|].
  eapply yields_then with (φ := λ _, True); [apply proven_yields|]. intros [o'|] _; [|by apply yields_ret].
  destruct (negb _); [by apply yields_ret|].
  eapply yields_then with (φ := λ _, True); [by apply yields_peek|]. intros again _. destruct (negb _); [by apply yields_ret|].
  eapply yields_then; [apply ready_yields|]. intros ready' _. destruct (negb _); [by apply yields_ret|].
  eapply yields_bind; [apply reopen_yields|]. intros [n|]; apply yields_ret; intros h Hn r m; [|done].
  intros [= _ <-]. exists o', ready. by apply Hn.
Qed.
Lemma evidence_yields P recipient evidence :
  yields P (schedule_recipient_after_route_evidence others proc_of admitted_binding bind_manifest_for boot_id spawned_finished envs
    error_text recipient evidence) (λ _ _, True).
Proof.
  unfold schedule_recipient_after_route_evidence. eapply yields_bind; [apply evidence_prepare_yields|]. intros [[route n]|]; [|by apply yields_ret].
  apply (yields_pure _ (message_id_valid (nr_message_id n))).
  { intros h H. destruct (H _ _ eq_refl) as (o & ready & Hr). by eapply reopened_on_valid. }
  intros Hn. apply yields_any.
  eapply yields_then with (φ := λ _, True); [by eapply yields_forget, enqueue_prepared_yields|]. intros ? _. by apply yields_ret.
Qed.
Lemma logged_answers {A} P (m : Pass A) Q : yields P m Q → answers P (logged m) (λ _ _, True).
Proof.
  intros H k h Hs Hp. specialize (H k h Hs Hp). unfold logged. destruct (m k h) as [[k' h'] a]. destruct H as [H1 H2]. by destruct a.
Qed.
Lemma reconciliation_answers P recipient evidence :
  answers P (schedule_route_reconciliation_with_evidence others proc_of admitted_binding bind_manifest_for boot_id spawned_finished envs
    error_text fresh recipient evidence) (λ _ _, True).
Proof.
  unfold schedule_route_reconciliation_with_evidence. eapply yields_then with (φ := λ _, True); [by apply yields_peek|].
  intros [r|] _; [|by apply yields_ret].
  eapply yields_then with (φ := λ _, True); [eapply logged_answers, schedule_yields|]. intros ? _. eapply logged_answers, evidence_yields.
Qed.

(** ** The theorems *)
(** [C15.] A scheduling pass never crashes and leaves the store in order, with the journal it
    found continued; and what it answers is true of the daemon when it answers: a worker
    it names owns the attempt and serves it, a wake it calls blocked is blocked, one it
    calls delivered to the mailbox is recorded so, and where no wake is needed there is
    none to wait for. *)
Theorem scheduling_answers_are_true recipient k h :
  sound h →
  let '(_, h', a) := schedule_recipient others spawned_finished envs error_text fresh recipient k h in
  sound h' ∧ a ≠ Crashed ∧ a ≠ Drawing ∧ ∀ o, a = Answered o → truthful recipient o h'.
Proof.
  intros Hs. pose proof (schedule_yields (λ _, True) recipient k h Hs I) as H.
  destruct (schedule_recipient _ _ _ _ _ _ _ _) as [[k' h'] a]. destruct H as [H1 H2]. split; [done|]. destruct a; try done.
  split_and!; try done. by intros ? [= <-].
Qed.

Lemma reopened_gating recipient o ready n h : reopened_on recipient o ready n h → nr_state n = Gating.
Proof.
  intros (j & svc & rows & Hok & E). pose proof (store_ok_wf _ _ _ (vk_store _ _ _ Hok)) as Hwf. revert E. unfold service_reopen_oldest.
  destruct (is_admin recipient) eqn:Had; [done|]. intros H%under_store_Done. revert H.
  unfold reopen_oldest_notification_after_route_evidence. rewrite Had. cbn zeta.
  destruct (first_actionable_pending_message_id _ recipient) as [id|] eqn:Ef; [|done].
  destruct (notification _ recipient id) as [c|] eqn:En; [|done]. destruct (_ || _); [done|].
  pose proof (actionable_pending_valid _ _ _ Hwf Ef) as Hid.
  destruct (advance_notification _ _ _ _ _ _ _ _) as [s1 [m|e|]] eqn:Eq; intros [= _ <-].
  by destruct (advance_appended _ _ _ _ _ _ _ _ _ _ _ (vk_store _ _ _ Hok) (envs_bounded j) Hid En Eq) as (_ & _ & <- & _).
Qed.
(** ** What a pass read *)
(** The daemon as section [j] of a pass finds it, as long as the sections since [k] only read. *)
Fixpoint after_others (n k : nat) h : Host := match n with O => h | S n => after_others n (S k) (others k h) end.
Definition at_section (k : nat) h (j : nat) : Host := after_others (S (j - k)) k h.
Lemma at_section_first k h : at_section k h k = others k h.
Proof. unfold at_section. by rewrite Nat.sub_diag. Qed.
Lemma at_section_next k h j : (k < j)%nat → at_section k h j = at_section (S k) (others k h) j.
Proof. intros Hj. unfold at_section. replace (j - k)%nat with (S (j - S k)) by lia. done. Qed.

Section reads.
Context (at_ : nat → Host).
(** From [k] and [h] on the daemon is as [at_] says. *)
Definition tracks (k : nat) h : Prop := ∀ j, (k ≤ j)%nat → at_ j = at_section k h j.
(** A pass that only reads, and what it answers. *)
Definition reads {A} (m : Pass A) (k : nat) (Q : nat → A → Prop) : Prop :=
  ∀ h, tracks k h → ∃ k' h' a, m k h = (k', h', Answered a) ∧ (k ≤ k')%nat ∧ tracks k' h' ∧ Q k' a.
Lemma reads_ret {A} k (a : A) (Q : nat → A → Prop) : Q k a → reads (mret a) k Q.
Proof. intros HQ h Ht. by exists k, h, a. Qed.
Lemma reads_bind {A B} (m : Pass A) (f : A → Pass B) k (P : nat → A → Prop) Q :
  reads m k P → (∀ k' a, (k ≤ k')%nat → P k' a → reads (f a) k' Q) → reads (m ≫= f) k Q.
Proof.
  intros Hm Hf h Ht. destruct (Hm h Ht) as (k1 & h1 & a & E & Hk & Ht1 & Ha).
  destruct (Hf k1 a Hk Ha h1 Ht1) as (k2 & h2 & b & E2 & Hk2 & Ht2 & Hb). exists k2, h2, b.
  split_and!; [|lia|done|done]. unfold mbind, pass_bind. by rewrite E.
Qed.
Lemma reads_peek {A} (f : nat → Host → A) k : reads (peek others f) k (λ k' a, k' = S k ∧ a = f k (at_ k)).
Proof.
  intros h Ht. exists (S k), (others k h), (f k (others k h)). split_and!; [done|lia| |done|].
  - intros j Hj. rewrite Ht by lia. apply at_section_next. lia.
  - by rewrite (Ht k), at_section_first by lia.
Qed.
Lemma reads_any {A} (m : Pass A) k (P Q : nat → A → Prop) : reads m k P → (∀ k' a, P k' a → Q k' a) → reads m k Q.
Proof. intros Hm HPQ h Ht. destruct (Hm h Ht) as (k1 & h1 & a & E & Hk & Ht1 & Ha). exists k1, h1, a. auto. Qed.
Lemma reads_run {A B} (m : Pass A) (f : A → Pass B) k h P r : reads m k P → tracks k h → (m ≫= f) k h = r →
  ∃ k' h' a, (k ≤ k')%nat ∧ tracks k' h' ∧ P k' a ∧ f a k' h' = r.
Proof.
  intros Hm Ht. destruct (Hm h Ht) as (k1 & h1 & a & E & Hk & Ht1 & Ha). unfold mbind, pass_bind. rewrite E. intros Hr.
  by exists k1, h1, a.
Qed.

(** A route is a pane of the recipient's session that an attached watcher has in its table. *)
Definition route_at (recipient : RecipientKey) (j : nat) (r : NotificationRoute) : Prop :=
  ∃ idx session pane watcher, recipient_session_instance_id recipient = Some session ∧ recipient_pane_id recipient = Some pane ∧
    route_pane r = (N.of_nat idx, pane_display pane) ∧
    attached_watcher (at_ j) idx session = Some watcher ∧ watched_pane (at_ (S j)) watcher (pane_display pane) = Some (nt_row r).
(** The binding of the route's pane, read in four sections from [i] on: its root process is the
    one the recipient was adopted with, and the agent there was admitted under the manifest
    that is chosen for the pane. *)
Definition proven_at (recipient : RecipientKey) (evidence : NotificationRouteEvidenceId) (i : nat) (r : NotificationRoute)
    (o : NotificationPreWriteObservation) : Prop :=
  ∃ p root binding, proc_of i (tr_pane_pid (nt_row r)) = Some p ∧ process_instance_id p = Some root ∧
    adopted_root (at_ (i + 1)) recipient = Some root ∧
    admitted_binding (i + 2) (at_ (i + 2)) (nt_session_idx r) (nt_row r) = Some binding ∧
    bind_manifest_for (i + 3) (at_ (i + 3)) (nt_session_idx r) (nt_row r) = Some (fb_manifest binding) ∧
    binding_observation recipient root binding (fb_manifest binding) (tr_width (nt_row r)) evidence = Some o.
(** The cached verdict of the route's pane allows a write to the very binding of [o]. *)
Definition ready_at (j : nat) (r : NotificationRoute) (o : NotificationPreWriteObservation) : bool :=
  match expected_binding o, cached_observation (at_ j) (route_pane r) with
  | Some expected, Some seen => write_ready_for seen (tr_in_mode (nt_row r)) expected
  | _, _ => false
  end.
Lemma route_reads recipient k :
  reads (notification_route others recipient) k (λ k' o, ∀ r, o = Some r → ∃ j, (k ≤ j < k')%nat ∧ route_at recipient j r).
Proof.
  unfold notification_route. destruct (recipient_session_instance_id recipient) as [session|] eqn:Es; [|by apply reads_ret].
  destruct (recipient_pane_id recipient) as [pane|] eqn:Ep; [|by apply reads_ret].
  eapply reads_bind; [apply reads_peek|]. intros k0 slots Hk _.
  assert (∀ k1 matched, (k ≤ k1)%nat → (∀ r, matched = Some r → ∃ j, (k ≤ j < k1)%nat ∧ route_at recipient j r) →
    reads (route_over others slots recipient session (pane_display pane) matched) k1
      (λ k' o, ∀ r, o = Some r → ∃ j, (k ≤ j < k')%nat ∧ route_at recipient j r)) as H; [|by apply H].
  clear k0 Hk. induction slots as [|idx slots IH]; intros k1 matched Hk Hm; cbn [route_over]; [by apply reads_ret|].
  assert (∀ k2, (k1 ≤ k2)%nat → ∀ r, matched = Some r → ∃ j, (k ≤ j < k2)%nat ∧ route_at recipient j r) as Hm'
    by (intros k2 Hk2 r Hr; destruct (Hm r Hr) as (j & ? & ?); exists j; split; [lia|done]).
  eapply reads_bind; [apply reads_peek|]. intros k2 [watcher|] H2 [-> Hw]; [|apply IH; [lia|auto with lia]].
  eapply reads_bind; [apply reads_peek|]. intros k3 [row|] H3 [-> Hrow]; [|apply IH; [lia|auto with lia]].
  eapply reads_bind; [apply reads_peek|]. intros k4 label H4 [-> _].
  destruct matched as [m|]; [by apply reads_ret|]. apply IH; [lia|]. intros r [= <-]. exists k1. split; [lia|].
  exists idx, session, pane, watcher. by split_and!.
Qed.
Lemma proven_reads recipient route evidence k :
  reads (proven_binding_observation others proc_of admitted_binding bind_manifest_for recipient route evidence) k
    (λ k' o, ∀ x, o = Some x → k' = (k + 4)%nat ∧ proven_at recipient evidence k route x).
Proof.
  unfold proven_binding_observation. eapply reads_bind; [apply reads_peek|]. intros k1 [root|] _ [-> Hroot]; [|by apply reads_ret].
  eapply reads_bind; [apply reads_peek|]. intros k2 adopted _ [-> Hadopted].
  destruct (bool_decide (adopted = Some root)) eqn:Ea; cbn [negb]; [|by apply reads_ret]. apply bool_decide_eq_true in Ea.
  eapply reads_bind; [apply reads_peek|]. intros k3 [binding|] _ [-> Hb]; [|by apply reads_ret].
  eapply reads_bind; [apply reads_peek|]. intros k4 [selected|] _ [-> Hs]; [|by apply reads_ret].
  destruct (bool_decide (fb_manifest binding = selected)) eqn:Em; cbn [negb]; [|by apply reads_ret]. apply bool_decide_eq_true in Em as <-.
  apply reads_ret. intros x Hx. split; [lia|]. symmetry in Hroot. apply bind_Some in Hroot as (p & Hp & Hpi). exists p, root, binding.
  rewrite (Nat.add_1_r k), (Nat.add_comm k 2), (Nat.add_comm k 3). cbn [Nat.add]. split_and!; try done. by rewrite <- Ea.
Qed.
Lemma ready_reads route o k :
  reads (route_is_write_ready others route o) k (λ k' b, (k' ≤ S k)%nat ∧ b = ready_at k route o).
Proof.
  unfold route_is_write_ready, ready_at. destruct (expected_binding o) as [expected|]; [|by apply reads_ret; split; [lia|]].
  eapply reads_any; [apply reads_peek|]. intros k' b [-> ->]. split; [lia|done].
Qed.
End reads.

(** [C20.] A blocked wake is handed back to the engine only on evidence read twice.  With [at_ j]
    the daemon as section [j] of the pass found it, the route was twice a pane of the
    recipient's own session that an attached watcher had in its table, under the same slot
    and pane; each time the pane's root process was the one the recipient was adopted with,
    its agent was admitted under the manifest chosen for it, and what that amounts to is
    one and the same observation; before the first and after the second time the route's
    generation was the one the pass was started for, and the verdict on writing to
    that binding was the same.  On this observation and no other the store reopened the
    wake, in the last section, and it is gating again. *)
Theorem wakes_reopen_on_proven_evidence recipient evidence k h :
  sound h →
  let at_ := at_section k h in
  let '(k', h', a) := prepare_recipient_after_route_evidence others proc_of admitted_binding bind_manifest_for boot_id envs recipient
    evidence k h in
  sound h' ∧ ∀ route n, a = Answered (Some (route, n)) →
    nr_state n = Gating ∧
    ∃ o ready again j1 g1 i1 j2 i2 g2, (k ≤ j1 < g1 ∧ g1 < i1 ∧ i1 + 3 < j2 ∧ j2 < i2 ∧ i2 + 3 < g2 ∧ g2 < k' - 1)%nat ∧
      route_at at_ recipient j1 route ∧ route_evidence_id boot_id (at_ g1) (route_pane route) = evidence ∧
      proven_at at_ recipient evidence i1 route o ∧ ready_at at_ (i1 + 4)%nat route o = ready ∧
      route_at at_ recipient j2 again ∧ route_pane again = route_pane route ∧
      proven_at at_ recipient evidence i2 again o ∧ route_evidence_id boot_id (at_ g2) (route_pane route) = evidence ∧
      ready_at at_ (g2 + 1)%nat again o = ready ∧
      service_reopen_oldest (ho_service (at_ (k' - 1)%nat)) (envs (k' - 1)%nat) recipient o ready = (ho_service h', Answered (Some n)).
Proof.
  intros Hs at_. pose proof (evidence_prepare_yields (λ _, True) recipient evidence k h Hs I) as H.
  destruct (prepare_recipient_after_route_evidence _ _ _ _ _ _ _ _ _ _) as [[k' h'] a] eqn:E. destruct H as [H1 H2]. split; [done|].
  intros route n ->. destruct (H2 _ _ eq_refl) as (o0 & ready0 & Hr0). split; [by eapply reopened_gating|]. clear H2 Hr0 o0 ready0.
  assert (tracks at_ k h) as Ht by done. clearbody at_. unfold prepare_recipient_after_route_evidence in E.
  destruct (reads_run _ _ _ _ _ _ _ (route_reads _ _ _) Ht E) as (k1 & h1 & r1 & Hk1 & Ht1 & Hroute & E'); clear E; rename E' into E.
  destruct r1 as [r1|]; [|done]. destruct (Hroute _ eq_refl) as (j1 & Hj1 & Hr1). clear Hroute.
  destruct (reads_run _ _ _ _ _ _ _ (reads_peek _ _ _) Ht1 E) as (k2 & h2 & current & _ & Ht2 & [-> ->] & E'); clear E; rename E' into E.
  destruct (bool_decide (_ = evidence)) eqn:Eg in E; cbn [negb] in E; [|done]. apply bool_decide_eq_true in Eg.
  destruct (reads_run _ _ _ _ _ _ _ (proven_reads _ _ _ _ _) Ht2 E) as (k3 & h3 & x & _ & Ht3 & Hx & E'); clear E; rename E' into E.
  destruct x as [o|]; [|done]. destruct (Hx _ eq_refl) as [-> Ho1]. clear Hx.
  destruct (reads_run _ _ _ _ _ _ _ (ready_reads _ _ _ _) Ht3 E) as (k4 & h4 & ready & Hk4 & Ht4 & [Hk4' Hready] & E'); clear E; rename E' into E.
  destruct (reads_run _ _ _ _ _ _ _ (route_reads _ _ _) Ht4 E) as (k5 & h5 & r2 & Hk5 & Ht5 & Hroute & E'); clear E; rename E' into E.
  destruct r2 as [r2|]; [|done]. destruct (Hroute _ eq_refl) as (j2 & Hj2 & Hr2). clear Hroute.
  destruct (bool_decide (route_pane r2 = _)) eqn:Ep in E; cbn [negb] in E; [|done]. apply bool_decide_eq_true in Ep.
  destruct (reads_run _ _ _ _ _ _ _ (proven_reads _ _ _ _ _) Ht5 E) as (k6 & h6 & x & _ & Ht6 & Hx & E'); clear E; rename E' into E.
  destruct x as [o2|]; [|done]. destruct (Hx _ eq_refl) as [-> Ho2]. clear Hx.
  destruct (bool_decide (o2 = o)) eqn:Eo in E; cbn [negb] in E; [|done]. apply bool_decide_eq_true in Eo as ->.
  destruct (reads_run _ _ _ _ _ _ _ (reads_peek _ _ _) Ht6 E) as (k7 & h7 & again & _ & Ht7 & [-> ->] & E'); clear E; rename E' into E.
  destruct (bool_decide (_ = evidence)) eqn:Eg2 in E; cbn [negb] in E; [|done]. apply bool_decide_eq_true in Eg2.
  destruct (reads_run _ _ _ _ _ _ _ (ready_reads _ _ _ _) Ht7 E) as (k8 & h8 & ready2 & Hk8 & Ht8 & [_ Hready2] & E'); clear E; rename E' into E.
  destruct (eqb ready2 ready) eqn:Er; cbn [negb] in E; [|done]. apply eqb_prop in Er. subst ready2.
  unfold mbind, pass_bind, on_service, section in E.
  destruct (service_reopen_oldest (ho_service (others k8 h8)) (envs k8) recipient o ready) as [svc y] eqn:Es.
  destruct y as [[m|]|e| |]; try done. injection E as <- <- <- <-.
  exists o, ready, r2, j1, k1, (S k1), j2, k5, (k5 + 4)%nat. replace (S k8 - 1)%nat with k8 by lia.
  split_and!; try done; try lia.
  - by rewrite Nat.add_1_r.
  - rewrite (Ht8 k8), at_section_first by lia. exact Es.
Qed.

(** A route change always runs to its end: whatever others do meanwhile and whatever
    scheduling refuses, the pass is answered and the store is in order. *)
Theorem route_reconciliation_always_ends recipient pane k h :
  sound h →
  ∃ k' h', schedule_route_reconciliation others proc_of admitted_binding bind_manifest_for boot_id spawned_finished envs error_text fresh
    recipient pane k h = (k', h', Answered ()) ∧ sound h'.
Proof.
  intros Hs. assert (answers (λ _, True) (schedule_route_reconciliation others proc_of admitted_binding bind_manifest_for boot_id
    spawned_finished envs error_text fresh recipient pane) (λ _ _, True)) as H.
  { unfold schedule_route_reconciliation. eapply yields_then with (φ := λ _, True); [by apply yields_peek|].
    intros evidence _. apply reconciliation_answers. }
  specialize (H k h Hs I). destruct (schedule_route_reconciliation _ _ _ _ _ _ _ _ _ _ _ _ _) as [[k' h'] a]. destruct H as [H1 H2].
  destruct a as [[]| | |]; try done. by eauto.
Qed.
End props.

(** ** Claims *)
Section claims.
Context {V : Type} {serde : Serde V} {codec : LineCodec V} {uuids : Uuids} {digests : Digests}.
Abbreviation Host := (Host (V:=V)).
Implicit Types (h : Host).
Definition state_at h (ref : N) : option DeliveryState := handle_state <$> handle_at h ref.

(** A pass keeps [I] when each of its sections and everybody else do. *)
Section keeps.
Context (others : nat → Host → Host) (I : Host → Prop).
Hypothesis others_keep : ∀ k h, I h → I (others k h).
Definition keeps {A} (m : Pass A) : Prop := ∀ k h, I h → I (m k h).1.2.
Lemma keeps_ret {A} (a : A) : keeps (mret a).
Proof. by intros k h. Qed.
Lemma keeps_bind {A B} (m : Pass A) (f : A → Pass B) : keeps m → (∀ a, keeps (f a)) → keeps (m ≫= f).
Proof.
  intros Hm Hf k h H. specialize (Hm k h H). unfold mbind, pass_bind. destruct (m k h) as [[k' h'] [a|e| |]]; try done. by apply Hf.
Qed.
Lemma keeps_section {A} (f : nat → Host → Host * svc_answer A) : (∀ k h, I h → I (f k h).1) → keeps (section others f).
Proof.
  intros Hf k h H. unfold section. apply (others_keep k) in H. specialize (Hf k _ H). by destruct (f k (others k h)).
Qed.
Lemma keeps_peek {A} (f : nat → Host → A) : keeps (peek others f).
Proof. by apply keeps_section. Qed.
Lemma keeps_change f : (∀ h, I h → I (f h)) → keeps (change others f).
Proof. intros Hf. apply keeps_section. intros k h H. by apply Hf. Qed.
End keeps.
(** The two things a claim does to the daemon: it settles a submitted delivery, and it
    asks for a wake or clears a hold. *)
Lemma claim_keeps (others : nat → Host → Host) (I : Host → Prop) now attempt :
  (∀ k h, I h → I (others k h)) →
  (∀ h s, I h → I (signal h s)) → (∀ h panes, I h → I (put_panes h panes)) →
  (∀ k h ref x, I h → handle_at h ref = Some x →
     I (put_engine h (put (ho_engine h) ref (advance x [DSubmitted] mailbox_claim_step (now k)).1.1) (ho_runs h))) →
  keeps I (settle_notification_claim others now attempt).
Proof.
  intros Ho Hsig Hp Hadv. unfold settle_notification_claim. apply keeps_bind; [by apply keeps_peek|]. intros [ref|]; [|by apply keeps_ret].
  apply keeps_bind; [by apply keeps_peek|]. intros transport. destruct (negb _); [by apply keeps_ret|].
  apply keeps_bind.
  { apply keeps_section; [done|]. intros k h H. destruct (handle_at h ref) as [x|] eqn:E; [|done]. specialize (Hadv k h ref x H E).
    by destruct (advance x _ _ _) as [[x' moved] effect]. }
  intros settled. apply keeps_bind; [by apply keeps_peek|]. intros state. destruct (_ || _).
  - apply keeps_bind; [apply keeps_change; [done|]; intros h H; destruct (handle_at h ref); [by apply Hp|done]|]. intros _.
    apply keeps_bind; [apply keeps_change; [done|]; intros h H; by apply Hsig|]. intros _. by apply keeps_ret.
  - apply keeps_bind; [by apply keeps_peek|]. intros [|]; [|by apply keeps_ret].
    apply keeps_bind; [apply keeps_change; [done|]; intros h H; by apply Hsig|]. intros _. by apply keeps_ret.
Qed.
Lemma advanced_state x from step now :
  handle_state (advance x from step now).1.1 = if bool_decide (handle_state x ∈ from) then sp_next step else handle_state x.
Proof. unfold advance, handle_state. by destruct (bool_decide (hs_state _ ∈ from)). Qed.
Lemma state_after_claim h k (now : nat → N) ref x ref' :
  handle_at h ref = Some x →
  state_at (put_engine h (put (ho_engine h) ref (advance x [DSubmitted] mailbox_claim_step (now k)).1.1) (ho_runs h)) ref' =
    if decide (ref' = ref) then Some (if bool_decide (handle_state x ∈ [DSubmitted]) then DDeliveredUnverified else handle_state x)
    else state_at h ref'.
Proof.
  intros Hx. unfold state_at, handle_at in *. cbn [ho_engine put_engine put en_handles].
  destruct (decide (ref' = ref)) as [->|Hne]; [|by rewrite lookup_insert_ne].
  rewrite lookup_insert_eq. cbn [fmap option_fmap option_map]. by rewrite advanced_state.
Qed.

(** Nobody but a receipt verifies a delivery: a claim settles its run as delivered
    without proof, so what is verified after the pass was verified by others. *)
Theorem claim_never_verifies (others : nat → Host → Host) now attempt ref :
  (∀ k h, state_at (others k h) ref = Some DDeliveredVerified → state_at h ref = Some DDeliveredVerified) →
  ∀ k h, state_at (settle_notification_claim others now attempt k h).1.2 ref = Some DDeliveredVerified →
         state_at h ref = Some DDeliveredVerified.
Proof.
  intros Ho k h H. destruct (decide (state_at h ref = Some DDeliveredVerified)) as [|Hn]; [done|]. exfalso.
  refine (claim_keeps others (λ h, state_at h ref ≠ Some DDeliveredVerified) now attempt _ _ _ _ k h Hn H); try done.
  - intros k' h' Hh Hv. by apply Hh, (Ho k').
  - intros k' h' ref' x Hh Hx. rewrite state_after_claim by done. destruct (decide (ref = ref')) as [<-|]; [|done].
    destruct (bool_decide _); [done|]. unfold state_at in Hh. by rewrite Hx in Hh.
Qed.

(** Without interference: which deliveries a claim settles, and how. *)
Definition alone : nat → Host → Host := λ _ h, h.
Definition claimable (st : DeliveryState) : bool :=
  match st with DSubmitted | DDeliveredVerified | DDeliveredUnverified | DStaged => true | _ => false end.
Lemma put_same h ref x : handle_at h ref = Some x → put_engine h (put (ho_engine h) ref x) (ho_runs h) = h.
Proof. destruct h as [? ? ? ? ? ? [handles acks] ? ? ? ? ?]. unfold handle_at, put_engine, put. cbn. intros Hx. by rewrite insert_id. Qed.
Lemma advance_stays x from step now : handle_state x ∉ from → advance x from step now = (x, false, None).
Proof. intros H. unfold advance, handle_state in *. by rewrite bool_decide_eq_false_2. Qed.
Lemma advance_moves x from step now :
  handle_state x ∈ from →
  (advance x from step now).1.2 = true ∧ handle_state (advance x from step now).1.1 = sp_next step ∧
  handle_pane (advance x from step now).1.1 = handle_pane x.
Proof. intros H. unfold advance, handle_state in *. by rewrite (bool_decide_eq_true_2 (hs_state _ ∈ _)). Qed.
Definition acknowledged h (ref : N) (x : DeliveryHandle) (attempt : NotificationAttemptId) : Host :=
  signal (put_panes h (clear_hold_owner (ho_panes h) (handle_pane x) (attempt_display attempt)).1) (SigAck ref).
Ltac decide_state :=
  match goal with |- context [bool_decide (?a = ?b)] =>
    first [rewrite (bool_decide_eq_true_2 (a = b)) by done | rewrite (bool_decide_eq_false_2 (a = b)) by done]
  end.
Lemma claim_alone now attempt k h ref x :
  live_handle h attempt = Some ref → handle_at h ref = Some x → dh_transport x = Some Doorbell →
  ∃ k', settle_notification_claim alone now attempt k h =
    match handle_state x with
    | DSubmitted =>
        let x' := (advance x [DSubmitted] mailbox_claim_step (now (S (S k)))).1.1 in
        (k', acknowledged (put_engine h (put (ho_engine h) ref x') (ho_runs h)) ref x attempt, Answered true)
    | DDeliveredVerified | DDeliveredUnverified => (k', acknowledged h ref x attempt, Answered true)
    | DStaged => (k', signal h (SigCancel ref), Answered true)
    | _ => (k', h, Answered false)
    end.
Proof.
  intros Hr Hx Ht. unfold settle_notification_claim, peek, change, section, mbind, pass_bind, mret, pass_ret, alone. rewrite Hr, Hx. cbn.
  rewrite Ht, bool_decide_eq_true_2 by done. cbn [negb]. rewrite Hx.
  destruct (decide (handle_state x = DSubmitted)) as [E|E].
  - destruct (advance_moves x [DSubmitted] mailbox_claim_step (now (S (S k)))) as (H1 & H2 & H3); [by rewrite E; left|]. rewrite E.
    destruct (advance _ _ _ _) as [[x' moved] effect]. cbn in H1, H2, H3. subst moved. unfold handle_at. cbn. rewrite lookup_insert_eq. cbn.
    rewrite H3. by eexists.
  - rewrite advance_stays by by intros ?%list_elem_of_singleton. rewrite put_same, Hx by done. cbn [fst snd orb fmap option_fmap option_map].
    destruct (handle_state x) eqn:Es; try done; repeat decide_state; cbn [orb]; cbv beta; rewrite ?Hx; cbn [fmap option_fmap option_map];
      rewrite ?Es; repeat decide_state; by eexists.
Qed.
Lemma hold_after_clear w pane owner e :
  pn_detections (clear_hold_owner w pane owner).1 !! pane = Some e → owned_by e owner = false.
Proof.
  unfold clear_hold_owner. destruct (pn_detections w !! pane) as [d|] eqn:Ed; [|cbn; by rewrite Ed].
  destruct (owned_by d owner) eqn:Eo; cbn; [rewrite lookup_insert_eq|rewrite Ed]; by intros [= <-].
Qed.
Lemma other_hold_stays w pane owner e :
  pn_detections w !! pane = Some e → owned_by e owner = false → clear_hold_owner w pane owner = (w, false).
Proof. intros He Ho. unfold clear_hold_owner. by rewrite He, Ho. Qed.

(** [C19.] A claim of an attempt whose doorbell is under way is settled by the state of the
    delivery: one that was submitted is now delivered without proof, one that was already
    delivered stays as it is, and both let go of the composer and wake the receipt's
    waiter; a staged one is left to its worker, which is woken; any other is untouched
    and not settled.  Another run, another owner's hold and the store never change. *)
Theorem claim_settles_its_delivery now attempt k h ref x :
  live_handle h attempt = Some ref → handle_at h ref = Some x → dh_transport x = Some Doorbell →
  let '(_, h', a) := settle_notification_claim alone now attempt k h in
  a = Answered (claimable (handle_state x)) ∧
  ho_service h' = ho_service h ∧ ho_workers h' = ho_workers h ∧
  (∀ ref', state_at h' ref' = if bool_decide (ref' = ref ∧ handle_state x = DSubmitted) then Some DDeliveredUnverified
                              else state_at h ref') ∧
  (handle_state x ∈ [DSubmitted; DDeliveredVerified; DDeliveredUnverified] →
    ho_signals h' = ho_signals h ++ [SigAck ref] ∧
    ∀ e, pn_detections (ho_panes h') !! handle_pane x = Some e → owned_by e (attempt_display attempt) = false) ∧
  (handle_state x = DStaged → ho_signals h' = ho_signals h ++ [SigCancel ref] ∧ ho_panes h' = ho_panes h) ∧
  (claimable (handle_state x) = false → h' = h) ∧
  (∀ e, pn_detections (ho_panes h) !! handle_pane x = Some e → owned_by e (attempt_display attempt) = false → ho_panes h' = ho_panes h).
Proof.
  intros Hr Hx Ht. destruct (claim_alone now attempt k h ref x Hr Hx Ht) as [k' ->].
  assert (∀ e, pn_detections (ho_panes h) !! handle_pane x = Some e → owned_by e (attempt_display attempt) = false →
    (clear_hold_owner (ho_panes h) (handle_pane x) (attempt_display attempt)).1 = ho_panes h) as Hstay.
  { intros e He Ho. by rewrite (other_hold_stays _ _ _ e). }
  assert (∀ h0, (∀ ref', state_at h0 ref' = state_at h ref') → handle_state x ≠ DSubmitted → ∀ ref', state_at h0 ref' =
    if bool_decide (ref' = ref ∧ handle_state x = DSubmitted) then Some DDeliveredUnverified else state_at h ref') as Hsame.
  { intros h0 H Hne ref'. by rewrite bool_decide_eq_false_2 by naive_solver. }
  assert (∀ h0, ho_panes h0 = ho_panes h → ho_signals h0 = ho_signals h →
    ho_signals (acknowledged h0 ref x attempt) = ho_signals h ++ [SigAck ref] ∧
    ∀ e, pn_detections (ho_panes (acknowledged h0 ref x attempt)) !! handle_pane x = Some e → owned_by e (attempt_display attempt) = false)
    as Hack.
  { intros h0 _ Hsig. split; [cbn; by rewrite Hsig|]. intros e. apply hold_after_clear. }
  assert (∀ st, st ∈ [DSubmitted; DDeliveredVerified; DDeliveredUnverified] → st = DSubmitted ∨ st = DDeliveredVerified ∨ st = DDeliveredUnverified)
    as Hin by (intros st; rewrite !elem_of_cons, elem_of_nil; tauto).
  specialize (Hin (handle_state x)).
  destruct (handle_state x) eqn:Es; cbn zeta;
    (split; [reflexivity|]; split; [reflexivity|]; split; [reflexivity|]; split; [|split; [|split; [|split; [|]]]]).
  all: try (intros H; discriminate H).
  all: try (intros; reflexivity).
  all: try (intros H; specialize (Hin H); exfalso; clear -Hin; naive_solver).
  all: try (intros _; apply Hack; reflexivity).
  all: try (intros _; split; reflexivity).
  all: try exact Hstay.
  all: try (apply Hsame; [intros; reflexivity|discriminate]).
  intros ref'. unfold acknowledged, state_at, signal, put_panes, handle_at. cbn.
  destruct (decide (ref' = ref)) as [->|Hne].
  - rewrite lookup_insert_eq, bool_decide_eq_true_2 by done. cbn [fmap option_fmap option_map].
    rewrite advanced_state, bool_decide_eq_true_2; [done|]. rewrite Es. by left.
  - rewrite lookup_insert_ne by done. by rewrite bool_decide_eq_false_2 by naive_solver.
Qed.

(** ** Runs *)
Lemma next_ref_fresh h : handle_at h (next_ref h) = None ∧ next_ref h ∉ ho_dropped h.
Proof.
  pose proof (is_fresh (dom (en_handles (ho_engine h)) ∪ ho_dropped h)) as H. fold (next_ref h) in H.
  apply not_elem_of_union in H as [H1 H2]. split; [|done]. by apply not_elem_of_dom.
Qed.
Lemma live_handle_spec h attempt ref : live_handle h attempt = Some ref ↔ ho_runs h !! attempt = Some ref ∧ ref ∉ ho_dropped h.
Proof. unfold live_handle, live_runs. by rewrite map_lookup_filter_Some. Qed.
Lemma live_handle_filtered h e attempt : live_handle (put_engine h e (live_runs h)) attempt = live_handle h attempt.
Proof. unfold live_handle, live_runs. cbn. rewrite map_filter_filter_l; [done|]. by intros i x. Qed.
(** An attempt runs at most once: where its run is alive no handle is made and no job is
    queued, and the answer is whether its worker has it; otherwise one fresh handle is
    made, queued, that replaces no other handle and takes no other attempt's place, and
    if the worker refuses it nothing of the attempt is left running. *)
Theorem an_attempt_runs_once spawned route cx k h :
  let '(_, h', a) := enqueue_notification_attempt alone spawned route cx false k h in
  let attempt := nc_attempt_id cx in
  (∀ other, other ≠ attempt → live_handle h' other = live_handle h other) ∧
  match live_handle h attempt with
  | Some _ => ho_engine h' = ho_engine h ∧ ho_workers h' = ho_workers h ∧ live_handle h' attempt = live_handle h attempt ∧
              a = Answered (worker_refusal h (nc_recipient cx) attempt)
  | None =>
      handle_at h (next_ref h) = None ∧
      (∀ ref, ref ≠ next_ref h → handle_at h' ref = handle_at h ref) ∧
      ∃ refusal, a = Answered refusal ∧
        match refusal with
        | None => live_handle h' attempt = Some (next_ref h) ∧ state_at h' (next_ref h) = Some DQueued
        | Some _ => live_handle h' attempt = None
        end
  end.
Proof.
  unfold enqueue_notification_attempt, peek, change, section, mbind, pass_bind, mret, pass_ret, alone, find_or_make_run.
  fold (live_handle h (nc_attempt_id cx)). destruct (live_handle h (nc_attempt_id cx)) as [ref|] eqn:Hl; cbn zeta.
  - split; [intros other _; apply live_handle_filtered|]. split_and!; try done. by rewrite live_handle_filtered.
  - destruct (next_ref_fresh h) as [Hf Hd]. cbn. destruct (enqueue_notification_worker _ _ _ _ _) as [workers refusal]. cbn.
    assert (∀ other, other ≠ nc_attempt_id cx → live_runs h !! other = live_handle h other) as Hother by done.
    destruct refusal as [refusal|].
    + unfold retire_notification_run. cbn [ho_runs put_engine set_workers]. rewrite lookup_insert_eq, bool_decide_eq_true_2 by done. cbn. split_and!; [|done| |eexists; split; [done|]].
      * intros other Hne. unfold live_handle, live_runs. cbn. rewrite map_filter_delete, map_filter_insert_True, map_filter_filter_l by done.
        by rewrite lookup_delete_ne, lookup_insert_ne.
      * intros ref Hne. unfold handle_at. cbn. by rewrite lookup_insert_ne.
      * unfold live_handle, live_runs. cbn. by rewrite map_filter_delete, lookup_delete_eq.
    + split_and!; [|done| |eexists; split; [done|]; split].
      * intros other Hne. unfold live_handle, live_runs. cbn. rewrite map_filter_insert_True, map_filter_filter_l by done.
        by rewrite lookup_insert_ne.
      * intros ref Hne. unfold handle_at. cbn. by rewrite lookup_insert_ne.
      * apply live_handle_spec. cbn. by rewrite lookup_insert_eq.
      * unfold state_at, handle_at. cbn. by rewrite lookup_insert_eq.
Qed.
End claims.
