(* ===== verification/Messaging.v ===== *)
(** * Workspace messaging

    [src/cyclopsd/src/messaging.rs]: what follows a durable mailbox operation.  A send or
    a reply is accepted first and scheduled after; its receipts are read back from the
    store once the first dispositions are there or a deadline is reached.  A claim, a
    requeue or a withdrawal is followed by its wake work.

    Passes are those of [Scheduling.v].  [events] is what the receiver of changes gets
    before the deadline or before it closes, [late k] whether the deadline had passed at
    section [k]; a map or set the code iterates in no order is walked in the order
    [hash_order]. *)
From S2P Require Import Prelude Text Identity Ledger Journal Mailbox Notification Facts Projection Store Views Doorbell.
From S2P Require Import Scheduler Directory Service Registry AttentionRegister Detection NotificationAdapter DeliveryGate TurnKeys Receipt.
From S2P Require Import DeliveryAttempt HookAck Worker Composer Watcher Scheduling.
Local Open Scope N_scope.

(** ** Requests and answers *)
Record MsgSendParams := MkSendParams {
  mp_to : list rstr;
  mp_recipient_keys : option (list RecipientKey);
  mp_subject : rstr;
  mp_summary : option rstr;
  mp_body : rstr;
  mp_fyi : bool;
  mp_client_key : option rstr;
  mp_reply_to : option rstr;
  mp_supersedes : option MessageId;
  mp_require_wake : bool;
  mp_raw : bool;
}.
Record DeliveryReceipt := MkDeliveryReceipt {
  rc_to : rstr;
  rc_state : DeliveryState;
  rc_notification_state : option MessageNotificationState;
  rc_quota_state : option MessageQuotaState;
  rc_notification_settlement : option MessageNotificationSettlement;
  rc_pre_write_cause : option NotificationPreWriteCause;
  rc_wake_block : option MessageWakeBlock;
  rc_position : option N;
  rc_held_by : option rstr;
  rc_note : option rstr;
  rc_pane : option rstr;
}.
Record MsgSendResult := MkSendResult {
  sr_msg_id : rstr;
  sr_seq : N;
  sr_deliveries : list DeliveryReceipt;
  sr_inserted : option bool;
  sr_thread_root : option MessageId;
}.
Inductive ClaimDisposition := DispClaimed | DispAlreadyClaimed.
Record InboxClaimResult := MkClaimResult {
  ic_disposition : ClaimDisposition;
  ic_message : InboxMessage;
  ic_skipped_oldest : option MessageId;
}.
Inductive NotificationWithdrawDisposition := DispWithdrawn | DispAlreadyWithdrawn.
Record NotificationWithdrawResult := MkWithdrawResult {
  wr_attempt_id : NotificationAttemptId;
  wr_message_id : MessageId;
  wr_recipient : RecipientKey;
  wr_disposition : NotificationWithdrawDisposition;
}.
Record AlarmSummary := MkAlarmSummary {
  al_id : rstr;
  al_message_id : rstr;
  al_recipient : rstr;
  al_state : DeliveryState;
  al_cause : NotificationAttentionCause;
  al_ts : N;
}.
Record AlarmPreviewResult := MkPreviewResult { ap_entries : list AlarmSummary; ap_cutoff_ms : N }.
Record AlarmClearResult := MkClearResult { ax_cleared_ids : list rstr; ax_summaries : list AlarmSummary }.
Record AcceptanceSchedule := MkAcceptanceSchedule {
  ac_outcomes : gmap RecipientKey RecipientScheduleOutcome;
  ac_unavailable : gset RecipientKey;
}.
Inductive ChangeEvent := EvChanged | EvOther | EvLagged | EvClosed.
Definition MAILBOX_ONLY_NOTE : rstr := str "in mailbox, no pane".

(** ** Receipts *)
Definition receipt_from_disposition (d : MessageDisposition) (pane : option rstr) : DeliveryReceipt :=
  MkDeliveryReceipt (di_label d) DQueued (Some (di_notification_state d)) (di_quota_state d) (di_notification_settlement d)
    (di_pre_write_cause d) (di_wake_block d) (di_position_ahead d) None
    (if bool_decide (di_transport d = Some MailboxOnly) then Some MAILBOX_ONLY_NOTE else None) pane.
Definition with_wake_block (r : DeliveryReceipt) (block : MessageWakeBlock) : DeliveryReceipt :=
  MkDeliveryReceipt (rc_to r) (rc_state r) (rc_notification_state r) (rc_quota_state r) (rc_notification_settlement r)
    (rc_pre_write_cause r) (Some block) (rc_position r) (rc_held_by r) (rc_note r) (rc_pane r).
Definition receipt_with_schedule_truth (d : MessageDisposition) (pane : option rstr) (scheduler_state_unavailable : bool)
    : DeliveryReceipt :=
  let receipt := receipt_from_disposition d pane in
  if scheduler_state_unavailable && bool_decide (rc_wake_block receipt = None)
  then with_wake_block receipt SchedulerStateUnavailable else receipt.

(** ** First dispositions *)
Definition has_first_durable_disposition (d : MessageDisposition) (head : ScheduledHead) (require_wake : bool) : bool :=
  if bool_decide (di_attempt_id d ≠ Some (hd_attempt_id head)) then true
  else if require_wake then
    match di_notification_state_raw d with
    | Some (Queued | Gating | Writing | Staged | Submitting) => false
    | _ => true
    end
  else match di_notification_state_raw d with Some (Queued | Gating) => false | _ => true end.
Abbreviation PendingHeads := (gmap RecipientKey ScheduledHead).
Definition observed_heads (message_id : MessageId) (outcomes : gmap RecipientKey RecipientScheduleOutcome) : PendingHeads :=
  omap (λ o, match o with
             | RoWorkerOwned head true => if bool_decide (hd_message_id head = message_id) then Some head else None
             | _ => None
             end) outcomes.
Definition lacks_disposition (ds : list MessageDisposition) (require_wake : bool) (recipient : RecipientKey) (head : ScheduledHead) : bool :=
  match List.find (λ d, bool_decide (di_recipient d = recipient)) ds with
  | None => true
  | Some d => negb (has_first_durable_disposition d head require_wake)
  end.
Definition still_pending (ds : list MessageDisposition) (require_wake : bool) (pending : PendingHeads) : PendingHeads :=
  filter (λ x, lacks_disposition ds require_wake x.1 x.2 = true) pending.
Section messaging.
Context {V : Type} {serde : Serde V} {codec : LineCodec V} {uuids : Uuids} {digests : Digests}.
Context (others : nat → Host (V:=V) → Host (V:=V)).
Context (proc_of : nat → Z → option ProcId) (admitted_binding : nat → Host (V:=V) → N → TableRow → option Binding).
Context (bind_manifest_for : nat → Host (V:=V) → N → TableRow → option rstr) (boot_id : rstr) (spawned_finished : nat → bool).
Context (envs : nat → Env) (error_text : NotificationAdapterError → rstr) (fresh : nat → NotificationAttemptId).
(** [random k]: the texts the minting loop draws at section [k]; [requeue_ids k i]: the
    id generated for the [i]-th requeued recipient. *)
Context (random : nat → list rstr) (requeue_ids : nat → nat → NotificationAttemptId).
Context (hash_order : gset RecipientKey → list RecipientKey) (events : list ChangeEvent) (late : nat → bool).

Definition schedule_notification (recipient : RecipientKey) : Pass RecipientScheduleOutcome :=
  schedule_recipient others spawned_finished envs error_text fresh recipient.
Definition invalidate_unread (recipient : RecipientKey) : Pass () := change others (λ h, signal h (SigUnread recipient)).
(** An error becomes [None]. *)
Definition attempted {A} (m : Pass (V:=V) A) : Pass (option A) := λ k h,
  match m k h with
  | (k, h, Answered a) => (k, h, Answered (Some a))
  | (k, h, Refused _) => (k, h, Answered None)
  | (k, h, Crashed) => (k, h, Crashed)
  | (k, h, Drawing) => (k, h, Drawing)
  end.
Definition refuse_pass {A} (e : MailboxServiceError) : Pass (V:=V) A := λ k h, (k, h, Refused e).
Fixpoint for_each (f : RecipientKey → Pass (V:=V) ()) (l : list RecipientKey) : Pass () :=
  match l with
  | [] => mret ()
  | r :: l => _ ← f r; for_each f l
  end.

(** ** Acceptance *)
Definition note_outcome (report : AcceptanceSchedule) (recipient : RecipientKey) (o : option RecipientScheduleOutcome) : AcceptanceSchedule :=
  match o with
  | Some o => MkAcceptanceSchedule (<[recipient := o]> (ac_outcomes report)) (ac_unavailable report)
  | None => MkAcceptanceSchedule (ac_outcomes report) ({[recipient]} ∪ ac_unavailable report)
  end.
Fixpoint schedule_over (recipients : list RecipientKey) (report : AcceptanceSchedule) : Pass AcceptanceSchedule :=
  match recipients with
  | [] => mret report
  | r :: recipients =>
      o ← attempted (schedule_notification r);
      schedule_over recipients (note_outcome report r o)
  end.
Definition schedule_accepted_notifications (accepted : AcceptResult) : Pass AcceptanceSchedule :=
  schedule_over (as_recipient_keys accepted) (MkAcceptanceSchedule ∅ ∅).
Definition read_dispositions (message_id : MessageId) : Pass (list MessageDisposition) :=
  read_service others (λ svc, message_dispositions svc message_id).
(** One turn of the loop; [wait] is what follows when the wait is worth it. *)
Definition look_again (message_id : MessageId) (require_wake : bool) (wait : PendingHeads → Pass (list MessageDisposition))
    (pending : PendingHeads) : Pass (list MessageDisposition) :=
  ds ← read_dispositions message_id;
  let pending := still_pending ds require_wake pending in
  if bool_decide (pending = ∅) then mret ds
  else
    over ← peek others (λ k _, late k);
    if over : bool then read_dispositions message_id else wait pending.
Fixpoint wait_for_messages_change (message_id : MessageId) (require_wake : bool) (events : list ChangeEvent) (pending : PendingHeads)
    : Pass (list MessageDisposition) :=
  match events with
  | EvChanged :: events | EvLagged :: events =>
      look_again message_id require_wake (wait_for_messages_change message_id require_wake events) pending
  | EvOther :: events => wait_for_messages_change message_id require_wake events pending
  | EvClosed :: _ | [] => read_dispositions message_id
  end.
Definition observe_first_durable_dispositions (message_id : MessageId) (outcomes : gmap RecipientKey RecipientScheduleOutcome)
    (require_wake : bool) : Pass (list MessageDisposition) :=
  look_again message_id require_wake (wait_for_messages_change message_id require_wake events) (observed_heads message_id outcomes).
Fixpoint receipts (unavailable : gset RecipientKey) (ds : list MessageDisposition) : Pass (list DeliveryReceipt) :=
  match ds with
  | [] => mret []
  | d :: ds =>
      route ← notification_route others (di_recipient d);
      rest ← receipts unavailable ds;
      mret (receipt_with_schedule_truth d (nt_pane_id <$> route) (bool_decide (di_recipient d ∈ unavailable)) :: rest)
  end.
Definition finish_acceptance (accepted : AcceptResult) (require_wake : bool) : Pass MsgSendResult :=
  schedule ← schedule_accepted_notifications accepted;
  _ ← for_each invalidate_unread (as_recipient_keys accepted);
  ds ← observe_first_durable_dispositions (as_message_id accepted) (ac_outcomes schedule) require_wake;
  deliveries ← receipts (ac_unavailable schedule) ds;
  mret (MkSendResult (mid_text (as_message_id accepted)) (as_seq accepted) deliveries (Some (as_inserted accepted))
          (Some (as_thread_root accepted))).
Definition send_request (params : MsgSendParams) : MailboxSend :=
  MkSend (mp_to params) (mp_recipient_keys params) (mp_subject params) (mp_summary params) (mp_body params) (mp_fyi params)
    (mp_client_key params) (mp_supersedes params) (mp_raw params).
Definition accept_send (sender : MailboxIdentity) (params : MsgSendParams) : Pass AcceptResult :=
  match mp_reply_to params with
  | Some reference =>
      match message_id_new reference with
      | Err e => refuse_pass (StoreError (StoreMailbox (TypeError e)))
      | Ok reference =>
          on_service others (λ k svc, reply_with_summary svc (envs k) (random k) sender reference (mp_summary params) (mp_body params)
                                        (mp_client_key params) (mp_raw params))
      end
  | None => on_service others (λ k svc, send svc (envs k) (random k) sender (send_request params))
  end.
Definition messaging_send (sender : MailboxIdentity) (params : MsgSendParams) : Pass MsgSendResult :=
  if bool_decide (is_Some (mp_reply_to params)) && (bool_decide (mp_to params ≠ []) || bool_decide (is_Some (mp_recipient_keys params)))
  then refuse_pass (DirectoryError ReplyRecipientSelectors)
  else if bool_decide (is_Some (mp_recipient_keys params)) && bool_decide (mp_to params ≠ [])
  then refuse_pass (DirectoryError MixedRecipientSelectors)
  else
    accepted ← accept_send sender params;
    finish_acceptance accepted (mp_require_wake params).
Definition messaging_reply (sender : MailboxIdentity) (reference : MessageId) (summary : option rstr) (body : rstr)
    (client_key : option rstr) (raw : bool) : Pass MsgSendResult :=
  accepted ← on_service others (λ k svc, reply_with_summary svc (envs k) (random k) sender reference summary body client_key raw);
  finish_acceptance accepted false.

(** ** Claims, requeues, withdrawals *)
(** [now k]: the clock a settled delivery reads. *)
Context (now : nat → N).
Definition claim_attempts (o : ClaimOutcome) : option NotificationAttemptId * option NotificationAttemptId :=
  match o with
  | ClaimedOutcome _ _ _ withdrawn consumed | AlreadyClaimedOutcome _ _ withdrawn consumed => (withdrawn, consumed)
  end.
Definition claim_result (o : ClaimOutcome) : InboxClaimResult :=
  match o with
  | ClaimedOutcome _ message skipped _ _ => MkClaimResult DispClaimed message skipped
  | AlreadyClaimedOutcome _ message _ _ => MkClaimResult DispAlreadyClaimed message None
  end.
Definition finish_claim (claimant : RecipientKey) (o : ClaimOutcome) : Pass InboxClaimResult :=
  let '(withdrawn, consumed) := claim_attempts o in
  _ ← (match consumed with Some a => _ ← settle_notification_claim others now a; mret () | None => mret () end);
  _ ← (match withdrawn with Some a => cancel_notification others a | None => mret () end);
  _ ← logged (schedule_notification claimant);
  _ ← invalidate_unread claimant;
  mret (claim_result o).
Definition messaging_claim (claimant : RecipientKey) (message_id : MessageId) : Pass InboxClaimResult :=
  o ← (match parse_notification_attempt_claim_locator message_id with
       | Some attempt =>
           x ← on_service others (λ k svc, service_claim_locator svc (envs k) claimant message_id attempt); mret x.1
       | None => on_service others (λ k svc, claim svc (envs k) claimant message_id)
       end);
  finish_claim claimant o.
Definition messaging_requeue (message_id : MessageId) : Pass bool :=
  records ← on_service others (λ k svc, requeue_message svc (envs k) (requeue_ids k) message_id);
  _ ← for_each (λ r, _ ← logged (schedule_notification r); invalidate_unread r) (hash_order (list_to_set (nr_recipient <$> records)));
  mret (negb (bool_decide (records = []))).
Definition messaging_withdraw (operator recipient : RecipientKey) (attempt_id : NotificationAttemptId)
    : Pass NotificationWithdrawResult :=
  x ← on_service others (λ k svc, service_withdraw svc (envs k) operator recipient attempt_id);
  _ ← cancel_notification others attempt_id;
  _ ← logged (schedule_notification recipient);
  _ ← invalidate_unread recipient;
  mret (MkWithdrawResult attempt_id (nr_message_id x.1) recipient (if x.2 : bool then DispWithdrawn else DispAlreadyWithdrawn)).
Definition availability_changed : Pass () :=
  recipients ← attempted (read_service others (λ svc, read_store svc (λ p, Ok (pending_recipients p))));
  match recipients with
  | None => mret ()
  | Some recipients => for_each (λ r, logged (schedule_notification r)) recipients
  end.

(** ** Alarms *)
Definition alarm_summary (record : NotificationRecord) : AlarmSummary :=
  MkAlarmSummary (attempt_display (nr_attempt_id record)) (mid_text (nr_message_id record)) (recipient_display (nr_recipient record))
    DAttentionRequired (default TransportOutcomeUnknown (nr_cause record)) (nr_updated_at record).
Inductive MessagingAttentionError := AttentionDenied | AttentionMailbox (e : MailboxServiceError).
Definition alarm_preview (svc : MailboxService (V:=V)) (caller : RecipientKey) (older_than_ms observed_at_ms : N)
    : result MessagingAttentionError AlarmPreviewResult :=
  if negb (is_admin caller) then Err AttentionDenied
  else
    let cutoff_ms := observed_at_ms - older_than_ms in
    match alarms_at_or_before svc cutoff_ms with
    | Err e => Err (AttentionMailbox e)
    | Ok records => Ok (MkPreviewResult (alarm_summary <$> records) cutoff_ms)
    end.
Definition messaging_clear_alarms (svc : MailboxService (V:=V)) (env : Env) (batch : rstr) (caller : RecipientKey)
    (attempts : list NotificationAttemptId) (cutoff_ms : option N)
    : MailboxService (V:=V) * (MessagingAttentionError + svc_answer AlarmClearResult) :=
  if negb (is_admin caller) then (svc, inl AttentionDenied)
  else match clear_alarms svc env batch caller attempts cutoff_ms with
       | (svc, Answered records) =>
           (svc, inr (Answered (MkClearResult ((λ r, attempt_display (nr_attempt_id r)) <$> records) (alarm_summary <$> records))))
       | (svc, Refused e) => (svc, inl (AttentionMailbox e))
       | (svc, Crashed) => (svc, inr Crashed)
       | (svc, Drawing) => (svc, inr Drawing)
       end.
End messaging.
