(* ===== verification/MessagingProps.v ===== *)
(** * What workspace messaging promises

    Theorems about [Messaging.v]: once a message is in the journal its send is answered,
    with one receipt per recipient in the order of the message, read from the store, and
    whatever scheduling refuses or others do meanwhile; a claim that the store took is
    answered; and what scheduling could not settle is said on the receipt. *)
From S2P Require Import Prelude Text Identity Ledger Journal Mailbox Notification Facts Projection Attempt Prepared.
From S2P Require Import MailboxInv NotificationInv Invariant Replay Entries Guarantees Idempotency Store Views StoreInv StoreOps Doorbell.
From S2P Require Import Scheduler Directory Service ServiceProps Registry AttentionRegister Detection NotificationAdapter.
From S2P Require Import DeliveryGate TurnKeys Receipt DeliveryAttempt HookAck Worker Composer Watcher Scheduling SchedulingProps Messaging.
Local Open Scope N_scope.
Local Open Scope rust_scope.

Section kept.
Context {V : Type} {serde : Serde V} {codec : LineCodec V} {uuids : Uuids} {digests : Digests}.
Context {codec_laws : LineCodecLaws V} {serde_laws : SerdeLaws V} {uuid_laws : UuidLaws} {digest_laws : DigestLaws}
  {storable_laws : StorableLaws}.

(** ** Messages stay *)
Lemma set_entry_keeps_messages (p : MailboxProjection V) r id st p' : set_entry p r id st = Some p' → messages p' = messages p.
Proof.
  unfold set_entry. destruct (mailbox_index p !! (r, id)) as [s|]; [|done]. cbn.
  destruct (mailboxes p !! r) as [entries|]; [|done]. cbn. destruct ((entries : gmap N MailboxEntry) !! s); [|done]. by intros [= <-].
Qed.
Lemma row_keeps_messages (p : MailboxProjection V) line replaying p' :
  wf p → apply_inner p line replaying = AppliedOk p' → messages p ⊆ messages p'.
Proof.
  intros Hwf Ha. destruct (applied_inv _ _ _ _ Ha) as (m & _ & Hc & Hseq & Hmax & Hok).
  destruct (touches_entries m) eqn:Ht.
  2:{ destruct (commit_line_same_entries _ _ _ _ Hc Ht) as (_ & _ & ->). done. }
  destruct m as [id md u|id r c u|id r a| | | | | | | | | | | | | | |]; try done; cbn in Hc, Hok.
  - destruct (commit_message_entries p line id md u p') as (p1 & _ & _ & -> & _); try done. by apply insert_subseteq, (mok_fresh _ _ _ _ _ Hok).
  - destruct (commit_claim_entries _ _ _ _ _ _ _ Hc) as (p1 & Hs & (_ & _ & ->)). by rewrite (set_entry_keeps_messages _ _ _ _ _ Hs).
  - by rewrite (set_entry_keeps_messages _ _ _ _ _ Hc).
Qed.
Lemma rows_keep_messages (p : MailboxProjection V) replaying lines p' :
  wf p → apply_all replaying p lines = AppliedOk p' → messages p ⊆ messages p'.
Proof.
  revert p. induction lines as [|line lines IH]; intros p Hwf; cbn [apply_all]; [by intros [= <-]|].
  destruct (apply_inner p line replaying) as [p1| |] eqn:E; [|done..]. intros H. pose proof (apply_inner_wf p line replaying Hwf) as Hone.
  rewrite E in Hone. etrans; [by eapply row_keeps_messages|]. apply IH; [by destruct Hone|done].
Qed.
(** A message of the journal is in the store however the journal went on. *)
Lemma journal_keeps_messages ws (s s' : MessageStore (V:=V)) rows rows' id line md :
  store_ok ws s rows → store_ok ws s' rows' → rows `prefix_of` rows' →
  stored_message (st_projection s) id line md → stored_message (st_projection s') id line md.
Proof.
  intros Hs Hs' [more ->] [Hm Hmd]. split; [|done]. eapply lookup_weaken; [exact Hm|].
  pose proof (sk_replay _ _ _ Hs') as H. unfold replay in H. rewrite (apply_all_app _ _ _ _ _ (sk_replay _ _ _ Hs)) in H.
  eapply rows_keep_messages; [by eapply store_ok_wf|exact H].
Qed.

(** ** Dispositions *)
Lemma presentation_labels_go_length i (pairs : list (RecipientKey * RecipientPresentation)) labels :
  presentation_labels_go i pairs = Ok labels → length labels = length pairs.
Proof.
  revert i labels. induction pairs as [|[r x] pairs IH]; intros i labels; cbn; [by intros [= <-]|].
  destruct (bool_decide _); [done|]. destruct (validate_display_label _ _); [|done]. cbn.
  destruct (presentation_labels_go (i + 1) pairs) as [l|] eqn:E; [|done]. intros [= <-]. cbn. by rewrite (IH _ _ E).
Qed.
Lemma presentation_labels_length recipients presentation from labels :
  presentation_labels recipients presentation = Ok (from, labels) → length labels = length recipients.
Proof.
  unfold presentation_labels. destruct (validate_display_label _ _); [|done]. cbn.
  destruct (bool_decide_reflect (length (mp_recipient_labels presentation) ≠ length recipients)) as [|Hl]; [done|]. cbn.
  destruct (presentation_labels_go _ _) as [l|] eqn:E; [|done]. intros [= _ <-]. apply presentation_labels_go_length in E.
  rewrite E, length_zip. lia.
Qed.
(** The dispositions of a stored message: one per recipient, in the message's order. *)
Lemma stored_dispositions ws (svc : MailboxService (V:=V)) rows id line md :
  service_ok ws svc rows → stored_message (st_projection (sv_store svc)) id line md →
  ∃ ds, message_dispositions svc id = Ok ds ∧ di_recipient <$> ds = md_recipients md ∧ di_label <$> ds = ll_to line.
Proof.
  intros Hok [Hm Hmd]. pose proof (store_ok_wf _ _ _ (vk_store _ _ _ Hok)) as Hwf.
  destruct (mw_message _ (wf_mailbox _ Hwf) _ _ Hm) as (md' & Hmd' & Hso). assert (md' = md) as -> by congruence.
  pose proof (so_labels _ _ _ _ Hso) as Hl. pose proof (presentation_labels_length _ _ _ _ Hl) as Hlen.
  unfold message_dispositions, read_store. rewrite (vk_lock _ _ _ Hok). unfold get_message. rewrite Hm. cbn.
  rewrite Hmd. cbn. rewrite Hl. cbn. eexists. split; [done|]. split.
  - rewrite fmap_zip_with_l; [done|done|lia].
  - rewrite fmap_zip_with_r; [done|done|lia].
Qed.

(** ** What was accepted is stored *)
Definition accepted_in (svc : MailboxService (V:=V)) (accepted : AcceptResult) : Prop :=
  ∃ line md, stored_message (st_projection (sv_store svc)) (as_message_id accepted) line md ∧
    as_recipient_keys accepted = md_recipients md ∧ as_recipients accepted = ll_to line ∧ as_seq accepted = ll_seq line.
Lemma canonical_stored ws s env id draft ts rows (s1 : MessageStore (V:=V)) res :
  store_ok ws s rows → ts ≤ u64_max → env_now env ≤ u64_max → accept_canonical_at s env id draft ts = (s1, Done res) →
  ∃ line md, stored_message (st_projection s1) (as_message_id res) line md ∧
    as_recipient_keys res = md_recipients md ∧ as_recipients res = ll_to line ∧ as_seq res = ll_seq line.
Proof.
  intros Hok Hts Henv Hacc. destruct (check_acceptance (st_projection s) draft) as [[digest|existing]|] eqn:Hc.
  - pose proof (accepted_id_valid _ _ _ _ _ _ _ _ _ _ Hok Hts Henv Hc Hacc) as Hid.
    destruct (accept_new_state _ _ _ _ _ _ _ _ _ _ Hok Hts Henv Hid Hc Hacc) as (root & line & Hmc & Hmd & _ & _ & _ & _ & ->).
    eexists line, _. split; [split; [|exact Hmd]|done]. rewrite (mc_messages _ _ _ _ _ Hmc). by rewrite lookup_insert_eq.
  - unfold accept_canonical_at in Hacc. rewrite Hc in Hacc. injection Hacc as <- Hacc. unfold accept_existing in Hacc.
    destruct (get_message _ _) as [line|] eqn:Hm; [|done]. destruct (extract_message_metadata line) as [md|] eqn:Hmd; [|done].
    injection Hacc as <-. by exists line, md.
  - unfold accept_canonical_at in Hacc. by rewrite Hc in Hacc.
Qed.
Lemma send_accepted ws (svc : MailboxService (V:=V)) rows env random sender request svc' res :
  service_ok ws svc rows → env_now env ≤ u64_max →
  send svc env random sender request = (svc', Answered res) → accepted_in svc' res.
Proof.
  intros Hok Henv. unfold send. destruct (send_recipients svc request) as [recipients|]; [|done]. cbn zeta.
  destruct (supersession_thread_root _ _ _ _) as [root|]; [|unfold locked; by destruct (sv_poisoned svc)].
  destruct (mint_message_id _ _ _) as [id|]; [|unfold locked; by destruct (sv_poisoned svc)].
  intros H%under_store_Done. unfold accepted_in. by eapply canonical_stored; [apply Hok| | |exact H].
Qed.
Lemma reply_accepted ws (svc : MailboxService (V:=V)) rows env random sender reference summary body key raw svc' res :
  service_ok ws svc rows → env_now env ≤ u64_max →
  reply_with_summary svc env random sender reference summary body key raw = (svc', Answered res) → accepted_in svc' res.
Proof.
  intros Hok Henv. unfold reply_with_summary. cbn zeta.
  destruct (let? reference := referenced_message _ _ in _) as [[reference' derived]|]; [|unfold locked; by destruct (sv_poisoned svc)].
  destruct (identity_for_recipient _ _) as [destination|]; [|unfold locked; by destruct (sv_poisoned svc)].
  destruct (mint_message_id _ _ _) as [id|]; [|unfold locked; by destruct (sv_poisoned svc)].
  intros H%under_store_Done. revert H. unfold reply_at. cbn [rpl_sender rpl_reference].
  destruct (derive_reply _ _ _) as [d|]; [|done]. intros H. unfold accepted_in. by eapply canonical_stored; [apply Hok| | |exact H].
Qed.
End kept.

Section passes.
Context {V : Type} {serde : Serde V} {codec : LineCodec V} {uuids : Uuids} {digests : Digests}.
Context {codec_laws : LineCodecLaws V} {serde_laws : SerdeLaws V} {uuid_laws : UuidLaws} {digest_laws : DigestLaws}
  {storable_laws : StorableLaws}.
Abbreviation Host := (Host (V:=V)).
Context (ws : WorkspaceId) (others : nat → Host → Host) (spawned_finished : nat → bool) (envs : nat → Env).
Context (error_text : NotificationAdapterError → rstr) (fresh : nat → NotificationAttemptId).
Context (random : nat → list rstr) (requeue_ids : nat → nat → NotificationAttemptId).
Context (hash_order : gset RecipientKey → list RecipientKey) (events : list ChangeEvent) (late : nat → bool) (now : nat → N).
(** Others keep the store in order and only append to its journal. *)
Hypothesis others_sound : ∀ base k h, sound ws base h → sound ws base (others k h).
Hypothesis envs_bounded : ∀ k, env_now (envs k) ≤ u64_max.
Abbreviation answers := (λ base, passes ws base False).
Abbreviation schedule := (schedule_notification others spawned_finished envs error_text fresh).

Lemma attempted_answers {A} base P (m : Pass A) Q :
  passes ws base True P m Q → answers base P (attempted m) (λ o h, ∀ a, o = Some a → Q a h).
Proof.
  intros H k h Hs Hp. specialize (H k h Hs Hp). unfold attempted. destruct (m k h) as [[k' h'] a]. destruct H as [H1 H2].
  destruct a; try done; (split; [done|]); by intros ? [= <-].
Qed.
Lemma for_each_answers base P f l :
  (∀ r, answers base (λ _, True) (f r) (λ _ _, True)) → answers base P (for_each f l) (λ _ _, True).
Proof.
  intros Hf. revert P. induction l as [|r l IH]; intros P; cbn; [by apply yields_ret|].
  eapply yields_then with (φ := λ _, True); [eapply yields_any, Hf|]. intros _ _. apply IH.
Qed.
Lemma invalidate_answers base P r : answers base P (invalidate_unread others r) (λ _ _, True).
Proof. apply yields_change; [apply others_sound|]. intros h Hs. split; [by eapply sound_service|done]. Qed.
Lemma scheduled_answers base P r : answers base P (logged (schedule r)) (λ _ _, True).
Proof. eapply logged_answers, schedule_yields; [apply others_sound|done]. Qed.
Lemma schedule_over_answers base P l report :
  answers base P (schedule_over others spawned_finished envs error_text fresh l report) (λ _ _, True).
Proof.
  revert P report. induction l as [|r l IH]; intros P report; cbn; [by apply yields_ret|].
  eapply yields_then with (φ := λ _, True).
  { eapply yields_forget, attempted_answers, schedule_yields; [apply others_sound|done]. }
  intros o _. apply IH.
Qed.

(** ** Receipts of a stored message *)
Definition journal_has (base : list (LedgerLine V)) id line md : Prop :=
  ∃ s : MessageStore (V:=V), store_ok ws s base ∧ stored_message (st_projection s) id line md.
Lemma read_answers base P id line md :
  journal_has base id line md → answers base P (read_dispositions others id) (λ ds h, message_dispositions (ho_service h) id = Ok ds).
Proof.
  intros (s & Hs & Hst). apply read_section; [apply others_sound|]. intros h (rows & Hok & Hpre).
  pose proof (journal_keeps_messages _ _ _ _ _ _ _ _ Hs (vk_store _ _ _ Hok) Hpre Hst) as Hst'.
  by destruct (stored_dispositions _ _ _ _ _ _ Hok Hst') as (ds & -> & _).
Qed.
Lemma look_again_answers base P id line md require_wake wait pending :
  journal_has base id line md →
  (∀ pending, answers base (λ _, True) (wait pending) (λ ds h, message_dispositions (ho_service h) id = Ok ds)) →
  answers base P (look_again others late id require_wake wait pending) (λ ds h, message_dispositions (ho_service h) id = Ok ds).
Proof.
  intros Hbase Hwait. unfold look_again. eapply yields_bind; [by eapply read_answers|]. intros ds. cbn zeta.
  destruct (bool_decide _); [by apply yields_ret|]. eapply yields_then with (φ := λ _, True); [by apply yields_peek; [apply others_sound|]|].
  intros [|] _; [by eapply read_answers|apply Hwait].
Qed.
Lemma wait_answers base P id line md require_wake evs pending :
  journal_has base id line md →
  answers base P (wait_for_messages_change others late id require_wake evs pending) (λ ds h, message_dispositions (ho_service h) id = Ok ds).
Proof.
  intros Hbase. revert P pending. induction evs as [|[] evs IH]; intros P pending; cbn; try (by eapply read_answers).
  - eapply look_again_answers; [done|]. intros p. apply IH.
  - apply IH.
  - eapply look_again_answers; [done|]. intros p. apply IH.
Qed.
Definition receipt_of (unavailable : gset RecipientKey) (d : MessageDisposition) (r : DeliveryReceipt) : Prop :=
  ∃ pane, r = receipt_with_schedule_truth d pane (bool_decide (di_recipient d ∈ unavailable)).
Lemma receipts_answers base P unavailable ds :
  answers base P (receipts others unavailable ds) (λ rs _, Forall2 (receipt_of unavailable) ds rs).
Proof.
  revert P. induction ds as [|d ds IH]; intros P; cbn; [apply yields_ret; intros; constructor|].
  eapply yields_then; [apply route_yields, others_sound|]. intros route _. eapply yields_then; [apply IH|]. intros rs Hrs.
  apply yields_ret. intros h _. constructor; [by eexists|done].
Qed.
(** The answer to an accepted message: its id, its place, and per recipient the
    disposition the store had at one moment after the acceptance. *)
Definition answered_for (base : list (LedgerLine V)) (accepted : AcceptResult) (res : MsgSendResult) : Prop :=
  sr_msg_id res = mid_text (as_message_id accepted) ∧ sr_seq res = as_seq accepted ∧
  sr_inserted res = Some (as_inserted accepted) ∧ rc_to <$> sr_deliveries res = as_recipients accepted ∧
  ∃ h ds unavailable, sound ws base h ∧ message_dispositions (ho_service h) (as_message_id accepted) = Ok ds ∧
    di_recipient <$> ds = as_recipient_keys accepted ∧ Forall2 (receipt_of unavailable) ds (sr_deliveries res).
Lemma receipt_label unavailable d r : receipt_of unavailable d r → rc_to r = di_label d.
Proof. intros [pane ->]. unfold receipt_with_schedule_truth. by destruct (_ && _). Qed.
Lemma finish_answers base accepted require_wake line md P :
  journal_has base (as_message_id accepted) line md → as_recipient_keys accepted = md_recipients md → as_recipients accepted = ll_to line →
  answers base P (finish_acceptance others spawned_finished envs error_text fresh events late accepted require_wake)
    (λ res _, answered_for base accepted res).
Proof.
  intros Hbase Hkeys Hto. unfold finish_acceptance. eapply yields_then with (φ := λ _, True); [apply schedule_over_answers|].
  intros report _. eapply yields_then with (φ := λ _, True); [apply for_each_answers; intros r; apply invalidate_answers|]. intros _ _.
  eapply yields_then with (φ := λ ds, ∃ h, sound ws base h ∧ message_dispositions (ho_service h) (as_message_id accepted) = Ok ds).
  { unfold observe_first_durable_dispositions. intros k h Hs _.
    pose proof (look_again_answers base (λ _, True) _ _ _ require_wake _ (observed_heads (as_message_id accepted) (ac_outcomes report)) Hbase
      (λ p, wait_answers base (λ _, True) _ _ _ require_wake events p Hbase) k h Hs I) as H.
    destruct (look_again _ _ _ _ _ _ _ _) as [[k' h'] a]. destruct H as [H1 H2]. split; [done|]. destruct a; try done. by exists h'. }
  intros ds (h & Hs & Hds). eapply yields_then; [apply receipts_answers|]. intros rs Hrs. apply yields_ret. intros _ _.
  destruct Hs as (rows & Hok & Hpre). destruct Hbase as (s & Hs0 & Hst).
  pose proof (journal_keeps_messages _ _ _ _ _ _ _ _ Hs0 (vk_store _ _ _ Hok) Hpre Hst) as Hst'.
  destruct (stored_dispositions _ _ _ _ _ _ Hok Hst') as (ds' & Hds' & Hr & Hl). assert (ds' = ds) as -> by congruence.
  split_and!; [done..| |].
  - cbn. rewrite Hto, <- Hl. clear -Hrs. induction Hrs as [|d r ds rs Hr _ IH]; [done|]. cbn. by rewrite IH, (receipt_label _ _ _ Hr).
  - exists h, ds, (ac_unavailable report). split_and!; [by exists rows|done|congruence|done].
Qed.

(** ** The theorems *)
(** The service operation a pass begins with, run on the state [svc] of its section. *)
Definition begun {A} base k (f : nat → MailboxService (V:=V) → MailboxService (V:=V) * svc_answer A) (svc : MailboxService (V:=V)) : Prop :=
  ∃ rows, service_ok ws svc rows ∧ base `prefix_of` rows ∧ step_ok ws rows svc (f k svc).
Definition ends_well {B} base (r : nat * Host * svc_answer B) (Q : B → Prop) : Prop :=
  let '(_, h, a) := r in sound ws base h ∧ match a with Answered b => Q b | _ => False end.
Lemma answers_end {B} base (m : Pass B) (Q : B → Prop) k h :
  answers base (λ _, True) m (λ b _, Q b) → sound ws base h → ends_well base (m k h) Q.
Proof. intros H Hs. specialize (H k h Hs I). unfold ends_well. destruct (m k h) as [[k' h'] a]. destruct H as [H1 H2]. by destruct a. Qed.
(** An operation that begins with a step of the service and goes on without refusing is
    refused only by the service. *)
Lemma committed {A B} base (f : nat → MailboxService (V:=V) → MailboxService (V:=V) * svc_answer A) (g : A → Pass B) (Q : A → B → Prop) k h :
  (∀ k svc rows, service_ok ws svc rows → step_ok ws rows svc (f k svc)) →
  (∀ svc a h', begun base k f svc → f k svc = (ho_service h', Answered a) → sound ws base h' → ends_well base (g a (S k) h') (Q a)) →
  sound ws base h →
  let '(_, h', r) := (on_service others f ≫= g) k h in
  sound ws base h' ∧
  ∃ svc, begun base k f svc ∧
    match r with
    | Answered b => ∃ a, (f k svc).2 = Answered a ∧ Q a b
    | Refused e => (f k svc).2 = Refused e
    | Drawing => (f k svc).2 = Drawing
    | Crashed => False
    end.
Proof.
  intros Hf Hg Hs. destruct (others_sound _ k _ Hs) as (rows & Hok & Hpre). pose proof (Hf k _ _ Hok) as Hstep.
  set (svc := ho_service (others k h)) in *. assert (begun base k f svc) as Hb by by exists rows. specialize (Hg svc).
  unfold on_service, section, mbind, pass_bind. fold svc.
  destruct (f k svc) as [svc' r] eqn:E.
  assert (∃ rows', service_ok ws svc' rows' ∧ base `prefix_of` rows' ∧ r ≠ Crashed) as (rows' & Hok' & Hpre' & Hc).
  { destruct Hstep as [(H1 & _ & _ & Hc)|(line & areas & x & Hx & H1 & _)]; cbn in *; [by exists rows|].
    exists (rows ++ [line]). split_and!; [done|by apply prefix_app_r|congruence]. }
  assert (sound ws base (set_service (others k h) svc')) as Hs' by by exists rows'.
  destruct r as [a|e| |]; [|by (split; [done|]; exists svc; rewrite E)|done|by (split; [done|]; exists svc; rewrite E)].
  specialize (Hg a (set_service (others k h) svc') Hb eq_refl Hs'). unfold ends_well in Hg. destruct (g a (S k) _) as [[k2 h2] r2]. destruct Hg as [H1 H2].
  split; [done|]. exists svc. split; [done|]. rewrite E. destruct r2; try done. by exists a.
Qed.

Abbreviation finish := (finish_acceptance others spawned_finished envs error_text fresh events late).
Lemma accepted_ends base k svc accepted f require_wake h :
  begun base k f svc → f k svc = (ho_service h, Answered accepted) → accepted_in (ho_service h) accepted → sound ws base h →
  ends_well base (finish accepted require_wake (S k) h) (λ res, ∃ base', base `prefix_of` base' ∧ answered_for base' accepted res).
Proof.
  intros _ _ (line & md & Hst & Hkeys & Hto & _) (rows & Hok & Hpre).
  assert (journal_has rows (as_message_id accepted) line md) as Hj by (exists (sv_store (ho_service h)); split; [apply Hok|done]).
  pose proof (answers_end rows _ _ (S k) h (finish_answers rows accepted require_wake line md _ Hj Hkeys Hto)) as H.
  unfold ends_well in *. destruct (finish accepted require_wake (S k) h) as [[k' h'] a].
  destruct H as [(rows' & Hok' & Hpre') Ha]; [by exists rows|].
  split; [exists rows'; split; [done|by etrans]|]. destruct a; try done. by exists rows.
Qed.
(** What a send asks the service to do, and when it asks for nothing that could be done. *)
Definition send_op (sender : MailboxIdentity) (params : MsgSendParams) (k : nat) (svc : MailboxService (V:=V))
    : MailboxService (V:=V) * svc_answer AcceptResult :=
  match mp_reply_to params with
  | Some reference =>
      match message_id_new reference with
      | Ok reference => reply_with_summary svc (envs k) (random k) sender reference (mp_summary params) (mp_body params)
                          (mp_client_key params) (mp_raw params)
      | Err e => (svc, Refused (StoreError (StoreMailbox (TypeError e))))
      end
  | None => send svc (envs k) (random k) sender (send_request params)
  end.
Definition mixed_selectors (params : MsgSendParams) : bool :=
  (bool_decide (is_Some (mp_reply_to params)) && (bool_decide (mp_to params ≠ []) || bool_decide (is_Some (mp_recipient_keys params)))) ||
  (bool_decide (is_Some (mp_recipient_keys params)) && bool_decide (mp_to params ≠ [])).
Lemma send_op_ok sender params k svc rows : service_ok ws svc rows → step_ok ws rows svc (send_op sender params k svc).
Proof.
  intros Hok. unfold send_op. destruct (mp_reply_to params) as [reference|]; [|by apply send_step].
  destruct (message_id_new reference); [by apply reply_step|by apply step_same].
Qed.
Lemma send_op_accepted base sender params k svc h accepted :
  begun base k (send_op sender params) svc → send_op sender params k svc = (ho_service h, Answered accepted) → accepted_in (ho_service h) accepted.
Proof.
  intros (rows & Hok & _ & _). unfold send_op. destruct (mp_reply_to params) as [reference|]; [destruct (message_id_new reference); [|done]|].
  - by eapply reply_accepted.
  - by eapply send_accepted.
Qed.
(** The outcome of a send whose service step is [send_op]. *)
Definition send_outcome base sender params k (a : svc_answer MsgSendResult) : Prop :=
  match a with
  | Answered res => ∃ svc accepted base', begun base k (send_op sender params) svc ∧
      (send_op sender params k svc).2 = Answered accepted ∧ base `prefix_of` base' ∧ answered_for base' accepted res
  | Refused e => ∃ svc, begun base k (send_op sender params) svc ∧ (send_op sender params k svc).2 = Refused e
  | Drawing => ∃ svc, begun base k (send_op sender params) svc ∧ (send_op sender params k svc).2 = Drawing
  | Crashed => False
  end.
Lemma begun_ext base k (f g : nat → MailboxService (V:=V) → MailboxService (V:=V) * svc_answer AcceptResult) svc :
  (∀ svc, f k svc = g k svc) → begun base k f svc → begun base k g svc.
Proof. intros Hfg (rows & Hok & Hpre & Hst). exists rows. split_and!; [done|done|by rewrite <- Hfg]. Qed.
Lemma send_section sender params require_wake f base k h :
  (∀ k svc, f k svc = send_op sender params k svc) → sound ws base h →
  let '(_, h', a) := (on_service others f ≫= λ accepted, finish accepted require_wake) k h in
  sound ws base h' ∧ send_outcome base sender params k a.
Proof.
  intros Hf Hs.
  assert (let '(_, h', a) := (on_service others f ≫= λ accepted, finish accepted require_wake) k h in
    sound ws base h' ∧ ∃ svc, begun base k f svc ∧
      match a with
      | Answered res => ∃ accepted, (f k svc).2 = Answered accepted ∧ ∃ base', base `prefix_of` base' ∧ answered_for base' accepted res
      | Refused e => (f k svc).2 = Refused e
      | Drawing => (f k svc).2 = Drawing
      | Crashed => False
      end) as H.
  { apply committed; [| |done].
    - intros k' svc rows Hok. rewrite Hf. by apply send_op_ok.
    - intros svc a h' Hb Ha Hs'. eapply accepted_ends; [exact Hb|exact Ha| |done]. rewrite Hf in Ha. eapply send_op_accepted; [|exact Ha].
      eapply begun_ext; [|exact Hb]. intros. apply Hf. }
  destruct ((on_service others f ≫= _) k h) as [[k' h'] a]. destruct H as (Hs' & svc & Hb & H). split; [done|].
  pose proof (begun_ext _ _ _ _ _ (Hf k) Hb) as Hb'. rewrite Hf in H. destruct a; cbn; [|by exists svc|done|by exists svc].
  destruct H as (accepted & Ha & base' & Hpre & Hans). by exists svc, accepted, base'.
Qed.
(** [C14.] A send is refused only for what it asks: mixed selectors, or what the service
    refuses.  Once the service has accepted the message the sender gets its answer,
    whatever scheduling refuses and whatever others do: the id and place of the message
    and one receipt for every recipient in the message's order, each the disposition the
    store had at one moment after the acceptance. *)
Theorem accepted_messages_are_answered sender params base k h :
  sound ws base h →
  let '(_, h', a) := messaging_send others spawned_finished envs error_text fresh random events late sender params k h in
  sound ws base h' ∧
  match a with
  | Refused _ => mixed_selectors params = true ∨ send_outcome base sender params k a
  | _ => send_outcome base sender params k a
  end.
Proof.
  intros Hs. unfold messaging_send.
  destruct (_ && (_ || _)) eqn:E1; [split; [done|left; unfold mixed_selectors; by rewrite E1]|].
  destruct (bool_decide (is_Some (mp_recipient_keys params)) && _) eqn:E2; [split; [done|left; unfold mixed_selectors; by rewrite E2, orb_true_r]|].
  assert (∀ f, (∀ k svc, f k svc = send_op sender params k svc) →
    let '(_, h', a) := (on_service others f ≫= λ accepted, finish accepted (mp_require_wake params)) k h in
    sound ws base h' ∧ match a with
                       | Refused _ => mixed_selectors params = true ∨ send_outcome base sender params k a
                       | _ => send_outcome base sender params k a
                       end) as Hmain.
  { intros f Hf. pose proof (send_section sender params (mp_require_wake params) f base k h Hf Hs) as H.
    destruct ((on_service others f ≫= _) k h) as [[k' h'] a]. destruct H as [H1 H2]. split; [done|]. destruct a; auto. }
  unfold accept_send. destruct (mp_reply_to params) as [reference|] eqn:Er.
  - destruct (message_id_new reference) as [reference'|e] eqn:Em.
    + apply Hmain. intros. unfold send_op. by rewrite Er, Em.
    + split; [done|]. right. destruct Hs as (rows & Hok & Hpre). exists (ho_service h).
      split; [exists rows; split_and!; [done|done|by apply send_op_ok]|]. unfold send_op. by rewrite Er, Em.
  - apply Hmain. intros. unfold send_op. by rewrite Er.
Qed.

(** ** What follows a committed operation *)
Lemma settle_answers base P attempt : answers base P (settle_notification_claim others now attempt) (λ _ _, True).
Proof.
  pose proof (others_sound base) as Ho. assert (∀ h h', ho_service h' = ho_service h → sound ws base h → sound ws base h') as Hsv
    by (intros; by eapply sound_service).
  assert (∀ P f, (∀ h, ho_service (f h) = ho_service h) → answers base P (change others f) (λ _ _, True)) as Hch.
  { intros P' f Hf. apply yields_change; [done|]. intros h Hs. split; [eapply Hsv; [apply Hf|done]|done]. }
  assert (∀ P A (f : nat → Host → A), answers base P (peek others f) (λ _ _, True)) as Hpk by (intros; by apply yields_peek).
  unfold settle_notification_claim. eapply yields_then with (φ := λ _, True); [apply Hpk|]. intros [ref|] _; [|by apply yields_ret].
  eapply yields_then with (φ := λ _, True); [apply Hpk|]. intros transport _. destruct (negb _); [by apply yields_ret|].
  eapply yields_then with (φ := λ _, True).
  { apply yields_section; [done|]. intros k h Hs. destruct (handle_at h ref) as [x|]; [|by split]. destruct (advance x _ _ _) as [[x' moved] effect].
    split; [by eapply Hsv|done]. }
  intros settled _. eapply yields_then with (φ := λ _, True); [apply Hpk|]. intros state _. destruct (_ || _).
  - eapply yields_then with (φ := λ _, True); [apply Hch; intros h; by destruct (handle_at h ref)|]. intros _ _.
    eapply yields_then with (φ := λ _, True); [by apply Hch|]. intros _ _. by apply yields_ret.
  - eapply yields_then with (φ := λ _, True); [apply Hpk|]. intros [|] _; [|by apply yields_ret].
    eapply yields_then with (φ := λ _, True); [by apply Hch|]. intros _ _. by apply yields_ret.
Qed.
Lemma cancel_answers base P attempt : answers base P (cancel_notification others attempt) (λ _ _, True).
Proof.
  unfold cancel_notification. eapply yields_then with (φ := λ _, True); [by apply yields_peek; [apply others_sound|]|].
  intros [ref|] _; [|by apply yields_ret]. apply yields_change; [apply others_sound|]. intros h Hs. split; [by eapply sound_service|done].
Qed.
Lemma finish_claim_answers base P claimant o :
  answers base P (finish_claim others spawned_finished envs error_text fresh now claimant o) (λ b _, b = claim_result o).
Proof.
  unfold finish_claim. destruct (claim_attempts o) as [withdrawn consumed].
  eapply yields_then with (φ := λ _, True).
  { destruct consumed; [|by apply yields_ret]. eapply yields_then; [apply settle_answers|]. intros ? _. by apply yields_ret. }
  intros _ _. eapply yields_then with (φ := λ _, True); [destruct withdrawn; [apply cancel_answers|by apply yields_ret]|]. intros _ _.
  eapply yields_then; [apply scheduled_answers|]. intros _ _. eapply yields_then; [apply invalidate_answers|]. intros _ _. by apply yields_ret.
Qed.
Definition map_answer {A B} (f : A → B) (a : svc_answer A) : svc_answer B :=
  match a with Answered a => Answered (f a) | Refused e => Refused e | Crashed => Crashed | Drawing => Drawing end.
(** The answer of a pass is the service's, whatever came after it. *)
Definition follows {A B} base k (f : nat → MailboxService (V:=V) → MailboxService (V:=V) * svc_answer A) (result : A → B) (a : svc_answer B) : Prop :=
  a ≠ Crashed ∧ ∃ svc, begun base k f svc ∧ a = map_answer result (f k svc).2.
Lemma committed_follows {A B} base (f : nat → MailboxService (V:=V) → MailboxService (V:=V) * svc_answer A) (g : A → Pass B) result k h :
  (∀ k svc rows, service_ok ws svc rows → step_ok ws rows svc (f k svc)) →
  (∀ a, answers base (λ _, True) (g a) (λ b _, b = result a)) → sound ws base h →
  let '(_, h', a) := (on_service others f ≫= g) k h in sound ws base h' ∧ follows base k f result a.
Proof.
  intros Hf Hg Hs. pose proof (committed base f g (λ a b, b = result a) k h Hf) as H.
  destruct ((on_service others f ≫= g) k h) as [[k' h'] a]. destruct H as (Hs' & svc & Hb & H); [|done|].
  { intros svc x h1 _ _ Hs1. apply answers_end; [apply Hg|done]. }
  split; [done|]. split; [by destruct a|]. exists svc. split; [done|]. destruct a; [|by rewrite H|done|by rewrite H].
  destruct H as (x & -> & ->). done.
Qed.
(** [C18.] A claim is answered as the store decided: with the message that is now claimed, or
    was before, or with the store's refusal.  The settlement of the doorbell, the wakes
    withdrawn, the scheduling of the next one and the repainting never change it. *)
Theorem claims_are_answered claimant message_id base k h :
  sound ws base h →
  let '(_, h', a) := messaging_claim others spawned_finished envs error_text fresh now claimant message_id k h in
  sound ws base h' ∧
  match parse_notification_attempt_claim_locator message_id with
  | Some attempt => follows base k (λ k svc, service_claim_locator svc (envs k) claimant message_id attempt) (λ x, claim_result x.1) a
  | None => follows base k (λ k svc, claim svc (envs k) claimant message_id) claim_result a
  end.
Proof.
  intros Hs. unfold messaging_claim. destruct (parse_notification_attempt_claim_locator message_id) as [attempt|].
  - pose proof (committed_follows base (λ k svc, service_claim_locator svc (envs k) claimant message_id attempt)
      (λ x, finish_claim others spawned_finished envs error_text fresh now claimant x.1) (λ x, claim_result x.1) k h) as H.
    unfold mbind, pass_bind, mret, pass_ret in *. destruct (on_service others _ k h) as [[k' h'] [x|e| |]]; apply H;
      try (intros; by apply claim_locator_step); try (intros; apply finish_claim_answers); done.
  - apply committed_follows; [intros; by apply service_claim_step|intros; apply finish_claim_answers|done].
Qed.
(** So is a withdrawal of a wake, and a requeue, which answers whether anything was
    requeued and tries every recipient of it in turn. *)
Theorem withdrawals_and_requeues_are_answered operator recipient attempt message_id base k h :
  sound ws base h →
  (let '(_, h', a) := messaging_withdraw others spawned_finished envs error_text fresh operator recipient attempt k h in
   sound ws base h' ∧
   follows base k (λ k svc, service_withdraw svc (envs k) operator recipient attempt)
     (λ x, MkWithdrawResult attempt (nr_message_id x.1) recipient (if x.2 then DispWithdrawn else DispAlreadyWithdrawn)) a) ∧
  (let '(_, h', a) := messaging_requeue others spawned_finished envs error_text fresh requeue_ids hash_order message_id k h in
   sound ws base h' ∧
   follows base k (λ k svc, requeue_message svc (envs k) (requeue_ids k) message_id) (λ records, negb (bool_decide (records = []))) a).
Proof.
  intros Hs. split.
  - apply committed_follows; [intros; by apply withdraw_step| |done]. intros x.
    eapply yields_then; [apply cancel_answers|]. intros _ _. eapply yields_then; [apply scheduled_answers|]. intros _ _.
    eapply yields_then; [apply invalidate_answers|]. intros _ _. by apply yields_ret.
  - apply committed_follows; [intros; by apply requeue_step| |done]. intros records.
    eapply yields_then; [apply for_each_answers|intros _ _; by apply yields_ret]. intros r.
    eapply yields_then; [apply scheduled_answers|]. intros _ _. apply invalidate_answers.
Qed.
(** What scheduling could not settle is on the receipt: a recipient whose wake could not
    be scheduled never gets a receipt without a wake block, and a block the store knows
    is the one that is told. *)
Theorem unscheduled_wakes_are_told d pane unavailable :
  let r := receipt_with_schedule_truth d pane unavailable in
  (unavailable = true → is_Some (rc_wake_block r)) ∧ (∀ b, di_wake_block d = Some b → rc_wake_block r = Some b) ∧
  (unavailable = false → rc_wake_block r = di_wake_block d).
Proof.
  unfold receipt_with_schedule_truth. cbn. destruct unavailable, (di_wake_block d) as [b|] eqn:E; cbn; rewrite ?E; naive_solver.
Qed.
End passes.
