(* ===== verification/Codec.v ===== *)
(** * A concrete row codec

    Token printers and parsers for every payload type, and from them concrete
    instances of the interfaces the model is parametrised by: the JSON values
    and rows ([Serde], [LineCodec]), the UUID text form ([Uuids]) and the
    hash ([Digests]).  Rows are written as decimal tokens in braces instead of
    JSON; the instances show that the stated laws hold together, and make the
    model run on concrete journals. *)
From S2P Require Import Prelude Text Identity Ledger Journal Mailbox Notification Facts StoreOps.
Local Open Scope N_scope.

(** ** Printer and parser pairs *)
Class Wire (A : Type) := {
  put : A → list N;
  get : list N → option (A * list N);
  get_put a rest : get (put a ++ rest) = Some (a, rest);
}.

#[export, refine] Instance wire_N : Wire N :=
  {| put n := [n]; get l := match l with n :: rest => Some (n, rest) | [] => None end |}.
Proof. done. Defined.

(** A type that embeds in one that has a codec. *)
Definition wire_via {A B} {w : Wire A} (f : B → A) (g : A → option B)
    (H : ∀ b, g (f b) = Some b) : Wire B.
Proof.
  refine {| put b := put (f b);
            get l := '(a, rest) ← get l; b ← g a; Some (b, rest) |}.
  intros b rest. rewrite get_put. cbn. by rewrite H.
Defined.

#[export, refine] Instance wire_prod {A B} {wa : Wire A} {wb : Wire B} : Wire (A * B) :=
  {| put p := put p.1 ++ put p.2;
     get l := '(a, l) ← get l; '(b, l) ← get l; Some ((a, b), l) |}.
Proof.
  intros [a b] rest. cbn [fst snd]. rewrite <-app_assoc, get_put. cbn [mbind option_bind].
  by rewrite get_put.
Defined.

#[export, refine] Instance wire_sum {A B} {wa : Wire A} {wb : Wire B} : Wire (A + B) :=
  {| put s := match s with inl a => 0 :: put a | inr b => 1 :: put b end;
     get l := match l with
              | tag :: l =>
                  if tag =? 0 then '(a, l) ← get l; Some (inl a, l)
                  else '(b, l) ← get l; Some (inr b, l)
              | [] => None
              end |}.
Proof. intros [a|b] rest; cbn; by rewrite get_put. Defined.

#[export] Instance wire_unit : Wire () := wire_via (λ _, 0) (λ _, Some ()) ltac:(by intros []).
#[export] Instance wire_bool : Wire bool :=
  wire_via (λ b : bool, if b then 1 else 0) (λ n, Some (n =? 1)) ltac:(by intros []).
#[export] Instance wire_option {A} {w : Wire A} : Wire (option A) :=
  wire_via (λ o, match o with Some a => inr a | None => inl () end)
    (λ s, Some match s with inl _ => None | inr a => Some a end) ltac:(by intros []).
#[export] Instance wire_Z : Wire Z :=
  wire_via (λ z, ((z <? 0)%Z, Z.to_N (Z.abs z)))
    (λ '(neg, n), Some (if neg : bool then - Z.of_N n else Z.of_N n)%Z)
    ltac:(intros z; cbn; f_equal; destruct (Z.ltb_spec z 0); lia).
#[export] Instance wire_bsub {A} {w : Wire A} (P : A → bool) : Wire (bsub P) :=
  wire_via bval (to_bsub P) to_bsub_bval.

(** Lists carry their length. *)
Fixpoint get_n {A} {w : Wire A} (n : nat) (l : list N) : option (list A * list N) :=
  match n with
  | O => Some ([], l)
  | S n => '(a, l) ← get l; '(rest, l) ← get_n n l; Some (a :: rest, l)
  end.
Lemma get_n_put {A} {w : Wire A} (l : list A) rest :
  get_n (length l) (mjoin (put <$> l) ++ rest) = Some (l, rest).
Proof.
  induction l as [|a l IH]; [done|].
  change (mjoin (put <$> (a :: l))) with (put a ++ mjoin (put <$> l)).
  rewrite <-app_assoc. cbn [length get_n]. rewrite get_put. cbn [mbind option_bind]. by rewrite IH.
Qed.
#[export, refine] Instance wire_list {A} {w : Wire A} : Wire (list A) :=
  {| put l := N.of_nat (length l) :: mjoin (put <$> l);
     get l := match l with n :: l => get_n (N.to_nat n) l | [] => None end |}.
Proof. intros l rest. cbn. rewrite Nat2N.id. apply get_n_put. Defined.

(** Enumerations are written by position. *)
Definition position {A} `{!EqDecision A} (l : list A) (x : A) : N :=
  from_option (λ p, N.of_nat p.1) 0 (list_find (λ y, y = x) l).
Definition nth_of {A} (l : list A) (n : N) : option A := l !! N.to_nat n.
Abbreviation wire_enum l := (wire_via (position l) (nth_of l) ltac:(by intros [])) (only parsing).

#[export] Instance wire_kind : Wire Kind := wire_enum [KMsg; KFyi; KSystem; KState; KGate].
#[export] Instance wire_verified_by : Wire VerifiedBy := wire_enum [VerifiedHook; VerifiedScreen].
#[export] Instance wire_delivery_state : Wire DeliveryState :=
  wire_enum [DQueued; DGating; DPasting; DStaged; DSubmitted; DDeliveredVerified;
             DDeliveredUnverified; DRetryQueued; DAttentionRequired; DParkedBlockedQuota].
#[export] Instance wire_notification_state : Wire NotificationState :=
  wire_enum [Queued; Gating; BlockedPreWrite; QuotaHeld; QuotaResetObserved; Writing; Staged;
             Submitting; Submitted; SubmittedUnverified; Notified; AttentionRequired; Withdrawn;
             WithdrawnAfterStaging; WithdrawnByOperator; Superseded].
#[export] Instance wire_transport : Wire NotificationTransport :=
  wire_enum [Doorbell; DirectPayload; Raw; MailboxOnly].
#[export] Instance wire_pre_write_cause : Wire NotificationPreWriteCause :=
  wire_enum [HeldForExistingDraft; SessionUnavailable; ManifestUnavailable; PayloadUnavailable;
             WriteReadinessChanged; SpoolFailed; PasteCommandUnwritten; BindingUnprovable;
             ComposerSemanticMissing; ComposerOwnershipUnproven; WorkerFailed; ClaimedBeforeWrite].
#[export] Instance wire_wake_block : Wire MessageWakeBlock :=
  wire_enum [DaemonStopping; RouteUnavailable; AttentionResolutionPending; WorkerFaulted;
             WorkerSupervisorExited; EnqueueRefused; WakeComposerOwnershipUnproven;
             SchedulerStateUnavailable].
#[export] Instance wire_composer : Wire ComposerState :=
  wire_enum [ComposerClean; HumanDraft; VendorGhostSuggestion; CyclopsNotificationStaged;
             CyclopsNotificationSubmitted; ComposerAmbiguous].
#[export] Instance wire_attention_cause : Wire NotificationAttentionCause :=
  wire_enum [PasteFailed; VerifyFailed; PaneReboundAfterPaste; SubmitFailed;
             ReceiptOccupantChanged; AckTimeout; DaemonRestart; TransportOutcomeUnknown].
#[export] Instance wire_verify_kind : Wire NotificationVerifyFailureKind :=
  wire_enum [VerifyMismatch; VerifyTimeout; VerifyOwnerMissing; VerifyAmbiguous].
#[export] Instance wire_resolution : Wire NotificationResolution := wire_enum [Complete; Discard].
#[export] Instance wire_consumption_evidence : Wire NotificationResolutionConsumptionEvidence :=
  wire_enum [ExactHookPrompt; AuthenticatedClaim; WorkingEdge].
#[export] Instance NotificationBarrierRetirementCause_eq_dec :
  EqDecision NotificationBarrierRetirementCause.
Proof. solve_decision. Defined.
#[export] Instance wire_retirement : Wire NotificationBarrierRetirementCause :=
  wire_enum [LifecycleReconciled; ComposerObservedClear; RecipientClaimedComposerClear;
             OccupantReplaced; PaneGone].

(** Records are written field by field. *)
Ltac by_fields := by intros [].
#[export] Instance wire_workspace : Wire WorkspaceId :=
  wire_via workspace_durable (λ d, Some (MkWorkspaceId d)) ltac:(by_fields).
#[export] Instance wire_session : Wire SessionInstanceId :=
  wire_via session_durable (λ d, Some (MkSessionInstanceId d)) ltac:(by_fields).
#[export] Instance wire_agent : Wire AgentInstanceId :=
  wire_via agent_durable (λ d, Some (MkAgentInstanceId d)) ltac:(by_fields).
#[export] Instance wire_process : Wire ProcessInstance :=
  wire_via (λ p, (process_pid p, process_birth p))
    (λ '(pid, birth), Some (MkProcessInstance pid birth)) ltac:(by_fields).
#[export] Instance wire_recipient : Wire Recipient :=
  wire_via (λ r, match r with
                 | RAdmin => inl ()
                 | RAgent s p => inr (inl (s, p))
                 | RHeadless a => inr (inr a)
                 end)
    (λ x, Some match x with
               | inl _ => RAdmin
               | inr (inl (s, p)) => RAgent s p
               | inr (inr a) => RHeadless a
               end) ltac:(by_fields).
#[export] Instance wire_recipient_key : Wire RecipientKey :=
  wire_via (λ k, (rk_workspace_id k, rk_recipient k)) (λ '(w, r), Some (MkRecipientKey w r))
    ltac:(by_fields).
#[export] Instance wire_message_id : Wire MessageId :=
  wire_via mid_text (λ t, Some (MkMessageId t)) ltac:(by_fields).
#[export] Instance wire_digest : Wire RequestDigest :=
  wire_via digest_text (λ t, Some (MkRequestDigest t)) ltac:(by_fields).
#[export] Instance wire_manifest : Wire NotificationManifestId :=
  wire_via manifest_text (λ t, Some (MkManifestId t)) ltac:(by_fields).
#[export] Instance wire_recipient_presentation : Wire RecipientPresentation :=
  wire_via (λ r, (rp_recipient r, rp_label r)) (λ '(r, l), Some (MkRecipientPresentation r l))
    ltac:(by_fields).
#[export] Instance wire_presentation : Wire MessagePresentation :=
  wire_via (λ p, (mp_sender_label p, mp_recipient_labels p))
    (λ '(s, l), Some (MkMessagePresentation s l)) ltac:(by_fields).
#[export] Instance wire_metadata : Wire MessageMetadata :=
  wire_via (λ m, (md_record_version m, md_workspace_id m, md_sender m, md_recipients m,
                  md_presentation m, md_summary m, md_thread_root m, md_client_key m,
                  md_request_digest m, md_supersedes m, md_raw m, md_broadcast m))
    (λ '(v, w, s, rs, p, su, t, k, d, sp, raw, b),
       Some (MkMessageMetadata v w s rs p su t k d sp raw b)) ltac:(by_fields).
#[export] Instance wire_payload : Wire CanonicalSemanticPayload :=
  wire_via (λ p, (pl_kind p, pl_sender p, pl_recipients p, pl_subject p, pl_summary p, pl_body p,
                  pl_reply_to p, pl_supersedes p))
    (λ '(k, s, rs, sj, su, b, r, sp), Some (MkPayload k s rs sj su b r sp)) ltac:(by_fields).
#[export] Instance wire_verify_outcome : Wire NotificationVerifyOutcome :=
  wire_via (λ o, (vo_kind o, vo_observed_composer o)) (λ '(k, c), Some (MkVerifyOutcome k c))
    ltac:(by_fields).
#[export] Instance wire_route : Wire NotificationRouteEvidenceId :=
  wire_via (λ r, (re_boot_id r, re_generation r)) (λ '(b, g), Some (MkRouteEvidence b g))
    ltac:(by_fields).
#[export] Instance wire_binding : Wire NotificationBinding :=
  wire_via (λ b, (nb_recipient b, nb_pane_root b, nb_leader b, nb_agent b, nb_manifest b))
    (λ '(r, p, l, a, m), Some (MkBinding r p l a m)) ltac:(by_fields).
#[export] Instance wire_observation : Wire NotificationPreWriteObservation :=
  wire_via (λ o, (po_write_block o, po_pane_root o, po_selected_manifest o, po_binding o,
                  po_route_evidence o, po_pane_width o, po_required_pane_width o))
    (λ '(w, r, m, b, e, p, q), Some (MkPreWriteObservation w r m b e p q)) ltac:(by_fields).
#[export] Instance wire_attempt_ref : Wire AttemptRef :=
  wire_via (λ a, (ar_record_version a, ar_attempt_id a, ar_message_id a, ar_recipient a))
    (λ '(v, a, m, r), Some (MkAttemptRef v a m r)) ltac:(by_fields).
#[export] Instance wire_requeue : Wire NotificationRequeue :=
  wire_via (λ q, (rq_prior_attempt_id q, rq_attempt_id q, rq_recipient q))
    (λ '(p, a, r), Some (MkRequeue p a r)) ltac:(by_fields).
#[export] Instance wire_transition : Wire NotificationTransitionFact :=
  wire_via (λ t, (tf_record_version t, tf_attempt_id t, tf_message_id t, tf_recipient t,
                  tf_state t, tf_binding t, tf_transport t, tf_doorbell_format t, tf_cause t,
                  tf_verified_by t, tf_verify_outcome t, tf_pre_write_cause t, tf_wake_block t,
                  tf_pre_write_observation t))
    (λ '(v, a, m, r, s, b, t, d, c, vb, vo, pc, w, o),
       Some (MkTransition v a m r s b t d c vb vo pc w o)) ltac:(by_fields).
#[export] Instance wire_delivery : Wire Delivery :=
  wire_via (λ d, (dl_to d, dl_state d, dl_verified_by d, dl_attempts d, dl_ts d, dl_cause d))
    (λ '(t, s, v, a, ts, c), Some (MkDelivery t s v a ts c)) ltac:(by_fields).

(** Facts: the tag, then the fields. *)
#[export] Instance wire_mailbox_fact : Wire MailboxFact :=
  wire_via (λ f, match f with
                 | MessageClaimed v m r c => inl (v, m, r, c)
                 | MessageDeliveredDirect v m r a => inr (v, m, r, a)
                 end)
    (λ x, Some match x with
               | inl (v, m, r, c) => MessageClaimed v m r c
               | inr (v, m, r, a) => MessageDeliveredDirect v m r a
               end) ltac:(by_fields).
#[export] Instance wire_notification_fact : Wire NotificationFact :=
  wire_via
    (λ f, match f with
          | NotificationTransition t => inl t
          | NotificationUnclaimedReminderQueued a => inr (inl (0, a))
          | NotificationCleared a => inr (inl (1, a))
          | NotificationClaimedStagedCleared a => inr (inl (2, a))
          | NotificationClaimedAckTimeoutReconciled a => inr (inl (3, a))
          | NotificationRequeued p a => inr (inr (inl (p, a)))
          | NotificationsRequeued v m q => inr (inr (inr (inl (v, m, q))))
          | NotificationsCleared v b l o c => inr (inr (inr (inr (inl (v, b, l, o, c)))))
          | NotificationWithdrawnBeforeWrite a o => inr (inr (inr (inr (inr (inl (a, o))))))
          | NotificationResolutionIntent a r fd =>
              inr (inr (inr (inr (inr (inr (inl (4, a, r, fd)))))))
          | NotificationResolutionActionReserved a r =>
              inr (inr (inr (inr (inr (inr (inl (5, a, r, false)))))))
          | NotificationResolutionActionAccepted a r =>
              inr (inr (inr (inr (inr (inr (inl (6, a, r, false)))))))
          | NotificationResolutionIntentWithdrawn a r =>
              inr (inr (inr (inr (inr (inr (inl (7, a, r, false)))))))
          | NotificationResolvedWithoutTerminalAction a r =>
              inr (inr (inr (inr (inr (inr (inl (8, a, r, false)))))))
          | NotificationResolutionConsumptionObserved a e t =>
              inr (inr (inr (inr (inr (inr (inr (inl (a, e, t))))))))
          | NotificationResolved v a r => inr (inr (inr (inr (inr (inr (inr (inr (inl (v, a, r)))))))))
          | NotificationBarrierRetired a c b =>
              inr (inr (inr (inr (inr (inr (inr (inr (inr (a, c, b)))))))))
          end)
    (λ x, Some match x with
          | inl t => NotificationTransition t
          | inr (inl (n, a)) =>
              if n =? 0 then NotificationUnclaimedReminderQueued a
              else if n =? 1 then NotificationCleared a
              else if n =? 2 then NotificationClaimedStagedCleared a
              else NotificationClaimedAckTimeoutReconciled a
          | inr (inr (inl (p, a))) => NotificationRequeued p a
          | inr (inr (inr (inl (v, m, q)))) => NotificationsRequeued v m q
          | inr (inr (inr (inr (inl (v, b, l, o, c))))) => NotificationsCleared v b l o c
          | inr (inr (inr (inr (inr (inl (a, o)))))) => NotificationWithdrawnBeforeWrite a o
          | inr (inr (inr (inr (inr (inr (inl (n, a, r, fd))))))) =>
              if n =? 4 then NotificationResolutionIntent a r fd
              else if n =? 5 then NotificationResolutionActionReserved a r
              else if n =? 6 then NotificationResolutionActionAccepted a r
              else if n =? 7 then NotificationResolutionIntentWithdrawn a r
              else NotificationResolvedWithoutTerminalAction a r
          | inr (inr (inr (inr (inr (inr (inr (inl (a, e, t)))))))) =>
              NotificationResolutionConsumptionObserved a e t
          | inr (inr (inr (inr (inr (inr (inr (inr (inl (v, a, r))))))))) => NotificationResolved v a r
          | inr (inr (inr (inr (inr (inr (inr (inr (inr (a, c, b))))))))) =>
              NotificationBarrierRetired a c b
          end) ltac:(by_fields).

(** ** Values and their conversions *)
Inductive Value := VMetadata (m : MessageMetadata) | VMailbox (f : MailboxFact)
  | VNotification (f : NotificationFact).
#[export] Instance wire_value : Wire Value :=
  wire_via (λ v, match v with
                 | VMetadata m => inl m | VMailbox f => inr (inl f) | VNotification f => inr (inr f)
                 end)
    (λ x, Some match x with
               | inl m => VMetadata m | inr (inl f) => VMailbox f | inr (inr f) => VNotification f
               end) ltac:(by_fields).
#[export] Instance wire_line : Wire (LedgerLine Value) :=
  wire_via (λ l, (ll_seq l, ll_boot_id l, ll_id l, ll_ts l, ll_kind l, ll_from l, ll_to l,
                  ll_subject l, ll_body l, ll_reply_to l, ll_deliveries l, ll_data l))
    (λ '(s, b, i, t, k, f, to, sj, bd, r, d, x), Some (MkLedgerLine s b i t k f to sj bd r d x))
    ltac:(by_fields).

Definition wrong_type : rstr := str "invalid type".
(** The members the code asks for are the tag and the attempt of a transition. *)
Definition value_member `{!Uuids} (v : Value) (key : rstr) : option rstr :=
  match v with
  | VMetadata _ => None
  | VMailbox f => if bool_decide (key = str "type") then Some (mailbox_fact_tag f) else None
  | VNotification f =>
      if bool_decide (key = str "type") then Some (notification_fact_tag f)
      else match f with
           | NotificationTransition t =>
               if bool_decide (key = str "attempt_id") then Some (attempt_display (tf_attempt_id t))
               else None
           | _ => None
           end
  end.
#[export] Instance value_serde `{!Uuids} : Serde Value := {|
  value_str := value_member;
  metadata_from_value v := match v with VMetadata m => Ok m | _ => Err wrong_type end;
  metadata_to_value m := Ok (VMetadata m);
  mailbox_fact_from_value v := match v with VMailbox f => Ok f | _ => Err wrong_type end;
  mailbox_fact_to_value f := Ok (VMailbox f);
  notification_fact_from_value v := match v with VNotification f => Ok f | _ => Err wrong_type end;
  notification_fact_to_value f := Ok (VNotification f);
|}.
#[export] Instance value_serde_laws `{!Uuids} : SerdeLaws Value.
Proof. by split; intros; simplify_eq/=. Qed.

(** ** Rows as text *)
Definition token_text (n : N) : rstr := dec_string n ++ [44].
Fixpoint parse_tokens (cur : N) (s : rstr) : list N :=
  match s with
  | [] => []
  | c :: s => if c =? 44 then cur :: parse_tokens 0 s else parse_tokens (dec_step cur c) s
  end.
Definition braces (tokens : list N) : rstr := [123] ++ mjoin (token_text <$> tokens) ++ [125].
Definition unbraces (s : rstr) : option (list N) :=
  s ← strip_prefix [123] s; s ← strip_suffix [125] s; Some (parse_tokens 0 s).

Lemma parse_digits cur ds rest :
  Forall (λ c, is_ascii_digit c = true) ds →
  parse_tokens cur (ds ++ 44 :: rest) = foldl dec_step cur ds :: parse_tokens 0 rest.
Proof.
  intros H. revert cur. induction H as [|c ds Hc _ IH]; intros cur; cbn [app parse_tokens]; [done|].
  destruct (N.eqb_spec c 44) as [->|]; [done|]. by rewrite IH.
Qed.
Lemma parse_tokens_text tokens : parse_tokens 0 (mjoin (token_text <$> tokens)) = tokens.
Proof.
  induction tokens as [|n tokens IH]; [done|].
  change (mjoin (token_text <$> (n :: tokens)))
    with ((dec_string n ++ [44]) ++ mjoin (token_text <$> tokens)).
  rewrite <-app_assoc. cbn [app]. rewrite parse_digits by apply dec_string_digits.
  by rewrite IH, dec_string_value.
Qed.
Lemma unbraces_braces tokens : unbraces (braces tokens) = Some tokens.
Proof.
  unfold unbraces, braces. rewrite strip_prefix_app. cbn [mbind option_bind].
  rewrite (proj2 (strip_suffix_Some [125] _ (mjoin (token_text <$> tokens)))) by done.
  cbn. by rewrite parse_tokens_text.
Qed.

(** Only digits, commas and the braces occur. *)
Lemma braces_chars tokens : Forall (λ c, 44 ≤ c < 128) (braces tokens).
Proof.
  unfold braces. apply Forall_app; split; [|apply Forall_app; split].
  1,3: apply Forall_singleton; lia.
  apply Forall_join, Forall_fmap, Forall_forall. intros n _. unfold token_text.
  apply Forall_app. split; [|apply Forall_singleton; lia].
  eapply Forall_impl; [apply dec_string_digits|]. intros c. unfold is_ascii_digit, in_range.
  intros [H1%N.leb_le H2%N.leb_le]%andb_true_iff. cbn. lia.
Qed.

Lemma utf8_decode_ascii s : Forall (λ c, c < 128) s → utf8_decode s = Some s.
Proof.
  induction 1 as [|c s Hc _ IH]; [done|]. cbn [utf8_decode].
  by rewrite (proj2 (N.ltb_lt c 128) Hc), IH.
Qed.

#[export] Instance value_codec : LineCodec Value := {|
  line_to_vec line := Ok (braces (put line));
  line_from_str s :=
    match tokens ← unbraces s; get tokens with
    | Some (line, []) => Ok line
    | _ => Err wrong_type
    end;
  value_storable _ := true;
|}.
#[export] Instance value_codec_laws : LineCodecLaws Value.
Proof.
  split.
  - intros line bytes _ [= <-]. exists (braces (put line)). split_and!.
    + apply utf8_decode_ascii. eapply Forall_impl; [apply braces_chars|]. intros c. cbn. lia.
    + rewrite trim_fix; [done|..].
      * by intros c s [= <- _].
      * intros l c. unfold braces. rewrite app_assoc. by intros [_ [= <-]]%app_inj_tail.
    + cbn [line_from_str value_codec]. rewrite unbraces_braces. cbn [mbind option_bind].
      pose proof (get_put line []) as Hg. rewrite app_nil_r in Hg. by rewrite Hg.
  - intros line bytes [= <-]. split.
    + intros Hin. pose proof (Forall_elem _ _ _ (braces_chars _) Hin) as H. cbn in H. lia.
    + unfold braces. by rewrite app_assoc, last_snoc.
Qed.
#[export] Instance value_storable_laws `{!Uuids} : StorableLaws.
Proof. by split. Qed.

(** ** UUID text *)
Fixpoint hex_go (fuel : nat) (n : N) (acc : rstr) : rstr :=
  match fuel with
  | O => acc
  | S fuel => hex_go fuel (n / 16) (hex_digit (n mod 16) :: acc)
  end.
(** The 32 digits in groups of 8, 4, 4, 4 and 12. *)
Definition hyphenate (s : rstr) : rstr :=
  take 8 s ++ [45] ++ take 4 (drop 8 s) ++ [45] ++ take 4 (drop 12 s) ++ [45] ++
  take 4 (drop 16 s) ++ [45] ++ drop 20 s.
Definition unhex_digit (c : rchar) : N := if c <? 58 then c - 48 else c - 87.
Definition unhex (s : rstr) : N := foldl (λ acc c, acc * 16 + unhex_digit c) 0 s.
Definition uuid_text (u : Uuid) : rstr := hyphenate (hex_go 32 (bval u) []).
(** The hyphenated form only; the crate reads other spellings as well. *)
Definition uuid_read (s : rstr) : option Uuid :=
  u ← to_bsub (λ n, n <? 2 ^ 128) (unhex (List.filter (λ c, negb (c =? 45)) s));
  if bool_decide (uuid_text u = s) then Some u else None.
#[export] Instance hex_uuids : Uuids := {| uuid_parse_str := uuid_read; uuid_hyphenated := uuid_text |}.

Lemma hex_digit_spec d : d < 16 → unhex_digit (hex_digit d) = d ∧ uuid_text_char (hex_digit d) = true ∧ hex_digit d ≠ 45.
Proof.
  intros H. unfold hex_digit. destruct (N.ltb_spec d 10) as [Hd|Hd]; unfold unhex_digit;
    [rewrite (proj2 (N.ltb_lt _ _)) by lia|rewrite (proj2 (N.ltb_ge _ _)) by lia]; split_and!; try lia;
    unfold uuid_text_char, is_ascii_digit, in_range.
  - by rewrite (proj2 (N.leb_le 48 _)), (proj2 (N.leb_le _ 57)) by lia.
  - rewrite (proj2 (N.leb_le 97 _)), (proj2 (N.leb_le _ 102)) by lia. by rewrite orb_true_r.
Qed.
Lemma hex_go_spec fuel n acc :
  n < 16 ^ N.of_nat fuel →
  Forall (λ c, uuid_text_char c = true ∧ c ≠ 45) acc →
  Forall (λ c, uuid_text_char c = true ∧ c ≠ 45) (hex_go fuel n acc) ∧
  length (hex_go fuel n acc) = (fuel + length acc)%nat ∧
  foldl (λ a c, a * 16 + unhex_digit c) 0 (hex_go fuel n acc) =
    foldl (λ a c, a * 16 + unhex_digit c) n acc.
Proof.
  revert n acc. induction fuel as [|fuel IH]; intros n acc Hn Ha; cbn [hex_go].
  - cbn in Hn. by assert (n = 0) as -> by lia.
  - assert (n mod 16 < 16) as Hm by (apply N.mod_lt; lia).
    destruct (hex_digit_spec _ Hm) as (Hu & Hc & Hh).
    destruct (IH (n / 16) (hex_digit (n mod 16) :: acc)) as (H1 & H2 & H3).
    + apply N.Div0.div_lt_upper_bound. rewrite Nat2N.inj_succ, N.pow_succ_r' in Hn. lia.
    + by constructor.
    + split_and!; [done|rewrite H2; cbn; lia|]. rewrite H3. cbn [foldl]. rewrite Hu. f_equal.
      pose proof (N.div_mod' n 16) as E. revert E. generalize (n / 16), (n mod 16). lia.
Qed.

Lemma filter_no_hyphen s :
  Forall (λ c, uuid_text_char c = true ∧ c ≠ 45) s → List.filter (λ c, negb (c =? 45)) s = s.
Proof.
  induction 1 as [|c s [_ Hc] _ IH]; [done|]. cbn. by rewrite (proj2 (N.eqb_neq _ _) Hc), IH.
Qed.
#[export] Instance hex_uuid_laws : UuidLaws.
Proof.
  assert (∀ u : Uuid, Forall (λ c, uuid_text_char c = true ∧ c ≠ 45) (hex_go 32 (bval u) []) ∧
    unhex (hex_go 32 (bval u) []) = bval u) as Hspec.
  { intros u. destruct (hex_go_spec 32 (bval u) []) as (H1 & _ & H3); [|done|done].
    apply N.ltb_lt. exact (bok u). }
  split.
  - intros u. destruct (Hspec u) as [Hc Hv].
    cbn [uuid_parse_str uuid_hyphenated hex_uuids]. unfold uuid_read.
    assert (List.filter (λ c, negb (c =? 45)) (uuid_text u) = hex_go 32 (bval u) []) as ->.
    { unfold uuid_text, hyphenate. set (s := hex_go 32 (bval u) []) in *.
      rewrite !List.filter_app. cbn [List.filter N.eqb negb]. rewrite !app_nil_l.
      rewrite !filter_no_hyphen by auto using Forall_take, Forall_drop.
      reflexivity. }
    rewrite Hv, to_bsub_bval. cbn [mbind option_bind]. by rewrite bool_decide_eq_true_2.
  - intros u. destruct (Hspec u) as [Hc _].
    cbn [uuid_hyphenated hex_uuids]. unfold uuid_text, hyphenate.
    assert (Forall (λ c, uuid_text_char c = true) (hex_go 32 (bval u) [])) as H.
    { eapply Forall_impl; [exact Hc|]. by intros c []. }
    repeat (apply Forall_app; split); auto using Forall_take, Forall_drop; by repeat constructor.
Qed.

(** ** A stand-in hash *)
Definition checksum (bytes : list N) : N := foldl (λ acc b, (acc * 31 + b) mod 256) 7 bytes.
#[export] Instance sum_digests : Digests :=
  {| sha256 bytes := replicate 32 (checksum bytes); payload_to_vec p := Ok (put p) |}.
#[export] Instance sum_digest_laws : DigestLaws.
Proof.
  split; intros bytes; cbn [sha256 sum_digests].
  - apply length_replicate.
  - apply Forall_replicate. unfold checksum.
    induction bytes as [|b bytes _] using rev_ind; [done|]. rewrite foldl_app. cbn [foldl].
    apply N.mod_lt. lia.
Qed.
