(* ===== verification/Demo.v ===== *)
(** * A concrete workspace

    One journal driven through the store's operations: a message, its wake,
    its claim and a reply; a wake that ends in attention and is resolved.  The
    states are computed; the witnesses use them. *)
From S2P Require Import Prelude Text Identity Ledger Journal Mailbox Notification Facts.
From S2P Require Import Facts Projection Attempt Prepared MailboxInv NotificationInv.
From S2P Require Import Invariant Replay Entries Guarantees Store StoreInv StoreOps Idempotency.
From S2P Require Import Codec.
Local Open Scope N_scope.

Definition uuid_of (n : N) (H : (n <? 2 ^ 128) = true) : Uuid := BSub n H.
Abbreviation durable n := (BSub (P := λ u, negb (uuid_is_nil u)) (uuid_of n eq_refl) eq_refl)
  (only parsing).
Definition demo_ws : WorkspaceId := MkWorkspaceId (durable 17).
Definition demo_session : SessionInstanceId := MkSessionInstanceId (durable 34).
Definition pane (n : N) (H : (n <=? u64_max) = true) : TmuxPaneId := BSub n H.
Definition alice : RecipientKey := recipient_agent demo_ws demo_session (pane 1 eq_refl).
Definition bob : RecipientKey := recipient_agent demo_ws demo_session (pane 2 eq_refl).
Definition admin : RecipientKey := recipient_admin demo_ws.
Definition process (n : Z) (H : process_instance_ok (MkProcessInstance n 7) = true)
    : ProcessInstanceId := BSub (MkProcessInstance n 7) H.
Definition bob_pane : NotificationBinding :=
  MkBinding bob (Some (process 10 eq_refl)) (Some (process 11 eq_refl)) (process 12 eq_refl)
    (MkManifestId (str "claude")).
Definition attempt1 : NotificationAttemptId := durable 51.
Definition attempt2 : NotificationAttemptId := durable 68.
Definition m1 : MessageId := MkMessageId (str "cyc-11111111-22222222").
Definition m2 : MessageId := MkMessageId (str "cyc-33333333-44444444").
Definition m3 : MessageId := MkMessageId (str "cyc-11111111-55555555").
Definition m4 : MessageId := MkMessageId (str "cyc-33333333-66666666").

Definition draft_to (body key : rstr) (supersedes : option MessageId) : MessageDraft :=
  MkDraft KMsg alice [bob] (Some (str "review")) (Some (str "please review")) (Some body) (Some key)
    supersedes (MkMessagePresentation (str "alice") [MkRecipientPresentation bob (str "bob")])
    false false.
Definition reply_to_m1 : ReplyDraft :=
  MkReplyDraft bob m1 (Some (str "done")) (Some (str "merged")) (Some (str "k3")) (str "bob")
    (str "alice") false.

(** The clock reads [1000] and the disk works. *)
Definition calm : Env := MkEnv io_ok 1000.
Definition calm_env : nat → Env := λ _, calm.

Abbreviation DemoStore := (MessageStore (V:=Value)) (only parsing).
Definition run_ops (s : DemoStore) (ops : list StoreOp) : DemoStore :=
  foldl (λ s op, (run_op s calm_env op).1) s ops.

Definition demo_empty : DemoStore :=
  MkStore (MkWriter [] 1 true false false true (str "boot")) (projection_new demo_ws) None.

Definition first_ops : list StoreOp :=
  [OpAccept m1 (draft_to (str "first") (str "k1") None) 5;
   OpQueue m1 bob attempt1;
   OpAdvance m1 bob attempt1 Gating None None;
   OpAdvanceWithTransport m1 bob attempt1 Writing bob_pane Doorbell (Some 4)].
Definition submit_ops : list StoreOp :=
  [OpAdvance m1 bob attempt1 Staged None None;
   OpAdvance m1 bob attempt1 Submitting None None;
   OpAdvance m1 bob attempt1 Submitted None None].
Definition ops_m2 : list StoreOp :=
  [OpAccept m2 (draft_to (str "second") (str "k2") None) 6;
   OpQueue m2 bob attempt2;
   OpAdvance m2 bob attempt2 Gating None None;
   OpAdvanceWithTransport m2 bob attempt2 Writing bob_pane Doorbell (Some 4);
   OpAdvance m2 bob attempt2 Staged None None;
   OpAdvance m2 bob attempt2 AttentionRequired None (Some VerifyFailed)].

(** Decision rows of an older journal, which only replay applies. *)
Abbreviation DemoState := (MailboxProjection Value) (only parsing).
Definition ref2 : AttemptRef := MkAttemptRef CANONICAL_RECORD_VERSION attempt2 m2 bob.
Definition fact_row (p : DemoState) (f : NotificationFact) : LedgerLine Value :=
  MkLedgerLine (last_seq p + 1) (str "boot") (mid_text m2) 1000 KState CYCLOPSD
    [recipient_display bob] None None None [] (Some (VNotification f)).
Definition applied_state (r : Applied (V:=Value)) : DemoState :=
  match r with AppliedOk p => p | _ => projection_new demo_ws end.
Definition applied_ok (r : Applied (V:=Value)) : bool :=
  match r with AppliedOk _ => true | _ => false end.
Lemma applied_ok_state r : applied_ok r = true → r = AppliedOk (applied_state r).
Proof. by destruct r. Qed.
Definition apply_fact (p : DemoState) (f : NotificationFact) : DemoState :=
  applied_state (apply_inner p (fact_row p f) true).
Definition resolution_facts : list NotificationFact :=
  [NotificationResolutionIntent ref2 Complete false;
   NotificationResolutionActionAccepted ref2 Complete;
   NotificationResolutionConsumptionObserved ref2 ExactHookPrompt 900].

(** ** States *)
Definition s_first : DemoStore := run_ops demo_empty first_ops.
Definition s_submitted : DemoStore := run_ops s_first submit_ops.
Definition s_claimed : DemoStore := run_ops s_submitted [OpClaim bob m1 8].
Definition s_replied : DemoStore := run_ops s_claimed [OpReply m3 reply_to_m1 9].
Definition s_attention : DemoStore := run_ops s_replied ops_m2.
Definition p_consumed : DemoState :=
  foldl apply_fact (st_projection s_attention) resolution_facts.
Definition resolved_row : LedgerLine Value :=
  fact_row p_consumed (NotificationResolved NOTIFICATION_RESOLUTION_PROOF_VERSION ref2 Complete).
Definition p_resolved : DemoState := applied_state (apply_inner p_consumed resolved_row true).

(** Each is a store the operations lead to. *)
Definition stored (s : DemoStore) : Prop := ∃ rows, store_ok demo_ws s rows.

Lemma stored_empty : stored demo_empty.
Proof.
  exists []. split; try done. exists [], []. split_and!; [done|done|by left|done].
Qed.
Lemma stored_ops s ops : stored s → Forall op_valid ops → stored (run_ops s ops).
Proof.
  intros Hs Hops. revert s Hs.
  induction Hops as [|op ops Hop _ IH]; intros s [rows Hok]; [by exists rows|].
  destruct (run_op_ok demo_ws rows s calm_env op Hok Hop ltac:(done)) as [[extra Hok'] _].
  apply IH. by exists (rows ++ extra).
Qed.
Lemma stored_reachable s : stored s → reachable (st_projection s).
Proof. intros [rows H]. by eapply store_ok_reachable. Qed.
Lemma reachable_step (p : DemoState) line p' :
  reachable p → apply_inner p line true = AppliedOk p' → reachable p'.
Proof.
  intros (ws & rows & Hr) Ha. exists ws, (rows ++ [line]). unfold replay in *.
  erewrite apply_all_app by exact Hr. cbn [apply_all]. by rewrite Ha.
Qed.

(** The ids of the scenario are valid. *)
Lemma demo_ids_valid : Forall message_id_valid [m1; m2; m3; m4].
Proof. repeat (constructor; [reflexivity|]). constructor. Qed.

Ltac valid_list := repeat first [apply Forall_nil_2 | apply Forall_cons_2]; first [reflexivity | done].
Lemma stored_first : stored s_first.
Proof. apply stored_ops; [apply stored_empty|valid_list]. Qed.
Lemma stored_submitted : stored s_submitted.
Proof. apply stored_ops; [apply stored_first|valid_list]. Qed.
Lemma stored_claimed : stored s_claimed.
Proof. apply stored_ops; [apply stored_submitted|valid_list]. Qed.
Lemma stored_replied : stored s_replied.
Proof. apply stored_ops; [apply stored_claimed|valid_list]. Qed.
Lemma stored_attention : stored s_attention.
Proof. apply stored_ops; [apply stored_replied|valid_list]. Qed.
Lemma reachable_facts (p : DemoState) facts :
  reachable p →
  (∀ n f, facts !! n = Some f →
     applied_ok (apply_inner (foldl apply_fact p (take n facts))
                   (fact_row (foldl apply_fact p (take n facts)) f) true) = true) →
  reachable (foldl apply_fact p facts).
Proof.
  revert p. induction facts as [|f facts IH]; intros p Hp H; [done|]. cbn [foldl]. apply IH.
  - eapply reachable_step; [exact Hp|]. apply applied_ok_state. exact (H 0%nat f eq_refl).
  - intros n g Hg. exact (H (S n) g Hg).
Qed.
Lemma reachable_consumed : reachable p_consumed.
Proof.
  apply reachable_facts; [apply stored_reachable, stored_attention|].
  intros n f Hf. destruct n as [|[|[|n]]]; cbn in Hf; simplify_eq; vm_compute; reflexivity.
Qed.
Lemma resolved_row_applies : apply_inner p_consumed resolved_row true = AppliedOk p_resolved.
Proof. unfold p_resolved. apply applied_ok_state. vm_compute. reflexivity. Qed.
Lemma reachable_resolved : reachable p_resolved.
Proof. eapply reachable_step; [apply reachable_consumed|apply resolved_row_applies]. Qed.

(** Every row above is accepted: the journal has one for each operation. *)
Lemma demo_all_done : last_seq p_resolved = 19.
Proof. vm_compute. reflexivity. Qed.
