(* ===== verification/Witnesses.v ===== *)
(** * Witnesses

    Each property that has hypotheses, applied at a concrete input where they
    hold: the workspace of [Demo.v]. *)
From S2P Require Import Prelude Text Identity Ledger Journal Mailbox Notification Doorbell Facts.
From S2P Require Import Facts Projection Attempt Prepared MailboxInv NotificationInv.
From S2P Require Import Invariant Replay Entries Guarantees Store Views ViewProps StoreInv.
From S2P Require Import StoreOps Scheduler Recovery Idempotency Codec Demo.
Local Open Scope N_scope.

(** ** One attempt *)
Definition record_in (state : NotificationState) (binding : option NotificationBinding)
    : NotificationRecord :=
  MkRecord attempt1 m1 bob state binding Doorbell (Some 4) None None None None None None 0 0 2 4 1000.
Definition row_at (seq : N) : LedgerLine Value :=
  MkLedgerLine seq (str "boot") (mid_text m1) 1000 KState CYCLOPSD [recipient_display bob]
    None None None [] None.
Definition fact_to (state : NotificationState) (binding : option NotificationBinding)
    (transport : option NotificationTransport) (format : option N) : NotificationTransitionFact :=
  MkTransition 1 attempt1 m1 bob state binding transport format None None None None None None.

Lemma write_boundary_one_way_witness :
  let c := record_in Notified (Some bob_pane) in
  let r := reminder_record c (row_at 5) in
  nr_state c = Notified ∧ nr_state r = Gating ∧
  (nr_unclaimed_reminder_count c = 0 ∧ nr_unclaimed_reminder_count r = 1).
Proof.
  cbv zeta.
  destruct (write_boundary_one_way (V:=Value) false (record_in Notified (Some bob_pane))
    (reminder_record (record_in Notified (Some bob_pane)) (row_at 5))) as [H|[H|H]].
  - by apply step_reminder.
  - reflexivity.
  - reflexivity.
  - by destruct H as (? & _).
  - by split_and!.
  - by destruct H as (? & _).
Defined.

Lemma write_boundary_crossed_bound_witness :
  let r := transition_record (fact_to Writing (Some bob_pane) (Some Doorbell) (Some 4))
             (record_in Gating None) (row_at 5) in
  ∃ b, nr_binding r = Some b ∧ nb_recipient b = nr_recipient r.
Proof.
  cbv zeta.
  destruct (write_boundary_crossed_bound (V:=Value) false (record_in Gating None)
    (transition_record (fact_to Writing (Some bob_pane) (Some Doorbell) (Some 4))
       (record_in Gating None) (row_at 5))) as [(_ & _ & [H|H])|(H & _)].
  - by apply step_transition.
  - reflexivity.
  - reflexivity.
  - by vm_compute in H.
  - exact H.
  - by vm_compute in H.
Defined.

Lemma terminal_states_live_witness :
  nr_transport (record_in Notified (Some bob_pane)) = Doorbell ∧
  nr_unclaimed_reminder_count (record_in Notified (Some bob_pane)) = 0.
Proof.
  exact (terminal_states_live (V:=Value) (record_in Notified (Some bob_pane))
    (reminder_record (record_in Notified (Some bob_pane)) (row_at 5))
    (step_reminder false (record_in Notified (Some bob_pane)) (row_at 5) eq_refl eq_refl eq_refl)
    eq_refl).
Defined.

Lemma attempt_steps_bounded_witness :
  N.of_nat 1 ≤ attempt_budget (record_in Gating None) ∧ attempt_budget (record_in Gating None) ≤ 52.
Proof.
  apply (attempt_steps_bounded (V:=Value) 1 (record_in Gating None)
    (transition_record (fact_to Writing (Some bob_pane) (Some Doorbell) (Some 4))
       (record_in Gating None) (row_at 5))).
  apply nsteps_once. by apply step_transition.
Defined.

Lemma execution_epoch_bounded_witness :
  let c := record_in Notified (Some bob_pane) in
  execution_epoch c = 0 ∧ execution_epoch (reminder_record c (row_at 5)) = 1 ∧
  execution_epoch (reminder_record c (row_at 5)) ≤ 3.
Proof.
  cbv zeta. split_and!; [reflexivity..|].
  apply (execution_epoch_bounded (V:=Value) false (record_in Notified (Some bob_pane))).
  - done.
  - apply rtc_once. by apply step_reminder.
Defined.

(** ** The projection *)
Definition present {A} (o : option A) : bool := match o with Some _ => true | None => false end.
Lemma present_default {A} (d : A) (o : option A) : present o = true → o = Some (default d o).
Proof. by destruct o. Qed.

Definition canonical_of (d : MessageDraft) : CanonicalDraft :=
  MkCanonicalDraft (dr_kind d) (dr_sender d) (dr_recipients d) (dr_subject d) (dr_summary d)
    (dr_body d) None (dr_client_key d) (dr_supersedes d) (dr_presentation d) (dr_raw d)
    (dr_broadcast d).
Definition digest_of (d : MessageDraft) : RequestDigest :=
  match draft_digest (canonical_of d) with Ok x => x | Err _ => MkRequestDigest [] end.
Definition message_row (s : DemoStore) (id root : MessageId) (d : MessageDraft) : LedgerLine Value :=
  draft_row s calm id (canonical_of d) 5 [str "bob"]
    (VMetadata (draft_metadata (st_projection s) (canonical_of d) root (digest_of d))).

Definition draft1 : MessageDraft := draft_to (str "first") (str "k1") None.
Definition draft4 : MessageDraft := draft_to (str "instead") (str "k4") (Some m1).
Definition row1 : LedgerLine Value := message_row demo_empty m1 m1 draft1.
Definition p_one : DemoState := applied_state (replay (projection_new demo_ws) [row1]).
Definition s_one : DemoStore := run_ops demo_empty [OpAccept m1 draft1 5].
Definition row4 : LedgerLine Value := message_row s_one m4 m1 draft4.
Definition p_four : DemoState := applied_state (apply_inner (st_projection s_one) row4 false).
Lemma stored_one : stored s_one.
Proof. apply stored_ops; [apply stored_empty|valid_list]. Qed.
Lemma row4_applies : apply_inner (st_projection s_one) row4 false = AppliedOk p_four.
Proof. unfold p_four. apply applied_ok_state. vm_compute. reflexivity. Qed.

Definition p_submitted : DemoState := st_projection s_submitted.
Definition claim_row : LedgerLine Value :=
  state_row s_submitted calm (mid_text m1) 8 (recipient_display bob) []
    (VMailbox (MessageClaimed 1 m1 bob bob)).
Definition p_claimed : DemoState := applied_state (apply_inner p_submitted claim_row false).
Lemma claim_row_applies : apply_inner p_submitted claim_row false = AppliedOk p_claimed.
Proof. unfold p_claimed. apply applied_ok_state. vm_compute. reflexivity. Qed.
Lemma reachable_submitted : reachable p_submitted.
Proof. apply stored_reachable, stored_submitted. Qed.

Lemma journal_invariant_witness :
  wf p_one ∧ last_seq p_one = 1 ∧ ∀ i line, [row1] !! i = Some line → ll_seq line = 1 + N.of_nat i.
Proof.
  apply (journal_invariant demo_ws [row1] p_one). unfold p_one. apply applied_ok_state.
  vm_compute. reflexivity.
Defined.

Lemma live_journal_replays_witness :
  applied_ok (run_live (projection_new demo_ws) [row1; row4]) = true ∧
  applied_ok (replay (projection_new demo_ws) [row1; row4]) = true.
Proof.
  assert (applied_ok (run_live (projection_new demo_ws) [row1; row4]) = true) as H
    by (vm_compute; reflexivity).
  split; [exact H|].
  rewrite (live_journal_replays demo_ws [row1; row4] _ (applied_ok_state _ H)). reflexivity.
Defined.

Lemma attempts_refine_machine_witness :
  (∀ k n, notifications p_claimed !! k = Some n → record_change false p_submitted k n) ∧
  is_Some (notifications p_claimed !! (bob, m1)).
Proof.
  destruct (attempts_refine_machine p_submitted claim_row false p_claimed
    reachable_submitted claim_row_applies) as [H1 H2].
  split; [exact H1|]. apply H2. vm_compute. eauto.
Defined.

Lemma message_row_appends_witness :
  (me_message_id <$> get_pending (st_projection s_one) bob) = [m1] ∧
  (me_message_id <$> get_pending p_four bob) = [m4] ∧
  ∃ id md, message_id_new (ll_id row4) = Ok id ∧ messages (st_projection s_one) !! id = None ∧
    messages p_four = <[id := row4]> (messages (st_projection s_one)) ∧
    extract_message_metadata row4 = Ok md.
Proof.
  split_and!; [vm_compute; reflexivity..|].
  destruct (message_row_appends (st_projection s_one) row4 false p_four
    (stored_reachable _ stored_one) row4_applies (or_introl eq_refl)) as (id & md & ? & ? & ? & ? & _).
  exists id, md. split_and!; assumption.
Defined.

Definition no_entry : MailboxEntry := MkEntry m1 bob Pending 0 0.
Lemma entries_settle_once_witness :
  let e := default no_entry (get_entry p_claimed bob m1) in
  is_claimed (me_state e) = true ∧
  ∃ p', apply_inner p_claimed (message_row s_claimed m2 m2 (draft_to (str "x") (str "k2") None)) true
          = AppliedOk p' ∧ get_entry p' bob m1 = Some e.
Proof.
  cbv zeta. split; [vm_compute; reflexivity|].
  set (line := message_row s_claimed m2 m2 (draft_to (str "x") (str "k2") None)).
  assert (apply_inner p_claimed line true = AppliedOk (applied_state (apply_inner p_claimed line true))) as Ha.
  { apply applied_ok_state. vm_compute. reflexivity. }
  exists (applied_state (apply_inner p_claimed line true)). split; [exact Ha|].
  assert (get_entry p_claimed bob m1 = Some (default no_entry (get_entry p_claimed bob m1))) as He.
  { apply present_default. vm_compute. reflexivity. }
  destruct (entries_settle_once p_claimed line true _ bob m1 _
    (reachable_step _ _ _ reachable_submitted (apply_live_replay _ _ _ claim_row_applies)) Ha He)
    as (st & Hst & Hfix).
  rewrite Hst, Hfix by (vm_compute; reflexivity).
  by destruct (default no_entry (get_entry p_claimed bob m1)).
Defined.

Lemma claim_row_settles_witness :
  (me_message_id <$> get_pending p_submitted bob) = [m1] ∧ get_pending p_claimed bob = [] ∧
  ∃ e, get_entry p_submitted bob m1 = Some e ∧ me_state e = Pending ∧
    get_entry p_claimed bob m1 = Some (set_entry_state (Claimed bob 8) e).
Proof.
  destruct (claim_row_settles p_submitted claim_row false p_claimed 1 m1 bob bob
    reachable_submitted eq_refl eq_refl eq_refl claim_row_applies) as (_ & He & _).
  split_and!; [vm_compute; reflexivity..|exact He].
Defined.

Lemma claims_are_exact_witness :
  claimed_by p_claimed bob m1 = true ∧ claim_sequences p_claimed !! (bob, m1) = Some 8.
Proof.
  split; [|vm_compute; reflexivity].
  apply (proj2 (claims_are_exact p_claimed bob m1
    (reachable_step _ _ _ reachable_submitted (apply_live_replay _ _ _ claim_row_applies))) 8).
  vm_compute. reflexivity.
Defined.

Definition no_metadata : MessageMetadata :=
  draft_metadata (projection_new demo_ws : DemoState) (canonical_of draft1) m1 (MkRequestDigest []).
Definition metadata_of (line : LedgerLine Value) : MessageMetadata :=
  match extract_message_metadata line with Ok md => md | Err _ => no_metadata end.
Definition p_replied : DemoState := st_projection s_replied.
Definition stored_row (id : MessageId) : LedgerLine Value := default (row_at 0) (messages p_replied !! id).
Lemma stored_m1 : stored_message p_replied m1 (stored_row m1) (metadata_of (stored_row m1)).
Proof. split; [unfold stored_row; apply present_default|]; vm_compute; reflexivity. Qed.
Lemma stored_m3 : stored_message p_replied m3 (stored_row m3) (metadata_of (stored_row m3)).
Proof. split; [unfold stored_row; apply present_default|]; vm_compute; reflexivity. Qed.

Lemma client_key_names_one_message_witness :
  idempotency_index p_replied !! (alice, str "k1")
    = Some (m1, md_request_digest (metadata_of (stored_row m1))).
Proof.
  apply (client_key_names_one_message p_replied m1 m1 (stored_row m1) (stored_row m1)
    (metadata_of (stored_row m1)) (metadata_of (stored_row m1)) (str "k1")
    (stored_reachable _ stored_replied) stored_m1 stored_m1 eq_refl);
    vm_compute; reflexivity.
Defined.

Lemma threads_are_flat_witness :
  md_thread_root (metadata_of (stored_row m3)) = m1 ∧
  ∃ root rmd, stored_message p_replied (md_thread_root (metadata_of (stored_row m3))) root rmd ∧
    md_thread_root rmd = md_thread_root (metadata_of (stored_row m3)).
Proof.
  split; [vm_compute; reflexivity|].
  destruct (threads_are_flat p_replied m3 (stored_row m3) (metadata_of (stored_row m3))
    (stored_reachable _ stored_replied) stored_m3) as (root & rmd & H1 & H2 & _).
  exists root, rmd. split; assumption.
Defined.

Definition barrier1 : NotificationRecord :=
  default (record_in Queued None) (active_notification_barriers (st_projection s_first) !! attempt1).

Definition record1 : NotificationRecord :=
  default (record_in Queued None) (notifications (st_projection s_first) !! (bob, m1)).
Lemma attempt_ids_are_unique_witness :
  (bob, m1) = (nr_recipient record1, nr_message_id record1) ∧
  is_Some (get_entry (st_projection s_first) bob m1).
Proof.
  assert (notifications (st_projection s_first) !! (bob, m1) = Some record1) as H.
  { unfold record1. apply present_default. vm_compute. reflexivity. }
  destruct (attempt_ids_are_unique (st_projection s_first) (bob, m1) (bob, m1) record1 record1
    (stored_reachable _ stored_first) H H eq_refl) as (_ & _ & H1 & _ & H2).
  split; [exact H1|exact H2].
Defined.

Lemma resolution_needs_evidence_witness :
  resolved_attempts p_consumed !! attempt2 = None ∧
  resolved_attempts p_resolved !! attempt2 = Some Complete ∧
  attention_ok p_consumed attempt2 ∧ active_notification_barriers p_resolved !! attempt2 = None.
Proof.
  assert (resolved_attempts p_consumed !! attempt2 = None) as H1 by (vm_compute; reflexivity).
  assert (resolved_attempts p_resolved !! attempt2 = Some Complete) as H2 by (vm_compute; reflexivity).
  destruct (resolution_needs_evidence p_consumed resolved_row true p_resolved attempt2 Complete
    reachable_consumed resolved_row_applies H1 H2) as (H3 & H4 & _).
  split_and!; assumption.
Defined.

Definition after_resolved_row : LedgerLine Value :=
  message_row (MkStore (set_file [] false 20 (st_writer s_attention)) p_resolved None) m4 m4
    (draft_to (str "later") (str "k5") None).
Definition p_after : DemoState := applied_state (apply_inner p_resolved after_resolved_row true).
Lemma resolved_attempts_are_final_witness :
  resolved_attempts p_after !! attempt2 = Some Complete.
Proof.
  assert (apply_inner p_resolved after_resolved_row true = AppliedOk p_after) as Ha.
  { unfold p_after. apply applied_ok_state. vm_compute. reflexivity. }
  assert (resolved_attempts p_resolved !! attempt2 = Some Complete) as H by (vm_compute; reflexivity).
  exact (proj1 (resolved_attempts_are_final p_resolved after_resolved_row true p_after attempt2
    Complete reachable_resolved Ha H)).
Defined.

(** ** The journal *)
Definition empty_writer : LedgerWriter := MkWriter [] 1 true false false true (str "boot").
Definition torn_run : list (IoOutcome * N * LedgerLine Value) :=
  [(io_ok, 7, row_at 0); (MkIo (Some 5%nat) true, 8, row_at 0)].
Lemma writer_holds_empty : writer_holds empty_writer [].
Proof. by split. Qed.
Lemma acknowledged_rows_survive_witness :
  length (append_all empty_writer torn_run).2 = 1%nat ∧
  ∃ w2 extra, (length extra ≤ 1)%nat ∧
    open_with_replay (lw_file (append_all empty_writer torn_run).1) true (str "again") true
      = Ok (w2, [] ++ (append_all empty_writer torn_run).2 ++ extra).
Proof.
  split; [vm_compute; reflexivity|].
  apply (acknowledged_rows_survive empty_writer [] torn_run _ _ (str "again") writer_holds_empty eq_refl).
  - repeat constructor; vm_compute; congruence.
  - by destruct (append_all empty_writer torn_run).
Defined.

Lemma append_numbers_rows_witness :
  ∃ row json, (append empty_writer io_ok 7 (row_at 0)).2 = Ok row ∧ ll_seq row = 1 ∧
    line_to_vec row = Ok json ∧ lw_file (append empty_writer io_ok 7 (row_at 0)).1 = json ++ [10].
Proof.
  pose proof (append_numbers_rows empty_writer io_ok 7 (row_at 0)
    (append empty_writer io_ok 7 (row_at 0)).1 (append empty_writer io_ok 7 (row_at 0)).2) as H.
  specialize (H ltac:(by destruct (append empty_writer io_ok 7 (row_at 0)))).
  assert ((append empty_writer io_ok 7 (row_at 0)).2 = Ok (stamp empty_writer 7 (row_at 0))) as E
    by reflexivity.
  rewrite E in H. destruct H as (H1 & _ & _ & _ & _ & json & H2 & H3).
  exists (stamp empty_writer 7 (row_at 0)), json. split_and!; [exact E|exact H1|exact H2|exact H3].
Defined.

(** ** The store *)
Lemma reopening_rebuilds_the_store_witness :
  ∃ rows s2, store_ok demo_ws s_first rows ∧
    store_open (lw_file (st_writer s_first)) true demo_ws (str "again") = Done s2 ∧
    st_projection s2 = st_projection s_first.
Proof.
  destruct stored_first as [rows Hok].
  destruct (reopening_rebuilds_the_store demo_ws s_first rows (str "again") Hok)
    as (s2 & extra & H1 & _ & _ & H3).
  exists rows, s2. split_and!; [exact Hok|exact H1|].
  apply H3. vm_compute. reflexivity.
Defined.

Lemma store_operations_preserve_witness :
  ∃ rows extra, store_ok demo_ws s_submitted rows ∧
    store_ok demo_ws (run_op s_submitted calm_env (OpClaim bob m1 8)).1 (rows ++ extra) ∧
    (run_op s_submitted calm_env (OpClaim bob m1 8)).2 ≠ Panicked.
Proof.
  destruct stored_submitted as [rows Hok].
  destruct (store_operations_preserve demo_ws rows s_submitted calm_env (OpClaim bob m1 8) Hok)
    as [[extra H1] H2]; [done|done|].
  exists rows, extra. split_and!; [exact Hok|exact H1|exact H2].
Defined.

Definition accepted (r : DemoStore * outcome AcceptResult) : AcceptResult :=
  match r.2 with Done a => a | _ => MkAcceptResult m1 m1 false 0 [] [] end.
Lemma accept_retry_is_idempotent_witness :
  let first := accept_canonical_at demo_empty calm m1 (canonical_of draft1) 5 in
  as_inserted (accepted first) = true ∧
  (accept_canonical_at first.1 (MkEnv (MkIo (Some 0%nat) false) 2000) m2 (canonical_of draft1) 9).1
    = first.1.
Proof.
  cbv zeta. split; [vm_compute; reflexivity|].
  destruct stored_empty as [rows Hok].
  rewrite (accept_retry_is_idempotent demo_ws rows demo_empty calm m1 (canonical_of draft1) 5
    (accept_canonical_at demo_empty calm m1 (canonical_of draft1) 5).1
    (accepted (accept_canonical_at demo_empty calm m1 (canonical_of draft1) 5)) (str "k1"));
    [reflexivity|exact Hok|vm_compute; congruence|vm_compute; congruence|reflexivity|reflexivity|].
  assert (match (accept_canonical_at demo_empty calm m1 (canonical_of draft1) 5).2 with
          | Done _ => true | _ => false end = true) as Hd by (vm_compute; reflexivity).
  unfold accepted. destruct (accept_canonical_at _ _ _ _ _) as [s1 [a|e|]]; [reflexivity|discriminate..].
Defined.

Lemma claim_retry_is_idempotent_witness :
  let first := claim_at s_submitted calm bob m1 8 in
  ∃ entry message consumed,
    me_state entry = Claimed bob 8 ∧
    claim_at first.1 (MkEnv (MkIo (Some 0%nat) false) 2000) bob m1 9
      = (first.1, Done (AlreadyClaimedOutcome entry message None consumed)).
Proof.
  cbv zeta. destruct stored_submitted as [rows Hok].
  assert (match (claim_at s_submitted calm bob m1 8).2 with
          | Done (ClaimedOutcome _ _ _ _ _) => true | _ => false end = true) as Hd
    by (vm_compute; reflexivity).
  pose proof (claim_retry_is_idempotent demo_ws rows s_submitted calm bob m1 8) as H.
  destruct (claim_at s_submitted calm bob m1 8) as [s1 [[entry message sk w c|]|e|]];
    try discriminate.
  destruct (H s1 entry message sk w c (MkEnv (MkIo (Some 0%nat) false) 2000) 9 Hok)
    as ((e & _ & _ & ->) & _ & H3); [vm_compute; congruence|vm_compute; congruence|reflexivity|].
  eexists _, message, c. split; [|exact H3]. reflexivity.
Defined.

(** Two draws, the first of which would mint [m3] again. *)
Definition draws : list rstr :=
  [str "55555555555555555555555555555555"; str "77777777777777777777777777777777"].
Lemma minted_ids_are_fresh_witness :
  mint_message_id s_replied (Some m1) draws = Some (MkMessageId (str "cyc-11111111-77777777")) ∧
  get_message (st_projection s_replied) (MkMessageId (str "cyc-11111111-77777777")) = None.
Proof.
  assert (mint_message_id s_replied (Some m1) draws = Some (MkMessageId (str "cyc-11111111-77777777")))
    as E by (vm_compute; reflexivity).
  split; [exact E|].
  apply (minted_ids_are_fresh s_replied (Some m1) draws); [| |exact E].
  - repeat constructor.
  - intros r [= <-]. vm_compute. reflexivity.
Defined.

(** ** Recipients *)
Lemma recipient_selectors_canonical_witness :
  recipient_from_str (recipient_display bob) = Ok bob.
Proof. apply (recipient_selectors_canonical (recipient_display bob) bob). reflexivity. Defined.

(** ** Doorbells *)
Lemma doorbell_v2_round_trip_witness :
  parse_doorbell_v2 (render_doorbell_v2 m1 attempt1) = Some (m1, attempt1).
Proof. apply (doorbell_v2_round_trip m1 attempt1). vm_compute. reflexivity. Defined.

(** ** Reading *)
Definition p_first : DemoState := st_projection s_first.
Lemma reachable_first : reachable p_first.
Proof. apply stored_reachable, stored_first. Qed.
Lemma reachable_replied : reachable p_replied.
Proof. apply stored_reachable, stored_replied. Qed.
Definition no_routes : Routes := ∅.

Lemma list_mailbox_total_witness :
  ∃ items, list_mailbox p_first bob = Ok items ∧ (me_message_id <$> (li_entry <$> items)) = [m1].
Proof.
  destruct (list_mailbox_total p_first bob reachable_first) as (items & H1 & H2 & _).
  exists items. split; [exact H1|]. rewrite H2. vm_compute. reflexivity.
Defined.

Lemma snapshot_never_fails_witness :
  ∃ s, messages_snapshot p_replied alice 5 no_routes = Ok s ∧ sn_workspace_seq s = 9.
Proof.
  destruct (proj1 (snapshot_never_fails p_replied alice 5 no_routes reachable_replied) eq_refl)
    as (s & projected & visible & H1 & H2).
  exists s. split; [exact H1|]. rewrite (sno_seq _ _ _ _ _ _ H2). vm_compute. reflexivity.
Defined.

Lemma follow_pages_cover_witness :
  ∃ page, messages_follow p_replied alice 0 1 no_routes = Ok page ∧ fl_through_seq page ≤ 9.
Proof.
  destruct (follow_pages_cover p_replied alice 0 1 no_routes reachable_replied eq_refl)
    as (page & s & projected & visible & H1 & _ & _ & _ & _ & _ & _ & H2 & _);
    [vm_compute; congruence..|].
  exists page. split; [exact H1|exact H2].
Defined.

Lemma body_readers_witness :
  projection_allows_message_body p_replied alice (stored_row m1) = true.
Proof.
  apply (proj1 (body_readers p_replied alice m1 (stored_row m1) (metadata_of (stored_row m1))
    reachable_replied stored_m1)).
  left. vm_compute. reflexivity.
Defined.

Lemma fifo_positions_exact_witness : fifo_positions p_first !! (bob, m1) = Some 1.
Proof.
  assert (notifiable p_first bob !! 0%nat = Some (default no_entry (notifiable p_first bob !! 0%nat))) as H
    by (apply present_default; vm_compute; reflexivity).
  assert (me_message_id (default no_entry (notifiable p_first bob !! 0%nat)) = m1) as E
    by (vm_compute; reflexivity).
  rewrite <-E. exact (proj1 (fifo_positions_exact p_first bob m1 reachable_first) 0%nat _ H).
Defined.

Definition p_attention : DemoState := st_projection s_attention.
Lemma attention_rows_exact_witness :
  let rows := mailbox_attention_rows p_attention [bob] ∅ in
  length rows = 1%nat ∧ NoDup (od_attempt_id <$> rows).
Proof.
  cbv zeta. split; [vm_compute; reflexivity|].
  exact (proj1 (attention_rows_exact p_attention [bob] ∅ (stored_reachable _ stored_attention))).
Defined.

(** ** Scheduling *)
Definition prepared (r : DemoStore * outcome (option NotificationRecord)) : NotificationRecord :=
  match r.2 with Done (Some n) => n | _ => record_in Queued None end.
Definition was_prepared (r : DemoStore * outcome (option NotificationRecord)) : bool :=
  match r.2 with Done (Some _) => true | _ => false end.
Lemma was_prepared_eq r : was_prepared r = true → r = (r.1, Done (Some (prepared r))).
Proof. unfold was_prepared, prepared. by destruct r as [? [[]| |]]. Qed.

Lemma wake_prepared_once_witness :
  let first := prepare_oldest_notification s_one calm bob attempt1 in
  nr_state (prepared first) = Queued ∧
  prepare_oldest_notification first.1 (MkEnv (MkIo (Some 0%nat) false) 2000) bob attempt2
    = (first.1, Done (Some (prepared first))).
Proof.
  cbv zeta. split; [vm_compute; reflexivity|]. destruct stored_one as [rows Hok].
  apply (wake_prepared_once demo_ws rows s_one calm bob attempt1); [exact Hok|vm_compute; congruence|].
  apply was_prepared_eq. vm_compute. reflexivity.
Defined.

Lemma fifo_head_is_next_witness : first_actionable_pending_message_id p_first bob = Some m1.
Proof. apply (fifo_head_is_next p_first bob m1 reachable_first). vm_compute. reflexivity. Defined.

(** A wake blocked before its write, and the evidence that reopens it. *)
Definition block_ops : list StoreOp :=
  [OpQueue m1 bob attempt1;
   OpAdvance m1 bob attempt1 Gating None None;
   OpBlock m1 bob attempt1 SessionUnavailable None None].
Definition s_blocked : DemoStore := run_ops s_one block_ops.
Lemma stored_blocked : stored s_blocked.
Proof. apply stored_ops; [apply stored_one|valid_list]. Qed.
Definition bob_seen : NotificationPreWriteObservation :=
  MkPreWriteObservation None (nb_pane_root bob_pane) (Some (nb_manifest bob_pane)) (Some bob_pane)
    None None None.
Lemma reopened_at_most_once_witness :
  let first := reopen_oldest_notification_after_route_evidence s_blocked calm bob bob_seen true in
  nr_state (prepared first) = Gating ∧
  reopen_oldest_notification_after_route_evidence first.1 calm bob bob_seen true
    = (first.1, Done None).
Proof.
  cbv zeta. destruct stored_blocked as [rows Hok].
  destruct (reopened_at_most_once demo_ws rows s_blocked calm bob bob_seen true
    (reopen_oldest_notification_after_route_evidence s_blocked calm bob bob_seen true).1
    (prepared (reopen_oldest_notification_after_route_evidence s_blocked calm bob bob_seen true)) Hok)
    as (_ & _ & H1 & _ & H2); [vm_compute; congruence| |].
  - apply was_prepared_eq. vm_compute. reflexivity.
  - split; [exact H1|apply H2].
Defined.

(** ** Recovery *)
Definition recovery_done (r : DemoStore * outcome (list NotificationRecord)) : bool :=
  match r.2 with Done _ => true | _ => false end.
Lemma recovery_settles_attempts_witness :
  length (unresolved_after_restart p_first) = 1%nat ∧
  unresolved_after_restart (st_projection (recover_notifications_after_restart s_first calm_env).1) = [].
Proof.
  split; [vm_compute; reflexivity|]. destruct stored_first as [rows Hok].
  pose proof (recovery_settles_attempts demo_ws rows s_first calm_env Hok) as H.
  assert (recovery_done (recover_notifications_after_restart s_first calm_env) = true) as Hd
    by (vm_compute; reflexivity).
  destruct (recover_notifications_after_restart s_first calm_env) as [s1 [ns|e|]];
    [|discriminate Hd..].
  apply H. intros j. vm_compute. congruence.
Defined.
