(* ===== verification/DeliveryWitnesses.v ===== *)
(** * Witnesses of the delivery and client components

    Each property of the delivery pipeline, the attention register and the tmux
    texts that has hypotheses, applied at a concrete input where they hold. *)
From S2P Require Import Prelude Text Identity Ledger Journal Mailbox Notification Doorbell Facts.
From S2P Require Import Facts Projection Attempt Prepared MailboxInv NotificationInv.
From S2P Require Import Invariant Replay Entries Guarantees Store Views ViewProps StoreInv.
From S2P Require Import StoreOps Scheduler Recovery Idempotency Codec Demo.
From S2P Require Import AttentionRegister AttentionProps Detection Utf8 Manifests ManifestProps TmuxText TmuxTextProps.
From S2P Require Import NotificationAdapter DeliveryGate GateProps Receipt ReceiptProps TurnKeys Composer ComposerProps Fusion FusionProps HookLifecycle Reconcile.
From S2P Require Import DeliveryPayload DeliveryAttempt DeliveryProps HookAck Worker.
Local Open Scope N_scope.

(** ** A lexer that satisfies the laws *)
(** Characters up to the next single quote, and what follows it. *)
Fixpoint until_quote (s : rstr) : option (rstr * rstr) :=
  match s with
  | [] => None
  | c :: s => if c =? 39 then Some ([], s) else prod_map (cons c) id <$> until_quote s
  end.
Fixpoint lex_go (fuel : nat) (s : rstr) : option (rstr * rstr) :=
  match fuel with
  | O => None
  | S fuel =>
      match s with
      | [] => Some ([], [])
      | c :: rest =>
          if c =? 32 then Some ([], s)
          else if c =? 39 then
            '(text, after) ← until_quote rest; prod_map (app text) id <$> lex_go fuel after
          else if c =? 92 then
            match rest with
            | q :: after => if q =? 39 then prod_map (cons 39) id <$> lex_go fuel after else None
            | [] => None
            end
          else None
      end
  end.
Instance demo_lexer : TmuxLexer := λ s, lex_go (S (length s)) s.

Lemma until_quote_app text rest : 39 ∉ text → until_quote (text ++ 39 :: rest) = Some (text, rest).
Proof.
  induction text as [|c text IH]; [done|]. intros Hn. rewrite not_elem_of_cons in Hn. destruct Hn as [Hc Hn].
  cbn. rewrite (proj2 (N.eqb_neq c 39)) by done. by rewrite IH.
Qed.
Lemma until_quote_length s text after : until_quote s = Some (text, after) → (length after < length s)%nat.
Proof.
  revert text. induction s as [|c s IH]; intros text; cbn; [done|]. destruct (c =? 39); [intros [= _ <-]; lia|].
  destruct (until_quote s) as [[t a]|]; [|done]. intros [= _ <-]. specialize (IH t eq_refl). lia.
Qed.
Lemma lex_go_fuel : ∀ n m s, (length s < n)%nat → (length s < m)%nat → lex_go n s = lex_go m s.
Proof.
  induction n as [|n IH]; intros [|m] s Hn Hm; [lia..|]. cbn. destruct s as [|c rest]; [done|]. cbn in *.
  destruct (c =? 32); [done|]. destruct (c =? 39).
  - destruct (until_quote rest) as [[text after]|] eqn:E; [|done]. cbn. apply until_quote_length in E.
    by rewrite (IH m) by lia.
  - destruct (c =? 92); [|done]. destruct rest as [|q after]; [done|]. cbn in *. by rewrite (IH m) by lia.
Qed.
Lemma lex_go_quoted n text rest :
  39 ∉ text → lex_go (S n) (39 :: text ++ 39 :: rest) = prod_map (app text) id <$> lex_go n rest.
Proof. intros Hq. cbn [lex_go]. cbn -[lex_go]. by rewrite until_quote_app. Qed.
Instance demo_lexer_laws : TmuxLexerLaws.
Proof.
  split; [done|done| |]; unfold lex_word, demo_lexer.
  - intros text rest Hq _ _ _. rewrite lex_go_quoted by done. f_equal.
    apply lex_go_fuel; cbn; rewrite ?length_app; cbn; lia.
  - intros rest. change (lex_go (S (length (92 :: 39 :: rest))) (92 :: 39 :: rest))
      with (prod_map (cons 39) id <$> lex_go (length (92 :: 39 :: rest)) rest).
    f_equal. apply lex_go_fuel; cbn; lia.
Qed.

Lemma quoted_argument_is_one_word_witness :
  lex_word (quote_arg (str "it's") ++ str " -t") = Some (str "it's", str " -t").
Proof.
  refine (proj1 (quoted_argument_is_one_word (str "it's") (str " -t") _)). right. by eexists.
Defined.
Lemma labels_refused_exactly_witness :
  is_available (λ s : rstr, s) (str "reviewer") = true ∧
  lex_word (quote_arg (str "reviewer")) = Some (str "reviewer", []).
Proof.
  assert (is_available (λ s : rstr, s) (str "reviewer") = true) as Ha by (vm_compute; reflexivity).
  destruct (labels_refused_exactly (λ s : rstr, s) (str "reviewer")) as [_ H].
  split; [exact Ha|]. pose proof (proj2 (H Ha) [] (or_introl eq_refl)) as E. by rewrite app_nil_r in E.
Defined.
Lemma pane_output_is_faithful_witness :
  parse_notification_bytes (utf8_bytes (str "%output" ++ [32] ++ str "%7" ++ [32]) ++ [97; 92; 48; 49; 50])
    = Output (str "%7") [97; 10].
Proof.
  refine (proj1 (pane_output_is_faithful (str "%7") [97; 10] [97; 92; 48; 49; 50] 5 _ _ _)).
  - split_and!; [done|apply (bool_decide_unpack _); vm_compute; exact I|apply (bool_decide_unpack _); vm_compute; exact I].
  - apply escaped_verbatim; [done|]. apply (escaped_octal 10 [] []); [done|constructor].
  - done.
Defined.

(** ** The attention register *)
Lemma mailbox_alarms_are_items_witness :
  let p := st_projection s_attention in
  length (open_alarms p) = 1%nat ∧
  length (delivery_items (from_status (MkStatusResult [] [] (mailbox_attention_rows p [bob] ∅))))
    = length (attention_records p [bob]).
Proof.
  intros p. split; [vm_compute; reflexivity|].
  exact (proj1 (mailbox_alarms_are_items p [bob] ∅ [] (stored_reachable _ stored_attention))).
Defined.

(** ** The worker's side of the store *)
Definition s_gating : DemoStore := run_ops demo_empty (take 3 first_ops).
Lemma stored_gating : stored s_gating.
Proof. apply stored_ops; [apply stored_empty|valid_list]. Qed.
Definition cx1 : NotificationContext := MkContext m1 bob attempt1 0.
Definition write1 : DemoStore * answer NotificationRecord :=
  record_writing s_gating calm cx1 (Demo.process 10 eq_refl) (Demo.process 11 eq_refl) (Demo.process 12 eq_refl)
    (str "claude") Doorbell (Some 4).
Definition no_record : NotificationRecord :=
  MkRecord attempt1 m1 bob Gating None Doorbell (Some 4) None None None None None None 0 0 2 4 1000.
Definition good {A} (d : A) (a : answer A) : A := match a with Good a => a | _ => d end.
Lemma is_good_eq {A} (d : A) s (r : DemoStore * answer A) :
  is_good r.2 = true → r.1 = s → r = (s, Good (good d r.2)).
Proof. destruct r as [s' [a|e|]]; cbn; congruence. Qed.

Lemma stale_run_is_fenced_witness :
  (run_call s_gating calm (MkContext m1 bob attempt2 0) CallWritingRaw).1 = s_gating.
Proof.
  destruct (current_of s_gating (MkContext m1 bob attempt2 0)) as [n|] eqn:E; [|vm_compute in E; discriminate E].
  refine (proj1 (stale_run_is_fenced s_gating calm (MkContext m1 bob attempt2 0) CallWritingRaw n E _)).
  vm_compute in E. injection E as <-. vm_compute. reflexivity.
Defined.
Lemma adapter_keeps_the_store_witness :
  is_good (run_call s_gating calm cx1 (CallWriting (Demo.process 10 eq_refl) (Demo.process 11 eq_refl)
    (Demo.process 12 eq_refl) (str "claude") Doorbell (Some 4))).2 = true ∧
  stored (run_call s_gating calm cx1 (CallWriting (Demo.process 10 eq_refl) (Demo.process 11 eq_refl)
    (Demo.process 12 eq_refl) (str "claude") Doorbell (Some 4))).1.
Proof.
  split; [vm_compute; reflexivity|]. destruct stored_gating as [rows H].
  destruct (adapter_keeps_the_store demo_ws rows s_gating calm cx1 (CallWriting (Demo.process 10 eq_refl)
    (Demo.process 11 eq_refl) (Demo.process 12 eq_refl) (str "claude") Doorbell (Some 4)) H) as [[extra E] _].
  - reflexivity.
  - done.
  - by eexists.
Defined.
Lemma write_boundary_recorded_witness :
  nr_state (good no_record write1.2) = Writing ∧ owns cx1 (good no_record write1.2) = true.
Proof.
  destruct stored_gating as [rows H].
  assert (write1 = (write1.1, Good (good no_record write1.2))) as E
    by (apply is_good_eq; [vm_compute; reflexivity|reflexivity]).
  destruct (write_boundary_recorded demo_ws rows s_gating calm cx1 _ _ _ _ _ _ _ _ H eq_refl ltac:(done) E)
    as (_ & _ & _ & Ho & Hs & _). by split.
Defined.
Definition no_payload : AttemptPayload := MkAttemptPayload [] Doorbell None.
Definition message1 : LedgerLine Value :=
  good (fact_row (st_projection s_gating) (NotificationResolutionIntent ref2 Complete false))
    (message_line s_gating cx1).
Definition payload1 : AttemptPayload := good no_payload (select_attempt_payload s_gating cx1 false).
Lemma good_eq {A} (d : A) (a : answer A) : is_good a = true → a = Good (good d a).
Proof. by destruct a. Qed.
Lemma written_payload_is_rebuilt_witness :
  expected_notification_payload (good no_record write1.2) message1 = Some (ap_bytes payload1).
Proof.
  destruct stored_gating as [rows H].
  refine (proj1 (written_payload_is_rebuilt demo_ws rows s_gating demo_ws rows s_gating calm cx1 false
    payload1 write1.1 (good no_record write1.2) message1 H H eq_refl ltac:(done) _ _ _)).
  - apply good_eq. vm_compute. reflexivity.
  - apply good_eq. vm_compute. reflexivity.
  - exists (Demo.process 10 eq_refl), (Demo.process 11 eq_refl), (Demo.process 12 eq_refl), (str "claude").
    assert (ap_doorbell_format payload1 = Some 4) as -> by (vm_compute; reflexivity).
    apply is_good_eq; [vm_compute; reflexivity|reflexivity].
Defined.

(** ** The gate *)
Definition blank_view : AdmitView :=
  MkAdmitView (Some (MkPaneRow false false 12)) None None false None None (MkRouteEvidence (str "boot") 1).
Definition detached_input : GateInput := MkGateInput false (Good ()) blank_view.
Lemma gate_run_is_bounded_witness :
  count_steps notifies [MkGateStep detached_input (TurnHold HoldSessionDetached None) (Some WakeNotify)] ≤ 1.
Proof.
  refine (proj1 (proj2 (gate_run_is_bounded false None
    [MkGateStep detached_input (TurnHold HoldSessionDetached None) (Some WakeNotify)] _ _))).
  eapply gate_runs_hold; [vm_compute; reflexivity|reflexivity|apply gate_runs_nil].
Defined.

(** ** The receipt *)
Definition quiet_turns : list TurnInput := (λ t, timer_at t false) <$> [250; 750; 1500; 3000; 5000].
Lemma timeout_is_earned_witness :
  5000 ≤ observed lag_wait (ack_start lag_wait true 0) 0 quiet_turns.
Proof.
  refine (proj1 (timeout_is_earned lag_wait true 0 quiet_turns _ _ _ _)).
  - done.
  - vm_compute. reflexivity.
  - vm_compute. reflexivity.
Defined.
Lemma receipt_wait_is_bounded_witness : (timer_turns quiet_turns ≤ 7)%nat.
Proof.
  refine (proj2 (receipt_wait_is_bounded lag_wait true 0 quiet_turns _ _)).
  - vm_compute. reflexivity.
  - repeat constructor.
Defined.
Definition changed_screen : PassView :=
  MkPassView [] true (Some (MkDetection SWorking [] false (str "rule") false false None None None)) true false
    (MkScreenView true true true true true false).
Definition screen_turns : list TurnInput := [MkTurnInput false (OnTimer changed_screen) 250 250].
Lemma screen_receipt_is_earned_witness :
  ∃ i v, i ∈ screen_turns ∧ pass_of (ti_branch i) = Some v ∧ sv_marker (pv_screen v) = false.
Proof.
  destruct (screen_receipt_is_earned lag_wait true 0 screen_turns
    (await_ack lag_wait (ack_start lag_wait true 0) screen_turns).1) as (i & v & H1 & H2 & _ & H3 & _);
    [vm_compute; reflexivity|by exists i, v].
Defined.

(** ** One delivery *)
(** The answers an environment gives, by the place of the operation in the run. *)
Fixpoint play {A} (answers : nat → ∀ o, response o) (n : nat) (p : prog A) : list Interaction * A :=
  match p with
  | Ret a => ([], a)
  | Ask o k =>
      let '(tr, a) := play answers (S n) (k (answers n o)) in (existT o (answers n o) :: tr, a)
  end.
Lemma play_runs {A} answers (p : prog A) : ∀ n, runs p (play answers n p).1 (play answers n p).2.
Proof.
  induction p as [a|o k IH]; intros n; cbn; [done|]. specialize (IH (answers n o) (S n)).
  destruct (play answers (S n) (k (answers n o))) as [tr a] eqn:E. cbn in *. by exists (answers n o).
Qed.
Definition bob_binding : Binding :=
  MkFusionBinding (MkProcId 10 7) (MkProcId 11 7) (MkProcId 12 7) (str "claude").
(** A modal with two keys to decline it, and a pane without it. *)
Definition trust_rule : CompiledRule :=
  MkCompiledRule (str "trust") SBlockedModal None 10 (BottomNonEmptyLines 10) false false (MkMatcher false [str "trust"] [] [] [] []) []
    [str "Down"; str "Enter"] true.
Definition trust_manifest : Manifest :=
  MkManifest (MkAgentMeta (str "claude") (str "Claude Code") [] [str "claude"] [] None)
    (MkHooks [] None CertConfirmed None CertConfirmed [] 0 None AckReceipt [] None [] None None)
    [trust_rule] (MkInjection (str "Enter") [] [] [] false 0 [] [] None None) [] [] [] [] None None.
Definition reading_of (state : AgentState) (decided_by : rstr) : GateInput :=
  MkGateInput true (Good ())
    (MkAdmitView (Some (MkPaneRow false false 12)) (Some trust_manifest)
       (Some (MkDetection state [] false decided_by false true None None None)) false (Some bob_binding)
       (Some (MkProcId 10 7)) (MkRouteEvidence (str "boot") 1)).
(** A calm pane: every operation succeeds and the screen shows the receipt.  Its first
    reading shows the modal. *)
Definition calm_answers (n : nat) (o : Op) : response o :=
  match o with
  | OpRoute | OpSpool _ | OpPaneAlive | OpClaimHold _ _ | OpAdvance _ _ | OpSubmit _ | OpRequeueFront
  | OpDeclineKey _ => true
  | OpPaused => false
  | OpManifest _ => Some (str "Enter")
  | OpSelectPayload => Good (MkAttemptPayload (str "hello") Doorbell (Some 4))
  | OpOccupant => MkOccupantView true (Some (MkPaneRow false false 10)) (Some bob_binding)
  | OpEnsureGating | OpAdapter _ => Good ()
  | OpSettleClaim => Good false
  | OpPaste => PasteOk
  | OpVerifyCapture => Some (true, str "hello")
  | OpTakeEarly => None
  | OpAwaitAck _ => AckScreen
  | OpGateTurn => if (n <? 5)%nat then reading_of SBlockedModal (str "trust") else reading_of SIdle (str "idle")
  | OpDeclineRecheck _ => Some true
  | OpGateWait _ _ => WakeChange
  | OpCounters => (1, 0)
  | _ => ()
  end.
Definition calm_process : prog (option ProcessEnd) := DeliveryAttempt.process 3 1 false 2.
Definition calm_trace : list Interaction := (play calm_answers 0 calm_process).1.
Lemma calm_run : runs calm_process calm_trace (Some EndDone).
Proof. exact (play_runs calm_answers calm_process 0). Qed.
Definition first_index (f : Interaction → bool) (tr : list Interaction) : nat :=
  match list_find (λ e, f e = true) tr with Some (i, _) => i | None => 0 end.
Definition first_key (e : Interaction) : bool :=
  match e with existT (OpDeclineKey key) _ => bool_decide (key = str "Enter") | _ => false end.

(** ** The handle *)
Definition bob_agent : ProcId := MkProcId 12 7.
Definition staged_handle : DeliveryHandle :=
  MkHandle cx1 (str "bob") (str "hello") (Some Doorbell)
    (MkHandleState DStaged 1 None None None None 0 None)
    (MkSubmitted 0 (str "%2") 900 (Some bob_agent) (Some (str "claude"))) true 0 false.
Definition staged_engine : Engine := MkEngine {[1 := staged_handle]} ∅.
Lemma early_receipt_is_taken_witness :
  ∃ h', en_handles (foldl hook_run staged_engine
      [MkHookReport bob_agent (str "claude") (λ _, None) 950 (HkResolve 1 940 None)]) !! 1 = Some h' ∧
    (take_accepted_early_ack (advance h' [DStaged] (step_to DSubmitted) 960).1.1).2
      = Some (MkPendingAck 940 None PendReceipt).
Proof.
  destruct (early_receipt_is_taken staged_engine 1 staged_handle bob_agent (str "claude") (λ _, None) 950 940
    None [] 960 eq_refl eq_refl eq_refl eq_refl) as (h' & H1 & _ & _ & H2). by exists h'.
Defined.

(** ** The composer barrier *)
(** A run that claims the composer, and one that leaves it free. *)
Definition claiming : list (PaneKey * PaneOp) :=
  [(seat, PaneObserve (calm_look alice_proc false false));
   (seat, PaneClaim (str "attempt-1") (Some alice_proc) (Some (str "claude")))].
Definition claimed : Panes := default no_panes (pane_run no_panes claiming).
Lemma composer_has_one_owner_witness :
  ∃ w', pane_step claimed seat (PaneClaim (str "attempt-2") (Some alice_proc) (Some (str "claude"))) = Some w' ∧
    owner_of w' seat = Some (str "attempt-1").
Proof.
  assert (pane_run no_panes claiming = Some claimed) as Hrun by (vm_compute; reflexivity).
  destruct (composer_has_one_owner claiming seat
    (PaneClaim (str "attempt-2") (Some alice_proc) (Some (str "claude"))) claimed Hrun) as (w' & H1 & H2 & _).
  exists w'. split; [exact H1|].
  destruct (pn_detections claimed !! seat) as [e|] eqn:E; [|vm_compute in E; discriminate E].
  destruct (de_hold_owner e) as [o|] eqn:Ho; [|vm_compute in E; injection E as <-; discriminate Ho].
  assert (o = str "attempt-1") as -> by (vm_compute in E; injection E as <-; injection Ho as <-; reflexivity).
  destruct H2 as [H2|[_ []]]. exact H2.
Defined.
Definition one_look : Panes :=
  default no_panes (observe_pane no_panes seat (calm_look alice_proc false false)).
Lemma ready_panes_are_free_witness : composer_is_held one_look seat = false.
Proof.
  destruct (pn_detections one_look !! seat) as [e|] eqn:E; [|vm_compute in E; discriminate E].
  refine (proj2 (ready_panes_are_free [(seat, PaneObserve (calm_look alice_proc false false))] one_look seat e _ E _)).
  - vm_compute. reflexivity.
  - vm_compute in E. injection E as <-. vm_compute. reflexivity.
Defined.
Definition blind_look : Observation :=
  MkObservation (Some (MkPaneRow false false 10)) OccUnprovable ObsUnprovable None true None false idle_screen None
    false true.
Lemma doubt_freezes_the_hold_witness :
  ∃ w', observe_pane claimed seat blind_look = Some w' ∧ owner_of w' seat = Some (str "attempt-1").
Proof.
  destruct (pn_detections claimed !! seat) as [e|] eqn:E; [|vm_compute in E; discriminate E].
  destruct (doubt_freezes_the_hold claimed seat e blind_look (MkPaneRow false false 10) E eq_refl eq_refl
    ltac:(discriminate) (or_introl eq_refl)) as (w' & e' & H1 & H2 & _ & H3 & _).
  exists w'. split; [exact H1|]. unfold owner_of. rewrite H2. cbn [mbind option_bind].
  apply (f_equal (λ x, x.1.1.1.1.2)) in H3. cbn [fst snd] in H3. rewrite H3.
  vm_compute in E. injection E as <-. reflexivity.
Defined.

(** ** Manifests and fusion *)
(** Regular expressions that match themselves. *)
Fixpoint find_literal (pat s : rstr) (at_ from : N) : option (N * N) :=
  if (from <=? at_) && starts_with pat s then Some (at_, at_ + str_len pat)
  else match s with [] => None | c :: s => find_literal pat s (at_ + utf8_width c) from end.
#[local] Instance literal_regexes : Regexes :=
  {| regex_valid p := true; is_match r s := contains (rx_pattern r) s;
     find_at r s from := find_literal (rx_pattern r) s 0 from; capture_names _ := [str "content"] |}.
Definition plain_matcher (texts : list rstr) : RawMatcher := MkMatcher false texts [] [] [] [].
Definition styled_row : RawMatcher := MkMatcher false [] [] [] [str "[2m"] [].
Definition demo_rule (id state region : rstr) (semantic : option ComposerSemantic) (priority : Z) (m : RawMatcher) : RawRule :=
  MkRawRule id state semantic priority region true false [] m [] false.
Definition demo_raw : RawManifest :=
  MkRawManifest (MkAgentMeta (str "claude") (str "Claude Code") [] [str "claude"] [] None)
    (MkHooks [] (Some (str "UserPromptSubmit")) CertConfirmed (Some (str "Stop")) CertConfirmed [] 0
       (Some (str "UserPromptSubmit")) AckReceipt [] (Some (str "prompt")) [] None None)
    [demo_rule (str "ghost") (str "idle") (str "bottom_non_empty_lines(2)") (Some SemGhostSuggestion) 5 styled_row;
     demo_rule (str "composer") (str "idle") (str "bottom_non_empty_lines(2)") (Some SemClean) 10 (plain_matcher [str "> "]);
     demo_rule (str "spinner") (str "working") (str "pane_title") None 10 (plain_matcher [str "*"])]
    (MkInjection (str "Enter") [] [] [] false 0 [] [] None None).
Definition demo_manifest : Manifest :=
  match parse demo_raw with
  | Ok m => m
  | Err _ => MkManifest (rm_agent demo_raw) (rm_hooks demo_raw) [] (rm_injection demo_raw) [] [] [] [] None None
  end.
Lemma demo_parsed : parse demo_raw = Ok demo_manifest.
Proof. vm_compute. reflexivity. Qed.
Definition demo_grid : rstr := 27 :: str "[1m> " ++ 27 :: str "[0m" ++ [10].
Lemma winner_is_best_rule_witness :
  ∃ rules r, map_result (compile_rule (str "claude")) (rm_rules demo_raw) = Ok rules ∧
    evaluate_esc demo_manifest (str "claude") (str "> ") None = Some r ∧ cr_id r = str "composer" ∧
    decides (λ r, rule_holds r (str "claude") (str "> ") None) rules r.
Proof.
  destruct (winner_is_best_rule demo_raw demo_manifest (str "claude") (str "> ") None demo_parsed) as (rules & H1 & H2).
  destruct (evaluate_esc _ _ _ _) as [r|] eqn:E; [|vm_compute in E; discriminate E]. exists rules, r.
  split; [exact H1|]. split; [reflexivity|]. split; [|exact H2]. vm_compute in E. injection E as <-. reflexivity.
Defined.
Lemma lifecycle_is_unambiguous_witness :
  fst <$> lifecycle_event (mf_hooks demo_manifest) (str "stop") = Some RoleEnd.
Proof.
  apply (lifecycle_is_unambiguous demo_raw demo_manifest (str "stop") demo_parsed ltac:(vm_compute; discriminate)).
  vm_compute. left.
Defined.
Lemma captures_align_witness : plain_rows (strip_csi demo_grid) = strip_csi <$> escaped_rows demo_grid.
Proof.
  apply captures_align.
  - apply (bool_decide_unpack _). vm_compute. exact I.
  - apply (bool_decide_unpack _). vm_compute. exact I.
Defined.
Definition demo_input : SensorInput :=
  MkSensorInput {[str "claude" := demo_manifest]} (Some demo_manifest) (Some alice_proc) (Some (str "claude"))
    (str "claude") (Some (strip_csi demo_grid, Some demo_grid)) false false true false 5.
Definition demo_look : Observation :=
  MkObservation (Some (MkPaneRow false false 10)) (OccLeader (pid alice_proc)) (bound_by alice_proc) (Some (str "claude"))
    false (Some (pid alice_proc)) false (sensor_verdict ∅ seat demo_input).2 None false false.
Definition demo_seen : Panes := default no_panes (observe_pane no_panes seat demo_look).
Definition started_entry : HookEntry :=
  unkeyed_turn_started alice_proc (Some (str "claude")) (MkReading SensorHook SWorking (str "UserPromptSubmit") 3).
Definition told_entry : HookEntry :=
  hook_bound alice_proc (Some (str "claude")) (MkReading SensorHook SWorking (str "Notification") 3).
Definition started_readings : Readings := {[seat := started_entry]}.
Definition told_readings : Readings := {[seat := told_entry]}.
Lemma active_start_is_kept_witness :
  (take_hook started_readings seat (Some alice_proc) (Some (str "claude")) idle_screen true false false true 400000).1
  !! seat = Some started_entry.
Proof.
  destruct (take_hook started_readings seat (Some alice_proc) (Some (str "claude")) idle_screen true false false true
    400000) as [rd hook] eqn:E.
  destruct (active_start_is_kept started_readings seat started_entry alice_proc (Some (str "claude")) idle_screen
    true false false true 400000 rd hook ltac:(vm_compute; reflexivity) eq_refl ltac:(vm_compute; reflexivity) E) as [[-> _]|(_ & _ & [_ [H|H] _ _ _ _])];
    [vm_compute; reflexivity|discriminate H|discriminate H].
Defined.
Definition idle_look : HookLook := MkHookLook idle_screen true false false true 10.
Lemma contradicted_reading_expires_witness :
  foldl (look alice_proc (Some (str "claude")) seat) told_readings [idle_look; idle_look; idle_look] !! seat = None.
Proof.
  apply (contradicted_reading_expires alice_proc (Some (str "claude")) seat told_readings told_entry
    idle_look idle_look idle_look ltac:(vm_compute; reflexivity) eq_refl eq_refl).
  repeat constructor; discriminate.
Defined.

(** ** Candidate edges of a turn *)
Definition one_turn : TurnKey := MkTurnKey [KText (str "t1")].
Definition two_turn : TurnKey := MkTurnKey [KText (str "t2")].
Definition reported : list (PaneKey * LifecycleOp) :=
  [(seat, LStart alice_proc (str "claude") one_turn (str "UserPromptSubmit") 10);
   (seat, LEnd alice_proc (str "claude") one_turn (str "Stop") 20 5)].
Definition seen_later : LifecycleStore := lifecycle_run lifecycle_new (reported ++ [(seat, LNote)]).
Lemma ends_settle_on_later_frames_witness :
  ∃ st, (settle_next_ready_terminal_with_evidence seen_later seat alice_proc (str "claude") None 30 30).2 = Some st ∧
    ca_turn (ts_end st) = one_turn ∧ ca_edge_ms (ts_end st) < 30.
Proof.
  destruct (settle_next_ready_terminal_with_evidence seen_later seat alice_proc (str "claude") None 30 30)
    as [s' [st|]] eqn:E; [|vm_compute in E; discriminate E].
  exists st. split; [done|].
  destruct (ends_settle_on_later_frames (reported ++ [(seat, LNote)]) seat alice_proc (str "claude") None 30 30 s' st E)
    as (p & Hp & Hc & _ & _ & _ & Hlt & _).
  split; [|exact Hlt]. vm_compute in E. injection E as _ <-. vm_compute. reflexivity.
Defined.
Lemma no_frame_no_settlement_witness :
  ∃ st, (settle_next_ready_terminal_with_evidence
           (lifecycle_run lifecycle_new
              ([(seat, LEnd alice_proc (str "claude") two_turn (str "Stop") 5 5); (seat, LNote);
                (seat, LEnd alice_proc (str "claude") one_turn (str "Stop") 20 5)]))
           seat alice_proc (str "claude") (Some one_turn) 90 90).2 = Some st ∧ ca_turn (ts_end st) ≠ one_turn.
Proof.
  destruct (settle_next_ready_terminal_with_evidence
     (lifecycle_run lifecycle_new
        ([(seat, LEnd alice_proc (str "claude") two_turn (str "Stop") 5 5); (seat, LNote);
          (seat, LEnd alice_proc (str "claude") one_turn (str "Stop") 20 5)]))
     seat alice_proc (str "claude") (Some one_turn) 90 90).2 as [st|] eqn:E; [|vm_compute in E; discriminate E].
  exists st. split; [done|].
  apply (no_frame_no_settlement
    [(seat, LEnd alice_proc (str "claude") two_turn (str "Stop") 5 5); (seat, LNote)] seat alice_proc (str "claude")
    one_turn (str "Stop") 20 5 [] alice_proc (str "claude") (Some one_turn) 90 90 st); [apply not_elem_of_nil|exact E].
Defined.
Definition quiet_lanes : Lanes := MkLanes ∅ seen_later ∅.
Definition still : nat → Lanes → Lanes := λ _ l, l.
Lemma confirmations_are_earned_witness :
  ∃ r, (reconcile_candidate_lifecycles still ∅ seat alice_proc (str "claude") idle_screen false 30 30 ObservedStable true
          quiet_lanes).2 = [r] ∧ cs_terminal r = true ∧
    borne_out ∅ (str "claude") idle_screen false 30 30 ObservedStable r.
Proof.
  destruct (reconcile_candidate_lifecycles still ∅ seat alice_proc (str "claude") idle_screen false 30 30 ObservedStable
    true quiet_lanes) as [l' rs] eqn:E.
  destruct (confirmations_are_earned still ∅ seat alice_proc (str "claude") idle_screen false 30 30 ObservedStable true
    quiet_lanes l' rs E) as (_ & Hf & _ & _).
  assert (map cs_terminal rs = [true]) as Hl
    by (pose proof (f_equal (λ x, map cs_terminal x.2) E) as Hx; vm_compute in Hx; symmetry; exact Hx).
  destruct rs as [|r [|]]; [discriminate Hl| |discriminate Hl]. exists r.
  apply Forall_cons in Hf as [Hr _]. injection Hl as Hl. split; [reflexivity|]. split; [exact Hl|exact Hr].
Defined.

(** ** The worker *)
Definition failed_daemon (s : DemoStore) : Daemon :=
  MkDaemon s staged_engine {[attempt1 := 1]} (MkWorkerState [] (Some 1) None 0).
Definition recovered : Daemon * bool := recover_failed_job (failed_daemon s_first) calm calm 1 2 true 1200.

(** ** A move outside the table *)
(** The session record's transition table has no step from pasting to submitted,
    yet every raw message takes it: the table is not consulted when a handle
    advances. *)
Theorem raw_submit_is_outside_the_table :
  delivery_can_transition_to DPasting DSubmitted = false ∧
  ∃ tr, runs attempt_raw_delivery tr AttemptDone ∧
    existT (OpAdvance [DPasting] (step_to DSubmitted)) true ∈ tr.
Proof.
  split; [reflexivity|]. exists (play calm_answers 5 attempt_raw_delivery).1. split.
  - exact (play_runs calm_answers attempt_raw_delivery 5).
  - apply list_elem_of_In. vm_compute. do 8 right. left. reflexivity.
Qed.
