(* ===== verification/DaemonWitnesses.v ===== *)
(** * Witnesses of the daemon's components

    Each property of hook reports, the service, the roster, the control client and
    scheduling and messaging that has hypotheses, applied at a concrete input where they
    hold. *)
From S2P Require Import Prelude Text Identity Ledger Journal Mailbox Notification Doorbell Facts.
From S2P Require Import Projection Attempt Prepared Store Directory StoreInv StoreOps Service ServiceProps.
From S2P Require Import AttentionRegister Detection Utf8 Manifests TmuxText TmuxTextProps Registry.
From S2P Require Import RegistryProps NotificationAdapter DeliveryGate Callers Receipt TurnKeys.
From S2P Require Import Composer Fusion HookLifecycle HookLiveness DeliveryPayload DeliveryAttempt HookAck.
From S2P Require Import Reports ReportProps Roster RosterProps ControlStream.
From S2P Require Import ControlQueue ControlPipe ControlCommands.
From S2P Require Import Worker Watcher WatcherProps ComposerProjection Scheduling SchedulingProps Messaging MessagingProps.
From S2P Require Import Codec Demo DeliveryWitnesses.
Local Open Scope N_scope.

(** ** Liveness *)
Definition the_pane : PaneKey := (0, str "%1").
Definition the_agent : ProcId := MkProcId 41 7.
Definition the_id : rstr := str "codex".
Definition opened : Liveness := default liveness_new (open_route liveness_new the_pane).
Definition first_binding : HookBinding := MkHookBinding the_pane 1 the_agent the_id.
Lemma replacement_inherits_nothing_witness :
  ∃ s, liveness_run (close_route opened the_pane) [VOpen the_pane] = Some s ∧
    publish_admission s first_binding (str "SessionStart") = None ∧ seen_any s the_pane the_agent the_id = false.
Proof.
  destruct (liveness_run (close_route opened the_pane) [VOpen the_pane]) as [s|] eqn:E; [|vm_compute in E; discriminate E].
  exists s. split; [reflexivity|].
  assert (liveness_run liveness_new [VOpen the_pane] = Some opened) as E0 by (vm_compute; reflexivity).
  assert (is_live opened first_binding = true) as El by (vm_compute; reflexivity).
  destruct (replacement_inherits_nothing [VOpen the_pane] [VOpen the_pane] opened s first_binding (str "SessionStart") E0 El E)
    as (H1 & _ & H2). split; [exact H1|]. apply (H2 the_agent the_id). repeat constructor.
Defined.

(** ** Reports *)
(** A vendor that names its turns. *)
Definition keyed_manifest : Manifest :=
  MkManifest (MkAgentMeta the_id (str "Codex") [] [the_id] [] None)
    (MkHooks [] (Some (str "UserPromptSubmit")) CertConfirmed (Some (str "Stop")) CertConfirmed [] 0
       (Some (str "UserPromptSubmit")) AckReceipt [str "SessionStart"; str "UserPromptSubmit"] (Some (str "prompt"))
       [str "turn_id"] None None)
    [] (MkInjection (str "Enter") [] [] [] false 0 [] [] None None) [] [] [] [] None None.
Definition keyed_table : ManifestTable := {[the_id := keyed_manifest]}.
Definition the_origin : ReportOrigin := MkOrigin alice the_pane the_agent (Some the_id).
Definition report_of (event turn : rstr) (seq : N) : StateReport :=
  MkStateReport event (Some seq) [(str "turn_id", JString turn)] [(str "turn_id", turn)].
Definition blank_report : StateReport := MkStateReport (str "Stop") (Some 3) [] [].
Definition the_route : RouteRead := MkRouteRead true false (Some (the_id, the_agent)).
Definition fresh_world : World := MkWorld ∅ lifecycle_new (MkPanes ∅ ∅) opened ∅ (MkEngine ∅ ∅).
Definition no_record : N → option bool := λ _, None.
Definition told (w : World) (r : StateReport) (ms : N) : option (World * Answer) :=
  handle_report quiet keyed_table the_origin r ms ms no_record w the_route.
Definition after (w : World) (r : StateReport) (ms : N) : World :=
  match told w r ms with Some (w', _) => w' | None => w end.
Definition started_world : World := after fresh_world (report_of (str "UserPromptSubmit") (str "t1") 1) 10.
Definition running : HookEntry :=
  turn_started the_agent (Some the_id) (MkReading SensorHook SWorking (str "UserPromptSubmit") 10) (MkTurnKey [KText (str "t1")]).
(** The route of a report closes after its reading is stored and before it is
    published: the report is refused, and the reading and its number stay. *)
Definition route_closes (k : nat) (w : World) : World :=
  if (k =? 4)%nat then set_live w (close_route (wo_live w) the_pane) else w.
Theorem late_refusal_keeps_what_it_stored :
  ∃ w, handle_report route_closes keyed_table the_origin (report_of (str "UserPromptSubmit") (str "t1") 1) 10 10 no_record
         fresh_world the_route = Some (w, NotApplied (str "occupant_changed") false) ∧
    wo_readings w !! the_pane = Some running ∧ 1 ∈ as_seqs (window the_origin w) ∧ 1 ∉ as_seqs (window the_origin fresh_world).
Proof.
  destruct (handle_report route_closes keyed_table the_origin _ 10 10 no_record fresh_world the_route) as [[w a]|] eqn:E;
    [|vm_compute in E; discriminate E].
  assert ((λ x : World * Answer, (snd x, wo_readings (fst x) !! the_pane, bool_decide (1 ∈ as_seqs (window the_origin (fst x))))) <$>
    handle_report route_closes keyed_table the_origin (report_of (str "UserPromptSubmit") (str "t1") 1) 10 10 no_record fresh_world the_route
    = Some (NotApplied (str "occupant_changed") false, Some running, true)) as H by (vm_compute; reflexivity).
  rewrite E in H. cbn in H. injection H as -> H1 H2%bool_decide_eq_true. exists w. split_and!; [done..|].
  apply not_elem_of_empty.
Qed.
(** The end of another turn, reported while the first one runs. *)
Lemma running_turn_survives_reports_witness :
  wo_readings (after started_world (report_of (str "Stop") (str "t2") 2) 20) !! the_pane = Some running.
Proof.
  destruct (told started_world (report_of (str "Stop") (str "t2") 2) 20) as [[w a]|] eqn:E; [|vm_compute in E; discriminate E].
  assert (after started_world (report_of (str "Stop") (str "t2") 2) 20 = w) as -> by (unfold after; rewrite E; reflexivity).
  destruct (running_turn_survives_reports keyed_table the_origin (report_of (str "Stop") (str "t2") 2) 20 20 no_record started_world
    the_route w a running (MkTurnKey [KText (str "t1")]) E) as [H|[H|[H|(_ & H & _)]]];
    [vm_compute; reflexivity|vm_compute; reflexivity|reflexivity|exact H|vm_compute in H; discriminate H..].
Defined.
Lemma admission_follows_its_start_witness :
  ∃ e, wo_readings started_world !! the_pane = Some e ∧ active_start_for e the_agent (Some the_id) = true.
Proof.
  destruct (told fresh_world (report_of (str "UserPromptSubmit") (str "t1") 1) 10) as [[w a]|] eqn:E; [|vm_compute in E; discriminate E].
  assert (started_world = w) as Hw by (unfold started_world, after; rewrite E; reflexivity).
  destruct (admission_follows_its_start keyed_table the_origin (report_of (str "UserPromptSubmit") (str "t1") 1) 10 10 no_record
    fresh_world the_route w a the_id E eq_refl) as (m & _ & _ & [H|(_ & _ & H)]);
    [vm_compute; reflexivity|rewrite <- Hw; vm_compute; reflexivity|vm_compute in H; discriminate H|rewrite Hw; exact H].
Defined.
(** The window after 1 to 10 and twice an older number: 9 is a restart now, 10 a repost. *)
Definition ten_and_two : list N := [1; 2; 3; 4; 5; 6; 7; 8; 9; 10; 9; 9].
Definition told_window : AgentSeen := foldl (λ a seq, (seen_seq a seq).1) seen_nothing ten_and_two.
Definition told_history : History := foldl learn history_new ten_and_two.
Lemma told_window_history : window_history told_window told_history.
Proof. do 12 apply wh_number. apply wh_new. Qed.
Definition told_world : World := set_seen fresh_world {[dedupe_ns the_origin := told_window]}.
Lemma reports_never_panic_witness : readings_ok started_world.
Proof.
  destruct (reports_never_panic quiet keyed_table the_origin (report_of (str "UserPromptSubmit") (str "t1") 1) 10 10 no_record
    fresh_world the_route) as (w & a & E & Hw); [intros k w Hw; exact Hw|apply map_Forall_empty|].
  unfold started_world, after, told. rewrite E. exact Hw.
Defined.

(** * Witnesses: the mailbox service

    The theorems of [ServiceProps.v] at the service of the scenario's workspace: two
    agents, an alarm on bob's second message, and a broadcast. *)

Definition demo_agents : list MailboxIdentity := [MkIdentity alice (str "ann"); MkIdentity bob (str "ben")].
Definition demo_directory : MailboxDirectory :=
  match directory_new demo_ws demo_agents with Ok d => d | Err _ => MkDirectory demo_ws ∅ ∅ ∅ end.
Lemma demo_directory_new : directory_new demo_ws demo_agents = Ok demo_directory.
Proof.
  assert (match directory_new demo_ws demo_agents with Ok _ => true | Err _ => false end = true) as H by (vm_compute; reflexivity).
  unfold demo_directory. by destruct (directory_new demo_ws demo_agents).
Qed.
Definition demo_service : MailboxService (V:=Value) := service_new demo_directory s_attention true.
Lemma demo_service_ok : ∃ rows, service_ok demo_ws demo_service rows.
Proof.
  destruct stored_attention as [rows Hok]. exists rows. split; [|done|done|done].
  - apply (do_workspace _ _ _ (directory_new_spec _ _ _ demo_directory_new)).
Qed.
Definition broadcast : MailboxSend :=
  MkSend [str "*"] None (str "hello") None (str "all") false (Some (str "k9")) None false.
Definition draws : list rstr := [str "99999999999999999999999999999999"].
Definition demo_run : list (Env * ServiceOp) :=
  [(calm, SSend draws (MkIdentity admin (str "admin")) broadcast); (calm, SClear (str "b") admin [attempt2] None);
   (calm, SClear (str "c") admin [attempt2] None)].

Lemma changes_follow_the_journal_witness :
  ∃ rows extra events, service_ok demo_ws (service_run demo_service demo_run) (rows ++ extra) ∧
    sv_changes (service_run demo_service demo_run) = Some events ∧ cg_workspace_seq <$> events = ll_seq <$> extra ∧
    length events = 2%nat.
Proof.
  destruct demo_service_ok as [rows Hok].
  destruct (changes_follow_the_journal demo_ws rows demo_service demo_run Hok) as (extra & events & H1 & H2 & H3 & _);
    [repeat constructor; done|].
  exists rows, extra, events. cbn [sv_changes demo_service service_new fmap option_fmap option_map app] in H2.
  split; [exact H1|]. split; [exact H2|]. split; [exact H3|].
  assert ((length <$> sv_changes (service_run demo_service demo_run)) = Some 2%nat) as Hl by (vm_compute; reflexivity).
  rewrite H2 in Hl. by injection Hl.
Defined.
Lemma changes_name_what_changed_witness :
  ∃ events, sv_changes (service_run demo_service demo_run) = Some events ∧
    areas_sound (st_projection (sv_store demo_service)) (st_projection (sv_store (service_run demo_service demo_run)))
      (mjoin (cg_changed <$> events)).
Proof.
  destruct demo_service_ok as [rows Hok].
  destruct (changes_name_what_changed demo_ws rows demo_service demo_run [] Hok) as (events & H1 & H2);
    [repeat constructor; done|done|].
  exists events. split; [exact H1|exact H2].
Defined.
Lemma clear_alarms_all_or_nothing_witness :
  let r := clear_alarms demo_service calm (str "b") admin [attempt2; attempt2] None in
  ∃ records, r.2 = Answered records ∧
    cleared_attempts (st_projection (sv_store r.1)) = list_to_set [attempt2; attempt2] ∪ cleared_attempts (st_projection (sv_store demo_service)).
Proof.
  cbn zeta. destruct demo_service_ok as [rows Hok].
  destruct (clear_alarms_all_or_nothing demo_ws rows demo_service calm (str "b") admin [attempt2; attempt2] None Hok)
    as [(records & H1 & _ & _ & H2 & _)|(e & H1 & _)]; [done| |exists records; split; [exact H1|exact H2]|].
  - assert (bool_decide (str "clear-" ++ str "b" ∈ clearance_batches (st_projection (sv_store demo_service))) = false) as Hb by (vm_compute; reflexivity).
    by apply bool_decide_eq_false in Hb.
  - exfalso. assert (match (clear_alarms demo_service calm (str "b") admin [attempt2; attempt2] None).2 with Answered _ => true | _ => false end = true)
      as Hd by (vm_compute; reflexivity). by rewrite H1 in Hd.
Defined.
Definition entries_as_addressed (r : MailboxService (V:=Value) * svc_answer AcceptResult) : Prop :=
  ∃ res, r.2 = Answered res ∧
    ∀ k, match get_entry (st_projection (sv_store r.1)) k (as_message_id res) with
         | Some e => me_state e = Facts.Pending ∧ ∃ i, addressed demo_ws demo_agents (sd_addresses broadcast) i ∧ id_key i = k
         | None => ∀ i, addressed demo_ws demo_agents (sd_addresses broadcast) i → id_key i ≠ k
         end.
Lemma send_reaches_the_addressed_witness :
  entries_as_addressed (send demo_service calm draws (MkIdentity admin (str "admin")) broadcast).
Proof.
  destruct demo_service_ok as [rows Hok].
  assert (match (send demo_service calm draws (MkIdentity admin (str "admin")) broadcast).2 with
          | Answered a => as_inserted a | _ => false end = true) as Hd by (vm_compute; reflexivity).
  pose proof (send_reaches_the_addressed demo_ws rows demo_service calm draws (MkIdentity admin (str "admin")) broadcast) as Hsend.
  destruct (send demo_service calm draws (MkIdentity admin (str "admin")) broadcast) as [svc' a].
  destruct a as [res| | |]; [|discriminate Hd..].
  destruct (Hsend svc' res demo_agents Hok ltac:(done) demo_directory_new eq_refl eq_refl Hd) as (_ & _ & _ & H).
  exists res. split; [reflexivity|exact H].
Defined.
Definition to_ben (body key : rstr) (supersedes : option MessageId) : MailboxSend :=
  MkSend [str "ben"] None (str "plan") None body false (Some key) supersedes false.
Definition ann : MailboxIdentity := MkIdentity alice (str "ann").
Definition first_send := send demo_service calm draws ann (to_ben (str "one") (str "k10") None).
Definition first_sent : MessageId := match first_send.2 with Answered a => as_message_id a | _ => m1 end.
Definition replacing : MailboxSend := to_ben (str "two") (str "k11") (Some first_sent).
Definition more_draws : list rstr := [str "88888888888888888888888888888888"].
Lemma first_send_ok : ∃ rows, service_ok demo_ws first_send.1 rows.
Proof.
  destruct demo_service_ok as [rows Hok].
  destruct (send_step demo_ws rows demo_service calm Hok ltac:(done) draws ann (to_ben (str "one") (str "k10") None))
    as [(H & _)|(line & areas & a & _ & H & _)]; [by exists rows|by exists (rows ++ [line])].
Qed.
Definition retried (r : MailboxService (V:=Value) * svc_answer AcceptResult) : Prop :=
  (∃ a, r.2 = Answered a ∧ as_inserted a = true) ∧
  send r.1 calm more_draws ann replacing = (r.1, Refused (mailbox_refusal (SupersessionNotPending first_sent))).
Lemma superseding_retry_is_refused_witness : retried (send first_send.1 calm more_draws ann replacing).
Proof.
  destruct first_send_ok as [rows Hok].
  assert (match (send first_send.1 calm more_draws ann replacing).2 with
          | Answered a => as_inserted a | _ => false end = true) as Hd by (vm_compute; reflexivity).
  pose proof (superseding_retry_is_refused demo_ws rows first_send.1 calm more_draws ann replacing) as Hretry.
  destruct (send first_send.1 calm more_draws ann replacing) as [svc' a].
  destruct a as [res| | |]; [|discriminate Hd..].
  destruct (Hretry svc' res first_sent calm more_draws (str "k11") Hok ltac:(done) eq_refl eq_refl eq_refl Hd) as [H _].
  split; [exists res; split; [reflexivity|exact Hd]|exact H].
Defined.

(** * Witnesses: the registry, the callers and the roster

    A registry file as its encoding gives it, a process table of five processes and a
    daemon with two panes. *)

(** ** The file *)
#[export] Instance wire_adoption : Wire Adoption :=
  wire_via (λ a, (ad_session a, ad_pane_id a, ad_label a, ad_recipient a, ad_pane_root a, ad_manifest a, ad_pane_pid a, ad_window_id a, ad_border_format a))
    (λ '(s, p, l, r, root, m, pid, w, b), Some (MkAdoption s p l r root m pid w b)) ltac:(by_fields).
#[export] Instance wire_headless : Wire HeadlessAdoption :=
  wire_via (λ a, (ha_label a, ha_recipient a, ha_root a, ha_os_boot_id a, ha_manifest a))
    (λ '(l, k, root, b, m), Some (MkHeadlessAdoption l k root b m)) ltac:(by_fields).
#[export] Instance wire_chrome : Wire WindowChrome :=
  wire_via (λ w, (wc_session w, wc_window_id w, wc_border_status w)) (λ '(s, w, b), Some (MkWindowChrome s w b)) ltac:(by_fields).
#[export] Instance wire_registry_file : Wire RegistryFile :=
  wire_via (λ f, (rf_version f, rf_panes f, rf_windows f, rf_headless f))
    (λ '(v, p, w, h), Some (MkRegistryFile v p w h)) ltac:(by_fields).
#[export] Instance wire_json : RegistryJson := {| to_string_pretty f := Some (put f); from_json t := fst <$> get t |}.
#[export] Instance wire_json_laws : RegistryJsonLaws.
Proof. intros f t [= <-]. change (fst <$> get (put f ++ [10]) = Some f). by rewrite get_put. Qed.
Lemma wire_encodable : encodable.
Proof. intros r. by eexists. Qed.

Definition ann_row (window : rstr) : Adoption :=
  MkAdoption (str "work") (str "%1") (str "ann") (Some alice) (Some (process 10 eq_refl)) None 10 window None.
Definition ben_row : Adoption :=
  MkAdoption (str "work") (str "%2") (str "ben") (Some bob) (Some (process 20 eq_refl)) None 20 (str "@1") None.
Definition own_border (w : rstr) : WindowChrome := MkWindowChrome (str "work") w (Some (str "top")).
Definition roster_run : list (Write * RegOp) :=
  [(WriteLanded, OpAdopt (ann_row (str "@1")) (own_border (str "@1"))); (WriteRefused, OpAdopt ben_row (own_border (str "@1")));
   (WriteLanded, OpAdopt ben_row (MkWindowChrome (str "work") (str "@1") (Some (str "cyclops"))));
   (WriteLanded, OpMove alice (process 10 eq_refl) (str "@2") None); (WriteLanded, OpRename (str "work") (str "desk"))].
Lemma restart_finds_the_roster_witness :
  let h := reg_runs (boot None) roster_run in
  reg_equiv (reboot h) (rh_live h) ∧ (ad_session <$> rg_panes (rh_live h) !! bob) = Some (str "desk").
Proof.
  split; [|vm_compute; reflexivity].
  apply (restart_finds_the_roster None roster_run); [apply wire_encodable|repeat constructor].
Defined.
Definition named_host : RegHost := reg_runs (boot None) (take 1 roster_run).
Lemma snapshot_is_taken_once_witness :
  ∃ c, rg_windows (rh_live (reg_runs named_host (drop 1 roster_run))) !! str "@1" = Some c ∧ wc_border_status c = Some (str "top").
Proof.
  destruct (snapshot_is_taken_once named_host (drop 1 roster_run) (str "@1") (own_border (str "@1"))) as (c & Hc & Hs).
  - assert (covered (rh_live (boot None))) as H0 by (intros w; done).
    apply (reg_run_covered WriteLanded (boot None) (OpAdopt (ann_row (str "@1")) (own_border (str "@1")))); [reflexivity|exact H0].
  - repeat constructor.
  - intros [|[|[|[|[|n]]]]]; vm_compute; reflexivity.
  - vm_compute. reflexivity.
  - exists c. split; [exact Hc|]. rewrite Hs. reflexivity.
Defined.
Lemma unsynced_adoption_returns_witness :
  let '(h', answer) := adopt WriteUnsynced (boot None) (ann_row (str "@1")) (own_border (str "@1")) in
  answer = Err ReplacementDurabilityUnknown ∧ rh_live h' = rh_live (boot None) ∧ rg_panes (reboot h') !! alice = Some (ann_row (str "@1")).
Proof.
  apply (unsynced_adoption_returns (boot None) (ann_row (str "@1")) (own_border (str "@1")) alice
    (put (file_of (MkRegistry {[alice := ann_row (str "@1")]} [] {[str "@1" := own_border (str "@1")]} ∅)))).
  - apply boot_keyed.
  - reflexivity.
  - intros c [= <-]. vm_compute. reflexivity.
Defined.

(** ** A process table: a shell in alice's pane, her agent below it, a helper below that *)
Definition proc (n : Z) : ProcId := MkProcId n 7.
Definition table_parent (p : ProcId) : option OriginParent :=
  if bool_decide (p = proc 12) then Some (ParentProcess (proc 11))
  else if bool_decide (p = proc 11) then Some (ParentProcess (proc 10))
  else if bool_decide (p = proc 10) then Some ParentTop else None.
Definition table_vendor (p : ProcId) : Vendorship := if bool_decide (p = proc 11) then Vendor else NotVendor.
Definition table_roots : PaneRoots := [(str "0", None, proc 20); (str "1", None, proc 10)].
Lemma still_walk_is_exact_witness :
  resolve_peer_origin_with (still_world table_vendor table_parent (λ _, true)) 0 (proc 12) table_roots =
    OriginPane (str "1") None (proc 10) true.
Proof.
  rewrite (still_walk_is_exact table_vendor table_parent (λ _, true) table_roots 0 (proc 12) [proc 12; proc 11; proc 10]).
  - vm_compute. reflexivity.
  - reflexivity.
  - vm_compute. auto.
  - apply (bool_decide_unpack (NoDup [proc 12; proc 11; proc 10])). vm_compute. exact I.
  - vm_compute. lia.
  - repeat constructor.
  - reflexivity.
Defined.

(** ** A daemon with one session of two panes *)
Definition demo_slot : SessionSlot :=
  MkSlot true (str "work") true (Some demo_session)
    {[str "%1" := MkObserved (str "%1") (Some (proc 10)); str "%2" := MkObserved (str "%2") (Some (proc 20))]} ∅.
Definition demo_mailbox : MailboxService (V:=Value) := service_new (MkDirectory demo_ws ∅ ∅ ∅) demo_empty true.
Definition demo_daemon : DaemonState (V:=Value) := MkDaemonState demo_ws (boot None) (Some demo_mailbox) [demo_slot] [].
Lemma demo_daemon_ok : daemon_ok demo_daemon.
Proof.
  split; [|by intros ? [= <-]].
  assert (∀ label k, ¬ worn (live_registry demo_daemon) label k) as Hn by (intros label k [(a & Ha & _)|(a & Ha & _)]; discriminate Ha).
  split; [apply boot_keyed|..].
  - intros label k k' Hw. by destruct (Hn label k).
  - intros label k Hw. by destruct (Hn label k).
  - intros label k Hw. by destruct (Hn label k).
  - intros k a Ha. discriminate Ha.
Qed.
Definition seen_alice : option RouteSeen := adoption_route demo_daemon (Some demo_slot) true (str "%1") (Some (str "@1", 10%Z)) (Some (proc 10)).
Definition named_daemon : DaemonState (V:=Value) :=
  (label_pane (λ s, s) calm_between WriteLanded demo_daemon (str "work") (str "%1") (Some (str "ann")) None (live_registry demo_daemon)
    (live_registry demo_daemon) seen_alice seen_alice seen_alice None true).1.
Lemma calm_locked : locked (calm_between (V:=Value)).
Proof. intros n dm. apply rtc_refl. Qed.
Lemma named_daemon_run : rtc roster_step demo_daemon named_daemon.
Proof.
  apply rtc_once, StepLabel; [intros _; exact calm_locked|]. unfold seen_alice, seen_route.
  exists (Some demo_slot), true, (str "%1"), (Some (str "@1", 10%Z)), (Some (proc 10)). reflexivity.
Qed.
Definition alice_seat : nat * SessionInstanceId * ObservedPane := (0%nat, demo_session, MkObserved (str "%1") (Some (proc 10))).
Definition bob_seat : nat * SessionInstanceId * ObservedPane := (0%nat, demo_session, MkObserved (str "%2") (Some (proc 20))).
Lemma seats_of_named : mailbox_panes (dm_workspace_id named_daemon) (dm_sessions named_daemon) None = [alice_seat; bob_seat].
Proof. vm_compute. reflexivity. Qed.
Lemma named_daemon_ok : daemon_ok named_daemon.
Proof.
  apply so_ok, label_pane_ok; [exact calm_locked|split; [exact demo_daemon_ok|by eexists]|]. exists (Some demo_slot), true, (str "%1"), (Some (str "@1", 10%Z)), (Some (proc 10)). reflexivity. Qed.
Lemma ann_reachable : reachable named_daemon alice (str "ann").
Proof.
  right. exists alice_seat, (pane 1 eq_refl), (proc 10), (process 10 eq_refl), (ann_row (str "@1")). rewrite seats_of_named.
  split; [left|]. split; [exact (pane_parse_display (pane 1 eq_refl))|]. split; [reflexivity|]. split; [reflexivity|].
  split; [exact (proc_instance_round (process 10 eq_refl))|]. split; [vm_compute; reflexivity|reflexivity].
Qed.
Lemma alice_not_admin ws : alice ≠ recipient_admin ws.
Proof. intros H. apply (f_equal is_admin) in H. discriminate H. Qed.
Lemma publication_names_the_roster_witness :
  let '(dm', ok) := refresh_mailbox_directory named_daemon in
  ok = true ∧ ∀ svc, dm_messaging dm' = Some svc → identity_for_recipient (sv_directory svc) alice = Some (MkIdentity alice (str "ann")).
Proof.
  pose proof (publication_names_the_roster named_daemon named_daemon_ok) as Hp.
  destruct (refresh_mailbox_directory named_daemon) as [dm' ok]. destruct Hp as [Hok Hn]. split; [exact Hok|].
  intros svc Hs. exact (proj2 (Hn svc Hs alice (str "ann") (alice_not_admin _)) ann_reachable).
Defined.

Definition table_kernel : Kernel :=
  MkKernel (λ _ p, if bool_decide (p ∈ [10; 11; 12; 20]%Z) then Some 7 else None)
    (λ _ p, if (p =? 12)%Z then Some 11%Z else if (p =? 11)%Z then Some 10%Z else Some 1%Z) (λ _ _, None).
Definition is_agent (_ : nat) (p : Z) : Vendorship := if (p =? 11)%Z then Vendor else NotVendor.
Definition alive_all (_ : ProcId) : bool := true.
Definition the_caller : result CallerError MailboxIdentity :=
  workspace_messaging_caller named_daemon table_kernel 501 is_agent 0 (Ok (501, 12%Z)) alive_all.
Lemma the_caller_is_ann : the_caller = Ok (MkIdentity alice (str "ann")).
Proof. vm_compute. reflexivity. Qed.
Lemma caller_is_who_its_chain_says_witness :
  ∃ path row root, head path = Some (proc 12) ∧ last path = Some (rp_root row) ∧ row ∈ (report_panes named_daemon alive_all).1 ∧
    path_is_current (observed_world table_kernel 501 is_agent) (1 + 2 * length path - 1) path = true ∧
    process_instance_id (rp_root row) = Some root ∧ route_is_current (live_registry named_daemon) (rp_recipient_key row) root = true.
Proof.
  destruct (caller_is_who_its_chain_says named_daemon table_kernel 501 is_agent 0 501 12%Z alive_all (MkIdentity alice (str "ann")) the_caller_is_ann)
    as (svc & start & path & Hs & Hstart & Hhead & _ & _ & _ & H).
  assert (start = proc 12) as -> by (vm_compute in Hstart; injection Hstart as <-; reflexivity).
  destruct (vendor_read _ _ path).
  - destruct H as (row & token & label & root & H1 & _ & H2 & H3 & H4 & H5 & _). exists path, row, root.
    split; [exact Hhead|]. split; [exact H1|]. split; [exact (proj1 (report_pane_at_Some _ _ _ _ H2))|]. split; [exact H3|].
    split; [exact H4|exact H5].
  - exfalso. destruct H as [H _]. apply (f_equal (λ x, is_admin (id_key x))) in H. discriminate H.
Defined.
Definition published : DaemonState (V:=Value) * bool := refresh_mailbox_directory named_daemon.
Lemma published_ok : refresh_mailbox_directory named_daemon = (published.1, true).
Proof.
  pose proof (refresh_names named_daemon named_daemon_ok) as Hn. unfold published.
  destruct (refresh_mailbox_directory named_daemon) as [dm' ok]. destruct Hn as [-> _]. reflexivity.
Qed.
Definition published_service : MailboxService (V:=Value) := default demo_mailbox (dm_messaging published.1).
Lemma published_messaging : dm_messaging published.1 = Some published_service.
Proof.
  assert (match dm_messaging published.1 with Some _ => true | None => false end = true) as Hs by (vm_compute; reflexivity).
  unfold published_service. revert Hs. destruct (dm_messaging published.1); [reflexivity|discriminate].
Qed.
Lemma agent_reaches_its_mailbox_witness :
  ∃ row, row ∈ (report_panes named_daemon alive_all).1 ∧ rp_root row = proc 10 ∧
    resolve_mailbox_identity published.1 (report_panes named_daemon alive_all).1 (OriginPane (str "0") None (proc 10) true) published_service =
      match rp_label row with Some name => Ok (MkIdentity (rp_recipient_key row) name) | None => Err OriginDenied end.
Proof.
  apply (agent_reaches_its_mailbox named_daemon published.1 published_service alive_all (proc 10) (str "0") None (proc 10)).
  - exact named_daemon_ok.
  - exact published_ok.
  - exact published_messaging.
  - vm_compute. discriminate.
  - vm_compute. reflexivity.
Defined.

Definition quiet_daemon : DaemonState (V:=Value) := MkDaemonState demo_ws (boot None) None [demo_slot] [].
Definition two_anns : Adoption := MkAdoption (str "work") (str "%2") (str "ann") (Some bob) (Some (process 20 eq_refl)) None 20 (str "@1") None.
Lemma unpublished_names_race_witness :
  let second dm := commit_adoption_during_publication calm_between WriteLanded dm two_anns (own_border (str "@1")) in
  let '(dm', answer) :=
    commit_adoption_during_publication (λ n dm, if (n =? 0)%nat then (second dm).1 else dm) WriteLanded quiet_daemon (ann_row (str "@1"))
      (own_border (str "@1")) in
  answer = Ok () ∧ (second quiet_daemon).2 = Ok () ∧
  worn (live_registry dm') (str "ann") alice ∧ worn (live_registry dm') (str "ann") bob.
Proof.
  apply (unpublished_names_race quiet_daemon (ann_row (str "@1")) two_anns (own_border (str "@1")) (own_border (str "@1")) alice bob).
  - reflexivity.
  - apply boot_keyed.
  - reflexivity.
  - reflexivity.
  - discriminate.
  - reflexivity.
  - intros k [(a & Ha & _)|(a & Ha & _)]; discriminate Ha.
  - intros r. eexists. reflexivity.
Defined.

(** * The theorems about the control client and the watcher at concrete inputs *)

(** ** The stream *)
(** Two lines and the start of a third, cut in the middle of the second. *)
Definition cut_stream : list (list N) := [str "%pause %1" ++ [10] ++ str "%ex"; str "it" ++ [10] ++ str "%o"].
Lemma lines_ignore_buffers_witness :
  control_lines (S (length (mjoin cut_stream))) cut_stream = Some ([str "%pause %1"; str "%exit"; str "%o"], StreamEof).
Proof.
  rewrite (lines_ignore_buffers cut_stream).
  - vm_compute. reflexivity.
  - repeat constructor; discriminate.
Defined.
(** A captured pane that shows control-mode text. *)
Definition tricky_items : list StreamItem :=
  [ItemNotify (str "%sessions-changed");
   ItemBlock 1700000000 7 true true [str "%begin 1 8 1"; str "%end 1 8 1"; str "%error 1 9 1"];
   ItemBlock 1700000001 8 true false [str "no such pane"]].
Lemma blocks_read_back_witness :
  feed_all line_router_new (mjoin (item_lines <$> tricky_items)) =
    (None, [RNotify SessionsChanged;
            RReply true (Ok [str "%begin 1 8 1"; str "%end 1 8 1"; str "%error 1 9 1"]);
            RReply true (Err (str "no such pane"))]).
Proof.
  rewrite (blocks_read_back tricky_items); [vm_compute; reflexivity|].
  repeat constructor; done.
Defined.
Lemma oversized_block_is_refused_witness :
  ∃ k, feed_all line_router_new (block_header 1 7 true :: take k (replicate 65537 [])) = (None, [RBlockOverflow]).
Proof.
  apply (oversized_block_is_refused 1 7 true (replicate 65537 [])); [done| |].
  - apply Forall_replicate. vm_compute. reflexivity.
  - intros [Hl _]. unfold len in Hl. rewrite length_replicate in Hl. revert Hl. by vm_compute.
Defined.

(** ** The queue *)
(** A consumer that reads one of two, while a third finds the byte budget spent. *)
Definition small_n : TmuxNotification := WindowAdd (str "@1").
Definition queue_history : list QueueOp := [QEnqueue small_n; QEnqueue (WindowAdd (str "@2")); QRecv; QHold; QEnqueue (WindowAdd (str "@3"))].
Lemma queue_history_genuine : Forall genuine queue_history.
Proof. repeat constructor. Qed.
Lemma gaps_are_told_witness :
  ∃ waiting dropped,
    sg_produced (observe sink_new segment_new queue_history).2 = [small_n] ++ waiting ++ dropped ∧
    sk_pending (observe sink_new segment_new queue_history).1 = true.
Proof.
  destruct (gaps_are_told queue_history _ _ queue_history_genuine (surjective_pairing _)) as (w & d & H & _); [reflexivity|].
  exists w, d. split; [exact H|vm_compute; reflexivity].
Defined.
Lemma marker_place_is_reserved_witness :
  (enqueue_notification (observe sink_new segment_new queue_history).1 small_n).2 ≠ EnvelopeExceeded.
Proof.
  intros H. apply (marker_place_is_reserved queue_history small_n queue_history_genuine) in H; discriminate.
Defined.
Lemma accepted_reconciliation_is_complete_witness :
  let before := [QEnqueue small_n] in
  let s := (hold_continuity (observe sink_new segment_new before).1).1 in
  let r := resume_after_reconcile (queue_run s [QRecv]) 0 in
  r.2 = true ∧ offers [QRecv] = 0 ∧ r.1 = MkSink [] NOTIFICATION_CAPACITY NOTIFICATION_MAX_QUEUED_BYTES false 0 true.
Proof.
  cbv zeta. split; [vm_compute; reflexivity|].
  apply (accepted_reconciliation_is_complete [QEnqueue small_n] [QRecv]
    (hold_continuity (observe sink_new segment_new [QEnqueue small_n]).1).1 0).
  - repeat constructor.
  - vm_compute. reflexivity.
  - repeat constructor.
  - repeat constructor.
  - vm_compute. discriminate.
  - vm_compute. reflexivity.
Defined.

(** ** The pipe *)
(** Two commands in flight, whose replies come back in order. *)
Definition two_commands : list CtlStep :=
  command_steps 1 (str "list-panes") ++ command_steps 2 (str "list-windows") ++
  reply_steps 7 [str "%0"] ++ [CLine (str "%window-add @1")] ++ reply_steps 8 [str "@0"].
Definition two_done : Control := default control_new (checked_run writes_finish control_new two_commands).
Lemma two_done_reached : reached two_done.
Proof. apply (checked_reached control_new two_commands); [constructor|]. vm_compute. reflexivity. Qed.
Lemma replies_reach_their_command_witness :
  ct_delivered two_done = [(RtCaller 1, Ok [str "%0"]); (RtCaller 2, Ok [str "@0"])] ∧
  ct_delivered two_done = take (length (ct_delivered two_done)) (zip (ct_wire two_done).*1 (ct_routed two_done)).
Proof.
  split; [vm_compute; reflexivity|]. exact (proj1 (replies_reach_their_command two_done two_done_reached)).
Defined.
Lemma pending_replies_are_bounded_witness :
  len (cp_pending (ct_pipe two_done)) + len (ct_waiting two_done) + ct_reserved two_done ≤ 64.
Proof. exact (pending_replies_are_bounded two_done two_done_reached). Defined.
(** The pipe refuses the paste before it takes a byte. *)
Definition paste_cmd : rstr := paste_buffer_command (str "b1") (str "%7") true true.
Definition refused_paste : list CtlStep := [CSubmit 1 paste_cmd; CLock 0; CWrite WrFailed].
Definition paste_refused : Control := default control_new (checked_run writes_finish control_new refused_paste).
Lemma paste_refused_reached : reached paste_refused.
Proof. apply (checked_reached control_new refused_paste); [constructor|]. vm_compute. reflexivity. Qed.
Definition refused_submission : Submission := MkSubmission (RtCaller 1) paste_cmd 0 (Err TmuxIo).
Lemma paste_was_refused : refused_submission ∈ ct_returns paste_refused.
Proof. assert (ct_returns paste_refused = [refused_submission]) as -> by (vm_compute; reflexivity). by left. Qed.
Lemma submissions_tell_what_left_witness : sm_accepted refused_submission = 0.
Proof. exact (submissions_tell_what_left paste_refused refused_submission paste_refused_reached paste_was_refused). Defined.

(** ** Commands *)
Definition some_keys : list rstr := str <$> ["it's"; "ok"; "C-c"; "Enter"; "x"]%string.
Lemma keys_are_sent_in_order_witness :
  length (send_keys_commands (str "%7") some_keys) = 3%nat ∧
  mjoin (key_runs (length some_keys) some_keys).*2 = some_keys.
Proof.
  split; [vm_compute; reflexivity|].
  exact (proj1 (proj2 (keys_are_sent_in_order (str "%7") some_keys))).
Defined.
Lemma pane_pid_is_agreed_witness :
  ∃ line, line ∈ [str "%1" ++ [9] ++ str "41"; str "%7" ++ [9] ++ str "42"] ∧ says (str "%7") line 42.
Proof.
  exact (proj1 (pane_pid_is_agreed [str "%1" ++ [9] ++ str "41"; str "%7" ++ [9] ++ str "42"] (str "%7") 42 eq_refl)).
Defined.

(** ** The watcher *)
(** A title with a tab in it, and a dead pane without a process. *)
Definition row_seven : TableRow :=
  MkTableRow (str "%7") (str "@1") (str "main") (str "a" ++ [9] ++ str "b") true false (str "zsh") 80 24 true (-1).
Lemma row_seven_ok : row_ok row_seven.
Proof. unfold row_ok. cbn -[str]. split_and!; try (apply (bool_decide_unpack _); vm_compute; exact I); lia. Qed.
Lemma pane_row_round_trip_witness : parse_pane_row (pane_row_line row_seven) = Some row_seven.
Proof. exact (pane_row_round_trip row_seven row_seven_ok). Defined.
Definition snapshot_of (lines : list rstr) : Answers := MkAnswers [] (Ok []) (Ok lines) (Ok []).
Definition started : WatchLoop := watch_start (str "work") None ∅.
(** A pane appears, then reports a title. *)
Definition pane_story : list LoopInput :=
  [LiRequest (snapshot_of [pane_row_line row_seven]);
   LiProduced (SubscriptionChanged (str "cyp7") None None (Some (str "%7"))
     (str "new" ++ [9] ++ str "1" ++ [9] ++ str "0" ++ [9] ++ str "zsh" ++ [9]));
   LiNotification 0 0 (snapshot_of [])].
Definition story_told : WatchLoop := default started (watch_run started pane_story).
(** Somebody subscribes between the write of the first table and its first event, and is told of a
    pane that is in the table already. *)
Lemma events_track_the_table_witness :
  length (lc_effects (wl_ctx story_told)) = 5%nat ∧
  ∃ fx, lc_effects (wl_ctx story_told) = fx ∧
    foldl replay_event (table_after ∅ (take 1 fx)) (events_of (drop 1 fx)) = lc_table (wl_ctx story_told).
Proof.
  split; [vm_compute; reflexivity|].
  destruct (events_track_the_table started pane_story story_told) as (fx & H1 & _ & H2); [done|vm_compute; reflexivity|].
  exists fx. split; [exact H1|]. pose proof (H2 (take 1 fx) [] (drop 1 fx) (eq_sym (take_drop 1 fx))) as H.
  rewrite app_nil_r in H. exact H.
Defined.
(** The reader overruns the consumer by one notification. *)
Definition overrun : list LoopInput :=
  replicate 257 (LiProduced small_n) ++ replicate 256 (LiNotification 0 0 (snapshot_of [])).
Definition overrun_done : WatchLoop := default started (watch_run started overrun).
Lemma overrun_ok : Forall input_ok overrun.
Proof.
  apply Forall_app. split; apply Forall_replicate; [done|]. cbn. constructor.
Qed.
Lemma overrun_runs : watch_run started overrun = Some overrun_done.
Proof. vm_compute. reflexivity. Qed.
Lemma living_loops_know_their_gaps_witness :
  ∃ waiting dropped, sg_produced (segment overrun_done) = sg_received (segment overrun_done) ++ waiting ++ dropped ∧
    qn_notification <$> sk_queue (wl_queue overrun_done) =
      waiting ++ (if bool_decide (dropped = []) && negb (sk_pending (wl_queue overrun_done)) then [] else [ContinuityLost]).
Proof.
  exact (living_loops_know_their_gaps (str "work") None ∅ overrun overrun_done overrun_ok overrun_runs eq_refl).
Defined.
Definition gap_answer : Answers := snapshot_of [pane_row_line row_seven].
Definition gap_closed : WatchLoop := default started (watch_step overrun_done (LiNotification 0 0 gap_answer)).
Lemma gaps_close_on_a_snapshot_witness :
  lc_table (wl_ctx gap_closed) !! str "%7" = Some row_seven ∧ wl_alive gap_closed = true ∧
  wl_continuity gap_closed = None ∧ sk_queue (wl_queue gap_closed) = [].
Proof.
  split; [vm_compute; reflexivity|].
  assert (answers_ok gap_answer) as Ha by (apply Forall_nil; exact I).
  assert (offers (QEnqueue <$> an_meanwhile gap_answer) ≤ u64_max) as Hn by (vm_compute; discriminate).
  assert ((recv (wl_queue overrun_done)).2 = Some ContinuityLost) as Hr by (vm_compute; reflexivity).
  assert (watch_step overrun_done (LiNotification 0 0 gap_answer) = Some gap_closed) as Hs by (vm_compute; reflexivity).
  destruct (gaps_close_on_a_snapshot (str "work") None ∅ overrun overrun_done 0 0 gap_answer gap_closed
    overrun_ok overrun_runs Ha Hn Hr Hs) as [[_ Hal] H].
  specialize (Hal eq_refl). destruct (H Hal) as (H1 & _ & H2 & _). split; [exact Hal|]. split; [exact H1|exact H2].
Defined.

(** * Witnesses: composers, scheduling and messaging

    The theorems of [ComposerProjection.v], [SchedulingProps.v] and [MessagingProps.v] at
    the same service: bob's second message is staged on his composer, drawn over two
    rows, and a daemon without sessions sends, claims and schedules. *)

(** ** A composer that is owned *)
Definition held : list (ActiveComposerNotification (V:=Value)) :=
  match active_composer_notifications demo_service bob with Ok l => l | Err _ => [] end.
Definition held_payload : rstr :=
  default [] (c ← head held; message ← acn_message c; expected_notification_payload (acn_record c) message).
(** The payload with a row end where its fifth word begins, and the row filled up. *)
Definition wrapped_payload : rstr := take 27 held_payload ++ str "   " ++ [10] ++ drop 28 held_payload.
Definition owned_screen : MessagingRuntimeComposerObservation :=
  MkRuntimeObservation (Some SemHumanInput) (Some (attempt_display attempt2)) false false false
    (CbBound (MkPhysicalBinding (process 10 eq_refl) (process 11 eq_refl) (process 12 eq_refl) (MkManifestId (str "claude"))))
    (Some bob) (CapVisible wrapped_payload).
Definition owned_answer : MessagingRuntimeComposerProjection :=
  default runtime_projection_default (project_runtime_composer held true owned_screen).
Lemma ownership_is_exact_witness :
  rp_notification_attempt owned_answer = Some attempt2 ∧
  ∃ c expected, owns_composer held true owned_screen c expected ∧ visible_single_line_payload_matches wrapped_payload expected = true.
Proof.
  split; [apply (bool_decide_unpack _); vm_compute; exact I|].
  assert (project_runtime_composer held true owned_screen = Some owned_answer) as H.
  { assert (bool_decide (is_Some (project_runtime_composer held true owned_screen)) = true) as Hs by (vm_compute; reflexivity).
    unfold owned_answer. destruct (project_runtime_composer held true owned_screen) as [p|]; [reflexivity|discriminate Hs]. }
  destruct (ownership_is_exact held true owned_screen owned_answer H) as ([H1 _] & _ & _).
  destruct H1 as (c & expected & actual & Ho & Hc & _ & Hm); [apply (bool_decide_unpack _); vm_compute; exact I|].
  assert (wrapped_payload = actual) as <- by exact (f_equal (λ c, match c with CapVisible a => a | _ => [] end) Hc).
  exists c, expected. split; [exact Ho|exact Hm].
Defined.

(** ** A daemon that schedules *)
Definition demo_host : Host (V:=Value) :=
  MkHost demo_service [] ∅ (MkPanes ∅ ∅) ∅ (live_registry demo_daemon) (MkEngine ∅ ∅) ∅ ∅ ∅ false [].
Definition never (_ : nat) : bool := false.
Definition an_error (_ : NotificationAdapterError) : rstr := str "refused".
Definition fresh_attempt (_ : nat) : NotificationAttemptId := durable 85.
Lemma alone_sound base k h : sound (V:=Value) demo_ws base h → sound demo_ws base (alone k h).
Proof. done. Qed.
Lemma calm_bounded : ∀ k, env_now (calm_env k) ≤ u64_max.
Proof. intros k. vm_compute. discriminate. Qed.
Lemma demo_host_sound : ∃ rows, sound demo_ws rows demo_host.
Proof. destruct demo_service_ok as [rows Hok]. exists rows, rows. split; [exact Hok|reflexivity]. Qed.
(** Bob's first message is claimed and his second needs attention: nothing to wake. *)
Definition bob_scheduled := schedule_recipient alone never calm_env an_error fresh_attempt bob 0%nat demo_host.
Lemma scheduling_answers_are_true_witness :
  ∃ rows o, bob_scheduled.2 = Answered o ∧ sound demo_ws rows bob_scheduled.1.2 ∧ truthful bob o bob_scheduled.1.2.
Proof.
  destruct demo_host_sound as [rows Hs].
  pose proof (scheduling_answers_are_true demo_ws rows alone calm_env (alone_sound rows) calm_bounded never an_error fresh_attempt
    bob 0%nat demo_host Hs) as H.
  fold bob_scheduled in H. destruct bob_scheduled as [[k h] a] eqn:E. destruct H as (H1 & _ & _ & H2).
  assert (match bob_scheduled.2 with Answered _ => true | _ => false end = true) as Ha by (vm_compute; reflexivity).
  rewrite E in Ha. destruct a as [o| | |]; try discriminate Ha. exists rows, o. split; [reflexivity|]. split; [exact H1|apply (H2 o eq_refl)].
Defined.
(** Bob's wake was blocked while his session was away; now his pane is back, and the agent in it
    is the one he was adopted with. *)
Definition parked_ops : list StoreOp :=
  [OpAccept m1 (draft_to (str "first") (str "k1") None) 5; OpQueue m1 bob attempt1;
   StoreOps.OpAdvance m1 bob attempt1 Gating None None; StoreOps.OpBlock m1 bob attempt1 SessionUnavailable None None].
Definition s_parked : DemoStore := run_ops demo_empty parked_ops.
Definition parked_service : MailboxService (V:=Value) := service_new demo_directory s_parked true.
Definition bob_row : TableRow :=
  MkTableRow (str "%2") (str "@1") (str "work") [] false false (str "claude") 80 24 true 10.
Definition bob_adopted : Registry :=
  MkRegistry {[bob := MkAdoption (str "work") (str "%2") (str "ben") (Some bob) (Some (process 10 eq_refl)) None 10 (str "@1") None]}
    [] ∅ ∅.
Definition parked_host : Host (V:=Value) :=
  MkHost parked_service [MkLiveSlot true true (Some demo_session) (Some 1)] {[1 := {[str "%2" := bob_row]}]} (MkPanes ∅ ∅) ∅
    bob_adopted (MkEngine ∅ ∅) ∅ ∅ ∅ false [].
Definition seen_process (_ : nat) (p : Z) : option ProcId := Some (proc p).
Definition seen_binding (_ : nat) (_ : Host (V:=Value)) (_ : N) (_ : TableRow) : option Binding := Some bob_binding.
Definition seen_rules (_ : nat) (_ : Host (V:=Value)) (_ : N) (_ : TableRow) : option rstr := Some (str "claude").
Definition bob_evidence : NotificationRouteEvidenceId := MkRouteEvidence (str "boot") 0.
Definition reopening := prepare_recipient_after_route_evidence alone seen_process seen_binding seen_rules (str "boot") calm_env bob
  bob_evidence 0%nat parked_host.
Lemma parked_host_sound : ∃ rows, sound demo_ws rows parked_host.
Proof.
  assert (stored s_parked) as [rows Hok] by (apply stored_ops; [apply stored_empty|valid_list]).
  exists rows, rows. split; [|reflexivity]. split; [|done|done|exact Hok].
  exact (do_workspace _ _ _ (directory_new_spec _ _ _ demo_directory_new)).
Qed.
Lemma wakes_reopen_on_proven_evidence_witness :
  ∃ route n o j, reopening.2 = Answered (Some (route, n)) ∧ nr_state n = Gating ∧ nt_row route = bob_row ∧
    proven_at seen_process seen_binding seen_rules (at_section alone 0 parked_host) bob bob_evidence j route o.
Proof.
  destruct parked_host_sound as [rows Hs].
  pose proof (wakes_reopen_on_proven_evidence demo_ws rows alone calm_env (alone_sound rows) calm_bounded seen_process seen_binding seen_rules
    (str "boot") bob bob_evidence 0%nat parked_host Hs) as H. cbn zeta in H.
  fold reopening in H. destruct reopening as [[k h] a] eqn:E. destruct H as [_ H].
  assert (match reopening.2 with Answered (Some (r, _)) => bool_decide (nt_row r = bob_row) | _ => false end = true) as Ha
    by (vm_compute; reflexivity).
  rewrite E in Ha. cbn [snd] in Ha. destruct a as [[[route n]|]| | |]; try discriminate Ha. apply bool_decide_eq_true in Ha.
  destruct (H route n eq_refl) as (Hg & o & ready & again & j1 & g1 & i1 & j2 & i2 & g2 & _ & _ & _ & Hp & _).
  exists route, n, o, i1. split; [reflexivity|]. split; [exact Hg|]. split; [exact Ha|exact Hp].
Defined.

(** ** A claim of a submitted doorbell *)
Definition submitted_handle : DeliveryHandle :=
  MkHandle (MkContext m1 bob attempt1 0) (str "ben") (str "doorbell") (Some Doorbell)
    (MkHandleState DSubmitted 1 None None None None 0 None) (MkSubmitted 0 (str "%2") 1000 None None) true 0 false.
Definition claiming_host : Host (V:=Value) :=
  MkHost demo_service [] ∅ (MkPanes ∅ ∅) ∅ (live_registry demo_daemon) (MkEngine {[3 := submitted_handle]} ∅) {[attempt1 := 3]} ∅ ∅ false [].
Lemma claim_settles_its_delivery_witness :
  let '(_, h, a) := settle_notification_claim alone (λ _, 7) attempt1 0%nat claiming_host in
  a = Answered true ∧ ho_signals h = [SigAck 3].
Proof.
  assert (live_handle claiming_host attempt1 = Some 3) as H1 by (vm_compute; reflexivity).
  assert (handle_at claiming_host 3 = Some submitted_handle) as H2 by (vm_compute; reflexivity).
  pose proof (claim_settles_its_delivery (λ _, 7) attempt1 0%nat claiming_host 3 submitted_handle H1 H2 eq_refl) as H.
  destruct (settle_notification_claim _ _ _ _ _) as [[k h] a]. destruct H as (Ha & _ & _ & _ & Hack & _).
  split; [exact Ha|]. destruct Hack as [Hsig _]; [by left|]. exact Hsig.
Defined.

(** ** Messages and claims *)
Definition note_to_ben : MsgSendParams :=
  MkSendParams [str "ben"] None (str "note") None (str "three") false (Some (str "k12")) None None false false.
Definition ann_sends := messaging_send alone never calm_env an_error fresh_attempt (λ _, draws) [] never ann note_to_ben 0%nat demo_host.
Lemma accepted_messages_are_answered_witness :
  ∃ rows res accepted, ann_sends.2 = Answered res ∧ rc_to <$> sr_deliveries res = as_recipients accepted ∧
    (∃ svc, (send_op calm_env (λ _, draws) ann note_to_ben 0%nat svc).2 = Answered accepted) ∧ sound demo_ws rows ann_sends.1.2.
Proof.
  destruct demo_host_sound as [rows Hs]. exists rows.
  pose proof (accepted_messages_are_answered demo_ws alone never calm_env an_error fresh_attempt (λ _, draws) [] never alone_sound
    calm_bounded ann note_to_ben rows 0%nat demo_host Hs) as H.
  fold ann_sends in H. destruct ann_sends as [[k h] a] eqn:E. destruct H as [Hh H].
  assert (match ann_sends.2 with Answered _ => true | _ => false end = true) as Ha by (vm_compute; reflexivity).
  rewrite E in Ha. destruct a as [res| | |]; try discriminate Ha.
  destruct H as (svc & accepted & base' & _ & Hacc & _ & (_ & _ & _ & Hto & _)). exists res, accepted.
  split; [reflexivity|]. split; [exact Hto|]. split; [exists svc; exact Hacc|exact Hh].
Defined.
Lemma claims_are_answered_witness :
  ∃ rows,
    let '(_, h, a) := messaging_claim alone never calm_env an_error fresh_attempt (λ _, 7) bob m2 0%nat demo_host in
    sound demo_ws rows h ∧
    match parse_notification_attempt_claim_locator m2 with
    | Some attempt => follows demo_ws rows 0 (λ k svc, service_claim_locator svc (calm_env k) bob m2 attempt) (λ x, claim_result x.1) a
    | None => follows demo_ws rows 0 (λ k svc, claim svc (calm_env k) bob m2) claim_result a
    end.
Proof.
  destruct demo_host_sound as [rows Hs]. exists rows.
  exact (claims_are_answered demo_ws alone never calm_env an_error fresh_attempt (λ _, 7) alone_sound calm_bounded bob m2 rows 0%nat demo_host Hs).
Defined.
